(* ===== verification/_CoqProject ===== *)
-Q . S2P
Prelude.v
Bytes.v
Cpu.v
Spinlock.v
Pmm.v
Vmm.v
VmmTree.v
VmmProofs.v
VmmFree.v
VmmSpace.v
VmmClone.v
VmmHeap.v
VmmTheorems.v
KVector.v
KHeap.v
KList.v
Process.v
SchedInv.v
Scheduler.v
SchedProofs.v
SchedOps.v
SchedTheorems.v
SchedClaims.v
Crt.v
KString.v
Algo.v
Fmt.v
KMem.v
Slab.v
SlabInv.v
SlabProofs.v
Kmalloc.v
VmmMem.v
UserSpace.v
Elf.v
Exec.v
ExecProofs.v
ForkProofs.v
Trap.v
TrapProofs.v
TrapSystem.v
Descriptors.v
Timer.v
Acpi.v
AcpiProofs.v
Apic.v
SmartPtr.v
Kmutex.v
Syscall.v
SyscallProofs.v
UserMem.v
Vfs.v
VfsProofs.v
Font.v
Framebuffer.v
Console.v
ConsoleProofs.v
ConsoleScreen.v
Keyboard.v
Tty.v
TtyProofs.v
Initramfs.v
InitramfsProofs.v
SysFd.v
SysFdProofs.v
