(* ===== verification/Prelude.v ===== *)
(** * hltOS: a verification development

    hltOS is a single-processor x86-64 kernel in C++ (sources under [src/kernel]).  This library
    translates its components into executable Rocq definitions, one file or group of files per
    component, and proves what makes them correct.

    ** How code is modelled

    Code that changes state is a computation [M S A] (this file): from a component's state [S] to an
    [outcome], which is [Ok] with the new state and the result, [Panic] ([kpanic], [kassert]), [Fault]
    (an access outside the storage the model gives the code: a bad pointer, an index out of bounds, an
    unwritten byte) or [Hang] (a loop that can never be left).  [wp m E Q s] is the weakest
    precondition: started in [s], [m] returns in a state that satisfies [Q], or panics and [E] holds; it
    never faults and never hangs.  With [E := False] it is total correctness, and almost all theorems
    are stated that way.  A component that calls another one runs it on the part of its state the other
    owns ([zoom]).  Machine integers are integers with the wrap-around written out ([wrap64] and the
    like).  Loops that are not over a list take fuel, and each theorem shows that the fuel given is
    enough: capacity doubling (64 rounds reach any 64-bit size), the digits of a number (64 in binary),
    a spinning loop (one round suffices on one CPU), string scans (the number of mapped bytes).

    ** Components and files

    - [Prelude.v]: the monad, [wp] and its rules, machine integers, bit fields, list lemmas.
    - [Cpu.v] ([arch/x64/cpu], [arch/x64/percpu]): flags, control registers, MSRs, the [PerCPU] record.
    - [Spinlock.v] ([include/exclusive]): both spinlocks on one CPU; in [Module Smp], the irqsave lock
      as a step relation over any number of CPUs.
    - [Pmm.v] ([lib/memory/pmm.cpp], the memory map of [lib/boot]): the frame allocator over its bitmap.
    - [Vmm.v] ([arch/x64/memory/vmm.cpp]): page tables in a physical memory of 64-bit words.  The proofs
      are in [VmmTree.v] (the tables as trees, walks), [VmmProofs.v] (the walking and populating
      functions), [VmmFree.v] (teardown), [VmmSpace.v] (creation), [VmmClone.v] (copying for fork),
      [VmmHeap.v] (the kernel heap), [VmmTheorems.v] (the guarantees).
    - [KVector.v], [KHeap.v], [KList.v] ([include/containers]): the growable array, the binary heaps over
      it, and the circular list with its nodes in an explicit store.
    - [Process.v] ([lib/process]): the process object and its state changes.
    - [Scheduler.v] ([lib/scheduler]): the policy interface as the class [SchedulerPolicy], the mechanism
      over any policy, and the round-robin policy.  The proofs are in [SchedInv.v] (where each process
      belongs), [SchedProofs.v] (the laws [PolicyLaws] the mechanism needs, the building blocks),
      [SchedOps.v] (each operation), [SchedTheorems.v] (the reaper, sequences of operations) and
      [SchedClaims.v] (the guarantees; round robin meets the laws).
    - [Crt.v] ([lib/crt]): [memcpy], [memmove], the string functions, over byte-addressed memory.
    - [KString.v] ([include/containers/kstring.hpp], [kstring_view.hpp]): strings in buffers of written
      and unwritten bytes, and views.
    - [Algo.v] ([include/algo], [lib/algo]): [split], [tokenize] and [join] over the strings and vectors.
    - [Fmt.v] ([include/fmt]): number formatting in its fixed arrays, parsing, [sprintf].
    - [KMem.v], [Slab.v], [Kmalloc.v] ([lib/memory]): the memory the allocators rely on as the class
      [KernelMemory], the slab allocator and [kmalloc]; the proofs of the slabs are in [SlabInv.v] and
      [SlabProofs.v], and [VmmMem.v] shows that the virtual memory manager meets the interface.
    - [UserMem.v] ([lib/memory/memory.cpp]): copies between kernel and user memory under the access check of
      the CPU.
    - [Vfs.v], [VfsProofs.v] ([lib/fs]): inodes, mount points and descriptors in stores; paths.
    - [Initramfs.v], [InitramfsProofs.v] ([lib/fs/initramfs]): the tar archive that becomes the root.
    - [SysFd.v], [SysFdProofs.v] ([lib/syscall/sys_fd.cpp]): the system calls on descriptors, and the methods
      of the inodes they end in.
    - [Font.v], [Framebuffer.v] ([lib/framebuffer], [include/gfx/fonts]): drawing into the back buffer.
    - [Console.v] ([lib/console]): the character grid, its cursor, ANSI sequences; [ConsoleProofs.v] is about the text
      buffer and the cursor, [ConsoleScreen.v] about the pixels.
    - [Keyboard.v] ([arch/x64/drivers/keyboard]): scan codes to key events.
    - [Tty.v], [TtyProofs.v] ([lib/fs/devfs/dev_tty.cpp]): the line editor on top of console and keyboard.
    - [Bytes.v], [UserSpace.v]: little-endian words in byte lists, and user memory as a program sees it, byte by
      byte through the page tables.
    - [Elf.v], [Exec.v] ([lib/process/elf.cpp], [lib/process/process.cpp], [lib/syscall/sys_mem.cpp]): program
      files, [exec_elf64], the user stack, [fork], and the calls that grow an address space; the proofs are in
      [ExecProofs.v] and [ForkProofs.v].
    - [Trap.v] ([context_switch.s], [syscall_entry.s], [isr.s], [trap::init]): the assembly stubs instruction by
      instruction on a machine with registers, MSRs and words of memory; [TrapProofs.v] has the stubs alone,
      [TrapSystem.v] the loader and [fork] composed with them up to user mode.
    - [Descriptors.v] ([arch/x64/gdt], [arch/x64/interrupts]): the bytes of the descriptor tables, how the processor
      reads them, and the dispatch of interrupts to handlers.
    - [Timer.v] (drivers [tsc] and [pit]), [Acpi.v], [AcpiProofs.v] ([lib/acpi]), [Apic.v] (drivers [apic] and
      [pic]): clock arithmetic and waiting; the firmware tables, read through windows onto physical memory (the
      class [PhysWindow], an interface of the virtual memory manager); routing of interrupts and the timer.
    - [SmartPtr.v] ([kshared_ptr.hpp], [kunique_ptr.hpp]): smart pointers over stores of objects and counters.
    - [Kmutex.v] ([lib/exclusive/kmutex.cpp]): the blocking mutex as a step relation over any number of processes.
    - [Syscall.v], [SyscallProofs.v] ([arch/x64/trap/syscall_entry.cpp], [lib/syscall]): the dispatcher and the calls
      on processes, over the scheduler and the virtual memory manager.

    The components are composed as in the code: a system call runs the file system, user memory and a
    terminal on parts of its state; a terminal runs the console, which draws into the framebuffer; the slab
    allocator asks the virtual memory manager for pages, which asks the frame allocator for frames; the
    dispatcher runs [fork] on the memory manager and hands the child to the scheduler; what [fork] and
    [exec_elf64] leave on a kernel stack is what the stubs pop.

    ** What the theorems show

    - Locks: at most one CPU is between [lock] and [unlock], and [unlock] restores the caller's flags.
    - Memory: the frame allocator implements a set of free frames and hands out each once; mapping,
      unmapping, creating, cloning and freeing address spaces do to the page tables what they say, and
      give back every frame; the kernel heap grows by consecutive fresh pages; user range checks are
      exact.
    - Scheduling: over any sequence of operations, up to one that goes through a pointer to a deleted parent
      or a closed descriptor, every process is in the one place its state says;
      sleepers that are due, waiting parents and dead processes get what they are promised; round robin
      serves a ready process after at most the length of the queue.
    - Containers, strings, text: the vector, the list, the heap and the string refine sequences and a
      priority queue; joining inverts splitting; formatting stays inside its arrays and parsing inverts
      it; [memmove] is a simultaneous copy.
    - Heap: [kmalloc] and [kfree] implement disjoint regions on top of the page tables.
    - Files: paths are resolved as the tree of directories says, [getcwd] is the inverse, [mkdir] adds one
      node; an archive of any size is unpacked to exactly its members; a file is a sequence of bytes with an
      offset, for the calls that get at their buffers; a directory is listed in pieces without loss.
    - Screen and terminal: lines and glyphs are the pixels they should be; redrawing the console puts the glyphs
      of the text buffer on the screen, or panics at its edge; on a screen with a margin text written to the
      console is in the text buffer; editing keys act on a text with a cursor.
    - Programs: a well-formed executable is in memory segment by segment with its arguments on the stack; the
      stubs enter it in ring 3 at its entry point; [fork] leaves a scheduled copy that returns 0 at the same
      instruction; the status of [exit] reaches the parent that waits.
    - Machine: system calls, interrupts and context switches bring every register back, and exceptions halt; the
      descriptor tables
      decode to what the stubs assume; interrupts are routed as the firmware's table says; the timer never
      fires late for a sleeper.
    - Pointers and mutex: shared pointers do not dangle before their 32-bit counter can wrap, and unique ones own
      their object alone; the mutex excludes, but can lose a wakeup.
    - Error behaviour: theorems also pin down where the code does not do what it means to, such as the
      tick that loses a process going to sleep, the insertion that writes past a full string buffer, the
      [open] after a [close], or the [read] into a user buffer that SMAP forbids.

    ** Not modelled, and why

    - Boot and the order of initialisation, the serial port, the set-up of the PS/2 controller, CPU feature dumps,
      logging and panic output: sequences of port and MSR accesses whose effect is in the hardware.
    - The TLB: [invlpg] and CR3 reloads have no effect on the walks, which read the tables themselves.
    - The graphics demos ([lib/gfx]): floating-point transformations of demo scenes.
    - [sys_execve] as a whole: opening the file is in [Vfs.v], loading it in [Exec.v]; the loop that copies the
      argument strings out of user memory is not modelled.  The devices behind ports and memory-mapped registers
      are: registers that hold what was written (APIC), and arguments (the answers of the PIT and the counter).
    - Interleavings other than those of the spinlock, the mutex and of the scheduler's sleeping window: the other
      components run on one CPU, one call at a time.
*)

From stdpp Require Export base numbers list list_numbers gmap.
From Stdlib Require Export ZArith Lia Bool ZifyBool.

#[export] Set Default Goal Selector "!".
Open Scope Z_scope.

(** [lia] also reasons about division and remainder by constants. *)
Ltac Zify.zify_post_hook ::= Z.to_euclidean_division_equations.

(** Lemmas that discharge the routine side conditions of a component. *)
Create HintDb pmm discriminated.
Create HintDb vmm discriminated.
#[export] Hint Constants Opaque : vmm.

(** ** Outcomes of kernel code

    [Panic] is a call of [kpanic] (a failed [kassert] included), [Fault] an access outside the
    storage the model gives the code (undefined behaviour of the source), and [Hang] a loop that
    can never be left, such as spinning on a lock the only CPU already holds. *)
Inductive outcome (A : Type) : Type :=
| Ok (a : A)
| Panic
| Fault
| Hang.
Arguments Ok {A} a.
Arguments Panic {A}.
Arguments Fault {A}.
Arguments Hang {A}.

(** Kernel code as a state-passing computation over a component's state [S]. *)
Definition M (S A : Type) : Type := S → outcome (S * A).

#[export] Instance M_ret S : MRet (M S) := λ A a s, Ok (s, a).
#[export] Instance M_bind S : MBind (M S) := λ A B f m s,
  match m s with
  | Ok (s', a) => f a s'
  | Panic => Panic
  | Fault => Fault
  | Hang => Hang
  end.

Definition get {S} : M S S := λ s, Ok (s, s).
Definition gets {S A} (f : S → A) : M S A := λ s, Ok (s, f s).
Definition modify {S} (f : S → S) : M S unit := λ s, Ok (f s, ()).
Definition panic {S A} : M S A := λ _, Panic.
Definition fault {S A} : M S A := λ _, Fault.
Definition hang {S A} : M S A := λ _, Hang.

(** [kassert(cond)] and [kassert_not_null(ptr)]. *)
Definition kassert {S} (b : bool) : M S unit := if b then mret () else panic.
Definition kassert_not_null {S} (p : Z) : M S unit := kassert (negb (p =? 0)).

(** A read the storage may not have. *)
Definition of_option {S A} (o : option A) : M S A :=
  match o with Some a => mret a | None => fault end.

(** [for (x : l) body(x)] with the loop body a computation. *)
Fixpoint for_each {S A} (l : list A) (body : A → M S unit) : M S unit :=
  match l with
  | [] => mret ()
  | x :: l' => body x ≫= λ _, for_each l' body
  end.

(** Running a callee on the part of the caller's state it owns. *)
Definition zoom {S T A} (view : S → T) (put : T → S → S) (m : M T A) : M S A := λ s,
  match m (view s) with
  | Ok (t, a) => Ok (put t s, a)
  | Panic => Panic
  | Fault => Fault
  | Hang => Hang
  end.

(** Running the monad's own steps. *)
Ltac mrun :=
  unfold of_option, kassert, zoom, get, gets, modify, panic, fault, hang;
  unfold mbind, M_bind, mret, M_ret;
  cbn beta iota zeta.

(** ** Weakest preconditions

    [wp m E Q s]: started in [s], [m] returns a value and a state that satisfy [Q], or panics and
    [E] holds; it never faults and never hangs.  With [E := False] this is total correctness. *)
Definition wp {S A} (m : M S A) (E : Prop) (Q : A → S → Prop) (s : S) : Prop :=
  match m s with
  | Ok (s', a) => Q a s'
  | Panic => E
  | Fault => False
  | Hang => False
  end.

Section wp_rules.
Context {S A B : Type} (E : Prop).
Implicit Types (s : S) (Q : A → S → Prop).

Lemma wp_ret (a : A) Q s : wp (mret a) E Q s ↔ Q a s.
Proof. done. Qed.

Lemma wp_bind (m : M S B) (f : B → M S A) Q s :
  wp (m ≫= f) E Q s ↔ wp m E (λ b s', wp (f b) E Q s') s.
Proof.
  unfold wp, mbind, M_bind. destruct (m s) as [[s' b]| | |]; done.
Qed.

Lemma wp_assoc {C} (m : M S B) (k : B → M S C) (f : C → M S A) Q s :
  wp ((m ≫= k) ≫= f) E Q s ↔ wp (m ≫= λ b, k b ≫= f) E Q s.
Proof. unfold wp, mbind, M_bind. by destruct (m s) as [[s' b]| | |]. Qed.

Lemma wp_mono (m : M S A) (E' : Prop) (Q Q' : A → S → Prop) s :
  wp m E Q s → (E → E') → (∀ a s', Q a s' → Q' a s') → wp m E' Q' s.
Proof. unfold wp. destruct (m s) as [[s' b]| | |]; naive_solver. Qed.

Lemma wp_get Q s (F : S → M S A) : wp (get ≫= F) E Q s ↔ wp (F s) E Q s.
Proof. done. Qed.

Lemma wp_gets (g : S → B) (F : B → M S A) Q s :
  wp (gets g ≫= F) E Q s ↔ wp (F (g s)) E Q s.
Proof. done. Qed.

Lemma wp_modify (g : S → S) (F : unit → M S A) Q s :
  wp (modify g ≫= F) E Q s ↔ wp (F ()) E Q (g s).
Proof. done. Qed.

Lemma wp_kassert b (F : unit → M S A) Q s :
  wp (kassert b ≫= F) E Q s ↔ if b then wp (F ()) E Q s else E.
Proof. by destruct b. Qed.

Lemma wp_of_option (o : option B) (F : B → M S A) Q s :
  wp (of_option o ≫= F) E Q s ↔ ∃ b, o = Some b ∧ wp (F b) E Q s.
Proof.
  destruct o as [b|]; cbn.
  - split; [eauto | by intros (b' & [= <-] & H)].
  - split; [intros [] | by intros (b & Hb & _)].
Qed.

Lemma wp_zoom {T} (view : S → T) (put : T → S → S) (m : M T A) Q s :
  wp (zoom view put m) E Q s ↔ wp m E (λ a t, Q a (put t s)) (view s).
Proof. unfold wp, zoom. by destruct (m (view s)) as [[t a]| | |]. Qed.
End wp_rules.

(** Total correctness read back as an equation on the run. *)
Lemma wp_total {S A} (m : M S A) Q s :
  wp m False Q s → ∃ s' a, m s = Ok (s', a) ∧ Q a s'.
Proof. unfold wp. destruct (m s) as [[s' a]| | |]; naive_solver. Qed.

Lemma wp_Ok {S A} (m : M S A) E Q s s' a :
  wp m E Q s → m s = Ok (s', a) → Q a s'.
Proof. unfold wp. intros H Hrun. by rewrite Hrun in H. Qed.

(** The rest of a computation after a step whose result is known. *)
Lemma bind_ok {S A B} (m : M S A) (k : A → M S B) s s' a : m s = Ok (s', a) → (m ≫= k) s = k a s'.
Proof. intros H. unfold mbind, M_bind. by rewrite H. Qed.

Lemma wp_bind_ok {S A B} (m : M S B) (f : B → M S A) E Q s s' b :
  m s = Ok (s', b) → wp (f b) E Q s' → wp (m ≫= f) E Q s.
Proof. unfold wp, mbind, M_bind. by intros ->. Qed.

(** A loop over a list keeps an invariant indexed by the part already visited. *)
Lemma wp_for_each {S A} (l : list A) (body : A → M S unit) E (I : list A → S → Prop) s :
  (∀ pre x post s', l = pre ++ x :: post → I pre s' →
     wp (body x) E (λ _ s'', I (pre ++ [x]) s'') s') →
  I [] s → wp (for_each l body) E (λ _ s', I l s') s.
Proof.
  intros Hstep H0.
  cut (∀ post pre s', l = pre ++ post → I pre s' →
         wp (for_each post body) E (λ _ s'', I l s'') s').
  { intros Hc. by apply (Hc l []). }
  induction post as [|x post IH]; intros pre s' Hl HI; cbn [for_each].
  - rewrite app_nil_r in Hl. subst. exact HI.
  - apply wp_bind. eapply wp_mono; [by eapply Hstep | done |].
    intros [] s'' HI'. apply (IH (pre ++ [x])); [|done].
    by rewrite <- app_assoc.
Qed.

(** [while (cond) body], given up as [Hang] after [fuel] rounds. *)
Fixpoint while {S} (fuel : nat) (cond : M S bool) (body : M S unit) : M S unit :=
  b ← cond;
  if (b : bool) then
    match fuel with
    | O => hang
    | Datatypes.S fuel' => _ ← body; while fuel' cond body
    end
  else mret ().

(** A loop whose condition only reads the state, with an invariant and a measure below the fuel. *)
Lemma wp_while {S} (fuel : nat) (c : S → bool) (body : M S unit) E (I : S → Prop) (μ : S → nat) s :
  (∀ s, I s → c s = true → wp body E (λ _ s', I s' ∧ (μ s' < μ s)%nat) s) →
  I s → (μ s < fuel)%nat →
  wp (while fuel (gets c) body) E (λ _ s', I s' ∧ c s' = false) s.
Proof.
  intros Hstep. revert s. induction fuel as [|fuel IH]; intros s HI Hμ; [lia|]. cbn [while].
  apply wp_gets. destruct (c s) eqn:Hc; [|by apply wp_ret].
  apply wp_bind. eapply wp_mono; [by apply Hstep|done|].
  intros [] s' [HI' Hlt]. apply IH; [done|lia].
Qed.

(** Membership in a list split at the element a loop is at. *)
Lemma elem_snoc {A} (pre : list A) x : x ∈ pre ++ [x].
Proof. apply elem_of_app. right. by apply list_elem_of_singleton. Qed.

Lemma elem_snoc_mid {A} (pre post : list A) x y : y ∈ pre ++ [x] → y ∈ pre ++ x :: post.
Proof.
  rewrite !elem_of_app, list_elem_of_singleton, elem_of_cons.
  intros [?|?]; [by left | by right; left].
Qed.

(** ** Machine words

    An unsigned [w]-bit integer is a [Z] in [[0, 2^w)]; arithmetic wraps explicitly. *)
Definition wrap (w z : Z) : Z := z mod 2 ^ w.
Abbreviation wrap8 := (wrap 8).
Abbreviation wrap16 := (wrap 16).
Abbreviation wrap32 := (wrap 32).
Abbreviation wrap64 := (wrap 64).

#[global] Arguments wrap _ _ : simpl never.
#[global] Arguments Z.eqb !_ !_ : simpl nomatch.
#[global] Arguments Z.leb !_ !_ : simpl nomatch.
#[global] Arguments Z.ltb !_ !_ : simpl nomatch.

(** [lia] with the wrap-around of the common widths written out. *)
Ltac wrap_lia :=
  unfold wrap in *;
  change (2 ^ 8) with 256 in *; change (2 ^ 16) with 65536 in *;
  change (2 ^ 32) with 4294967296 in *; change (2 ^ 64) with 18446744073709551616 in *;
  lia.

Definition is_word (w z : Z) : Prop := 0 ≤ z < 2 ^ w.
Abbreviation u64 := (is_word 64).

Lemma wrap_range w z : 0 ≤ w → is_word w (wrap w z).
Proof. intros Hw. apply Z.mod_pos_bound. by apply Z.pow_pos_nonneg. Qed.

Lemma testbit_high w z i : is_word w z → 0 ≤ w ≤ i → Z.testbit z i = false.
Proof.
  intros [Hz0 Hz] Hi. apply Z.testbit_false; [lia|]. rewrite Z.div_small; [done|].
  split; [done|]. eapply Z.lt_le_trans; [exact Hz|]. apply Z.pow_le_mono_r; lia.
Qed.

Lemma wrap_small w z : is_word w z → wrap w z = z.
Proof. apply Z.mod_small. Qed.

(** A value as the 32-bit signed integer it is stored in. *)
Definition to_int (z : Z) : Z := let w := wrap 32 z in if w <? 2 ^ 31 then w else w - 2 ^ 32.

Lemma to_int_fits z : - 2 ^ 31 ≤ z < 2 ^ 31 → to_int z = z.
Proof.
  intros Hz. unfold to_int, wrap. destruct (Z.leb_spec 0 z).
  - rewrite Z.mod_small, (proj2 (Z.ltb_lt _ _)) by lia. done.
  - rewrite <- (Z.mod_unique z (2 ^ 32) (-1) (z + 2 ^ 32)) by lia. rewrite (proj2 (Z.ltb_ge _ _)); lia.
Qed.

Lemma to_int_small z : 0 ≤ z < 2 ^ 31 → to_int z = z.
Proof. intros Hz. apply to_int_fits. lia. Qed.

Lemma to_int_add a b : to_int (to_int a + b) = to_int (a + b).
Proof.
  assert (wrap 32 (to_int a + b) = wrap 32 (a + b)) as H; [|unfold to_int at 1; by rewrite H].
  unfold to_int, wrap. rewrite <- (Zplus_mod_idemp_l a b). destruct (_ <? _); [done|].
  rewrite <- (Z_mod_plus_full (a mod 2 ^ 32 - 2 ^ 32 + b) 1 (2 ^ 32)). f_equal. lia.
Qed.

Lemma wrap_sub_add w a b : is_word w a → wrap w (wrap w (a + b) - b) = a.
Proof.
  intros Ha. unfold wrap. rewrite Zminus_mod_idemp_l.
  replace (a + b - b) with a by lia. by apply Z.mod_small.
Qed.

(** Or-ing a multiple of [2^n] with a value below [2^n] adds them. *)
Lemma lor_add n a b : 0 ≤ n → a mod 2 ^ n = 0 → 0 ≤ b < 2 ^ n → Z.lor a b = a + b.
Proof.
  intros Hn Ha Hb. rewrite <- Z.lxor_lor, <- Z.add_nocarry_lxor; [done|..];
    apply Z.bits_inj'; intros i Hi; rewrite Z.land_spec, Z.testbit_0_l;
    (destruct (decide (i < n));
     [ rewrite <- (Z.mod_pow2_bits_low a n i), Ha, Z.testbit_0_l by lia; done
     | rewrite (testbit_high n b i) by (unfold is_word; lia); by rewrite andb_false_r ]).
Qed.

(** A bit-field of [n] bits at offset [lo], as C++ reads and writes it. *)
Definition get_field (lo n x : Z) : Z := Z.land (Z.shiftr x lo) (Z.ones n).
Definition set_field (lo n v x : Z) : Z :=
  Z.lor (Z.ldiff x (Z.shiftl (Z.ones n) lo)) (Z.shiftl (Z.land v (Z.ones n)) lo).

Section fields.
Implicit Types (lo n x v i : Z).

Lemma testbit_ones_Z n i : 0 ≤ n → 0 ≤ i → Z.testbit (Z.ones n) i = (i <? n).
Proof.
  intros. destruct (Z.ltb_spec i n).
  - by apply Z.ones_spec_low.
  - by apply Z.ones_spec_high.
Qed.

Lemma testbit_get_field lo n x i : 0 ≤ lo → 0 ≤ n → 0 ≤ i →
  Z.testbit (get_field lo n x) i = Z.testbit x (i + lo) && (i <? n).
Proof.
  intros. unfold get_field.
  by rewrite Z.land_spec, Z.shiftr_spec, testbit_ones_Z.
Qed.

Lemma testbit_set_field lo n v x i : 0 ≤ lo → 0 ≤ n → 0 ≤ i →
  Z.testbit (set_field lo n v x) i =
    if (lo <=? i) && (i <? lo + n) then Z.testbit v (i - lo) else Z.testbit x i.
Proof.
  intros. unfold set_field.
  rewrite Z.lor_spec, Z.ldiff_spec, !Z.shiftl_spec by lia.
  destruct (Z.leb_spec lo i) as [Hle|Hlt]; cbn [andb].
  - rewrite Z.land_spec, testbit_ones_Z by lia.
    replace (i - lo <? n) with (i <? lo + n) by lia.
    by destruct (i <? lo + n), (Z.testbit x i), (Z.testbit v (i - lo)).
  - rewrite (Z.testbit_neg_r (Z.ones n)), (Z.testbit_neg_r (Z.land _ _)) by lia.
    by destruct (Z.testbit x i).
Qed.

Lemma get_field_range lo n x : 0 ≤ n → 0 ≤ get_field lo n x < 2 ^ n.
Proof.
  intros. unfold get_field. rewrite Z.land_ones by done.
  apply Z.mod_pos_bound. by apply Z.pow_pos_nonneg.
Qed.

Lemma get_set_field_same lo n v x : 0 ≤ lo → 0 ≤ n → 0 ≤ v < 2 ^ n →
  get_field lo n (set_field lo n v x) = v.
Proof.
  intros Hlo Hn Hv. apply Z.bits_inj'. intros i Hi.
  rewrite testbit_get_field, testbit_set_field by lia.
  replace (lo <=? i + lo) with true by lia.
  replace (i + lo <? lo + n) with (i <? n) by lia.
  replace (i + lo - lo) with i by lia. cbn [andb].
  destruct (Z.ltb_spec i n) as [|Hge]; [by rewrite andb_true_r|].
  rewrite andb_false_r. symmetry. by apply (testbit_high n).
Qed.

Lemma get_set_field_other lo n lo' n' v x :
  0 ≤ lo → 0 ≤ n → 0 ≤ lo' → 0 ≤ n' → lo + n ≤ lo' ∨ lo' + n' ≤ lo →
  get_field lo' n' (set_field lo n v x) = get_field lo' n' x.
Proof.
  intros Hlo Hn Hlo' Hn' Hdisj. apply Z.bits_inj'. intros i Hi.
  rewrite !testbit_get_field, testbit_set_field by lia.
  destruct (Z.ltb_spec i n'); [|by rewrite !andb_false_r].
  rewrite !andb_true_r.
  replace ((lo <=? i + lo') && (i + lo' <? lo + n)) with false; [done|].
  symmetry. apply andb_false_iff. lia.
Qed.

Lemma get_field_0 lo n : 0 ≤ lo → 0 ≤ n → get_field lo n 0 = 0.
Proof. intros. unfold get_field. by rewrite Z.shiftr_0_l, Z.land_0_l. Qed.
End fields.

(** Rounding an address down to its page. *)
Lemma page_mask_land a : 0 ≤ a < 2 ^ 64 →
  Z.land a (wrap64 (Z.lnot 4095)) = a - a mod 4096.
Proof.
  intros Ha. replace (a - a mod 4096) with (Z.shiftl (Z.shiftr a 12) 12); cycle 1.
  { rewrite Z.shiftl_mul_pow2, Z.shiftr_div_pow2 by done. change (2 ^ 12) with 4096. lia. }
  rewrite <- Z.ldiff_ones_r by done.
  change (wrap64 (Z.lnot 4095)) with (Z.ldiff (Z.ones 64) (Z.ones 12)).
  apply Z.bits_inj'. intros n Hn. rewrite Z.land_spec, !Z.ldiff_spec, !testbit_ones_Z by lia.
  destruct (Z.ltb_spec n 64) as [|Hge]; [done|].
  by rewrite (testbit_high 64 a n).
Qed.
