(* ===== verification/Bytes.v ===== *)
(** * Integers as bytes

    The little-endian representation of integers in memory, and reading the fields of a packed struct from
    the bytes it overlays.  Shared by the parsers of ELF files and ACPI tables and by the program loader. *)

From S2P Require Import Prelude.

#[local] Coercion Z.of_nat : nat >-> Z.

Definition byte_ok (b : Z) : Prop := 0 ≤ b < 256.

Fixpoint le_split (n : nat) (v : Z) : list Z :=
  match n with
  | O => []
  | S n => v mod 256 :: le_split n (v / 256)
  end.
Fixpoint le_combine (l : list Z) : Z :=
  match l with
  | [] => 0
  | b :: l => b + 256 * le_combine l
  end.

(** The next [n] bytes, raw and as an unsigned integer. *)
Definition take_bytes (n : nat) (l : list Z) : option (list Z * list Z) :=
  if decide (n ≤ length l)%nat then Some (take n l, drop n l) else None.
Definition take_le (n : nat) (l : list Z) : option (Z * list Z) :=
  '(b, l) ← take_bytes n l; Some (le_combine b, l).

(** The bytes from an offset on; an offset past the end leaves none. *)
Definition from_offset (off : Z) (l : list Z) : list Z := if off <? 0 then [] else drop (Z.to_nat off) l.

Lemma le_split_length n v : length (le_split n v) = n.
Proof. revert v. induction n as [|n IH]; intros v; cbn; [done|]. by rewrite IH. Qed.

Lemma le_split_bytes n v : Forall byte_ok (le_split n v).
Proof. revert v. induction n as [|n IH]; intros v; cbn; constructor; [unfold byte_ok; lia|done]. Qed.

Lemma pow_8S (n : nat) : 2 ^ (8 * S n) = 256 * 2 ^ (8 * n).
Proof. rewrite Nat2Z.inj_succ. replace (8 * Z.succ n) with (8 + 8 * n) by lia. rewrite Z.pow_add_r by lia. done. Qed.

Lemma le_combine_split n v : le_combine (le_split n v) = v mod 2 ^ (8 * n).
Proof.
  revert v. induction n as [|n IH]; intros v; cbn [le_split le_combine].
  - change (2 ^ (8 * 0%nat)) with 1. by rewrite Z.mod_1_r.
  - rewrite IH, pow_8S, Z.rem_mul_r by lia. done.
Qed.

Lemma le_combine_range l : Forall byte_ok l → 0 ≤ le_combine l < 2 ^ (8 * length l).
Proof.
  induction 1 as [|b l Hb _ IH]; [done|]. cbn [le_combine length]. rewrite pow_8S. unfold byte_ok in Hb. lia.
Qed.

Lemma le_split_combine l : Forall byte_ok l → le_split (length l) (le_combine l) = l.
Proof.
  induction 1 as [|b l Hb _ IH]; [done|]. cbn [le_combine length le_split]. unfold byte_ok in Hb.
  replace ((b + 256 * le_combine l) mod 256) with b by lia.
  replace ((b + 256 * le_combine l) / 256) with (le_combine l) by lia. by rewrite IH.
Qed.

Lemma take_bytes_app n b l : length b = n → take_bytes n (b ++ l) = Some (b, l).
Proof.
  intros <-. unfold take_bytes. rewrite decide_True by (rewrite length_app; lia).
  by rewrite take_app_length, drop_app_length.
Qed.

Lemma take_le_split (n : nat) v l : 0 ≤ v < 2 ^ (8 * n) → take_le n (le_split n v ++ l) = Some (v, l).
Proof.
  intros Hv. unfold take_le. rewrite take_bytes_app by apply le_split_length. cbn.
  by rewrite le_combine_split, Z.mod_small.
Qed.

Lemma from_offset_app (b l : list Z) : from_offset (length b) (b ++ l) = l.
Proof. unfold from_offset. destruct (Z.ltb_spec (length b) 0); [lia|]. by rewrite Nat2Z.id, drop_app_length. Qed.

(** ** Fields as quotients and remainders *)

Lemma get_field_div lo n x : 0 ≤ lo → 0 ≤ n → get_field lo n x = (x / 2 ^ lo) mod 2 ^ n.
Proof. intros Hl Hn. unfold get_field. by rewrite Z.land_ones, Z.shiftr_div_pow2. Qed.

Lemma land_low x (n : Z) : 0 ≤ n → Z.land x (2 ^ n - 1) = x mod 2 ^ n.
Proof. intros Hn. rewrite <- Z.land_ones by done. by rewrite Z.ones_equiv, Z.sub_1_r. Qed.

(** ** Words in a map *)

Definition store_words (a : Z) (ws : list Z) : gmap Z Z → gmap Z Z :=
  λ m, list_to_map (zip ((λ i, wrap64 (a + 8 * i)) <$> seqZ 0 (length ws)) ws) ∪ m.

Lemma store_words_lookup a ws (m : gmap Z Z) (i : nat) w : 0 ≤ a → a + 8 * length ws ≤ 2 ^ 64 → ws !! i = Some w →
  store_words a ws m !! (a + 8 * i) = Some w.
Proof.
  intros Ha He Hi. pose proof (lookup_lt_Some _ _ _ Hi). unfold store_words. apply lookup_union_Some_l.
  apply elem_of_list_to_map_1.
  - rewrite fst_zip by (rewrite length_fmap, length_seqZ; lia). apply NoDup_fmap_2_strong; [|apply NoDup_seqZ].
    intros j k Hj%elem_of_seqZ Hk%elem_of_seqZ. rewrite !wrap_small by (unfold is_word; lia). lia.
  - apply list_elem_of_lookup. exists i. rewrite lookup_zip_with, list_lookup_fmap, lookup_seqZ_lt by lia. cbn.
    rewrite Hi. cbn. rewrite wrap_small by (unfold is_word; lia). do 2 f_equal.
Qed.

Lemma store_words_other a ws (m : gmap Z Z) b : 0 ≤ a → a + 8 * length ws ≤ 2 ^ 64 → ¬ (a ≤ b < a + 8 * length ws) →
  store_words a ws m !! b = m !! b.
Proof.
  intros Ha He Hb. unfold store_words. apply lookup_union_r. apply not_elem_of_list_to_map_1.
  rewrite fst_zip by (rewrite length_fmap, length_seqZ; lia). intros (i & -> & Hi%elem_of_seqZ)%list_elem_of_fmap.
  rewrite wrap_small in Hb by (unfold is_word; lia). lia.
Qed.
