(* ===== verification/Cpu.v ===== *)
(** * The CPU and its per-CPU record

    The registers of [src/kernel/arch/x64/cpu/cpu.hpp] that kernel code reads and writes, and the
    [PerCPU] structure of [src/kernel/arch/x64/percpu].  The kernel runs on the bootstrap processor
    only, so the model has one CPU; [Spinlock.v] has the several-CPU view of the locks. *)

From S2P Require Import Prelude.

(** Bits of RFLAGS used by the code: IF (interrupts enabled) and AC (SMAP override). *)
Definition RFLAGS_IF : Z := 9.
Definition RFLAGS_AC : Z := 18.

(** [struct PerCPU]: process pointers are the addresses of [Process] objects, 0 is [nullptr]. *)
Record PerCPU := mk_PerCPU {
  kernel_rsp : Z;
  user_rsp : Z;
  process : Z;
  idle_process_ptr : Z;
  preemption_flag : bool;
}.

Record cpu := mk_cpu {
  rflags : Z;
  cr3 : Z;
  cr4 : Z;
  msr : Z → Z;
  percpu : PerCPU;
}.

Definition with_rflags (f : Z → Z) (c : cpu) : cpu :=
  mk_cpu (f (rflags c)) (cr3 c) (cr4 c) (msr c) (percpu c).
Definition with_cr3 (v : Z) (c : cpu) : cpu :=
  mk_cpu (rflags c) v (cr4 c) (msr c) (percpu c).
Definition with_cr4 (v : Z) (c : cpu) : cpu :=
  mk_cpu (rflags c) (cr3 c) v (msr c) (percpu c).
Definition with_msr (f : Z → Z) (c : cpu) : cpu :=
  mk_cpu (rflags c) (cr3 c) (cr4 c) f (percpu c).
Definition with_percpu (f : PerCPU → PerCPU) (c : cpu) : cpu :=
  mk_cpu (rflags c) (cr3 c) (cr4 c) (msr c) (f (percpu c)).

Definition cli (c : cpu) : cpu := with_rflags (λ r, Z.clearbit r RFLAGS_IF) c.
Definition sti (c : cpu) : cpu := with_rflags (λ r, Z.setbit r RFLAGS_IF) c.
Definition stac (c : cpu) : cpu := with_rflags (λ r, Z.setbit r RFLAGS_AC) c.
Definition clac (c : cpu) : cpu := with_rflags (λ r, Z.clearbit r RFLAGS_AC) c.
Definition read_rflags (c : cpu) : Z := rflags c.
Definition write_rflags (r : Z) (c : cpu) : cpu := with_rflags (λ _, r) c.
Definition read_cr4 (c : cpu) : Z := cr4 c.
Definition write_cr4 (v : Z) (c : cpu) : cpu := with_cr4 v c.

(** [wrmsr] splits the value over EDX:EAX and [rdmsr] joins the halves again. *)
Definition wrmsr (m value : Z) (c : cpu) : cpu :=
  let low := wrap32 (Z.land value 0xFFFFFFFF) in
  let high := wrap32 (Z.shiftr value 32) in
  with_msr (λ m', if m' =? m then Z.lor (Z.shiftl high 32) low else msr c m') c.
Definition rdmsr (m : Z) (c : cpu) : Z :=
  let low := Z.land (msr c m) 0xFFFFFFFF in
  let high := Z.shiftr (msr c m) 32 in
  Z.lor (wrap64 (Z.shiftl high 32)) low.

Definition preemption_enabled (c : cpu) : bool := preemption_flag (percpu c).
Definition set_preemption (b : bool) (c : cpu) : cpu :=
  with_percpu (λ p, mk_PerCPU (kernel_rsp p) (user_rsp p) (process p) (idle_process_ptr p) b) c.
Definition disable_preemption (c : cpu) : cpu := set_preemption false c.
Definition enable_preemption (c : cpu) : cpu := set_preemption true c.

(** [current_process()] and [idle_process()] assert that the pointer is set. *)
Definition current_process : M cpu Z :=
  p ← gets (λ c, process (percpu c));
  _ ← kassert_not_null p;
  mret p.
Definition idle_process : M cpu Z :=
  p ← gets (λ c, idle_process_ptr (percpu c));
  _ ← kassert_not_null p;
  mret p.

Lemma set_preemption_id c : set_preemption (preemption_enabled c) c = c.
Proof. by destruct c as [?? ? ? []]. Qed.

Lemma set_preemption_twice b b' c : set_preemption b (set_preemption b' c) = set_preemption b c.
Proof. by destruct c. Qed.

Lemma write_rflags_id c : write_rflags (rflags c) c = c.
Proof. by destruct c. Qed.

(** A CPU with interrupts and preemption on: the state in which the examples start. *)
Definition cpu0 : cpu := mk_cpu 0x202 0 0 (λ _, 0) (mk_PerCPU 0 0 0 0 true).
