(* ===== verification/Spinlock.v ===== *)
(** * Spinlocks

    [kspinlock] and [kspinlock_irqsave] of [src/kernel/include/exclusive], over the atomic counter
    of [katomic].  The first part runs [lock]/[unlock] on the kernel's single CPU; the second
    interleaves the atomic steps of any number of CPUs and shows mutual exclusion. *)

From stdpp Require Import functions relations.
From S2P Require Import Prelude Cpu.

Record kspinlock_irqsave := mk_irqsave {
  counter : Z;
  saved_rflags : Z;
  saved_preemption : bool;
}.

(** [kspinlock_irqsave()]: the counter starts at 1, the other members are written by [lock]. *)
Definition new_irqsave : kspinlock_irqsave := mk_irqsave 1 0 false.

(** The test-and-test-and-set loop.  [load() == 0] goes round the inner loop, [exchange(0)] leaves
    the counter at 0 and returns if it was 1.  [None] means that the loop is still running. *)
Fixpoint spin_loop (fuel : nat) (c : Z) : option Z :=
  match fuel with
  | O => None
  | S n => if c =? 0 then spin_loop n c else if c =? 1 then Some 0 else spin_loop n 0
  end.

(** On a single CPU with interrupts off no other agent writes the counter, so a loop that is not
    left in its first round is never left ([spin_loop_stuck]). *)
Definition spin : M (cpu * kspinlock_irqsave) unit := λ '(c, l),
  match spin_loop 1 (counter l) with
  | Some v => Ok ((c, mk_irqsave v (saved_rflags l) (saved_preemption l)), ())
  | None => Hang
  end.

Definition lock : M (cpu * kspinlock_irqsave) unit :=
  r ← gets (λ s, read_rflags s.1);
  pe ← gets (λ s, preemption_enabled s.1);
  _ ← modify (λ s, (cli s.1, s.2));
  _ ← modify (λ s, (disable_preemption s.1, s.2));
  _ ← spin;
  modify (λ s, (s.1, mk_irqsave (counter s.2) r pe)).

Definition unlock : M (cpu * kspinlock_irqsave) unit :=
  r ← gets (λ s, saved_rflags s.2);
  pe ← gets (λ s, saved_preemption s.2);
  _ ← modify (λ s, (s.1, mk_irqsave 1 (saved_rflags s.2) (saved_preemption s.2)));
  _ ← (if pe : bool then modify (λ s, (enable_preemption s.1, s.2)) else mret ());
  modify (λ s, (write_rflags r s.1, s.2)).

(** [kspinlock] masks preemption only. *)
Record kspinlock := mk_kspinlock {
  ks_counter : Z;
  ks_preemption : bool;
}.

Definition new_kspinlock : kspinlock := mk_kspinlock 1 false.

Definition ks_lock : M (cpu * kspinlock) unit := λ '(c, l),
  let pe := preemption_enabled c in
  let c' := disable_preemption c in
  match spin_loop 1 (ks_counter l) with
  | Some v => Ok ((c', mk_kspinlock v pe), ())
  | None => Hang
  end.

Definition ks_unlock : M (cpu * kspinlock) unit := λ '(c, l),
  let pe := ks_preemption l in
  let l' := mk_kspinlock 1 pe in
  Ok ((if pe then enable_preemption c else c, l'), ()).

(** The state of the CPU inside a critical section entered from [c]. *)
Definition masked (c : cpu) : cpu := disable_preemption (cli c).

(** A held lock that was taken from CPU state [c]. *)
Definition held_from (c : cpu) : kspinlock_irqsave :=
  mk_irqsave 0 (rflags c) (preemption_enabled c).

(** The lock after [unlock]: the counter is 1, the other members keep what [lock] stored. *)
Definition released (c : cpu) : kspinlock_irqsave :=
  mk_irqsave 1 (rflags c) (preemption_enabled c).

Definition is_free (l : kspinlock_irqsave) : Prop := counter l = 1.

Lemma spin_loop_zero n : spin_loop n 0 = None.
Proof. induction n as [|n IH]; [done|]. exact IH. Qed.

Lemma spin_loop_stuck n c : spin_loop 1 c = None → spin_loop n c = None.
Proof.
  cbn. destruct (Z.eqb_spec c 0) as [->|H0].
  - intros _. apply spin_loop_zero.
  - destruct (Z.eqb_spec c 1) as [->|H1]; [done|]. intros _.
    destruct n as [|n]; [done|]. cbn.
    destruct (Z.eqb_spec c 0); [done|]. destruct (Z.eqb_spec c 1); [done|].
    apply spin_loop_zero.
Qed.

Lemma lock_free c l : is_free l → lock (c, l) = Ok ((masked c, held_from c), ()).
Proof. destruct l as [v r p]. unfold is_free. cbn. by intros ->. Qed.

Lemma lock_held c l : counter l = 0 → lock (c, l) = Hang.
Proof. destruct l as [v r p]. cbn. by intros ->. Qed.

Lemma unlock_held c c' : percpu c' = percpu (masked c) →
  unlock (c', held_from c) =
    Ok ((write_rflags (rflags c) (set_preemption (preemption_enabled c) c'),
         released c), ()).
Proof.
  destruct c as [r v3 v4 m [k u p i pe]], c' as [r' v3' v4' m' p'].
  cbn. intros ->. by destruct pe.
Qed.

(** [unlock] gives the CPU back the interrupt, access and preemption state of its [lock]. *)
Lemma unlock_masked c : unlock (masked c, held_from c) = Ok ((c, released c), ()).
Proof. rewrite unlock_held by done. by destruct c as [r v3 v4 m [k u p i []]]. Qed.

(** ** Several CPUs

    One step per atomic access of [lock]/[unlock].  [entry i] is the CPU state in which CPU [i]
    called [lock] last; the locals [rflags] and [preemption_enabled] of the two functions are the
    arguments of the program points. *)
Module Smp.
Inductive pc :=
| Out                          (* not in lock(), not in the critical section *)
| Test (r : Z) (pe : bool)     (* while (_counter.load() == 0) *)
| Xchg (r : Z) (pe : bool)     (* if (_counter.exchange(0) == 1) *)
| Save (r : Z) (pe : bool)     (* _rflags = rflags; _preemption_enabled = ... *)
| Crit                         (* the critical section *)
| Store (r : Z) (pe : bool)    (* _counter.store(1) *)
| Restore (r : Z) (pe : bool). (* enable_preemption(); write_rflags(rflags) *)

Record smp := mk_smp {
  shared : kspinlock_irqsave;
  pcs : nat → pc;
  cpus : nat → cpu;
  entry : nat → cpu;
}.

Definition goto (i : nat) (p : pc) (s : smp) : smp :=
  mk_smp (shared s) (<[i:=p]> (pcs s)) (cpus s) (entry s).
Definition set_shared (l : kspinlock_irqsave) (s : smp) : smp :=
  mk_smp l (pcs s) (cpus s) (entry s).
Definition set_counter (v : Z) (l : kspinlock_irqsave) : kspinlock_irqsave :=
  mk_irqsave v (saved_rflags l) (saved_preemption l).

Inductive step (i : nat) : smp → smp → Prop :=
| step_enter s : pcs s i = Out →
    step i s (mk_smp (shared s)
                (<[i:=Test (rflags (cpus s i)) (preemption_enabled (cpus s i))]> (pcs s))
                (<[i:=masked (cpus s i)]> (cpus s)) (<[i:=cpus s i]> (entry s)))
| step_spin s r pe : pcs s i = Test r pe → counter (shared s) = 0 → step i s s
| step_test s r pe : pcs s i = Test r pe → counter (shared s) ≠ 0 → step i s (goto i (Xchg r pe) s)
| step_xchg_ok s r pe : pcs s i = Xchg r pe → counter (shared s) = 1 →
    step i s (goto i (Save r pe) (set_shared (set_counter 0 (shared s)) s))
| step_xchg_fail s r pe : pcs s i = Xchg r pe → counter (shared s) ≠ 1 →
    step i s (goto i (Test r pe) (set_shared (set_counter 0 (shared s)) s))
| step_save s r pe : pcs s i = Save r pe →
    step i s (goto i Crit (set_shared (mk_irqsave (counter (shared s)) r pe) s))
| step_unlock s : pcs s i = Crit →
    step i s (goto i (Store (saved_rflags (shared s)) (saved_preemption (shared s))) s)
| step_store s r pe : pcs s i = Store r pe →
    step i s (goto i (Restore r pe) (set_shared (set_counter 1 (shared s)) s))
| step_restore s r pe : pcs s i = Restore r pe →
    step i s (mk_smp (shared s) (<[i:=Out]> (pcs s))
                (<[i:=write_rflags r (if pe then enable_preemption (cpus s i) else cpus s i)]>
                   (cpus s)) (entry s)).

Definition smp_step (s s' : smp) : Prop := ∃ i, step i s s'.

Definition initial (s : smp) : Prop := is_free (shared s) ∧ ∀ i, pcs s i = Out.

Definition reachable (s : smp) : Prop := ∃ s0, initial s0 ∧ rtc smp_step s0 s.

(** The program points at which a CPU owns the lock. *)
Definition owns (p : pc) : bool :=
  match p with Save _ _ | Crit | Store _ _ => true | _ => false end.

(** What the locals of a program point must be, for a CPU that entered in state [c]. *)
Definition locals_of (c : cpu) (l : kspinlock_irqsave) (p : pc) : Prop :=
  match p with
  | Out => True
  | Crit => saved_rflags l = rflags c ∧ saved_preemption l = preemption_enabled c
  | Test r pe | Xchg r pe | Save r pe | Store r pe | Restore r pe =>
      r = rflags c ∧ pe = preemption_enabled c
  end.

Record inv (s : smp) : Prop := {
  inv_counter : counter (shared s) = 0 ∨ counter (shared s) = 1;
  inv_free : counter (shared s) = 1 → ∀ i, owns (pcs s i) = false;
  inv_mutex : ∀ i j, owns (pcs s i) = true → owns (pcs s j) = true → i = j;
  inv_locals : ∀ i, locals_of (entry s i) (shared s) (pcs s i);
  inv_cpu : ∀ i, pcs s i ≠ Out → cpus s i = masked (entry s i);
}.

Lemma fn_insert_dec {A} (f : nat → A) i x j :
  <[i:=x]> f j = if decide (i = j) then x else f j.
Proof.
  case_decide; subst; [by rewrite fn_lookup_insert | by rewrite fn_lookup_insert_ne].
Qed.

Lemma initial_inv s : initial s → inv s.
Proof.
  intros [Hf Hout]. split; [by right| | | |].
  - intros _ i. by rewrite Hout.
  - intros i j. by rewrite Hout.
  - intros i. by rewrite Hout.
  - intros i. by rewrite Hout.
Qed.

(** A CPU other than [i] keeps its program point; the locals it relies on live in the lock only
    while it owns it. *)
Lemma locals_of_frame c l l' p : owns p = false → locals_of c l p → locals_of c l' p.
Proof. by destruct p. Qed.

Lemma locals_of_counter c l v p : locals_of c l p → locals_of c (set_counter v l) p.
Proof. by destruct p. Qed.

Ltac smp_cases :=
  repeat match goal with
  | H : context [<[_:=_]> _ _] |- _ => rewrite !fn_insert_dec in H
  | |- context [<[_:=_]> _ _] => rewrite !fn_insert_dec
  | H : context [decide (?a = ?b)] |- _ => destruct (decide (a = b)); subst
  | |- context [decide (?a = ?b)] => destruct (decide (a = b)); subst
  end.

Lemma step_inv i s s' : inv s → step i s s' → inv s'.
Proof.
  intros [Hc Hfree Hmx Hloc Hcpu] Hstep.
  assert (∀ j, owns (pcs s i) = true → i ≠ j → owns (pcs s j) = false) as Hother.
  { intros j Hi Hne. destruct (owns (pcs s j)) eqn:Hj; [|done]. by destruct Hne; auto. }
  pose proof (Hloc i) as Hli.
  destruct Hstep as [s Hpc|s r pe Hpc H0|s r pe Hpc H0|s r pe Hpc H1|s r pe Hpc H1
                    |s r pe Hpc|s Hpc|s r pe Hpc|s r pe Hpc];
    try done; pose proof (Hcpu i) as Hci; rewrite Hpc in Hli, Hci, Hother; cbn in Hli, Hother;
    split; cbn in *; intros; smp_cases; cbn in *; try done;
    eauto using locals_of_counter, locals_of_frame;
    match goal with
    | H : counter _ = 1, Ho : owns (pcs _ _) = true |- _ => by rewrite (Hfree H) in Ho
    | H : counter _ = 1, Hk : pcs _ ?k = _ |- _ => specialize (Hfree H k); by rewrite Hk in Hfree
    | Ho : owns (pcs _ ?k) = true |- _ => by rewrite (Hother k) in Ho by done
    end.
Qed.

Lemma reachable_inv s : reachable s → inv s.
Proof.
  intros (s0 & Hs0 & Hrun). apply initial_inv in Hs0.
  induction Hrun as [|s0 s1 s2 [i Hi] _ IH]; [done|]. eauto using step_inv.
Qed.

(** The lock at boot, every CPU outside it. *)
Definition start : smp := mk_smp new_irqsave (λ _, Out) (λ _, cpu0) (λ _, cpu0).

Lemma reach_step s i s' : reachable s → step i s s' → reachable s'.
Proof.
  intros (s0 & H0 & Hrun) Hst. exists s0. split; [done|].
  eapply rtc_r; [done|]. by exists i.
Qed.

Lemma start_reachable : reachable start.
Proof. exists start. split; [done|]. constructor. Qed.

(** C1: in every interleaving of the atomic steps of [lock] and [unlock] by any number of CPUs, at
    most one CPU is in the critical section, and it runs there with interrupts and preemption
    masked on top of the state it entered with. *)
Theorem spinlock_mutual_exclusion s i j :
  reachable s → pcs s i = Crit → pcs s j = Crit →
  i = j ∧ cpus s i = masked (entry s i).
Proof.
  intros [_ _ Hmx _ Hcpu]%reachable_inv Hi Hj. split.
  - apply Hmx; by rewrite ?Hi, ?Hj.
  - apply Hcpu. by rewrite Hi.
Qed.

Ltac advance H c :=
  eapply (λ s i s' Hst Hs, reach_step s i s' Hs Hst) in H; [|eapply c; done].

Lemma spinlock_mutual_exclusion_witness : ∃ s,
  reachable s ∧ pcs s 0%nat = Crit ∧ pcs s 1%nat ≠ Out ∧ cpus s 0%nat = masked (entry s 0%nat).
Proof.
  pose proof start_reachable as H. advance H (step_enter 0).
  advance H (step_test 0).
  advance H (step_xchg_ok 0).
  advance H (step_enter 1).
  advance H (step_save 0).
  eexists. split; [exact H|]. split; [reflexivity|]. split; [done|].
  exact (proj2 (spinlock_mutual_exclusion _ 0 0 H eq_refl eq_refl)).
Defined.

(** When a CPU leaves [unlock] it has exactly the flags and the preemption state with which it
    called the matching [lock], whatever the other CPUs did to the lock in between. *)
Theorem unlock_restores_entry_state s s' i r pe :
  reachable s → pcs s i = Restore r pe → step i s s' →
  pcs s' i = Out ∧ cpus s' i = entry s i.
Proof.
  intros [_ _ _ Hloc Hcpu]%reachable_inv Hi Hst.
  specialize (Hloc i). specialize (Hcpu i). rewrite Hi in Hloc, Hcpu.
  destruct Hloc as [-> ->]. specialize (Hcpu ltac:(done)).
  inversion Hst; subst; try congruence. cbn. rewrite !fn_lookup_insert.
  split; [done|]. assert (r = rflags (entry s i)) as -> by congruence.
  assert (pe = preemption_enabled (entry s i)) as -> by congruence.
  rewrite Hcpu. by destruct (entry s i) as [? ? ? ? [? ? ? ? []]].
Qed.

Lemma unlock_restores_entry_state_witness : ∃ s s',
  reachable s ∧ step 0 s s' ∧ pcs s' 0%nat = Out ∧ cpus s' 0%nat = cpu0.
Proof.
  pose proof start_reachable as H. advance H (step_enter 0).
  advance H (step_test 0).
  advance H (step_xchg_ok 0).
  advance H (step_save 0).
  advance H (step_unlock 0).
  advance H (step_store 0).
  eexists. eexists. split; [exact H|].
  split; [by eapply (step_restore 0)|].
  eapply (unlock_restores_entry_state _ _ 0 0x202 true H); [done|]. by eapply (step_restore 0).
Defined.
End Smp.
