(* ===== verification/Pmm.v ===== *)
(** * Physical memory manager

    [src/kernel/lib/memory/pmm.cpp]: a bitmap with one bit per 4 KiB frame (0 = free, 1 = used), a
    search cursor, and counters, under [g_pmm_spinlock]. *)

From stdpp Require Import sorting.
From S2P Require Import Prelude Cpu Spinlock.

Definition MAX_MEMORY_BYTES : Z := 2147483648.
Definition FRAME_SIZE : Z := 4096.
Definition MAX_NUM_FRAMES : Z := MAX_MEMORY_BYTES / FRAME_SIZE.
Definition FRAME_BITMAP_ENTRY_SIZE : Z := 64.
Definition FRAME_BITMAP_SIZE : Z := MAX_NUM_FRAMES / FRAME_BITMAP_ENTRY_SIZE.
Definition FRAME_FREE : Z := 0.
Definition FRAME_USED : Z := 1.

(** The static variables of the file, with the CPU they run on. *)
Record pmm := mk_pmm {
  pmm_cpu : cpu;
  g_pmm_spinlock : kspinlock_irqsave;
  frame_bitmap : list Z;
  frame_bitmap_start : Z;
  frame_bitmap_end : Z;
  total_memory : Z;
  total_frames : Z;
  free_frames : Z;
}.

Definition with_pmm_lock (x : cpu * kspinlock_irqsave) (s : pmm) : pmm :=
  mk_pmm x.1 x.2 (frame_bitmap s) (frame_bitmap_start s) (frame_bitmap_end s)
    (total_memory s) (total_frames s) (free_frames s).
Definition with_bitmap (b : list Z) (s : pmm) : pmm :=
  mk_pmm (pmm_cpu s) (g_pmm_spinlock s) b (frame_bitmap_start s) (frame_bitmap_end s)
    (total_memory s) (total_frames s) (free_frames s).
Definition with_start (v : Z) (s : pmm) : pmm :=
  mk_pmm (pmm_cpu s) (g_pmm_spinlock s) (frame_bitmap s) v (frame_bitmap_end s)
    (total_memory s) (total_frames s) (free_frames s).
Definition with_end (v : Z) (s : pmm) : pmm :=
  mk_pmm (pmm_cpu s) (g_pmm_spinlock s) (frame_bitmap s) (frame_bitmap_start s) v
    (total_memory s) (total_frames s) (free_frames s).
Definition with_totals (mem frames free : Z) (s : pmm) : pmm :=
  mk_pmm (pmm_cpu s) (g_pmm_spinlock s) (frame_bitmap s) (frame_bitmap_start s)
    (frame_bitmap_end s) mem frames free.
Definition with_free_frames (v : Z) (s : pmm) : pmm :=
  with_totals (total_memory s) (total_frames s) v s.

Definition pmm_lock : M pmm unit :=
  zoom (λ s, (pmm_cpu s, g_pmm_spinlock s)) with_pmm_lock lock.
Definition pmm_unlock : M pmm unit :=
  zoom (λ s, (pmm_cpu s, g_pmm_spinlock s)) with_pmm_lock unlock.

(** [frame_bitmap[index]] as an lvalue; the array has [FRAME_BITMAP_SIZE] entries. *)
Definition bitmap_read (index : Z) : M pmm Z :=
  b ← gets frame_bitmap;
  of_option (b !! Z.to_nat index).
Definition bitmap_write (index v : Z) : M pmm unit :=
  b ← gets frame_bitmap;
  if decide (Z.to_nat index < length b)%nat
  then modify (with_bitmap (<[Z.to_nat index := v]> b))
  else fault.

Definition is_frame_free (frame : Z) : M pmm bool :=
  let index := frame / FRAME_BITMAP_ENTRY_SIZE in
  let offset := frame mod FRAME_BITMAP_ENTRY_SIZE in
  entry ← bitmap_read index;
  let value := Z.land entry (wrap64 (Z.shiftl FRAME_USED offset)) in
  mret (value =? FRAME_FREE).

Definition set_frame_used (frame : Z) : M pmm unit :=
  let index := frame / FRAME_BITMAP_ENTRY_SIZE in
  let offset := frame mod FRAME_BITMAP_ENTRY_SIZE in
  entry ← bitmap_read index;
  _ ← bitmap_write index (Z.lor entry (wrap64 (Z.shiftl FRAME_USED offset)));
  modify (λ s, with_free_frames (wrap64 (free_frames s - 1)) s).

Definition set_frame_free (frame : Z) : M pmm unit :=
  let index := frame / FRAME_BITMAP_ENTRY_SIZE in
  let offset := frame mod FRAME_BITMAP_ENTRY_SIZE in
  let mask := wrap64 (Z.lnot (wrap64 (Z.shiftl FRAME_USED offset))) in
  entry ← bitmap_read index;
  _ ← bitmap_write index (Z.land entry mask);
  modify (λ s, with_free_frames (wrap64 (free_frames s + 1)) s).

(** [pmm::init]: every frame used, the totals cleared. *)
Definition pmm_init : M pmm unit :=
  _ ← pmm_lock;
  _ ← for_each (seqZ 0 FRAME_BITMAP_SIZE) (λ i, bitmap_write i 0xFFFFFFFFFFFFFFFF);
  _ ← modify (with_totals 0 0 0);
  pmm_unlock.

Definition set_addr_free (addr length : Z) : M pmm unit :=
  let frame_start := addr / FRAME_SIZE in
  let frame_end := wrap64 (addr + length) / FRAME_SIZE in
  _ ← modify (with_start frame_start);
  _ ← modify (with_end frame_end);
  for_each (seqZ frame_start (frame_end - frame_start + 1)) set_frame_free.

Definition set_addr_used (addr length : Z) : M pmm unit :=
  let frame_start := addr / FRAME_SIZE in
  let frame_end := wrap64 (addr + length) / FRAME_SIZE in
  for_each (seqZ frame_start (frame_end - frame_start + 1)) set_frame_used.

(** The body of [add_free_memory] after the early exit, up to the [cleanup] label. *)
Definition register_region (addr len : Z) : M pmm unit :=
  _ ← modify (λ s, with_totals (wrap64 (total_memory s + len)) (total_frames s) (free_frames s) s);
  _ ← modify (λ s, with_totals (total_memory s)
                     (wrap64 (total_frames s + (len / FRAME_SIZE + 1))) (free_frames s) s);
  _ ← modify (λ s, with_free_frames (wrap64 (free_frames s + total_frames s)) s);
  _ ← set_addr_free addr len;
  set_frame_used 0.

Definition add_free_memory (addr len : Z) : M pmm unit :=
  _ ← pmm_lock;
  let end_ := wrap64 (addr + len) in
  _ ← (if MAX_MEMORY_BYTES <=? end_ then
         if MAX_MEMORY_BYTES <=? addr then mret ()
         else register_region addr (MAX_MEMORY_BYTES - addr)
       else register_region addr len);
  pmm_unlock.

Definition get_total_memory : M pmm Z := gets total_memory.
Definition get_free_frames : M pmm Z := gets free_frames.

Definition free_frame (phys : Z) : M pmm unit :=
  _ ← pmm_lock;
  let frame := phys / FRAME_SIZE in
  _ ← set_frame_free frame;
  pmm_unlock.

(** The [while (frame < frame_bitmap_end)] loop over the frames it still has to look at. *)
Fixpoint alloc_scan (frames : list Z) : M pmm Z :=
  match frames with
  | [] => panic
  | frame :: frames' =>
      free ← is_frame_free frame;
      if free : bool then
        _ ← set_frame_used frame;
        _ ← modify (with_start (wrap64 (frame + 1)));
        _ ← pmm_unlock;
        mret (wrap64 (frame * FRAME_SIZE))
      else alloc_scan frames'
  end.

Definition alloc_frame : M pmm Z :=
  _ ← pmm_lock;
  s ← get;
  alloc_scan (seqZ (frame_bitmap_start s) (frame_bitmap_end s - frame_bitmap_start s)).

(** The memory-map half of [init_memory] in [lib/boot/limine-boot.cpp]. *)
Record limine_memmap_entry := mk_memmap_entry {
  base : Z;
  length_ : Z;
  type : Z;
}.
Definition LIMINE_MEMMAP_USABLE : Z := 0.
Definition usable (e : limine_memmap_entry) : bool := type e =? LIMINE_MEMMAP_USABLE.

Definition init_memory_map (entries : list limine_memmap_entry) : M pmm unit :=
  _ ← pmm_init;
  for_each entries (λ e,
    if usable e then add_free_memory (base e) (length_ e) else mret ()).

(** ** The abstract allocator: a set of free frames *)

(** Frame [f] is marked free in the bitmap. *)
Definition frame_free (s : pmm) (f : Z) : bool :=
  match frame_bitmap s !! Z.to_nat (f / FRAME_BITMAP_ENTRY_SIZE) with
  | Some w => negb (Z.testbit w (f mod FRAME_BITMAP_ENTRY_SIZE))
  | None => false
  end.

Definition frame_ok (f : Z) : Prop := 0 ≤ f < MAX_NUM_FRAMES.

Record wf (s : pmm) : Prop := {
  wf_length : length (frame_bitmap s) = Z.to_nat FRAME_BITMAP_SIZE;
  wf_start : 0 ≤ frame_bitmap_start s;
  wf_end : frame_bitmap_end s ≤ MAX_NUM_FRAMES;
  wf_lock : is_free (g_pmm_spinlock s);
  wf_count : is_word 64 (free_frames s);
}.

(** ** One bit of the bitmap *)

Section bits.
Implicit Types (w o i f g : Z).

Lemma used_mask o : 0 ≤ o < 64 → wrap64 (Z.shiftl FRAME_USED o) = 2 ^ o.
Proof.
  intros Ho. unfold FRAME_USED. rewrite Z.shiftl_1_l. apply wrap_small.
  split; [apply Z.pow_nonneg; lia|]. apply Z.pow_lt_mono_r; lia.
Qed.

Lemma testbit_pow2 o i : 0 ≤ o → Z.testbit (2 ^ o) i = (i =? o).
Proof. intros. rewrite Z.pow2_bits_eqb by done. by rewrite Z.eqb_sym. Qed.

Lemma testbit_wrap w z i : 0 ≤ i < w → Z.testbit (wrap w z) i = Z.testbit z i.
Proof. intros. unfold wrap. apply Z.mod_pow2_bits_low; lia. Qed.

Lemma entry_is_free w o : 0 ≤ o < 64 →
  (Z.land w (wrap64 (Z.shiftl FRAME_USED o)) =? FRAME_FREE) = negb (Z.testbit w o).
Proof.
  intros Ho. rewrite used_mask by done. unfold FRAME_FREE.
  destruct (Z.testbit w o) eqn:Hb; cbn.
  - apply Z.eqb_neq. intros H0. apply (f_equal (λ x, Z.testbit x o)) in H0.
    rewrite Z.land_spec, testbit_pow2, Z.testbit_0_l, Hb, Z.eqb_refl in H0 by lia. done.
  - apply Z.eqb_eq. apply Z.bits_inj'. intros i Hi.
    rewrite Z.land_spec, testbit_pow2, Z.testbit_0_l by lia.
    destruct (Z.eqb_spec i o) as [->|]; [by rewrite Hb | by rewrite andb_false_r].
Qed.

Lemma testbit_set_used w o i : 0 ≤ o < 64 →
  Z.testbit (Z.lor w (wrap64 (Z.shiftl FRAME_USED o))) i = Z.testbit w i || (i =? o).
Proof. intros. by rewrite Z.lor_spec, used_mask, testbit_pow2 by lia. Qed.

Lemma testbit_set_free w o i : 0 ≤ o < 64 → 0 ≤ i < 64 →
  Z.testbit (Z.land w (wrap64 (Z.lnot (wrap64 (Z.shiftl FRAME_USED o))))) i =
    Z.testbit w i && negb (i =? o).
Proof.
  intros. by rewrite Z.land_spec, testbit_wrap, Z.lnot_spec, used_mask, testbit_pow2 by lia.
Qed.

(** Frames are addressed by word and bit: the pair determines the frame. *)
Lemma frame_index_bound f : frame_ok f →
  (Z.to_nat (f / FRAME_BITMAP_ENTRY_SIZE) < Z.to_nat FRAME_BITMAP_SIZE)%nat.
Proof.
  unfold frame_ok, FRAME_BITMAP_SIZE, FRAME_BITMAP_ENTRY_SIZE.
  change MAX_NUM_FRAMES with 524288. intros.
  lia.
Qed.

Lemma frame_index_inj f g : 0 ≤ f → 0 ≤ g →
  Z.to_nat (f / FRAME_BITMAP_ENTRY_SIZE) = Z.to_nat (g / FRAME_BITMAP_ENTRY_SIZE) →
  f mod FRAME_BITMAP_ENTRY_SIZE = g mod FRAME_BITMAP_ENTRY_SIZE → f = g.
Proof.
  unfold FRAME_BITMAP_ENTRY_SIZE. intros Hf Hg Hd Hm.
  apply Z2Nat.inj in Hd; [| by apply Z.div_pos ..].
  pose proof (Z.div_mod f 64). pose proof (Z.div_mod g 64). lia.
Qed.
End bits.

(** [changed P b k s s']: the frames in [P] are now free iff [b], the free counter moved by [k],
    and nothing else of the state changed. *)
Record changed (P : Z → bool) (b : bool) (k : Z) (s s' : pmm) : Prop := {
  chg_cpu : pmm_cpu s' = pmm_cpu s;
  chg_lock : g_pmm_spinlock s' = g_pmm_spinlock s;
  chg_length : length (frame_bitmap s') = length (frame_bitmap s);
  chg_start : frame_bitmap_start s' = frame_bitmap_start s;
  chg_end : frame_bitmap_end s' = frame_bitmap_end s;
  chg_total_memory : total_memory s' = total_memory s;
  chg_total_frames : total_frames s' = total_frames s;
  chg_count : free_frames s' = wrap64 (free_frames s + k);
  chg_frames : ∀ g, 0 ≤ g → frame_free s' g = if P g then b else frame_free s g;
}.
Definition updated (f : Z) (b : bool) : pmm → pmm → Prop :=
  changed (Z.eqb f) b (if b then 1 else -1).

Definition bitmap_complete (s : pmm) : Prop :=
  length (frame_bitmap s) = Z.to_nat FRAME_BITMAP_SIZE.

Lemma frame_offset f : 0 ≤ f mod FRAME_BITMAP_ENTRY_SIZE < 64.
Proof. by apply Z.mod_pos_bound. Qed.

Lemma bitmap_entry s f : bitmap_complete s → frame_ok f →
  ∃ w, frame_bitmap s !! Z.to_nat (f / FRAME_BITMAP_ENTRY_SIZE) = Some w.
Proof.
  intros Hlen Hf. apply lookup_lt_is_Some_2. rewrite Hlen. by apply frame_index_bound.
Qed.

Lemma is_frame_free_spec s f : bitmap_complete s → frame_ok f →
  is_frame_free f s = Ok (s, frame_free s f).
Proof.
  intros Hlen Hf. destruct (bitmap_entry s f Hlen Hf) as [w Hw].
  unfold is_frame_free, bitmap_read, frame_free. mrun. rewrite Hw.
  by rewrite entry_is_free by apply frame_offset.
Qed.

(** Both updates rewrite one word of the bitmap. *)
Lemma word_update s f w w' cnt b :
  frame_ok f → frame_bitmap s !! Z.to_nat (f / FRAME_BITMAP_ENTRY_SIZE) = Some w →
  (∀ i, 0 ≤ i < 64 → negb (Z.testbit w' i) =
     if i =? f mod FRAME_BITMAP_ENTRY_SIZE then b else negb (Z.testbit w i)) →
  cnt = wrap64 (free_frames s + if b then 1 else -1) →
  updated f b s (with_free_frames cnt
    (with_bitmap (<[Z.to_nat (f / FRAME_BITMAP_ENTRY_SIZE) := w']> (frame_bitmap s)) s)).
Proof.
  intros Hf Hw Hbits ->. split; try done; cbn; [by rewrite length_insert|].
  intros g Hg. unfold frame_free. cbn.
  destruct (decide (Z.to_nat (f / FRAME_BITMAP_ENTRY_SIZE) =
                    Z.to_nat (g / FRAME_BITMAP_ENTRY_SIZE))) as [Hidx|Hidx].
  - rewrite <- Hidx, Hw, list_lookup_insert_eq by (by eapply lookup_lt_Some).
    rewrite Hbits by apply frame_offset.
    destruct (Z.eqb_spec f g) as [->|Hne]; [by rewrite Z.eqb_refl|].
    rewrite (proj2 (Z.eqb_neq _ _)); [done|].
    intros Hm. apply Hne. apply frame_index_inj; [apply Hf | done | done | done].
  - rewrite list_lookup_insert_ne by done.
    by rewrite (proj2 (Z.eqb_neq f g)) by (intros ->; done).
Qed.

Ltac pmm_word_step Hlen Hf :=
  destruct (bitmap_entry _ _ Hlen Hf) as [w Hw];
  unfold bitmap_read, bitmap_write; mrun; rewrite Hw; cbn beta iota;
  rewrite decide_True by (by eapply lookup_lt_Some);
  eexists; split; [reflexivity|];
  eapply word_update; [done | exact Hw | | done];
  intros i Hi.

Lemma set_frame_used_spec s f : bitmap_complete s → frame_ok f →
  ∃ s', set_frame_used f s = Ok (s', ()) ∧ updated f false s s'.
Proof.
  intros Hlen Hf. unfold set_frame_used. pmm_word_step Hlen Hf.
  rewrite testbit_set_used by apply frame_offset.
  destruct (i =? _); [by rewrite orb_true_r | by rewrite orb_false_r].
Qed.

Lemma set_frame_free_spec s f : bitmap_complete s → frame_ok f →
  ∃ s', set_frame_free f s = Ok (s', ()) ∧ updated f true s s'.
Proof.
  intros Hlen Hf. unfold set_frame_free. pmm_word_step Hlen Hf.
  rewrite testbit_set_free by (done || apply frame_offset).
  destruct (i =? _); [by rewrite andb_false_r | by rewrite andb_true_r].
Qed.

(** ** Composition *)

Lemma changed_refl b s : is_word 64 (free_frames s) → changed (λ _, false) b 0 s s.
Proof. intros. split; try done. by rewrite Z.add_0_r, wrap_small. Qed.

Lemma changed_step P b k f s s' s'' :
  changed P b k s s' → updated f b s' s'' →
  changed (λ g, P g || (f =? g)) b (k + if b then 1 else -1) s s''.
Proof.
  intros [] []. split; try congruence.
  - rewrite chg_count1, chg_count0. destruct b; wrap_lia.
  - intros g Hg. rewrite chg_frames1, chg_frames0 by done.
    by destruct (P g), (f =? g).
Qed.

Lemma changed_proper P P' b k s s' :
  (∀ g, 0 ≤ g → P g = P' g) → changed P b k s s' → changed P' b k s s'.
Proof. intros HP []. split; try done. intros g Hg. by rewrite <- HP, chg_frames0. Qed.

Lemma changed_complete P b k s s' : changed P b k s s' → bitmap_complete s → bitmap_complete s'.
Proof. unfold bitmap_complete. intros [] ?. congruence. Qed.

Definition in_list (l : list Z) (g : Z) : bool := bool_decide (g ∈ l).

Lemma in_list_snoc l f g : in_list (l ++ [f]) g = in_list l g || (f =? g).
Proof.
  unfold in_list. apply eq_bool_prop_intro. rewrite orb_True, !bool_decide_spec, elem_of_app.
  rewrite list_elem_of_singleton, Is_true_true, Z.eqb_eq.
  split; (intros [?|?]; [by left | by right]).
Qed.

(** Marking a list of frames one by one. *)
Lemma mark_frames (step : Z → M pmm unit) b l s :
  (∀ s f, bitmap_complete s → frame_ok f → ∃ s', step f s = Ok (s', ()) ∧ updated f b s s') →
  bitmap_complete s → is_word 64 (free_frames s) → Forall frame_ok l →
  ∃ s', for_each l step s = Ok (s', ()) ∧
    changed (in_list l) b (Z.of_nat (length l) * if b then 1 else -1) s s'.
Proof.
  intros Hstep Hc Hw Hl.
  assert (wp (for_each l step) False (λ _ s',
    changed (in_list l) b (Z.of_nat (length l) * if b then 1 else -1) s s') s) as Hwp.
  { apply (wp_for_each l step False (λ pre s',
      changed (in_list pre) b (Z.of_nat (length pre) * if b then 1 else -1) s s')).
    - intros pre f post s' -> Hpre.
      apply Forall_app in Hl as [_ Hl]. apply Forall_cons in Hl as [Hf _].
      destruct (Hstep s' f) as (s'' & Hrun & Hupd); [by eapply changed_complete | done |].
      unfold wp. rewrite Hrun. rewrite length_app, Nat2Z.inj_add, Z.mul_add_distr_r, Z.mul_1_l.
      eapply changed_proper, changed_step; [|done..].
      intros g _. by rewrite in_list_snoc.
    - eapply changed_proper, changed_refl; done. }
  apply wp_total in Hwp as (s' & [] & Hrun & H). eauto.
Qed.

(** ** The lock around each entry point *)

Definition enter (s : pmm) : pmm := with_pmm_lock (masked (pmm_cpu s), held_from (pmm_cpu s)) s.
Definition leave (c : cpu) (s : pmm) : pmm := with_pmm_lock (c, released c) s.

Lemma pmm_lock_run s : is_free (g_pmm_spinlock s) → pmm_lock s = Ok (enter s, ()).
Proof. intros H. unfold pmm_lock. mrun. by rewrite lock_free. Qed.

Lemma pmm_unlock_run c s : pmm_cpu s = masked c → g_pmm_spinlock s = held_from c →
  pmm_unlock s = Ok (leave c s, ()).
Proof. intros Hc Hl. unfold pmm_unlock. mrun. by rewrite Hc, Hl, unlock_masked. Qed.

Lemma frame_addr f : frame_ok f →
  wrap64 (f + 1) = f + 1 ∧ wrap64 (f * FRAME_SIZE) = f * FRAME_SIZE.
Proof.
  unfold frame_ok, FRAME_SIZE. change MAX_NUM_FRAMES with 524288.
  intros. split; apply wrap_small; unfold is_word; lia.
Qed.

(** What [alloc_scan] does under the lock: the first free frame of the list, or a panic. *)
Lemma alloc_scan_run c l s :
  bitmap_complete s → pmm_cpu s = masked c → g_pmm_spinlock s = held_from c →
  Forall frame_ok l →
  match find (frame_free s) l with
  | Some f => ∃ s1, updated f false s s1 ∧
      alloc_scan l s = Ok (leave c (with_start (f + 1) s1), f * FRAME_SIZE)
  | None => alloc_scan l s = Panic
  end.
Proof.
  intros Hc Hcpu Hlock. induction l as [|f l IH]; [done|].
  intros [Hf Hl]%Forall_cons. cbn [alloc_scan find]. unfold mbind, M_bind.
  rewrite is_frame_free_spec by done.
  destruct (frame_free s f); [|by apply IH].
  destruct (set_frame_used_spec s f) as (s1 & Hrun & Hupd); [done..|].
  exists s1. split; [done|]. rewrite Hrun. unfold modify.
  destruct (frame_addr f Hf) as [-> ->].
  rewrite (pmm_unlock_run c); [done| |]; cbn; destruct Hupd; congruence.
Qed.

(** The part of the state the allocator does not look at. *)
Record rest_same (s s' : pmm) : Prop := {
  rest_cpu : pmm_cpu s' = pmm_cpu s;
  rest_end : frame_bitmap_end s' = frame_bitmap_end s;
  rest_memory : total_memory s' = total_memory s;
  rest_frames : total_frames s' = total_frames s;
}.

Lemma scan_range s g : wf s →
  g ∈ seqZ (frame_bitmap_start s) (frame_bitmap_end s - frame_bitmap_start s) → frame_ok g.
Proof. intros [] ?%elem_of_seqZ. unfold frame_ok. lia. Qed.

(** [alloc_frame] as an equation on the abstract set of free frames. *)
Lemma alloc_frame_run s : wf s →
  match find (frame_free s)
          (seqZ (frame_bitmap_start s) (frame_bitmap_end s - frame_bitmap_start s)) with
  | Some f => ∃ s', alloc_frame s = Ok (s', f * FRAME_SIZE) ∧ wf s' ∧ rest_same s s' ∧
      frame_bitmap_start s' = f + 1 ∧
      ∀ g, 0 ≤ g → frame_free s' g = if f =? g then false else frame_free s g
  | None => alloc_frame s = Panic
  end.
Proof.
  intros Hwf. pose proof Hwf as []. unfold alloc_frame, mbind, M_bind.
  rewrite pmm_lock_run by done. unfold get.
  pose proof (alloc_scan_run (pmm_cpu s)
    (seqZ (frame_bitmap_start s) (frame_bitmap_end s - frame_bitmap_start s)) (enter s)) as Hscan.
  change (frame_free (enter s)) with (frame_free s) in Hscan.
  cbn [enter with_pmm_lock frame_bitmap_start frame_bitmap_end] in *.
  destruct (find _ _) as [f|] eqn:Hfind.
  - destruct Hscan as (s1 & Hupd & Hrun); [done..| |].
    { apply Forall_forall. intros g Hg. by eapply scan_range. }
    rewrite Hrun. apply find_some in Hfind as [Hin _].
    apply list_elem_of_In, scan_range in Hin; [|done]. unfold frame_ok in Hin.
    destruct Hupd as []. eexists. split; [reflexivity|]. cbn in *.
    split; [|split; [split; done | split; [done|]]].
    + split; cbn; [congruence | lia | lia | done |].
      rewrite chg_count0. by apply wrap_range.
    + intros g Hg. by rewrite <- chg_frames0.
  - apply Hscan; [done..|]. apply Forall_forall. intros g Hg. by eapply scan_range.
Qed.

Lemma free_frame_run s phys : wf s → frame_ok (phys / FRAME_SIZE) →
  ∃ s', free_frame phys s = Ok (s', ()) ∧ wf s' ∧ rest_same s s' ∧
    frame_bitmap_start s' = frame_bitmap_start s ∧ free_frames s' = wrap64 (free_frames s + 1) ∧
    ∀ g, 0 ≤ g → frame_free s' g = if phys / FRAME_SIZE =? g then true else frame_free s g.
Proof.
  intros [] Hf. unfold free_frame, mbind, M_bind. rewrite pmm_lock_run by done.
  destruct (set_frame_free_spec (enter s) (phys / FRAME_SIZE)) as (s1 & Hrun & []); [done..|].
  cbn in *. rewrite Hrun, (pmm_unlock_run (pmm_cpu s)) by done.
  eexists. split; [reflexivity|]. split; [split; cbn; [congruence..| done |] | ].
  - rewrite chg_count0. by apply wrap_range.
  - split; [by split|]. split; [done|]. split; [done|]. intros g Hg. by rewrite <- chg_frames0.
Qed.

(** The number of frames [alloc_frame] can still hand out. *)
Definition window_frames (s : pmm) : list Z :=
  seqZ (frame_bitmap_start s) (frame_bitmap_end s - frame_bitmap_start s).
Definition avail (s : pmm) : nat := length (List.filter (frame_free s) (window_frames s)).

Lemma filter_ext_len {A} (p q : A → bool) l : (∀ x, x ∈ l → p x = q x) →
  length (List.filter p l) = length (List.filter q l).
Proof.
  induction l as [|x l IH]; intros H; [done|]. cbn. rewrite (H x) by set_solver.
  destruct (q x); cbn; [f_equal|]; apply IH; set_solver.
Qed.

Lemma find_seqZ_count p a n f : find p (seqZ a n) = Some f →
  length (List.filter p (seqZ a n)) = S (length (List.filter p (seqZ (f + 1) (a + n - (f + 1))))).
Proof.
  destruct (decide (0 ≤ n)) as [Hn|Hn]; [|by rewrite seqZ_nil by lia].
  revert a. pattern n. apply natlike_ind; [done| |done]. clear n Hn.
  intros n Hn IH a. rewrite seqZ_cons by lia. cbn. destruct (p a).
  - intros [= <-]. cbn. do 4 f_equal. lia.
  - rewrite Z.pred_succ. intros H. rewrite (IH _ H). do 4 f_equal. lia.
Qed.

(** With a free frame in the window [alloc_frame] returns one. *)
Lemma alloc_frame_avail s : wf s → (0 < avail s)%nat →
  ∃ f s', alloc_frame s = Ok (s', f * FRAME_SIZE) ∧ wf s' ∧ rest_same s s' ∧
    frame_ok f ∧ frame_free s f = true ∧ avail s = S (avail s') ∧
    ∀ g, 0 ≤ g → frame_free s' g = if f =? g then false else frame_free s g.
Proof.
  intros Hwf Hav. pose proof (alloc_frame_run s Hwf) as Hrun. unfold avail in Hav.
  fold (window_frames s) in Hrun. destruct (find _ _) as [f|] eqn:Hfind; cycle 1.
  { rewrite (filter_ext_len _ (λ _, false)) in Hav.
    - clear Hfind. induction (window_frames s); [cbn in Hav; lia | auto].
    - intros x Hx%list_elem_of_In. by eapply find_none. }
  destruct Hrun as (s' & Hrun & Hwf' & Hrest & Hstart & Hfr).
  pose proof Hfind as [Hin Hfree]%find_some. apply list_elem_of_In in Hin.
  assert (frame_ok f) as Hok by (by apply (scan_range s)).
  exists f, s'. split_and!; try done. unfold avail.
  unfold window_frames in *. rewrite (find_seqZ_count _ _ _ f Hfind).
  rewrite Hstart, (rest_end s s' Hrest). f_equal. rewrite Zplus_minus. apply filter_ext_len.
  intros g Hg%elem_of_seqZ. rewrite Hfr by (unfold frame_ok in Hok; lia).
  by rewrite (proj2 (Z.eqb_neq f g)) by lia.
Qed.

Lemma filter_len_mono {A} (p q : A → bool) l : (∀ x, x ∈ l → p x = true → q x = true) →
  (length (List.filter p l) ≤ length (List.filter q l))%nat.
Proof.
  induction l as [|x l IH]; intros H; [done|]. cbn.
  assert (length (List.filter p l) ≤ length (List.filter q l))%nat by (apply IH; set_solver).
  specialize (H x ltac:(set_solver)). destruct (p x); [rewrite H by done|destruct (q x)]; cbn; lia.
Qed.

Lemma free_frame_avail s phys s' : wf s → frame_ok (phys / FRAME_SIZE) →
  free_frame phys s = Ok (s', ()) → (avail s ≤ avail s')%nat.
Proof.
  intros Hwf Hf Hrun. destruct (free_frame_run s phys) as (s1 & H & _ & [] & Hst & _ & Hfr); [done..|].
  rewrite H in Hrun. simplify_eq. unfold avail, window_frames. rewrite Hst, rest_end0.
  apply filter_len_mono. intros g Hg%elem_of_seqZ Hfree. pose proof Hwf as [].
  rewrite Hfr by lia. by destruct (_ =? g).
Qed.

(** Registering a region: frames [addr/4096 .. (addr+len)/4096] become free, frame 0 stays used,
    and the search window is the region without its last frame. *)
Definition region_frames (addr len : Z) : list Z :=
  seqZ (addr / FRAME_SIZE) ((addr + len) / FRAME_SIZE - addr / FRAME_SIZE + 1).

Definition in_region (addr len g : Z) : bool :=
  (addr / FRAME_SIZE <=? g) && (g <=? (addr + len) / FRAME_SIZE).

Lemma in_list_region addr len g : in_list (region_frames addr len) g = in_region addr len g.
Proof.
  unfold in_list, region_frames, in_region. case_bool_decide as H; rewrite elem_of_seqZ in H; lia.
Qed.

Lemma region_ok addr len : 0 ≤ addr → 0 ≤ len → addr + len < MAX_MEMORY_BYTES →
  wrap64 (addr + len) = addr + len ∧ Forall frame_ok (region_frames addr len) ∧
  (addr + len) / FRAME_SIZE ≤ MAX_NUM_FRAMES.
Proof.
  unfold MAX_MEMORY_BYTES, region_frames, FRAME_SIZE. intros. split_and!.
  - apply wrap_small. unfold is_word. lia.
  - apply Forall_forall. intros g Hg%elem_of_seqZ. unfold frame_ok.
    change MAX_NUM_FRAMES with 524288. lia.
  - change MAX_NUM_FRAMES with 524288. lia.
Qed.

Record registered (addr len : Z) (s s' : pmm) : Prop := {
  reg_cpu : pmm_cpu s' = pmm_cpu s;
  reg_start : frame_bitmap_start s' = addr / FRAME_SIZE;
  reg_end : frame_bitmap_end s' = (addr + len) / FRAME_SIZE;
  reg_memory : total_memory s' = wrap64 (total_memory s + len);
  reg_total : total_frames s' = wrap64 (total_frames s + (len / FRAME_SIZE + 1));
  reg_count : free_frames s' = wrap64 (free_frames s + total_frames s' +
                ((addr + len) / FRAME_SIZE - addr / FRAME_SIZE));
  reg_frames : ∀ g, 0 ≤ g →
    frame_free s' g = negb (g =? 0) && (in_region addr len g || frame_free s g);
}.

Lemma register_region_run addr len s :
  bitmap_complete s → 0 ≤ addr → 0 ≤ len → addr + len < MAX_MEMORY_BYTES →
  ∃ s', register_region addr len s = Ok (s', ()) ∧ registered addr len s s' ∧
    bitmap_complete s' ∧ g_pmm_spinlock s' = g_pmm_spinlock s ∧ is_word 64 (free_frames s').
Proof.
  intros Hc Ha Hl Hend. destruct (region_ok addr len) as (Hwrap & Hok & _); [done..|].
  unfold register_region, set_addr_free. rewrite Hwrap.
  unfold mbind, M_bind, modify. fold (region_frames addr len).
  match goal with |- context [for_each _ _ ?st] => set (s0 := st) end.
  destruct (mark_frames set_frame_free true (region_frames addr len) s0) as (s1 & Hrun & Hchg).
  { apply set_frame_free_spec. }
  { done. }
  { by apply wrap_range. }
  { done. }
  rewrite Hrun.
  destruct (set_frame_used_spec s1 0) as (s2 & Hrun2 & Hupd).
  { by eapply changed_complete. }
  { done. }
  exists s2. split; [done|]. destruct Hchg as [], Hupd as []. subst s0. cbn in *.
  split_and!.
  - split; [congruence..| |].
    + rewrite chg_count1, chg_count0, chg_total_frames1, chg_total_frames0. cbn.
      unfold region_frames. rewrite length_seqZ, Z2Nat.id
        by (unfold FRAME_SIZE; lia).
      wrap_lia.
    + intros g Hg. rewrite chg_frames1, chg_frames0, in_list_region, (Z.eqb_sym 0 g) by done.
      by destruct (g =? 0), (in_region addr len g).
  - unfold bitmap_complete in *. by rewrite chg_length1, chg_length0.
  - congruence.
  - rewrite chg_count1. by apply wrap_range.
Qed.

Lemma add_free_memory_run addr len s :
  wf s → 0 ≤ addr → 0 ≤ len → addr + len < MAX_MEMORY_BYTES →
  ∃ s', add_free_memory addr len s = Ok (s', ()) ∧ registered addr len s s' ∧ wf s'.
Proof.
  intros [] Ha Hl Hend. destruct (region_ok addr len) as (Hwrap & _ & Hmax); [done..|].
  unfold add_free_memory, mbind, M_bind. rewrite pmm_lock_run, Hwrap by done.
  replace (MAX_MEMORY_BYTES <=? addr + len) with false by lia.
  destruct (register_region_run addr len (enter s)) as (s1 & Hrun & [] & Hc & Hlk & Hcnt); [done..|].
  cbn in *. rewrite Hrun, (pmm_unlock_run (pmm_cpu s)) by done.
  eexists. split; [reflexivity|]. split; [by split|].
  split; cbn; [done| | by rewrite reg_end0 | done | done].
  rewrite reg_start0. unfold FRAME_SIZE. lia.
Qed.

(** ** The allocator as its clients see it

    A set of free frames with a cursor that only moves up.  The refinement shows that any sequence
    of [alloc_frame]/[free_frame] calls returns what this specification returns. *)
Module Spec.
Record allocator := mk_allocator {
  a_free : Z → bool;
  a_cursor : Z;
  a_limit : Z;
}.

Definition a_alloc : M allocator Z := λ a,
  match find (a_free a) (seqZ (a_cursor a) (a_limit a - a_cursor a)) with
  | Some f => Ok (mk_allocator (λ g, if f =? g then false else a_free a g) (f + 1) (a_limit a),
                  f * FRAME_SIZE)
  | None => Panic
  end.

Definition a_release (phys : Z) : M allocator Z := λ a,
  Ok (mk_allocator (λ g, if phys / FRAME_SIZE =? g then true else a_free a g)
        (a_cursor a) (a_limit a), phys).

(** A client's calls; the result of a call is the frame it is about. *)
Inductive op := Alloc | Release (phys : Z).

Definition exec (o : op) : M pmm Z :=
  match o with
  | Alloc => alloc_frame
  | Release phys => _ ← free_frame phys; mret phys
  end.
Definition a_exec (o : op) : M allocator Z :=
  match o with
  | Alloc => a_alloc
  | Release phys => a_release phys
  end.

Fixpoint exec_all {S} (step : op → M S Z) (l : list op) : M S (list (op * Z)) :=
  match l with
  | [] => mret []
  | o :: l' => r ← step o; rs ← exec_all step l'; mret ((o, r) :: rs)
  end.

Definition op_ok (o : op) : Prop :=
  match o with Alloc => True | Release phys => frame_ok (phys / FRAME_SIZE) end.

Record represents (s : pmm) (a : allocator) : Prop := {
  rep_wf : wf s;
  rep_free : ∀ g, 0 ≤ g → frame_free s g = a_free a g;
  rep_cursor : frame_bitmap_start s = a_cursor a;
  rep_limit : frame_bitmap_end s = a_limit a;
}.

(** Two outcomes agree: the same failure, or the same value in related states. *)
Definition agree {A} (c : cpu) (o : outcome (pmm * A)) (o' : outcome (allocator * A)) : Prop :=
  match o, o' with
  | Ok (s, r), Ok (a, r') => r = r' ∧ represents s a ∧ pmm_cpu s = c
  | Panic, Panic => True
  | _, _ => False
  end.

Lemma find_ext {A} (p q : A → bool) l : (∀ x, x ∈ l → p x = q x) → find p l = find q l.
Proof.
  induction l as [|x l IH]; intros H; [done|]. cbn. rewrite (H x), IH by set_solver. done.
Qed.

Lemma exec_agree o s a : represents s a → op_ok o →
  agree (pmm_cpu s) (exec o s) (a_exec o a).
Proof.
  intros [Hwf Hfree Hcur Hlim] Hok. destruct o as [|phys]; cbn [exec a_exec].
  - pose proof (alloc_frame_run s Hwf) as Hrun. unfold a_alloc.
    rewrite <- Hcur, <- Hlim. erewrite find_ext in Hrun; cycle 1.
    { intros g Hg. apply Hfree. apply scan_range in Hg; [apply Hg|done]. }
    destruct (find _ _) as [f|]; [|by rewrite Hrun].
    destruct Hrun as (s' & -> & Hwf' & [] & Hstart & Hfr). split; [done|].
    split; [|done]. split; cbn; [done| |done..].
    intros g Hg. rewrite Hfr by done. by rewrite Hfree.
  - destruct (free_frame_run s phys) as (s' & Hrun & Hwf' & [] & Hstart & _ & Hfr); [done..|].
    unfold mbind, M_bind. rewrite Hrun. split; [done|]. split; [|done].
    split; cbn; [done| |congruence..]. intros g Hg. by rewrite Hfr, Hfree.
Qed.

Lemma exec_all_agree l s a : represents s a → Forall op_ok l →
  agree (pmm_cpu s) (exec_all exec l s) (exec_all a_exec l a).
Proof.
  revert s a. induction l as [|o l IH]; intros s a Hrep; [by intros _|].
  intros [Ho Hl]%Forall_cons. cbn [exec_all]. unfold mbind, M_bind.
  pose proof (exec_agree o s a Hrep Ho) as Hagree.
  destruct (exec o s) as [[s1 r]| | |], (a_exec o a) as [[a1 r']| | |]; try done.
  destruct Hagree as (-> & Hrep1 & Hcpu). specialize (IH s1 a1 Hrep1 Hl).
  destruct (exec_all exec l s1) as [[s2 rs]| | |], (exec_all a_exec l a1) as [[a2 rs']| | |];
    try done.
  destruct IH as (-> & Hrep2 & Hcpu2). split_and!; [done..|congruence].
Qed.
End Spec.

(** ** Boot: [init] and the memory map *)

Definition all_used : Z := 0xFFFFFFFFFFFFFFFF.

Lemma all_used_free s f : bitmap_complete s → frame_ok f →
  frame_bitmap s !! Z.to_nat (f / FRAME_BITMAP_ENTRY_SIZE) = Some all_used →
  frame_free s f = false.
Proof.
  intros Hc Hf Hw. unfold frame_free. rewrite Hw. change all_used with (Z.ones 64).
  pose proof (frame_offset f). by rewrite Z.ones_spec_low.
Qed.

(** The loop of [init] writes every word. *)
Lemma init_loop_run s : bitmap_complete s →
  ∃ b, for_each (seqZ 0 FRAME_BITMAP_SIZE) (λ i, bitmap_write i all_used) s =
         Ok (with_bitmap b s, ()) ∧
    length b = Z.to_nat FRAME_BITMAP_SIZE ∧
    ∀ i, 0 ≤ i < FRAME_BITMAP_SIZE → b !! Z.to_nat i = Some all_used.
Proof.
  intros Hc. set (l := seqZ 0 FRAME_BITMAP_SIZE).
  assert (wp (for_each l (λ i, bitmap_write i all_used)) False (λ _ s', ∃ b,
    s' = with_bitmap b s ∧ length b = Z.to_nat FRAME_BITMAP_SIZE ∧
    ∀ i, i ∈ l → b !! Z.to_nat i = Some all_used) s) as Hwp.
  { apply (wp_for_each l _ False (λ pre s', ∃ b,
      s' = with_bitmap b s ∧ length b = Z.to_nat FRAME_BITMAP_SIZE ∧
      ∀ i, i ∈ pre → b !! Z.to_nat i = Some all_used)).
    - intros pre i post s' Hl (b & -> & Hlen & Hpre).
      assert (i ∈ l) as Hi%elem_of_seqZ by (rewrite Hl; set_solver).
      unfold bitmap_write. apply wp_gets. cbn. rewrite decide_True by lia.
      eexists. split; [reflexivity|]. rewrite length_insert. split; [done|].
      intros j Hj. destruct (decide (Z.to_nat i = Z.to_nat j)) as [Heq|Hne].
      + rewrite <- Heq, list_lookup_insert_eq by lia. done.
      + rewrite list_lookup_insert_ne by done. apply Hpre.
        apply elem_of_app in Hj as [?|?%list_elem_of_singleton]; [done|congruence].
    - exists (frame_bitmap s). split; [by destruct s|]. split; [done|]. by intros i ?%not_elem_of_nil. }
  apply wp_total in Hwp as (s' & [] & Hrun & b & -> & Hlen & Hb).
  exists b. split; [done|]. split; [done|]. intros i Hi. apply Hb, elem_of_seqZ. lia.
Qed.

Lemma pmm_init_run s : bitmap_complete s → is_free (g_pmm_spinlock s) →
  0 ≤ frame_bitmap_start s → frame_bitmap_end s ≤ MAX_NUM_FRAMES →
  ∃ s', pmm_init s = Ok (s', ()) ∧ wf s' ∧ pmm_cpu s' = pmm_cpu s ∧
    total_frames s' = 0 ∧ free_frames s' = 0 ∧ total_memory s' = 0 ∧
    (frame_bitmap_start s', frame_bitmap_end s') = (frame_bitmap_start s, frame_bitmap_end s) ∧
    ∀ f, 0 ≤ f → frame_free s' f = false.
Proof.
  intros Hc Hl Hs He. unfold pmm_init, mbind, M_bind. rewrite pmm_lock_run by done.
  destruct (init_loop_run (enter s)) as (b & Hrun & Hlen & Hb); [done|].
  fold all_used. rewrite Hrun. unfold modify.
  rewrite (pmm_unlock_run (pmm_cpu s)) by done.
  eexists. split; [reflexivity|]. split; [split; cbn; done|]. do 5 (split; [done|]).
  intros f Hf. destruct (decide (f < MAX_NUM_FRAMES)) as [Hlt|Hge].
  - apply all_used_free; [done|done|]. apply Hb.
    unfold FRAME_BITMAP_SIZE, FRAME_BITMAP_ENTRY_SIZE. change MAX_NUM_FRAMES with 524288 in *. lia.
  - unfold frame_free. cbn. rewrite lookup_ge_None_2; [done|]. rewrite Hlen.
    unfold FRAME_BITMAP_SIZE, FRAME_BITMAP_ENTRY_SIZE. change MAX_NUM_FRAMES with 524288 in *. lia.
Qed.

(** A usable entry that ends below the 2 GiB limit. *)
Definition entry_ok (e : limine_memmap_entry) : Prop :=
  usable e = true → 0 ≤ base e ∧ 0 ≤ length_ e ∧ base e + length_ e < MAX_MEMORY_BYTES.

Definition covers (entries : list limine_memmap_entry) (g : Z) : bool :=
  existsb (λ e, usable e && in_region (base e) (length_ e) g) entries.

(** The search window after the entries: the region of the last usable one. *)
Definition window (s : pmm) (entries : list limine_memmap_entry) : Z * Z :=
  match last (filter (λ e, usable e = true) entries) with
  | Some e => (base e / FRAME_SIZE, (base e + length_ e) / FRAME_SIZE)
  | None => (frame_bitmap_start s, frame_bitmap_end s)
  end.

Definition mapped_so_far (s : pmm) (es : list limine_memmap_entry) (s' : pmm) : Prop :=
  wf s' ∧ pmm_cpu s' = pmm_cpu s ∧
  (frame_bitmap_start s', frame_bitmap_end s') = window s es ∧
  ∀ g, 0 ≤ g → frame_free s' g = negb (g =? 0) && covers es g.

Lemma window_snoc s es e : window s (es ++ [e]) =
  if usable e then (base e / FRAME_SIZE, (base e + length_ e) / FRAME_SIZE) else window s es.
Proof.
  unfold window. rewrite filter_app, filter_cons, filter_nil.
  destruct (usable e); case_decide; try done.
  - by rewrite last_snoc.
  - by rewrite app_nil_r.
Qed.

Lemma covers_snoc es e g : covers (es ++ [e]) g =
  covers es g || (usable e && in_region (base e) (length_ e) g).
Proof. unfold covers. rewrite existsb_app. cbn. by rewrite orb_false_r. Qed.

Lemma mapped_step s es e s' : entry_ok e → mapped_so_far s es s' →
  wp (if usable e then add_free_memory (base e) (length_ e) else mret ()) False
    (λ _ s'', mapped_so_far s (es ++ [e]) s'') s'.
Proof.
  intros He (Hwf & Hcpu & Hwin & Hfree). unfold mapped_so_far.
  rewrite window_snoc. unfold entry_ok in He. destruct (usable e) eqn:Hu.
  - destruct He as (Hb & Hl & Hend); [done|].
    destruct (add_free_memory_run (base e) (length_ e) s') as (s'' & Hrun & [] & Hwf''); [done..|].
    unfold wp. rewrite Hrun. split_and!; [done|congruence|congruence|].
    intros g Hg. rewrite reg_frames0, Hfree, covers_snoc, Hu by done.
    by destruct (g =? 0), (in_region _ _ _), (covers _ _).
  - apply wp_ret. split_and!; [done..|]. intros g Hg.
    by rewrite Hfree, covers_snoc, Hu, orb_false_r by done.
Qed.

Lemma for_each_app {S A} (l k : list A) (body : A → M S unit) s s' :
  for_each l body s = Ok (s', ()) → for_each (l ++ k) body s = for_each k body s'.
Proof.
  revert s. induction l as [|x l IH]; intros s; cbn [for_each app].
  - by intros [= ->].
  - unfold mbind, M_bind. destruct (body x s) as [[s1 []]| | |]; [apply IH | done..].
Qed.

Definition alloc_results (rs : list (Spec.op * Z)) : list Z :=
  omap (λ r, match r.1 with Spec.Alloc => Some r.2 | Spec.Release _ => None end) rs.

Lemma exec_step_cursor o s s' r : wf s → Spec.op_ok o → Spec.exec o s = Ok (s', r) →
  wf s' ∧ frame_bitmap_start s ≤ frame_bitmap_start s' ∧
  (o = Spec.Alloc → frame_bitmap_start s * FRAME_SIZE ≤ r < frame_bitmap_start s' * FRAME_SIZE).
Proof.
  intros Hwf Hok Hrun. destruct o as [|phys]; cbn [Spec.exec] in Hrun.
  - pose proof (alloc_frame_run s Hwf) as H. destruct (find _ _) as [f|] eqn:Hfind; [|congruence].
    destruct H as (s1 & H & Hwf' & _ & Hstart & _). rewrite H in Hrun. simplify_eq.
    apply find_some in Hfind as [Hin%list_elem_of_In%elem_of_seqZ _].
    unfold FRAME_SIZE. split; [done|]. lia.
  - destruct (free_frame_run s phys) as (s1 & H & Hwf' & _ & Hstart & _); [done..|].
    unfold mbind, M_bind in Hrun. rewrite H in Hrun.
    injection Hrun as <- _. split; [done|]. split; [lia|done].
Qed.

Lemma exec_all_cursor l s s' rs : wf s → Forall Spec.op_ok l →
  Spec.exec_all Spec.exec l s = Ok (s', rs) →
  Forall (λ r, frame_bitmap_start s * FRAME_SIZE ≤ r) (alloc_results rs) ∧
  StronglySorted Z.lt (alloc_results rs).
Proof.
  revert s rs. induction l as [|o l IH]; intros s rs Hwf Hok.
  { intros [= <- <-]. cbn. split; constructor. }
  apply Forall_cons in Hok as [Ho Hok]. cbn [Spec.exec_all]. unfold mbind, M_bind.
  destruct (Spec.exec o s) as [[s1 r]| | |] eqn:Hrun; try done.
  destruct (exec_step_cursor o s s1 r Hwf Ho Hrun) as (Hwf1 & Hle & Hr).
  destruct (Spec.exec_all Spec.exec l s1) as [[s2 rs']| | |] eqn:Hrest; try done.
  intros [= <- <-]. destruct (IH s1 rs' Hwf1 Hok) as [Hge Hsort]; [done|].
  unfold FRAME_SIZE in *.
  destruct o as [|phys]; cbn.
  - specialize (Hr eq_refl). split.
    + constructor; [lia|]. eapply Forall_impl; [done|]. cbn. lia.
    + constructor; [done|]. eapply Forall_impl; [done|]. cbn. lia.
  - split; [|done]. eapply Forall_impl; [done|]. cbn. lia.
Qed.

(** The frame just past the bitmap. *)
Lemma set_frame_free_past s : bitmap_complete s → set_frame_free MAX_NUM_FRAMES s = Fault.
Proof.
  intros Hc. unfold set_frame_free, bitmap_read. mrun.
  rewrite lookup_ge_None_2; [done|]. by rewrite Hc.
Qed.

Lemma region_past_split addr : 0 ≤ addr < MAX_MEMORY_BYTES →
  region_frames addr (MAX_MEMORY_BYTES - addr) =
    seqZ (addr / FRAME_SIZE) (MAX_NUM_FRAMES - addr / FRAME_SIZE) ++ [MAX_NUM_FRAMES].
Proof.
  intros Ha. unfold region_frames. rewrite Zplus_minus. fold MAX_NUM_FRAMES.
  unfold FRAME_SIZE, MAX_MEMORY_BYTES in *. change MAX_NUM_FRAMES with 524288.
  rewrite (seqZ_app _ (524288 - addr / 4096) 1) by lia. f_equal.
  rewrite Zplus_minus. done.
Qed.

(** ** Theorems *)

(** The zero-initialised statics of the file. *)
Definition boot_pmm : pmm :=
  mk_pmm cpu0 new_irqsave (replicate (Z.to_nat FRAME_BITMAP_SIZE) 0) 0 0 0 0 0.

(** C4: every sequence of [alloc_frame] and [free_frame] calls behaves as the abstract allocator
    (a set of free frames and a cursor): the same results, a panic exactly where the abstract one
    has no free frame left in its window, and interrupt flag, access flag and preemption state of
    the CPU as they were before the calls. *)
Theorem pmm_refines_allocator s a l :
  Spec.represents s a → Forall Spec.op_ok l →
  Spec.agree (pmm_cpu s) (Spec.exec_all Spec.exec l s) (Spec.exec_all Spec.a_exec l a).
Proof. apply Spec.exec_all_agree. Qed.

Definition small_pmm : pmm :=
  mk_pmm cpu0 new_irqsave (replicate (Z.to_nat FRAME_BITMAP_SIZE) 0xFFFFFFFFFFFFFF0F) 2 7 0 0 0.
Definition small_calls : list Spec.op :=
  [Spec.Alloc; Spec.Release 4096; Spec.Alloc; Spec.Alloc; Spec.Alloc].

Lemma small_pmm_wf : wf small_pmm.
Proof. by split. Qed.

Lemma pmm_refines_allocator_witness :
  Spec.agree cpu0 (Spec.exec_all Spec.exec small_calls small_pmm)
    (Spec.exec_all Spec.a_exec small_calls (Spec.mk_allocator (frame_free small_pmm) 2 7)) ∧
  Spec.exec_all Spec.exec small_calls small_pmm = Panic.
Proof.
  split; [|by vm_compute].
  apply (pmm_refines_allocator small_pmm); [split; try done; apply small_pmm_wf|].
  repeat constructor; done.
Defined.

(** In any run of allocator calls the addresses [alloc_frame] returns are strictly increasing;
    in particular no frame is handed out twice, and a freed frame is never handed out again. *)
Theorem alloc_addresses_increase s s' l rs :
  wf s → Forall Spec.op_ok l → Spec.exec_all Spec.exec l s = Ok (s', rs) →
  StronglySorted Z.lt (alloc_results rs).
Proof. intros. by eapply exec_all_cursor. Qed.

Lemma alloc_addresses_increase_witness :
  ∃ s', Spec.exec_all Spec.exec [Spec.Alloc; Spec.Release 0x4000; Spec.Alloc] small_pmm =
    Ok (s', [(Spec.Alloc, 0x4000); (Spec.Release 0x4000, 0x4000); (Spec.Alloc, 0x5000)]) ∧
    StronglySorted Z.lt [0x4000; 0x5000].
Proof.
  eexists. split; [by vm_compute|].
  eapply (alloc_addresses_increase small_pmm _
    [Spec.Alloc; Spec.Release 0x4000; Spec.Alloc]
    [(Spec.Alloc, 0x4000); (Spec.Release 0x4000, 0x4000); (Spec.Alloc, 0x5000)]);
    [apply small_pmm_wf | repeat constructor; done | by vm_compute].
Defined.

(** After [pmm::init] and the memory map (every usable entry below 2 GiB), a frame is free
    exactly if it is not frame 0 and a usable entry covers it; the frames [alloc_frame] will look
    at are those of the last usable entry only; the CPU state is unchanged. *)
Theorem memory_map_registered s entries :
  bitmap_complete s → is_free (g_pmm_spinlock s) →
  0 ≤ frame_bitmap_start s → frame_bitmap_end s ≤ MAX_NUM_FRAMES → Forall entry_ok entries →
  ∃ s', init_memory_map entries s = Ok (s', ()) ∧ mapped_so_far s entries s'.
Proof.
  intros Hc Hl Hs He Hok. unfold init_memory_map, mbind, M_bind.
  destruct (pmm_init_run s) as (s0 & Hrun & Hwf & Hcpu & _ & _ & _ & Hw & Hfree); [done..|].
  rewrite Hrun.
  assert (wp (for_each entries (λ e, if usable e then add_free_memory (base e) (length_ e)
    else mret ())) False (λ _ s', mapped_so_far s entries s') s0) as Hwp.
  { apply (wp_for_each _ _ False (mapped_so_far s)).
    - intros pre e post s1 -> Hpre. apply mapped_step; [|done].
      apply Forall_app in Hok as [_ Hok]. by apply Forall_cons in Hok as [? _].
    - split_and!; [done..|]. intros g Hg. rewrite Hfree by done. by rewrite andb_false_r. }
  apply wp_total in Hwp as (s' & [] & Hr & H). eauto.
Qed.

Definition two_regions : list limine_memmap_entry :=
  [mk_memmap_entry 0x1000 0x3000 0; mk_memmap_entry 0x8000 0x1000 1;
   mk_memmap_entry 0x10000 0x2000 0].

Lemma memory_map_registered_witness :
  ∃ s', init_memory_map two_regions boot_pmm = Ok (s', ()) ∧
    mapped_so_far boot_pmm two_regions s' ∧ frame_free s' 2 = true ∧ frame_bitmap_start s' = 16.
Proof.
  destruct (memory_map_registered boot_pmm two_regions) as (s' & Hrun & Hm);
    [done | done | done | done | repeat constructor; intros; cbn in *; done |].
  exists s'. split; [done|]. split; [done|]. destruct Hm as (_ & _ & Hw & Hf).
  split; [by rewrite Hf | by injection Hw].
Defined.

(** A usable region that reaches the 2 GiB limit makes [add_free_memory] write the bitmap past
    its end: the truncated length still puts frame [MAX_NUM_FRAMES] in the loop of
    [set_addr_free], whose bound is inclusive. *)
Theorem region_reaching_limit_faults s addr len :
  wf s → 0 ≤ addr < MAX_MEMORY_BYTES → MAX_MEMORY_BYTES ≤ addr + len < 2 ^ 64 →
  add_free_memory addr len s = Fault.
Proof.
  intros [] Ha Hlen. unfold add_free_memory, mbind, M_bind. rewrite pmm_lock_run by done.
  rewrite (wrap_small 64 (addr + len)) by (unfold is_word; lia).
  replace (MAX_MEMORY_BYTES <=? addr + len) with true by lia.
  replace (MAX_MEMORY_BYTES <=? addr) with false by lia.
  unfold register_region, set_addr_free, mbind, M_bind, modify.
  rewrite (wrap_small 64 (addr + (MAX_MEMORY_BYTES - addr)))
    by (rewrite Zplus_minus; by unfold is_word).
  fold (region_frames addr (MAX_MEMORY_BYTES - addr)). rewrite region_past_split by done.
  match goal with |- context [for_each _ _ ?st] => set (s0 := st) end.
  destruct (mark_frames set_frame_free true
    (seqZ (addr / FRAME_SIZE) (MAX_NUM_FRAMES - addr / FRAME_SIZE)) s0) as (s1 & Hrun & Hchg).
  { apply set_frame_free_spec. }
  { done. }
  { by apply wrap_range. }
  { apply Forall_forall. intros g Hg%elem_of_seqZ. unfold frame_ok, FRAME_SIZE in *. lia. }
  rewrite (for_each_app _ _ _ _ s1 Hrun). cbn [for_each]. unfold mbind, M_bind.
  rewrite set_frame_free_past; [done|]. by eapply changed_complete.
Qed.

Lemma region_reaching_limit_faults_witness :
  add_free_memory 0x7FF00000 0x100000 boot_pmm = Fault.
Proof. apply region_reaching_limit_faults; by vm_compute. Defined.
