(* ===== verification/Vmm.v ===== *)
(** * Virtual memory manager

    [src/kernel/arch/x64/memory/vmm.{hpp,cpp}]: the 4-level page tables, reached through the higher
    half direct map (HHDM), the kernel heap cursor and the user address spaces, under
    [g_vmm_lock].  This file holds the definitions; [VmmTree.v] and [VmmProofs.v] the proofs.

    Physical memory is a function from byte address to the 64-bit word stored there; the code
    accesses it in aligned words.  A pointer is its 64-bit virtual address.  The TLB is not
    modelled ([invlpg] has no effect), neither is log output. *)

From stdpp Require Import functions.
From S2P Require Import Prelude Cpu Spinlock Pmm.

Definition NUM_PT_ENTRIES : Z := 512.
Definition PAGE_SIZE : Z := 4096.
Definition PAGE_MASK : Z := 0xFFF.

Definition PAGE_WRITE : Z := 0x02.
Definition PAGE_USER : Z := 0x04.
Definition PAGE_CACHE_DISABLE : Z := 0x08.
Definition PAGE_GLOBAL : Z := 0x10.
Definition PAGE_NX : Z := 0x20.

(** Bit fields shared by [PML4E], [PDPTE], [PDE] and [PTE]; [ps] is the [pat] bit of a [PTE]. *)
Module Entry.
Definition p : Z → Z := get_field 0 1.
Definition rw : Z → Z := get_field 1 1.
Definition us : Z → Z := get_field 2 1.
Definition addr : Z → Z := get_field 12 40.

Definition set_p : Z → Z → Z := set_field 0 1.
Definition set_rw : Z → Z → Z := set_field 1 1.
Definition set_us : Z → Z → Z := set_field 2 1.
Definition set_pwt : Z → Z → Z := set_field 3 1.
Definition set_pcd : Z → Z → Z := set_field 4 1.
Definition set_a : Z → Z → Z := set_field 5 1.
Definition set_d : Z → Z → Z := set_field 6 1.
Definition set_ps : Z → Z → Z := set_field 7 1.
Definition set_g : Z → Z → Z := set_field 8 1.
Definition set_addr : Z → Z → Z := set_field 12 40.
Definition set_nx : Z → Z → Z := set_field 63 1.

Definition present (w : Z) : bool := negb (p w =? 0).
(** [e.addr << 12]. *)
Definition frame_of (w : Z) : Z := Z.shiftl (addr w) 12.
End Entry.

Record Heap := mk_Heap {
  pml4_idx : Z;
  pdpt_idx : Z;
  pd_idx : Z;
  pt_idx : Z;
}.

(** The statics of the file, the physical memory, and the PMM (with the CPU) below them. *)
Record vmm := mk_vmm {
  vm_pmm : pmm;
  g_vmm_lock : kspinlock_irqsave;
  phys : Z → Z;
  kernel_pml4 : Z;
  hhdm_offset : Z;
  kheap : Heap;
}.

Definition vm_cpu (s : vmm) : cpu := pmm_cpu (vm_pmm s).
Definition with_pmm (m : pmm) (s : vmm) : vmm :=
  mk_vmm m (g_vmm_lock s) (phys s) (kernel_pml4 s) (hhdm_offset s) (kheap s).
Definition with_phys (m : Z → Z) (s : vmm) : vmm :=
  mk_vmm (vm_pmm s) (g_vmm_lock s) m (kernel_pml4 s) (hhdm_offset s) (kheap s).
Definition with_kheap (h : Heap) (s : vmm) : vmm :=
  mk_vmm (vm_pmm s) (g_vmm_lock s) (phys s) (kernel_pml4 s) (hhdm_offset s) h.
Definition with_kernel_pml4 (v : Z) (s : vmm) : vmm :=
  mk_vmm (vm_pmm s) (g_vmm_lock s) (phys s) v (hhdm_offset s) (kheap s).
Definition with_hhdm_offset (v : Z) (s : vmm) : vmm :=
  mk_vmm (vm_pmm s) (g_vmm_lock s) (phys s) (kernel_pml4 s) v (kheap s).
Definition with_pmm_cpu (c : cpu) (m : pmm) : pmm := with_pmm_lock (c, g_pmm_spinlock m) m.
Definition with_vm_cpu (c : cpu) (s : vmm) : vmm := with_pmm (with_pmm_cpu c (vm_pmm s)) s.
Definition with_vm_lock (x : cpu * kspinlock_irqsave) (s : vmm) : vmm :=
  mk_vmm (with_pmm_cpu x.1 (vm_pmm s)) x.2 (phys s) (kernel_pml4 s) (hhdm_offset s) (kheap s).

Definition vm_lock : M vmm unit := zoom (λ s, (vm_cpu s, g_vmm_lock s)) with_vm_lock lock.
Definition vm_unlock : M vmm unit := zoom (λ s, (vm_cpu s, g_vmm_lock s)) with_vm_lock unlock.

(** Calls into [pmm]. *)
Definition in_pmm {A} (m : M pmm A) : M vmm A := zoom vm_pmm with_pmm m.

Definition hhdm_ptov (s : vmm) (phys_addr : Z) : Z := wrap64 (phys_addr + hhdm_offset s).
Definition hhdm_vtop (s : vmm) (virt : Z) : Z := wrap64 (virt - hhdm_offset s).
Definition get_kernel_pml4_index (s : vmm) : Z := Z.land (Z.shiftr (hhdm_offset s) 39) 0x1FF.

(** [table[i]]: the address of a table entry, and loads and stores through the HHDM. *)
Definition at_index (table i : Z) : Z := wrap64 (table + 8 * i).
Definition load (v : Z) : M vmm Z := gets (λ s, phys s (hhdm_vtop s v)).
Definition store (v w : Z) : M vmm unit :=
  modify (λ s, with_phys (<[hhdm_vtop s v := w]> (phys s)) s).

(** [get_pdpt], [get_pd], [get_pt]: the table an entry points to. *)
Definition get_table (e : Z) : M vmm Z :=
  w ← load e;
  gets (λ s, hhdm_ptov s (Entry.frame_of w)).
Definition get_pte_phys_frame (w : Z) : Z := Entry.frame_of w.

Definition is_page_aligned (addr : Z) : bool := Z.land addr PAGE_MASK =? 0.
Definition page_align (addr : Z) : Z := Z.land addr (wrap64 (Z.lnot PAGE_MASK)).

(** The four indices of a virtual address. *)
Definition idx4 (virt : Z) : Z := Z.land (Z.shiftr virt 39) 0x1FF.
Definition idx3 (virt : Z) : Z := Z.land (Z.shiftr virt 30) 0x1FF.
Definition idx2 (virt : Z) : Z := Z.land (Z.shiftr virt 21) 0x1FF.
Definition idx1 (virt : Z) : Z := Z.land (Z.shiftr virt 12) 0x1FF.

(** The address with the given indices, sign-extended from bit 47. *)
Definition compose_virt (h : Heap) : Z :=
  let virt_page := 0 in
  let virt_page := Z.lor virt_page (wrap64 (Z.shiftl (Z.land (pml4_idx h) 0x1FF) 39)) in
  let virt_page := Z.lor virt_page (wrap64 (Z.shiftl (Z.land (pdpt_idx h) 0x1FF) 30)) in
  let virt_page := Z.lor virt_page (wrap64 (Z.shiftl (Z.land (pd_idx h) 0x1FF) 21)) in
  let virt_page := Z.lor virt_page (wrap64 (Z.shiftl (Z.land (pt_idx h) 0x1FF) 12)) in
  let bit_47 := Z.land virt_page (Z.shiftl 1 47) in
  if bit_47 =? 0 then virt_page else Z.lor virt_page (Z.shiftl 0xFFFF 48).

Definition get_next_heap_virt_page (h : Heap) : M vmm Z :=
  let virt_page := compose_virt h in
  _ ← kassert (is_page_aligned virt_page);
  mret virt_page.

Definition advance_heap (h : Heap) : Heap :=
  let pt := wrap64 (pt_idx h + 1) in
  if pt <? NUM_PT_ENTRIES then mk_Heap (pml4_idx h) (pdpt_idx h) (pd_idx h) pt
  else
    let pd := wrap64 (pd_idx h + 1) in
    if pd <? NUM_PT_ENTRIES then mk_Heap (pml4_idx h) (pdpt_idx h) pd 0
    else
      let pdpt := wrap64 (pdpt_idx h + 1) in
      if pdpt <? NUM_PT_ENTRIES then mk_Heap (pml4_idx h) pdpt 0 0
      else mk_Heap (wrap64 (pml4_idx h + 1)) 0 0 0.

(** [find_pte]: the address of the entry that maps [virt], 0 for [nullptr]. *)
Definition find_pte (pml4 virt : Z) : M vmm Z :=
  e4 ← load (at_index pml4 (idx4 virt));
  if negb (Entry.present e4) then mret 0 else
  pdpt ← get_table (at_index pml4 (idx4 virt));
  e3 ← load (at_index pdpt (idx3 virt));
  if negb (Entry.present e3) then mret 0 else
  pd ← get_table (at_index pdpt (idx3 virt));
  e2 ← load (at_index pd (idx2 virt));
  if negb (Entry.present e2) then mret 0 else
  pt ← get_table (at_index pd (idx2 virt));
  e1 ← load (at_index pt (idx1 virt));
  if negb (Entry.present e1) then mret 0 else
  mret (at_index pt (idx1 virt)).

(** [(flags & bit) ? 1 : 0]. *)
Definition flag (flags bit : Z) : Z := if Z.land flags bit =? 0 then 0 else 1.

(** The stores of the four [populate] functions, as updates of the entry word. *)
Definition pml4e_bits (phys_frame flags w : Z) : Z :=
  Entry.set_addr (Z.shiftr phys_frame 12) (Entry.set_a 0 (Entry.set_pcd 0 (Entry.set_pwt 0
    (Entry.set_us (flag flags PAGE_USER) (Entry.set_rw 1 (Entry.set_p 1 w)))))).
Definition pdpte_bits (phys_frame flags w : Z) : Z :=
  Entry.set_addr (Z.shiftr phys_frame 12) (Entry.set_ps 0 (Entry.set_a 0 (Entry.set_pcd 0
    (Entry.set_pwt 0 (Entry.set_us (flag flags PAGE_USER) (Entry.set_rw 1 (Entry.set_p 1 w))))))).
Definition pde_bits (phys_frame flags w : Z) : Z :=
  Entry.set_addr (Z.shiftr phys_frame 12) (Entry.set_ps 0 (Entry.set_a 0 (Entry.set_pcd 0
    (Entry.set_pwt 0 (Entry.set_us (flag flags PAGE_USER) (Entry.set_rw 1 (Entry.set_p 1 w))))))).
Definition pte_bits (phys_frame flags w : Z) : Z :=
  Entry.set_nx (flag flags PAGE_NX) (Entry.set_addr (Z.shiftr phys_frame 12)
    (Entry.set_g (flag flags PAGE_GLOBAL) (Entry.set_ps 0 (Entry.set_d 0 (Entry.set_a 0
      (Entry.set_pcd (flag flags PAGE_CACHE_DISABLE) (Entry.set_pwt 0
        (Entry.set_us (flag flags PAGE_USER) (Entry.set_rw (flag flags PAGE_WRITE)
          (Entry.set_p 1 w)))))))))).

Definition populate (bits : Z → Z → Z → Z) (e phys_frame flags : Z) : M vmm unit :=
  _ ← kassert (is_page_aligned phys_frame);
  w ← load e;
  store e (bits phys_frame flags w).
Definition populate_pml4e := populate pml4e_bits.
Definition populate_pdpte := populate pdpte_bits.
Definition populate_pde := populate pde_bits.
Definition populate_pte := populate pte_bits.

(** [free_pml4e], [free_pdpte], [free_pde], [free_pte]: the same two statements at each level. *)
Definition free_entry (e : Z) : M vmm unit :=
  w ← load e;
  _ ← in_pmm (free_frame (Entry.frame_of w));
  store e (Entry.set_p 0 w).

Definition zero_page (virt : Z) : M vmm unit :=
  _ ← kassert_not_null virt;
  for_each (seqZ 0 NUM_PT_ENTRIES) (λ i, store (at_index virt i) 0).

Definition ensure_present (bits : Z → Z → Z → Z) (e flags : Z) : M vmm Z :=
  w ← load e;
  _ ← (if negb (Entry.present w) then
         phys_frame ← in_pmm alloc_frame;
         _ ← populate bits e phys_frame flags;
         page ← gets (λ s, hhdm_ptov s phys_frame);
         zero_page page
       else mret ());
  get_table e.
Definition ensure_pdpte_present := ensure_present pml4e_bits.
Definition ensure_pde_present := ensure_present pdpte_bits.
Definition ensure_pte_present := ensure_present pde_bits.

(** The walk shared by all mapping functions: the page table for the given indices. *)
Definition ensure_tables (pml4 i4 i3 i2 flags : Z) : M vmm Z :=
  pdpt ← ensure_pdpte_present (at_index pml4 i4) flags;
  pd ← ensure_pde_present (at_index pdpt i3) flags;
  ensure_pte_present (at_index pd i2) flags.

(** The [Heap*] argument is passed by value and the advanced cursor returned. *)
Definition map_heap_page (pml4 : Z) (heap : Heap) (phys_addr flags : Z) : M vmm (Heap * Z) :=
  _ ← kassert_not_null pml4;
  let phys_frame := page_align phys_addr in
  let phys_offset := Z.land phys_addr PAGE_MASK in
  virt_page ← get_next_heap_virt_page heap;
  pt ← ensure_tables pml4 (pml4_idx heap) (pdpt_idx heap) (pd_idx heap) flags;
  _ ← populate_pte (at_index pt (pt_idx heap)) phys_frame flags;
  mret (advance_heap heap, wrap64 (virt_page + phys_offset)).

Definition map_phys (phys_addr flags : Z) : M vmm Z :=
  pml4 ← gets kernel_pml4;
  heap ← gets kheap;
  r ← map_heap_page pml4 heap phys_addr (Z.lor (Z.lor flags PAGE_WRITE) PAGE_GLOBAL);
  _ ← modify (with_kheap r.1);
  mret r.2.

Definition map_page_to_frame (pml4 virt_page phys_frame flags : Z) : M vmm unit :=
  _ ← kassert_not_null pml4;
  _ ← kassert (is_page_aligned virt_page);
  _ ← kassert (is_page_aligned phys_frame);
  pt ← ensure_tables pml4 (idx4 virt_page) (idx3 virt_page) (idx2 virt_page) flags;
  populate_pte (at_index pt (idx1 virt_page)) phys_frame flags.

Definition map_pages (pml4 virt_addr bytes flags : Z) : M vmm unit :=
  _ ← kassert_not_null pml4;
  _ ← kassert (0 <? bytes);
  _ ← vm_lock;
  let page_start := Z.land virt_addr (wrap64 (Z.lnot (PAGE_SIZE - 1))) in
  let page_end := Z.land (wrap64 (virt_addr + bytes + PAGE_SIZE - 1))
                    (wrap64 (Z.lnot (PAGE_SIZE - 1))) in
  let num_pages := wrap64 (page_end - page_start) / PAGE_SIZE in
  _ ← kassert (is_page_aligned page_start);
  _ ← kassert (is_page_aligned page_end);
  _ ← kassert (page_start <? page_end);
  _ ← kassert (0 <? num_pages);
  _ ← for_each (seqZ 0 num_pages) (λ page,
        phys_frame ← in_pmm alloc_frame;
        map_page_to_frame pml4 (wrap64 (page_start + page * PAGE_SIZE)) phys_frame flags);
  vm_unlock.

Definition map_user_pages (pml4 virt bytes : Z) : M vmm unit :=
  map_pages pml4 virt bytes (Z.lor PAGE_USER PAGE_WRITE).

Definition unmap_page (pml4 virt_page : Z) : M vmm unit :=
  _ ← kassert_not_null pml4;
  _ ← kassert (is_page_aligned virt_page);
  pte ← find_pte pml4 virt_page;
  if pte =? 0 then mret () else
  w ← load pte;
  _ ← in_pmm (free_frame (get_pte_phys_frame w));
  store pte 0.

Definition alloc_kernel_page : M vmm Z :=
  _ ← vm_lock;
  phys_frame ← in_pmm alloc_frame;
  virt_page ← map_phys phys_frame 0;
  _ ← vm_unlock;
  mret virt_page.

Definition free_kernel_page (virt_addr : Z) : M vmm unit :=
  if virt_addr =? 0 then mret () else
  _ ← vm_lock;
  pml4 ← gets kernel_pml4;
  _ ← unmap_page pml4 (page_align virt_addr);
  vm_unlock.

(** ** Access through the active page tables

    The MMU walks the tables [CR3] points to.  A supervisor access to a page that is user-accessible
    at all four levels is refused while SMAP is on ([CR4] bit 21) and RFLAGS.AC is clear. *)
Definition CR4_SMAP_BIT : Z := 21.

Definition hw_next (s : vmm) (table i : Z) : option (Z * bool) :=
  let w := phys s (table + 8 * i) in
  if Entry.present w then Some (Entry.frame_of w, negb (Entry.us w =? 0)) else None.

Definition hw_translate (s : vmm) (virt : Z) : option (Z * bool) :=
  '(t3, u4) ← hw_next s (page_align (cr3 (vm_cpu s))) (idx4 virt);
  '(t2, u3) ← hw_next s t3 (idx3 virt);
  '(t1, u2) ← hw_next s t2 (idx2 virt);
  '(frame, u1) ← hw_next s t1 (idx1 virt);
  Some (frame + Z.land virt PAGE_MASK, u4 && u3 && u2 && u1).

Definition hw_access (virt : Z) : M vmm Z := λ s,
  match hw_translate s virt with
  | Some (a, user) =>
      if user && Z.testbit (cr4 (vm_cpu s)) CR4_SMAP_BIT &&
         negb (Z.testbit (rflags (vm_cpu s)) RFLAGS_AC)
      then Fault else Ok (s, a)
  | None => Fault
  end.
Definition hw_load (virt : Z) : M vmm Z := a ← hw_access virt; gets (λ s, phys s a).
Definition hw_store (virt w : Z) : M vmm unit :=
  a ← hw_access virt; modify (λ s, with_phys (<[a := w]> (phys s)) s).

(** The loop of [map_heap_pages]: the advanced cursor and the first virtual page (0 if none). *)
Fixpoint heap_loop (n : nat) (pml4 : Z) (heap : Heap) (flags first_page : Z) : M vmm (Heap * Z) :=
  match n with
  | O => mret (heap, first_page)
  | S n' =>
      phys_frame ← in_pmm alloc_frame;
      r ← map_heap_page pml4 heap phys_frame flags;
      heap_loop n' pml4 r.1 flags (if first_page =? 0 then r.2 else first_page)
  end.

Definition map_heap_pages (pml4 : Z) (heap : Heap) (bytes flags : Z) : M vmm (Heap * Z) :=
  _ ← kassert_not_null pml4;
  _ ← vm_lock;
  _ ← modify (λ s, with_vm_cpu (stac (vm_cpu s)) s);
  let total := wrap64 (bytes + 8) in
  let num_pages := wrap64 (total + PAGE_SIZE - 1) / PAGE_SIZE in
  r ← heap_loop (Z.to_nat num_pages) pml4 heap flags 0;
  _ ← kassert_not_null r.2;
  _ ← hw_store r.2 num_pages;
  _ ← modify (λ s, with_vm_cpu (clac (vm_cpu s)) s);
  _ ← vm_unlock;
  mret (r.1, wrap64 (r.2 + 8)).

Definition alloc_kernel (bytes : Z) : M vmm Z :=
  pml4 ← gets kernel_pml4;
  heap ← gets kheap;
  r ← map_heap_pages pml4 heap bytes (Z.lor PAGE_WRITE PAGE_GLOBAL);
  _ ← modify (with_kheap r.1);
  mret r.2.

Definition unmap_pages (pml4 virt_page num_pages : Z) : M vmm unit :=
  for_each (seqZ 0 num_pages) (λ page, unmap_page pml4 (wrap64 (virt_page + page * PAGE_SIZE))).

Definition free_kernel (virt_addr : Z) : M vmm unit :=
  if virt_addr =? 0 then mret () else
  let virt_page := page_align virt_addr in
  num_pages ← hw_load virt_page;
  if num_pages =? 0 then mret () else
  _ ← vm_lock;
  pml4 ← gets kernel_pml4;
  _ ← unmap_pages pml4 virt_page num_pages;
  vm_unlock.

Definition unmap_mem_at (pml4 virt_page num_pages : Z) : M vmm unit :=
  _ ← kassert_not_null pml4;
  _ ← vm_lock;
  _ ← unmap_pages pml4 virt_page num_pages;
  vm_unlock.

(** ** Initialisation and address spaces *)

(** [mov %cr3, %0] gives the physical address of Limine's PML4. *)
Definition init_pml4 : M vmm unit :=
  modify (λ s, with_kernel_pml4 (hhdm_ptov s (page_align (cr3 (vm_cpu s)))) s).

(** The address [init_kheap] composes at its end is not used. *)
Definition init_kheap : M vmm unit :=
  kernel_pml4_idx ← gets get_kernel_pml4_index;
  let h := mk_Heap (wrap64 (kernel_pml4_idx + 1)) 0 0 0 in
  _ ← modify (with_kheap h);
  pml4 ← gets kernel_pml4;
  pt ← ensure_tables pml4 (pml4_idx h) (pdpt_idx h) (pd_idx h) 0;
  kassert_not_null pt.

Definition switch_pml4 (pml4 : Z) : M vmm unit :=
  _ ← kassert_not_null pml4;
  modify (λ s, with_vm_cpu (with_cr3 (hhdm_vtop s pml4) (vm_cpu s)) s).

Definition get_kernel_pml4 : M vmm Z := gets kernel_pml4.

Definition switch_kernel_pml4 : M vmm unit :=
  pml4 ← gets kernel_pml4;
  switch_pml4 pml4.

Definition CR4_PGE : Z := Z.shiftl 1 7.
Definition CR4_UMIP : Z := Z.shiftl 1 11.
Definition CR4_SMEP : Z := Z.shiftl 1 20.
Definition CR4_SMAP : Z := Z.shiftl 1 21.

Definition init_cr4 : M vmm unit :=
  v ← gets (λ s, read_cr4 (vm_cpu s));
  let v := Z.lor v (Z.lor (Z.lor (Z.lor CR4_PGE CR4_UMIP) CR4_SMEP) CR4_SMAP) in
  _ ← modify (λ s, with_vm_cpu (write_cr4 v (vm_cpu s)) s);
  switch_kernel_pml4.

Definition vmm_init (offset : Z) : M vmm unit :=
  _ ← modify (with_hhdm_offset offset);
  _ ← init_pml4;
  _ ← init_kheap;
  init_cr4.

(** [dst[i] = src[i]] for the kernel half of a PML4. *)
Definition copy_entries (dst src first : Z) : M vmm unit :=
  for_each (seqZ first (NUM_PT_ENTRIES - first)) (λ i,
    w ← load (at_index src i);
    store (at_index dst i) w).

Definition create_user_pml4 : M vmm Z :=
  phys_frame ← in_pmm alloc_frame;
  new_pml4 ← gets (λ s, hhdm_ptov s phys_frame);
  _ ← kassert_not_null new_pml4;
  _ ← zero_page new_pml4;
  kernel_start ← gets get_kernel_pml4_index;
  src ← gets kernel_pml4;
  _ ← copy_entries new_pml4 src kernel_start;
  mret new_pml4.

(** A loop over the present entries of a table: [if (!table[i].p) continue;]. *)
Definition for_present (table first n : Z) (body : Z → M vmm unit) : M vmm unit :=
  for_each (seqZ first n) (λ i,
    w ← load (at_index table i);
    if Entry.present w then body i else mret ()).

(** The nested loops of [free_user_pml4], innermost first. *)
Definition free_pt (pt : Z) : M vmm unit :=
  for_present pt 0 NUM_PT_ENTRIES (λ i, free_entry (at_index pt i)).
Definition free_pd (pd : Z) : M vmm unit :=
  for_present pd 0 NUM_PT_ENTRIES (λ i,
    pt ← get_table (at_index pd i);
    _ ← free_pt pt;
    free_entry (at_index pd i)).
Definition free_pdpt (pdpt : Z) : M vmm unit :=
  for_present pdpt 0 NUM_PT_ENTRIES (λ i,
    pd ← get_table (at_index pdpt i);
    _ ← free_pd pd;
    free_entry (at_index pdpt i)).

Definition free_user_pml4 (pml4 : Z) : M vmm unit :=
  kpml4 ← gets kernel_pml4;
  if pml4 =? kpml4 then mret () else
  _ ← vm_lock;
  kernel_start ← gets get_kernel_pml4_index;
  _ ← for_present pml4 0 kernel_start (λ i,
        pdpt ← get_table (at_index pml4 i);
        _ ← free_pdpt pdpt;
        free_entry (at_index pml4 i));
  _ ← zero_page pml4;
  root ← gets (λ s, hhdm_vtop s pml4);
  _ ← in_pmm (free_frame root);
  vm_unlock.

(** [memcpy(to, from, PAGE_SIZE)] between two pages, a word at a time. *)
Definition copy_page (to from : Z) : M vmm unit :=
  for_each (seqZ 0 (PAGE_SIZE / 8)) (λ i,
    w ← load (at_index from i);
    store (at_index to i) w).

(** The nested loops of [clone_user_pml4], innermost first. *)
Definition clone_page (new_pt pt i : Z) : M vmm unit :=
  phys_frame ← in_pmm alloc_frame;
  w ← load (at_index pt i);
  _ ← store (at_index new_pt i) w;
  _ ← store (at_index new_pt i) (Entry.set_addr (Z.shiftr phys_frame 12) w);
  from ← get_table (at_index pt i);
  to ← get_table (at_index new_pt i);
  copy_page to from.
Definition clone_pt (new_pt pt : Z) : M vmm unit :=
  for_present pt 0 NUM_PT_ENTRIES (clone_page new_pt pt).
Definition clone_pd (new_pd pd : Z) : M vmm unit :=
  for_present pd 0 NUM_PT_ENTRIES (λ i,
    new_pt ← ensure_pte_present (at_index new_pd i) PAGE_USER;
    pt ← get_table (at_index pd i);
    clone_pt new_pt pt).
Definition clone_pdpt (new_pdpt pdpt : Z) : M vmm unit :=
  for_present pdpt 0 NUM_PT_ENTRIES (λ i,
    new_pd ← ensure_pde_present (at_index new_pdpt i) PAGE_USER;
    pd ← get_table (at_index pdpt i);
    clone_pd new_pd pd).

Definition clone_user_pml4 (pml4 : Z) : M vmm Z :=
  _ ← vm_lock;
  phys_frame ← in_pmm alloc_frame;
  new_pml4 ← gets (λ s, hhdm_ptov s phys_frame);
  _ ← kassert_not_null new_pml4;
  _ ← zero_page new_pml4;
  kernel_start ← gets get_kernel_pml4_index;
  _ ← copy_entries new_pml4 pml4 kernel_start;
  _ ← for_present pml4 0 kernel_start (λ i,
        new_pdpt ← ensure_pdpte_present (at_index new_pml4 i) PAGE_USER;
        pdpt ← get_table (at_index pml4 i);
        clone_pdpt new_pdpt pdpt);
  _ ← vm_unlock;
  mret new_pml4.

Definition user_heap_at (h : Heap) (pml4 : Z) : M vmm Heap :=
  pt ← ensure_tables pml4 (pml4_idx h) (pdpt_idx h) (pd_idx h) PAGE_USER;
  _ ← kassert_not_null pt;
  mret h.
Definition create_user_heap (pml4 : Z) : M vmm Heap := user_heap_at (mk_Heap 1 0 0 0) pml4.
Definition clone_user_heap (existing : Heap) (pml4 : Z) : M vmm Heap := user_heap_at existing pml4.

Definition user_max_addr : Z := 0x0000800000000000.
Definition is_user_addr (addr : Z) : bool := addr <? user_max_addr.
Definition is_user_range (addr size : Z) : bool :=
  (addr <? user_max_addr) && (size <=? user_max_addr - addr).
