(* ===== verification/VmmTree.v ===== *)
(** * Page-table trees in physical memory

    The memory-level theory behind the VMM proofs: walking a table by a list of indices, what a
    write to one entry does to all walks, and the invariant ([forest]) that the tables reachable
    from a set of roots are pairwise distinct pages. *)

From stdpp Require Import functions.
From S2P Require Import Prelude Cpu Spinlock Pmm Vmm.

(** The table or page an entry points to, if it is present. *)
Definition target (w : Z) : option Z :=
  if Entry.present w then Some (Entry.frame_of w) else None.

Definition next (m : Z → Z) (t i : Z) : option Z := target (m (t + 8 * i)).

Fixpoint walk (m : Z → Z) (t : Z) (path : list Z) : option Z :=
  match path with
  | [] => Some t
  | i :: rest => t' ← next m t i; walk m t' rest
  end.

(** The word at index [i] of the page at the end of [path]. *)
Definition word (m : Z → Z) (r : Z) (path : list Z) (i : Z) : option Z :=
  t ← walk m r path; Some (m (t + 8 * i)).

Definition idx_ok (i : Z) : Prop := 0 ≤ i < 512.
Definition page_ok (t : Z) : Prop := 0 ≤ t < 2 ^ 52 ∧ t mod 4096 = 0.

Lemma walk_snoc m r l i : walk m r (l ++ [i]) = t ← walk m r l; next m t i.
Proof.
  revert r. induction l as [|j l IH]; intros r; cbn.
  - by destruct (next m r i).
  - destruct (next m r j); cbn; [apply IH | done].
Qed.

Lemma walk_app m r l k : walk m r (l ++ k) = t ← walk m r l; walk m t k.
Proof.
  revert r. induction l as [|j l IH]; intros r; cbn; [done|].
  destruct (next m r j); cbn; [apply IH | done].
Qed.

Lemma walk_word m r l i : walk m r (l ++ [i]) = w ← word m r l i; target w.
Proof. rewrite walk_snoc. unfold word. by destruct (walk m r l). Qed.

Lemma frame_of_page w : page_ok (Entry.frame_of w).
Proof.
  unfold page_ok, Entry.frame_of, Entry.addr. rewrite Z.shiftl_mul_pow2 by done.
  pose proof (get_field_range 12 40 w ltac:(done)) as [? ?]. change (2 ^ 12) with 4096.
  change (2 ^ 40) with 1099511627776 in *. change (2 ^ 52) with 4503599627370496.
  split; [lia|]. by apply Z.mod_mul.
Qed.

Lemma next_page m t i t' : next m t i = Some t' → page_ok t'.
Proof.
  unfold next, target. destruct (Entry.present _); [|done]. intros [= <-]. apply frame_of_page.
Qed.

Lemma walk_page m r l t : page_ok r → walk m r l = Some t → page_ok t.
Proof.
  revert r. induction l as [|i l IH]; intros r Hr; cbn; [by intros [= <-]|].
  destruct (next m r i) as [t'|] eqn:Hn; [|done]. cbn. apply IH. by eapply next_page.
Qed.

(** Distinct pages have distinct words. *)
Lemma word_addr_inj t i t' i' : page_ok t → page_ok t' → idx_ok i → idx_ok i' →
  t + 8 * i = t' + 8 * i' → t = t' ∧ i = i'.
Proof. unfold page_ok, idx_ok. lia. Qed.

Lemma target_0 : target 0 = None.
Proof. done. Qed.

(** A set of paths of at most four indices, closed under prefixes, for each root. *)
Definition domain := Z → list Z → Prop.
Class Closed (D : domain) : Prop := {
  closed_prefix r l i : D r (l ++ [i]) → D r l;
  closed_idx r l i : D r (l ++ [i]) → idx_ok i;
  closed_len r l : D r l → (length l ≤ 4)%nat;
}.

Lemma closed_app D `{!Closed D} r l k : D r (l ++ k) → D r l.
Proof.
  induction k as [|i k IH] using rev_ind; [by rewrite app_nil_r|].
  rewrite app_assoc. intros H. by eapply IH, closed_prefix.
Qed.

(** Walks only depend on the entries along the way. *)
Lemma walk_agree D `{!Closed D} m m' :
  (∀ r l i t, D r (l ++ [i]) → walk m r l = Some t → m' (t + 8 * i) = m (t + 8 * i)) →
  ∀ r l, D r l → walk m' r l = walk m r l.
Proof.
  intros Hag r l. induction l as [|i l IH] using rev_ind; intros HD; [done|].
  rewrite !walk_snoc, IH by (by eapply closed_prefix).
  destruct (walk m r l) as [t|] eqn:Hw; [|done]. cbn. unfold next. by rewrite (Hag r l i).
Qed.

(** The pages reachable along [D] are pages, and no page is reached along two paths. *)
Record forest (D : domain) (m : Z → Z) : Prop := {
  f_page r l t : D r l → walk m r l = Some t → page_ok t;
  f_inj r l r' l' t : D r l → D r' l' → walk m r l = Some t → walk m r' l' = Some t →
    r = r' ∧ l = l';
}.

(** The paths of [D] that do not pass through entry [i] of the table at [(r, l)]. *)
Definition avoiding (D : domain) (r : Z) (l : list Z) (i : Z) : domain := λ r' l',
  D r' l' ∧ ¬ (r' = r ∧ (l ++ [i]) `prefix_of` l').

#[export] Instance avoiding_closed D r l i : Closed D → Closed (avoiding D r l i).
Proof.
  intros HD. split.
  - intros r' l' i' [H Hn]. split; [by eapply closed_prefix|].
    intros [-> Hp]. apply Hn. split; [done|]. by apply prefix_app_r.
  - intros r' l' i' [H _]. by eapply closed_idx.
  - intros r' l' [H _]. by eapply closed_len.
Qed.

Lemma avoiding_dec D r l i r' l' : D r' l' →
  avoiding D r l i r' l' ∨ ∃ rest, r' = r ∧ l' = l ++ i :: rest.
Proof.
  intros HD. destruct (decide (r' = r ∧ (l ++ [i]) `prefix_of` l')) as [[-> [k ->]]|Hn].
  - right. exists k. by rewrite <- app_assoc.
  - by left.
Qed.

(** Changing one entry only affects the walks through it. *)
Lemma walk_write D `{!Closed D} m m' r l t i :
  forest D m → D r l → walk m r l = Some t → idx_ok i →
  (∀ r' l' t' i', D r' l' → walk m r' l' = Some t' → idx_ok i' → t' + 8 * i' ≠ t + 8 * i →
     m' (t' + 8 * i') = m (t' + 8 * i')) →
  ∀ r' l', avoiding D r l i r' l' → walk m' r' l' = walk m r' l'.
Proof.
  intros [Hpage Hinj] HD Hw Hi Hm. apply walk_agree; [apply _|].
  intros r' l' i' t' [HD' Hn] Hw'.
  assert (D r' l') by (by eapply closed_prefix).
  apply (Hm r' l' t' i'); [done|done|by eapply closed_idx|].
  intros Heq. apply word_addr_inj in Heq as [-> ->]; [| by eauto | by eauto | by eapply closed_idx | done].
  destruct (Hinj r' l' r l t) as [-> ->]; [done..|]. by destruct Hn.
Qed.

(** Pointing entry [i] of [(r, l)] at a page [f] that is in no tree yet. *)
Section attach.
Context (D : domain) `{!Closed D} (m m' : Z → Z) (r : Z) (l : list Z) (t i f : Z).
Hypothesis Hf : forest D m.
Hypothesis HD : D r l.
Hypothesis Hw : walk m r l = Some t.
Hypothesis Hi : idx_ok i.
Hypothesis Hpage : page_ok f.
Hypothesis Hfresh : ∀ r' l', D r' l' → walk m r' l' ≠ Some f.
Hypothesis Hnew : next m' t i = Some f.
(** Other words of the trees are unchanged. *)
Hypothesis Hm : ∀ r' l' t' i', D r' l' → walk m r' l' = Some t' → idx_ok i' →
  t' + 8 * i' ≠ t + 8 * i → m' (t' + 8 * i') = m (t' + 8 * i').
(** Nothing hangs below the entry, before or after. *)
Hypothesis Hbelow : ∀ j, D r (l ++ [i; j]) → next m' f j = None.
Hypothesis Hbefore : ∀ j, D r (l ++ [i; j]) → next m t i = None.

Lemma attach_below j k : D r (l ++ i :: j :: k) →
  walk m' r (l ++ i :: j :: k) = None ∧ walk m r (l ++ i :: j :: k) = None.
Proof.
  intros HDk.
  assert (D r (l ++ [i; j])) as HDj.
  { apply (closed_app D r _ k). by rewrite <- app_assoc. }
  assert (walk m' r l = Some t) as Hw'.
  { rewrite (walk_write D m m' r l t i); [done..|]. split; [done|].
    intros [_ Hp]. apply prefix_length in Hp. rewrite length_app in Hp. cbn in Hp. lia. }
  rewrite !walk_app, Hw, Hw'. cbn. rewrite Hnew, (Hbefore j HDj). cbn.
  by rewrite (Hbelow j HDj).
Qed.

Lemma attach_walk r' l' : D r' l' →
  walk m' r' l' = if decide (r' = r ∧ l' = l ++ [i]) then Some f else walk m r' l'.
Proof.
  intros HD'. destruct (avoiding_dec D r l i r' l' HD') as [Hav|([|j k] & -> & ->)].
  - rewrite (walk_write D m m' r l t i) by done. case_decide as Hc; [|done].
    destruct Hc as [-> ->]. destruct Hav as [_ Hn]. by destruct Hn.
  - rewrite decide_True by done. rewrite walk_app.
    rewrite (walk_write D m m' r l t i); [|done..|].
    + rewrite Hw. cbn. by rewrite Hnew.
    + split; [done|]. intros [_ Hp]. apply prefix_length in Hp.
      rewrite length_app in Hp. cbn in Hp. lia.
  - rewrite decide_False; [by destruct (attach_below j k HD') as [-> ->]|].
    intros [_ Heq]. apply app_inv_head in Heq. done.
Qed.

Lemma attach_forest : forest D m'.
Proof.
  destruct Hf as [Hp Hinj]. split.
  - intros r' l' t' HD'. rewrite attach_walk by done. case_decide; [by intros [= <-]|]. by apply Hp.
  - intros r1 l1 r2 l2 t' H1 H2. rewrite !attach_walk by done.
    repeat case_decide; intros; destruct_and?; subst; simplify_eq; try done.
    + by destruct (Hfresh r2 l2).
    + by destruct (Hfresh r1 l1).
    + by eapply Hinj.
Qed.
End attach.

(** Clearing entry [i] of [(r, l)]. *)
Section detach.
Context (D : domain) `{!Closed D} (m m' : Z → Z) (r : Z) (l : list Z) (t i : Z).
Hypothesis Hf : forest D m.
Hypothesis HD : D r l.
Hypothesis Hw : walk m r l = Some t.
Hypothesis Hi : idx_ok i.
Hypothesis Hnone : next m' t i = None.
Hypothesis Hm : ∀ r' l' t' i', D r' l' → walk m r' l' = Some t' → idx_ok i' →
  t' + 8 * i' ≠ t + 8 * i → m' (t' + 8 * i') = m (t' + 8 * i').

Lemma detach_walk r' l' : D r' l' →
  walk m' r' l' = if decide (r' = r ∧ (l ++ [i]) `prefix_of` l') then None else walk m r' l'.
Proof.
  intros HD'. case_decide as Hc.
  - destruct Hc as [-> [k ->]]. rewrite <- app_assoc, walk_app.
    rewrite (walk_write D m m' r l t i); [|done..|].
    + rewrite Hw. cbn. by rewrite Hnone.
    + split; [done|]. intros [_ Hp]. apply prefix_length in Hp.
      rewrite length_app in Hp. cbn in Hp. lia.
  - by rewrite (walk_write D m m' r l t i).
Qed.

Lemma detach_forest : forest D m'.
Proof.
  destruct Hf as [Hp Hinj]. split.
  - intros r' l' t' HD'. rewrite detach_walk by done. case_decide; [done|]. by apply Hp.
  - intros r1 l1 r2 l2 t' H1 H2. rewrite !detach_walk by done.
    repeat case_decide; try done. by apply Hinj.
Qed.
End detach.
