(* ===== verification/VmmProofs.v ===== *)
(** * Run lemmas for the page-table operations

    Each lemma runs one operation of [Vmm.v] from a state that satisfies [vm_ok] and says what it
    returns, which walks it changes and what it does to the frame allocator. *)

From stdpp Require Import functions.
From S2P Require Import Prelude Cpu Spinlock Pmm Vmm VmmTree.

(** ** Entry words *)

Lemma is_page_aligned_spec a : is_page_aligned a = (a mod 4096 =? 0).
Proof.
  unfold is_page_aligned, PAGE_MASK. change 0xFFF with (Z.ones 12). by rewrite Z.land_ones.
Qed.

Lemma page_aligned t : page_ok t → is_page_aligned t = true.
Proof. intros [_ H]. by rewrite is_page_aligned_spec, H. Qed.

Lemma flag_range flags b : 0 ≤ flag flags b < 2 ^ 1.
Proof. unfold flag. by destruct (_ =? 0). Qed.

Lemma frame_shift f : page_ok f → 0 ≤ Z.shiftr f 12 < 2 ^ 40 ∧ Z.shiftl (Z.shiftr f 12) 12 = f.
Proof.
  intros [Hr Hm]. rewrite Z.shiftl_mul_pow2, Z.shiftr_div_pow2 by done.
  change (2 ^ 12) with 4096. change (2 ^ 40) with 1099511627776.
  change (2 ^ 52) with 4503599627370496 in Hr. lia.
Qed.

(** Reading one field of a word built by field updates. *)
Ltac fields :=
  unfold Entry.present, Entry.frame_of, Entry.p, Entry.rw, Entry.us, Entry.addr,
    Entry.set_p, Entry.set_rw, Entry.set_us, Entry.set_pwt, Entry.set_pcd, Entry.set_a,
    Entry.set_d, Entry.set_ps, Entry.set_g, Entry.set_addr, Entry.set_nx in *;
  repeat first
    [ rewrite get_set_field_same by (done || apply flag_range || apply frame_shift; done)
    | rewrite get_set_field_other by lia ].

(** What the walks need of a [populate] function. *)
Definition points_to (bits : Z → Z → Z → Z) : Prop :=
  ∀ f flags w, page_ok f → target (bits f flags w) = Some f.

Lemma target_bits w f : Entry.p w = 1 → Entry.addr w = Z.shiftr f 12 → page_ok f →
  target w = Some f.
Proof.
  intros Hp Ha Hf. unfold target, Entry.present, Entry.frame_of. rewrite Hp, Ha. cbn.
  by rewrite (proj2 (frame_shift f Hf)).
Qed.

Lemma pml4e_points : points_to pml4e_bits.
Proof. intros f flags w Hf. apply target_bits; [..|done]; unfold pml4e_bits; by fields. Qed.
Lemma pdpte_points : points_to pdpte_bits.
Proof. intros f flags w Hf. apply target_bits; [..|done]; unfold pdpte_bits; by fields. Qed.
Lemma pde_points : points_to pde_bits.
Proof. intros f flags w Hf. apply target_bits; [..|done]; unfold pde_bits; by fields. Qed.
Lemma pte_points : points_to pte_bits.
Proof. intros f flags w Hf. apply target_bits; [..|done]; unfold pte_bits; by fields. Qed.
#[export] Hint Resolve pml4e_points pdpte_points pde_points pte_points : vmm.

Lemma target_set_addr w f : page_ok f → Entry.present w = true →
  target (Entry.set_addr (Z.shiftr f 12) w) = Some f.
Proof.
  intros Hf Hp. unfold target. replace (Entry.present _) with (Entry.present w) by (by fields).
  rewrite Hp. fields. by rewrite (proj2 (frame_shift f Hf)).
Qed.

Lemma target_frame w f : target w = Some f → Entry.frame_of w = f.
Proof. unfold target. destruct (Entry.present w); [by intros [= ->] | done]. Qed.

Lemma target_present w f : target w = Some f → Entry.present w = true.
Proof. unfold target. by destruct (Entry.present w). Qed.

Lemma target_set_p w : target (Entry.set_p 0 w) = None.
Proof. unfold target. by fields. Qed.

(** ** Addressing through the HHDM *)

Lemma vtop_at_index s t i : page_ok t → idx_ok i →
  hhdm_vtop s (at_index (hhdm_ptov s t) i) = t + 8 * i.
Proof.
  unfold page_ok, idx_ok, hhdm_vtop, at_index, hhdm_ptov. change (2 ^ 52) with 4503599627370496.
  intros. wrap_lia.
Qed.

Lemma vtop_ptov s t : page_ok t → hhdm_vtop s (hhdm_ptov s t) = t.
Proof.
  unfold page_ok, hhdm_vtop, hhdm_ptov. change (2 ^ 52) with 4503599627370496. intros. wrap_lia.
Qed.

Lemma load_run s t i : page_ok t → idx_ok i →
  load (at_index (hhdm_ptov s t) i) s = Ok (s, phys s (t + 8 * i)).
Proof. intros. unfold load, gets. by rewrite vtop_at_index. Qed.

Lemma store_run s t i w : page_ok t → idx_ok i →
  store (at_index (hhdm_ptov s t) i) w s = Ok (with_phys (<[t + 8 * i := w]> (phys s)) s, ()).
Proof. intros. unfold store, modify. by rewrite vtop_at_index. Qed.

Lemma get_table_run s t i : page_ok t → idx_ok i →
  get_table (at_index (hhdm_ptov s t) i) s =
    Ok (s, hhdm_ptov s (Entry.frame_of (phys s (t + 8 * i)))).
Proof. intros. unfold get_table, mbind, M_bind. by rewrite load_run. Qed.

Lemma fn_insert_eq {B} (m : Z → B) a w : <[a := w]> m a = w.
Proof. apply fn_lookup_insert. Qed.
Lemma fn_insert_ne {B} (m : Z → B) a b w : a ≠ b → <[a := w]> m b = m b.
Proof. intros. by apply fn_lookup_insert_ne. Qed.

(** The words of a page. *)
Definition in_page (t a : Z) : Prop := ∃ i, idx_ok i ∧ a = t + 8 * i.

(** A loop that writes [n] words of page [t], the value at index [i] depending on the words of
    pages other than [t]. *)
Lemma fill_run (body : Z → M vmm unit) (val : (Z → Z) → Z → Z) t first n s :
  page_ok t → 0 ≤ first → first + n ≤ 512 →
  (∀ s' i, hhdm_offset s' = hhdm_offset s → idx_ok i →
     body i s' = Ok (with_phys (<[t + 8 * i := val (phys s') i]> (phys s')) s', ())) →
  (∀ m m' i, idx_ok i → (∀ a, ¬ in_page t a → m' a = m a) → val m' i = val m i) →
  ∃ m', for_each (seqZ first n) body s = Ok (with_phys m' s, ()) ∧
    (∀ i, first ≤ i < first + n → m' (t + 8 * i) = val (phys s) i) ∧
    (∀ a, (∀ i, first ≤ i < first + n → a ≠ t + 8 * i) → m' a = phys s a).
Proof.
  intros Ht Hf Hn Hbody Hval.
  assert (wp (for_each (seqZ first n) body) False (λ _ s', ∃ m', s' = with_phys m' s ∧
    (∀ i, i ∈ seqZ first n → m' (t + 8 * i) = val (phys s) i) ∧
    (∀ a, (∀ i, i ∈ seqZ first n → a ≠ t + 8 * i) → m' a = phys s a)) s) as Hwp.
  { apply (wp_for_each _ body False (λ pre s', ∃ m', s' = with_phys m' s ∧
      (∀ i, i ∈ pre → m' (t + 8 * i) = val (phys s) i) ∧
      (∀ a, (∀ i, i ∈ pre → a ≠ t + 8 * i) → m' a = phys s a))).
    - intros pre i post s' Hl (m' & -> & Hin & Hout).
      assert (∀ j, j ∈ pre ++ [i] → idx_ok j) as Hidx.
      { intros j Hj. assert (j ∈ seqZ first n) as Hj'%elem_of_seqZ by (rewrite Hl; by apply elem_snoc_mid).
        unfold idx_ok. lia. }
      assert (idx_ok i) by (apply Hidx, elem_snoc).
      unfold wp. rewrite Hbody by done. eexists. split; [reflexivity|]. cbn [phys with_phys].
      assert (val m' i = val (phys s) i) as ->.
      { apply Hval; [done|]. intros a Ha. apply Hout. intros j Hj ->. apply Ha.
        exists j. split; [|done]. apply Hidx, elem_of_app. by left. }
      split.
      + intros j Hj. apply elem_of_app in Hj as [Hj|Hj%list_elem_of_singleton];
          [|subst; by rewrite fn_insert_eq].
        destruct (decide (i = j)) as [->|]; [by rewrite fn_insert_eq|].
        rewrite fn_insert_ne by lia. by apply Hin.
      + intros a Ha. rewrite fn_insert_ne by (symmetry; apply Ha, elem_snoc).
        apply Hout. intros j Hj. apply Ha, elem_of_app. by left.
    - exists (phys s). split; [by destruct s|]. split; [by intros i ?%not_elem_of_nil|done]. }
  apply wp_total in Hwp as (s' & [] & Hrun & m' & -> & Hin & Hout).
  exists m'. split; [done|]. split.
  - intros i Hi. apply Hin, elem_of_seqZ. lia.
  - intros a Ha. apply Hout. intros i Hi%elem_of_seqZ. apply Ha. lia.
Qed.

Lemma zero_page_run s f : page_ok f → hhdm_ptov s f ≠ 0 →
  ∃ m', zero_page (hhdm_ptov s f) s = Ok (with_phys m' s, ()) ∧
    (∀ i, idx_ok i → m' (f + 8 * i) = 0) ∧ (∀ a, ¬ in_page f a → m' a = phys s a).
Proof.
  intros Hf Hnz. unfold zero_page, mbind, M_bind, kassert_not_null.
  rewrite (proj2 (Z.eqb_neq _ _)) by done. cbn [kassert negb].
  destruct (fill_run (λ i, store (at_index (hhdm_ptov s f) i) 0) (λ _ _, 0) f 0 512 s)
    as (m' & Hrun & Hin & Hout); [done..| |done|].
  { intros s' i Hoff Hi. unfold hhdm_ptov. rewrite <- Hoff. by apply store_run. }
  exists m'. split; [exact Hrun|]. split; [intros i Hi; by apply Hin|].
  intros a Ha. apply Hout. intros i Hi ->. apply Ha. by exists i.
Qed.

(** ** The invariant of the VMM state over a domain of paths *)

Definition hhdm_ok (s : vmm) : Prop :=
  0x80000000 ≤ hhdm_offset s ∧ hhdm_offset s + 0x80000000 ≤ 2 ^ 64.

Definition kroot (s : vmm) : Z := hhdm_vtop s (kernel_pml4 s).

(** The frame of a physical address. *)
Definition frame_at (a : Z) : Z := a / FRAME_SIZE.

Record vm_ok (D : domain) (s : vmm) : Prop := {
  ok_pmm : wf (vm_pmm s);
  ok_hhdm : hhdm_ok s;
  ok_forest : forest D (phys s);
  (* every table and page of the trees is marked used *)
  ok_used r l t : D r l → walk (phys s) r l = Some t →
    frame_free (vm_pmm s) (frame_at t) = false;
  (* and managed by the PMM, the kernel's PML4 (made by the boot loader) apart *)
  ok_frame r l t : D r l → walk (phys s) r l = Some t → l ≠ [] ∨ r ≠ kroot s →
    frame_ok (frame_at t);
}.

(** What the page-table operations leave alone. *)
Record keeps (s s' : vmm) : Prop := {
  k_cpu : vm_cpu s' = vm_cpu s;
  k_lock : g_vmm_lock s' = g_vmm_lock s;
  k_pml4 : kernel_pml4 s' = kernel_pml4 s;
  k_hhdm : hhdm_offset s' = hhdm_offset s;
  k_heap : kheap s' = kheap s;
}.

#[export] Instance keeps_preorder : PreOrder keeps.
Proof.
  split; [by split|]. intros s1 s2 s3 [] []. split; congruence.
Qed.

Lemma keeps_ptov s s' a : keeps s s' → hhdm_ptov s' a = hhdm_ptov s a.
Proof. intros []. unfold hhdm_ptov. congruence. Qed.

Lemma keeps_kroot s s' : keeps s s' → kroot s' = kroot s.
Proof. intros []. unfold kroot, hhdm_vtop. congruence. Qed.

Lemma keeps_hhdm s s' : keeps s s' → hhdm_ok s → hhdm_ok s'.
Proof. intros []. unfold hhdm_ok. congruence. Qed.

Lemma frame_page f : frame_ok f → page_ok (f * FRAME_SIZE) ∧ frame_at (f * FRAME_SIZE) = f.
Proof.
  unfold frame_ok, frame_at, FRAME_SIZE. change MAX_NUM_FRAMES with 524288. unfold page_ok.
  change (2 ^ 52) with 4503599627370496. intros. split; [split; [lia|] |].
  - by apply Z.mod_mul.
  - by apply Z.div_mul.
Qed.

Lemma frame_word t i : page_ok t → idx_ok i → frame_at (t + 8 * i) = frame_at t.
Proof. unfold page_ok, idx_ok, frame_at, FRAME_SIZE. lia. Qed.

Lemma in_page_frame t a : page_ok t → in_page t a → frame_at a = frame_at t.
Proof. intros Ht (i & Hi & ->). by apply frame_word. Qed.

Lemma frame_at_nonneg t : page_ok t → 0 ≤ frame_at t.
Proof. unfold page_ok, frame_at, FRAME_SIZE. lia. Qed.

Lemma frame_at_inj t t' : page_ok t → page_ok t' → frame_at t = frame_at t' → t = t'.
Proof. unfold page_ok, frame_at, FRAME_SIZE. lia. Qed.

Lemma ptov_nonzero s f : hhdm_ok s → page_ok f → frame_ok (frame_at f) → hhdm_ptov s f ≠ 0.
Proof.
  unfold hhdm_ok, page_ok, frame_ok, frame_at, FRAME_SIZE, hhdm_ptov.
  change MAX_NUM_FRAMES with 524288. intros. wrap_lia.
Qed.
#[export] Hint Resolve frame_at_nonneg frame_word : vmm.

(** [in_pmm alloc_frame] with a frame to spare. *)
Lemma vm_alloc_run s : wf (vm_pmm s) → (0 < avail (vm_pmm s))%nat →
  ∃ f p', in_pmm alloc_frame s = Ok (with_pmm p' s, f) ∧ wf p' ∧ rest_same (vm_pmm s) p' ∧
    page_ok f ∧ frame_ok (frame_at f) ∧ frame_free (vm_pmm s) (frame_at f) = true ∧
    avail (vm_pmm s) = S (avail p') ∧
    ∀ g, 0 ≤ g → frame_free p' g = if frame_at f =? g then false else frame_free (vm_pmm s) g.
Proof.
  intros Hwf Hav. destruct (alloc_frame_avail (vm_pmm s)) as
    (f & p' & Hrun & Hwf' & Hrest & Hok & Hfree & Hcnt & Hfr); [done..|].
  destruct (frame_page f Hok) as [Hp Hat].
  exists (f * FRAME_SIZE), p'. unfold in_pmm, zoom. rewrite Hrun, Hat. done.
Qed.

(** [grown D r n s s']: tables were added to the tree of [r], using at most [n] frames; no mapping
    of a page and no word outside the upper tables of [r] changed. *)
Record grown (D : domain) (r : Z) (n : nat) (s s' : vmm) : Prop := {
  gr_ok : vm_ok D s';
  gr_keeps : keeps s s';
  gr_avail : (avail (vm_pmm s) ≤ n + avail (vm_pmm s'))%nat;
  gr_walk r' l t : D r' l → walk (phys s) r' l = Some t → walk (phys s') r' l = Some t;
  gr_new r' l t : D r' l → walk (phys s) r' l = None → walk (phys s') r' l = Some t →
    r' = r ∧ (length l ≤ 3)%nat ∧ frame_free (vm_pmm s) (frame_at t) = true ∧
    (length l = 3%nat → ∀ j, idx_ok j → phys s' (t + 8 * j) = 0);
  gr_mem a : 0 ≤ a → frame_free (vm_pmm s) (frame_at a) = false →
    (∀ l t i, D r l → (length l ≤ 2)%nat → walk (phys s) r l = Some t → idx_ok i → a ≠ t + 8 * i) →
    phys s' a = phys s a;
  gr_free g : 0 ≤ g → frame_free (vm_pmm s') g = true → frame_free (vm_pmm s) g = true;
}.

Lemma grown_refl D r s : vm_ok D s → grown D r 0 s s.
Proof. intros. split; try done; congruence. Qed.

(** The words of a page table, of a data page, and of other trees are not touched. *)
Lemma grown_word D r n s s' r' l t i : vm_ok D s → grown D r n s s' →
  D r' l → walk (phys s) r' l = Some t → idx_ok i → (3 ≤ length l)%nat ∨ r' ≠ r →
  phys s' (t + 8 * i) = phys s (t + 8 * i).
Proof.
  intros [_ _ [Hpage Hinj] Hused _] [] HD Hw Hi Hl.
  assert (page_ok t) by eauto. apply gr_mem0.
  - unfold page_ok, idx_ok in *. lia.
  - rewrite frame_word by done. by eapply Hused.
  - intros l2 t2 i2 HD2 Hl2 Hw2 Hi2 Heq.
    apply word_addr_inj in Heq as [<- _]; [|eauto..].
    destruct (Hinj r' l r l2 t) as [-> ->]; [done..|]. destruct Hl; [lia|done].
Qed.

Lemma grown_trans D r n n' s1 s2 s3 : vm_ok D s1 →
  grown D r n s1 s2 → grown D r n' s2 s3 → grown D r (n + n') s1 s3.
Proof.
  intros Hok H12 H23. pose proof H12 as [Hok2 Hk2 Hav2 Hwalk2 Hnew2 Hmem2 Hfree2].
  pose proof H23 as [Hok3 Hk3 Hav3 Hwalk3 Hnew3 Hmem3 Hfree3].
  split; [done|by etrans|lia|by auto| | |by auto].
  - intros r' l t HD Hnone Hw. destruct (walk (phys s2) r' l) as [t'|] eqn:Hw2.
    + assert (t' = t) as -> by (apply Hwalk3 in Hw2; [congruence|done]).
      destruct (Hnew2 r' l t) as (-> & Hlen & Hfr & Hz); [done..|].
      split_and!; [done..|]. intros Hl j Hj.
      rewrite (grown_word D r n' s2 s3 r l t j) by (done || left; lia). by apply Hz.
    + destruct (Hnew3 r' l t) as (-> & Hlen & Hfr & Hz); [done..|].
      split_and!; [done..| |done]. apply Hfree2; [|done].
      apply frame_at_nonneg. eapply f_page; [apply Hok3|done|done].
  - intros a Ha Hu Hno. rewrite Hmem3, Hmem2; try done.
    + destruct (frame_free (vm_pmm s2) (frame_at a)) eqn:Hf; [|done].
      rewrite (Hfree2 (frame_at a)) in Hu; [done| |done]. unfold frame_at, FRAME_SIZE. lia.
    + intros l t i HD Hl Hw Hi ->. destruct (walk (phys s1) r l) as [t'|] eqn:Hw1.
      * assert (t' = t) as -> by (apply Hwalk2 in Hw1; [congruence|done]). by eapply Hno.
      * destruct (Hnew2 r l t) as (_ & _ & Hfr & _); [done..|].
        assert (page_ok t) by (eapply f_page; [apply Hok2|done|done]).
        rewrite frame_word, Hfr in Hu by done. done.
Qed.

Lemma fresh_not_node D s f : vm_ok D s → frame_free (vm_pmm s) (frame_at f) = true →
  ∀ r l, D r l → walk (phys s) r l ≠ Some f.
Proof. intros [] Hf r l HD Hw. by rewrite (ok_used0 r l f) in Hf. Qed.

(** Attaching a page to a tree keeps the invariant. *)
Section attach_state.
Context (D : domain) `{!Closed D} (s s' : vmm) (r : Z) (l : list Z) (t i f : Z).
Hypothesis Hok : vm_ok D s.
Hypothesis Hk : keeps s s'.
Hypothesis Hwf : wf (vm_pmm s').
Hypothesis HD : D r l.
Hypothesis Hw : walk (phys s) r l = Some t.
Hypothesis Hi : idx_ok i.
Hypothesis Hpage : page_ok f.
Hypothesis Hframe : frame_ok (frame_at f).
Hypothesis Hfresh : ∀ r' l', D r' l' → walk (phys s) r' l' ≠ Some f.
Hypothesis Hused : frame_free (vm_pmm s') (frame_at f) = false.
Hypothesis Hfree : ∀ g, 0 ≤ g → frame_free (vm_pmm s') g = true → frame_free (vm_pmm s) g = true.
Hypothesis Hnew : next (phys s') t i = Some f.
Hypothesis Hm : ∀ a, a ≠ t + 8 * i → ¬ in_page f a → phys s' a = phys s a.
Hypothesis Hbelow : ∀ j, D r (l ++ [i; j]) → next (phys s') f j = None.
Hypothesis Hbefore : ∀ j, D r (l ++ [i; j]) → next (phys s) t i = None.

Lemma attach_words r' l' t' i' : D r' l' → walk (phys s) r' l' = Some t' → idx_ok i' →
  t' + 8 * i' ≠ t + 8 * i → phys s' (t' + 8 * i') = phys s (t' + 8 * i').
Proof.
  intros HD' Hw' Hi' Hne. apply Hm; [done|]. intros (j & Hj & Heq).
  assert (page_ok t') by (eapply f_page; [apply Hok|done|done]).
  apply word_addr_inj in Heq as [-> _]; [|done..]. by eapply Hfresh.
Qed.

Lemma attach_state_walk r' l' : D r' l' → walk (phys s') r' l' =
  if decide (r' = r ∧ l' = l ++ [i]) then Some f else walk (phys s) r' l'.
Proof.
  apply (attach_walk D (phys s) (phys s') r l t i f); try done; [apply Hok|].
  apply attach_words.
Qed.

Lemma attach_state_ok : vm_ok D s'.
Proof.
  pose proof Hok as [? ? ? Hu Hfr]. split; [done|by eapply keeps_hhdm| | |].
  - apply (attach_forest D (phys s) (phys s') r l t i f); try done. apply attach_words.
  - intros r' l' t' HD'. rewrite attach_state_walk by done. case_decide; [by intros [= <-]|].
    intros Hw'. destruct (frame_free (vm_pmm s') (frame_at t')) eqn:Hf; [|done].
    rewrite <- (Hu r' l' t') by done. symmetry. apply Hfree; [|done].
    apply frame_at_nonneg. by eapply f_page.
  - intros r' l' t' HD'. rewrite attach_state_walk by done. case_decide; [by intros [= <-]|].
    rewrite (keeps_kroot s s') by done. by apply Hfr.
Qed.
End attach_state.

(** ** [ensure_*_present] *)

Lemma rest_same_keeps s p m : rest_same (vm_pmm s) p → keeps s (with_phys m (with_pmm p s)).
Proof. intros []. by split. Qed.

Lemma ensure_present_hit bits flags s t i f : page_ok t → idx_ok i →
  next (phys s) t i = Some f →
  ensure_present bits (at_index (hhdm_ptov s t) i) flags s = Ok (s, hhdm_ptov s f).
Proof.
  intros Ht Hi Hn. unfold ensure_present, mbind, M_bind. rewrite load_run by done.
  unfold next, target in Hn. destruct (Entry.present _); [|done]. cbn [negb].
  unfold mret, M_ret. rewrite get_table_run by done. by injection Hn as ->.
Qed.

(** The state after the slow path. *)
Lemma ensure_present_miss bits flags s t i : points_to bits → page_ok t → idx_ok i →
  wf (vm_pmm s) → hhdm_ok s → frame_free (vm_pmm s) (frame_at t) = false →
  (0 < avail (vm_pmm s))%nat → next (phys s) t i = None →
  ∃ f p' m', ensure_present bits (at_index (hhdm_ptov s t) i) flags s =
      Ok (with_phys m' (with_pmm p' s), hhdm_ptov s f) ∧
    wf p' ∧ rest_same (vm_pmm s) p' ∧ page_ok f ∧ frame_ok (frame_at f) ∧
    frame_free (vm_pmm s) (frame_at f) = true ∧ avail (vm_pmm s) = S (avail p') ∧
    (∀ g, 0 ≤ g → frame_free p' g = if frame_at f =? g then false else frame_free (vm_pmm s) g) ∧
    next m' t i = Some f ∧ (∀ j, idx_ok j → m' (f + 8 * j) = 0) ∧
    (∀ a, a ≠ t + 8 * i → ¬ in_page f a → m' a = phys s a).
Proof.
  intros Hbits Ht Hi Hwf Hh Hused Hav Hn. unfold ensure_present, mbind, M_bind.
  rewrite load_run by done. unfold next, target in Hn.
  destruct (Entry.present _) eqn:Hpr; [done|]. cbn [negb].
  destruct (vm_alloc_run s) as (f & p' & -> & Hwf' & Hrest & Hf & Hok & Hfree & Hcnt & Hfr); [done..|].
  unfold populate, mbind, M_bind. rewrite (page_aligned f) by done. cbn [kassert].
  unfold mret, M_ret. change (hhdm_ptov s t) with (hhdm_ptov (with_pmm p' s) t).
  rewrite load_run, store_run by done. unfold gets. cbn [phys with_pmm].
  match goal with |- context [with_phys ?m1 _] =>
    destruct (zero_page_run (with_phys m1 (with_pmm p' s)) f) as (m' & Hz & Hin & Hout) end.
  { done. }
  { by apply ptov_nonzero. }
  rewrite Hz.
  assert (m' (t + 8 * i) = bits f flags (phys s (t + 8 * i))) as Hent.
  { rewrite Hout; [cbn; by rewrite fn_insert_eq|]. intros (j & Hj & Heq).
    apply word_addr_inj in Heq as [-> _]; [|done..]. congruence. }
  assert (next m' t i = Some f) as Hnext by (unfold next; rewrite Hent; by apply Hbits).
  exists f, p', m'. cbn [with_phys vm_pmm with_pmm g_vmm_lock phys kernel_pml4 hhdm_offset kheap].
  change (hhdm_ptov (with_pmm p' s) t) with (hhdm_ptov (with_phys m' (with_pmm p' s)) t).
  rewrite get_table_run by done. split_and!; try done.
  - do 3 f_equal. cbn [phys with_phys]. by rewrite (target_frame _ f).
  - intros a Ha Hp. rewrite Hout by done. cbn. by rewrite fn_insert_ne.
Qed.

Lemma ensure_run D `{!Closed D} s r l t i bits flags :
  vm_ok D s → points_to bits → D r (l ++ [i]) → (length l ≤ 2)%nat →
  walk (phys s) r l = Some t → (0 < avail (vm_pmm s))%nat →
  ∃ f s', ensure_present bits (at_index (hhdm_ptov s t) i) flags s = Ok (s', hhdm_ptov s f) ∧
    grown D r 1 s s' ∧ walk (phys s') r (l ++ [i]) = Some f.
Proof.
  intros Hok Hbits HDi Hlen Hw Hav. pose proof Hok as [Hwf Hh Hf Hu _].
  assert (D r l) as HD by (by eapply closed_prefix).
  assert (idx_ok i) as Hi by (by eapply closed_idx).
  assert (page_ok t) as Ht by (by eapply f_page).
  destruct (next (phys s) t i) as [f|] eqn:Hn.
  { exists f, s. rewrite (ensure_present_hit bits flags s t i f) by done. split; [done|].
    split; [|by rewrite walk_snoc, Hw]. destruct (grown_refl D r s Hok). split; try done. lia. }
  destruct (ensure_present_miss bits flags s t i) as (f & p' & m' & Hrun & Hwf' & Hrest & Hpf & Hokf
    & Hfree & Hcnt & Hfr & Hnext & Hzero & Hmem); [eauto..|].
  set (s' := with_phys m' (with_pmm p' s)) in *. exists f, s'. split; [exact Hrun|].
  assert (keeps s s') as Hk by (by apply rest_same_keeps).
  assert (∀ g, 0 ≤ g → frame_free p' g = true → frame_free (vm_pmm s) g = true) as Hfr'.
  { intros g Hg. rewrite Hfr by done. by destruct (frame_at f =? g). }
  assert (frame_free p' (frame_at f) = false) as Hused.
  { rewrite Hfr, Z.eqb_refl by (by apply frame_at_nonneg). done. }
  pose proof (fresh_not_node D s f Hok Hfree) as Hfresh.
  assert (∀ j, D r (l ++ [i; j]) → next m' f j = None) as Hbelow.
  { intros j Hj. unfold next. rewrite Hzero; [done|]. eapply (closed_idx r (l ++ [i])).
    by rewrite <- app_assoc. }
  pose proof (attach_state_ok D s s' r l t i f Hok Hk Hwf' HD Hw Hi Hpf Hokf Hfresh Hused Hfr' Hnext
    Hmem Hbelow (λ _ _, Hn)) as Hok'.
  pose proof (attach_state_walk D s s' r l t i f Hok HD Hw Hi Hpf Hfresh Hnext Hmem Hbelow
    (λ _ _, Hn)) as Hwalk.
  split; [split|].
  - done.
  - done.
  - cbn. lia.
  - intros r' l' t' HD' Hw'. rewrite Hwalk by done. case_decide as Hc; [|done].
    destruct Hc as [-> ->]. rewrite walk_snoc, Hw in Hw'. cbn in Hw'. congruence.
  - intros r' l' t' HD' Hnone. rewrite Hwalk by done. case_decide as Hc; [|congruence].
    intros [= <-]. destruct Hc as [-> ->]. rewrite length_app. cbn.
    split_and!; [done|lia|done|]. intros _ j Hj. by apply Hzero.
  - intros a Ha Hua Hno. apply Hmem; [by eapply Hno|]. intros Hp.
    rewrite (in_page_frame f a) in Hua by done. congruence.
  - done.
  - rewrite Hwalk, decide_True; done.
Qed.

Lemma ensure_tables_run D `{!Closed D} s r i4 i3 i2 flags :
  vm_ok D s → D r [i4; i3; i2] → (3 ≤ avail (vm_pmm s))%nat →
  ∃ f s', ensure_tables (hhdm_ptov s r) i4 i3 i2 flags s = Ok (s', hhdm_ptov s f) ∧
    grown D r 3 s s' ∧ walk (phys s') r [i4; i3; i2] = Some f.
Proof.
  intros Hok HD Hav.
  unfold ensure_tables, ensure_pdpte_present, ensure_pde_present, ensure_pte_present, mbind, M_bind.
  destruct (ensure_run D s r [] r i4 pml4e_bits flags) as (f1 & s1 & -> & Hg1 & Hw1);
    [done | by auto with vmm | by apply (closed_app D r [i4] [i3; i2]) | cbn; lia | done | lia |].
  pose proof (gr_keeps _ _ _ _ _ Hg1) as Hk1. rewrite <- (keeps_ptov s s1) by done.
  destruct (ensure_run D s1 r [i4] f1 i3 pdpte_bits flags) as (f2 & s2 & -> & Hg2 & Hw2);
    [exact (gr_ok _ _ _ _ _ Hg1) | by auto with vmm | by apply (closed_app D r [i4; i3] [i2])
    | cbn; lia | exact Hw1 | destruct Hg1; lia |].
  pose proof (grown_trans _ _ _ _ _ _ _ Hok Hg1 Hg2) as Hg12.
  pose proof (gr_keeps _ _ _ _ _ Hg2) as Hk2. rewrite <- (keeps_ptov s1 s2) by done.
  destruct (ensure_run D s2 r [i4; i3] f2 i2 pde_bits flags) as (f3 & s3 & -> & Hg3 & Hw3);
    [exact (gr_ok _ _ _ _ _ Hg2) | by auto with vmm | exact HD | cbn; lia | exact Hw2
    | destruct Hg12; lia |].
  exists f3, s3. rewrite (keeps_ptov s1 s2), (keeps_ptov s s1) by done.
  split; [done|]. split; [|done].
  exact (grown_trans _ _ _ _ _ _ _ Hok Hg12 Hg3).
Qed.

(** ** Mappings

    [leaf m r l i]: the page-table entry at index [i] of the page table with path [l], if it is
    present. *)
Definition leaf (m : Z → Z) (r : Z) (l : list Z) (i : Z) : option Z :=
  w ← word m r l i; if Entry.present w then Some w else None.

(** What [populate_pte] promises of the entry it writes. *)
Record pte_attrs (w f flags : Z) : Prop := {
  at_target : target w = Some f;
  at_rw : Entry.rw w = flag flags PAGE_WRITE;
  at_us : Entry.us w = flag flags PAGE_USER;
  at_pcd : get_field 4 1 w = flag flags PAGE_CACHE_DISABLE;
  at_g : get_field 8 1 w = flag flags PAGE_GLOBAL;
  at_nx : get_field 63 1 w = flag flags PAGE_NX;
}.

Lemma pte_bits_attrs f flags w : page_ok f → pte_attrs (pte_bits f flags w) f flags.
Proof.
  intros Hf. split; [by apply pte_points|..]; unfold pte_bits; fields; done.
Qed.

Lemma attrs_present w f flags : pte_attrs w f flags → Entry.present w = true.
Proof. intros []. unfold target in *. by destruct (Entry.present w). Qed.

Lemma grown_leaf D r n s s' r' l i : vm_ok D s → grown D r n s s' →
  D r' l → length l = 3%nat → idx_ok i → leaf (phys s') r' l i = leaf (phys s) r' l i.
Proof.
  intros Hok Hg HD Hl Hi. unfold leaf, word.
  destruct (walk (phys s) r' l) as [t|] eqn:Hw.
  - rewrite (gr_walk _ _ _ _ _ Hg r' l t) by done. cbn.
    by rewrite (grown_word D r n s s' r' l t i) by (done || left; lia).
  - destruct (walk (phys s') r' l) as [t|] eqn:Hw'; [|done]. cbn.
    destruct (gr_new _ _ _ _ _ Hg r' l t) as (_ & _ & _ & Hz); [done..|].
    by rewrite Hz.
Qed.

(** Data pages keep their place and their contents. *)
Definition same_page (s s' : vmm) (r : Z) (l : list Z) : Prop :=
  ∀ t, walk (phys s) r l = Some t → walk (phys s') r l = Some t ∧
    ∀ i, idx_ok i → phys s' (t + 8 * i) = phys s (t + 8 * i).

Lemma grown_page D r n s s' r' l : vm_ok D s → grown D r n s s' →
  D r' l → length l = 4%nat → same_page s s' r' l.
Proof.
  intros Hok Hg HD Hl t Hw. split; [by eapply gr_walk|]. intros i Hi.
  apply (grown_word D r n s s' r' l t i); try done. left. lia.
Qed.

Lemma populate_pte_run s t i f flags : page_ok t → idx_ok i → page_ok f →
  populate_pte (at_index (hhdm_ptov s t) i) f flags s =
    Ok (with_phys (<[t + 8 * i := pte_bits f flags (phys s (t + 8 * i))]> (phys s)) s, ()).
Proof.
  intros Ht Hi Hf. unfold populate_pte, populate, mbind, M_bind.
  rewrite (page_aligned f) by done. cbn [kassert]. unfold mret, M_ret.
  by rewrite load_run, store_run.
Qed.

(** Writing the entry of a page whose path is in the domain. *)
Section set_leaf.
Context (D : domain) `{!Closed D} (s : vmm) (r : Z) (l : list Z) (t i f w : Z).
Let s' := with_phys (<[t + 8 * i := w]> (phys s)) s.
Hypothesis Hok : vm_ok D s.
Hypothesis HD : D r (l ++ [i]).
Hypothesis Hl : length l = 3%nat.
Hypothesis Hw : walk (phys s) r l = Some t.
Hypothesis Hpage : page_ok f.
Hypothesis Hframe : frame_ok (frame_at f).
Hypothesis Hfresh : ∀ r' l', D r' l' → walk (phys s) r' l' ≠ Some f.
Hypothesis Hused : frame_free (vm_pmm s) (frame_at f) = false.
Hypothesis Hnew : target w = Some f.

Lemma set_leaf_next : next (phys s') t i = Some f.
Proof. unfold next. cbn. by rewrite fn_insert_eq. Qed.

Lemma set_leaf_mem a : a ≠ t + 8 * i → ¬ in_page f a → phys s' a = phys s a.
Proof. intros Ha _. cbn. by rewrite fn_insert_ne. Qed.

Lemma set_leaf_below j : ¬ D r (l ++ [i; j]).
Proof. intros Hj%closed_len. rewrite length_app in Hj. cbn in Hj. lia. Qed.

Lemma set_leaf_ok : vm_ok D s'.
Proof.
  apply (attach_state_ok D s s' r l t i f); try done; try by split.
  - apply Hok.
  - by eapply closed_prefix.
  - by eapply closed_idx.
  - apply set_leaf_next.
  - apply set_leaf_mem.
  - by intros j ?%set_leaf_below.
  - by intros j ?%set_leaf_below.
Qed.

Lemma set_leaf_walk r' l' : D r' l' → walk (phys s') r' l' =
  if decide (r' = r ∧ l' = l ++ [i]) then Some f else walk (phys s) r' l'.
Proof.
  apply (attach_state_walk D s s' r l t i f); try done.
  - by eapply closed_prefix.
  - by eapply closed_idx.
  - apply set_leaf_next.
  - apply set_leaf_mem.
  - by intros j ?%set_leaf_below.
  - by intros j ?%set_leaf_below.
Qed.

Lemma set_leaf_leaf r' l' i' : D r' l' → length l' = 3%nat → idx_ok i' →
  leaf (phys s') r' l' i' =
    if decide (r' = r ∧ l' = l ∧ i' = i) then Some w else leaf (phys s) r' l' i'.
Proof.
  intros HD' Hl' Hi'. unfold leaf, word. rewrite set_leaf_walk, decide_False; [|intros [_ ->]|done].
  2: { rewrite length_app in Hl'. cbn in Hl'. lia. }
  destruct (walk (phys s) r' l') as [t'|] eqn:Hw'; cbn.
  - case_decide as Hc.
    + destruct Hc as (-> & -> & ->). assert (t' = t) as -> by congruence.
      rewrite fn_insert_eq. unfold target in Hnew. by destruct (Entry.present w).
    + rewrite fn_insert_ne; [done|]. intros Heq.
      apply word_addr_inj in Heq as [<- <-];
        [|eapply f_page; [apply Hok| |done]; (done || by eapply closed_prefix)..
         | by eapply closed_idx | done].
      apply Hc. destruct (f_inj D (phys s) (ok_forest D s Hok) r' l' r l t) as [-> ->];
        try done. by eapply closed_prefix.
  - rewrite decide_False; [done|]. intros (-> & -> & _). congruence.
Qed.

Lemma set_leaf_page r' l' : D r' l' → length l' = 4%nat → ¬ (r' = r ∧ l' = l ++ [i]) →
  same_page s s' r' l'.
Proof.
  intros HD' Hl' Hne t' Hw'. split; [by rewrite set_leaf_walk, decide_False by done|].
  intros i' Hi'. cbn. rewrite fn_insert_ne; [done|]. intros Heq.
  apply word_addr_inj in Heq as [<- <-];
    [|eapply f_page; [apply Hok| |done]; (done || by eapply closed_prefix)..
     | by eapply closed_idx | done].
  destruct (f_inj D (phys s) (ok_forest D s Hok) r' l' r l t) as [_ ->]; try done; [|lia].
  by eapply closed_prefix.
Qed.
End set_leaf.

(** [mapped D s s' r l i f flags n]: the page with path [l ++ [i]] is now mapped to frame [f] with
    [flags], every other mapping and every other data page is as before, and at most [n] frames
    were allocated. *)
Record mapped (D : domain) (s s' : vmm) (r : Z) (l : list Z) (i f flags : Z) (n : nat) : Prop := {
  mp_ok : vm_ok D s';
  mp_keeps : keeps s s';
  mp_avail : (avail (vm_pmm s) ≤ n + avail (vm_pmm s'))%nat;
  mp_free g : 0 ≤ g → frame_free (vm_pmm s') g = true → frame_free (vm_pmm s) g = true;
  mp_leaf : ∃ w, pte_attrs w f flags ∧
    ∀ r' l' i', D r' l' → length l' = 3%nat → idx_ok i' →
      leaf (phys s') r' l' i' =
        if decide (r' = r ∧ l' = l ∧ i' = i) then Some w else leaf (phys s) r' l' i';
  mp_page r' l' : D r' l' → length l' = 4%nat → ¬ (r' = r ∧ l' = l ++ [i]) → same_page s s' r' l';
}.

Lemma grown_fresh D r n s s' f : grown D r n s s' → frame_free (vm_pmm s) (frame_at f) = false →
  (∀ r' l', D r' l' → walk (phys s) r' l' ≠ Some f) →
  ∀ r' l', D r' l' → walk (phys s') r' l' ≠ Some f.
Proof.
  intros [] Hu Hfresh r' l' HD Hw. destruct (walk (phys s) r' l') as [t|] eqn:Hw0.
  - apply gr_walk0 in Hw0 as Hw1; [|done]. assert (t = f) as -> by congruence. by eapply Hfresh.
  - destruct (gr_new0 r' l' f) as (_ & _ & Hf & _); [done..|]. congruence.
Qed.

Lemma same_page_trans s1 s2 s3 r l : same_page s1 s2 r l → same_page s2 s3 r l →
  same_page s1 s3 r l.
Proof.
  intros H1 H2 t Hw. destruct (H1 t Hw) as [Hw2 Hm2]. destruct (H2 t Hw2) as [Hw3 Hm3].
  split; [done|]. intros i Hi. by rewrite Hm3, Hm2.
Qed.

(** The two steps shared by [map_page_to_frame] and [map_heap_page]: make the tables, then write
    the entry. *)
Lemma map_leaf_run D `{!Closed D} s r i4 i3 i2 i1 f flags :
  vm_ok D s → D r [i4; i3; i2; i1] → page_ok f → frame_ok (frame_at f) →
  frame_free (vm_pmm s) (frame_at f) = false →
  (∀ r' l', D r' l' → walk (phys s) r' l' ≠ Some f) → (3 ≤ avail (vm_pmm s))%nat →
  ∃ t s1 s', ensure_tables (hhdm_ptov s r) i4 i3 i2 flags s = Ok (s1, hhdm_ptov s t) ∧
    populate_pte (at_index (hhdm_ptov s t) i1) f flags s1 = Ok (s', ()) ∧
    mapped D s s' r [i4; i3; i2] i1 f flags 3.
Proof.
  intros Hok HD Hf Hfok Hused Hfresh Hav.
  assert (D r [i4; i3; i2]) as HD3 by (by apply (closed_app D r _ [i1])).
  assert (idx_ok i1) as Hi by (by apply (closed_idx r [i4; i3; i2])).
  destruct (ensure_tables_run D s r i4 i3 i2 flags) as (t & s1 & Hrun & Hg & Hw); [done..|].
  pose proof (gr_ok _ _ _ _ _ Hg) as Hok1.
  assert (page_ok t) as Ht by (eapply f_page; [apply Hok1|done|done]).
  assert (frame_free (vm_pmm s1) (frame_at f) = false) as Hused1.
  { destruct (frame_free (vm_pmm s1) (frame_at f)) eqn:He; [|done].
    apply (gr_free _ _ _ _ _ Hg) in He; [congruence|]. by apply frame_at_nonneg. }
  pose proof (grown_fresh _ _ _ _ _ f Hg Hused Hfresh) as Hfresh1.
  set (w := pte_bits f flags (phys s1 (t + 8 * i1))).
  assert (target w = Some f) as Htw by (by apply pte_points).
  exists t, s1, (with_phys (<[t + 8 * i1 := w]> (phys s1)) s1). split; [done|].
  split. { rewrite <- (keeps_ptov s s1) by apply Hg. by apply populate_pte_run. }
  split.
  - by apply (set_leaf_ok D s1 r [i4; i3; i2] t i1 f w).
  - etrans; [apply Hg | by split].
  - apply Hg.
  - apply Hg.
  - exists w. split; [by apply pte_bits_attrs|]. intros r' l' i' HD' Hl' Hi'.
    rewrite (set_leaf_leaf D s1 r [i4; i3; i2] t i1 f w) by done.
    by rewrite (grown_leaf D r 3 s s1) by done.
  - intros r' l' HD' Hl' Hne. eapply same_page_trans; [by eapply grown_page|].
    by apply (set_leaf_page D s1 r [i4; i3; i2] t i1 f w).
Qed.

Lemma map_page_run D `{!Closed D} s r virt f flags :
  vm_ok D s → D r [idx4 virt; idx3 virt; idx2 virt; idx1 virt] → hhdm_ptov s r ≠ 0 →
  virt mod 4096 = 0 → page_ok f → frame_ok (frame_at f) →
  frame_free (vm_pmm s) (frame_at f) = false →
  (∀ r' l', D r' l' → walk (phys s) r' l' ≠ Some f) → (3 ≤ avail (vm_pmm s))%nat →
  ∃ s', map_page_to_frame (hhdm_ptov s r) virt f flags s = Ok (s', ()) ∧
    mapped D s s' r [idx4 virt; idx3 virt; idx2 virt] (idx1 virt) f flags 3.
Proof.
  intros Hok HD Hnz Hal Hf Hfok Hused Hfresh Hav.
  unfold map_page_to_frame, kassert_not_null. rewrite (proj2 (Z.eqb_neq _ _)) by done.
  rewrite (page_aligned f), is_page_aligned_spec, Hal, Z.eqb_refl by done.
  destruct (map_leaf_run D s r (idx4 virt) (idx3 virt) (idx2 virt) (idx1 virt) f flags)
    as (t & s1 & s' & Hrun & Hpop & Hm); [done..|].
  exists s'. split; [|done]. unfold mbind, M_bind, kassert, mret, M_ret. cbn [negb].
  cbn beta iota. rewrite Hrun. exact Hpop.
Qed.

(** ** [map_pages] *)

Definition upath (virt : Z) : list Z := [idx4 virt; idx3 virt; idx2 virt].
Definition fpath (virt : Z) : list Z := [idx4 virt; idx3 virt; idx2 virt; idx1 virt].

(** The state after the pages at the addresses [vs] have been mapped to fresh frames. *)
Record mapped_all (D : domain) (s s' : vmm) (r : Z) (vs : list Z) (flags : Z) : Prop := {
  ma_dom v : v ∈ vs → D r (fpath v);
  ma_ok : vm_ok D s';
  ma_avail : (avail (vm_pmm s) ≤ 4 * length vs + avail (vm_pmm s'))%nat;
  ma_free g : 0 ≤ g → frame_free (vm_pmm s') g = true → frame_free (vm_pmm s) g = true;
  ma_new v : v ∈ vs → ∃ w f, leaf (phys s') r (upath v) (idx1 v) = Some w ∧ pte_attrs w f flags ∧
    frame_free (vm_pmm s) (frame_at f) = true;
  ma_old r' l i : D r' l → length l = 3%nat → idx_ok i →
    (∀ v, v ∈ vs → ¬ (r' = r ∧ l = upath v ∧ i = idx1 v)) →
    leaf (phys s') r' l i = leaf (phys s) r' l i;
  ma_page r' l : D r' l → length l = 4%nat → (∀ v, v ∈ vs → ¬ (r' = r ∧ l = fpath v)) →
    same_page s s' r' l;
}.

Lemma same_page_refl s r l : same_page s s r l.
Proof. by intros t Hw. Qed.

Lemma mapped_all_nil D s r flags : vm_ok D s → mapped_all D s s r [] flags.
Proof.
  intros Hok. split; try done; by intros v ?%not_elem_of_nil.
Qed.

Lemma D_upath D `{!Closed D} r v : D r (fpath v) → D r (upath v) ∧ idx_ok (idx1 v).
Proof.
  intros H. split; [by apply (closed_app D r _ [idx1 v]) | by apply (closed_idx r (upath v))].
Qed.

(** Allocating the frame for a page does not disturb the trees. *)
Lemma alloc_keeps D s p : vm_ok D s → wf p → rest_same (vm_pmm s) p →
  (∀ g, 0 ≤ g → frame_free p g = true → frame_free (vm_pmm s) g = true) →
  vm_ok D (with_pmm p s) ∧ keeps s (with_pmm p s).
Proof.
  intros [Hwf Hh Hf Hu Hfr] Hwf' [] Hfree. split; [|by split]. split; try done.
  intros r l t HD Hw. cbn in *. destruct (frame_free p (frame_at t)) eqn:He; [|done].
  apply Hfree in He; [by rewrite (Hu r l t) in He|]. apply frame_at_nonneg. by eapply f_page.
Qed.

(** One more page: a fresh frame mapped by a computation [op] that satisfies [mapped]. *)
Lemma mapped_all_snoc {A} D `{!Closed D} s s' r vs v flags (op : Z → M vmm A) (Q : A → Prop) :
  keeps s s' → mapped_all D s s' r vs flags → D r (fpath v) → (4 ≤ avail (vm_pmm s'))%nat →
  (∀ s1 f, vm_ok D s1 → keeps s s1 → page_ok f → frame_ok (frame_at f) →
     frame_free (vm_pmm s1) (frame_at f) = false →
     (∀ r' l', D r' l' → walk (phys s1) r' l' ≠ Some f) → (3 ≤ avail (vm_pmm s1))%nat →
     ∃ s2 a, op f s1 = Ok (s2, a) ∧ Q a ∧ mapped D s1 s2 r (upath v) (idx1 v) f flags 3) →
  wp (phys_frame ← in_pmm alloc_frame; op phys_frame) False
    (λ a s'', Q a ∧ keeps s s'' ∧ mapped_all D s s'' r (vs ++ [v]) flags) s'.
Proof.
  intros Hk [Hdom Hok Hav Hfree Hnew Hold Hpage] HD Hav4 Hop.
  destruct (D_upath D r v HD) as [HDu Hi1].
  destruct (vm_alloc_run s') as (f & p & Halloc & Hwfp & Hrest & Hf & Hfok & Hffree & Hcnt & Hfr);
    [apply Hok|lia|].
  assert (∀ g, 0 ≤ g → frame_free p g = true → frame_free (vm_pmm s') g = true) as Hfr'.
  { intros g Hg. rewrite Hfr by done. by destruct (frame_at f =? g). }
  destruct (alloc_keeps D s' p) as [Hok1 Hk1]; [done..|].
  destruct (Hop (with_pmm p s') f) as (s2 & a & Hrun & HQ & [Hok2 Hk2 Hav2 Hfree2 Hleaf2 Hpage2]);
    [done|by etrans|done|done| | |cbn; lia|].
  { cbn. rewrite Hfr, Z.eqb_refl; [done|]. by apply frame_at_nonneg. }
  { exact (fresh_not_node D s' f Hok Hffree). }
  unfold wp, mbind, M_bind. rewrite Halloc, Hrun.
  destruct Hleaf2 as (w & Hattrs & Hleaf). cbn [vm_pmm phys with_pmm] in *.
  split; [done|]. split; [etrans; [done|]; by etrans|]. split.
  - intros v' [Hv'|Hv'%list_elem_of_singleton]%elem_of_app; [by apply Hdom | by subst].
  - done.
  - rewrite length_app. cbn. lia.
  - intros g Hg H. by apply Hfree, Hfr', Hfree2.
  - intros v' Hv'. destruct (decide (upath v' = upath v ∧ idx1 v' = idx1 v)) as [[Hu Hi]|Hne].
    + exists w, f. rewrite Hu, Hi, Hleaf, decide_True by done. split; [done|]. split; [done|].
      apply Hfree; [by apply frame_at_nonneg|done].
    + apply elem_of_app in Hv' as [Hv'|Hv'%list_elem_of_singleton]; [|subst; by destruct Hne].
      destruct (Hnew v' Hv') as (w' & f' & Hl' & Ha' & Hf'). exists w', f'. split; [|done].
      destruct (D_upath D r v' (Hdom v' Hv')). rewrite Hleaf, decide_False;
        [done | by intros (_ & ? & ?); destruct Hne | done..].
  - intros r' l i HD' Hl Hi Hno. rewrite Hleaf, decide_False; [|by apply Hno, elem_snoc|done..].
    apply Hold; [done..|]. intros v' Hv'. apply Hno, elem_of_app. by left.
  - intros r' l HD' Hl Hno. eapply same_page_trans.
    + apply Hpage; [done..|]. intros v' Hv'. apply Hno, elem_of_app. by left.
    + apply Hpage2; [done..|]. apply Hno, elem_snoc.
Qed.

(** ** Page arithmetic *)

(** The pages a range touches. *)
Definition range_pages (virt bytes : Z) : list Z :=
  (λ k, virt - virt mod 4096 + k * 4096) <$>
    seqZ 0 ((virt + bytes + 4095) / 4096 - virt / 4096).

Lemma elem_of_range_pages virt bytes v : 0 ≤ virt → 0 < bytes →
  v ∈ range_pages virt bytes ↔
    v mod 4096 = 0 ∧ ∃ a, virt ≤ a < virt + bytes ∧ v ≤ a < v + 4096.
Proof.
  intros Hv Hb. unfold range_pages. rewrite list_elem_of_fmap. split.
  - intros (k & -> & Hk%elem_of_seqZ). split; [lia|].
    exists (Z.max virt (virt - virt mod 4096 + k * 4096)). lia.
  - intros (Hal & a & Ha & Hva). exists (v / 4096 - virt / 4096). split; [lia|].
    apply elem_of_seqZ. lia.
Qed.

(** ** The VMM lock *)

Definition vm_enter (s : vmm) : vmm := with_vm_lock (masked (vm_cpu s), held_from (vm_cpu s)) s.
Definition vm_leave (c : cpu) (s : vmm) : vmm := with_vm_lock (c, released c) s.

Lemma vm_lock_run s : is_free (g_vmm_lock s) → vm_lock s = Ok (vm_enter s, ()).
Proof. intros H. unfold vm_lock, zoom. by rewrite lock_free. Qed.

Lemma vm_unlock_run c s : vm_cpu s = masked c → g_vmm_lock s = held_from c →
  vm_unlock s = Ok (vm_leave c s, ()).
Proof. intros Hc Hl. unfold vm_unlock, zoom. by rewrite Hc, Hl, unlock_masked. Qed.

Lemma vm_ok_lock D x s : vm_ok D (with_vm_lock x s) ↔ vm_ok D s.
Proof.
  split; intros [[] ? ? ? ?]; (split; [by split|done..]).
Qed.

(** Entering, working and leaving: the CPU state and the statics come back. *)
Record restored (s s' : vmm) : Prop := {
  rs_cpu : vm_cpu s' = vm_cpu s;
  rs_lock : is_free (g_vmm_lock s');
  rs_pml4 : kernel_pml4 s' = kernel_pml4 s;
  rs_hhdm : hhdm_offset s' = hhdm_offset s;
}.

Lemma leave_restored s s' : keeps (vm_enter s) s' →
  vm_unlock s' = Ok (vm_leave (vm_cpu s) s', ()) ∧ restored s (vm_leave (vm_cpu s) s').
Proof.
  intros []. split; [by apply vm_unlock_run|]. by split.
Qed.

Lemma mapped_all_leave D c s s' r vs flags :
  mapped_all D (vm_enter s) s' r vs flags → mapped_all D s (vm_leave c s') r vs flags.
Proof. intros []. split; try done. by apply vm_ok_lock. Qed.

(** The loop of [map_pages] from page address [start]. *)
Lemma map_loop_run D `{!Closed D} s r start n flags :
  vm_ok D s → hhdm_ptov s r ≠ 0 → 0 ≤ start → start mod 4096 = 0 → 0 ≤ n →
  start + n * 4096 ≤ 2 ^ 64 →
  (∀ k, 0 ≤ k < n → D r (fpath (start + k * 4096))) → (4 * Z.to_nat n ≤ avail (vm_pmm s))%nat →
  ∃ s', for_each (seqZ 0 n) (λ page, phys_frame ← in_pmm alloc_frame;
          map_page_to_frame (hhdm_ptov s r) (wrap64 (start + page * PAGE_SIZE)) phys_frame flags) s
        = Ok (s', ()) ∧
    keeps s s' ∧ mapped_all D s s' r ((λ k, start + k * 4096) <$> seqZ 0 n) flags.
Proof.
  intros Hok Hnz Hs Hal Hn Hend HD Hav.
  assert (wp (for_each (seqZ 0 n) (λ page, phys_frame ← in_pmm alloc_frame;
    map_page_to_frame (hhdm_ptov s r) (wrap64 (start + page * PAGE_SIZE)) phys_frame flags)) False
    (λ _ s', keeps s s' ∧ mapped_all D s s' r ((λ k, start + k * 4096) <$> seqZ 0 n) flags) s) as Hwp.
  { apply (wp_for_each _ _ False (λ pre s',
      keeps s s' ∧ mapped_all D s s' r ((λ k, start + k * 4096) <$> pre) flags)).
    - intros pre k post s' Hl [Hk Hm]. rewrite fmap_app. cbn [fmap list_fmap].
      assert (k ∈ seqZ 0 n) as Hkn%elem_of_seqZ by (rewrite Hl; apply elem_snoc_mid, elem_snoc).
      assert (length (seqZ 0 n) = length (pre ++ k :: post)) as Hlen by (by rewrite Hl).
      rewrite length_seqZ, length_app in Hlen. cbn in Hlen.
      unfold PAGE_SIZE. rewrite (wrap_small 64 (start + k * 4096)) by (unfold is_word; lia).
      eapply wp_mono; [apply (mapped_all_snoc D s s' r
        ((λ k, start + k * 4096) <$> pre) (start + k * 4096) flags
        (λ f, map_page_to_frame (hhdm_ptov s r) (start + k * 4096) f flags) (λ _, True));
        [exact Hk|exact Hm|apply HD; lia| |] |done|by intros [] s'' [_ H]].
      + destruct Hm. rewrite length_fmap in *. lia.
      + intros s1 f Hok1 Hk1 Hf Hfok Hu Hfresh Hav1. rewrite <- (keeps_ptov s s1) by done.
        destruct (map_page_run D s1 r (start + k * 4096) f flags) as (s2 & Hrun & Hm2); try done.
        * apply HD. lia.
        * by rewrite (keeps_ptov s s1).
        * lia.
        * by exists s2, ().
    - split; [done|]. by apply mapped_all_nil. }
  apply wp_total in Hwp as (s' & [] & Hrun & H). eauto.
Qed.

Lemma page_range_bounds virt bytes : 0 ≤ virt → 0 < bytes → virt + bytes ≤ 2 ^ 47 →
  let page_start := Z.land virt (wrap64 (Z.lnot (PAGE_SIZE - 1))) in
  let page_end := Z.land (wrap64 (virt + bytes + PAGE_SIZE - 1))
                    (wrap64 (Z.lnot (PAGE_SIZE - 1))) in
  page_start = virt - virt mod 4096 ∧
  page_end = page_start + 4096 * ((virt + bytes + 4095) / 4096 - virt / 4096) ∧
  page_start < page_end ∧
  wrap64 (page_end - page_start) / PAGE_SIZE = (virt + bytes + 4095) / 4096 - virt / 4096.
Proof.
  intros Hv Hb Hend. change (2 ^ 47) with 140737488355328 in Hend. cbv zeta.
  change (PAGE_SIZE - 1) with 4095. unfold PAGE_SIZE.
  rewrite (wrap_small 64 (virt + bytes + 4096 - 1)) by (unfold is_word; lia).
  rewrite !page_mask_land by lia. split_and!; [done|lia|lia|].
  rewrite wrap_small by (unfold is_word; lia). lia.
Qed.

Lemma map_pages_run D `{!Closed D} s r virt bytes flags :
  vm_ok D s → is_free (g_vmm_lock s) → hhdm_ptov s r ≠ 0 →
  0 ≤ virt → 0 < bytes → virt + bytes ≤ 2 ^ 47 →
  (∀ v, v ∈ range_pages virt bytes → D r (fpath v)) →
  (4 * length (range_pages virt bytes) ≤ avail (vm_pmm s))%nat →
  ∃ s', map_pages (hhdm_ptov s r) virt bytes flags s = Ok (s', ()) ∧ restored s s' ∧
    kheap s' = kheap s ∧ mapped_all D s s' r (range_pages virt bytes) flags.
Proof.
  intros Hok Hfree Hnz Hv Hb Hend HD Hav.
  destruct (page_range_bounds virt bytes) as (Hst & Hen & Hlt & Hnum); [done..|].
  unfold map_pages, kassert_not_null. rewrite (proj2 (Z.eqb_neq _ _)) by done.
  rewrite (proj2 (Z.ltb_lt 0 bytes)) by done.
  unfold mbind, M_bind, kassert, mret, M_ret. cbn [negb].
  rewrite vm_lock_run, Hnum, !is_page_aligned_spec, (proj2 (Z.ltb_lt _ _) Hlt) by done.
  rewrite Hen, Hst. clear Hen Hst Hlt Hnum.
  set (n := (virt + bytes + 4095) / 4096 - virt / 4096) in *.
  assert (0 < n) as Hn by lia.
  replace ((virt - virt mod 4096) mod 4096 =? 0) with true by lia.
  replace ((virt - virt mod 4096 + 4096 * n) mod 4096 =? 0) with true by lia.
  rewrite (proj2 (Z.ltb_lt 0 n)) by done.
  destruct (map_loop_run D (vm_enter s) r (virt - virt mod 4096) n flags) as (s1 & Hrun & Hk & Hm).
  { by apply vm_ok_lock. }
  { done. }
  { lia. }
  { lia. }
  { lia. }
  { change (2 ^ 47) with 140737488355328 in Hend. change (2 ^ 64) with 18446744073709551616. lia. }
  { intros k Hk. apply HD, list_elem_of_fmap. exists k. split; [done|]. apply elem_of_seqZ. lia. }
  { unfold range_pages in Hav. rewrite length_fmap, length_seqZ in Hav. exact Hav. }
  change (hhdm_ptov s r) with (hhdm_ptov (vm_enter s) r).
  destruct (leave_restored s s1 Hk) as [Hun Hres].
  unfold mbind, M_bind in Hrun. rewrite Hrun, Hun. eexists. split; [reflexivity|].
  split; [done|]. split; [apply Hk|]. by apply mapped_all_leave.
Qed.

(** ** Removing an entry and giving its frame back *)

Section detach_state.
Context (D : domain) `{!Closed D} (s s' : vmm) (r : Z) (l : list Z) (t i f : Z).
Hypothesis Hok : vm_ok D s.
Hypothesis Hk : keeps s s'.
Hypothesis Hwf : wf (vm_pmm s').
Hypothesis HD : D r (l ++ [i]).
Hypothesis Hw : walk (phys s) r l = Some t.
Hypothesis Hf : next (phys s) t i = Some f.
Hypothesis Hm : ∀ a, a ≠ t + 8 * i → phys s' a = phys s a.
Hypothesis Hgone : next (phys s') t i = None.
Hypothesis Hleaf : ∀ j, D r (l ++ [i; j]) → next (phys s) f j = None.
Hypothesis Hfree : ∀ g, 0 ≤ g →
  frame_free (vm_pmm s') g = if frame_at f =? g then true else frame_free (vm_pmm s) g.

Lemma detach_state_walk r' l' : D r' l' → walk (phys s') r' l' =
  if decide (r' = r ∧ l' = l ++ [i]) then None else walk (phys s) r' l'.
Proof.
  intros HD'. rewrite (detach_walk D (phys s) (phys s') r l t i);
    [|apply Hok | by eapply closed_prefix | done | by eapply closed_idx | done
     | by intros; apply Hm | done].
  case_decide as Hc.
  - destruct Hc as [-> [[|j k] ->]]; [by rewrite app_nil_r, decide_True|].
    rewrite decide_False.
    + rewrite <- app_assoc, walk_app, Hw. cbn. rewrite Hf. cbn. rewrite Hleaf; [done|].
      apply (closed_app D r _ k). by rewrite <- !app_assoc in *.
    + intros [_ Heq]. apply (f_equal length) in Heq. rewrite !length_app in Heq. cbn in Heq. lia.
  - rewrite decide_False; [done|]. intros [-> ->]. by apply Hc.
Qed.

Lemma detach_state_ok : vm_ok D s'.
Proof.
  pose proof Hok as [? ? [Hpage Hinj] Hu Hfr].
  assert (walk (phys s) r (l ++ [i]) = Some f) as Hwf' by (by rewrite walk_snoc, Hw).
  split; [done|by eapply keeps_hhdm| | |].
  - apply (detach_forest D (phys s) (phys s') r l t i);
      [apply Hok | by eapply closed_prefix | done | by eapply closed_idx | done
       | by intros; apply Hm].
  - intros r' l' t' HD'. rewrite detach_state_walk by done. case_decide as Hc; [done|].
    intros Hw'. assert (page_ok t') by eauto. rewrite Hfree by (by apply frame_at_nonneg).
    destruct (Z.eqb_spec (frame_at f) (frame_at t')) as [He|]; [|by eapply Hu].
    apply frame_at_inj in He as <-; [|eauto..]. destruct Hc. by eapply Hinj.
  - intros r' l' t' HD'. rewrite detach_state_walk by done. case_decide; [done|].
    rewrite (keeps_kroot s s') by done. by apply Hfr.
Qed.

Lemma detach_state_leaf r' l' i' : D r' l' → length l' = 3%nat → idx_ok i' →
  (length l = 3%nat ∨ ¬ (r' = r ∧ l' = l ++ [i])) →
  leaf (phys s') r' l' i' =
    if decide (r' = r ∧ l' = l ∧ i' = i) then None else leaf (phys s) r' l' i'.
Proof.
  intros HD' Hl' Hi' Hcond. unfold leaf, word. rewrite detach_state_walk by done.
  rewrite decide_False; cycle 1.
  { intros [-> ->]. destruct Hcond as [Hl|Hn]; [|by apply Hn].
    rewrite length_app in Hl'. cbn in Hl'. lia. }
  destruct (walk (phys s) r' l') as [t'|] eqn:Hw'; cbn; [|by case_decide].
  case_decide as Hc.
  - destruct Hc as (-> & -> & ->). assert (t' = t) as -> by congruence.
    unfold next, target in Hgone. by destruct (Entry.present _).
  - rewrite Hm; [done|]. intros Heq.
    apply word_addr_inj in Heq as [-> ->];
      [|eapply f_page; [apply Hok| |done]; (done || by eapply closed_prefix)..
       | done | by eapply closed_idx].
    apply Hc. destruct (f_inj D (phys s) (ok_forest D s Hok) r' l' r l t) as [-> ->]; try done.
    by eapply closed_prefix.
Qed.

Lemma detach_state_page r' l' : D r' l' → ¬ (r' = r ∧ l' = l ++ [i]) → ¬ (r' = r ∧ l' = l) →
  same_page s s' r' l'.
Proof.
  intros HD' Hne Hne' t' Hw'. split; [by rewrite detach_state_walk, decide_False by done|].
  intros i' Hi'. apply Hm. intros Heq.
  apply word_addr_inj in Heq as [-> _];
    [|eapply f_page; [apply Hok| |done]; (done || by eapply closed_prefix)..
     | done | by eapply closed_idx].
  apply Hne'. destruct (f_inj D (phys s) (ok_forest D s Hok) r' l' r l t) as [-> ->]; try done.
  by eapply closed_prefix.
Qed.
End detach_state.

(** [in_pmm (free_frame f)] for a managed frame. *)
Lemma vm_free_run s f : wf (vm_pmm s) → frame_ok (frame_at f) →
  ∃ p', in_pmm (free_frame f) s = Ok (with_pmm p' s, ()) ∧ wf p' ∧ rest_same (vm_pmm s) p' ∧
    free_frames p' = wrap64 (free_frames (vm_pmm s) + 1) ∧
    (avail (vm_pmm s) ≤ avail p')%nat ∧
    ∀ g, 0 ≤ g → frame_free p' g = if frame_at f =? g then true else frame_free (vm_pmm s) g.
Proof.
  intros Hwf Hf. destruct (free_frame_run (vm_pmm s) f) as
    (p' & Hrun & Hwf' & Hrest & Hst & Hcnt & Hfr); [done..|].
  exists p'. unfold in_pmm, zoom. rewrite Hrun. split_and!; try done.
  by eapply free_frame_avail.
Qed.

(** ** [find_pte] and [unmap_page] *)

Lemma entry_addr_nonzero s t i : hhdm_ok s → page_ok t → frame_ok (frame_at t) → idx_ok i →
  at_index (hhdm_ptov s t) i ≠ 0.
Proof.
  unfold hhdm_ok, page_ok, frame_ok, frame_at, FRAME_SIZE, idx_ok, at_index, hhdm_ptov.
  change MAX_NUM_FRAMES with 524288. intros. wrap_lia.
Qed.

(** One level of the walk of [find_pte]. *)
Lemma find_level {A} s t i (k : Z → M vmm A) (z : A) : page_ok t → idx_ok i →
  (e ← load (at_index (hhdm_ptov s t) i);
   if negb (Entry.present e) then mret z else
   t' ← get_table (at_index (hhdm_ptov s t) i); k t') s =
  match next (phys s) t i with
  | Some t' => k (hhdm_ptov s t') s
  | None => Ok (s, z)
  end.
Proof.
  intros Ht Hi. unfold mbind, M_bind. rewrite load_run by done. unfold next, target.
  destruct (Entry.present _); cbn [negb]; [|done]. by rewrite get_table_run.
Qed.

Lemma idx_range virt : idx_ok (idx4 virt) ∧ idx_ok (idx3 virt) ∧ idx_ok (idx2 virt) ∧
  idx_ok (idx1 virt).
Proof.
  unfold idx4, idx3, idx2, idx1, idx_ok. change 0x1FF with (Z.ones 9).
  rewrite !Z.land_ones by done. change (2 ^ 9) with 512. lia.
Qed.

Lemma find_pte_run s r virt : page_ok r →
  find_pte (hhdm_ptov s r) virt s = Ok (s,
    match walk (phys s) r (upath virt), leaf (phys s) r (upath virt) (idx1 virt) with
    | Some t, Some _ => at_index (hhdm_ptov s t) (idx1 virt)
    | _, _ => 0
    end).
Proof.
  intros Hr. destruct (idx_range virt) as (H4 & H3 & H2 & H1).
  unfold find_pte. rewrite find_level by done. unfold leaf, word, upath. cbn.
  destruct (next (phys s) r (idx4 virt)) as [t3|] eqn:Hn4; cbn; [|done].
  assert (page_ok t3) by (by eapply next_page). rewrite find_level by done.
  destruct (next (phys s) t3 (idx3 virt)) as [t2|] eqn:Hn3; cbn; [|done].
  assert (page_ok t2) by (by eapply next_page). rewrite find_level by done.
  destruct (next (phys s) t2 (idx2 virt)) as [t1|] eqn:Hn2; cbn; [|done].
  assert (page_ok t1) by (by eapply next_page).
  unfold mbind, M_bind. rewrite load_run by done.
  by destruct (Entry.present _).
Qed.

(** [unmapped D s s' r virt f]: the page is no longer mapped, its frame [f] is free, and every other
    mapping and data page is as before. *)
Record unmapped (D : domain) (s s' : vmm) (r virt f : Z) : Prop := {
  um_ok : vm_ok D s';
  um_avail : (avail (vm_pmm s) ≤ avail (vm_pmm s'))%nat;
  um_free g : 0 ≤ g → frame_free (vm_pmm s') g =
    if frame_at f =? g then true else frame_free (vm_pmm s) g;
  um_leaf r' l i : D r' l → length l = 3%nat → idx_ok i →
    leaf (phys s') r' l i =
      if decide (r' = r ∧ l = upath virt ∧ i = idx1 virt) then None else leaf (phys s) r' l i;
  um_page r' l : D r' l → length l = 4%nat → ¬ (r' = r ∧ l = fpath virt) → same_page s s' r' l;
}.

Lemma unmap_page_run D `{!Closed D} s r virt : vm_ok D s → D r (fpath virt) →
  hhdm_ptov s r ≠ 0 → virt mod 4096 = 0 →
  match leaf (phys s) r (upath virt) (idx1 virt) with
  | Some w => ∃ s', unmap_page (hhdm_ptov s r) virt s = Ok (s', ()) ∧ keeps s s' ∧
      unmapped D s s' r virt (Entry.frame_of w)
  | None => unmap_page (hhdm_ptov s r) virt s = Ok (s, ())
  end.
Proof.
  intros Hok HD Hnz Hal. destruct (D_upath D r virt HD) as [HDu Hi1].
  pose proof (ok_forest D s Hok) as Hfor.
  assert (page_ok r) as Hr.
  { eapply (f_page D _ Hfor r []); [by apply (closed_app D r [] (fpath virt)) | done]. }
  unfold unmap_page, kassert_not_null. rewrite (proj2 (Z.eqb_neq _ _)) by done.
  rewrite is_page_aligned_spec, Hal, Z.eqb_refl.
  unfold mbind, M_bind, kassert, mret, M_ret. cbn [negb]. rewrite find_pte_run by done.
  unfold leaf, word.
  destruct (walk (phys s) r (upath virt)) as [t|] eqn:Hw; [|done]. cbn [mbind option_bind].
  destruct (Entry.present (phys s (t + 8 * idx1 virt))) eqn:Hp; [|done].
  set (w := phys s (t + 8 * idx1 virt)) in *.
  assert (page_ok t) as Ht by (by eapply f_page).
  assert (frame_ok (frame_at t)) by (eapply ok_frame; [done..|by left]).
  rewrite (proj2 (Z.eqb_neq _ _)) by (apply entry_addr_nonzero; [apply Hok|done..]).
  rewrite load_run by done. fold w.
  assert (next (phys s) t (idx1 virt) = Some (Entry.frame_of w)) as Hn.
  { unfold next, target. fold w. by rewrite Hp. }
  assert (walk (phys s) r (fpath virt) = Some (Entry.frame_of w)) as Hwf.
  { change (fpath virt) with (upath virt ++ [idx1 virt]). by rewrite walk_snoc, Hw. }
  destruct (vm_free_run s (Entry.frame_of w)) as (p' & Hrun & Hwf' & Hrest & _ & Hav & Hfr).
  { apply Hok. }
  { apply (ok_frame D s Hok r (fpath virt)); [done..|by left]. }
  unfold get_pte_phys_frame. rewrite Hrun.
  change (hhdm_ptov s t) with (hhdm_ptov (with_pmm p' s) t). rewrite store_run by done.
  eexists. split; [reflexivity|]. cbn [phys with_pmm].
  set (s' := with_phys _ _).
  assert (keeps s s') as Hk by (by apply rest_same_keeps).
  assert (∀ a, a ≠ t + 8 * idx1 virt → phys s' a = phys s a) as Hm.
  { intros a Ha. cbn. by rewrite fn_insert_ne. }
  assert (next (phys s') t (idx1 virt) = None) as Hgone.
  { unfold next. cbn. by rewrite fn_insert_eq. }
  assert (∀ j, D r (upath virt ++ [idx1 virt; j]) → next (phys s) (Entry.frame_of w) j = None)
    as Hbelow by (intros j Hj%closed_len; cbn in Hj; lia).
  split; [done|]. split.
  - by apply (detach_state_ok D s s' r (upath virt) t (idx1 virt) (Entry.frame_of w)).
  - done.
  - done.
  - intros r' l i HD' Hl Hi.
    apply (detach_state_leaf D s s' r (upath virt) t (idx1 virt) (Entry.frame_of w)); try done.
    by left.
  - intros r' l HD' Hl Hne.
    apply (detach_state_page D s s' r (upath virt) t (idx1 virt) (Entry.frame_of w)); try done.
    intros [_ ->]. done.
Qed.
