(* ===== verification/VmmFree.v ===== *)
(** * Tearing down a user address space

    [free_user_pml4] of [src/kernel/arch/x64/memory/vmm.cpp]: the nested loops give back every page,
    every table and the PML4 of a user address space, each exactly once. *)

From stdpp Require Import functions.
From S2P Require Import Prelude Cpu Spinlock Pmm Vmm VmmTree VmmProofs.

(** The pages at the addresses [F] were given back. *)
Record freed (D : domain) (s s' : vmm) (F : list Z) : Prop := {
  fd_ok : vm_ok D s';
  fd_keeps : keeps s s';
  fd_nodup : NoDup F;
  fd_page f : f ∈ F → page_ok f;
  fd_used f : f ∈ F → frame_free (vm_pmm s) (frame_at f) = false;
  fd_free g : 0 ≤ g → frame_free (vm_pmm s') g =
    bool_decide (g ∈ frame_at <$> F) || frame_free (vm_pmm s) g;
  fd_count : free_frames (vm_pmm s') = wrap64 (free_frames (vm_pmm s) + Z.of_nat (length F));
}.

Lemma freed_nil D s : vm_ok D s → freed D s s [].
Proof.
  intros Hok. split; try done.
  - constructor.
  - by intros f ?%not_elem_of_nil.
  - by intros f ?%not_elem_of_nil.
  - cbn. rewrite Z.add_0_r, wrap_small; [done|]. apply (ok_pmm D s Hok).
Qed.

Lemma freed_trans D s1 s2 s3 F1 F2 :
  freed D s1 s2 F1 → freed D s2 s3 F2 → freed D s1 s3 (F1 ++ F2).
Proof.
  intros [Hok1 Hk1 Hnd1 Hp1 Hu1 Hf1 Hc1] [Hok2 Hk2 Hnd2 Hp2 Hu2 Hf2 Hc2]. split.
  - done.
  - by etrans.
  - apply NoDup_app. split_and!; [done| |done]. intros f HF1 HF2.
    apply Hu2 in HF2. rewrite Hf1 in HF2 by (by apply frame_at_nonneg, Hp1).
    rewrite bool_decide_true in HF2; [done|]. by apply list_elem_of_fmap_2.
  - intros f [?|?]%elem_of_app; auto.
  - intros f [HF|HF]%elem_of_app; [by apply Hu1|].
    specialize (Hu2 f HF). rewrite Hf1 in Hu2 by (by apply frame_at_nonneg, Hp2).
    by apply orb_false_iff in Hu2 as [_ ?].
  - intros g Hg. rewrite Hf2, Hf1, fmap_app by done.
    rewrite (bool_decide_ext (g ∈ _ ++ _) _ (elem_of_app _ _ _)), bool_decide_or.
    by destruct (bool_decide (g ∈ frame_at <$> F1)), (bool_decide (g ∈ frame_at <$> F2)).
  - rewrite Hc2, Hc1, length_app. wrap_lia.
Qed.

(** [pruned D s s' r C F]: of the tree of [r] exactly the nodes on the paths [C] are gone, and [F] are
    their addresses.  The trees of other roots are untouched, contents included. *)
Record pruned (D : domain) (s s' : vmm) (r : Z) (C : list Z → bool) (F : list Z) : Prop := {
  pr_freed : freed D s s' F;
  pr_in l : D r l → C l = true → walk (phys s') r l = None;
  pr_out r' l : D r' l → r' ≠ r ∨ C l = false → walk (phys s') r' l = walk (phys s) r' l;
  pr_nodes f : f ∈ F ↔ ∃ l, D r l ∧ C l = true ∧ walk (phys s) r l = Some f;
  pr_other r' l t i : D r' l → r' ≠ r → walk (phys s) r' l = Some t → idx_ok i →
    phys s' (t + 8 * i) = phys s (t + 8 * i);
}.

Lemma pruned_nil D s r C : vm_ok D s → (∀ l, D r l → C l = true → walk (phys s) r l = None) →
  pruned D s s r C [].
Proof.
  intros Hok Hnone. split; try done; [by apply freed_nil|]. intros f. split.
  - by intros ?%not_elem_of_nil.
  - intros (l & HD & HC & Hw). rewrite Hnone in Hw by done. done.
Qed.

Lemma pruned_trans D s1 s2 s3 r C1 C2 F1 F2 :
  pruned D s1 s2 r C1 F1 → pruned D s2 s3 r C2 F2 →
  pruned D s1 s3 r (λ l, C1 l || C2 l) (F1 ++ F2).
Proof.
  intros [Hf1 Hin1 Hout1 Hn1 Ho1] [Hf2 Hin2 Hout2 Hn2 Ho2]. split.
  - by eapply freed_trans.
  - intros l HD HC. destruct (C2 l) eqn:HC2; [by apply Hin2|].
    rewrite orb_false_r in HC. rewrite Hout2 by auto. by apply Hin1.
  - intros r' l HD Hor. destruct (decide (r' = r)) as [->|].
    + destruct Hor as [|[H1 H2]%orb_false_iff]; [done|]. by rewrite Hout2, Hout1 by auto.
    + by rewrite Hout2, Hout1 by auto.
  - intros f. rewrite elem_of_app, Hn1, Hn2. split.
    + intros [(l & HD & HC & Hw)|(l & HD & HC & Hw)]; exists l.
      * by rewrite HC.
      * rewrite HC, orb_true_r. split_and!; [done..|]. destruct (C1 l) eqn:HC1.
        -- by rewrite Hin1 in Hw.
        -- by rewrite Hout1 in Hw by auto.
    + intros (l & HD & HC & Hw). destruct (C1 l) eqn:HC1; [left; by exists l|].
      right. exists l. rewrite Hout1 by auto. done.
  - intros r' l t i HD Hne Hw Hi. rewrite (Ho2 r' l t i), (Ho1 r' l t i); try done.
    by rewrite Hout1 by auto.
Qed.

Lemma pruned_ext D s s' r C C' F : (∀ l, D r l → C l = C' l) →
  pruned D s s' r C F → pruned D s s' r C' F.
Proof.
  intros HC [Hf Hin Hout Hn Ho]. split; [done| | | |done].
  - intros l HD HC'. apply Hin; [done|]. by rewrite HC.
  - intros r' l HD Hor. apply Hout; [done|]. destruct (decide (r' = r)) as [->|]; [|by left].
    right. destruct Hor; [done|]. by rewrite HC.
  - intros f. rewrite Hn. split; intros (l & HD & H & Hw); exists l.
    + by rewrite <- HC.
    + by rewrite HC.
Qed.

(** Path [l] starts with [p]. *)
Definition starts (p l : list Z) : bool := bool_decide (p `prefix_of` l).
Definition is_path (p l : list Z) : bool := bool_decide (l = p).
Definition strictly_below (p l : list Z) : bool := starts p l && negb (is_path p l).

Lemma starts_split p l : starts p l = strictly_below p l || is_path p l.
Proof.
  unfold strictly_below, starts, is_path. destruct (decide (l = p)) as [->|Hne].
  - by rewrite !bool_decide_true by done.
  - rewrite (bool_decide_false (l = p)) by done. by rewrite andb_true_r, orb_false_r.
Qed.

Lemma starts_snoc p l i : starts (p ++ [i]) l = true → ∃ k, l = p ++ i :: k.
Proof.
  unfold starts. intros [k ->]%bool_decide_eq_true. exists k. by rewrite <- app_assoc.
Qed.

Lemma strictly_below_cons p l : strictly_below p l = true → ∃ i k, l = p ++ i :: k.
Proof.
  unfold strictly_below, starts, is_path.
  intros [[k ->]%bool_decide_eq_true Hne%negb_true_iff%bool_decide_eq_false]%andb_true_iff.
  destruct k as [|i k]; [by rewrite app_nil_r in Hne|]. by exists i, k.
Qed.

(** Nothing below a missing entry. *)
Lemma walk_below_none m r l k : walk m r l = None → walk m r (l ++ k) = None.
Proof. intros H. by rewrite walk_app, H. Qed.

(** [free_*e]: one entry with nothing below it. *)
Lemma free_entry_run D `{!Closed D} s r l t i f :
  vm_ok D s → D r (l ++ [i]) → walk (phys s) r l = Some t → next (phys s) t i = Some f →
  (∀ l', D r l' → strictly_below (l ++ [i]) l' = true → walk (phys s) r l' = None) →
  ∃ s', free_entry (at_index (hhdm_ptov s t) i) s = Ok (s', ()) ∧
    pruned D s s' r (is_path (l ++ [i])) [f].
Proof.
  intros Hok HD Hw Hn Hbelow.
  assert (idx_ok i) as Hi by (by eapply closed_idx).
  assert (page_ok t) as Ht by (eapply f_page; [apply Hok| |done]; by eapply closed_prefix).
  assert (page_ok f) as Hf by (by eapply next_page).
  assert (walk (phys s) r (l ++ [i]) = Some f) as Hwf by (by rewrite walk_snoc, Hw).
  unfold free_entry, mbind, M_bind. rewrite load_run by done.
  assert (Entry.frame_of (phys s (t + 8 * i)) = f) as -> by (by apply target_frame).
  destruct (vm_free_run s f) as (p' & Hrun & Hwfp & Hrest & Hcnt & Hav & Hfr).
  { apply Hok. }
  { apply (ok_frame D s Hok r (l ++ [i])); [done..|]. left. by destruct l. }
  rewrite Hrun. change (hhdm_ptov s t) with (hhdm_ptov (with_pmm p' s) t).
  rewrite store_run by done. eexists. split; [reflexivity|]. cbn [phys with_pmm].
  set (s' := with_phys _ _).
  assert (keeps s s') as Hk by (by apply rest_same_keeps).
  assert (∀ a, a ≠ t + 8 * i → phys s' a = phys s a) as Hm.
  { intros a Ha. cbn. by rewrite fn_insert_ne. }
  assert (next (phys s') t i = None) as Hgone.
  { unfold next. cbn. rewrite fn_insert_eq. apply target_set_p. }
  assert (∀ j, D r (l ++ [i; j]) → next (phys s) f j = None) as Hleaf.
  { intros j Hj. specialize (Hbelow _ Hj). replace (l ++ [i; j]) with ((l ++ [i]) ++ [j]) in Hbelow
      by (by rewrite <- app_assoc). rewrite walk_snoc, Hwf in Hbelow. apply Hbelow.
    unfold strictly_below, starts, is_path. rewrite bool_decide_true by (by apply prefix_app_r).
    rewrite bool_decide_false; [done|]. intros Heq%(f_equal length).
    rewrite !length_app in Heq. cbn in Heq. lia. }
  pose proof (detach_state_walk D s s' r l t i f Hok HD Hw Hn Hm Hgone Hleaf) as Hwalk.
  split; [split| | | |].
  - by apply (detach_state_ok D s s' r l t i f).
  - done.
  - by apply NoDup_singleton.
  - by intros f' ->%list_elem_of_singleton.
  - intros f' ->%list_elem_of_singleton. by apply (ok_used D s Hok r (l ++ [i])).
  - intros g Hg. cbn. rewrite Hfr by done.
    rewrite (bool_decide_ext _ (g = frame_at f)) by apply list_elem_of_singleton.
    destruct (Z.eqb_spec (frame_at f) g) as [<-|]; [by rewrite bool_decide_true|].
    by rewrite bool_decide_false by done.
  - done.
  - intros l' HD' ->%bool_decide_eq_true. by rewrite Hwalk, decide_True.
  - intros r' l' HD' Hor. rewrite Hwalk by done. rewrite decide_False; [done|].
    intros [-> ->]. destruct Hor as [|Hc]; [done|]. unfold is_path in Hc.
    by rewrite bool_decide_true in Hc.
  - intros f'. rewrite list_elem_of_singleton. split.
    + intros ->. exists (l ++ [i]). unfold is_path. by rewrite bool_decide_true.
    + intros (l' & _ & ->%bool_decide_eq_true & Hw'). congruence.
  - intros r' l' t' i' HD' Hne Hw' Hi'. 
    apply (detach_state_page D s s' r l t i f Hok HD Hw Hn Hm Hgone Hleaf r' l'); try done;
      by intros [-> _].
Qed.

(** ** The loops *)

(** A loop over the present entries of the table at [(r, l)] whose body removes everything at and
    below the entry. *)
Lemma prune_loop D `{!Closed D} s r l t n body :
  vm_ok D s → D r l → walk (phys s) r l = Some t → 0 ≤ n ≤ 512 →
  (∀ i, 0 ≤ i < n → D r (l ++ [i])) →
  (∀ s' i f, vm_ok D s' → keeps s s' → 0 ≤ i < n → walk (phys s') r l = Some t →
     next (phys s') t i = Some f →
     ∃ s'' F, body i s' = Ok (s'', ()) ∧ pruned D s' s'' r (starts (l ++ [i])) F) →
  ∃ s' F, for_present (hhdm_ptov s t) 0 n body s = Ok (s', ()) ∧
    pruned D s s' r (λ l', existsb (λ i, starts (l ++ [i]) l') (seqZ 0 n)) F.
Proof.
  intros Hok HD Hw Hn HDi Hbody.
  assert (page_ok t) as Ht by (eapply f_page; [apply Hok|done|done]).
  unfold for_present.
  match goal with |- ∃ s' F, for_each _ ?b _ = _ ∧ _ => set (loop := b) end.
  assert (wp (for_each (seqZ 0 n) loop) False (λ _ s', ∃ F,
    pruned D s s' r (λ l', existsb (λ i, starts (l ++ [i]) l') (seqZ 0 n)) F) s) as Hwp.
  { apply (wp_for_each _ loop False (λ pre s', ∃ F,
      pruned D s s' r (λ l', existsb (λ i, starts (l ++ [i]) l') pre) F)).
    - intros pre i post s' Hl (F & Hpr).
      assert (i ∈ seqZ 0 n) as Hin%elem_of_seqZ by (rewrite Hl; apply elem_snoc_mid, elem_snoc).
      assert (idx_ok i) as Hi by (unfold idx_ok; lia).
      pose proof (pr_freed _ _ _ _ _ _ Hpr) as Hfd.
      pose proof (fd_keeps _ _ _ _ Hfd) as Hk. pose proof (fd_ok _ _ _ _ Hfd) as Hok'.
      assert (walk (phys s') r l = Some t) as Hw'.
      { rewrite (pr_out _ _ _ _ _ _ Hpr); [done..|]. right. apply not_true_iff_false.
        intros (j & _ & (k & Hk')%starts_snoc)%existsb_exists.
        apply (f_equal length) in Hk'. rewrite length_app in Hk'. cbn in Hk'. lia. }
      assert (∃ s'' F', loop i s' = Ok (s'', ()) ∧ pruned D s' s'' r (starts (l ++ [i])) F')
        as (s'' & F' & Hrun & Hpr').
      { unfold loop, mbind, M_bind. rewrite <- (keeps_ptov s s'), load_run by done.
        destruct (Entry.present (phys s' (t + 8 * i))) eqn:Hp.
        - apply (Hbody s' i (Entry.frame_of (phys s' (t + 8 * i)))); try done.
          unfold next, target. by rewrite Hp.
        - exists s', []. split; [done|]. apply pruned_nil; [done|].
          intros l' HD' (k & ->)%starts_snoc. rewrite walk_app, Hw'. cbn.
          unfold next, target. by rewrite Hp. }
      unfold wp. rewrite Hrun. exists (F ++ F').
      eapply pruned_ext; [|by eapply pruned_trans]. intros l' _.
      rewrite existsb_app. cbn. by rewrite orb_false_r.
    - exists []. by apply pruned_nil. }
  apply wp_total in Hwp as (s' & [] & Hrun & F & HF). eauto.
Qed.

(** [op] empties a table whose path has [n] indices. *)
Definition empties (D : domain) (root : Z) (n : nat) (op : Z → M vmm unit) : Prop :=
  ∀ s l t, vm_ok D s → D root l → length l = n → walk (phys s) root l = Some t →
    ∃ s' F, op (hhdm_ptov s t) s = Ok (s', ()) ∧ pruned D s s' root (strictly_below l) F.

(** Below its first index, the domain of [root] is everything. *)
Definition full_below (D : domain) (root : Z) : Prop :=
  ∀ l i, D root l → (1 ≤ length l ≤ 3)%nat → idx_ok i → D root (l ++ [i]).

Lemma strictly_below_exists D `{!Closed D} r l l' : D r l' →
  strictly_below l l' = existsb (λ i, starts (l ++ [i]) l') (seqZ 0 512).
Proof.
  intros HD. apply eq_true_iff_eq. rewrite existsb_exists. split.
  - intros (i & k & ->)%strictly_below_cons. exists i. split.
    + apply list_elem_of_In, elem_of_seqZ.
      assert (D r (l ++ [i])) as Hi%closed_idx.
      { apply (closed_app D r _ k). by rewrite <- app_assoc. }
      unfold idx_ok in Hi. lia.
    + unfold starts. apply bool_decide_eq_true. exists k. by rewrite <- app_assoc.
  - intros (i & _ & (k & ->)%starts_snoc). unfold strictly_below, starts, is_path.
    rewrite bool_decide_true by (by apply prefix_app_r). rewrite bool_decide_false; [done|].
    intros Heq%(f_equal length). rewrite length_app in Heq. cbn in Heq. lia.
Qed.

(** The body of the three outer loops: empty the child table, then free its entry. *)
Lemma prune_child D `{!Closed D} r l t i f op s :
  empties D r (S (length l)) op → vm_ok D s → D r (l ++ [i]) → walk (phys s) r l = Some t →
  next (phys s) t i = Some f →
  ∃ s' F, (x ← get_table (at_index (hhdm_ptov s t) i); _ ← op x;
           free_entry (at_index (hhdm_ptov s t) i)) s = Ok (s', ()) ∧
    pruned D s s' r (starts (l ++ [i])) F.
Proof.
  intros Hop Hok HD Hw Hn.
  assert (idx_ok i) as Hi by (by eapply closed_idx).
  assert (page_ok t) as Ht by (eapply f_page; [apply Hok| |done]; by eapply closed_prefix).
  assert (walk (phys s) r (l ++ [i]) = Some f) as Hwf by (by rewrite walk_snoc, Hw).
  unfold mbind, M_bind. rewrite get_table_run by done.
  assert (Entry.frame_of (phys s (t + 8 * i)) = f) as -> by (by apply target_frame).
  destruct (Hop s (l ++ [i]) f) as (s1 & F1 & Hrun1 & Hpr1); [done..| |done|].
  { rewrite length_app. cbn. lia. }
  rewrite Hrun1.
  pose proof (pr_freed _ _ _ _ _ _ Hpr1) as Hfd.
  rewrite <- (keeps_ptov s s1) by apply Hfd.
  assert (∀ k, strictly_below (l ++ [i]) (l ++ k) = true → (1 < length k)%nat) as Hlen.
  { intros k (j & k' & Heq)%strictly_below_cons. rewrite <- app_assoc in Heq.
    apply app_inv_head in Heq as ->. cbn. lia. }
  assert (∀ k, (length k ≤ 1)%nat → strictly_below (l ++ [i]) (l ++ k) = false) as Hnot.
  { intros k Hk. apply not_true_iff_false. intros H%Hlen. lia. }
  assert (walk (phys s1) r l = Some t) as Hw1.
  { rewrite (pr_out _ _ _ _ _ _ Hpr1); [done|by eapply closed_prefix|].
    right. rewrite <- (app_nil_r l) at 2. apply Hnot. cbn. lia. }
  assert (next (phys s1) t i = Some f) as Hn1.
  { assert (walk (phys s1) r (l ++ [i]) = Some f) as H.
    { rewrite (pr_out _ _ _ _ _ _ Hpr1); [done..|]. right. apply Hnot. cbn. lia. }
    by rewrite walk_snoc, Hw1 in H. }
  destruct (free_entry_run D s1 r l t i f) as (s2 & Hrun2 & Hpr2); [apply Hfd|done..| |].
  { intros l' HD' Hb. by apply (pr_in _ _ _ _ _ _ Hpr1). }
  exists s2, (F1 ++ [f]). split; [done|].
  eapply pruned_ext; [|by eapply pruned_trans]. intros l' _. by rewrite starts_split.
Qed.

Lemma empties_pt D `{!Closed D} r : full_below D r → empties D r 3 free_pt.
Proof.
  intros Hfull s l t Hok HD Hl Hw. unfold free_pt.
  destruct (prune_loop D s r l t 512 (λ i, free_entry (at_index (hhdm_ptov s t) i)))
    as (s' & F & Hrun & Hpr); [done..| | |].
  { intros i Hi. apply Hfull; [done|lia|done]. }
  { intros s' i f Hok' Hk Hi Hw' Hn'. rewrite <- (keeps_ptov s s') by done.
    destruct (free_entry_run D s' r l t i f) as (s2 & Hrun & Hpr); try done.
    - apply Hfull; [done|lia|done].
    - intros l' HD' (j & k & ->)%strictly_below_cons.
      apply closed_len in HD'. rewrite !length_app in HD'. cbn in HD'. lia.
    - exists s2, [f]. split; [done|]. eapply pruned_ext; [|done]. intros l' HD'.
      rewrite starts_split. destruct (strictly_below (l ++ [i]) l') eqn:Hb; [|done].
      apply strictly_below_cons in Hb as (j & k & ->). apply closed_len in HD'.
      rewrite !length_app in HD'. cbn in HD'. lia. }
  exists s', F. split; [done|]. eapply pruned_ext; [|done]. intros l' HD'.
  symmetry. by eapply strictly_below_exists.
Qed.

(** The two middle loops. *)
Lemma empties_level D `{!Closed D} r n op : full_below D r → (1 ≤ n ≤ 2)%nat →
  empties D r (S n) op →
  empties D r n (λ table, for_present table 0 NUM_PT_ENTRIES (λ i,
    x ← get_table (at_index table i); _ ← op x; free_entry (at_index table i))).
Proof.
  intros Hfull Hn Hop s l t Hok HD Hl Hw.
  assert (∀ i, 0 ≤ i < 512 → D r (l ++ [i])) as HDi.
  { intros i Hi. apply Hfull; [done|lia|done]. }
  destruct (prune_loop D s r l t 512 (λ i, x ← get_table (at_index (hhdm_ptov s t) i); _ ← op x;
    free_entry (at_index (hhdm_ptov s t) i))) as (s' & F & Hrun & Hpr); [done..| |].
  { intros s' i f Hok' Hk Hi Hw' Hn'. rewrite <- (keeps_ptov s s') by done.
    apply (prune_child D r l t i f op s'); try done; [by rewrite Hl | by apply HDi]. }
  exists s', F. split; [done|]. eapply pruned_ext; [|done]. intros l' HD'.
  symmetry. by eapply strictly_below_exists.
Qed.

Lemma empties_pd D `{!Closed D} r : full_below D r → empties D r 2 free_pd.
Proof. intros Hfull. apply (empties_level D r 2 free_pt); [done|lia|]. by apply empties_pt. Qed.

Lemma empties_pdpt D `{!Closed D} r : full_below D r → empties D r 1 free_pdpt.
Proof. intros Hfull. apply (empties_level D r 1 free_pd); [done|lia|]. by apply empties_pd. Qed.

(** ** The whole address space *)

Definition without (D : domain) (r : Z) : domain := λ r' l, D r' l ∧ r' ≠ r.

#[export] Instance without_closed D r : Closed D → Closed (without D r).
Proof.
  intros HD. split.
  - intros r' l i [H Hne]. split; [by eapply closed_prefix|done].
  - intros r' l i [H _]. by eapply closed_idx.
  - intros r' l [H _]. by eapply closed_len.
Qed.

(** Changing only the page of root [r] and its bit in the bitmap leaves the other trees intact. *)
Lemma drop_root D `{!Closed D} s s' r :
  vm_ok D s → keeps s s' → wf (vm_pmm s') → D r [] →
  (∀ a, ¬ in_page r a → phys s' a = phys s a) →
  (∀ g, 0 ≤ g → frame_free (vm_pmm s') g = if frame_at r =? g then true
                                           else frame_free (vm_pmm s) g) →
  vm_ok (without D r) s' ∧ ∀ r' l, without D r r' l →
    walk (phys s') r' l = walk (phys s) r' l ∧ same_page s s' r' l.
Proof.
  intros Hok Hk Hwf HD Hm Hfr. pose proof Hok as [_ Hh [Hpage Hinj] Hu Hf].
  assert (page_ok r) as Hr by (by apply (Hpage r [])).
  assert (∀ r' l t i, without D r r' l → walk (phys s) r' l = Some t → idx_ok i →
    phys s' (t + 8 * i) = phys s (t + 8 * i)) as Hword.
  { intros r' l t i [HD' Hne] Hw Hi. apply Hm. intros (j & Hj & Heq).
    apply word_addr_inj in Heq as [-> _]; [|by eauto | done | done | done].
    destruct (Hinj r' l r [] r) as [-> _]; done. }
  assert (∀ r' l, without D r r' l → walk (phys s') r' l = walk (phys s) r' l) as Hwalk.
  { apply (walk_agree (without D r)). intros r' l i t HD' Hw.
    apply (Hword r' l); [exact (closed_prefix _ _ _ HD') | done | exact (closed_idx _ _ _ HD')]. }
  split.
  - split; [done|by eapply keeps_hhdm| | |].
    + split; intros *; intros; rewrite !Hwalk in * by done;
        repeat match goal with H : without _ _ _ _ |- _ => destruct H end; eauto.
    + intros r' l t HD' Hw. rewrite Hwalk in Hw by done. destruct HD' as [HD' Hne].
      assert (page_ok t) by eauto. rewrite Hfr by (by apply frame_at_nonneg).
      destruct (Z.eqb_spec (frame_at r) (frame_at t)) as [He|]; [|by eapply Hu].
      apply frame_at_inj in He as <-; [|done..]. destruct (Hinj r' l r [] r); done.
    + intros r' l t HD' Hw. rewrite Hwalk in Hw by done. rewrite (keeps_kroot s s') by done.
      apply (Hf r' l); [apply HD'|done].
  - intros r' l HD'. split; [by apply Hwalk|]. intros t Hw. split; [by rewrite Hwalk|].
    intros i Hi. by apply (Hword r' l).
Qed.

Lemma below_root ks l : l ≠ [] → Forall (λ h, 0 ≤ h < ks) (take 1 l) →
  existsb (λ i, starts ([] ++ [i]) l) (seqZ 0 ks) = true.
Proof.
  intros Hne Hh. destruct l as [|h l]; [done|]. apply Forall_cons in Hh as [Hh _].
  apply existsb_exists. exists h. split; [apply list_elem_of_In, elem_of_seqZ; lia|].
  unfold starts. apply bool_decide_eq_true. by exists l.
Qed.

(** Everything the loops of [free_user_pml4] remove. *)
Lemma free_user_loops D `{!Closed D} s r ks :
  vm_ok D s → full_below D r → 0 ≤ ks ≤ 512 → D r [] →
  (∀ l, D r l → Forall (λ h, 0 ≤ h < ks) (take 1 l)) → (∀ i, 0 ≤ i < ks → D r [i]) →
  ∃ s' F, for_present (hhdm_ptov s r) 0 ks (λ i,
            pdpt ← get_table (at_index (hhdm_ptov s r) i);
            _ ← free_pdpt pdpt; free_entry (at_index (hhdm_ptov s r) i)) s = Ok (s', ()) ∧
    pruned D s s' r (λ l, negb (is_path [] l)) F.
Proof.
  intros Hok Hfull Hks HD Hhead HDi.
  destruct (prune_loop D s r [] r ks (λ i, pdpt ← get_table (at_index (hhdm_ptov s r) i);
    _ ← free_pdpt pdpt; free_entry (at_index (hhdm_ptov s r) i))) as (s' & F & Hrun & Hpr);
    [done..| |].
  { intros s' i f Hok' Hk Hi Hw Hn. rewrite <- (keeps_ptov s s') by done.
    apply (prune_child D r [] r i f free_pdpt s'); try done; [by apply empties_pdpt | by apply HDi]. }
  exists s', F. split; [done|]. eapply pruned_ext; [|done]. intros l HDl. cbn beta.
  unfold is_path. destruct (decide (l = [])) as [->|Hne].
  - rewrite bool_decide_true by done. apply not_true_iff_false.
    intros (i & _ & (k & Hk)%starts_snoc)%existsb_exists. done.
  - rewrite bool_decide_false by done. apply below_root; [done|]. by apply Hhead.
Qed.

(** The address space of [r] is gone: [F] are the addresses of all its pages and tables, each given
    back once; the other address spaces are as before. *)
Record torn_down (D : domain) (s s' : vmm) (r : Z) (F : list Z) : Prop := {
  td_ok : vm_ok (without D r) s';
  td_nodup : NoDup F;
  td_nodes f : f ∈ F ↔ ∃ l, D r l ∧ walk (phys s) r l = Some f;
  td_used f : f ∈ F → frame_free (vm_pmm s) (frame_at f) = false;
  td_free g : 0 ≤ g → frame_free (vm_pmm s') g =
    bool_decide (g ∈ frame_at <$> F) || frame_free (vm_pmm s) g;
  td_count : free_frames (vm_pmm s') = wrap64 (free_frames (vm_pmm s) + Z.of_nat (length F));
  td_other r' l : without D r r' l →
    walk (phys s') r' l = walk (phys s) r' l ∧ same_page s s' r' l;
}.

Lemma root_not_below D s r F s' : vm_ok D s → D r [] →
  pruned D s s' r (λ l, negb (is_path [] l)) F → r ∉ F.
Proof.
  intros Hok HD Hpr Hin. apply (pr_nodes _ _ _ _ _ _ Hpr) in Hin as (l & HDl & HC & Hw).
  destruct (f_inj D _ (ok_forest D s Hok) r l r [] r) as [_ ->]; done.
Qed.

Lemma torn_down_intro D `{!Closed D} s s1 s2 r F :
  vm_ok D s → D r [] → page_ok r → pruned D s s1 r (λ l, negb (is_path [] l)) F →
  keeps s1 s2 → wf (vm_pmm s2) → (∀ a, ¬ in_page r a → phys s2 a = phys s1 a) →
  free_frames (vm_pmm s2) = wrap64 (free_frames (vm_pmm s1) + 1) →
  (∀ g, 0 ≤ g → frame_free (vm_pmm s2) g = if frame_at r =? g then true
                                           else frame_free (vm_pmm s1) g) →
  torn_down D s s2 r (F ++ [r]).
Proof.
  intros Hok HD Hr Hpr Hk Hwf Hm Hcnt Hfr. pose proof (root_not_below _ _ _ _ _ Hok HD Hpr) as Hnot.
  pose proof Hpr as [[Hok1 Hk1 Hnd Hp Hu Hf Hc] Hin Hout Hnodes Hoth].
  destruct (drop_root D s1 s2 r) as [Hok2 Hother]; [done..|].
  split; [done|..].
  - apply NoDup_app. split_and!; [done| |by apply NoDup_singleton].
    intros f HF ->%list_elem_of_singleton. done.
  - intros f. rewrite elem_of_app, Hnodes, list_elem_of_singleton. split.
    + intros [(l & HDl & _ & Hw)| ->]; [by exists l | by exists []].
    + intros (l & HDl & Hw). destruct (decide (l = [])) as [->|Hne].
      * right. by injection Hw.
      * left. exists l. unfold is_path. by rewrite bool_decide_false by done.
  - intros f [HF|HF%list_elem_of_singleton]%elem_of_app; [by apply Hu|subst].
    by apply (ok_used D s Hok r []).
  - intros g Hg. rewrite Hfr, Hf, fmap_app by done. cbn.
    rewrite (bool_decide_ext (g ∈ _ ++ _) _ (elem_of_app _ _ _)), bool_decide_or.
    rewrite (bool_decide_ext (g ∈ [_]) _ (list_elem_of_singleton _ _)).
    destruct (Z.eqb_spec (frame_at r) g) as [->|Hne].
    + rewrite (bool_decide_true (g = g)) by done. by rewrite orb_true_r.
    + rewrite (bool_decide_false (g = frame_at r)) by done. by rewrite orb_false_r.
  - rewrite Hcnt, Hc, length_app. cbn. wrap_lia.
  - intros r' l Hwo. pose proof Hwo as [HDl Hne]. destruct (Hother r' l Hwo) as [Hw Hp2].
    split; [by rewrite Hw, Hout by auto|]. eapply same_page_trans; [|done].
    intros t Hwt. split; [by rewrite Hout by auto|]. intros i Hi. by apply (Hoth r' l).
Qed.

Lemma free_user_pml4_run D `{!Closed D} s r :
  vm_ok D s → is_free (g_vmm_lock s) → full_below D r → r ≠ kroot s → D r [] →
  (∀ l, D r l → Forall (λ h, 0 ≤ h < get_kernel_pml4_index s) (take 1 l)) →
  (∀ i, 0 ≤ i < get_kernel_pml4_index s → D r [i]) →
  ∃ s' F, free_user_pml4 (hhdm_ptov s r) s = Ok (s', ()) ∧ restored s s' ∧
    kheap s' = kheap s ∧ torn_down D s s' r F ∧ (∀ i, idx_ok i → phys s' (r + 8 * i) = 0).
Proof.
  intros Hok Hfree Hfull Hkr HD Hhead HDi.
  assert (page_ok r) as Hr by (by apply (f_page D _ (ok_forest D s Hok) r [])).
  assert (frame_ok (frame_at r)) as Hfr by (apply (ok_frame D s Hok r []); [done..|by right]).
  assert (0 ≤ get_kernel_pml4_index s ≤ 512) as Hks.
  { unfold get_kernel_pml4_index. change 0x1FF with (Z.ones 9). rewrite Z.land_ones by done.
    change (2 ^ 9) with 512. lia. }
  unfold free_user_pml4, mbind, M_bind, gets.
  rewrite (proj2 (Z.eqb_neq _ _)); cycle 1.
  { intros Heq. apply Hkr. unfold kroot. by rewrite <- Heq, vtop_ptov. }
  rewrite vm_lock_run by done.
  destruct (free_user_loops D (vm_enter s) r (get_kernel_pml4_index s)) as (s1 & F & Hrun & Hpr);
    [by apply vm_ok_lock | done..|].
  unfold mbind, M_bind in Hrun. change (hhdm_ptov s r) with (hhdm_ptov (vm_enter s) r).
  change (get_kernel_pml4_index (vm_enter s)) with (get_kernel_pml4_index s). rewrite Hrun.
  pose proof (pr_freed _ _ _ _ _ _ Hpr) as Hfd. pose proof (fd_keeps _ _ _ _ Hfd) as Hk1.
  pose proof (fd_ok _ _ _ _ Hfd) as Hok1.
  rewrite <- (keeps_ptov (vm_enter s) s1) by done.
  destruct (zero_page_run s1 r) as (m' & Hz & Hin & Hout); [done|by apply ptov_nonzero; [apply Hok1|..]|].
  rewrite Hz. cbn [phys with_phys]. 
  change (hhdm_vtop (with_phys m' s1) (hhdm_ptov s1 r)) with (hhdm_vtop s1 (hhdm_ptov s1 r)).
  rewrite vtop_ptov by done.
  destruct (vm_free_run (with_phys m' s1) r) as (p' & Hrunf & Hwfp & Hrest & Hcnt & _ & Hfr');
    [apply Hok1|done|].
  rewrite Hrunf. set (s2 := with_pmm p' (with_phys m' s1)).
  assert (keeps s1 s2) as Hk2 by (destruct Hrest; by split).
  assert (keeps (vm_enter s) s2) as Hk by (by etrans).
  destruct (leave_restored s s2 Hk) as [Hun Hres]. rewrite Hun.
  exists (vm_leave (vm_cpu s) s2), (F ++ [r]). split; [done|]. split; [done|]. split; [apply Hk|]. split; [|done].
  destruct (torn_down_intro D (vm_enter s) s1 s2 r F) as []; try done; [by apply vm_ok_lock|].
  split; try done. by apply vm_ok_lock.
Qed.
