(* ===== verification/VmmSpace.v ===== *)
(** * User address spaces

    The paths of the user half of an address space, adding a fresh root to the trees, and
    [create_user_pml4]. *)

From stdpp Require Import functions.
From S2P Require Import Prelude Cpu Spinlock Pmm Vmm VmmTree VmmProofs VmmFree.

(** The paths below the kernel's first PML4 index [ks]. *)
Definition user_path (ks : Z) (l : list Z) : Prop :=
  (length l ≤ 4)%nat ∧ Forall idx_ok l ∧ Forall (λ h, 0 ≤ h < ks) (take 1 l).

(** The user halves of the address spaces [roots], and the kernel's tables below the PML4 entries
    [kheads] of [kr]. *)
Definition spaces (ks : Z) (roots : Z → Prop) (kr : Z) (kheads : Z → Prop) : domain := λ r l,
  (roots r ∧ user_path ks l) ∨
  (r = kr ∧ (length l ≤ 3)%nat ∧ Forall idx_ok l ∧ Forall kheads (take 1 l)).

Lemma user_path_snoc ks l i : user_path ks (l ++ [i]) → user_path ks l ∧ idx_ok i.
Proof.
  intros (Hlen & Hidx & Hh). rewrite length_app in Hlen. cbn in Hlen.
  apply Forall_app in Hidx as [Hidx Hi]. apply Forall_cons in Hi as [Hi _].
  split; [|done]. split; [lia|]. split; [done|]. by destruct l as [|h l].
Qed.

#[export] Instance spaces_closed ks roots kr kheads : Closed (spaces ks roots kr kheads).
Proof.
  split.
  - intros r l i [[Hr Hp]|(Hr & Hlen & Hidx & Hh)].
    + left. split; [done|]. by apply user_path_snoc in Hp as [? _].
    + right. rewrite length_app in Hlen. apply Forall_app in Hidx as [Hidx _].
      split_and!; [done|lia|done|]. by destruct l as [|h l].
  - intros r l i [[Hr Hp]|(Hr & Hlen & Hidx & Hh)].
    + by apply user_path_snoc in Hp as [_ ?].
    + apply Forall_app in Hidx as [_ Hi]. by apply Forall_cons in Hi as [Hi _].
  - intros r l [[Hr Hp]|(Hr & Hlen & _)]; [apply Hp | lia].
Qed.

Lemma user_path_nil ks : user_path ks [].
Proof. split; [cbn; lia|]. split; constructor. Qed.

Lemma user_path_extend ks l i : user_path ks l → (1 ≤ length l ≤ 3)%nat → idx_ok i →
  user_path ks (l ++ [i]).
Proof.
  intros (Hlen & Hidx & Hh) Hl Hi. split; [rewrite length_app; cbn; lia|].
  split; [apply Forall_app; by rewrite Forall_singleton|]. destruct l; cbn in *; [lia|done].
Qed.

Lemma user_path_one ks i : 0 ≤ i < ks → ks ≤ 512 → user_path ks [i].
Proof.
  intros Hi Hks. split; [cbn; lia|]. split; apply Forall_singleton; [unfold idx_ok; lia|done].
Qed.

(** Adding root [q] to a domain. *)
Definition with_root (D : domain) (ks q : Z) : domain := λ r l,
  D r l ∨ (r = q ∧ user_path ks l).

#[export] Instance with_root_closed D ks q : Closed D → Closed (with_root D ks q).
Proof.
  intros HD. split.
  - intros r l i [H|[-> H]]; [left; by eapply closed_prefix|].
    right. by apply user_path_snoc in H as [? _].
  - intros r l i [H|[-> H]]; [by eapply closed_idx|]. by apply user_path_snoc in H as [_ ?].
  - intros r l [H|[-> H]]; [by eapply closed_len | apply H].
Qed.

Section add_root.
Context (D : domain) `{!Closed D} (ks q : Z) (s s' : vmm).
Hypothesis Hok : vm_ok D s.
Hypothesis Hk : keeps s s'.
Hypothesis Hwf : wf (vm_pmm s').
Hypothesis Hq : page_ok q.
Hypothesis Hfq : frame_ok (frame_at q).
Hypothesis Hfresh : frame_free (vm_pmm s) (frame_at q) = true.
Hypothesis Hused : frame_free (vm_pmm s') (frame_at q) = false.
Hypothesis Hfree : ∀ g, 0 ≤ g → frame_free (vm_pmm s') g = true → frame_free (vm_pmm s) g = true.
Hypothesis Hm : ∀ a, ¬ in_page q a → phys s' a = phys s a.
Hypothesis Hempty : ∀ i, 0 ≤ i < ks → next (phys s') q i = None.

Lemma add_root_word r l t i : D r l → walk (phys s) r l = Some t → idx_ok i →
  phys s' (t + 8 * i) = phys s (t + 8 * i).
Proof.
  intros HD Hw Hi. apply Hm. intros (j & Hj & Heq).
  assert (page_ok t) by (eapply f_page; [apply Hok|done|done]).
  apply word_addr_inj in Heq as [-> _]; [|done..].
  by eapply (fresh_not_node D s q).
Qed.

Lemma add_root_walk r l : D r l → walk (phys s') r l = walk (phys s) r l.
Proof.
  apply (walk_agree D). intros r' l' i t HD Hw.
  apply (add_root_word r' l'); [by eapply closed_prefix | done | by eapply closed_idx].
Qed.

Lemma add_root_new l : user_path ks l → l ≠ [] → walk (phys s') q l = None.
Proof.
  intros (_ & _ & Hh) Hne. destruct l as [|h l]; [done|]. apply Forall_cons in Hh as [Hh _].
  cbn. by rewrite Hempty.
Qed.

Lemma add_root_not_D l : ¬ D q l.
Proof.
  intros HD. apply (fresh_not_node D s q Hok Hfresh q []); [|done]. by apply (closed_app D q [] l).
Qed.

Lemma add_root_inv r l t : with_root D ks q r l → walk (phys s') r l = Some t →
  (D r l ∧ walk (phys s) r l = Some t) ∨ (r = q ∧ l = [] ∧ t = q).
Proof.
  intros [HD|[-> Hp]] Hw; [left; by rewrite <- add_root_walk|]. right.
  destruct l as [|h l]; [by injection Hw | by rewrite add_root_new in Hw].
Qed.

Lemma add_root_ok : vm_ok (with_root D ks q) s'.
Proof.
  pose proof Hok as [_ Hh [Hpage Hinj] Hu Hf].
  pose proof (fresh_not_node D s q Hok Hfresh) as Hnot.
  split; [done|by eapply keeps_hhdm| | |].
  - split.
    + intros r l t HD Hw. destruct (add_root_inv r l t HD Hw) as [[? ?]|(_ & _ & ->)]; [eauto|done].
    + intros r1 l1 r2 l2 t HD1 HD2 Hw1 Hw2.
      destruct (add_root_inv r1 l1 t HD1 Hw1) as [[? ?]|(-> & -> & ->)],
        (add_root_inv r2 l2 _ HD2 Hw2) as [[? ?]|(-> & -> & Hq2)]; subst; try done.
      * by eapply Hinj.
      * by edestruct Hnot.
      * by edestruct Hnot.
  - intros r l t HD Hw. destruct (add_root_inv r l t HD Hw) as [[HD' Hw']|(_ & _ & ->)]; [|done].
    destruct (frame_free (vm_pmm s') (frame_at t)) eqn:He; [|done].
    apply Hfree in He; [by rewrite (Hu r l t) in He|]. apply frame_at_nonneg. eauto.
  - intros r l t HD Hw Hor. destruct (add_root_inv r l t HD Hw) as [[HD' Hw']|(_ & _ & ->)]; [|done].
    rewrite (keeps_kroot s s') in Hor by done. by eapply Hf.
Qed.

Lemma add_root_page r l : D r l → same_page s s' r l.
Proof.
  intros HD t Hw. split; [by rewrite add_root_walk|]. intros i Hi. by apply (add_root_word r l).
Qed.
End add_root.

Lemma ptov_vtop s v : is_word 64 v → hhdm_ptov s (hhdm_vtop s v) = v.
Proof. unfold is_word, hhdm_ptov, hhdm_vtop. intros. wrap_lia. Qed.

(** Copying the kernel half of a PML4. *)
Lemma copy_entries_run s dst src first : page_ok dst → page_ok src → dst ≠ src →
  0 ≤ first ≤ 512 →
  ∃ m', copy_entries (hhdm_ptov s dst) (hhdm_ptov s src) first s = Ok (with_phys m' s, ()) ∧
    (∀ i, first ≤ i < 512 → m' (dst + 8 * i) = phys s (src + 8 * i)) ∧
    (∀ a, (∀ i, first ≤ i < 512 → a ≠ dst + 8 * i) → m' a = phys s a).
Proof.
  intros Hd Hs Hne Hf.
  destruct (fill_run (λ i, w ← load (at_index (hhdm_ptov s src) i);
    store (at_index (hhdm_ptov s dst) i) w) (λ m i, m (src + 8 * i)) dst first (512 - first) s)
    as (m' & Hrun & Hin & Hout); [done|lia|lia| | |].
  { intros s' i Hoff Hi. unfold hhdm_ptov. rewrite <- Hoff. fold (hhdm_ptov s' src).
    fold (hhdm_ptov s' dst). unfold mbind, M_bind. by rewrite load_run, store_run. }
  { intros m m' i Hi Hm. apply Hm. intros (j & Hj & Heq).
    apply word_addr_inj in Heq as [-> _]; done. }
  exists m'. split; [exact Hrun|]. split.
  - intros i Hi. apply Hin. lia.
  - intros a Ha. apply Hout. intros i Hi. apply Ha. lia.
Qed.

Lemma kernel_index_range s : 0 ≤ get_kernel_pml4_index s ≤ 512.
Proof.
  unfold get_kernel_pml4_index. change 0x1FF with (Z.ones 9). rewrite Z.land_ones by done.
  change (2 ^ 9) with 512. lia.
Qed.

(** The result of allocating, clearing and filling a new PML4 [q] from the PML4 [src]. *)
Record new_root (D : domain) (s s' : vmm) (q src : Z) : Prop := {
  nr_ok : vm_ok (with_root D (get_kernel_pml4_index s) q) s';
  nr_keeps : keeps s s';
  nr_avail : avail (vm_pmm s) = S (avail (vm_pmm s'));
  nr_fresh : frame_free (vm_pmm s) (frame_at q) = true;
  nr_not : ∀ l, ¬ D q l;
  nr_free g : 0 ≤ g → frame_free (vm_pmm s') g =
    if frame_at q =? g then false else frame_free (vm_pmm s) g;
  nr_empty l : user_path (get_kernel_pml4_index s) l → l ≠ [] → walk (phys s') q l = None;
  nr_kernel i : get_kernel_pml4_index s ≤ i < 512 → phys s' (q + 8 * i) = phys s (src + 8 * i);
  nr_same r l : D r l → walk (phys s') r l = walk (phys s) r l ∧ same_page s s' r l;
}.

Lemma new_root_run D `{!Closed D} s src : vm_ok D s → (0 < avail (vm_pmm s))%nat →
  page_ok src → frame_free (vm_pmm s) (frame_at src) = false →
  ∃ q p' m1 m', in_pmm alloc_frame s = Ok (with_pmm p' s, q) ∧
    hhdm_ptov s q ≠ 0 ∧
    zero_page (hhdm_ptov s q) (with_pmm p' s) = Ok (with_phys m1 (with_pmm p' s), ()) ∧
    copy_entries (hhdm_ptov s q) (hhdm_ptov s src) (get_kernel_pml4_index s)
      (with_phys m1 (with_pmm p' s)) = Ok (with_phys m' (with_pmm p' s), ()) ∧
    new_root D s (with_phys m' (with_pmm p' s)) q src.
Proof.
  intros Hok Hav Hsrc Hsrcu.
  destruct (vm_alloc_run s) as (q & p' & Halloc & Hwfp & Hrest & Hq & Hfq & Hfree & Hcnt & Hfr);
    [apply Hok|done|].
  assert (q ≠ src) as Hne by congruence.
  assert (hhdm_ptov s q ≠ 0) as Hnz by (apply ptov_nonzero; [apply Hok|done..]).
  destruct (zero_page_run (with_pmm p' s) q) as (m1 & Hz & Hzin & Hzout); [done..|].
  destruct (copy_entries_run (with_phys m1 (with_pmm p' s)) q src (get_kernel_pml4_index s))
    as (m' & Hc & Hcin & Hcout); [done..|apply kernel_index_range|].
  exists q, p', m1, m'. split; [done|]. split; [done|]. split; [exact Hz|]. split; [exact Hc|].
  set (s' := with_phys m' (with_pmm p' s)). cbn [phys with_phys with_pmm] in *.
  assert (keeps s s') as Hk by (by apply rest_same_keeps).
  assert (∀ g, 0 ≤ g → frame_free p' g = true → frame_free (vm_pmm s) g = true) as Hmono.
  { intros g Hg. rewrite Hfr by done. by destruct (frame_at q =? g). }
  assert (frame_free p' (frame_at q) = false) as Hused.
  { rewrite Hfr, Z.eqb_refl by (by apply frame_at_nonneg). done. }
  assert (∀ a, ¬ in_page q a → m' a = phys s a) as Hm.
  { intros a Ha. rewrite Hcout; [by apply Hzout|]. intros i Hi ->. apply Ha. exists i.
    split; [|done]. pose proof (kernel_index_range s). unfold idx_ok. lia. }
  pose proof (kernel_index_range s) as Hks.
  assert (∀ i, 0 ≤ i < get_kernel_pml4_index s → next m' q i = None) as Hempty.
  { intros i Hi. unfold next. rewrite Hcout.
    - rewrite Hzin; [done|]. unfold idx_ok. lia.
    - intros j Hj. lia. }
  split; try done.
  - by apply (add_root_ok D (get_kernel_pml4_index s) q s s').
  - apply (add_root_not_D D q s); done.
  - intros l Hl Hlne. by apply (add_root_new (get_kernel_pml4_index s) q s').
  - intros i Hi. cbn. rewrite Hcin by done. apply Hzout. intros (j & Hj & Heq).
    apply word_addr_inj in Heq as [-> _]; try done. unfold idx_ok. lia.
  - intros r l HD. split.
    + by apply (add_root_walk D q s s').
    + by apply (add_root_page D q s s').
Qed.

Lemma create_user_pml4_run D `{!Closed D} s : vm_ok D s → (0 < avail (vm_pmm s))%nat →
  is_word 64 (kernel_pml4 s) → D (kroot s) [] →
  ∃ q s', create_user_pml4 s = Ok (s', hhdm_ptov s q) ∧ new_root D s s' q (kroot s).
Proof.
  intros Hok Hav Hw64 HD.
  assert (page_ok (kroot s)) as Hkr by (by apply (f_page D _ (ok_forest D s Hok) (kroot s) [])).
  destruct (new_root_run D s (kroot s)) as (q & p' & m1 & m' & Halloc & Hnz & Hz & Hc & Hn); try done.
  { by apply (ok_used D s Hok (kroot s) []). }
  exists q, (with_phys m' (with_pmm p' s)). split; [|done].
  unfold create_user_pml4, mbind, M_bind, kassert_not_null, gets. rewrite Halloc.
  change (hhdm_ptov (with_pmm p' s) q) with (hhdm_ptov s q).
  rewrite (proj2 (Z.eqb_neq _ _)) by done. cbn [negb kassert]. unfold mret, M_ret. rewrite Hz.
  cbn [kernel_pml4 with_phys with_pmm].
  change (get_kernel_pml4_index _) with (get_kernel_pml4_index s).
  unfold kroot in Hc. rewrite ptov_vtop in Hc by done. by rewrite Hc.
Qed.
