(* ===== verification/VmmClone.v ===== *)
(** * Copying a user address space

    [clone_user_pml4] of [src/kernel/arch/x64/memory/vmm.cpp]: the nested loops build a tree with the
    same mappings over fresh frames that hold the same contents, and leave the source alone. *)

From stdpp Require Import functions.
From S2P Require Import Prelude Cpu Spinlock Pmm Vmm VmmTree VmmProofs VmmFree VmmSpace.

(** Entry [i] of the page table [l] of [q] in [s'] is a copy of that of [r] in [s]. *)
Definition mirror (s s' : vmm) (q r : Z) (l : list Z) (i : Z) : Prop :=
  match leaf (phys s) r l i with
  | None => leaf (phys s') q l i = None
  | Some w => ∃ f, leaf (phys s') q l i = Some (Entry.set_addr (Z.shiftr f 12) w) ∧ page_ok f ∧
      frame_free (vm_pmm s) (frame_at f) = true ∧
      ∀ j, idx_ok j → phys s' (f + 8 * j) = phys s (Entry.frame_of w + 8 * j)
  end.

(** [F] are pages of the tree of [r] on the paths [C]. *)
Definition nodes_on (D : domain) (s : vmm) (r : Z) (C : list Z → bool) (F : list Z) : Prop :=
  NoDup F ∧ ∀ f, f ∈ F → ∃ l, D r l ∧ C l = true ∧ walk (phys s) r l = Some f.

(** There is a free frame for every page and table of [r] on the paths [C]. *)
Definition enough (D : domain) (s : vmm) (r : Z) (C : list Z → bool) : Prop :=
  ∀ F, nodes_on D s r C F → (length F ≤ avail (vm_pmm s))%nat.

(** The paths [C] of [r] have been copied to [q]. *)
Record copied (D : domain) (s s' : vmm) (q r : Z) (C : list Z → bool) : Prop := {
  cp_ok : vm_ok D s';
  cp_keeps : keeps s s';
  cp_free g : 0 ≤ g → frame_free (vm_pmm s') g = true → frame_free (vm_pmm s) g = true;
  cp_avail : ∃ F, nodes_on D s r C F ∧ (avail (vm_pmm s) ≤ length F + avail (vm_pmm s'))%nat;
  cp_old r' l : D r' l → r' ≠ q →
    walk (phys s') r' l = walk (phys s) r' l ∧ same_page s s' r' l;
  cp_walk l : D q l → C l = false → walk (phys s') q l = walk (phys s) q l;
  cp_word l i : D q (l ++ [i]) → C l = false → C (l ++ [i]) = false →
    word (phys s') q l i = word (phys s) q l i;
  cp_page l : D q l → length l = 4%nat → C l = false → same_page s s' q l;
  cp_in l i : D q (l ++ [i]) → length l = 3%nat → C (l ++ [i]) = true → mirror s s' q r l i;
  cp_new l t : D q l → walk (phys s') q l = Some t →
    walk (phys s) q l = Some t ∨ frame_free (vm_pmm s) (frame_at t) = true;
  cp_mem a : 0 ≤ a → frame_free (vm_pmm s) (frame_at a) = false →
    (∀ l t i, D q (l ++ [i]) → walk (phys s) q l = Some t → a ≠ t + 8 * i) →
    phys s' a = phys s a;
}.

Lemma leaf_walk m r l i w : leaf m r l i = Some w → walk m r (l ++ [i]) = Some (Entry.frame_of w).
Proof.
  rewrite walk_word. unfold leaf. destruct (word m r l i) as [w'|]; [|done]. cbn. unfold target.
  destruct (Entry.present w'); [by intros [= ->] | done].
Qed.

Lemma leaf_none m r l i : walk m r (l ++ [i]) = None → leaf m r l i = None.
Proof.
  rewrite walk_word. unfold leaf. destruct (word m r l i) as [w'|]; [|done]. cbn. unfold target.
  by destruct (Entry.present w').
Qed.

Lemma copied_nil D s q r C : vm_ok D s →
  (∀ l, D r l → C l = true → walk (phys s) r l = None) →
  (∀ l, D q l → C l = true → walk (phys s) q l = None ∧ D r l) →
  copied D s s q r C.
Proof.
  intros Hok Hr Hq. split; try done.
  - exists []. split; [|cbn; lia]. split; [constructor|]. by intros f ?%not_elem_of_nil.
  - intros l i HD Hl HC. destruct (Hq _ HD HC) as [Hwq HDr]. unfold mirror.
    by rewrite (leaf_none _ r), (leaf_none _ q) by auto.
  - by left.
Qed.

Lemma same_page_leaf D s s' r l i : D r l → same_page s s' r l → idx_ok i →
  walk (phys s') r l = walk (phys s) r l → leaf (phys s') r l i = leaf (phys s) r l i.
Proof.
  intros HD Hp Hi Hw. unfold leaf, word. rewrite Hw.
  destruct (walk (phys s) r l) as [t|] eqn:He; [|done]. cbn.
  by rewrite (proj2 (Hp t He) i Hi).
Qed.

(** Copying [C1] and then [C2]. *)
Section copied_trans.
Context (D : domain) `{!Closed D} (s1 s2 s3 : vmm) (q r : Z) (C1 C2 : list Z → bool).
Hypothesis Hqr : q ≠ r.
Hypothesis Hsame : ∀ l, D q l ↔ D r l.
Hypothesis Hok : vm_ok D s1.
Hypothesis H1 : copied D s1 s2 q r C1.
Hypothesis H2 : copied D s2 s3 q r C2.
Hypothesis Hdisj : ∀ l, C1 l = true → C2 l = false.
(** [C2] does not reach above [C1]. *)
Hypothesis Hup : ∀ l i, C1 (l ++ [i]) = true → C2 l = false.

Lemma copied_source l i : D r (l ++ [i]) → length l = 3%nat →
  leaf (phys s2) r l i = leaf (phys s1) r l i.
Proof.
  intros HD Hl. assert (D r l) by (by eapply closed_prefix).
  destruct (cp_old _ _ _ _ _ _ H1 r l) as [Hw Hp]; [done..|].
  apply (same_page_leaf D); try done. by eapply closed_idx.
Qed.

Lemma copied_contents l i w j : D r (l ++ [i]) → leaf (phys s1) r l i = Some w → idx_ok j →
  phys s2 (Entry.frame_of w + 8 * j) = phys s1 (Entry.frame_of w + 8 * j).
Proof.
  intros HD Hw Hj. apply leaf_walk in Hw.
  destruct (cp_old _ _ _ _ _ _ H1 r (l ++ [i])) as [_ Hp]; [done..|]. by apply Hp.
Qed.

Lemma mirror_first l i : D q (l ++ [i]) → length l = 3%nat → C1 (l ++ [i]) = true →
  mirror s1 s3 q r l i.
Proof.
  intros HD Hl HC. pose proof (cp_in _ _ _ _ _ _ H1 l i HD Hl HC) as Hm. unfold mirror in *.
  assert (leaf (phys s3) q l i = leaf (phys s2) q l i) as Heq.
  { unfold leaf. rewrite (cp_word _ _ _ _ _ _ H2 l i); eauto. }
  destruct (leaf (phys s1) r l i) as [w|] eqn:Hw; [|congruence].
  destruct Hm as (f & Hf & Hpf & Hfree & Hcont). exists f. split_and!; [congruence|done|done|].
  intros j Hj. rewrite <- Hcont by done.
  assert (Entry.present w = true) as Hpw.
  { unfold leaf in Hw. destruct (word (phys s1) r l i) as [w'|]; [|done]. cbn in Hw.
    destruct (Entry.present w') eqn:?; [congruence|done]. }
  apply leaf_walk in Hf. rewrite (target_frame _ f) in Hf by (by apply target_set_addr).
  eapply (cp_page _ _ _ _ _ _ H2 (l ++ [i])); try done; [rewrite length_app; cbn; lia | eauto].
Qed.

Lemma mirror_second l i : D q (l ++ [i]) → length l = 3%nat → C2 (l ++ [i]) = true →
  mirror s1 s3 q r l i.
Proof.
  intros HD Hl HC. pose proof (cp_in _ _ _ _ _ _ H2 l i HD Hl HC) as Hm. unfold mirror in *.
  assert (D r (l ++ [i])) as HDr by (by apply Hsame). rewrite copied_source in Hm by done.
  destruct (leaf (phys s1) r l i) as [w|] eqn:Hw; [|done].
  destruct Hm as (f & Hf & Hpf & Hfree & Hcont). exists f. split_and!; try done.
  - apply (cp_free _ _ _ _ _ _ H1); [by apply frame_at_nonneg|done].
  - intros j Hj. rewrite Hcont by done. by apply (copied_contents l i).
Qed.

Lemma copied_avail : ∃ F, nodes_on D s1 r (λ l, C1 l || C2 l) F ∧
  (avail (vm_pmm s1) ≤ length F + avail (vm_pmm s3))%nat.
Proof.
  destruct (cp_avail _ _ _ _ _ _ H1) as (F1 & [Hn1 Hf1] & Ha1).
  destruct (cp_avail _ _ _ _ _ _ H2) as (F2 & [Hn2 Hf2] & Ha2).
  exists (F1 ++ F2). split; [|rewrite length_app; lia]. 
  assert (∀ f, f ∈ F2 → ∃ l, D r l ∧ C2 l = true ∧ walk (phys s1) r l = Some f) as Hf2'.
  { intros f Hf. destruct (Hf2 f Hf) as (l & HD & HC & Hw). exists l. split_and!; [done..|].
    by rewrite <- (proj1 (cp_old _ _ _ _ _ _ H1 r l HD (not_eq_sym Hqr))). }
  split.
  - apply NoDup_app. split_and!; [done| |done]. intros f Hin1 Hin2.
    destruct (Hf1 f Hin1) as (l1 & HD1 & HC1 & Hw1). destruct (Hf2' f Hin2) as (l2 & HD2 & HC2 & Hw2).
    destruct (f_inj D _ (ok_forest D s1 Hok) r l1 r l2 f) as [_ ->]; [done..|].
    by rewrite Hdisj in HC2.
  - intros f [Hf|Hf]%elem_of_app.
    + destruct (Hf1 f Hf) as (l & HD & HC & Hw). exists l. by rewrite HC.
    + destruct (Hf2' f Hf) as (l & HD & HC & Hw). exists l. by rewrite HC, orb_true_r.
Qed.

Lemma copied_new l t : D q l → walk (phys s3) q l = Some t →
  walk (phys s1) q l = Some t ∨ frame_free (vm_pmm s1) (frame_at t) = true.
Proof.
  intros HD Hw. destruct (cp_new _ _ _ _ _ _ H2 l t HD Hw) as [Hw2|Hf].
  - by apply (cp_new _ _ _ _ _ _ H1).
  - right. apply (cp_free _ _ _ _ _ _ H1); [|done]. apply frame_at_nonneg.
    eapply (f_page D); [apply (cp_ok _ _ _ _ _ _ H2)|done|done].
Qed.

Lemma copied_mem a : 0 ≤ a → frame_free (vm_pmm s1) (frame_at a) = false →
  (∀ l t i, D q (l ++ [i]) → walk (phys s1) q l = Some t → a ≠ t + 8 * i) →
  phys s3 a = phys s1 a.
Proof.
  intros Ha Hu Hno. rewrite (cp_mem _ _ _ _ _ _ H2), (cp_mem _ _ _ _ _ _ H1); try done.
  - destruct (frame_free (vm_pmm s2) (frame_at a)) eqn:Hf; [|done].
    apply (cp_free _ _ _ _ _ _ H1) in Hf; [congruence|]. unfold frame_at, FRAME_SIZE. lia.
  - intros l t i HD Hw ->. assert (D q l) by (by eapply closed_prefix).
    destruct (cp_new _ _ _ _ _ _ H1 l t) as [Hw1|Hf]; [done|done|by eapply Hno|].
    assert (page_ok t) by (eapply (f_page D); [apply (cp_ok _ _ _ _ _ _ H1)|done|done]).
    rewrite frame_word in Hu by (done || by eapply closed_idx). congruence.
Qed.

Lemma copied_trans : copied D s1 s3 q r (λ l, C1 l || C2 l).
Proof.
  split.
  - apply H2.
  - etrans; [apply H1|apply H2].
  - intros g Hg Hf. by apply H1, H2.
  - apply copied_avail.
  - intros r' l HD Hne. destruct (cp_old _ _ _ _ _ _ H1 r' l) as [Hw1 Hp1]; [done..|].
    destruct (cp_old _ _ _ _ _ _ H2 r' l) as [Hw2 Hp2]; [done..|].
    split; [congruence|]. by eapply same_page_trans.
  - intros l HD [HC1 HC2]%orb_false_iff.
    by rewrite (cp_walk _ _ _ _ _ _ H2), (cp_walk _ _ _ _ _ _ H1).
  - intros l i HD [HC1 HC2]%orb_false_iff [HC1' HC2']%orb_false_iff.
    by rewrite (cp_word _ _ _ _ _ _ H2), (cp_word _ _ _ _ _ _ H1).
  - intros l HD Hl [HC1 HC2]%orb_false_iff. eapply same_page_trans.
    + by apply (cp_page _ _ _ _ _ _ H1).
    + by apply (cp_page _ _ _ _ _ _ H2).
  - intros l i HD Hl [HC|HC]%orb_true_iff; [by apply mirror_first | by apply mirror_second].
  - apply copied_new.
  - apply copied_mem.
Qed.
End copied_trans.

Lemma copied_ext D s s' q r C C' : (∀ l, C l = C' l) → copied D s s' q r C → copied D s s' q r C'.
Proof.
  intros HC [Hok Hk Hf (F & [Hnd HF] & Ha) Hold Hw Hwd Hp Hin Hnew Hmem]. split; try done.
  - exists F. split; [|done]. split; [done|]. intros f Hfin. destruct (HF f Hfin) as (l & ? & ? & ?).
    exists l. by rewrite <- HC.
  - intros l HD HC'. apply Hw; [done|]. by rewrite HC.
  - intros l i HD HC1 HC2. apply Hwd; by rewrite ?HC.
  - intros l HD Hl HC'. apply Hp; [done..|]. by rewrite HC.
  - intros l i HD Hl HC'. apply Hin; [done..|]. by rewrite HC.
Qed.

Lemma enough_mono D s r (C C' : list Z → bool) : (∀ l, C' l = true → C l = true) →
  enough D s r C → enough D s r C'.
Proof.
  intros HC He F [Hnd HF]. apply He. split; [done|]. intros f Hf.
  destruct (HF f Hf) as (l & ? & ? & ?). exists l. auto.
Qed.

Lemma enough_one D s r C l f : enough D s r C → D r l → C l = true → walk (phys s) r l = Some f →
  (0 < avail (vm_pmm s))%nat.
Proof.
  intros He HD HC Hw. apply (He [f]). split; [by apply NoDup_singleton|].
  intros f' ->%list_elem_of_singleton. by exists l.
Qed.

(** What is left after [C1] has been copied is enough for [C2]. *)
Lemma enough_rest D s s' q r C1 C2 : q ≠ r → vm_ok D s → copied D s s' q r C1 →
  (∀ l, C1 l = true → C2 l = false) →
  enough D s r (λ l, C1 l || C2 l) → enough D s' r C2.
Proof.
  intros Hqr Hok H1 Hdisj He F2 [Hnd2 HF2].
  destruct (cp_avail _ _ _ _ _ _ H1) as (F1 & [Hnd1 HF1] & Ha).
  assert (∀ f, f ∈ F2 → ∃ l, D r l ∧ C2 l = true ∧ walk (phys s) r l = Some f) as HF2'.
  { intros f Hf. destruct (HF2 f Hf) as (l & HD & HC & Hw). exists l. split_and!; [done..|].
    by rewrite <- (proj1 (cp_old _ _ _ _ _ _ H1 r l HD (not_eq_sym Hqr))). }
  specialize (He (F1 ++ F2)). rewrite length_app in He.
  assert (length F1 + length F2 ≤ avail (vm_pmm s))%nat; [|lia]. apply He. split.
  - apply NoDup_app. split_and!; [done| |done]. intros f Hin1 Hin2.
    destruct (HF1 f Hin1) as (l1 & HD1 & HC1 & Hw1). destruct (HF2' f Hin2) as (l2 & HD2 & HC2 & Hw2).
    destruct (f_inj D _ (ok_forest D s Hok) r l1 r l2 f) as [_ ->]; [done..|].
    by rewrite Hdisj in HC2.
  - intros f [Hf|Hf]%elem_of_app.
    + destruct (HF1 f Hf) as (l & HD & HC & Hw). exists l. by rewrite HC.
    + destruct (HF2' f Hf) as (l & HD & HC & Hw). exists l. by rewrite HC, orb_true_r.
Qed.

(** Attaching one fresh page to [q] is copying one path. *)
Lemma attach_copied D `{!Closed D} s s' q r l t i f fsrc :
  q ≠ r → vm_ok D s → keeps s s' → wf (vm_pmm s') →
  D q (l ++ [i]) → D r (l ++ [i]) → walk (phys s) q l = Some t →
  page_ok f → frame_ok (frame_at f) → frame_free (vm_pmm s) (frame_at f) = true →
  (∀ g, 0 ≤ g → frame_free (vm_pmm s') g = if frame_at f =? g then false
                                           else frame_free (vm_pmm s) g) →
  avail (vm_pmm s) = S (avail (vm_pmm s')) →
  next (phys s') t i = Some f → (∀ a, a ≠ t + 8 * i → ¬ in_page f a → phys s' a = phys s a) →
  (∀ j, D q (l ++ [i; j]) → next (phys s') f j = None) → next (phys s) t i = None →
  walk (phys s) r (l ++ [i]) = Some fsrc → (length l = 3%nat → mirror s s' q r l i) →
  copied D s s' q r (is_path (l ++ [i])).
Proof.
  intros Hqr Hok Hk Hwf HDq HDr Hw Hf Hfok Hfree Hfr Hav Hnext Hm Hbelow Hbefore Hsrc Hmir.
  assert (D q l) as HD by (by eapply closed_prefix).
  assert (idx_ok i) as Hi by (by eapply closed_idx).
  pose proof (fresh_not_node D s f Hok Hfree) as Hfresh.
  assert (∀ g, 0 ≤ g → frame_free (vm_pmm s') g = true → frame_free (vm_pmm s) g = true) as Hmono.
  { intros g Hg. rewrite Hfr by done. by destruct (frame_at f =? g). }
  assert (frame_free (vm_pmm s') (frame_at f) = false) as Hused.
  { rewrite Hfr, Z.eqb_refl by (by apply frame_at_nonneg). done. }
  pose proof (attach_state_walk D s s' q l t i f Hok HD Hw Hi Hf Hfresh Hnext Hm Hbelow
    (λ _ _, Hbefore)) as Hwalk.
  pose proof (attach_words D s s' t i f Hok Hf Hfresh Hm) as Hwords.
  assert (∀ r' l', D r' l' → ¬ (r' = q ∧ l' = l ++ [i]) → ¬ (r' = q ∧ l' = l) →
    same_page s s' r' l') as Hpage.
  { intros r' l' HD' Hne Hne' t' Hw'. split; [by rewrite Hwalk, decide_False by done|].
    intros j Hj. apply (Hwords r' l' t' j); [done..|]. intros Heq.
    apply word_addr_inj in Heq as [-> _];
      [|eapply f_page; [apply Hok| |done]; done..|done|done].
    apply Hne'. by destruct (f_inj D _ (ok_forest D s Hok) r' l' q l t) as [-> ->]. }
  split.
  - by apply (attach_state_ok D s s' q l t i f).
  - done.
  - done.
  - exists [fsrc]. split; [|cbn; lia]. split; [by apply NoDup_singleton|].
    intros f' ->%list_elem_of_singleton. exists (l ++ [i]). unfold is_path.
    by rewrite bool_decide_true.
  - intros r' l' HD' Hne. split; [by rewrite Hwalk, decide_False by (done || by intros [-> _])|].
    apply Hpage; [done|by intros [-> _]..].
  - intros l' HD' HC%bool_decide_eq_false. rewrite Hwalk, decide_False; [done| |done].
    by intros [_ ->].
  - intros l' i' HD' HC%bool_decide_eq_false HC'%bool_decide_eq_false. unfold word.
    assert (D q l') by (by eapply closed_prefix).
    rewrite Hwalk, decide_False; [|by intros [_ ->]|done].
    destruct (walk (phys s) q l') as [t'|] eqn:Hw'; [|done]. cbn. f_equal.
    apply (Hwords q l' t' i'); [done|done|by eapply closed_idx|]. intros Heq.
    apply word_addr_inj in Heq as [-> ->];
      [|eapply f_page; [apply Hok| |done]; done..|by eapply closed_idx|done].
    by destruct (f_inj D _ (ok_forest D s Hok) q l' q l t) as [_ ->].
  - intros l' HD' Hl' HC%bool_decide_eq_false. apply Hpage; [done|by intros [_ ->]|].
    intros [_ ->]. apply closed_len in HDq. rewrite length_app in HDq. cbn in HDq. lia.
  - intros l' i' HD' Hl' HC%bool_decide_eq_true. apply app_inj_2 in HC as [-> [= ->]]; [|done].
    by apply Hmir.
  - intros l' t' HD'. rewrite Hwalk by done. case_decide; [|by left]. intros [= <-]. by right.
  - intros a Ha Hu Hno. apply Hm; [by apply (Hno l)|]. intros Hp.
    rewrite (in_page_frame f a) in Hu by done. congruence.
Qed.

Lemma copy_page_entries to from : copy_page to from = copy_entries to from 0.
Proof.
  unfold copy_page, copy_entries. assert (PAGE_SIZE / 8 = NUM_PT_ENTRIES - 0) as -> by done. done.
Qed.

Lemma copy_page_run s dst src : page_ok dst → page_ok src → dst ≠ src →
  ∃ m', copy_page (hhdm_ptov s dst) (hhdm_ptov s src) s = Ok (with_phys m' s, ()) ∧
    (∀ i, idx_ok i → m' (dst + 8 * i) = phys s (src + 8 * i)) ∧
    (∀ a, ¬ in_page dst a → m' a = phys s a).
Proof.
  intros Hd Hs Hne. destruct (copy_entries_run s dst src 0) as (m' & Hrun & Hin & Hout); [done..|].
  rewrite copy_page_entries. exists m'. split; [exact Hrun|]. clear Hrun. split; [done|].
  intros a Ha. apply Hout. intros i Hi ->. apply Ha. by exists i.
Qed.

#[local] Opaque copy_page.

(** The body of the innermost loop: a fresh frame with the contents of the source page. *)
Lemma clone_page_run D `{!Closed D} s q r l t' t i w :
  q ≠ r → vm_ok D s → D q (l ++ [i]) → D r (l ++ [i]) → length l = 3%nat →
  walk (phys s) q l = Some t' → walk (phys s) r l = Some t → next (phys s) t' i = None →
  phys s (t + 8 * i) = w → Entry.present w = true → (0 < avail (vm_pmm s))%nat →
  ∃ s', clone_page (hhdm_ptov s t') (hhdm_ptov s t) i s = Ok (s', ()) ∧
    copied D s s' q r (is_path (l ++ [i])).
Proof.
  intros Hqr Hok HDq HDr Hl Hwq Hwr Hnone Hw Hp Hav.
  assert (D q l ∧ D r l) as [HDq0 HDr0] by (split; by eapply closed_prefix).
  assert (idx_ok i) as Hi by (by eapply closed_idx).
  pose proof (f_page D _ (ok_forest D s Hok) q l t' HDq0 Hwq) as Ht'.
  pose proof (f_page D _ (ok_forest D s Hok) r l t HDr0 Hwr) as Ht.
  assert (t' ≠ t) as Hne.
  { intros ->. destruct (f_inj D _ (ok_forest D s Hok) q l r l t) as [-> _]; done. }
  set (fs := Entry.frame_of w).
  assert (page_ok fs) as Hfs by apply frame_of_page.
  assert (next (phys s) t i = Some fs) as Hnr by (unfold next, target; by rewrite Hw, Hp).
  assert (walk (phys s) r (l ++ [i]) = Some fs) as Hwfs by (by rewrite walk_snoc, Hwr).
  destruct (vm_alloc_run s) as (f & p' & Halloc & Hwfp & Hrest & Hf & Hfok & Hfree & Hcnt & Hfr);
    [apply Hok|done|].
  assert (∀ a, frame_free (vm_pmm s) (frame_at a) = false → a ≠ f) as Hnf by congruence.
  assert (f ≠ fs) as Hffs.
  { apply not_eq_sym, Hnf. by apply (ok_used D s Hok r (l ++ [i])). }
  assert (t' ≠ fs) as Htfs.
  { intros ->. destruct (f_inj D _ (ok_forest D s Hok) q l r (l ++ [i]) fs) as [-> _]; done. }
  assert (t' ≠ f) as Htf by (apply Hnf; by apply (ok_used D s Hok q l)).
  set (w' := Entry.set_addr (Z.shiftr f 12) w).
  assert (target w' = Some f) as Htw by (by apply target_set_addr).
  set (s2 := with_phys (<[t' + 8 * i := w']> (<[t' + 8 * i := w]> (phys s))) (with_pmm p' s)).
  destruct (copy_page_run s2 f fs) as (m' & Hcopy & Hin & Hout); [done..|].
  exists (with_phys m' s2). split.
  { unfold clone_page, mbind, M_bind. rewrite Halloc.
    change (hhdm_ptov s t) with (hhdm_ptov (with_pmm p' s) t).
    change (hhdm_ptov s t') with (hhdm_ptov (with_pmm p' s) t').
    rewrite load_run, store_run by done. cbn [phys with_pmm]. rewrite Hw.
    match goal with |- context [with_phys ?m ?st] => set (s1 := with_phys m st) end.
    change (hhdm_ptov (with_pmm p' s) t') with (hhdm_ptov s1 t').
    rewrite store_run by done. fold w'. change (with_phys _ s1) with s2.
    change (hhdm_ptov (with_pmm p' s) t) with (hhdm_ptov s2 t).
    change (hhdm_ptov s1 t') with (hhdm_ptov s2 t').
    rewrite !get_table_run by done. cbn [phys with_phys s2].
    assert (t' + 8 * i ≠ t + 8 * i) as Hne' by lia.
    rewrite fn_insert_eq, 2!(fn_insert_ne _ _ (t + 8 * i)) by exact Hne'.
    rewrite Hw. fold fs. rewrite (target_frame w' f Htw). exact Hcopy. }
  clear Hcopy Halloc.
  assert (m' (t' + 8 * i) = w') as Hent.
  { rewrite Hout; [cbn; by rewrite fn_insert_eq|]. intros (j & Hj & Heq).
    apply word_addr_inj in Heq as [Heq _]; done. }
  assert (walk m' q l = Some t') as Hwalkq.
  { rewrite (walk_write D (phys s) m' q l t' i); try done; [apply Hok| |].
    - intros r' l' t2 i' HD' Hw' Hi' Hne'. rewrite Hout; [cbn; by rewrite !fn_insert_ne|].
      intros (j & Hj & Heq).
      apply word_addr_inj in Heq as [-> _]; try done; [|by eapply f_page; [apply Hok|..]].
      by eapply (fresh_not_node D s f).
    - split; [done|]. intros [_ Hpre%prefix_length]. rewrite length_app in Hpre. cbn in Hpre. lia. }
  apply (attach_copied D s _ q r l t' i f fs); try done.
  - by apply rest_same_keeps.
  - unfold next. cbn. by rewrite Hent.
  - intros a Ha Hpa. cbn. rewrite Hout by done. cbn. by rewrite !fn_insert_ne.
  - intros j Hj%closed_len. rewrite length_app in Hj. cbn in Hj. lia.
  - intros _. unfold mirror, leaf, word. cbn [phys with_phys].
    rewrite Hwr. cbn [mbind option_bind]. rewrite Hw, Hp. exists f. split_and!; try done.
    + rewrite Hwalkq. cbn. rewrite Hent. by rewrite (target_present w' f).
    + intros j Hj. rewrite Hin by done. cbn. rewrite !fn_insert_ne; [done|..];
        intros Heq; by apply word_addr_inj in Heq as [? _].
Qed.

(** [ensure_*_present] on a missing entry copies one table. *)
Lemma clone_table_run D `{!Closed D} s q r l t i bits fsrc :
  q ≠ r → points_to bits → vm_ok D s → D q (l ++ [i]) → D r (l ++ [i]) → (length l ≤ 2)%nat →
  walk (phys s) q l = Some t → next (phys s) t i = None →
  walk (phys s) r (l ++ [i]) = Some fsrc → (0 < avail (vm_pmm s))%nat →
  ∃ f s', ensure_present bits (at_index (hhdm_ptov s t) i) PAGE_USER s = Ok (s', hhdm_ptov s f) ∧
    copied D s s' q r (is_path (l ++ [i])) ∧ walk (phys s') q (l ++ [i]) = Some f ∧
    ∀ j, idx_ok j → phys s' (f + 8 * j) = 0.
Proof.
  intros Hqr Hbits Hok HDq HDr Hl Hw Hnone Hsrc Hav.
  assert (D q l) as HD by (by eapply closed_prefix).
  assert (idx_ok i) as Hi by (by eapply closed_idx).
  pose proof (f_page D _ (ok_forest D s Hok) q l t HD Hw) as Ht.
  destruct (ensure_present_miss bits PAGE_USER s t i) as (f & p' & m' & Hrun & Hwfp & Hrest & Hf &
    Hfok & Hfree & Hcnt & Hfr & Hnext & Hzero & Hm);
    [done..|apply Hok|apply Hok|by apply (ok_used D s Hok q l)|done|done|].
  exists f, (with_phys m' (with_pmm p' s)). split; [exact Hrun|]. clear Hrun.
  assert (∀ j, D q (l ++ [i; j]) → next m' f j = None) as Hbelow.
  { intros j Hj. unfold next. rewrite Hzero; [done|]. eapply (closed_idx q (l ++ [i])).
    by rewrite <- app_assoc. }
  assert (copied D s (with_phys m' (with_pmm p' s)) q r (is_path (l ++ [i]))) as Hcp.
  { apply (attach_copied D s _ q r l t i f fsrc); try done; [by apply rest_same_keeps|lia]. }
  split; [done|]. split; [|done]. cbn [phys with_phys].
  rewrite walk_snoc, <- (cp_walk _ _ _ _ _ _ Hcp l HD) in *.
  - cbn [phys with_phys] in Hw. rewrite Hw. exact Hnext.
  - unfold is_path. apply bool_decide_eq_false. intros Heq%(f_equal length).
    rewrite length_app in Heq. cbn in Heq. lia.
Qed.

(** [op] copies everything below the table at [l]. *)
Definition clones (D : domain) (q r : Z) (n : nat) (op : Z → Z → M vmm unit) : Prop :=
  ∀ s l t' t, vm_ok D s → D q l → length l = n →
    walk (phys s) q l = Some t' → walk (phys s) r l = Some t →
    (∀ l', D q l' → strictly_below l l' = true → walk (phys s) q l' = None) →
    enough D s r (strictly_below l) →
    ∃ s', op (hhdm_ptov s t') (hhdm_ptov s t) s = Ok (s', ()) ∧
      copied D s s' q r (strictly_below l).

(** The body of a middle loop: make the table, then copy what is below it. *)
Lemma clone_child D `{!Closed D} q r l t' t i f bits op s :
  q ≠ r → (∀ l, D q l ↔ D r l) → points_to bits → clones D q r (S (length l)) op →
  vm_ok D s → D q (l ++ [i]) → (length l ≤ 2)%nat →
  walk (phys s) q l = Some t' → walk (phys s) r l = Some t → next (phys s) t i = Some f →
  (∀ l', D q l' → starts (l ++ [i]) l' = true → walk (phys s) q l' = None) →
  enough D s r (starts (l ++ [i])) →
  ∃ s', (x ← ensure_present bits (at_index (hhdm_ptov s t') i) PAGE_USER;
         y ← get_table (at_index (hhdm_ptov s t) i);
         op x y) s = Ok (s', ()) ∧ copied D s s' q r (starts (l ++ [i])).
Proof.
  intros Hqr Hsame Hbits Hop Hok HDq Hl Hwq Hwr Hn Hnone Hen.
  assert (D r (l ++ [i])) as HDr by (by apply Hsame).
  assert (D q l ∧ D r l) as [HDq0 HDr0] by (split; by eapply closed_prefix).
  assert (idx_ok i) as Hi by (by eapply closed_idx).
  pose proof (f_page D _ (ok_forest D s Hok) r l t HDr0 Hwr) as Ht.
  assert (walk (phys s) r (l ++ [i]) = Some f) as Hwf by (by rewrite walk_snoc, Hwr).
  assert (starts (l ++ [i]) (l ++ [i]) = true) as Hself by (by apply bool_decide_eq_true).
  assert (next (phys s) t' i = None) as Hnq.
  { specialize (Hnone _ HDq Hself). by rewrite walk_snoc, Hwq in Hnone. }
  destruct (clone_table_run D s q r l t' i bits f) as (f' & s1 & Hrun & Hcp & Hwf' & Hzero);
    try done; [by apply (enough_one D s r (starts (l ++ [i])) (l ++ [i]) f)|].
  unfold mbind, M_bind. rewrite Hrun. clear Hrun.
  pose proof (cp_keeps _ _ _ _ _ _ Hcp) as Hk1. pose proof (cp_ok _ _ _ _ _ _ Hcp) as Hok1.
  destruct (cp_old _ _ _ _ _ _ Hcp r l HDr0 (not_eq_sym Hqr)) as [Hwr1 Hpr1].
  destruct (cp_old _ _ _ _ _ _ Hcp r (l ++ [i]) HDr (not_eq_sym Hqr)) as [Hwr1' _].
  rewrite <- (keeps_ptov s s1), get_table_run by done.
  rewrite (proj2 (Hpr1 t Hwr) i Hi), (target_frame _ f Hn), <- (keeps_ptov s s1 f') by done.
  assert (∀ l', is_path (l ++ [i]) l' = true → strictly_below (l ++ [i]) l' = false) as Hdisj.
  { intros l' Hp. unfold strictly_below. by rewrite Hp, andb_false_r. }
  destruct (Hop s1 (l ++ [i]) f' f) as (s2 & Hrun & Hcp2).
  { done. }
  { done. }
  { rewrite length_app. cbn. lia. }
  { done. }
  { by rewrite Hwr1'. }
  { intros l' HD' (j & k & ->)%strictly_below_cons. rewrite walk_app, Hwf'. cbn.
    unfold next. rewrite Hzero; [done|].
    apply (closed_idx q (l ++ [i])), (closed_app D q _ k). by rewrite <- !app_assoc in *. }
  { eapply (enough_rest D s s1 q r (is_path (l ++ [i]))); try done.
    eapply enough_mono; [|exact Hen]. intros l'. rewrite starts_split. by rewrite orb_comm. }
  exists s2. split; [done|].
  eapply copied_ext; [|apply (copied_trans D s s1 s2 q r _ _ Hqr Hsame Hok Hcp Hcp2 Hdisj)].
  - intros l'. by rewrite starts_split, orb_comm.
  - intros l' j Hp%bool_decide_eq_true. apply app_inj_2 in Hp as [-> _]; [|done].
    apply not_true_iff_false. intros (j' & k & Heq)%strictly_below_cons.
    apply (f_equal length) in Heq. rewrite !length_app in Heq. cbn in Heq. lia.
Qed.

(** ** The loops *)

Definition starts_any (l pre : list Z) (l' : list Z) : bool :=
  existsb (λ i, starts (l ++ [i]) l') pre.

Lemma starts_any_spec l pre l' : starts_any l pre l' = true ↔ ∃ i k, i ∈ pre ∧ l' = l ++ i :: k.
Proof.
  unfold starts_any. rewrite existsb_exists. split.
  - intros (i & Hi%list_elem_of_In & (k & ->)%starts_snoc). by exists i, k.
  - intros (i & k & Hi%list_elem_of_In & ->). exists i. split; [done|].
    apply bool_decide_eq_true. exists k. by rewrite <- app_assoc.
Qed.

Lemma starts_any_self l pre : starts_any l pre l = false.
Proof.
  apply not_true_iff_false. intros (i & k & _ & Heq)%starts_any_spec.
  apply (f_equal length) in Heq. rewrite length_app in Heq. cbn in Heq. lia.
Qed.

Lemma starts_any_other l pre i l' : i ∉ pre → starts_any l pre l' = true →
  starts (l ++ [i]) l' = false.
Proof.
  intros Hni (j & k & Hj & ->)%starts_any_spec. apply not_true_iff_false.
  intros (k' & Heq)%starts_snoc. apply app_inv_head in Heq. congruence.
Qed.

Section clone_loop.
Context (D : domain) `{!Closed D} (s : vmm) (q r : Z) (l : list Z) (t' t n : Z).
Context (body : Z → M vmm unit).
Hypothesis Hqr : q ≠ r.
Hypothesis Hsame : ∀ l, D q l ↔ D r l.
Hypothesis Hok : vm_ok D s.
Hypothesis HD : D q l.
Hypothesis Hwq : walk (phys s) q l = Some t'.
Hypothesis Hwr : walk (phys s) r l = Some t.
Hypothesis Hn : 0 ≤ n ≤ 512.
Hypothesis Hnone : ∀ l', D q l' → starts_any l (seqZ 0 n) l' = true → walk (phys s) q l' = None.
Hypothesis Hen : enough D s r (starts_any l (seqZ 0 n)).
Hypothesis Hbody : ∀ s' i f, vm_ok D s' → keeps s s' → 0 ≤ i < n →
  walk (phys s') q l = Some t' → walk (phys s') r l = Some t → next (phys s') t i = Some f →
  (∀ l', D q l' → starts (l ++ [i]) l' = true → walk (phys s') q l' = None) →
  enough D s' r (starts (l ++ [i])) →
  ∃ s'', body i s' = Ok (s'', ()) ∧ copied D s' s'' q r (starts (l ++ [i])).

Let loop := λ i, w ← load (at_index (hhdm_ptov s t) i);
  if Entry.present w then body i else mret ().

Lemma clone_loop_step pre i post s' : seqZ 0 n = pre ++ i :: post →
  copied D s s' q r (starts_any l pre) →
  ∃ s'', loop i s' = Ok (s'', ()) ∧ copied D s s'' q r (starts_any l (pre ++ [i])).
Proof.
  intros Hl Hcp.
  assert (i ∈ seqZ 0 n) as Hi'%elem_of_seqZ by (rewrite Hl; apply elem_snoc_mid, elem_snoc).
  assert (i ∉ pre) as Hni.
  { intros Hpre. pose proof (NoDup_seqZ 0 n) as Hnd. rewrite Hl in Hnd.
    apply NoDup_app in Hnd as (_ & Hnd & _). apply (Hnd i Hpre), elem_of_cons. by left. }
  assert (idx_ok i) as Hi by (unfold idx_ok; lia).
  pose proof (cp_keeps _ _ _ _ _ _ Hcp) as Hk. pose proof (cp_ok _ _ _ _ _ _ Hcp) as Hok'.
  assert (D r l) as HDr by (by apply Hsame).
  assert (walk (phys s') q l = Some t') as Hwq'.
  { rewrite (cp_walk _ _ _ _ _ _ Hcp l HD); [done|]. apply starts_any_self. }
  assert (walk (phys s') r l = Some t) as Hwr'.
  { by rewrite (proj1 (cp_old _ _ _ _ _ _ Hcp r l HDr (not_eq_sym Hqr))). }
  assert (∀ l', D q l' → starts (l ++ [i]) l' = true → walk (phys s') q l' = None) as Hnone'.
  { intros l' HD' Hst. rewrite (cp_walk _ _ _ _ _ _ Hcp l' HD').
    - apply Hnone; [done|]. apply starts_snoc in Hst as (k & ->). apply starts_any_spec.
      exists i, k. split; [|done]. apply elem_of_seqZ. lia.
    - apply not_true_iff_false. intros Hany. by rewrite (starts_any_other l pre i) in Hst. }
  assert (∃ s'', loop i s' = Ok (s'', ()) ∧ copied D s' s'' q r (starts (l ++ [i])))
    as (s'' & Hrun & Hcp').
  { unfold loop, mbind, M_bind. rewrite <- (keeps_ptov s s'), load_run
      by (done || exact (f_page D _ (ok_forest D s Hok) r l t HDr Hwr)).
    destruct (Entry.present (phys s' (t + 8 * i))) eqn:Hp.
    - apply (Hbody s' i (Entry.frame_of (phys s' (t + 8 * i)))); try done.
      + unfold next, target. by rewrite Hp.
      + apply (enough_rest D s s' q r (starts_any l pre)); try done.
        * intros l' Hany. by eapply starts_any_other.
        * eapply enough_mono; [|exact Hen]. intros l' [Hany|(k & ->)%starts_snoc]%orb_true_iff.
          -- apply starts_any_spec in Hany as (j & k & Hj & ->). apply starts_any_spec.
             exists j, k. split; [|done]. rewrite Hl. apply elem_of_app. by left.
          -- apply starts_any_spec. exists i, k. split; [|done]. apply elem_of_seqZ. lia.
    - exists s'. split; [done|]. apply copied_nil; [done| |].
      + intros l' HD' (k & ->)%starts_snoc. rewrite walk_app, Hwr'. cbn.
        unfold next, target. by rewrite Hp.
      + intros l' HD' Hst. split; [by apply Hnone' | by apply Hsame]. }
  exists s''. split; [done|].
  eapply copied_ext; [|eapply (copied_trans D s s' s'' q r (starts_any l pre)); try done].
  - intros l'. unfold starts_any. rewrite existsb_app. cbn. by rewrite orb_false_r.
  - intros l' Hany. by eapply starts_any_other.
  - intros l' j (j' & k & Hj' & Heq)%starts_any_spec. apply not_true_iff_false.
    intros (k' & ->)%starts_snoc. rewrite <- app_assoc in Heq. cbn in Heq.
    apply app_inv_head in Heq. congruence.
Qed.

Lemma clone_loop_run : ∃ s', for_present (hhdm_ptov s t) 0 n body s = Ok (s', ()) ∧
  copied D s s' q r (starts_any l (seqZ 0 n)).
Proof.
  unfold for_present. fold loop.
  assert (wp (for_each (seqZ 0 n) loop) False (λ _ s', copied D s s' q r
    (starts_any l (seqZ 0 n))) s) as Hwp.
  { apply (wp_for_each _ loop False (λ pre s', copied D s s' q r (starts_any l pre))).
    - intros pre i post s' Hl Hcp. destruct (clone_loop_step pre i post s' Hl Hcp) as (s'' & Hrun & H).
      unfold wp. by rewrite Hrun.
    - by apply copied_nil. }
  apply wp_total in Hwp as (s' & [] & Hrun & H). eauto.
Qed.
End clone_loop.

Lemma strictly_below_any D `{!Closed D} r l l' : D r l' →
  strictly_below l l' = starts_any l (seqZ 0 512) l'.
Proof. intros HD. by eapply strictly_below_exists. Qed.

Lemma copied_ext_dom D s s' q r C C' : (∀ l, D q l ↔ D r l) → (∀ l, D q l → C l = C' l) →
  (∀ l i, D q (l ++ [i]) → D q l) →
  copied D s s' q r C → copied D s s' q r C'.
Proof.
  intros Hsame HC Hpre [Hok Hk Hf (F & [Hnd HF] & Ha) Hold Hw Hwd Hp Hin Hnew Hmem].
  split; try done.
  - exists F. split; [|done]. split; [done|]. intros f Hfin. destruct (HF f Hfin) as (l & HD & ? & ?).
    exists l. rewrite <- HC by (by apply Hsame). done.
  - intros l HD HC'. apply Hw; [done|]. by rewrite HC.
  - intros l i HD HC1 HC2. apply Hwd; [done|rewrite HC; eauto..].
  - intros l HD Hl HC'. apply Hp; [done..|]. by rewrite HC.
  - intros l i HD Hl HC'. apply Hin; [done..|]. by rewrite HC.
Qed.

Section levels.
Context (D : domain) `{!Closed D} (q r : Z).
Hypothesis Hqr : q ≠ r.
Hypothesis Hsame : ∀ l, D q l ↔ D r l.
Hypothesis Hfull : full_below D q.

(** A level is the loop over all 512 entries. *)
Lemma clones_by_loop n body : (1 ≤ n ≤ 3)%nat →
  (∀ s l t' t i f, vm_ok D s → D q (l ++ [i]) → length l = n →
     walk (phys s) q l = Some t' → walk (phys s) r l = Some t → next (phys s) t i = Some f →
     (∀ l', D q l' → starts (l ++ [i]) l' = true → walk (phys s) q l' = None) →
     enough D s r (starts (l ++ [i])) →
     ∃ s', body (hhdm_ptov s t') (hhdm_ptov s t) i s = Ok (s', ()) ∧
       copied D s s' q r (starts (l ++ [i]))) →
  clones D q r n (λ a b, for_present b 0 NUM_PT_ENTRIES (body a b)).
Proof.
  intros Hn Hbody s l t' t Hok HD Hl Hwq Hwr Hnone Hen.
  assert (∀ i, 0 ≤ i < 512 → D q (l ++ [i])) as HDi.
  { intros i Hi. apply Hfull; [done|lia|done]. }
  destruct (clone_loop_run D s q r l t' t 512 (body (hhdm_ptov s t') (hhdm_ptov s t)))
    as (s' & Hrun & Hcp); try done.
  - intros l' HD' Hany. apply Hnone; [done|]. by rewrite (strictly_below_any D q).
  - intros F [Hnd HF]. apply Hen. split; [done|]. intros f Hf.
    destruct (HF f Hf) as (l' & HD' & Hany & Hw). exists l'.
    by rewrite (strictly_below_any D r).
  - intros s' i f Hok' Hk Hi Hwq' Hwr' Hn' Hnone' Hen'.
    rewrite <- (keeps_ptov s s' t'), <- (keeps_ptov s s' t) by done.
    by apply (Hbody s' l t' t i f); auto.
  - exists s'. split; [done|].
    eapply (copied_ext_dom D s s' q r _ _ Hsame); [|intros ??; apply closed_prefix|exact Hcp].
    intros l' HD'. symmetry. by apply (strictly_below_any D q).
Qed.

Lemma clones_pt : clones D q r 3 clone_pt.
Proof.
  apply (clones_by_loop 3 clone_page); [lia|].
  intros s l t' t i f Hok HD Hl Hwq Hwr Hn Hnone Hen.
  assert (starts (l ++ [i]) (l ++ [i]) = true) as Hself by (by apply bool_decide_eq_true).
  assert (D r (l ++ [i])) as HDr by (by apply Hsame).
  destruct (clone_page_run D s q r l t' t i (phys s (t + 8 * i))) as (s' & Hrun & Hcp); try done.
  - specialize (Hnone _ HD Hself). by rewrite walk_snoc, Hwq in Hnone.
  - by apply target_present in Hn.
  - apply (enough_one D s r (starts (l ++ [i])) (l ++ [i]) f); try done. by rewrite walk_snoc, Hwr.
  - exists s'. split; [exact Hrun|]. clear Hrun.
    eapply (copied_ext_dom D s s' q r _ _ Hsame); [|intros ??; apply closed_prefix|exact Hcp].
    intros l' HD'. rewrite starts_split. destruct (strictly_below (l ++ [i]) l') eqn:Hb; [|done].
    apply strictly_below_cons in Hb as (j & k & ->). apply closed_len in HD'.
    rewrite !length_app in HD'. cbn in HD'. lia.
Qed.

Lemma clones_pd : clones D q r 2 clone_pd.
Proof.
  apply (clones_by_loop 2 (λ new_pd pd i, new_pt ← ensure_pte_present (at_index new_pd i) PAGE_USER;
    pt ← get_table (at_index pd i); clone_pt new_pt pt)); [lia|].
  intros s l t' t i f Hok HD Hl Hwq Hwr Hn Hnone Hen.
  apply (clone_child D q r l t' t i f pde_bits clone_pt s); try done;
    [apply pde_points | rewrite Hl; apply clones_pt | lia].
Qed.

Lemma clones_pdpt : clones D q r 1 clone_pdpt.
Proof.
  apply (clones_by_loop 1 (λ new_pdpt pdpt i,
    new_pd ← ensure_pde_present (at_index new_pdpt i) PAGE_USER;
    pd ← get_table (at_index pdpt i); clone_pd new_pd pd)); [lia|].
  intros s l t' t i f Hok HD Hl Hwq Hwr Hn Hnone Hen.
  apply (clone_child D q r l t' t i f pdpte_bits clone_pd s); try done;
    [apply pdpte_points | rewrite Hl; apply clones_pd | lia].
Qed.
End levels.

(** ** The whole address space *)

Record cloned (D : domain) (s s' : vmm) (q r : Z) : Prop := {
  cl_ok : vm_ok (with_root D (get_kernel_pml4_index s) q) s';
  cl_not : ∀ l, ¬ D q l;
  cl_fresh : frame_free (vm_pmm s) (frame_at q) = true;
  (* the user half: the same mappings, over fresh frames with the same contents *)
  cl_user l i : user_path (get_kernel_pml4_index s) (l ++ [i]) → length l = 3%nat →
    mirror s s' q r l i;
  (* the kernel half: the same entries *)
  cl_kernel i : get_kernel_pml4_index s ≤ i < 512 → phys s' (q + 8 * i) = phys s (r + 8 * i);
  (* the source and the other address spaces *)
  cl_old r' l : D r' l → walk (phys s') r' l = walk (phys s) r' l ∧ same_page s s' r' l;
  cl_free g : 0 ≤ g → frame_free (vm_pmm s') g = true → frame_free (vm_pmm s) g = true;
  cl_avail : ∃ F, nodes_on D s r (λ _, true) F ∧ (avail (vm_pmm s) ≤ length F + avail (vm_pmm s'))%nat;
}.

Section clone_top.
Context (D : domain) `{!Closed D} (s s1 : vmm) (q r : Z).
Let ks := get_kernel_pml4_index s.
Let E := with_root D ks q.
Hypothesis Hok : vm_ok D s.
Hypothesis Hr : ∀ l, D r l ↔ user_path ks l.
Hypothesis Hen : enough D s r (λ _, true).
Hypothesis Hn : new_root D s s1 q r.

Lemma clone_top_ne : q ≠ r.
Proof. intros ->. apply (nr_not _ _ _ _ _ Hn []). apply Hr. apply user_path_nil. Qed.

Lemma clone_top_same l : E q l ↔ E r l.
Proof.
  unfold E, with_root. pose proof (nr_not _ _ _ _ _ Hn l). pose proof clone_top_ne.
  rewrite Hr. split; [by intros [?|[_ ?]]; [|left] | by intros [?|[? ?]]; [right|]].
Qed.

Lemma clone_top_user l : E q l ↔ user_path ks l.
Proof.
  unfold E, with_root. pose proof (nr_not _ _ _ _ _ Hn l).
  split; [by intros [?|[_ ?]] | by right].
Qed.

Lemma clone_top_full : full_below E q.
Proof.
  intros l i HD%clone_top_user Hl Hi. apply clone_top_user. by apply user_path_extend.
Qed.

Lemma clone_top_nodes F : nodes_on E s1 r (starts_any [] (seqZ 0 ks)) F → nodes_on D s r (λ _, true) (F ++ [r]).
Proof.
  intros [Hnd HF].
  assert (∀ f, f ∈ F → ∃ l, D r l ∧ l ≠ [] ∧ walk (phys s) r l = Some f) as HF'.
  { intros f Hf. destruct (HF f Hf) as (l & HD & HC & Hw).
    assert (D r l) as HDr by (by apply Hr, clone_top_user, clone_top_same).
    exists l. split_and!; [done| |by rewrite <- (proj1 (nr_same _ _ _ _ _ Hn r l HDr))].
    intros ->. by rewrite starts_any_self in HC. }
  assert (D r []) as HD0 by (apply Hr, user_path_nil). split.
  - apply NoDup_app. split_and!; [done| |by apply NoDup_singleton].
    intros f Hf ->%list_elem_of_singleton. destruct (HF' r Hf) as (l & HD & Hne & Hw).
    by destruct (f_inj D _ (ok_forest D s Hok) r l r [] r) as [_ ->].
  - intros f [Hf|Hf%list_elem_of_singleton]%elem_of_app; [|subst; by exists []].
    destruct (HF' f Hf) as (l & HD & _ & Hw). by exists l.
Qed.

Lemma clone_top_enough : enough E s1 r (starts_any [] (seqZ 0 ks)).
Proof.
  intros F HF%clone_top_nodes. apply Hen in HF as Hlen. rewrite length_app in Hlen. cbn in Hlen.
  pose proof (nr_avail _ _ _ _ _ Hn). lia.
Qed.

Lemma clone_top_copied s2 : copied E s1 s2 q r (starts_any [] (seqZ 0 ks)) →
  cloned D s s2 q r.
Proof.
  intros Hcp. pose proof clone_top_ne as Hqr. pose proof (nr_keeps _ _ _ _ _ Hn) as Hk.
  assert (∀ r' l, D r' l → r' ≠ q) as Hnq by (intros r' l HD ->; by eapply (nr_not _ _ _ _ _ Hn)).
  assert (∀ g, 0 ≤ g → frame_free (vm_pmm s1) g = true → frame_free (vm_pmm s) g = true) as Hfree.
  { intros g Hg. rewrite (nr_free _ _ _ _ _ Hn) by done. by destruct (frame_at q =? g). }
  assert (page_ok q) as Hq.
  { eapply (f_page E _ (ok_forest E s1 (nr_ok _ _ _ _ _ Hn)) q []); [|done].
    right. split; [done|apply user_path_nil]. }
  split.
  - apply Hcp.
  - apply Hn.
  - apply Hn.
  - intros l i Hu Hl. assert (E q (l ++ [i])) as HE by (by apply clone_top_user).
    assert (starts_any [] (seqZ 0 ks) (l ++ [i]) = true) as HC.
    { destruct Hu as (_ & _ & Hh). destruct l as [|h l]; [done|]. apply Forall_cons in Hh as [Hh _].
      apply starts_any_spec. exists h, (l ++ [i]). split; [|done]. apply elem_of_seqZ. lia. }
    pose proof (cp_in _ _ _ _ _ _ Hcp l i HE Hl HC) as Hm.
    assert (D r (l ++ [i])) as HDr by (by apply Hr).
    assert (D r l) as HDr0 by (by eapply closed_prefix).
    unfold mirror in *. destruct (nr_same _ _ _ _ _ Hn r l HDr0) as [Hw Hp].
    rewrite (same_page_leaf D s s1 r l i) in Hm; [|done|done|by eapply closed_idx|done].
    destruct (leaf (phys s) r l i) as [w|] eqn:Hlf; [|done].
    destruct Hm as (f & Hf & Hpf & Hff & Hcont). exists f. split_and!; try done.
    + apply Hfree; [by apply frame_at_nonneg|done].
    + intros j Hj. rewrite Hcont by done. apply leaf_walk in Hlf.
      by apply (nr_same _ _ _ _ _ Hn r (l ++ [i]) HDr).
  - intros i Hi. rewrite (cp_mem _ _ _ _ _ _ Hcp); [by apply Hn| | |].
    + unfold page_ok in Hq. pose proof (kernel_index_range s). lia.
    + rewrite frame_word; [|done|pose proof (kernel_index_range s); unfold idx_ok; lia].
      apply (ok_used E s1 (nr_ok _ _ _ _ _ Hn) q []); [|done]. right. split; [done|].
      apply user_path_nil.
    + intros l t i' HE Hw Heq. apply clone_top_user in HE as Hu.
      assert (E q l) as HE0 by (by eapply closed_prefix).
      apply word_addr_inj in Heq as [<- <-];
        [|done | by eapply (f_page E _ (ok_forest E s1 (nr_ok _ _ _ _ _ Hn)))
         | pose proof (kernel_index_range s); unfold idx_ok; lia | exact (closed_idx _ _ _ HE)].
      destruct (f_inj E _ (ok_forest E s1 (nr_ok _ _ _ _ _ Hn)) q l q [] q) as [_ ->]; try done.
      * by apply (closed_app E q [] l).
      * destruct Hu as (_ & _ & Hh). apply Forall_cons in Hh as [Hh _]. unfold ks in Hh. lia.
  - intros r' l HD. destruct (nr_same _ _ _ _ _ Hn r' l HD) as [Hw1 Hp1].
    destruct (cp_old _ _ _ _ _ _ Hcp r' l) as [Hw2 Hp2]; [by left|by eapply Hnq|].
    split; [congruence|]. by eapply same_page_trans.
  - intros g Hg Hf. by apply Hfree, Hcp.
  - destruct (cp_avail _ _ _ _ _ _ Hcp) as (F & HF & Hlen). exists (F ++ [r]). split; [by apply clone_top_nodes|].
    rewrite length_app. cbn. pose proof (nr_avail _ _ _ _ _ Hn). lia.
Qed.
End clone_top.

Lemma cloned_leave D c s s' q r :
  cloned D (vm_enter s) s' q r → cloned D s (vm_leave c s') q r.
Proof. intros []. split; try done. by apply vm_ok_lock. Qed.

Lemma clone_user_pml4_run D `{!Closed D} s r :
  vm_ok D s → is_free (g_vmm_lock s) →
  (∀ l, D r l ↔ user_path (get_kernel_pml4_index s) l) → enough D s r (λ _, true) →
  ∃ q s', clone_user_pml4 (hhdm_ptov s r) s = Ok (s', hhdm_ptov s q) ∧ restored s s' ∧
    kheap s' = kheap s ∧ cloned D s s' q r.
Proof.
  intros Hok0 Hlock Hr Hen.
  assert (vm_ok D (vm_enter s)) as Hok by (by apply vm_ok_lock).
  set (s0 := vm_enter s) in *. set (ks := get_kernel_pml4_index s) in *.
  assert (D r []) as HD0 by (apply Hr, user_path_nil).
  assert (page_ok r) as Hpr by (by apply (f_page D _ (ok_forest D s0 Hok) r [])).
  assert (0 < avail (vm_pmm s0))%nat as Hav by (by apply (enough_one D s r (λ _, true) [] r)).
  destruct (new_root_run D s0 r) as (q & p' & m1 & m' & Halloc & Hnz & Hz & Hc & Hn); try done.
  { by apply (ok_used D s0 Hok r []). }
  set (s1 := with_phys m' (with_pmm p' s0)) in *.
  pose proof (clone_top_ne D s0 s1 q r Hr Hn) as Hqr.
  destruct (clone_loop_run (with_root D ks q) s1 q r [] q r ks (λ i,
    new_pdpt ← ensure_pdpte_present (at_index (hhdm_ptov s0 q) i) PAGE_USER;
    pdpt ← get_table (at_index (hhdm_ptov s0 r) i); clone_pdpt new_pdpt pdpt)) as (s2 & Hrun & Hcp).
  { done. }
  { by apply (clone_top_same D s0 s1 q r). }
  { apply (nr_ok _ _ _ _ _ Hn). }
  { right. split; [done|apply user_path_nil]. }
  { done. }
  { done. }
  { apply kernel_index_range. }
  { intros l HD HC. apply (nr_empty _ _ _ _ _ Hn).
    - by apply (clone_top_user D s0 s1 q r).
    - intros ->. by rewrite starts_any_self in HC. }
  { by apply (clone_top_enough D s0 s1 q r). }
  { intros s' i f Hok' Hk' Hi Hwq Hwr Hnx Hnone Hen'.
    change (hhdm_ptov s0 q) with (hhdm_ptov s1 q). change (hhdm_ptov s0 r) with (hhdm_ptov s1 r).
    rewrite <- (keeps_ptov s1 s' q), <- (keeps_ptov s1 s' r) by done.
    apply (clone_child (with_root D ks q) q r [] q r i f pml4e_bits clone_pdpt s'); try done.
    - by apply (clone_top_same D s0 s1 q r).
    - apply pml4e_points.
    - apply (clones_pdpt (with_root D ks q) q r Hqr); [by apply (clone_top_same D s0 s1 q r)|].
      by apply (clone_top_full D s0 s1 q r).
    - right. split; [done|]. apply user_path_one; [done|apply kernel_index_range].
    - cbn. lia. }
  pose proof (clone_top_copied D s0 s1 q r Hok Hr Hn s2 Hcp) as Hcl.
  assert (keeps s0 s2) as Hk by (etrans; [apply Hn | apply Hcp]).
  destruct (leave_restored s s2 Hk) as [Hun Hres].
  exists q, (vm_leave (vm_cpu s) s2). split_and!; [|done|apply Hk|by apply cloned_leave].
  unfold clone_user_pml4, mbind, M_bind, kassert_not_null, gets. rewrite vm_lock_run by done.
  fold s0. rewrite Halloc. change (hhdm_ptov (with_pmm p' s0) q) with (hhdm_ptov s0 q).
  rewrite (proj2 (Z.eqb_neq _ _) Hnz). cbn [negb kassert]. unfold mret, M_ret. rewrite Hz.
  change (get_kernel_pml4_index (with_phys m1 (with_pmm p' s0))) with ks.
  change (hhdm_ptov s r) with (hhdm_ptov s0 r).
  change (get_kernel_pml4_index s0) with ks in Hc. rewrite Hc.
  unfold mbind, M_bind, mret, M_ret in Hrun. change (hhdm_ptov s1 r) with (hhdm_ptov s0 r) in Hrun.
  rewrite Hrun, Hun. done.
Qed.
