(* ===== verification/VmmHeap.v ===== *)
(** * Heap cursors and the kernel heap

    The [Heap] cursor of [src/kernel/arch/x64/memory/vmm.cpp] as a page number, and the functions that
    map pages at the cursor: [map_heap_page], [map_heap_pages], [alloc_kernel_page]. *)

From stdpp Require Import functions.
From S2P Require Import Prelude Cpu Spinlock Pmm Vmm VmmTree VmmProofs VmmFree VmmSpace.

Record heap_ok (h : Heap) : Prop := {
  ho4 : idx_ok (pml4_idx h);
  ho3 : idx_ok (pdpt_idx h);
  ho2 : idx_ok (pd_idx h);
  ho1 : idx_ok (pt_idx h);
}.

(** The page number of a cursor, counted from address 0 of its 48-bit space. *)
Definition page_no (h : Heap) : Z :=
  ((pml4_idx h * 512 + pdpt_idx h) * 512 + pd_idx h) * 512 + pt_idx h.

(** The canonical address of a page number. *)
Definition page_addr (n : Z) : Z :=
  if n <? 2 ^ 35 then n * 4096 else n * 4096 + 0xFFFF000000000000.

Lemma idx_land i : idx_ok i → Z.land i 0x1FF = i.
Proof.
  unfold idx_ok. intros. change 0x1FF with (Z.ones 9). rewrite Z.land_ones by done.
  by apply Z.mod_small.
Qed.

Ltac pow_consts :=
  change (2 ^ 9) with 512 in *; change (2 ^ 12) with 4096 in *; change (2 ^ 21) with 2097152 in *;
  change (2 ^ 30) with 1073741824 in *; change (2 ^ 39) with 549755813888 in *;
  change (2 ^ 35) with 34359738368 in *; change (2 ^ 36) with 68719476736 in *;
  change (2 ^ 47) with 140737488355328 in *; change (2 ^ 48) with 281474976710656 in *;
  change (2 ^ 52) with 4503599627370496 in *; change (2 ^ 64) with 18446744073709551616 in *.

Lemma compose_virt_addr h : heap_ok h → compose_virt h = page_addr (page_no h).
Proof.
  intros [H4 H3 H2 H1]. unfold compose_virt. rewrite !idx_land by done.
  unfold idx_ok in *. rewrite !Z.shiftl_mul_pow2 by done. rewrite Z.lor_0_l.
  rewrite !wrap_small by (unfold is_word; pow_consts; lia).
  rewrite (lor_add 39 (_ * 2 ^ 39) (_ * 2 ^ 30)), (lor_add 30 _ (_ * 2 ^ 21)),
    (lor_add 21 _ (_ * 2 ^ 12)) by (pow_consts; lia).
  set (v := _ + _).
  assert (v = page_no h * 4096) as Hv by (unfold v, page_no; pow_consts; lia).
  rewrite Z.mul_1_l. change (2 ^ 47) with (Z.shiftl 1 47).
  assert ((Z.land v (Z.shiftl 1 47) =? 0) = (page_no h <? 2 ^ 35)) as ->.
  { rewrite Z.shiftl_1_l. destruct (Z.testbit v 47) eqn:Hb.
    - rewrite (proj2 (Z.eqb_neq _ _)).
      + apply Z.testbit_true in Hb; [|done]. symmetry. apply Z.ltb_ge.
        rewrite Hv in Hb. pow_consts. lia.
      + intros H0. apply (f_equal (λ x, Z.testbit x 47)) in H0.
        rewrite Z.land_spec, Z.pow2_bits_true, Hb in H0 by done. done.
    - rewrite (proj2 (Z.eqb_eq _ _)).
      + apply Z.testbit_false in Hb; [|done]. symmetry. apply Z.ltb_lt.
        rewrite Hv in Hb. unfold page_no in *. pow_consts. lia.
      + apply Z.bits_inj'. intros i Hi. rewrite Z.land_spec, testbit_pow2, Z.testbit_0_l by done.
        destruct (Z.eqb_spec i 47) as [->|]; [by rewrite Hb | by rewrite andb_false_r]. }
  unfold page_addr. destruct (page_no h <? 2 ^ 35); [done|].
  rewrite Z.lor_comm, (lor_add 48).
  - rewrite Hv. pow_consts. lia.
  - done.
  - done.
  - rewrite Hv. unfold page_no. pow_consts. lia.
Qed.

(** The four indices of the address of page [n]. *)
Lemma page_addr_idx h : heap_ok h →
  idx4 (page_addr (page_no h)) = pml4_idx h ∧ idx3 (page_addr (page_no h)) = pdpt_idx h ∧
  idx2 (page_addr (page_no h)) = pd_idx h ∧ idx1 (page_addr (page_no h)) = pt_idx h ∧
  page_addr (page_no h) mod 4096 = 0.
Proof.
  intros [H4 H3 H2 H1]. unfold idx_ok in *. unfold idx4, idx3, idx2, idx1.
  change 0x1FF with (Z.ones 9). rewrite !Z.land_ones, !Z.shiftr_div_pow2 by done.
  unfold page_addr, page_no. destruct (Z.ltb_spec
    (((pml4_idx h * 512 + pdpt_idx h) * 512 + pd_idx h) * 512 + pt_idx h) (2 ^ 35)) as [H|H];
    pow_consts; split_and!; lia.
Qed.

(** Advancing the cursor is adding one to the page number. *)
Lemma advance_page_no h : heap_ok h → page_no (advance_heap h) = page_no h + 1.
Proof.
  intros [H4 H3 H2 H1]. unfold idx_ok, advance_heap, NUM_PT_ENTRIES in *.
  rewrite !wrap_small by (unfold is_word; pow_consts; lia).
  repeat case_match; unfold page_no; cbn; lia.
Qed.

Lemma advance_ok h : heap_ok h → page_no h + 1 < 2 ^ 36 → heap_ok (advance_heap h).
Proof.
  intros [H4 H3 H2 H1] Hn. unfold idx_ok, advance_heap, NUM_PT_ENTRIES, page_no in *.
  rewrite !wrap_small by (unfold is_word; pow_consts; lia). pow_consts.
  repeat case_match; split; unfold idx_ok; cbn; lia.
Qed.

(** ** Mapping at the cursor *)

Lemma page_align_page f : page_ok f → page_align f = f ∧ Z.land f PAGE_MASK = 0.
Proof.
  intros [Hr Hm]. unfold page_align, PAGE_MASK. change 0xFFF with 4095 in *. split.
  - rewrite page_mask_land by (pow_consts; lia). lia.
  - change 4095 with (Z.ones 12). by rewrite Z.land_ones.
Qed.

Lemma page_addr_range n : 0 ≤ n < 2 ^ 36 → 0 ≤ page_addr n < 2 ^ 64.
Proof. unfold page_addr. destruct (Z.ltb_spec n (2 ^ 35)); pow_consts; lia. Qed.

Lemma page_no_range h : heap_ok h → 0 ≤ page_no h < 2 ^ 36.
Proof. intros []. unfold idx_ok, page_no in *. pow_consts. lia. Qed.

Lemma map_heap_page_run D `{!Closed D} s r h f flags :
  vm_ok D s → heap_ok h → D r (fpath (page_addr (page_no h))) → hhdm_ptov s r ≠ 0 →
  page_ok f → frame_ok (frame_at f) → frame_free (vm_pmm s) (frame_at f) = false →
  (∀ r' l', D r' l' → walk (phys s) r' l' ≠ Some f) → (3 ≤ avail (vm_pmm s))%nat →
  ∃ s', map_heap_page (hhdm_ptov s r) h f flags s =
      Ok (s', (advance_heap h, page_addr (page_no h))) ∧
    mapped D s s' r (upath (page_addr (page_no h))) (idx1 (page_addr (page_no h))) f flags 3.
Proof.
  intros Hok Hh HD Hnz Hf Hfok Hused Hfresh Hav.
  destruct (page_addr_idx h Hh) as (E4 & E3 & E2 & E1 & Hal).
  destruct (map_leaf_run D s r (pml4_idx h) (pdpt_idx h) (pd_idx h) (pt_idx h) f flags)
    as (t & s1 & s' & Hrun & Hpop & Hm); try done.
  { unfold fpath in HD. by rewrite E4, E3, E2, E1 in HD. }
  exists s'. unfold upath. rewrite E4, E3, E2, E1. split; [|done].
  destruct (page_align_page f Hf) as [Ha Ho].
  unfold map_heap_page, get_next_heap_virt_page, kassert_not_null, mbind, M_bind.
  rewrite (proj2 (Z.eqb_neq _ _)), Ha, Ho, compose_virt_addr, is_page_aligned_spec, Hal, Z.eqb_refl
    by done.
  cbn [negb kassert]. unfold mret, M_ret. rewrite Hrun, Hpop, Z.add_0_r.
  rewrite wrap_small by (by apply page_addr_range, page_no_range). done.
Qed.

(** Addresses of the [n] pages from cursor [h]. *)
Definition heap_pages (h : Heap) (n : nat) : list Z :=
  (λ k, page_addr (page_no h + k)) <$> seqZ 0 (Z.of_nat n).

Lemma heap_pages_S h n : heap_ok h →
  heap_pages h (S n) = page_addr (page_no h) :: heap_pages (advance_heap h) n.
Proof.
  intros Hh. unfold heap_pages. rewrite seqZ_cons by lia. cbn. f_equal; [f_equal; lia|].
  rewrite advance_page_no by done. rewrite <- (fmap_add_seqZ 1 0), <- list_fmap_compose.
  replace (Z.pred (Z.of_nat (S n))) with (Z.of_nat n) by lia.
  apply list_fmap_ext. intros i k _. cbn. f_equal. lia.
Qed.

Lemma heap_loop_gen D `{!Closed D} s r flags n : ∀ h first vs s',
  hhdm_ptov s r ≠ 0 → heap_ok h → page_no h + Z.of_nat n < 2 ^ 36 →
  (∀ v, v ∈ heap_pages h n → D r (fpath v)) → 0 < page_addr (page_no h) →
  keeps s s' → mapped_all D s s' r vs flags → (4 * (length vs + n) ≤ avail (vm_pmm s))%nat →
  ∃ s'' h', heap_loop n (hhdm_ptov s r) h flags first s' =
      Ok (s'', (h', if first =? 0 then (if decide (n = 0%nat) then 0 else page_addr (page_no h))
                    else first)) ∧
    heap_ok h' ∧ page_no h' = page_no h + Z.of_nat n ∧ keeps s s'' ∧
    mapped_all D s s'' r (vs ++ heap_pages h n) flags.
Proof.
  induction n as [|n IH]; intros h first vs s' Hnz Hh Hn HD Hpos Hk Hm Hav.
  { exists s', h. cbn [heap_loop]. rewrite decide_True by done.
    split; [unfold mret, M_ret; do 3 f_equal; by destruct (Z.eqb_spec first 0)|].
    cbn. rewrite app_nil_r. split_and!; try done; lia. }
  pose proof (page_no_range h Hh) as Hrange. rewrite heap_pages_S in * by done.
  assert (wp (f ← in_pmm alloc_frame; map_heap_page (hhdm_ptov s r) h f flags) False (λ a s'',
    a = (advance_heap h, page_addr (page_no h)) ∧ keeps s s'' ∧
    mapped_all D s s'' r (vs ++ [page_addr (page_no h)]) flags) s') as Hstep.
  { apply (mapped_all_snoc D s s' r vs _ flags (λ f, map_heap_page (hhdm_ptov s r) h f flags)
      (λ a, a = (advance_heap h, page_addr (page_no h)))); [done|done| | |].
    - apply HD, elem_of_cons. by left.
    - destruct Hm. lia.
    - intros s1 f Hok1 Hk1 Hf Hfok Hu Hfr Hav1. rewrite <- (keeps_ptov s s1) by done.
      destruct (map_heap_page_run D s1 r h f flags) as (s2 & Hrun & Hm2); try done.
      + apply HD, elem_of_cons. by left.
      + by rewrite (keeps_ptov s s1).
      + by exists s2, (advance_heap h, page_addr (page_no h)). }
  apply wp_total in Hstep as (s2 & a & Hrun & -> & Hk2 & Hm2).
  destruct (IH (advance_heap h) (if first =? 0 then page_addr (page_no h) else first)
    (vs ++ [page_addr (page_no h)]) s2) as (s3 & h' & Hrun3 & Hh' & Hno & Hk3 & Hm3); try done.
  - apply advance_ok; [done|lia].
  - rewrite advance_page_no by done. lia.
  - intros v Hv. apply HD, elem_of_cons. by right.
  - rewrite advance_page_no by done. unfold page_addr in *.
    destruct (Z.ltb_spec (page_no h + 1) (2 ^ 35)), (Z.ltb_spec (page_no h) (2 ^ 35)); pow_consts; lia.
  - rewrite length_app. cbn. lia.
  - exists s3, h'. rewrite advance_page_no in Hno by done. rewrite <- app_assoc in Hm3.
    split_and!; [|done|lia|done|done]. cbn [heap_loop]. unfold mbind, M_bind in *.
    destruct (in_pmm alloc_frame s') as [[s1 f]| | |]; try done. rewrite Hrun. cbn [fst snd].
    rewrite Hrun3, (decide_False (P := S n = 0%nat)) by done. do 3 f_equal.
    destruct (Z.eqb_spec first 0) as [->|].
    + by rewrite (proj2 (Z.eqb_neq _ _)) by lia.
    + by rewrite (proj2 (Z.eqb_neq _ _)) by done.
Qed.

Lemma heap_loop_run D `{!Closed D} s r h flags n :
  vm_ok D s → hhdm_ptov s r ≠ 0 → heap_ok h → page_no h + Z.of_nat n < 2 ^ 36 → (0 < n)%nat →
  (∀ v, v ∈ heap_pages h n → D r (fpath v)) → 0 < page_addr (page_no h) →
  (4 * n ≤ avail (vm_pmm s))%nat →
  ∃ s' h', heap_loop n (hhdm_ptov s r) h flags 0 s = Ok (s', (h', page_addr (page_no h))) ∧
    heap_ok h' ∧ page_no h' = page_no h + Z.of_nat n ∧ keeps s s' ∧
    mapped_all D s s' r (heap_pages h n) flags.
Proof.
  intros Hok Hnz Hh Hn Hpos HD Hv Hav.
  destruct (heap_loop_gen D s r flags n h 0 [] s) as (s' & h' & Hrun & H); try done.
  - by apply mapped_all_nil.
  - exists s', h'. rewrite Hrun, decide_False by lia. done.
Qed.

(** ** Access through the active tables *)

Lemma hw_translate_walk s v f : page_ok (cr3 (vm_cpu s)) →
  walk (phys s) (cr3 (vm_cpu s)) (fpath v) = Some f → v mod 4096 = 0 →
  ∃ user, hw_translate s v = Some (f, user).
Proof.
  intros Hr Hw Hv. unfold hw_translate. rewrite (proj1 (page_align_page _ Hr)).
  unfold fpath in Hw. cbn in Hw. unfold hw_next, next, target in *.
  set (r := cr3 (vm_cpu s)) in *.
  destruct (Entry.present (phys s (r + 8 * idx4 v))); cbn in *; [|done].
  destruct (Entry.present (phys s (_ + 8 * idx3 v))); cbn in *; [|done].
  destruct (Entry.present (phys s (_ + 8 * idx2 v))); cbn in *; [|done].
  destruct (Entry.present (phys s (_ + 8 * idx1 v))); cbn in *; [|done].
  injection Hw as <-. eexists. do 2 f_equal.
  unfold PAGE_MASK. change 0xFFF with (Z.ones 12). rewrite Z.land_ones by done.
  pow_consts. lia.
Qed.

Lemma hw_access_run s v f : page_ok (cr3 (vm_cpu s)) →
  walk (phys s) (cr3 (vm_cpu s)) (fpath v) = Some f → v mod 4096 = 0 →
  Z.testbit (rflags (vm_cpu s)) RFLAGS_AC = true → hw_access v s = Ok (s, f).
Proof.
  intros Hr Hw Hv Hac. destruct (hw_translate_walk s v f Hr Hw Hv) as [u Hu].
  unfold hw_access. by rewrite Hu, Hac, andb_false_r.
Qed.

(** Writing into a data page changes no mapping. *)
Section data_write.
Context (D : domain) `{!Closed D} (s : vmm) (r : Z) (l : list Z) (f j w : Z).
Hypothesis Hok : vm_ok D s.
Hypothesis HD : D r l.
Hypothesis Hl : length l = 4%nat.
Hypothesis Hw : walk (phys s) r l = Some f.
Hypothesis Hj : idx_ok j.
Let s' := with_phys (<[f + 8 * j := w]> (phys s)) s.

Lemma data_write_word r' l' t i : D r' l' → walk (phys s) r' l' = Some t → idx_ok i →
  ¬ (r' = r ∧ l' = l) → phys s' (t + 8 * i) = phys s (t + 8 * i).
Proof.
  intros HD' Hw' Hi Hne. cbn. rewrite fn_insert_ne; [done|]. intros Heq.
  apply word_addr_inj in Heq as [<- _];
    [|eapply f_page; [apply Hok| |done]; done..|done|done].
  apply Hne. by destruct (f_inj D _ (ok_forest D s Hok) r' l' r l f) as [-> ->].
Qed.

Lemma data_write_walk r' l' : D r' l' → walk (phys s') r' l' = walk (phys s) r' l'.
Proof.
  apply (walk_agree D). intros r1 l1 i t HD1 Hw1. assert (D r1 l1) by (by eapply closed_prefix).
  apply (data_write_word r1 l1); [done|done|by eapply closed_idx|]. intros [_ ->].
  apply closed_len in HD1. rewrite length_app in HD1. cbn in HD1. lia.
Qed.

Lemma data_write_ok : vm_ok D s'.
Proof.
  pose proof Hok as [? ? [Hp Hi] Hu Hf]. split; [done..| | |].
  - split; intros *; intros; rewrite !data_write_walk in * by done; eauto.
  - intros r' l' t HD' Hw'. rewrite data_write_walk in Hw' by done. by eapply Hu.
  - intros r' l' t HD' Hw'. rewrite data_write_walk in Hw' by done. by eapply Hf.
Qed.

Lemma data_write_leaf r' l' i : D r' l' → length l' = 3%nat → idx_ok i →
  leaf (phys s') r' l' i = leaf (phys s) r' l' i.
Proof.
  intros HD' Hl' Hi. unfold leaf, word. rewrite data_write_walk by done.
  destruct (walk (phys s) r' l') as [t|] eqn:Hw'; [|done]. cbn [mbind option_bind].
  rewrite (data_write_word r' l' t i); try done. intros [_ ->]. lia.
Qed.

Lemma data_write_page r' l' : D r' l' → ¬ (r' = r ∧ l' = l) → same_page s s' r' l'.
Proof.
  intros HD' Hne t Hw'. split; [by rewrite data_write_walk|]. intros i Hi.
  by apply (data_write_word r' l').
Qed.
End data_write.

(** ** [map_heap_pages] *)

Lemma vm_ok_cpu D c s : vm_ok D (with_vm_cpu c s) ↔ vm_ok D s.
Proof. split; intros [[] ? ? ? ?]; (split; [by split|done..]). Qed.

Lemma vm_ok_kheap D h s : vm_ok D (with_kheap h s) ↔ vm_ok D s.
Proof. split; intros [? ? ? ? ?]; by split. Qed.

Lemma mapped_all_ext D s1 s2 s s' r vs flags :
  phys s1 = phys s2 → vm_pmm s1 = with_pmm_cpu (vm_cpu s1) (vm_pmm s2) →
  mapped_all D s1 s r vs flags → phys s = phys s' →
  vm_pmm s' = with_pmm_cpu (vm_cpu s') (vm_pmm s) → vm_ok D s' →
  mapped_all D s2 s' r vs flags.
Proof.
  intros Hp1 Hm1 [Hdom Hok Hav Hfree Hnew Hold Hpage] Hp2 Hm2 Hok'.
  assert (∀ g, frame_free (vm_pmm s1) g = frame_free (vm_pmm s2) g) as Hf1 by (by rewrite Hm1).
  assert (∀ g, frame_free (vm_pmm s') g = frame_free (vm_pmm s) g) as Hf2 by (by rewrite Hm2).
  assert (avail (vm_pmm s1) = avail (vm_pmm s2)) as Ha1 by (by rewrite Hm1).
  assert (avail (vm_pmm s') = avail (vm_pmm s)) as Ha2 by (by rewrite Hm2).
  split; [done|done|lia| | | |]; rewrite <- ?Hp1, <- ?Hp2 in *.
  - intros g Hg. rewrite Hf2, <- Hf1. by apply Hfree.
  - intros v Hv. destruct (Hnew v Hv) as (w & f & ? & ? & ?). exists w, f. by rewrite <- Hf1.
  - done.
  - intros r' l HD Hl Hno t. rewrite <- Hp1, <- Hp2. by apply Hpage.
Qed.

(** Writing into one of the new pages. *)
Lemma mapped_all_data D `{!Closed D} s s' r vs flags v f j w :
  mapped_all D s s' r vs flags → v ∈ vs → walk (phys s') r (fpath v) = Some f → idx_ok j →
  mapped_all D s (with_phys (<[f + 8 * j := w]> (phys s')) s') r vs flags.
Proof.
  intros [Hdom Hok Hav Hfree Hnew Hold Hpage] Hv Hw Hj. pose proof (Hdom v Hv) as HD.
  split; try done.
  - by apply (data_write_ok D s' r (fpath v)).
  - intros v' Hv'. destruct (D_upath D r v' (Hdom v' Hv')) as [HDu Hi].
    rewrite (data_write_leaf D s' r (fpath v) f j w) by done. by apply Hnew.
  - intros r' l i HD' Hl Hi Hno. rewrite (data_write_leaf D s' r (fpath v) f j w) by done.
    by apply Hold.
  - intros r' l HD' Hl Hno. eapply same_page_trans; [by apply Hpage|].
    apply (data_write_page D s' r (fpath v)); try done. by apply Hno.
Qed.

Lemma heap_pages_first h n : (0 < n)%nat → page_addr (page_no h) ∈ heap_pages h n.
Proof.
  intros Hn. apply list_elem_of_fmap. exists 0. rewrite Z.add_0_r. split; [done|].
  apply elem_of_seqZ. lia.
Qed.

(** The number of pages a request of [bytes] takes, the header included. *)
Definition heap_page_count (bytes : Z) : Z := (bytes + 8 + 4095) / 4096.

Lemma mapped_first_page D s s' r h n flags : (0 < n)%nat →
  mapped_all D s s' r (heap_pages h n) flags →
  ∃ f, walk (phys s') r (fpath (page_addr (page_no h))) = Some f.
Proof.
  intros Hn Hm.
  destruct (ma_new _ _ _ _ _ _ Hm (page_addr (page_no h))) as (w & f & Hl & Ha & _).
  - by apply heap_pages_first.
  - exists f. change (fpath ?v) with (upath v ++ [idx1 v]). rewrite walk_word.
    unfold leaf in Hl. destruct (word _ _ _ _) as [w'|]; [|done]. cbn in *.
    destruct (Entry.present w'); [|done]. injection Hl as ->. apply Ha.
Qed.

Lemma unlock_after_ac c : unlock (clac (stac (masked c)), held_from c) = Ok ((c, released c), ()).
Proof. rewrite unlock_held by done. by destruct c as [r v3 v4 m [k u p i []]]. Qed.

(** With [r] the active root, [map_heap_pages] maps the pages at the cursor, stores their number in
    the first word, returns the address after it and leaves flags and lock as they were. *)
Lemma map_heap_pages_run D `{!Closed D} s r h bytes flags :
  vm_ok D s → is_free (g_vmm_lock s) → hhdm_ptov s r ≠ 0 → cr3 (vm_cpu s) = r → heap_ok h →
  0 ≤ bytes → page_no h + heap_page_count bytes < 2 ^ 36 → bytes < 2 ^ 63 →
  (∀ v, v ∈ heap_pages h (Z.to_nat (heap_page_count bytes)) → D r (fpath v)) →
  0 < page_addr (page_no h) → (4 * Z.to_nat (heap_page_count bytes) ≤ avail (vm_pmm s))%nat →
  ∃ s' h', map_heap_pages (hhdm_ptov s r) h bytes flags s =
      Ok (s', (h', page_addr (page_no h) + 8)) ∧
    restored s s' ∧ kheap s' = kheap s ∧ heap_ok h' ∧
    page_no h' = page_no h + heap_page_count bytes ∧
    mapped_all D s s' r (heap_pages h (Z.to_nat (heap_page_count bytes))) flags ∧
    word (phys s') r (fpath (page_addr (page_no h))) 0 = Some (heap_page_count bytes).
Proof.
  intros Hok Hlock Hnz Hcr Hh Hb Hn Hb63 HD Hpos Hav.
  set (n := heap_page_count bytes) in *.
  assert (1 ≤ n) as Hn1 by (unfold n, heap_page_count; lia).
  pose proof (page_no_range h Hh) as Hrange.
  destruct (page_addr_idx h Hh) as (_ & _ & _ & _ & Hal).
  pose proof (page_addr_range (page_no h) Hrange) as Har.
  assert (page_ok r) as Hr.
  { apply (f_page D _ (ok_forest D s Hok) r []); [|done].
    eapply (closed_app D r []). apply (HD (page_addr (page_no h))), heap_pages_first. lia. }
  set (s1 := with_vm_cpu (stac (vm_cpu (vm_enter s))) (vm_enter s)).
  assert (vm_ok D s1) as Hok1 by (by apply vm_ok_cpu, vm_ok_lock).
  destruct (heap_loop_run D s1 r h flags (Z.to_nat n)) as (s2 & h' & Hrun & Hh' & Hno & Hk & Hm);
    try done; [rewrite Z2Nat.id; lia|lia|].
  destruct (mapped_first_page D s1 s2 r h (Z.to_nat n) flags) as (f & Hw); [lia|done|].
  assert (D r (fpath (page_addr (page_no h)))) as HD0.
  { apply HD, heap_pages_first. lia. }
  assert (vm_cpu s2 = stac (masked (vm_cpu s))) as Hcpu by (by rewrite (k_cpu _ _ Hk)).
  assert (hw_access (page_addr (page_no h)) s2 = Ok (s2, f)) as Hacc.
  { apply hw_access_run; rewrite ?Hcpu; cbn [stac masked cli disable_preemption set_preemption
      with_rflags with_percpu cr3 rflags]; rewrite ?Hcr; try done.
    unfold RFLAGS_AC. by rewrite Z.setbit_eq. }
  set (s3 := with_phys (<[f := n]> (phys s2)) s2).
  assert (mapped_all D s1 s3 r (heap_pages h (Z.to_nat n)) flags) as Hm3.
  { unfold s3. replace f with (f + 8 * 0) by lia.
    apply (mapped_all_data D s1 s2 r _ flags (page_addr (page_no h))); try done.
    apply heap_pages_first. lia. }
  set (s4 := with_vm_cpu (clac (vm_cpu s3)) s3).
  assert (vm_unlock s4 = Ok (vm_leave (vm_cpu s) s4, ())) as Hun.
  { unfold vm_unlock, zoom. change (vm_cpu s4) with (clac (vm_cpu s2)).
    change (g_vmm_lock s4) with (g_vmm_lock s2). rewrite Hcpu, (k_lock _ _ Hk).
    change (g_vmm_lock s1) with (held_from (vm_cpu s)). by rewrite unlock_after_ac. }
  exists (vm_leave (vm_cpu s) s4), h'. split_and!.
  - unfold map_heap_pages, kassert_not_null, mbind, M_bind, modify. rewrite (proj2 (Z.eqb_neq _ _))
      by done. cbn [negb kassert]. unfold mret, M_ret. rewrite vm_lock_run by done. fold s1.
    rewrite (wrap_small 64 (bytes + 8)) by (unfold is_word; pow_consts; lia).
    unfold PAGE_SIZE. rewrite (wrap_small 64 (bytes + 8 + 4096 - 1)) by (unfold is_word; pow_consts; lia).
    replace ((bytes + 8 + 4096 - 1) / 4096) with n by (unfold n, heap_page_count; f_equal; lia).
    change (hhdm_ptov s r) with (hhdm_ptov s1 r). rewrite Hrun. cbn [fst snd].
    rewrite (proj2 (Z.eqb_neq _ _)) by lia. cbn [negb kassert].
    unfold mret, M_ret, hw_store, mbind, M_bind, modify. rewrite Hacc. fold s3 s4. rewrite Hun.
    rewrite wrap_small; [done|]. unfold is_word. pow_consts. lia.
  - split; try done; by apply Hk.
  - by apply Hk.
  - done.
  - lia.
  - eapply (mapped_all_ext D s1 s s3); try done. apply vm_ok_lock, vm_ok_cpu, Hm3.
  - unfold word. cbn [phys vm_leave with_vm_lock s4 with_vm_cpu with_pmm s3 with_phys].
    replace f with (f + 8 * 0) at 1 by lia.
    rewrite (data_write_walk D s2 r (fpath (page_addr (page_no h))) f 0 n); try done; [|apply Hm].
    rewrite Hw. cbn [mbind option_bind]. rewrite Z.add_0_r. by rewrite fn_insert_eq.
Qed.

(** ** Kernel pages

    The kernel heap hands out pages at its cursor.  A page it has handed out is a path of the domain
    of its own; the paths at and above the cursor are not mapped. *)
Definition with_path (D : domain) (r : Z) (p : list Z) : domain := λ r' l,
  D r' l ∨ (r' = r ∧ l = p).

Lemma with_path_closed D r v : Closed D → D r (upath v) → Closed (with_path D r (fpath v)).
Proof.
  intros HC HD. split.
  - intros r' l i [H|[-> H]]; [left; by eapply closed_prefix|].
    change (fpath v) with (upath v ++ [idx1 v]) in H. apply app_inj_2 in H as [-> _]; [|done].
    by left.
  - intros r' l i [H|[-> H]]; [by eapply closed_idx|].
    change (fpath v) with (upath v ++ [idx1 v]) in H. apply app_inj_2 in H as [_ [= ->]]; [|done].
    apply idx_range.
  - intros r' l [H|[-> ->]]; [by eapply closed_len | done].
Qed.

Lemma vm_ok_with_path D s r p : vm_ok D s → walk (phys s) r p = None → vm_ok (with_path D r p) s.
Proof.
  intros [? ? [Hp Hi] Hu Hf] Hnone.
  assert (∀ r' l t, with_path D r p r' l → walk (phys s) r' l = Some t → D r' l) as HD.
  { intros r' l t [H|[-> ->]] Hw; [done|congruence]. }
  split; [done..| | |].
  - split; eauto.
  - intros r' l t Hd Hw. by eapply Hu; [eapply HD|].
  - intros r' l t Hd Hw. by eapply Hf; [eapply HD|].
Qed.

(** The state of the kernel heap over a domain. *)
Record kheap_ok (D : domain) (s : vmm) : Prop := {
  kh_ptr : is_word 64 (kernel_pml4 s) ∧ kernel_pml4 s ≠ 0;
  kh_heap : heap_ok (kheap s);
  kh_tables n : page_no (kheap s) ≤ n < 511 * 2 ^ 27 →
    D (kroot s) (upath (page_addr n));
  kh_fresh n : page_no (kheap s) ≤ n < 511 * 2 ^ 27 →
    walk (phys s) (kroot s) (fpath (page_addr n)) = None;
}.

(** Page numbers below [2^36] have different paths. *)
Lemma page_addr_fpath_inj n n' : 0 ≤ n < 2 ^ 36 → 0 ≤ n' < 2 ^ 36 →
  fpath (page_addr n) = fpath (page_addr n') → n = n'.
Proof.
  intros Hn Hn' [= H4 H3 H2 H1]. unfold idx4, idx3, idx2, idx1 in *.
  change 511 with (Z.ones 9) in *. rewrite !Z.land_ones, !Z.shiftr_div_pow2 in * by done.
  unfold page_addr in *.
  destruct (Z.ltb_spec n (2 ^ 35)), (Z.ltb_spec n' (2 ^ 35)); pow_consts; lia.
Qed.

(** [mapped_all] says what happens to every other path of the domain. *)
Lemma mapped_all_none D `{!Closed D} s s' r vs flags l i : mapped_all D s s' r vs flags →
  D r l → length l = 3%nat → idx_ok i →
  (∀ v, v ∈ vs → ¬ (l = upath v ∧ i = idx1 v)) →
  walk (phys s) r (l ++ [i]) = None → walk (phys s') r (l ++ [i]) = None.
Proof.
  intros Hm HD Hl Hi Hno Hnone.
  assert (leaf (phys s') r l i = None) as Hleaf.
  { rewrite (ma_old _ _ _ _ _ _ Hm r l i); try done.
    - rewrite walk_word in Hnone. unfold leaf. destruct (word _ _ _ _) as [w|]; [|done].
      cbn in *. unfold target in Hnone. by destruct (Entry.present w).
    - intros v Hv (_ & H). by apply (Hno v Hv). }
  rewrite walk_word. unfold leaf in Hleaf. destruct (word _ _ _ _) as [w|]; [|done].
  cbn in *. unfold target. by destruct (Entry.present w).
Qed.

Definition KERNEL_PAGE : Z := Z.lor (Z.lor 0 PAGE_WRITE) PAGE_GLOBAL.

Record kernel_page (D : domain) (s s' : vmm) (v : Z) : Prop := {
  kp_dom : Closed (with_path D (kroot s) (fpath v));
  kp_restored : restored s s';
  kp_heap : kheap_ok (with_path D (kroot s) (fpath v)) s';
  kp_next : page_no (kheap s') = page_no (kheap s) + 1;
  kp_mapped : mapped_all (with_path D (kroot s) (fpath v)) s s' (kroot s) [v] KERNEL_PAGE;
}.

Lemma kheap_ok_next D s s' v : Closed (with_path D (kroot s) (fpath v)) →
  kheap_ok D s → v = page_addr (page_no (kheap s)) → page_no (kheap s) + 1 < 511 * 2 ^ 27 →
  kernel_pml4 s' = kernel_pml4 s → hhdm_offset s' = hhdm_offset s →
  kheap s' = advance_heap (kheap s) →
  mapped_all (with_path D (kroot s) (fpath v)) s s' (kroot s) [v] KERNEL_PAGE →
  kheap_ok (with_path D (kroot s) (fpath v)) s'.
Proof.
  intros HC [Hptr Hh Htab Hfresh] -> Hlim Hk Ho Hheap Hm.
  assert (kroot s' = kroot s) as Hkr by (unfold kroot, hhdm_vtop; by rewrite Hk, Ho).
  pose proof (page_no_range _ Hh) as Hr. change (2 ^ 27) with 134217728 in *.
  pose proof (advance_page_no (kheap s) Hh) as Hadv.
  split.
  - by rewrite Hk.
  - rewrite Hheap. apply advance_ok; [done|]. pow_consts. lia.
  - intros n Hn. rewrite Hheap, Hadv in Hn. rewrite Hkr. left. apply Htab. lia.
  - intros n Hn. rewrite Hheap, Hadv in Hn. rewrite Hkr.
    change (fpath (page_addr n)) with (upath (page_addr n) ++ [idx1 (page_addr n)]).
    eapply (mapped_all_none _ s s'); [exact Hm|left; apply Htab; lia|done|apply idx_range| |].
    + intros v ->%list_elem_of_singleton [Hu Hi].
      assert (n = page_no (kheap s)) as ->; [|lia].
      apply page_addr_fpath_inj; [pow_consts; lia..|].
      change (fpath ?x) with (upath x ++ [idx1 x]). by rewrite Hu, Hi.
    + apply Hfresh. lia.
Qed.

Lemma alloc_kernel_page_run D `{!Closed D} s :
  vm_ok D s → is_free (g_vmm_lock s) → kheap_ok D s → 0 < page_no (kheap s) →
  page_no (kheap s) + 1 < 511 * 2 ^ 27 → (4 ≤ avail (vm_pmm s))%nat →
  ∃ s', alloc_kernel_page s = Ok (s', page_addr (page_no (kheap s))) ∧
    kernel_page D s s' (page_addr (page_no (kheap s))).
Proof.
  intros Hok Hlock Hkh Hpos Hlim Hav. pose proof Hkh as [[Hw64 Hnz] Hh Htab Hfresh].
  set (v := page_addr (page_no (kheap s))). set (D' := with_path D (kroot s) (fpath v)).
  assert (Closed D') as HC by (apply with_path_closed; [done|]; apply Htab; lia).
  assert (vm_ok D' (vm_enter s)) as Hok'.
  { apply vm_ok_lock, vm_ok_with_path; [done|]. apply Hfresh. lia. }
  set (s0 := vm_enter s) in *.
  assert (hhdm_ptov s0 (kroot s) = kernel_pml4 s) as Hptr by exact (ptov_vtop s _ Hw64).
  assert (wp (f ← in_pmm alloc_frame; map_heap_page (hhdm_ptov s0 (kroot s)) (kheap s) f KERNEL_PAGE)
    False (λ a s1, a = (advance_heap (kheap s), v) ∧ keeps s0 s1 ∧
      mapped_all D' s0 s1 (kroot s) ([] ++ [v]) KERNEL_PAGE) s0) as Hwp.
  { apply (mapped_all_snoc D' s0 s0 (kroot s) [] v KERNEL_PAGE
      (λ f, map_heap_page (hhdm_ptov s0 (kroot s)) (kheap s) f KERNEL_PAGE)
      (λ a, a = (advance_heap (kheap s), v))); try done.
    - by apply mapped_all_nil.
    - by right.
    - intros s1 f Hok1 Hk1 Hf Hfok Hu Hfr Hav1. rewrite <- (keeps_ptov s0 s1) by done.
      destruct (map_heap_page_run D' s1 (kroot s) (kheap s) f KERNEL_PAGE) as (s2 & Hrun & Hm2);
        try done; [by right|by rewrite (keeps_ptov s0 s1), Hptr|].
      by exists s2, (advance_heap (kheap s), v). }
  apply wp_total in Hwp as (s1 & a & Hrun & -> & Hk & Hm). cbn [app] in Hm.
  set (s2 := with_kheap (advance_heap (kheap s)) s1).
  assert (vm_unlock s2 = Ok (vm_leave (vm_cpu s) s2, ())) as Hun.
  { apply vm_unlock_run; [by apply (k_cpu _ _ Hk) | by apply (k_lock _ _ Hk)]. }
  exists (vm_leave (vm_cpu s) s2). split.
  { unfold alloc_kernel_page, map_phys, mbind, M_bind, gets, modify in *.
    rewrite vm_lock_run by done. fold s0. rewrite Hptr in Hrun.
    destruct (in_pmm alloc_frame s0) as [[s' f]| | |] eqn:Ha; try done.
    assert (kernel_pml4 s' = kernel_pml4 s ∧ kheap s' = kheap s) as [-> ->].
    { unfold in_pmm, zoom in Ha. destruct (alloc_frame (vm_pmm s0)) as [[p' f']| | |]; try done.
      by injection Ha as <- _. }
    fold KERNEL_PAGE. rewrite Hrun. cbn [fst snd]. fold s2. unfold mret, M_ret. by rewrite Hun. }
  assert (mapped_all D' s (vm_leave (vm_cpu s) s2) (kroot s) [v] KERNEL_PAGE) as Hm'.
  { destruct Hm. split; try done. by apply vm_ok_lock, vm_ok_kheap. }
  split; try done.
  - split; try done; apply Hk.
  - apply (kheap_ok_next D s); try done; apply Hk.
  - cbn. by apply advance_page_no.
Qed.

Lemma free_kernel_page_run D `{!Closed D} s v :
  vm_ok D s → is_free (g_vmm_lock s) → is_word 64 (kernel_pml4 s) → kernel_pml4 s ≠ 0 →
  D (kroot s) (fpath v) → v mod 4096 = 0 → 0 < v < 2 ^ 64 →
  match leaf (phys s) (kroot s) (upath v) (idx1 v) with
  | Some w => ∃ s', free_kernel_page v s = Ok (s', ()) ∧ restored s s' ∧ kheap s' = kheap s ∧
      unmapped D s s' (kroot s) v (Entry.frame_of w)
  | None => ∃ s', free_kernel_page v s = Ok (s', ()) ∧ restored s s' ∧ phys s' = phys s
  end.
Proof.
  intros Hok Hlock Hw64 Hnz HD Hal Hv.
  assert (vm_ok D (vm_enter s)) as Hok' by (by apply vm_ok_lock).
  assert (hhdm_ptov (vm_enter s) (kroot s) = kernel_pml4 s) as Hptr by exact (ptov_vtop s _ Hw64).
  assert (page_align v = v) as Hpa.
  { unfold page_align, PAGE_MASK. rewrite page_mask_land by lia. lia. }
  pose proof (unmap_page_run D (vm_enter s) (kroot s) v Hok' HD) as Hrun.
  rewrite Hptr in Hrun. specialize (Hrun Hnz Hal).
  unfold free_kernel_page, mbind, M_bind, gets. rewrite (proj2 (Z.eqb_neq v 0)) by lia.
  rewrite vm_lock_run, Hpa by done. change (kernel_pml4 (vm_enter s)) with (kernel_pml4 s).
  change (phys (vm_enter s)) with (phys s) in Hrun.
  destruct (leaf (phys s) (kroot s) (upath v) (idx1 v)) as [w|].
  - destruct Hrun as (s1 & -> & Hk & Hum). destruct (leave_restored s s1 Hk) as [-> Hres].
    eexists. split; [reflexivity|]. split; [done|]. split; [apply Hk|].
    destruct Hum. split; try done. by apply vm_ok_lock.
  - rewrite Hrun. destruct (leave_restored s (vm_enter s)) as [-> Hres]; [done|].
    eexists. split; [reflexivity|]. done.
Qed.
