(* ===== verification/VmmTheorems.v ===== *)
(** * Theorems about virtual memory

    What callers of [src/kernel/arch/x64/memory/vmm.cpp] rely on, stated for user address spaces
    ([spaces]) in terms of addresses: [pte s r a] is the present page-table entry of the page of
    address [a] under the PML4 at physical address [r]. *)

From stdpp Require Import functions.
From S2P Require Import Prelude Cpu Spinlock Pmm Vmm VmmTree VmmProofs VmmFree VmmSpace VmmClone.
From S2P Require Import VmmHeap.

Definition pte (s : vmm) (r a : Z) : option Z := leaf (phys s) r (upath a) (idx1 a).

(** Addresses below the kernel's first PML4 entry. *)
Definition user_addr (s : vmm) (a : Z) : Prop := 0 ≤ a < get_kernel_pml4_index s * 2 ^ 39.

(** The invariant for a system with the user address spaces [roots]. *)
Definition sys_dom (s : vmm) (roots : Z → Prop) : domain :=
  spaces (get_kernel_pml4_index s) roots (kroot s) (λ h, get_kernel_pml4_index s < h < 511).
Definition sys_ok (s : vmm) (roots : Z → Prop) : Prop :=
  vm_ok (sys_dom s roots) s ∧ is_free (g_vmm_lock s) ∧ ¬ roots (kroot s) ∧
  get_kernel_pml4_index s ≤ 256.

Lemma sys_dom_restored s s' roots : restored s s' → sys_dom s' roots = sys_dom s roots.
Proof.
  intros [_ _ Hp Ho]. unfold sys_dom, kroot, hhdm_vtop, get_kernel_pml4_index. by rewrite Hp, Ho.
Qed.

Lemma idx_page a : upath (a - a mod 4096) = upath a ∧ idx1 (a - a mod 4096) = idx1 a.
Proof.
  unfold upath, idx4, idx3, idx2, idx1. rewrite !Z.shiftr_div_pow2 by done.
  change (2 ^ 39) with (4096 * 134217728). change (2 ^ 30) with (4096 * 262144).
  change (2 ^ 21) with (4096 * 512). change (2 ^ 12) with 4096.
  rewrite <- !(Z.div_div _ 4096) by done.
  replace ((a - a mod 4096) / 4096) with (a / 4096) by lia. done.
Qed.

(** In the lower half the indices determine the page. *)
Lemma user_fpath_inj a b : 0 ≤ a < 2 ^ 47 → 0 ≤ b < 2 ^ 47 →
  upath a = upath b → idx1 a = idx1 b → a / 4096 = b / 4096.
Proof.
  intros Ha Hb [= H4 H3 H2] H1. unfold idx4, idx3, idx2, idx1 in *.
  change 511 with (Z.ones 9) in *. rewrite !Z.land_ones, !Z.shiftr_div_pow2 in * by done.
  pow_consts. lia.
Qed.

Lemma user_dom s roots r a : get_kernel_pml4_index s ≤ 256 → roots r → user_addr s a →
  sys_dom s roots r (fpath a).
Proof.
  intros Hks Hr Ha. left. split; [done|]. destruct (idx_range a) as (H4 & H3 & H2 & H1).
  split; [cbn; lia|]. split; [unfold fpath; by rewrite !Forall_cons|]. cbn. rewrite Forall_cons. split; [|done].
  unfold user_addr, idx4 in *. change 511 with (Z.ones 9) in *.
  rewrite Z.land_ones, Z.shiftr_div_pow2 in * by done. pow_consts. lia.
Qed.

Lemma user_addr_47 s a : get_kernel_pml4_index s ≤ 256 → user_addr s a → 0 ≤ a < 2 ^ 47.
Proof. unfold user_addr. pow_consts. lia. Qed.

Lemma root_ptr s roots r : sys_ok s roots → roots r → hhdm_ptov s r ≠ 0.
Proof.
  intros (Hok & _ & Hnk & _) Hr.
  assert (sys_dom s roots r []) as HD by (left; split; [done|apply user_path_nil]).
  apply ptov_nonzero; [apply Hok| |].
  - by apply (f_page _ _ (ok_forest _ _ Hok) r []).
  - apply (ok_frame _ _ Hok r []); [done..|]. right. by intros ->.
Qed.

(** Distinct pages of the user halves have distinct frames. *)
Lemma user_frames_distinct s roots r r' a b w w' : sys_ok s roots → roots r → roots r' →
  user_addr s a → user_addr s b → pte s r a = Some w → pte s r' b = Some w' →
  Entry.frame_of w = Entry.frame_of w' → r = r' ∧ a / 4096 = b / 4096.
Proof.
  intros (Hok & _ & _ & Hks) Hr Hr' Ha Hb Hwa%leaf_walk Hwb%leaf_walk Heq. rewrite Heq in Hwa.
  destruct (f_inj _ _ (ok_forest _ _ Hok) r (fpath a) r' (fpath b) (Entry.frame_of w')) as [-> Hp];
    try done; [by apply user_dom..|].
  split; [done|]. change (fpath ?v) with (upath v ++ [idx1 v]) in Hp.
  apply app_inj_2 in Hp as [Hu [= Hi]]; [|done].
  apply user_fpath_inj; eauto using user_addr_47.
Qed.

(** ** [unmap_mem_at] *)

(** The pages [vs] of [r] are gone and their frames free. *)
Record unmapped_all (D : domain) (s s' : vmm) (r : Z) (vs : list Z) : Prop := {
  ua_ok : vm_ok D s';
  ua_gone v : v ∈ vs → D r (fpath v) → leaf (phys s') r (upath v) (idx1 v) = None;
  ua_old r' l i : D r' l → length l = 3%nat → idx_ok i →
    (∀ v, v ∈ vs → ¬ (r' = r ∧ l = upath v ∧ i = idx1 v)) →
    leaf (phys s') r' l i = leaf (phys s) r' l i;
  ua_shrink r' l i w : D r' l → length l = 3%nat → idx_ok i →
    leaf (phys s') r' l i = Some w → leaf (phys s) r' l i = Some w;
  ua_free g : 0 ≤ g → frame_free (vm_pmm s') g = true ↔ frame_free (vm_pmm s) g = true ∨
    ∃ v w, v ∈ vs ∧ leaf (phys s) r (upath v) (idx1 v) = Some w ∧ frame_at (Entry.frame_of w) = g;
  ua_avail : (avail (vm_pmm s) ≤ avail (vm_pmm s'))%nat;
  ua_page r' l : D r' l → length l = 4%nat → (∀ v, v ∈ vs → ¬ (r' = r ∧ l = fpath v)) → same_page s s' r' l;
}.

Lemma unmapped_all_nil D s r : vm_ok D s → unmapped_all D s s r [].
Proof.
  intros Hok. split; try done.
  - by intros v ?%not_elem_of_nil.
  - intros g Hg. split; [by left|]. by intros [?|(v & w & ?%not_elem_of_nil & _)].
Qed.

Lemma unmapped_all_skip D `{!Closed D} s s' r vs v : unmapped_all D s s' r vs → D r (fpath v) →
  leaf (phys s') r (upath v) (idx1 v) = None → unmapped_all D s s' r (vs ++ [v]).
Proof.
  intros [Hok Hgone Hold Hshrink Hfree Hav Hpage] HD Hnone. destruct (D_upath D r v HD) as [HDu Hi1].
  split; [done| | |done| |done|].
  - intros v' [Hv|Hv%list_elem_of_singleton]%elem_of_app HD'; [by apply Hgone | by subst].
  - intros r' l i HD' Hl Hi Hno. apply Hold; [done..|]. intros v' Hv. apply Hno, elem_of_app. by left.
  - intros g Hg. rewrite Hfree by done. split; (intros [?|(v' & w & Hv & Hw & Hf)]; [by left|]).
    + right. exists v', w. split; [|done]. apply elem_of_app. by left.
    + apply elem_of_app in Hv as [Hv|Hv%list_elem_of_singleton]; [right; by exists v', w|subst v'].
      destruct (decide (Exists (λ u, upath v = upath u ∧ idx1 v = idx1 u) vs)) as [He|Hne].
      * apply Exists_exists in He as (u & Hu & Hp & Hi). right. exists u, w. by rewrite <- Hp, <- Hi.
      * rewrite Hold in Hnone; [congruence|done|done|done|]. intros u Hu (_ & Hp & Hi).
        apply Hne, Exists_exists. by exists u.
  - intros r' l HD' Hl Hno. apply Hpage; [done..|]. intros v' Hv. apply Hno, elem_of_app. by left.
Qed.

Lemma unmapped_all_snoc D `{!Closed D} s s' s'' r vs v w : unmapped_all D s s' r vs →
  D r (fpath v) → leaf (phys s') r (upath v) (idx1 v) = Some w →
  unmapped D s' s'' r v (Entry.frame_of w) → unmapped_all D s s'' r (vs ++ [v]).
Proof.
  intros [Hok Hgone Hold Hshrink Hfree Hav0 Hpage0] HD Hw [Hok2 Hav Hfr Hleaf Hpage].
  destruct (D_upath D r v HD) as [HDu Hi1]. split; [done| | | | |lia|].
  - intros v' Hv HD'. destruct (D_upath D r v' HD') as [HDu' Hi']. rewrite Hleaf by done.
    case_decide as Hc; [done|]. apply elem_of_app in Hv as [Hv|Hv%list_elem_of_singleton].
    + by apply Hgone.
    + subst. by destruct Hc.
  - intros r' l i HD' Hl Hi Hno. rewrite Hleaf, decide_False; [|by apply Hno, elem_snoc|done..].
    apply Hold; [done..|]. intros v' Hv. apply Hno, elem_of_app. by left.
  - intros r' l i w' HD' Hl Hi. rewrite Hleaf by done. case_decide; [done|]. by apply Hshrink.
  - intros g Hg. rewrite Hfr by done. apply Hshrink in Hw as Hw0; [|done..].
    destruct (Z.eqb_spec (frame_at (Entry.frame_of w)) g) as [<-|Hne].
    + split; [|done]. intros _. right. exists v, w. split; [apply elem_snoc|done].
    + rewrite Hfree by done. split; (intros [?|(v' & w' & Hv & Hw' & Hf)]; [by left|right]).
      * exists v', w'. split; [|done]. apply elem_of_app. by left.
      * apply elem_of_app in Hv as [Hv|Hv%list_elem_of_singleton]; [by exists v', w'|].
        subst v'. congruence.
  - intros r' l HD' Hl Hno. eapply same_page_trans.
    + apply Hpage0; [done..|]. intros v' Hv. apply Hno, elem_of_app. by left.
    + apply Hpage; [done..|]. apply Hno, elem_snoc.
Qed.

Lemma unmap_pages_run D `{!Closed D} s r start n :
  vm_ok D s → hhdm_ptov s r ≠ 0 → 0 ≤ start → start mod 4096 = 0 → start + n * 4096 ≤ 2 ^ 64 →
  (∀ k, 0 ≤ k < n → D r (fpath (start + k * 4096))) →
  ∃ s', unmap_pages (hhdm_ptov s r) start n s = Ok (s', ()) ∧ keeps s s' ∧
    unmapped_all D s s' r ((λ k, start + k * 4096) <$> seqZ 0 n).
Proof.
  intros Hok Hnz Hs Hal Hend HD. unfold unmap_pages.
  match goal with |- ∃ s', for_each _ ?b _ = _ ∧ _ => set (body := b) end.
  assert (wp (for_each (seqZ 0 n) body) False (λ _ s', keeps s s' ∧
    unmapped_all D s s' r ((λ k, start + k * 4096) <$> seqZ 0 n)) s) as Hwp.
  { apply (wp_for_each _ body False (λ pre s', keeps s s' ∧
      unmapped_all D s s' r ((λ k, start + k * 4096) <$> pre))).
    - intros pre k post s' Hl [Hk Hum]. rewrite fmap_app. cbn [fmap list_fmap].
      assert (k ∈ seqZ 0 n) as Hkn%elem_of_seqZ by (rewrite Hl; apply elem_snoc_mid, elem_snoc).
      assert (D r (fpath (start + k * 4096))) as HDk by (apply HD; lia).
      pose proof (unmap_page_run D s' r (start + k * 4096) (ua_ok _ _ _ _ _ Hum) HDk) as Hrun.
      rewrite (keeps_ptov s s') in Hrun by done. specialize (Hrun Hnz ltac:(lia)).
      unfold wp, body, PAGE_SIZE. rewrite (wrap_small 64 (start + k * 4096)) by (unfold is_word; lia).
      destruct (leaf (phys s') r _ _) as [w|] eqn:Hw.
      + destruct Hrun as (s'' & -> & Hk' & Hu). split; [by etrans|].
        by eapply unmapped_all_snoc.
      + rewrite Hrun. split; [done|]. by apply unmapped_all_skip.
    - split; [done|]. by apply unmapped_all_nil. }
  apply wp_total in Hwp as (s' & [] & Hrun & H). eauto.
Qed.

(** ** The example system

    The kernel's PML4 is at 0x1000; the user address space at 0x2000, which is active, has one page,
    at address 0x400000, in the frame at 0x6000; frames 16..63 are free. *)
Definition demo_pmm : pmm :=
  mk_pmm (with_cr3 0x2000 cpu0) new_irqsave
    (0xFFFF :: replicate (Z.to_nat (FRAME_BITMAP_SIZE - 1)) 0xFFFFFFFFFFFFFFFF) 16 64 0 0 0.
Definition demo_mem (a : Z) : Z :=
  if a =? 0x2000 then 0x3007 else if a =? 0x3000 then 0x4007 else
  if a =? 0x4010 then 0x5007 else if a =? 0x5000 then 0x6007 else
  if a =? 0x6000 then 42 else 0.
Definition demo_vmm : vmm :=
  mk_vmm demo_pmm new_irqsave demo_mem 0xFFFF800000001000 0xFFFF800000000000 (mk_Heap 257 0 0 0).
Definition demo_roots (r : Z) : Prop := r = 0x2000.
Definition demo_nodes : list (list Z * Z) :=
  [([], 0x2000); ([0], 0x3000); ([0; 0], 0x4000); ([0; 0; 2], 0x5000); ([0; 0; 2; 0], 0x6000)].

Lemma demo_next t i u : page_ok t → idx_ok i → next demo_mem t i = Some u →
  (t, i, u) ∈ [(0x2000, 0, 0x3000); (0x3000, 0, 0x4000); (0x4000, 2, 0x5000); (0x5000, 0, 0x6000)].
Proof.
  unfold next, demo_mem, page_ok, idx_ok. intros [Hr Hal] Hi. rewrite !elem_of_cons.
  destruct (Z.eqb_spec (t + 8 * i) 0x2000); [intros [= <-]; left; repeat f_equal; lia|].
  destruct (Z.eqb_spec (t + 8 * i) 0x3000); [intros [= <-]; right; left; repeat f_equal; lia|].
  destruct (Z.eqb_spec (t + 8 * i) 0x4010); [intros [= <-]; do 2 right; left; repeat f_equal; lia|].
  destruct (Z.eqb_spec (t + 8 * i) 0x5000); [intros [= <-]; do 3 right; left; repeat f_equal; lia|].
  by destruct (Z.eqb_spec (t + 8 * i) 0x6000).
Qed.

Lemma demo_walk_user l t : Forall idx_ok l → walk demo_mem 0x2000 l = Some t → (l, t) ∈ demo_nodes.
Proof.
  revert t. induction l as [|i l IH] using rev_ind; intros t Hidx.
  { intros [= <-]. unfold demo_nodes. left. }
  apply Forall_app in Hidx as [Hl [Hi _]%Forall_cons]. rewrite walk_snoc.
  destruct (walk demo_mem 0x2000 l) as [u|] eqn:Hw; [|done]. cbn [mbind option_bind]. intros Hn.
  assert (page_ok u) as Hu by (by eapply (walk_page _ 0x2000)).
  apply demo_next in Hn; [|done..]. specialize (IH u Hl eq_refl).
  unfold demo_nodes in *. rewrite !elem_of_cons in IH. rewrite !elem_of_cons in Hn.
  rewrite !elem_of_cons.
  destruct_or! IH; destruct_or! Hn; simplify_eq; cbn; try tauto; set_solver.
Qed.

Lemma demo_walk_kernel l t : Forall idx_ok l → walk demo_mem 0x1000 l = Some t → l = [] ∧ t = 0x1000.
Proof.
  destruct l as [|i l]; [by intros _ [= <-]|]. intros [Hi Hl]%Forall_cons. cbn [walk].
  destruct (next demo_mem 0x1000 i) as [u|] eqn:Hn; [|done].
  apply demo_next in Hn; [|done..]. rewrite !elem_of_cons in Hn. destruct_or! Hn; simplify_eq.
  by apply not_elem_of_nil in Hn.
Qed.

Definition demo_all : list (Z * list Z * Z) :=
  (0x1000, [], 0x1000) :: ((λ x, (0x2000, x.1, x.2)) <$> demo_nodes).

Lemma demo_walk r l t : sys_dom demo_vmm demo_roots r l → walk demo_mem r l = Some t →
  (r, l, t) ∈ demo_all.
Proof.
  assert (kroot demo_vmm = 0x1000) as Hk by (by vm_compute). unfold demo_all.
  intros [[-> (_ & Hidx & _)]|(-> & _ & Hidx & _)] Hw.
  - right. apply list_elem_of_fmap. exists (l, t). split; [done|]. by apply demo_walk_user.
  - rewrite Hk in *. apply demo_walk_kernel in Hw as [-> ->]; [left|done].
Qed.

Lemma demo_ok : sys_ok demo_vmm demo_roots.
Proof.
  split; [|split; [done|split; [done|by vm_compute]]].
  assert (Forall (λ x, page_ok x.2 ∧ frame_free demo_pmm (frame_at x.2) = false ∧
    frame_ok (frame_at x.2)) demo_all) as Hall.
  { unfold demo_all, demo_nodes. repeat constructor; by vm_compute. }
  rewrite Forall_forall in Hall. split.
  - by split.
  - by vm_compute.
  - split.
    + intros r l t HD Hw%demo_walk; [|done]. by apply (Hall _ Hw).
    + intros r l r' l' t HD HD' Hw%demo_walk Hw'%demo_walk; [|done..].
      unfold demo_all, demo_nodes in *. cbn [fmap list_fmap fst snd] in *. rewrite !elem_of_cons in *.
      destruct_or! Hw; try (by apply not_elem_of_nil in Hw); destruct_or! Hw'; simplify_eq; try done;
        by apply not_elem_of_nil in Hw'.
  - intros r l t HD Hw%demo_walk; [|done]. by apply (Hall _ Hw).
  - intros r l t HD Hw%demo_walk _; [|done]. by apply (Hall _ Hw).
Qed.

(** ** Mapping a range *)

(** Address [a] is on a page that the range touches. *)
Definition touched (virt bytes a : Z) : Prop :=
  ∃ b, virt ≤ b < virt + bytes ∧ a / 4096 = b / 4096.

Lemma touched_page virt bytes a : 0 ≤ virt → 0 < bytes →
  touched virt bytes a ↔ a - a mod 4096 ∈ range_pages virt bytes.
Proof.
  intros Hv Hb. rewrite elem_of_range_pages by done. split.
  - intros (b & Hr & Hd). split; [lia|]. exists b. lia.
  - intros (Hal & b & Hr & Hd). exists b. lia.
Qed.

Lemma range_page_user s virt bytes v : 0 ≤ virt → 0 < bytes →
  virt + bytes ≤ get_kernel_pml4_index s * 2 ^ 39 → v ∈ range_pages virt bytes →
  user_addr s v ∧ v mod 4096 = 0 ∧ touched virt bytes v.
Proof.
  intros Hv Hb He Hin. pose proof Hin as (Hal & b & Hr & Hd)%elem_of_range_pages; [|done..].
  assert (0 ≤ v) by lia. split; [unfold user_addr; pow_consts; lia|]. split; [done|].
  apply touched_page; [done..|]. by replace (v - v mod 4096) with v by lia.
Qed.

Lemma sys_ok_restored s s' roots : restored s s' → sys_ok s roots → vm_ok (sys_dom s roots) s' →
  sys_ok s' roots.
Proof.
  intros Hres (Hok & Hlock & Hnk & Hks) Hok'. pose proof Hres as [_ Hl Hp Ho].
  split; [by rewrite (sys_dom_restored s s')|]. split; [done|].
  unfold kroot, hhdm_vtop, get_kernel_pml4_index in *. by rewrite Hp, Ho.
Qed.

Lemma user_leaf s s' roots r a l i : get_kernel_pml4_index s ≤ 256 → roots r → user_addr s a →
  l = upath a → i = idx1 a →
  (sys_dom s roots r l → length l = 3%nat → idx_ok i →
    leaf (phys s') r l i = leaf (phys s) r l i) → pte s' r a = pte s r a.
Proof.
  intros Hks Hr Ha -> -> H. destruct (D_upath _ r a (user_dom s roots r a Hks Hr Ha)).
  by apply H.
Qed.

(** [map_pages] on user addresses, shared by the theorems below. *)
Section map_user_range.
Context (s : vmm) (roots : Z → Prop) (r virt bytes flags : Z).
Hypothesis Hsys : sys_ok s roots.
Hypothesis Hr : roots r.
Hypothesis Hv : 0 ≤ virt.
Hypothesis Hb : 0 < bytes.
Hypothesis Hend : virt + bytes ≤ get_kernel_pml4_index s * 2 ^ 39.

Let pages := range_pages virt bytes.

Lemma map_user_run : (4 * length pages ≤ avail (vm_pmm s))%nat →
  ∃ s', map_pages (hhdm_ptov s r) virt bytes flags s = Ok (s', ()) ∧ restored s s' ∧
    sys_ok s' roots ∧ mapped_all (sys_dom s roots) s s' r pages flags.
Proof.
  intros Hav. pose proof Hsys as (Hok & Hlock & Hnk & Hks).
  destruct (map_pages_run (sys_dom s roots) s r virt bytes flags)
    as (s' & Hrun & Hres & _ & Hm); try done.
  { by eapply root_ptr. }
  { pow_consts. lia. }
  { intros v Hin. apply user_dom; [done..|]. by eapply range_page_user. }
  exists s'. split; [done|]. split; [done|]. split; [|done].
  eapply sys_ok_restored; [done..|apply Hm].
Qed.

Lemma map_user_new s' a : mapped_all (sys_dom s roots) s s' r pages flags → touched virt bytes a →
  ∃ w f, pte s' r a = Some w ∧ pte_attrs w f flags ∧ frame_free (vm_pmm s) (frame_at f) = true.
Proof.
  intros Hm Ht%touched_page; [|done..]. unfold pte.
  destruct (idx_page a) as [<- <-]. by apply (ma_new _ _ _ _ _ _ Hm).
Qed.

Lemma map_user_old s' r' a : mapped_all (sys_dom s roots) s s' r pages flags →
  roots r' → user_addr s a → ¬ (r' = r ∧ touched virt bytes a) → pte s' r' a = pte s r' a.
Proof.
  intros Hm Hr' Ha Hnot. destruct Hsys as (_ & _ & _ & Hks).
  eapply user_leaf; [done..|]. intros HD Hl Hi.
  apply (ma_old _ _ _ _ _ _ Hm); [done..|]. intros v Hin (-> & Hu & Hi1).
  destruct (range_page_user s virt bytes v) as (Hvu & Hal & b & Hbr & Hbd); [done..|].
  apply Hnot. split; [done|]. exists b. split; [done|]. rewrite <- Hbd.
  apply user_fpath_inj; eauto using user_addr_47.
Qed.
End map_user_range.

Lemma touched_dec virt bytes a : 0 ≤ virt → 0 < bytes →
  touched virt bytes a ∨ ¬ touched virt bytes a.
Proof.
  intros Hv Hb. rewrite touched_page by done.
  destruct (decide (a - a mod 4096 ∈ range_pages virt bytes)); tauto.
Qed.

Lemma attrs_frame w f flags : pte_attrs w f flags → Entry.frame_of w = f.
Proof.
  intros [Ht _ _ _ _ _]. unfold target in Ht. by destruct (Entry.present w); [injection Ht|].
Qed.

Lemma restored_user s s' a : restored s s' → user_addr s a → user_addr s' a.
Proof. intros Hres. unfold user_addr, get_kernel_pml4_index. by rewrite (rs_hhdm _ _ Hres). Qed.

(** C10: [map_pages] maps a range of user addresses: every page the range touches has a present entry
    with the requested attributes, over a frame that was free; every other page of every user
    address space keeps its entry; afterwards no two user pages share a frame; lock, flags and
    interrupt state are as before.  Four free frames per page are enough for it not to panic. *)
Theorem map_pages_maps_range s roots r virt bytes flags :
  sys_ok s roots → roots r →
  0 ≤ virt → 0 < bytes → virt + bytes ≤ get_kernel_pml4_index s * 2 ^ 39 →
  (4 * length (range_pages virt bytes) ≤ avail (vm_pmm s))%nat →
  ∃ s', map_pages (hhdm_ptov s r) virt bytes flags s = Ok (s', ()) ∧
    restored s s' ∧ sys_ok s' roots ∧
    (∀ a, touched virt bytes a → ∃ w f, pte s' r a = Some w ∧ pte_attrs w f flags ∧
       frame_free (vm_pmm s) (frame_at f) = true) ∧
    (∀ r' a, roots r' → user_addr s a → ¬ (r' = r ∧ touched virt bytes a) →
       pte s' r' a = pte s r' a) ∧
    (∀ r1 r2 a b w w', roots r1 → roots r2 → user_addr s a → user_addr s b →
       pte s' r1 a = Some w → pte s' r2 b = Some w' → Entry.frame_of w = Entry.frame_of w' →
       r1 = r2 ∧ a / 4096 = b / 4096).
Proof.
  intros Hsys Hr Hv Hb Hend Hav.
  destruct (map_user_run s roots r virt bytes flags) as (s' & Hrun & Hres & Hsys' & Hm); try done.
  exists s'. split; [done|]. split; [done|]. split; [done|]. split_and!.
  - intros a. by eapply map_user_new.
  - intros r' a. by eapply map_user_old.
  - intros r1 r2 a b w w' H1 H2 Ha Hb' Hw Hw' Heq.
    eapply (user_frames_distinct s' roots r1 r2 a b w w'); eauto using restored_user.
Qed.

Lemma map_pages_maps_range_witness :
  ∃ s', map_pages (hhdm_ptov demo_vmm 0x2000) 0x7FFF00 0x200 PAGE_WRITE demo_vmm = Ok (s', ()) ∧
    restored demo_vmm s'.
Proof.
  destruct (map_pages_maps_range demo_vmm demo_roots 0x2000 0x7FFF00 0x200 PAGE_WRITE)
    as (s' & H & Hr & _); [apply demo_ok|reflexivity|vm_compute; congruence|reflexivity| | |].
  - vm_compute. congruence.
  - apply Nat.leb_le. vm_compute. reflexivity.
  - exact (ex_intro _ s' (conj H Hr)).
Defined.

(** Mapping a range over pages that are already mapped loses their frames: the frame of such a
    page stays marked used, and no user page of any address space refers to it any more. *)
Theorem map_pages_over_mapping_leaks s roots r virt bytes flags a w :
  sys_ok s roots → roots r →
  0 ≤ virt → 0 < bytes → virt + bytes ≤ get_kernel_pml4_index s * 2 ^ 39 →
  (4 * length (range_pages virt bytes) ≤ avail (vm_pmm s))%nat →
  user_addr s a → touched virt bytes a → pte s r a = Some w →
  ∃ s', map_pages (hhdm_ptov s r) virt bytes flags s = Ok (s', ()) ∧
    frame_free (vm_pmm s') (frame_at (Entry.frame_of w)) = false ∧
    ∀ r' b w', roots r' → user_addr s b → pte s' r' b = Some w' →
      Entry.frame_of w' ≠ Entry.frame_of w.
Proof.
  intros Hsys Hr Hv Hb Hend Hav Ha Ht Hw. pose proof Hsys as (Hok & _ & _ & Hks).
  destruct (map_user_run s roots r virt bytes flags) as (s' & Hrun & _ & _ & Hm); try done.
  assert (frame_free (vm_pmm s) (frame_at (Entry.frame_of w)) = false) as Hused.
  { eapply (ok_used _ _ Hok r (fpath a)); [by apply user_dom|]. by apply leaf_walk in Hw. }
  exists s'. split; [done|]. split.
  { apply not_true_is_false. intros Hf. apply (ma_free _ _ _ _ _ _ Hm) in Hf; [congruence|].
    apply Z.div_pos; [|done]. apply frame_of_page. }
  intros r' b w' Hr' Hbu Hw' Heq.
  assert (r' = r ∧ touched virt bytes b ∨ ¬ (r' = r ∧ touched virt bytes b)) as [[-> Htb]|Hnot].
  { destruct (decide (r' = r)), (touched_dec virt bytes b); tauto. }
  - destruct (map_user_new s roots r virt bytes flags Hv Hb s' b) as (w2 & f & Hw2 & Hat%attrs_frame & Hf);
      [done..|]. congruence.
  - rewrite (map_user_old s roots r virt bytes flags) in Hw' by done.
    destruct (user_frames_distinct s roots r' r b a w' w) as [-> Hd]; try done.
    apply Hnot. split; [done|]. destruct Ht as (x & Hx & Hax). exists x. split; [done|]. congruence.
Qed.

Lemma map_pages_over_mapping_leaks_witness :
  pte demo_vmm 0x2000 0x400123 = Some 0x6007 ∧
  ∃ s', map_pages (hhdm_ptov demo_vmm 0x2000) 0x400800 8 PAGE_WRITE demo_vmm = Ok (s', ()) ∧
    frame_free (vm_pmm s') 6 = false.
Proof.
  split; [vm_compute; reflexivity|].
  destruct (map_pages_over_mapping_leaks demo_vmm demo_roots 0x2000 0x400800 8 PAGE_WRITE 0x400123
    0x6007) as (s' & H & Hf & _).
  - exact demo_ok.
  - reflexivity.
  - vm_compute; congruence.
  - reflexivity.
  - vm_compute; congruence.
  - apply Nat.leb_le. vm_compute. reflexivity.
  - split; vm_compute; congruence.
  - exists 0x400800. split; [split; vm_compute; congruence|reflexivity].
  - vm_compute. reflexivity.
  - exact (ex_intro _ s' (conj H Hf)).
Defined.

(** ** Unmapping *)

Lemma page_list_user s virt n v : 0 ≤ virt → virt + n * 4096 ≤ get_kernel_pml4_index s * 2 ^ 39 →
  virt mod 4096 = 0 → v ∈ ((λ k, virt + k * 4096) <$> seqZ 0 n) →
  user_addr s v ∧ virt ≤ v < virt + n * 4096 ∧ v mod 4096 = 0.
Proof.
  intros Hv Hend Hal (k & -> & Hk%elem_of_seqZ)%list_elem_of_fmap. unfold user_addr. lia.
Qed.

Lemma page_list_elem virt n a : virt mod 4096 = 0 → virt ≤ a < virt + n * 4096 →
  a - a mod 4096 ∈ (λ k, virt + k * 4096) <$> seqZ 0 n.
Proof.
  intros Hal Ha. apply list_elem_of_fmap. exists (a / 4096 - virt / 4096). split; [lia|].
  apply elem_of_seqZ. lia.
Qed.

Lemma unmap_mem_at_run D `{!Closed D} s r start n :
  vm_ok D s → is_free (g_vmm_lock s) → hhdm_ptov s r ≠ 0 → 0 ≤ start → start mod 4096 = 0 →
  start + n * 4096 ≤ 2 ^ 64 → (∀ k, 0 ≤ k < n → D r (fpath (start + k * 4096))) →
  ∃ s', unmap_mem_at (hhdm_ptov s r) start n s = Ok (s', ()) ∧ restored s s' ∧
    unmapped_all D s s' r ((λ k, start + k * 4096) <$> seqZ 0 n).
Proof.
  intros Hok Hlock Hnz Hs Hal Hend HD.
  destruct (unmap_pages_run D (vm_enter s) r start n) as (s1 & Hrun & Hk & Hu); try done.
  { by apply vm_ok_lock. }
  change (hhdm_ptov (vm_enter s) r) with (hhdm_ptov s r) in Hrun.
  destruct (leave_restored s s1 Hk) as [Hun Hres].
  exists (vm_leave (vm_cpu s) s1). split; [|split; [done|]].
  - unfold unmap_mem_at, mbind, M_bind, kassert_not_null. rewrite (proj2 (Z.eqb_neq _ _)) by done.
    cbn [negb kassert]. unfold mret, M_ret. by rewrite vm_lock_run, Hrun, Hun.
  - destruct Hu. split; try done. by apply vm_ok_lock.
Qed.

(** [unmap_mem_at] removes exactly the given pages of one user address space: they are not
    mapped afterwards, every other user page keeps its entry, and the frames that become free are
    exactly those the removed pages had. *)
Theorem unmap_mem_at_unmaps s roots r virt num_pages :
  sys_ok s roots → roots r → 0 ≤ virt → virt mod 4096 = 0 →
  virt + num_pages * 4096 ≤ get_kernel_pml4_index s * 2 ^ 39 →
  ∃ s', unmap_mem_at (hhdm_ptov s r) virt num_pages s = Ok (s', ()) ∧
    restored s s' ∧ sys_ok s' roots ∧
    (∀ a, virt ≤ a < virt + num_pages * 4096 → pte s' r a = None) ∧
    (∀ r' a, roots r' → user_addr s a → ¬ (r' = r ∧ virt ≤ a < virt + num_pages * 4096) →
       pte s' r' a = pte s r' a) ∧
    (∀ g, 0 ≤ g → frame_free (vm_pmm s') g = true ↔ frame_free (vm_pmm s) g = true ∨
       ∃ a w, virt ≤ a < virt + num_pages * 4096 ∧ pte s r a = Some w ∧
         frame_at (Entry.frame_of w) = g).
Proof.
  intros Hsys Hr Hv Hal Hend. pose proof Hsys as (Hok & Hlock & Hnk & Hks).
  pose proof (λ v, page_list_user s virt num_pages v Hv Hend Hal) as Hpages.
  destruct (unmap_mem_at_run (sys_dom s roots) s r virt num_pages) as (s' & Hrun & Hres & Hu); try done.
  { by eapply root_ptr. }
  { pow_consts. lia. }
  { intros k Hk. apply user_dom; [done..|]. unfold user_addr. lia. }
  assert (∀ a, virt ≤ a < virt + num_pages * 4096 → user_addr s (a - a mod 4096)) as Hua.
  { intros a Ha. by eapply Hpages, page_list_elem. }
  exists s'. split; [done|]. split; [done|]. split_and!.
  - eapply sys_ok_restored; [done..|apply Hu].
  - intros a Ha. unfold pte. destruct (idx_page a) as [<- <-].
    apply (ua_gone _ _ _ _ _ Hu); [by apply page_list_elem|]. apply user_dom; [done..|]. by apply Hua.
  - intros r' a Hr' Ha Hnot. eapply user_leaf; [done..|]. intros HD Hl Hi.
    apply (ua_old _ _ _ _ _ Hu); [done..|]. intros v Hin (-> & Hup & Hi1).
    destruct (Hpages v Hin) as (Hvu & Hvr & Hva). apply Hnot. split; [done|].
    assert (a / 4096 = v / 4096) by (apply user_fpath_inj; eauto using user_addr_47). lia.
  - intros g Hg. rewrite (ua_free _ _ _ _ _ Hu) by done.
    split; (intros [?|(a & w & Ha & Hw & Hf)]; [by left|right]).
    + exists a, w. by destruct (Hpages a Ha) as (_ & ? & _).
    + exists (a - a mod 4096), w. destruct (idx_page a) as [-> ->]. split; [|done].
      by apply page_list_elem.
Qed.

Lemma unmap_mem_at_unmaps_witness :
  ∃ s', unmap_mem_at (hhdm_ptov demo_vmm 0x2000) 0x400000 2 demo_vmm = Ok (s', ()) ∧
    pte s' 0x2000 0x400123 = None ∧ frame_free (vm_pmm s') 6 = true.
Proof.
  destruct (unmap_mem_at_unmaps demo_vmm demo_roots 0x2000 0x400000 2)
    as (s' & H & _ & _ & Hgone & _ & Hfree).
  - exact demo_ok.
  - reflexivity.
  - vm_compute; congruence.
  - reflexivity.
  - vm_compute; congruence.
  - exists s'. split; [exact H|]. split; [apply Hgone; lia|]. apply Hfree; [lia|]. right.
    exists 0x400000, 0x6007. split; [lia|]. split; vm_compute; reflexivity.
Defined.

(** ** Creating, copying and destroying address spaces *)

Lemma vm_ok_sub D D' s : (∀ r l, D' r l → D r l) → vm_ok D s → vm_ok D' s.
Proof.
  intros Hsub [Hp Hh [Hpg Hinj] Hu Hf]. split; [done|done| |by eauto|by eauto].
  split; [by eauto|]. intros r l r' l' t HD HD'. by apply Hinj; apply Hsub.
Qed.

Definition plus_root (roots : Z → Prop) (q : Z) : Z → Prop := λ r, roots r ∨ r = q.
Definition minus_root (roots : Z → Prop) (q : Z) : Z → Prop := λ r, roots r ∧ r ≠ q.

Lemma sys_dom_plus s roots q r l : sys_dom s (plus_root roots q) r l →
  with_root (sys_dom s roots) (get_kernel_pml4_index s) q r l.
Proof. unfold sys_dom, spaces, with_root, plus_root. tauto. Qed.

Lemma sys_dom_minus s roots q r l : ¬ (q = kroot s) → sys_dom s (minus_root roots q) r l →
  without (sys_dom s roots) q r l.
Proof.
  unfold sys_dom, spaces, without, minus_root. intros Hq [[[Hr Hne] Hp]|[-> Hp]]; [tauto|].
  split; [by right|congruence].
Qed.

(** The address spaces [r] of [roots] are untouched: entries and contents of the mapped pages. *)
Definition untouched (s s' : vmm) (r : Z) : Prop := ∀ a, user_addr s a →
  pte s' r a = pte s r a ∧
  ∀ w j, pte s r a = Some w → idx_ok j →
    phys s' (Entry.frame_of w + 8 * j) = phys s (Entry.frame_of w + 8 * j).

Lemma untouched_intro s s' roots r : get_kernel_pml4_index s ≤ 256 → roots r →
  (∀ l, sys_dom s roots r l → walk (phys s') r l = walk (phys s) r l ∧ same_page s s' r l) →
  untouched s s' r.
Proof.
  intros Hks Hr Hsame a Ha. pose proof (user_dom s roots r a Hks Hr Ha) as HD.
  destruct (D_upath _ r a HD) as [HDu Hi]. destruct (Hsame _ HDu) as [Hw Hp].
  split; [by eapply same_page_leaf|]. intros w j Hl%leaf_walk Hj.
  destruct (Hsame _ HD) as [_ Hpg]. by apply (Hpg _ Hl).
Qed.

Lemma sys_roots_kernel s roots : sys_ok s roots → sys_dom s roots (kroot s) [].
Proof. intros _. right. split; [done|]. split; [cbn; lia|]. split; constructor. Qed.

Lemma sys_ok_plus s s' roots q : sys_ok s roots → is_free (g_vmm_lock s') →
  kernel_pml4 s' = kernel_pml4 s → hhdm_offset s' = hhdm_offset s →
  vm_ok (with_root (sys_dom s roots) (get_kernel_pml4_index s) q) s' →
  (∀ l, ¬ sys_dom s roots q l) → sys_ok s' (plus_root roots q).
Proof.
  intros Hsys Hl Hp Ho Hok' Hnot. pose proof Hsys as (Hok & Hlock & Hnk & Hks).
  assert (kroot s' = kroot s) as Hkr by (unfold kroot, hhdm_vtop; by rewrite Hp, Ho).
  assert (get_kernel_pml4_index s' = get_kernel_pml4_index s) as Hki
    by (unfold get_kernel_pml4_index; by rewrite Ho).
  split; [|split; [done|]].
  - eapply vm_ok_sub; [|exact Hok']. intros r l HD. apply sys_dom_plus.
    unfold sys_dom in *. by rewrite Hkr, Hki in HD.
  - rewrite Hkr, Hki. split; [|done]. intros [?|He]; [done|].
    apply (Hnot []). rewrite <- He. by apply sys_roots_kernel.
Qed.

Lemma not_root s roots q : (∀ l, ¬ sys_dom s roots q l) → ¬ roots q.
Proof. intros Hnot Hq. apply (Hnot []). left. split; [done|]. apply user_path_nil. Qed.

(** [create_user_pml4] returns a new address space: its root is a frame that was free, no user
    page is mapped in it, its kernel half is the kernel's, and all other user address spaces keep
    their entries and the contents of their pages. *)
Theorem create_user_pml4_fresh s roots :
  sys_ok s roots → is_word 64 (kernel_pml4 s) → (0 < avail (vm_pmm s))%nat →
  ∃ q s', create_user_pml4 s = Ok (s', hhdm_ptov s q) ∧
    sys_ok s' (plus_root roots q) ∧ ¬ roots q ∧ frame_free (vm_pmm s) (frame_at q) = true ∧
    (∀ a, user_addr s a → pte s' q a = None) ∧
    (∀ i, get_kernel_pml4_index s ≤ i < 512 → phys s' (q + 8 * i) = phys s (kroot s + 8 * i)) ∧
    (∀ r, roots r → untouched s s' r).
Proof.
  intros Hsys Hw Hav. pose proof Hsys as (Hok & Hlock & Hnk & Hks).
  destruct (create_user_pml4_run (sys_dom s roots) s) as (q & s' & Hrun & [Hok' Hk _ Hfresh Hnot _
    Hempty Hkern Hsame]); try done; [by apply sys_roots_kernel|].
  exists q, s'. split; [done|]. split_and!.
  - eapply sys_ok_plus; try done; try apply Hk. by rewrite (k_lock _ _ Hk).
  - by eapply not_root.
  - done.
  - intros a Ha. apply leaf_none. change (upath a ++ [idx1 a]) with (fpath a). apply Hempty; [|done].
    by destruct (user_dom s (λ _, True) 0 a) as [[_ ?]|(_ & Hlen & _)]; [..|cbn in Hlen; lia].
  - done.
  - intros r Hr. eapply untouched_intro; [done..|]. auto.
Qed.

Lemma create_user_pml4_fresh_witness :
  ∃ q s', create_user_pml4 demo_vmm = Ok (s', hhdm_ptov demo_vmm q) ∧ ¬ demo_roots q.
Proof.
  destruct (create_user_pml4_fresh demo_vmm demo_roots) as (q & s' & H & _ & Hq & _).
  - exact demo_ok.
  - split; vm_compute; congruence.
  - apply Nat.ltb_lt. vm_compute. reflexivity.
  - exact (ex_intro _ q (ex_intro _ s' (conj H Hq))).
Defined.

Lemma sys_user_iff s roots r l : sys_ok s roots → roots r →
  sys_dom s roots r l ↔ user_path (get_kernel_pml4_index s) l.
Proof.
  intros (_ & _ & Hnk & _) Hr. split; [|by left]. intros [[_ ?]|[-> _]]; [done|by destruct Hnk].
Qed.

Lemma user_path_fpath s a : get_kernel_pml4_index s ≤ 256 → user_addr s a →
  user_path (get_kernel_pml4_index s) (fpath a).
Proof.
  intros Hks Ha. destruct (user_dom s (λ _, True) 0 a) as [[_ ?]|(_ & Hlen & _)]; [done..|].
  cbn in Hlen. lia.
Qed.

Lemma clone_user_pml4_sys s roots r :
  sys_ok s roots → roots r → enough (sys_dom s roots) s r (λ _, true) →
  ∃ q s', clone_user_pml4 (hhdm_ptov s r) s = Ok (s', hhdm_ptov s q) ∧
    restored s s' ∧ sys_ok s' (plus_root roots q) ∧ ¬ roots q ∧ cloned (sys_dom s roots) s s' q r.
Proof.
  intros Hsys Hr Hen. pose proof Hsys as (Hok & Hlock & Hnk & Hks).
  destruct (clone_user_pml4_run (sys_dom s roots) s r) as (q & s' & Hrun & Hres & _ & Hcl); try done;
    [by intros l; apply sys_user_iff|].
  pose proof Hcl as [Hok' Hnot _ _ _ _ _ _].
  exists q, s'. split; [done|]. split; [done|]. split_and!; [|by eapply not_root|done].
  eapply sys_ok_plus; try done; apply Hres.
Qed.

(** C11: [clone_user_pml4] makes a deep copy of a user address space: the copy has an entry for
    exactly the mapped pages, equal to the original's except for the frame, which was free and holds
    the same 512 words; the kernel halves agree; and no existing address space changes.  A free frame
    for every page and table of the original is enough for it not to panic. *)
Theorem clone_user_pml4_deep_copy s roots r :
  sys_ok s roots → roots r → enough (sys_dom s roots) s r (λ _, true) →
  ∃ q s', clone_user_pml4 (hhdm_ptov s r) s = Ok (s', hhdm_ptov s q) ∧
    restored s s' ∧ sys_ok s' (plus_root roots q) ∧ ¬ roots q ∧
    (∀ a, user_addr s a →
       match pte s r a with
       | None => pte s' q a = None
       | Some w => ∃ f, pte s' q a = Some (Entry.set_addr (Z.shiftr f 12) w) ∧ page_ok f ∧
           frame_free (vm_pmm s) (frame_at f) = true ∧
           ∀ j, idx_ok j → phys s' (f + 8 * j) = phys s (Entry.frame_of w + 8 * j)
       end) ∧
    (∀ i, get_kernel_pml4_index s ≤ i < 512 → phys s' (q + 8 * i) = phys s (r + 8 * i)) ∧
    (∀ r', roots r' → untouched s s' r').
Proof.
  intros Hsys Hr Hen. pose proof Hsys as (Hok & Hlock & Hnk & Hks).
  destruct (clone_user_pml4_sys s roots r) as (q & s' & Hrun & Hres & Hsys' & Hnew & [_ _ _ Huser Hkern Hold _ _]); try done.
  exists q, s'. split; [done|]. split; [done|]. split; [done|]. split; [done|]. split_and!.
  - intros a Ha. apply (Huser (upath a) (idx1 a)); [|done]. by apply user_path_fpath.
  - done.
  - intros r' Hr'. eapply untouched_intro; [done..|]. auto.
Qed.

Lemma demo_nodes_on F : nodes_on (sys_dom demo_vmm demo_roots) demo_vmm 0x2000 (λ _, true) F → (length F ≤ 5)%nat.
Proof.
  intros [Hnd HF]. assert (F ⊆+ (snd <$> demo_nodes)) as Hsub.
  { apply NoDup_submseteq; [done|]. intros f (l & HD & _ & Hw%demo_walk)%HF; [|done].
    unfold demo_all in Hw. apply elem_of_cons in Hw as [Hw|Hw]; [by simplify_eq|].
    apply list_elem_of_fmap in Hw as ([l' t] & [= <- <-] & Hx).
    apply list_elem_of_fmap. by exists (l, f). }
  by apply submseteq_length in Hsub.
Qed.

Lemma demo_enough : enough (sys_dom demo_vmm demo_roots) demo_vmm 0x2000 (λ _, true).
Proof. intros F HF%demo_nodes_on. etrans; [exact HF|]. apply Nat.leb_le. by vm_compute. Qed.

Lemma clone_user_pml4_deep_copy_witness :
  ∃ q s', clone_user_pml4 (hhdm_ptov demo_vmm 0x2000) demo_vmm = Ok (s', hhdm_ptov demo_vmm q) ∧
    ∃ f, pte s' q 0x400000 = Some (Entry.set_addr (Z.shiftr f 12) 0x6007) ∧ phys s' f = 42.
Proof.
  destruct (clone_user_pml4_deep_copy demo_vmm demo_roots 0x2000)
    as (q & s' & H & _ & _ & _ & Hcopy & _).
  - exact demo_ok.
  - reflexivity.
  - exact demo_enough.
  - exists q, s'. split; [exact H|]. specialize (Hcopy 0x400000).
    assert (pte demo_vmm 0x2000 0x400000 = Some 0x6007) as Hp by (vm_compute; reflexivity).
    rewrite Hp in Hcopy. destruct Hcopy as (f & Hf & _ & _ & Hw); [split; vm_compute; congruence|].
    exists f. split; [exact Hf|]. specialize (Hw 0 ltac:(unfold idx_ok; lia)).
    rewrite Z.mul_0_r, Z.add_0_r in Hw. rewrite Hw. vm_compute. reflexivity.
Defined.

Lemma free_user_pml4_sys s roots r :
  sys_ok s roots → roots r →
  ∃ s' F, free_user_pml4 (hhdm_ptov s r) s = Ok (s', ()) ∧
    restored s s' ∧ sys_ok s' (minus_root roots r) ∧
    NoDup F ∧
    (∀ f, f ∈ F ↔ ∃ l, user_path (get_kernel_pml4_index s) l ∧ walk (phys s) r l = Some f) ∧
    (∀ f, f ∈ F → frame_free (vm_pmm s) (frame_at f) = false) ∧
    (∀ g, 0 ≤ g → frame_free (vm_pmm s') g =
       bool_decide (g ∈ frame_at <$> F) || frame_free (vm_pmm s) g) ∧
    free_frames (vm_pmm s') = wrap64 (free_frames (vm_pmm s) + Z.of_nat (length F)) ∧
    (∀ r', roots r' → r' ≠ r → untouched s s' r') ∧
    (∀ f, f ∈ F → 0 ≤ frame_at f) ∧
    (∀ r' l, roots r' → r' ≠ r → user_path (get_kernel_pml4_index s) l →
       walk (phys s') r' l = walk (phys s) r' l) ∧
    (∀ i, idx_ok i → phys s' (r + 8 * i) = 0).
Proof.
  intros Hsys Hr. pose proof Hsys as (Hok & Hlock & Hnk & Hks).
  assert (r ≠ kroot s) as Hne by (by intros ->).
  pose proof (λ l, sys_user_iff s roots r l Hsys Hr) as Hiff.
  destruct (free_user_pml4_run (sys_dom s roots) s r) as (s' & F & Hrun & Hres & _ & [Hok' Hnd Hnodes
    Hused Hfree Hcount Hother] & Hzero); try done.
  { intros l i Hl%Hiff Hlen Hi. apply Hiff. by apply user_path_extend. }
  { apply Hiff, user_path_nil. }
  { intros l (_ & _ & H)%Hiff. done. }
  { intros i Hi. apply Hiff, user_path_one; [done|]. lia. }
  exists s', F. split; [done|]. split; [done|]. split_and!; try done.
  - destruct Hres as [_ Hl Hp Ho].
    assert (kroot s' = kroot s) as Hkr by (unfold kroot, hhdm_vtop; by rewrite Hp, Ho).
    assert (get_kernel_pml4_index s' = get_kernel_pml4_index s) as Hki
      by (unfold get_kernel_pml4_index; by rewrite Ho).
    split; [|split; [done|]].
    + eapply vm_ok_sub; [|exact Hok']. intros r' l HD. apply sys_dom_minus; [done|].
      unfold sys_dom in *. by rewrite Hkr, Hki in HD.
    + rewrite Hkr, Hki. split; [|done]. by intros [? _].
  - intros f. rewrite Hnodes. by setoid_rewrite Hiff.
  - intros r' Hr' Hne'. eapply untouched_intro; [done..|]. intros l HD. by apply Hother.
  - intros f (l & HD & Hw)%Hnodes. destruct (f_page _ _ (ok_forest _ _ Hok) r l f HD Hw) as [[Hf _] _].
    unfold frame_at, FRAME_SIZE. lia.
  - intros r' l Hr' Hne' Hl. apply Hother. split; [|done]. by apply sys_user_iff.
Qed.

(** C12: [free_user_pml4] tears down one user address space: the frames that become free are exactly
    those of its pages and page tables and of the root itself, each given back once; every other user
    address space keeps its entries and the contents of its pages. *)
Theorem free_user_pml4_frees_all s roots r :
  sys_ok s roots → roots r →
  ∃ s' F, free_user_pml4 (hhdm_ptov s r) s = Ok (s', ()) ∧
    restored s s' ∧ sys_ok s' (minus_root roots r) ∧
    NoDup F ∧
    (∀ f, f ∈ F ↔ ∃ l, user_path (get_kernel_pml4_index s) l ∧ walk (phys s) r l = Some f) ∧
    (∀ f, f ∈ F → frame_free (vm_pmm s) (frame_at f) = false) ∧
    (∀ g, 0 ≤ g → frame_free (vm_pmm s') g =
       bool_decide (g ∈ frame_at <$> F) || frame_free (vm_pmm s) g) ∧
    free_frames (vm_pmm s') = wrap64 (free_frames (vm_pmm s) + Z.of_nat (length F)) ∧
    (∀ r', roots r' → r' ≠ r → untouched s s' r').
Proof.
  intros Hsys Hr. destruct (free_user_pml4_sys s roots r Hsys Hr)
    as (s' & F & H1 & H2 & H3 & H4 & H5 & H6 & H7 & H8 & H9 & _).
  by exists s', F.
Qed.

Lemma free_user_pml4_frees_all_witness :
  ∃ s', free_user_pml4 (hhdm_ptov demo_vmm 0x2000) demo_vmm = Ok (s', ()) ∧
    frame_free (vm_pmm s') 6 = true ∧ frame_free (vm_pmm s') 2 = true.
Proof.
  destruct (free_user_pml4_frees_all demo_vmm demo_roots 0x2000)
    as (s' & F & H & _ & _ & _ & HF & _ & Hfree & _).
  - exact demo_ok.
  - reflexivity.
  - exists s'. split; [exact H|]. split; (rewrite Hfree by lia; apply orb_true_intro; left;
      apply bool_decide_eq_true_2, list_elem_of_fmap).
    + exists 0x6000. split; [reflexivity|]. apply HF. exists [0; 0; 2; 0].
      split; [split; [cbn; lia|]|vm_compute; reflexivity].
      split; repeat constructor; vm_compute; congruence.
    + exists 0x2000. split; [reflexivity|]. apply HF. exists [].
      split; [apply user_path_nil|reflexivity].
Defined.

(** ** Memory from a heap cursor *)

Lemma heap_pages_user s h n v : get_kernel_pml4_index s ≤ 256 → heap_ok h →
  (page_no h + Z.of_nat n) * 4096 ≤ get_kernel_pml4_index s * 2 ^ 39 →
  v ∈ heap_pages h n ↔ v mod 4096 = 0 ∧ page_no h * 4096 ≤ v < (page_no h + Z.of_nat n) * 4096.
Proof.
  intros Hks Hh Hend. pose proof (page_no_range h Hh) as Hr. unfold heap_pages.
  rewrite list_elem_of_fmap. split.
  - intros (k & -> & Hk%elem_of_seqZ). unfold page_addr.
    rewrite (proj2 (Z.ltb_lt _ _)) by (pow_consts; lia). lia.
  - intros [Hal Hv]. exists (v / 4096 - page_no h). rewrite elem_of_seqZ. split; [|lia].
    unfold page_addr. rewrite (proj2 (Z.ltb_lt _ _)) by (pow_consts; lia). lia.
Qed.

(** [map_heap_pages] on the active user address space returns an address [v + 8] such that the
    [bytes] bytes from it lie on freshly mapped pages with the requested attributes; the word at [v]
    holds the number of pages (what [free_kernel] later reads); the cursor is advanced past them; and
    every other user page keeps its entry.  RFLAGS.AC, set for the store, is restored. *)
Theorem map_heap_pages_allocates s roots r h bytes flags :
  sys_ok s roots → roots r → cr3 (vm_cpu s) = r → heap_ok h → 0 < page_no h →
  0 ≤ bytes < 2 ^ 63 →
  (page_no h + heap_page_count bytes) * 4096 ≤ get_kernel_pml4_index s * 2 ^ 39 →
  (4 * Z.to_nat (heap_page_count bytes) ≤ avail (vm_pmm s))%nat →
  let v := page_no h * 4096 in let e := v + heap_page_count bytes * 4096 in
  ∃ s' h', map_heap_pages (hhdm_ptov s r) h bytes flags s = Ok (s', (h', v + 8)) ∧
    restored s s' ∧ sys_ok s' roots ∧ heap_ok h' ∧ page_no h' * 4096 = e ∧
    v + 8 + bytes ≤ e < v + 8 + bytes + 4096 ∧
    (∀ a, v ≤ a < e → ∃ w f, pte s' r a = Some w ∧ pte_attrs w f flags ∧
       frame_free (vm_pmm s) (frame_at f) = true) ∧
    (∀ w, pte s' r v = Some w → phys s' (Entry.frame_of w) = heap_page_count bytes) ∧
    (∀ r' a, roots r' → user_addr s a → ¬ (r' = r ∧ v ≤ a < e) → pte s' r' a = pte s r' a).
Proof.
  intros Hsys Hr Hcr Hh Hpos Hb Hend Hav v e. pose proof Hsys as (Hok & Hlock & Hnk & Hks).
  assert (1 ≤ heap_page_count bytes) as Hn1 by (unfold heap_page_count; lia).
  set (n := heap_page_count bytes) in *. pose proof (page_no_range h Hh) as Hrange.
  assert (page_addr (page_no h) = v) as Hpv.
  { unfold page_addr. rewrite (proj2 (Z.ltb_lt _ _)) by (pow_consts; lia). done. }
  assert (∀ x, x ∈ heap_pages h (Z.to_nat n) ↔ x mod 4096 = 0 ∧ v ≤ x < e) as Hpages.
  { intros x. rewrite heap_pages_user by (try done; lia). unfold v, e. lia. }
  assert (∀ a, v ≤ a < e → user_addr s a) as Hua by (unfold user_addr; lia).
  destruct (map_heap_pages_run (sys_dom s roots) s r h bytes flags)
    as (s' & h' & Hrun & Hres & _ & Hh' & Hpn & Hm & Hword); fold n; try done; try lia.
  { by eapply root_ptr. }
  { fold n. intros x [Hal Hx]%Hpages. apply user_dom; auto. }
  fold n in Hpn, Hm, Hword. rewrite Hpv in *. exists s', h'. split; [done|]. split; [done|]. split_and!.
  - eapply sys_ok_restored; [done..|apply Hm].
  - done.
  - lia.
  - unfold e, n, heap_page_count. lia.
  - unfold e, n, heap_page_count. lia.
  - intros a Ha. unfold pte. destruct (idx_page a) as [<- <-]. apply (ma_new _ _ _ _ _ _ Hm), Hpages. lia.
  - intros w Hw%leaf_walk. unfold word in Hword. change (upath v ++ [idx1 v]) with (fpath v) in Hw.
    rewrite Hw in Hword. cbn in Hword. rewrite Z.add_0_r in Hword. congruence.
  - intros r' a Hr' Ha Hnot. eapply user_leaf; [done..|]. intros HD Hl Hi.
    apply (ma_old _ _ _ _ _ _ Hm); [done..|]. intros x Hin%Hpages (-> & Hu & Hi1).
    apply Hnot. split; [done|].
    assert (user_addr s x) as Hx by (apply Hua; lia).
    assert (a / 4096 = x / 4096) by (apply user_fpath_inj; eauto using user_addr_47).
    unfold v, e in *. lia.
Qed.

Lemma map_heap_pages_allocates_witness :
  ∃ s' h', map_heap_pages (hhdm_ptov demo_vmm 0x2000) (mk_Heap 1 0 0 0) 5000 PAGE_USER demo_vmm =
    Ok (s', (h', 0x8000000008)) ∧ page_no h' = 2 ^ 27 + 2.
Proof.
  destruct (map_heap_pages_allocates demo_vmm demo_roots 0x2000 (mk_Heap 1 0 0 0) 5000 PAGE_USER)
    as (s' & h' & H & _ & _ & _ & Hn & _).
  - exact demo_ok.
  - reflexivity.
  - reflexivity.
  - split; split; vm_compute; congruence.
  - reflexivity.
  - split; vm_compute; congruence.
  - vm_compute; congruence.
  - apply Nat.leb_le. vm_compute. reflexivity.
  - exists s', h'. split; [exact H|].
    change (page_no (mk_Heap 1 0 0 0)) with (2 ^ 27) in Hn.
    change (heap_page_count 5000) with 2 in Hn. lia.
Defined.

(** ** User pointers *)

(** The range check of user pointers is exact and cannot be fooled by wrap-around: it accepts
    exactly the ranges whose end, computed without overflow, is not above the user half and whose
    start is inside it. *)
Theorem is_user_range_exact addr size : is_word 64 addr → is_word 64 size →
  is_user_range addr size = true ↔ addr < user_max_addr ∧ addr + size ≤ user_max_addr.
Proof.
  unfold is_user_range, is_word. intros Ha Hs.
  rewrite andb_true_iff, Z.ltb_lt, Z.leb_le. lia.
Qed.

Lemma is_user_range_exact_witness :
  is_user_range 0x7FFFFFFFF000 0x1000 = true ∧ is_user_range 0x1000 0xFFFFFFFFFFFFFFFF = false.
Proof.
  split.
  - apply (is_user_range_exact 0x7FFFFFFFF000 0x1000); [split; vm_compute; congruence..|].
    split; vm_compute; congruence.
  - vm_compute. reflexivity.
Defined.
