(* ===== verification/KVector.v ===== *)
(** * The growable array

    [src/kernel/include/containers/kvector.hpp].  The buffer is a list of slots, [None] for raw
    memory and [Some x] for a constructed element; [nullptr] is the empty buffer.  Using a slot
    outside the buffer or reading a raw one is a [Fault].  [kmalloc] is taken to deliver the buffers
    that [grow] asks for; its own correctness is a separate matter. *)

From S2P Require Import Prelude.

Record kvector (T : Type) := mk_kvector {
  kv_data : list (option T);
  kv_size : Z;
  kv_capacity : Z;
}.
Arguments mk_kvector {T}.
Arguments kv_data {T}.
Arguments kv_size {T}.
Arguments kv_capacity {T}.

Definition KV_INITIAL_CAPACITY : Z := 16.
Definition KV_GROWTH_RATE : Z := 2.

Section kvector.
Context {T : Type}.
Implicit Types (v : kvector T) (l : list T) (x : T).

(** ** Slots *)

Definition with_data (d : list (option T)) v : kvector T := mk_kvector d (kv_size v) (kv_capacity v).
Definition with_size (n : Z) v : kvector T := mk_kvector (kv_data v) n (kv_capacity v).

Definition slot_read (i : Z) : M (kvector T) T :=
  x ← gets (λ v, mjoin (kv_data v !! Z.to_nat i));
  of_option x.

(** Assignment to a slot, or construction in it. *)
Definition slot_write (i : Z) x : M (kvector T) unit :=
  n ← gets (λ v, Z.of_nat (length (kv_data v)));
  if i <? n then modify (λ v, with_data (<[Z.to_nat i := Some x]> (kv_data v)) v) else fault.

(** The destructor call [_data[i].~T()]. *)
Definition slot_destroy (i : Z) : M (kvector T) unit :=
  _ ← slot_read i;
  modify (λ v, with_data (<[Z.to_nat i := None]> (kv_data v)) v).

(** ** Capacity *)

(** The copy loop of [grow]: the first [size] elements of [old] are moved to [new]. *)
Definition move_slots (old new : list (option T)) (size : Z) : option (list (option T)) :=
  foldl (λ acc i, b ← acc; x ← mjoin (old !! i);
           if decide (i < length b)%nat then Some (<[i := Some x]> b) else None)
    (Some new) (seq 0 (Z.to_nat size)).

Definition kv_grow : M (kvector T) unit :=
  v ← get;
  let new_capacity :=
    if kv_capacity v =? 0 then KV_INITIAL_CAPACITY else wrap64 (kv_capacity v * KV_GROWTH_RATE) in
  new_data ← of_option (move_slots (kv_data v) (replicate (Z.to_nat new_capacity) None) (kv_size v));
  modify (λ v, mk_kvector new_data (kv_size v) new_capacity).

(** 64 rounds double any capacity past [2^63]. *)
Definition kv_ensure_capacity (new_capacity : Z) : M (kvector T) unit :=
  while 64 (gets (λ v, kv_capacity v <? new_capacity)) kv_grow.

(** ** Constructors *)

Definition kv_new : kvector T := mk_kvector [] 0 0.

Definition kv_init_list (init : list T) : M (kvector T) unit :=
  _ ← kv_ensure_capacity (Z.of_nat (length init));
  for_each init (λ val,
    n ← gets kv_size;
    _ ← slot_write n val;
    modify (with_size (wrap64 (n + 1)))).

(** [kvector(kvector&& other)]: the new vector and what is left of [other]. *)
Definition kv_move v : kvector T * kvector T := (v, mk_kvector [] 0 0).

(** The body of [kvector(const kvector& other)], run on the empty vector. *)
Definition kv_copy (other : kvector T) : M (kvector T) unit :=
  if kv_size other =? 0 then mret () else
  _ ← kv_ensure_capacity (kv_size other);
  _ ← for_each (seqZ 0 (kv_size other)) (λ i,
        x ← of_option (mjoin (kv_data other !! Z.to_nat i));
        slot_write i x);
  modify (with_size (kv_size other)).

(** ** Operations *)

Definition kv_empty v : bool := kv_size v =? 0.

Definition kv_reserve (n : Z) : M (kvector T) unit := kv_ensure_capacity n.

(** [dflt] is [T{}]. *)
Definition kv_resize (dflt : T) (new_size : Z) : M (kvector T) unit :=
  n ← gets kv_size;
  if new_size <=? n then mret () else
  _ ← kv_ensure_capacity new_size;
  _ ← for_each (seqZ n (new_size - n)) (λ i, slot_write i dflt);
  modify (with_size new_size).

Definition kv_front : M (kvector T) T := slot_read 0.
Definition kv_back : M (kvector T) T := n ← gets kv_size; slot_read (wrap64 (n - 1)).

(** [operator[]], with the bounds check of debug builds. *)
Definition kv_at (debug : bool) (i : Z) : M (kvector T) T :=
  n ← gets kv_size;
  if debug && (n <=? i) then panic else slot_read i.
Definition kv_set (debug : bool) (i : Z) x : M (kvector T) unit :=
  n ← gets kv_size;
  if debug && (n <=? i) then panic else slot_write i x.

(** [push_back] and [emplace_back]. *)
Definition kv_push_back x : M (kvector T) unit :=
  n ← gets kv_size;
  _ ← kv_ensure_capacity (wrap64 (n + 1));
  _ ← slot_write n x;
  modify (with_size (wrap64 (n + 1))).

(** [kvector(count, value)], run on the empty vector. *)
Definition kv_fill (count : Z) x : M (kvector T) unit :=
  _ ← kv_ensure_capacity count;
  for_each (seqZ 0 count) (λ _, kv_push_back x).

(** For element types with a destructor. *)
Definition kv_pop_back : M (kvector T) unit :=
  v ← get;
  if kv_empty v then mret () else
  _ ← modify (with_size (wrap64 (kv_size v - 1)));
  n ← gets kv_size;
  slot_destroy n.

Definition kv_clear : M (kvector T) unit :=
  v ← get;
  if kv_empty v then mret () else
  _ ← for_each (seqZ 0 (kv_size v)) slot_destroy;
  modify (with_size 0).

(** [operator=(kvector&&)] with [this != &other] takes the buffer over; the result is what is left of [other]. *)
Definition kv_move_assign (other : kvector T) : M (kvector T) (kvector T) :=
  _ ← kv_clear;
  _ ← modify (λ _, other);
  mret kv_new.

(** [operator=(const kvector&)] with [this != &other]. *)
Definition kv_assign (other : kvector T) : M (kvector T) unit :=
  _ ← kv_clear;
  _ ← modify (λ _, mk_kvector [] 0 0);
  _ ← kv_ensure_capacity (kv_size other);
  _ ← for_each (seqZ 0 (kv_size other)) (λ i,
        x ← of_option (mjoin (kv_data other !! Z.to_nat i));
        slot_write i x);
  modify (with_size (kv_size other)).

Definition kv_erase (pos : Z) : M (kvector T) unit :=
  n ← gets kv_size;
  if n <=? pos then mret () else
  _ ← for_each (seqZ pos (n - 1 - pos)) (λ i, x ← slot_read (i + 1); slot_write i x);
  modify (with_size (wrap64 (n - 1))).

(** The bound [_size - 1] is computed without a sign. *)
Definition kv_move_to_end (pos : Z) : M (kvector T) unit :=
  n ← gets kv_size;
  for_each (seqZ pos (wrap64 (n - 1) - pos)) (λ i,
    temp ← slot_read i;
    y ← slot_read (i + 1);
    _ ← slot_write i y;
    slot_write (i + 1) temp).

(** The elements a range-based [for] visits. *)
Definition kv_elements : M (kvector T) (list T) :=
  v ← get;
  of_option (mapM (λ i, mjoin (kv_data v !! Z.to_nat i)) (seqZ 0 (kv_size v))).
End kvector.

(** ** What a vector holds

    [kv_holds v l]: the buffer starts with the elements [l].  [kv_rep v l]: these are all elements. *)
Section representation.
Context {T : Type}.
Implicit Types (v : kvector T) (l : list T) (x : T).

Record kv_holds v l : Prop := {
  kh_cap : kv_capacity v = Z.of_nat (length (kv_data v));
  kh_elem i x : l !! i = Some x → kv_data v !! i = Some (Some x);
}.
Record kv_rep v l : Prop := {
  kr_size : kv_size v = Z.of_nat (length l);
  kr_holds : kv_holds v l;
}.

Lemma kh_len v l : kv_holds v l → (length l ≤ length (kv_data v))%nat.
Proof.
  intros [_ H]. destruct (decide (length l ≤ length (kv_data v))%nat); [done|].
  destruct (lookup_lt_is_Some_2 l (length (kv_data v))) as [x Hx]; [lia|].
  apply H, lookup_lt_Some in Hx. lia.
Qed.

Lemma kv_rep_new : kv_rep kv_new ([] : list T).
Proof. by repeat split. Qed.

Lemma kh_with_size n v l : kv_holds v l → kv_holds (with_size n v) l.
Proof. by intros []. Qed.

Lemma wp_slot_read (i : nat) x E Q v l : kv_holds v l → l !! i = Some x → Q x v →
  wp (slot_read (Z.of_nat i)) E Q v.
Proof.
  intros [_ H] Hx%H HQ. unfold slot_read. apply wp_gets. by rewrite Nat2Z.id, Hx.
Qed.

Lemma wp_slot_write (i : nat) x E (Q : unit → kvector T → Prop) v : (i < length (kv_data v))%nat →
  Q () (with_data (<[i := Some x]> (kv_data v)) v) → wp (slot_write (Z.of_nat i) x) E Q v.
Proof.
  intros Hi HQ. unfold slot_write. apply wp_gets. rewrite (proj2 (Z.ltb_lt _ _)) by lia.
  by rewrite Nat2Z.id.
Qed.

Lemma kh_insert i x v l : kv_holds v l → (i < length l)%nat →
  kv_holds (with_data (<[i := Some x]> (kv_data v)) v) (<[i := x]> l).
Proof.
  intros Hh Hi. pose proof (kh_len _ _ Hh). destruct Hh as [Hc He]. split; cbn.
  - by rewrite length_insert.
  - intros j y. destruct (decide (i = j)) as [<-|Hne].
    + rewrite list_lookup_insert_eq by done. intros [= <-]. rewrite list_lookup_insert_eq by lia. done.
    + rewrite !list_lookup_insert_ne by done. apply He.
Qed.

Lemma kh_snoc x v l : kv_holds v l → (length l < length (kv_data v))%nat →
  kv_holds (with_data (<[length l := Some x]> (kv_data v)) v) (l ++ [x]).
Proof.
  intros [Hc He] Hi. split; cbn; [by rewrite length_insert|].
  intros j y. destruct (decide (length l = j)) as [<-|Hne].
  - rewrite lookup_app_r, Nat.sub_diag by lia. intros [= <-].
    by rewrite list_lookup_insert_eq.
  - intros Hy. rewrite list_lookup_insert_ne by done. apply He.
    rewrite lookup_app_l in Hy; [done|]. apply lookup_lt_Some in Hy. rewrite length_app in Hy. cbn in Hy. lia.
Qed.

Lemma kh_prefix v l k : kv_holds v (l ++ k) → kv_holds v l.
Proof. intros [Hc He]. split; [done|]. intros i x Hx. apply He. by apply lookup_app_l_Some. Qed.

(** The slots past the elements do not matter. *)
Lemma kh_destroy i v l : kv_holds v l → (length l ≤ i)%nat →
  kv_holds (with_data (<[i := None]> (kv_data v)) v) l.
Proof.
  intros [Hc He] Hi. split; cbn; [by rewrite length_insert|].
  intros j y Hy. rewrite list_lookup_insert_ne; [by apply He|]. apply lookup_lt_Some in Hy. lia.
Qed.

(** ** Capacity *)

Lemma move_slots_run (old new : list (option T)) l (size : Z) : size = Z.of_nat (length l) →
  (∀ i x, l !! i = Some x → old !! i = Some (Some x)) → (length l ≤ length new)%nat →
  ∃ d, move_slots old new size = Some d ∧ length d = length new ∧
    ∀ i x, l !! i = Some x → d !! i = Some (Some x).
Proof.
  intros -> Hold. unfold move_slots. rewrite Nat2Z.id.
  induction l as [|y l IH] using rev_ind; intros Hlen; [by exists new|].
  rewrite length_app in *. cbn in *. rewrite Nat.add_1_r, seq_S, foldl_app.
  destruct IH as (d & -> & Hd & He); [|lia|].
  { intros i x Hx. apply Hold. by apply lookup_app_l_Some. }
  exists (<[length l := Some y]> d). cbn. rewrite (Hold (length l) y) by (apply list_lookup_middle; done).
  cbn. rewrite decide_True by lia. split; [done|]. split; [by rewrite length_insert|].
  intros i x Hx. destruct (decide (length l = i)) as [<-|Hne].
  - rewrite list_lookup_middle in Hx by done. simplify_eq. rewrite list_lookup_insert_eq by lia. done.
  - rewrite list_lookup_insert_ne by done. apply He.
    rewrite lookup_app_l in Hx; [done|]. apply lookup_lt_Some in Hx. rewrite length_app in Hx. cbn in Hx. lia.
Qed.

Definition KV_MAX : Z := 2 ^ 60.

Lemma wp_grow v l : kv_rep v l → kv_capacity v < KV_MAX →
  wp kv_grow False (λ _ v', kv_rep v' l ∧
    kv_capacity v' = if kv_capacity v =? 0 then 16 else 2 * kv_capacity v) v.
Proof.
  intros [Hs Hh] Hcap. pose proof (kh_len _ _ Hh) as Hlen. destruct Hh as [Hc He].
  unfold kv_grow, KV_GROWTH_RATE, KV_INITIAL_CAPACITY, KV_MAX in *. apply wp_get.
  set (nc := if kv_capacity v =? 0 then 16 else wrap64 (kv_capacity v * 2)).
  assert (nc = if kv_capacity v =? 0 then 16 else 2 * kv_capacity v) as Hnc.
  { unfold nc. destruct (Z.eqb_spec (kv_capacity v) 0); [done|]. rewrite wrap_small; [lia|].
    unfold is_word. change (2 ^ 60) with 1152921504606846976 in *.
    change (2 ^ 64) with 18446744073709551616. lia. }
  assert (kv_capacity v < nc) as Hgt by (rewrite Hnc; destruct (Z.eqb_spec (kv_capacity v) 0); lia).
  destruct (move_slots_run (kv_data v) (replicate (Z.to_nat nc) None) l (kv_size v)) as (d & Hd & Hl & Hde);
    [done|done|rewrite length_replicate; lia|].
  apply wp_of_option. exists d. split; [done|]. cbn. split; [|done].
  split; [done|]. split; [|done]. cbn. rewrite Hl, length_replicate. lia.
Qed.

Lemma wp_ensure_capacity n v l : kv_rep v l → n ≤ KV_MAX →
  wp (kv_ensure_capacity n) False (λ _ v', kv_rep v' l ∧ n ≤ kv_capacity v') v.
Proof.
  intros Hrep Hn. unfold kv_ensure_capacity.
  eapply wp_mono; [|done|].
  - apply (wp_while _ _ _ _ (λ v, kv_rep v l)
      (λ v, if kv_capacity v <=? 0 then 61%nat else Z.to_nat (60 - Z.log2 (kv_capacity v)))); [|done|].
    + intros w Hw Hlt%Z.ltb_lt. unfold KV_MAX in *.
      eapply wp_mono; [apply (wp_grow w l Hw); unfold KV_MAX; lia|done|].
      intros [] w' [Hw' Hc']. split; [done|]. rewrite Hc'.
      pose proof (kh_cap _ _ (kr_holds _ _ Hw)) as Hnn.
      destruct (Z.eqb_spec (kv_capacity w) 0) as [H0|H0].
      * rewrite H0. apply Nat.ltb_lt. by vm_compute.
      * rewrite !(proj2 (Z.leb_gt _ _)) by lia. rewrite Z.log2_double by lia.
        assert (Z.log2 (kv_capacity w) < 60) by (apply Z.log2_lt_pow2; lia). lia.
    + destruct (kv_capacity v <=? 0) eqn:?; [lia|].
      pose proof (Z.log2_nonneg (kv_capacity v)). lia.
  - intros [] w [Hw Hc%Z.ltb_ge]. done.
Qed.
End representation.

(** ** The operations on the elements *)
Section operations.
Context {T : Type}.
Implicit Types (v : kvector T) (l : list T) (x : T).

Lemma kr_room v l n : kv_rep v l → n ≤ kv_capacity v → n ≤ Z.of_nat (length (kv_data v)).
Proof. intros [_ [-> _]]. done. Qed.

Lemma wp_at debug i x v l : kv_rep v l → l !! i = Some x →
  wp (kv_at debug (Z.of_nat i)) False (λ y v', y = x ∧ v' = v) v.
Proof.
  intros [Hs Hh] Hx. unfold kv_at. apply wp_gets. rewrite Hs, (proj2 (Z.leb_gt _ _)), andb_false_r.
  - by eapply wp_slot_read.
  - apply lookup_lt_Some in Hx. lia.
Qed.

Lemma wp_set debug (i : nat) x v l : kv_rep v l → (i < length l)%nat →
  wp (kv_set debug (Z.of_nat i) x) False (λ _ v', kv_rep v' (<[i := x]> l)) v.
Proof.
  intros [Hs Hh] Hi. unfold kv_set. apply wp_gets. rewrite Hs, (proj2 (Z.leb_gt _ _)), andb_false_r by lia.
  pose proof (kh_len _ _ Hh). apply wp_slot_write; [lia|].
  split; [by rewrite length_insert|]. by apply kh_insert.
Qed.

Lemma wp_push_back x v l : kv_rep v l → Z.of_nat (length l) < KV_MAX →
  wp (kv_push_back x) False (λ _ v', kv_rep v' (l ++ [x])) v.
Proof.
  intros Hrep Hlen. unfold kv_push_back. apply wp_gets. rewrite (kr_size _ _ Hrep).
  rewrite wrap_small by (unfold is_word, KV_MAX in *; change (2 ^ 60) with 1152921504606846976 in *;
    change (2 ^ 64) with 18446744073709551616; lia).
  apply wp_bind. eapply wp_mono; [apply (wp_ensure_capacity _ v l); [done|lia]|done|].
  intros [] v' [Hrep' Hcap%(kr_room _ l)]; [|done].
  apply wp_bind. apply wp_slot_write; [lia|].
  split; cbn; [rewrite length_app; cbn; lia|]. apply kh_with_size, kh_snoc; [apply Hrep'|lia].
Qed.

Lemma wp_pop_back v l x : kv_rep v (l ++ [x]) → Z.of_nat (length l) < KV_MAX →
  wp kv_pop_back False (λ _ v', kv_rep v' l) v.
Proof.
  intros [Hs Hh] Hlen. unfold kv_pop_back, kv_empty. apply wp_get.
  rewrite length_app in Hs. cbn in Hs. rewrite (proj2 (Z.eqb_neq _ _)) by lia.
  apply wp_modify, wp_gets. cbn. rewrite Hs.
  replace (Z.of_nat (length l + 1) - 1) with (Z.of_nat (length l)) by lia.
  rewrite wrap_small by (unfold is_word, KV_MAX in *; change (2 ^ 60) with 1152921504606846976 in *;
    change (2 ^ 64) with 18446744073709551616; lia).
  unfold slot_destroy. apply wp_bind.
  eapply (wp_slot_read _ x); [by apply kh_with_size|by apply list_lookup_middle|].
  split; [done|]. rewrite Nat2Z.id. apply kh_destroy; [|done].
  apply kh_with_size. by apply kh_prefix in Hh.
Qed.

Lemma wp_pop_back_nil v : kv_rep v [] → wp kv_pop_back False (λ _ v', v' = v) v.
Proof. intros [Hs _]. unfold kv_pop_back, kv_empty. apply wp_get. by rewrite Hs. Qed.

Lemma wp_clear v l : kv_rep v l → wp kv_clear False (λ _ v', kv_rep v' []) v.
Proof.
  intros [Hs Hh]. unfold kv_clear, kv_empty. apply wp_get.
  destruct (Z.eqb_spec (kv_size v) 0) as [H0|H0].
  { apply wp_ret. split; [done|]. by destruct Hh as [Hc _]. }
  apply wp_bind. eapply wp_mono; [|done|].
  - apply (wp_for_each _ _ _ (λ pre v', kv_capacity v' = Z.of_nat (length (kv_data v')) ∧
      ∀ i x, l !! i = Some x → (length pre ≤ i)%nat → kv_data v' !! i = Some (Some x))).
    + intros pre k post w Hsplit [Hc He].
      assert (k = Z.of_nat (length pre) ∧ k < kv_size v) as [-> Hk].
      { assert (seqZ 0 (kv_size v) !! length pre = Some k) as Hk
          by (rewrite Hsplit; by apply list_lookup_middle).
        apply lookup_seqZ in Hk as [-> Hk]. lia. }
      destruct (lookup_lt_is_Some_2 l (length pre)) as [x Hx]; [lia|].
      unfold slot_destroy, slot_read. apply wp_bind, wp_gets. rewrite Nat2Z.id, (He _ _ Hx) by lia.
      cbn. rewrite length_insert. split; [done|].
      intros i y Hy Hi. rewrite length_app in Hi. cbn in Hi.
      rewrite list_lookup_insert_ne by lia. apply He; [done|lia].
    + destruct Hh. split; [done|]. auto.
  - intros [] w [Hc _]. by repeat split.
Qed.

(** ** Loops that move elements *)

(** The buffer of [v] contains what [f] says. *)
Definition kv_view v (f : nat → option T) : Prop :=
  kv_capacity v = Z.of_nat (length (kv_data v)) ∧ ∀ j x, f j = Some x → kv_data v !! j = Some (Some x).

Lemma kv_view_holds v l : kv_view v (λ j, l !! j) ↔ kv_holds v l.
Proof. split; [by intros []|by intros []]. Qed.

Lemma kv_view_ext v f g : (∀ j x, g j = Some x → f j = Some x) → kv_view v f → kv_view v g.
Proof. intros Hfg [Hc Hf]. split; [done|]. auto. Qed.

Lemma wp_view_read (i : nat) x E Q v f : kv_view v f → f i = Some x → Q x v →
  wp (slot_read (Z.of_nat i)) E Q v.
Proof. intros [_ H] Hx%H HQ. unfold slot_read. apply wp_gets. by rewrite Nat2Z.id, Hx. Qed.

Lemma wp_view_write (i : nat) x E (Q : unit → kvector T → Prop) v f y : kv_view v f →
  f i = Some y → (∀ v', kv_view v' (λ j, if decide (j = i) then Some x else f j) →
    kv_size v' = kv_size v → Q () v') → wp (slot_write (Z.of_nat i) x) E Q v.
Proof.
  intros [Hc Hf] Hy HQ. apply Hf, lookup_lt_Some in Hy. apply wp_slot_write; [done|].
  apply HQ; [|done]. split; cbn; [by rewrite length_insert|]. intros j z.
  case_decide as Hj; [subst; intros [= <-]; by rewrite list_lookup_insert_eq|].
  intros Hz. rewrite list_lookup_insert_ne by done. auto.
Qed.

Lemma seqZ_split m n pre k post : seqZ m n = pre ++ k :: post →
  k = m + Z.of_nat (length pre) ∧ m ≤ k < m + n.
Proof.
  intros Hs. assert (seqZ m n !! length pre = Some k) as Hk by (rewrite Hs; by apply list_lookup_middle).
  apply lookup_seqZ in Hk as [-> Hk]. lia.
Qed.

Lemma wp_erase (pos : nat) v l : kv_rep v l → Z.of_nat (length l) < KV_MAX → (pos < length l)%nat →
  wp (kv_erase (Z.of_nat pos)) False (λ _ v', kv_rep v' (delete pos l)) v.
Proof.
  intros [Hs Hh] Hmax Hpos. unfold kv_erase. apply wp_gets. rewrite Hs, (proj2 (Z.leb_gt _ _)) by lia.
  set (f := λ k j, if decide (pos ≤ j < pos + k)%nat then l !! S j else l !! j).
  apply wp_bind. eapply wp_mono; [|done|].
  - apply (wp_for_each _ _ _ (λ pre v', kv_view v' (f (length pre)))).
    + intros pre k post w [-> Hk]%seqZ_split Hw.
      destruct (lookup_lt_is_Some_2 l (S (pos + length pre))) as [x Hx]; [lia|].
      destruct (lookup_lt_is_Some_2 l (pos + length pre)) as [y Hy]; [lia|].
      apply wp_bind. replace (Z.of_nat pos + Z.of_nat (length pre) + 1)
        with (Z.of_nat (S (pos + length pre))) by lia.
      eapply (wp_view_read _ x); [done|unfold f; by rewrite decide_False by lia|].
      rewrite <- Nat2Z.inj_add. eapply wp_view_write; [done|unfold f; by rewrite decide_False by lia|].
      intros w' Hw' _. eapply kv_view_ext; [|exact Hw']. intros j z. unfold f.
      rewrite length_app. cbn. repeat case_decide; try done; try lia. subst j. congruence.
    + apply kv_view_holds in Hh. eapply kv_view_ext; [|exact Hh].
      intros j z. unfold f. by rewrite decide_False by (cbn; lia).
  - intros [] w Hw. rewrite length_seqZ in Hw.
    assert (length (delete pos l) = (length l - 1)%nat) as Hd
      by (apply length_delete, lookup_lt_is_Some_2; lia).
    split; cbn.
    + rewrite Hd, wrap_small; [lia|]. unfold is_word, KV_MAX in *.
      change (2 ^ 60) with 1152921504606846976 in *. change (2 ^ 64) with 18446744073709551616. lia.
    + apply kh_with_size, kv_view_holds. eapply kv_view_ext; [|exact Hw]. intros j z Hz. unfold f.
      pose proof (lookup_lt_Some _ _ _ Hz). case_decide.
      * by rewrite list_lookup_delete_ge in Hz by lia.
      * by rewrite list_lookup_delete_lt in Hz by lia.
Qed.

Lemma wp_move_to_end (pos : nat) v l x : kv_rep v l → Z.of_nat (length l) < KV_MAX →
  l !! pos = Some x →
  wp (kv_move_to_end (Z.of_nat pos)) False (λ _ v', kv_rep v' (delete pos l ++ [x])) v.
Proof.
  intros [Hs Hh] Hmax Hx. pose proof (lookup_lt_Some _ _ _ Hx) as Hpos.
  unfold kv_move_to_end. apply wp_gets. rewrite Hs, wrap_small; last first.
  { unfold is_word, KV_MAX in *. change (2 ^ 60) with 1152921504606846976 in *.
    change (2 ^ 64) with 18446744073709551616. lia. }
  set (f := λ k j, if decide (pos ≤ j < pos + k)%nat then l !! S j else
    if decide (j = pos + k)%nat then Some x else l !! j).
  eapply wp_mono; [|done|].
  - apply (wp_for_each _ _ _ (λ pre v', kv_view v' (f (length pre)) ∧ kv_size v' = kv_size v)).
    + intros pre k post w [-> Hk]%seqZ_split [Hw Hsz].
      destruct (lookup_lt_is_Some_2 l (S (pos + length pre))) as [y Hy]; [lia|].
      rewrite <- Nat2Z.inj_add.
      replace (Z.of_nat (pos + length pre) + 1) with (Z.of_nat (S (pos + length pre))) by lia.
      assert (f (length pre) (pos + length pre)%nat = Some x) as Hf1.
      { unfold f. rewrite decide_False, decide_True by lia. done. }
      assert (f (length pre) (S (pos + length pre)) = Some y) as Hf2.
      { unfold f. rewrite !decide_False by lia. done. }
      apply wp_bind. eapply wp_view_read; [done..|].
      apply wp_bind. eapply wp_view_read; [done..|].
      apply wp_bind. eapply wp_view_write; [done..|]. intros w1 Hw1 Hs1.
      eapply wp_view_write; [done|cbn; by rewrite decide_False by lia|]. intros w2 Hw2 Hs2.
      split; [|congruence]. eapply kv_view_ext; [|exact Hw2]. intros j z. cbn. unfold f.
      rewrite length_app. cbn. repeat case_decide; subst; try done; try lia; congruence.
    + split; [|done]. apply kv_view_holds in Hh. eapply kv_view_ext; [|exact Hh].
      intros j z. unfold f. cbn. repeat case_decide; try lia; [|done]. subst.
      rewrite Nat.add_0_r. congruence.
  - intros [] w [Hw Hsz]. rewrite length_seqZ in Hw.
    assert (length (delete pos l) = (length l - 1)%nat) as Hd by (by apply length_delete).
    split; [rewrite length_app, Hd; cbn; lia|].
    apply kv_view_holds. eapply kv_view_ext; [|exact Hw]. intros j z Hz. unfold f.
    pose proof (lookup_lt_Some _ _ _ Hz) as Hj. rewrite length_app in Hj. cbn in Hj.
    destruct (decide (j = length l - 1)%nat) as [->|Hne].
    + rewrite decide_False, decide_True by lia. rewrite <- Hd in Hz. rewrite list_lookup_middle in Hz by done. done.
    + rewrite lookup_app_l in Hz by lia. repeat case_decide; try lia.
      * by rewrite list_lookup_delete_ge in Hz by lia.
      * by rewrite list_lookup_delete_lt in Hz by lia.
Qed.
(** Constructing the elements [ys] behind [l], each computed by [val]. *)
Lemma wp_fill_slots (val : Z → M (kvector T) T) ys v l :
  kv_holds v l → (length l + length ys ≤ length (kv_data v))%nat →
  (∀ k y w, ys !! k = Some y → val (Z.of_nat (length l + k)) w = Ok (w, y)) →
  wp (for_each (seqZ (Z.of_nat (length l)) (Z.of_nat (length ys)))
        (λ i, x ← val i; slot_write i x)) False
    (λ _ v', kv_holds v' (l ++ ys) ∧ kv_size v' = kv_size v) v.
Proof.
  intros Hh Hlen Hval. eapply wp_mono; [|done|].
  - apply (wp_for_each _ _ _ (λ pre v', kv_holds v' (l ++ take (length pre) ys) ∧
      kv_size v' = kv_size v ∧ length (kv_data v') = length (kv_data v))); [|by rewrite take_0, app_nil_r].
    intros pre k post w [-> Hk]%seqZ_split (Hw & Hs & Hl).
    destruct (lookup_lt_is_Some_2 ys (length pre)) as [y Hy]; [lia|].
    assert (length (l ++ take (length pre) ys) = (length l + length pre)%nat) as Hll.
    { rewrite length_app, length_take. lia. }
    apply wp_bind. rewrite <- Nat2Z.inj_add. unfold wp at 1. rewrite (Hval _ _ w Hy).
    apply wp_slot_write; [lia|]. rewrite <- Hll. split; [|cbn; by rewrite length_insert].
    rewrite (length_app pre). cbn [length]. rewrite Nat.add_1_r, (take_S_r _ _ _ Hy), (assoc_L (++)).
    apply kh_snoc; [done|lia].
  - intros [] w (Hw & Hs & _). rewrite length_seqZ, Nat2Z.id, take_ge in Hw by lia. done.
Qed.

Lemma wp_resize dflt (n : nat) v l : kv_rep v l → Z.of_nat n < KV_MAX →
  wp (kv_resize dflt (Z.of_nat n)) False
    (λ _ v', kv_rep v' (l ++ replicate (n - length l) dflt)) v.
Proof.
  intros Hrep Hn. unfold kv_resize. apply wp_gets. rewrite (kr_size _ _ Hrep).
  destruct (Z.leb_spec (Z.of_nat n) (Z.of_nat (length l))) as [Hle|Hgt].
  { apply wp_ret. replace (n - length l)%nat with 0%nat by lia. by rewrite app_nil_r. }
  apply wp_bind. eapply wp_mono; [apply (wp_ensure_capacity _ v l); [done|lia]|done|].
  intros [] w [Hw Hcap%(kr_room _ l)]; [|done]. apply wp_bind.
  assert (∀ y k, replicate (n - length l) dflt !! k = Some y → y = dflt) as Hrepl.
  { intros y k Hy. by apply lookup_replicate in Hy as [-> _]. }
  pose proof (wp_fill_slots (λ _, mret dflt) (replicate (n - length l) dflt) w l) as Hf.
  rewrite length_replicate in Hf.
  replace (Z.of_nat n - Z.of_nat (length l)) with (Z.of_nat (n - length l)) by lia.
  eapply wp_mono; [apply Hf; [apply Hw|lia|]|done|].
  { intros k y w' Hy. by rewrite (Hrepl _ _ Hy). }
  intros [] w' [Hw' Hs']. split; cbn; [rewrite length_app, length_replicate; lia|].
  by apply kh_with_size.
Qed.

Lemma wp_copy_slots other l v : kv_rep other l → kv_rep v [] → Z.of_nat (length l) < KV_MAX →
  wp (_ ← kv_ensure_capacity (kv_size other);
      _ ← for_each (seqZ 0 (kv_size other)) (λ i,
            x ← of_option (mjoin (kv_data other !! Z.to_nat i));
            slot_write i x);
      modify (with_size (kv_size other))) False (λ _ v', kv_rep v' l) v.
Proof.
  intros [Hso Hho] Hv Hlen. rewrite Hso.
  apply wp_bind. eapply wp_mono; [apply (wp_ensure_capacity _ v []); [done|lia]|done|].
  intros [] w [Hw Hcap%(kr_room _ [])]; [|done]. apply wp_bind.
  pose proof (wp_fill_slots (λ i, of_option (mjoin (kv_data other !! Z.to_nat i))) l w []) as Hf.
  eapply wp_mono; [apply Hf; [apply Hw|cbn; lia|]|done|].
  { intros k y w' Hy. rewrite Nat2Z.id. cbn. by rewrite (kh_elem _ _ Hho _ _ Hy). }
  intros [] w' [Hw' Hs']. split; [done|]. by apply kh_with_size.
Qed.

Lemma wp_copy other l : kv_rep other l → Z.of_nat (length l) < KV_MAX →
  wp (kv_copy other) False (λ _ v', kv_rep v' l) kv_new.
Proof.
  intros Ho Hlen. unfold kv_copy. destruct (Z.eqb_spec (kv_size other) 0) as [H0|H0].
  - apply wp_ret. rewrite (kr_size _ _ Ho) in H0. destruct l; [apply kv_rep_new|done].
  - apply wp_copy_slots; [done|apply kv_rep_new|done].
Qed.

Lemma wp_assign other l v k : kv_rep other l → kv_rep v k → Z.of_nat (length l) < KV_MAX →
  wp (kv_assign other) False (λ _ v', kv_rep v' l) v.
Proof.
  intros Ho Hv Hlen. unfold kv_assign. apply wp_bind. eapply wp_mono; [by apply (wp_clear v k)|done|].
  intros [] w Hw. apply wp_modify. apply wp_copy_slots; [done|apply kv_rep_new|done].
Qed.

Lemma wp_move_assign other l v k : kv_rep other l → kv_rep v k →
  wp (kv_move_assign other) False (λ left v', kv_rep v' l ∧ kv_rep left []) v.
Proof.
  intros Ho Hv. unfold kv_move_assign. apply wp_bind. eapply wp_mono; [by apply (wp_clear v k)|done|].
  intros [] w Hw. apply wp_modify, wp_ret. split; [done|apply kv_rep_new].
Qed.

Lemma wp_init_list l v : kv_rep v [] → Z.of_nat (length l) < KV_MAX →
  wp (kv_init_list l) False (λ _ v', kv_rep v' l) v.
Proof.
  intros Hv Hlen. unfold kv_init_list.
  apply wp_bind. eapply wp_mono; [apply (wp_ensure_capacity _ v []); [done|lia]|done|].
  intros [] w [Hw Hcap%(kr_room _ [])]; [|done].
  eapply wp_mono; [|done|].
  - apply (wp_for_each _ _ _ (λ pre v', kv_rep v' pre ∧ length (kv_data v') = length (kv_data w))); [|done].
    intros pre x post w' Hl [Hw' Hd].
    assert (length pre < length l)%nat by (rewrite Hl, length_app; cbn; lia).
    apply wp_gets. rewrite (kr_size _ _ Hw'). apply wp_bind. apply wp_slot_write; [lia|].
    split; [|cbn; by rewrite length_insert]. split; cbn.
    + rewrite length_app, wrap_small; [cbn; lia|]. unfold is_word, KV_MAX in *.
      change (2 ^ 60) with 1152921504606846976 in *. change (2 ^ 64) with 18446744073709551616. lia.
    + apply kh_with_size, kh_snoc; [apply Hw'|lia].
  - by intros [] w' [? _].
Qed.

Lemma kv_elements_run v l : kv_rep v l → kv_elements v = Ok (v, l).
Proof.
  intros [Hs Hh]. unfold kv_elements, get, mbind, M_bind, of_option.
  replace (mapM _ _) with (Some l); [done|]. symmetry. apply mapM_Some, Forall2_same_length_lookup_2.
  - rewrite length_seqZ. lia.
  - intros i k x [-> Hi]%lookup_seqZ Hx. rewrite Z.add_0_l, Nat2Z.id.
    by rewrite (kh_elem _ _ Hh _ _ Hx).
Qed.
End operations.

(** ** Vectors against lists *)
Section refinement.
Context {T : Type} (dflt : T).

Inductive vop : Type :=
| Push (x : T)
| Pop
| Clear
| Erase (pos : nat)
| MoveToEnd (pos : nat)
| Resize (n : nat)
| Reserve (n : nat)
| Set_ (i : nat) (x : T)
| At (i : nat)
| AssignFrom (other : list T)
| MoveFrom (other : list T).

(** The calls of the vector.  [AssignFrom] and [MoveFrom] assign from a vector built from a list. *)
Definition run_vop (op : vop) : M (kvector T) (option T) :=
  match op with
  | Push x => _ ← kv_push_back x; mret None
  | Pop => _ ← kv_pop_back; mret None
  | Clear => _ ← kv_clear; mret None
  | Erase pos => _ ← kv_erase (Z.of_nat pos); mret None
  | MoveToEnd pos => _ ← kv_move_to_end (Z.of_nat pos); mret None
  | Resize n => _ ← kv_resize dflt (Z.of_nat n); mret None
  | Reserve n => _ ← kv_reserve (Z.of_nat n); mret None
  | Set_ i x => _ ← kv_set false (Z.of_nat i) x; mret None
  | At i => x ← kv_at false (Z.of_nat i); mret (Some x)
  | AssignFrom other => λ v,
      match kv_init_list other kv_new with
      | Ok (o, _) => (_ ← kv_assign o; mret None) v
      | Panic => Panic | Fault => Fault | Hang => Hang
      end
  | MoveFrom other => λ v,
      match kv_init_list other kv_new with
      | Ok (o, _) => (_ ← kv_move_assign o; mret None) v
      | Panic => Panic | Fault => Fault | Hang => Hang
      end
  end.

(** The same calls on a list; [None] where the C++ program has no defined meaning. *)
Definition spec_vop (op : vop) (l : list T) : option (list T * option T) :=
  match op with
  | Push x => Some (l ++ [x], None)
  | Pop => Some (take (length l - 1) l, None)
  | Clear => Some ([], None)
  | Erase pos => Some (if decide (pos < length l)%nat then delete pos l else l, None)
  | MoveToEnd pos => x ← l !! pos; Some (delete pos l ++ [x], None)
  | Resize n => Some (l ++ replicate (n - length l) dflt, None)
  | Reserve n => Some (l, None)
  | Set_ i x => if decide (i < length l)%nat then Some (<[i := x]> l, None) else None
  | At i => x ← l !! i; Some (l, Some x)
  | AssignFrom other | MoveFrom other => Some (other, None)
  end.

(** Sizes and requested capacities stay below [2^60]. *)
Definition vop_small (op : vop) (l : list T) : Prop :=
  Z.of_nat (length l) < KV_MAX ∧
  match op with
  | Resize n | Reserve n => Z.of_nat n < KV_MAX
  | AssignFrom other | MoveFrom other => Z.of_nat (length other) < KV_MAX
  | _ => True
  end.

Lemma wp_vop op v l l' r : kv_rep v l → spec_vop op l = Some (l', r) → vop_small op l →
  wp (run_vop op) False (λ r' v', r' = r ∧ kv_rep v' l') v.
Proof.
  intros Hv Hspec [Hlen Hsm]. destruct op; cbn [spec_vop] in Hspec; cbn [run_vop].
  - simplify_eq. apply wp_bind. by eapply wp_mono; [apply wp_push_back|done|].
  - simplify_eq. apply wp_bind. destruct l as [|x l _] using rev_ind.
    + eapply wp_mono; [by apply wp_pop_back_nil|done|]. by intros [] w ->.
    + rewrite length_app in *. cbn in *. rewrite Nat.add_sub, take_app_length.
      eapply wp_mono; [eapply wp_pop_back; [done|lia]|done|]. done.
  - simplify_eq. apply wp_bind. by eapply wp_mono; [eapply wp_clear|done|].
  - case_decide; simplify_eq; apply wp_bind.
    + by eapply wp_mono; [eapply wp_erase|done|].
    + unfold kv_erase. apply wp_gets. rewrite (kr_size _ _ Hv), (proj2 (Z.leb_le _ _)) by lia. done.
  - destruct (l !! pos) as [x|] eqn:Hx; [|done]. cbn in Hspec. simplify_eq. apply wp_bind.
    by eapply wp_mono; [eapply wp_move_to_end|done|].
  - simplify_eq. apply wp_bind. by eapply wp_mono; [eapply wp_resize|done|].
  - simplify_eq. apply wp_bind. eapply wp_mono; [eapply wp_ensure_capacity; [done|lia]|done|].
    by intros [] w [? _].
  - case_decide; simplify_eq. apply wp_bind. by eapply wp_mono; [eapply wp_set|done|].
  - destruct (l !! i) as [x|] eqn:Hx; [|done]. cbn in Hspec. simplify_eq. apply wp_bind.
    eapply wp_mono; [by eapply wp_at|done|]. intros y w [-> ->]. done.
  - simplify_eq. destruct (wp_total _ _ _ (wp_init_list l' kv_new kv_rep_new Hsm)) as (o & [] & Ho & Hrep).
    unfold wp. rewrite Ho. apply (wp_bind False (kv_assign o)).
    by eapply wp_mono; [eapply wp_assign|done|].
  - simplify_eq. destruct (wp_total _ _ _ (wp_init_list l' kv_new kv_rep_new Hsm)) as (o & [] & Ho & Hrep).
    unfold wp. rewrite Ho. apply (wp_bind False (kv_move_assign o)).
    eapply wp_mono; [by eapply wp_move_assign|done|]. by intros left w [? _].
Qed.

(** Sequences of calls, with the list of results. *)
Fixpoint run_vops (ops : list vop) : M (kvector T) (list (option T)) :=
  match ops with
  | [] => mret []
  | op :: ops' => r ← run_vop op; rs ← run_vops ops'; mret (r :: rs)
  end.
Fixpoint spec_vops (ops : list vop) (l : list T) : option (list T * list (option T)) :=
  match ops with
  | [] => Some (l, [])
  | op :: ops' => '(l', r) ← spec_vop op l; '(l'', rs) ← spec_vops ops' l'; Some (l'', r :: rs)
  end.
Fixpoint vops_small (ops : list vop) (l : list T) : Prop :=
  match ops with
  | [] => True
  | op :: ops' => vop_small op l ∧
      match spec_vop op l with Some (l', _) => vops_small ops' l' | None => True end
  end.

Lemma wp_vops ops : ∀ v l l' rs, kv_rep v l → spec_vops ops l = Some (l', rs) → vops_small ops l →
  wp (run_vops ops) False (λ rs' v', rs' = rs ∧ kv_rep v' l') v.
Proof.
  induction ops as [|op ops IH]; intros v l l' rs Hv Hspec Hsm; cbn in Hspec |- *; [by simplify_eq|].
  destruct (spec_vop op l) as [[l1 r]|] eqn:H1; [|done]. cbn in Hspec.
  destruct (spec_vops ops l1) as [[l2 rs']|] eqn:H2; [|done]. cbn in Hspec. simplify_eq.
  cbn in Hsm. rewrite H1 in Hsm. destruct Hsm as [Hs1 Hs2].
  apply wp_bind. eapply wp_mono; [by eapply wp_vop|done|]. intros r' w [-> Hw].
  apply wp_bind. eapply wp_mono; [by eapply IH|done|]. by intros rs w' [-> Hw'].
Qed.
End refinement.

(** C33: every sequence of vector calls that is defined for a list behaves as on that list: starting
    from the empty vector it never faults, panics or loops forever, returns the same values and ends
    with the same elements, through every reallocation. *)
Theorem kvector_refines_list {T} (dflt : T) ops l rs :
  spec_vops dflt ops [] = Some (l, rs) → vops_small dflt ops [] →
  ∃ v, run_vops dflt ops kv_new = Ok (v, rs) ∧ kv_elements v = Ok (v, l).
Proof.
  intros Hspec Hsm.
  destruct (wp_total _ _ _ (wp_vops dflt ops kv_new [] l rs kv_rep_new Hspec Hsm))
    as (v & rs' & Hrun & -> & Hv).
  exists v. split; [done|]. by apply kv_elements_run.
Qed.

Lemma kvector_refines_list_witness :
  let ops := ((λ k, Push k) <$> seqZ 0 20) ++ [Erase 3; MoveToEnd 0; Pop; Resize 25; At 17; AssignFrom [7; 8]; At 1] in
  ∃ v, run_vops 0 ops kv_new = Ok (v, replicate 24 None ++ [Some 19; None; Some 8]) ∧
    kv_elements v = Ok (v, [7; 8]).
Proof.
  intros ops. apply (kvector_refines_list 0 ops [7; 8]).
  - vm_compute. reflexivity.
  - vm_compute. repeat split; reflexivity.
Defined.

(** On an empty vector the loop bound of [move_to_end] wraps around and the loop leaves the buffer. *)
Lemma move_to_end_empty_faults {T} (v : kvector T) :
  kv_size v = 0 → kv_data v = [] → kv_move_to_end 0 v = Fault.
Proof.
  intros Hs Hd. unfold kv_move_to_end, mbind, M_bind, gets. rewrite Hs.
  rewrite seqZ_cons by (by vm_compute). cbn [for_each]. unfold mbind, M_bind, slot_read, mbind, M_bind, gets.
  by rewrite Hd.
Qed.

(** [erase] leaves the slot behind the last element constructed: nothing destroys it. *)
Lemma erase_keeps_last {T} (x y : T) v : kv_rep v [x; y] →
  ∃ v', kv_erase 0 v = Ok (v', ()) ∧ kv_size v' = 1 ∧ kv_data v' !! 1%nat = Some (Some y).
Proof.
  intros [Hs [Hc He]]. pose proof (He 0%nat x eq_refl) as H0. pose proof (He 1%nat y eq_refl) as H1.
  destruct v as [d n c]. cbn in *. subst n. destruct d as [|a [|b d]]; [done..|]. cbn in H0, H1. simplify_eq.
  eexists. split; [reflexivity|]. done.
Qed.
