(* ===== verification/KHeap.v ===== *)
(** * Binary heaps

    [src/kernel/include/containers/kmin_heap.hpp] and [kmax_heap.hpp], over the vector of
    [KVector.v].  The two files differ only in the direction of the comparison, so the operations
    take the comparison [lt] as an argument: [kmin_] and [kmax_] are the two instances. *)

From S2P Require Import Prelude KVector.

Record node (V : Type) := mk_node { n_key : Z; n_value : V }.
Arguments mk_node {V}.
Arguments n_key {V}.
Arguments n_value {V}.

Definition get_left (i : Z) : Z := wrap64 (i * 2 + 1).
Definition get_right (i : Z) : Z := wrap64 (i * 2 + 2).
Definition get_parent (i : Z) : Z := wrap64 (i - 1) / 2.

Section heap.
Context {V : Type} (lt : Z → Z → bool).

Definition heap_key (i : Z) : M (kvector (node V)) Z := n ← kv_at false i; mret (n_key n).

Definition heap_swap (i j : Z) : M (kvector (node V)) unit :=
  temp ← kv_at false i;
  y ← kv_at false j;
  _ ← kv_set false i y;
  kv_set false j temp.

(** [min_heapify] and [max_heapify]; [fuel] bounds the recursion. *)
Fixpoint heapify (fuel : nat) (root : Z) : M (kvector (node V)) unit :=
  match fuel with
  | O => hang
  | S fuel' =>
      let l := get_left root in
      let r := get_right root in
      size ← gets kv_size;
      smallest ←
        (if l <? size then
           kl ← heap_key l; kroot ← heap_key root; mret (if lt kl kroot then l else root)
         else mret root);
      smallest ←
        (if r <? size then
           kr ← heap_key r; ks ← heap_key smallest; mret (if lt kr ks then r else smallest)
         else mret smallest);
      if smallest =? root then mret () else
      _ ← heap_swap root smallest;
      heapify fuel' smallest
  end.

(** The loop of [insert]; [get_key(parent) <= get_key(i)] is [negb (key i < key parent)]. *)
Fixpoint sift_up (fuel : nat) (i : Z) : M (kvector (node V)) unit :=
  if i =? 0 then mret () else
  match fuel with
  | O => hang
  | S fuel' =>
      let parent := get_parent i in
      kp ← heap_key parent;
      ki ← heap_key i;
      if negb (lt ki kp) then mret () else
      _ ← heap_swap i parent;
      sift_up fuel' parent
  end.

Definition heap_insert (key : Z) (value : V) : M (kvector (node V)) unit :=
  _ ← kv_push_back (mk_node key value);
  size ← gets kv_size;
  sift_up (Z.to_nat size) (wrap64 (size - 1)).

Definition heap_peak : M (kvector (node V)) V :=
  v ← get;
  _ ← kassert (negb (kv_empty v));
  n ← kv_front;
  mret (n_value n).

Definition heap_pop : M (kvector (node V)) unit :=
  v ← get;
  _ ← kassert (negb (kv_empty v));
  if kv_size v =? 1 then kv_pop_back else
  back ← kv_back;
  _ ← kv_set false 0 back;
  _ ← kv_pop_back;
  size ← gets kv_size;
  heapify (Z.to_nat size) 0.
End heap.

Definition kmin_heapify {V} := @heapify V Z.ltb.
Definition kmin_insert {V} := @heap_insert V Z.ltb.
Definition kmin_peak {V} := @heap_peak V.
Definition kmin_pop {V} := @heap_pop V Z.ltb.

Definition kmax_heapify {V} := @heapify V Z.gtb.
Definition kmax_insert {V} := @heap_insert V Z.gtb.
Definition kmax_peak {V} := @heap_peak V.
Definition kmax_pop {V} := @heap_pop V Z.gtb.

(** ** Heap order *)

(** What the proofs need of the comparison. *)
Class HeapOrder (lt : Z → Z → bool) : Prop := {
  lt_asym a b : lt a b = true → lt b a = false;
  nlt_trans a b c : lt b a = false → lt c b = false → lt c a = false;
}.

#[export] Instance ltb_order : HeapOrder Z.ltb.
Proof. split; intros *; rewrite ?Z.ltb_lt, ?Z.ltb_ge; lia. Qed.
#[export] Instance gtb_order : HeapOrder Z.gtb.
Proof. split; intros *; rewrite ?Z.gtb_ltb, ?Z.ltb_lt, ?Z.ltb_ge; lia. Qed.

Section order.
Context {V : Type} (lt : Z → Z → bool) `{!HeapOrder lt}.
Implicit Types (l : list (node V)) (i j : nat).

(** [a] may stand above [b]. *)
Definition above (a b : Z) : Prop := lt b a = false.
Definition key l i : Z := default 0 (n_key <$> l !! i).
Definition up i : nat := ((i - 1) / 2)%nat.

Definition heap_ordered l : Prop :=
  ∀ j, (0 < j < length l)%nat → above (key l (up j)) (key l j).

Definition swapped l i j : list (node V) :=
  match l !! i, l !! j with
  | Some a, Some b => <[j := a]> (<[i := b]> l)
  | _, _ => l
  end.

Lemma above_refl a : above a a.
Proof.
  unfold above. destruct (lt a a) eqn:H; [|done]. by pose proof (lt_asym _ _ H); congruence.
Qed.
Lemma above_lt a b : lt a b = true → above a b.
Proof. apply lt_asym. Qed.
Lemma above_trans a b c : above a b → above b c → above a c.
Proof. apply nlt_trans. Qed.

Lemma swapped_length l i j : length (swapped l i j) = length l.
Proof. unfold swapped. by repeat case_match; rewrite ?length_insert. Qed.

Lemma swapped_perm l i j : swapped l i j ≡ₚ l.
Proof. unfold swapped. repeat case_match; try done. by apply Permutation_insert_swap. Qed.

Lemma swapped_key l i j k : (i < length l)%nat → (j < length l)%nat →
  key (swapped l i j) k = if decide (k = i) then key l j else if decide (k = j) then key l i else key l k.
Proof.
  intros Hi Hj. destruct (lookup_lt_is_Some_2 l i Hi) as [a Ha], (lookup_lt_is_Some_2 l j Hj) as [b Hb].
  unfold swapped, key. rewrite Ha, Hb.
  destruct (decide (k = j)) as [->|Hkj].
  - rewrite list_lookup_insert_eq by (by rewrite length_insert).
    case_decide; [subst; by simplify_eq|done].
  - rewrite list_lookup_insert_ne by done. case_decide as Hk.
    + subst. by rewrite list_lookup_insert_eq.
    + by rewrite list_lookup_insert_ne.
Qed.

(** Heap order except above [i]: the state of the loop of [insert]. *)
Definition up_ok l i : Prop :=
  (∀ j, (0 < j < length l)%nat → j ≠ i → above (key l (up j)) (key l j)) ∧
  (∀ j, (0 < j < length l)%nat → up j = i → (0 < i)%nat → above (key l (up i)) (key l j)).

(** Heap order except below [r]: the state of [heapify]. *)
Definition down_ok l r : Prop :=
  (∀ j, (0 < j < length l)%nat → up j ≠ r → above (key l (up j)) (key l j)) ∧
  (∀ j, (0 < j < length l)%nat → up j = r → (0 < r)%nat → above (key l (up r)) (key l j)).

Lemma up_lt i : (0 < i)%nat → (up i < i)%nat.
Proof. intros Hi. unfold up. apply Nat.Div0.div_lt_upper_bound; lia. Qed.

Lemma up_ok_done l i : up_ok l i → i = 0%nat ∨ above (key l (up i)) (key l i) → heap_ordered l.
Proof.
  intros [H1 _] Hi j Hj. destruct (decide (j = i)) as [->|]; [|by apply H1].
  destruct Hi as [->|]; [lia|done].
Qed.

Lemma up_ok_step l i : up_ok l i → (0 < i < length l)%nat → lt (key l i) (key l (up i)) = true →
  up_ok (swapped l i (up i)) (up i).
Proof.
  intros [H1 H2] Hi Hlt. pose proof (up_lt i) as Hp. set (p := up i) in *.
  assert (p < length l)%nat as Hpl by lia.
  assert (above (key l i) (key l p)) as Hip by (by apply above_lt).
  split; intros j; rewrite swapped_length; intros Hj.
  - intros Hne. rewrite !swapped_key by lia.
    pose proof (H1 j Hj) as Hj1. pose proof (H2 j Hj) as Hj2. pose proof (up_lt j) as Hjp.
    destruct (decide (j = i)) as [->|Hji].
    { fold p. rewrite (decide_False (P := p = i)) by lia. by rewrite !decide_True. }
    rewrite (decide_False (P := j = p)) by done.
    destruct (decide (up j = i)) as [Hu|Hu]; [apply Hj2; [done|lia]|].
    case_decide as Hu'; [|by apply Hj1]. eapply above_trans; [exact Hip|]. rewrite <- Hu'. by apply Hj1.
  - intros Hu Hp0. rewrite !swapped_key by lia.
    pose proof (up_lt p Hp0). pose proof (up_lt j ltac:(lia)) as Hjp.
    rewrite !(decide_False (P := up p = _)) by lia.
    assert (above (key l (up p)) (key l p)) as Hpp by (apply H1; lia).
    case_decide as Hji; [done|]. rewrite decide_False by lia.
    eapply above_trans; [exact Hpp|]. rewrite <- Hu. by apply H1.
Qed.

(** The root is above everything. *)
Lemma heap_root l j : heap_ordered l → (j < length l)%nat → above (key l 0) (key l j).
Proof.
  intros Hh. induction (lt_wf j) as [j _ IH]. intros Hj.
  destruct (decide (j = 0%nat)) as [->|]; [apply above_refl|].
  pose proof (up_lt j ltac:(lia)). eapply above_trans; [apply (IH (up j)); lia|]. apply Hh. lia.
Qed.

(** ** Sifting down *)

Lemma up_children i j : up j = i → (0 < j)%nat → j = (2 * i + 1)%nat ∨ j = (2 * i + 2)%nat.
Proof.
  unfold up. intros Hu Hj. pose proof (Nat.div_mod_eq (j - 1) 2).
  pose proof (Nat.mod_upper_bound (j - 1) 2). lia.
Qed.
Lemma up_left i : up (2 * i + 1) = i.
Proof. unfold up. rewrite Nat.add_sub, Nat.mul_comm. by apply Nat.div_mul. Qed.
Lemma up_right i : up (2 * i + 2) = i.
Proof.
  unfold up. replace (2 * i + 2 - 1)%nat with (1 + i * 2)%nat by lia.
  by rewrite Nat.div_add.
Qed.

Lemma down_ok_done l r : down_ok l r →
  (∀ j, (0 < j < length l)%nat → up j = r → above (key l r) (key l j)) → heap_ordered l.
Proof.
  intros [H1 _] H j Hj. destruct (decide (up j = r)) as [Hu|]; [|by apply H1].
  rewrite Hu. by apply H.
Qed.

Lemma down_ok_step l r s : down_ok l r → (0 < s < length l)%nat → up s = r →
  above (key l s) (key l r) →
  (∀ j, (0 < j < length l)%nat → up j = r → above (key l s) (key l j)) →
  down_ok (swapped l r s) s.
Proof.
  intros [H1 H2] Hs Hus Hsr Hmin. pose proof (up_lt s ltac:(lia)) as Hrs.
  split; intros j; rewrite swapped_length; intros Hj.
  - intros Hne. rewrite !swapped_key by lia. pose proof (up_lt j ltac:(lia)) as Hjp.
    destruct (decide (j = s)) as [->|Hjs].
    { rewrite Hus. repeat case_decide; try done; lia. }
    destruct (decide (up j = r)) as [Hu|Hu].
    { rewrite (decide_False (P := j = r)) by lia. by apply Hmin. }
    rewrite (decide_False (P := up j = s)) by done.
    case_decide as Hjr; [|by apply H1]. subst j. apply H2; [done..|lia].
  - intros Hu _. rewrite !swapped_key by lia. pose proof (up_lt j ltac:(lia)) as Hjp.
    rewrite Hus. repeat case_decide; try lia. rewrite <- Hu. apply H1; [done|lia].
Qed.

(** Dropping the last element keeps the order below the root. *)
Lemma down_ok_pop l (x : node V) : heap_ordered (l ++ [x]) → (0 < length l)%nat →
  down_ok (<[0%nat := x]> l) 0.
Proof.
  intros Hh Hl. split; [|intros; lia]. intros j. rewrite length_insert. intros Hj Hu.
  specialize (Hh j). rewrite length_app in Hh. unfold key in *.
  pose proof (up_lt j ltac:(lia)) as Hjp.
  rewrite !lookup_app_l in Hh by lia. rewrite !list_lookup_insert_ne by lia. apply Hh. cbn. lia.
Qed.

(** A new last element only disturbs the order above it. *)
Lemma up_ok_snoc l (x : node V) : heap_ordered l → up_ok (l ++ [x]) (length l).
Proof.
  intros Hh. split; intros j; rewrite length_app; cbn [length]; intros Hj.
  - intros Hne. pose proof (up_lt j ltac:(lia)) as Hjp. unfold key.
    rewrite !lookup_app_l by lia. apply Hh. lia.
  - intros Hu _. pose proof (up_lt j ltac:(lia)) as Hjp. lia.
Qed.
End order.

(** ** The operations *)
Section ops.
Context {V : Type} (lt : Z → Z → bool) `{!HeapOrder lt}.
Implicit Types (l : list (node V)) (i j : nat) (v : kvector (node V)).

Definition SMALL l : Prop := Z.of_nat (length l) < KV_MAX.

Lemma wp_heap_key (i : nat) v l E (Q : Z → kvector (node V) → Prop) : kv_rep v l →
  (i < length l)%nat → Q (key l i) v → wp (heap_key (Z.of_nat i)) E Q v.
Proof.
  intros Hv Hi HQ. destruct (lookup_lt_is_Some_2 l i Hi) as [n Hn]. unfold heap_key. apply wp_bind.
  eapply wp_mono; [by apply (wp_at false i n v l)|done|]. intros y w [-> ->]. apply wp_ret.
  unfold key in HQ. by rewrite Hn in HQ.
Qed.

Lemma wp_heap_swap (i j : nat) v l : kv_rep v l → (i < length l)%nat → (j < length l)%nat →
  wp (heap_swap (Z.of_nat i) (Z.of_nat j)) False (λ _ v', kv_rep v' (swapped l i j)) v.
Proof.
  intros Hv Hi Hj. destruct (lookup_lt_is_Some_2 l i Hi) as [a Ha], (lookup_lt_is_Some_2 l j Hj) as [b Hb].
  unfold heap_swap, swapped. rewrite Ha, Hb.
  apply wp_bind. eapply wp_mono; [by apply (wp_at false i a v l)|done|]. intros y w [-> ->].
  apply wp_bind. eapply wp_mono; [by apply (wp_at false j b v l)|done|]. intros y w [-> ->].
  apply wp_bind. eapply wp_mono; [by apply (wp_set false i b v l)|done|]. intros [] w Hw.
  apply wp_set; [done|]. by rewrite length_insert.
Qed.

Lemma parent_up (i : nat) : (0 < i)%nat → Z.of_nat i < KV_MAX → get_parent (Z.of_nat i) = Z.of_nat (up i).
Proof.
  intros Hi Hm. unfold get_parent, up, KV_MAX in *. rewrite wrap_small.
  - rewrite Nat2Z.inj_div. f_equal. lia.
  - unfold is_word. change (2 ^ 60) with 1152921504606846976 in *.
    change (2 ^ 64) with 18446744073709551616. lia.
Qed.

Lemma wp_sift_up fuel : ∀ i v l, kv_rep v l → SMALL l → up_ok lt l i → (i < length l)%nat →
  (i ≤ fuel)%nat →
  wp (sift_up lt fuel (Z.of_nat i)) False
    (λ _ v', ∃ l', kv_rep v' l' ∧ l' ≡ₚ l ∧ heap_ordered lt l') v.
Proof.
  induction fuel as [|fuel IH]; intros i v l Hv Hsm Hup Hi Hf; cbn [sift_up];
    (destruct (Z.eqb_spec (Z.of_nat i) 0) as [H0|H0];
     [exists l; split; [done|]; split; [done|]; eapply up_ok_done; [done|left; lia] |]); [lia|].
  pose proof (up_lt i ltac:(lia)) as Hp. unfold SMALL in *. rewrite parent_up by lia.
  apply wp_bind. eapply wp_heap_key; [done|lia|].
  apply wp_bind. eapply wp_heap_key; [done|lia|].
  destruct (lt (key l i) (key l (up i))) eqn:Hlt; cbn [negb].
  - apply wp_bind. eapply wp_mono; [apply (wp_heap_swap i (up i) v l); [done|lia..]|done|].
    intros [] w Hw. eapply wp_mono; [apply (IH (up i) w _ Hw)|done|].
    + by rewrite swapped_length.
    + apply up_ok_step; [done..|lia|done].
    + rewrite swapped_length. lia.
    + lia.
    + intros [] w' (l' & Hl' & Hperm & Hh). exists l'. split; [done|]. split; [|done].
      by rewrite Hperm, swapped_perm.
  - exists l. split; [done|]. split; [done|]. eapply up_ok_done; [done|by right].
Qed.

Lemma wp_heap_insert k x v l : kv_rep v l → heap_ordered lt l → Z.of_nat (length l) + 1 < KV_MAX →
  wp (heap_insert lt k x) False (λ _ v', ∃ l', kv_rep v' l' ∧ l' ≡ₚ mk_node k x :: l ∧ heap_ordered lt l') v.
Proof.
  intros Hv Hh Hsm. unfold heap_insert. apply wp_bind.
  eapply wp_mono; [apply (wp_push_back _ v l); [done|lia]|done|]. intros [] w Hw.
  apply wp_gets. rewrite (kr_size _ _ Hw), length_app. cbn [length].
  replace (Z.of_nat (length l + 1) - 1) with (Z.of_nat (length l)) by lia.
  rewrite wrap_small by (unfold is_word, KV_MAX in *; change (2 ^ 60) with 1152921504606846976 in *;
    change (2 ^ 64) with 18446744073709551616; lia).
  eapply wp_mono; [apply (wp_sift_up _ (length l) w _ Hw)|done|].
  - unfold SMALL. rewrite length_app. cbn. lia.
  - by apply up_ok_snoc.
  - rewrite length_app. cbn. lia.
  - lia.
  - intros [] w' (l' & Hl' & Hperm & Hh'). exists l'. split; [done|]. split; [|done].
    rewrite Hperm. by rewrite (comm (++)).
Qed.

(** The better of candidate [c] (if it exists) and [s]. *)
Definition pick l (c s : nat) : nat :=
  if decide (c < length l)%nat then if lt (key l c) (key l s) then c else s else s.

Lemma wp_pick (c s : nat) v l E (Q : Z → kvector (node V) → Prop) : kv_rep v l →
  (s < length l)%nat → Q (Z.of_nat (pick l c s)) v →
  wp (if Z.of_nat c <? Z.of_nat (length l) then
        kc ← heap_key (Z.of_nat c); ks ← heap_key (Z.of_nat s);
        mret (if lt kc ks then Z.of_nat c else Z.of_nat s)
      else mret (Z.of_nat s)) E Q v.
Proof.
  intros Hv Hs HQ. unfold pick in HQ. destruct (Z.ltb_spec (Z.of_nat c) (Z.of_nat (length l))).
  - rewrite decide_True in HQ by lia. apply wp_bind. eapply wp_heap_key; [done|lia|].
    apply wp_bind. eapply wp_heap_key; [done|lia|]. apply wp_ret. by destruct (lt _ _).
  - rewrite decide_False in HQ by lia. done.
Qed.

Lemma pick_above l c s : (s < length l)%nat →
  above lt (key l (pick l c s)) (key l s) ∧ (pick l c s < length l)%nat ∧
  ((c < length l)%nat → above lt (key l (pick l c s)) (key l c)).
Proof.
  intros Hs. unfold pick. case_decide; [|split; [by apply above_refl|]; split; [done|lia]].
  destruct (lt (key l c) (key l s)) eqn:Hlt.
  - split; [by apply above_lt|]. split; [done|]. intros _. by apply above_refl.
  - split; [by apply above_refl|]. done.
Qed.

Lemma children_word (r n : nat) : (r < n)%nat → Z.of_nat n < KV_MAX →
  get_left (Z.of_nat r) = Z.of_nat (2 * r + 1) ∧ get_right (Z.of_nat r) = Z.of_nat (2 * r + 2).
Proof.
  intros Hr Hn. unfold get_left, get_right, KV_MAX in *.
  change (2 ^ 60) with 1152921504606846976 in *.
  split; (rewrite wrap_small; [lia|]); unfold is_word; change (2 ^ 64) with 18446744073709551616; lia.
Qed.

Lemma wp_heapify fuel : ∀ r v l, kv_rep v l → SMALL l → down_ok lt l r → (r < length l)%nat →
  (length l - r ≤ fuel)%nat →
  wp (heapify lt fuel (Z.of_nat r)) False
    (λ _ v', ∃ l', kv_rep v' l' ∧ l' ≡ₚ l ∧ heap_ordered lt l') v.
Proof.
  induction fuel as [|fuel IH]; intros r v l Hv Hsm Hdown Hr Hf; [lia|]. cbn [heapify].
  destruct (children_word r (length l)) as [-> ->]; [done..|].
  apply wp_gets. rewrite (kr_size _ _ Hv).
  pose proof (pick_above l (2 * r + 1) r Hr) as (Ha1 & Hl1 & Hc1).
  apply wp_bind, wp_pick; [done|done|]. set (s1 := pick l (2 * r + 1) r) in *.
  pose proof (pick_above l (2 * r + 2) s1 Hl1) as (Ha2 & Hl2 & Hc2).
  apply wp_bind, wp_pick; [done|done|]. set (s := pick l (2 * r + 2) s1) in *.
  assert (above lt (key l s) (key l r)) as Hsr by (by eapply above_trans).
  assert (∀ j, (0 < j < length l)%nat → up j = r → above lt (key l s) (key l j)) as Hmin.
  { intros j Hj [-> | ->]%up_children; [| |lia].
    - apply (above_trans lt _ (key l s1)); [done|]. apply Hc1. lia.
    - apply Hc2. lia. }
  destruct (Z.eqb_spec (Z.of_nat s) (Z.of_nat r)) as [He|Hne].
  { exists l. split; [done|]. split; [done|]. apply (down_ok_done lt l r Hdown).
    replace s with r in Hmin by lia. done. }
  assert (s = 2 * r + 1 ∨ s = 2 * r + 2)%nat as Hs.
  { unfold s, s1, pick in Hne |- *. repeat case_match; auto; lia. }
  assert (up s = r) as Hus by (destruct Hs as [-> | ->]; [apply up_left|apply up_right]).
  apply wp_bind. eapply wp_mono; [apply (wp_heap_swap r s v l); done|done|]. intros [] w Hw.
  eapply wp_mono; [apply (IH s w _ Hw)|done|].
  - unfold SMALL. by rewrite swapped_length.
  - apply down_ok_step; [done..|lia|done|done|done].
  - by rewrite swapped_length.
  - rewrite swapped_length. lia.
  - intros [] w' (l' & Hl' & Hperm & Hh). exists l'. split; [done|]. split; [|done].
    by rewrite Hperm, swapped_perm.
Qed.

Lemma wp_heap_peak v n l : kv_rep v (n :: l) → SMALL (n :: l) →
  wp heap_peak False (λ x v', x = n_value n ∧ v' = v) v.
Proof.
  intros Hv Hsm. unfold heap_peak, kv_empty. apply wp_get. rewrite (kr_size _ _ Hv).
  apply wp_kassert. cbn [length]. rewrite (proj2 (Z.eqb_neq _ _)) by lia. cbn [negb].
  apply wp_bind. unfold kv_front. change 0 with (Z.of_nat 0).
  eapply (wp_slot_read _ n); [apply Hv|done|]. done.
Qed.

Lemma wp_heap_pop v n l : kv_rep v (n :: l) → SMALL (n :: l) → heap_ordered lt (n :: l) →
  wp (heap_pop lt) False (λ _ v', ∃ l', kv_rep v' l' ∧ l' ≡ₚ l ∧ heap_ordered lt l') v.
Proof.
  intros Hv Hsm Hh. unfold heap_pop, kv_empty. apply wp_get. rewrite (kr_size _ _ Hv). unfold SMALL in Hsm.
  apply wp_kassert. rewrite (proj2 (Z.eqb_neq _ 0)) by (cbn [length]; lia). cbn [negb].
  destruct l as [|b l _] using rev_ind.
  { cbn [length]. eapply wp_mono; [apply (wp_pop_back v [] n); [done|by vm_compute]|done|].
    intros [] w Hw. exists []. split; [done|]. split; [done|]. intros j Hj. cbn in Hj. lia. }
  rewrite app_comm_cons, length_app in *. cbn [length] in *. rewrite (proj2 (Z.eqb_neq _ 1)) by lia.
  unfold kv_back. apply wp_bind, wp_gets. rewrite (kr_size _ _ Hv), length_app. cbn [length].
  rewrite wrap_small by (unfold is_word, KV_MAX in *; change (2 ^ 60) with 1152921504606846976 in *;
    change (2 ^ 64) with 18446744073709551616; lia).
  replace (Z.of_nat (S (length l) + 1) - 1) with (Z.of_nat (length (n :: l))) by (cbn [length]; lia).
  eapply (wp_slot_read _ b); [apply Hv|by apply list_lookup_middle|].
  apply wp_bind. change 0 with (Z.of_nat 0).
  eapply wp_mono; [apply (wp_set false 0 b v _ Hv); rewrite length_app; cbn; lia|done|].
  intros [] w Hw. cbn [insert list_insert app] in Hw. rewrite app_comm_cons in Hw.
  apply wp_bind. eapply wp_mono; [apply (wp_pop_back w _ b Hw); cbn [length]; lia|done|].
  intros [] w' Hw'. apply wp_gets. rewrite (kr_size _ _ Hw'), Nat2Z.id.
  eapply wp_mono; [apply (wp_heapify _ 0 w' _ Hw')|done|].
  - unfold SMALL. cbn [length]. lia.
  - apply (down_ok_pop lt (n :: l) b Hh). cbn. lia.
  - cbn. lia.
  - lia.
  - intros [] w2 (l' & Hl' & Hperm & Hh'). exists l'. split; [done|]. split; [|done].
    rewrite Hperm. by rewrite (comm (++) l [b]).
Qed.
End ops.

(** ** Heaps as priority queues *)
Section queue.
Context {V : Type} (lt : Z → Z → bool) `{!HeapOrder lt}.

Inductive hop : Type :=
| Insert (k : Z) (x : V)
| Peak
| Pop.

(** [Pop] stands for a [peak] followed by a [pop], as the callers use them. *)
Definition run_hop (op : hop) : M (kvector (node V)) (option V) :=
  match op with
  | Insert k x => _ ← heap_insert lt k x; mret None
  | Peak => x ← heap_peak; mret (Some x)
  | Pop => x ← heap_peak; _ ← heap_pop lt; mret (Some x)
  end.
Fixpoint run_hops (ops : list hop) : M (kvector (node V)) (list (option V)) :=
  match ops with
  | [] => mret []
  | op :: ops' => r ← run_hop op; rs ← run_hops ops'; mret (r :: rs)
  end.

(** [n] is a first element of the bag. *)
Definition is_first (n : node V) (bag : list (node V)) : Prop :=
  ∀ m, m ∈ bag → above lt (n_key n) (n_key m).

(** The abstract queue: a bag of nodes, as a list up to permutation. *)
Inductive pq_step : hop → list (node V) → option V → list (node V) → Prop :=
| pq_insert k x bag : pq_step (Insert k x) bag None (mk_node k x :: bag)
| pq_peak n bag : n ∈ bag → is_first n bag → pq_step Peak bag (Some (n_value n)) bag
| pq_pop n bag rest : bag ≡ₚ n :: rest → is_first n bag → pq_step Pop bag (Some (n_value n)) rest.

Inductive pq_steps : list hop → list (node V) → list (option V) → list (node V) → Prop :=
| pq_nil bag : pq_steps [] bag [] bag
| pq_cons op ops bag bag1 bag2 r rs : pq_step op bag r bag1 → pq_steps ops bag1 rs bag2 →
    pq_steps (op :: ops) bag (r :: rs) bag2.

(** Some call looks at or removes the first element of an empty queue holding [n] nodes before. *)
Fixpoint underflow (ops : list hop) (n : nat) : bool :=
  match ops with
  | [] => false
  | Insert _ _ :: ops' => underflow ops' (S n)
  | Peak :: ops' => (n =? 0)%nat || underflow ops' n
  | Pop :: ops' => (n =? 0)%nat || underflow ops' (pred n)
  end.

Lemma heap_head_first n l bag : heap_ordered lt (n :: l) → bag ≡ₚ n :: l → is_first n bag.
Proof.
  intros Hh Hperm m Hm. rewrite Hperm in Hm. apply list_elem_of_lookup in Hm as [j Hj].
  pose proof (heap_root lt (n :: l) j Hh) as Hr. unfold key in Hr. rewrite Hj in Hr.
  apply Hr. by apply lookup_lt_Some in Hj.
Qed.

Lemma heap_empty_panics v : kv_rep (T := node V) v [] → heap_peak v = Panic.
Proof. intros [Hs _]. unfold heap_peak, kv_empty, mbind, M_bind, get. by rewrite Hs. Qed.

Lemma wp_hops ops : ∀ v l bag, kv_rep v l → heap_ordered lt l → l ≡ₚ bag →
  Z.of_nat (length l + length ops) < KV_MAX →
  wp (run_hops ops) (underflow ops (length bag) = true)
    (λ rs v', ∃ l' bag', kv_rep v' l' ∧ heap_ordered lt l' ∧ l' ≡ₚ bag' ∧ pq_steps ops bag rs bag') v.
Proof.
  induction ops as [|op ops IH]; intros v l bag Hv Hh Hperm Hsm; cbn [run_hops].
  { exists l, bag. split; [done|]. split; [done|]. split; [done|]. constructor. }
  cbn [length] in Hsm. apply wp_bind. destruct op as [k x| |]; cbn [run_hop underflow].
  - apply wp_bind. eapply wp_mono; [apply (wp_heap_insert lt k x v l); [done..|lia]|done|].
    intros [] w (l1 & Hw & Hp1 & Hh1). apply wp_ret, wp_bind.
    assert (length l1 = S (length l)) as Hl1 by (by rewrite Hp1).
    eapply wp_mono; [apply (IH w l1 (mk_node k x :: bag)); [done|done|by rewrite Hp1, Hperm|lia]|done|].
    intros rs w' (l2 & bag2 & ? & ? & ? & ?). exists l2, bag2.
    split; [done|]. split; [done|]. split; [done|]. econstructor; [constructor|done].
  - destruct l as [|n l].
    { unfold wp, mbind at 1, M_bind at 1. rewrite heap_empty_panics by done.
      by apply Permutation_nil in Hperm as ->. }
    apply wp_bind. eapply wp_mono; [apply (wp_heap_peak v n l Hv); unfold SMALL; lia|done|].
    intros x w [-> ->]. apply wp_ret, wp_bind.
    eapply wp_mono; [apply (IH v (n :: l) bag); [done|done|done|lia]|intros ->; by rewrite orb_true_r|].
    intros rs w' (l2 & bag2 & ? & ? & ? & ?). exists l2, bag2.
    split; [done|]. split; [done|]. split; [done|]. econstructor; [constructor|done].
    + rewrite <- Hperm. left.
    + by eapply heap_head_first.
  - destruct l as [|n l].
    { unfold wp, mbind at 1, M_bind at 1. rewrite heap_empty_panics by done.
      by apply Permutation_nil in Hperm as ->. }
    apply wp_bind. eapply wp_mono; [apply (wp_heap_peak v n l Hv); unfold SMALL; lia|done|].
    intros x w [-> ->]. apply wp_bind.
    eapply wp_mono; [apply (wp_heap_pop lt v n l Hv); [unfold SMALL; lia|done]|done|].
    intros [] w (l1 & Hw & Hp1 & Hh1). apply wp_ret, wp_bind.
    assert (length l1 = length l) as Hl1 by (by rewrite Hp1).
    assert (length bag = S (length l)) as Hlb by (by rewrite <- Hperm).
    eapply wp_mono; [apply (IH w l1 l); [done|done|done|cbn [length] in Hsm; lia]
      |rewrite Hlb; cbn [Nat.pred]; intros ->; by rewrite orb_true_r|].
    intros rs w' (l2 & bag2 & ? & ? & ? & ?). exists l2, bag2.
    split; [done|]. split; [done|]. split; [done|]. econstructor; [eapply pq_pop|done].
    + by rewrite <- Hperm.
    + by eapply heap_head_first.
Qed.
End queue.

(** The min-heap is a priority queue: every sequence of calls on an empty heap returns, at each
    [peak] and [pop], the value of a node with the smallest key among those inserted and not yet
    popped; it panics exactly if a [peak] or [pop] finds the queue empty, and never faults. *)
Theorem kmin_heap_priority_queue {V} (ops : list (@hop V)) :
  Z.of_nat (length ops) < KV_MAX →
  match run_hops Z.ltb ops kv_new with
  | Ok (v, rs) => ∃ bag, pq_steps Z.ltb ops [] rs bag ∧ ∃ l, kv_elements v = Ok (v, l) ∧ l ≡ₚ bag
  | Panic => underflow ops 0 = true
  | Fault | Hang => False
  end.
Proof.
  intros Hsm. assert (heap_ordered Z.ltb ([] : list (node V))) as Hnil by (intros j Hj; cbn in Hj; lia).
  pose proof (wp_hops Z.ltb ops kv_new [] [] kv_rep_new Hnil (Permutation_refl _) Hsm) as H.
  unfold wp in H. destruct (run_hops Z.ltb ops kv_new) as [[v rs]| | |]; try done.
  destruct H as (l & bag & Hv & _ & Hp & Hs).
  exists bag. split; [done|]. exists l. split; [by apply kv_elements_run|done].
Qed.

Lemma kmin_heap_priority_queue_witness :
  ∃ v, run_hops Z.ltb [Insert 30 1; Insert 10 2; Insert 20 3; Insert 10 4; Pop; Peak; Pop] kv_new =
    Ok (v, [None; None; None; None; Some 2; Some 4; Some 4]) ∧
  ∃ bag, pq_steps Z.ltb [Insert 30 1; Insert 10 2; Insert 20 3; Insert 10 4; Pop; Peak; Pop] []
    [None; None; None; None; Some 2; Some 4; Some 4] bag.
Proof.
  pose proof (kmin_heap_priority_queue
    [Insert 30 1; Insert 10 2; Insert 20 3; Insert 10 4; Pop; Peak; Pop] eq_refl) as H.
  eexists. split; [vm_compute; reflexivity|]. vm_compute in H. destruct H as (bag & H & _).
  exists bag. exact H.
Defined.
