(* ===== verification/KList.v ===== *)
(** * The circular doubly linked list

    [src/kernel/include/containers/klist.hpp], with its nodes in an explicit store from addresses to
    nodes.  Following a pointer that is not in the store (a null or dangling one) is a [Fault].

    [new_addr], the address [new node] returns, is a parameter: all the list needs of the allocator
    is that it returns a non-null address that is not in use. *)

From S2P Require Import Prelude.

Record lnode (T : Type) := mk_lnode { prev : Z; next_ : Z; data : T }.
Arguments mk_lnode {T}.
Arguments prev {T}.
Arguments next_ {T}.
Arguments data {T}.

Record klist (T : Type) := mk_klist {
  kl_store : gmap Z (lnode T);
  kl_head : Z;
  kl_size : Z;
}.
Arguments mk_klist {T}.
Arguments kl_store {T}.
Arguments kl_head {T}.
Arguments kl_size {T}.

Section klist.
Context {T : Type} (new_addr : gmap Z (lnode T) → Z).
Implicit Types (s : klist T) (n : Z) (x : T).

Definition with_store (f : gmap Z (lnode T) → gmap Z (lnode T)) s : klist T :=
  mk_klist (f (kl_store s)) (kl_head s) (kl_size s).
Definition with_head n s : klist T := mk_klist (kl_store s) n (kl_size s).
Definition with_lsize (k : Z) s : klist T := mk_klist (kl_store s) (kl_head s) k.

(** ** Pointers *)

Definition deref n : M (klist T) (lnode T) := o ← gets (λ s, kl_store s !! n); of_option o.
Definition get_prev n : M (klist T) Z := d ← deref n; mret (prev d).
Definition get_next n : M (klist T) Z := d ← deref n; mret (next_ d).
Definition get_data n : M (klist T) T := d ← deref n; mret (data d).
Definition set_prev n p : M (klist T) unit :=
  d ← deref n; modify (with_store (insert n (mk_lnode p (next_ d) (data d)))).
Definition set_next n p : M (klist T) unit :=
  d ← deref n; modify (with_store (insert n (mk_lnode (prev d) p (data d)))).
Definition new_node x : M (klist T) Z :=
  n ← gets (λ s, new_addr (kl_store s));
  _ ← modify (with_store (insert n (mk_lnode 0 0 x)));
  mret n.
Definition delete_node n : M (klist T) unit :=
  _ ← deref n; modify (with_store (delete n)).

(** ** Operations *)

Definition kl_new : klist T := mk_klist ∅ 0 0.
Definition kl_empty s : bool := kl_size s =? 0.

Definition dec_size : M (klist T) unit := modify (λ s, with_lsize (wrap64 (kl_size s - 1)) s).
Definition inc_size : M (klist T) unit := modify (λ s, with_lsize (wrap64 (kl_size s + 1)) s).

(** [n->prev->next = n->next; n->next->prev = n->prev;] *)
Definition unlink n : M (klist T) unit :=
  p ← get_prev n; q ← get_next n;
  _ ← set_next p q;
  q ← get_next n; p ← get_prev n;
  set_prev q p.

Definition remove_node n : M (klist T) bool :=
  s ← get;
  if kl_empty s || (n =? 0) then mret false else
  _ ← dec_size;
  s ← get;
  _ ← (if kl_empty s then modify (with_head 0) else
       _ ← (if n =? kl_head s then q ← get_next n; modify (with_head q) else mret ());
       unlink n);
  _ ← delete_node n;
  mret true.

(** The branch shared by [push_front] and [push_back]: link [n] between the last node and the head. *)
Definition link_before_head n : M (klist T) unit :=
  h ← gets kl_head;
  _ ← set_next n h;
  p ← get_prev h;
  _ ← set_prev n p;
  p ← get_prev h;
  _ ← set_next p n;
  set_prev h n.

Definition link_only n : M (klist T) unit :=
  _ ← modify (with_head n);
  _ ← set_next n n;
  set_prev n n.

Definition kl_push_front x : M (klist T) unit :=
  n ← new_node x;
  s ← get;
  _ ← (if kl_empty s then link_only n else
       _ ← link_before_head n;
       modify (with_head n));
  inc_size.

Definition kl_push_back x : M (klist T) unit :=
  n ← new_node x;
  s ← get;
  _ ← (if kl_empty s then link_only n else link_before_head n);
  inc_size.

(** [n->next->prev = n->prev; n->prev->next = n->next;] *)
Definition unlink_rev n : M (klist T) unit :=
  q ← get_next n; p ← get_prev n;
  _ ← set_prev q p;
  p ← get_prev n; q ← get_next n;
  set_next p q.

Definition kl_pop_front : M (klist T) unit :=
  s ← get;
  if kl_empty s then mret () else
  let n := kl_head s in
  _ ← dec_size;
  s ← get;
  _ ← (if kl_empty s then modify (with_head 0) else
       _ ← unlink_rev n;
       q ← get_next n;
       modify (with_head q));
  delete_node n.

Definition kl_pop_back : M (klist T) unit :=
  s ← get;
  if kl_empty s then mret () else
  n ← get_prev (kl_head s);
  _ ← dec_size;
  s ← get;
  _ ← (if kl_empty s then modify (with_head 0) else unlink_rev n);
  delete_node n.

(** Following [pos] [next] pointers. *)
Fixpoint advance (pos : nat) n : M (klist T) Z :=
  match pos with
  | O => mret n
  | S pos' => q ← get_next n; advance pos' q
  end.

Definition kl_at (pos : nat) : M (klist T) T := h ← gets kl_head; n ← advance pos h; get_data n.
Definition kl_front : M (klist T) T := h ← gets kl_head; get_data h.
Definition kl_back : M (klist T) T := h ← gets kl_head; p ← get_prev h; get_data p.

Definition kl_erase (pos : nat) : M (klist T) bool :=
  s ← get;
  if kl_empty s || (kl_size s <=? Z.of_nat pos) then mret false else
  n ← advance pos (kl_head s);
  remove_node n.

(** The search loop of [remove], [k] nodes still to visit. *)
Fixpoint remove_loop `{!EqDecision T} (k : nat) n x : M (klist T) bool :=
  match k with
  | O => mret false
  | S k' =>
      d ← get_data n;
      if decide (d = x) then remove_node n else
      q ← get_next n;
      remove_loop k' q x
  end.
Definition kl_remove `{!EqDecision T} x : M (klist T) bool :=
  s ← get;
  if kl_empty s then mret false else remove_loop (Z.to_nat (kl_size s)) (kl_head s) x.

Fixpoint reverse_loop (k : nat) n : M (klist T) unit :=
  match k with
  | O => mret ()
  | S k' =>
      temp ← get_next n;
      p ← get_prev n;
      _ ← set_next n p;
      _ ← set_prev n temp;
      reverse_loop k' temp
  end.
Definition kl_reverse : M (klist T) unit :=
  s ← get;
  if kl_empty s then mret () else
  _ ← reverse_loop (Z.to_nat (kl_size s)) (kl_head s);
  h ← gets kl_head;
  q ← get_next h;
  modify (with_head q).

Definition kl_rotate_next : M (klist T) unit :=
  s ← get;
  if kl_empty s then mret () else q ← get_next (kl_head s); modify (with_head q).
Definition kl_rotate_prev : M (klist T) unit :=
  s ← get;
  if kl_empty s then mret () else p ← get_prev (kl_head s); modify (with_head p).

(** [while (!empty()) pop_back();]: each round removes a node. *)
Definition kl_clear : M (klist T) unit :=
  s ← get;
  while (S (Z.to_nat (kl_size s))) (gets (λ s, negb (kl_empty s))) kl_pop_back.

(** The elements visited by the copy loops, from node [n] of the other list. *)
Fixpoint copy_loop (other : klist T) (k : nat) n : M (klist T) unit :=
  match k with
  | O => mret ()
  | S k' =>
      d ← of_option (kl_store other !! n);
      _ ← kl_push_back (data d);
      copy_loop other k' (next_ d)
  end.
(** [klist(const klist& other)], run on the empty list. *)
Definition kl_copy (other : klist T) : M (klist T) unit :=
  if kl_empty other then mret () else copy_loop other (Z.to_nat (kl_size other)) (kl_head other).
(** [operator=(const klist& other)] with [this != &other]. *)
Definition kl_assign (other : klist T) : M (klist T) unit :=
  _ ← kl_clear;
  copy_loop other (Z.to_nat (kl_size other)) (kl_head other).
(** [klist(klist&& other)]: the new list and what is left of [other]. *)
Definition kl_move s : klist T * klist T := (s, mk_klist ∅ 0 0).
End klist.

(** ** Chains of nodes

    [chain m p ps q]: the nodes at the addresses of [ps] hold the data of [ps] and are linked in this
    order, the first with predecessor [p] and the last with successor [q]. *)
Section chains.
Context {T : Type}.
Implicit Types (m : gmap Z (lnode T)) (ps : list (Z * T)) (a p q n : Z) (x : T).

Definition hd_addr q ps : Z := match ps with [] => q | (a, _) :: _ => a end.
Definition last_addr p ps : Z := match last ps with Some (a, _) => a | None => p end.

Fixpoint chain m p ps q : Prop :=
  match ps with
  | [] => True
  | (a, x) :: ps' => m !! a = Some (mk_lnode p (hd_addr q ps') x) ∧ chain m a ps' q
  end.

(** A closed chain. *)
Definition ring m ps : Prop := chain m (last_addr 0 ps) ps (hd_addr 0 ps).

Definition setp a p m : gmap Z (lnode T) :=
  match m !! a with Some d => <[a := mk_lnode p (next_ d) (data d)]> m | None => m end.
Definition setn a q m : gmap Z (lnode T) :=
  match m !! a with Some d => <[a := mk_lnode (prev d) q (data d)]> m | None => m end.

Lemma hd_addr_app q l k : hd_addr q (l ++ k) = hd_addr (hd_addr q k) l.
Proof. by destruct l as [|[]]. Qed.
Lemma last_addr_app p l k : last_addr p (l ++ k) = last_addr (last_addr p l) k.
Proof.
  unfold last_addr. rewrite last_app. by destruct (last k) as [[]|], (last l) as [[]|].
Qed.
Lemma last_addr_snoc p l a x : last_addr p (l ++ [(a, x)]) = a.
Proof. by rewrite last_addr_app. Qed.
Lemma last_addr_ne p p' l : l ≠ [] → last_addr p l = last_addr p' l.
Proof. destruct l as [|[a x] l _] using rev_ind; [done|]. intros _. by rewrite !last_addr_snoc. Qed.
Lemma hd_addr_ne p p' l : l ≠ [] → hd_addr p l = hd_addr p' l.
Proof. by destruct l as [|[]]. Qed.
Lemma last_addr_cons p l a x : last_addr p ((a, x) :: l) = last_addr a l.
Proof. change ((a, x) :: l) with ([(a, x)] ++ l). by rewrite last_addr_app. Qed.

Lemma chain_app m l : ∀ p k q,
  chain m p (l ++ k) q ↔ chain m p l (hd_addr q k) ∧ chain m (last_addr p l) k q.
Proof.
  induction l as [|[a x] l IH]; intros p k q; cbn [chain app].
  - split; [by split|by intros [_ ?]].
  - rewrite IH, last_addr_cons, hd_addr_app. tauto.
Qed.

Lemma chain_frame m m' ps : ∀ p q, (∀ a, a ∈ ps.*1 → m' !! a = m !! a) → chain m p ps q → chain m' p ps q.
Proof.
  induction ps as [|[a x] ps IH]; intros p q Hf; [done|]. cbn. intros [Ha Hc]. split.
  - rewrite Hf; [done|left].
  - apply IH; [|done]. intros b Hb. apply Hf. by right.
Qed.

Lemma ring_rotate m l k : ring m (l ++ k) ↔ ring m (k ++ l).
Proof.
  unfold ring. destruct l as [|[a x] l]; [by rewrite app_nil_r|].
  destruct k as [|[b y] k]; [by rewrite app_nil_r|].
  rewrite !chain_app, !last_addr_app, !hd_addr_app. cbn [hd_addr]. rewrite !last_addr_cons. tauto.
Qed.

Lemma lookup_setp a p m b : setp a p m !! b =
  if decide (b = a) then (λ d, mk_lnode p (next_ d) (data d)) <$> m !! a else m !! b.
Proof.
  unfold setp. case_decide as Hb; [subst b|].
  - destruct (m !! a) eqn:Ha; [by rewrite lookup_insert_eq|by rewrite Ha].
  - destruct (m !! a); [by rewrite lookup_insert_ne|done].
Qed.
Lemma lookup_setn a q m b : setn a q m !! b =
  if decide (b = a) then (λ d, mk_lnode (prev d) q (data d)) <$> m !! a else m !! b.
Proof.
  unfold setn. case_decide as Hb; [subst b|].
  - destruct (m !! a) eqn:Ha; [by rewrite lookup_insert_eq|by rewrite Ha].
  - destruct (m !! a); [by rewrite lookup_insert_ne|done].
Qed.

Lemma setp_setn a p b q m : setp a p (setn b q m) = setn b q (setp a p m).
Proof.
  apply map_eq. intros c. rewrite lookup_setp, !lookup_setn, lookup_setp.
  repeat case_decide; subst; try done; rewrite ?lookup_setp, ?lookup_setn;
    repeat case_decide; try done; by destruct (m !! _).
Qed.

Lemma dom_setp a p m : dom (setp a p m) = dom m.
Proof. unfold setp. destruct (m !! a) eqn:Ha; [|done]. apply dom_insert_lookup_L. by exists l. Qed.
Lemma dom_setn a p m : dom (setn a p m) = dom m.
Proof. unfold setn. destruct (m !! a) eqn:Ha; [|done]. apply dom_insert_lookup_L. by exists l. Qed.

(** Redirecting the two ends of a chain. *)
Lemma chain_relink m p p' ps q q' : ps ≠ [] → NoDup ps.*1 → chain m p ps q →
  chain (setp (hd_addr 0 ps) p' (setn (last_addr 0 ps) q' m)) p' ps q'.
Proof.
  intros Hne Hnd Hc.
  assert (chain (setn (last_addr 0 ps) q' m) p ps q') as Hc'.
  { destruct ps as [|[a x] l _] using rev_ind; [done|]. rewrite last_addr_snoc.
    rewrite fmap_app in Hnd. cbn in Hnd. apply NoDup_app in Hnd as (_ & Hl & _).
    apply chain_app in Hc as [Hc1 [Hc2 _]]. apply chain_app. split.
    - eapply chain_frame; [|exact Hc1]. intros b Hb. rewrite lookup_setn, decide_False; [done|].
      intros ->. apply (Hl a Hb). left.
    - cbn. by rewrite lookup_setn, decide_True, Hc2. }
  generalize dependent (setn (last_addr 0 ps) q' m). intros m' Hc'.
  destruct ps as [|[a x] l]; [done|]. cbn in *. destruct Hc' as [Ha Hl].
  apply NoDup_cons in Hnd as [Hal _]. split.
  - by rewrite lookup_setp, decide_True, Ha.
  - eapply chain_frame; [|exact Hl]. intros b Hb. rewrite lookup_setp, decide_False; [done|]. by intros ->.
Qed.

Lemma chain_lookup m p ps q a x : chain m p ps q → (a, x) ∈ ps → ∃ d, m !! a = Some d ∧ data d = x.
Proof.
  revert p. induction ps as [|[b y] ps IH]; intros p; [by intros _ ?%not_elem_of_nil|].
  intros [Hb Hc] [[= <- <-]|Hin]%elem_of_cons; [by eexists|by eapply IH].
Qed.
End chains.

(** ** The operations on lists of nodes *)
Section operations.
Context {T : Type} (new_addr : gmap Z (lnode T) → Z).
Hypothesis new_addr_fresh : ∀ m, (new_addr m ∉ dom m) ∧ new_addr m ≠ 0.
Implicit Types (s : klist T) (m : gmap Z (lnode T)) (ps : list (Z * T)) (a p q n : Z) (x : T).

Record kl_rep s ps : Prop := {
  lr_size : kl_size s = Z.of_nat (length ps);
  lr_head : kl_head s = hd_addr 0 ps;
  lr_ring : ring (kl_store s) ps;
  lr_nodup : NoDup ps.*1;
  lr_dom : dom (kl_store s) = list_to_set ps.*1;
  lr_null : 0 ∉ ps.*1;
}.

Section pointers.
Context (s : klist T) (n : Z) (d : lnode T) (E : Prop).
Hypothesis Hd : kl_store s !! n = Some d.

Lemma wp_get_prev Q : Q (prev d) s → wp (get_prev n) E Q s.
Proof using Hd. intros HQ. unfold get_prev, deref, wp, mbind, M_bind, gets, of_option. by rewrite Hd. Qed.
Lemma wp_get_next Q : Q (next_ d) s → wp (get_next n) E Q s.
Proof using Hd. intros HQ. unfold get_next, deref, wp, mbind, M_bind, gets, of_option. by rewrite Hd. Qed.
Lemma wp_get_data Q : Q (data d) s → wp (get_data n) E Q s.
Proof using Hd. intros HQ. unfold get_data, deref, wp, mbind, M_bind, gets, of_option. by rewrite Hd. Qed.
Lemma wp_set_prev p (Q : unit → klist T → Prop) : Q () (with_store (setp n p) s) → wp (set_prev n p) E Q s.
Proof using Hd.
  intros HQ. unfold set_prev, deref, wp, mbind, M_bind, gets, of_option. rewrite Hd.
  unfold with_store, setp in HQ. by rewrite Hd in HQ.
Qed.
Lemma wp_set_next p (Q : unit → klist T → Prop) : Q () (with_store (setn n p) s) → wp (set_next n p) E Q s.
Proof using Hd.
  intros HQ. unfold set_next, deref, wp, mbind, M_bind, gets, of_option. rewrite Hd.
  unfold with_store, setn in HQ. by rewrite Hd in HQ.
Qed.
Lemma wp_delete_node (Q : unit → klist T → Prop) : Q () (with_store (delete n) s) → wp (delete_node n) E Q s.
Proof using Hd.
  intros HQ. unfold delete_node, deref, wp, mbind, M_bind, gets, of_option. by rewrite Hd.
Qed.
End pointers.

Lemma hd_in ps : ps ≠ [] → ∃ y, (hd_addr 0 ps, y) ∈ ps.
Proof. destruct ps as [|[a x] ps]; [done|]. intros _. exists x. left. Qed.
Lemma last_in ps : ps ≠ [] → ∃ y, (last_addr 0 ps, y) ∈ ps.
Proof.
  destruct ps as [|[a x] ps _] using rev_ind; [done|]. intros _. exists x. rewrite last_addr_snoc.
  apply elem_snoc.
Qed.
Lemma ring_head m ps : ps ≠ [] → ring m ps →
  ∃ d, m !! hd_addr 0 ps = Some d ∧ prev d = last_addr 0 ps.
Proof. destruct ps as [|[a x] ps]; [done|]. intros _ [Ha _]. by eexists. Qed.
Lemma ring_lookup m ps a x : ring m ps → (a, x) ∈ ps → ∃ d, m !! a = Some d ∧ data d = x.
Proof. apply chain_lookup. Qed.

Lemma in_addrs ps a x : (a, x) ∈ ps → a ∈ ps.*1.
Proof. intros H. apply list_elem_of_fmap. by exists (a, x). Qed.

(** [link_before_head] closes the ring through the new node. *)
Lemma wp_link_before_head n x s ps E (Q : unit → klist T → Prop) :
  ps ≠ [] → ring (kl_store s) ps → NoDup ps.*1 → n ∉ ps.*1 → kl_head s = hd_addr 0 ps →
  kl_store s !! n = Some (mk_lnode 0 0 x) →
  (∀ f, ring (f (kl_store s)) (ps ++ [(n, x)]) → dom (f (kl_store s)) = dom (kl_store s) →
    Q () (with_store f s)) →
  wp (link_before_head n) E Q s.
Proof.
  intros Hne Hring Hnd Hn Hhead Hnn HQ. set (h := hd_addr 0 ps) in *. set (lst := last_addr 0 ps).
  destruct (hd_in ps Hne) as [y Hh%in_addrs], (last_in ps Hne) as [z Hl]. fold h in Hh. fold lst in Hl.
  pose proof (in_addrs _ _ _ Hl) as Hla.
  destruct (ring_head _ _ Hne Hring) as (dh & Hdh & Hph). fold h in Hdh. fold lst in Hph.
  assert (h ≠ n ∧ lst ≠ n) as [Hhn Hln] by (split; by intros ->).
  unfold link_before_head. apply wp_gets. rewrite Hhead. fold h.
  apply wp_bind. eapply wp_set_next; [done|].
  apply wp_bind. eapply wp_get_prev; [cbn; rewrite lookup_setn, decide_False by done; exact Hdh|].
  rewrite Hph. apply wp_bind.
  eapply wp_set_prev; [cbn; by rewrite lookup_setn, decide_True, Hnn|].
  apply wp_bind. eapply wp_get_prev.
  { cbn. rewrite lookup_setp, decide_False, lookup_setn, decide_False by done. exact Hdh. }
  rewrite Hph. set (m2 := setp n lst (setn n h (kl_store s))).
  assert (∀ b, b ≠ n → m2 !! b = kl_store s !! b) as Hm2.
  { intros b Hb. unfold m2. by rewrite lookup_setp, decide_False, lookup_setn, decide_False. }
  assert (chain m2 lst ps h) as Hc2.
  { eapply chain_frame; [|exact Hring]. intros b Hb. apply Hm2. by intros ->. }
  destruct (chain_lookup _ _ _ _ _ _ Hc2 Hl) as (dl & Hdl & _).
  apply wp_bind. eapply wp_set_next; [exact Hdl|].
  assert (∃ d, setn lst n m2 !! h = Some d) as [d Hd].
  { rewrite lookup_setn. case_decide as Heq; [rewrite <- Heq|]; rewrite Hm2, Hdh by done; by eexists. }
  eapply wp_set_prev; [exact Hd|]. apply (HQ (λ m, setp h n (setn lst n (setp n lst (setn n h m))))).
  - unfold ring. rewrite last_addr_snoc. apply chain_app. cbn [hd_addr]. split.
    + by eapply chain_relink.
    + cbn. split; [|done]. rewrite lookup_setp, decide_False, lookup_setn, decide_False by done.
      rewrite lookup_setp, decide_True, lookup_setn, decide_True, Hnn by done. cbn.
      unfold lst, h. rewrite hd_addr_app, (last_addr_ne n 0), (hd_addr_ne (hd_addr 0 _) 0) by done. done.
  - by rewrite dom_setp, dom_setn, dom_setp, dom_setn.
Qed.

Lemma wp_new_node x s ps E (Q : Z → klist T → Prop) : kl_rep s ps →
  (∀ n, n ∉ ps.*1 → n ≠ 0 → ring (<[n := mk_lnode 0 0 x]> (kl_store s)) ps →
    Q n (with_store (insert n (mk_lnode 0 0 x)) s)) →
  wp (new_node new_addr x) E Q s.
Proof using new_addr_fresh.
  intros [_ _ Hring _ Hdom _] HQ. unfold new_node. apply wp_gets, wp_modify, wp_ret.
  destruct (new_addr_fresh (kl_store s)) as [Hf Hnz]. rewrite Hdom, elem_of_list_to_set in Hf.
  apply HQ; [done..|]. eapply chain_frame; [|exact Hring]. intros a Ha.
  rewrite lookup_insert_ne; [done|]. by intros <-.
Qed.

Lemma small_word k : Z.of_nat k < 2 ^ 64 → wrap64 (Z.of_nat k) = Z.of_nat k.
Proof. intros H. apply wrap_small. split; [lia|done]. Qed.

Lemma kl_rep_linked s ps n x : kl_rep s ps → n ∉ ps.*1 → n ≠ 0 → Z.of_nat (length ps) + 1 < 2 ^ 64 →
  ∀ s', ring (kl_store s') (ps ++ [(n, x)]) → dom (kl_store s') = {[n]} ∪ dom (kl_store s) →
  kl_size s' = kl_size s →
  (kl_head s' = hd_addr n ps →
    kl_rep (with_lsize (wrap64 (kl_size s' + 1)) s') (ps ++ [(n, x)])) ∧
  (kl_head s' = n → kl_rep (with_lsize (wrap64 (kl_size s' + 1)) s') ((n, x) :: ps)).
Proof.
  intros [Hs Hh Hr Hnd Hdom Hnull] Hn Hn0 Hsm s' Hring' Hdom' Hs'.
  assert (wrap64 (kl_size s' + 1) = Z.of_nat (length ps + 1)) as Hw.
  { rewrite Hs', Hs. rewrite <- (small_word (length ps + 1)) by lia. f_equal. lia. }
  assert (NoDup ((n, x) :: ps).*1) as Hnd' by (cbn; by apply NoDup_cons).
  split; intros Hhd; split; cbn [with_lsize kl_size kl_head kl_store].
  - rewrite Hw, length_app. done.
  - rewrite Hhd, hd_addr_app. done.
  - done.
  - rewrite fmap_app, (comm (++)). exact Hnd'.
  - rewrite Hdom', Hdom, fmap_app, list_to_set_app_L. cbn. by rewrite (right_id_L ∅ (∪)), (comm_L (∪)).
  - rewrite fmap_app, elem_of_app. intros [?|[?|?%not_elem_of_nil]%elem_of_cons]; [done|by subst|done].
  - rewrite Hw. cbn. f_equal. lia.
  - done.
  - by apply (ring_rotate _ ps [(n, x)]).
  - done.
  - rewrite Hdom', Hdom. done.
  - cbn. intros [?|?]%elem_of_cons; [by subst|done].
Qed.

Lemma wp_link_only n x s E (Q : unit → klist T → Prop) : kl_store s !! n = Some (mk_lnode 0 0 x) →
  (∀ f, ring (f (kl_store s)) [(n, x)] → dom (f (kl_store s)) = dom (kl_store s) →
    Q () (with_store f (with_head n s))) → wp (link_only n) E Q s.
Proof.
  intros Hn HQ. unfold link_only. apply wp_modify. apply wp_bind.
  eapply wp_set_next; [exact Hn|].
  eapply wp_set_prev; [cbn; by rewrite lookup_setn, decide_True, Hn|].
  apply (HQ (λ m, setp n n (setn n n m))).
  - split; [|done]. cbn. by rewrite lookup_setp, decide_True, lookup_setn, decide_True, Hn.
  - by rewrite dom_setp, dom_setn.
Qed.

Lemma kl_empty_nil s ps : kl_rep s ps → kl_empty s = true ↔ ps = [].
Proof.
  intros [Hs _ _ _ _ _]. unfold kl_empty. rewrite Hs, Z.eqb_eq. destruct ps; cbn; split; (lia || done).
Qed.

Lemma wp_kl_push_back x s ps : kl_rep s ps → Z.of_nat (length ps) + 1 < 2 ^ 64 →
  wp (kl_push_back new_addr x) False (λ _ s', ∃ n, kl_rep s' (ps ++ [(n, x)])) s.
Proof using new_addr_fresh.
  intros Hrep Hsm. unfold kl_push_back. apply wp_bind. eapply wp_new_node; [done|].
  intros n Hn Hn0 Hring. apply wp_get.
  change (kl_empty (with_store _ s)) with (kl_empty s). pose proof (kl_empty_nil s ps Hrep) as He.
  pose proof (kl_rep_linked s ps n x Hrep Hn Hn0 Hsm) as Hl.
  apply wp_bind. destruct (kl_empty s).
  - assert (ps = []) as -> by (by apply He).
    eapply wp_link_only; [by apply lookup_insert_eq|]. intros f Hf Hdf.
    exists n. apply Hl; [done| |done..]. cbn in *. by rewrite Hdf, dom_insert_L.
  - assert (ps ≠ []) as Hne by (by intros ?%He).
    eapply (wp_link_before_head n x _ ps); try done; [apply Hrep|apply Hrep|apply lookup_insert_eq|].
    intros f Hf Hdf. exists n. apply Hl; [done| |done|].
    + cbn in *. by rewrite Hdf, dom_insert_L.
    + cbn. rewrite (lr_head _ _ Hrep). by apply hd_addr_ne.
Qed.

Lemma wp_kl_push_front x s ps : kl_rep s ps → Z.of_nat (length ps) + 1 < 2 ^ 64 →
  wp (kl_push_front new_addr x) False (λ _ s', ∃ n, kl_rep s' ((n, x) :: ps)) s.
Proof using new_addr_fresh.
  intros Hrep Hsm. unfold kl_push_front. apply wp_bind. eapply wp_new_node; [done|].
  intros n Hn Hn0 Hring. apply wp_get.
  change (kl_empty (with_store _ s)) with (kl_empty s). pose proof (kl_empty_nil s ps Hrep) as He.
  pose proof (kl_rep_linked s ps n x Hrep Hn Hn0 Hsm) as Hl.
  apply wp_bind. destruct (kl_empty s).
  - assert (ps = []) as -> by (by apply He).
    eapply wp_link_only; [by apply lookup_insert_eq|]. intros f Hf Hdf.
    exists n. apply Hl; [done| |done..]. cbn in *. by rewrite Hdf, dom_insert_L.
  - assert (ps ≠ []) as Hne by (by intros ?%He).
    apply wp_bind. eapply (wp_link_before_head n x _ ps); try done; [apply Hrep|apply Hrep|apply lookup_insert_eq|].
    intros f Hf Hdf. exists n. apply Hl; [done| |done..].
    cbn in *. by rewrite Hdf, dom_insert_L.
Qed.

(** ** Taking a node out *)

Section unlink.
Context (n : Z) (x : T) (l1 l2 : list (Z * T)) (s : klist T).
Hypothesis Hring : ring (kl_store s) (l1 ++ (n, x) :: l2).
Hypothesis Hnd : NoDup (l1 ++ (n, x) :: l2).*1.
Hypothesis Hne : l2 ++ l1 ≠ [].
Let ps := l2 ++ l1.
Let h := hd_addr 0 ps.
Let lst := last_addr 0 ps.

Lemma unlink_facts : kl_store s !! n = Some (mk_lnode lst h x) ∧ chain (kl_store s) n ps n ∧
  NoDup ps.*1 ∧ n ∉ ps.*1.
Proof using Hring Hnd Hne.
  apply (ring_rotate _ l1 ((n, x) :: l2)) in Hring.
  change (((n, x) :: l2) ++ l1) with ((n, x) :: ps) in Hring. destruct Hring as [Hn Hc].
  assert (((n, x) :: ps).*1 ≡ₚ (l1 ++ (n, x) :: l2).*1) as Hperm.
  { apply fmap_Permutation. unfold ps. by rewrite app_comm_cons, (comm (++)). }
  rewrite <- Hperm in Hnd. cbn in Hnd. apply NoDup_cons in Hnd as [Hnn Hnd'].
  rewrite last_addr_cons, (last_addr_ne n 0), (hd_addr_ne _ 0) in Hn by done. done.
Qed.

Lemma unlink_ring : ring (setp h lst (setn lst h (kl_store s))) (l1 ++ l2).
Proof using Hring Hnd Hne.
  destruct unlink_facts as (_ & Hc & Hnd' & _).
  apply ring_rotate. unfold ring. fold ps. fold h. fold lst. by eapply chain_relink.
Qed.

Lemma unlink_ends : h ≠ n ∧ lst ≠ n ∧ (∃ d, kl_store s !! h = Some d) ∧ ∃ d, kl_store s !! lst = Some d.
Proof using Hring Hnd Hne.
  destruct unlink_facts as (_ & Hc & _ & Hn).
  destruct (hd_in ps Hne) as [y Hh], (last_in ps Hne) as [z Hl].
  split; [intros He; apply Hn; rewrite <- He; by eapply in_addrs|].
  split; [intros He; apply Hn; rewrite <- He; by eapply in_addrs|].
  destruct (chain_lookup _ _ _ _ _ _ Hc Hh) as (d & Hd & _), (chain_lookup _ _ _ _ _ _ Hc Hl) as (d' & Hd' & _).
  split; by eexists.
Qed.

Let after := with_store (λ m, setp h lst (setn lst h m)) s.

Lemma wp_unlink E (Q : unit → klist T → Prop) : Q () after → wp (unlink n) E Q s.
Proof using Hring Hnd Hne.
  intros HQ. destruct unlink_facts as (Hn & _). destruct unlink_ends as (Hhn & Hln & [dh Hh] & [dl Hl]).
  unfold unlink. apply wp_bind. eapply wp_get_prev; [exact Hn|].
  apply wp_bind. eapply wp_get_next; [exact Hn|]. cbn [prev next_].
  apply wp_bind. eapply wp_set_next; [exact Hl|].
  assert (kl_store (with_store (setn lst h) s) !! n = Some (mk_lnode lst h x)) as Hn'.
  { cbn. by rewrite lookup_setn, decide_False. }
  apply wp_bind. eapply wp_get_next; [exact Hn'|].
  apply wp_bind. eapply wp_get_prev; [exact Hn'|]. cbn [prev next_].
  assert (∃ d, kl_store (with_store (setn lst h) s) !! h = Some d) as [d Hd].
  { cbn. rewrite lookup_setn. case_decide as He; [rewrite Hl; by eexists|by exists dh]. }
  by eapply wp_set_prev.
Qed.

Lemma wp_unlink_rev E (Q : unit → klist T → Prop) : Q () after → wp (unlink_rev n) E Q s.
Proof using Hring Hnd Hne.
  intros HQ. destruct unlink_facts as (Hn & _). destruct unlink_ends as (Hhn & Hln & [dh Hh] & [dl Hl]).
  unfold unlink_rev. apply wp_bind. eapply wp_get_next; [exact Hn|].
  apply wp_bind. eapply wp_get_prev; [exact Hn|]. cbn [prev next_].
  apply wp_bind. eapply wp_set_prev; [exact Hh|].
  assert (kl_store (with_store (setp h lst) s) !! n = Some (mk_lnode lst h x)) as Hn'.
  { cbn. by rewrite lookup_setp, decide_False. }
  apply wp_bind. eapply wp_get_prev; [exact Hn'|].
  apply wp_bind. eapply wp_get_next; [exact Hn'|]. cbn [prev next_].
  assert (∃ d, kl_store (with_store (setp h lst) s) !! lst = Some d) as [d Hd].
  { cbn. rewrite lookup_setp. case_decide as He; [rewrite Hh; by eexists|by exists dl]. }
  eapply wp_set_next; [exact Hd|]. unfold after in HQ. unfold with_store in *. cbn in *.
  by rewrite <- setp_setn.
Qed.
End unlink.

Lemma kl_rep_deleted s ps l1 l2 n x s' : kl_rep s ps → ps = l1 ++ (n, x) :: l2 →
  ring (kl_store s') (l1 ++ l2) → dom (kl_store s') = dom (kl_store s) →
  kl_size s' = Z.of_nat (length l1 + length l2) → kl_head s' = hd_addr 0 (l1 ++ l2) →
  kl_rep (with_store (delete n) s') (l1 ++ l2).
Proof.
  intros [Hs Hh Hr Hnd Hdom Hnull] -> Hring Hdom' Hs' Hh'.
  assert ((l1 ++ (n, x) :: l2).*1 ≡ₚ n :: (l1 ++ l2).*1) as Hperm.
  { rewrite !fmap_app. cbn. by rewrite Permutation_middle. }
  rewrite Hperm in Hnd, Hnull. apply NoDup_cons in Hnd as [Hn Hnd].
  split; cbn [with_store kl_size kl_head kl_store].
  - by rewrite length_app.
  - done.
  - eapply chain_frame; [|exact Hring]. intros b Hb. rewrite lookup_delete_ne; [done|]. by intros <-.
  - done.
  - rewrite dom_delete_L, Hdom', Hdom.
    assert (list_to_set (l1 ++ (n, x) :: l2).*1 =@{gset Z} {[n]} ∪ list_to_set (l1 ++ l2).*1) as ->.
    { apply leibniz_equiv. rewrite Hperm. done. }
    apply set_eq. intros b. rewrite elem_of_difference, elem_of_union, !elem_of_singleton, elem_of_list_to_set.
    split; [tauto|]. intros Hb. split; [by right|]. by intros ->.
  - rewrite elem_of_cons in Hnull. tauto.
Qed.

(** [_size--], and the test whether the list has become empty. *)
Lemma size_dec s l1 l2 n x : kl_rep s (l1 ++ (n, x) :: l2) → Z.of_nat (length (l1 ++ (n, x) :: l2)) < 2 ^ 64 →
  wrap64 (kl_size s - 1) = Z.of_nat (length l1 + length l2) ∧
  (kl_empty (with_lsize (wrap64 (kl_size s - 1)) s) = true ↔ l2 ++ l1 = []).
Proof.
  intros Hrep Hsm. assert (wrap64 (kl_size s - 1) = Z.of_nat (length l1 + length l2)) as Hw.
  { rewrite (lr_size _ _ Hrep). rewrite length_app in *. cbn [length] in *.
    rewrite <- (small_word (length l1 + length l2)) by lia. f_equal. lia. }
  split; [done|]. unfold kl_empty. cbn. rewrite Hw, Z.eqb_eq. destruct l1, l2; cbn; split; (lia || done).
Qed.

Lemma rep_not_empty s l1 l2 n x : kl_rep s (l1 ++ (n, x) :: l2) → kl_empty s = false.
Proof.
  intros Hrep. destruct (kl_empty s) eqn:He; [|done]. apply (kl_empty_nil _ _ Hrep) in He. by destruct l1.
Qed.

Lemma wp_remove_node n x l1 l2 s : kl_rep s (l1 ++ (n, x) :: l2) →
  Z.of_nat (length (l1 ++ (n, x) :: l2)) < 2 ^ 64 →
  wp (remove_node n) False (λ b s', b = true ∧ kl_rep s' (l1 ++ l2)) s.
Proof.
  intros Hrep Hsm. pose proof (size_dec _ _ _ _ _ Hrep Hsm) as [Hw He].
  unfold remove_node. apply wp_get. rewrite (rep_not_empty _ _ _ _ _ Hrep). cbn [orb].
  assert (n ≠ 0) as Hn0.
  { intros ->. apply (lr_null _ _ Hrep). rewrite fmap_app, elem_of_app. right. left. }
  rewrite (proj2 (Z.eqb_neq n 0)) by done. unfold dec_size. apply wp_modify, wp_get.
  set (s1 := with_lsize _ s) in *. destruct (kl_empty s1).
  - destruct (app_eq_nil _ _ (proj1 He eq_refl)) as [-> ->].
    apply wp_modify, wp_bind. destruct (lr_ring _ _ Hrep) as [Hn _].
    eapply wp_delete_node; [exact Hn|]. split; [done|]. by eapply (kl_rep_deleted s _ [] []).
  - assert (l2 ++ l1 ≠ []) as Hne by (by intros ?%He).
    destruct (unlink_facts n x l1 l2 s) as (Hn & _); [apply Hrep..|done|].
    apply wp_bind, wp_bind. cbn [kl_head s1 with_lsize].
    rewrite (lr_head _ _ Hrep).
    assert (wp (if n =? hd_addr 0 (l1 ++ (n, x) :: l2)
                then q ← get_next n; modify (with_head q) else mret ()) False
              (λ _ s2, s2 = with_head (hd_addr 0 (l1 ++ l2)) s1) s1) as Hhead.
    { destruct l1 as [|[a y] l1].
      - cbn [app hd_addr]. rewrite Z.eqb_refl. apply wp_bind. eapply wp_get_next; [exact Hn|].
        cbn. by rewrite app_nil_r.
      - rewrite (proj2 (Z.eqb_neq _ _)).
        + apply wp_ret. unfold s1, with_head, with_lsize. cbn. by rewrite (lr_head _ _ Hrep).
        + cbn. intros ->. pose proof (lr_nodup _ _ Hrep) as Hnd. cbn in Hnd.
          apply NoDup_cons in Hnd as [Hnd _]. apply Hnd. rewrite fmap_app, elem_of_app. right. left. }
    eapply wp_mono; [exact Hhead|done|]. intros [] s2 ->.
    eapply (wp_unlink n x l1 l2); [apply Hrep..|done|].
    destruct (unlink_ends n x l1 l2 s) as (Hhn & Hln & _); [apply Hrep..|done|].
    apply wp_bind. eapply wp_delete_node.
    { cbn. rewrite lookup_setp, decide_False, lookup_setn, decide_False by done. exact Hn. }
    split; [done|]. eapply (kl_rep_deleted s); [done|done| |cbn; by rewrite dom_setp, dom_setn|done..].
    apply (unlink_ring n x l1 l2 s); [apply Hrep..|done].
Qed.

(** The state after [unlink_rev] and [delete n], for the two [pop]s. *)
Lemma wp_unlink_delete n x l1 l2 s h : kl_rep s (l1 ++ (n, x) :: l2) → l2 ++ l1 ≠ [] →
  Z.of_nat (length (l1 ++ (n, x) :: l2)) < 2 ^ 64 → h = hd_addr 0 (l1 ++ l2) →
  let m := setp (hd_addr 0 (l2 ++ l1)) (last_addr 0 (l2 ++ l1))
             (setn (last_addr 0 (l2 ++ l1)) (hd_addr 0 (l2 ++ l1)) (kl_store s)) in
  wp (delete_node n) False (λ _ s', kl_rep s' (l1 ++ l2)) (mk_klist m h (wrap64 (kl_size s - 1))).
Proof.
  intros Hrep Hne Hsm -> m. pose proof (size_dec _ _ _ _ _ Hrep Hsm) as [Hw _].
  destruct (unlink_facts n x l1 l2 s) as (Hn & _); [apply Hrep..|done|].
  destruct (unlink_ends n x l1 l2 s) as (Hhn & Hln & _); [apply Hrep..|done|].
  eapply wp_delete_node.
  { cbn. unfold m. rewrite lookup_setp, decide_False, lookup_setn, decide_False by done. exact Hn. }
  eapply (kl_rep_deleted s); [done|done| |cbn; unfold m; by rewrite dom_setp, dom_setn|done..].
  apply (unlink_ring n x l1 l2 s); [apply Hrep..|done].
Qed.

Lemma wp_kl_pop_front n x l s : kl_rep s ((n, x) :: l) → Z.of_nat (length ((n, x) :: l)) < 2 ^ 64 →
  wp kl_pop_front False (λ _ s', kl_rep s' l) s.
Proof.
  intros Hrep Hsm. pose proof (size_dec s [] l n x Hrep Hsm) as [Hw He].
  unfold kl_pop_front. apply wp_get. rewrite (rep_not_empty s [] l n x Hrep).
  rewrite (lr_head _ _ Hrep). cbn [hd_addr]. unfold dec_size. apply wp_modify, wp_get.
  set (s1 := with_lsize _ s) in *. rewrite app_nil_r in He. destruct (kl_empty s1).
  - rewrite (proj1 He eq_refl) in *. apply wp_modify. destruct (lr_ring _ _ Hrep) as [Hn _].
    eapply wp_delete_node; [exact Hn|]. by eapply (kl_rep_deleted s _ [] []).
  - assert (l ++ [] ≠ []) as Hne by (rewrite app_nil_r; by intros ?%He).
    apply wp_bind, wp_bind. eapply (wp_unlink_rev n x [] l); [apply Hrep..|done|].
    destruct (unlink_facts n x [] l s) as (Hn & _); [apply Hrep..|done|].
    destruct (unlink_ends n x [] l s) as (Hhn & Hln & _); [apply Hrep..|done|].
    apply wp_bind. eapply wp_get_next.
    { cbn. rewrite lookup_setp, decide_False, lookup_setn, decide_False by done. exact Hn. }
    apply (wp_unlink_delete n x [] l s _ Hrep Hne Hsm). cbn. by rewrite app_nil_r.
Qed.

Lemma wp_kl_pop_back n x l s : kl_rep s (l ++ [(n, x)]) → Z.of_nat (length (l ++ [(n, x)])) < 2 ^ 64 →
  wp kl_pop_back False (λ _ s', kl_rep s' l) s.
Proof.
  intros Hrep Hsm. pose proof (size_dec s l [] n x Hrep Hsm) as [Hw He].
  destruct (ring_head (kl_store s) (l ++ [(n, x)]) ltac:(by destruct l) (lr_ring _ _ Hrep)) as (d & Hd & Hp).
  rewrite last_addr_snoc in Hp.
  unfold kl_pop_back. apply wp_get. rewrite (rep_not_empty s l [] n x Hrep).
  rewrite (lr_head _ _ Hrep). apply wp_bind. eapply wp_get_prev; [exact Hd|]. rewrite Hp.
  unfold dec_size. apply wp_modify, wp_get. set (s1 := with_lsize _ s) in *. cbn [app] in He.
  destruct (kl_empty s1).
  - rewrite (proj1 He eq_refl) in *. apply wp_modify. destruct (lr_ring _ _ Hrep) as [Hn _].
    eapply wp_delete_node; [exact Hn|]. by eapply (kl_rep_deleted s _ [] []).
  - assert ([] ++ l ≠ []) as Hne by (by intros ?%He).
    apply wp_bind. eapply (wp_unlink_rev n x l []); [apply Hrep..|done|].
    pose proof (wp_unlink_delete n x l [] s (kl_head s) Hrep Hne Hsm) as Hdel.
    eapply wp_mono; [apply Hdel|done|]; [|intros [] s'; by rewrite app_nil_r].
    rewrite (lr_head _ _ Hrep), app_nil_r. destruct l as [|[]]; [by destruct Hne|done].
Qed.

Lemma wp_pop_nil s : kl_rep s [] →
  wp kl_pop_front False (λ _ s', s' = s) s ∧ wp kl_pop_back False (λ _ s', s' = s) s.
Proof.
  intros Hrep. pose proof (proj2 (kl_empty_nil _ _ Hrep) eq_refl) as He.
  unfold kl_pop_front, kl_pop_back. split; apply wp_get; by rewrite He.
Qed.

(** ** Walking along the list *)

Lemma chain_next m ps : ∀ p q i a x b, chain m p ps q → ps !! i = Some (a, x) →
  hd_addr q (drop (S i) ps) = b → ∃ d, m !! a = Some d ∧ next_ d = b ∧ data d = x.
Proof.
  induction ps as [|[c y] ps IH]; intros p q i a x b; [done|]. intros [Hc Hch].
  destruct i as [|i]; cbn.
  - intros [= <- <-] <-. rewrite drop_0. eauto.
  - intros Hi Hb. by eapply IH.
Qed.

Lemma wp_advance k : ∀ i s ps E (Q : Z → klist T → Prop), kl_rep s ps → (i + k < length ps)%nat →
  Q (hd_addr 0 (drop (i + k) ps)) s → wp (advance k (hd_addr 0 (drop i ps))) E Q s.
Proof.
  induction k as [|k IH]; intros i s ps E Q Hrep Hk HQ; cbn [advance].
  - by rewrite Nat.add_0_r in HQ.
  - destruct (lookup_lt_is_Some_2 ps i) as [[a x] Ha]; [lia|].
    assert (drop i ps = (a, x) :: drop (S i) ps) as Hdrop by (by apply drop_S).
    rewrite Hdrop at 1. cbn [hd_addr].
    destruct (chain_next _ _ _ _ i a x (hd_addr (hd_addr 0 ps) (drop (S i) ps)) (lr_ring _ _ Hrep))
      as (d & Hd & Hn & _); [done..|].
    apply wp_bind. eapply wp_get_next; [exact Hd|]. rewrite Hn.
    rewrite (hd_addr_ne _ 0) by (intros Hnil%(f_equal length); rewrite length_drop in Hnil; cbn in Hnil; lia).
    apply IH; [done|lia|]. by rewrite Nat.add_succ_comm.
Qed.

Lemma wp_kl_at k a x s ps : kl_rep s ps → ps !! k = Some (a, x) →
  wp (kl_at k) False (λ y s', y = x ∧ s' = s) s.
Proof.
  intros Hrep Hk. unfold kl_at. apply wp_gets. rewrite (lr_head _ _ Hrep).
  apply wp_bind. rewrite <- (drop_0 ps). apply (wp_advance k 0 s ps); [done|by apply lookup_lt_Some in Hk|].
  cbn [Nat.add]. rewrite (drop_S _ _ _ Hk). cbn [hd_addr].
  destruct (ring_lookup _ _ a x (lr_ring _ _ Hrep)) as (d & Hd & Hx); [by eapply list_elem_of_lookup_2|].
  eapply wp_get_data; [exact Hd|]. done.
Qed.

Lemma wp_kl_erase k s ps : kl_rep s ps → Z.of_nat (length ps) < 2 ^ 64 →
  wp (kl_erase k) False (λ b s', b = bool_decide (k < length ps)%nat ∧ kl_rep s' (delete k ps)) s.
Proof.
  intros Hrep Hsm. unfold kl_erase. apply wp_get. unfold kl_empty. rewrite (lr_size _ _ Hrep).
  destruct (decide (k < length ps)%nat) as [Hk|Hk].
  - rewrite (proj2 (Z.eqb_neq _ _)), (proj2 (Z.leb_gt _ _)) by lia. cbn [orb].
    destruct (lookup_lt_is_Some_2 ps k Hk) as [[a x] Ha].
    rewrite (lr_head _ _ Hrep), <- (drop_0 ps) at 1. apply wp_bind.
    apply (wp_advance k 0 s ps); [done|lia|]. cbn [Nat.add]. rewrite (drop_S _ _ _ Ha). cbn [hd_addr].
    rewrite bool_decide_eq_true_2 by done. rewrite delete_take_drop.
    rewrite <- (take_drop_middle _ _ _ Ha) in Hrep, Hsm. by apply (wp_remove_node a x).
  - rewrite (proj2 (Z.leb_le _ _)), orb_true_r by lia. apply wp_ret.
    rewrite bool_decide_eq_false_2 by done. split; [done|]. by rewrite delete_take_drop, take_ge, drop_ge, app_nil_r by lia.
Qed.

(** ** Rotation and reversal *)

Lemma kl_rep_rotate s l1 l2 : kl_rep s (l1 ++ l2) → kl_rep (with_head (hd_addr 0 (l2 ++ l1)) s) (l2 ++ l1).
Proof.
  intros [Hs Hh Hr Hnd Hdom Hnull]. assert ((l2 ++ l1).*1 ≡ₚ (l1 ++ l2).*1) as Hperm.
  { apply fmap_Permutation. by rewrite (comm (++)). }
  split; cbn [with_head kl_size kl_head kl_store].
  - rewrite Hs, !length_app. lia.
  - done.
  - by apply ring_rotate.
  - by rewrite Hperm.
  - rewrite Hdom. apply leibniz_equiv. by rewrite Hperm.
  - by rewrite Hperm.
Qed.

Lemma wp_kl_rotate_next a x l s : kl_rep s ((a, x) :: l) →
  wp kl_rotate_next False (λ _ s', kl_rep s' (l ++ [(a, x)])) s.
Proof.
  intros Hrep. unfold kl_rotate_next. apply wp_get. rewrite (rep_not_empty s [] l a x Hrep).
  rewrite (lr_head _ _ Hrep). cbn [hd_addr]. apply wp_bind. destruct (lr_ring _ _ Hrep) as [Ha _].
  eapply wp_get_next; [exact Ha|]. cbn [next_]. pose proof (kl_rep_rotate s [(a, x)] l Hrep) as Hrot.
  by rewrite hd_addr_app in Hrot.
Qed.

Lemma wp_kl_rotate_prev a x l s : kl_rep s (l ++ [(a, x)]) →
  wp kl_rotate_prev False (λ _ s', kl_rep s' ((a, x) :: l)) s.
Proof.
  intros Hrep. unfold kl_rotate_prev. apply wp_get. rewrite (rep_not_empty s l [] a x Hrep).
  rewrite (lr_head _ _ Hrep). apply wp_bind.
  destruct (ring_head (kl_store s) (l ++ [(a, x)]) ltac:(by destruct l) (lr_ring _ _ Hrep)) as (d & Hd & Hp).
  eapply wp_get_prev; [exact Hd|]. rewrite Hp, last_addr_snoc. apply (kl_rep_rotate s l [(a, x)] Hrep).
Qed.

Definition flip (d : lnode T) : lnode T := mk_lnode (next_ d) (prev d) (data d).

Lemma hd_addr_reverse q ps : hd_addr q (reverse ps) = last_addr q ps.
Proof.
  destruct ps as [|[a x] l _] using rev_ind; [done|]. by rewrite reverse_snoc, last_addr_snoc.
Qed.
Lemma last_addr_reverse q ps : last_addr q (reverse ps) = hd_addr q ps.
Proof. destruct ps as [|[a x] l]; [done|]. by rewrite reverse_cons, last_addr_snoc. Qed.

Lemma chain_flip m m' ps : ∀ p q, chain m p ps q → (∀ a, a ∈ ps.*1 → m' !! a = flip <$> m !! a) →
  chain m' q (reverse ps) p.
Proof.
  induction ps as [|[a x] ps IH]; intros p q; [done|]. intros [Ha Hc] Hflip.
  rewrite reverse_cons. apply chain_app. cbn [hd_addr chain]. split_and!; [| |done].
  - apply IH; [done|]. intros b Hb. apply Hflip. by right.
  - rewrite Hflip, Ha by left. cbn. by rewrite last_addr_reverse.
Qed.

Lemma wp_reverse_loop ps : ∀ p q s E (Q : unit → klist T → Prop),
  chain (kl_store s) p ps q → NoDup ps.*1 →
  (∀ f, (∀ b, f (kl_store s) !! b =
           if decide (b ∈ ps.*1) then flip <$> kl_store s !! b else kl_store s !! b) →
    Q () (with_store f s)) →
  wp (reverse_loop (length ps) (hd_addr q ps)) E Q s.
Proof.
  induction ps as [|[a x] ps IH]; intros p q s E Q Hc Hnd HQ; cbn [length reverse_loop hd_addr].
  { apply wp_ret. destruct s. apply (HQ id). intros b. rewrite decide_False; [done|]. by intros ?%not_elem_of_nil. }
  destruct Hc as [Ha Hc]. cbn in Hnd. apply NoDup_cons in Hnd as [Hna Hnd].
  apply wp_bind. eapply wp_get_next; [exact Ha|].
  apply wp_bind. eapply wp_get_prev; [exact Ha|]. cbn [prev next_].
  apply wp_bind. eapply wp_set_next; [exact Ha|].
  apply wp_bind. eapply wp_set_prev; [cbn; by rewrite lookup_setn, decide_True, Ha|].
  set (s' := with_store _ (with_store _ s)).
  assert (∀ b, b ≠ a → kl_store s' !! b = kl_store s !! b) as Hsame.
  { intros b Hb. cbn. by rewrite lookup_setp, decide_False, lookup_setn, decide_False. }
  eapply (IH a q); [|done|].
  { eapply chain_frame; [|exact Hc]. intros b Hb. apply Hsame. by intros ->. }
  intros f Hf. apply (HQ (λ m, f (setp a (hd_addr q ps) (setn a p m)))). intros b.
  change (f (setp a (hd_addr q ps) (setn a p (kl_store s)))) with (f (kl_store s')). rewrite Hf.
  change ((a, x) :: ps).*1 with (a :: ps.*1). destruct (decide (b = a)) as [->|Hb].
  - rewrite decide_False by done. rewrite decide_True by left. cbn.
    by rewrite lookup_setp, decide_True, lookup_setn, decide_True, Ha.
  - rewrite Hsame by done. destruct (decide (b ∈ ps.*1)) as [Hin|Hnin].
    + by rewrite decide_True by (by right).
    + rewrite decide_False; [done|]. by intros [?|?]%elem_of_cons.
Qed.

Lemma wp_kl_reverse s ps : kl_rep s ps → Z.of_nat (length ps) < 2 ^ 64 →
  wp kl_reverse False (λ _ s', kl_rep s' (reverse ps)) s.
Proof.
  intros Hrep Hsm. unfold kl_reverse. apply wp_get. destruct (kl_empty s) eqn:He.
  { apply (kl_empty_nil _ _ Hrep) in He as ->. done. }
  destruct Hrep as [Hs Hh Hr Hnd Hdom Hnull]. rewrite Hs, Hh, Nat2Z.id. apply wp_bind.
  assert (ps ≠ []) as Hne by (intros ->; unfold kl_empty in He; by rewrite Hs in He).
  rewrite (hd_addr_ne 0 (hd_addr 0 ps)) by done.
  eapply wp_reverse_loop; [exact Hr|done|]. intros f Hf. apply wp_gets.
  cbn [with_store kl_head]. rewrite Hh.
  destruct (ring_head _ _ Hne Hr) as (d & Hd & Hp). destruct (hd_in ps Hne) as [y Hy%in_addrs].
  apply wp_bind. eapply wp_get_next; [cbn; by rewrite Hf, decide_True, Hd|]. cbn [flip next_]. rewrite Hp.
  assert (ring (f (kl_store s)) (reverse ps)) as Hr'.
  { unfold ring. rewrite hd_addr_reverse, last_addr_reverse. eapply chain_flip; [exact Hr|].
    intros a Ha. by rewrite Hf, decide_True. }
  assert ((reverse ps).*1 ≡ₚ ps.*1) as Hperm by (apply fmap_Permutation, reverse_Permutation).
  split; cbn.
  - by rewrite Hs, length_reverse.
  - by rewrite hd_addr_reverse.
  - done.
  - by rewrite Hperm.
  - apply leibniz_equiv. rewrite Hperm, <- Hdom. intros b. rewrite !elem_of_dom, Hf.
    case_decide; [by rewrite fmap_is_Some|done].
  - by rewrite Hperm.
Qed.

(** ** Search, clearing and copying *)

(** [l] without the first [x]. *)
Fixpoint remove_first `{!EqDecision T} x (l : list T) : list T :=
  match l with
  | [] => []
  | y :: l' => if decide (y = x) then l' else y :: remove_first x l'
  end.

Lemma wp_remove_loop `{!EqDecision T} x s l1 l2 : kl_rep s (l1 ++ l2) →
  Z.of_nat (length (l1 ++ l2)) < 2 ^ 64 →
  wp (remove_loop (length l2) (hd_addr (hd_addr 0 (l1 ++ l2)) l2) x) False
    (λ b s', b = bool_decide (x ∈ l2.*2) ∧
       ∃ ps, kl_rep s' ps ∧ ps.*2 = l1.*2 ++ remove_first x l2.*2) s.
Proof.
  revert l1. induction l2 as [|[a y] l2 IH]; intros l1 Hrep Hsm; cbn [length remove_loop].
  { rewrite bool_decide_eq_false_2 by (by intros ?%not_elem_of_nil). split; [done|].
    exists (l1 ++ []). split; [done|]. by rewrite !app_nil_r. }
  cbn [hd_addr]. pose proof (lr_ring _ _ Hrep) as Hr. unfold ring in Hr.
  apply chain_app in Hr as [_ [Ha _]].
  apply wp_bind. eapply wp_get_data; [exact Ha|]. cbn [data fmap list_fmap snd remove_first].
  destruct (decide (y = x)) as [->|Hyx].
  - rewrite bool_decide_eq_true_2 by left. eapply wp_mono; [by apply (wp_remove_node a x)|done|].
    intros b s' [-> Hrep']. split; [done|]. exists (l1 ++ l2). split; [done|]. by rewrite fmap_app.
  - apply wp_bind. eapply wp_get_next; [exact Ha|]. cbn [next_].
    rewrite cons_middle, (assoc_L (++)) in Hrep, Hsm |- *.
    eapply wp_mono; [by apply (IH (l1 ++ [(a, y)]))|done|]. intros b s' (-> & ps & Hps & Heq).
    split.
    + apply bool_decide_ext. rewrite elem_of_cons. split; [by right|by intros [->|?]].
    + exists ps. split; [done|]. rewrite Heq, fmap_app, <- (assoc_L (++)). done.
Qed.

Lemma wp_kl_remove `{!EqDecision T} x s ps : kl_rep s ps → Z.of_nat (length ps) < 2 ^ 64 →
  wp (kl_remove x) False (λ b s', b = bool_decide (x ∈ ps.*2) ∧
    ∃ ps', kl_rep s' ps' ∧ ps'.*2 = remove_first x ps.*2) s.
Proof.
  intros Hrep Hsm. unfold kl_remove. apply wp_get. destruct (kl_empty s) eqn:He.
  - apply (kl_empty_nil _ _ Hrep) in He as ->. rewrite bool_decide_eq_false_2 by (by intros ?%not_elem_of_nil).
    split; [done|]. by exists [].
  - rewrite (lr_size _ _ Hrep), (lr_head _ _ Hrep), Nat2Z.id.
    rewrite (hd_addr_ne 0 (hd_addr 0 ([] ++ ps))); [by apply (wp_remove_loop x s [] ps)|].
    intros ->. by rewrite (proj2 (kl_empty_nil _ _ Hrep) eq_refl) in He.
Qed.

Lemma wp_kl_clear s ps : kl_rep s ps → Z.of_nat (length ps) < 2 ^ 64 →
  wp kl_clear False (λ _ s', kl_rep s' []) s.
Proof.
  intros Hrep Hsm. unfold kl_clear. apply wp_get. eapply wp_mono.
  - apply (wp_while _ _ _ _ (λ s, ∃ ps, kl_rep s ps ∧ Z.of_nat (length ps) < 2 ^ 64) (λ s, Z.to_nat (kl_size s))).
    + intros s1 (ps1 & Hr1 & Hs1) Hne. destruct ps1 as [|[a x] l _] using rev_ind.
      { by rewrite (proj2 (kl_empty_nil _ _ Hr1) eq_refl) in Hne. }
      eapply wp_mono; [by apply (wp_kl_pop_back a x l)|done|]. intros [] s2 Hr2.
      rewrite length_app in Hs1. cbn in Hs1.
      split; [exists l; split; [done|lia]|].
      rewrite (lr_size _ _ Hr1), (lr_size _ _ Hr2), length_app. cbn. lia.
    + by exists ps.
    + lia.
  - done.
  - intros [] s' [(ps' & Hr' & _) Hne]. apply negb_false_iff in Hne.
    by apply (kl_empty_nil _ _ Hr') in Hne as ->.
Qed.

Lemma wp_copy_loop other l : ∀ pre s k, kl_rep other (pre ++ l) → kl_rep s k →
  Z.of_nat (length k + length l) < 2 ^ 64 →
  wp (copy_loop new_addr other (length l) (hd_addr (hd_addr 0 (pre ++ l)) l)) False
    (λ _ s', ∃ k', kl_rep s' k' ∧ k'.*2 = k.*2 ++ l.*2) s.
Proof using new_addr_fresh.
  induction l as [|[a x] l IH]; intros pre s k Ho Hs Hsm; cbn [length copy_loop].
  { exists k. split; [done|]. by rewrite app_nil_r. }
  cbn [hd_addr]. pose proof (lr_ring _ _ Ho) as Hr. apply chain_app in Hr as [_ [Ha _]].
  apply wp_of_option. eexists. split; [exact Ha|]. cbn [data next_]. cbn [length] in Hsm.
  apply wp_bind. eapply wp_mono; [apply (wp_kl_push_back x s k); [done|lia]|done|].
  intros [] s' (n & Hs'). rewrite cons_middle, (assoc_L (++)) in Ho |- *.
  eapply wp_mono; [apply (IH (pre ++ [(a, x)]) s' _ Ho Hs'); rewrite length_app; cbn; lia|done|].
  intros [] s2 (k2 & Hk2 & Heq). exists k2. split; [done|].
  rewrite Heq, fmap_app, <- (assoc_L (++)). done.
Qed.

Lemma wp_kl_assign other l s k : kl_rep other l → kl_rep s k → Z.of_nat (length k) < 2 ^ 64 →
  Z.of_nat (length l) < 2 ^ 64 →
  wp (kl_assign new_addr other) False (λ _ s', ∃ k', kl_rep s' k' ∧ k'.*2 = l.*2) s.
Proof using new_addr_fresh.
  intros Ho Hs Hsk Hsl. unfold kl_assign. apply wp_bind. eapply wp_mono; [by apply (wp_kl_clear s k)|done|].
  intros [] s' Hs'. rewrite (lr_size _ _ Ho), (lr_head _ _ Ho), Nat2Z.id.
  destruct l as [|p l].
  { exists []. split; [done|]. done. }
  rewrite (hd_addr_ne 0 (hd_addr 0 ([] ++ p :: l))) by done.
  by apply (wp_copy_loop other (p :: l) [] s' []).
Qed.

Lemma wp_kl_front a x l s : kl_rep s ((a, x) :: l) → wp kl_front False (λ y s', y = x ∧ s' = s) s.
Proof.
  intros Hrep. unfold kl_front. apply wp_gets. rewrite (lr_head _ _ Hrep).
  destruct (lr_ring _ _ Hrep) as [Ha _]. by eapply wp_get_data.
Qed.

Lemma wp_kl_back a x l s : kl_rep s (l ++ [(a, x)]) → wp kl_back False (λ y s', y = x ∧ s' = s) s.
Proof.
  intros Hrep. unfold kl_back. apply wp_gets. rewrite (lr_head _ _ Hrep).
  destruct (ring_head (kl_store s) (l ++ [(a, x)]) ltac:(by destruct l) (lr_ring _ _ Hrep)) as (d & Hd & Hp).
  apply wp_bind. eapply wp_get_prev; [exact Hd|]. rewrite Hp, last_addr_snoc.
  destruct (ring_lookup _ _ a x (lr_ring _ _ Hrep)) as (d' & Hd' & Hx); [apply elem_snoc|].
  by eapply wp_get_data.
Qed.
End operations.

(** ** Linked lists against lists *)
Section refinement.
Context {T : Type} `{!EqDecision T} (new_addr : gmap Z (lnode T) → Z).
Hypothesis new_addr_fresh : ∀ m, (new_addr m ∉ dom m) ∧ new_addr m ≠ 0.

Inductive lop : Type :=
| PushFront (x : T) | PushBack (x : T) | PopFront | PopBack
| EraseAt (pos : nat) | Remove (x : T) | Reverse | RotateNext | RotatePrev | ClearAll
| Get (pos : nat) | Front | Back.

(** What a call returns: nothing, a truth value, or an element. *)
Inductive lres : Type := RUnit | RBool (b : bool) | RElem (x : T).

Definition run_lop (op : lop) : M (klist T) lres :=
  match op with
  | PushFront x => _ ← kl_push_front new_addr x; mret RUnit
  | PushBack x => _ ← kl_push_back new_addr x; mret RUnit
  | PopFront => _ ← kl_pop_front; mret RUnit
  | PopBack => _ ← kl_pop_back; mret RUnit
  | EraseAt pos => b ← kl_erase pos; mret (RBool b)
  | Remove x => b ← kl_remove x; mret (RBool b)
  | Reverse => _ ← kl_reverse; mret RUnit
  | RotateNext => _ ← kl_rotate_next; mret RUnit
  | RotatePrev => _ ← kl_rotate_prev; mret RUnit
  | ClearAll => _ ← kl_clear; mret RUnit
  | Get pos => x ← kl_at pos; mret (RElem x)
  | Front => x ← kl_front; mret (RElem x)
  | Back => x ← kl_back; mret (RElem x)
  end.

(** The same calls on a list; [None] where the C++ program has no defined meaning. *)
Definition spec_lop (op : lop) (l : list T) : option (list T * lres) :=
  match op with
  | PushFront x => Some (x :: l, RUnit)
  | PushBack x => Some (l ++ [x], RUnit)
  | PopFront => Some (tail l, RUnit)
  | PopBack => Some (take (length l - 1) l, RUnit)
  | EraseAt pos => Some (delete pos l, RBool (bool_decide (pos < length l)%nat))
  | Remove x => Some (remove_first x l, RBool (bool_decide (x ∈ l)))
  | Reverse => Some (reverse l, RUnit)
  | RotateNext => Some (match l with [] => [] | x :: l' => l' ++ [x] end, RUnit)
  | RotatePrev => Some (match last l with None => [] | Some x => x :: take (length l - 1) l end, RUnit)
  | ClearAll => Some ([], RUnit)
  | Get pos => x ← l !! pos; Some (l, RElem x)
  | Front => x ← head l; Some (l, RElem x)
  | Back => x ← last l; Some (l, RElem x)
  end.

(** [run_lop op] returns [r] and leaves the elements [l]. *)
Definition lop_ok (op : lop) (l : list T) (r : lres) (s : klist T) : Prop :=
  wp (run_lop op) False (λ r' s', r' = r ∧ ∃ ps, kl_rep s' ps ∧ ps.*2 = l) s.

Lemma lop_ok_pop s ps : kl_rep s ps → Z.of_nat (length ps) < 2 ^ 64 →
  lop_ok PopFront (tail ps.*2) RUnit s ∧ lop_ok PopBack (take (length ps - 1) ps.*2) RUnit s.
Proof.
  intros Hrep Hsm. split; unfold lop_ok; cbn [run_lop]; apply wp_bind.
  - destruct ps as [|[a x] ps].
    + eapply wp_mono; [by apply wp_pop_nil|done|]. intros [] s' ->. split; [done|]. by exists [].
    + eapply wp_mono; [by apply (wp_kl_pop_front a x ps)|done|]. intros [] s' Hs'. split; [done|]. by exists ps.
  - destruct ps as [|[a x] ps _] using rev_ind.
    + eapply wp_mono; [by apply wp_pop_nil|done|]. intros [] s' ->. split; [done|]. by exists [].
    + eapply wp_mono; [by apply (wp_kl_pop_back a x ps)|done|]. intros [] s' Hs'. split; [done|]. exists ps.
      split; [done|]. rewrite length_app, fmap_app. cbn. rewrite Nat.add_sub.
      by rewrite <- (length_fmap snd ps), take_app_length.
Qed.

Lemma lop_ok_rotate s ps : kl_rep s ps →
  lop_ok RotateNext (match ps.*2 with [] => [] | x :: l' => l' ++ [x] end) RUnit s ∧
  lop_ok RotatePrev (match last ps.*2 with None => [] | Some x => x :: take (length ps - 1) ps.*2 end) RUnit s.
Proof.
  intros Hrep. split; unfold lop_ok; cbn [run_lop]; apply wp_bind.
  - destruct ps as [|[a x] ps].
    + unfold kl_rotate_next. apply wp_get. rewrite (proj2 (kl_empty_nil _ _ Hrep) eq_refl).
      split; [done|]. by exists [].
    + eapply wp_mono; [by apply (wp_kl_rotate_next a x ps)|done|]. intros [] s' Hs'. split; [done|].
      exists (ps ++ [(a, x)]). split; [done|]. by rewrite fmap_app.
  - destruct ps as [|[a x] ps _] using rev_ind.
    + unfold kl_rotate_prev. apply wp_get. rewrite (proj2 (kl_empty_nil _ _ Hrep) eq_refl).
      split; [done|]. by exists [].
    + eapply wp_mono; [by apply (wp_kl_rotate_prev a x ps)|done|]. intros [] s' Hs'. split; [done|].
      exists ((a, x) :: ps). split; [done|]. rewrite length_app, fmap_app. cbn. rewrite last_snoc, Nat.add_sub.
      by rewrite <- (length_fmap snd ps), take_app_length.
Qed.

Lemma lop_ok_read s ps op l r : kl_rep s ps → op = Front ∨ op = Back ∨ (∃ pos, op = Get pos) →
  spec_lop op ps.*2 = Some (l, r) → lop_ok op l r s.
Proof.
  intros Hrep [->|[->|[pos ->]]]; cbn; unfold lop_ok; cbn [run_lop]; intros Hspec.
  - destruct ps as [|[a x] ps]; [done|]. cbn in Hspec. simplify_eq. apply wp_bind.
    eapply wp_mono; [by apply (wp_kl_front a x ps)|done|]. intros y s' [-> ->]. split; [done|]. by exists ((a, x) :: ps).
  - destruct ps as [|[a x] ps _] using rev_ind; [done|]. rewrite fmap_app in Hspec. cbn in Hspec.
    rewrite last_snoc in Hspec. cbn in Hspec. simplify_eq. apply wp_bind.
    eapply wp_mono; [by apply (wp_kl_back a x ps)|done|]. intros y s' [-> ->]. split; [done|].
    exists (ps ++ [(a, x)]). split; [done|]. by rewrite fmap_app.
  - rewrite list_lookup_fmap in Hspec. destruct (ps !! pos) as [[a x]|] eqn:Hp; [|done].
    cbn in Hspec. simplify_eq. apply wp_bind.
    eapply wp_mono; [by apply (wp_kl_at pos a x s ps)|done|]. intros y s' [-> ->]. split; [done|]. by exists ps.
Qed.

Lemma wp_lop op s ps l r : kl_rep s ps → spec_lop op ps.*2 = Some (l, r) →
  Z.of_nat (length ps) + 1 < 2 ^ 64 → lop_ok op l r s.
Proof using new_addr_fresh.
  intros Hrep Hspec Hsm. assert (Z.of_nat (length ps) < 2 ^ 64) as Hsm' by lia.
  destruct (lop_ok_pop s ps Hrep Hsm') as [Hpf Hpb]. destruct (lop_ok_rotate s ps Hrep) as [Hrn Hrp].
  pose proof (lop_ok_read s ps op l r Hrep) as Hread.
  destruct op; try (apply Hread; eauto; done); cbn in Hspec; rewrite ?length_fmap in Hspec; simplify_eq;
    try done; unfold lop_ok; cbn [run_lop]; apply wp_bind.
  - eapply wp_mono; [by apply (wp_kl_push_front _ new_addr_fresh x s ps)|done|].
    intros [] s' [n Hs']. split; [done|]. by eexists.
  - eapply wp_mono; [by apply (wp_kl_push_back _ new_addr_fresh x s ps)|done|].
    intros [] s' [n Hs']. split; [done|]. eexists. split; [done|]. by rewrite fmap_app.
  - eapply wp_mono; [by apply (wp_kl_erase pos s ps)|done|]. intros b s' [-> Hs']. split; [done|].
    eexists. split; [done|]. by rewrite list_fmap_delete.
  - eapply wp_mono; [by apply (wp_kl_remove x s ps)|done|]. intros b s' (-> & ps' & Hs' & Heq).
    split; [done|]. by exists ps'.
  - eapply wp_mono; [by apply (wp_kl_reverse s ps)|done|]. intros [] s' Hs'. split; [done|].
    eexists. split; [done|]. by rewrite fmap_reverse.
  - eapply wp_mono; [by apply (wp_kl_clear s ps)|done|]. intros [] s' Hs'. split; [done|]. by exists [].
Qed.

Fixpoint run_lops (ops : list lop) : M (klist T) (list lres) :=
  match ops with
  | [] => mret []
  | op :: ops' => r ← run_lop op; rs ← run_lops ops'; mret (r :: rs)
  end.
Fixpoint spec_lops (ops : list lop) (l : list T) : option (list T * list lres) :=
  match ops with
  | [] => Some (l, [])
  | op :: ops' => '(l', r) ← spec_lop op l; '(l'', rs) ← spec_lops ops' l'; Some (l'', r :: rs)
  end.

Lemma remove_first_length x (l : list T) : (length (remove_first x l) ≤ length l)%nat.
Proof. induction l as [|y l IH]; cbn; [done|]. case_decide; cbn; lia. Qed.

Lemma delete_length_le (l : list T) i : (length (delete i l) ≤ length l)%nat.
Proof. rewrite delete_take_drop, length_app, length_take, length_drop. lia. Qed.

Lemma spec_lop_length op l l' r : spec_lop op l = Some (l', r) → (length l' ≤ length l + 1)%nat.
Proof.
  destruct op; cbn; intros H; simplify_option_eq; cbn;
    rewrite ?length_app, ?length_take, ?length_reverse; cbn; try lia.
  - destruct l; cbn; lia.
  - pose proof (delete_length_le l pos). lia.
  - pose proof (remove_first_length x l). lia.
  - destruct l; cbn; rewrite ?length_app; cbn; lia.
  - destruct (last l); cbn; rewrite ?length_take; lia.
Qed.

Lemma wp_lops ops : ∀ s ps l rs, kl_rep s ps → spec_lops ops ps.*2 = Some (l, rs) →
  Z.of_nat (length ps + length ops) < 2 ^ 64 →
  wp (run_lops ops) False (λ rs' s', rs' = rs ∧ ∃ ps', kl_rep s' ps' ∧ ps'.*2 = l) s.
Proof using new_addr_fresh.
  induction ops as [|op ops IH]; intros s ps l rs Hrep Hspec Hsm; cbn in Hspec; cbn [run_lops].
  { simplify_eq. split; [done|]. by exists ps. }
  destruct (spec_lop op ps.*2) as [[l1 r]|] eqn:H1; [|done]. cbn in Hspec.
  destruct (spec_lops ops l1) as [[l2 rs']|] eqn:H2; [|done]. cbn in Hspec. simplify_eq.
  cbn [length] in Hsm. apply spec_lop_length in H1 as Hlen. rewrite length_fmap in Hlen.
  apply wp_bind. eapply wp_mono; [eapply (wp_lop op s ps); [done|done|lia]|done|].
  intros r' s1 (-> & ps1 & Hps1 & Heq). subst l1. rewrite length_fmap in Hlen.
  apply wp_bind. eapply wp_mono; [apply (IH s1 ps1 l rs' Hps1 H2); lia|done|].
  by intros rs [] (-> & H).
Qed.
End refinement.

Lemma kl_rep_new {T} : kl_rep (T := T) kl_new [].
Proof. split; try done; [constructor|by intros ?%not_elem_of_nil]. Qed.

(** The elements are the data of the nodes in the store. *)
Lemma kl_rep_elem {T} (s : klist T) ps a d : kl_rep s ps → kl_store s !! a = Some d → data d ∈ ps.*2.
Proof.
  intros [_ _ Hr _ Hdom _] Ha. assert (a ∈ ps.*1) as Hin.
  { apply (elem_of_list_to_set (C := gset Z)). rewrite <- Hdom. by apply elem_of_dom_2 in Ha. }
  apply list_elem_of_fmap in Hin as ([b x] & -> & Hb). destruct (ring_lookup _ _ _ _ Hr Hb) as (d' & Hd' & <-).
  cbn in Ha. rewrite Hd' in Ha. injection Ha as <-. by apply (list_elem_of_fmap_2 snd) in Hb.
Qed.

Lemma kl_rep_size {T} (s : klist T) ps : kl_rep s ps → size (kl_store s) = length ps.
Proof.
  intros [_ _ _ Hnd Hdom _]. rewrite <- size_dom, Hdom, size_list_to_set by done. apply length_fmap.
Qed.

(** C32: every sequence of linked-list calls that is defined for a list behaves as on that list,
    for every allocator that returns fresh non-null addresses: it follows no null or dangling
    pointer, returns the same values and ends with the same elements, and exactly the nodes of these
    elements are still allocated. *)
Theorem klist_refines_list {T} `{!EqDecision T} (new_addr : gmap Z (lnode T) → Z) ops l rs :
  (∀ m, (new_addr m ∉ dom m) ∧ new_addr m ≠ 0) →
  spec_lops ops [] = Some (l, rs) → Z.of_nat (length ops) < 2 ^ 64 →
  ∃ s ps, run_lops new_addr ops kl_new = Ok (s, rs) ∧ kl_rep s ps ∧ ps.*2 = l ∧
    size (kl_store s) = length l.
Proof.
  intros Hfresh Hspec Hsm.
  destruct (wp_total _ _ _ (wp_lops new_addr Hfresh ops kl_new [] l rs kl_rep_new Hspec Hsm))
    as (s & rs' & Hrun & -> & ps & Hrep & <-).
  exists s, ps. split; [done|]. split; [done|]. split; [done|].
  rewrite length_fmap. by apply kl_rep_size.
Qed.

(** The smallest unused address above all used ones. *)
Definition bump (m : gmap Z (lnode Z)) : Z := 1 + set_fold Z.max 0 (dom m).

Lemma fold_max_ge (l : list Z) x : x ∈ l → x ≤ foldr Z.max 0 l.
Proof.
  induction l as [|y l IH]; [by intros ?%not_elem_of_nil|]. intros [->|?%IH]%elem_of_cons; cbn; lia.
Qed.

Lemma bump_fresh m : (bump m ∉ dom m) ∧ bump m ≠ 0.
Proof.
  unfold bump, set_fold. cbn. split.
  - rewrite <- elem_of_elements. intros H%fold_max_ge. lia.
  - assert (∀ l, 0 ≤ foldr Z.max 0 l) as H by (induction l; cbn; lia). specialize (H (elements (dom m))). lia.
Qed.

Lemma klist_refines_list_witness :
  ∃ s ps, run_lops bump [PushBack 1; PushBack 2; PushFront 3; Remove 1; PushBack 1; Reverse; RotateNext;
      EraseAt 1; Front; Back] kl_new =
    Ok (s, [RUnit; RUnit; RUnit; RBool true; RUnit; RUnit; RUnit; RBool true; RElem 2; RElem 1]) ∧
    kl_rep s ps ∧ ps.*2 = [2; 1].
Proof.
  destruct (klist_refines_list bump [PushBack 1; PushBack 2; PushFront 3; Remove 1; PushBack 1; Reverse;
    RotateNext; EraseAt 1; Front; Back] [2; 1]
    [RUnit; RUnit; RUnit; RBool true; RUnit; RUnit; RUnit; RBool true; RElem 2; RElem 1] bump_fresh)
    as (s & ps & H1 & H2 & H3 & _).
  - vm_compute. reflexivity.
  - vm_compute. reflexivity.
  - exists s, ps. exact (conj H1 (conj H2 H3)).
Defined.
