(* ===== verification/Process.v ===== *)
(** * Processes

    [struct Process] of [src/kernel/include/process/process.hpp] and the methods of
    [src/kernel/lib/process/process.cpp] that the scheduler calls: construction, the state
    predicates and the state changes.  A process is known by the address of its object; pointers
    are addresses and 0 is [nullptr].  Address spaces and scheduling are in [Scheduler.v]. *)

From S2P Require Import Prelude Cpu Spinlock Pmm Vmm.

Inductive ProcessState := NEW | RUNNING | READY | BLOCKED | SLEEPING | DEAD | ZOMBIE.
Inductive WaitReason := NONE | KEYBOARD | SLEEP | FRAMEBUFFER | CHILD_PROCESS | MUTEX | SIGNAL.

#[export] Instance ProcessState_eq_dec : EqDecision ProcessState.
Proof. solve_decision. Defined.
#[export] Instance WaitReason_eq_dec : EqDecision WaitReason.
Proof. solve_decision. Defined.

Record Process := mk_Process {
  pid : Z;
  parent : Z;
  state : ProcessState;
  wait_reason : WaitReason;
  wait_pid : Z;
  exit_status : Z;
  context_switches : Z;
  wake_time_ns : Z;
  quantum_start_ns : Z;
  cwd_inode : Z;
  wait_mutex : Z;
  pml4 : Z;
  heap_break : Z;
  uheap : Heap;
  kernel_stack : Z;
  p_kernel_rsp : Z;
  kernel_rsp_saved : Z;
  p_user_rsp : Z;
  context_frame : Z;
  syscall_frame : Z;
  fd_table : list Z;
  entry : Z;
  fs_base : Z;
  tidptr : Z;
}.

Definition KERNEL_STACK_SIZE : Z := 32 * 1024.
(** [sizeof(ContextFrame)]: six callee-saved registers and the return address. *)
Definition SIZEOF_CONTEXT_FRAME : Z := 56.

(** ** Setters *)

(** The members that describe what a process waits for. *)
Definition with_wait (st : ProcessState) (wr : WaitReason) (wpid wmutex wake : Z) (p : Process)
  : Process :=
  mk_Process (pid p) (parent p) st wr wpid (exit_status p) (context_switches p) wake
    (quantum_start_ns p) (cwd_inode p) wmutex (pml4 p) (heap_break p) (uheap p) (kernel_stack p)
    (p_kernel_rsp p) (kernel_rsp_saved p) (p_user_rsp p) (context_frame p) (syscall_frame p)
    (fd_table p) (entry p) (fs_base p) (tidptr p).
Definition with_state (st : ProcessState) (p : Process) : Process :=
  with_wait st (wait_reason p) (wait_pid p) (wait_mutex p) (wake_time_ns p) p.
(** The members that count and time the use of the CPU. *)
Definition with_usage (switches quantum : Z) (p : Process) : Process :=
  mk_Process (pid p) (parent p) (state p) (wait_reason p) (wait_pid p) (exit_status p) switches
    (wake_time_ns p) quantum (cwd_inode p) (wait_mutex p) (pml4 p) (heap_break p) (uheap p)
    (kernel_stack p) (p_kernel_rsp p) (kernel_rsp_saved p) (p_user_rsp p) (context_frame p)
    (syscall_frame p) (fd_table p) (entry p) (fs_base p) (tidptr p).
Definition with_exit_status (v : Z) (p : Process) : Process :=
  mk_Process (pid p) (parent p) (state p) (wait_reason p) (wait_pid p) v (context_switches p)
    (wake_time_ns p) (quantum_start_ns p) (cwd_inode p) (wait_mutex p) (pml4 p) (heap_break p)
    (uheap p) (kernel_stack p) (p_kernel_rsp p) (kernel_rsp_saved p) (p_user_rsp p)
    (context_frame p) (syscall_frame p) (fd_table p) (entry p) (fs_base p) (tidptr p).
Definition with_kernel_rsp_saved (v : Z) (p : Process) : Process :=
  mk_Process (pid p) (parent p) (state p) (wait_reason p) (wait_pid p) (exit_status p)
    (context_switches p) (wake_time_ns p) (quantum_start_ns p) (cwd_inode p) (wait_mutex p) (pml4 p)
    (heap_break p) (uheap p) (kernel_stack p) (p_kernel_rsp p) v (p_user_rsp p) (context_frame p)
    (syscall_frame p) (fd_table p) (entry p) (fs_base p) (tidptr p).

(** ** Construction

    [Process::Process()] assigns the members below; the others keep what the allocation [g] holds. *)
Definition new_Process (g : Process) (new_pid stack : Z) : Process :=
  mk_Process new_pid 0 NEW NONE (wait_pid g) 0 (context_switches g) 0 0 0 (wait_mutex g) 0 0
    (uheap g) stack (wrap64 (stack + KERNEL_STACK_SIZE)) (kernel_rsp_saved g) (p_user_rsp g)
    (context_frame g) (syscall_frame g) [] (entry g) 0 0.

(** [KThread::KThread(func)], with the register values of the synthetic frame left out: the frame is
    at the top of the stack and the first switch pops it. *)
Definition new_KThread (g : Process) (new_pid stack kernel_pml4 func : Z) : Process :=
  let p := new_Process g new_pid stack in
  let frame := wrap64 (p_kernel_rsp p - SIZEOF_CONTEXT_FRAME) in
  mk_Process (pid p) (parent p) (state p) (wait_reason p) (wait_pid p) (exit_status p)
    (context_switches p) (wake_time_ns p) (quantum_start_ns p) (cwd_inode p) (wait_mutex p)
    kernel_pml4 (heap_break p) (uheap p) (kernel_stack p) (p_kernel_rsp p) frame (p_user_rsp p)
    frame (syscall_frame p) (fd_table p) func (fs_base p) (tidptr p).

(** ** Predicates *)

Definition is_running (p : Process) : bool := bool_decide (state p = RUNNING).
Definition is_ready (p : Process) : bool :=
  bool_decide (state p = READY) || bool_decide (state p = NEW).
Definition is_zombie (p : Process) : bool := bool_decide (state p = ZOMBIE).
Definition is_dead (p : Process) : bool := bool_decide (state p = DEAD).
Definition is_blocked (p : Process) : bool := bool_decide (state p = BLOCKED).
Definition is_waiting_for (reason : WaitReason) (p : Process) : bool :=
  bool_decide (wait_reason p = reason).
Definition is_waiting_for_child (child : Z) (p : Process) : bool :=
  is_waiting_for CHILD_PROCESS p && ((wait_pid p =? child) || (wait_pid p =? -1)).
Definition is_waiting_for_mutex (mutex : Z) (p : Process) : bool :=
  is_waiting_for MUTEX p && negb (wait_mutex p =? 0) && (wait_mutex p =? mutex).

(** ** State changes; [now] is the value [clock::get_time_ns()] returns in the method *)

Definition wake (p : Process) : Process := with_wait READY NONE (-1) 0 0 p.
Definition pause (p : Process) : Process :=
  if decide (state p = RUNNING) then with_state READY p else p.
Definition resume (now : Z) (p : Process) : Process :=
  with_usage (context_switches p) now (with_wait RUNNING NONE (-1) 0 0 p).
Definition kill (p : Process) : Process := with_state DEAD p.
Definition zombify (p : Process) : Process := with_state ZOMBIE p.
Definition wait_for (reason : WaitReason) (p : Process) : Process :=
  with_wait (if decide (reason = SLEEP) then SLEEPING else BLOCKED) reason (wait_pid p)
    (wait_mutex p) (wake_time_ns p) p.
Definition wait_for_child (child : Z) (p : Process) : Process :=
  let p := wait_for CHILD_PROCESS p in
  with_wait (state p) (wait_reason p) child (wait_mutex p) (wake_time_ns p) p.
Definition wait_for_mutex (mutex : Z) (p : Process) : Process :=
  let p := wait_for MUTEX p in
  with_wait (state p) (wait_reason p) (wait_pid p) mutex (wake_time_ns p) p.
Definition sleep_for (now duration_ns : Z) (p : Process) : Process :=
  let p := wait_for SLEEP p in
  with_wait (state p) (wait_reason p) (wait_pid p) (wait_mutex p) (wrap64 (now + duration_ns)) p.
