(* ===== verification/SchedInv.v ===== *)
(** * Where the scheduler keeps each process

    The pure part of the scheduler's invariant: given the process objects, the ready queue, the
    sleepers and the list of all processes, every process that is not on the CPU is in the one place
    its state says.  The lemmas follow the moves that the operations of [Scheduler.v] make. *)

From S2P Require Import Prelude Cpu Spinlock Pmm Vmm KVector KHeap Process.

#[local] Set Warnings "-clear-no-such-hyp".

Section placed.
Implicit Types (m : gmap Z Process) (R L X : list Z) (B D : list (node Z)) (H : gset Z) (p q : Z)
  (d : Process).

Definition vals B : list Z := n_value <$> B.

Lemma vals_app B D : vals (B ++ D) = vals B ++ vals D.
Proof. apply fmap_app. Qed.
#[export] Instance vals_perm : Proper ((≡ₚ) ==> (≡ₚ)) vals.
Proof. apply fmap_Permutation. Qed.
Lemma elem_vals n B : n ∈ B → n_value n ∈ vals B.
Proof. apply list_elem_of_fmap_2. Qed.

(** The place of a process outside the set [H] of those the CPU is dealing with. *)
Definition at_place R B p d : Prop :=
  (p ∈ R ↔ is_ready d = true) ∧ (p ∈ vals B ↔ state d = SLEEPING) ∧ state d ≠ RUNNING.
Definition nowhere R B p : Prop := (p ∉ R) ∧ p ∉ vals B.

Record placed m R B L H : Prop := {
  pl_L : NoDup L;
  pl_R : NoDup R;
  pl_B : NoDup (vals B);
  pl_RL p : p ∈ R → p ∈ L;
  pl_BL p : p ∈ vals B → p ∈ L;
  pl_nz : 0 ∉ L;
  pl_dom p : p ∈ L → is_Some (m !! p);
  pl_out p d : p ∈ L → m !! p = Some d → p ∉ H → at_place R B p d;
  pl_in p : p ∈ L → p ∈ H → nowhere R B p;
  pl_key n d : n ∈ B → m !! n_value n = Some d → wake_time_ns d = n_key n;
}.

(** The objects after the processes of [X] were woken. *)
Definition woken X m : gmap Z Process :=
  map_imap (λ p d, Some (if decide (p ∈ X) then wake d else d)) m.

Lemma lookup_woken X m p :
  woken X m !! p = (λ d, if decide (p ∈ X) then wake d else d) <$> m !! p.
Proof. unfold woken. rewrite map_lookup_imap. by destruct (m !! p). Qed.

Lemma woken_nil m : woken [] m = m.
Proof.
  apply map_eq. intros p. rewrite lookup_woken. destruct (m !! p); [|done]. cbn.
  by rewrite decide_False by apply not_elem_of_nil.
Qed.

Lemma woken_snoc X p m d : m !! p = Some d → p ∉ X →
  <[p := wake d]> (woken X m) = woken (X ++ [p]) m.
Proof.
  intros Hp HX. apply map_eq. intros q. rewrite lookup_woken. destruct (decide (p = q)) as [<-|Hne].
  - rewrite lookup_insert_eq, Hp. cbn. rewrite decide_True; [done|]. apply elem_snoc.
  - rewrite lookup_insert_ne, lookup_woken by done. destruct (m !! q); [|done]. cbn. f_equal.
    apply decide_ext. rewrite elem_of_app, list_elem_of_singleton. naive_solver.
Qed.

Lemma woken_elsewhere X m p : p ∉ X → woken X m !! p = m !! p.
Proof. intros. rewrite lookup_woken. destruct (m !! p); [|done]. cbn. by rewrite decide_False. Qed.

Lemma wake_ready d : is_ready (wake d) = true.
Proof. done. Qed.

Lemma not_ready d : state d = BLOCKED ∨ state d = SLEEPING ∨ state d = DEAD ∨ state d = ZOMBIE →
  is_ready d = false.
Proof. unfold is_ready. by intros [->|[->|[->| ->]]]. Qed.

Lemma ready_not_sleeping d : is_ready d = true → state d ≠ SLEEPING ∧ state d ≠ RUNNING.
Proof. unfold is_ready. by destruct (state d). Qed.

Lemma placed_perm m R R' B B' L H : R ≡ₚ R' → B ≡ₚ B' → placed m R B L H → placed m R' B' L H.
Proof.
  intros HR HB [H1 H2 H3 H4 H5 H6 H7 H8 H9 H10].
  assert (∀ p, p ∈ R' ↔ p ∈ R) as HR' by (intros; by rewrite HR).
  assert (∀ p, p ∈ vals B' ↔ p ∈ vals B) as HB' by (intros; by rewrite HB).
  split; [done|by rewrite <- HR|by rewrite <- HB|..|].
  - intros p. rewrite HR'. apply H4.
  - intros p. rewrite HB'. apply H5.
  - done.
  - done.
  - intros p d. unfold at_place. rewrite HR', HB'. apply H8.
  - intros p. unfold nowhere. rewrite HR', HB'. apply H9.
  - intros n d. rewrite <- HB. apply H10.
Qed.

(** Processes that were nowhere become ready. *)
Lemma placed_wake X m R B L H : placed m R B L H → NoDup X →
  (∀ p, p ∈ X → p ∈ L ∧ (p ∉ H) ∧ nowhere R B p) → placed (woken X m) (X ++ R) B L H.
Proof.
  intros [H1 H2 H3 H4 H5 H6 H7 H8 H9 H10] HX HXs.
  split; [done| |done|..].
  - apply NoDup_app. split; [done|]. split; [|done]. intros p Hp. by apply HXs.
  - intros p [Hp|Hp]%elem_of_app; [by apply HXs|by apply H4].
  - done.
  - done.
  - intros p Hp. rewrite lookup_woken. destruct (H7 p Hp) as [d ->]. by eexists.
  - intros p d Hp. rewrite lookup_woken. destruct (m !! p) as [d0|] eqn:Hd0; [|done]. intros [= <-] HpH.
    specialize (H8 p d0 Hp Hd0 HpH). unfold at_place in *. rewrite elem_of_app. case_decide as Hin.
    + destruct (HXs p Hin) as (_ & _ & [_ HB]). cbn. naive_solver.
    + tauto.
  - intros p Hp HpH. destruct (H9 p Hp HpH) as [HR HB]. split; [|done].
    rewrite elem_of_app. intros [Hin|]; [|done]. by destruct (HXs p Hin) as (_ & ? & _).
  - intros n d Hn. rewrite woken_elsewhere; [by apply H10|].
    intros (_ & _ & [_ HB])%HXs. by apply HB, elem_vals.
Qed.

(** Sleepers leave the heap for the ready queue. *)
Lemma placed_due D B' m R B L H : B ≡ₚ D ++ B' → placed m R B L H →
  placed (woken (vals D) m) (vals D ++ R) B' L H.
Proof.
  intros HB Hpl. apply (placed_perm m R R B (D ++ B') L H ltac:(done) HB) in Hpl.
  destruct Hpl as [H1 H2 H3 H4 H5 H6 H7 H8 H9 H10]. rewrite vals_app in *.
  apply NoDup_app in H3 as (HD & HDB & HB').
  assert (∀ p, p ∈ vals D → p ∈ L ∧ (p ∉ H) ∧ p ∉ R) as HDs.
  { intros p Hp. assert (p ∈ L) as HpL by (apply H5, elem_of_app; by left).
    assert (p ∉ H) as HpH.
    { intros HpH. apply (H9 p HpL HpH). rewrite vals_app. apply elem_of_app. by left. }
    split; [done|]. split; [done|]. intros HpR. destruct (H7 p HpL) as [d Hd].
    destruct (H8 p d HpL Hd HpH) as (HR & HS & _). rewrite vals_app in HS.
    destruct (ready_not_sleeping d) as [Hns _]; [by apply HR|]. apply Hns, HS, elem_of_app. by left. }
  split; [done| |done|..].
  - apply NoDup_app. split; [done|]. split; [|done]. intros p Hp. by apply HDs.
  - intros p [Hp|Hp]%elem_of_app; [by apply HDs|by apply H4].
  - intros p Hp. apply H5, elem_of_app. by right.
  - done.
  - intros p Hp. rewrite lookup_woken. destruct (H7 p Hp) as [d ->]. by eexists.
  - intros p d Hp. rewrite lookup_woken. destruct (m !! p) as [d0|] eqn:Hd0; [|done]. intros [= <-] HpH.
    specialize (H8 p d0 Hp Hd0 HpH). unfold at_place in *. rewrite vals_app, elem_of_app in *.
    case_decide as Hin; [|naive_solver].
    cbn. specialize (HDB p Hin). naive_solver.
  - intros p Hp HpH. destruct (H9 p Hp HpH) as [HR HBp]. rewrite vals_app, elem_of_app in HBp.
    split; [|naive_solver]. rewrite elem_of_app. intros [Hin|]; [|done]. by destruct (HDs p Hin) as (_ & ? & _).
  - intros n d Hn. assert (n_value n ∈ vals B') as Hn' by by apply elem_vals.
    rewrite woken_elsewhere by (intros Hin; by apply (HDB _ Hin)). apply H10, elem_of_app. by right.
Qed.

(** The policy hands out a process. *)
Lemma placed_pick q R' m R B L H : R ≡ₚ q :: R' → placed m R B L H →
  placed m R' B L ({[q]} ∪ H) ∧ q ∈ L ∧ q ∉ H.
Proof.
  intros HR Hpl. apply (placed_perm m R (q :: R') B B L H HR ltac:(done)) in Hpl.
  destruct Hpl as [H1 H2 H3 H4 H5 H6 H7 H8 H9 H10]. apply NoDup_cons in H2 as [HqR H2].
  assert (q ∈ L) as HqL by (apply H4; left).
  assert (q ∉ H) as HqH by (intros HqH; destruct (H9 q HqL HqH) as [HR' _]; by apply HR'; left).
  split; [|done]. split; [done|done|done|..|done].
  - intros p Hp. apply H4. by right.
  - done.
  - done.
  - done.
  - intros p d Hp Hd. rewrite elem_of_union, elem_of_singleton. intros HpH.
    specialize (H8 p d Hp Hd ltac:(tauto)). unfold at_place in *. rewrite elem_of_cons in H8. naive_solver.
  - intros p Hp. rewrite elem_of_union, elem_of_singleton. intros [->|HpH].
    + split; [done|]. destruct (H7 q HqL) as [d Hd]. destruct (H8 q d HqL Hd HqH) as (HRq & HS & _).
      rewrite HS. destruct (ready_not_sleeping d); [|done]. apply HRq. left.
    + destruct (H9 p Hp HpH) as [HRp HBp]. split; [|done]. intros ?. by apply HRp; right.
Qed.

(** A process the CPU is dealing with may change in any way. *)
Lemma placed_hole p d m R B L H : placed m R B L H → p ∈ H ∨ p ∉ L → placed (<[p := d]> m) R B L H.
Proof.
  intros [H1 H2 H3 H4 H5 H6 H7 H8 H9 H10] Hp. split; try done.
  - intros q Hq. apply lookup_insert_is_Some. destruct (decide (p = q)); [by left|right]. auto.
  - intros q e Hq. rewrite lookup_insert. case_decide as Hpq; [subst|by apply H8].
    by destruct Hp.
  - intros n e Hn. rewrite lookup_insert. case_decide as Hpq; [|by apply H10].
    exfalso. assert (p ∈ vals B) as HpB by (subst; by apply elem_vals).
    destruct Hp as [Hp|Hp]; [|by apply Hp, H5]. by apply (H9 p); [by apply H5|done|].
Qed.

(** The CPU lets go of [p], which is ready, asleep or neither. *)
Lemma placed_close m R R' B B' L H p d : placed m R B L H → p ∈ H → m !! p = Some d →
  (∀ q, q ∈ R' ↔ q ∈ R ∨ p ∈ L ∧ is_ready d = true ∧ q = p) →
  (∀ n, n ∈ B' ↔ n ∈ B ∨ p ∈ L ∧ state d = SLEEPING ∧ n = mk_node (wake_time_ns d) p) →
  NoDup R' → NoDup (vals B') → state d ≠ RUNNING → placed m R' B' L (H ∖ {[p]}).
Proof.
  intros [H1 H2 H3 H4 H5 H6 H7 H8 H9 H10] HpH Hd HR HB HR' HB' Hrun.
  assert (∀ q, q ∈ vals B' ↔ q ∈ vals B ∨ p ∈ L ∧ state d = SLEEPING ∧ q = p) as HBv.
  { intros q. unfold vals. rewrite !list_elem_of_fmap. split.
    - intros (n & -> & Hn). apply HB in Hn as [Hn|(? & ? & ->)]; [left; by exists n|by right].
    - intros [(n & -> & Hn)|(? & ? & ->)].
      + exists n. split; [done|]. apply HB. by left.
      + eexists (mk_node _ _). split; [|apply HB; right; eauto]. done. }
  split; [done..| | | |done| | |].
  - intros q. rewrite HR. intros [?|(? & _ & ->)]; [by apply H4|done].
  - intros q. rewrite HBv. intros [?|(? & _ & ->)]; [by apply H5|done].
  - done.
  - intros q e Hq He Hout. unfold at_place. rewrite HR, HBv. destruct (decide (q = p)) as [->|Hne].
    + destruct (H9 p Hq HpH) as [??]. rewrite Hd in He. injection He as <-. naive_solver.
    + specialize (H8 q e Hq He ltac:(set_solver)). unfold at_place in H8. naive_solver.
  - intros q Hq Hin. assert (q ∈ H ∧ q ≠ p) as [HqH Hne] by set_solver.
    destruct (H9 q Hq HqH). unfold nowhere. rewrite HR, HBv. naive_solver.
  - intros n e Hn He. apply HB in Hn as [Hn|(_ & _ & ->)]; [by apply (H10 n e)|]. change (m !! p = Some e) in He. by simplify_eq.
Qed.

Lemma placed_close_ready m R B L H p d : placed m R B L H → p ∈ H → p ∈ L → m !! p = Some d →
  is_ready d = true → placed m (p :: R) B L (H ∖ {[p]}).
Proof.
  intros Hpl HpH HpL Hd Hr. destruct (ready_not_sleeping d Hr). destruct (pl_in _ _ _ _ _ Hpl p HpL HpH).
  eapply (placed_close m R _ B); [done..| | | |apply (pl_B _ _ _ _ _ Hpl)|done].
  - intros q. rewrite elem_of_cons. naive_solver.
  - naive_solver.
  - apply NoDup_cons. split; [done|apply (pl_R _ _ _ _ _ Hpl)].
Qed.

Lemma placed_close_sleep m R B L H p d : placed m R B L H → p ∈ H → p ∈ L → m !! p = Some d →
  state d = SLEEPING → placed m R (mk_node (wake_time_ns d) p :: B) L (H ∖ {[p]}).
Proof.
  intros Hpl HpH HpL Hd Hs. destruct (pl_in _ _ _ _ _ Hpl p HpL HpH).
  assert (is_ready d = false) as Hr by (apply not_ready; tauto).
  eapply (placed_close m R _ B); [done..| | |apply (pl_R _ _ _ _ _ Hpl)| |congruence].
  - intros q. rewrite Hr. naive_solver.
  - intros n. rewrite elem_of_cons. naive_solver.
  - cbn. apply NoDup_cons. split; [done|apply (pl_B _ _ _ _ _ Hpl)].
Qed.

Lemma placed_close_other m R B L H p d : placed m R B L H → p ∈ H → m !! p = Some d →
  p ∉ L ∨ state d = BLOCKED ∨ state d = DEAD ∨ state d = ZOMBIE → placed m R B L (H ∖ {[p]}).
Proof.
  intros Hpl HpH Hd Hs. destruct (decide (p ∈ L)) as [HpL|HpL].
  - destruct Hs as [|Hs]; [done|]. assert (is_ready d = false) as Hr by (apply not_ready; tauto).
    eapply (placed_close m R _ B); [done..| | |apply (pl_R _ _ _ _ _ Hpl)|apply (pl_B _ _ _ _ _ Hpl)|].
    + intros q. rewrite Hr. naive_solver.
    + intros n. split; [by left|]. intros [?|(_ & Hx & _)]; [done|]. destruct_or! Hs; congruence.
    + destruct_or! Hs; congruence.
  - destruct Hpl as [H1 H2 H3 H4 H5 H6 H7 H8 H9 H10]. split; try done.
    + intros q e Hq He Hout. apply H8; [done..|]. intros HqH. apply Hout, elem_of_difference.
      split; [done|]. rewrite elem_of_singleton. by intros ->.
    + intros q Hq [HqH _]%elem_of_difference. by apply H9.
Qed.

(** A new process. *)
Lemma placed_add m R B L H p d : placed m R B L H → p ∉ L → p ≠ 0 → p ∉ H → m !! p = Some d →
  is_ready d = true → placed m (p :: R) B (L ++ [p]) H.
Proof.
  intros [H1 H2 H3 H4 H5 H6 H7 H8 H9 H10] HpL Hp0 HpH Hd Hr. destruct (ready_not_sleeping d Hr).
  assert (p ∉ R) by (intros ?; by apply HpL, H4). assert (p ∉ vals B) by (intros ?; by apply HpL, H5).
  assert (∀ q, q ∈ L ++ [p] ↔ q ∈ L ∨ q = p) as HL.
  { intros q. by rewrite elem_of_app, list_elem_of_singleton. }
  split; try done; try setoid_rewrite HL.
  - apply NoDup_app. split; [done|]. split; [|apply NoDup_singleton].
    intros q Hq ->%list_elem_of_singleton. done.
  - by apply NoDup_cons.
  - intros q [->|Hq]%elem_of_cons; [by right|left; auto].
  - intros q Hq. left. auto.
  - intros [?|?]; congruence.
  - intros q [Hq| ->]; [auto|]. by eexists.
  - intros q e Hq He HqH. unfold at_place. rewrite elem_of_cons. destruct Hq as [Hq| ->].
    + specialize (H8 q e Hq He HqH). unfold at_place in H8. assert (q ≠ p) by congruence. naive_solver.
    + rewrite Hd in He. injection He as <-. naive_solver.
  - intros q [Hq| ->] HqH; [|done]. destruct (H9 q Hq HqH). unfold nowhere. rewrite elem_of_cons.
    split; [|done]. intros [->|?]; done.
Qed.

(** A process that is nowhere changes to another state with no place. *)
Lemma placed_kill m R B L H p d d' : placed m R B L H → p ∈ L → p ∉ H → m !! p = Some d →
  is_ready d = false → state d ≠ SLEEPING → is_ready d' = false → state d' ≠ SLEEPING →
  state d' ≠ RUNNING → placed (<[p := d']> m) R B L H.
Proof.
  intros [H1 H2 H3 H4 H5 H6 H7 H8 H9 H10] HpL HpH Hd Hr Hs Hr' Hs' Hrun'.
  destruct (H8 p d HpL Hd HpH) as (HR & HS & _). split; try done.
  - intros q Hq. apply lookup_insert_is_Some. destruct (decide (p = q)); [by left|right]. auto.
  - intros q e Hq. rewrite lookup_insert. case_decide as Hpq; [subst|by apply H8].
    intros [= <-] _. unfold at_place. rewrite HR, HS. naive_solver congruence.
  - intros n e Hn. rewrite lookup_insert. case_decide as Hpq; [|by apply H10].
    exfalso. apply Hs, HS. subst. by apply elem_vals.
Qed.

(** A dead process leaves. *)
Lemma placed_erase m R B L1 L2 H p d : placed m R B (L1 ++ p :: L2) H → p ∉ H → m !! p = Some d →
  is_ready d = false → state d ≠ SLEEPING → placed (delete p m) R B (L1 ++ L2) H.
Proof.
  intros [H1 H2 H3 H4 H5 H6 H7 H8 H9 H10] HpH Hd Hr Hs.
  assert (p ∈ L1 ++ p :: L2) as HpL by (apply elem_of_app; right; left).
  destruct (H8 p d HpL Hd HpH) as (HR & HS & _).
  assert (L1 ++ p :: L2 ≡ₚ p :: L1 ++ L2) as Hperm by by rewrite Permutation_middle.
  rewrite Hperm in H1. apply NoDup_cons in H1 as [HpL' H1].
  assert (∀ q, q ∈ L1 ++ p :: L2 ↔ q = p ∨ q ∈ L1 ++ L2) as HL.
  { intros q. by rewrite Hperm, elem_of_cons. }
  setoid_rewrite HL in H4. setoid_rewrite HL in H5. rewrite HL in H6.
  setoid_rewrite HL in H7. setoid_rewrite HL in H8. setoid_rewrite HL in H9.
  split; try done.
  - intros q Hq. destruct (H4 q Hq) as [->|]; [|done]. apply HR in Hq. congruence.
  - intros q Hq. destruct (H5 q Hq) as [->|]; [|done]. by apply HS in Hq.
  - tauto.
  - intros q Hq. rewrite lookup_delete_ne by congruence. auto.
  - intros q e Hq. rewrite lookup_delete_ne by congruence. auto.
  - intros q Hq. auto.
  - intros n e Hn. rewrite lookup_delete_Some. intros [_ He]. by apply (H10 n).
Qed.

Lemma placed_more m R B L H q : placed m R B L H → q ∉ L → placed m R B L ({[q]} ∪ H).
Proof.
  intros [H1 H2 H3 H4 H5 H6 H7 H8 H9 H10] Hq. split; try done.
  - intros p d Hp Hd HpH. apply H8; [done..|]. set_solver.
  - intros p Hp HpH. apply H9; [done|]. set_solver.
Qed.

Lemma placed_ext m m' R B L H : placed m R B L H →
  (∀ p, (λ d, (state d, wake_time_ns d)) <$> m' !! p = (λ d, (state d, wake_time_ns d)) <$> m !! p) →
  placed m' R B L H.
Proof.
  intros [H1 H2 H3 H4 H5 H6 H7 H8 H9 H10] Hext.
  assert (∀ p d', m' !! p = Some d' → ∃ d, m !! p = Some d ∧ state d' = state d ∧
    wake_time_ns d' = wake_time_ns d) as Hback.
  { intros p d' Hd'. specialize (Hext p). rewrite Hd' in Hext. destruct (m !! p) as [d|]; [|done].
    exists d. split; [done|]. cbn in Hext. by simplify_eq. }
  split; try done.
  - intros p Hp. destruct (H7 p Hp) as [d Hd]. specialize (Hext p). rewrite Hd in Hext.
    destruct (m' !! p); [by eexists|done].
  - intros p d' Hp (d & Hd & Hs & _)%Hback HpH. destruct (H8 p d Hp Hd HpH) as (HR & HS & Hr).
    unfold at_place, is_ready in *. by rewrite Hs.
  - intros n d' Hn (d & Hd & _ & ->)%Hback. by apply H10.
Qed.
End placed.
