(* ===== verification/Scheduler.v ===== *)
(** * Scheduler

    [src/kernel/lib/scheduler]: the policy interface and the round-robin policy, and the mechanism
    [scheduler_mechanism.cpp] that moves processes between the CPU, the policy's ready queue, the
    heap of sleepers and the blocked states, under [g_processes_lock].

    An operation of the mechanism that ends in [context_switch] returns [Switch q]: the caller stops
    there and the CPU goes on in process [q], wherever [q] itself called [context_switch].  The code
    after the call runs when the caller is switched to again.

    [time n] is the value of the [n]-th call of [clock::get_time_ns()], any function at all. *)

From S2P Require Import Prelude Cpu Spinlock Pmm Vmm KVector KHeap KList Process.

(** ** Policies *)

Class SchedulerPolicy (P : Type) := {
  policy_init : M P unit;
  policy_enqueue : Z → M P unit;
  policy_should_preempt : Z → Z → M P bool;
  policy_pick_next : M P Z;
}.

(** Where the CPU goes on when an operation ends. *)
Inductive control := Return | Switch (q : Z).

Section mechanism.
Context {P : Type} `{!SchedulerPolicy P}.
Context (new_addr : gmap Z (lnode Z) → Z) (time : nat → Z).

(** The statics of the file, the process objects, TSS.RSP0, how often the clock has been read, and
    below them the VMM with the CPU. *)
Record sched := mk_sched {
  sc_vm : vmm;
  g_scheduler_policy : option P;
  g_processes_lock : kspinlock_irqsave;
  g_processes : klist Z;
  g_sleepers : kvector (node Z);
  procs : gmap Z Process;
  tss_rsp0 : Z;
  clock_reads : nat;
}.

Definition sc_cpu (s : sched) : cpu := vm_cpu (sc_vm s).
Definition with_vm (v : vmm) (s : sched) : sched :=
  mk_sched v (g_scheduler_policy s) (g_processes_lock s) (g_processes s) (g_sleepers s) (procs s)
    (tss_rsp0 s) (clock_reads s).
Definition with_policy (v : option P) (s : sched) : sched :=
  mk_sched (sc_vm s) v (g_processes_lock s) (g_processes s) (g_sleepers s) (procs s) (tss_rsp0 s)
    (clock_reads s).
Definition with_plist (v : klist Z) (s : sched) : sched :=
  mk_sched (sc_vm s) (g_scheduler_policy s) (g_processes_lock s) v (g_sleepers s) (procs s)
    (tss_rsp0 s) (clock_reads s).
Definition with_sleepers (v : kvector (node Z)) (s : sched) : sched :=
  mk_sched (sc_vm s) (g_scheduler_policy s) (g_processes_lock s) (g_processes s) v (procs s)
    (tss_rsp0 s) (clock_reads s).
Definition with_procs (f : gmap Z Process → gmap Z Process) (s : sched) : sched :=
  mk_sched (sc_vm s) (g_scheduler_policy s) (g_processes_lock s) (g_processes s) (g_sleepers s)
    (f (procs s)) (tss_rsp0 s) (clock_reads s).
Definition with_rsp0 (v : Z) (s : sched) : sched :=
  mk_sched (sc_vm s) (g_scheduler_policy s) (g_processes_lock s) (g_processes s) (g_sleepers s)
    (procs s) v (clock_reads s).
Definition with_reads (n : nat) (s : sched) : sched :=
  mk_sched (sc_vm s) (g_scheduler_policy s) (g_processes_lock s) (g_processes s) (g_sleepers s)
    (procs s) (tss_rsp0 s) n.
Definition with_sc_cpu (c : cpu) (s : sched) : sched := with_vm (with_vm_cpu c (sc_vm s)) s.
Definition with_sc_lock (x : cpu * kspinlock_irqsave) (s : sched) : sched :=
  mk_sched (with_vm_cpu x.1 (sc_vm s)) (g_scheduler_policy s) x.2 (g_processes s) (g_sleepers s)
    (procs s) (tss_rsp0 s) (clock_reads s).

(** ** Access to the parts *)

Definition p_lock : M sched unit := zoom (λ s, (sc_cpu s, g_processes_lock s)) with_sc_lock lock.
Definition p_unlock : M sched unit := zoom (λ s, (sc_cpu s, g_processes_lock s)) with_sc_lock unlock.
Definition in_vm {A} (m : M vmm A) : M sched A := zoom sc_vm with_vm m.
Definition in_cpu {A} (m : M cpu A) : M sched A := zoom sc_cpu with_sc_cpu m.
Definition in_plist {A} (m : M (klist Z) A) : M sched A := zoom g_processes with_plist m.
Definition in_sleepers {A} (m : M (kvector (node Z)) A) : M sched A :=
  zoom g_sleepers with_sleepers m.
(** A call through [g_scheduler_policy], a null pointer before [init]. *)
Definition in_policy {A} (m : M P A) : M sched A := λ s,
  match g_scheduler_policy s with
  | Some p => match m p with
              | Ok (p', a) => Ok (with_policy (Some p') s, a)
              | Panic => Panic | Fault => Fault | Hang => Hang
              end
  | None => Fault
  end.

Definition get_time_ns : M sched Z :=
  n ← gets clock_reads;
  _ ← modify (with_reads (S n));
  mret (time n).

(** Members of the object at address [p]; a stale or null pointer faults. *)
Definition proc (p : Z) : M sched Process := o ← gets (λ s, procs s !! p); of_option o.
Definition update (p : Z) (f : Process → Process) : M sched unit :=
  d ← proc p; modify (with_procs (insert p (f d))).

Definition do_wake (p : Z) : M sched unit := update p wake.
Definition do_resume (p : Z) : M sched unit := now ← get_time_ns; update p (resume now).

(** [for (i = 0; i < g_processes.size(); i++) body(g_processes[i])]; the body says whether to leave
    the loop. *)
Fixpoint scan {B} (fuel i : nat) (body : Z → B → M sched (bool * B)) (acc : B) : M sched B :=
  n ← gets (λ s, kl_size (g_processes s));
  if Z.of_nat i <? n then
    match fuel with
    | O => hang
    | S fuel' =>
        p ← in_plist (kl_at i);
        '(stop, acc) ← body p acc;
        if (stop : bool) then mret acc else scan fuel' (S i) body acc
    end
  else mret acc.
Definition for_processes {B} (body : Z → B → M sched (bool * B)) (acc : B) : M sched B :=
  n ← gets (λ s, Z.to_nat (kl_size (g_processes s)));
  scan n 0 body acc.

(** ** Waking *)

(** The loop body shared by the four functions that wake blocked processes. *)
Definition wake_if (matches : Process → bool) (once : bool) (p : Z) (_ : unit)
  : M sched (bool * unit) :=
  _ ← kassert_not_null p;
  d ← proc p;
  if negb (is_blocked d) then mret (false, ()) else
  if negb (matches d) then mret (false, ()) else
  _ ← do_wake p;
  _ ← in_policy (policy_enqueue p);
  mret (once, ()).

Definition wake_single (reason : WaitReason) : M sched unit :=
  _ ← p_lock;
  _ ← (if decide (reason = SLEEP) then mret () else
       for_processes (wake_if (is_waiting_for reason) true) ());
  p_unlock.

Definition wake_all (reason : WaitReason) : M sched unit :=
  _ ← p_lock;
  _ ← (if decide (reason = SLEEP) then mret () else
       for_processes (wake_if (is_waiting_for reason) false) ());
  p_unlock.

Definition wake_parents (child : Z) : M sched unit :=
  for_processes (wake_if (is_waiting_for_child child) false) ().

Definition wake_mutex (mutex : Z) : M sched unit :=
  _ ← kassert_not_null mutex;
  _ ← p_lock;
  _ ← for_processes (wake_if (is_waiting_for_mutex mutex) false) ();
  p_unlock.

(** One round of the loop of [wake_sleepers]; [true] leaves it. *)
Definition wake_sleeper (now_ns : Z) : M sched bool :=
  p ← in_sleepers kmin_peak;
  _ ← kassert_not_null p;
  d ← proc p;
  if now_ns <? wake_time_ns d then mret true else
  _ ← do_wake p;
  _ ← in_policy (policy_enqueue p);
  _ ← in_sleepers kmin_pop;
  mret false.

Fixpoint wake_sleepers_loop (fuel : nat) (now_ns : Z) : M sched unit :=
  e ← gets (λ s, kv_empty (g_sleepers s));
  if (e : bool) then mret () else
  match fuel with
  | O => hang
  | S fuel' =>
      stop ← wake_sleeper now_ns;
      if (stop : bool) then mret () else wake_sleepers_loop fuel' now_ns
  end.
(** Every round removes a sleeper, so the number of sleepers bounds the rounds. *)
Definition wake_sleepers : M sched unit :=
  now_ns ← get_time_ns;
  n ← gets (λ s, Z.to_nat (kv_size (g_sleepers s)));
  wake_sleepers_loop n now_ns.

Definition get_next_sleeper : M sched Z :=
  pol ← gets g_scheduler_policy;
  match pol with
  | None => mret 0
  | Some _ =>
      e ← gets (λ s, kv_empty (g_sleepers s));
      if (e : bool) then mret 0 else in_sleepers kmin_peak
  end.

(** ** Choosing and activating a process *)

Definition find_child_body (parent_ : Z) (child : Z) (p first_match : Z) : M sched (bool * Z) :=
  d ← proc p;
  if negb (child =? -1) && negb (pid d =? child) then mret (false, first_match) else
  if parent d =? 0 then mret (false, first_match) else
  pp ← proc (parent d);
  me ← proc parent_;
  if negb (pid pp =? pid me) then mret (false, first_match) else
  if is_zombie d then mret (true, p) else
  mret (false, if first_match =? 0 then p else first_match).
Definition find_child (parent_ child : Z) : M sched Z :=
  for_processes (find_child_body parent_ child) 0.

Definition MSR_FS_BASE : Z := 0xC0000100.
Definition set_fs_base (addr : Z) : M sched unit :=
  modify (λ s, with_sc_cpu (wrmsr MSR_FS_BASE addr (sc_cpu s)) s).
Definition set_kernel_stack (rsp0 : Z) : M sched unit := modify (with_rsp0 rsp0).

(** [cpu->process = p; cpu->kernel_rsp = rsp;] *)
Definition set_current (p rsp : Z) (c : cpu) : cpu :=
  with_percpu (λ q, mk_PerCPU rsp (user_rsp q) p (idle_process_ptr q) (preemption_flag q)) c.

Definition activate_process (p : Z) : M sched unit :=
  _ ← kassert_not_null p;
  _ ← do_resume p;
  _ ← update p (λ d, with_usage (wrap64 (context_switches d + 1)) (quantum_start_ns d) d);
  d ← proc p;
  _ ← modify (λ s, with_sc_cpu (set_current p (p_kernel_rsp d) (sc_cpu s)) s);
  _ ← in_vm (switch_pml4 (pml4 d));
  _ ← set_fs_base (fs_base d);
  set_kernel_stack (p_kernel_rsp d).

Definition enqueue_if_runnable (p : Z) : M sched unit :=
  idle ← in_cpu idle_process;
  if p =? idle then mret () else
  d ← proc p;
  if negb (is_ready d) then mret () else in_policy (policy_enqueue p).

Definition pick_next_process : M sched Z :=
  _ ← wake_sleepers;
  next ← in_policy policy_pick_next;
  if next =? 0 then in_cpu idle_process else mret next.

(** [context_switch(&old->kernel_rsp_saved, new->kernel_rsp_saved)] stores the stack pointer of the
    caller, an arbitrary address [rsp], loads the other one and enables interrupts. *)
Definition context_switch (rsp old new : Z) : M sched control :=
  _ ← proc new;
  _ ← update old (with_kernel_rsp_saved rsp);
  _ ← modify (λ s, with_sc_cpu (sti (sc_cpu s)) s);
  mret (Switch new).
Definition permanent_context_switch (new : Z) : M sched control :=
  _ ← proc new;
  _ ← modify (λ s, with_sc_cpu (sti (sc_cpu s)) s);
  mret (Switch new).

(** ** Destroying a process

    [fd->inode->close(fd)] is a null-pointer access for a null entry of the table; every [close] of
    the file systems is an empty function that returns 0.  The kernel stack goes back to the kernel
    heap, which is not part of this state. *)
Definition close_fd (fd : Z) : M sched unit := if fd =? 0 then fault else mret ().

Definition terminate (p : Z) : M sched unit :=
  d ← proc p;
  _ ← for_each (fd_table d) close_fd;
  in_vm (free_user_pml4 (pml4 d)).

Definition delete_process (p : Z) : M sched unit :=
  _ ← terminate p;
  modify (with_procs (delete p)).

(** The loop of [reap]; [erase(i--)] and the [i++] that follows leave [i] where it was. *)
Fixpoint reap_loop (fuel i : nat) (self : Z) : M sched unit :=
  n ← gets (λ s, kl_size (g_processes s));
  if Z.of_nat i <? n then
    match fuel with
    | O => hang
    | S fuel' =>
        p ← in_plist (kl_at i);
        _ ← kassert_not_null p;
        d ← proc p;
        if negb (is_dead d) then reap_loop fuel' (S i) self else
        _ ← kassert (negb (p =? self));
        _ ← delete_process p;
        _ ← in_plist (kl_erase i);
        reap_loop fuel' i self
    end
  else mret ().

Definition reap : M sched unit :=
  _ ← p_lock;
  self ← in_cpu current_process;
  n ← gets (λ s, Z.to_nat (kl_size (g_processes s)));
  _ ← reap_loop n 0 self;
  p_unlock.

(** ** Giving up the CPU; [rsp] is the stack pointer at the switch *)

Definition preempt (rsp : Z) : M sched control :=
  en ← gets (λ s, preemption_enabled (sc_cpu s));
  if negb en then mret Return else
  current ← in_cpu current_process;
  idle ← in_cpu idle_process;
  go ← (if current =? idle then mret true else
        now ← get_time_ns;
        d ← proc current;
        in_policy (policy_should_preempt current (wrap64 (now - quantum_start_ns d))));
  if negb go then mret Return else
  _ ← p_lock;
  next ← pick_next_process;
  if current =? next then (_ ← p_unlock; mret Return) else
  _ ← update current pause;
  _ ← enqueue_if_runnable current;
  _ ← activate_process next;
  _ ← p_unlock;
  context_switch rsp current next.

Definition yield_dead : M sched control :=
  _ ← modify (λ s, with_sc_cpu (cli (sc_cpu s)) s);
  _ ← p_lock;
  current ← in_cpu current_process;
  _ ← update current kill;
  p ← pick_next_process;
  _ ← kassert (negb (current =? p));
  _ ← activate_process p;
  _ ← p_unlock;
  permanent_context_switch p.

Definition yield_zombie : M sched control :=
  _ ← modify (λ s, with_sc_cpu (cli (sc_cpu s)) s);
  _ ← p_lock;
  current ← in_cpu current_process;
  _ ← update current zombify;
  d ← proc current;
  _ ← wake_parents (pid d);
  p ← pick_next_process;
  _ ← kassert (negb (current =? p));
  _ ← activate_process p;
  _ ← p_unlock;
  permanent_context_switch p.

Definition ECHILD : Z := 10.

(** One round of the loop of [yield_to_child]: the status returned, or [None] after a switch, when
    the loop goes round again once the parent runs. *)
Definition yield_to_child (rsp child_pid : Z) : M sched (control * option Z) :=
  _ ← p_lock;
  parent_ ← in_cpu current_process;
  child ← find_child parent_ child_pid;
  if child =? 0 then (_ ← p_unlock; mret (Return, Some (- ECHILD))) else
  d ← proc child;
  if is_zombie d then
    _ ← update child kill;
    _ ← do_resume parent_;
    _ ← p_unlock;
    mret (Return, Some (exit_status d))
  else
  _ ← update parent_ (wait_for_child child_pid);
  p ← pick_next_process;
  _ ← activate_process p;
  _ ← p_unlock;
  c ← context_switch rsp parent_ p;
  mret (c, None).

Definition yield_blocked (rsp : Z) (reason : WaitReason) : M sched control :=
  _ ← p_lock;
  current ← in_cpu current_process;
  _ ← update current (wait_for reason);
  _ ← (if decide (reason = SLEEP) then
         d ← proc current; in_sleepers (kmin_insert (wake_time_ns d) current)
       else mret ());
  next ← pick_next_process;
  if current =? next then
    _ ← do_resume current; _ ← p_unlock; mret Return
  else
  _ ← activate_process next;
  _ ← p_unlock;
  context_switch rsp current next.

(** The part of [yield_sleep_ns] before the call of [yield_blocked], outside the lock. *)
Definition sleep_mark (duration_ns : Z) : M sched unit :=
  current ← in_cpu current_process;
  now ← get_time_ns;
  update current (sleep_for now duration_ns).
Definition yield_sleep_ns (rsp duration_ns : Z) : M sched control :=
  _ ← sleep_mark duration_ns;
  yield_blocked rsp SLEEP.
Definition yield_sleep_us (rsp duration_us : Z) : M sched control :=
  yield_sleep_ns rsp (wrap64 (duration_us * 1000)).
Definition yield_sleep_ms (rsp duration_ms : Z) : M sched control :=
  yield_sleep_us rsp (wrap64 (duration_ms * 1000)).
Definition yield_sleep_hz (rsp hz : Z) : M sched control :=
  _ ← kassert (0 <? hz);
  yield_sleep_ns rsp (1000000000 / hz).

Definition mutex_mark (mutex : Z) : M sched unit :=
  _ ← kassert_not_null mutex;
  current ← in_cpu current_process;
  update current (wait_for_mutex mutex).
Definition yield_mutex (rsp mutex : Z) : M sched control :=
  _ ← mutex_mark mutex;
  yield_blocked rsp MUTEX.

Definition yield_new_process : M sched control :=
  _ ← p_lock;
  current ← in_cpu current_process;
  next ← pick_next_process;
  _ ← kassert (negb (current =? next));
  _ ← update current wake;
  _ ← enqueue_if_runnable current;
  _ ← activate_process next;
  _ ← p_unlock;
  permanent_context_switch next.

Definition add_process (p : Z) : M sched unit :=
  _ ← kassert_not_null p;
  _ ← p_lock;
  _ ← in_plist (kl_push_back new_addr p);
  _ ← in_policy (policy_enqueue p);
  p_unlock.

Definition tick (rsp : Z) : M sched control :=
  pol ← gets g_scheduler_policy;
  match pol with
  | None => mret Return
  | Some _ => _ ← wake_sleepers; preempt rsp
  end.

(** [init(scheduler_policy)]; [reaper] is the address of the new [KThread]. *)
Definition sched_init (pol : P) (reaper : Z) : M sched unit :=
  _ ← modify (with_policy (Some pol));
  _ ← in_policy policy_init;
  add_process reaper.
End mechanism.

(** ** Round robin *)

Definition TIME_SLICE_NS : Z := 10 * 1000 * 1000.

Section round_robin.
Context (new_addr : gmap Z (lnode Z) → Z).

Definition rr_init : M (klist Z) unit := mret ().
Definition rr_enqueue (p : Z) : M (klist Z) unit :=
  _ ← kassert_not_null p;
  kl_push_back new_addr p.
Definition rr_should_preempt (p runtime_ns : Z) : M (klist Z) bool :=
  _ ← kassert_not_null p;
  mret (TIME_SLICE_NS <=? runtime_ns).
Definition rr_pick_next : M (klist Z) Z :=
  e ← gets kl_empty;
  if (e : bool) then mret 0 else
  p ← kl_front;
  _ ← kl_pop_front;
  mret p.

(** [RoundRobinScheduler] as a policy. *)
#[global] Instance RoundRobinScheduler : SchedulerPolicy (klist Z) := {
  policy_init := rr_init;
  policy_enqueue := rr_enqueue;
  policy_should_preempt := rr_should_preempt;
  policy_pick_next := rr_pick_next;
}.
End round_robin.
