(* ===== verification/SchedProofs.v ===== *)
(** * The scheduler keeps every process in its place

    What a policy owes the mechanism ([PolicyLaws]), the invariant of the scheduler's state, and for
    each building block of [Scheduler.v] the moves it makes on the abstract state: ready queue [R],
    sleepers [B], list of processes [L], and the set [H] of processes the CPU is dealing with. *)

From S2P Require Import Prelude Cpu Spinlock Pmm Vmm VmmTree VmmProofs VmmFree VmmSpace.
From S2P Require Import VmmTheorems KVector KHeap KList Process SchedInv Scheduler.

(** ** What the mechanism relies on in a policy

    The policy holds a bag of ready processes: [enqueue] adds one, [pick_next] takes one out unless
    there is none. *)
Class PolicyLaws (P : Type) `{!SchedulerPolicy P} := {
  pol_rep : P → list Z → Prop;
  pol_perm p R R' : R ≡ₚ R' → pol_rep p R → pol_rep p R';
  enqueue_law x p R : pol_rep p R → x ≠ 0 → Z.of_nat (length R) + 1 < 2 ^ 64 →
    wp (policy_enqueue x) False (λ _ p', pol_rep p' (x :: R)) p;
  should_preempt_law x t p R : pol_rep p R → x ≠ 0 →
    wp (policy_should_preempt x t) False (λ _ p', pol_rep p' R) p;
  pick_next_law p R : pol_rep p R →
    wp policy_pick_next False (λ x p',
      (R = [] ∧ x = 0 ∧ pol_rep p' []) ∨ ∃ R', R ≡ₚ x :: R' ∧ pol_rep p' R') p;
}.

(** ** Address spaces of the processes *)

Definition user_root (v : vmm) (m : gmap Z Process) (r : Z) : Prop :=
  ∃ p d, m !! p = Some d ∧ pml4 d ≠ kernel_pml4 v ∧ r = hhdm_vtop v (pml4 d).

Record spaces_ok (v : vmm) (m : gmap Z Process) : Prop := {
  so_sys : sys_ok v (user_root v m);
  so_pml4 p d : m !! p = Some d → 0 < pml4 d < 2 ^ 64;
  so_inj p q d e : m !! p = Some d → m !! q = Some e → pml4 d = pml4 e →
    pml4 d ≠ kernel_pml4 v → p = q;
}.

(** The members no scheduling operation writes. *)
Definition fixed (d : Process) : Z * Z * Z * list Z :=
  (pid d, parent d, pml4 d, fd_table d).
Definition same_fixed (m m' : gmap Z Process) : Prop :=
  ∀ p, fixed <$> m' !! p = fixed <$> m !! p.

Lemma same_fixed_refl m : same_fixed m m.
Proof. done. Qed.
Lemma same_fixed_trans m1 m2 m3 : same_fixed m1 m2 → same_fixed m2 m3 → same_fixed m1 m3.
Proof. intros H1 H2 p. by rewrite H2. Qed.

Lemma same_fixed_insert m p d d' : m !! p = Some d → fixed d' = fixed d →
  same_fixed m (<[p := d']> m).
Proof.
  intros Hd Hf q. rewrite lookup_insert. case_decide as Hpq; [|done]. subst. rewrite Hd. cbn. by f_equal.
Qed.

Lemma same_fixed_woken X m : same_fixed m (woken X m).
Proof. intros p. rewrite lookup_woken. destruct (m !! p); [|done]. cbn. f_equal. by case_decide. Qed.

Lemma same_fixed_lookup m m' p d' : same_fixed m m' → m' !! p = Some d' →
  ∃ d, m !! p = Some d ∧ fixed d' = fixed d.
Proof.
  intros Hs Hd'. specialize (Hs p). rewrite Hd' in Hs. destruct (m !! p) as [d|]; [|done].
  cbn in Hs. injection Hs as Hs. exists d. split; [done|]. unfold fixed. congruence.
Qed.

Lemma same_fixed_sym m m' : same_fixed m m' → same_fixed m' m.
Proof. intros Hs p. by rewrite Hs. Qed.

Lemma user_root_fixed v m m' : same_fixed m m' → ∀ r, user_root v m' r → user_root v m r.
Proof.
  intros Hs r (p & d' & Hd' & Hk & ->). destruct (same_fixed_lookup _ _ _ _ Hs Hd') as (d & Hd & Hf).
  injection Hf as _ _ Hp _. exists p, d. rewrite <- Hp. done.
Qed.

Lemma sys_ok_roots v (roots roots' : Z → Prop) : (∀ r, roots r ↔ roots' r) → sys_ok v roots →
  sys_ok v roots'.
Proof.
  intros Hiff (Hok & Hl & Hk & Hi). split; [|split; [done|split; [by rewrite <- Hiff|done]]].
  eapply vm_ok_sub; [|exact Hok]. intros r l. unfold sys_dom, spaces. by rewrite Hiff.
Qed.

Lemma spaces_ok_fixed v m m' : same_fixed m m' → spaces_ok v m → spaces_ok v m'.
Proof.
  intros Hs [Hsys Hp Hinj]. split.
  - eapply sys_ok_roots; [|exact Hsys]. intros r. split; apply user_root_fixed; [|done].
    by apply same_fixed_sym.
  - intros p d' Hd'. destruct (same_fixed_lookup _ _ _ _ Hs Hd') as (d & Hd & Hf).
    injection Hf as _ _ -> _. by apply (Hp p).
  - intros p q d' e' Hd' He'. destruct (same_fixed_lookup _ _ _ _ Hs Hd') as (d & Hd & Hf).
    destruct (same_fixed_lookup _ _ _ _ Hs He') as (e & He & Hg).
    injection Hf as _ _ -> _. injection Hg as _ _ -> _. by apply Hinj.
Qed.

Lemma spaces_ok_cpu v m c : spaces_ok v m → spaces_ok (with_vm_cpu c v) m.
Proof.
  intros [Hsys Hp Hinj]. split; [|done|done].
  destruct Hsys as ([[Hw1 Hw2 Hw3 Hw4 Hw5] Hh Hfo Hu Hf] & Hl & Hk & Hi).
  split; [|by split_and!]. split; [by split|done|done|done|done].
Qed.

Section mechanism.
Context {P : Type} `{!SchedulerPolicy P, !PolicyLaws P}.
Implicit Types (s : sched (P := P)) (R L X : list Z) (B D : list (node Z)) (H : gset Z) (p q : Z)
  (d : Process) (E : Prop).

Definition cur s : Z := process (percpu (sc_cpu s)).
Definition idle s : Z := idle_process_ptr (percpu (sc_cpu s)).

Definition sleepers_rep (v : kvector (node Z)) B : Prop :=
  ∃ l, kv_rep v l ∧ heap_ordered Z.ltb l ∧ l ≡ₚ B.
Definition listed s L : Prop := ∃ ps, kl_rep (g_processes s) ps ∧ ps.*2 = L.

Record sinv s R B L H : Prop := {
  si_pol : ∃ pol, g_scheduler_policy s = Some pol ∧ pol_rep pol R;
  si_sleepers : sleepers_rep (g_sleepers s) B;
  si_list : listed s L;
  si_small : Z.of_nat (length L) + 1 < KV_MAX;
  si_placed : placed (procs s) R B L H;
  si_idle : idle s ≠ 0 ∧ (idle s ∉ L) ∧ is_Some (procs s !! idle s);
  si_spaces : spaces_ok (sc_vm s) (procs s);
}.

(** The part of the state that waking and picking processes leaves alone. *)
Record still s s' : Prop := {
  st_vm : sc_vm s' = sc_vm s;
  st_lock : g_processes_lock s' = g_processes_lock s;
  st_list : g_processes s' = g_processes s;
  st_rsp0 : tss_rsp0 s' = tss_rsp0 s;
}.
Lemma still_refl s : still s s.
Proof. done. Qed.
Lemma still_trans s1 s2 s3 : still s1 s2 → still s2 s3 → still s1 s3.
Proof. intros [] []. split; congruence. Qed.
Lemma still_cur s s' : still s s' → cur s' = cur s ∧ idle s' = idle s.
Proof. intros [Hv _ _ _]. unfold cur, idle, sc_cpu. by rewrite Hv. Qed.

(** ** Sizes *)

Lemma nodup_le R L : NoDup R → (∀ p, p ∈ R → p ∈ L) → (length R ≤ length L)%nat.
Proof. intros HR Hs. apply submseteq_length, NoDup_submseteq; done. Qed.

Lemma ready_small s R B L H : sinv s R B L H → Z.of_nat (length R) + 1 < 2 ^ 64.
Proof.
  intros Hi. pose proof (nodup_le R L (pl_R _ _ _ _ _ (si_placed _ _ _ _ _ Hi)) (pl_RL _ _ _ _ _ (si_placed _ _ _ _ _ Hi))).
  pose proof (si_small _ _ _ _ _ Hi). unfold KV_MAX in *. change (2 ^ 60) with 1152921504606846976 in *.
  change (2 ^ 64) with 18446744073709551616. lia.
Qed.

Lemma sleepers_small s R B L H : sinv s R B L H → Z.of_nat (length B) + 1 < KV_MAX.
Proof.
  intros Hi. pose proof (nodup_le (vals B) L (pl_B _ _ _ _ _ (si_placed _ _ _ _ _ Hi)) (pl_BL _ _ _ _ _ (si_placed _ _ _ _ _ Hi))) as Hle.
  unfold vals in Hle. rewrite length_fmap in Hle. pose proof (si_small _ _ _ _ _ Hi). lia.
Qed.

Lemma sinv_perm s R R' B B' L H : R ≡ₚ R' → B ≡ₚ B' → sinv s R B L H → sinv s R' B' L H.
Proof.
  intros HR HB [(pol & Hpol & Hrep) (l & Hl & Ho & Hp) Hl' Hsm Hpl Hid Hsp]. split; try done.
  - exists pol. split; [done|]. by eapply pol_perm.
  - exists l. split; [done|]. split; [done|]. by rewrite <- HB.
  - by eapply placed_perm.
Qed.

(** ** Primitive steps *)

Lemma wp_proc p d s E (Q : Process → sched → Prop) : procs s !! p = Some d → Q d s → wp (proc p) E Q s.
Proof. intros Hd HQ. unfold proc, wp, mbind, M_bind, gets, of_option. by rewrite Hd. Qed.

Lemma wp_update p f d s E (Q : unit → sched → Prop) : procs s !! p = Some d →
  Q () (with_procs (insert p (f d)) s) → wp (update p f) E Q s.
Proof. intros Hd HQ. unfold update. apply wp_bind. by eapply wp_proc. Qed.

Lemma wp_in_policy {A} (m : M P A) pol s E (Q : A → sched → Prop) : g_scheduler_policy s = Some pol →
  wp m E (λ a pol', Q a (with_policy (Some pol') s)) pol → wp (in_policy m) E Q s.
Proof.
  intros Hpol. unfold wp, in_policy. rewrite Hpol. by destruct (m pol) as [[]| | |].
Qed.

Lemma wp_enqueue p R s (pol : P) E (Q : unit → sched → Prop) : g_scheduler_policy s = Some pol → pol_rep pol R →
  p ≠ 0 → Z.of_nat (length R) + 1 < 2 ^ 64 →
  (∀ pol', pol_rep pol' (p :: R) → Q () (with_policy (Some pol') s)) →
  wp (in_policy (policy_enqueue p)) E Q s.
Proof.
  intros Hpol Hrep Hp Hsm HQ. eapply wp_in_policy; [done|].
  eapply wp_mono; [by eapply enqueue_law|done|]. intros [] pol' Hrep'. by apply HQ.
Qed.

Lemma wp_idle s E (Q : Z → sched → Prop) : idle s ≠ 0 → Q (idle s) s → wp (in_cpu idle_process) E Q s.
Proof.
  intros Hne HQ. unfold in_cpu. apply wp_zoom. unfold idle_process. apply wp_gets, wp_kassert.
  fold (idle s). rewrite (proj2 (Z.eqb_neq _ _)) by done. cbn [negb]. apply wp_ret. by destruct s as [[[]]].
Qed.

Lemma wp_current s E (Q : Z → sched → Prop) : cur s ≠ 0 → Q (cur s) s → wp (in_cpu current_process) E Q s.
Proof.
  intros Hne HQ. unfold in_cpu. apply wp_zoom. unfold current_process. apply wp_gets, wp_kassert.
  fold (cur s). rewrite (proj2 (Z.eqb_neq _ _)) by done. cbn [negb]. apply wp_ret. by destruct s as [[[]]].
Qed.

Lemma wp_p_lock s E (Q : unit → sched → Prop) : is_free (g_processes_lock s) →
  Q () (with_sc_lock (masked (sc_cpu s), held_from (sc_cpu s)) s) → wp p_lock E Q s.
Proof. intros Hf HQ. unfold p_lock. apply wp_zoom. unfold wp. by rewrite lock_free. Qed.

(** The CPU after [unlock]: the flags and, where it was on, the preemption flag saved by [lock]. *)
Definition unlocked s : cpu :=
  let c := sc_cpu s in
  let l := g_processes_lock s in
  write_rflags (saved_rflags l) (if saved_preemption l then enable_preemption c else c).
Definition free_again s : kspinlock_irqsave :=
  mk_irqsave 1 (saved_rflags (g_processes_lock s)) (saved_preemption (g_processes_lock s)).

Lemma wp_p_unlock s E (Q : unit → sched → Prop) :
  Q () (with_sc_lock (unlocked s, free_again s) s) → wp p_unlock E Q s.
Proof.
  intros HQ. unfold p_unlock. apply wp_zoom. unfold wp, unlock, unlocked, free_again in *.
  destruct s as [v pol [cn r pe] pl sl m t n]. cbn in *. by destruct pe.
Qed.

Lemma unlocked_ptrs s : process (percpu (unlocked s)) = cur s ∧ idle_process_ptr (percpu (unlocked s)) = idle s.
Proof. unfold unlocked, cur, idle. by destruct (saved_preemption _). Qed.

(** The invariant looks at the CPU for the idle process only. *)
Lemma sinv_lock c l s R B L H : idle_process_ptr (percpu c) = idle s → sinv s R B L H →
  sinv (with_sc_lock (c, l) s) R B L H.
Proof.
  intros Hid [H1 H2 H3 H4 H5 H6 H7]. split; try done.
  - unfold idle, with_sc_lock, sc_cpu. cbn. by rewrite Hid.
  - by apply spaces_ok_cpu.
Qed.
Lemma sinv_cpu c s R B L H : idle_process_ptr (percpu c) = idle s → sinv s R B L H →
  sinv (with_sc_cpu c s) R B L H.
Proof. intros Hid Hi. apply (sinv_lock c (g_processes_lock s) s R B L H Hid Hi). Qed.

(** ** Loops over the processes *)

Lemma wp_scan {A} (body : Z → A → M sched (bool * A)) (I : list Z → A → sched → Prop) (J : A → sched → Prop) L E :
  (∀ pre x post acc s, L = pre ++ x :: post → I pre acc s →
     wp (body x acc) E (λ r s', if r.1 : bool then J r.2 s' else I (pre ++ [x]) r.2 s') s) →
  (∀ pre acc s, I pre acc s → listed s L) →
  (∀ acc s, I L acc s → J acc s) →
  ∀ fuel pre post acc s, L = pre ++ post → I pre acc s → fuel = length post →
    wp (scan fuel (length pre) body acc) E J s.
Proof.
  intros Hbody Hlist Hend. induction fuel as [|fuel IH]; intros pre post acc s HL HI Hf; cbn [scan];
    destruct (Hlist _ _ _ HI) as (ps & Hrep & Hps);
    apply wp_gets; rewrite (lr_size _ _ Hrep), <- (length_fmap snd ps), Hps, HL, length_app.
  - destruct post; [|done]. cbn [length]. rewrite (proj2 (Z.ltb_ge _ _)) by lia. apply wp_ret, Hend.
    rewrite app_nil_r in HL. by subst.
  - destruct post as [|x post]; [done|]. cbn [length]. rewrite (proj2 (Z.ltb_lt _ _)) by lia.
    assert (ps.*2 !! length pre = Some x) as Hx by (rewrite Hps, HL; by apply list_lookup_middle).
    rewrite list_lookup_fmap in Hx. destruct (ps !! length pre) as [[a y]|] eqn:Hy; [|done].
    injection Hx as ->. apply wp_bind. unfold in_plist. apply wp_zoom.
    eapply wp_mono; [by apply (wp_kl_at _ a x _ ps)|done|]. intros y k [-> ->].
    replace (with_plist _ s) with s by by destruct s.
    apply wp_bind. eapply wp_mono; [by apply (Hbody pre x post)|done|]. intros [stop acc'] s' Hr.
    cbn [fst snd] in Hr. destruct stop; [by apply wp_ret|].
    replace (S (length pre)) with (length (pre ++ [x])) by (rewrite length_app; cbn; lia).
    apply (IH _ post); [by rewrite <- app_assoc|done|]. cbn in Hf. lia.
Qed.

Lemma wp_for_processes {A} (body : Z → A → M sched (bool * A)) (I : list Z → A → sched → Prop) (J : A → sched → Prop) L acc s E :
  (∀ pre x post acc s, L = pre ++ x :: post → I pre acc s →
     wp (body x acc) E (λ r s', if r.1 : bool then J r.2 s' else I (pre ++ [x]) r.2 s') s) →
  (∀ pre acc s, I pre acc s → listed s L) →
  (∀ acc s, I L acc s → J acc s) →
  I [] acc s → wp (for_processes body acc) E J s.
Proof.
  intros Hbody Hlist Hend HI. unfold for_processes. apply wp_gets.
  destruct (Hlist _ _ _ HI) as (ps & Hrep & Hps). rewrite (lr_size _ _ Hrep), Nat2Z.id.
  eapply (wp_scan body I J L E Hbody Hlist Hend _ [] L); [done..|]. by rewrite <- Hps, length_fmap.
Qed.

(** ** Waking blocked processes *)

(** The blocked processes of [L] that match, in the order of the list. *)
Definition to_wake (matches : Process → bool) (m : gmap Z Process) L : list Z :=
  filter (λ p, from_option (λ d, is_blocked d && matches d) false (m !! p) = true) L.

(** Waking [X], none of which is anywhere, in a state reached by waking [Y]. *)
Lemma wp_wake_one p d s R B L H E (Q : bool * unit → sched → Prop) once :
  sinv s R B L H → p ∈ L → p ∉ H → procs s !! p = Some d → state d = BLOCKED →
  (∀ s', still s s' → procs s' = woken [p] (procs s) → clock_reads s' = clock_reads s →
     sinv s' (p :: R) B L H → Q (once, ()) s') →
  wp (_ ← do_wake p; _ ← in_policy (policy_enqueue p); mret (once, ())) E Q s.
Proof.
  intros Hi HpL HpH Hd Hbl HQ. pose proof (ready_small _ _ _ _ _ Hi) as Hsm.
  destruct Hi as [(pol & Hpol & Hrep) Hsl Hli Hbd Hpl Hid Hsp].
  assert (p ≠ 0) as Hp0 by (intros ->; by apply (pl_nz _ _ _ _ _ Hpl)).
  unfold do_wake. apply wp_bind. eapply wp_update; [done|]. apply wp_bind.
  eapply wp_enqueue; [done..|]. intros pol' Hrep'. apply wp_ret.
  assert (<[p := wake d]> (procs s) = woken [p] (procs s)) as Hw.
  { rewrite <- (woken_nil (procs s)) at 1. apply (woken_snoc []); [done|]. apply not_elem_of_nil. }
  apply HQ; [done|done|done|]. split; cbn; try done.
  - by exists pol'.
  - rewrite Hw. apply (placed_wake [p]); [done|apply NoDup_singleton|].
    intros q ->%list_elem_of_singleton. split; [done|]. split; [done|].
    destruct (pl_out _ _ _ _ _ Hpl p d HpL Hd HpH) as (HR & HS & _). split.
    + rewrite HR. unfold is_ready. by rewrite Hbl.
    + rewrite HS. by rewrite Hbl.
  - destruct Hid as (? & ? & ?). split; [done|]. split; [done|].
    apply lookup_insert_is_Some. destruct (decide (p = idle s)); [by left|by right].
  - rewrite Hw. eapply spaces_ok_fixed; [apply same_fixed_woken|done].
Qed.

Lemma woken_woken X Y m : woken X (woken Y m) = woken (Y ++ X) m.
Proof.
  apply map_eq. intros p. rewrite !lookup_woken. destruct (m !! p) as [d|]; [|done]. cbn. f_equal.
  repeat case_decide; rewrite elem_of_app in *; try tauto; done.
Qed.

Lemma to_wake_snoc matches m L p :
  to_wake matches m (L ++ [p]) = to_wake matches m L ++
    if from_option (λ d, is_blocked d && matches d) false (m !! p) then [p] else [].
Proof.
  unfold to_wake. rewrite filter_app. f_equal. rewrite filter_cons, filter_nil.
  destruct (from_option _ _ _); [by rewrite decide_True|by rewrite decide_False].
Qed.

Lemma to_wake_sub matches m L p : p ∈ to_wake matches m L →
  p ∈ L ∧ ∃ d, m !! p = Some d ∧ state d = BLOCKED.
Proof.
  unfold to_wake. rewrite list_elem_of_filter. intros [Hm HL]. split; [done|].
  destruct (m !! p) as [d|]; [|done]. exists d. split; [done|]. cbn in Hm.
  apply andb_true_iff in Hm as [Hb%bool_decide_eq_true_1 _]. done.
Qed.

Definition chosen (once : bool) X : list Z := if once then take 1 X else X.

(** The loop wakes every matching blocked process, or the first. *)
Lemma wp_wake_loop matches once s R B L H E (Q : unit → sched → Prop) :
  sinv s R B L H → (∀ p d, p ∈ H → p ∈ L → procs s !! p = Some d → state d ≠ BLOCKED) →
  (∀ s' X, X = chosen once (to_wake matches (procs s) L) → still s s' →
     procs s' = woken X (procs s) → sinv s' (X ++ R) B L H → Q () s') →
  wp (for_processes (wake_if matches once) ()) E Q s.
Proof.
  intros Hi HH HQ. set (W := to_wake matches (procs s)).
  set (Inv := λ (pre : list Z) (_ : unit) s', (once = true → W pre = []) ∧ still s s' ∧
    procs s' = woken (W pre) (procs s) ∧ ∃ R', R' ≡ₚ W pre ++ R ∧ sinv s' R' B L H).
  apply (wp_for_processes _ Inv _ L).
  - intros pre x post [] s1 HL (Hone & Hst & Hpr & R' & HR' & Hi1).
    assert (x ∈ L) as HxL by (rewrite HL; apply elem_of_app; right; left).
    assert (NoDup L) as HndL by apply (pl_L _ _ _ _ _ (si_placed _ _ _ _ _ Hi)).
    assert (x ∉ W pre) as HxW.
    { intros [Hx _]%to_wake_sub. rewrite HL in HndL. apply NoDup_app in HndL as (_ & Hdisj & _).
      apply (Hdisj x Hx). left. }
    destruct (pl_dom _ _ _ _ _ (si_placed _ _ _ _ _ Hi) x HxL) as [d Hd].
    assert (procs s1 !! x = Some d) as Hd1 by (by rewrite Hpr, woken_elsewhere).
    unfold wake_if. apply wp_kassert.
    rewrite (proj2 (Z.eqb_neq x 0)); [cbn [negb]|].
    2: { intros ->. by apply (pl_nz _ _ _ _ _ (si_placed _ _ _ _ _ Hi)). }
    apply wp_bind. eapply wp_proc; [done|].
    assert (W (pre ++ [x]) = W pre ++ if is_blocked d && matches d then [x] else []) as HW.
    { unfold W. by rewrite to_wake_snoc, Hd. }
    destruct (is_blocked d) eqn:Hb; cbn [negb andb] in *;
      [destruct (matches d) eqn:Hm; cbn [negb] in *|].
    2-3: rewrite app_nil_r in HW; apply wp_ret; cbn [fst snd]; unfold Inv; rewrite HW; by eauto 10.
    apply bool_decide_eq_true_1 in Hb. eapply wp_wake_one; [done|done| |done|done|].
    { intros HxH. by apply (HH x d). }
    intros s2 Hst2 Hpr2 _ Hi2. cbn [fst snd].
    assert (procs s2 = woken (W (pre ++ [x])) (procs s)) as Hpr'.
    { by rewrite Hpr2, Hpr, woken_woken, HW. }
    assert (x :: R' ≡ₚ W (pre ++ [x]) ++ R) as HR2.
    { rewrite HW, HR', (comm (++) (W pre) [x]). done. }
    destruct once.
    + assert (W L = x :: W post) as HWL.
      { unfold W, to_wake in *. rewrite HL, filter_app, filter_cons, Hone by done.
        rewrite decide_True; [done|]. rewrite Hd. cbn. rewrite Hm.
        unfold is_blocked. by rewrite bool_decide_eq_true_2. }
      apply (HQ s2 [x]); [|by eapply still_trans| |].
      * unfold chosen. fold W. by rewrite HWL.
      * rewrite Hpr', HW, Hone by done. done.
      * eapply sinv_perm; [|done|exact Hi2]. rewrite HR2, HW, Hone by done. done.
    + split; [done|]. split; [by eapply still_trans|]. split; [done|]. by exists (x :: R').
  - intros pre [] s' (_ & _ & _ & R' & _ & Hi'). apply (si_list _ _ _ _ _ Hi').
  - intros [] s' (Hone & Hst & Hpr & R' & HR' & Hi'). apply (HQ s' (W L)); [|done|done|].
    + unfold chosen. destruct once; [|done]. fold W. by rewrite Hone.
    + by eapply sinv_perm; [|done|].
  - split; [done|]. split; [done|]. split; [by rewrite woken_nil|]. by exists R.
Qed.

(** ** Waking sleepers *)

Definition due (now : Z) (n : node Z) : Prop := n_key n ≤ now.

(** What [wake_sleepers] at time [now] does: the sleepers [D] that are due become ready, the others
    [B'] are left. *)
Record slept now s R B L H s' D B' : Prop := {
  sl_split : B ≡ₚ D ++ B';
  sl_due : Forall (due now) D;
  sl_later : Forall (λ n, ¬ due now n) B';
  sl_still : still s s';
  sl_procs : procs s' = woken (vals D) (procs s);
  sl_inv : sinv s' (vals D ++ R) B' L H;
  sl_reads : (clock_reads s ≤ clock_reads s')%nat;
}.

Lemma wp_wake_sleepers_loop fuel now s : ∀ R B L H E (Q : unit → sched → Prop),
  sinv s R B L H → (length B ≤ fuel)%nat →
  (∀ s' D B', slept now s R B L H s' D B' → Q () s') → wp (wake_sleepers_loop fuel now) E Q s.
Proof.
  revert s. induction fuel as [|fuel IH]; intros s R B L H E Q Hi Hf HQ; cbn [wake_sleepers_loop];
    destruct (si_sleepers _ _ _ _ _ Hi) as (l & Hl & Ho & Hperm);
    apply wp_gets; unfold kv_empty; rewrite (kr_size _ _ Hl);
    (destruct l as [|n l]; [|cbn [length]; rewrite (proj2 (Z.eqb_neq _ _)) by lia]).
  1,3: apply wp_ret; apply Permutation_nil_l in Hperm as <-; apply (HQ s [] []); split; try done;
    by rewrite woken_nil.
  { apply Permutation_length in Hperm. cbn in Hperm. lia. }
  pose proof (sleepers_small _ _ _ _ _ Hi) as Hsm. pose proof (ready_small _ _ _ _ _ Hi) as HsmR.
  assert (SMALL (n :: l)) as Hsml by (unfold SMALL; rewrite Hperm; lia).
  destruct Hi as [(pol & Hpol & Hrep) Hsl Hli Hbd Hpl Hid Hsp] eqn:Heq. clear Heq.
  assert (n ∈ B) as Hn by (rewrite <- Hperm; left).
  assert (n_value n ∈ L) as HnL by (apply (pl_BL _ _ _ _ _ Hpl); by apply elem_vals).
  destruct (pl_dom _ _ _ _ _ Hpl _ HnL) as [d Hd].
  assert (wake_time_ns d = n_key n) as Hkey by by eapply pl_key.
  assert (n_value n ≠ 0) as Hn0 by (intros Hz; rewrite Hz in HnL; by apply (pl_nz _ _ _ _ _ Hpl)).
  apply wp_bind. unfold wake_sleeper. apply wp_bind. unfold in_sleepers, kmin_peak. apply wp_zoom.
  eapply wp_mono; [by apply (wp_heap_peak _ n l)|done|]. intros ? ? [-> ->].
  replace (with_sleepers _ s) with s by by destruct s. apply wp_kassert.
  rewrite (proj2 (Z.eqb_neq _ 0)) by done. cbn [negb]. apply wp_bind. eapply wp_proc; [done|]. rewrite Hkey.
  destruct (Z.ltb_spec now (n_key n)) as [Hlt|Hle].
  { apply wp_ret, wp_ret. apply (HQ s [] B). split; try done; [|by rewrite woken_nil].
    apply Forall_forall. intros n' Hn'. pose proof (heap_head_first Z.ltb n l B Ho (symmetry Hperm) n' Hn') as Hab.
    unfold above in Hab. unfold due. lia. }
  apply wp_bind. unfold do_wake. eapply wp_update; [done|]. apply wp_bind. eapply wp_enqueue; [done..|].
  intros pol' Hrep'. apply wp_bind. unfold kmin_pop. apply wp_zoom. cbn [g_sleepers with_policy with_procs].
  eapply wp_mono; [by apply (wp_heap_pop Z.ltb _ n l)|done|]. intros [] v' (l' & Hl' & Hpl' & Ho').
  apply wp_ret. set (s1 := with_sleepers _ _).
  assert (B ≡ₚ [n] ++ l') as HB by (rewrite <- Hperm, Hpl'; done).
  assert (procs s1 = woken (vals [n]) (procs s)) as Hpr1.
  { cbn. rewrite <- (woken_nil (procs s)) at 1. apply (woken_snoc []); [done|]. apply not_elem_of_nil. }
  assert (sinv s1 (n_value n :: R) l' L H) as Hi1.
  { split; try done.
    - by exists pol'.
    - by exists l'.
    - rewrite Hpr1. by apply (placed_due [n] l' _ R B).
    - destruct Hid as (? & ? & ?). split; [done|]. split; [done|].
      apply lookup_insert_is_Some. destruct (decide (n_value n = idle s)); [by left|by right].
    - rewrite Hpr1. eapply spaces_ok_fixed; [apply same_fixed_woken|done]. }
  eapply (IH s1); [done| |].
  { apply Permutation_length in HB. cbn in HB. lia. }
  intros s2 D B' [H1 H2 H3 H4 H5 H6 H7]. apply (HQ s2 (n :: D) B'). split.
  - rewrite HB, H1. done.
  - constructor; [|done]. unfold due. lia.
  - done.
  - by eapply still_trans; [|exact H4].
  - by rewrite H5, Hpr1, woken_woken.
  - eapply sinv_perm; [|done|exact H6]. cbn. by rewrite Permutation_middle.
  - exact H7.
Qed.

Context (time : nat → Z).

Lemma wp_get_time s E (Q : Z → sched → Prop) :
  Q (time (clock_reads s)) (with_reads (S (clock_reads s)) s) → wp (get_time_ns time) E Q s.
Proof. done. Qed.

Lemma wp_wake_sleepers s R B L H E (Q : unit → sched → Prop) : sinv s R B L H →
  (∀ s' D B', slept (time (clock_reads s)) s R B L H s' D B' → Q () s') →
  wp (wake_sleepers time) E Q s.
Proof.
  intros Hi HQ. unfold wake_sleepers. apply wp_bind, wp_get_time, wp_gets. cbn [with_reads g_sleepers].
  destruct (si_sleepers _ _ _ _ _ Hi) as (l & Hl & Ho & Hperm). rewrite (kr_size _ _ Hl), Nat2Z.id.
  eapply (wp_wake_sleepers_loop _ _ (with_reads _ s)).
  - by destruct Hi; split.
  - by rewrite Hperm.
  - intros s' D B' [H1 H2 H3 [] H5 H6 H7]. apply (HQ s' D B'). split; try done. cbn in H7. lia.
Qed.

(** ** Choosing the next process *)

(** The outcome of [pick_next_process]: sleepers are woken, then [q] is taken from the ready
    processes, or is the idle process if there is none. *)
Record picked now s R B L H q s' R' B' D : Prop := {
  pk_split : B ≡ₚ D ++ B';
  pk_due : Forall (due now) D;
  pk_later : Forall (λ n, ¬ due now n) B';
  pk_still : still s s';
  pk_procs : procs s' = woken (vals D) (procs s);
  pk_ready : (q = idle s ∧ vals D ++ R = [] ∧ R' = []) ∨
             (vals D ++ R ≡ₚ q :: R' ∧ q ∈ L ∧ q ∉ H);
  pk_inv : sinv s' R' B' L ({[q]} ∪ H);
}.

Lemma wp_pick_next s R B L H E (Q : Z → sched → Prop) : sinv s R B L H →
  (∀ q s' R' B' D, picked (time (clock_reads s)) s R B L H q s' R' B' D → Q q s') →
  wp (pick_next_process time) E Q s.
Proof.
  intros Hi HQ. unfold pick_next_process. apply wp_bind. eapply wp_wake_sleepers; [done|].
  intros s1 D B' [H1 H2 H3 H4 H5 Hi1 _]. pose proof Hi1 as [(pol & Hpol & Hrep) Hsl Hli Hbd Hpl Hid Hsp].
  destruct (still_cur _ _ H4) as [_ Hidle].
  apply wp_bind. eapply wp_in_policy; [done|]. eapply wp_mono; [by eapply pick_next_law|done|].
  intros q pol' [(HR & -> & Hrep')|(R' & HR & Hrep')].
  - rewrite Z.eqb_refl. apply wp_idle; [apply Hid|]. change (idle (with_policy _ s1)) with (idle s1).
    apply (HQ _ _ [] B' D). split; try done.
    + by destruct H4.
    + by left.
    + split; try done.
      * by exists pol'.
      * apply placed_more; [|apply Hid]. by rewrite HR in Hpl.
  - destruct (placed_pick q R' _ _ _ _ _ HR Hpl) as (Hpl' & HqL & HqH).
    assert (q ≠ 0) as Hq0 by (intros ->; by apply (pl_nz _ _ _ _ _ Hpl)).
    rewrite (proj2 (Z.eqb_neq _ _)) by done. apply wp_ret. apply (HQ _ _ R' B' D). split; try done.
    + by destruct H4.
    + by right.
    + split; try done. by exists pol'.
Qed.

(** ** Activating a process and leaving the critical section *)

(** A process that got the CPU at time [now]. *)
Definition activated (now : Z) d : Process :=
  with_usage (wrap64 (context_switches d + 1)) now (resume now d).

Lemma sinv_procs s R B L H p d d' : sinv s R B L H → procs s !! p = Some d → fixed d' = fixed d →
  placed (<[p := d']> (procs s)) R B L H → sinv (with_procs (insert p d') s) R B L H.
Proof.
  intros [H1 H2 H3 H4 H5 H6 H7] Hd Hf Hpl. split; try done.
  - destruct H6 as (? & ? & ?). split; [done|]. split; [done|]. cbn.
    apply lookup_insert_is_Some. destruct (decide (p = idle s)); [by left|by right].
  - cbn. eapply spaces_ok_fixed; [|done]. by eapply same_fixed_insert.
Qed.

Lemma wp_activate q d s R B L H E (Q : unit → sched → Prop) : sinv s R B L H → q ∈ H →
  q ≠ 0 → procs s !! q = Some d →
  (∀ s', sinv s' R B L H → procs s' = <[q := activated (time (clock_reads s)) d]> (procs s) →
     cur s' = q → idle s' = idle s → g_processes_lock s' = g_processes_lock s →
     g_processes s' = g_processes s →
     cr3 (sc_cpu s') = hhdm_vtop (sc_vm s) (pml4 d) → tss_rsp0 s' = p_kernel_rsp d →
     kernel_rsp (percpu (sc_cpu s')) = p_kernel_rsp d →
     Q () s') →
  wp (activate_process time q) E Q s.
Proof.
  intros Hi HqH Hq0 Hd HQ. unfold activate_process. apply wp_kassert.
  rewrite (proj2 (Z.eqb_neq q 0)) by done. cbn [negb]. apply wp_bind. unfold do_resume.
  apply wp_bind, wp_get_time. eapply wp_update; [done|]. apply wp_bind.
  eapply wp_update; [by apply lookup_insert_eq|]. apply wp_bind. eapply wp_proc; [by apply lookup_insert_eq|].
  apply wp_modify, wp_bind. unfold in_vm. apply wp_zoom. unfold switch_pml4. apply wp_kassert.
  assert (pml4 d ≠ 0) as Hp0 by (pose proof (so_pml4 _ _ (si_spaces _ _ _ _ _ Hi) _ _ Hd); lia).
  match goal with |- if ?b then _ else _ => replace b with true end.
  2: { symmetry. apply negb_true_iff, Z.eqb_neq. done. }
  apply wp_modify. apply HQ; try done.
  - assert (sinv (with_procs (insert q (activated (time (clock_reads s)) d)) s) R B L H) as Hi'.
    { apply (sinv_procs _ _ _ _ _ _ d); [done..|]. apply placed_hole; [apply Hi|by left]. }
    destruct Hi' as [H1 H2 H3 H4 H5 H6 H7]. split; try done.
    + cbn. by rewrite insert_insert_eq.
    + cbn. rewrite insert_insert_eq. apply H6.
    + cbn [procs with_rsp0 with_sc_cpu with_vm with_procs with_reads]. rewrite insert_insert_eq.
      refine (spaces_ok_cpu (sc_vm s) _ _ _). apply H7.
  - cbn. by rewrite insert_insert_eq.
Qed.
End mechanism.
