(* ===== verification/SchedOps.v ===== *)
(** * The operations of the scheduler

    Every operation of [Scheduler.v], run in a state that satisfies the invariant, completes and
    keeps it: no process is lost or scheduled twice.  The exceptions found on the way are theorems
    too: a timer tick between the two halves of [yield_sleep_ns] loses the process for ever. *)

From S2P Require Import Prelude Cpu Spinlock Pmm Vmm VmmTree VmmProofs VmmFree VmmSpace.
From S2P Require Import VmmTheorems KVector KHeap KList Process SchedInv Scheduler SchedProofs.

Section operations.
Context {P : Type} `{!SchedulerPolicy P, !PolicyLaws P}.
Implicit Types (s : sched (P := P)) (R L X : list Z) (B D : list (node Z)) (H : gset Z) (p q : Z)
  (d : Process) (E : Prop).

(** Between operations the CPU is dealing with the current process only. *)
Record inv_at s R B L : Prop := {
  iv_inv : sinv s R B L {[cur s]};
  iv_free : is_free (g_processes_lock s);
  iv_cur : cur s = idle s ∨ cur s ∈ L;
  iv_run d : cur s ∈ L → procs s !! cur s = Some d → state d = RUNNING ∨ state d = NEW;
}.
Definition inv s : Prop := ∃ R B L, inv_at s R B L.

Lemma in_known s R B L H q : sinv s R B L H → q = idle s ∨ q ∈ L → q ≠ 0 ∧ ∃ d, procs s !! q = Some d.
Proof.
  intros Hi [->|Hc].
  - destruct (si_idle _ _ _ _ _ Hi) as (? & _ & [d Hd]). eauto.
  - split; [|by apply (pl_dom _ _ _ _ _ (si_placed _ _ _ _ _ Hi))].
    intros ->. by apply (pl_nz _ _ _ _ _ (si_placed _ _ _ _ _ Hi)).
Qed.

Lemma picked_known now s R B L H q s' R' B' D : picked now s R B L H q s' R' B' D →
  q = idle s' ∨ q ∈ L.
Proof.
  intros Hpk. destruct (still_cur _ _ (pk_still _ _ _ _ _ _ _ _ _ _ _ Hpk)) as [_ ->].
  destruct (pk_ready _ _ _ _ _ _ _ _ _ _ _ Hpk) as [(-> & _)|(_ & ? & _)]; [by left|by right].
Qed.

Lemma inv_enter s R B L : inv_at s R B L →
  sinv (with_sc_lock (masked (sc_cpu s), held_from (sc_cpu s)) s) R B L {[cur s]}.
Proof. intros [Hi _ _ _]. by apply sinv_lock. Qed.

(** The end of a critical section that keeps the current process. *)
Lemma wp_leave_vm s R B L E (Q : unit → sched → Prop) : sinv s R B L {[cur s]} →
  cur s = idle s ∨ cur s ∈ L →
  (∀ d, cur s ∈ L → procs s !! cur s = Some d → state d = RUNNING ∨ state d = NEW) →
  (∀ s' c, inv_at s' R B L → cur s' = cur s → procs s' = procs s →
     sc_vm s' = with_vm_cpu c (sc_vm s) → Q () s') → wp p_unlock E Q s.
Proof.
  intros Hi Hc Hr HQ. apply wp_p_unlock. destruct (unlocked_ptrs s) as [Hp Hid].
  assert (cur (with_sc_lock (unlocked s, free_again s) s) = cur s) as Hcur by exact Hp.
  assert (idle (with_sc_lock (unlocked s, free_again s) s) = idle s) as Hidle by exact Hid.
  apply (HQ _ (unlocked s)); [|done..]. split; rewrite ?Hcur, ?Hidle; [|done..]. by apply sinv_lock.
Qed.

Lemma wp_leave s R B L E (Q : unit → sched → Prop) : sinv s R B L {[cur s]} →
  cur s = idle s ∨ cur s ∈ L →
  (∀ d, cur s ∈ L → procs s !! cur s = Some d → state d = RUNNING ∨ state d = NEW) →
  (∀ s', inv_at s' R B L → cur s' = cur s → procs s' = procs s → Q () s') → wp p_unlock E Q s.
Proof. intros Hi Hc Hr HQ. eapply wp_leave_vm; [done..|]. intros s' c Hi' Hc' Hpr' _. by apply HQ. Qed.

Context (time : nat → Z).

(** The end of a critical section that hands the CPU to [q]. *)
Lemma wp_hand_over q s R B L {A} (rest : M sched A) E (Q : A → sched → Prop) :
  sinv s R B L {[q]} → q = idle s ∨ q ∈ L →
  (∀ s' d, procs s !! q = Some d → inv_at s' R B L → cur s' = q →
     procs s' = <[q := activated (time (clock_reads s)) d]> (procs s) → wp rest E Q s') →
  wp (_ ← activate_process time q; _ ← p_unlock; rest) E Q s.
Proof.
  intros Hi Hq HQ. destruct (in_known _ _ _ _ _ _ Hi Hq) as [Hq0 [d Hd]].
  apply wp_bind. eapply wp_activate; [done|by apply elem_of_singleton|done..|].
  intros s1 Hi1 Hpr Hc Hid _ _ _ _ _. apply wp_bind. eapply wp_leave.
  - by rewrite Hc.
  - by rewrite Hc, Hid.
  - rewrite Hc, Hpr, lookup_insert_eq. intros d' _ [= <-]. by left.
  - intros s2 Hi2 Hc2 Hpr2. apply (HQ s2 d); [done|done|congruence|congruence].
Qed.

(** Saving the stack pointer of a process changes nothing the invariant sees. *)
Lemma inv_context_switch rsp old new s R B L dn do E (Q : control → sched → Prop) : inv_at s R B L →
  procs s !! new = Some dn → procs s !! old = Some do →
  (∀ s', inv_at s' R B L → cur s' = cur s →
     procs s' = <[old := with_kernel_rsp_saved rsp do]> (procs s) → Q (Switch new) s') →
  wp (context_switch rsp old new) E Q s.
Proof.
  intros [Hi Hf Hc Hr] Hn Ho HQ. unfold context_switch. apply wp_bind. eapply wp_proc; [done|].
  apply wp_bind. eapply wp_update; [done|]. apply wp_modify, wp_ret. apply HQ; [|done|done].
  split; [| done|done|].
  - apply (sinv_cpu _ (with_procs _ s)); [done|]. apply (sinv_procs _ _ _ _ _ _ do); [done..|].
    eapply placed_ext; [apply Hi|]. intros p. rewrite lookup_insert. case_decide as Hp; [|done].
    subst. by rewrite Ho.
  - intros d HcL. change (procs _) with (<[old := with_kernel_rsp_saved rsp do]> (procs s)).
    change (cur _) with (cur s). rewrite lookup_insert. case_decide as Hp; [|by apply Hr].
    intros [= <-]. apply (Hr do); [done|]. by rewrite <- Hp.
Qed.

Lemma inv_permanent_switch new s R B L dn E (Q : control → sched → Prop) : inv_at s R B L →
  procs s !! new = Some dn →
  (∀ s', inv_at s' R B L → cur s' = cur s → procs s' = procs s → Q (Switch new) s') →
  wp (permanent_context_switch new) E Q s.
Proof.
  intros [Hi Hf Hc Hr] Hn HQ. unfold permanent_context_switch. apply wp_bind. eapply wp_proc; [done|].
  apply wp_modify, wp_ret. apply HQ; [|done|done]. split; [|done|done|done].
  by apply (sinv_cpu _ s).
Qed.

Lemma inv_cur s R B L : inv_at s R B L → cur s ≠ 0 ∧ ∃ d, procs s !! cur s = Some d.
Proof. intros [Hi _ Hc _]. by eapply in_known. Qed.

Lemma not_idle s R B L : inv_at s R B L → cur s ≠ idle s → cur s ∈ L.
Proof. intros [_ _ [?|?] _]; done. Qed.

(** ** Waking *)

(** What the three public wake operations do: the chosen blocked processes become ready. *)
Definition woke (matches : Process → bool) (once : bool) s s' : Prop :=
  ∃ R B L, inv_at s R B L ∧
    let X := chosen once (to_wake matches (procs s) L) in
    inv_at s' (X ++ R) B L ∧ procs s' = woken X (procs s) ∧ cur s' = cur s.

Lemma wp_wake_locked matches once s R B L : inv_at s R B L →
  wp (_ ← p_lock; _ ← for_processes (wake_if matches once) (); p_unlock) False
    (λ _ s', woke matches once s s') s.
Proof.
  intros Hinv. pose proof Hinv as [Hi Hf Hc Hr]. apply wp_bind, wp_p_lock; [done|]. apply wp_bind.
  eapply wp_wake_loop; [by apply inv_enter| |].
  { intros p d ->%elem_of_singleton HL Hd. destruct (Hr d HL Hd) as [-> | ->]; done. }
  intros s1 X HX Hst Hpr Hi1. destruct (still_cur _ _ Hst) as [Hcur Hidle].
  change (cur (with_sc_lock _ s)) with (cur s) in Hcur. change (idle (with_sc_lock _ s)) with (idle s) in Hidle.
  eapply wp_leave; rewrite ?Hcur, ?Hidle; [done|done| |].
  { intros d' HL. rewrite Hpr, lookup_woken. destruct (inv_cur _ _ _ _ Hinv) as [_ [d Hd]].
    cbn [with_sc_lock procs]. rewrite Hd. intros [= <-]. case_decide as Hin; [|by apply (Hr d)].
    subst X. exfalso. assert (cur s ∈ to_wake matches (procs s) L) as Hw.
    { unfold chosen in Hin. destruct once; [|done]. apply elem_of_take in Hin as (i & Hlk & _). by eapply list_elem_of_lookup_2. }
    apply to_wake_sub in Hw as (_ & d' & Hd' & Hb). destruct (Hr d HL Hd) as [?|?]; congruence. }
  intros s2 Hi2 Hc2 Hpr2. exists R, B, L. split; [done|]. cbn zeta. subst X.
  split; [done|]. split; [by rewrite Hpr2, Hpr|congruence].
Qed.

Lemma wake_single_ok reason s R B L : reason ≠ SLEEP → inv_at s R B L →
  wp (wake_single reason) False (λ _ s', woke (is_waiting_for reason) true s s') s.
Proof. intros Hr Hi. unfold wake_single. rewrite decide_False by done. by eapply wp_wake_locked. Qed.

Lemma wake_all_ok reason s R B L : reason ≠ SLEEP → inv_at s R B L →
  wp (wake_all reason) False (λ _ s', woke (is_waiting_for reason) false s s') s.
Proof. intros Hr Hi. unfold wake_all. rewrite decide_False by done. by eapply wp_wake_locked. Qed.

Lemma wake_mutex_ok mutex s R B L : mutex ≠ 0 → inv_at s R B L →
  wp (wake_mutex mutex) False (λ _ s', woke (is_waiting_for_mutex mutex) false s s') s.
Proof.
  intros Hm Hi. unfold wake_mutex. apply wp_kassert. rewrite (proj2 (Z.eqb_neq mutex 0)) by done.
  cbn [negb]. by eapply wp_wake_locked.
Qed.

(** A wake of sleepers is refused: nothing but the lock is touched. *)
Lemma wp_refused s R B L : inv_at s R B L →
  wp (_ ← p_lock; _ ← mret (); p_unlock) False
    (λ _ s', inv_at s' R B L ∧ procs s' = procs s ∧ cur s' = cur s) s.
Proof.
  intros Hinv. pose proof Hinv as [Hi Hf Hc Hr]. apply wp_bind, wp_p_lock; [done|]. apply wp_bind, wp_ret.
  eapply wp_leave; [exact (inv_enter _ _ _ _ Hinv)|done|done|]. intros s2 Hi2 Hc2 Hpr2. done.
Qed.

(** ** Giving up the CPU *)

(** The state in the critical section once the current process has been put in its new place: the
    CPU is dealing with no one, and picks the next process. *)
Lemma wp_pick_and_switch s R B L {A} (k : Z → M sched A) E (Q : A → sched → Prop) :
  sinv s R B L ∅ →
  (∀ q s' R' B' D, picked (time (clock_reads s)) s R B L ∅ q s' R' B' D →
     sinv s' R' B' L {[q]} → q = idle s' ∨ q ∈ L → wp (k q) E Q s') →
  wp (pick_next_process time ≫= k) E Q s.
Proof.
  intros Hi HQ. apply wp_bind. eapply wp_pick_next; [done|]. intros q s' R' B' D Hpk.
  apply (HQ q s' R' B' D); [done| |by eapply picked_known].
  pose proof (pk_inv _ _ _ _ _ _ _ _ _ _ _ Hpk) as Hi'. by rewrite union_empty_r_L in Hi'.
Qed.

(** Closing the critical section after a switch to [q]. *)
Definition switched (c : control) s' : Prop := inv s' ∧ c = Switch (cur s').

Lemma wp_switch_away rsp old do q s R B L E (Q : control → sched → Prop) : sinv s R B L {[q]} →
  q = idle s ∨ q ∈ L → procs s !! old = Some do →
  (∀ c s', switched c s' → Q c s') →
  wp (_ ← activate_process time q; _ ← p_unlock; context_switch rsp old q) E Q s.
Proof.
  intros Hi Hq Ho HQ. eapply wp_hand_over; [done..|]. intros s1 d Hd Hi1 Hc1 Hpr1.
  assert (∃ do', procs s1 !! old = Some do') as [do' Hdo'].
  { rewrite Hpr1, lookup_insert. case_decide; eauto. }
  eapply (inv_context_switch rsp old q); [done|by rewrite Hpr1, lookup_insert_eq|done|].
  intros s2 Hi2 Hc2 _. apply HQ. split; [by exists R, B, L|]. congruence.
Qed.

(** The CPU was handed to [q] for good: the list of processes is the same, and no other object changed. *)
Record handed L q s (c : control) s' : Prop := {
  ha_inv : ∃ R B, inv_at s' R B L;
  ha_to : c = Switch (cur s') ∧ cur s' = q;
  ha_else p : p ≠ q → procs s' !! p = procs s !! p;
  ha_fixed : same_fixed (procs s) (procs s');
}.

Lemma handed_switched L q s c s' : handed L q s c s' → switched c s'.
Proof. intros [(R & B & Hi) [-> _] _ _]. split; [by exists R, B, L|done]. Qed.

Lemma wp_switch_for_good q s R B L E (Q : control → sched → Prop) : sinv s R B L {[q]} →
  q = idle s ∨ q ∈ L → (∀ c s', handed L q s c s' → Q c s') →
  wp (_ ← activate_process time q; _ ← p_unlock; permanent_context_switch q) E Q s.
Proof.
  intros Hi Hq HQ. eapply wp_hand_over; [done..|]. intros s1 d Hd Hi1 Hc1 Hpr1.
  eapply (inv_permanent_switch q); [done|by rewrite Hpr1, lookup_insert_eq|].
  intros s2 Hi2 Hc2 Hpr2. apply HQ. split; [by exists R, B|split; congruence|..].
  - intros p Hp. rewrite Hpr2, Hpr1. by rewrite lookup_insert_ne.
  - intros p. rewrite Hpr2, Hpr1. destruct (decide (p = q)) as [->|Hp]; [by rewrite lookup_insert_eq, Hd|by rewrite lookup_insert_ne].
Qed.

(** The caller holds the CPU and may have changed its own object since it last ran. *)
Record on_cpu s R B L : Prop := {
  oc_inv : sinv s R B L {[cur s]};
  oc_free : is_free (g_processes_lock s);
  oc_cur : cur s ∈ L;
}.

Lemma inv_on_cpu s R B L : inv_at s R B L → cur s ≠ idle s → on_cpu s R B L.
Proof. intros Hi Hne. pose proof (not_idle _ _ _ _ Hi Hne). by destruct Hi. Qed.

Lemma wp_locked_current {A} (k : Z → M sched A) s R B L E (Q : A → sched → Prop) : on_cpu s R B L →
  (∀ s1, sinv s1 R B L {[cur s]} → cur s1 = cur s → procs s1 = procs s →
     clock_reads s1 = clock_reads s → wp (k (cur s)) E Q s1) →
  wp (_ ← p_lock; c ← in_cpu current_process; k c) E Q s.
Proof.
  intros [Hi Hf Hc] HQ. destruct (in_known _ _ _ _ _ _ Hi (or_intror Hc)) as [Hc0 _].
  apply wp_bind, wp_p_lock; [done|]. apply wp_bind. apply wp_current; [done|].
  change (cur (with_sc_lock _ s)) with (cur s). apply HQ; [by apply sinv_lock|done..].
Qed.

Definition gave_up s (c : control) s' : Prop :=
  inv s' ∧ (c = Return ∧ cur s' = cur s ∨ c = Switch (cur s')).

Lemma switched_gave_up s c s' : switched c s' → gave_up s c s'.
Proof. intros [Hi ->]. split; [done|]. by right. Qed.

(** The object of the process on the CPU is free to change, and the process then goes to the place of
    its new state. *)
Lemma sinv_set s R B L H p d d' : sinv s R B L H → p ∈ H → procs s !! p = Some d → fixed d' = fixed d →
  sinv (with_procs (insert p d') s) R B L H.
Proof.
  intros Hi HpH Hd Hf. apply (sinv_procs _ _ _ _ _ _ d); [done..|]. apply placed_hole; [apply Hi|by left].
Qed.

Lemma sinv_close s R B L p d : sinv s R B L {[p]} → procs s !! p = Some d →
  state d = BLOCKED ∨ state d = DEAD ∨ state d = ZOMBIE → sinv s R B L ∅.
Proof.
  intros [H1 H2 H3 H4 H5 H6 H7] Hd Hs. split; try done.
  replace ∅ with ({[p]} ∖ {[p]} : gset Z) by set_solver. eapply placed_close_other; [done|set_solver|done|].
  by right.
Qed.

Lemma wp_sleep_insert s R B L p d E (Q : unit → sched → Prop) : sinv s R B L {[p]} → p ∈ L →
  procs s !! p = Some d → state d = SLEEPING →
  (∀ v, let s' := with_sleepers v s in
     sinv s' R (mk_node (wake_time_ns d) p :: B) L ∅ → Q () s') →
  wp (in_sleepers (kmin_insert (wake_time_ns d) p)) E Q s.
Proof.
  intros Hi HpL Hd Hs HQ. pose proof (sleepers_small _ _ _ _ _ Hi) as Hsm.
  destruct Hi as [H1 (l & Hl & Ho & Hp) H3 H4 H5 H6 H7]. unfold in_sleepers, kmin_insert. apply wp_zoom.
  eapply wp_mono; [apply (wp_heap_insert Z.ltb _ _ _ l); [done|done|by rewrite Hp]|done|].
  intros [] v (l' & Hl' & Hp' & Ho'). apply HQ. split; try done.
  - exists l'. split; [done|]. split; [done|]. by rewrite Hp', Hp.
  - replace ∅ with ({[p]} ∖ {[p]} : gset Z) by set_solver. apply placed_close_sleep; [done|set_solver|done..].
Qed.

(** The rest of [yield_blocked] once the caller is in its place. *)
Lemma wp_block_rest rsp c d s R B L (Q : control → sched → Prop) : sinv s R B L ∅ → cur s = c → c ∈ L →
  procs s !! c = Some d →
  (∀ r s', inv s' → (r = Return ∧ cur s' = c ∨ r = Switch (cur s')) → Q r s') →
  wp (next ← pick_next_process time;
      if c =? next then _ ← do_resume time c; _ ← p_unlock; mret Return
      else _ ← activate_process time next; _ ← p_unlock; context_switch rsp c next) False Q s.
Proof.
  intros Hi Hc HcL Hd HQ. apply (wp_pick_and_switch _ R B L); [done|]. intros q s1 R' B' D Hpk Hi1 Hq.
  assert (∃ d1, procs s1 !! c = Some d1) as [d1 Hd1].
  { rewrite (pk_procs _ _ _ _ _ _ _ _ _ _ _ Hpk), lookup_woken, Hd. by eexists. }
  destruct (still_cur _ _ (pk_still _ _ _ _ _ _ _ _ _ _ _ Hpk)) as [Hc1 _].
  destruct (Z.eqb_spec c q) as [<-|Hne].
  - apply wp_bind. unfold do_resume. apply wp_bind, wp_get_time. eapply wp_update; [done|].
    apply wp_bind. set (s2 := with_procs _ _).
    assert (cur s2 = c) as Hc2 by (change (cur s1 = c); congruence).
    eapply (wp_leave s2 R' B' L); rewrite ?Hc2.
    + apply (sinv_set (with_reads _ s1) _ _ _ _ _ d1); [by destruct Hi1; split|set_solver|done|done].
    + by right.
    + intros d' _. change (procs s2) with (<[c := resume (time (clock_reads s1)) d1]> (procs s1)).
      rewrite lookup_insert_eq. intros [= <-]. by left.
    + intros s3 Hi3 Hc3 _. apply wp_ret. apply HQ; [by exists R', B', L|]. left. split; [done|congruence].
  - eapply wp_switch_away; [done..|]. intros r s' [Hi' ->]. apply HQ; [done|]. by right.
Qed.

Lemma yield_blocked_ok rsp reason s R B L : on_cpu s R B L →
  wp (yield_blocked time rsp reason) False (gave_up s) s.
Proof.
  intros Hoc. pose proof Hoc as [Hi0 _ HcL]. unfold yield_blocked. eapply wp_locked_current; [done|].
  intros s1 Hi1 Hc1 Hpr1 _. destruct (in_known _ _ _ _ _ _ Hi0 (or_intror HcL)) as [_ [d Hd]].
  rewrite <- Hpr1 in Hd. apply wp_bind. eapply wp_update; [done|].
  assert (sinv (with_procs (insert (cur s) (wait_for reason d)) s1) R B L {[cur s]}) as Hi2.
  { apply (sinv_set _ _ _ _ _ _ d); [done|set_solver|done|done]. }
  apply wp_bind. case_decide as Hr.
  - apply wp_bind. eapply wp_proc; [apply lookup_insert_eq|].
    eapply wp_sleep_insert; [done|done|apply lookup_insert_eq| |].
    { subst. done. }
    intros v s2 Hi3. eapply wp_block_rest; [done|exact Hc1|done|apply lookup_insert_eq|]. by split.
  - apply wp_ret. eapply wp_block_rest; [|exact Hc1|done|apply lookup_insert_eq|by split].
    eapply sinv_close; [done|apply lookup_insert_eq|]. left. cbn. by rewrite decide_False.
Qed.

(** A change of the caller's own object outside the lock. *)
Lemma on_cpu_set s R B L d d' : on_cpu s R B L → procs s !! cur s = Some d → fixed d' = fixed d →
  on_cpu (with_procs (insert (cur s) d') s) R B L.
Proof.
  intros [Hi Hf Hc] Hd Hfx. split; [|done|done]. apply (sinv_set _ _ _ _ _ _ d); [done|set_solver|done..].
Qed.

Lemma wp_sleep_mark ns s R B L E (Q : unit → sched → Prop) : on_cpu s R B L →
  (∀ s' d, on_cpu s' R B L → cur s' = cur s → procs s !! cur s = Some d →
     procs s' = <[cur s := sleep_for (time (clock_reads s)) ns d]> (procs s) → Q () s') →
  wp (sleep_mark time ns) E Q s.
Proof.
  intros Hoc HQ. pose proof Hoc as [Hi _ HcL].
  destruct (in_known _ _ _ _ _ _ Hi (or_intror HcL)) as [Hc0 [d Hd]]. unfold sleep_mark.
  apply wp_bind, wp_current; [done|]. apply wp_bind, wp_get_time. eapply wp_update; [done|].
  apply (HQ _ d); [|done..].
  assert (on_cpu (with_reads (S (clock_reads s)) s) R B L) as Hoc' by (by destruct Hoc as [[] ? ?]; split; [split|..]).
  by apply (on_cpu_set _ _ _ _ d (sleep_for (time (clock_reads s)) ns d) Hoc').
Qed.

Lemma yield_sleep_ns_ok rsp ns s R B L : on_cpu s R B L →
  wp (yield_sleep_ns time rsp ns) False (gave_up s) s.
Proof.
  intros Hoc. unfold yield_sleep_ns. apply wp_bind. eapply wp_sleep_mark; [done|].
  intros s1 d Hoc1 Hc1 _ _. eapply wp_mono; [by eapply yield_blocked_ok|done|].
  intros c s' Hg. unfold gave_up in *. by rewrite <- Hc1.
Qed.

Lemma yield_mutex_ok rsp mutex s R B L : mutex ≠ 0 → on_cpu s R B L →
  wp (yield_mutex time rsp mutex) False (gave_up s) s.
Proof.
  intros Hm Hoc. pose proof Hoc as [Hi _ HcL].
  destruct (in_known _ _ _ _ _ _ Hi (or_intror HcL)) as [Hc0 [d Hd]]. unfold yield_mutex, mutex_mark.
  apply wp_bind, wp_kassert. rewrite (proj2 (Z.eqb_neq mutex 0)) by done. cbn [negb].
  apply wp_bind, wp_current; [done|]. eapply wp_update; [done|].
  assert (on_cpu (with_procs (insert (cur s) (wait_for_mutex mutex d)) s) R B L) as Hoc1 by by eapply on_cpu_set.
  eapply wp_mono; [by eapply yield_blocked_ok|done|]. done.
Qed.

(** ** Ending a process *)

Lemma on_cpu_cli s R B L : on_cpu s R B L → on_cpu (with_sc_cpu (cli (sc_cpu s)) s) R B L.
Proof. intros [Hi Hf Hc]. split; [by apply (sinv_cpu _ s)|done|done]. Qed.

(** The process [c] has ended with the object [d], and another one has the CPU. *)
Record ended L c d s (r : control) s' : Prop := {
  ed_inv : ∃ R B, inv_at s' R B L;
  ed_to : r = Switch (cur s') ∧ cur s' ≠ c;
  ed_left : procs s' !! c = Some d;
  ed_fixed : same_fixed (procs s) (procs s');
}.

Lemma ended_switched L c d s r s' : ended L c d s r s' → switched r s'.
Proof. intros [(R & B & Hi) [-> _] _ _]. split; [by exists R, B, L|done]. Qed.

(** The end of [yield_dead] and [yield_zombie]: the caller is in neither queue. *)
Lemma wp_end_rest c d s R B L (Q : control → sched → Prop) : sinv s R B L ∅ → c ∈ L →
  procs s !! c = Some d → state d = DEAD ∨ state d = ZOMBIE → (∀ r s', ended L c d s r s' → Q r s') →
  wp (p ← pick_next_process time;
      _ ← kassert (negb (c =? p));
      _ ← activate_process time p; _ ← p_unlock; permanent_context_switch p) False Q s.
Proof.
  intros Hi HcL Hd Hs HQ. apply (wp_pick_and_switch _ R B L); [done|]. intros q s1 R' B' D Hpk Hi1 Hq.
  pose proof (si_placed _ _ _ _ _ Hi) as Hpl.
  destruct (pl_out _ _ _ _ _ Hpl c d HcL Hd ltac:(set_solver)) as (HcR & HcB & _).
  assert (c ∉ vals D) as HcD.
  { intros Hin. assert (state d = SLEEPING) as Hsl; [|destruct Hs; congruence].
    apply HcB. rewrite (pk_split _ _ _ _ _ _ _ _ _ _ _ Hpk), vals_app. apply elem_of_app. by left. }
  assert (c ≠ q) as Hcq.
  { intros ->. destruct (pk_ready _ _ _ _ _ _ _ _ _ _ _ Hpk) as [(-> & _)|(HR & _ & _)]; [by apply (si_idle _ _ _ _ _ Hi)|].
    assert (q ∈ vals D ++ R) as [Hin|Hin]%elem_of_app by (rewrite HR; left); [done|].
    apply HcR in Hin. unfold is_ready in Hin. destruct Hs as [Hs|Hs]; by rewrite Hs in Hin. }
  apply wp_kassert. rewrite (proj2 (Z.eqb_neq c q)) by done. cbn [negb].
  eapply wp_switch_for_good; [done..|]. intros r s' [Hinv [Hr Hq'] He Hf]. apply HQ.
  rewrite (pk_procs _ _ _ _ _ _ _ _ _ _ _ Hpk) in He, Hf. split; [done|split; [done|congruence]|..].
  - rewrite He by done. by rewrite woken_elsewhere.
  - eapply same_fixed_trans; [apply same_fixed_woken|done].
Qed.

Lemma yield_dead_ok s R B L : on_cpu s R B L → wp (yield_dead time) False switched s.
Proof.
  intros Hoc%on_cpu_cli. unfold yield_dead. apply wp_modify. eapply wp_locked_current; [done|].
  destruct Hoc as [Hi0 _ HcL]. destruct (in_known _ _ _ _ _ _ Hi0 (or_intror HcL)) as [_ [d Hd]].
  intros s1 Hi1 Hc1 Hpr1 _. rewrite <- Hpr1 in Hd. apply wp_bind. eapply wp_update; [done|].
  eapply wp_end_rest; [|done|apply lookup_insert_eq|by left|intros r s'; apply ended_switched].
  eapply sinv_close; [|apply lookup_insert_eq|by right; left].
  apply (sinv_set _ _ _ _ _ _ d); [done|set_solver|done|done].
Qed.

Lemma wp_yield_zombie s R B L d : on_cpu s R B L → procs s !! cur s = Some d →
  wp (yield_zombie time) False (ended L (cur s) (zombify d) s) s.
Proof.
  intros Hoc%on_cpu_cli Hd. unfold yield_zombie. apply wp_modify. eapply wp_locked_current; [done|].
  destruct Hoc as [Hi0 _ HcL]. change (cur (with_sc_cpu _ s)) with (cur s) in *.
  intros s1 Hi1 Hc1 Hpr1 _. cbn in Hpr1. rewrite <- Hpr1 in Hd. apply wp_bind. eapply wp_update; [done|].
  apply wp_bind. eapply wp_proc; [apply lookup_insert_eq|]. apply wp_bind. set (s2 := with_procs _ _).
  assert (sinv s2 R B L ∅) as Hi2.
  { eapply sinv_close; [|apply lookup_insert_eq|by right; right].
    apply (sinv_set _ _ _ _ _ _ d); [done|set_solver|done|done]. }
  unfold wake_parents. eapply wp_wake_loop; [exact Hi2|set_solver|]. intros s3 X HX Hst Hpr3 Hi3.
  eapply (wp_end_rest _ (zombify d)); [exact Hi3|exact HcL| |by right|].
  - rewrite Hpr3, woken_elsewhere; [apply lookup_insert_eq|]. intros Hin. subst X.
    apply to_wake_sub in Hin as (_ & d' & Hd' & Hb). cbn in Hd'. rewrite lookup_insert_eq in Hd'.
    by injection Hd' as <-.
  - intros r s' [H1 H2 H3 H4]. split; try done. eapply same_fixed_trans; [|done]. rewrite Hpr3.
    eapply same_fixed_trans; [|apply same_fixed_woken]. cbn. rewrite <- Hpr1. by eapply same_fixed_insert.
Qed.

Lemma yield_zombie_ok s R B L : on_cpu s R B L → wp (yield_zombie time) False switched s.
Proof.
  intros Hoc. destruct (in_known _ _ _ _ _ _ (oc_inv _ _ _ _ Hoc) (or_intror (oc_cur _ _ _ _ Hoc))) as [_ [d Hd]].
  eapply wp_mono; [by eapply wp_yield_zombie|done|]. intros r s'. apply ended_switched.
Qed.

(** ** A process replaced by [exec] *)

Lemma wp_enqueue_current s R B L H p d E (Q : unit → sched → Prop) : sinv s R B L H → p ∈ H → p ∈ L →
  procs s !! p = Some d →
  is_ready d = true →
  (∀ s', sinv s' (p :: R) B L (H ∖ {[p]}) → still s s' → procs s' = procs s →
     clock_reads s' = clock_reads s → Q () s') →
  wp (enqueue_if_runnable p) E Q s.
Proof.
  intros Hi HpH HpL Hd Hr HQ. destruct (in_known _ _ _ _ _ _ Hi (or_intror HpL)) as [Hp0 _].
  pose proof (ready_small _ _ _ _ _ Hi) as Hsm. pose proof Hi as [(pol & Hpol & Hrep) H2 H3 H4 H5 H6 H7].
  unfold enqueue_if_runnable. apply wp_bind, wp_idle; [apply H6|].
  rewrite (proj2 (Z.eqb_neq p (idle s))) by (intros ->; by apply H6).
  apply wp_bind. eapply wp_proc; [done|]. rewrite Hr. cbn [negb]. eapply wp_enqueue; [done..|].
  intros pol' Hrep'. apply HQ; [|done..]. split; try done; [by exists pol'|].
  by eapply placed_close_ready.
Qed.

Lemma yield_new_process_ok s R B L : on_cpu s R B L → wp (yield_new_process time) False switched s.
Proof.
  intros Hoc. pose proof Hoc as [Hi0 _ HcL]. unfold yield_new_process. eapply wp_locked_current; [done|].
  intros s1 Hi1 Hc1 Hpr1 _. destruct (in_known _ _ _ _ _ _ Hi0 (or_intror HcL)) as [_ [d Hd]].
  apply wp_bind. eapply wp_pick_next; [done|]. intros q s2 R2 B2 D Hpk.
  pose proof (picked_known _ _ _ _ _ _ _ _ _ _ _ Hpk) as Hq.
  pose proof (pk_inv _ _ _ _ _ _ _ _ _ _ _ Hpk) as Hi2.
  assert (cur s ≠ q) as Hne.
  { intros <-. destruct (pk_ready _ _ _ _ _ _ _ _ _ _ _ Hpk) as [(Hx & _)|(_ & _ & Hx)]; [|set_solver].
    apply (si_idle _ _ _ _ _ Hi1). by rewrite <- Hx. }
  apply wp_kassert. rewrite (proj2 (Z.eqb_neq _ _)) by done. cbn [negb].
  assert (∃ d2, procs s2 !! cur s = Some d2) as [d2 Hd2].
  { rewrite (pk_procs _ _ _ _ _ _ _ _ _ _ _ Hpk), lookup_woken, Hpr1, Hd. by eexists. }
  apply wp_bind. eapply wp_update; [done|]. apply wp_bind.
  eapply wp_enqueue_current; [apply (sinv_set _ _ _ _ _ _ d2); [exact Hi2|set_solver|done|done]|set_solver|done|
    apply lookup_insert_eq|done|].
  intros s3 Hi3 Hst3 Hpr3 _. destruct (still_cur _ _ Hst3) as [_ Hid3].
  eapply wp_switch_for_good; [|by rewrite Hid3|intros r s'; apply handed_switched].
  replace {[q]} with (({[q]} ∪ {[cur s]}) ∖ {[cur s]} : gset Z) by set_solver. done.
Qed.

(** ** Preemption *)

Lemma wp_should_preempt p t s R B L H E (Q : bool → sched → Prop) : sinv s R B L H → p ≠ 0 →
  (∀ b s', sinv s' R B L H → still s s' → procs s' = procs s → clock_reads s' = clock_reads s → Q b s') →
  wp (in_policy (policy_should_preempt p t)) E Q s.
Proof.
  intros [(pol & Hpol & Hrep) H2 H3 H4 H5 H6 H7] Hp HQ. eapply wp_in_policy; [done|].
  eapply wp_mono; [by eapply should_preempt_law|done|]. intros b pol' Hrep'. apply HQ; [|done..].
  split; try done. by exists pol'.
Qed.

(** The invariant survives what is [still]. *)
Lemma inv_still s s' R B L R' B' : inv_at s R B L → still s s' → sinv s' R' B' L {[cur s]} →
  (∀ d, cur s ∈ L → procs s' !! cur s = Some d → ∃ d0, procs s !! cur s = Some d0 ∧ state d = state d0) →
  inv_at s' R' B' L.
Proof.
  intros [Hi Hf Hc Hr] Hst Hi' Hrun. destruct (still_cur _ _ Hst) as [Hcur Hidle].
  split; rewrite ?Hcur, ?Hidle; [done| |done|].
  - by rewrite (st_lock _ _ Hst).
  - intros d HL Hd. destruct (Hrun d HL Hd) as (d0 & Hd0 & ->). by apply Hr.
Qed.

(** A process the CPU is dealing with is not asleep. *)
Lemma hole_not_due s R B L H D B' p : sinv s R B L H → B ≡ₚ D ++ B' → p ∈ H → p ∉ vals D.
Proof.
  intros Hi HB HpH Hin. pose proof (si_placed _ _ _ _ _ Hi) as Hpl.
  assert (p ∈ vals B) as HpB by (rewrite HB, vals_app; apply elem_of_app; by left).
  apply (pl_in _ _ _ _ _ Hpl p); [by apply (pl_BL _ _ _ _ _ Hpl)|done|done].
Qed.

(** The caller of [preempt] stops running but stays ready. *)
Lemma wp_requeue s R B L q d E (Q : unit → sched → Prop) : sinv s R B L ({[q]} ∪ {[cur s]}) →
  q ≠ cur s → cur s = idle s ∨ cur s ∈ L → procs s !! cur s = Some d →
  (cur s ∈ L → state d = RUNNING ∨ state d = NEW) →
  (∀ s' R', sinv s' R' B L {[q]} → idle s' = idle s → is_Some (procs s' !! cur s) → Q () s') →
  wp (_ ← update (cur s) pause; enqueue_if_runnable (cur s)) E Q s.
Proof.
  intros Hi Hne Hc Hd Hrun HQ. apply wp_bind. eapply wp_update; [done|].
  assert (sinv (with_procs (insert (cur s) (pause d)) s) R B L ({[q]} ∪ {[cur s]})) as Hi1.
  { apply (sinv_set _ _ _ _ _ _ d); [done|set_solver|done|]. unfold pause. by case_decide. }
  assert ({[q]} = ({[q]} ∪ {[cur s]}) ∖ {[cur s]} :> gset Z) as Hset by set_solver.
  destruct (decide (cur s ∈ L)) as [HcL|HcL].
  - eapply wp_enqueue_current; [exact Hi1|set_solver|done|apply lookup_insert_eq| |].
    { unfold pause. destruct (Hrun HcL) as [Hs|Hs]; [by rewrite decide_True|].
      rewrite decide_False by (by rewrite Hs). unfold is_ready. by rewrite Hs. }
    intros s2 Hi2 Hst2 Hpr2 _. destruct (still_cur _ _ Hst2) as [_ Hid2]. eapply HQ.
    + by rewrite Hset.
    + done.
    + rewrite Hpr2. cbn. rewrite lookup_insert_eq. by eexists.
  - destruct Hc as [Hc|]; [|done]. unfold enqueue_if_runnable. apply wp_bind, wp_idle.
    { apply (si_idle _ _ _ _ _ Hi). }
    change (idle (with_procs _ s)) with (idle s). rewrite Hc, Z.eqb_refl. apply wp_ret. rewrite <- Hc.
    eapply (HQ _ R); [|done|cbn; rewrite lookup_insert_eq; by eexists].
    destruct Hi1 as [H1 H2 H3 H4 H5 H6 H7]. split; try done. rewrite Hset.
    eapply placed_close_other; [done|set_solver|apply lookup_insert_eq|by left].
Qed.

Lemma wp_preempt_locked rsp s R B L : inv_at s R B L →
  wp (_ ← p_lock; next ← pick_next_process time;
      if cur s =? next then _ ← p_unlock; mret Return else
      _ ← update (cur s) pause; _ ← enqueue_if_runnable (cur s);
      _ ← activate_process time next; _ ← p_unlock; context_switch rsp (cur s) next)
    False (gave_up s) s.
Proof.
  intros Hinv. pose proof Hinv as [Hi Hf Hc Hr]. destruct (inv_cur _ _ _ _ Hinv) as [Hc0 [d Hd]].
  apply wp_bind, wp_p_lock; [done|]. apply wp_bind. eapply wp_pick_next; [by apply inv_enter|].
  intros q s1 R1 B1 D Hpk. pose proof (picked_known _ _ _ _ _ _ _ _ _ _ _ Hpk) as Hq.
  pose proof (pk_inv _ _ _ _ _ _ _ _ _ _ _ Hpk) as Hi1.
  destruct (still_cur _ _ (pk_still _ _ _ _ _ _ _ _ _ _ _ Hpk)) as [Hc1 Hid1].
  change (cur (with_sc_lock _ s)) with (cur s) in Hc1. change (idle (with_sc_lock _ s)) with (idle s) in Hid1.
  assert (procs s1 !! cur s = Some d) as Hd1.
  { rewrite (pk_procs _ _ _ _ _ _ _ _ _ _ _ Hpk), woken_elsewhere; [done|].
    eapply hole_not_due; [exact Hi|apply (pk_split _ _ _ _ _ _ _ _ _ _ _ Hpk)|set_solver]. }
  destruct (Z.eqb_spec (cur s) q) as [<-|Hne].
  - apply wp_bind. rewrite union_idemp_L in Hi1. eapply (wp_leave s1 R1 B1 L); rewrite ?Hc1, ?Hid1; [done|done| |].
    { rewrite Hd1. intros d' HL [= <-]. by apply Hr. }
    intros s2 Hi2 Hc2 _. apply wp_ret. split; [by exists R1, B1, L|]. left. by rewrite Hc2.
  - rewrite <- Hc1 in Hi1, Hne, Hd1. rewrite <- Hc1.
    apply (wp_assoc False (update (cur s1) pause) (λ _, enqueue_if_runnable (cur s1))), wp_bind.
    eapply (wp_requeue s1 R1 B1 L q d); [done|done|by rewrite Hc1, Hid1|done|by rewrite Hc1; eauto|].
    intros s2 R2 Hi2 Hid2 [d2 Hd2]. eapply wp_switch_away; [done|by rewrite Hid2|done|].
    intros c s' Hs. by apply switched_gave_up.
Qed.

Lemma preempt_ok rsp s R B L : inv_at s R B L → wp (preempt time rsp) False (gave_up s) s.
Proof.
  intros Hinv. pose proof Hinv as [Hi Hf Hc Hr]. destruct (inv_cur _ _ _ _ Hinv) as [Hc0 [d Hd]].
  unfold preempt. apply wp_gets. destruct (preemption_enabled _); cbn [negb].
  2: { apply wp_ret. split; [by exists R, B, L|]. by left. }
  apply wp_bind, wp_current; [done|]. apply wp_bind, wp_idle; [apply Hi|]. apply wp_bind.
  destruct (Z.eqb_spec (cur s) (idle s)) as [He|Hne].
  { apply wp_ret. cbn [negb]. by eapply wp_preempt_locked. }
  apply wp_bind, wp_get_time, wp_bind. eapply wp_proc; [done|]. set (s1 := with_reads _ s).
  eapply (wp_should_preempt _ _ s1); [by destruct Hi; split|done|].
  intros b s2 Hi2 Hst2 Hpr2 _.
  assert (inv_at s2 R B L) as Hinv2.
  { eapply (inv_still s s2); [done|by destruct Hst2|done|]. intros d' _. rewrite Hpr2. eauto. }
  destruct (still_cur _ _ Hst2) as [Hc2 _]. change (cur s1) with (cur s) in Hc2.
  destruct b; cbn [negb].
  - rewrite <- Hc2. eapply wp_mono; [by eapply wp_preempt_locked|done|].
    intros c s' Hg. unfold gave_up in *. by rewrite <- Hc2.
  - apply wp_ret. split; [by exists R, B, L|]. by left.
Qed.

Lemma tick_ok rsp s R B L : inv_at s R B L → wp (tick time rsp) False (gave_up s) s.
Proof.
  intros Hinv. pose proof Hinv as [Hi Hf Hc Hr]. unfold tick. apply wp_gets.
  destruct (si_pol _ _ _ _ _ Hi) as (pol & -> & _). apply wp_bind. eapply wp_wake_sleepers; [done|].
  intros s1 D B1 [H1 H2 H3 H4 H5 H6 _]. destruct (still_cur _ _ H4) as [Hc1 _].
  assert (inv_at s1 (vals D ++ R) B1 L) as Hinv1.
  { eapply inv_still; [done..|]. intros d HL. rewrite H5, lookup_woken.
    destruct (procs s !! cur s) as [d0|] eqn:Hd0; [|done]. intros [= <-]. exists d0. split; [done|].
    case_decide as Hin; [|done]. exfalso. eapply (hole_not_due s); [exact Hi|exact H1| |exact Hin]. set_solver. }
  eapply wp_mono; [by eapply preempt_ok|done|]. intros c s' Hg. unfold gave_up in *. by rewrite <- Hc1.
Qed.

(** ** New processes *)

Section add.
Context (new_addr : gmap Z (lnode Z) → Z).
Hypothesis new_addr_fresh : ∀ m, (new_addr m ∉ dom m) ∧ new_addr m ≠ 0.

(** [add_process(new ...)]: the object [d] at the new address [p]. *)
Definition spawn p d : M (sched (P := P)) unit :=
  _ ← modify (with_procs (insert p d));
  add_process new_addr p.

Lemma spawn_ok p d s R B L : inv_at s R B L → p ≠ 0 → procs s !! p = None → is_ready d = true →
  Z.of_nat (length L) + 2 < KV_MAX → spaces_ok (sc_vm s) (<[p := d]> (procs s)) →
  wp (spawn p d) False (λ _ s', inv_at s' (p :: R) B (L ++ [p]) ∧ cur s' = cur s ∧
    procs s' = <[p := d]> (procs s) ∧ ∃ c, sc_vm s' = with_vm_cpu c (sc_vm s)) s.
Proof.
  intros Hinv Hp0 Hfresh Hr Hroom Hsp. pose proof Hinv as [Hi Hf Hc Hrun].
  destruct (inv_cur _ _ _ _ Hinv) as [Hc0 [dc Hdc]]. assert (cur s ≠ p) as Hcp by congruence.
  pose proof (ready_small _ _ _ _ _ Hi) as Hsm.
  destruct Hi as [(pol & Hpol & Hrep) Hsl (ps & Hps & HL) Hbd Hpl Hid _].
  assert (p ∉ L) as HpL by (intros [? ?]%(pl_dom _ _ _ _ _ Hpl); congruence).
  unfold spawn, add_process. apply wp_modify, wp_kassert. rewrite (proj2 (Z.eqb_neq p 0)) by done. cbn [negb].
  apply wp_bind, wp_p_lock; [done|]. apply wp_bind. unfold in_plist. apply wp_zoom.
  eapply wp_mono; [apply (wp_kl_push_back _ new_addr_fresh p _ ps); [done|]|done|].
  { rewrite <- (length_fmap snd), HL. unfold KV_MAX in Hroom. change (2 ^ 60) with 1152921504606846976 in Hroom.
    change (2 ^ 64) with 18446744073709551616. lia. }
  intros [] k [n Hk]. apply wp_bind. eapply wp_enqueue; [done..|]. intros pol' Hrep'.
  set (s1 := with_policy _ _).
  eapply (wp_leave_vm s1 (p :: R) B (L ++ [p])).
  - split; try done.
    + by exists pol'.
    + exists (ps ++ [(n, p)]). split; [done|]. by rewrite fmap_app, HL.
    + rewrite length_app. cbn. lia.
    + apply (placed_add _ _ _ _ _ p d); [by apply placed_hole; [|right]|done|done|set_solver|apply lookup_insert_eq|done].
    + destruct Hid as (Hi0 & HiL & [di Hdi]). split; [done|]. split.
      * rewrite elem_of_app, list_elem_of_singleton. intros [?|Hx]; [done|]. change (idle s = p) in Hx. congruence.
      * apply lookup_insert_is_Some. right. split; [|by eexists]. intros Hx. change (p = idle s) in Hx. congruence.
    + apply (spaces_ok_cpu (sc_vm s)). done.
  - destruct Hc as [Hc|Hc]; [by left|right]. apply elem_of_app. by left.
  - intros d' HcL. change (cur s1) with (cur s) in *. change (procs s1) with (<[p := d]> (procs s)).
    rewrite lookup_insert_ne by done. apply Hrun. apply elem_of_app in HcL as [?|?%list_elem_of_singleton]; done.
  - intros s2 c Hi2 Hc2 Hpr2 Hvm2. split; [done|]. split; [by rewrite Hc2|]. split; [by rewrite Hpr2|by exists c].
Qed.
End add.

(** ** Waiting for a child *)

(** Every process of the list has a parent object that still exists, or none. *)
Definition parents_ok s L : Prop :=
  ∀ p d, p ∈ L → procs s !! p = Some d → parent d ≠ 0 → is_Some (procs s !! parent d).

(** The test of [find_child]: [p] is a child of [me] with the given pid, -1 for any. *)
Definition is_child (m : gmap Z Process) (me : Process) (child p : Z) : bool :=
  match m !! p with
  | Some d => ((child =? -1) || (pid d =? child)) && negb (parent d =? 0) &&
      from_option (λ pp, pid pp =? pid me) false (m !! parent d)
  | None => false
  end.
Definition zombie_at (m : gmap Z Process) (p : Z) : bool := from_option is_zombie false (m !! p).
Definition children (m : gmap Z Process) (me : Process) (child : Z) L : list Z :=
  filter (λ p, is_child m me child p = true) L.
Definition zombies (m : gmap Z Process) L : list Z := filter (λ p, zombie_at m p = true) L.
(** The first zombie among the children, or else the first child. *)
Definition the_child (m : gmap Z Process) (me : Process) (child : Z) L : Z :=
  let cs := children m me child L in
  match head (zombies m cs) with
  | Some z => z
  | None => default 0 (head cs)
  end.

(** [find_child] reads the pid of the parent of [p], and the object of that parent is gone. *)
Definition orphaned (m : gmap Z Process) (child p : Z) : bool :=
  match m !! p with
  | Some d => ((child =? -1) || (pid d =? child)) && negb (parent d =? 0) && bool_decide (m !! parent d = None)
  | None => false
  end.
(** The search comes to such a process before a zombie child ends it. *)
Fixpoint stale_parent (m : gmap Z Process) (me : Process) (child : Z) L : bool :=
  match L with
  | [] => false
  | p :: L' => orphaned m child p || (negb (is_child m me child p && zombie_at m p) && stale_parent m me child L')
  end.

Lemma parents_ok_fresh s me child L : parents_ok s L → stale_parent (procs s) me child L = false.
Proof.
  induction L as [|p L IH]; intros Hp; [done|]. cbn [stale_parent]. rewrite IH by (intros q d Hq; apply Hp; by right).
  rewrite andb_false_r, orb_false_r. unfold orphaned. destruct (procs s !! p) as [d|] eqn:Hd; [|done].
  destruct (Z.eqb_spec (parent d) 0) as [|Hn]; [by rewrite andb_false_r|].
  destruct (Hp p d) as [e He]; [left|done|done|]. rewrite (bool_decide_false _) by congruence. apply andb_false_r.
Qed.

Lemma children_app m me child L1 L2 : children m me child (L1 ++ L2) =
  children m me child L1 ++ children m me child L2.
Proof. apply filter_app. Qed.

Lemma head_app {A} (l k : list A) : head (l ++ k) = match head l with Some x => Some x | None => head k end.
Proof. by destruct l. Qed.

Lemma wp_find_child_body parent_ me child x acc d s (Q : bool * Z → sched → Prop) :
  procs s !! x = Some d → procs s !! parent_ = Some me → orphaned (procs s) child x = false →
  Q (if is_child (procs s) me child x then
       if zombie_at (procs s) x then (true, x) else (false, if acc =? 0 then x else acc)
     else (false, acc)) s →
  wp (find_child_body parent_ child x acc) False Q s.
Proof.
  intros Hd Hme Hpar HQ. unfold find_child_body. apply wp_bind. eapply wp_proc; [done|].
  unfold is_child, zombie_at in HQ. unfold orphaned in Hpar. rewrite Hd in HQ, Hpar. cbn [from_option] in HQ.
  replace (negb (child =? -1) && negb (pid d =? child)) with (negb ((child =? -1) || (pid d =? child)))
    by (by destruct (child =? -1), (pid d =? child)).
  destruct ((child =? -1) || (pid d =? child)); cbn [negb andb] in *; [|done].
  destruct (Z.eqb_spec (parent d) 0) as [|Hp]; cbn [negb andb] in *; [done|].
  apply bool_decide_eq_false in Hpar. destruct (procs s !! parent d) as [pp|] eqn:Hpp; [|done]. cbn [from_option] in HQ.
  apply wp_bind. eapply wp_proc; [done|]. apply wp_bind. eapply wp_proc; [done|].
  destruct (pid pp =? pid me); cbn [negb]; [|done]. by destruct (is_zombie d).
Qed.

Lemma wp_find_child s L parent_ me child (Q : Z → sched → Prop) : listed s L → 0 ∉ L →
  (∀ p, p ∈ L → is_Some (procs s !! p)) → stale_parent (procs s) me child L = false → procs s !! parent_ = Some me →
  Q (the_child (procs s) me child L) s → wp (find_child parent_ child) False Q s.
Proof.
  intros Hli Hnz Hdom Hpar Hme HQ. unfold find_child.
  set (cs := children (procs s) me child). set (zs := zombies (procs s)).
  set (Inv := λ (pre : list Z) (acc : Z) s', s' = s ∧ acc = default 0 (head (cs pre)) ∧ zs (cs pre) = [] ∧
    ∀ post, L = pre ++ post → stale_parent (procs s) me child post = false).
  apply (wp_for_processes _ Inv _ L).
  - intros pre x post acc s1 HL (-> & -> & Hz & Hst). specialize (Hst _ HL). cbn [stale_parent] in Hst.
    apply orb_false_iff in Hst as [Hor Hst].
    assert (x ∈ L) as HxL by (rewrite HL; apply elem_of_app; right; left).
    assert (∀ y, y ∈ L → y ≠ 0) as Hy0 by (intros y Hy ->; done).
    destruct (Hdom x HxL) as [d Hd]. eapply wp_find_child_body; [done|done|done|].
    assert (cs (x :: post) = if is_child (procs s) me child x then x :: cs post else cs post) as Hxs.
    { unfold cs, children. rewrite filter_cons. by destruct (is_child _ _ _ x). }
    assert (cs (pre ++ [x]) = cs pre ++ if is_child (procs s) me child x then [x] else []) as Hcs.
    { unfold cs, children. rewrite filter_app, filter_cons, filter_nil. by destruct (is_child _ _ _ x). }
    destruct (is_child _ _ _ x) eqn:Hch; [destruct (zombie_at _ x) eqn:Hzx|]; cbn [fst snd].
    + unfold the_child in HQ. fold cs in HQ. rewrite HL in HQ. unfold cs in HQ. rewrite children_app in HQ.
      fold cs zs in HQ. unfold zs, zombies in HQ, Hz. rewrite filter_app, Hz, Hxs, filter_cons in HQ.
      by rewrite decide_True in HQ.
    + split; [done|]. rewrite Hcs. split; [|split].
      * rewrite head_app. destruct (cs pre) as [|y l] eqn:Hp; [done|]. cbn.
        rewrite (proj2 (Z.eqb_neq y 0)); [done|]. apply Hy0. rewrite HL. apply elem_of_app. left.
        assert (y ∈ cs pre) as Hy by (rewrite Hp; left). by apply list_elem_of_filter in Hy as [_ ?].
      * unfold zs, zombies in *. rewrite filter_app, Hz, filter_cons, filter_nil. by rewrite decide_False by congruence.
      * intros post'. rewrite HL, <- app_assoc. intros [= <-]%app_inv_head. done.
    + split; [done|]. rewrite Hcs, app_nil_r. do 2 (split; [done|]). intros post'. rewrite HL, <- app_assoc.
      intros [= <-]%app_inv_head. done.
  - by intros pre acc s' (-> & _).
  - intros acc s' (-> & -> & Hz & _). unfold the_child in HQ. fold cs zs in HQ. by rewrite Hz in HQ.
  - split; [done|]. split; [done|]. split; [done|]. intros post HL. by rewrite HL in Hpar.
Qed.

(** The search at such a process is an access through the dangling pointer. *)
Lemma find_child_body_faults parent_ child x acc s : orphaned (procs s) child x = true →
  find_child_body parent_ child x acc s = Fault.
Proof.
  unfold orphaned, find_child_body, proc. intros Ho. mrun. destruct (procs s !! x) as [d|]; [|done].
  apply andb_true_iff in Ho as [[Hc Hp]%andb_true_iff Hn]. cbn [of_option].
  replace (negb (child =? -1) && negb (pid d =? child)) with (negb ((child =? -1) || (pid d =? child)))
    by (by destruct (child =? -1), (pid d =? child)).
  rewrite Hc. cbn [negb]. apply negb_true_iff in Hp. rewrite Hp. apply bool_decide_eq_true in Hn. by rewrite Hn.
Qed.

Lemma scan_faults s parent_ me child post : ∀ pre acc, listed s (pre ++ post) →
  (∀ p, p ∈ post → is_Some (procs s !! p)) → procs s !! parent_ = Some me →
  stale_parent (procs s) me child post = true →
  scan (length post) (length pre) (find_child_body parent_ child) acc s = Fault.
Proof.
  induction post as [|x post IH]; intros pre acc Hli Hdom Hme Hst; [done|]. cbn [length scan stale_parent] in *.
  destruct Hli as (ps & Hrep & Hps). assert (ps.*2 !! length pre = Some x) as Hx by (rewrite Hps; by apply list_lookup_middle).
  rewrite list_lookup_fmap in Hx. destruct (ps !! length pre) as [[a y]|] eqn:Hy; [|done]. injection Hx as ->.
  unfold gets at 1. mrun. rewrite (lr_size _ _ Hrep), <- (length_fmap snd ps), Hps, length_app. cbn [length].
  rewrite (proj2 (Z.ltb_lt _ _)) by lia.
  destruct (wp_total _ _ _ (wp_kl_at (length pre) a x _ ps Hrep Hy)) as (k & b & Hat & -> & ->).
  unfold in_plist, zoom. rewrite Hat. replace (with_plist _ s) with s by by destruct s.
  destruct (orphaned (procs s) child x) eqn:Ho; [by rewrite find_child_body_faults|]. cbn [orb] in Hst.
  destruct (Hdom x) as [d Hd]; [left|].
  assert (wp (find_child_body parent_ child x acc) False (λ r s', s' = s ∧
    r.1 = is_child (procs s) me child x && zombie_at (procs s) x) s) as Hb.
  { eapply wp_find_child_body; [done..|]. by destruct (is_child _ _ _ x), (zombie_at _ x). }
  destruct (wp_total _ _ _ Hb) as (s' & [stop acc'] & -> & -> & Hs).
  cbn [fst] in Hs. rewrite <- Hs in Hst. destruct stop; [done|].
  replace (S (length pre)) with (length (pre ++ [x])) by (rewrite length_app; cbn; lia).
  apply IH; [exists ps; by rewrite <- app_assoc|intros p Hp; apply Hdom; by right|done|done].
Qed.

Lemma the_child_in m me child L : the_child m me child L = 0 ∨ the_child m me child L ∈ L.
Proof.
  unfold the_child. destruct (head _) as [z|] eqn:Hz.
  - right. apply head_Some_elem_of in Hz. apply list_elem_of_filter in Hz as [_ Hz].
    by apply list_elem_of_filter in Hz as [_ ?].
  - destruct (children m me child L) as [|c cs] eqn:Hc; [by left|right]. cbn.
    assert (c ∈ children m me child L) as Hin by (rewrite Hc; left). by apply list_elem_of_filter in Hin as [_ ?].
Qed.

(** What one round of waiting returns: a status with the caller still running, or nothing after a
    switch. *)
Definition waited s (r : control * option Z) s' : Prop :=
  inv s' ∧ match r with
           | (Return, Some _) => cur s' = cur s
           | (Switch q, None) => q = cur s'
           | _ => False
           end.

Lemma wp_reap_child {A} (a : A) c dc z dz s R B L (Q : A → sched → Prop) : sinv s R B L {[c]} → cur s = c →
  c ∈ L → procs s !! c = Some dc → z ∈ L → z ≠ c → procs s !! z = Some dz → state dz = ZOMBIE →
  (∀ s', inv_at s' R B L → cur s' = c →
     procs s' = <[c := resume (time (clock_reads s)) dc]> (<[z := kill dz]> (procs s)) → Q a s') →
  wp (_ ← update z kill; _ ← do_resume time c; _ ← p_unlock; mret a) False Q s.
Proof.
  intros Hi Hc HcL Hdc HzL Hzc Hdz Hst HQ. apply wp_bind. eapply wp_update; [done|].
  set (s1 := with_procs _ s). assert (procs s1 !! c = Some dc) as Hdc1.
  { cbn. by rewrite lookup_insert_ne. }
  apply wp_bind. unfold do_resume. apply wp_bind, wp_get_time. eapply wp_update; [done|].
  assert (sinv s1 R B L {[c]}) as Hi1.
  { apply (sinv_procs _ _ _ _ _ _ dz); [done..|]. eapply placed_kill; [apply Hi|done|set_solver|done|..].
    - apply not_ready. tauto.
    - congruence.
    - apply not_ready. by right; right; left.
    - done.
    - done. }
  set (s2 := with_procs _ _). assert (cur s2 = c) as Hc2 by exact Hc.
  apply wp_bind. eapply (wp_leave s2 R B L); rewrite ?Hc2.
  - apply (sinv_set (with_reads _ s1) _ _ _ _ _ dc); [by destruct Hi1; split|set_solver|done..].
  - by right.
  - intros d' _. cbn. rewrite lookup_insert_eq. intros [= <-]. by left.
  - intros s3 Hi3 Hc3 Hpr3. apply wp_ret, HQ; [done|congruence|done].
Qed.

(** The result of a round: [-ECHILD] without children, the exit status of a zombie child, which is
    then dead, and otherwise a switch away. *)
Definition wait_result s L child (r : control * option Z) s' : Prop :=
  ∃ me, procs s !! cur s = Some me ∧
  let c := the_child (procs s) me child L in
  (c = 0 → r = (Return, Some (- ECHILD)) ∧ procs s' = procs s) ∧
  (∀ dc, c ≠ 0 → procs s !! c = Some dc → state dc = ZOMBIE →
     r = (Return, Some (exit_status dc)) ∧ (state <$> procs s' !! c) = Some DEAD) ∧
  (∀ dc, c ≠ 0 → procs s !! c = Some dc → state dc ≠ ZOMBIE → r.2 = None).

Lemma yield_to_child_run rsp child s R B L : inv_at s R B L → cur s ≠ idle s →
  (∀ me, procs s !! cur s = Some me → stale_parent (procs s) me child L = false) →
  wp (yield_to_child time rsp child) False
    (λ r s', waited s r s' ∧ wait_result s L child r s') s.
Proof.
  intros Hinv Hne Hpar. pose proof (inv_on_cpu _ _ _ _ Hinv Hne) as Hoc. pose proof Hoc as [Hi0 _ HcL].
  destruct (inv_cur _ _ _ _ Hinv) as [Hc0 [me Hme]]. pose proof (iv_run _ _ _ _ Hinv me HcL Hme) as Hrun.
  unfold yield_to_child. eapply wp_locked_current; [done|]. intros s1 Hi1 Hc1 Hpr1 _.
  apply wp_bind. pose proof (si_placed _ _ _ _ _ Hi1) as Hpl1.
  eapply (wp_find_child s1 L _ me); [apply Hi1|apply Hpl1|apply Hpl1|rewrite Hpr1; by apply Hpar|by rewrite Hpr1|].
  rewrite Hpr1. set (c := the_child _ _ _ _). destruct (Z.eqb_spec c 0) as [Hz|Hz].
  { apply wp_bind. eapply (wp_leave s1 R B L); rewrite ?Hc1; [done|by right|by rewrite Hpr1; apply Hinv|].
    intros s2 Hi2 Hc2 Hpr2. apply wp_ret. split; [split; [by exists R, B, L|congruence]|].
    exists me. split; [done|]. fold c. split_and!; [|done|done]. intros _. split; [done|congruence]. }
  assert (c ∈ L) as HcinL by (destruct (the_child_in (procs s) me child L); [done|done]).
  destruct (pl_dom _ _ _ _ _ Hpl1 c HcinL) as [dc Hdc]. apply wp_bind. eapply wp_proc; [done|].
  destruct (is_zombie dc) eqn:Hzo; [apply bool_decide_eq_true_1 in Hzo|apply bool_decide_eq_false_1 in Hzo].
  - assert (c ≠ cur s) as Hcc by (intros Hcc; rewrite Hcc, Hpr1 in Hdc; destruct Hrun; congruence).
    eapply (wp_reap_child _ (cur s) me c dc s1); [done|done|done|by rewrite Hpr1|done..|].
    intros s' Hi' Hc' Hpr'. split; [split; [by exists R, B, L|done]|].
    exists me. split; [done|]. fold c. rewrite <- Hpr1. split_and!; [done| |]; intros dc' _ Hdc' Hst';
      rewrite Hdc in Hdc'; injection Hdc' as <-; [|done].
    split; [done|]. by rewrite Hpr', lookup_insert_ne, lookup_insert_eq.
  - apply wp_bind. eapply wp_update; [by rewrite Hpr1|]. set (s2 := with_procs _ s1).
    assert (sinv s2 R B L ∅) as Hi2.
    { eapply sinv_close; [|apply lookup_insert_eq|by left].
      apply (sinv_set _ _ _ _ _ _ me); [done|set_solver|by rewrite Hpr1|done]. }
    apply (wp_pick_and_switch _ R B L); [done|]. intros q s3 R3 B3 D Hpk Hi3 Hq.
    eapply (wp_hand_over q s3 R3 B3 L); [done..|]. intros s4 dq Hdq Hi4 Hc4 Hpr4.
    assert (∃ do, procs s4 !! cur s = Some do) as [do Hdo].
    { rewrite Hpr4, lookup_insert. case_decide; [by eexists|].
      rewrite (pk_procs _ _ _ _ _ _ _ _ _ _ _ Hpk), lookup_woken. cbn. rewrite lookup_insert_eq. by eexists. }
    apply wp_bind. eapply (inv_context_switch rsp (cur s) q); [done|by rewrite Hpr4, lookup_insert_eq|done|].
    intros s5 Hi5 Hc5 _. apply wp_ret. split; [split; [by exists R3, B3, L|congruence]|].
    exists me. split; [done|]. fold c. rewrite <- Hpr1. split_and!; [done| |done].
    intros dc' _ Hdc' Hnz. congruence.
Qed.

Lemma yield_to_child_ok rsp child s R B L : inv_at s R B L → cur s ≠ idle s → parents_ok s L →
  wp (yield_to_child time rsp child) False
    (λ r s', waited s r s' ∧ wait_result s L child r s') s.
Proof. intros Hinv Hne Hpar. apply (yield_to_child_run rsp child s R B L Hinv Hne). intros me _. by apply parents_ok_fresh. Qed.

Lemma yield_to_child_faults rsp child s R B L me : inv_at s R B L → cur s ≠ idle s → procs s !! cur s = Some me →
  stale_parent (procs s) me child L = true → yield_to_child time rsp child s = Fault.
Proof.
  intros Hinv Hne Hme Hst. pose proof (inv_on_cpu _ _ _ _ Hinv Hne) as [Hi0 Hf HcL].
  destruct (in_known _ _ _ _ _ _ Hi0 (or_intror HcL)) as [Hc0 _].
  set (s1 := with_sc_lock (masked (sc_cpu s), held_from (sc_cpu s)) s).
  assert (p_lock s = Ok (s1, ())) as Rl by (unfold p_lock, zoom; by rewrite lock_free).
  destruct (wp_total _ _ _ (wp_current s1 False (λ c s', c = cur s ∧ s' = s1) Hc0 (conj eq_refl eq_refl))) as (s' & c & Rc & -> & ->).
  unfold yield_to_child. rewrite (bind_ok _ _ _ _ _ Rl), (bind_ok _ _ _ _ _ Rc). unfold mbind, M_bind.
  unfold find_child, for_processes. unfold gets at 1. mrun.
  pose proof (si_list _ _ _ _ _ Hi0) as Hli. destruct Hli as (ps & Hrep & Hps). cbn [s1 with_sc_lock g_processes].
  rewrite (lr_size _ _ Hrep), Nat2Z.id, <- (length_fmap snd), Hps.
  erewrite (scan_faults s1 _ me child L [] 0); [done|by exists ps|apply (si_placed _ _ _ _ _ Hi0)|done|done].
Qed.
End operations.
