(* ===== verification/SchedTheorems.v ===== *)
(** * Theorems about the scheduler

    The reaper, which composes with the teardown of address spaces of [Vmm.v]; the invariant over
    arbitrary sequences of scheduler operations; the round-robin policy; and what the operations do
    to the processes they are meant for. *)

From stdpp Require Import relations.
From S2P Require Import Prelude Cpu Spinlock Pmm Vmm VmmTree VmmProofs VmmFree VmmSpace.
From S2P Require Import VmmTheorems KVector KHeap KList Process SchedInv Scheduler.
From S2P Require Import SchedProofs SchedOps.

(** ** Destroying a process *)

Lemma hhdm_back v x : 0 ≤ x < 2 ^ 64 → hhdm_ptov v (hhdm_vtop v x) = x.
Proof.
  intros Hx. unfold hhdm_ptov, hhdm_vtop, wrap. rewrite Zplus_mod_idemp_l.
  replace (x - hhdm_offset v + hhdm_offset v) with x by lia. by apply Z.mod_small.
Qed.

Lemma user_root_delete v v' m p d r : kernel_pml4 v' = kernel_pml4 v → hhdm_offset v' = hhdm_offset v →
  spaces_ok v m → m !! p = Some d → pml4 d ≠ kernel_pml4 v →
  minus_root (user_root v m) (hhdm_vtop v (pml4 d)) r ↔ user_root v' (delete p m) r.
Proof.
  intros Hk Ho [_ Hw Hinj] Hd Hne. unfold minus_root, user_root.
  assert (∀ x, hhdm_vtop v' x = hhdm_vtop v x) as Hv by (intros; unfold hhdm_vtop; by rewrite Ho).
  setoid_rewrite Hv. rewrite Hk. split.
  - intros [(q & e & He & Hek & ->) Hr]. exists q, e. split; [|done]. apply lookup_delete_Some.
    split; [|done]. intros ->. congruence.
  - intros (q & e & [Hpq He]%lookup_delete_Some & Hek & ->). split; [by exists q, e|].
    intros Hr. apply Hpq. apply (Hinj p q d e); [done..| |done].
    pose proof (Hw p d Hd). pose proof (Hw q e He).
    rewrite <- (hhdm_back v (pml4 d)), <- (hhdm_back v (pml4 e)) by lia. by rewrite Hr.
Qed.

Lemma spaces_ok_delete_kernel v m p d : spaces_ok v m → m !! p = Some d → pml4 d = kernel_pml4 v →
  spaces_ok v (delete p m).
Proof.
  intros [Hsys Hw Hinj] Hd Hk. split.
  - eapply sys_ok_roots; [|exact Hsys]. intros r. split; intros (q & e & He & Hek & ->); exists q, e.
    + split; [|done]. apply lookup_delete_Some. split; [|done]. intros ->. congruence.
    + apply lookup_delete_Some in He as [_ ?]. done.
  - intros q e [_ He]%lookup_delete_Some. by apply (Hw q).
  - intros q1 q2 e1 e2 [_ H1]%lookup_delete_Some [_ H2]%lookup_delete_Some. by apply Hinj.
Qed.

(** The frame [f] holds a page or a table of the address space of [d]. *)
Definition in_space (v : vmm) (d : Process) (f : Z) : Prop :=
  pml4 d ≠ kernel_pml4 v ∧ ∃ l, user_path (get_kernel_pml4_index v) l ∧
    walk (phys v) (hhdm_vtop v (pml4 d)) l = Some f.

(** Between [v] and [v'] frames were only given back. *)
Record released_only (v v' : vmm) : Prop := {
  ro_cpu : vm_cpu v' = vm_cpu v;
  ro_pml4 : kernel_pml4 v' = kernel_pml4 v;
  ro_hhdm : hhdm_offset v' = hhdm_offset v;
  ro_free g : 0 ≤ g → frame_free (vm_pmm v) g = true → frame_free (vm_pmm v') g = true;
}.

Lemma released_trans v1 v2 v3 : released_only v1 v2 → released_only v2 v3 → released_only v1 v3.
Proof. intros [A1 A2 A3 A4] [B1 B2 B3 B4]. split; [congruence..|]. auto. Qed.

Section theorems.
Context {P : Type} `{!SchedulerPolicy P, !PolicyLaws P}.
Implicit Types (s : sched (P := P)) (R L X : list Z) (B D : list (node Z)) (H : gset Z) (p q : Z)
  (d : Process) (E : Prop).

Lemma wp_close_fds fds s E (Q : unit → sched → Prop) : 0 ∉ fds → Q () s →
  wp (for_each fds close_fd) E Q s.
Proof.
  induction fds as [|fd fds IH]; [done|]. intros [Hne Hfds]%not_elem_of_cons HQ. cbn [for_each].
  apply wp_bind. unfold close_fd. rewrite (proj2 (Z.eqb_neq fd 0)) by done. apply wp_ret. by apply IH.
Qed.

(** [delete p]: the address space is given back, if the process had one of its own. *)
Lemma wp_delete_process p d s E (Q : unit → sched → Prop) : spaces_ok (sc_vm s) (procs s) →
  procs s !! p = Some d → 0 ∉ fd_table d →
  (∀ v, spaces_ok v (delete p (procs s)) → released_only (sc_vm s) v →
     (∀ f, in_space (sc_vm s) d f → 0 ≤ frame_at f ∧ frame_free (vm_pmm v) (frame_at f) = true) →
     (∀ q e f, q ≠ p → procs s !! q = Some e → in_space (sc_vm s) e f → in_space v e f) →
     Q () (with_procs (delete p) (with_vm v s))) →
  wp (delete_process p) E Q s.
Proof.
  intros Hsp Hd Hfd HQ. unfold delete_process, terminate. apply wp_bind, wp_bind. eapply wp_proc; [done|].
  apply wp_bind, wp_close_fds; [done|]. unfold in_vm. apply wp_zoom.
  pose proof (so_pml4 _ _ Hsp p d Hd) as Hw.
  destruct (decide (pml4 d = kernel_pml4 (sc_vm s))) as [Hk|Hk].
  - unfold free_user_pml4. apply wp_gets. rewrite Hk, Z.eqb_refl. apply wp_ret.
    eapply (HQ (sc_vm s)); [by eapply spaces_ok_delete_kernel|done| |done].
    by intros f [? _].
  - destruct (free_user_pml4_sys (sc_vm s) (user_root (sc_vm s) (procs s)) (hhdm_vtop (sc_vm s) (pml4 d)))
      as (v & F & Hrun & Hres & Hsys & _ & HF & _ & Hfree & _ & _ & Hnn & Hwalk & _); [apply Hsp|by exists p, d|].
    rewrite hhdm_back in Hrun by lia. unfold wp. rewrite Hrun. destruct Hres as [Hcpu _ Hpm Ho].
    apply (HQ v); [|split; [done..|]| |].
    + split.
      * eapply sys_ok_roots; [|exact Hsys]. intros r. by apply user_root_delete.
      * intros q e [_ He]%lookup_delete_Some. by apply (so_pml4 _ _ Hsp q).
      * rewrite Hpm. intros q1 q2 e1 e2 [_ H1]%lookup_delete_Some [_ H2]%lookup_delete_Some. by apply (so_inj _ _ Hsp).
    + intros g Hg Hgf. by rewrite Hfree, Hgf, orb_true_r.
    + intros f [_ Hl]. apply HF in Hl. pose proof (Hnn f Hl). split; [done|].
      rewrite Hfree by done. apply orb_true_iff. left. apply bool_decide_eq_true_2. by apply list_elem_of_fmap_2.
    + intros q e f Hqp He (Hek & l & Hl & Hwl). unfold in_space, get_kernel_pml4_index, hhdm_vtop in *.
      rewrite Hpm, Ho. split; [done|]. exists l. split; [done|]. rewrite Hwalk; [done|by exists q, e| |done].
      intros Hr. apply Hqp. pose proof (so_pml4 _ _ Hsp q e He).
      apply (so_inj _ _ Hsp q p e d); [done..| |done].
      rewrite <- (hhdm_back (sc_vm s) (pml4 d)), <- (hhdm_back (sc_vm s) (pml4 e)) by lia.
      unfold hhdm_vtop. by rewrite Hr.
Qed.

(** ** The reaper *)

Definition dead_at (m : gmap Z Process) (p : Z) : bool := from_option is_dead false (m !! p).
Definition alive (m : gmap Z Process) L : list Z := filter (λ p, dead_at m p = false) L.
Definition buried (m : gmap Z Process) L : gmap Z Process :=
  filter (λ x, ¬ (x.1 ∈ L ∧ is_dead x.2 = true)) m.

(** No dead process has a closed descriptor in its table. *)
Definition fds_ok s L : Prop :=
  ∀ p d, p ∈ L → procs s !! p = Some d → is_dead d = true → 0 ∉ fd_table d.

Lemma buried_skip m x L : dead_at m x = false → buried m (x :: L) = buried m L.
Proof.
  intros Hx. apply map_filter_ext. intros p d Hd. cbn. rewrite elem_of_cons. split; [tauto|].
  intros Hn [[->|?] Hdd]; [|tauto]. unfold dead_at in Hx. rewrite Hd in Hx. cbn in Hx. congruence.
Qed.

Lemma buried_dead m x L d : m !! x = Some d → is_dead d = true → x ∉ L →
  buried m (x :: L) = buried (delete x m) L.
Proof.
  intros Hd Hdd HxL. apply map_eq. intros p. apply option_eq. intros e.
  unfold buried. rewrite !map_lookup_filter_Some, lookup_delete_Some. cbn. rewrite elem_of_cons.
  split; [intros [He Hn]|intros [[Hne He] Hn]].
  - split; [split; [|done]|tauto]. intros ->. apply Hn. split; [by left|]. congruence.
  - split; [done|]. intros [[->|?] ?]; tauto.
Qed.

Lemma buried_nil m : buried m [] = m.
Proof. apply map_filter_id. intros p d _ [Hin _]. by apply not_elem_of_nil in Hin. Qed.

Lemma alive_delete m x L : x ∉ L → alive (delete x m) L = alive m L.
Proof.
  unfold alive. induction L as [|y L IH]; [done|]. intros [Hne HxL]%not_elem_of_cons.
  rewrite !filter_cons, IH by done. unfold dead_at. by rewrite lookup_delete_ne.
Qed.

Lemma listed_split s pre x post : listed s (pre ++ x :: post) →
  ∃ ps1 n ps2, kl_rep (g_processes s) (ps1 ++ (n, x) :: ps2) ∧ ps1.*2 = pre ∧ ps2.*2 = post.
Proof.
  intros (ps & Hrep & Hps). apply fmap_app_inv in Hps as (ps1 & ps2 & H1 & H2 & ->).
  destruct ps2 as [|[n y] ps2]; [done|]. cbn in H2. injection H2 as <- H2. by exists ps1, n, ps2.
Qed.

(** One dead process leaves the list and the heap of objects. *)
Lemma wp_bury pre x post d s R B self (Q : unit → sched → Prop) : sinv s R B (pre ++ x :: post) {[self]} →
  procs s !! x = Some d → is_dead d = true → x ≠ self → 0 ∉ fd_table d →
  (∀ s', sinv s' R B (pre ++ post) {[self]} → procs s' = delete x (procs s) →
     g_processes_lock s' = g_processes_lock s → released_only (sc_vm s) (sc_vm s') →
     (∀ f, in_space (sc_vm s) d f → 0 ≤ frame_at f ∧ frame_free (vm_pmm (sc_vm s')) (frame_at f) = true) →
     (∀ q e f, q ≠ x → procs s !! q = Some e → in_space (sc_vm s) e f → in_space (sc_vm s') e f) →
     Q () s') →
  wp (_ ← delete_process x; _ ← in_plist (kl_erase (length pre)); mret ()) False Q s.
Proof.
  intros Hi Hd Hdead Hself Hfd HQ. pose proof Hi as [Hpol Hsl Hli Hsm Hpl Hid Hsp].
  apply bool_decide_eq_true_1 in Hdead.
  apply wp_bind. eapply wp_delete_process; [done..|]. intros v Hspv Hro Hgone Hothers. apply wp_bind.
  pose proof (ro_cpu _ _ Hro) as Hcpu.
  destruct (listed_split _ _ _ _ Hli) as (ps1 & n & ps2 & Hrep & H1 & H2).
  unfold in_plist. apply wp_zoom. cbn [with_procs with_vm g_processes].
  assert (length pre = length ps1) as Hlen by (by rewrite <- H1, length_fmap).
  rewrite Hlen. eapply wp_mono; [apply (wp_kl_erase _ _ _ Hrep)|done|].
  { rewrite <- (length_fmap snd), fmap_app, fmap_cons, H1, H2. unfold KV_MAX in Hsm. cbn [snd].
    change (2 ^ 60) with 1152921504606846976 in Hsm. change (2 ^ 64) with 18446744073709551616. lia. }
  intros b k [_ Hk]. rewrite delete_middle in Hk. apply wp_ret. apply HQ; [|done..].
  split; try done.
  - exists (ps1 ++ ps2). split; [done|]. by rewrite fmap_app, H1, H2.
  - revert Hsm. rewrite !length_app. cbn. lia.
  - eapply placed_erase; [exact Hpl|set_solver|done| |].
    + apply not_ready. tauto.
    + congruence.
  - destruct Hid as (Hi0 & HiL & Hidom). unfold idle, sc_cpu. cbn [with_plist with_procs with_vm sc_vm procs].
    rewrite Hcpu. change (idle_process_ptr (percpu (vm_cpu (sc_vm s)))) with (idle s).
    split; [done|]. split.
    + intros Hin. apply HiL. apply elem_of_app in Hin as [?|?]; apply elem_of_app; [by left|right]. by right.
    + rewrite lookup_delete_ne; [done|]. intros Hx. apply HiL. rewrite <- Hx. apply elem_of_app. right. left.
Qed.

(** The address spaces of the dead processes of [L] are given back. *)
Definition graves s L s' : Prop :=
  ∀ p d f, p ∈ L → procs s !! p = Some d → is_dead d = true → in_space (sc_vm s) d f →
    0 ≤ frame_at f ∧ frame_free (vm_pmm (sc_vm s')) (frame_at f) = true.

Lemma wp_reap_loop self post : ∀ pre s R B (Q : unit → sched → Prop),
  sinv s R B (pre ++ post) {[self]} → dead_at (procs s) self = false → fds_ok s post →
  (∀ s', sinv s' R B (pre ++ alive (procs s) post) {[self]} → procs s' = buried (procs s) post →
     g_processes_lock s' = g_processes_lock s → released_only (sc_vm s) (sc_vm s') →
     graves s post s' → Q () s') →
  wp (reap_loop (length post) (length pre) self) False Q s.
Proof.
  induction post as [|x post IH]; intros pre s R B Q Hi Hself Hfds HQ; cbn [reap_loop length];
    destruct (si_list _ _ _ _ _ Hi) as (ps & Hrep & Hps);
    apply wp_gets; rewrite (lr_size _ _ Hrep), <- (length_fmap snd ps), Hps, length_app; cbn [length].
  - rewrite (proj2 (Z.ltb_ge _ _)) by lia. apply wp_ret. apply HQ; [done|by rewrite buried_nil|done|done|].
    by intros p d f ?%not_elem_of_nil.
  - rewrite (proj2 (Z.ltb_lt _ _)) by lia. clear ps Hrep Hps.
    destruct (listed_split _ _ _ _ (si_list _ _ _ _ _ Hi)) as (ps1 & n & ps2 & Hrep & H1 & H2).
    apply wp_bind. unfold in_plist. apply wp_zoom.
    eapply wp_mono; [apply (wp_kl_at _ n x _ _ Hrep); rewrite <- H1, length_fmap; by apply list_lookup_middle|done|].
    intros y k [-> ->]. replace (with_plist _ s) with s by by destruct s. clear ps1 n ps2 Hrep H1 H2.
    pose proof (si_placed _ _ _ _ _ Hi) as Hpl.
    assert (x ∈ pre ++ x :: post) as HxL by (apply elem_of_app; right; left).
    apply wp_kassert. rewrite (proj2 (Z.eqb_neq x 0)) by (intros ->; by apply (pl_nz _ _ _ _ _ Hpl)). cbn [negb].
    destruct (pl_dom _ _ _ _ _ Hpl x HxL) as [d Hd]. apply wp_bind. eapply wp_proc; [done|].
    assert (dead_at (procs s) x = is_dead d) as Hdx by (unfold dead_at; by rewrite Hd).
    destruct (is_dead d) eqn:Hdead; cbn [negb].
    + assert (x ≠ self) as Hxs by (intros ->; congruence).
      apply wp_kassert. rewrite (proj2 (Z.eqb_neq x self)) by done. cbn [negb].
      assert (x ∉ post) as Hxp.
      { pose proof (pl_L _ _ _ _ _ Hpl) as HL. apply NoDup_app in HL as (_ & _ & [? _]%NoDup_cons). done. }
      assert (∀ (k : M sched unit), wp (_ ← delete_process x; _ ← in_plist (kl_erase (length pre)); k) False Q s ↔
        wp ((_ ← delete_process x; _ ← in_plist (kl_erase (length pre)); mret ()) ≫= λ _, k) False Q s) as Hassoc.
      { intros k. unfold wp, mbind, M_bind, mret, M_ret. destruct (delete_process x s) as [[]| | |]; [|done..].
        by destruct (in_plist _ _) as [[]| | |]. }
      apply Hassoc, wp_bind. eapply (wp_bury pre x post d); [done..| |].
      { apply (Hfds x d); [left|done|done]. }
      intros s1 Hi1 Hpr1 Hl1 Hro1 Hgone Hoth. apply (IH pre s1 R B).
      * done.
      * rewrite Hpr1. unfold dead_at in *. by rewrite lookup_delete_ne.
      * intros p e Hp. rewrite Hpr1. intros [_ He]%lookup_delete_Some. apply (Hfds p e); [by right|done].
      * rewrite Hpr1, alive_delete by done. intros s2 Hi2 Hpr2 Hl2 Hro2 Hgr2.
        apply HQ; [|by rewrite Hpr2, (buried_dead _ _ _ d)|congruence|by eapply released_trans|].
        { unfold alive. rewrite filter_cons, decide_False by congruence. done. }
        intros p e f [->|Hp]%elem_of_cons He Hdd Hf.
        { rewrite Hd in He. injection He as <-. destruct (Hgone f Hf). split; [done|]. by apply (ro_free _ _ Hro2). }
        assert (p ≠ x) by congruence. apply (Hgr2 p e f); [done| |done|by apply (Hoth p)].
        rewrite Hpr1. by rewrite lookup_delete_ne.
    + replace (S (length pre)) with (length (pre ++ [x])) by (rewrite length_app; cbn; lia).
      apply (IH (pre ++ [x]) s R B); [by rewrite <- app_assoc|done| |].
      * intros p e Hp. apply Hfds. by right.
      * intros s2 Hi2 Hpr2 Hl2 Hro2 Hgr2. apply HQ; [|by rewrite Hpr2, buried_skip|done|done|].
        { unfold alive. rewrite filter_cons, decide_True by done. by rewrite <- app_assoc in Hi2. }
        intros p e f [->|Hp]%elem_of_cons He Hdd Hf; [congruence|]. by apply (Hgr2 p e f).
Qed.

Lemma reap_ok s R B L : inv_at s R B L → cur s ≠ idle s → fds_ok s L →
  wp reap False (λ _ s', inv_at s' R B (alive (procs s) L) ∧ procs s' = buried (procs s) L ∧
    cur s' = cur s ∧ graves s L s') s.
Proof.
  intros Hinv Hne Hfds. pose proof (inv_on_cpu _ _ _ _ Hinv Hne) as Hoc. pose proof Hoc as [Hi0 Hf0 HcL].
  destruct (inv_cur _ _ _ _ Hinv) as [Hc0 [me Hme]]. pose proof (iv_run _ _ _ _ Hinv me HcL Hme) as Hrun.
  assert (is_dead me = false) as Hnd by (unfold is_dead; destruct Hrun as [-> | ->]; done).
  unfold reap. apply wp_bind, wp_p_lock; [done|]. apply wp_bind, wp_current; [done|].
  change (cur (with_sc_lock _ s)) with (cur s). apply wp_gets.
  destruct (si_list _ _ _ _ _ Hi0) as (ps & Hrep & Hps). cbn [with_sc_lock g_processes].
  rewrite (lr_size _ _ Hrep), Nat2Z.id, <- (length_fmap snd), Hps.
  apply wp_bind. apply (wp_reap_loop (cur s) L [] _ R B); [by apply inv_enter| |done|].
  { unfold dead_at. cbn. by rewrite Hme. }
  intros s1 Hi1 Hpr1 Hl1 Hro1 Hgr1.
  assert (cur s1 = cur s) as Hc1 by (unfold cur, sc_cpu; by rewrite (ro_cpu _ _ Hro1)).
  assert (procs s1 !! cur s = Some me) as Hme1.
  { rewrite Hpr1. apply map_lookup_filter_Some. split; [done|]. cbn. intros [_ ?]. congruence. }
  eapply (wp_leave_vm s1); rewrite ?Hc1; [exact Hi1| |by intros d _; rewrite Hme1; intros [= <-]|].
  { right. apply list_elem_of_filter. split; [|done]. unfold dead_at. cbn. by rewrite Hme. }
  intros s2 c Hi2 Hc2 Hpr2 Hvm2. split; [done|]. split; [by rewrite Hpr2|]. split; [congruence|].
  intros p d f Hp Hd Hdd Hf. rewrite Hvm2. by apply (Hgr1 p d f).
Qed.

(** A dead process whose table has a closed descriptor. *)
Definition closed_fd (m : gmap Z Process) (p : Z) : bool :=
  from_option (λ d, is_dead d && bool_decide (0 ∈ fd_table d)) false (m !! p).

Lemma fds_ok_closed s L : fds_ok s L ↔ ∀ p, p ∈ L → closed_fd (procs s) p = false.
Proof.
  unfold fds_ok, closed_fd. split; intros H p.
  - intros Hp. destruct (procs s !! p) as [d|] eqn:Hd; [|done]. cbn [from_option]. apply andb_false_iff.
    destruct (is_dead d) eqn:Hdd; [right|by left]. apply bool_decide_eq_false_2. by apply (H p d).
  - intros d Hp Hd Hdd. specialize (H p Hp). rewrite Hd in H. cbn [from_option] in H. rewrite Hdd in H.
    by apply bool_decide_eq_false in H.
Qed.

Lemma fds_cases s L : fds_ok s L ∨ ∃ p, p ∈ L ∧ closed_fd (procs s) p = true.
Proof.
  destruct (decide (Exists (λ p, closed_fd (procs s) p = true) L)) as [He|Hn].
  - right. by apply Exists_exists in He.
  - left. apply fds_ok_closed. intros p Hp. apply not_true_iff_false. intros Hc. apply Hn, Exists_exists. by exists p.
Qed.

Lemma close_fds_fault fds s : 0 ∈ fds → for_each fds close_fd s = Fault.
Proof.
  induction fds as [|fd fds IH]; [by intros ?%not_elem_of_nil|]. intros Hin. cbn [for_each].
  destruct (Z.eq_dec fd 0) as [-> |Hn]; [done|]. rewrite (bind_ok _ _ s s ()).
  - apply IH. by apply elem_of_cons in Hin as [Hz|?]; [congruence|].
  - unfold close_fd. by rewrite (proj2 (Z.eqb_neq _ _) Hn).
Qed.

Lemma delete_process_faults p s : closed_fd (procs s) p = true → delete_process p s = Fault.
Proof.
  unfold closed_fd, delete_process, terminate, proc. intros Hc. mrun. destruct (procs s !! p) as [d|]; [|done].
  cbn [from_option of_option] in *. apply andb_true_iff in Hc as [_ H0%bool_decide_eq_true].
  cbv [mret M_ret]. by rewrite close_fds_fault.
Qed.

Lemma reap_loop_faults self post : ∀ pre s R B, sinv s R B (pre ++ post) {[self]} → dead_at (procs s) self = false →
  (∃ p, p ∈ post ∧ closed_fd (procs s) p = true) → reap_loop (length post) (length pre) self s = Fault.
Proof.
  induction post as [|x post IH]; intros pre s R B Hi Hself (p & Hp & Hcl); [by apply not_elem_of_nil in Hp|].
  cbn [reap_loop length]. pose proof (si_placed _ _ _ _ _ Hi) as Hpl.
  destruct (listed_split _ _ _ _ (si_list _ _ _ _ _ Hi)) as (ps1 & n & ps2 & Hrep & H1 & H2).
  assert (kl_at (length pre) (g_processes s) = Ok (g_processes s, x)) as Hat.
  { destruct (wp_total _ _ _ (wp_kl_at (length pre) n x _ _ Hrep ltac:(rewrite <- H1, length_fmap; by apply list_lookup_middle)))
      as (k & b & -> & -> & ->). done. }
  unfold gets at 1. mrun. rewrite (lr_size _ _ Hrep), length_app, <- (length_fmap snd ps1), H1. cbn [length].
  rewrite (proj2 (Z.ltb_lt _ _)) by lia. unfold in_plist at 1, zoom at 1. rewrite Hat.
  replace (with_plist _ s) with s by by destruct s.
  assert (x ∈ pre ++ x :: post) as HxL by (apply elem_of_app; right; left).
  unfold kassert_not_null, kassert at 1. rewrite (proj2 (Z.eqb_neq x 0)) by (intros ->; by apply (pl_nz _ _ _ _ _ Hpl)).
  destruct (pl_dom _ _ _ _ _ Hpl x HxL) as [d Hd]. cbn [negb]. unfold proc at 1. mrun. rewrite Hd. cbn [of_option]. mrun.
  destruct (is_dead d) eqn:Hdead; cbn [negb].
  - assert (x ≠ self) as Hxs by (intros ->; unfold dead_at in Hself; rewrite Hd in Hself; cbn in Hself; congruence).
    unfold kassert. rewrite (proj2 (Z.eqb_neq x self)) by done. cbn [negb].
    destruct (closed_fd (procs s) x) eqn:Hx; [by rewrite delete_process_faults|].
    assert (x ∉ post) as Hxp.
    { pose proof (pl_L _ _ _ _ _ Hpl) as HL. by apply NoDup_app in HL as (_ & _ & [? _]%NoDup_cons). }
    assert (p ∈ post) as Hpp by (apply elem_of_cons in Hp as [-> |?]; [congruence|done]).
    assert (0 ∉ fd_table d) as Hfd.
    { unfold closed_fd in Hx. rewrite Hd in Hx. cbn in Hx. rewrite Hdead in Hx. by apply bool_decide_eq_false in Hx. }
    pose proof (wp_bury pre x post d s R B self (λ _ s', sinv s' R B (pre ++ post) {[self]} ∧ procs s' = delete x (procs s))
      Hi Hd Hdead Hxs Hfd ltac:(by intros; split)) as Hb.
    revert Hb. unfold wp, mbind, M_bind. destruct (delete_process x s) as [[s1 []]| | |]; [|done..].
    destruct (in_plist _ s1) as [[s2 b]| | |]; [|done..]. intros [Hi2 Hpr2]. apply (IH pre s2 R B Hi2).
    + unfold dead_at. rewrite Hpr2, lookup_delete_ne by done. exact Hself.
    + exists p. split; [done|]. unfold closed_fd. rewrite Hpr2, lookup_delete_ne; [done|]. by intros <-.
  - assert (p ∈ post) as Hpp.
    { apply elem_of_cons in Hp as [-> |?]; [|done]. unfold closed_fd in Hcl. rewrite Hd in Hcl. cbn in Hcl. by rewrite Hdead in Hcl. }
    replace (S (length pre)) with (length (pre ++ [x])) by (rewrite length_app; cbn; lia).
    apply (IH (pre ++ [x]) s R B); [by rewrite <- app_assoc|done|by exists p].
Qed.

Lemma reap_faults s R B L p : inv_at s R B L → cur s ≠ idle s → p ∈ L → closed_fd (procs s) p = true → reap s = Fault.
Proof.
  intros Hinv Hne Hp Hcl. pose proof (inv_on_cpu _ _ _ _ Hinv Hne) as [Hi0 Hf0 HcL].
  destruct (inv_cur _ _ _ _ Hinv) as [Hc0 [me Hme]]. pose proof (iv_run _ _ _ _ Hinv me HcL Hme) as Hrun.
  assert (is_dead me = false) as Hnd by (unfold is_dead; destruct Hrun as [-> | ->]; done).
  set (s1 := with_sc_lock (masked (sc_cpu s), held_from (sc_cpu s)) s).
  assert (p_lock s = Ok (s1, ())) as Rl by (unfold p_lock, zoom; by rewrite lock_free).
  destruct (wp_total _ _ _ (wp_current s1 False (λ c s', c = cur s ∧ s' = s1) Hc0 (conj eq_refl eq_refl))) as (s' & c & Rc & -> & ->).
  unfold reap. rewrite (bind_ok _ _ _ _ _ Rl), (bind_ok _ _ _ _ _ Rc). unfold gets at 1. mrun.
  destruct (si_list _ _ _ _ _ Hi0) as (ps & Hrep & Hps). change (g_processes s1) with (g_processes s).
  rewrite (lr_size _ _ Hrep), Nat2Z.id, <- (length_fmap snd), Hps.
  assert (reap_loop (length L) 0 (cur s) s1 = Fault) as ->; [|done].
  apply (reap_loop_faults (cur s) L [] s1 R B); [by apply inv_enter| |by exists p]. unfold dead_at. cbn. by rewrite Hme.
Qed.

(** ** Sequences of operations *)

Section sequences.
Context (new_addr : gmap Z (lnode Z) → Z) (time : nat → Z).

(** A step of the system: a timer tick, a wake-up from an interrupt handler or the running process,
    or a scheduler call of the running process. *)
Inductive sop : Type :=
| Tick (rsp : Z)
| WakeSingle (reason : WaitReason)
| WakeAll (reason : WaitReason)
| WakeMutex (mutex : Z)
| Block (rsp : Z) (reason : WaitReason)
| Sleep (rsp ns : Z)
| BlockMutex (rsp mutex : Z)
| Exit
| Die
| Wait (rsp child : Z)
| Replaced
| Spawn (p : Z) (d : Process)
| Reap.

Definition run_sop (op : sop) : M (sched (P := P)) unit :=
  match op with
  | Tick rsp => _ ← tick time rsp; mret ()
  | WakeSingle reason => wake_single reason
  | WakeAll reason => wake_all reason
  | WakeMutex mutex => wake_mutex mutex
  | Block rsp reason => _ ← yield_blocked time rsp reason; mret ()
  | Sleep rsp ns => _ ← yield_sleep_ns time rsp ns; mret ()
  | BlockMutex rsp mutex => _ ← yield_mutex time rsp mutex; mret ()
  | Exit => _ ← yield_zombie time; mret ()
  | Die => _ ← yield_dead time; mret ()
  | Wait rsp child => _ ← yield_to_child time rsp child; mret ()
  | Replaced => _ ← yield_new_process time; mret ()
  | Spawn p d => spawn new_addr p d
  | Reap => reap
  end.

(** When a step can be asked for: only a process other than idle yields, a mutex pointer is not null, a new
    object is at a fresh address with an address space of its own or the kernel's. *)
Definition allowed (op : sop) s : Prop :=
  match op with
  | Tick _ | WakeSingle _ | WakeAll _ => True
  | WakeMutex mutex => mutex ≠ 0
  | Block _ _ | Sleep _ _ | Exit | Die | Replaced | Wait _ _ | Reap => cur s ≠ idle s
  | BlockMutex _ mutex => mutex ≠ 0 ∧ cur s ≠ idle s
  | Spawn p d => p ≠ 0 ∧ procs s !! p = None ∧ is_ready d = true ∧
      kl_size (g_processes s) + 2 < KV_MAX ∧ spaces_ok (sc_vm s) (<[p := d]> (procs s))
  end.

(** The two steps that go through a pointer the kernel does not keep valid: the search for a child comes to
    a process whose parent has been deleted, and the reaper to a dead process with a closed descriptor. *)
Definition hazard (op : sop) s : Prop :=
  match op with
  | Wait _ child => ∃ me L, procs s !! cur s = Some me ∧ listed s L ∧ stale_parent (procs s) me child L = true
  | Reap => ∃ L p, listed s L ∧ p ∈ L ∧ closed_fd (procs s) p = true
  | _ => False
  end.

Hypothesis new_addr_fresh : ∀ m, (new_addr m ∉ dom m) ∧ new_addr m ≠ 0.

Lemma wp_drop {A} (m : M (sched (P := P)) A) (Q : A → sched → Prop) s :
  wp m False Q s → (∀ a s', Q a s' → inv s') → wp (_ ← m; mret ()) False (λ _ s', inv s') s.
Proof. intros Hm HQ. apply wp_bind. eapply wp_mono; [done|done|]. intros a s' Ha. apply wp_ret. by eapply HQ. Qed.

Lemma woke_inv matches once s s' : woke matches once s s' → inv s'.
Proof. intros (R & B & L & _ & Hi & _). by eexists _, B, L. Qed.

Lemma wp_sop op s : inv s → allowed op s → wp (run_sop op) False (λ _ s', inv s') s ∨ hazard op s ∧ run_sop op s = Fault.
Proof.
  intros (R & B & L & Hinv) Hal. pose proof (si_list _ _ _ _ _ (iv_inv _ _ _ _ Hinv)) as Hli.
  destruct op; cbn [run_sop allowed] in *; [left..|idtac|left|left|idtac].
  - eapply wp_drop; [by eapply tick_ok|]. by intros ? ? [? _].
  - unfold wake_single. destruct (decide (reason = SLEEP)) as [|Hr].
    + eapply wp_mono; [by eapply wp_refused|done|]. intros ? s' (? & _). by exists R, B, L.
    + eapply wp_mono; [by eapply wp_wake_locked|done|]. intros [] s'. apply woke_inv.
  - unfold wake_all. destruct (decide (reason = SLEEP)) as [|Hr].
    + eapply wp_mono; [by eapply wp_refused|done|]. intros ? s' (? & _). by exists R, B, L.
    + eapply wp_mono; [by eapply wp_wake_locked|done|]. intros [] s'. apply woke_inv.
  - eapply wp_mono; [by eapply wake_mutex_ok|done|]. intros [] s'. apply woke_inv.
  - eapply wp_drop; [eapply yield_blocked_ok; by apply inv_on_cpu|]. by intros ? ? [? _].
  - eapply wp_drop; [eapply yield_sleep_ns_ok; by apply inv_on_cpu|]. by intros ? ? [? _].
  - eapply wp_drop; [eapply yield_mutex_ok; [apply Hal|apply inv_on_cpu; [done|apply Hal]]|]. by intros ? ? [? _].
  - eapply wp_drop; [eapply yield_zombie_ok; by apply inv_on_cpu|]. by intros ? ? [? _].
  - eapply wp_drop; [eapply yield_dead_ok; by apply inv_on_cpu|]. by intros ? ? [? _].
  - destruct (inv_cur _ _ _ _ Hinv) as [_ [me Hme]]. destruct (stale_parent (procs s) me child L) eqn:Hst.
    + right. split; [by exists me, L|]. unfold mbind, M_bind. by rewrite (yield_to_child_faults time rsp child s R B L me).
    + left. eapply wp_drop; [eapply yield_to_child_run; [done|done|]|by intros ? ? [[? _] _]].
      intros me' Hme'. by rewrite Hme in Hme'; injection Hme' as <-.
  - eapply wp_drop; [eapply yield_new_process_ok; by apply inv_on_cpu|]. by intros ? ? [? _].
  - destruct Hal as (Hp & Hfr & Hrd & Hroom & Hsp). eapply wp_mono; [eapply spawn_ok; [done..| |done]|done|].
    + destruct (si_list _ _ _ _ _ (iv_inv _ _ _ _ Hinv)) as (ps & Hrep & <-). rewrite length_fmap.
      by rewrite (lr_size _ _ Hrep) in Hroom.
    + intros [] s' (Hi' & _). by eexists _, _, _.
  - destruct (fds_cases s L) as [Hfds|(p & Hp & Hcl)].
    + left. eapply wp_mono; [by eapply reap_ok|done|]. intros [] s' (Hi' & _). by eexists _, _, _.
    + right. split; [by exists L, p|]. by eapply reap_faults.
Qed.

Fixpoint run_sops (ops : list sop) : M (sched (P := P)) unit :=
  match ops with
  | [] => mret ()
  | op :: ops' => _ ← run_sop op; run_sops ops'
  end.

(** Every operation of the sequence is allowed in the state it is run in. *)
Fixpoint allowed_all (ops : list sop) s : Prop :=
  match ops with
  | [] => True
  | op :: ops' => allowed op s ∧ ∀ s', run_sop op s = Ok (s', ()) → allowed_all ops' s'
  end.

Lemma sops_run ops : ∀ s, inv s → allowed_all ops s →
  (∃ s', run_sops ops s = Ok (s', ()) ∧ inv s') ∨
  (∃ pre op post s', ops = pre ++ op :: post ∧ run_sops pre s = Ok (s', ()) ∧ inv s' ∧ hazard op s' ∧ run_sops ops s = Fault).
Proof.
  induction ops as [|op ops IH]; intros s Hi Hal; [left; by exists s|]. cbn [run_sops allowed_all] in *.
  destruct Hal as [Ha Hrest]. destruct (wp_sop op s Hi Ha) as [Hok|[Hz Hf]].
  - destruct (wp_total _ _ _ Hok) as (s1 & [] & Hrun & Hi1). rewrite (bind_ok _ _ _ _ _ Hrun).
    destruct (IH s1 Hi1 (Hrest _ Hrun)) as [?|(pre & op' & post & s' & -> & Hpre & Hi' & Hz & Hf)]; [by left|right].
    exists (op :: pre), op', post, s'. cbn [run_sops app]. rewrite (bind_ok _ _ _ _ _ Hrun). by split_and!.
  - right. exists [], op, ops, s. split_and!; try done. unfold mbind, M_bind. by rewrite Hf.
Qed.
End sequences.
End theorems.
