(* ===== verification/SchedClaims.v ===== *)
(** * The scheduler's guarantees

    The round-robin policy meets the laws of [SchedProofs.v] and serves its queue in order; the
    mechanism keeps every process in its place over any sequence of operations; sleepers, waiting
    parents and dead processes get what the code promises them; and the window in [yield_sleep_ns]
    in which a timer tick loses the caller. *)

From S2P Require Import Prelude Cpu Spinlock Pmm Vmm VmmTree VmmProofs VmmFree VmmSpace.
From S2P Require Import VmmTheorems KVector KHeap KList Process SchedInv Scheduler.
From S2P Require Import SchedProofs SchedOps SchedTheorems.

(** ** Round robin *)

Section round_robin.
Context (new_addr : gmap Z (lnode Z) → Z).
Hypothesis new_addr_fresh : ∀ m, (new_addr m ∉ dom m) ∧ new_addr m ≠ 0.

(** The ready queue in order. *)
Definition rr_queue (k : klist Z) (l : list Z) : Prop :=
  ∃ ps, kl_rep k ps ∧ ps.*2 = l ∧ Z.of_nat (length ps) < 2 ^ 64.

Lemma rr_enqueue_ok x k l : rr_queue k l → x ≠ 0 → Z.of_nat (length l) + 1 < 2 ^ 64 →
  wp (rr_enqueue new_addr x) False (λ _ k', rr_queue k' (l ++ [x])) k.
Proof.
  intros (ps & Hrep & <- & Hsm) Hx Hroom. rewrite length_fmap in Hroom. unfold rr_enqueue. apply wp_kassert.
  rewrite (proj2 (Z.eqb_neq x 0)) by done. cbn [negb].
  eapply wp_mono; [by apply (wp_kl_push_back _ new_addr_fresh x _ ps)|done|].
  intros [] k' [n Hk']. exists (ps ++ [(n, x)]). split; [done|]. split; [by rewrite fmap_app|].
  rewrite length_app. cbn. lia.
Qed.

Lemma rr_pick_next_ok k l : rr_queue k l →
  wp rr_pick_next False (λ x k', x = default 0 (head l) ∧ rr_queue k' (tail l)) k.
Proof.
  intros (ps & Hrep & <- & Hsm). unfold rr_pick_next. apply wp_gets.
  destruct (kl_empty k) eqn:He.
  - apply (kl_empty_nil _ _ Hrep) in He as ->. apply wp_ret. split; [done|]. by exists [].
  - destruct ps as [|[n x] ps].
    { by rewrite (proj2 (kl_empty_nil _ _ Hrep) eq_refl) in He. }
    apply wp_bind. eapply wp_mono; [by apply (wp_kl_front n x ps)|done|]. intros y k' [-> ->].
    apply wp_bind. eapply wp_mono; [by apply (wp_kl_pop_front n x ps)|done|].
    intros [] k' Hk'. apply wp_ret. split; [done|]. exists ps. split; [done|]. split; [done|].
    cbn [length] in Hsm. lia.
Qed.

#[local] Existing Instance RoundRobinScheduler.

#[global] Instance rr_laws : @PolicyLaws (klist Z) (RoundRobinScheduler new_addr).
Proof.
  refine (@Build_PolicyLaws _ (RoundRobinScheduler new_addr) (λ k R, ∃ l, rr_queue k l ∧ l ≡ₚ R) _ _ _ _).
  - intros k R R' HR (l & Hq & Hl). exists l. split; [done|]. by rewrite Hl.
  - intros x k R (l & Hq & Hl) Hx Hsm. eapply wp_mono; [by apply (rr_enqueue_ok x k l); [..|rewrite Hl]|done|].
    intros [] k' Hq'. exists (l ++ [x]). split; [done|]. by rewrite (comm (++)), Hl.
  - intros x t k R Hrep Hx. cbn. unfold rr_should_preempt. apply wp_kassert.
    rewrite (proj2 (Z.eqb_neq x 0)) by done. done.
  - intros k R (l & Hq & Hl). eapply wp_mono; [by apply rr_pick_next_ok|done|].
    intros x k' [-> Hq']. destruct l as [|y l].
    + left. apply Permutation_nil_l in Hl as <-. split; [done|]. split; [done|]. by exists [].
    + right. exists l. split; [by rewrite <- Hl|]. by exists l.
Defined.

(** Calls of the policy. *)
Inductive rop := Enq (x : Z) | Pick.

(** The processes handed out, in order. *)
Fixpoint run_rops (ops : list rop) : M (klist Z) (list Z) :=
  match ops with
  | [] => mret []
  | Enq x :: ops' => _ ← rr_enqueue new_addr x; run_rops ops'
  | Pick :: ops' => x ← rr_pick_next; xs ← run_rops ops'; mret (x :: xs)
  end.
Definition rop_ok (op : rop) : Prop := match op with Enq x => x ≠ 0 | Pick => True end.

Fixpoint picks (ops : list rop) : nat :=
  match ops with [] => O | Enq _ :: ops' => picks ops' | Pick :: ops' => S (picks ops') end.

Lemma wp_rops ops : ∀ k l, rr_queue k l → Forall rop_ok ops →
  Z.of_nat (length l + length ops) < 2 ^ 64 →
  wp (run_rops ops) False
    (λ xs _, ∀ i p, l !! i = Some p → (i < picks ops)%nat → xs !! i = Some p) k.
Proof.
  induction ops as [|op ops IH]; intros k l Hq Hok Hsm; [cbn; lia|].
  apply Forall_cons in Hok as [Hop Hok]. cbn [length] in Hsm. cbn [run_rops picks].
  destruct op as [x|]; apply wp_bind.
  - eapply wp_mono; [apply (rr_enqueue_ok x k l); [done|done|lia]|done|]. intros [] k' Hq'.
    eapply wp_mono; [apply (IH k' (l ++ [x])); [done|done|rewrite length_app; cbn; lia]|done|].
    intros xs k2 Hxs i p Hl Hi. apply Hxs; [by apply lookup_app_l_Some|done].
  - eapply wp_mono; [by apply (rr_pick_next_ok k l)|done|]. intros x k' [-> Hq'].
    apply wp_bind. eapply wp_mono; [apply (IH k' (tail l)); [done|done|destruct l; cbn in *; lia]|done|].
    intros xs k2 Hxs. apply wp_ret. intros i p Hl Hi. destruct l as [|y l]; [done|].
    destruct i as [|i]; [by injection Hl as ->|]. apply (Hxs i p); [done|lia].
Qed.
End round_robin.

(** C37: Round robin serves its queue in order, whatever is enqueued meanwhile: a process with [i]
    processes ahead of it is the one the [i+1]-st [pick_next] hands out, so it waits for no more than
    [i] turns of others. *)
Theorem rr_bounded_waiting new_addr k l ops i p :
  (∀ m, (new_addr m ∉ dom m) ∧ new_addr m ≠ 0) →
  rr_queue k l → l !! i = Some p → Forall rop_ok ops → (i < picks ops)%nat →
  Z.of_nat (length l + length ops) < 2 ^ 64 →
  ∃ k' xs, run_rops new_addr ops k = Ok (k', xs) ∧ xs !! i = Some p.
Proof.
  intros Hna Hq Hl Hok Hi Hsm.
  destruct (wp_total _ _ _ (wp_rops new_addr Hna ops k l Hq Hok Hsm)) as (k' & xs & Hrun & Hxs).
  exists k', xs. split; [done|]. by apply Hxs.
Qed.

Definition demo_queue : klist Z :=
  match run_rops bump [Enq 7; Enq 8; Enq 9] kl_new with Ok (k, _) => k | _ => kl_new end.

Lemma demo_queue_rep : rr_queue demo_queue [7; 8; 9].
Proof.
  assert (rr_queue kl_new []) as H0 by (exists []; split; [apply kl_rep_new|done]).
  pose proof (rr_enqueue_ok bump bump_fresh 7 _ _ H0) as H1.
  destruct (wp_total _ _ _ (H1 ltac:(done) ltac:(done))) as (k1 & [] & E1 & Q1).
  pose proof (rr_enqueue_ok bump bump_fresh 8 _ _ Q1) as H2.
  destruct (wp_total _ _ _ (H2 ltac:(done) ltac:(done))) as (k2 & [] & E2 & Q2).
  pose proof (rr_enqueue_ok bump bump_fresh 9 _ _ Q2) as H3.
  destruct (wp_total _ _ _ (H3 ltac:(done) ltac:(done))) as (k3 & [] & E3 & Q3).
  unfold demo_queue, run_rops, mbind, M_bind. rewrite E1, E2, E3. exact Q3.
Qed.

Lemma rr_bounded_waiting_witness :
  ∃ k' xs, run_rops bump [Pick; Enq 7; Pick; Enq 8; Pick] demo_queue = Ok (k', xs) ∧ xs !! 2%nat = Some 9.
Proof.
  apply (rr_bounded_waiting bump demo_queue [7; 8; 9] [Pick; Enq 7; Pick; Enq 8; Pick] 2 9).
  - exact bump_fresh.
  - exact demo_queue_rep.
  - reflexivity.
  - repeat constructor; discriminate.
  - apply Nat.ltb_lt. reflexivity.
  - reflexivity.
Defined.

(** ** An example system

    The example of [VmmTheorems.v] with an idle thread (object at 100) on the CPU, round robin as
    policy and no other process; the clock shows 20 ms more at every reading, up to 1000 s. *)
Definition demo_time (n : nat) : Z := Z.min (Z.of_nat n * 20000000) 1000000000000.
Definition demo_garbage : Process :=
  mk_Process 0 0 DEAD NONE 0 0 0 0 0 0 0 0 0 (mk_Heap 0 0 0 0) 0 0 0 0 0 0 [] 0 0 0.
Definition demo_kthread (pid_ stack : Z) : Process :=
  new_KThread demo_garbage pid_ stack 0xFFFF800000001000 0x1234.
(** A process with the user address space of the example. *)
Definition demo_user (pid_ parent_ stack : Z) : Process :=
  let d := new_Process demo_garbage pid_ stack in
  mk_Process pid_ parent_ (state d) NONE (-1) 0 0 0 0 0 0 0xFFFF800000002000 0 (uheap d) stack
    (p_kernel_rsp d) 0 0 0 0 [5; 6; 7] 0 0 0.

Definition demo_cpu : cpu := with_percpu (λ _, mk_PerCPU 0 0 100 100 true) (with_cr3 0x1000 cpu0).
Definition demo_sched : sched (P := klist Z) :=
  mk_sched (with_vm_cpu demo_cpu demo_vmm) (Some kl_new) new_irqsave kl_new kv_new
    {[100 := demo_kthread 1 0x10000]} 0 0.

#[local] Instance demo_policy : SchedulerPolicy (klist Z) := RoundRobinScheduler bump.
#[local] Instance demo_laws : PolicyLaws (klist Z) := rr_laws bump bump_fresh.

Lemma demo_sys_none : sys_ok demo_vmm (λ _, False).
Proof.
  destruct demo_ok as (Hok & Hl & Hk & Hi). split; [|split; [done|split; [tauto|done]]]. eapply vm_ok_sub; [|exact Hok].
  intros r l. unfold sys_dom, spaces. tauto.
Qed.

Lemma demo_spaces : spaces_ok demo_vmm {[100 := demo_kthread 1 0x10000]}.
Proof.
  split.
  - eapply sys_ok_roots; [|exact demo_sys_none]. intros r. split; [done|].
    intros (p & d & [<- <-]%lookup_singleton_Some & Hk & _). by apply Hk.
  - intros p d [<- <-]%lookup_singleton_Some. done.
  - intros p q d e [<- <-]%lookup_singleton_Some [<- <-]%lookup_singleton_Some. done.
Qed.

Lemma demo_inv_at : inv_at demo_sched [] [] [].
Proof.
  split; [|done|by left|by intros d ?%not_elem_of_nil]. split.
  - exists kl_new. split; [done|]. exists []. split; [|done]. exists []. split; [apply kl_rep_new|done].
  - exists []. split; [apply kv_rep_new|]. split; [|done]. intros j Hj. cbn in Hj. lia.
  - exists []. split; [apply kl_rep_new|done].
  - done.
  - split; try apply NoDup_nil_2; try (by intros ? ?%not_elem_of_nil); try (by intros ? ? ?%not_elem_of_nil).
    apply not_elem_of_nil.
  - split; [done|]. split; [apply not_elem_of_nil|]. by eexists.
  - apply spaces_ok_cpu, demo_spaces.
Qed.
Lemma demo_inv : inv demo_sched.
Proof. exists [], [], []. apply demo_inv_at. Qed.

Definition after (op : sop) (s : sched (P := klist Z)) : sched (P := klist Z) :=
  match run_sop bump demo_time op s with Ok (s', _) => s' | _ => s end.

Lemma inv_after op s : inv s → allowed op s → inv (after op s).
Proof.
  intros Hi Ha. unfold after. destruct (wp_sop bump demo_time bump_fresh op s Hi Ha) as [Hok|[_ Hf]]; [|by rewrite Hf].
  destruct (wp_total _ _ _ Hok) as (s' & [] & Hrun & Hi'). by rewrite Hrun.
Qed.

Definition demo_reaper : Process := demo_kthread 2 0x20000.
Definition demo_child : Process := demo_user 3 200 0x30000.
(** A kernel thread (200) and a user process (300), its child, are added; the tick starts the thread. *)
Definition demo1 := after (Spawn 200 demo_reaper) demo_sched.
Definition demo2 := after (Spawn 300 demo_child) demo1.
Definition demo3 := after (Tick 0) demo2.

Lemma demo1_vm : sc_vm demo1 = with_vm_cpu (sc_cpu demo1) demo_vmm.
Proof. reflexivity. Qed.
Lemma demo1_procs : procs demo1 = {[200 := demo_reaper; 100 := demo_kthread 1 0x10000]}.
Proof. vm_compute. reflexivity. Qed.
Lemma demo3_cur : cur demo3 = 200 ∧ idle demo3 = 100.
Proof. vm_compute. split; reflexivity. Qed.

Lemma demo_inv1 : inv demo1.
Proof.
  apply inv_after; [apply demo_inv|]. split; [done|]. split; [done|]. split; [done|]. split; [done|].
  change (procs demo_sched) with ({[100 := demo_kthread 1 0x10000]} : gmap Z Process).
  assert (∀ p d, <[200 := demo_reaper]> ({[100 := demo_kthread 1 0x10000]} : gmap Z Process) !! p = Some d →
    pml4 d = kernel_pml4 demo_vmm) as Hk.
  { intros p d [[<- <-]|[_ [<- <-]%lookup_singleton_Some]]%lookup_insert_Some; done. }
  apply spaces_ok_cpu. split.
  - eapply sys_ok_roots; [|exact demo_sys_none]. intros r. split; [done|]. intros (p & d & Hd%Hk & Hne & _). done.
  - intros p d ->%Hk. done.
  - intros p q d e Hd%Hk. congruence.
Qed.

Lemma demo_procs_cases p d : <[300 := demo_child]> (procs demo1) !! p = Some d →
  (p = 300 ∧ d = demo_child) ∨ pml4 d = kernel_pml4 demo_vmm.
Proof.
  rewrite demo1_procs. intros [[<- <-]|[_ [[<- <-]|[_ [<- <-]%lookup_singleton_Some]]%lookup_insert_Some]]%lookup_insert_Some;
    [by left|by right..].
Qed.

Lemma demo_inv2 : inv demo2.
Proof.
  apply inv_after; [apply demo_inv1|]. split; [done|]. split; [done|]. split; [done|]. split; [done|].
  rewrite demo1_vm. apply spaces_ok_cpu. split.
  - eapply sys_ok_roots; [|exact demo_ok]. intros r. split.
    + intros ->. exists 300, demo_child. split; [apply lookup_insert_eq|]. by vm_compute.
    + intros (p & d & [[-> ->]|Hk]%demo_procs_cases & Hne & ->); [by vm_compute|done].
  - intros p d [[-> ->]|Hk]%demo_procs_cases; [done|]. by rewrite Hk.
  - intros p q d e [[-> ->]|Hk]%demo_procs_cases [[-> ->]|Hk']%demo_procs_cases He Hne; congruence.
Qed.

Lemma demo_inv3 : inv demo3.
Proof. by apply inv_after; [apply demo_inv2|]. Qed.

(** A process in the kernel's address space fits in everywhere. *)
Lemma spaces_ok_kernel v m p d : spaces_ok v m → m !! p = None → pml4 d = kernel_pml4 v → 0 < pml4 d < 2 ^ 64 →
  spaces_ok v (<[p := d]> m).
Proof.
  intros [H1 H2 H3] Hp Hk Hb. split.
  - eapply sys_ok_roots; [|exact H1]. intros r. split; intros (q & e & He & Hne & Hr).
    + exists q, e. split; [|done]. rewrite lookup_insert_ne; [done|]. congruence.
    + apply lookup_insert_Some in He as [[<- <-]|[_ He]]; [done|]. by exists q, e.
  - intros q e [[<- <-]|[_ He]]%lookup_insert_Some; [done|]. by apply (H2 q).
  - intros q r e f [[<- <-]|[_ He]]%lookup_insert_Some [[<- <-]|[_ Hf]]%lookup_insert_Some He' Hne; try done; [congruence|].
    by apply (H3 q r e f).
Qed.

(** A process (400) whose parent is the user process and which has closed a file. *)
Definition demo_orphan : Process :=
  let d := demo_kthread 4 0x40000 in
  mk_Process 4 300 (state d) NONE (-1) 0 0 0 0 0 0 (pml4 d) 0 (uheap d) 0x40000 (p_kernel_rsp d) 0 0 0 0 [5; 0; 7] 0 0 0.

Lemma demo_orphan_allowed : allowed (Spawn 400 demo_orphan) demo2.
Proof.
  destruct demo_inv2 as (R & B & L & Hi). split; [done|]. split; [vm_compute; reflexivity|]. split; [reflexivity|].
  split; [vm_compute; reflexivity|].
  apply spaces_ok_kernel; [apply Hi|vm_compute; reflexivity|vm_compute; reflexivity|split; vm_compute; reflexivity].
Qed.

(** The conditions of the operations that are not [Spawn], along a run. *)
Fixpoint yields_ok (ops : list sop) (s : sched (P := klist Z)) : bool :=
  match ops with
  | [] => true
  | op :: ops' =>
      match op with
      | Spawn _ _ | WakeMutex _ | BlockMutex _ _ => false
      | Tick _ | WakeSingle _ | WakeAll _ => true
      | _ => negb (cur s =? idle s)
      end && match run_sop bump demo_time op s with Ok (s', _) => yields_ok ops' s' | _ => true end
  end.

Lemma yields_ok_allowed ops : ∀ s, yields_ok ops s = true → allowed_all bump demo_time ops s.
Proof.
  induction ops as [|op ops IH]; intros s Hy; [exact I|]. cbn [yields_ok allowed_all] in *.
  apply andb_true_iff in Hy as [H1 H2]. split.
  - destruct op; cbn [allowed]; try exact I; try discriminate H1; by apply negb_true_iff, Z.eqb_neq in H1.
  - intros s' Hrun. rewrite Hrun in H2. by apply IH.
Qed.

Lemma run_after op s s' : run_sop bump demo_time op s = Ok (s', ()) → s' = after op s.
Proof. unfold after. by intros ->. Qed.

(** ** Every process in its place *)

Section claims.
Context {P : Type} `{!SchedulerPolicy P, !PolicyLaws P}.

(** Where process [p] is: on the CPU, in the ready queue, among the sleepers, or in none of them
    because it is blocked or has ended. *)
Definition in_its_place (s : sched (P := P)) (R : list Z) (B : list (node Z)) (p : Z) (d : Process) : Prop :=
  (p = cur s ∧ (p ∉ R) ∧ p ∉ vals B) ∨
  (p ≠ cur s ∧ p ∈ R ∧ (p ∉ vals B) ∧ is_ready d = true) ∨
  (p ≠ cur s ∧ (p ∉ R) ∧ p ∈ vals B ∧ state d = SLEEPING) ∨
  (p ≠ cur s ∧ (p ∉ R) ∧ (p ∉ vals B) ∧ (state d = BLOCKED ∨ state d = ZOMBIE ∨ state d = DEAD)).

(** [wake_sleepers] alone keeps the invariant. *)
Lemma slept_inv now (s : sched (P := P)) R B L s' D B' : inv_at s R B L →
  slept now s R B L {[cur s]} s' D B' → inv_at s' (vals D ++ R) B' L.
Proof.
  intros Hinv [H1 H2 H3 H4 H5 H6 _]. eapply inv_still; [done..|]. intros d HL. rewrite H5, woken_elsewhere; [eauto|].
  eapply (hole_not_due s); [apply Hinv|exact H1|set_solver].
Qed.

Lemma inv_places s R B L p d : inv_at s R B L → p ∈ L → procs s !! p = Some d → in_its_place s R B p d.
Proof.
  intros [Hi _ _ _] Hp Hd. pose proof (si_placed _ _ _ _ _ Hi) as Hpl. unfold in_its_place.
  destruct (decide (p = cur s)) as [->|Hne].
  - left. split; [done|]. apply (pl_in _ _ _ _ _ Hpl); [done|set_solver].
  - right. destruct (pl_out _ _ _ _ _ Hpl p d Hp Hd ltac:(set_solver)) as (HR & HS & Hr).
    unfold is_ready in *. rewrite HR, HS. clear -Hne Hr.
    destruct (state d); cbn; [left|done|left|right; right|right; left|right; right..]; by eauto 10.
Qed.
(** Every process is in exactly one place, the one its state says. *)
Definition all_in_place (s : sched (P := P)) : Prop :=
  ∃ pol R B L, g_scheduler_policy s = Some pol ∧ pol_rep pol R ∧ sleepers_rep (g_sleepers s) B ∧
    listed s L ∧ NoDup R ∧ NoDup (vals B) ∧ (∀ p, p ∈ R ∨ p ∈ vals B → p ∈ L) ∧
    ∀ p, p ∈ L → ∃ d, procs s !! p = Some d ∧ in_its_place s R B p d.

Lemma inv_all_in_place s : inv s → all_in_place s.
Proof.
  intros (R & B & L & Hinv). pose proof Hinv as [Hsi _ _ _].
  pose proof Hsi as [(pol & Hpol & Hrep) Hsl Hli _ Hpl _ _]. exists pol, R, B, L.
  split_and!; [done..|apply Hpl|apply Hpl|by intros p [?|?]; [apply (pl_RL _ _ _ _ _ Hpl)|apply (pl_BL _ _ _ _ _ Hpl)]|].
  intros p Hp. destruct (pl_dom _ _ _ _ _ Hpl p Hp) as [d Hd]. exists d. split; [done|]. by eapply inv_places.
Qed.
End claims.

(** C2: Over any sequence of scheduler operations, each called as the kernel may call it, every process is in
    exactly one place, the one its state says: on the CPU, once in the policy's ready queue, once among the
    sleepers, or waiting for an event; none is lost and none is queued twice.  Nothing panics or hangs, and the
    run goes to the end of the sequence unless it comes to one of two operations that go through a stale
    pointer ([hazard]): a process waits while the parent object of another one has been deleted, or the reaper
    finds a dead process with a closed descriptor.  Such an operation is a fault, and up to it everything is in
    place. *)
Theorem scheduler_keeps_processes {P} `{!SchedulerPolicy P, !PolicyLaws P} new_addr time ops (s : sched (P := P)) :
  (∀ m, (new_addr m ∉ dom m) ∧ new_addr m ≠ 0) →
  inv s → allowed_all new_addr time ops s →
  ∃ pre s', run_sops new_addr time pre s = Ok (s', ()) ∧ inv s' ∧ all_in_place s' ∧
    (pre = ops ∨ ∃ op post, ops = pre ++ op :: post ∧ hazard op s' ∧ run_sops new_addr time ops s = Fault).
Proof.
  intros Hna Hi Hal. destruct (sops_run new_addr time Hna ops s Hi Hal)
    as [(s' & Hrun & Hi')|(pre & op & post & s' & Heq & Hrun & Hi' & Hz & Hf)].
  - exists ops, s'. pose proof (inv_all_in_place s' Hi'). by split_and!; [..|left].
  - exists pre, s'. pose proof (inv_all_in_place s' Hi'). split_and!; [done..|right]. by exists op, post.
Qed.

(** The thread waits for its child, which ends; the thread collects it and reaps it.  With the third process
    about, the next wait and the reaping of that process go wrong. *)
Lemma scheduler_keeps_processes_witness :
  let run := run_sops bump demo_time in
  (∃ s', run [Tick 0; Wait 0 3; Exit; Wait 0 3; Reap] demo2 = Ok (s', ()) ∧ inv s' ∧ all_in_place s') ∧
  let ops1 := [Spawn 400 demo_orphan; Tick 0; Wait 0 3; Exit; Block 0 KEYBOARD; Wait 0 3; Reap; Wait 0 (-1)] in
  let ops2 := [Spawn 400 demo_orphan; Tick 0; Wait 0 3; Exit; Die; Reap] in
  (∃ pre s' op post, ops1 = pre ++ op :: post ∧ run pre demo2 = Ok (s', ()) ∧ hazard op s' ∧ run ops1 demo2 = Fault) ∧
  (∃ pre s' op post, ops2 = pre ++ op :: post ∧ run pre demo2 = Ok (s', ()) ∧ hazard op s' ∧ run ops2 demo2 = Fault).
Proof.
  intros run.
  assert (∀ ops, match run ops demo2 with Ok _ => False | _ => True end →
    (∃ pre s', run pre demo2 = Ok (s', ()) ∧ inv s' ∧ all_in_place s' ∧
      (pre = ops ∨ ∃ op post, ops = pre ++ op :: post ∧ hazard op s' ∧ run ops demo2 = Fault)) →
    ∃ pre s' op post, ops = pre ++ op :: post ∧ run pre demo2 = Ok (s', ()) ∧ hazard op s' ∧ run ops demo2 = Fault) as Hbad.
  { intros ops Hne (pre & s' & H & _ & _ & [-> |(op & post & He & Hz & Hf)]); [by rewrite H in Hne|].
    exists pre, s', op, post. split; [exact He|]. split; [exact H|]. split; [exact Hz|exact Hf]. }
  split.
  - destruct (scheduler_keeps_processes bump demo_time [Tick 0; Wait 0 3; Exit; Wait 0 3; Reap] demo2)
      as (pre & s' & H & Hi & Hp & Hend).
    + exact bump_fresh.
    + exact demo_inv2.
    + apply yields_ok_allowed. vm_compute. reflexivity.
    + destruct Hend as [-> |(op & post & _ & _ & Hf)]; [exact (ex_intro _ s' (conj H (conj Hi Hp)))|].
      assert (match run [Tick 0; Wait 0 3; Exit; Wait 0 3; Reap] demo2 with Fault => False | _ => True end) as Hok by (vm_compute; exact I).
      unfold run in Hok. rewrite Hf in Hok. destruct Hok.
  - split; apply Hbad.
    + vm_compute. exact I.
    + apply scheduler_keeps_processes; [exact bump_fresh|exact demo_inv2|].
      split; [exact demo_orphan_allowed|]. intros s' ->%run_after. apply yields_ok_allowed. vm_compute. reflexivity.
    + vm_compute. exact I.
    + apply scheduler_keeps_processes; [exact bump_fresh|exact demo_inv2|].
      split; [exact demo_orphan_allowed|]. intros s' ->%run_after. apply yields_ok_allowed. vm_compute. reflexivity.
Defined.


(** A call of [wake_sleepers] makes ready exactly the sleeping processes whose wake time has come
    and changes no other process. *)
Theorem wake_sleepers_wakes_due {P} `{!SchedulerPolicy P, !PolicyLaws P} time (s : sched (P := P)) R B L :
  inv_at s R B L →
  ∃ s', wake_sleepers time s = Ok (s', ()) ∧ inv s' ∧
  ∀ p d, p ∈ L → procs s !! p = Some d →
    procs s' !! p = Some (if decide (p ≠ cur s ∧ state d = SLEEPING ∧ wake_time_ns d ≤ time (clock_reads s))
                          then wake d else d).
Proof.
  intros Hinv. pose proof Hinv as [Hi _ _ _].
  assert (wp (wake_sleepers time) False (λ _ s', ∃ D B', slept (time (clock_reads s)) s R B L {[cur s]} s' D B') s) as Hwp.
  { eapply wp_wake_sleepers; [done|]. eauto. }
  destruct (wp_total _ _ _ Hwp) as (s' & [] & Hrun & D & B' & Hsl). exists s'. split; [done|].
  split; [eexists _, _, _; by eapply slept_inv|]. intros p d Hp Hd.
  destruct Hsl as [H1 H2 H3 H4 H5 H6 _]. rewrite H5, lookup_woken, Hd. cbn. f_equal. apply decide_ext.
  pose proof (si_placed _ _ _ _ _ Hi) as Hpl.
  assert (p ≠ cur s → p ∈ vals B ↔ state d = SLEEPING) as Hiff.
  { intros Hne. apply (pl_out _ _ _ _ _ Hpl p d Hp Hd). set_solver. }
  rewrite Forall_forall in H2, H3. split.
  - intros Hin. assert (p ≠ cur s) as Hne.
    { intros ->. eapply (hole_not_due s); [exact Hi|exact H1| |exact Hin]. set_solver. }
    split; [done|]. split; [apply Hiff; [done|]; rewrite H1, vals_app; apply elem_of_app; by left|].
    unfold vals in Hin. apply list_elem_of_fmap in Hin as (n & -> & Hn). pose proof (H2 n Hn) as Hdue.
    rewrite (pl_key _ _ _ _ _ Hpl n d); [done| |done]. rewrite H1. apply elem_of_app. by left.
  - intros (Hne & Hs & Ht). apply Hiff in Hs; [|done]. rewrite H1, vals_app in Hs.
    apply elem_of_app in Hs as [?|Hs]; [done|exfalso]. unfold vals in Hs.
    apply list_elem_of_fmap in Hs as (n & -> & Hn). apply (H3 n Hn). unfold due.
    rewrite <- (pl_key _ _ _ _ _ Hpl n d); [done| |done]. rewrite H1. apply elem_of_app. by right.
Qed.

(** The kernel thread sleeps for 50 ms; the user process gets the CPU. *)
Definition demo_asleep := after (Sleep 0 50000000) demo3.

Lemma listed_node (s : sched (P := klist Z)) R B L a d : inv_at s R B L →
  kl_store (g_processes s) !! a = Some d → data d ∈ L.
Proof.
  intros Hi Ha. destruct (si_list _ _ _ _ _ (iv_inv _ _ _ _ Hi)) as (ps & Hrep & <-). by eapply kl_rep_elem.
Qed.

Lemma demo_asleep_inv : inv demo_asleep.
Proof.
  apply inv_after; [exact demo_inv3|]. cbn [allowed]. rewrite (proj1 demo3_cur), (proj2 demo3_cur). discriminate.
Qed.

Lemma wake_sleepers_wakes_due_witness :
  state <$> procs demo_asleep !! 200 = Some SLEEPING ∧
  ∃ s', wake_sleepers demo_time demo_asleep = Ok (s', ()) ∧ inv s' ∧ state <$> procs s' !! 200 = Some READY.
Proof.
  split; [vm_compute; reflexivity|].
  destruct demo_asleep_inv as (R & B & L & Hi).
  destruct (wake_sleepers_wakes_due demo_time demo_asleep R B L Hi) as (s' & Hrun & Hi' & Hp).
  exists s'. split; [exact Hrun|]. split; [exact Hi'|].
  destruct (kl_store (g_processes demo_asleep) !! 1) as [n|] eqn:Hn; [|vm_compute in Hn; discriminate Hn].
  pose proof (listed_node _ _ _ _ _ _ Hi Hn) as HL.
  assert (data n = 200) as Hdata by (vm_compute in Hn; injection Hn as <-; reflexivity).
  rewrite Hdata in HL. destruct (procs demo_asleep !! 200) as [d|] eqn:Hd; [|vm_compute in Hd; discriminate Hd].
  rewrite (Hp 200 d HL Hd). rewrite decide_True; [reflexivity|].
  vm_compute in Hd. injection Hd as <-. vm_compute. split; [discriminate|]. split; [reflexivity|discriminate].
Defined.

(** ** Ending processes *)

(** C35: One pass of the reaper removes exactly the dead processes from the process list and from
    memory, keeps all others as they are, and gives back every frame of the dead processes' address
    spaces, pages and page tables; that is, if no dead process has a closed descriptor, a null entry in its
    table ([fds_ok]).  If one has, the pass faults: [Process::terminate] goes through every entry. *)
Theorem reap_buries_the_dead {P} `{!SchedulerPolicy P, !PolicyLaws P} (s : sched (P := P)) R B L :
  inv_at s R B L → cur s ≠ idle s →
  (¬ fds_ok s L → reap s = Fault) ∧
  (fds_ok s L → ∃ s', reap s = Ok (s', ()) ∧ inv_at s' R B (alive (procs s) L) ∧ cur s' = cur s ∧
    (∀ p d, p ∈ L → procs s !! p = Some d → procs s' !! p = if is_dead d then None else Some d) ∧
    (∀ p d l f, p ∈ L → procs s !! p = Some d → is_dead d = true → pml4 d ≠ kernel_pml4 (sc_vm s) →
       user_path (get_kernel_pml4_index (sc_vm s)) l →
       walk (phys (sc_vm s)) (hhdm_vtop (sc_vm s) (pml4 d)) l = Some f →
       frame_free (vm_pmm (sc_vm s')) (frame_at f) = true)).
Proof.
  intros Hinv Hne. split.
  { intros Hn. destruct (fds_cases s L) as [?|(p & Hp & Hcl)]; [done|]. by eapply reap_faults. }
  intros Hfds. destruct (wp_total _ _ _ (reap_ok s R B L Hinv Hne Hfds)) as (s' & [] & Hrun & Hi' & Hpr & Hc & Hg).
  exists s'. split; [done|]. split; [done|]. split; [done|]. split.
  - intros p d Hp Hd. rewrite Hpr. destruct (is_dead d) eqn:Hdd.
    + apply map_lookup_filter_None. right. intros e He Hn. apply Hn. split; [done|]. cbn. congruence.
    + apply map_lookup_filter_Some. split; [done|]. cbn. intros [_ ?]. congruence.
  - intros p d l f Hp Hd Hdd Hk Hl Hw. apply (Hg p d f); [done..|]. split; [done|]. by exists l.
Qed.

(** The thread waits for the user process, which exits; the thread collects its status, which leaves
    the process dead. *)
Definition demo4 := after (Wait 0 3) demo3.
Definition demo5 := after Exit demo4.
Definition demo6 := after (Wait 0 3) demo5.

Lemma demo_curs : (cur demo4 = 300 ∧ idle demo4 = 100) ∧ (cur demo5 = 200 ∧ idle demo5 = 100) ∧
  (cur demo6 = 200 ∧ idle demo6 = 100).
Proof. vm_compute. repeat split; reflexivity. Qed.

(** A property of all objects, by inspection of the table. *)
Lemma all_procs (s : sched (P := klist Z)) (f : Process → bool) :
  forallb f (map_to_list (procs s)).*2 = true → ∀ p d, procs s !! p = Some d → f d = true.
Proof.
  rewrite forallb_forall. intros Hf p d Hd. apply Hf, list_elem_of_In, list_elem_of_fmap. exists (p, d).
  split; [done|]. by apply elem_of_map_to_list.
Qed.

Lemma demo_parents (s : sched (P := klist Z)) :
  forallb (λ d, (parent d =? 0) || (parent d =? 200)) (map_to_list (procs s)).*2 = true →
  is_Some (procs s !! 200) →
  ∀ p d, procs s !! p = Some d → parent d ≠ 0 → is_Some (procs s !! parent d).
Proof.
  intros Hf H200 p d Hd Hp. pose proof (all_procs s _ Hf p d Hd) as H. cbn in H.
  assert (parent d = 200) as -> by lia. done.
Qed.

Lemma demo_inv5 : inv demo5.
Proof.
  destruct demo_curs as ((C4 & I4) & _ & _). destruct demo3_cur as [C3 I3].
  apply inv_after; [apply inv_after; [exact demo_inv3|]|].
  - cbn [allowed]. rewrite C3, I3. done.
  - cbn [allowed]. fold demo4. rewrite C4, I4. done.
Qed.

Lemma demo_inv6 : inv demo6.
Proof.
  destruct demo_curs as (_ & (C5 & I5) & _). apply inv_after; [exact demo_inv5|].
  cbn [allowed]. rewrite C5, I5. done.
Qed.

Lemma demo6_listed R B L : inv_at demo6 R B L → 300 ∈ L.
Proof.
  intros Hi. destruct (kl_store (g_processes demo6) !! 2) as [n|] eqn:Hn; [|by vm_compute in Hn].
  pose proof (listed_node _ _ _ _ _ _ Hi Hn) as HL. vm_compute in Hn. by injection Hn as <-.
Qed.

Lemma reap_buries_the_dead_witness :
  state <$> procs demo6 !! 300 = Some DEAD ∧ frame_free (vm_pmm (sc_vm demo6)) 6 = false ∧
  ∃ s', reap demo6 = Ok (s', ()) ∧ procs s' !! 300 = None ∧ frame_free (vm_pmm (sc_vm s')) 6 = true.
Proof.
  split; [vm_compute; reflexivity|]. split; [vm_compute; reflexivity|].
  destruct demo_inv6 as (R & B & L & Hi). pose proof (demo6_listed R B L Hi) as HL.
  destruct (reap_buries_the_dead demo6 R B L Hi) as [_ H].
  { rewrite (proj1 (proj2 (proj2 demo_curs))), (proj2 (proj2 (proj2 demo_curs))). discriminate. }
  destruct H as (s' & Hrun & _ & _ & Hp & Hf).
  - intros p d _ Hd _. assert (forallb (λ x, negb (x =? 0)) (fd_table d) = true) as H0.
    { apply (all_procs demo6 (λ d, forallb (λ x, negb (x =? 0)) (fd_table d))) with p; [vm_compute; reflexivity|exact Hd]. }
    rewrite forallb_forall in H0. intros Hin%list_elem_of_In%H0. discriminate Hin.
  - exists s'. split; [exact Hrun|]. destruct (procs demo6 !! 300) as [d|] eqn:Hd; [|vm_compute in Hd; discriminate Hd].
    rewrite (Hp 300 d HL Hd). split; [vm_compute in Hd; injection Hd as <-; reflexivity|].
    apply (Hf 300 d [0; 0; 2; 0] 0x6000 HL Hd).
    + vm_compute in Hd. injection Hd as <-. reflexivity.
    + vm_compute in Hd. injection Hd as <-. vm_compute. discriminate.
    + split; [cbn; lia|]. split; repeat constructor; vm_compute; congruence.
    + vm_compute in Hd. injection Hd as <-. vm_compute. reflexivity.
Defined.

(** A round of [yield_to_child] returns [-ECHILD] to a caller without a matching child, the exit
    status of a matching zombie child if there is one, which then is dead and so given back by the
    reaper, and otherwise leaves the CPU to another process; the scheduler's invariant is kept. *)
Theorem wait_collects_zombie {P} `{!SchedulerPolicy P, !PolicyLaws P} time rsp child (s : sched (P := P)) R B L me :
  inv_at s R B L → cur s ≠ idle s → parents_ok s L → procs s !! cur s = Some me →
  ∃ s' r, yield_to_child time rsp child s = Ok (s', r) ∧ inv s' ∧
    (children (procs s) me child L = [] → r = (Return, Some (- ECHILD)) ∧ procs s' = procs s) ∧
    (∀ z, z ∈ children (procs s) me child L → zombie_at (procs s) z = true →
       ∃ c d, c ∈ children (procs s) me child L ∧ procs s !! c = Some d ∧ state d = ZOMBIE ∧
         r = (Return, Some (exit_status d)) ∧ state <$> procs s' !! c = Some DEAD ∧ cur s' = cur s) ∧
    (children (procs s) me child L ≠ [] → zombies (procs s) (children (procs s) me child L) = [] →
       r = (Switch (cur s'), None)).
Proof.
  intros Hinv Hne Hpar Hme.
  destruct (wp_total _ _ _ (yield_to_child_ok time rsp child s R B L Hinv Hne Hpar)) as (s' & r & Hrun & [Hi' Hw] & Hres).
  destruct Hres as (me' & Hme' & H0 & Hz & Hn). rewrite Hme in Hme'. injection Hme' as <-.
  exists s', r. split; [done|]. split; [done|]. pose proof (si_placed _ _ _ _ _ (iv_inv _ _ _ _ Hinv)) as Hpl.
  assert (∀ z, z ∈ children (procs s) me child L → z ≠ 0 ∧ ∃ d, procs s !! z = Some d) as Hch.
  { intros z [_ HzL]%list_elem_of_filter. split; [|by apply (pl_dom _ _ _ _ _ Hpl)].
    intros ->. by apply (pl_nz _ _ _ _ _ Hpl). }
  unfold the_child in *. split; [|split].
  - intros Hnil. apply H0. by rewrite Hnil.
  - intros z Hzin Hzz. assert (z ∈ zombies (procs s) (children (procs s) me child L)) as Hzs by (by apply list_elem_of_filter).
    destruct (zombies _ _) as [|c zs] eqn:Hzl; [by apply not_elem_of_nil in Hzs|]. cbn [head] in *.
    assert (c ∈ zombies (procs s) (children (procs s) me child L)) as [Hcz Hc]%list_elem_of_filter by (rewrite Hzl; left).
    destruct (Hch c Hc) as [Hc0 [d Hd]]. unfold zombie_at in Hcz. rewrite Hd in Hcz.
    apply bool_decide_eq_true_1 in Hcz. destruct (Hz d Hc0 Hd Hcz) as [-> Hst]. exists c, d. by split_and!.
  - intros Hc Hnz. rewrite Hnz in *. cbn [head] in *. destruct (children (procs s) me child L) as [|c cs] eqn:Hcs; [done|].
    destruct (Hch c) as [Hc0 [d Hd]]; [left|]. cbn in Hn, Hd. assert (state d ≠ ZOMBIE) as Hnzd.
    { intros Hs. assert (c ∈ zombies (procs s) (c :: cs)) as Hin.
      { apply list_elem_of_filter. split; [|left]. unfold zombie_at. rewrite Hd. by apply bool_decide_eq_true_2. }
      rewrite Hnz in Hin. by apply not_elem_of_nil in Hin. }
    pose proof (Hn d Hc0 Hd Hnzd) as Hr. destruct r as [[|q] [v|]]; cbn in *; try done. by subst.
Qed.

Lemma wait_collects_zombie_witness :
  ∃ s', yield_to_child demo_time 0 3 demo5 = Ok (s', (Return, Some 0)) ∧ state <$> procs s' !! 300 = Some DEAD.
Proof.
  destruct demo_inv5 as (R & B & L & Hi).
  destruct (procs demo5 !! 200) as [me|] eqn:Hme; [|vm_compute in Hme; discriminate Hme].
  destruct (procs demo5 !! 300) as [d|] eqn:Hd; [|vm_compute in Hd; discriminate Hd].
  assert (300 ∈ L) as HL.
  { destruct (kl_store (g_processes demo5) !! 2) as [n|] eqn:Hn; [|vm_compute in Hn; discriminate Hn].
    pose proof (listed_node _ _ _ _ _ _ Hi Hn) as HL. vm_compute in Hn. injection Hn as <-. exact HL. }
  assert (∀ c, c ∈ children (procs demo5) me 3 L → c = 300) as Honly.
  { intros c [Hc _]%list_elem_of_filter. unfold is_child in Hc.
    destruct (procs demo5 !! c) as [e|] eqn:He; [|discriminate Hc].
    assert (pid e =? 3 = true → c = 300) as Hc3; [|apply Hc3; destruct (pid e =? 3); [reflexivity|discriminate Hc]].
    intros Hpid. apply elem_of_map_to_list in He. assert (forallb (λ x, implb (pid x.2 =? 3) (x.1 =? 300)) (map_to_list (procs demo5)) = true) as Hall
      by (vm_compute; reflexivity).
    rewrite forallb_forall in Hall. specialize (Hall (c, e) (proj1 (list_elem_of_In _ _) He)). cbn [fst snd] in Hall.
    rewrite Hpid in Hall. apply Z.eqb_eq. exact Hall. }
  destruct (wait_collects_zombie demo_time 0 3 demo5 R B L me Hi) as (s' & r & Hrun & _ & _ & Hz & _).
  - rewrite (proj1 (proj1 (proj2 demo_curs))), (proj2 (proj1 (proj2 demo_curs))). discriminate.
  - intros p e _. apply demo_parents; [vm_compute; reflexivity|rewrite Hme; eexists; reflexivity].
  - rewrite (proj1 (proj1 (proj2 demo_curs))). exact Hme.
  - destruct (Hz 300) as (c & e & Hc & He & _ & Hr & Hst & _).
    + apply list_elem_of_filter. split; [|exact HL]. vm_compute in Hme. injection Hme as <-. vm_compute. reflexivity.
    + vm_compute. reflexivity.
    + rewrite (Honly c Hc) in *. exists s'. split; [|exact Hst]. rewrite Hrun, Hr. vm_compute in He.
      injection He as <-. reflexivity.
Defined.

(** ** The window in [yield_sleep_ns] *)

Section lost.
Context (new_addr : gmap Z (lnode Z) → Z) (time : nat → Z).
Hypothesis new_addr_fresh : ∀ m, (new_addr m ∉ dom m) ∧ new_addr m ≠ 0.
#[local] Instance lost_policy : SchedulerPolicy (klist Z) := RoundRobinScheduler new_addr.
#[local] Instance lost_laws : PolicyLaws (klist Z) := rr_laws new_addr new_addr_fresh.
Implicit Types (s : sched (P := klist Z)).

(** [p] is in no queue, not on the CPU, and asleep. *)
Definition lost s p : Prop :=
  p ≠ cur s ∧ state <$> procs s !! p = Some SLEEPING ∧
  ∃ pol R B L, g_scheduler_policy s = Some pol ∧ pol_rep pol R ∧ sleepers_rep (g_sleepers s) B ∧
    listed s L ∧ p ∈ L ∧ (p ∉ R) ∧ p ∉ vals B.

Lemma wp_switch_from_hole rsp c dc q s R B L (Q : control → sched → Prop) :
  sinv s R B L ({[q]} ∪ {[c]}) → q = idle s ∨ q ∈ L → c ≠ q → c ∈ L → procs s !! c = Some dc →
  state dc = SLEEPING → (∀ s', cur s' = q → lost s' c → Q (Switch q) s') →
  wp (_ ← activate_process time q; _ ← p_unlock; context_switch rsp c q) False Q s.
Proof.
  intros Hi Hq Hne HcL Hdc Hst HQ. destruct (in_known _ _ _ _ _ _ Hi Hq) as [Hq0 [d Hd]].
  apply wp_bind. eapply wp_activate; [done|set_solver|done..|].
  intros s1 Hi1 Hpr1 Hc1 _ _ _ _ _ _. apply wp_bind, wp_p_unlock. unfold context_switch.
  apply wp_bind. eapply wp_proc; [cbn; rewrite Hpr1; apply lookup_insert_eq|].
  apply wp_bind. eapply wp_update; [cbn; rewrite Hpr1, lookup_insert_ne by done; exact Hdc|].
  apply wp_modify, wp_ret. set (s2 := with_sc_cpu _ _).
  assert (cur s2 = q) as Hc2 by (rewrite <- Hc1; apply (proj1 (unlocked_ptrs s1))).
  apply HQ; [done|]. unfold lost. rewrite Hc2. split; [done|]. split.
  { cbn. rewrite lookup_insert_eq. cbn. by rewrite Hst. }
  destruct Hi1 as [(pol & Hpol & Hrep) Hsl Hli _ Hpl _ _]. exists pol, R, B, L. split_and!; try done;
    apply (pl_in _ _ _ _ _ Hpl c); [done|set_solver|done|set_solver].
Qed.

Lemma wp_preempt_sleeping rsp s R B L d (Q : control → sched → Prop) : on_cpu s R B L →
  preemption_enabled (sc_cpu s) = true → procs s !! cur s = Some d → state d = SLEEPING →
  TIME_SLICE_NS ≤ wrap64 (time (clock_reads s) - quantum_start_ns d) →
  (∀ q s', q ≠ cur s → cur s' = q → lost s' (cur s) → Q (Switch q) s') →
  wp (preempt time rsp) False Q s.
Proof.
  intros [Hi Hf HcL] Hen Hd Hst Hslice HQ. destruct (in_known _ _ _ _ _ _ Hi (or_intror HcL)) as [Hc0 _].
  pose proof (si_idle _ _ _ _ _ Hi) as (Hi0 & HiL & _).
  unfold preempt. apply wp_gets. rewrite Hen. cbn [negb]. apply wp_bind, wp_current; [done|].
  apply wp_bind, wp_idle; [done|]. apply wp_bind.
  rewrite (proj2 (Z.eqb_neq (cur s) (idle s))) by (intros He; by rewrite <- He in HiL).
  apply wp_bind, wp_get_time, wp_bind. eapply wp_proc; [done|].
  destruct (si_pol _ _ _ _ _ Hi) as (pol & Hpol & Hrep). eapply wp_in_policy; [exact Hpol|].
  cbn. unfold rr_should_preempt. apply wp_kassert. rewrite (proj2 (Z.eqb_neq (cur s) 0)) by done. cbn [negb].
  apply wp_ret. rewrite (proj2 (Z.leb_le _ _)) by done. cbn [negb]. set (s1 := with_policy _ _).
  assert (sinv s1 R B L {[cur s]}) as Hi1 by (destruct Hi; split; try done; by exists pol).
  apply wp_bind, wp_p_lock; [done|]. apply wp_bind. eapply wp_pick_next; [by apply sinv_lock|].
  intros q s2 R2 B2 D Hpk. pose proof (picked_known _ _ _ _ _ _ _ _ _ _ _ Hpk) as Hq.
  pose proof (pk_inv _ _ _ _ _ _ _ _ _ _ _ Hpk) as Hi2.
  assert (cur s ≠ q) as Hne.
  { intros <-. destruct (pk_ready _ _ _ _ _ _ _ _ _ _ _ Hpk) as [(Hx & _)|(_ & _ & Hx)]; [|set_solver].
    apply HiL. change (cur s = idle s) in Hx. by rewrite <- Hx. }
  rewrite (proj2 (Z.eqb_neq _ _)) by done.
  assert (procs s2 !! cur s = Some d) as Hd2.
  { rewrite (pk_procs _ _ _ _ _ _ _ _ _ _ _ Hpk), woken_elsewhere; [done|].
    eapply (hole_not_due s1); [exact Hi1|apply (pk_split _ _ _ _ _ _ _ _ _ _ _ Hpk)|set_solver]. }
  apply wp_bind. eapply wp_update; [done|]. unfold pause. rewrite decide_False by (by rewrite Hst).
  assert (with_procs (insert (cur s) d) s2 = s2) as ->.
  { destruct s2. unfold with_procs. cbn in *. by rewrite insert_id. }
  apply wp_bind. unfold enqueue_if_runnable. apply wp_bind, wp_idle; [apply Hi2|].
  rewrite (proj2 (Z.eqb_neq (cur s) (idle s2))) by (intros He; apply (si_idle _ _ _ _ _ Hi2); by rewrite <- He).
  apply wp_bind. eapply wp_proc; [done|]. unfold is_ready. rewrite Hst. cbn [negb orb bool_decide]. apply wp_ret.
  eapply wp_switch_from_hole; [exact Hi2|done..|]. intros s' Hc' Hl. by apply HQ.
Qed.

Lemma wp_tick_sleeping rsp s R B L d (Q : control → sched → Prop) : on_cpu s R B L →
  preemption_enabled (sc_cpu s) = true → procs s !! cur s = Some d → state d = SLEEPING →
  (∀ n, (clock_reads s ≤ n)%nat → TIME_SLICE_NS ≤ wrap64 (time n - quantum_start_ns d)) →
  (∀ q s', q ≠ cur s → cur s' = q → lost s' (cur s) → Q (Switch q) s') →
  wp (tick time rsp) False Q s.
Proof.
  intros [Hi Hf HcL] Hen Hd Hst Hslice HQ. unfold tick. apply wp_gets.
  destruct (si_pol _ _ _ _ _ Hi) as (pol & -> & _). apply wp_bind. eapply wp_wake_sleepers; [done|].
  intros s1 D B1 [H1 H2 H3 H4 H5 H6 H7]. destruct (still_cur _ _ H4) as [Hc1 _].
  eapply (wp_preempt_sleeping rsp s1 _ B1 L d); rewrite ?Hc1.
  - split; rewrite ?Hc1; [exact H6|by rewrite (st_lock _ _ H4)|done].
  - unfold sc_cpu. by rewrite (st_vm _ _ H4).
  - rewrite H5, woken_elsewhere; [done|]. eapply (hole_not_due s); [exact Hi|exact H1|set_solver].
  - done.
  - by apply Hslice.
  - done.
Qed.

(** [yield_sleep_ns] marks the caller as sleeping before it takes the scheduler's lock.  If the
    timer interrupt comes in between, with the caller's time slice used up, the caller is switched away
    from while it is neither ready nor among the sleepers: no queue of the scheduler holds it, and no
    wake-up by event chooses it, so it never runs again. *)
Theorem sleep_window_loses_caller rsp ns s R B L d :
  inv_at s R B L → cur s ≠ idle s → preemption_enabled (sc_cpu s) = true → procs s !! cur s = Some d →
  (∀ n, (clock_reads s ≤ n)%nat → TIME_SLICE_NS ≤ wrap64 (time n - quantum_start_ns d)) →
  ∃ s1 s2 q, sleep_mark time ns s = Ok (s1, ()) ∧ tick time rsp s1 = Ok (s2, Switch q) ∧
    q ≠ cur s ∧ lost s2 (cur s) ∧ ∀ matches L', cur s ∉ to_wake matches (procs s2) L'.
Proof.
  intros Hinv Hne Hen Hd Hslice. pose proof (inv_on_cpu _ _ _ _ Hinv Hne) as Hoc.
  destruct (inv_cur _ _ _ _ Hinv) as [Hc0 _].
  set (d' := sleep_for (time (clock_reads s)) ns d).
  set (s1 := with_procs (insert (cur s) d') (with_reads (S (clock_reads s)) s)).
  assert (wp (sleep_mark time ns) False (λ _ s', s' = s1) s) as Hmark.
  { unfold sleep_mark. apply wp_bind, wp_current; [done|]. apply wp_bind, wp_get_time. by eapply wp_update. }
  destruct (wp_total _ _ _ Hmark) as (? & [] & Hrun1 & ->).
  assert (on_cpu s1 R B L) as Hoc1.
  { apply (on_cpu_set (with_reads _ s) R B L d d'); [|done|done]. destruct Hoc as [[] ? ?]. split; [by split|done..]. }
  assert (wp (tick time rsp) False (λ c s2, ∃ q, c = Switch q ∧ q ≠ cur s ∧ lost s2 (cur s)) s1) as Htick.
  { eapply (wp_tick_sleeping rsp s1 R B L d'); [done|done|apply lookup_insert_eq|done| |].
    - intros n Hn. apply Hslice. cbn in Hn. lia.
    - intros q s' Hq Hc Hl. by exists q. }
  destruct (wp_total _ _ _ Htick) as (s2 & c & Hrun2 & q & -> & Hq & Hl). exists s1, s2, q.
  split; [done|]. split; [done|]. split; [done|]. split; [done|].
  intros matches L' (_ & e & He & Hb)%to_wake_sub. destruct Hl as (_ & Hst & _). rewrite He in Hst. cbn in Hst. congruence.
Qed.
End lost.

Lemma sleep_window_loses_caller_witness :
  ∃ s1 s2 q, sleep_mark demo_time 1000 demo3 = Ok (s1, ()) ∧ tick demo_time 0 s1 = Ok (s2, Switch q) ∧
    lost bump bump_fresh s2 200.
Proof.
  destruct demo_inv3 as (R & B & L & Hi).
  destruct (procs demo3 !! 200) as [d|] eqn:Hd; [|vm_compute in Hd; discriminate Hd].
  destruct (sleep_window_loses_caller bump demo_time bump_fresh 0 1000 demo3 R B L d Hi) as (s1 & s2 & q & H1 & H2 & _ & H3 & _).
  - rewrite (proj1 demo3_cur), (proj2 demo3_cur). discriminate.
  - vm_compute. reflexivity.
  - rewrite (proj1 demo3_cur). exact Hd.
  - assert (quantum_start_ns d = 40000000) as -> by (vm_compute in Hd; injection Hd as <-; reflexivity).
    assert (clock_reads demo3 = 3%nat) as -> by (vm_compute; reflexivity).
    intros n Hn. unfold TIME_SLICE_NS, demo_time. wrap_lia.
  - rewrite (proj1 demo3_cur) in H3. exists s1, s2, q. exact (conj H1 (conj H2 H3)).
Defined.
