(* ===== verification/Crt.v ===== *)
(** * C runtime

    The memory and string functions of [src/kernel/lib/crt/crt.c], over a byte-addressed memory in
    which an access outside the mapped addresses faults.  [memmove] is a simultaneous copy however the
    two ranges overlap; [memcpy] is one where they are disjoint or the destination is below. *)

From S2P Require Import Prelude.

(** Bytes by address. *)
Abbreviation mem := (gmap Z Z).

Definition load8 (a : Z) : M mem Z := o ← gets (lookup a); of_option o.
Definition store8 (a b : Z) : M mem unit := _ ← load8 a; modify (insert a b).

(** ** Memory functions *)

Definition copy8 (d s i : Z) : M mem unit := b ← load8 (s + i); store8 (d + i) b.

Definition memcpy (dest src count : Z) : M mem Z :=
  _ ← for_each (seqZ 0 count) (copy8 dest src);
  mret dest.

Definition memmove (dest src count : Z) : M mem Z :=
  _ ← (if dest <? src then for_each (seqZ 0 count) (copy8 dest src)
       else for_each (reverse (seqZ 0 count)) (copy8 dest src));
  mret dest.

(** [(unsigned char)val]. *)
Definition memset (dest val count : Z) : M mem Z :=
  _ ← for_each (seqZ 0 count) (λ i, store8 (dest + i) (wrap8 val));
  mret dest.

Fixpoint memcmp_loop (n : nat) (a b : Z) : M mem Z :=
  match n with
  | O => mret 0
  | S n' =>
      x ← load8 a; y ← load8 b;
      if negb (x =? y) then mret (x - y) else memcmp_loop n' (a + 1) (b + 1)
  end.
Definition memcmp (s1 s2 count : Z) : M mem Z := memcmp_loop (Z.to_nat count) s1 s2.

(** ** String functions

    A loop over a string ends at its terminator, or faults where the memory ends; the number of
    mapped bytes bounds its rounds. *)

Fixpoint strlen_loop (fuel : nat) (str len : Z) : M mem Z :=
  c ← load8 (str + len);
  if c =? 0 then mret len else
  match fuel with O => hang | S fuel' => strlen_loop fuel' str (len + 1) end.
Definition strlen (str : Z) : M mem Z := n ← gets size; strlen_loop n str 0.

Fixpoint strcmp_loop (fuel : nat) (s1 s2 : Z) : M mem Z :=
  x ← load8 s1;
  if x =? 0 then y ← load8 s2; mret (x - y) else
  y ← load8 s2;
  if negb (x =? y) then mret (x - y) else
  match fuel with O => hang | S fuel' => strcmp_loop fuel' (s1 + 1) (s2 + 1) end.
Definition strcmp (s1 s2 : Z) : M mem Z := n ← gets size; strcmp_loop n s1 s2.

Fixpoint strncmp_loop (n : nat) (s1 s2 : Z) : M mem Z :=
  match n with
  | O => mret 0
  | S n' =>
      x ← load8 s1; y ← load8 s2;
      if negb (x =? y) || (x =? 0) then mret (x - y) else strncmp_loop n' (s1 + 1) (s2 + 1)
  end.
Definition strncmp (s1 s2 n : Z) : M mem Z := strncmp_loop (Z.to_nat n) s1 s2.

(** The copying loop of [strcpy] and [strcat]: the terminator is copied too. *)
Fixpoint copy_string (fuel : nat) (d src : Z) : M mem unit :=
  c ← load8 src;
  _ ← store8 d c;
  if c =? 0 then mret () else
  match fuel with O => hang | S fuel' => copy_string fuel' (d + 1) (src + 1) end.
Definition strcpy (dest src : Z) : M mem Z :=
  n ← gets size;
  _ ← copy_string n dest src;
  mret dest.

(** The first loop of [strncpy] returns how many bytes are left for the second. *)
Fixpoint strncpy_copy (n : nat) (dest src : Z) : M mem nat :=
  match n with
  | O => mret O
  | S n' =>
      c ← load8 src;
      if c =? 0 then mret n else
      _ ← store8 dest c;
      strncpy_copy n' (dest + 1) (src + 1)
  end.
Definition strncpy (dest src n : Z) : M mem Z :=
  left_ ← strncpy_copy (Z.to_nat n) dest src;
  _ ← for_each (seqZ (n - Z.of_nat left_) (Z.of_nat left_)) (λ i, store8 (dest + i) 0);
  mret dest.

Definition strcat (dest src : Z) : M mem Z :=
  len ← strlen dest;
  n ← gets size;
  _ ← copy_string n (dest + len) src;
  mret dest.

(** ** Memory functions: proofs *)

Section memory.
Implicit Types (m : mem) (a b d s i n : Z).

(** The [n] bytes from [a] are mapped. *)
Definition mapped m a n : Prop := ∀ i, 0 ≤ i < n → is_Some (m !! (a + i)).

Lemma wp_load8 m a v E (Q : Z → mem → Prop) : m !! a = Some v → Q v m → wp (load8 a) E Q m.
Proof. intros Ha HQ. unfold load8, wp, mbind, M_bind, gets, of_option. by rewrite Ha. Qed.

Lemma load8_bind {B} m a v (k : Z → M mem B) : m !! a = Some v → (load8 a ≫= k) m = k v m.
Proof. intros Ha. unfold load8, mbind, M_bind, gets, of_option. by rewrite Ha. Qed.

Lemma wp_store8 m a v E (Q : unit → mem → Prop) : is_Some (m !! a) → Q () (<[a := v]> m) →
  wp (store8 a v) E Q m.
Proof. intros [w Ha] HQ. unfold store8. apply wp_bind. by eapply wp_load8. Qed.

(** No address is mapped or unmapped. *)
Definition same_addrs m m' : Prop := ∀ a, is_Some (m' !! a) ↔ is_Some (m !! a).

Lemma same_addrs_store m m' a v : same_addrs m m' → is_Some (m !! a) → same_addrs m (<[a := v]> m').
Proof.
  intros Hm Ha b. rewrite lookup_insert_is_Some, (Hm b).
  destruct (decide (a = b)) as [->|]; naive_solver.
Qed.

(** [m'] is [m] with the bytes at [d + i] for the offsets of [X] taken from [s + i] of [m0]. *)
Definition copied m0 m d s (X : Z → Prop) m' : Prop :=
  same_addrs m m' ∧
  (∀ i, X i → m' !! (d + i) = m0 !! (s + i)) ∧
  (∀ a, (∀ i, X i → a ≠ d + i) → m' !! a = m !! a).

(** Copying in an order in which no byte is overwritten before it is read. *)
Lemma wp_copy_bytes m d s n (l : list Z) : l ≡ₚ seqZ 0 n → mapped m d n → mapped m s n →
  (∀ pre x post y, l = pre ++ x :: post → y ∈ pre → s + x ≠ d + y) →
  wp (for_each l (copy8 d s)) False (λ _ m', copied m m d s (λ i, 0 ≤ i < n) m') m.
Proof.
  intros Hperm Hd Hs Horder.
  assert (∀ x, x ∈ l ↔ 0 ≤ x < n) as Hin by (intros; rewrite Hperm, elem_of_seqZ; lia).
  assert (NoDup l) as Hnd by (rewrite Hperm; apply NoDup_seqZ).
  eapply wp_mono; [apply (wp_for_each l _ False (λ pre m', copied m m d s (λ i, i ∈ pre) m')) | done |].
  - intros pre x post m' Hl (Hdom & Hset & Hrest).
    assert (0 ≤ x < n) as Hx by (apply Hin; rewrite Hl; apply elem_of_app; right; left).
    assert (m' !! (s + x) = m !! (s + x)) as Hsx.
    { apply Hrest. intros y Hy. by apply (Horder pre x post y). }
    destruct (Hs x Hx) as [v Hv]. unfold copy8. apply wp_bind. eapply wp_load8; [by rewrite Hsx|].
    apply wp_store8; [by apply Hdom, Hd|].
    split; [|split].
    + by apply same_addrs_store, Hd.
    + intros i [Hi| ->%list_elem_of_singleton]%elem_of_app.
      * assert (i ≠ x).
        { intros ->. rewrite Hl in Hnd. apply NoDup_app in Hnd as (_ & Hnd & _). apply (Hnd x Hi). left. }
        rewrite lookup_insert_ne by lia. by apply Hset.
      * by rewrite lookup_insert_eq, Hv.
    + intros a Ha. rewrite lookup_insert_ne by (intros Hax; by apply (Ha x); [apply elem_snoc|]).
      apply Hrest. intros i Hi. apply Ha. apply elem_of_app. by left.
  - split; [done|]. split; [by intros i ?%not_elem_of_nil|done].
  - intros [] m' (Hdom & Hset & Hrest). split; [done|]. split.
    + intros i Hi. by apply Hset, Hin.
    + intros a Ha. apply Hrest. intros i Hi. by apply Ha, Hin.
Qed.

Lemma seqZ_order n pre x post y : seqZ 0 n = pre ++ x :: post → y ∈ pre → y < x.
Proof.
  intros Hl Hy. apply list_elem_of_lookup in Hy as [j Hj].
  assert (seqZ 0 n !! j = Some y) as H1 by (rewrite Hl; by apply lookup_app_l_Some).
  assert (seqZ 0 n !! length pre = Some x) as H2 by (rewrite Hl; by apply list_lookup_middle).
  apply lookup_seqZ in H1 as [-> _], H2 as [-> _]. apply lookup_lt_Some in Hj. lia.
Qed.

Lemma wp_memcpy m d s n : mapped m d n → mapped m s n → d ≤ s ∨ s + n ≤ d →
  wp (memcpy d s n) False (λ r m', r = d ∧ copied m m d s (λ i, 0 ≤ i < n) m') m.
Proof.
  intros Hd Hs Hov. unfold memcpy. apply wp_bind. eapply wp_mono; [apply (wp_copy_bytes m d s n)|done|].
  - done.
  - done.
  - done.
  - intros pre x post y Hl Hy. pose proof (seqZ_order _ _ _ _ _ Hl Hy).
    assert (x ∈ seqZ 0 n) as Hx%elem_of_seqZ by (rewrite Hl; apply elem_of_app; right; left).
    assert (y ∈ seqZ 0 n) as Hy'%elem_of_seqZ by (rewrite Hl; apply elem_of_app; by left). lia.
  - intros [] m' Hc. by apply wp_ret.
Qed.

Lemma wp_memmove m d s n : mapped m d n → mapped m s n →
  wp (memmove d s n) False (λ r m', r = d ∧ copied m m d s (λ i, 0 ≤ i < n) m') m.
Proof.
  intros Hd Hs. unfold memmove. apply wp_bind. destruct (Z.ltb_spec d s).
  - eapply wp_mono; [apply (wp_copy_bytes m d s n); [done..|]|done|].
    + intros pre x post y Hl Hy. pose proof (seqZ_order _ _ _ _ _ Hl Hy). lia.
    + intros [] m' Hc. by apply wp_ret.
  - eapply wp_mono; [apply (wp_copy_bytes m d s n); [by rewrite reverse_Permutation|done..|]|done|].
    + intros pre x post y Hl Hy. apply (f_equal reverse) in Hl. rewrite reverse_involutive, reverse_app, reverse_cons in Hl.
      rewrite <- app_assoc in Hl. cbn in Hl.
      assert (x < y); [|lia]. clear -Hl Hy.
      apply list_elem_of_split in Hy as (p1 & p2 & ->). rewrite reverse_app, reverse_cons in Hl.
      rewrite <- !app_assoc in Hl. cbn in Hl.
      eapply (seqZ_order n (reverse post ++ x :: reverse p2) y (reverse p1) x).
      * rewrite Hl, <- app_assoc. done.
      * apply elem_of_app. right. left.
    + intros [] m' Hc. by apply wp_ret.
Qed.

Lemma wp_memset m d v n : mapped m d n →
  wp (memset d v n) False (λ r m', r = d ∧ same_addrs m m' ∧
    (∀ i, 0 ≤ i < n → m' !! (d + i) = Some (wrap8 v)) ∧
    (∀ a, (∀ i, 0 ≤ i < n → a ≠ d + i) → m' !! a = m !! a)) m.
Proof.
  intros Hd. unfold memset. apply wp_bind.
  eapply wp_mono; [apply (wp_for_each (seqZ 0 n) _ False (λ pre m', same_addrs m m' ∧
    (∀ i, i ∈ pre → m' !! (d + i) = Some (wrap8 v)) ∧ (∀ a, (∀ i, i ∈ pre → a ≠ d + i) → m' !! a = m !! a)))|done|].
  - intros pre x post m' Hl (Hdom & Hset & Hrest).
    assert (x ∈ seqZ 0 n) as Hx%elem_of_seqZ by (rewrite Hl; apply elem_of_app; right; left).
    apply wp_store8; [apply Hdom, Hd; lia|].
    split; [|split].
    + apply same_addrs_store; [done|]. apply Hd. lia.
    + intros i [Hi| ->%list_elem_of_singleton]%elem_of_app; [|by rewrite lookup_insert_eq].
      rewrite lookup_insert. case_decide; [done|by apply Hset].
    + intros a Ha. rewrite lookup_insert_ne by (intros Hax; by apply (Ha x); [apply elem_snoc|]).
      apply Hrest. intros i Hi. apply Ha. apply elem_of_app. by left.
  - split; [done|]. split; [by intros i ?%not_elem_of_nil|done].
  - intros [] m' (Hdom & Hset & Hrest). apply wp_ret. split_and!; [done..| |].
    + intros i Hi. apply Hset, elem_of_seqZ. lia.
    + intros a Ha. apply Hrest. intros i Hi%elem_of_seqZ. apply Ha. lia.
Qed.
End memory.

(** ** String functions: proofs *)

#[local] Coercion Z.of_nat : nat >-> Z.

Section strings.
Implicit Types (m : mem) (a b d : Z) (l : list Z).

(** The bytes of [l] lie at [a]. *)
Fixpoint bytes_at m a l : Prop :=
  match l with [] => True | c :: l' => m !! a = Some c ∧ bytes_at m (a + 1) l' end.

(** [a] points to the string [l]: its bytes, none of them NUL, and a NUL. *)
Definition cstr m a l : Prop := bytes_at m a (l ++ [0]) ∧ Forall (λ c, c ≠ 0) l.

Lemma bytes_at_app m a l1 l2 :
  bytes_at m a (l1 ++ l2) ↔ bytes_at m a l1 ∧ bytes_at m (a + length l1) l2.
Proof.
  revert a. induction l1 as [|c l1 IH]; intros a; cbn; [rewrite Z.add_0_r; naive_solver|].
  rewrite IH. replace (a + S (length l1)) with (a + 1 + length l1) by lia. naive_solver.
Qed.

Lemma bytes_at_lookup m a l : bytes_at m a l ↔ ∀ i c, l !! i = Some c → m !! (a + Z.of_nat i) = Some c.
Proof.
  revert a. induction l as [|c l IH]; intros a; cbn; [naive_solver|]. rewrite IH. split.
  - intros [Hc Hl] [|i] x Hi; cbn in Hi; [simplify_eq; by rewrite Z.add_0_r|].
    rewrite <- (Hl i x Hi). f_equal. lia.
  - intros H. split; [by rewrite <- (H 0%nat c eq_refl), Z.add_0_r|].
    intros i x Hi. rewrite <- (H (S i) x Hi). f_equal. lia.
Qed.

Lemma bytes_at_bound m a l : bytes_at m a l → (length l ≤ size m)%nat.
Proof.
  revert m a. induction l as [|c l IH]; intros m a; cbn; [lia|]. intros [Hc Hl].
  assert (bytes_at (delete a m) (a + 1) l) as Hd.
  { apply bytes_at_lookup. intros i x Hi. rewrite lookup_delete_ne by lia. by apply (proj1 (bytes_at_lookup m (a + 1) l)). }
  apply IH in Hd. rewrite map_size_delete, Hc in Hd. cbn in Hd.
  assert (size m ≠ 0%nat); [|lia]. intros H0%map_size_empty_iff. by rewrite H0 in Hc.
Qed.

Lemma bytes_at_store m a l b v : bytes_at m a l → b < a ∨ a + length l ≤ b → bytes_at (<[b := v]> m) a l.
Proof.
  rewrite !bytes_at_lookup. intros H Hb i c Hi. rewrite lookup_insert_ne; [by apply H|].
  apply lookup_lt_Some in Hi. lia.
Qed.

Lemma cstr_cons m a c l : cstr m a (c :: l) → m !! a = Some c ∧ c ≠ 0 ∧ cstr m (a + 1) l.
Proof. intros [[Hc Hl] [Hn Hf]%Forall_cons]. done. Qed.

Lemma cstr_nil m a : cstr m a [] → m !! a = Some 0.
Proof. by intros [[H _] _]. Qed.

Lemma cstr_bound m a l : cstr m a l → (length l < size m)%nat.
Proof. intros [Hb%bytes_at_bound _]. rewrite length_app in Hb. cbn in Hb. lia. Qed.

Lemma strlen_loop_ok m str l fuel k : cstr m (str + k) l → (length l ≤ fuel)%nat →
  strlen_loop fuel str k m = Ok (m, k + length l).
Proof.
  revert fuel k. induction l as [|c l IH]; intros fuel k Hs Hf.
  - apply cstr_nil in Hs. destruct fuel; cbn [strlen_loop];
      rewrite (load8_bind _ _ _ _ Hs); cbn; by rewrite Z.add_0_r.
  - apply cstr_cons in Hs as (Hc & Hn & Hs). destruct fuel as [|fuel]; cbn in Hf; [lia|].
    cbn [strlen_loop]. rewrite (load8_bind _ _ _ _ Hc).
    destruct (Z.eqb_spec c 0); [done|]. rewrite IH; [|by rewrite Z.add_assoc|lia]. do 2 f_equal. cbn. lia.
Qed.

Lemma strlen_ok m a l : cstr m a l → strlen a m = Ok (m, Z.of_nat (length l)).
Proof.
  intros Hs. pose proof (cstr_bound _ _ _ Hs). unfold strlen, mbind, M_bind, gets. cbn.
  rewrite (strlen_loop_ok m a l); [done| |lia]. by rewrite Z.add_0_r.
Qed.

(** The comparison [strcmp] makes: the first difference, the shorter string first. *)
Fixpoint str_diff (l1 l2 : list Z) : Z :=
  match l1, l2 with
  | [], [] => 0
  | [], y :: _ => - y
  | x :: _, [] => x
  | x :: l1', y :: l2' => if x =? y then str_diff l1' l2' else x - y
  end.

Lemma str_diff_eq l1 l2 : Forall (λ c, c ≠ 0) l1 → Forall (λ c, c ≠ 0) l2 →
  str_diff l1 l2 = 0 ↔ l1 = l2.
Proof.
  intros H1. revert l2. induction H1 as [|x l1 Hx Hl1 IH]; intros l2 H2; destruct H2 as [|y l2 Hy Hl2]; cbn.
  - done.
  - split; [lia|done].
  - split; [lia|done].
  - destruct (Z.eqb_spec x y) as [->|]; [rewrite IH by done; naive_solver|]. split; [lia|intros [= ]; lia].
Qed.

Lemma strcmp_loop_ok m a b l1 l2 fuel : cstr m a l1 → cstr m b l2 → (length l1 ≤ fuel)%nat →
  strcmp_loop fuel a b m = Ok (m, str_diff l1 l2).
Proof.
  revert a b l2 fuel. induction l1 as [|x l1 IH]; intros a b l2 fuel H1 H2 Hf.
  - apply cstr_nil in H1.
    assert (∃ y, m !! b = Some y ∧ str_diff [] l2 = 0 - y) as (y & Hy & Hd).
    { destruct l2 as [|y l2]; [exists 0; by apply cstr_nil in H2|].
      apply cstr_cons in H2 as (Hy & _). exists y. split; [done|]. cbn. lia. }
    destruct fuel; cbn [strcmp_loop]; rewrite (load8_bind _ _ _ _ H1); cbn -[load8 mbind];
      rewrite (load8_bind _ _ _ _ Hy); cbn in Hd; by rewrite Hd.
  - apply cstr_cons in H1 as (Hx & Hnx & H1). destruct fuel as [|fuel]; cbn in Hf; [lia|].
    cbn [strcmp_loop]. rewrite (load8_bind _ _ _ _ Hx).
    destruct (Z.eqb_spec x 0); [done|]. destruct l2 as [|y l2]; cbn [str_diff].
    + apply cstr_nil in H2. rewrite (load8_bind _ _ _ _ H2). destruct (Z.eqb_spec x 0); [done|]. cbn. by rewrite Z.sub_0_r.
    + apply cstr_cons in H2 as (Hy & Hny & H2). rewrite (load8_bind _ _ _ _ Hy). destruct (Z.eqb_spec x y) as [->|]; cbn; [|done].
      apply IH; [done|done|lia].
Qed.

Lemma strcmp_ok m a b l1 l2 : cstr m a l1 → cstr m b l2 → strcmp a b m = Ok (m, str_diff l1 l2).
Proof.
  intros H1 H2. pose proof (cstr_bound _ _ _ H1). unfold strcmp, mbind, M_bind, gets. cbn.
  apply strcmp_loop_ok; [done|done|lia].
Qed.

(** [strcpy] and [strcat] onto a destination that does not overlap the source. *)
Lemma wp_copy_string m d src l fuel (Q : unit → mem → Prop) :
  cstr m src l → mapped m d (length l + 1) → d + length l < src ∨ src + length l < d → (length l ≤ fuel)%nat →
  (∀ m', cstr m' d l → (∀ a, a < d ∨ d + length l < a → m' !! a = m !! a) → Q () m') →
  wp (copy_string fuel d src) False Q m.
Proof.
  revert m d src fuel Q. induction l as [|c l IH]; intros m d src fuel Q Hs Hd Hov Hf HQ.
  - apply cstr_nil in Hs. assert (Q () (<[d := 0]> m)) as HQ0.
    { apply HQ; [split; [|done]; split; [apply lookup_insert_eq|done]|].
      intros a Ha. cbn in Ha. apply lookup_insert_ne. lia. }
    destruct fuel; cbn [copy_string]; apply wp_bind; (eapply wp_load8; [done|]); apply wp_bind;
      (apply wp_store8; [rewrite <- (Z.add_0_r d); apply Hd; cbn; lia|]); by apply wp_ret.
  - pose proof Hs as (Hc & Hn & Hs')%cstr_cons. destruct fuel as [|fuel]; cbn in Hf; [lia|]. cbn in Hov, Hd.
    cbn [copy_string]. apply wp_bind. eapply wp_load8; [done|]. apply wp_bind.
    apply wp_store8; [rewrite <- (Z.add_0_r d); apply Hd; lia|].
    destruct (Z.eqb_spec c 0); [done|]. apply IH.
    + destruct Hs' as [Hb Hf']. split; [|done]. apply bytes_at_store; [done|]. rewrite length_app. cbn. lia.
    + intros i Hi. destruct (Hd (i + 1)) as [v Hv]; [lia|]. exists v.
      rewrite lookup_insert_ne by lia. rewrite <- Hv. f_equal. lia.
    + lia.
    + lia.
    + intros m' [Hb Hf'] Hrest. apply HQ.
      * split; [|by constructor]. cbn. split; [|done]. rewrite Hrest by lia. by rewrite lookup_insert_eq.
      * intros a Ha. cbn in Ha. rewrite Hrest by lia. apply lookup_insert_ne. lia.
Qed.

Lemma wp_strcat m d src l1 l2 (Q : Z → mem → Prop) :
  cstr m d l1 → cstr m src l2 → mapped m d (length l1 + length l2 + 1) →
  d + length l1 + length l2 < src ∨ src + length l2 < d →
  (∀ m', cstr m' d (l1 ++ l2) → (∀ a, a < d ∨ d + length l1 + length l2 < a → m' !! a = m !! a) → Q d m') →
  wp (strcat d src) False Q m.
Proof.
  intros H1 H2 Hd Hov HQ. unfold strcat. apply wp_bind. unfold wp at 1. rewrite (strlen_ok _ _ _ H1).
  apply wp_gets, wp_bind. pose proof (cstr_bound _ _ _ H2).
  apply (wp_copy_string m _ src l2); [done| |lia|lia|].
  - intros i Hi. rewrite <- Z.add_assoc. apply Hd. lia.
  - intros m' [Hb Hf] Hrest. apply wp_ret, HQ; [|intros a Ha; apply Hrest; lia].
    split; [|apply Forall_app; split; [apply H1|done]]. rewrite <- app_assoc. apply bytes_at_app. split; [|done].
    apply bytes_at_lookup. intros i c Hi. pose proof (lookup_lt_Some _ _ _ Hi). rewrite Hrest by lia.
    destruct H1 as [H1 _]. apply bytes_at_app in H1 as [H1 _]. by apply (proj1 (bytes_at_lookup _ _ _) H1).
Qed.
End strings.

(** ** Properties *)

(** All the bytes of the source taken before any byte of the destination is written. *)
Definition move (m : mem) (d s n : Z) : mem :=
  foldr (λ i m', match m !! (s + i) with Some b => <[d + i := b]> m' | None => m' end) m (seqZ 0 n).

Lemma move_lookup m d s n a : mapped m s n →
  move m d s n !! a = if bool_decide (d ≤ a < d + n) then m !! (s + (a - d)) else m !! a.
Proof.
  intros Hs. unfold move.
  assert (∀ l, (∀ i, i ∈ l → 0 ≤ i < n) →
    foldr (λ i m', match m !! (s + i) with Some b => <[d + i := b]> m' | None => m' end) m l !! a
    = if bool_decide ((a - d) ∈ l) then m !! (s + (a - d)) else m !! a) as Hl.
  { induction l as [|i l IH]; intros Hl; cbn [foldr]; [by rewrite bool_decide_false by (by intros ?%not_elem_of_nil)|].
    assert (∀ j, j ∈ l → 0 ≤ j < n) as Hl' by (intros j Hj; apply Hl; by right).
    destruct (Hs i) as [v Hv]; [apply Hl; left|]. rewrite Hv. destruct (decide (a = d + i)) as [->|Hne].
    - rewrite lookup_insert_eq. replace (d + i - d) with i by lia. by rewrite bool_decide_true by left.
    - rewrite lookup_insert_ne, IH by done. rewrite (bool_decide_ext (a - d ∈ i :: l) (a - d ∈ l)); [done|].
      rewrite elem_of_cons. split; [|by right]. intros [?|?]; [lia|done]. }
  rewrite Hl by (intros i Hi%elem_of_seqZ; lia).
  rewrite (bool_decide_ext (a - d ∈ seqZ 0 n) (d ≤ a < d + n)); [done|]. rewrite elem_of_seqZ. lia.
Qed.

Lemma copied_move m d s n m' : mapped m s n → copied m m d s (λ i, 0 ≤ i < n) m' → m' = move m d s n.
Proof.
  intros Hs (_ & Hset & Hrest). apply map_eq. intros a. rewrite move_lookup by done. case_bool_decide.
  - rewrite <- Hset by lia. f_equal. lia.
  - apply Hrest. intros i Hi. lia.
Qed.

(** [memmove] is a simultaneous copy: with both ranges mapped it never faults, and the memory it
    leaves is the one in which every byte of the destination range is the byte the source range held at
    entry, however the ranges overlap, and no other byte has changed; [memcpy] leaves the same memory
    where the destination starts at or below the source or the ranges are disjoint. *)
Theorem memmove_is_simultaneous (m : mem) (d s n : Z) : mapped m d n → mapped m s n →
  memmove d s n m = Ok (move m d s n, d) ∧
  (d ≤ s ∨ s + n ≤ d → memcpy d s n m = Ok (move m d s n, d)).
Proof.
  intros Hd Hs. split; [|intros Hov].
  - destruct (wp_total _ _ _ (wp_memmove m d s n Hd Hs)) as (m' & r & -> & -> & Hc).
    by rewrite <- (copied_move _ _ _ _ _ Hs Hc).
  - destruct (wp_total _ _ _ (wp_memcpy m d s n Hd Hs Hov)) as (m' & r & -> & -> & Hc).
    by rewrite <- (copied_move _ _ _ _ _ Hs Hc).
Qed.

(** Eight mapped bytes holding 1 to 8. *)
Definition demo_mem : mem := list_to_map (zip (seqZ 100 8) (seqZ 1 8)).

Lemma demo_mapped a n : 100 ≤ a → a + n ≤ 108 → mapped demo_mem a n.
Proof.
  intros Ha Hn i Hi.
  assert (a + i ∈ seqZ 100 8) as Hin by (apply elem_of_seqZ; lia). revert Hin.
  generalize (a + i). intros k Hk. cbv in Hk. repeat (apply elem_of_cons in Hk as [->|Hk]; [by eexists|]).
  by apply not_elem_of_nil in Hk.
Qed.

Lemma memmove_is_simultaneous_witness :
  memmove 102 100 4 demo_mem = Ok (move demo_mem 102 100 4, 102) ∧
  map_to_list (move demo_mem 102 100 4) ≡ₚ zip (seqZ 100 8) [1; 2; 1; 2; 3; 4; 7; 8].
Proof.
  split.
  - apply (memmove_is_simultaneous demo_mem 102 100 4); apply demo_mapped; discriminate.
  - apply (bool_decide_unpack _). vm_compute. exact I.
Defined.

(** Appending a C string: with room for both strings and a NUL at the destination, away from the
    source, [strcat] never faults, leaves the concatenation there with every byte outside it as it was,
    and [strlen] then returns the sum of the two lengths. *)
Lemma strcat_appends (m : mem) (d src : Z) (l1 l2 : list Z) :
  cstr m d l1 → cstr m src l2 → mapped m d (length l1 + length l2 + 1) →
  d + length l1 + length l2 < src ∨ src + length l2 < d →
  ∃ m', strcat d src m = Ok (m', d) ∧ cstr m' d (l1 ++ l2) ∧
    (∀ a, a < d ∨ d + length l1 + length l2 < a → m' !! a = m !! a) ∧
    strlen d m' = Ok (m', length l1 + length l2).
Proof.
  intros H1 H2 Hd Hov.
  destruct (wp_total (strcat d src) (λ r m', r = d ∧ cstr m' d (l1 ++ l2) ∧
    (∀ a, a < d ∨ d + length l1 + length l2 < a → m' !! a = m !! a)) m) as (m' & r & Hrun & -> & Hs & Hrest).
  { by eapply wp_strcat. }
  exists m'. split_and!; [done..|]. rewrite (strlen_ok _ _ _ Hs), length_app. do 2 f_equal. lia.
Qed.
