(* ===== verification/KString.v ===== *)
(** * Strings

    [src/kernel/include/containers/kstring.hpp] and [kstring_view.hpp].  The buffer of a [kstring] is
    a list of bytes, [None] where nothing has been written yet; using a byte outside the buffer, an
    unwritten one, [nullptr] or a freed buffer is a [Fault].  A [const char*] is the list of bytes
    readable from it on, [None] for [nullptr].  Constructors and methods that return a new string are
    bodies run on the empty string.  [kmalloc] is taken to deliver the buffers [grow] asks for. *)

From S2P Require Import Prelude.

#[local] Coercion Z.of_nat : nat >-> Z.

(** ** Buffers *)

Inductive buffer :=
| Null
| Buf (d : list (option Z))
| Freed.

Record kstring := mk_kstring {
  ks_data : buffer;
  ks_length : Z;
  ks_capacity : Z;
}.

Definition KS_INITIAL_CAPACITY : Z := 16.
Definition KS_GROWTH_RATE : Z := 2.
(** [static_cast<std::size_t>(-1)]. *)
Definition npos : Z := 2 ^ 64 - 1.

(** The bytes that can be read; [None] for [nullptr] and for a freed buffer. *)
Definition cells (b : buffer) : option (list (option Z)) :=
  match b with Buf d => Some d | Null | Freed => None end.

Definition byte_of (s : kstring) (i : Z) : option Z :=
  d ← cells (ks_data s);
  if 0 <=? i then mjoin (d !! Z.to_nat i) else None.

Definition ks_with_data (d : buffer) (s : kstring) : kstring := mk_kstring d (ks_length s) (ks_capacity s).
Definition ks_with_length (n : Z) (s : kstring) : kstring := mk_kstring (ks_data s) n (ks_capacity s).

(** [_data[i]] read. *)
Definition ch_read (i : Z) : M kstring Z := o ← gets (λ s, byte_of s i); of_option o.

(** Overwriting the bytes of a buffer from index [i] on. *)
Definition splice (i : nat) (src d : list (option Z)) : list (option Z) :=
  take i d ++ src ++ drop (i + length src) d.

(** Writing bytes at [_data + i]. *)
Definition ch_put (i : Z) (src : list (option Z)) : M kstring unit :=
  b ← gets ks_data;
  match b with
  | Buf d => if i + length src <=? length d then modify (ks_with_data (Buf (splice (Z.to_nat i) src d))) else fault
  | Null | Freed => fault
  end.
Definition ch_write (i c : Z) : M kstring unit := ch_put i [Some c].

(** [memcpy(_data + i, src, n)] from the bytes [src] readable at the source. *)
Definition ch_memcpy (i : Z) (src : list (option Z)) (n : Z) : M kstring unit :=
  if n <=? length src then ch_put i (take (Z.to_nat n) src) else fault.

(** [strlen]: the position of the first NUL. *)
Fixpoint c_strlen (l : list Z) : option Z :=
  match l with
  | [] => None
  | c :: l' => if c =? 0 then Some 0 else n ← c_strlen l'; Some (n + 1)
  end.

(** ** Capacity *)

Definition ks_grow : M kstring unit :=
  s ← get;
  let new_capacity :=
    if ks_capacity s =? 0 then KS_INITIAL_CAPACITY else wrap64 (ks_capacity s * KS_GROWTH_RATE) in
  let raw := replicate (Z.to_nat new_capacity) None in
  new_data ← match ks_data s with
             | Null => mret raw
             | Freed => fault
             | Buf d =>
                 if (ks_length s <=? length d) && (ks_length s <=? new_capacity)
                 then mret (splice 0 (take (Z.to_nat (ks_length s)) d) raw) else fault
             end;
  modify (λ s, mk_kstring (Buf new_data) (ks_length s) new_capacity).

(** 64 rounds double any capacity past [2^63]. *)
Definition ks_ensure_capacity (new_size : Z) : M kstring unit :=
  while 64 (gets (λ s, ks_capacity s <? new_size)) ks_grow.

Definition ks_ensure_null_terminated : M kstring unit :=
  s ← get;
  match ks_data s with Null => mret () | _ => ch_write (ks_length s) 0 end.

(** [kfree(_data)]: the pointer is left as it was. *)
Definition ks_free (s : kstring) : kstring :=
  ks_with_data (match ks_data s with Null => Null | _ => Freed end) s.

(** ** Constructors and assignments *)

Definition ks_new : kstring := mk_kstring Null 0 0.

Definition ks_from_cstr (p : option (list Z)) : M kstring unit :=
  match p with
  | None => mret ()
  | Some str =>
      len ← of_option (c_strlen str);
      _ ← ks_ensure_capacity (wrap64 (len + 1));
      _ ← ch_memcpy 0 (Some <$> str) (wrap64 (len + 1));
      modify (ks_with_length len)
  end.

Definition ks_from_cstr_n (p : option (list Z)) (count : Z) : M kstring unit :=
  match p with
  | None => mret ()
  | Some str =>
      _ ← ks_ensure_capacity (wrap64 (count + 1));
      _ ← ch_memcpy 0 (Some <$> str) (wrap64 (count + 1));
      _ ← modify (ks_with_length count);
      ch_write count 0
  end.

(** A new string, built by the constructor body [m]. *)
Definition construct {S} (m : M kstring unit) : M S kstring := zoom (λ _, ks_new) (λ t s, s) (_ ← m; get).

(** [kstring(kstring&&)]: the new string and what is left of [other]. *)
Definition ks_move (other : kstring) : kstring * kstring := (other, ks_new).

(** [memcpy(_data + i, other._data, n)]. *)
Definition ks_memcpy_from (i : Z) (other : kstring) (n : Z) : M kstring unit :=
  d ← of_option (cells (ks_data other));
  ch_memcpy i d n.

Definition ks_copy (other : kstring) : M kstring unit :=
  if ks_length other =? 0 then mret () else
  _ ← ks_ensure_capacity (wrap64 (ks_length other + 1));
  _ ← ks_memcpy_from 0 other (wrap64 (ks_length other + 1));
  modify (ks_with_length (ks_length other)).

(** The assignments, with [this != &other]. *)
Definition ks_move_assign (other : kstring) : M kstring kstring :=
  _ ← modify ks_free;
  _ ← modify (λ _, other);
  mret ks_new.

Definition ks_copy_assign (other : kstring) : M kstring unit :=
  _ ← modify ks_free;
  _ ← modify (λ _, ks_new);
  if ks_length other =? 0 then mret () else
  _ ← ks_ensure_capacity (wrap64 (ks_length other + 1));
  _ ← ks_memcpy_from 0 other (wrap64 (ks_length other + 1));
  modify (ks_with_length (ks_length other)).

Definition ks_assign_cstr (p : option (list Z)) : M kstring unit :=
  _ ← modify ks_free;
  _ ← modify (λ _, ks_new);
  match p with
  | None => mret ()
  | Some str =>
      len ← of_option (c_strlen str);
      _ ← ks_ensure_capacity (wrap64 (len + 1));
      _ ← ch_memcpy 0 (Some <$> str) (wrap64 (len + 1));
      modify (ks_with_length len)
  end.

(** ** Access *)

Definition ks_empty (s : kstring) : bool := ks_length s =? 0.
Definition ks_reserve (capacity : Z) : M kstring unit := ks_ensure_capacity capacity.
Definition ks_front : M kstring Z := ch_read 0.
Definition ks_back : M kstring Z := n ← gets ks_length; ch_read (wrap64 (n - 1)).

(** The bytes readable through [c_str()]. *)
Definition ks_c_str (s : kstring) : option (list (option Z)) :=
  match ks_data s with Null => Some [Some 0] | Buf d => Some d | Freed => None end.

(** The inner loop of [find]: do [len] bytes agree from [i + j] on? *)
Fixpoint match_at (data : Z → option Z) (str : list Z) (i j : Z) : option bool :=
  match str with
  | [] => Some true
  | c :: str' =>
      x ← data (i + j);
      if negb (x =? c) then Some false else match_at data str' i (j + 1)
  end.

Fixpoint find_loop (fuel : nat) (data : Z → option Z) (str : list Z) (length_ i : Z) : option Z :=
  if negb (i + length str - 1 <? length_) then Some npos else
  found ← match_at data str i 0;
  if found : bool then Some i else
  match fuel with O => None | S fuel' => find_loop fuel' data str length_ (i + 1) end.

(** [find] of a [kstring] and of a [kstring_view]: [data] reads [_data[i]]. *)
Definition find_in (data : Z → option Z) (length_ : Z) (p : option (list Z)) : option Z :=
  match p with
  | None => Some npos
  | Some str =>
      len ← c_strlen str;
      if (len =? 0) || (length_ <? len) then Some npos else
      find_loop (Z.to_nat length_) data (take (Z.to_nat len) str) length_ 0
  end.
Definition ks_find (p : option (list Z)) : M kstring Z :=
  s ← get;
  of_option (find_in (byte_of s) (ks_length s) p).

(** ** Modifiers *)

Definition ks_push_back (c : Z) : M kstring unit :=
  n ← gets ks_length;
  _ ← ks_ensure_capacity (wrap64 (n + 2));
  _ ← ch_write n c;
  _ ← ch_write (wrap64 (n + 1)) 0;
  modify (ks_with_length (wrap64 (n + 1))).

Definition ks_pop_back : M kstring unit :=
  s ← get;
  if ks_empty s then mret () else
  _ ← modify (ks_with_length (wrap64 (ks_length s - 1)));
  ks_ensure_null_terminated.

Definition ks_clear : M kstring unit :=
  _ ← modify (ks_with_length 0);
  ks_ensure_null_terminated.

Fixpoint ks_reverse_loop (fuel : nat) (s e : Z) : M kstring unit :=
  if negb (s <? e) then mret () else
  t ← ch_read s;
  u ← ch_read e;
  _ ← ch_write s u;
  _ ← ch_write e t;
  match fuel with O => hang | S fuel' => ks_reverse_loop fuel' (s + 1) (e - 1) end.
Definition ks_reverse : M kstring unit :=
  s ← get;
  if ks_empty s then mret () else ks_reverse_loop (Z.to_nat (ks_length s)) 0 (ks_length s - 1).

Definition ks_insert (pos c : Z) : M kstring unit :=
  n ← gets ks_length;
  if n <? pos then mret () else
  _ ← ks_ensure_capacity (wrap64 (n + 1));
  _ ← (if pos =? n then ks_push_back c else
       _ ← for_each (reverse (seqZ (pos + 1) (n + 1 - pos))) (λ i, x ← ch_read (i - 1); ch_write i x);
       _ ← ch_write pos c;
       modify (ks_with_length (wrap64 (n + 1))));
  ks_ensure_null_terminated.

Definition ks_erase (pos : Z) : M kstring unit :=
  n ← gets ks_length;
  if n <=? pos then mret () else
  _ ← for_each (seqZ pos (n - pos)) (λ i, x ← ch_read (i + 1); ch_write i x);
  _ ← modify (ks_with_length (wrap64 (n - 1)));
  ks_ensure_null_terminated.

Definition ks_truncate (pos : Z) : M kstring unit :=
  n ← gets ks_length;
  if n <=? pos then mret () else
  _ ← modify (ks_with_length pos);
  ks_ensure_null_terminated.

(** [substr] of [s]; the string it builds is the state. *)
Definition ks_substr (s : kstring) (pos len : Z) : M kstring unit :=
  if ks_length s <=? pos then ks_from_cstr (Some [0]) else
  _ ← ks_ensure_capacity (ks_length s);
  for_each (seqZ pos (Z.min (ks_length s - pos) len)) (λ i, x ← of_option (byte_of s i); ks_push_back x).

(** [trim] of [s]: [front] advances [b], [back] moves [e] down, both as indices into [_data]. *)
Fixpoint trim_front_loop (fuel : nat) (s : kstring) (c b e : Z) : option Z :=
  x ← byte_of s b;
  if (x =? c) && (b <? e) then
    match fuel with O => None | S fuel' => trim_front_loop fuel' s c (b + 1) e end
  else Some b.
Fixpoint trim_back_loop (fuel : nat) (s : kstring) (c b e : Z) : option Z :=
  x ← byte_of s e;
  if (x =? c) && (b <? e) then
    match fuel with O => None | S fuel' => trim_back_loop fuel' s c b (e - 1) end
  else Some e.
Definition ks_trim (s : kstring) (front back : bool) (c : Z) : M kstring unit :=
  if negb front && negb back then ks_copy s else
  let fuel := Z.to_nat (ks_length s) in
  b ← of_option (if front then trim_front_loop fuel s c 0 (ks_length s) else Some 0);
  e ← of_option (if back then trim_back_loop fuel s c b (ks_length s) else Some (ks_length s));
  if e <=? b then ks_from_cstr (Some [0]) else
  _ ← ks_reserve (e - b);
  for_each (seqZ b (e - b)) (λ i, x ← of_option (byte_of s i); ks_push_back x).

(** ** Concatenation and comparison *)

Definition ks_append (other : kstring) : M kstring unit :=
  if ks_length other =? 0 then mret () else
  n ← gets ks_length;
  _ ← ks_ensure_capacity (wrap64 (n + ks_length other + 1));
  _ ← ks_memcpy_from n other (wrap64 (ks_length other + 1));
  modify (ks_with_length (wrap64 (n + ks_length other))).

(** [s += s]: the source is the string's own buffer, after it has grown.  [memcpy] copies upwards, so
    the byte it takes for the terminator is the first one it has written. *)
Definition ks_append_self : M kstring unit :=
  n ← gets ks_length;
  if n =? 0 then mret () else
  _ ← ks_ensure_capacity (wrap64 (n + n + 1));
  _ ← for_each (seqZ 0 (wrap64 (n + 1))) (λ i, x ← ch_read i; ch_write (n + i) x);
  modify (ks_with_length (wrap64 (n + n))).

Definition ks_append_cstr (p : option (list Z)) : M kstring unit :=
  match p with
  | None => mret ()
  | Some str =>
      len ← of_option (c_strlen str);
      n ← gets ks_length;
      _ ← ks_ensure_capacity (wrap64 (n + len + 1));
      _ ← ch_memcpy n (Some <$> str) (wrap64 (len + 1));
      modify (ks_with_length (wrap64 (n + len)))
  end.

(** [s + other] and [s + p]: a copy of [s], appended to. *)
Definition ks_plus (s other : kstring) : M kstring unit := _ ← ks_copy s; ks_append other.
Definition ks_plus_cstr (s : kstring) (p : option (list Z)) : M kstring unit :=
  _ ← ks_copy s; ks_append_cstr p.

(** [memcmp(a, b, n) == 0], bytes compared in turn. *)
Fixpoint same_bytes (n : nat) (a b : Z → option Z) (i : Z) : option bool :=
  match n with
  | O => Some true
  | S n' =>
      x ← a i; y ← b i;
      if negb (x =? y) then Some false else same_bytes n' a b (i + 1)
  end.

Definition ks_eq (s other : kstring) : option bool :=
  if negb (ks_length s =? ks_length other) then Some false else
  same_bytes (Z.to_nat (ks_length s)) (byte_of s) (byte_of other) 0.

(** [strcmp(_data, str) == 0]. *)
Fixpoint same_cstr (a : Z → option Z) (str : list Z) (i : Z) : option bool :=
  match str with
  | [] => None
  | y :: str' =>
      x ← a i;
      if x =? 0 then Some (y =? 0) else
      if negb (x =? y) then Some false else same_cstr a str' (i + 1)
  end.
Definition ks_eq_cstr (s : kstring) (p : option (list Z)) : option bool :=
  match p with
  | None => Some (ks_empty s)
  | Some str => if ks_empty s then y ← str !! 0%nat; Some (y =? 0) else same_cstr (byte_of s) str 0
  end.

Definition ks_starts_with (s other : kstring) : option bool :=
  if ks_length s <? ks_length other then Some false else
  same_bytes (Z.to_nat (ks_length other)) (byte_of s) (byte_of other) 0.

Definition ks_ends_with (s : kstring) (c : Z) : option bool :=
  if 0 <? ks_length s then x ← byte_of s (ks_length s - 1); Some (x =? c) else Some false.

(** ** String views *)

Record kstring_view := mk_view {
  sv_data : option (list Z);
  sv_length : Z;
}.

Definition sv_of_cstr (str : list Z) : option kstring_view :=
  len ← c_strlen str; Some (mk_view (Some str) len).

Definition sv_empty (sv : kstring_view) : bool := sv_length sv =? 0.
Definition sv_at (sv : kstring_view) (i : Z) : option Z := d ← sv_data sv; d !! Z.to_nat i.
Definition sv_c_str (sv : kstring_view) : list Z := match sv_data sv with Some d => d | None => [0] end.

Definition sv_find (sv : kstring_view) (p : option (list Z)) : option Z :=
  find_in (sv_at sv) (sv_length sv) p.

Definition sv_substr (sv : kstring_view) (pos len : Z) : option kstring_view :=
  if sv_length sv <=? pos then sv_of_cstr [0] else
  d ← sv_data sv;
  if (sv_length sv <=? len) || (len =? npos) then sv_of_cstr (drop (Z.to_nat pos) d) else
  Some (mk_view (Some (drop (Z.to_nat pos) d)) len).

Definition sv_eq (a b : kstring_view) : option bool :=
  if negb (sv_length a =? sv_length b) then Some false else
  same_bytes (Z.to_nat (sv_length a)) (sv_at a) (sv_at b) 0.

(** [kstring(kstring_view)]. *)
Definition ks_from_view (sv : kstring_view) : M kstring unit :=
  _ ← ks_ensure_capacity (wrap64 (sv_length sv + 1));
  _ ← ch_memcpy 0 (Some <$> sv_c_str sv) (wrap64 (sv_length sv + 1));
  _ ← modify (ks_with_length (sv_length sv));
  ch_write (sv_length sv) 0.

(** [operator=(kstring_view)]: the buffer is freed, its pointer and its capacity are kept. *)
Definition ks_assign_view (sv : kstring_view) : M kstring unit :=
  _ ← modify ks_free;
  _ ← ks_ensure_capacity (wrap64 (sv_length sv + 1));
  _ ← ch_memcpy 0 (Some <$> sv_c_str sv) (wrap64 (sv_length sv + 1));
  modify (ks_with_length (sv_length sv)).

(** [operator kstring_view()]: readable bytes up to the first unwritten one. *)
Fixpoint written (d : list (option Z)) : list Z :=
  match d with Some c :: d' => c :: written d' | _ => [] end.
Definition ks_view (s : kstring) : kstring_view :=
  mk_view (written <$> cells (ks_data s)) (ks_length s).

(** ** What a string holds

    [str l rest] holds the characters [l] in a buffer with the bytes [rest] behind them.  A string is
    well-formed when it is empty without a buffer, or a NUL follows its characters. *)
Definition str (l : list Z) (rest : list (option Z)) : kstring :=
  mk_kstring (Buf ((Some <$> l) ++ rest)) (length l) (length l + length rest).

Definition ks_rep (s : kstring) (l : list Z) : Prop :=
  (s = ks_new ∧ l = []) ∨ ∃ rest, s = str l rest.
Definition ks_ok (s : kstring) (l : list Z) : Prop :=
  (s = ks_new ∧ l = []) ∨ ∃ rest, s = str l (Some 0 :: rest).

Definition KS_MAX : Z := 2 ^ 60.

Ltac ks_wrap :=
  rewrite ?wrap_small by (unfold is_word, KS_MAX in *; change (2 ^ 60) with 1152921504606846976 in *;
    change (2 ^ 64) with 18446744073709551616; lia).

Section proofs.
Implicit Types (s : kstring) (l k : list Z) (a b c d rest src : list (option Z)) (Q : unit → kstring → Prop).

Lemma ks_ok_rep s l : ks_ok s l → ks_rep s l.
Proof. intros [?|[rest ->]]; [by left|right; eauto]. Qed.

Lemma ks_rep_length s l : ks_rep s l → ks_length s = length l.
Proof. by intros [[-> ->]|[rest ->]]. Qed.

Lemma splice_app a src b c : length src = length b → splice (length a) src (a ++ b ++ c) = a ++ src ++ c.
Proof.
  intros Hl. unfold splice. rewrite take_app_length, Hl. f_equal. f_equal.
  rewrite <- length_app, app_assoc. apply drop_app_length.
Qed.

Lemma wp_put (i : Z) a src b c n cap Q : i = length a → length src = length b →
  Q () (mk_kstring (Buf (a ++ src ++ c)) n cap) →
  wp (ch_put i src) False Q (mk_kstring (Buf (a ++ b ++ c)) n cap).
Proof.
  intros -> Hl HQ. unfold ch_put. apply wp_gets. cbn [ks_data]. rewrite (proj2 (Z.leb_le _ _)).
  - rewrite Nat2Z.id, splice_app by done. done.
  - rewrite !length_app. lia.
Qed.

Lemma wp_write (i x : Z) a o c n cap Q : i = length a → Q () (mk_kstring (Buf (a ++ Some x :: c)) n cap) →
  wp (ch_write i x) False Q (mk_kstring (Buf (a ++ o :: c)) n cap).
Proof. intros Hi HQ. by apply (wp_put i a [Some x] [o] c). Qed.

Lemma byte_of_app (i x : Z) a c n cap : i = length a →
  byte_of (mk_kstring (Buf (a ++ Some x :: c)) n cap) i = Some x.
Proof.
  intros ->. unfold byte_of. cbn -[Z.leb]. rewrite (proj2 (Z.leb_le _ _)) by lia.
  rewrite Nat2Z.id, list_lookup_middle by done. done.
Qed.

Lemma wp_read {B} (i x : Z) a c n cap (f : Z → M kstring B) (Q : B → kstring → Prop) : i = length a →
  wp (f x) False Q (mk_kstring (Buf (a ++ Some x :: c)) n cap) →
  wp (ch_read i ≫= f) False Q (mk_kstring (Buf (a ++ Some x :: c)) n cap).
Proof.
  intros Hi HQ. apply wp_bind. unfold ch_read. apply wp_gets. by rewrite byte_of_app.
Qed.

Lemma byte_of_str l rest (i : nat) x : l !! i = Some x → byte_of (str l rest) i = Some x.
Proof.
  intros Hi. unfold byte_of, str. cbn -[Z.leb]. rewrite (proj2 (Z.leb_le _ _)) by lia.
  rewrite Nat2Z.id, (lookup_app_l_Some _ _ _ (Some x)); [done|]. by rewrite list_lookup_fmap, Hi.
Qed.

Lemma wp_construct {S B} (m : M kstring unit) (P : kstring → Prop) (f : kstring → M S B) (Q : B → S → Prop) (t : S) :
  wp m False (λ _ s, P s) ks_new → (∀ s, P s → wp (f s) False Q t) → wp (construct m ≫= f) False Q t.
Proof.
  intros Hm Hf. apply wp_bind. unfold construct. apply wp_zoom, wp_bind.
  eapply wp_mono; [exact Hm|done|]. intros [] s Hs. by apply Hf.
Qed.

(** ** Capacity *)

Lemma wp_ks_grow s l : ks_rep s l → ks_capacity s < KS_MAX →
  wp ks_grow False (λ _ s', (∃ m, s' = str l (replicate m None)) ∧
    ks_capacity s' = if ks_capacity s =? 0 then 16 else 2 * ks_capacity s) s.
Proof.
  intros [[-> ->]|[rest ->]] Hcap; unfold ks_grow, KS_GROWTH_RATE, KS_INITIAL_CAPACITY; apply wp_get.
  { cbn. split; [|done]. by exists 16%nat. }
  cbn [ks_capacity ks_length ks_data str] in *. set (cap := length l + length rest) in *.
  set (nc := if cap =? 0 then 16 else wrap64 (cap * 2)).
  assert (nc = if cap =? 0 then 16 else 2 * cap) as Hnc.
  { unfold nc. destruct (Z.eqb_spec cap 0); [done|]. ks_wrap. lia. }
  assert (cap < nc) as Hlt by (rewrite Hnc; destruct (Z.eqb_spec cap 0); lia).
  rewrite !(proj2 (Z.leb_le _ _)) by (rewrite ?length_app, ?length_fmap; lia).
  cbn [andb]. rewrite Nat2Z.id. rewrite take_app_length' by (by rewrite length_fmap). split; [|done].
  exists (Z.to_nat nc - length l)%nat. unfold str, splice. cbn.
  rewrite length_fmap, drop_replicate. f_equal. rewrite length_replicate. lia.
Qed.

(** Either there was room, or the characters are in a new buffer with nothing written behind them. *)
Lemma wp_ks_ensure_fresh n s l Q : ks_rep s l → n ≤ KS_MAX →
  (∀ s', ks_rep s' l → n ≤ ks_capacity s' → s' = s ∨ (∃ m, s' = str l (replicate m None)) → Q () s') →
  wp (ks_ensure_capacity n) False Q s.
Proof.
  intros Hrep Hn HQ. unfold ks_ensure_capacity.
  eapply wp_mono; [|done|].
  - apply (wp_while _ _ _ _ (λ w, ks_rep w l ∧ (w = s ∨ ∃ m, w = str l (replicate m None)))
      (λ s, if ks_capacity s <=? 0 then 61%nat else Z.to_nat (60 - Z.log2 (ks_capacity s)))); [|split; [done|by left]|].
    + intros w [Hw _] Hlt%Z.ltb_lt. unfold KS_MAX in *.
      eapply wp_mono; [apply (wp_ks_grow w l Hw); unfold KS_MAX; lia|done|].
      intros [] w' [[m Hw'] Hc']. split; [split; [by right; exists (replicate m None)|right; by exists m]|]. rewrite Hc'.
      assert (0 ≤ ks_capacity w) by (destruct Hw as [[-> _]|[r ->]]; cbn; lia).
      destruct (Z.eqb_spec (ks_capacity w) 0) as [H0|H0].
      * rewrite H0. apply Nat.ltb_lt. by vm_compute.
      * rewrite !(proj2 (Z.leb_gt _ _)) by lia. rewrite Z.log2_double by lia.
        assert (Z.log2 (ks_capacity w) < 60) by (apply Z.log2_lt_pow2; lia). lia.
    + destruct (ks_capacity s <=? 0) eqn:?; [lia|].
      pose proof (Z.log2_nonneg (ks_capacity s)). lia.
  - intros [] w [[Hw Hf] Hc%Z.ltb_ge]. by apply HQ.
Qed.

Lemma wp_ks_ensure n s l Q : ks_rep s l → n ≤ KS_MAX →
  (∀ s', ks_rep s' l → n ≤ ks_capacity s' → Q () s') → wp (ks_ensure_capacity n) False Q s.
Proof. intros Hrep Hn HQ. eapply wp_ks_ensure_fresh; eauto. Qed.

(** With room for at least one byte there is a buffer. *)
Lemma wp_ks_room n s l Q : ks_rep s l → length l < n ≤ KS_MAX →
  (∀ o rest, n ≤ length l + S (length rest) → Q () (str l (o :: rest))) → wp (ks_ensure_capacity n) False Q s.
Proof.
  intros Hrep Hn HQ. apply (wp_ks_ensure n s l); [done|lia|].
  intros s' [[-> ->]|[[|o rest] ->]] Hc; cbn in Hc.
  - lia.
  - lia.
  - apply HQ. lia.
Qed.

Lemma ks_enough_run n s : n ≤ ks_capacity s → ks_ensure_capacity n s = Ok (s, ()).
Proof.
  intros Hn. unfold ks_ensure_capacity. change 64%nat with (S 63). cbn [while].
  unfold mbind, M_bind, gets. by rewrite (proj2 (Z.ltb_ge _ _)).
Qed.

Lemma wp_ks_enough n s Q : n ≤ ks_capacity s → Q () s → wp (ks_ensure_capacity n) False Q s.
Proof.
  intros Hn HQ. unfold wp. by rewrite ks_enough_run.
Qed.
End proofs.

(** ** The operations on the characters *)
Section operations.
Implicit Types (s : kstring) (l k : list Z) (a b c d rest src : list (option Z)) (Q : unit → kstring → Prop).

Lemma str_ok l k rest (n : Z) cap : n = length (l ++ k) → cap = length (l ++ k) + S (length rest) →
  ks_ok (mk_kstring (Buf ((Some <$> l) ++ (Some <$> k) ++ Some 0 :: rest)) n cap) (l ++ k).
Proof.
  intros -> ->. right. exists rest. unfold str. rewrite fmap_app, <- app_assoc. done.
Qed.

Lemma split_room o rest (n : nat) : (n ≤ length rest)%nat →
  ∃ b o' rest', o :: rest = b ++ o' :: rest' ∧ length b = n ∧ length rest = (n + length rest')%nat.
Proof.
  intros Hn. exists (take n (o :: rest)).
  destruct (drop n (o :: rest)) as [|o' rest'] eqn:Hd.
  { apply (f_equal length) in Hd. rewrite length_drop in Hd. cbn in Hd. lia. }
  exists o', rest'. split; [by rewrite <- Hd, take_drop|]. split; [rewrite length_take; cbn; lia|].
  apply (f_equal length) in Hd. rewrite length_drop in Hd. cbn in Hd. lia.
Qed.

(** Writing the characters [k] and a NUL behind [l]. *)
Lemma wp_append_bytes l k o rest (tail : list (option Z)) Q : (length k ≤ length rest)%nat →
  (∀ rest', ks_ok (mk_kstring (Buf ((Some <$> l) ++ (Some <$> k) ++ Some 0 :: rest'))
                     (length (l ++ k)) (length l + S (length rest))) (l ++ k) →
     Q () (mk_kstring (Buf ((Some <$> l) ++ (Some <$> k) ++ Some 0 :: rest')) (length l) (length l + S (length rest)))) →
  wp (ch_memcpy (length l) ((Some <$> k) ++ Some 0 :: tail) (length k + 1)) False Q (str l (o :: rest)).
Proof.
  intros Hk HQ. destruct (split_room o rest (length k) Hk) as (b & o' & rest' & Hr & Hb & Hlen).
  unfold ch_memcpy. rewrite (proj2 (Z.leb_le _ _)) by (rewrite length_app, length_fmap; cbn; lia).
  replace (take (Z.to_nat (length k + 1)) ((Some <$> k) ++ Some 0 :: tail)) with ((Some <$> k) ++ [Some 0] : list (option Z)).
  2: { replace (Z.to_nat (length k + 1)) with (length ((Some <$> k) ++ [Some 0] : list (option Z)))
         by (rewrite length_app, length_fmap; cbn; lia).
       change (Some 0 :: tail) with ([Some 0] ++ tail). rewrite app_assoc. by rewrite take_app_length. }
  change (str l (o :: rest)) with
    (mk_kstring (Buf ((Some <$> l) ++ o :: rest)) (length l) (length l + S (length rest))).
  rewrite Hr. change (o' :: rest') with ([o'] ++ rest'). rewrite (app_assoc b). apply wp_put.
  - by rewrite length_fmap.
  - rewrite !length_app, length_fmap. cbn. lia.
  - rewrite <- (app_assoc _ [Some 0] rest'). apply HQ. apply str_ok; [done|]. rewrite length_app. lia.
Qed.

Lemma c_strlen_app k (tail : list Z) : Forall (λ x, x ≠ 0) k → c_strlen (k ++ 0 :: tail) = Some (Z.of_nat (length k)).
Proof.
  induction 1 as [|x k Hx Hk IH]; [done|]. cbn. rewrite (proj2 (Z.eqb_neq _ _)) by done.
  rewrite IH. cbn. f_equal. lia.
Qed.

(** Appending a C string and appending a string. *)
Lemma wp_ks_append_cstr s l k tail : ks_rep s l → Forall (λ x, x ≠ 0) k → length l + length k < KS_MAX →
  wp (ks_append_cstr (Some (k ++ 0 :: tail))) False (λ _ s', ks_ok s' (l ++ k)) s.
Proof.
  intros Hrep Hk Hmax. unfold ks_append_cstr. rewrite (c_strlen_app k tail Hk). apply wp_of_option.
  eexists. split; [done|]. apply wp_gets. rewrite (ks_rep_length _ _ Hrep). ks_wrap.
  apply wp_bind, (wp_ks_room _ s l); [done|lia|]. intros o rest Hr. apply wp_bind.
  rewrite fmap_app. apply wp_append_bytes; [lia|]. intros rest' Hok. unfold wp, modify.
  replace (length l + length k) with (Z.of_nat (length (l ++ k))) by (rewrite length_app; lia). exact Hok.
Qed.

Lemma wp_ks_append s l other k : ks_rep s l → ks_ok other k → length l + length k < KS_MAX →
  (k ≠ [] ∨ ks_ok s l) → wp (ks_append other) False (λ _ s', ks_ok s' (l ++ k)) s.
Proof.
  intros Hrep Ho Hmax Hne. unfold ks_append. rewrite (ks_rep_length _ _ (ks_ok_rep _ _ Ho)).
  destruct k as [|x k]; [destruct Hne; [done|]; by rewrite app_nil_r|].
  set (xk := x :: k) in *. rewrite (proj2 (Z.eqb_neq _ _)) by (unfold xk; cbn; lia).
  destruct Ho as [[_ ?]|[tail ->]]; [done|]. apply wp_gets. rewrite (ks_rep_length _ _ Hrep). ks_wrap.
  apply wp_bind, (wp_ks_room _ s l); [done|lia|]. intros o rest Hr. apply wp_bind.
  unfold ks_memcpy_from. apply wp_of_option. eexists. split; [done|].
  apply wp_append_bytes; [lia|]. intros rest' Hok. unfold wp, modify.
  replace (length l + length xk) with (Z.of_nat (length (l ++ xk))) by (rewrite length_app; lia). exact Hok.
Qed.

Lemma wp_ks_push_back s l x : ks_rep s l → length l + 1 < KS_MAX →
  wp (ks_push_back x) False (λ _ s', ks_ok s' (l ++ [x])) s.
Proof.
  intros Hrep Hmax. unfold ks_push_back. apply wp_gets. rewrite (ks_rep_length _ _ Hrep). ks_wrap.
  apply wp_bind, (wp_ks_room _ s l); [done|lia|]. intros o [|o' rest] Hr; [cbn in Hr; lia|].
  apply wp_bind, wp_write; [by rewrite length_fmap|]. apply wp_bind.
  change (Some x :: o' :: rest) with ([Some x] ++ o' :: rest). rewrite app_assoc.
  apply wp_write; [rewrite length_app, length_fmap; cbn; lia|].
  rewrite <- app_assoc. apply (str_ok l [x]); rewrite length_app; cbn; lia.
Qed.

(** Ending the string after the first characters. *)
Lemma wp_cut l k rest (n : Z) cap : n = length l → cap = length l + length k + S (length rest) →
  wp ks_ensure_null_terminated False (λ _ s', ks_ok s' l)
    (mk_kstring (Buf ((Some <$> (l ++ k)) ++ Some 0 :: rest)) n cap).
Proof.
  intros -> ->. unfold ks_ensure_null_terminated. apply wp_get. cbn [ks_data ks_length].
  rewrite fmap_app, <- app_assoc. destruct k as [|x k]; cbn [fmap list_fmap app].
  - apply wp_write; [by rewrite length_fmap|]. right. exists rest. unfold str. f_equal. cbn. lia.
  - apply wp_write; [by rewrite length_fmap|]. right. eexists. unfold str. f_equal.
    cbn. rewrite length_app, length_fmap. cbn. lia.
Qed.

Lemma wp_ks_truncate s l (pos : Z) : ks_ok s l → 0 ≤ pos →
  wp (ks_truncate pos) False (λ _ s', ks_ok s' (take (Z.to_nat pos) l)) s.
Proof.
  intros Hok Hpos. unfold ks_truncate. apply wp_gets. rewrite (ks_rep_length _ _ (ks_ok_rep _ _ Hok)).
  destruct (Z.leb_spec (length l) pos); [rewrite take_ge by lia; by apply wp_ret|].
  destruct Hok as [[_ ->]|[rest ->]]; [cbn in *; lia|]. apply wp_modify. unfold str, ks_with_length. cbn [ks_data ks_capacity].
  rewrite <- (take_drop (Z.to_nat pos) l) at 1. apply wp_cut; rewrite length_take; [lia|].
  rewrite length_drop. cbn [length]. lia.
Qed.

Lemma wp_ks_clear s l : ks_ok s l → wp ks_clear False (λ _ s', ks_ok s' []) s.
Proof.
  intros [[-> ->]|[rest ->]]; unfold ks_clear; apply wp_modify; [by left|].
  apply (wp_cut [] l rest); [done|]. cbn. lia.
Qed.

Lemma wp_ks_pop_back s l x : ks_ok s (l ++ [x]) → length l + 1 < KS_MAX →
  wp ks_pop_back False (λ _ s', ks_ok s' l) s.
Proof.
  intros Hok Hmax. unfold ks_pop_back, ks_empty. apply wp_get.
  rewrite (ks_rep_length _ _ (ks_ok_rep _ _ Hok)), length_app. cbn [length].
  rewrite (proj2 (Z.eqb_neq _ _)) by lia. apply wp_modify. ks_wrap.
  destruct Hok as [[_ ?]|[rest ->]]; [by destruct l|]. unfold ks_with_length, str. cbn [ks_data ks_capacity].
  apply wp_cut; [lia|]. rewrite length_app. cbn [length]. lia.
Qed.
End operations.

(** ** Loops over the buffer *)
Section loops.
Implicit Types (s : kstring) (l k m : list Z) (a b c d rest src : list (option Z)) (Q : unit → kstring → Prop).

(** Moving the bytes [m] down by one. *)
Lemma wp_shift_down (i : Z) a x m rest n cap Q : i = length a →
  (∀ y, Q () (mk_kstring (Buf (a ++ (Some <$> m) ++ y :: rest)) n cap)) →
  wp (for_each (seqZ i (length m)) (λ i, x ← ch_read (i + 1); ch_write i x)) False Q
    (mk_kstring (Buf (a ++ x :: (Some <$> m) ++ rest)) n cap).
Proof.
  revert i a x Q. induction m as [|y m IH]; intros i a x Q Hi HQ; [apply HQ|].
  rewrite seqZ_cons by (cbn; lia). cbn [for_each]. apply wp_bind, wp_assoc.
  cbn [fmap list_fmap app]. change (x :: Some y :: (Some <$> m) ++ rest) with ([x] ++ Some y :: (Some <$> m) ++ rest).
  rewrite app_assoc. apply wp_read; [rewrite length_app; cbn; lia|]. rewrite <- app_assoc. apply wp_bind. cbn [app].
  apply wp_write; [done|]. change (Some y :: Some y :: (Some <$> m) ++ rest) with ([Some y] ++ Some y :: (Some <$> m) ++ rest).
  rewrite app_assoc. replace (Z.pred (length (y :: m))) with (Z.of_nat (length m)) by (cbn; lia).
  apply IH; [rewrite length_app; cbn; lia|]. intros z. rewrite <- app_assoc. apply HQ.
Qed.

(** Moving the bytes [m] up by one. *)
Lemma wp_shift_up (i : Z) a m x rest n cap Q : i = length a →
  (∀ y, Q () (mk_kstring (Buf (a ++ y :: (Some <$> m) ++ rest)) n cap)) →
  wp (for_each (reverse (seqZ (i + 1) (length m))) (λ i, x ← ch_read (i - 1); ch_write i x)) False Q
    (mk_kstring (Buf (a ++ (Some <$> m) ++ x :: rest)) n cap).
Proof.
  intros Hi. revert x rest Q. induction m as [|y m IH] using rev_ind; intros x rest Q HQ; [apply HQ|].
  rewrite length_app. cbn [length].
  replace (Z.of_nat (length m + 1)) with (length m + 1) by lia. rewrite seqZ_app by lia.
  rewrite reverse_app, (seqZ_cons _ 1), (seqZ_nil _ (Z.pred 1)) by lia.
  cbn [reverse rev_append app for_each]. apply wp_bind, wp_assoc.
  rewrite fmap_app, <- app_assoc. cbn [fmap list_fmap app]. rewrite app_assoc.
  apply wp_read; [rewrite length_app, length_fmap; lia|]. apply wp_bind.
  change (Some y :: x :: rest) with ([Some y] ++ x :: rest). rewrite app_assoc.
  apply wp_write; [rewrite !length_app, length_fmap; cbn; lia|]. rewrite <- !app_assoc. cbn [app].
  apply IH. intros z. specialize (HQ z). rewrite fmap_app, <- app_assoc in HQ. exact HQ.
Qed.

Lemma wp_ks_erase s l1 x l2 : ks_ok s (l1 ++ x :: l2) → length l1 + length l2 + 1 < KS_MAX →
  wp (ks_erase (length l1)) False (λ _ s', ks_ok s' (l1 ++ l2)) s.
Proof.
  intros [[_ ?]|[rest ->]] Hmax; [by destruct l1|]. unfold ks_erase. apply wp_gets. cbn [ks_length str].
  rewrite length_app. cbn [length]. rewrite (proj2 (Z.leb_gt _ _)) by lia. ks_wrap. apply wp_bind.
  replace (Z.of_nat (length l1 + S (length l2)) - length l1) with (Z.of_nat (length (l2 ++ [0])))
    by (rewrite length_app; cbn; lia).
  unfold str. rewrite fmap_app, <- app_assoc. cbn [fmap list_fmap app].
  change (Some 0 :: rest) with (([Some 0] : list (option Z)) ++ rest) at 1. rewrite (app_assoc _ [Some 0] rest).
  replace ((Some <$> l2) ++ [Some 0]) with (Some <$> (l2 ++ [0])) by (by rewrite fmap_app).
  apply wp_shift_down; [by rewrite length_fmap|]. intros y. apply wp_modify. unfold ks_with_length. cbn [ks_data ks_capacity].
  rewrite fmap_app, <- app_assoc, app_assoc, <- fmap_app. cbn [fmap list_fmap app].
  pose proof (wp_cut (l1 ++ l2) [] (y :: rest)) as Hcut. rewrite app_nil_r in Hcut.
  apply Hcut; rewrite !length_app; cbn [length]; lia.
Qed.

(** [insert] in the middle needs a spare byte behind the NUL. *)
Lemma wp_ks_insert l1 x l2 o rest : l2 ≠ [] → length l1 + length l2 + 1 < KS_MAX →
  wp (ks_insert (length l1) x) False (λ _ s', ks_ok s' (l1 ++ x :: l2)) (str (l1 ++ l2) (Some 0 :: o :: rest)).
Proof.
  intros Hne Hmax. assert (0 < length l2)%nat by (destruct l2; cbn; [done|lia]).
  unfold ks_insert. apply wp_gets. cbn [ks_length str]. rewrite length_app.
  rewrite (proj2 (Z.ltb_ge _ _)) by lia. ks_wrap. apply wp_bind, wp_ks_enough; [cbn; rewrite length_app; lia|].
  rewrite (proj2 (Z.eqb_neq _ _)) by lia. apply wp_bind, wp_bind.
  replace (Z.of_nat (length l1 + length l2) + 1 - length l1) with (Z.of_nat (length (l2 ++ [0])))
    by (rewrite length_app; cbn; lia).
  unfold str. rewrite fmap_app, <- app_assoc.
  change (Some 0 :: o :: rest) with (([Some 0] : list (option Z)) ++ o :: rest) at 1. rewrite (app_assoc (Some <$> l2)).
  replace ((Some <$> l2) ++ [Some 0]) with (Some <$> (l2 ++ [0])) by (by rewrite fmap_app).
  apply wp_shift_up; [by rewrite length_fmap|]. intros y. apply wp_bind, wp_write; [by rewrite length_fmap|].
  cbn beta. unfold wp at 1, modify at 1, ks_with_length. cbn [ks_data ks_capacity].
  pose proof (wp_cut (l1 ++ x :: l2) [] rest) as Hcut. rewrite app_nil_r, fmap_app, fmap_cons in Hcut.
  rewrite fmap_app, <- app_assoc. cbn [app fmap list_fmap] in *. rewrite <- app_assoc in Hcut. cbn [app] in Hcut.
  apply Hcut; rewrite !length_app; cbn [length]; lia.
Qed.

Lemma wp_ks_reverse_loop (i j : Z) fuel a m rest n cap Q : i = length a → j = length a + length m - 1 →
  (length m ≤ fuel)%nat → Q () (mk_kstring (Buf (a ++ (Some <$> reverse m) ++ rest)) n cap) →
  wp (ks_reverse_loop fuel i j) False Q (mk_kstring (Buf (a ++ (Some <$> m) ++ rest)) n cap).
Proof.
  revert i j a m rest Q. induction fuel as [|fuel IH]; intros i j a m rest Q Hi Hj Hf HQ.
  { destruct m; [|cbn in Hf; lia]. cbn in *. rewrite (proj2 (Z.ltb_ge _ _)) by lia. apply HQ. }
  cbn [ks_reverse_loop]. destruct m as [|x m]; [cbn in Hj; rewrite (proj2 (Z.ltb_ge _ _)) by lia; apply HQ|].
  destruct m as [|y m _] using rev_ind; [cbn in Hj; rewrite (proj2 (Z.ltb_ge _ _)) by lia; apply HQ|].
  cbn [length] in *. rewrite length_app in *. cbn [length] in *. rewrite (proj2 (Z.ltb_lt _ _)) by lia. cbn [negb].
  rewrite fmap_cons, fmap_app, <- app_comm_cons, <- app_assoc. cbn [fmap list_fmap app].
  apply wp_read; [done|]. 
  assert (∀ z, a ++ z :: (Some <$> m) ++ Some y :: rest = (a ++ z :: (Some <$> m)) ++ Some y :: rest) as Hsplit
    by (intros z; rewrite <- app_assoc; done).
  assert (∀ z : option Z, Z.of_nat (length (a ++ z :: (Some <$> m))) = j) as Hlen
    by (intros z; rewrite length_app; cbn [length]; rewrite length_fmap; lia).
  rewrite Hsplit. apply wp_read; [by rewrite Hlen|]. rewrite <- Hsplit. apply wp_bind, wp_write; [done|].
  rewrite Hsplit. apply wp_bind, wp_write; [by rewrite Hlen|]. rewrite <- app_assoc. cbn [app].
  change (Some y :: (Some <$> m) ++ Some x :: rest) with ([Some y] ++ (Some <$> m) ++ Some x :: rest). rewrite app_assoc.
  apply IH; [rewrite length_app; cbn; lia..|lia|]. rewrite <- app_assoc. cbn [app].
  rewrite reverse_cons, reverse_app, fmap_app, <- app_assoc in HQ. exact HQ.
Qed.

Lemma wp_ks_reverse s l : ks_ok s l → wp ks_reverse False (λ _ s', ks_ok s' (reverse l)) s.
Proof.
  intros Hok. unfold ks_reverse, ks_empty. apply wp_get. rewrite (ks_rep_length _ _ (ks_ok_rep _ _ Hok)).
  destruct l as [|x l]; [by apply wp_ret|]. set (xl := x :: l) in *. rewrite (proj2 (Z.eqb_neq _ _)) by (unfold xl; cbn; lia).
  destruct Hok as [[_ ?]|[rest ->]]; [done|]. apply (wp_ks_reverse_loop _ _ _ [] xl); [done|cbn; lia|lia|].
  right. exists rest. unfold str. by rewrite length_reverse.
Qed.
End loops.

(** ** Copies, parts and comparisons *)
Section reads.
Implicit Types (s : kstring) (l k m : list Z) (a b c d rest src : list (option Z)) (Q : unit → kstring → Prop).

Lemma wp_ks_copy s l : ks_ok s l → length l < KS_MAX → wp (ks_copy s) False (λ _ s', ks_ok s' l) ks_new.
Proof.
  intros Hok Hmax. unfold ks_copy. rewrite (ks_rep_length _ _ (ks_ok_rep _ _ Hok)).
  destruct l as [|x l]; [by apply wp_ret; left|]. set (xl := x :: l) in *. rewrite (proj2 (Z.eqb_neq _ _)) by (unfold xl; cbn; lia).
  destruct Hok as [[_ ?]|[tail ->]]; [done|]. ks_wrap.
  apply wp_bind, (wp_ks_room _ ks_new []); [by left|cbn [length]; lia|]. intros o rest Hr. apply wp_bind.
  unfold ks_memcpy_from. apply wp_of_option. eexists. split; [done|].
  apply (wp_append_bytes [] xl); [cbn [length] in Hr; lia|]. intros rest' Hok. exact Hok.
Qed.

Lemma wp_ks_copy_assign s l other k : ks_ok s l → ks_ok other k → length k < KS_MAX →
  wp (ks_copy_assign other) False (λ _ s', ks_ok s' k) s.
Proof. intros _ Hok Hmax. unfold ks_copy_assign. apply wp_modify, wp_modify. by apply wp_ks_copy. Qed.

Lemma wp_ks_from_cstr k tail : Forall (λ x, x ≠ 0) k → length k < KS_MAX →
  wp (ks_from_cstr (Some (k ++ 0 :: tail))) False (λ _ s', ks_ok s' k) ks_new.
Proof.
  intros Hk Hmax. unfold ks_from_cstr. rewrite (c_strlen_app k tail Hk). apply wp_of_option.
  eexists. split; [done|]. ks_wrap. apply wp_bind, (wp_ks_room _ ks_new []); [by left|cbn [length]; lia|].
  intros o rest Hr. apply wp_bind. rewrite fmap_app. apply (wp_append_bytes [] k); [cbn [length] in Hr; lia|].
  intros rest' Hok. exact Hok.
Qed.

(** [memcpy] of the characters of a view and of the byte behind them into a new buffer. *)
Lemma wp_view_bytes (k : list Z) (x : Z) tail o rest Q : (length k ≤ length rest)%nat →
  (∀ rest', length rest = (length k + length rest')%nat →
     Q () (mk_kstring (Buf ((Some <$> k) ++ Some x :: rest')) 0 (S (length rest)))) →
  wp (ch_memcpy 0 (Some <$> k ++ x :: tail) (length k + 1)) False Q (mk_kstring (Buf (o :: rest)) 0 (S (length rest))).
Proof.
  intros Hr HQ. destruct (split_room o rest (length k) Hr) as (b & o' & rest' & Hrest & Hb & Hlen).
  unfold ch_memcpy. rewrite (proj2 (Z.leb_le _ _)) by (rewrite length_fmap, length_app; cbn; lia).
  replace (take (Z.to_nat (length k + 1)) (Some <$> k ++ x :: tail)) with ((Some <$> k) ++ [Some x]).
  2: { replace (Z.to_nat (length k + 1)) with (length ((Some <$> k) ++ [Some x] : list (option Z)))
         by (rewrite length_app, length_fmap; cbn; lia).
       change (x :: tail) with ([x] ++ tail). rewrite app_assoc, fmap_app, fmap_app. cbn [fmap list_fmap].
       by rewrite take_app_length. }
  rewrite Hrest. change (o' :: rest') with ([o'] ++ rest'). rewrite (app_assoc b).
  apply (wp_put _ [] _ (b ++ [o'])); [done|rewrite !length_app, length_fmap; cbn; lia|]. cbn [app].
  rewrite <- app_assoc. cbn [app]. by apply HQ.
Qed.

(** A view needs a readable byte behind its characters. *)
Lemma wp_ks_from_view k (x : Z) tail : length k < KS_MAX →
  wp (ks_from_view (mk_view (Some (k ++ x :: tail)) (length k))) False (λ _ s', ks_ok s' k) ks_new.
Proof.
  intros Hmax. unfold ks_from_view. cbn [sv_length sv_c_str sv_data]. ks_wrap.
  apply wp_bind, (wp_ks_room _ ks_new []); [by left|cbn [length]; lia|]. intros o rest Hr. cbn [length] in Hr. apply wp_bind.
  apply (wp_view_bytes k x); [lia|]. intros rest' Hlen. apply wp_modify. unfold ks_with_length. cbn [ks_data ks_capacity].
  apply wp_write; [by rewrite length_fmap|]. right. exists rest'. unfold str. cbn [length]. f_equal. lia.
Qed.

Lemma wp_ks_assign_cstr s k tail : Forall (λ x, x ≠ 0) k → length k < KS_MAX →
  wp (ks_assign_cstr (Some (k ++ 0 :: tail))) False (λ _ s', ks_ok s' k) s.
Proof. intros Hk Hmax. unfold ks_assign_cstr. apply wp_modify, wp_modify. by apply wp_ks_from_cstr. Qed.

(** Pushing a run of another string's characters. *)
Lemma wp_push_run s l1 l2 l3 rest t k Q : s = str (l1 ++ l2 ++ l3) rest → ks_rep t k →
  length k + length l2 < KS_MAX →
  (∀ t', ks_rep t' (k ++ l2) → (l2 ≠ [] ∨ ks_ok t k → ks_ok t' (k ++ l2)) → Q () t') →
  wp (for_each (seqZ (length l1) (length l2)) (λ i, x ← of_option (byte_of s i); ks_push_back x)) False Q t.
Proof.
  intros ->. revert l1 t k Q. induction l2 as [|x l2 IH]; intros l1 t k Q Ht Hmax HQ.
  { apply HQ; rewrite ?app_nil_r; [done|]. by intros [?|?]. }
  rewrite seqZ_cons by (cbn; lia). cbn [for_each]. apply wp_bind, wp_of_option. exists x.
  split; [by apply byte_of_str, list_lookup_middle|]. cbn [length] in Hmax.
  eapply wp_mono; [apply (wp_ks_push_back t k); [done|lia]|done|]. intros [] t' Hok.
  replace (Z.pred (length (x :: l2))) with (Z.of_nat (length l2)) by (cbn; lia).
  replace (Z.succ (length l1)) with (Z.of_nat (length (l1 ++ [x]))) by (rewrite length_app; cbn; lia).
  replace (l1 ++ (x :: l2) ++ l3) with ((l1 ++ [x]) ++ l2 ++ l3) by (by rewrite <- app_assoc).
  apply (IH _ _ (k ++ [x])); [by apply ks_ok_rep|rewrite length_app; cbn; lia|].
  rewrite <- app_assoc. cbn [app]. intros t'' Hrep Hok'. apply HQ; [done|]. intros _. apply Hok'. by right.
Qed.
End reads.

(** ** Searching and comparing

    [reads data l]: [data] gives the characters [l], as [_data[i]] does for a string and for a view. *)
Section search.
Implicit Types (s : kstring) (l k m : list Z) (data : Z → option Z).

Definition reads data l : Prop := ∀ (i : nat) x, l !! i = Some x → data i = Some x.

Lemma ks_reads s l : ks_rep s l → reads (byte_of s) l.
Proof. intros [[-> ->]|[rest ->]] i x Hi; [done|]. by apply byte_of_str. Qed.

(** The characters between [begin()] and [end()]. *)
Lemma mapM_reads data l : reads data l → mapM data (seqZ 0 (length l)) = Some l.
Proof.
  intros Hr. apply mapM_Some_2, Forall2_same_length_lookup_2; [rewrite length_seqZ; lia|].
  intros i z x Hz Hx. apply lookup_seqZ in Hz as [-> _]. by rewrite Z.add_0_l, (Hr _ _ Hx).
Qed.

(** [k] stands in [l] at [i]. *)
Definition occurs l k (i : nat) : Prop := take (length k) (drop i l) = k.
#[local] Instance occurs_dec l k i : Decision (occurs l k i).
Proof. unfold occurs. apply _. Defined.

Lemma occurs_cons l x y k n : l !! n = Some x → occurs l (y :: k) n ↔ x = y ∧ occurs l k (S n).
Proof. intros Hx. unfold occurs. rewrite (drop_S l x _ Hx). cbn [length take]. split; [by intros [= -> ?]|]. by intros [-> ->]. Qed.

Lemma match_at_spec data l k (i j : nat) : reads data l → (i + j + length k ≤ length l)%nat →
  match_at data k i j = Some (bool_decide (occurs l k (i + j))).
Proof.
  intros Hr. revert j. induction k as [|y k IH]; intros j Hlen; cbn [match_at length].
  { by rewrite bool_decide_true. }
  cbn [length] in Hlen. destruct (lookup_lt_is_Some_2 l (i + j)) as [x Hx]; [lia|].
  rewrite <- Nat2Z.inj_add, (Hr _ _ Hx). cbn [mbind option_bind].
  rewrite (bool_decide_ext _ _ (occurs_cons l x y k _ Hx)).
  destruct (Z.eqb_spec x y) as [->|Hne]; cbn [negb].
  - replace (j + 1) with (Z.of_nat (S j)) by lia. rewrite IH by lia. f_equal.
    apply bool_decide_ext. rewrite Nat.add_succ_r. naive_solver.
  - rewrite bool_decide_false; [done|]. by intros [? _].
Qed.

Lemma find_loop_spec data l k fuel (i : nat) : reads data l → k ≠ [] → (length l - i ≤ fuel)%nat →
  ∃ r, find_loop fuel data k (length l) i = Some r ∧
    ((∃ n : nat, r = n ∧ (i ≤ n)%nat ∧ (n + length k ≤ length l)%nat ∧ occurs l k n ∧
        ∀ n' : nat, (i ≤ n' < n)%nat → ¬ occurs l k n')
     ∨ r = npos ∧ ∀ n, (i ≤ n)%nat → ¬ occurs l k n).
Proof.
  intros Hr Hk. assert (0 < length k)%nat by (destruct k; cbn; [done|lia]). revert i.
  assert (∀ i n, (length l < i + length k)%nat → (i ≤ n)%nat → ¬ occurs l k n) as Hover.
  { intros i n Hi Hn Ho. apply (f_equal length) in Ho. rewrite length_take, length_drop in Ho. lia. }
  induction fuel as [|fuel IH]; intros i Hf; cbn [find_loop];
    (destruct (Z.ltb_spec (i + length k - 1) (length l)) as [Hlt|Hge]; cbn [negb];
      [|exists npos; split; [done|right; split; [done|]; intros n Hn; apply (Hover i); lia]]).
  - lia.
  - pose proof (match_at_spec data l k i 0 Hr) as Hm. change (Z.of_nat 0) with 0 in Hm.
    rewrite Nat.add_0_r in Hm. rewrite Hm by lia. clear Hm. cbn [mbind option_bind].
    case_bool_decide as Ho.
    + exists i. split; [done|]. left. exists i. split_and!; [done|lia|lia|done|]. intros. lia.
    + replace (i + 1) with (Z.of_nat (S i)) by lia.
      destruct (IH (S i)) as (r & -> & Hcase); [lia|]. exists r. split; [done|].
      assert (∀ n, (i ≤ n)%nat → n = i ∨ (S i ≤ n)%nat) as Hi by (intros; lia).
      destruct Hcase as [(n & -> & Hin & Hlen & Hoc & Hmin)|[-> Hno]].
      * left. exists n. split_and!; [done|lia|done|done|]. intros n' Hn'. destruct (Hi n') as [->|]; [lia|done|]. apply Hmin. lia.
      * right. split; [done|]. intros n Hn. destruct (Hi n Hn) as [->|]; [done|by apply Hno].
Qed.

Lemma same_bytes_spec data data' l k (n i : nat) : reads data l → reads data' k →
  (i + n ≤ length l)%nat → (i + n ≤ length k)%nat →
  same_bytes n data data' i = Some (bool_decide (take n (drop i l) = take n (drop i k))).
Proof.
  intros Hl Hk. revert i. induction n as [|n IH]; intros i Hil Hik; cbn [same_bytes].
  { by rewrite bool_decide_true. }
  destruct (lookup_lt_is_Some_2 l i) as [x Hx]; [lia|]. destruct (lookup_lt_is_Some_2 k i) as [y Hy]; [lia|].
  rewrite (Hl _ _ Hx), (Hk _ _ Hy). cbn [mbind option_bind]. rewrite (drop_S l x _ Hx), (drop_S k y _ Hy). cbn [take].
  destruct (Z.eqb_spec x y) as [->|Hne]; cbn [negb].
  - replace (i + 1) with (Z.of_nat (S i)) by lia. rewrite IH by lia. f_equal. apply bool_decide_ext.
    split; [by intros ->|by intros [= ?]].
  - rewrite bool_decide_false; [done|]. intros [= ? _]. done.
Qed.

Lemma ks_eq_spec s l t k : ks_rep s l → ks_rep t k → ks_eq s t = Some (bool_decide (l = k)).
Proof.
  intros Hs Ht. unfold ks_eq. rewrite (ks_rep_length _ _ Hs), (ks_rep_length _ _ Ht).
  destruct (Z.eqb_spec (length l) (length k)) as [Hlen|Hne]; cbn [negb].
  - rewrite Nat2Z.id. change 0 with (Z.of_nat 0).
    rewrite (same_bytes_spec _ _ l k _ 0 (ks_reads _ _ Hs) (ks_reads _ _ Ht)) by lia.
    f_equal. apply bool_decide_ext. by rewrite !drop_0, !take_ge by lia.
  - rewrite bool_decide_false; [done|]. by intros ->.
Qed.

Lemma ks_starts_with_spec s l t k : ks_rep s l → ks_rep t k →
  ks_starts_with s t = Some (bool_decide (k `prefix_of` l)).
Proof.
  intros Hs Ht. unfold ks_starts_with. rewrite (ks_rep_length _ _ Hs), (ks_rep_length _ _ Ht).
  destruct (Z.ltb_spec (length l) (length k)) as [Hlt|Hge].
  - rewrite bool_decide_false; [done|]. intros Hp%prefix_length. lia.
  - rewrite Nat2Z.id. change 0 with (Z.of_nat 0).
    rewrite (same_bytes_spec _ _ l k _ 0 (ks_reads _ _ Hs) (ks_reads _ _ Ht)) by lia.
    f_equal. apply bool_decide_ext. rewrite !drop_0, (take_ge k) by lia. split.
    + intros <-. apply prefix_take.
    + intros [m ->]. apply take_app_length.
Qed.

(** [r] is the first place where [k] stands in [l], or [npos]. *)
Definition first_occurrence l k (r : Z) : Prop :=
  (∃ n : nat, r = n ∧ (n + length k ≤ length l)%nat ∧ occurs l k n ∧ ∀ n' : nat, (n' < n)%nat → ¬ occurs l k n')
  ∨ r = npos ∧ ∀ n, ¬ occurs l k n.

Lemma find_in_spec data l k tail : reads data l → Forall (λ x, x ≠ 0) k → k ≠ [] →
  ∃ r, find_in data (length l) (Some (k ++ 0 :: tail)) = Some r ∧ first_occurrence l k r.
Proof.
  intros Hs Hk Hne. assert (0 < length k)%nat by (destruct k; cbn; [done|lia]).
  unfold find_in. rewrite (c_strlen_app _ _ Hk). cbn [mbind option_bind].
  rewrite !Nat2Z.id, take_app_length, (proj2 (Z.eqb_neq _ _)) by lia. cbn [orb].
  destruct (Z.ltb_spec (length l) (length k)) as [Hlt|Hge].
  - exists npos. split; [done|]. right. split; [done|]. intros n Ho. apply (f_equal length) in Ho.
    rewrite length_take, length_drop in Ho. lia.
  - destruct (find_loop_spec data l k (length l) 0) as (r & Hr & Hcase);
      [done|done|lia|]. change (Z.of_nat 0) with 0 in Hr. rewrite Hr. exists r. split; [done|].
    destruct Hcase as [(n & -> & _ & Hn & Ho & Hmin)|[-> Hno]]; [left|right].
    + exists n. split_and!; [done..|]. intros n' Hn'. apply Hmin. lia.
    + split; [done|]. intros n. apply Hno. lia.
Qed.

Lemma ks_find_spec s l k tail : ks_rep s l → Forall (λ x, x ≠ 0) k → k ≠ [] →
  ∃ r, ks_find (Some (k ++ 0 :: tail)) s = Ok (s, r) ∧ first_occurrence l k r.
Proof.
  intros Hs Hk Hne. destruct (find_in_spec _ l k tail (ks_reads _ _ Hs) Hk Hne) as (r & Hr & HP).
  exists r. split; [|done]. unfold ks_find, mbind, M_bind, get, of_option. by rewrite (ks_rep_length _ _ Hs), Hr.
Qed.
End search.

(** ** Parts of a string *)
Section parts.
Implicit Types (s : kstring) (l k m : list Z) (rest : list (option Z)).

Lemma wp_ks_empty_literal : wp (ks_from_cstr (Some [0])) False (λ _ s', ks_ok s' []) ks_new.
Proof. by apply (wp_ks_from_cstr [] []). Qed.

(** [substr]; asked for no characters it leaves a buffer without a NUL. *)
Lemma wp_ks_substr s l (pos len : Z) : ks_ok s l → length l < KS_MAX → 0 ≤ pos → 0 ≤ len →
  wp (ks_substr s pos len) False (λ _ t,
    ks_rep t (take (Z.to_nat len) (drop (Z.to_nat pos) l)) ∧
    (0 < len → ks_ok t (take (Z.to_nat len) (drop (Z.to_nat pos) l)))) ks_new.
Proof.
  intros Hok Hmax Hpos Hlen. unfold ks_substr. rewrite (ks_rep_length _ _ (ks_ok_rep _ _ Hok)).
  destruct (Z.leb_spec (length l) pos) as [Hge|Hlt].
  { eapply wp_mono; [apply wp_ks_empty_literal|done|]. intros [] t Ht. rewrite drop_ge, take_nil by lia.
    split; [by apply ks_ok_rep|done]. }
  destruct Hok as [[_ ->]|[rest ->]]; [cbn in Hlt; lia|].
  apply wp_bind, (wp_ks_ensure _ ks_new []); [by left|lia|]. intros t Ht _.
  set (l2 := take (Z.to_nat len) (drop (Z.to_nat pos) l)).
  assert (length l2 = Z.to_nat (Z.min (length l - pos) len)) as Hl2
    by (unfold l2; rewrite length_take, length_drop; lia).
  replace pos with (Z.of_nat (length (take (Z.to_nat pos) l))) by (rewrite length_take; lia).
  replace (Z.min _ len) with (Z.of_nat (length l2)) by (rewrite length_take; lia).
  apply (wp_push_run _ (take (Z.to_nat pos) l) l2 (drop (Z.to_nat len) (drop (Z.to_nat pos) l)) (Some 0 :: rest) t []).
  - unfold l2. by rewrite !take_drop.
  - done.
  - rewrite Hl2. cbn [length]. lia.
  - intros t' Hrep Hok. split; [done|]. intros Hp. apply Hok. left. intros Hnil. rewrite Hnil in Hl2. cbn in Hl2. lia.
Qed.

Fixpoint drop_while (c : Z) l : list Z :=
  match l with [] => [] | x :: l' => if x =? c then drop_while c l' else l end.

Lemma drop_while_suffix c l : ∃ k, l = k ++ drop_while c l.
Proof.
  induction l as [|x l [k Hk]]; [by exists []|]. cbn. destruct (x =? c); [|by exists []].
  exists (x :: k). cbn. by rewrite <- Hk.
Qed.

Lemma trim_front_loop_spec l1 l rest c fuel : (length l ≤ fuel)%nat →
  trim_front_loop fuel (str (l1 ++ l) (Some 0 :: rest)) c (length l1) (length (l1 ++ l)) =
  Some (Z.of_nat (length (l1 ++ l) - length (drop_while c l))).
Proof.
  revert l1 fuel. induction l as [|x l IH]; intros l1 fuel Hf.
  - rewrite app_nil_r. cbn. replace (length l1 - 0)%nat with (length l1) by lia.
    assert (byte_of (str l1 (Some 0 :: rest)) (length l1) = Some 0) as Hb
      by (apply byte_of_app; by rewrite length_fmap).
    destruct fuel; cbn [trim_front_loop]; rewrite Hb; cbn [mbind option_bind]; by rewrite Z.ltb_irrefl, andb_false_r.
  - destruct fuel as [|fuel]; cbn in Hf; [lia|]. cbn [trim_front_loop].
    rewrite (byte_of_str _ _ _ x) by (by apply list_lookup_middle). cbn [mbind option_bind].
    rewrite length_app. cbn [length drop_while]. rewrite (proj2 (Z.ltb_lt (length l1) _)) by lia. rewrite andb_true_r.
    destruct (x =? c).
    + replace (l1 ++ x :: l) with ((l1 ++ [x]) ++ l) by (by rewrite <- app_assoc).
      replace (length l1 + 1) with (Z.of_nat (length (l1 ++ [x]))) by (rewrite length_app; cbn; lia).
      replace (length l1 + S (length l))%nat with (length ((l1 ++ [x]) ++ l)) by (rewrite !length_app; cbn; lia).
      apply IH. lia.
    + cbn [length]. f_equal. lia.
Qed.

Lemma wp_ks_trim_front l rest c : length l < KS_MAX →
  wp (ks_trim (str l (Some 0 :: rest)) true false c) False (λ _ t, ks_ok t (drop_while c l)) ks_new.
Proof.
  intros Hmax. unfold ks_trim. cbn [negb andb ks_length str]. rewrite Nat2Z.id.
  pose proof (trim_front_loop_spec [] l rest c (length l)) as Hloop. cbn [app length] in Hloop.
  change (Z.of_nat 0) with 0 in Hloop. apply wp_of_option. eexists. split; [apply Hloop; lia|].
  apply wp_of_option. eexists. split; [done|]. destruct (drop_while_suffix c l) as [k Hk].
  set (l2 := drop_while c l) in *. assert (length l = length k + length l2)%nat as Hlen by (rewrite Hk, length_app; done).
  destruct (Z.leb_spec (length l) (Z.of_nat (length l - length l2))) as [Hge|Hlt].
  { assert (l2 = []) as -> by (apply length_zero_iff_nil; lia). apply wp_ks_empty_literal. }
  unfold ks_reserve. apply wp_bind, (wp_ks_ensure _ ks_new []); [by left|lia|]. intros t Ht _.
  replace (Z.of_nat (length l - length l2)) with (Z.of_nat (length k)) by lia.
  replace (Z.of_nat (length l) - length k) with (Z.of_nat (length l2)) by lia.
  apply (wp_push_run _ k l2 [] (Some 0 :: rest) t []); [by rewrite app_nil_r, <- Hk|done|cbn [length]; lia|].
  intros t' _ Hok. apply Hok. left. intros Hnil. rewrite Hnil in Hlt. cbn in Hlt. lia.
Qed.

(** [trim_back] looks at the NUL instead of the last character. *)
Lemma wp_ks_trim_back l rest c : length l < KS_MAX → c ≠ 0 →
  wp (ks_trim (str l (Some 0 :: rest)) false true c) False (λ _ t, ks_ok t l) ks_new.
Proof.
  intros Hmax Hc. unfold ks_trim. cbn [negb andb ks_length str]. rewrite Nat2Z.id.
  apply wp_of_option. exists 0. split; [done|]. apply wp_of_option. exists (Z.of_nat (length l)). split.
  { assert (byte_of (str l (Some 0 :: rest)) (length l) = Some 0) as Hb
      by (apply byte_of_app; by rewrite length_fmap).
    destruct (length l) at 1; cbn [trim_back_loop]; rewrite Hb; cbn [mbind option_bind];
      by rewrite (proj2 (Z.eqb_neq 0 c)) by done. }
  destruct (Z.leb_spec (length l) 0).
  { assert (l = []) as -> by (apply length_zero_iff_nil; lia). apply wp_ks_empty_literal. }
  unfold ks_reserve. apply wp_bind, (wp_ks_ensure _ ks_new []); [by left|lia|]. intros t Ht _. rewrite Z.sub_0_r.
  change 0 with (Z.of_nat (length ([] : list Z))).
  apply (wp_push_run _ [] l [] (Some 0 :: rest) t []); [by rewrite app_nil_r|done|cbn [length]; lia|].
  intros t' _ Hok. apply Hok. left. intros ->. done.
Qed.
End parts.

(** ** The string as a sequence of characters *)

(** The characters of a string: the first [_length] bytes of its buffer. *)
Definition chars (s : kstring) : list Z :=
  match cells (ks_data s) with Some d => omap id (take (Z.to_nat (ks_length s)) d) | None => [] end.

Lemma chars_ok s l : ks_ok s l → chars s = l.
Proof.
  intros [[-> ->]|[rest ->]]; [done|]. unfold chars, str. cbn [ks_data cells ks_length].
  rewrite Nat2Z.id, take_app_length' by (by rewrite length_fmap). induction l as [|x l IH]; [done|]. cbn. by rewrite IH.
Qed.

(** The operations that change a string. *)
(** The member functions that change a string, with their operands: another string ([KAppend], [KAssign],
    [KMove]), the string itself, a C string (the characters [k], a NUL, and what follows), a null pointer, a view. *)
Inductive kop :=
| KPush (x : Z)
| KPop
| KClear
| KReverse
| KInsert (pos x : Z)
| KErase (pos : Z)
| KTruncate (pos : Z)
| KReserve (n : Z)
| KAppend (other : kstring)
| KAppendSelf
| KAppendCstr (k tail : list Z)
| KAppendNull
| KAssign (other : kstring)
| KMove (other : kstring)
| KAssignCstr (k tail : list Z)
| KAssignNull
| KAssignView (sv : kstring_view).

Definition run_kop (o : kop) : M kstring unit :=
  match o with
  | KPush x => ks_push_back x
  | KPop => ks_pop_back
  | KClear => ks_clear
  | KReverse => ks_reverse
  | KInsert pos x => ks_insert pos x
  | KErase pos => ks_erase pos
  | KTruncate pos => ks_truncate pos
  | KReserve n => ks_reserve n
  | KAppend other => ks_append other
  | KAppendSelf => ks_append_self
  | KAppendCstr k tail => ks_append_cstr (Some (k ++ 0 :: tail))
  | KAppendNull => ks_append_cstr None
  | KAssign other => ks_copy_assign other
  | KMove other => _ ← ks_move_assign other; mret ()
  | KAssignCstr k tail => ks_assign_cstr (Some (k ++ 0 :: tail))
  | KAssignNull => ks_assign_cstr None
  | KAssignView sv => ks_assign_view sv
  end.

(** What comes of an operation: a well-formed string with the characters [k]; a string with the characters
    [k] and, where its NUL should be, [c] ([None]: an unwritten byte); an access outside the buffer. *)
Inductive kresult :=
| Terminated (k : list Z)
| Followed (k : list Z) (c : option Z)
| Wild.

Definition comes_out (r : kresult) (out : outcome (kstring * unit)) : Prop :=
  match r with
  | Terminated k => ∃ s', out = Ok (s', ()) ∧ ks_ok s' k
  | Followed k c => ∃ rest, out = Ok (str k (c :: rest), ())
  | Wild => out = Fault
  end.

Definition inserted (pos x : Z) (l : list Z) : list Z :=
  if pos <=? length l then take (Z.to_nat pos) l ++ x :: drop (Z.to_nat pos) l else l.

Definition kop_result (o : kop) (s : kstring) (l : list Z) : kresult :=
  match o with
  | KPush x => Terminated (l ++ [x])
  | KPop => Terminated (take (length l - 1) l)
  | KClear | KAssignNull => Terminated []
  | KReverse => Terminated (reverse l)
  | KInsert pos x =>
      if (pos <? length l) && (ks_capacity s <? length l + 2) then Wild else Terminated (inserted pos x l)
  | KErase pos => Terminated (delete (Z.to_nat pos) l)
  | KTruncate pos => Terminated (take (Z.to_nat pos) l)
  | KReserve n => if n <=? ks_capacity s then Terminated l else Followed l None
  | KAppend other => Terminated (l ++ chars other)
  | KAppendSelf => match l with [] => Terminated [] | x :: _ => Followed (l ++ l) (Some x) end
  | KAppendCstr k _ => Terminated (l ++ k)
  | KAppendNull => Terminated l
  | KAssign other | KMove other => Terminated (chars other)
  | KAssignCstr k _ => Terminated k
  | KAssignView sv =>
      match ks_data s with
      | Null => let n := Z.to_nat (sv_length sv) in Followed (take n (sv_c_str sv)) (sv_c_str sv !! n)
      | _ => Wild
      end
  end.

(** The operands: positions are unsigned, other strings are well-formed, C strings have no NUL before their
    end, a view has a readable byte behind it, and no size is over [KS_MAX]. *)
Definition kop_operand (o : kop) (l : list Z) : Prop :=
  length l + 1 < KS_MAX ∧
  match o with
  | KInsert pos _ | KErase pos | KTruncate pos => 0 ≤ pos
  | KReserve n => n ≤ KS_MAX
  | KAppend other => ks_ok other (chars other) ∧ length l + length (chars other) < KS_MAX
  | KAppendSelf => length l + length l < KS_MAX
  | KAppendCstr k _ => Forall (λ x, x ≠ 0) k ∧ length l + length k < KS_MAX
  | KAssign other | KMove other => ks_ok other (chars other) ∧ length (chars other) < KS_MAX
  | KAssignCstr k _ => Forall (λ x, x ≠ 0) k ∧ length k < KS_MAX
  | KAssignView sv => 0 ≤ sv_length sv < length (sv_c_str sv) ∧ sv_length sv < KS_MAX
  | _ => True
  end.

Lemma wp_ks_insert_any s l (pos x : Z) : ks_ok s l → length l + 1 < KS_MAX → 0 ≤ pos →
  (pos < length l → length l + 2 ≤ ks_capacity s) →
  wp (ks_insert pos x) False (λ _ s', ks_ok s' (inserted pos x l)) s.
Proof.
  intros Hok Hmax Hpos Hcap. unfold inserted. destruct (Z.leb_spec pos (length l)) as [Hle|Hgt].
  2: { unfold ks_insert. apply wp_gets. rewrite (ks_rep_length _ _ (ks_ok_rep _ _ Hok)).
       rewrite (proj2 (Z.ltb_lt _ _)) by done. by apply wp_ret. }
  destruct (decide (pos = length l)) as [->|Hne].
  - rewrite Nat2Z.id, firstn_all, drop_all. unfold ks_insert. apply wp_gets.
    rewrite (ks_rep_length _ _ (ks_ok_rep _ _ Hok)), Z.ltb_irrefl, Z.eqb_refl. ks_wrap.
    apply wp_bind, (wp_ks_ensure _ s l); [by apply ks_ok_rep|lia|]. intros s' Hrep _.
    apply wp_bind. eapply wp_mono; [by apply (wp_ks_push_back s' l)|done|].
    intros [] t [[_ ?]|[rest ->]]; [by destruct l|].
    pose proof (wp_cut (l ++ [x]) [] rest) as Hcut. rewrite app_nil_r in Hcut. apply Hcut; [done|cbn [length]; lia].
  - destruct Hok as [[-> ->]|[rest ->]]; [cbn in *; lia|]. specialize (Hcap ltac:(lia)). cbn in Hcap.
    destruct rest as [|o rest]; [cbn in Hcap; lia|].
    pose proof (wp_ks_insert (take (Z.to_nat pos) l) x (drop (Z.to_nat pos) l) o rest) as Hins.
    rewrite take_drop, length_take, length_drop in Hins.
    replace (Z.of_nat (Z.to_nat pos `min` length l)) with pos in Hins by lia. apply Hins; [|lia].
    intros Hd. apply (f_equal length) in Hd. rewrite length_drop in Hd. cbn in Hd. lia.
Qed.

(** The first step of the insertion loop on a buffer without a spare byte. *)
Lemma shift_up_overruns (l : list Z) (pos : Z) : 0 ≤ pos ≤ length l →
  for_each (reverse (seqZ (pos + 1) (length l + 1 - pos))) (λ i, x ← ch_read (i - 1); ch_write i x) (str l [Some 0]) = Fault.
Proof.
  intros Hpos. replace (length l + 1 - pos) with (length l - pos + 1) by lia.
  rewrite seqZ_app, reverse_app, (seqZ_cons _ 1), (seqZ_nil _ (Z.pred 1)) by lia.
  cbn [reverse rev_append app for_each]. replace (pos + 1 + (length l - pos)) with (length l + 1) by lia.
  assert (byte_of (str l [Some 0]) (length l + 1 - 1) = Some 0) as Hb
    by (apply byte_of_app; rewrite length_fmap; lia).
  unfold ch_read, ch_write, ch_put, mbind, M_bind, gets, of_option. rewrite Hb.
  cbn -[Z.leb app fmap].
  rewrite (proj2 (Z.leb_gt _ _)); [done|]. rewrite length_app, length_fmap. cbn. lia.
Qed.

Lemma ks_insert_overruns (l1 l2 : list Z) (x : Z) : l2 ≠ [] → length l1 + length l2 + 1 < KS_MAX →
  ks_insert (length l1) x (str (l1 ++ l2) [Some 0]) = Fault.
Proof.
  intros Hne Hmax. assert (0 < length l2)%nat by (destruct l2; cbn; [done|lia]).
  unfold ks_insert, mbind, M_bind, gets at 1. cbn [ks_length str]. rewrite length_app, (proj2 (Z.ltb_ge _ _)) by lia.
  ks_wrap. rewrite (ks_enough_run _ _) by (cbn; rewrite length_app; lia).
  rewrite (proj2 (Z.eqb_neq _ _)), <- length_app by lia. by rewrite shift_up_overruns by (rewrite length_app; lia).
Qed.

Lemma ks_insert_result s l (pos x : Z) : ks_ok s l → kop_operand (KInsert pos x) l →
  comes_out (kop_result (KInsert pos x) s l) (ks_insert pos x s).
Proof.
  intros Hok [Hmax Hpos]. cbn [kop_result comes_out].
  destruct (Z.ltb_spec pos (length l)) as [Hlt|Hge], (Z.ltb_spec (ks_capacity s) (length l + 2)) as [Hc|Hc]; cbn [andb];
    try (destruct (wp_total _ _ _ (wp_ks_insert_any s l pos x Hok Hmax Hpos ltac:(lia))) as (s' & [] & R & H); by exists s').
  destruct Hok as [[-> ->]|[rest ->]]; [cbn in *; lia|]. destruct rest as [|o rest]; [|cbn in Hc; lia].
  cbn [comes_out]. rewrite <- (take_drop (Z.to_nat pos) l). replace pos with (Z.of_nat (length (take (Z.to_nat pos) l))) at 1
    by (rewrite length_take; lia).
  apply ks_insert_overruns; [|rewrite length_take, length_drop; lia]. intros Hd. apply (f_equal length) in Hd.
  rewrite length_drop in Hd. cbn in Hd. lia.
Qed.

Lemma ks_reserve_result s l (n : Z) : ks_ok s l → n ≤ KS_MAX → comes_out (kop_result (KReserve n) s l) (ks_reserve n s).
Proof.
  intros Hok Hn. cbn [kop_result]. destruct (Z.leb_spec n (ks_capacity s)) as [Hc|Hc].
  { exists s. split; [by apply ks_enough_run|done]. }
  assert (wp (ks_reserve n) False (λ _ s', ∃ rest, s' = str l (None :: rest)) s) as (s' & [] & R & [rest ->])%wp_total; [|by exists rest].
  apply (wp_ks_ensure_fresh n s l); [by apply ks_ok_rep|done|]. intros s' Hr Hcap [-> |[m ->]]; [lia|].
  destruct m as [|m]; [|by exists (replicate m None)]. cbn in Hcap. destruct Hok as [[-> ->]|[rest ->]]; cbn in *; lia.
Qed.

(** A step of [memcpy] within the buffer, from a byte already written to the first one behind them. *)
Lemma wp_copy_up w (c i : Z) off o rest n cap Q : 0 ≤ i → w !! Z.to_nat i = Some c → off + i = length w →
  Q () (mk_kstring (Buf ((Some <$> w ++ [c]) ++ rest)) n cap) →
  wp (x ← ch_read i; ch_write (off + i) x) False Q (mk_kstring (Buf ((Some <$> w) ++ o :: rest)) n cap).
Proof.
  intros Hi Hc Ho HQ. apply wp_bind. unfold ch_read. apply wp_gets. unfold byte_of. cbn [cells ks_data mbind option_bind].
  rewrite (proj2 (Z.leb_le _ _)) by done.
  rewrite (lookup_app_l_Some _ _ _ (Some c)) by (by rewrite list_lookup_fmap, Hc). cbn [mjoin option_join of_option].
  apply (wp_write _ c (Some <$> w)); [by rewrite length_fmap|]. by rewrite fmap_app, <- app_assoc in HQ.
Qed.

Lemma wp_copy_self x l n cap l2 : ∀ l1 rest, l = l1 ++ l2 → head l = Some x → (length l2 < length rest)%nat →
  wp (for_each (seqZ (length l1) (length l2 + 1)) (λ i, c ← ch_read i; ch_write (length l + i) c)) False
    (λ _ s', ∃ rest', s' = mk_kstring (Buf ((Some <$> l ++ l) ++ Some x :: rest')) n cap ∧ length rest = (length l2 + S (length rest'))%nat)
    (mk_kstring (Buf ((Some <$> l ++ l1) ++ rest)) n cap).
Proof.
  induction l2 as [|y l2 IH]; intros l1 rest Hl Hx Hr; rewrite seqZ_cons by (cbn; lia); cbn [for_each length];
    (destruct rest as [|o rest]; [cbn in Hr; lia|]); apply wp_bind.
  - rewrite app_nil_r in Hl. subst l1. apply (wp_copy_up _ x); [lia| |rewrite length_app; lia|].
    { rewrite Nat2Z.id. rewrite lookup_app_r, Nat.sub_diag by done. by destruct l. }
    rewrite seqZ_nil by lia. apply wp_ret. exists rest. split; [|done]. by rewrite (fmap_app _ (l ++ l)), <- app_assoc.
  - apply (wp_copy_up _ y); [lia| |rewrite length_app; lia|].
    { rewrite Nat2Z.id, Hl, <- app_assoc. by apply list_lookup_middle. }
    replace (Z.succ (length l1)) with (Z.of_nat (length (l1 ++ [y]))) by (rewrite length_app; cbn; lia).
    replace (Z.pred (S (length l2) + 1)) with (length l2 + 1) by lia. rewrite <- app_assoc.
    eapply wp_mono; [apply IH; [by rewrite <- app_assoc|done|cbn in Hr; lia]|done|].
    intros [] s' (rest' & -> & Hlen). exists rest'. split; [done|]. cbn [length]. lia.
Qed.

Lemma ks_append_self_result s l : ks_ok s l → length l + length l < KS_MAX →
  comes_out (kop_result KAppendSelf s l) (ks_append_self s).
Proof.
  intros Hok Hmax. pose proof (ks_rep_length _ _ (ks_ok_rep _ _ Hok)) as Hn. destruct l as [|x l]; cbn [kop_result].
  { exists s. split; [|done]. unfold ks_append_self, mbind, M_bind, gets. by rewrite Hn. }
  set (xl := x :: l) in *. assert (0 < length xl)%nat by (cbn; lia).
  assert (wp ks_append_self False (λ _ s', ∃ rest, s' = str (xl ++ xl) (Some x :: rest)) s) as (s' & [] & R & [rest ->])%wp_total; [|by exists rest].
  unfold ks_append_self. apply wp_gets. rewrite Hn, (proj2 (Z.eqb_neq _ _)) by lia. ks_wrap.
  apply wp_bind, (wp_ks_room _ s xl); [by apply ks_ok_rep|lia|]. intros o rest Hr. apply wp_bind. unfold str.
  pose proof (wp_copy_self x xl (length xl) (length xl + length (o :: rest)) xl [] (o :: rest) eq_refl eq_refl) as Hc.
  rewrite app_nil_r in Hc. eapply wp_mono; [apply Hc; cbn [length]; lia|done|]. intros [] s' (rest' & -> & Hlen). exists rest'.
  unfold ks_with_length. cbn [ks_data ks_capacity]. rewrite length_app. f_equal; [lia|]. cbn [length] in *. lia.
Qed.

Lemma ks_assign_view_freed sv l rest : ks_assign_view sv (str l rest) = Fault.
Proof.
  unfold ks_assign_view, mbind, M_bind, modify at 1, ks_free, str, ks_with_data. cbn [ks_data ks_length ks_capacity].
  unfold ks_ensure_capacity. change 64%nat with (S 63). cbn [while]. unfold mbind, M_bind, gets at 1. cbn [ks_capacity].
  destruct (_ <? _); [done|]. unfold ch_memcpy. by destruct (_ <=? _).
Qed.

Lemma ks_assign_view_result s l sv : ks_ok s l → kop_operand (KAssignView sv) l →
  comes_out (kop_result (KAssignView sv) s l) (ks_assign_view sv s).
Proof.
  intros Hok (_ & [Hn0 Hn1] & Hmax). destruct Hok as [[-> _]|[rest ->]]; [|apply ks_assign_view_freed].
  cbn [kop_result ks_data ks_new]. set (n := Z.to_nat (sv_length sv)).
  destruct (lookup_lt_is_Some_2 (sv_c_str sv) n) as [x Hx]; [lia|]. rewrite Hx. set (k := take n (sv_c_str sv)).
  assert (length k = n) as Hk by (unfold k; rewrite length_take; lia).
  assert (wp (ks_assign_view sv) False (λ _ s', ∃ rest, s' = str k (Some x :: rest)) ks_new) as (s' & [] & R & [rest ->])%wp_total; [|by exists rest].
  unfold ks_assign_view. apply wp_modify. change (ks_free ks_new) with ks_new. ks_wrap.
  apply wp_bind, (wp_ks_room _ ks_new []); [by left|cbn [length]; lia|]. intros o rest Hr. cbn [length] in Hr. apply wp_bind.
  replace (sv_length sv + 1) with (length k + 1) by lia. rewrite <- (take_drop_middle _ _ _ Hx). fold k.
  apply (wp_view_bytes k x); [lia|]. intros rest' Hlen. exists rest'.
  unfold ks_with_length, str. cbn [ks_data ks_capacity length]. f_equal; lia.
Qed.

(** C34: what every member function that changes a string does, on a well-formed string (no buffer and no
    characters, or the characters followed by a NUL within the allocated capacity) and for all operands a
    caller may give.  All but four do to the characters what the operation on sequences does, never read or
    write outside the buffer or an unwritten byte, and leave a well-formed string.  The four: [insert] before
    the end writes outside the buffer exactly when the string and its NUL fill it; [reserve] that has to grow
    and [s += s] keep the right characters and lose the NUL behind them; and assigning a view goes through the
    buffer just freed if there was one, and otherwise takes for its NUL the byte that follows the view. *)
Theorem kstring_refines_sequence (o : kop) (s : kstring) (l : list Z) : ks_ok s l → kop_operand o l →
  comes_out (kop_result o s l) (run_kop o s).
Proof.
  intros Hok Hfit. pose proof (ks_ok_rep _ _ Hok) as Hrep.
  assert (∀ m k, wp m False (λ _ s', ks_ok s' k) s → comes_out (Terminated k) (m s)) as Hwp.
  { intros m k (s' & [] & Hrun & Hok')%wp_total. by exists s'. }
  destruct o; cbn [run_kop]; try (by apply ks_insert_result); try (by apply ks_assign_view_result); destruct Hfit as [Hmax Hfit];
    try (by apply ks_reserve_result); try (by apply ks_append_self_result); apply Hwp.
  - by apply wp_ks_push_back.
  - destruct l as [|y l _] using rev_ind; [destruct Hok as [[-> _]|[rest ->]]; [by left|]; by apply wp_get; right; exists rest|].
    rewrite length_app in *. cbn [length] in *. replace (length l + 1 - 1)%nat with (length l) by lia.
    rewrite take_app_length. apply (wp_ks_pop_back _ _ y); [done|lia].
  - by eapply wp_ks_clear.
  - by apply wp_ks_reverse.
  - destruct (decide (pos < length l)) as [Hlt|].
    + destruct (lookup_lt_is_Some_2 l (Z.to_nat pos)) as [y Hy]; [lia|]. apply take_drop_middle in Hy as Hl.
      rewrite delete_take_drop. replace pos with (Z.of_nat (length (take (Z.to_nat pos) l))) at 1 by (rewrite length_take; lia).
      apply (wp_ks_erase _ _ y); [by rewrite Hl|]. rewrite length_take, length_drop. lia.
    + unfold ks_erase. apply wp_gets. rewrite (ks_rep_length _ _ Hrep), (proj2 (Z.leb_le _ _)) by lia.
      apply wp_ret. by rewrite delete_take_drop, take_ge, drop_ge, app_nil_r by lia.
  - by apply wp_ks_truncate.
  - destruct Hfit. apply wp_ks_append; auto.
  - destruct Hfit. by apply wp_ks_append_cstr.
  - done.
  - destruct Hfit. by eapply wp_ks_copy_assign.
  - destruct Hfit. done.
  - destruct Hfit. by apply wp_ks_assign_cstr.
  - by left.
Qed.

(** The string "to" in the 16 bytes it is given first. *)
Definition demo_string : kstring := str [116; 111] (Some 0 :: replicate 13 None).

Lemma kstring_refines_sequence_witness :
  (∃ s', run_kop (KInsert 1 119) demo_string = Ok (s', ()) ∧ ks_ok s' [116; 119; 111]) ∧
  (∃ rest, run_kop KAppendSelf demo_string = Ok (str [116; 111; 116; 111] (Some 116 :: rest), ())) ∧
  run_kop (KAssignView (mk_view (Some [115; 0]) 1)) demo_string = Fault.
Proof.
  assert (ks_ok demo_string [116; 111]) as Hok by (right; exists (replicate 13 None); reflexivity).
  split; [|split].
  - apply (kstring_refines_sequence (KInsert 1 119) demo_string [116; 111] Hok). split; [reflexivity|discriminate].
  - apply (kstring_refines_sequence KAppendSelf demo_string [116; 111] Hok). split; reflexivity.
  - apply (kstring_refines_sequence (KAssignView (mk_view (Some [115; 0]) 1)) demo_string [116; 111] Hok).
    split; [reflexivity|]. split; [split; [discriminate|reflexivity]|reflexivity].
Defined.

(** Trimming: the front of a default-constructed string is read through [nullptr]; trimming the back never
    removes a character. *)
Theorem kstring_trim_errors (l : list Z) (c : Z) (rest : list (option Z)) :
  length l + S (length rest) < KS_MAX → c ≠ 0 →
  ks_trim ks_new true false c ks_new = Fault ∧
  ∃ t, ks_trim (str l (Some 0 :: rest)) false true c ks_new = Ok (t, ()) ∧ ks_ok t l.
Proof.
  intros Hmax Hc. split; [done|].
  pose proof (wp_ks_trim_back l rest c ltac:(lia) Hc) as (t & [] & Hrun & Ht)%wp_total. eauto.
Qed.

Lemma kstring_trim_errors_witness :
  ks_trim ks_new true false 32 ks_new = Fault ∧
  ∃ t, ks_trim demo_string false true 111 ks_new = Ok (t, ()) ∧ ks_ok t [116; 111].
Proof. destruct (kstring_trim_errors [116; 111] 111 (replicate 13 None)) as [_ H]; [reflexivity|discriminate|]. exact (conj eq_refl H). Defined.
