(* ===== verification/Algo.v ===== *)
(** * Splitting and joining strings

    [src/kernel/include/algo/algo.hpp] and [src/kernel/lib/algo/algo.cpp], on the kernel's own strings
    ([KString]) and vectors ([KVector]).  [split] returns the non-empty fields between delimiters and
    [tokenize] all of them; [join] is the inverse of both. *)

From S2P Require Import Prelude KVector KString.

#[local] Coercion Z.of_nat : nat >-> Z.

(** The local variables of [split] and [tokenize]. *)
Record split_state := mk_split {
  sp_result : kvector kstring;
  sp_part : kstring;
  sp_last : Z;
}.

Definition on_result {A} : M (kvector kstring) A → M split_state A :=
  zoom sp_result (λ v s, mk_split v (sp_part s) (sp_last s)).
Definition on_part {A} : M kstring A → M split_state A :=
  zoom sp_part (λ p s, mk_split (sp_result s) p (sp_last s)).

(** [result.push_back(part)]: the element is a copy of [part]. *)
Definition push_part : M split_state unit :=
  p ← gets sp_part;
  t ← construct (ks_copy p);
  on_result (kv_push_back t).

(** [part = ""]. *)
Definition reset_part : M split_state unit := on_part (ks_assign_cstr (Some [0])).

Definition split_start : split_state := mk_split kv_new ks_new 0.

(** [split] over the characters [text] between its two iterators. *)
Definition split (text : list Z) (delim : Z) : M split_state (kvector kstring) :=
  _ ← on_part (ks_from_cstr (Some [0]));
  _ ← for_each text (λ c,
        if c =? delim then
          p ← gets sp_part;
          if negb (ks_empty p) then _ ← push_part; reset_part else mret ()
        else on_part (ks_push_back c));
  p ← gets sp_part;
  _ ← (if negb (ks_empty p) then push_part else mret ());
  gets sp_result.

Definition tokenize (text : list Z) (delim : Z) : M split_state (kvector kstring) :=
  _ ← on_part (ks_from_cstr (Some [0]));
  _ ← for_each text (λ c,
        _ ← modify (λ s, mk_split (sp_result s) (sp_part s) c);
        if c =? delim then _ ← push_part; reset_part else on_part (ks_push_back c));
  s ← get;
  _ ← (if negb (ks_empty (sp_part s)) || (sp_last s =? delim) then push_part else mret ());
  gets sp_result.

(** [split(const kstring&, char)] and [split(kstring_view, char)]: from [begin()] to [end()]. *)
Definition split_string (str : kstring) (delim : Z) : M split_state (kvector kstring) :=
  text ← of_option (mapM (byte_of str) (seqZ 0 (ks_length str)));
  split text delim.
Definition split_view (sv : kstring_view) (delim : Z) : M split_state (kvector kstring) :=
  text ← of_option (mapM (sv_at sv) (seqZ 0 (sv_length sv)));
  split text delim.

(** [join] over the elements between its iterators; the string it builds is the state. *)
Definition join (items : list kstring) (delim : Z) : M kstring unit :=
  _ ← for_each items (λ s, _ ← ks_append s; ks_push_back delim);
  r ← get;
  if negb (ks_empty r) then ks_pop_back else mret ().

(** [join(const kvector<T>&, char)]. *)
Definition join_vector (v : kvector kstring) (delim : Z) : M kstring unit :=
  items ← of_option (mapM (λ i, mjoin (kv_data v !! Z.to_nat i)) (seqZ 0 (kv_size v)));
  join items delim.

(** ** Arithmetic helpers *)

Definition algo_max (a b : Z) : Z := if b <? a then a else b.
Definition algo_min (a b : Z) : Z := if a <? b then a else b.
(** On a signed type of [w] bits, where the least value has no opposite. *)
Definition algo_abs (w t : Z) : option Z :=
  if t <? 0 then if t =? - 2 ^ (w - 1) then None else Some (- t) else Some t.
Definition algo_sqr (w t : Z) : Z := wrap w (t * t).
Definition algo_swap {A} (p : A * A) : A * A := (p.2, p.1).

(** ** Fields *)

(** The fields of [l] between occurrences of [delim], empty ones included; [acc] is the field under
    way. *)
Fixpoint fields_acc (delim : Z) (acc l : list Z) : list (list Z) :=
  match l with
  | [] => [acc]
  | c :: l' => if c =? delim then acc :: fields_acc delim [] l' else fields_acc delim (acc ++ [c]) l'
  end.
Definition fields (delim : Z) (l : list Z) : list (list Z) := fields_acc delim [] l.

Definition nonempty (k : list Z) : bool := negb (bool_decide (k = [])).
Definition split_spec (delim : Z) (l : list Z) : list (list Z) := filter (λ k, nonempty k = true) (fields delim l).

(** Items with a delimiter between them. *)
Fixpoint intersperse (delim : Z) (ks : list (list Z)) : list Z :=
  match ks with
  | [] => []
  | [k] => k
  | k :: ks' => k ++ delim :: intersperse delim ks'
  end.

Section fields.
Context (delim : Z).
Implicit Types (l k acc : list Z) (ks : list (list Z)).

Lemma fields_acc_not_nil acc l : fields_acc delim acc l ≠ [].
Proof. revert acc. induction l as [|c l IH]; intros acc; cbn; [done|]. by destruct (c =? delim). Qed.

Lemma intersperse_cons k ks : ks ≠ [] → intersperse delim (k :: ks) = k ++ delim :: intersperse delim ks.
Proof. by destruct ks. Qed.

(** Joining the fields gives the text back. *)
Lemma intersperse_fields_acc acc l : intersperse delim (fields_acc delim acc l) = acc ++ l.
Proof.
  revert acc. induction l as [|c l IH]; intros acc; cbn [fields_acc]; [by rewrite app_nil_r|].
  destruct (Z.eqb_spec c delim) as [->|].
  - rewrite intersperse_cons, IH by apply fields_acc_not_nil. done.
  - by rewrite IH, <- app_assoc.
Qed.

Lemma fields_acc_run acc k l : delim ∉ k → fields_acc delim acc (k ++ l) = fields_acc delim (acc ++ k) l.
Proof.
  revert acc. induction k as [|c k IH]; intros acc Hk; cbn; [by rewrite app_nil_r|].
  apply not_elem_of_cons in Hk as [Hc Hk]. rewrite (proj2 (Z.eqb_neq _ _)) by done.
  by rewrite IH, <- app_assoc.
Qed.

(** Items without delimiters are the fields of their join. *)
Lemma fields_intersperse ks : Forall (λ k, delim ∉ k) ks → ks ≠ [] → fields delim (intersperse delim ks) = ks.
Proof.
  intros Hks Hne. unfold fields. induction Hks as [|k ks Hk Hks IH]; [done|].
  destruct ks as [|k' ks].
  - cbn. rewrite <- (app_nil_r k) at 1. rewrite fields_acc_run by done. done.
  - rewrite intersperse_cons, fields_acc_run by done. cbn [app fields_acc]. rewrite Z.eqb_refl, IH by done. done.
Qed.

Lemma filter_nonempty ks : Forall (λ k, k ≠ []) ks → filter (λ k, nonempty k = true) ks = ks.
Proof.
  induction 1 as [|k ks Hk Hks IH]; [done|]. rewrite filter_cons_True, IH; [done|].
  unfold nonempty. by rewrite bool_decide_false.
Qed.
End fields.

(** ** The loops *)
Section loops.
Implicit Types (s : split_state) (part text : list Z) (done : list (list Z)).

(** The vector holds well-formed strings with the characters [ks]. *)
Definition strs (v : kvector kstring) (ks : list (list Z)) : Prop := ∃ ss, kv_rep v ss ∧ Forall2 ks_ok ss ks.

Definition at_split s done part : Prop := strs (sp_result s) done ∧ ks_ok (sp_part s) part.

(** Room for [n] more characters or fields. *)
Definition small done part (n : nat) : Prop := length done + length part + n + 2 < KS_MAX.

Lemma wp_push_part s done part (Q : unit → split_state → Prop) : at_split s done part → small done part 0 →
  (∀ s', at_split s' (done ++ [part]) part → sp_last s' = sp_last s → Q () s') → wp push_part False Q s.
Proof.
  intros [(ss & Hv & Hss) Hp] Hsm HQ. unfold small in Hsm. unfold push_part. apply wp_gets.
  eapply (wp_construct _ (λ t, ks_ok t part)); [apply wp_ks_copy; [done|lia]|]. intros t Ht.
  unfold on_result. apply wp_zoom. eapply wp_mono; [apply (wp_push_back t _ ss); [done|]|done|].
  - apply Forall2_length in Hss. rewrite Hss. unfold KS_MAX, KV_MAX in *. lia.
  - intros [] v' Hv'. apply HQ; [|done]. split; [|done]. exists (ss ++ [t]). split; [done|].
    apply Forall2_app; [done|]. by constructor.
Qed.

Lemma wp_reset_part s done part (Q : unit → split_state → Prop) : at_split s done part →
  (∀ s', at_split s' done [] → sp_last s' = sp_last s → Q () s') → wp reset_part False Q s.
Proof.
  intros [Hv Hp] HQ. unfold reset_part, on_part. apply wp_zoom.
  eapply wp_mono; [apply (wp_ks_assign_cstr _ [] []); [done|]|done|].
  - unfold KS_MAX. by vm_compute.
  - intros [] p' Hp'. by apply HQ.
Qed.

Lemma wp_part_char s done part c (Q : unit → split_state → Prop) : at_split s done part → small done part 0 →
  (∀ s', at_split s' done (part ++ [c]) → sp_last s' = sp_last s → Q () s') → wp (on_part (ks_push_back c)) False Q s.
Proof.
  intros [Hv Hp] Hsm HQ. unfold small in Hsm. unfold on_part. apply wp_zoom.
  eapply wp_mono; [apply (wp_ks_push_back _ part); [by apply ks_ok_rep|lia]|done|].
  intros [] p' Hp'. by apply HQ.
Qed.

Lemma ks_empty_ok t part : ks_ok t part → negb (ks_empty t) = nonempty part.
Proof.
  intros Ht%ks_ok_rep%ks_rep_length. unfold ks_empty, nonempty. rewrite Ht.
  destruct part; [done|]. by rewrite bool_decide_false.
Qed.

Lemma wp_split_loop delim text s done part (Q : unit → split_state → Prop) :
  at_split s done part → small done part (length text) →
  (∀ s' done' part', at_split s' done' part' → small done' part' 0 →
     done' ++ filter (λ k, nonempty k = true) [part'] =
     done ++ filter (λ k, nonempty k = true) (fields_acc delim part text) → Q () s') →
  wp (for_each text (λ c,
        if c =? delim then
          p ← gets sp_part;
          if negb (ks_empty p) then _ ← push_part; reset_part else mret ()
        else on_part (ks_push_back c))) False Q s.
Proof.
  revert s done part. induction text as [|c text IH]; intros s done part Hs Hsm HQ; [by apply (HQ s done part)|].
  cbn [for_each fields_acc] in *. unfold small in Hsm. cbn [length] in Hsm. apply wp_bind.
  destruct (Z.eqb_spec c delim) as [->|Hne].
  - apply wp_gets. rewrite (ks_empty_ok _ part) by apply Hs. destruct (nonempty part) eqn:Hp.
    + apply wp_bind, (wp_push_part _ done part); [done|unfold small; lia|]. intros s1 Hs1 _.
      apply (wp_reset_part _ _ _ _ Hs1). intros s2 Hs2 _. apply (IH _ _ _ Hs2).
      { unfold small. rewrite length_app. cbn [length]. lia. }
      intros s' done' part' Hs' Hsm' Heq. apply (HQ s' done' part'); [done..|].
      rewrite Heq, filter_cons_True, <- app_assoc by done. done.
    + apply wp_ret. assert (part = []) as ->.
      { unfold nonempty in Hp. apply negb_false_iff, bool_decide_eq_true in Hp. done. }
      apply (IH _ _ _ Hs); [unfold small; lia|]. intros s' done' part' Hs' Hsm' Heq.
      apply (HQ s' done' part'); [done..|]. rewrite Heq, filter_cons_False; [done|]. by rewrite Hp.
  - apply (wp_part_char _ done part); [done|unfold small; lia|]. intros s1 Hs1 _. apply (IH _ _ _ Hs1).
    { unfold small. rewrite length_app. cbn [length]. lia. }
    intros s' done' part' Hs' Hsm' Heq. by apply (HQ s' done' part').
Qed.

Lemma wp_tokenize_loop delim text s done part (Q : unit → split_state → Prop) :
  at_split s done part → small done part (length text) →
  (∀ s' done' part', at_split s' done' part' → small done' part' 0 →
     done' ++ [part'] = done ++ fields_acc delim part text →
     sp_last s' = default (sp_last s) (last text) →
     (part' = [] → sp_last s' = delim ∨ (text = [] ∧ part = [])) → Q () s') →
  wp (for_each text (λ c,
        _ ← modify (λ s, mk_split (sp_result s) (sp_part s) c);
        if c =? delim then _ ← push_part; reset_part else on_part (ks_push_back c))) False Q s.
Proof.
  revert s done part. induction text as [|c text IH]; intros s done part Hs Hsm HQ.
  { apply (HQ s done part); [done..|]. intros ->. by right. }
  cbn [for_each fields_acc] in *. unfold small in Hsm. cbn [length] in Hsm. apply wp_bind, wp_modify.
  set (s0 := mk_split _ _ c). assert (at_split s0 done part) as Hs0 by done.
  assert (default c (last text) = default (sp_last s) (last (c :: text))) as Hlast
    by (rewrite last_cons; by destruct (last text)).
  destruct (Z.eqb_spec c delim) as [->|Hne].
  - apply wp_bind, (wp_push_part _ done part); [done|unfold small; lia|]. intros s1 Hs1 Hl1.
    apply (wp_reset_part _ _ _ _ Hs1). intros s2 Hs2 Hl2. apply (IH _ _ _ Hs2).
    { unfold small. rewrite length_app. cbn [length]. lia. }
    intros s' done' part' Hs' Hsm' Heq Hl Hnil. rewrite Hl2, Hl1 in Hl. cbn in Hl.
    apply (HQ s' done' part'); [done..| | |].
    + by rewrite Heq, <- app_assoc.
    + by rewrite Hl.
    + intros [?|[-> _]]%Hnil; [by left|]. left. by rewrite Hl.
  - apply (wp_part_char _ done part); [done|unfold small; lia|]. intros s1 Hs1 Hl1. apply (IH _ _ _ Hs1).
    { unfold small. rewrite length_app. cbn [length]. lia. }
    intros s' done' part' Hs' Hsm' Heq Hl Hnil. rewrite Hl1 in Hl. cbn in Hl.
    apply (HQ s' done' part'); [done..| |]; [by rewrite Hl|].
    intros [?|[_ ?]]%Hnil; [by left|by destruct part].
Qed.
End loops.

(** ** The functions *)
Section functions.
Context (delim : Z).
Implicit Types (text : list Z) (ks : list (list Z)).

Lemma wp_start {B} (f : unit → M split_state B) (Q : B → split_state → Prop) :
  (∀ s, at_split s [] [] → sp_last s = 0 → wp (f ()) False Q s) →
  wp (on_part (ks_from_cstr (Some [0])) ≫= f) False Q split_start.
Proof.
  intros Hf. apply wp_bind. unfold on_part. apply wp_zoom.
  eapply wp_mono; [apply wp_ks_empty_literal|done|]. intros [] p Hp. apply Hf; [|done].
  split; [|done]. exists []. split; [apply kv_rep_new|constructor].
Qed.

Lemma small_start text : length text + 2 < KS_MAX → small [] [] (length text).
Proof. unfold small. cbn [length]. lia. Qed.

Lemma wp_split text : length text + 2 < KS_MAX →
  wp (split text delim) False (λ v _, strs v (split_spec delim text)) split_start.
Proof.
  intros Hsm%small_start. unfold split. apply wp_start. intros s Hs _.
  apply wp_bind, (wp_split_loop delim text s [] []); [done..|]. intros s' done' part' Hs' Hsm' Heq.
  apply wp_gets. rewrite (ks_empty_ok _ part') by apply Hs'. cbn [app] in Heq.
  unfold split_spec, fields. rewrite <- Heq. apply wp_bind. destruct (nonempty part') eqn:Hp.
  - rewrite filter_cons_True by done. apply (wp_push_part _ done' part'); [done..|]. intros s2 [Hs2 _] _. exact Hs2.
  - rewrite filter_cons_False by (by rewrite Hp). rewrite app_nil_r. apply Hs'.
Qed.

(** A text without characters has no token, unless the delimiter is NUL. *)
Definition tokenize_spec text : list (list Z) :=
  if bool_decide (text = []) && negb (delim =? 0) then [] else fields delim text.

Lemma wp_tokenize text : length text + 2 < KS_MAX →
  wp (tokenize text delim) False (λ v _, strs v (tokenize_spec text)) split_start.
Proof.
  intros Hsm%small_start. unfold tokenize. apply wp_start. intros s Hs H0.
  apply wp_bind, (wp_tokenize_loop delim text s [] []); [done..|]. intros s' done' part' Hs' Hsm' Heq Hlast Hnil.
  apply wp_get. rewrite (ks_empty_ok _ part') by apply Hs'. cbn [app] in Heq.
  unfold tokenize_spec, fields. rewrite <- Heq. apply wp_bind.
  destruct (nonempty part' || (sp_last s' =? delim)) eqn:Hp.
  - apply (wp_push_part _ done' part'); [done..|]. intros s2 [Hs2 _] _. unfold wp, gets.
    rewrite andb_comm. destruct (negb (delim =? 0)) eqn:Hd; [|exact Hs2]. rewrite bool_decide_false; [exact Hs2|].
    intros ->. cbn in Hlast, Heq. apply app_singleton in Heq as [[-> [= ->]]|[_ ?]]; [|done].
    cbn in Hp. rewrite Hlast, H0 in Hp. lia.
  - apply orb_false_iff in Hp as [Hp Hl]. unfold nonempty in Hp. apply negb_false_iff, bool_decide_eq_true in Hp.
    destruct (Hnil Hp) as [?|[-> _]]; [lia|]. subst part'. cbn in Heq, Hlast.
    rewrite Hlast, H0 in Hl. rewrite bool_decide_true by done. cbn [andb]. replace (negb (delim =? 0)) with true by lia.
    apply app_singleton in Heq as [[-> _]|[_ ?]]; [|done]. apply Hs'.
Qed.

Lemma intersperse_snoc ks : ks ≠ [] → concat ((λ k, k ++ [delim]) <$> ks) = intersperse delim ks ++ [delim].
Proof.
  intros Hne. induction ks as [|k ks IH]; [done|]. destruct ks as [|k' ks]; [cbn; by rewrite app_nil_r|].
  rewrite intersperse_cons by done. cbn [fmap list_fmap concat] in *. rewrite IH by done. by rewrite <- !app_assoc.
Qed.

Lemma wp_join ss ks : Forall2 ks_ok ss ks → length (concat ((λ k, k ++ [delim]) <$> ks)) + 1 < KS_MAX →
  wp (join ss delim) False (λ _ t, ks_ok t (intersperse delim ks)) ks_new.
Proof.
  intros Hss Hmax. unfold join. apply wp_bind.
  assert (∀ r l, ks_ok r l → length l + length (concat ((λ k, k ++ [delim]) <$> ks)) + 1 < KS_MAX →
    wp (for_each ss (λ s, _ ← ks_append s; ks_push_back delim)) False
      (λ _ t, ks_ok t (l ++ concat ((λ k, k ++ [delim]) <$> ks))) r) as Hloop.
  { clear Hmax. induction Hss as [|s k ss ks Hs Hss IH]; intros r l Hr Hm; [cbn; by rewrite app_nil_r|].
    cbn [for_each fmap list_fmap concat] in *. rewrite !length_app in Hm. cbn [length] in Hm. apply wp_bind, wp_bind.
    eapply wp_mono; [apply (wp_ks_append r l s k); [by apply ks_ok_rep|done|lia|by right]|done|].
    intros [] r1 Hr1. eapply wp_mono; [apply (wp_ks_push_back r1 (l ++ k)); [by apply ks_ok_rep|rewrite length_app; lia]|done|].
    intros [] r2 Hr2. rewrite <- !(app_assoc l) in *.
    eapply wp_mono; [apply (IH r2 _ Hr2); rewrite !length_app; cbn [length]; lia|done|].
    intros [] t Ht. by rewrite <- app_assoc in Ht. }
  eapply wp_mono; [apply (Hloop ks_new []); [by left|cbn [length]; lia]|done|]. intros [] t Ht. cbn [app] in Ht.
  apply wp_get. rewrite (ks_empty_ok _ _ Ht). destruct ks as [|k ks]; [done|].
  rewrite intersperse_snoc in Ht, Hmax |- * by done. unfold nonempty. rewrite bool_decide_false by (by destruct (intersperse delim (k :: ks))).
  cbn [negb]. rewrite length_app in Hmax. cbn [length] in Hmax. apply (wp_ks_pop_back _ _ delim); [done|lia].
Qed.

Lemma wp_join_vector v ks : strs v ks → length (concat ((λ k, k ++ [delim]) <$> ks)) + 1 < KS_MAX →
  wp (join_vector v delim) False (λ _ t, ks_ok t (intersperse delim ks)) ks_new.
Proof.
  intros (ss & [Hsize [_ Hel]] & Hss) Hmax. unfold join_vector. apply wp_of_option. exists ss. split; [|by apply wp_join].
  apply mapM_Some_2, Forall2_same_length_lookup_2.
  - rewrite length_seqZ. lia.
  - intros i z x Hz Hx. apply lookup_seqZ in Hz as [-> _]. by rewrite Z.add_0_l, Nat2Z.id, (Hel _ _ Hx).
Qed.
End functions.

Lemma concat_fields_length (delim : Z) (l : list Z) :
  length (concat ((λ k, k ++ [delim]) <$> fields delim l)) = S (length l).
Proof.
  rewrite intersperse_snoc by apply fields_acc_not_nil. unfold fields.
  rewrite intersperse_fields_acc, length_app. cbn. lia.
Qed.

(** Splitting and joining are inverse.  [tokenize] of a non-empty text returns its fields, empty
    ones included, and [join] of the vector it returns is the text again; [join] of non-empty items
    without the delimiter and then [split] of the joined string returns exactly these items. *)
Theorem split_join_roundtrip (delim : Z) (text : list Z) (ss : list kstring) (ks : list (list Z)) :
  text ≠ [] → length text + 2 < KS_MAX →
  Forall2 ks_ok ss ks → ks ≠ [] → Forall (λ k, k ≠ [] ∧ delim ∉ k) ks →
  length (concat ((λ k, k ++ [delim]) <$> ks)) + 2 < KS_MAX →
  (∃ s v t, tokenize text delim split_start = Ok (s, v) ∧ strs v (fields delim text) ∧
     join_vector v delim ks_new = Ok (t, ()) ∧ ks_ok t text) ∧
  (∃ t s v, join ss delim ks_new = Ok (t, ()) ∧ ks_ok t (intersperse delim ks) ∧
     split_string t delim split_start = Ok (s, v) ∧ strs v ks).
Proof.
  intros Hne Htext Hss Hks Hall Hmax. split.
  - destruct (wp_total _ _ _ (wp_tokenize delim text Htext)) as (s & v & Hrun & Hv).
    unfold tokenize_spec in Hv. rewrite bool_decide_false in Hv by done. cbn [andb] in Hv.
    assert (length (concat ((λ k, k ++ [delim]) <$> fields delim text)) + 1 < KS_MAX) as Hlen
      by (rewrite concat_fields_length; lia).
    destruct (wp_total _ _ _ (wp_join_vector delim v _ Hv Hlen)) as (t & [] & Hrun' & Ht).
    exists s, v, t. split_and!; [done..|]. unfold fields in Ht. by rewrite intersperse_fields_acc in Ht.
  - destruct (wp_total _ _ _ (wp_join delim ss ks Hss ltac:(lia))) as (t & [] & Hrun & Ht).
    set (l := intersperse delim ks) in *.
    assert (length l + 2 < KS_MAX) as Hlen
      by (rewrite (intersperse_snoc delim ks Hks), length_app in Hmax; unfold l; cbn [length] in Hmax; lia).
    destruct (wp_total _ _ _ (wp_split delim l Hlen)) as (s & v & Hrun' & Hv).
    exists t, s, v. split_and!; [done..| |].
    + unfold split_string, mbind, M_bind, of_option. rewrite (ks_rep_length _ _ (ks_ok_rep _ _ Ht)).
      rewrite (mapM_reads _ l) by (by apply ks_reads, ks_ok_rep). exact Hrun'.
    + unfold split_spec, l in Hv. rewrite fields_intersperse in Hv; [|by eapply Forall_impl; [exact Hall|intros k []]|done].
      rewrite filter_nonempty in Hv; [done|]. eapply Forall_impl; [exact Hall|by intros k []].
Qed.

(** "/usr//bin" and its fields, and the path "home/me" from its parts. *)
Lemma split_join_roundtrip_witness :
  (∃ s v t, tokenize [47; 117; 47; 47; 98] 47 split_start = Ok (s, v) ∧ strs v [[]; [117]; []; [98]] ∧
     join_vector v 47 ks_new = Ok (t, ()) ∧ ks_ok t [47; 117; 47; 47; 98]) ∧
  (∃ t s v, join [str [104] [Some 0]; str [109; 101] [Some 0]] 47 ks_new = Ok (t, ()) ∧
     ks_ok t [104; 47; 109; 101] ∧ split_string t 47 split_start = Ok (s, v) ∧ strs v [[104]; [109; 101]]).
Proof.
  apply (split_join_roundtrip 47 [47; 117; 47; 47; 98] [str [104] [Some 0]; str [109; 101] [Some 0]] [[104]; [109; 101]]).
  - discriminate.
  - reflexivity.
  - apply Forall2_cons_2; [right; exists []; reflexivity|]. apply Forall2_cons_2; [right; exists []; reflexivity|].
    apply Forall2_nil_2.
  - discriminate.
  - apply (bool_decide_unpack _). exact I.
  - reflexivity.
Defined.
