(* ===== verification/Fmt.v ===== *)
(** * Number formatting

    [src/kernel/include/fmt/fmt.hpp].  The caller's [char buffer[128]] and the local [char reverse[64]]
    are lists of bytes, [None] where nothing has been written; an access outside them is a [Fault]. *)

From S2P Require Import Prelude KString.

#[local] Coercion Z.of_nat : nat >-> Z.

Inductive NumberFormat := DEC | HEX | BIN | OCT.

Definition DEC_CHARS : list Z := [48; 49; 50; 51; 52; 53; 54; 55; 56; 57].
Definition HEX_CHARS : list Z := [48; 49; 50; 51; 52; 53; 54; 55; 56; 57; 65; 66; 67; 68; 69; 70].
Definition OCT_CHARS : list Z := [48; 49; 50; 51; 52; 53; 54; 55].
Definition BIN_CHARS : list Z := [48; 49].

Definition is_numeric (c : Z) : bool := (48 <=? c) && (c <=? 57).
Definition is_alpha (c : Z) : bool := (97 <=? c) && (c <=? 122) || (65 <=? c) && (c <=? 90).

Definition number_format_divisor (format : NumberFormat) : Z :=
  match format with DEC => 10 | HEX => 16 | OCT => 8 | BIN => 2 end.

Definition number_format_char (i : Z) (format : NumberFormat) : option Z :=
  match format with
  | DEC => DEC_CHARS !! Z.to_nat i
  | HEX => HEX_CHARS !! Z.to_nat i
  | OCT => OCT_CHARS !! Z.to_nat i
  | BIN => BIN_CHARS !! Z.to_nat i
  end.

(** ** The two arrays *)

Record arrays := mk_arrays {
  buf : list (option Z);
  rev_ : list (option Z);
}.

Definition arrays0 : arrays := mk_arrays (replicate 128 None) (replicate 64 None).

Definition get_buf (i : Z) : M arrays Z := o ← gets (λ s, mjoin (buf s !! Z.to_nat i)); of_option o.
Definition put_buf (i c : Z) : M arrays unit :=
  n ← gets (λ s, Z.of_nat (length (buf s)));
  if i <? n then modify (λ s, mk_arrays (<[Z.to_nat i := Some c]> (buf s)) (rev_ s)) else fault.
Definition get_rev (i : Z) : M arrays Z := o ← gets (λ s, mjoin (rev_ s !! Z.to_nat i)); of_option o.
Definition put_rev (i c : Z) : M arrays unit :=
  n ← gets (λ s, Z.of_nat (length (rev_ s)));
  if i <? n then modify (λ s, mk_arrays (buf s) (<[Z.to_nat i := Some c]> (rev_ s))) else fault.

(** ** Padding *)

Definition insert_pad (pos index num pad : Z) : M arrays Z :=
  if index <=? pos then mret 0 else
  _ ← for_each (reverse (seqZ pos (index - pos))) (λ i, c ← get_buf i; put_buf (i + num) c);
  _ ← for_each (seqZ pos num) (λ i, put_buf i pad);
  mret num.

(** [min_len] is the default 4; it is an [int], converted for the subtraction from a [size_t]. *)
Definition pad_zero (index : Z) : M arrays Z :=
  let min_len := 4 in
  let len := wrap64 (index - 2) in
  let zeros := Z.land (wrap64 (min_len - len)) (min_len - 1) in
  insert_pad 2 index zeros 48.

(** ** Numbers *)

(** The digits of [unum], last one first, into [reverse]; returns their number. *)
Fixpoint digits_loop (fuel : nat) (unum : Z) (format : NumberFormat) (ri : Z) : M arrays Z :=
  if negb (0 <? unum) then mret ri else
  match fuel with
  | O => hang
  | S fuel' =>
      c ← of_option (number_format_char (unum mod number_format_divisor format) format);
      _ ← put_rev ri c;
      digits_loop fuel' (unum / number_format_divisor format) format (ri + 1)
  end.

(** [while (ri > 0) buffer[index++] = reverse[--ri];] *)
Fixpoint copy_digits (ri : nat) (index : Z) : M arrays Z :=
  match ri with
  | O => mret index
  | S ri' =>
      c ← get_rev ri';
      _ ← put_buf index c;
      copy_digits ri' (index + 1)
  end.

Definition put_prefix (format : NumberFormat) (index : Z) : M arrays Z :=
  match format with
  | DEC => mret index
  | HEX => _ ← put_buf index 48; _ ← put_buf (index + 1) 120; mret (index + 2)
  | BIN => _ ← put_buf index 48; _ ← put_buf (index + 1) 98; mret (index + 2)
  | OCT => _ ← put_buf index 48; _ ← put_buf (index + 1) 111; mret (index + 2)
  end.

(** The part the two overloads share, from the prefix to the final NUL.  A 64-bit number has at most 64
    digits. *)
Definition format_number (unum : Z) (format : NumberFormat) (index : Z) : M arrays unit :=
  index ← put_prefix format index;
  index ← (if unum =? 0 then _ ← put_buf index 48; mret (index + 1) else mret index);
  ri ← digits_loop 64 unum format 0;
  index ← copy_digits (Z.to_nat ri) index;
  index ← match format with
          | DEC => mret index
          | _ => n ← pad_zero index; mret (index + n)
          end;
  put_buf index 0.

(** [to_string(std::uintmax_t, ...)]. *)
Definition to_string_unsigned (unum : Z) (format : NumberFormat) : M arrays unit :=
  format_number unum format 0.

(** [to_string(std::intmax_t, ...)]. *)
Definition to_string_signed (num : Z) (format : NumberFormat) : M arrays unit :=
  if num <? 0 then
    _ ← put_buf 0 45;
    format_number (wrap64 (- wrap64 num)) format 1
  else format_number num format 0.

(** ** Parsing *)

(** A [char] is signed. *)
Definition sign_char (c : Z) : Z := if c <? 128 then c else c - 256.

Fixpoint parse_uint_loop (divisor : Z) (str : list Z) (len : nat) (result : Z) : option Z :=
  match len with
  | O => Some result
  | S len' =>
      match str with
      | [] => None
      | c :: str' =>
          if c =? 0 then Some result else
          parse_uint_loop divisor str' len' (wrap64 (result * divisor + (sign_char c - 48)))
      end
  end.
Definition parse_uint (str : list Z) (len : Z) (format : NumberFormat) : option Z :=
  parse_uint_loop (number_format_divisor format) str (Z.to_nat len) 0.

(** [parse_uint(const kstring&, ...)]. *)
Definition parse_uint_string (s : kstring) (format : NumberFormat) : option Z :=
  d ← ks_c_str s;
  parse_uint (written d) (ks_length s) format.

Definition parse_int (c : Z) : Z := sign_char c - 48.

(** ** Formatted text *)

(** The arguments [sprintf] accepts, by the [to_string] overload they select. *)
Inductive fmt_arg :=
| AUnsigned (n : Z)
| ASigned (n : Z)
| AUnsignedIn (format : NumberFormat) (n : Z)
| ASignedIn (format : NumberFormat) (n : Z)
| APtr (p : Z)
| AString (s : kstring)
| ACstr (str : list Z).

(** A number formatted in a buffer of its own; the bytes readable from the result. *)
Definition in_buffer {S} (m : M arrays unit) : M S (list Z) :=
  zoom (λ _, arrays0) (λ _ s, s) (_ ← m; gets (λ s, written (buf s))).

Definition arg_to_string {S} (a : fmt_arg) : M S (list Z) :=
  match a with
  | AUnsigned n => in_buffer (to_string_unsigned n DEC)
  | ASigned n => in_buffer (to_string_signed n DEC)
  | AUnsignedIn format n => in_buffer (to_string_unsigned n format)
  | ASignedIn format n => in_buffer (to_string_signed n format)
  | APtr p => in_buffer (to_string_unsigned p HEX)
  | AString s => d ← of_option (ks_c_str s); mret (written d)
  | ACstr str => mret str
  end.

(** [sprintf]: the string it returns is the state. *)
Fixpoint sprintf (format : kstring_view) (args : list fmt_arg) : M kstring unit :=
  match args with
  | [] => ks_from_view format
  | first :: rest =>
      pos ← of_option (sv_find format (Some [123; 125; 0]));
      if pos =? npos then ks_from_view format else
      head ← of_option (sv_substr format 0 pos);
      t ← construct (ks_from_view head);
      _ ← ks_append t;
      str ← arg_to_string first;
      _ ← ks_append_cstr (Some str);
      tail ← of_option (sv_substr format (wrap64 (pos + 2)) npos);
      t ← construct (sprintf tail rest);
      ks_append t
  end.

(** ** Digits *)

(** The digits of [n] in base [b], last one first, and the number digits stand for. *)
Fixpoint rdigits (fuel : nat) (b n : Z) : list Z :=
  match fuel with
  | O => []
  | S fuel' => if 0 <? n then n mod b :: rdigits fuel' b (n / b) else []
  end.
Definition undigits (b : Z) (ds : list Z) : Z := foldr (λ d acc, d + b * acc) 0 ds.

Section digits.
Context (b : Z) (Hb : 2 ≤ b).

Lemma div_fits n (fuel : nat) : 0 < n < 2 ^ Z.of_nat (S fuel) → 0 ≤ n / b < 2 ^ Z.of_nat fuel.
Proof.
  intros Hn. rewrite Nat2Z.inj_succ, Z.pow_succ_r in Hn by lia. split; [apply Z.div_pos; lia|].
  apply Z.div_lt_upper_bound; [lia|]. nia.
Qed.

Lemma undigits_rdigits fuel n : 0 ≤ n < 2 ^ Z.of_nat fuel → undigits b (rdigits fuel b n) = n.
Proof.
  revert n. induction fuel as [|fuel IH]; intros n Hn; cbn [rdigits]; [cbn in *; lia|].
  destruct (Z.ltb_spec 0 n); [|cbn; lia]. cbn [undigits foldr]. fold (undigits b (rdigits fuel b (n / b))).
  rewrite IH by (apply div_fits; lia). pose proof (Z.div_mod n b). lia.
Qed.

Lemma rdigits_length fuel n : (length (rdigits fuel b n) ≤ fuel)%nat.
Proof.
  revert n. induction fuel as [|fuel IH]; intros n; cbn [rdigits]; [done|].
  destruct (0 <? n); cbn [length]; [|lia]. specialize (IH (n / b)). lia.
Qed.

Lemma rdigits_range fuel n : Forall (λ d, 0 ≤ d < b) (rdigits fuel b n).
Proof.
  revert n. induction fuel as [|fuel IH]; intros n; cbn [rdigits]; [constructor|].
  destruct (0 <? n); [|constructor]. constructor; [|done]. apply Z.mod_pos_bound. lia.
Qed.

Lemma rdigits_not_nil fuel n : 0 < n → (0 < fuel)%nat → rdigits fuel b n ≠ [].
Proof. intros Hn Hf. destruct fuel; [lia|]. cbn. by rewrite (proj2 (Z.ltb_lt _ _)). Qed.
End digits.

Lemma divisor_range format : 2 ≤ number_format_divisor format ≤ 16.
Proof. destruct format; cbn; lia. Qed.

(** The character of a digit. *)
Definition digit_char (d : Z) : Z := if d <? 10 then 48 + d else 55 + d.

Lemma number_format_char_spec format d : 0 ≤ d < number_format_divisor format →
  number_format_char d format = Some (digit_char d).
Proof.
  intros Hd. assert (0 ≤ d < 16) as Hd16 by (pose proof (divisor_range format); lia).
  assert (d ∈ seqZ 0 16) as Hin by (apply elem_of_seqZ; lia). revert Hd. clear Hd16. cbv in Hin.
  repeat (apply elem_of_cons in Hin as [->|Hin]; [destruct format; cbn; intros; (done || lia)|]).
  by apply not_elem_of_nil in Hin.
Qed.

(** ** The arrays' contents *)
Section arrays.
Implicit Types (w ds : list Z) (a b c rest r : list (option Z)) (Q : Z → arrays → Prop).

Lemma wp_put_buf (i x : Z) a o c r (Q : unit → arrays → Prop) : i = length a →
  Q () (mk_arrays (a ++ Some x :: c) r) → wp (put_buf i x) False Q (mk_arrays (a ++ o :: c) r).
Proof.
  intros -> HQ. unfold put_buf. apply wp_gets. cbn [buf]. rewrite (proj2 (Z.ltb_lt _ _)) by (rewrite length_app; cbn; lia).
  unfold wp, modify. cbn [buf rev_]. rewrite Nat2Z.id, insert_app_r_alt, Nat.sub_diag by lia. exact HQ.
Qed.

Lemma wp_put_rev (i x : Z) a o c (bf : list (option Z)) (Q : unit → arrays → Prop) : i = length a →
  Q () (mk_arrays bf (a ++ Some x :: c)) → wp (put_rev i x) False Q (mk_arrays bf (a ++ o :: c)).
Proof.
  intros -> HQ. unfold put_rev. apply wp_gets. cbn [rev_]. rewrite (proj2 (Z.ltb_lt _ _)) by (rewrite length_app; cbn; lia).
  unfold wp, modify. cbn [buf rev_]. rewrite Nat2Z.id, insert_app_r_alt, Nat.sub_diag by lia. exact HQ.
Qed.

Lemma wp_get_buf {B} (i x : Z) a c r (f : Z → M arrays B) (Q : B → arrays → Prop) : i = length a →
  wp (f x) False Q (mk_arrays (a ++ Some x :: c) r) → wp (get_buf i ≫= f) False Q (mk_arrays (a ++ Some x :: c) r).
Proof.
  intros -> HQ. apply wp_bind. unfold get_buf. apply wp_gets. cbn [buf]. by rewrite Nat2Z.id, list_lookup_middle.
Qed.

Lemma wp_get_rev {B} (i x : Z) a c bf (f : Z → M arrays B) (Q : B → arrays → Prop) : i = length a →
  wp (f x) False Q (mk_arrays bf (a ++ Some x :: c)) → wp (get_rev i ≫= f) False Q (mk_arrays bf (a ++ Some x :: c)).
Proof.
  intros -> HQ. apply wp_bind. unfold get_rev. apply wp_gets. cbn [rev_]. by rewrite Nat2Z.id, list_lookup_middle.
Qed.

(** A text [w] in the buffer, followed by [rest]. *)
Definition holding w rest r : arrays := mk_arrays ((Some <$> w) ++ rest) r.

Lemma wp_put_end (i x : Z) w o rest r (Q : unit → arrays → Prop) : i = length w →
  Q () (holding (w ++ [x]) rest r) → wp (put_buf i x) False Q (holding w (o :: rest) r).
Proof.
  intros Hi HQ. apply wp_put_buf; [by rewrite length_fmap|]. unfold holding in HQ.
  by rewrite fmap_app, <- app_assoc in HQ.
Qed.

Lemma wp_digits_loop format fuel n ds c bf (i : Z) Q : i = length ds → 0 ≤ n < 2 ^ Z.of_nat fuel → (fuel ≤ length c)%nat →
  (let ds' := ds ++ (digit_char <$> rdigits fuel (number_format_divisor format) n) in
   ∀ c', Q (length ds') (mk_arrays bf ((Some <$> ds') ++ c'))) →
  wp (digits_loop fuel n format i) False Q (mk_arrays bf ((Some <$> ds) ++ c)).
Proof.
  intros -> . revert n ds c. induction fuel as [|fuel IH]; intros n ds c Hn Hc HQ; cbn [digits_loop].
  { rewrite (proj2 (Z.ltb_ge _ _)) by (cbn in Hn; lia). cbn in HQ. specialize (HQ c).
    rewrite app_nil_r in HQ. exact HQ. }
  cbn [rdigits] in HQ. destruct (Z.ltb_spec 0 n) as [Hpos|]; cbn [negb].
  2: { specialize (HQ c). cbn in HQ. rewrite app_nil_r in HQ. exact HQ. }
  pose proof (divisor_range format). set (b := number_format_divisor format) in *.
  apply wp_of_option. exists (digit_char (n mod b)).
  split; [apply number_format_char_spec, Z.mod_pos_bound; lia|]. destruct c as [|o c]; [cbn in Hc; lia|].
  apply wp_bind, wp_put_rev; [by rewrite length_fmap|].
  replace (length ds + 1) with (Z.of_nat (length (ds ++ [digit_char (n mod b)]))) by (rewrite length_app; cbn; lia).
  change (Some (digit_char (n mod b)) :: c) with ((Some <$> [digit_char (n mod b)]) ++ c). rewrite app_assoc, <- fmap_app.
  apply IH; [apply div_fits; lia|cbn in Hc; lia|]. rewrite <- app_assoc. exact HQ.
Qed.

Lemma wp_copy_digits ds w rest c (i : Z) Q : i = length w → (length ds ≤ length rest)%nat →
  (∀ rest' r, length rest = (length ds + length rest')%nat → Q (length (w ++ reverse ds)) (holding (w ++ reverse ds) rest' r)) →
  wp (copy_digits (length ds) i) False Q (holding w rest ((Some <$> ds) ++ c)).
Proof.
  intros ->. revert w rest c. induction ds as [|d ds IH] using rev_ind; intros w rest c Hlen HQ.
  { cbn. specialize (HQ rest c). rewrite app_nil_r in HQ. by apply HQ. }
  rewrite length_app, Nat.add_1_r in *. cbn [length copy_digits] in *. rewrite fmap_app, <- app_assoc.
  apply wp_get_rev; [by rewrite length_fmap|]. destruct rest as [|o rest]; [cbn in Hlen; lia|].
  apply wp_bind, wp_put_end; [done|].
  replace (length w + 1) with (Z.of_nat (length (w ++ [d]))) by (rewrite length_app; cbn; lia).
  apply (IH _ _ (Some d :: c)); [cbn in Hlen; lia|]. intros rest' r Hr.
  specialize (HQ rest' r). rewrite reverse_app in HQ. cbn in HQ. rewrite <- app_assoc. apply HQ. cbn. lia.
Qed.

(** Moving [body] up by [length R1] places. *)
Lemma wp_move_up (pos num : Z) a body R1 R2 r (Q : unit → arrays → Prop) : pos = length a → num = length R1 →
  (∀ X, length X = length R1 → Q () (mk_arrays (a ++ X ++ (Some <$> body) ++ R2) r)) →
  wp (for_each (reverse (seqZ pos (length body))) (λ i, c ← get_buf i; put_buf (i + num) c)) False Q
    (mk_arrays (a ++ (Some <$> body) ++ R1 ++ R2) r).
Proof.
  intros -> ->. revert R1 R2 Q. induction body as [|y body IH] using rev_ind; intros R1 R2 Q HQ; [by apply HQ|].
  rewrite length_app. cbn [length]. replace (Z.of_nat (length body + 1)) with (length body + 1) by lia.
  rewrite seqZ_app, reverse_app, (seqZ_cons _ 1), (seqZ_nil _ (Z.pred 1)) by lia.
  cbn [reverse rev_append app for_each]. apply wp_bind.
  rewrite fmap_app, <- app_assoc. cbn [fmap list_fmap app]. rewrite app_assoc.
  apply wp_get_buf; [rewrite length_app, length_fmap; lia|].
  assert (∃ R z, Some y :: R1 = R ++ [z] ∧ length R = length R1) as (R & z & HR & HlR).
  { destruct R1 as [|u R1 _] using rev_ind; [by exists [], (Some y)|]. exists (Some y :: R1), u. split; [done|].
    rewrite length_app. cbn. lia. }
  rewrite app_comm_cons, HR, <- !app_assoc. cbn [app]. rewrite !app_assoc.
  apply wp_put_buf; [rewrite !length_app, length_fmap; lia|]. rewrite <- !app_assoc, <- HlR.
  apply IH. intros X HX. specialize (HQ X). rewrite fmap_app, <- app_assoc in HQ. apply HQ. lia.
Qed.

Lemma wp_fill (pos num pad : Z) a X c r (Q : unit → arrays → Prop) : pos = length a → num = length X →
  Q () (mk_arrays (a ++ replicate (length X) (Some pad) ++ c) r) →
  wp (for_each (seqZ pos num) (λ i, put_buf i pad)) False Q (mk_arrays (a ++ X ++ c) r).
Proof.
  intros -> ->. revert a. induction X as [|x X IH]; intros a HQ; [exact HQ|].
  rewrite seqZ_cons by (cbn; lia). cbn [for_each app]. apply wp_bind, wp_put_buf; [done|].
  replace (Z.pred (length (x :: X))) with (Z.of_nat (length X)) by (cbn; lia).
  replace (Z.succ (length a)) with (Z.of_nat (length (a ++ [Some pad]))) by (rewrite length_app; cbn; lia).
  change (Some pad :: X ++ c) with ([Some pad] ++ X ++ c). rewrite app_assoc. apply IH. rewrite <- app_assoc. exact HQ.
Qed.
End arrays.

(** ** The text of a number *)

Definition prefix_text (format : NumberFormat) : list Z :=
  match format with DEC => [] | HEX => [48; 120] | BIN => [48; 98] | OCT => [48; 111] end.

Definition digits_text (format : NumberFormat) (n : Z) : list Z :=
  if n =? 0 then [48] else reverse (digit_char <$> rdigits 64 (number_format_divisor format) n).

(** Zeros behind the first two characters, to a multiple of four. *)
Definition padded (w : list Z) : list Z :=
  take 2 w ++ replicate (Z.to_nat ((2 - length w) mod 4)) 48 ++ drop 2 w.

Definition number_text (sign : list Z) (format : NumberFormat) (n : Z) : list Z :=
  let w := sign ++ prefix_text format ++ digits_text format n in
  match format with DEC => w | _ => padded w end.

Section numbers.
Implicit Types (w ds sign : list Z) (rest r : list (option Z)).

Lemma pad_count (n : nat) : (2 ≤ n ≤ 80)%nat → Z.land (wrap64 (4 - wrap64 (n - 2))) 3 = (2 - n) mod 4.
Proof.
  intros Hn. rewrite (wrap_small 64 (n - 2)) by (unfold is_word; change (2 ^ 64) with 18446744073709551616; lia).
  change 3 with (Z.ones 2). rewrite Z.land_ones by lia. change (2 ^ 2) with 4. wrap_lia.
Qed.

Lemma wp_pad_zero w rest r (i : Z) (Q : Z → arrays → Prop) : i = length w → (2 < length w ≤ 80)%nat → (4 ≤ length rest)%nat →
  (∀ rest', length (padded w) + length rest' = length w + length rest →
     Q (length (padded w) - length w) (holding (padded w) rest' r)) →
  wp (pad_zero i) False Q (holding w rest r).
Proof.
  intros -> Hw Hrest HQ. unfold pad_zero. change (4 - 1) with 3. rewrite pad_count by lia.
  set (num := (2 - length w) mod 4) in *. assert (0 ≤ num < 4) as Hnum by (apply Z.mod_pos_bound; lia).
  unfold insert_pad. rewrite (proj2 (Z.leb_gt _ _)) by lia.
  set (body := drop 2 w). assert (length body = length w - 2)%nat as Hbody by (unfold body; rewrite length_drop; lia).
  set (R1 := take (Z.to_nat num) rest). set (R2 := drop (Z.to_nat num) rest).
  assert (length R1 = Z.to_nat num) as HR1 by (unfold R1; rewrite length_take; lia).
  assert (length (Some <$> take 2 w) = 2%nat) as H2 by (rewrite length_fmap, length_take; lia).
  unfold holding. rewrite <- (take_drop 2 w) at 2. rewrite <- (take_drop (Z.to_nat num) rest) at 1.
  fold body R1 R2. rewrite fmap_app, <- app_assoc. replace (length w - 2) with (Z.of_nat (length body)) by lia.
  apply wp_bind, wp_move_up; [by rewrite H2|lia|]. intros X HX. apply wp_bind, wp_fill; [by rewrite H2|lia|].
  apply wp_ret. unfold holding in HQ.
  replace num with (length (padded w) - length w).
  2: { unfold padded. fold num body. rewrite !length_app, length_take, length_replicate. lia. }
  replace ((Some <$> take 2 w) ++ replicate (length X) (Some 48) ++ (Some <$> body) ++ R2) with ((Some <$> padded w) ++ R2).
  2: { unfold padded. fold num body. rewrite !fmap_app, fmap_replicate, <- !app_assoc. repeat f_equal. lia. }
  apply HQ. unfold padded. fold num body. rewrite !length_app, length_take, length_replicate.
  unfold R2. rewrite length_drop. lia.
Qed.

Lemma digits_text_length format n : 0 ≤ n → (1 ≤ length (digits_text format n) ≤ 64)%nat.
Proof.
  intros Hn. unfold digits_text. pose proof (divisor_range format). destruct (Z.eqb_spec n 0); [cbn; lia|].
  rewrite length_reverse, length_fmap. split; [|apply rdigits_length].
  destruct (rdigits 64 (number_format_divisor format) n) eqn:Hr; [|cbn; lia].
  by destruct (rdigits_not_nil (number_format_divisor format) 64 n); [lia|lia|].
Qed.

(** The prefix, and the digits or a single zero. *)
Lemma wp_prefix format w rest r (i : Z) (Q : Z → arrays → Prop) : i = length w → (2 ≤ length rest)%nat →
  (∀ rest', length w + length rest = length (w ++ prefix_text format) + length rest' →
     Q (length (w ++ prefix_text format)) (holding (w ++ prefix_text format) rest' r)) →
  wp (put_prefix format i) False Q (holding w rest r).
Proof.
  intros -> Hr HQ. destruct rest as [|o1 [|o2 rest]]; [cbn in Hr; lia..|].
  destruct format; cbn [put_prefix prefix_text] in *.
  { specialize (HQ (o1 :: o2 :: rest)). rewrite app_nil_r in HQ. by apply HQ. }
  all: apply wp_bind, wp_put_end; [done|]; apply wp_bind, wp_put_end; [rewrite length_app; cbn; lia|]; apply wp_ret;
    rewrite <- app_assoc; specialize (HQ rest); rewrite length_app in HQ; cbn [app length] in *;
    replace (length w + 2) with (Z.of_nat (length w + 2)) by lia; apply HQ; lia.
Qed.

Lemma wp_zero_or_digits format n w rest (i : Z) {B} (f : Z → M arrays B) (Q : B → arrays → Prop) :
  i = length w → 0 ≤ n < 2 ^ 64 → (64 ≤ length rest)%nat →
  (∀ rest' r, length w + length rest = length (w ++ digits_text format n) + length rest' →
     wp (f (length (w ++ digits_text format n))) False Q (holding (w ++ digits_text format n) rest' r)) →
  wp (index ← (if n =? 0 then _ ← put_buf i 48; mret (i + 1) else mret i);
      ri ← digits_loop 64 n format 0;
      index ← copy_digits (Z.to_nat ri) index;
      f index) False Q (holding w rest (replicate 64 None)).
Proof.
  intros -> Hn Hr HQ. unfold digits_text in HQ. destruct (Z.eqb_spec n 0) as [->|Hne].
  - destruct rest as [|o rest]; [cbn in Hr; lia|]. apply wp_bind, wp_bind, wp_put_end; [done|]. apply wp_ret.
    cbn [digits_loop]. change (0 <? 0) with false. cbn [negb]. apply wp_bind, wp_ret. change (Z.to_nat 0) with 0%nat.
    cbn [copy_digits]. apply wp_bind, wp_ret. specialize (HQ rest (replicate 64 None)).
    replace (length w + 1) with (Z.of_nat (length (w ++ [48]))) by (rewrite length_app; cbn; lia).
    apply HQ. rewrite length_app. cbn. lia.
  - apply wp_bind, wp_ret, wp_bind. unfold holding.
    apply (wp_digits_loop format 64 n [] (replicate 64 None)); [done|exact Hn|done|]. cbn [app]. intros c'.
    set (ds := digit_char <$> _) in *. rewrite Nat2Z.id. apply wp_bind.
    assert (length ds ≤ 64)%nat by (unfold ds; rewrite length_fmap; apply rdigits_length).
    apply wp_copy_digits; [done|lia|]. intros rest' r Hlen. apply HQ. rewrite length_app, length_reverse. lia.
Qed.

Lemma wp_format_number sign format n (i : Z) : i = length sign → (length sign ≤ 1)%nat → 0 ≤ n < 2 ^ 64 →
  wp (format_number n format i) False
    (λ _ s, ∃ rest r, s = holding (number_text sign format n ++ [0]) rest r ∧
       length (number_text sign format n) + 1 + length rest = 128)
    (holding sign (replicate (128 - length sign) None) (replicate 64 None)).
Proof.
  intros Hi Hs Hn. unfold format_number. pose proof (digits_text_length format n ltac:(lia)) as Hd.
  assert (length (prefix_text format) ≤ 2)%nat as Hp by (destruct format; cbn; lia).
  apply wp_bind, wp_prefix; [done|rewrite length_replicate; lia|]. intros rest1 H1. rewrite length_replicate, length_app in H1.
  apply wp_zero_or_digits; [done|done|lia|]. intros rest2 r H2. rewrite <- app_assoc in *.
  set (w := sign ++ prefix_text format ++ digits_text format n) in *.
  assert (length w = length sign + length (prefix_text format) + length (digits_text format n))%nat as Hw
    by (unfold w; rewrite !length_app; lia).
  rewrite length_app in H2.
  assert (∀ w' rest', length w' + length rest' = 128 → (0 < length rest')%nat →
    wp (put_buf (length w') 0) False (λ _ s, ∃ rest r, s = holding (w' ++ [0]) rest r ∧
       length w' + 1 + length rest = 128) (holding w' rest' r)) as Hend.
  { intros w' [|o rest'] Hlen Hlt; [cbn in Hlt; lia|]. apply wp_put_end; [done|]. exists rest', r. split; [done|]. cbn in Hlen. lia. }
  unfold number_text. fold w. destruct format.
  { apply wp_bind, wp_ret, Hend; lia. }
  all: apply wp_bind, wp_bind, wp_pad_zero; [done|cbn in Hw, Hp |- *; lia|cbn in Hw; lia|];
    intros rest3 H3; apply wp_ret; replace (length w + (length (padded w) - length w)) with (Z.of_nat (length (padded w))) by lia;
    pose proof (Z.mod_pos_bound (2 - length w) 4); apply Hend; [lia|];
    unfold padded in H3; rewrite !length_app, length_take, length_drop, length_replicate in H3; lia.
Qed.
End numbers.

(** ** Reading digits back *)
Section parse.
Context (b : Z) (Hb : 2 ≤ b ≤ 10).
Implicit Types (ds tail : list Z).

Definition horner (acc : Z) ds : Z := foldl (λ r d, r * b + d) acc ds.

Lemma horner_reverse ds : horner 0 (reverse ds) = undigits b ds.
Proof.
  induction ds as [|d ds IH]; [done|]. unfold horner in *. rewrite reverse_cons, foldl_app, IH. cbn [foldl]. change (undigits b (d :: ds)) with (d + b * undigits b ds). lia.
Qed.

Lemma horner_mono acc ds : 0 ≤ acc → Forall (λ d, 0 ≤ d < b) ds → acc ≤ horner acc ds.
Proof.
  intros Hacc Hds. revert acc Hacc. induction Hds as [|d ds Hd Hds IH]; intros acc Hacc; cbn; [lia|].
  fold (horner (acc * b + d) ds). etrans; [|apply IH]; nia.
Qed.

Lemma parse_digits ds tail (n : nat) acc : Forall (λ d, 0 ≤ d < b) ds → (length ds ≤ n)%nat → 0 ≤ acc →
  horner acc ds < 2 ^ 64 → parse_uint_loop b ((digit_char <$> ds) ++ 0 :: tail) n acc = Some (horner acc ds).
Proof.
  intros Hds. revert n acc. induction Hds as [|d ds Hd Hds IH]; intros n acc Hn Hacc Hlt.
  { by destruct n. }
  destruct n as [|n]; cbn in Hn; [lia|]. cbn [fmap list_fmap app parse_uint_loop].
  assert (digit_char d = 48 + d) as -> by (unfold digit_char; rewrite (proj2 (Z.ltb_lt _ _)); lia).
  rewrite (proj2 (Z.eqb_neq _ _)) by lia. unfold sign_char. rewrite (proj2 (Z.ltb_lt _ _)) by lia.
  replace (acc * b + (48 + d - 48)) with (acc * b + d) by lia. cbn in Hlt. fold (horner (acc * b + d) ds) in Hlt.
  pose proof (horner_mono (acc * b + d) ds ltac:(nia) Hds). rewrite wrap_small by (unfold is_word; nia).
  apply IH; [lia|nia|done].
Qed.

Lemma horner_zeros k ds : horner 0 (replicate k 0 ++ ds) = horner 0 ds.
Proof. induction k as [|k IH]; [done|]. cbn. exact IH. Qed.
End parse.

(** The digits of a number, first one first, with [k] leading zeros. *)
Lemma parse_number format (n : Z) (k len : nat) (tail : list Z) : number_format_divisor format ≤ 10 → 0 ≤ n < 2 ^ 64 →
  (k + length (digits_text format n) ≤ len)%nat →
  parse_uint (replicate k 48 ++ digits_text format n ++ 0 :: tail) len format = Some n.
Proof.
  intros Hle Hn Hlen. pose proof (divisor_range format) as Hb. unfold parse_uint. rewrite Nat2Z.id.
  set (b := number_format_divisor format) in *. set (ds := if n =? 0 then [0] else reverse (rdigits 64 b n)).
  assert (digits_text format n = digit_char <$> ds) as Hd.
  { unfold digits_text, ds. fold b. destruct (n =? 0); [done|]. by rewrite fmap_reverse. }
  assert (horner b 0 ds = n) as Hv.
  { unfold ds. destruct (Z.eqb_spec n 0) as [->|]; [done|]. rewrite horner_reverse. apply undigits_rdigits; [lia|exact Hn]. }
  assert (Forall (λ d, 0 ≤ d < b) ds) as Hr.
  { unfold ds. destruct (n =? 0); [repeat constructor; lia|]. apply Forall_reverse, rdigits_range. lia. }
  rewrite Hd, length_fmap in Hlen.
  replace (replicate k 48 ++ digits_text format n ++ 0 :: tail) with ((digit_char <$> (replicate k 0 ++ ds)) ++ 0 :: tail).
  2: { rewrite fmap_app, fmap_replicate, <- app_assoc, Hd. done. }
  rewrite parse_digits, horner_zeros, Hv; [done|lia|..].
  - apply Forall_app. split; [|done]. apply Forall_replicate. lia.
  - rewrite length_app, length_replicate. lia.
  - lia.
  - rewrite horner_zeros, Hv. lia.
Qed.

(** ** Properties *)

Lemma written_holding (w : list Z) (rest r : list (option Z)) : written (buf (holding w rest r)) = w ++ written rest.
Proof. unfold holding. cbn [buf]. induction w as [|c w IH]; [done|]. cbn. by rewrite IH. Qed.

Lemma digits_text_no_nul format n : 0 ≤ n → Forall (λ c, c ≠ 0) (digits_text format n).
Proof.
  intros Hn. unfold digits_text. pose proof (divisor_range format). destruct (n =? 0); [repeat constructor; lia|].
  apply Forall_reverse, Forall_fmap. eapply Forall_impl; [apply rdigits_range; lia|].
  intros d Hd. cbn beta in Hd. unfold compose, digit_char. destruct (d <? 10); lia.
Qed.

Lemma number_text_no_nul sign format n : 0 ≤ n → Forall (λ c, c ≠ 0) sign → Forall (λ c, c ≠ 0) (number_text sign format n).
Proof.
  intros Hn Hs. unfold number_text. set (w := _ ++ _ ++ _).
  assert (Forall (λ c, c ≠ 0) w) as Hw.
  { apply Forall_app. split; [done|]. apply Forall_app. split; [|by apply digits_text_no_nul].
    destruct format; repeat constructor; discriminate. }
  assert (Forall (λ c, c ≠ 0) (padded w)) as Hp.
  { apply Forall_app. split; [by apply Forall_take|]. apply Forall_app. split; [|by apply Forall_drop].
    apply Forall_replicate. lia. }
  by destruct format.
Qed.

Lemma number_text_length sign format n : (length sign ≤ 1)%nat → 0 ≤ n → (length (number_text sign format n) ≤ 70)%nat.
Proof.
  intros Hs Hn. pose proof (digits_text_length format n Hn) as Hd. unfold number_text.
  destruct format; cbn [prefix_text]; unfold padded; rewrite ?length_app, ?length_take, ?length_drop, ?length_replicate, ?length_app; cbn [length].
  1: lia.
  all: match goal with |- context [?x mod 4] => pose proof (Z.mod_pos_bound x 4) end; lia.
Qed.

(** The sign and the magnitude of a signed number. *)
Definition sign_text (n : Z) : list Z := if n <? 0 then [45] else [].

(** [s] holds the text [w] and a NUL in a buffer of 128 bytes. *)
Definition is_text (w : list Z) (s : arrays) : Prop :=
  length (buf s) = 128%nat ∧ (∃ tail, written (buf s) = w ++ 0 :: tail) ∧ Forall (λ c, c ≠ 0) w ∧ (length w ≤ 70)%nat.

Lemma wp_format_text sign format n (i : Z) : i = length sign → (length sign ≤ 1)%nat → 0 ≤ n < 2 ^ 64 →
  Forall (λ c, c ≠ 0) sign →
  wp (format_number n format i) False (λ _ s, is_text (number_text sign format n) s)
    (holding sign (replicate (128 - length sign) None) (replicate 64 None)).
Proof.
  intros Hi Hs Hn Hnul. eapply wp_mono; [by apply wp_format_number|done|]. intros [] s (rest & r & -> & Hlen).
  split_and!.
  - unfold holding. cbn [buf]. rewrite length_app, length_fmap, length_app. cbn. lia.
  - exists (written rest). by rewrite written_holding, <- app_assoc.
  - apply number_text_no_nul; [lia|done].
  - apply number_text_length; [done|lia].
Qed.

Lemma wp_to_string_unsigned n format : 0 ≤ n < 2 ^ 64 →
  wp (to_string_unsigned n format) False (λ _ s, is_text (number_text [] format n) s) arrays0.
Proof. intros Hn. apply (wp_format_text [] format n 0); [done|cbn; lia|done|constructor]. Qed.

Lemma wp_to_string_signed n format : - 2 ^ 63 ≤ n < 2 ^ 63 →
  wp (to_string_signed n format) False (λ _ s, is_text (number_text (sign_text n) format (Z.abs n)) s) arrays0.
Proof.
  intros Hn. change (2 ^ 63) with 9223372036854775808 in Hn. unfold to_string_signed, sign_text. destruct (Z.ltb_spec n 0).
  - change arrays0 with (holding [] (None :: replicate 127 None) (replicate 64 None)).
    apply wp_bind, wp_put_end; [done|]. replace (wrap64 (- wrap64 n)) with (Z.abs n) by wrap_lia.
    apply (wp_format_text [45] format (Z.abs n) 1); [done|done| |by repeat constructor].
    change (2 ^ 64) with 18446744073709551616. lia.
  - rewrite Z.abs_eq by done. apply (wp_format_text [] format n 0); [done|cbn; lia| |done].
    change (2 ^ 64) with 18446744073709551616. lia.
Qed.

(** C38: formatting stays inside its arrays: for every 64-bit unsigned and every 64-bit signed number and
    every base, the two [to_string] overloads return, leaving in the 128-byte buffer the number's text
    (sign, base prefix, zeros to a multiple of four behind the first two characters unless decimal, and
    the digits, most significant first) of at most 70 characters, and a NUL. *)
Theorem to_string_fits (format : NumberFormat) (u n : Z) : 0 ≤ u < 2 ^ 64 → - 2 ^ 63 ≤ n < 2 ^ 63 →
  (∃ s, to_string_unsigned u format arrays0 = Ok (s, ()) ∧ is_text (number_text [] format u) s) ∧
  (∃ s, to_string_signed n format arrays0 = Ok (s, ()) ∧ is_text (number_text (sign_text n) format (Z.abs n)) s).
Proof.
  intros Hu Hn. split.
  - destruct (wp_total _ _ _ (wp_to_string_unsigned u format Hu)) as (s & [] & Hrun & Hs). eauto.
  - destruct (wp_total _ _ _ (wp_to_string_signed n format Hn)) as (s & [] & Hrun & Hs). eauto.
Qed.

(** The largest number in binary, which fills the digit array, and the least in hexadecimal. *)
Lemma to_string_fits_witness :
  (∃ s, to_string_unsigned (2 ^ 64 - 1) BIN arrays0 = Ok (s, ()) ∧ is_text (number_text [] BIN (2 ^ 64 - 1)) s) ∧
  (∃ s, to_string_signed (- 2 ^ 63) BIN arrays0 = Ok (s, ()) ∧
     is_text (number_text (sign_text (- 2 ^ 63)) BIN (Z.abs (- 2 ^ 63))) s).
Proof. apply (to_string_fits BIN (2 ^ 64 - 1) (- 2 ^ 63)); split; (discriminate || reflexivity). Defined.

(** Reading back what was written: the decimal text of a 64-bit number is parsed as that number, and
    so are the octal and the binary text after their two-character prefix, padding zeros included. *)
Theorem parse_uint_roundtrip (n : Z) (len : nat) (tail : list Z) : 0 ≤ n < 2 ^ 64 → (70 ≤ len)%nat →
  parse_uint (number_text [] DEC n ++ 0 :: tail) len DEC = Some n ∧
  parse_uint (drop 2 (number_text [] OCT n) ++ 0 :: tail) len OCT = Some n ∧
  parse_uint (drop 2 (number_text [] BIN n) ++ 0 :: tail) len BIN = Some n.
Proof.
  intros Hn Hlen.
  assert (∀ format p, number_format_divisor format ≤ 10 → length p = 2%nat →
    parse_uint (drop 2 (padded (p ++ digits_text format n)) ++ 0 :: tail) len format = Some n) as Hpad.
  { intros format p Hb Hp. unfold padded. rewrite take_app_length', (drop_app_length' p (digits_text format n)) by done.
    rewrite drop_app_length' by done. rewrite <- app_assoc. apply parse_number; [done|done|].
    pose proof (digits_text_length format n ltac:(lia)).
    match goal with |- context [?x mod 4] => pose proof (Z.mod_pos_bound x 4) end. lia. }
  split_and!.
  - apply (parse_number DEC n 0); [cbn; lia|done|]. pose proof (digits_text_length DEC n ltac:(lia)). lia.
  - by apply (Hpad OCT [48; 111]).
  - by apply (Hpad BIN [48; 98]).
Qed.

Lemma parse_uint_roundtrip_witness :
  number_text [] OCT 511 = [48; 111; 48; 55; 55; 55] ∧
  parse_uint (number_text [] DEC 511 ++ 0 :: []) 70%nat DEC = Some 511 ∧
  parse_uint (drop 2 (number_text [] OCT 511) ++ 0 :: []) 70%nat OCT = Some 511 ∧
  parse_uint (drop 2 (number_text [] BIN 511) ++ 0 :: []) 70%nat BIN = Some 511.
Proof. split; [reflexivity|]. apply (parse_uint_roundtrip 511 70 []); [split; [discriminate|reflexivity]|reflexivity]. Defined.

(** ** Formatted text *)

(** Where the first pair of braces stands. *)
Fixpoint find_braces (l : list Z) : option nat :=
  match l with
  | [] => None
  | c :: l' => if (c =? 123) && bool_decide (head l' = Some 125) then Some O else S <$> find_braces l'
  end.

(** The format with its pairs of braces replaced by the texts in turn; what is left over stays. *)
Fixpoint render (format : list Z) (texts : list (list Z)) : list Z :=
  match texts with
  | [] => format
  | t :: texts' =>
      match find_braces format with
      | None => format
      | Some n => take n format ++ t ++ render (drop (n + 2) format) texts'
      end
  end.

Section sprintf.
Implicit Types (l t : list Z) (args : list fmt_arg).

Lemma occurs_braces_0 c l : occurs (c :: l) [123; 125] 0 ↔ (c =? 123) && bool_decide (head l = Some 125) = true.
Proof.
  unfold occurs. rewrite drop_0. cbn [length take]. rewrite andb_true_iff, Z.eqb_eq, bool_decide_eq_true.
  destruct l as [|d l]; cbn; [by split; [intros [=]|intros [_ [=]]]|]. rewrite take_0.
  split; [by intros [= -> ->]|]. by intros [-> [= ->]].
Qed.

Lemma occurs_S c l k n : occurs (c :: l) k (S n) ↔ occurs l k n.
Proof. done. Qed.

Lemma find_braces_spec l r : first_occurrence l [123; 125] r →
  r = match find_braces l with Some n => Z.of_nat n | None => npos end.
Proof.
  assert (match find_braces l with
    | Some n => occurs l [123; 125] n ∧ (∀ n' : nat, (n' < n)%nat → ¬ occurs l [123; 125] n')
    | None => ∀ n, ¬ occurs l [123; 125] n
    end) as Hl.
  { clear r. induction l as [|c l IH]; cbn [find_braces].
    { intros n Ho. unfold occurs in Ho. by rewrite drop_nil in Ho. }
    destruct ((c =? 123) && bool_decide (head l = Some 125)) eqn:Hc.
    { split; [by apply occurs_braces_0|]. intros; lia. }
    assert (¬ occurs (c :: l) [123; 125] 0) as H0 by (rewrite occurs_braces_0, Hc; done).
    destruct (find_braces l) as [n|]; cbn.
    - destruct IH as [Ho Hmin]. split; [done|]. intros [|n'] Hn'; [done|]. apply Hmin. lia.
    - intros [|n]; [done|]. apply IH. }
  intros [(n & -> & _ & Ho & Hmin)|[-> Hno]].
  - destruct (find_braces l) as [m|]; [|by destruct (Hl n)]. destruct Hl as [Hm Hmin'].
    f_equal. destruct (Nat.lt_trichotomy n m) as [?|[?|?]]; [by destruct (Hmin' n)|done|by destruct (Hmin m)].
  - destruct (find_braces l) as [m|]; [|done]. by destruct (Hno m), Hl.
Qed.

Lemma find_braces_bound l n : find_braces l = Some n → (n + 2 ≤ length l)%nat.
Proof.
  revert n. induction l as [|c l IH]; intros n; cbn [find_braces]; [done|].
  destruct (c =? 123) eqn:?, (bool_decide_reflect (head l = Some 125)) as [Hh|]; cbn [andb].
  - intros [= <-]. destruct l; [done|]. cbn. lia.
  - destruct (find_braces l) as [m|]; [|done]. intros [= <-]. specialize (IH m eq_refl). cbn. lia.
  - destruct (find_braces l) as [m|]; [|done]. intros [= <-]. specialize (IH m eq_refl). cbn. lia.
  - destruct (find_braces l) as [m|]; [|done]. intros [= <-]. specialize (IH m eq_refl). cbn. lia.
Qed.

(** [a] is printed as [t], a C string. *)
Definition prints (a : fmt_arg) t : Prop :=
  Forall (λ c, c ≠ 0) t ∧
  ∀ S (s : S), wp (arg_to_string a) False (λ bytes s', s' = s ∧ ∃ tail, bytes = t ++ 0 :: tail) s.

Lemma in_buffer_prints {S} (m : M arrays unit) t (s : S) : wp m False (λ _ s, is_text t s) arrays0 →
  wp (in_buffer m) False (λ bytes s', s' = s ∧ ∃ tail, bytes = t ++ 0 :: tail) s.
Proof.
  intros Hm. unfold in_buffer. apply wp_zoom, wp_bind. eapply wp_mono; [exact Hm|done|].
  intros [] a (_ & [tail Ha] & _). unfold wp, gets. rewrite Ha. eauto.
Qed.

Lemma prints_unsigned n : 0 ≤ n < 2 ^ 64 → prints (AUnsigned n) (number_text [] DEC n).
Proof.
  intros Hn. split; [apply number_text_no_nul; [lia|done]|]. intros S s. by apply in_buffer_prints, wp_to_string_unsigned.
Qed.

Lemma prints_signed n : - 2 ^ 63 ≤ n < 2 ^ 63 → prints (ASigned n) (number_text (sign_text n) DEC (Z.abs n)).
Proof.
  intros Hn. split; [|intros S s; by apply in_buffer_prints, wp_to_string_signed].
  apply number_text_no_nul; [lia|]. unfold sign_text. destruct (n <? 0); by repeat constructor.
Qed.

Lemma prints_ptr p : 0 ≤ p < 2 ^ 64 → prints (APtr p) (number_text [] HEX p).
Proof.
  intros Hn. split; [apply number_text_no_nul; [lia|done]|]. intros S s. by apply in_buffer_prints, wp_to_string_unsigned.
Qed.

Lemma prints_cstr t tail : Forall (λ c, c ≠ 0) t → prints (ACstr (t ++ 0 :: tail)) t.
Proof. intros Ht. split; [done|]. intros S s. apply wp_ret. eauto. Qed.

(** A view of a C string. *)
Definition literal l tail : kstring_view := mk_view (Some (l ++ 0 :: tail)) (length l).

Lemma literal_reads l tail : reads (sv_at (literal l tail)) l.
Proof.
  intros i x Hi. unfold sv_at, literal. cbn [sv_data mbind option_bind]. rewrite Nat2Z.id. by apply lookup_app_l_Some.
Qed.

Lemma literal_rest l tail n : Forall (λ c, c ≠ 0) l → Z.of_nat n < npos → Z.of_nat (length l) < npos → ∃ tail',
  sv_substr (literal l tail) n npos = Some (literal (drop n l) tail').
Proof.
  intros Hl Hn Hlen. unfold sv_substr, literal at 1 2. cbn [sv_length]. destruct (Z.leb_spec (length l) n).
  { exists []. rewrite drop_ge by lia. done. }
  cbn [literal sv_data mbind option_bind]. rewrite (proj2 (Z.leb_le (length l) npos)) by lia. cbn [orb].
  rewrite Nat2Z.id, drop_app_le by lia. unfold sv_of_cstr. rewrite c_strlen_app by (by apply Forall_drop). by exists tail.
Qed.

Definition total (texts : list (list Z)) : nat := sum_list (length <$> texts).

Lemma render_length l texts : (length (render l texts) ≤ length l + total texts)%nat.
Proof.
  unfold total. revert l. induction texts as [|t texts IH]; intros l; cbn [render]; [lia|].
  destruct (find_braces l) as [n|] eqn:Hf; [|lia]. rewrite !length_app, length_take.
  specialize (IH (drop (n + 2) l)). rewrite length_drop in IH. cbn. lia.
Qed.

Lemma sv_find_braces l tail : sv_find (literal l tail) (Some [123; 125; 0]) =
  Some (match find_braces l with Some n => Z.of_nat n | None => npos end).
Proof.
  unfold sv_find. destruct (find_in_spec _ l [123; 125] [] (literal_reads l tail)) as (r & Hr & Ho);
    [by repeat constructor|done|]. rewrite <- (find_braces_spec l r Ho). exact Hr.
Qed.

(** The text before the braces, as a view into the format. *)
Lemma literal_head l tail n : find_braces l = Some n → length l < KS_MAX → ∃ x tail',
  sv_substr (literal l tail) 0 n = Some (mk_view (Some (take n l ++ x :: tail')) (length (take n l))).
Proof.
  intros Hn%find_braces_bound Hmax. unfold KS_MAX in Hmax. change (2 ^ 60) with 1152921504606846976 in Hmax.
  destruct (lookup_lt_is_Some_2 l n) as [x Hx]; [lia|]. exists x, (drop (S n) l ++ 0 :: tail).
  unfold sv_substr, literal. cbn [sv_length sv_data mbind option_bind]. rewrite !(proj2 (Z.leb_gt _ _)) by lia.
  rewrite (proj2 (Z.eqb_neq _ _)) by (unfold npos; lia). cbn [orb]. change (Z.to_nat 0) with 0%nat. rewrite drop_0.
  f_equal. f_equal.
  - f_equal. rewrite app_comm_cons, app_assoc. f_equal. symmetry. by apply take_drop_middle.
  - rewrite length_take. lia.
Qed.

Lemma wp_sprintf args texts l tail : Forall2 prints args texts → Forall (λ c, c ≠ 0) l →
  length l + total texts + 2 < KS_MAX →
  wp (sprintf (literal l tail) args) False (λ _ s, ks_ok s (render l texts)) ks_new.
Proof.
  intros Hargs. revert l tail. induction Hargs as [|a t args texts [Ht Ha] Hargs IH]; intros l tail Hl Hmax; cbn [sprintf render].
  { apply wp_ks_from_view. cbn in Hmax. lia. }
  replace (Z.of_nat (total (t :: texts))) with (length t + total texts)%Z in Hmax by (unfold total; cbn; lia).
  apply wp_of_option. eexists. split; [apply sv_find_braces|].
  destruct (find_braces l) as [n|] eqn:Hf; [|apply wp_ks_from_view; lia].
  pose proof (find_braces_bound _ _ Hf) as Hn. assert (Z.of_nat n + 2 < npos ∧ Z.of_nat (length l) < npos) as [Hnn Hln].
  { unfold npos, KS_MAX in *. change (2 ^ 60) with 1152921504606846976 in *. lia. }
  rewrite (proj2 (Z.eqb_neq _ _)) by lia. destruct (literal_head l tail n Hf) as (x & tail1 & Hhead); [lia|].
  apply wp_of_option. eexists. split; [exact Hhead|].
  eapply (wp_construct _ (λ s, ks_ok s (take n l))); [apply wp_ks_from_view; rewrite length_take; lia|]. intros t1 Ht1.
  apply wp_bind. eapply wp_mono; [apply (wp_ks_append ks_new [] t1 (take n l)); [by left|done|rewrite length_take; cbn [length]; lia|right; by left]|done|].
  intros [] s1 Hs1. cbn [app] in Hs1. apply wp_bind. eapply wp_mono; [apply Ha|done|]. intros bytes s1' [-> [tail2 ->]].
  apply wp_bind. eapply wp_mono; [apply (wp_ks_append_cstr _ (take n l) t tail2); [by apply ks_ok_rep|done|rewrite length_take; lia]|done|].
  intros [] s2 Hs2. destruct (literal_rest l tail (n + 2)) as [tail3 Hrest]; [done|lia|lia|].
  rewrite wrap_small by (unfold is_word, npos in *; lia). replace (Z.of_nat n + 2) with (Z.of_nat (n + 2)) by lia.
  apply wp_of_option. eexists. split; [exact Hrest|].
  pose proof (render_length (drop (n + 2) l) texts) as Hr. rewrite length_drop in Hr.
  eapply (wp_construct _ (λ s, ks_ok s (render (drop (n + 2) l) texts))).
  { apply IH; [by apply Forall_drop|rewrite length_drop; lia]. }
  intros t3 Ht3. rewrite app_assoc.
  apply wp_ks_append; [by apply ks_ok_rep|done|rewrite length_app, length_take; lia|by right].
Qed.
End sprintf.

(** [sprintf] with a literal format and printable arguments returns, never leaving a buffer, the
    format in which the pairs of braces are replaced by the arguments' texts in turn; braces beyond the
    arguments and arguments beyond the braces are left alone. *)
Theorem sprintf_renders (args : list fmt_arg) (texts : list (list Z)) (l tail : list Z) :
  Forall2 prints args texts → Forall (λ c, c ≠ 0) l → length l + total texts + 2 < KS_MAX →
  ∃ s, sprintf (literal l tail) args ks_new = Ok (s, ()) ∧ ks_ok s (render l texts).
Proof.
  intros Hargs Hl Hmax. destruct (wp_total _ _ _ (wp_sprintf args texts l tail Hargs Hl Hmax)) as (s & [] & Hrun & Hs). eauto.
Qed.

(** "({}, {})" with 7 and -12. *)
Lemma sprintf_renders_witness : ∃ s,
  sprintf (literal [40; 123; 125; 44; 32; 123; 125; 41] []) [AUnsigned 7; ASigned (-12)] ks_new = Ok (s, ()) ∧
  ks_ok s [40; 55; 44; 32; 45; 49; 50; 41].
Proof.
  apply (sprintf_renders [AUnsigned 7; ASigned (-12)] [number_text [] DEC 7; number_text [45] DEC 12]).
  - apply Forall2_cons_2; [apply prints_unsigned; split; [discriminate|reflexivity]|].
    apply Forall2_cons_2; [|apply Forall2_nil_2]. apply (prints_signed (-12)). split; [discriminate|reflexivity].
  - repeat constructor; discriminate.
  - reflexivity.
Defined.
