(* ===== verification/KMem.v ===== *)
(** * Kernel memory as its clients see it

    What the allocators of [src/kernel/lib/memory] use of the virtual memory manager: pages of the
    kernel heap that are mapped and unmapped, and the 64-bit words at their addresses.  The laws say
    that a page handed out is new, that its words can be read and written, and that nothing else
    changes.  [VmmMem.v] shows that the virtual memory manager of [Vmm.v] meets them. *)

From S2P Require Import Prelude.

Class KernelMemory (P : Type) := {
  km_load : Z → M P Z;
  km_store : Z → Z → M P unit;
  km_alloc_page : M P Z;
  km_free_page : Z → M P unit;
  km_alloc : Z → M P Z;
  km_free : Z → M P unit;
}.

(** The address lies in the [n] pages from [v]. *)
Definition in_pages (v n a : Z) : Prop := v ≤ a < v + n * 4096.
#[export] Instance in_pages_dec v n a : Decision (in_pages v n a).
Proof. unfold in_pages. apply _. Defined.

(** The pages a request of [bytes] takes, with the word in front that holds their number. *)
Definition pages_for (bytes : Z) : Z := (bytes + 8 + 4095) / 4096.

Class KernelMemoryLaws (P : Type) `{!KernelMemory P} := {
  km_inv : P → Prop;
  (** The word at an address of the kernel heap. *)
  km_word : P → Z → option Z;
  (** How many more pages can be handed out at least. *)
  km_room : P → Z;

  km_word_addr s a : km_inv s → is_Some (km_word s a) → a mod 8 = 0 ∧ 4096 ≤ a;

  km_load_ok s a w : km_inv s → km_word s a = Some w → km_load a s = Ok (s, w);

  km_store_ok s a w : km_inv s → is_Some (km_word s a) →
    wp (km_store a w) False (λ _ s', km_inv s' ∧ km_room s ≤ km_room s' ∧
      ∀ b, km_word s' b = if b =? a then Some w else km_word s b) s;

  km_alloc_page_ok s : km_inv s → 1 ≤ km_room s →
    wp km_alloc_page False (λ v s', km_inv s' ∧ km_room s - 1 ≤ km_room s' ∧
      v mod 4096 = 0 ∧ 4096 ≤ v ∧ v + 4096 ≤ 2 ^ 64 ∧
      (∀ a, in_pages v 1 a → km_word s a = None ∧ (a mod 8 = 0 → is_Some (km_word s' a))) ∧
      (∀ a, ¬ in_pages v 1 a → km_word s' a = km_word s a)) s;

  km_free_page_ok s v : km_inv s → v mod 4096 = 0 →
    (∀ a, in_pages v 1 a → a mod 8 = 0 → is_Some (km_word s a)) →
    wp (km_free_page v) False (λ _ s', km_inv s' ∧ km_room s ≤ km_room s' ∧
      ∀ a, km_word s' a = if decide (in_pages v 1 a) then None else km_word s a) s;

  km_alloc_ok s bytes : km_inv s → 0 < bytes < 2 ^ 63 → pages_for bytes ≤ km_room s →
    wp (km_alloc bytes) False (λ p s', ∃ v, p = v + 8 ∧ km_inv s' ∧
      km_room s - pages_for bytes ≤ km_room s' ∧
      v mod 4096 = 0 ∧ 4096 ≤ v ∧ v + pages_for bytes * 4096 ≤ 2 ^ 64 ∧
      (∀ a, in_pages v (pages_for bytes) a → km_word s a = None ∧ (a mod 8 = 0 → is_Some (km_word s' a))) ∧
      km_word s' v = Some (pages_for bytes) ∧
      (∀ a, ¬ in_pages v (pages_for bytes) a → km_word s' a = km_word s a)) s;

  km_free_ok s v n : km_inv s → v mod 4096 = 0 → 1 ≤ n → v + n * 4096 ≤ 2 ^ 64 → km_word s v = Some n →
    (∀ a, in_pages v n a → a mod 8 = 0 → is_Some (km_word s a)) →
    wp (km_free (v + 8)) False (λ _ s', km_inv s' ∧ km_room s ≤ km_room s' ∧
      ∀ a, km_word s' a = if decide (in_pages v n a) then None else km_word s a) s;
}.
