(* ===== verification/Slab.v ===== *)
(** * Slab allocator, kmalloc and kfree

    [src/kernel/lib/memory/slab.cpp], [memory.cpp] and [new.cpp], over the kernel memory of [KMem.v].
    A slab is a page: a header of 40 bytes and chunks of one size, the free ones linked through their
    first words.  The slabs of a size class are a doubly linked list. *)

From S2P Require Import Prelude KMem.

Definition SLAB_MAGIC : Z := 0x51AB51AB51AB51AB.
(** [sizeof(Slab)]. *)
Definition SLAB_HEADER : Z := 40.

Record SizeClass := mk_class {
  sc_index : Z;
  sc_size : Z;
  sc_num_slabs : Z;
  sc_first_slab : Z;
  sc_chunks_per_slab : Z;
}.

Definition chunks_per_slab (chunk_size : Z) : Z := wrap8 ((4096 - SLAB_HEADER) / chunk_size).

Definition classes0 : list SizeClass :=
  [mk_class 0 32 0 0 (chunks_per_slab 32); mk_class 1 64 0 0 (chunks_per_slab 64);
   mk_class 2 128 0 0 (chunks_per_slab 128); mk_class 3 256 0 0 (chunks_per_slab 256);
   mk_class 4 512 0 0 (chunks_per_slab 512); mk_class 5 1024 0 0 (chunks_per_slab 1024)].

Definition with_num_slabs (n : Z) (c : SizeClass) : SizeClass :=
  mk_class (sc_index c) (sc_size c) n (sc_first_slab c) (sc_chunks_per_slab c).
Definition with_first_slab (p : Z) (c : SizeClass) : SizeClass :=
  mk_class (sc_index c) (sc_size c) (sc_num_slabs c) p (sc_chunks_per_slab c).

Section slab.
Context {P : Type} `{!KernelMemory P}.

Record slabs := mk_slabs {
  sl_mem : P;
  sl_classes : list SizeClass;
}.

Definition on_mem {A} : M P A → M slabs A := zoom sl_mem (λ m s, mk_slabs m (sl_classes s)).

(** [&classes[i]]. *)
Definition get_class (i : nat) : M slabs SizeClass := o ← gets (λ s, sl_classes s !! i); of_option o.
Definition set_class (i : nat) (f : SizeClass → SizeClass) : M slabs unit :=
  modify (λ s, mk_slabs (sl_mem s) (alter f i (sl_classes s))).

(** The fields of the header at [p]; the last two are bytes of one word. *)
Definition ld_magic (p : Z) : M slabs Z := on_mem (km_load p).
Definition ld_free_head (p : Z) : M slabs Z := on_mem (km_load (p + 8)).
Definition ld_next (p : Z) : M slabs Z := on_mem (km_load (p + 16)).
Definition ld_prev (p : Z) : M slabs Z := on_mem (km_load (p + 24)).
Definition ld_class_index (p : Z) : M slabs Z := w ← on_mem (km_load (p + 32)); mret (get_field 0 8 w).
Definition ld_free_chunks (p : Z) : M slabs Z := w ← on_mem (km_load (p + 32)); mret (get_field 8 8 w).
Definition st_magic (p w : Z) : M slabs unit := on_mem (km_store p w).
Definition st_free_head (p w : Z) : M slabs unit := on_mem (km_store (p + 8) w).
Definition st_next (p w : Z) : M slabs unit := on_mem (km_store (p + 16) w).
Definition st_prev (p w : Z) : M slabs unit := on_mem (km_store (p + 24) w).
Definition st_class_index (p b : Z) : M slabs unit :=
  w ← on_mem (km_load (p + 32)); on_mem (km_store (p + 32) (set_field 0 8 b w)).
Definition st_free_chunks (p b : Z) : M slabs unit :=
  w ← on_mem (km_load (p + 32)); on_mem (km_store (p + 32) (set_field 8 8 b w)).

(** ** Slabs *)

Definition PAGE_ALIGN_MASK : Z := wrap64 (Z.lnot 0xFFF).

Definition try_get_slab (addr : Z) : M slabs Z :=
  if addr =? 0 then mret 0 else
  let page := Z.land addr PAGE_ALIGN_MASK in
  magic ← ld_magic page;
  if magic =? SLAB_MAGIC then mret page else mret 0.

Definition is_slab (addr : Z) : M slabs bool := p ← try_get_slab addr; mret (negb (p =? 0)).

Definition can_alloc (bytes : Z) : bool := bytes <=? 1024.

(** The index of the class; [None] for [nullptr]. *)
Definition get_size_class (bytes : Z) : option nat :=
  if bytes <=? 32 then Some 0%nat else
  if bytes <=? 64 then Some 1%nat else
  if bytes <=? 128 then Some 2%nat else
  if bytes <=? 256 then Some 3%nat else
  if bytes <=? 512 then Some 4%nat else
  if bytes <=? 1024 then Some 5%nat else None.

Definition create_slab (sc : option nat) : M slabs Z :=
  _ ← kassert (match sc with Some _ => true | None => false end);
  i ← of_option sc;
  slab ← on_mem km_alloc_page;
  let first_chunk := wrap64 (slab + SLAB_HEADER) in
  c ← get_class i;
  let num_chunks := sc_chunks_per_slab c in
  let chunk_size := sc_size c in
  _ ← for_each (seqZ 0 (num_chunks - 1)) (λ chunk_idx,
        let this_chunk := wrap64 (first_chunk + chunk_idx * chunk_size) in
        let next_chunk := wrap64 (this_chunk + chunk_size) in
        _ ← kassert_not_null this_chunk;
        _ ← kassert_not_null next_chunk;
        on_mem (km_store this_chunk next_chunk));
  _ ← on_mem (km_store (wrap64 (first_chunk + (num_chunks - 1) * chunk_size)) 0);
  _ ← st_magic slab SLAB_MAGIC;
  _ ← st_class_index slab (sc_index c);
  _ ← st_free_head slab first_chunk;
  _ ← st_free_chunks slab num_chunks;
  let first_slab := sc_first_slab c in
  _ ← (if negb (first_slab =? 0) then st_prev first_slab slab else mret ());
  _ ← st_next slab first_slab;
  _ ← st_prev slab 0;
  _ ← set_class i (with_first_slab slab);
  _ ← set_class i (λ c, with_num_slabs (wrap64 (sc_num_slabs c + 1)) c);
  mret slab.

Definition destroy_slab (i : nat) (slab : Z) : M slabs unit :=
  if slab =? 0 then mret () else
  prev ← ld_prev slab;
  next ← ld_next slab;
  if (prev =? 0) && (next =? 0) then mret () else
  _ ← (if negb (prev =? 0) then st_next prev next else set_class i (with_first_slab next));
  _ ← (if negb (next =? 0) then st_prev next prev else mret ());
  _ ← set_class i (λ c, with_num_slabs (wrap64 (sc_num_slabs c - 1)) c);
  on_mem (km_free_page slab).

(** The search of [alloc]: the first slab from [slab] on with a free chunk, or 0. *)
Fixpoint find_slab (fuel : nat) (slab : Z) : M slabs Z :=
  if slab =? 0 then mret 0 else
  free_head ← ld_free_head slab;
  if negb (free_head =? 0) then mret slab else
  match fuel with
  | O => hang
  | S fuel' => next ← ld_next slab; find_slab fuel' next
  end.

(** The list has [num_slabs] slabs. *)
Definition slab_alloc (size : Z) : M slabs Z :=
  i ← of_option (get_size_class size);
  c ← get_class i;
  slab ← find_slab (Z.to_nat (sc_num_slabs c)) (sc_first_slab c);
  slab ← (if slab =? 0 then create_slab (Some i) else mret slab);
  _ ← kassert_not_null slab;
  chunk ← ld_free_head slab;
  next ← on_mem (km_load chunk);
  _ ← st_free_head slab next;
  n ← ld_free_chunks slab;
  _ ← st_free_chunks slab (wrap8 (n - 1));
  mret chunk.

Definition slab_free (addr : Z) : M slabs unit :=
  slab ← try_get_slab addr;
  if slab =? 0 then mret () else
  i ← ld_class_index slab;
  head ← ld_free_head slab;
  _ ← on_mem (km_store addr head);
  _ ← st_free_head slab addr;
  n ← ld_free_chunks slab;
  _ ← st_free_chunks slab (wrap8 (n + 1));
  c ← get_class (Z.to_nat i);
  n ← ld_free_chunks slab;
  if (n =? sc_chunks_per_slab c) && (1 <? sc_num_slabs c) then destroy_slab (Z.to_nat i) slab else mret ().

Definition total_slabs : M slabs Z :=
  gets (λ s, foldl (λ total c, wrap64 (total + sc_num_slabs c)) 0 (sl_classes s)).

(** ** kmalloc and kfree; [operator new] and [operator delete] only forward to them *)

Definition kmalloc (size : Z) : M slabs Z :=
  if size =? 0 then mret 0 else
  if can_alloc size then slab_alloc size else on_mem (km_alloc size).

Definition kfree (ptr : Z) : M slabs unit :=
  if ptr =? 0 then mret () else
  b ← is_slab ptr;
  if b : bool then slab_free ptr else on_mem (km_free ptr).

Definition operator_new (size : Z) : M slabs Z := kmalloc size.
Definition operator_delete (ptr : Z) : M slabs unit := kfree ptr.
End slab.
Arguments slabs : clear implicits.
