(* ===== verification/SlabInv.v ===== *)
(** * What the slab allocator keeps in memory

    The invariant of [Slab.v]: for each size class a list of slabs, each with its page and its list of
    free chunks, and how they lie in the words of kernel memory.  An allocated chunk is one that is not
    in its slab's free list. *)

From S2P Require Import Prelude KMem Slab.

(** ** Chunks *)

Definition csize (c : nat) : Z := 32 * 2 ^ Z.of_nat c.
Definition cchunks (c : nat) : Z := chunks_per_slab (csize c).
Definition chunk (c : nat) (p i : Z) : Z := p + SLAB_HEADER + i * csize c.
Definition chunks (c : nat) (p : Z) : list Z := chunk c p <$> seqZ 0 (cchunks c).

Lemma geometry c : (c < 6)%nat →
  32 ≤ csize c ≤ 1024 ∧ csize c mod 8 = 0 ∧ 1 < cchunks c ≤ 126 ∧ SLAB_HEADER + cchunks c * csize c ≤ 4096.
Proof. intros Hc. destruct c as [|[|[|[|[|[|c]]]]]]; [by vm_compute; split_and!; try done..|lia]. Qed.

Lemma get_size_class_spec bytes : bytes ≤ 1024 → ∃ c, get_size_class bytes = Some c ∧ (c < 6)%nat ∧ bytes ≤ csize c.
Proof.
  intros Hb. unfold get_size_class.
  assert (∀ c, (c < 6)%nat → bytes ≤ 32 * 2 ^ Z.of_nat c → ∃ c', Some c = Some c' ∧ (c' < 6)%nat ∧ bytes ≤ csize c') as H
    by (intros c Hc Hs; by exists c).
  destruct (Z.leb_spec bytes 32); [apply H; cbn; lia|]. destruct (Z.leb_spec bytes 64); [apply H; cbn; lia|].
  destruct (Z.leb_spec bytes 128); [apply H; cbn; lia|]. destruct (Z.leb_spec bytes 256); [apply H; cbn; lia|].
  destruct (Z.leb_spec bytes 512); [apply H; cbn; lia|]. destruct (Z.leb_spec bytes 1024); [apply H; cbn; lia|]. lia.
Qed.

Lemma elem_of_chunks c p x : x ∈ chunks c p ↔ ∃ i, 0 ≤ i < cchunks c ∧ x = chunk c p i.
Proof. unfold chunks. rewrite list_elem_of_fmap. setoid_rewrite elem_of_seqZ. naive_solver lia. Qed.

(** A chunk lies in its page behind the header. *)
Lemma chunk_range c p x : (c < 6)%nat → p mod 4096 = 0 → x ∈ chunks c p →
  p + SLAB_HEADER ≤ x ∧ x + csize c ≤ p + 4096 ∧ x mod 8 = 0.
Proof.
  intros Hc Hp (i & Hi & ->)%elem_of_chunks. destruct (geometry c Hc) as (? & Hm & ? & ?).
  unfold chunk, SLAB_HEADER in *. apply Z.div_exact in Hm; [|done].
  assert (i * csize c = 8 * (i * (csize c / 8))) as Hi8 by (rewrite Hm at 1; ring).
  split; [nia|]. split; [nia|]. rewrite Hi8. lia.
Qed.

Lemma chunk_inj c p i j : (c < 6)%nat → chunk c p i = chunk c p j → i = j.
Proof. intros Hc. destruct (geometry c Hc) as (? & _). unfold chunk. nia. Qed.

Lemma NoDup_chunks c p : (c < 6)%nat → NoDup (chunks c p).
Proof. intros Hc. apply NoDup_fmap_2_strong; [|apply NoDup_seqZ]. intros i j _ _. by apply chunk_inj. Qed.

Lemma length_chunks c p : (c < 6)%nat → Z.of_nat (length (chunks c p)) = cchunks c.
Proof. intros Hc. destruct (geometry c Hc) as (_ & _ & ? & _). unfold chunks. rewrite length_fmap, length_seqZ. lia. Qed.

(** Different chunks of a page do not overlap. *)
Lemma chunks_apart c p x y b : (c < 6)%nat → x ∈ chunks c p → y ∈ chunks c p →
  x ≤ b < x + csize c → y ≤ b < y + csize c → x = y.
Proof.
  intros Hc (i & Hi & ->)%elem_of_chunks (j & Hj & ->)%elem_of_chunks Hx Hy.
  destruct (geometry c Hc) as (? & _). unfold chunk in *. assert (i = j) as ->; [|done]. nia.
Qed.

(** ** Free lists *)

Section words.
Implicit Types (m : Z → option Z) (F : list Z) (p a : Z).

(** [F] is the list linked through the first words of its elements, from [a] to 0. *)
Fixpoint chain m a F : Prop :=
  match F with
  | [] => a = 0
  | x :: F' => a = x ∧ ∃ w, m x = Some w ∧ chain m w F'
  end.

Lemma free_chain_frame m m' a F : (∀ x, x ∈ F → m' x = m x) → chain m a F → chain m' a F.
Proof.
  revert a. induction F as [|x F IH]; intros a Hm; cbn; [done|]. intros [-> (w & Hw & Hc)]. split; [done|].
  exists w. rewrite Hm by left. split; [done|]. apply IH; [|done]. intros y Hy. apply Hm. by right.
Qed.

Lemma chain_head m a F : chain m a F → (∀ x, x ∈ F → x ≠ 0) → a = 0 ↔ F = [].
Proof.
  destruct F as [|x F]; cbn; [done|]. intros [-> _] Hne. split; [|done]. intros ->. destruct (Hne 0); [left|done].
Qed.

(** ** Slabs *)

Record slab_ok m (c : nat) p F (prev next : Z) : Prop := {
  so_page : p mod 4096 = 0 ∧ 4096 ≤ p ∧ p + 4096 ≤ 2 ^ 64;
  so_mapped a : in_pages p 1 a → a mod 8 = 0 → is_Some (m a);
  so_magic : m p = Some SLAB_MAGIC;
  so_free : ∃ h, m (p + 8) = Some h ∧ chain m h F;
  so_next : m (p + 16) = Some next;
  so_prev : m (p + 24) = Some prev;
  so_bytes : ∃ w, m (p + 32) = Some w ∧ get_field 0 8 w = Z.of_nat c ∧ get_field 8 8 w = Z.of_nat (length F);
  so_nodup : NoDup F;
  so_sub x : x ∈ F → x ∈ chunks c p;
}.

Lemma slab_chunk m c p F prev next x : (c < 6)%nat → slab_ok m c p F prev next → x ∈ chunks c p →
  p + SLAB_HEADER ≤ x ∧ x + csize c ≤ p + 4096 ∧ x mod 8 = 0 ∧ 0 < x.
Proof.
  intros Hc [(Hp & Hp1 & _) _ _ _ _ _ _ _ _] Hx. destruct (chunk_range c p x Hc Hp Hx) as (? & ? & ?).
  unfold SLAB_HEADER in *. lia.
Qed.

Lemma slab_ok_frame m m' c p F prev next : (c < 6)%nat → (∀ a, in_pages p 1 a → m' a = m a) →
  slab_ok m c p F prev next → slab_ok m' c p F prev next.
Proof.
  intros Hc Hm Hs. pose proof Hs as [Hp Hmap Hmagic (h & Hh & Hchain) Hn Hpr (w & Hw & Hb) Hnd Hsub].
  assert (∀ k, 0 ≤ k < 4096 → m' (p + k) = m (p + k)) as Hk by (intros; apply Hm; unfold in_pages; lia).
  split; try done.
  - intros a Ha H8. rewrite Hm by done. auto.
  - rewrite Hm; [done|]. unfold in_pages; lia.
  - exists h. rewrite Hk by lia. split; [done|]. eapply free_chain_frame; [|done]. intros x Hx. apply Hm.
    destruct (slab_chunk _ _ _ _ _ _ x Hc Hs) as (? & ? & _); [auto|]. destruct (geometry c Hc) as (? & _).
    unfold in_pages, SLAB_HEADER in *. lia.
  - by rewrite Hk by lia.
  - by rewrite Hk by lia.
  - exists w. by rewrite Hk by lia.
Qed.

(** Rewriting one of the two links. *)
Lemma slab_ok_relink m m' c p F prev next prev' next' : (c < 6)%nat →
  (∀ a, in_pages p 1 a → a ≠ p + 16 → a ≠ p + 24 → m' a = m a) →
  m' (p + 16) = Some next' → m' (p + 24) = Some prev' →
  slab_ok m c p F prev next → slab_ok m' c p F prev' next'.
Proof.
  intros Hc Hm Hn' Hp' Hs. pose proof Hs as [Hp Hmap Hmagic (h & Hh & Hchain) Hn Hpr (w & Hw & Hb) Hnd Hsub].
  split; try done.
  - intros a Ha H8. destruct (decide (a = p + 16)) as [->|]; [by eexists|]. destruct (decide (a = p + 24)) as [->|]; [by eexists|].
    rewrite Hm by done. auto.
  - rewrite Hm; [done|unfold in_pages; lia|lia|lia].
  - exists h. rewrite Hm by (unfold in_pages; lia). split; [done|]. eapply free_chain_frame; [|done]. intros x Hx.
    destruct (slab_chunk _ _ _ _ _ _ x Hc Hs) as (? & ? & _); [auto|]. destruct (geometry c Hc) as (? & _).
    apply Hm; unfold in_pages, SLAB_HEADER in *; lia.
  - exists w. by rewrite Hm by (unfold in_pages; lia).
Qed.
End words.

(** ** Size classes *)

Abbreviation slab_list := (list (Z * list Z)).

Definition page_of (o : option (Z * list Z)) : Z := match o with Some s => s.1 | None => 0 end.
Definition next_of (L : slab_list) (i : nat) : Z := page_of (L !! S i).
Definition prev_of (L : slab_list) (i : nat) : Z := match i with O => 0 | S j => page_of (L !! j) end.

Record class_ok (m : Z → option Z) (c : nat) (L : slab_list) (sc : SizeClass) : Prop := {
  co_class : sc = mk_class (Z.of_nat c) (csize c) (Z.of_nat (length L)) (page_of (L !! 0%nat)) (cchunks c);
  co_slab i p F : L !! i = Some (p, F) → slab_ok m c p F (prev_of L i) (next_of L i);
}.

(** The slab at place [i] of class [c] has page [p] and free list [F]. *)
Definition slab_at (G : list slab_list) (c i : nat) (p : Z) (F : list Z) : Prop :=
  ∃ L, G !! c = Some L ∧ L !! i = Some (p, F).

(** [r] is the number of pages that can still be had. *)
Record heap_inv (m : Z → option Z) (cl : list SizeClass) (r : Z) (G : list slab_list) : Prop := {
  hi_len : length G = 6%nat ∧ length cl = 6%nat;
  hi_class c L : G !! c = Some L → ∃ sc, cl !! c = Some sc ∧ class_ok m c L sc;
  hi_inj c i c' i' p F F' : slab_at G c i p F → slab_at G c' i' p F' → c = c' ∧ i = i';
  hi_room c L : G !! c = Some L → Z.of_nat (length L) + r ≤ 2 ^ 52;
}.

(** [x] is an allocated chunk of [l] bytes. *)
Definition live (G : list slab_list) (x l : Z) : Prop :=
  ∃ c i p F, slab_at G c i p F ∧ x ∈ chunks c p ∧ x ∉ F ∧ l = csize c.

(** Words that are in no slab, or in an allocated chunk. *)
Definition client_word (G : list slab_list) (b : Z) : Prop :=
  (∀ c i p F, slab_at G c i p F → ¬ in_pages p 1 b) ∨ (∃ x l, live G x l ∧ x ≤ b < x + l).

Section invariant.
Implicit Types (m : Z → option Z) (cl : list SizeClass) (G : list slab_list) (L : slab_list) (F : list Z) (p x a : Z).

Lemma page_of_insert L i p F F' j : L !! i = Some (p, F) → page_of (<[i := (p, F')]> L !! j) = page_of (L !! j).
Proof.
  intros Hi. destruct (decide (i = j)) as [<-|]; [|by rewrite list_lookup_insert_ne].
  rewrite list_lookup_insert_eq by (by eapply lookup_lt_Some). by rewrite Hi.
Qed.

Lemma links_insert L i p F F' j : L !! i = Some (p, F) →
  prev_of (<[i := (p, F')]> L) j = prev_of L j ∧ next_of (<[i := (p, F')]> L) j = next_of L j.
Proof.
  intros Hi. unfold prev_of, next_of. split; [destruct j; [done|]|]; by eapply page_of_insert.
Qed.

Lemma heap_class_lt m cl r G c L : heap_inv m cl r G → G !! c = Some L → (c < 6)%nat.
Proof. intros [[Hl _] _ _ _] Hc%lookup_lt_Some. lia. Qed.

Lemma slab_at_lt m cl r G c i p F : heap_inv m cl r G → slab_at G c i p F → (c < 6)%nat.
Proof. intros Hi (L & Hc & _). by eapply heap_class_lt. Qed.

Lemma slab_at_ok m cl r G c i p F : heap_inv m cl r G → slab_at G c i p F →
  ∃ prev next, slab_ok m c p F prev next.
Proof.
  intros [_ Hcl _ _] (L & Hc & Hi). destruct (Hcl c L Hc) as (sc & _ & [_ Hs]). eauto.
Qed.

Lemma slab_at_page m cl r G c i p F : heap_inv m cl r G → slab_at G c i p F →
  p mod 4096 = 0 ∧ 4096 ≤ p ∧ p + 4096 ≤ 2 ^ 64.
Proof. intros Hi Hs. destruct (slab_at_ok _ _ _ _ _ _ _ _ Hi Hs) as (? & ? & Hok). apply Hok. Qed.

(** Two slabs on one page are the same. *)
Lemma slabs_apart m cl r G c i p F c' i' p' F' a : heap_inv m cl r G →
  slab_at G c i p F → slab_at G c' i' p' F' → in_pages p 1 a → in_pages p' 1 a → c = c' ∧ i = i' ∧ p = p'.
Proof.
  intros Hi H1 H2 Ha Ha'.
  destruct (slab_at_page _ _ _ _ _ _ _ _ Hi H1) as (Hp & _), (slab_at_page _ _ _ _ _ _ _ _ Hi H2) as (Hp' & _).
  assert (p = p') as <- by (unfold in_pages in *; lia). destruct (hi_inj _ _ _ _ Hi _ _ _ _ _ _ _ H1 H2). auto.
Qed.

Lemma slab_at_fun G c i p F p' F' : slab_at G c i p F → slab_at G c i p' F' → p = p' ∧ F = F'.
Proof. intros (L & Hc & Hi) (L' & Hc' & Hi'). by simplify_eq. Qed.

Lemma live_mapped m cl r G x l b : heap_inv m cl r G → live G x l → x ≤ b < x + l → b mod 8 = 0 → is_Some (m b).
Proof.
  intros Hi (c & i & p & F & Hs & Hx & _ & ->) Hb H8. destruct (slab_at_ok _ _ _ _ _ _ _ _ Hi Hs) as (? & ? & Hok).
  destruct (slab_chunk _ _ _ _ _ _ x (slab_at_lt _ _ _ _ _ _ _ _ Hi Hs) Hok Hx) as (? & ? & _).
  apply (so_mapped _ _ _ _ _ _ Hok); [unfold in_pages, SLAB_HEADER in *; lia|done].
Qed.

Lemma live_size m cl r G x l : heap_inv m cl r G → live G x l → 32 ≤ l ≤ 1024.
Proof.
  intros Hi (c & i & p & F & Hs & Hx & _ & ->). by destruct (geometry c (slab_at_lt _ _ _ _ _ _ _ _ Hi Hs)) as (? & _).
Qed.

(** Allocated chunks do not overlap. *)
Lemma live_apart m cl r G x l x' l' b : heap_inv m cl r G → live G x l → live G x' l' →
  x ≤ b < x + l → x' ≤ b < x' + l' → x = x' ∧ l = l'.
Proof.
  intros Hi (c & i & p & F & Hs & Hx & _ & ->) (c' & i' & p' & F' & Hs' & Hx' & _ & ->) Hb Hb'.
  pose proof (slab_at_lt _ _ _ _ _ _ _ _ Hi Hs) as Hc. pose proof (slab_at_lt _ _ _ _ _ _ _ _ Hi Hs') as Hc'.
  destruct (slab_at_page _ _ _ _ _ _ _ _ Hi Hs) as (Hp & _), (slab_at_page _ _ _ _ _ _ _ _ Hi Hs') as (Hp' & _).
  destruct (chunk_range c p x Hc Hp Hx) as (? & ? & _), (chunk_range c' p' x' Hc' Hp' Hx') as (? & ? & _).
  destruct (slabs_apart _ _ _ _ _ _ _ _ _ _ _ _ b Hi Hs Hs') as (-> & -> & ->); [unfold in_pages, SLAB_HEADER in *; lia..|].
  split; [|done]. by eapply chunks_apart.
Qed.

(** A slab with all its chunks free holds no live region. *)
Lemma full_free m cl r G c i p F : heap_inv m cl r G → slab_at G c i p F → Z.of_nat (length F) = cchunks c →
  ∀ x, x ∈ chunks c p → x ∈ F.
Proof.
  intros Hi Hp Hfull x Hx. pose proof (slab_at_lt _ _ _ _ _ _ _ _ Hi Hp) as Hc6.
  destruct (slab_at_ok _ _ _ _ _ _ _ _ Hi Hp) as (prev & next & [_ _ _ _ _ _ _ Hnd Hsub]).
  assert (F ≡ₚ chunks c p) as HF; [|by rewrite HF]. apply submseteq_length_Permutation; [by apply NoDup_submseteq|].
  pose proof (length_chunks c p Hc6). lia.
Qed.

Lemma full_not_live m cl r G c i p F y k b : heap_inv m cl r G → slab_at G c i p F → Z.of_nat (length F) = cchunks c →
  live G y k → y ≤ b < y + k → ¬ in_pages p 1 b.
Proof.
  intros Hi Hp Hfull (c' & i' & p' & F' & Hs & Hy & HyF & ->) Hb Hin. pose proof (slab_at_lt _ _ _ _ _ _ _ _ Hi Hs) as Hc'.
  destruct (slab_at_ok _ _ _ _ _ _ _ _ Hi Hs) as (? & ? & Hok). destruct (slab_chunk _ _ _ _ _ _ y Hc' Hok Hy) as (? & ? & _).
  unfold SLAB_HEADER in *. destruct (slabs_apart _ _ _ _ _ _ _ _ _ _ _ _ b Hi Hp Hs) as (-> & -> & ->); [done|unfold in_pages; lia|].
  destruct (slab_at_fun _ _ _ _ _ _ _ Hs Hp) as [_ ->]. apply HyF. by eapply full_free.
Qed.

(** ** Changing one slab *)
Lemma heap_inv_slab m m' cl r G c i p F F' L : heap_inv m cl r G → G !! c = Some L → L !! i = Some (p, F) →
  (∀ a, ¬ in_pages p 1 a → m' a = m a) →
  (∀ prev next, slab_ok m c p F prev next → slab_ok m' c p F' prev next) →
  heap_inv m' cl r (<[c := <[i := (p, F')]> L]> G).
Proof.
  intros Hi Hc HL Hm Hok. pose proof Hi as [[Hlen Hlcl] Hcl Hinj Hroom].
  assert (slab_at G c i p F) as Hat by (by exists L).
  assert (∀ c' i' p' F0, slab_at (<[c := <[i := (p, F')]> L]> G) c' i' p' F0 → ∃ F1, slab_at G c' i' p' F1) as Hback.
  { intros c' i' p' F0 (L' & Hc' & Hi'). apply list_lookup_insert_Some in Hc' as [(-> & <- & _)|(? & Hc')]; [|by exists F0, L'].
    apply list_lookup_insert_Some in Hi' as [(-> & [= <- <-] & _)|(? & Hi')]; eexists; by exists L. }
  split.
  - by rewrite length_insert.
  - intros c' L' HL'. apply list_lookup_insert_Some in HL' as [(-> & <- & _)|(Hne & HL')].
    + destruct (Hcl c' L Hc) as (sc & Hsc & [Hclass Hslab]). exists sc. split; [done|]. split.
      * rewrite length_insert, (page_of_insert L i p F F') by done. done.
      * intros j q F0 Hj. destruct (links_insert L i p F F' j HL) as [-> ->].
        apply list_lookup_insert_Some in Hj as [(-> & [= <- <-] & _)|(Hnej & Hj)]; [by apply Hok, Hslab|].
        eapply slab_ok_frame; [by eapply heap_class_lt| |by apply Hslab]. intros a Ha. apply Hm. intros Ha'.
        destruct (slabs_apart m cl r G c' i p F c' j q F0 a) as (_ & ? & _); try done. by exists L.
    + destruct (Hcl c' L' HL') as (sc & Hsc & [Hclass Hslab]). exists sc. split; [done|]. split; [done|].
      intros j q F0 Hj. eapply slab_ok_frame; [by eapply heap_class_lt| |by apply Hslab]. intros a Ha. apply Hm. intros Ha'.
      destruct (slabs_apart m cl r G c i p F c' j q F0 a) as (? & _ & _); try done. by exists L'.
  - intros c1 i1 c2 i2 q F1 F2 [F1' H1]%Hback [F2' H2]%Hback. by eapply Hinj.
  - intros c' L' HL'. apply list_lookup_insert_Some in HL' as [(-> & <- & _)|(_ & HL')]; [|by eapply Hroom].
    rewrite length_insert. by eapply Hroom.
Qed.
End invariant.

(** ** Taking a chunk from a free list and giving it back *)
Section chunks.
Implicit Types (m : Z → option Z) (cl : list SizeClass) (G : list slab_list) (L : slab_list) (F : list Z) (p x a : Z).

Lemma slab_take m m' c p x F prev next w b : (c < 6)%nat →
  (∀ a, in_pages p 1 a → a ≠ p + 8 → a ≠ p + 32 → m' a = m a) → m x = Some w → m' (p + 8) = Some w →
  m' (p + 32) = Some b → get_field 0 8 b = Z.of_nat c → get_field 8 8 b = Z.of_nat (length F) →
  slab_ok m c p (x :: F) prev next → slab_ok m' c p F prev next.
Proof.
  intros Hc Hm Hw Hw' Hb Hb0 Hb8 Hs.
  pose proof Hs as [Hp Hmap Hmagic (h & Hh & [-> (w' & Hx & Hchain)]) Hn Hpr _ [Hnx Hnd]%NoDup_cons Hsub].
  assert (w' = w) as -> by congruence. destruct (geometry c Hc) as (Hsz & _).
  assert (∀ k, 0 ≤ k < 4096 → k ≠ 8 → k ≠ 32 → m' (p + k) = m (p + k)) as Hk by (intros; apply Hm; unfold in_pages; lia).
  split; try done.
  - intros a Ha H8. destruct (decide (a = p + 8)) as [->|]; [by eexists|]. destruct (decide (a = p + 32)) as [->|]; [by eexists|].
    rewrite Hm by done. auto.
  - rewrite Hm; [done|unfold in_pages; lia|lia|lia].
  - exists w. split; [done|]. eapply free_chain_frame; [|done]. intros y Hy.
    destruct (slab_chunk _ _ _ _ _ _ y Hc Hs) as (? & ? & _); [apply Hsub; by right|].
    apply Hm; unfold in_pages, SLAB_HEADER in *; lia.
  - by rewrite Hk by lia.
  - by rewrite Hk by lia.
  - eauto.
  - intros y Hy. apply Hsub. by right.
Qed.

Lemma slab_give m m' c p x F prev next h b : (c < 6)%nat →
  (∀ a, in_pages p 1 a → a ≠ x → a ≠ p + 8 → a ≠ p + 32 → m' a = m a) → m (p + 8) = Some h →
  m' x = Some h → m' (p + 8) = Some x → m' (p + 32) = Some b →
  get_field 0 8 b = Z.of_nat c → get_field 8 8 b = Z.of_nat (S (length F)) → x ∈ chunks c p → x ∉ F →
  slab_ok m c p F prev next → slab_ok m' c p (x :: F) prev next.
Proof.
  intros Hc Hm Hh Hx Hx' Hb Hb0 Hb8 Hxc HxF Hs.
  pose proof Hs as [Hp Hmap Hmagic (h' & Hh' & Hchain) Hn Hpr _ Hnd Hsub].
  assert (h' = h) as -> by congruence. destruct (geometry c Hc) as (Hsz & _).
  destruct (slab_chunk _ _ _ _ _ _ x Hc Hs Hxc) as (Hlo & Hhi & Hx8 & Hx0). unfold SLAB_HEADER in *.
  assert (∀ k, 0 ≤ k < 40 → k ≠ 8 → k ≠ 32 → m' (p + k) = m (p + k)) as Hk by (intros; apply Hm; unfold in_pages; lia).
  split; try done.
  - intros a Ha H8. destruct (decide (a = x)) as [->|]; [by eexists|]. destruct (decide (a = p + 8)) as [->|]; [by eexists|].
    destruct (decide (a = p + 32)) as [->|]; [by eexists|]. rewrite Hm by done. auto.
  - rewrite Hm; [done|unfold in_pages; lia|lia|lia|lia].
  - exists x. split; [done|]. cbn. split; [done|]. exists h. split; [done|]. eapply free_chain_frame; [|done]. intros y Hy.
    destruct (slab_chunk _ _ _ _ _ _ y Hc Hs) as (? & ? & _); [by apply Hsub|].
    apply Hm; unfold in_pages, SLAB_HEADER in *; try lia. by intros ->.
  - by rewrite Hk by lia.
  - by rewrite Hk by lia.
  - eauto.
  - by constructor.
  - intros y [->|Hy]%elem_of_cons; [done|by apply Hsub].
Qed.

Lemma slab_at_insert G c i p F F' L c' i' p' F0 : G !! c = Some L → L !! i = Some (p, F) →
  slab_at (<[c := <[i := (p, F')]> L]> G) c' i' p' F0 ↔
  (c' = c ∧ i' = i ∧ p' = p ∧ F0 = F') ∨ (¬ (c' = c ∧ i' = i) ∧ slab_at G c' i' p' F0).
Proof.
  intros Hc HL. pose proof (lookup_lt_Some _ _ _ Hc) as Hlc. pose proof (lookup_lt_Some _ _ _ HL) as Hli. split.
  - intros (L' & Hc' & Hi'). apply list_lookup_insert_Some in Hc' as [(-> & <- & _)|(? & Hc')].
    + apply list_lookup_insert_Some in Hi' as [(-> & [= <- <-] & _)|(? & Hi')]; [by left|].
      right. split; [by intros [_ ?]|]. by exists L.
    + right. split; [by intros [? _]|]. by exists L'.
  - intros [(-> & -> & -> & ->)|(Hne & L' & Hc' & Hi')].
    + exists (<[i := (p, F')]> L). by rewrite !list_lookup_insert_eq.
    + destruct (decide (c' = c)) as [->|].
      * exists (<[i := (p, F')]> L). rewrite list_lookup_insert_eq by done. split; [done|]. simplify_eq.
        rewrite list_lookup_insert_ne; [done|]. intros ->. by apply Hne.
      * exists L'. by rewrite list_lookup_insert_ne.
Qed.

Lemma live_take m cl r G c i p x F L y l : heap_inv m cl r G → G !! c = Some L → L !! i = Some (p, x :: F) →
  live (<[c := <[i := (p, F)]> L]> G) y l ↔ (y = x ∧ l = csize c) ∨ live G y l.
Proof.
  intros Hi Hc HL. assert (slab_at G c i p (x :: F)) as Hat by (by exists L).
  destruct (slab_at_ok _ _ _ _ _ _ _ _ Hi Hat) as (? & ? & [_ _ _ _ _ _ _ Hnd Hsub]).
  apply NoDup_cons in Hnd as [HxF _]. unfold live. setoid_rewrite (slab_at_insert G c i p _ F L) ; [|done..]. split.
  - intros (c' & i' & p' & F' & [(-> & -> & -> & ->)|(Hne & Hs)] & Hy & HyF & ->).
    + destruct (decide (y = x)) as [->|]; [by left|]. right. exists c, i, p, (x :: F). split_and!; [done..| |done].
      by apply not_elem_of_cons.
    + right. by exists c', i', p', F'.
  - intros [[-> ->]|(c' & i' & p' & F' & Hs & Hy & HyF & ->)].
    + exists c, i, p, F. split_and!; [by left| |done|done]. apply Hsub. left.
    + destruct (decide (c' = c ∧ i' = i)) as [[-> ->]|Hne].
      * destruct (slab_at_fun _ _ _ _ _ _ _ Hs Hat) as [-> ->]. exists c, i, p, F. split_and!; [by left|done| |done].
        by apply not_elem_of_cons in HyF as [_ ?].
      * exists c', i', p', F'. split_and!; [by right|done..].
Qed.

Lemma live_give m cl r G c i p x F L y l : heap_inv m cl r G → G !! c = Some L → L !! i = Some (p, F) →
  x ∈ chunks c p → live (<[c := <[i := (p, x :: F)]> L]> G) y l ↔ live G y l ∧ y ≠ x.
Proof.
  intros Hi Hc HL Hx. assert (slab_at G c i p F) as Hat by (by exists L).
  unfold live. setoid_rewrite (slab_at_insert G c i p F _ L); [|done..]. split.
  - intros (c' & i' & p' & F' & [(-> & -> & -> & ->)|(Hne & Hs)] & Hy & HyF & ->).
    + apply not_elem_of_cons in HyF as [? ?]. split; [|done]. by exists c, i, p, F.
    + split; [by exists c', i', p', F'|]. intros ->. apply Hne.
      assert (∀ c i p F, slab_at G c i p F → x ∈ chunks c p → in_pages p 1 x) as Hin.
      { intros c0 i0 p0 F0 Hs0 Hx0. destruct (slab_at_page _ _ _ _ _ _ _ _ Hi Hs0) as (Hp & _).
        pose proof (slab_at_lt _ _ _ _ _ _ _ _ Hi Hs0) as Hc0. destruct (chunk_range _ _ _ Hc0 Hp Hx0) as (? & ? & _).
        destruct (geometry _ Hc0) as (? & _). unfold in_pages, SLAB_HEADER in *. lia. }
      destruct (slabs_apart _ _ _ _ _ _ _ _ _ _ _ _ x Hi Hs Hat) as (-> & -> & _); [by eapply Hin..|done].
  - intros [(c' & i' & p' & F' & Hs & Hy & HyF & ->) Hne]. destruct (decide (c' = c ∧ i' = i)) as [[-> ->]|Hne'].
    + destruct (slab_at_fun _ _ _ _ _ _ _ Hs Hat) as [-> ->]. exists c, i, p, (x :: F). split_and!; [by left|done| |done].
      by apply not_elem_of_cons.
    + exists c', i', p', F'. split_and!; [by right|done..].
Qed.
End chunks.

(** ** A new slab *)
Section create.
Implicit Types (m : Z → option Z) (cl : list SizeClass) (G : list slab_list) (L : slab_list) (F : list Z) (p x a v : Z).

Lemma slab_at_cons G c L v F0 c' i' p' F' : G !! c = Some L →
  slab_at (<[c := (v, F0) :: L]> G) c' i' p' F' ↔
  (c' = c ∧ i' = 0%nat ∧ p' = v ∧ F' = F0) ∨ (∃ j, slab_at G c' j p' F' ∧ i' = if decide (c' = c) then S j else j).
Proof.
  intros Hc. pose proof (lookup_lt_Some _ _ _ Hc) as Hlc. split.
  - intros (L' & Hc' & Hi'). apply list_lookup_insert_Some in Hc' as [(-> & <- & _)|(Hne & Hc')].
    + destruct i' as [|j]; cbn in Hi'; [by simplify_eq; left|]. right. exists j. rewrite decide_True by done. split; [by exists L|done].
    + right. exists i'. rewrite decide_False by done. split; [by exists L'|done].
  - intros [(-> & -> & -> & ->)|(j & (L' & Hc' & Hj) & ->)].
    + exists ((v, F0) :: L). by rewrite list_lookup_insert_eq.
    + case_decide as Hd.
      * subst. exists ((v, F0) :: L). rewrite list_lookup_insert_eq by done. split; [done|]. by simplify_eq.
      * exists L'. by rewrite list_lookup_insert_ne.
Qed.

Lemma links_cons L v F0 j : prev_of ((v, F0) :: L) (S j) = (if decide (j = 0%nat) then v else prev_of L j) ∧
  next_of ((v, F0) :: L) (S j) = next_of L j.
Proof. split; [|done]. destruct j; [done|]. by rewrite decide_False. Qed.

Lemma heap_inv_cons m m' cl r G c L v F0 sc : heap_inv m cl r G → G !! c = Some L → cl !! c = Some sc →
  (∀ a, in_pages v 1 a → m a = None) →
  (∀ a, ¬ in_pages v 1 a → a ≠ page_of (L !! 0%nat) + 24 → m' a = m a) →
  (L ≠ [] → m' (page_of (L !! 0%nat) + 24) = Some v) →
  slab_ok m' c v F0 0 (page_of (L !! 0%nat)) →
  heap_inv m' (<[c := with_num_slabs (sc_num_slabs sc + 1) (with_first_slab v sc)]> cl) (r - 1) (<[c := (v, F0) :: L]> G).
Proof.
  intros Hi Hc Hsc Hfresh Hm Hq Hnew. pose proof Hi as [[Hlen Hlcl] Hcl Hinj Hroom].
  pose proof (heap_class_lt _ _ _ _ _ _ Hi Hc) as Hc6.
  assert (∀ c' j p F, slab_at G c' j p F → v ≠ p ∧ ∀ a, in_pages p 1 a → ¬ in_pages v 1 a) as Hapart.
  { intros c' j p F Hat. destruct (slab_at_ok _ _ _ _ _ _ _ _ Hi Hat) as (? & ? & Hok).
    assert (v ≠ p) as Hne.
    { intros ->. pose proof (so_magic _ _ _ _ _ _ Hok) as Hmg. rewrite Hfresh in Hmg; [done|]. unfold in_pages; lia. }
    split; [done|]. intros a Ha Ha'. destruct (so_page _ _ _ _ _ _ Hok) as (? & _), (so_page _ _ _ _ _ _ Hnew) as (? & _).
    unfold in_pages in *. lia. }
  split.
  - by rewrite !length_insert.
  - intros c' L' HL'. apply list_lookup_insert_Some in HL' as [(-> & <- & _)|(Hne & HL')].
    + destruct (Hcl c' L Hc) as (sc' & Hsc' & [Hclass Hslab]). simplify_eq. eexists.
      rewrite list_lookup_insert_eq by lia. split; [done|]. split.
      * unfold with_num_slabs, with_first_slab. cbn. f_equal. lia.
      * intros [|j] q F Hj; [cbn in Hj; simplify_eq; exact Hnew|]. change (L !! j = Some (q, F)) in Hj.
        destruct (links_cons L v F0 j) as [-> ->]. assert (slab_at G c' j q F) as Hat by (by exists L).
        destruct (Hapart _ _ _ _ Hat) as [_ Hpa]. case_decide as Hj0.
        -- subst j. assert (page_of (L !! 0%nat) = q) as Hq0 by (by rewrite Hj). rewrite Hq0 in *.
           eapply (slab_ok_relink m); [done| | |apply Hq; by destruct L|by apply Hslab].
           ++ intros a Ha _ Hne. apply Hm; [by apply Hpa|done].
           ++ destruct (Hslab _ _ _ Hj) as [_ _ _ _ Hn _ _ _ _]. rewrite Hm; [done| |lia]. apply Hpa. unfold in_pages; lia.
        -- eapply slab_ok_frame; [done| |by apply Hslab]. intros a Ha. apply Hm; [by apply Hpa|]. intros ->.
           destruct (L !! 0%nat) as [[q0 F1]|] eqn:H0; [|apply lookup_ge_None in H0; apply lookup_lt_Some in Hj; lia].
           cbn in Ha. destruct (slabs_apart m cl r G c' j q F c' 0 q0 F1 (q0 + 24)) as (_ & ? & _); try done; [by exists L|].
           unfold in_pages; lia.
    + destruct (Hcl c' L' HL') as (sc' & Hsc' & [Hclass Hslab]). exists sc'.
      rewrite list_lookup_insert_ne by done. split; [done|]. split; [done|]. intros j q F Hj.
      assert (slab_at G c' j q F) as Hat by (by exists L'). destruct (Hapart _ _ _ _ Hat) as [_ Hpa].
      eapply slab_ok_frame; [by eapply heap_class_lt| |by apply Hslab]. intros a Ha. apply Hm; [by apply Hpa|]. intros ->.
      destruct (L !! 0%nat) as [[q0 F1]|] eqn:H0.
      * cbn in Ha. destruct (slabs_apart m cl r G c' j q F c 0 q0 F1 (q0 + 24)) as (? & _ & _); try done; [by exists L|].
        unfold in_pages; lia.
      * cbn in Ha. destruct (slab_at_page _ _ _ _ _ _ _ _ Hi Hat) as (_ & ? & _). unfold in_pages in Ha. lia.
  - intros c1 i1 c2 i2 q F1 F2. rewrite !slab_at_cons by done.
    intros [(-> & -> & -> & ->)|(j & H1 & ->)] [(-> & -> & ? & ->)|(j' & H2 & ->)]; subst.
    + done.
    + by destruct (Hapart _ _ _ _ H2).
    + by destruct (Hapart _ _ _ _ H1).
    + by destruct (Hinj _ _ _ _ _ _ _ H1 H2) as [-> ->].
  - intros c' L' HL'. apply list_lookup_insert_Some in HL' as [(-> & <- & _)|(_ & HL')].
    + pose proof (Hroom _ _ Hc). cbn [length]. lia.
    + pose proof (Hroom _ _ HL'). lia.
Qed.

Lemma live_cons G c L v y l : G !! c = Some L → live (<[c := (v, chunks c v) :: L]> G) y l ↔ live G y l.
Proof.
  intros Hc. unfold live. split.
  - intros (c' & i' & p' & F' & Hs & Hy & HyF & ->). apply slab_at_cons in Hs as [(-> & -> & -> & ->)|(j & Hs & _)]; [done| |done].
    by exists c', j, p', F'.
  - intros (c' & i' & p' & F' & Hs & Hy & HyF & ->). eexists c', _, p', F'. split_and!; [|done..].
    apply slab_at_cons; [done|]. right. eauto.
Qed.
End create.

(** ** Removing a slab *)
Section destroy.
Implicit Types (m : Z → option Z) (cl : list SizeClass) (G : list slab_list) (L : slab_list) (F : list Z) (p x a v : Z).

(** The place in [L] of the slab at place [j] after the one at [i] is gone. *)
Definition old (i j : nat) : nat := if decide (j < i)%nat then j else S j.

Lemma links_delete L i j :
  prev_of (delete i L) j = (if decide (old i j = S i) then prev_of L i else prev_of L (old i j)) ∧
  next_of (delete i L) j = (if decide (S (old i j) = i) then next_of L i else next_of L (old i j)).
Proof.
  unfold prev_of, next_of, old. split.
  - destruct j as [|j].
    + destruct i as [|i]; [done|].
      rewrite (decide_True (P := (0 < S i)%nat)) by lia. by rewrite decide_False by lia.
    + rewrite list_lookup_delete. destruct (decide (S j < i)%nat).
      * rewrite (decide_True (P := (j < i)%nat)) by lia. by rewrite decide_False by lia.
      * destruct (decide (j < i)%nat).
        -- assert (i = S j) as -> by lia. by rewrite decide_True by lia.
        -- by rewrite decide_False by lia.
  - rewrite list_lookup_delete. destruct (decide (j < i)%nat).
    + destruct (decide (S j < i)%nat); [by rewrite decide_False by lia|]. assert (i = S j) as -> by lia. by rewrite decide_True.
    + rewrite (decide_False (P := (S j < i)%nat)) by lia. by rewrite decide_False by lia.
Qed.

Lemma old_ne i j : old i j ≠ i.
Proof. unfold old. case_decide; lia. Qed.

Lemma old_inj i j j' : old i j = old i j' → j = j'.
Proof. unfold old. repeat case_decide; lia. Qed.

Lemma slab_at_delete G c i L c' i' p' F' : G !! c = Some L →
  slab_at (<[c := delete i L]> G) c' i' p' F' ↔ slab_at G c' (if decide (c' = c) then old i i' else i') p' F'.
Proof.
  intros Hc. pose proof (lookup_lt_Some _ _ _ Hc) as Hlc. unfold slab_at. split.
  - intros (L' & Hc' & Hi'). apply list_lookup_insert_Some in Hc' as [(-> & <- & _)|(Hne & Hc')].
    + rewrite decide_True by done. exists L. split; [done|]. by rewrite list_lookup_delete in Hi'.
    + rewrite decide_False by done. by exists L'.
  - intros (L' & Hc' & Hi'). case_decide as Hd; subst.
    + exists (delete i L). rewrite list_lookup_insert_eq by done. split; [done|]. simplify_eq. by rewrite list_lookup_delete.
    + exists L'. by rewrite list_lookup_insert_ne.
Qed.

Lemma page_of_lookup m cl r G c L k : heap_inv m cl r G → G !! c = Some L → page_of (L !! k) ≠ 0 →
  ∃ F, slab_at G c k (page_of (L !! k)) F.
Proof. intros _ Hc. destruct (L !! k) as [[q F]|] eqn:Hk; [|done]. intros _. exists F. by exists L. Qed.

(** A neighbour's page, if there is one, is that of the slab before or after. *)
Lemma prev_slab m cl r G c L i : heap_inv m cl r G → G !! c = Some L → prev_of L i ≠ 0 →
  ∃ k F', i = S k ∧ slab_at G c k (prev_of L i) F'.
Proof.
  intros Hi Hc. unfold prev_of. destruct i as [|k]; [done|]. intros Hne.
  destruct (page_of_lookup _ _ _ _ _ _ k Hi Hc Hne) as [F' HF]. eauto.
Qed.
Lemma next_slab m cl r G c L i : heap_inv m cl r G → G !! c = Some L → next_of L i ≠ 0 →
  ∃ F', slab_at G c (S i) (next_of L i) F'.
Proof. intros Hi Hc Hne. by apply (page_of_lookup _ _ _ _ _ _ (S i) Hi Hc). Qed.

Section neighbours.
Context (m m' : Z → option Z) (cl : list SizeClass) (r : Z) (G : list slab_list) (c : nat) (L : slab_list) (i : nat) (p : Z) (F : list Z).
Hypothesis Hi : heap_inv m cl r G.
Hypothesis Hc : G !! c = Some L.
Hypothesis HL : L !! i = Some (p, F).
Hypothesis Hm : ∀ a, ¬ in_pages p 1 a → (prev_of L i ≠ 0 → a ≠ prev_of L i + 16) →
  (next_of L i ≠ 0 → a ≠ next_of L i + 24) → m' a = m a.
Hypothesis Hprev : prev_of L i ≠ 0 → m' (prev_of L i + 16) = Some (next_of L i).
Hypothesis Hnext : next_of L i ≠ 0 → m' (next_of L i + 24) = Some (prev_of L i).

(** What happens to the words of another slab. *)
Lemma other_words c' j q F' a : slab_at G c' j q F' → ¬ (c' = c ∧ j = i) → in_pages q 1 a →
  (a = q + 16 → ¬ (c' = c ∧ i = S j)) → (a = q + 24 → ¬ (c' = c ∧ j = S i)) → m' a = m a.
Proof.
  intros Hat Hne Ha H16 H24. assert (slab_at G c i p F) as Hp by (by exists L).
  destruct (slab_at_page _ _ _ _ _ _ _ _ Hi Hat) as (Hq & _). apply Hm.
  - intros Ha'. destruct (slabs_apart _ _ _ _ _ _ _ _ _ _ _ _ a Hi Hat Hp) as (? & ? & _); auto.
  - intros Hz ->. destruct (prev_slab _ _ _ _ _ _ _ Hi Hc Hz) as (k & Fk & Hk & Hatk).
    destruct (slabs_apart _ _ _ _ _ _ _ _ _ _ _ _ (prev_of L i + 16) Hi Hat Hatk) as (-> & -> & ->); [done|unfold in_pages; lia|].
    by apply H16.
  - intros Hz ->. destruct (next_slab _ _ _ _ _ _ _ Hi Hc Hz) as (Fk & Hatk).
    destruct (slabs_apart _ _ _ _ _ _ _ _ _ _ _ _ (next_of L i + 24) Hi Hat Hatk) as (-> & -> & ->); [done|unfold in_pages; lia|].
    by apply H24.
Qed.

Lemma relinked j q F' : L !! j = Some (q, F') → j ≠ i →
  slab_ok m' c q F' (if decide (j = S i) then prev_of L i else prev_of L j)
    (if decide (S j = i) then next_of L i else next_of L j).
Proof.
  intros Hj Hne. assert (slab_at G c j q F') as Hat by (by exists L).
  destruct (hi_class _ _ _ _ Hi c L Hc) as (sc & _ & [_ Hslab]). pose proof (Hslab _ _ _ Hj) as Hok.
  pose proof (so_page _ _ _ _ _ _ Hok) as (Hq & Hq1 & _).
  assert (∀ k, 0 ≤ k < 4096 → in_pages q 1 (q + k)) as Hin by (unfold in_pages; lia).
  eapply (slab_ok_relink m); [by eapply heap_class_lt| | | |exact Hok].
  - intros a Ha H16 H24. apply (other_words c j q F'); [done|by intros [_ ?]|done..].
  - case_decide as Hd.
    + assert (prev_of L i = q) as Hpq by (unfold prev_of; rewrite <- Hd; by rewrite Hj). rewrite <- Hpq. apply Hprev. lia.
    + rewrite (other_words c j q F'); [apply Hok|done|by intros [_ ?]|by apply Hin|intros _ [_ ?]; lia|intros ?; lia].
  - case_decide as Hd.
    + assert (next_of L i = q) as Hpq by (unfold next_of; by rewrite <- Hd, Hj). rewrite <- Hpq. apply Hnext. lia.
    + rewrite (other_words c j q F'); [apply Hok|done|by intros [_ ?]|by apply Hin|intros ?; lia|intros _ [_ ?]; lia].
Qed.

Lemma heap_inv_delete sc : cl !! c = Some sc →
  heap_inv m' (<[c := with_num_slabs (sc_num_slabs sc - 1)
                       (if decide (i = 0%nat) then with_first_slab (next_of L i) sc else sc)]> cl) r
    (<[c := delete i L]> G).
Proof.
  intros Hsc. pose proof Hi as [[Hlen Hlcl] Hcl Hinj Hroom]. pose proof (lookup_lt_Some _ _ _ HL) as Hlt.
  pose proof (heap_class_lt _ _ _ _ _ _ Hi Hc) as Hc6. split.
  - by rewrite !length_insert.
  - intros c' L' HL'. apply list_lookup_insert_Some in HL' as [(Hcc & HLL & _)|(Hne & HL')].
    + subst c' L'. destruct (Hcl c L Hc) as (sc' & Hsc' & [Hclass Hslab]). assert (sc' = sc) as -> by congruence. rewrite Hclass. eexists.
      rewrite list_lookup_insert_eq by lia. split; [done|]. split.
      * rewrite list_lookup_delete, length_delete by (by eexists). case_decide as H0.
        -- rewrite H0 in *. unfold next_of, with_num_slabs, with_first_slab. cbn. f_equal. lia.
        -- rewrite decide_True by lia. unfold with_num_slabs. cbn. f_equal. lia.
      * intros j q F' Hj. rewrite list_lookup_delete in Hj. destruct (links_delete L i j) as [-> ->].
        apply relinked; [exact Hj|apply old_ne].
    + destruct (Hcl c' L' HL') as (sc' & Hsc' & [Hclass Hslab]). exists sc'.
      rewrite list_lookup_insert_ne by done. split; [done|]. split; [done|]. intros j q F' Hj.
      eapply slab_ok_frame; [by eapply heap_class_lt| |by apply Hslab]. intros a Ha.
      apply (other_words c' j q F'); [by exists L'|naive_solver|done|naive_solver|naive_solver].
  - intros c1 i1 c2 i2 q F1 F2. rewrite !slab_at_delete by done. intros H1 H2.
    destruct (Hinj _ _ _ _ _ _ _ H1 H2) as [-> Heq]. split; [done|]. case_decide; [by eapply old_inj|done].
  - intros c' L' HL'. apply list_lookup_insert_Some in HL' as [(Hcc & HLL & _)|(_ & HL')]; [|by eapply Hroom].
    subst c' L'. pose proof (Hroom _ _ Hc). rewrite length_delete by (by eexists). lia.
Qed.

(** A full free list leaves nothing allocated. *)
Lemma live_delete y l : Z.of_nat (length F) = cchunks c → live (<[c := delete i L]> G) y l ↔ live G y l.
Proof.
  intros Hfull. assert (slab_at G c i p F) as Hp by (by exists L). pose proof (slab_at_lt _ _ _ _ _ _ _ _ Hi Hp) as Hc6.
  pose proof (full_free _ _ _ _ _ _ _ _ Hi Hp Hfull) as Hall.
  unfold live. split.
  - intros (c' & i' & p' & F' & Hs & Hy & HyF & ->). apply slab_at_delete in Hs; [|done]. eauto 10.
  - intros (c' & i' & p' & F' & Hs & Hy & HyF & ->). destruct (decide (c' = c)) as [->|].
    + destruct (decide (i' = i)) as [->|Hne]; [destruct (slab_at_fun _ _ _ _ _ _ _ Hs Hp) as [-> ->]; by destruct HyF; apply Hall|].
      exists c, (if decide (i' < i)%nat then i' else i' - 1)%nat, p', F'. split_and!; [|done..].
      apply slab_at_delete; [done|]. rewrite decide_True by done. unfold old.
      destruct (decide (i' < i)%nat); [by rewrite decide_True|]. rewrite decide_False by lia. replace (S (i' - 1)) with i' by lia. done.
    + exists c', i', p', F'. split_and!; [|done..]. apply slab_at_delete; [done|]. by rewrite decide_False.
Qed.
End neighbours.
End destroy.
