(* ===== verification/SlabProofs.v ===== *)
(** * The slab allocator hands out chunks

    The operations of [Slab.v] over any kernel memory that meets the laws of [KMem.v]: allocation
    returns a chunk that was not allocated, freeing gives it back, and no word of a client changes. *)

From S2P Require Import Prelude KMem Slab SlabInv.

Section proofs.
Context {P : Type} `{!KernelMemory P, !KernelMemoryLaws P}.
Implicit Types (st : slabs P) (m : Z → option Z) (cl : list SizeClass) (G : list slab_list) (L : slab_list)
  (F : list Z) (p x a v r : Z).

(** The state seen as words, pages that can still be had and size classes. *)
Definition sees st m r cl : Prop :=
  km_inv (sl_mem st) ∧ r ≤ km_room (sl_mem st) ∧ (∀ b, km_word (sl_mem st) b = m b) ∧ sl_classes st = cl.

Definition upd m a w : Z → option Z := λ b, if b =? a then Some w else m b.

Lemma upd_eq m a w : upd m a w a = Some w.
Proof. unfold upd. by rewrite Z.eqb_refl. Qed.
Lemma upd_ne m a w b : b ≠ a → upd m a w b = m b.
Proof. intros. unfold upd. by rewrite (proj2 (Z.eqb_neq _ _)). Qed.

Lemma sees_ext st m m' r cl : (∀ b, m' b = m b) → sees st m r cl → sees st m' r cl.
Proof. intros Hm (? & ? & Hw & ?). split_and!; [done..| |done]. intros b. by rewrite Hm, Hw. Qed.

Section rules.
Context {B : Type}.
Implicit Types (Q : B → slabs P → Prop).

Lemma wp_ld a w (f : Z → M (slabs P) B) Q st m r cl : sees st m r cl → m a = Some w →
  wp (f w) False Q st → wp (on_mem (km_load a) ≫= f) False Q st.
Proof.
  intros (Hi & _ & Hw & _) Ha HQ. apply wp_bind. unfold on_mem. apply wp_zoom. unfold wp at 1.
  rewrite (km_load_ok _ a w) by (by rewrite ?Hw). by destruct st.
Qed.

Lemma wp_st a w (f : unit → M (slabs P) B) Q st m r cl : sees st m r cl → is_Some (m a) →
  (∀ st', sees st' (upd m a w) r cl → wp (f ()) False Q st') → wp (on_mem (km_store a w) ≫= f) False Q st.
Proof.
  intros (Hi & Hr & Hw & Hc) Ha HQ. apply wp_bind. unfold on_mem. apply wp_zoom.
  eapply wp_mono; [apply km_store_ok; [done|by rewrite Hw]|done|]. intros [] s' (Hi' & Hr' & Hw').
  apply HQ. split_and!; [done|cbn; lia| |done]. intros b. cbn. rewrite Hw'. unfold upd. by rewrite Hw.
Qed.

Lemma wp_get_class i sc (f : SizeClass → M (slabs P) B) Q st m r cl : sees st m r cl → cl !! i = Some sc →
  wp (f sc) False Q st → wp (get_class i ≫= f) False Q st.
Proof.
  intros (_ & _ & _ & Hc) Hi HQ. apply wp_bind. unfold get_class. apply wp_gets. rewrite Hc, Hi. exact HQ.
Qed.

Lemma wp_set_class i g (f : unit → M (slabs P) B) Q st m r cl : sees st m r cl →
  (∀ st', sees st' m r (alter g i cl) → wp (f ()) False Q st') → wp (set_class i g ≫= f) False Q st.
Proof.
  intros (Hi & Hr & Hw & Hc) HQ. apply wp_bind. unfold set_class. apply HQ. split_and!; [done..|]. cbn. by rewrite Hc.
Qed.

(** Reading the two bytes of the header's last word, and writing one of them. *)
Lemma wp_ld_byte lo p w (f : Z → M (slabs P) B) Q st m r cl : sees st m r cl → m (p + 32) = Some w →
  wp (f (get_field lo 8 w)) False Q st → wp ((w ← on_mem (km_load (p + 32)); mret (get_field lo 8 w)) ≫= f) False Q st.
Proof. intros Hs Hw HQ. apply wp_assoc. eapply wp_ld; [done..|]. by apply wp_bind, wp_ret. Qed.

Lemma wp_st_byte lo p b w (f : unit → M (slabs P) B) Q st m r cl : sees st m r cl → m (p + 32) = Some w →
  (∀ st', sees st' (upd m (p + 32) (set_field lo 8 b w)) r cl → wp (f ()) False Q st') →
  wp ((w ← on_mem (km_load (p + 32)); on_mem (km_store (p + 32) (set_field lo 8 b w))) ≫= f) False Q st.
Proof.
  intros Hs Hw HQ. apply wp_assoc. eapply wp_ld; [done..|]. by eapply wp_st.
Qed.
End rules.

(** ** Reading *)

Lemma wp_try_get_slab {B} x p (f : Z → M (slabs P) B) (Q : B → slabs P → Prop) st m r cl : sees st m r cl →
  p mod 4096 = 0 → 4096 ≤ p → p + 4096 ≤ 2 ^ 64 → in_pages p 1 x → is_Some (m p) →
  wp (f (if bool_decide (m p = Some SLAB_MAGIC) then p else 0)) False Q st → wp (try_get_slab x ≫= f) False Q st.
Proof.
  intros Hs Hp Hp1 Hp2 Hx [w Hw] HQ. unfold try_get_slab. unfold in_pages in Hx. apply wp_bind.
  rewrite (proj2 (Z.eqb_neq _ _)) by lia.
  assert (Z.land x PAGE_ALIGN_MASK = p) as ->.
  { unfold PAGE_ALIGN_MASK. rewrite page_mask_land by lia. lia. }
  unfold ld_magic. eapply wp_ld; [done..|]. rewrite Hw in HQ.
  destruct (Z.eqb_spec w SLAB_MAGIC) as [->|]; apply wp_ret; [by rewrite bool_decide_true in HQ|].
  rewrite bool_decide_false in HQ by congruence. done.
Qed.
(** The search of [alloc] from place [i] on: it ends at 0 when no slab has a free chunk. *)
Lemma wp_find_slab {B} c L sc (f : Z → M (slabs P) B) (Q : B → slabs P → Prop) st m r cl i fuel : (c < 6)%nat →
  sees st m r cl → class_ok m c L sc → (length L - i ≤ fuel)%nat →
  (∀ j p x F, L !! j = Some (p, x :: F) → wp (f p) False Q st) → wp (f 0) False Q st →
  wp (find_slab fuel (page_of (L !! i)) ≫= f) False Q st.
Proof.
  intros Hc Hs Hcl. revert i. induction fuel as [|fuel IH]; intros i Hf Hfound Hnone; cbn [find_slab].
  all: destruct (L !! i) as [[p F]|] eqn:Hi; cbn [page_of fst]; [|by apply wp_bind, wp_ret].
  - apply lookup_lt_Some in Hi. lia.
  - pose proof (co_slab _ _ _ _ Hcl _ _ _ Hi) as Hok. pose proof Hok as [(_ & Hp & _) _ _ (h & Hh & Hchain) Hn _ _ _ Hsub].
    rewrite (proj2 (Z.eqb_neq _ _)) by lia. apply wp_assoc. unfold ld_free_head. eapply wp_ld; [done..|].
    assert (∀ x, x ∈ F → x ≠ 0) as Hnz.
    { intros x Hx%Hsub. destruct (slab_chunk _ _ _ _ _ _ _ Hc Hok Hx) as (_ & _ & _ & ?). lia. }
    pose proof (chain_head _ _ _ Hchain Hnz) as Hh0. destruct (Z.eqb_spec h 0) as [->|Hne]; cbn [negb].
    + apply wp_assoc. unfold ld_next. eapply wp_ld; [done..|]. apply IH; [|done..]. apply lookup_lt_Some in Hi. lia.
    + apply wp_bind, wp_ret. destruct F as [|x F]; [by destruct Hne, Hh0|]. by eapply Hfound.
Qed.

(** Taking the first chunk of a free list. *)
Definition take_chunk (slab : Z) : M (slabs P) Z :=
  chunk ← ld_free_head slab;
  next ← on_mem (km_load chunk);
  _ ← st_free_head slab next;
  n ← ld_free_chunks slab;
  _ ← st_free_chunks slab (wrap8 (n - 1));
  mret chunk.

(** No client word has changed. *)
Definition kept G m m' : Prop := ∀ b, is_Some (m b) → client_word G b → m' b = m b.

Lemma header_not_client m cl r G c i p F k : heap_inv m cl r G → slab_at G c i p F → 0 ≤ k < SLAB_HEADER → ¬ client_word G (p + k).
Proof.
  intros Hi Hat Hk [Hno|(x & l & (c' & i' & p' & F' & Hat' & Hx & _ & ->) & Hb)].
  - apply (Hno _ _ _ _ Hat). unfold in_pages, SLAB_HEADER in *. lia.
  - destruct (slab_at_page _ _ _ _ _ _ _ _ Hi Hat) as (Hp & _), (slab_at_page _ _ _ _ _ _ _ _ Hi Hat') as (Hp' & _).
    destruct (chunk_range _ _ _ (slab_at_lt _ _ _ _ _ _ _ _ Hi Hat') Hp' Hx) as (? & ? & _).
    unfold SLAB_HEADER in *. lia.
Qed.

Lemma kept_refl G m : kept G m m.
Proof. by intros b. Qed.

Lemma wp_take_chunk G c L i p x F st m r cl (Q : Z → slabs P → Prop) :
  sees st m r cl → heap_inv m cl r G → G !! c = Some L → L !! i = Some (p, x :: F) →
  (∀ st' m', sees st' m' r cl → heap_inv m' cl r (<[c := <[i := (p, F)]> L]> G) → kept G m m' → Q x st') →
  wp (take_chunk p) False Q st.
Proof.
  intros Hs Hi Hc HL HQ. pose proof (heap_class_lt _ _ _ _ _ _ Hi Hc) as Hc6.
  assert (slab_at G c i p (x :: F)) as Hat by (by exists L).
  destruct (slab_at_ok _ _ _ _ _ _ _ _ Hi Hat) as (prev & next & Hok).
  pose proof Hok as [_ Hmap _ (h & Hh & [-> (w & Hx & _)]) _ _ (b & Hb & Hb0 & Hb8) Hnd Hsub].
  destruct (slab_chunk _ _ _ _ _ _ x Hc6 Hok) as (Hlo & Hhi & Hx8 & Hx0); [apply Hsub; left|].
  destruct (geometry c Hc6) as (_ & _ & Hn & _).
  assert (Z.of_nat (length (x :: F)) ≤ cchunks c) as Hlen.
  { rewrite <- (length_chunks c p Hc6). apply inj_le, submseteq_length, NoDup_submseteq; [done|]. exact Hsub. }
  unfold take_chunk, ld_free_head. eapply wp_ld; [done..|]. eapply wp_ld; [done..|].
  unfold st_free_head. eapply wp_st; [done|by eexists|]. intros st1 Hs1. cbn [length] in *.
  unfold ld_free_chunks. eapply wp_ld_byte; [done|rewrite upd_ne by lia; done|]. rewrite Hb8.
  unfold st_free_chunks. eapply wp_st_byte; [done|rewrite upd_ne by lia; done|]. intros st2 Hs2.
  replace (wrap8 (Z.of_nat (S (length F)) - 1)) with (Z.of_nat (length F)) in Hs2 by wrap_lia.
  apply wp_ret. apply (HQ _ _ Hs2).
  - apply (heap_inv_slab m _ cl r G c i p (x :: F)); [done..| |].
    + intros a Ha. rewrite !upd_ne; [done|intros ->; apply Ha; unfold in_pages; lia..].
    + intros pr nx Hok'. eapply (slab_take m); [done| |exact Hx| |apply upd_eq| | |exact Hok'].
      * intros a _ H8 H32. by rewrite !upd_ne.
      * rewrite upd_ne by lia. apply upd_eq.
      * rewrite get_set_field_other by lia. done.
      * apply get_set_field_same; [lia..|]. change (2 ^ 8) with 256. lia.
  - intros a _ Ha. rewrite !upd_ne; [done|intros ->|intros ->]; eapply header_not_client; eauto; unfold SLAB_HEADER; lia.
Qed.

(** ** Creating a slab *)

Lemma chain_chunks m c v (n : nat) (k : Z) : (0 < n)%nat →
  (∀ i, k ≤ i < k + Z.of_nat n - 1 → m (chunk c v i) = Some (chunk c v (i + 1))) →
  m (chunk c v (k + Z.of_nat n - 1)) = Some 0 →
  chain m (chunk c v k) (chunk c v <$> seqZ k (Z.of_nat n)).
Proof.
  intros Hn. revert k. induction n as [|n IH]; intros k Hlink Hlast; [lia|].
  rewrite seqZ_cons by lia. cbn [fmap list_fmap chain]. split; [done|]. destruct n as [|n].
  - exists 0. replace (k + Z.of_nat 1 - 1) with k in Hlast by lia. done.
  - exists (chunk c v (k + 1)). split; [apply Hlink; lia|].
    replace (Z.succ k) with (k + 1) by lia. replace (Z.pred (Z.of_nat (S (S n)))) with (Z.of_nat (S n)) by lia. apply IH; [lia| |].
    + intros i Hi. apply Hlink. lia.
    + rewrite <- Hlast. f_equal. f_equal. lia.
Qed.

(** Writing the links of the free list into the new page. *)
Lemma wp_link_chunks {B} c v (f : unit → M (slabs P) B) (Q : B → slabs P → Prop) st m r cl : (c < 6)%nat →
  sees st m r cl → v mod 4096 = 0 → 4096 ≤ v → v + 4096 ≤ 2 ^ 64 →
  (∀ a, in_pages v 1 a → a mod 8 = 0 → is_Some (m a)) →
  (∀ st' m', sees st' m' r cl → (∀ a, ¬ in_pages v 1 a → m' a = m a) →
     (∀ a, in_pages v 1 a → a mod 8 = 0 → is_Some (m' a)) →
     (∀ i, 0 ≤ i < cchunks c - 1 → m' (chunk c v i) = Some (chunk c v (i + 1))) → wp (f ()) False Q st') →
  wp (for_each (seqZ 0 (cchunks c - 1)) (λ chunk_idx,
        let this_chunk := wrap64 (wrap64 (v + SLAB_HEADER) + chunk_idx * csize c) in
        let next_chunk := wrap64 (this_chunk + csize c) in
        _ ← kassert_not_null this_chunk;
        _ ← kassert_not_null next_chunk;
        on_mem (km_store this_chunk next_chunk)) ≫= f) False Q st.
Proof.
  intros Hc Hs Hv Hv1 Hv2 Hmap HQ. destruct (geometry c Hc) as (Hsz & _ & Hn & Hend).
  assert (∀ i, 0 ≤ i < cchunks c → in_pages v 1 (chunk c v i) ∧ chunk c v i mod 8 = 0 ∧ 0 < chunk c v i < 2 ^ 64) as Hch.
  { intros i Hi. assert (chunk c v i ∈ chunks c v) as Hin by (apply elem_of_chunks; eauto).
    destruct (chunk_range c v _ Hc Hv Hin) as (? & ? & ?). unfold in_pages, SLAB_HEADER in *. lia. }
  apply wp_bind. eapply wp_mono; [apply (wp_for_each _ _ False (λ pre st', ∃ m', sees st' m' r cl ∧
    (∀ a, ¬ in_pages v 1 a → m' a = m a) ∧ (∀ a, in_pages v 1 a → a mod 8 = 0 → is_Some (m' a)) ∧
    (∀ i, i ∈ pre → m' (chunk c v i) = Some (chunk c v (i + 1)))))|done|].
  - intros pre k post st' Hl (m' & Hs' & Hout & Hmap' & Hpre).
    assert (k ∈ seqZ 0 (cchunks c - 1)) as Hk%elem_of_seqZ by (rewrite Hl; apply elem_of_app; right; left).
    cbv zeta. destruct (Hch k) as (Hk1 & Hk8 & Hk0); [lia|]. destruct (Hch (k + 1)) as (_ & _ & Hk0'); [lia|].
    assert (wrap64 (wrap64 (v + SLAB_HEADER) + k * csize c) = chunk c v k) as ->.
    { unfold chunk, SLAB_HEADER in *. rewrite (wrap_small 64 (v + 40)) by (unfold is_word; nia). by rewrite wrap_small by (unfold is_word; lia). }
    assert (wrap64 (chunk c v k + csize c) = chunk c v (k + 1)) as ->.
    { rewrite wrap_small; [unfold chunk; ring|]. unfold is_word, chunk in *. lia. }
    unfold kassert_not_null. rewrite !(proj2 (Z.eqb_neq _ _)) by lia. cbn [negb]. apply wp_kassert, wp_kassert.
    apply wp_zoom. eapply wp_mono; [apply km_store_ok; [apply Hs'|destruct Hs' as (_ & _ & -> & _); auto]|done|].
    intros [] s2 (Hi2 & Hr2 & Hw2). destruct Hs' as (Hi' & Hr' & Hw' & Hc').
    exists (upd m' (chunk c v k) (chunk c v (k + 1))). split_and!.
    + split_and!; [done|cbn; lia| |done]. intros b. cbn. rewrite Hw2. unfold upd. by rewrite Hw'.
    + intros a Ha. rewrite upd_ne by (by intros ->). auto.
    + intros a Ha H8. unfold upd. destruct (a =? _); [by eexists|auto].
    + intros i [Hi| ->%list_elem_of_singleton]%elem_of_app; [|apply upd_eq].
      unfold upd. destruct (Z.eqb_spec (chunk c v i) (chunk c v k)) as [->%chunk_inj|]; [done|done|by apply Hpre].
  - exists m. split_and!; [done..|]. by intros i ?%not_elem_of_nil.
  - intros [] st' (m' & Hs' & Hout & Hmap' & Hpre). apply (HQ st' m'); [done..|]. intros i Hi. apply Hpre, elem_of_seqZ. lia.
Qed.
(** A slab whose links have not been written. *)
Record unlinked m c v F : Prop := {
  ul_page : v mod 4096 = 0 ∧ 4096 ≤ v ∧ v + 4096 ≤ 2 ^ 64;
  ul_mapped a : in_pages v 1 a → a mod 8 = 0 → is_Some (m a);
  ul_magic : m v = Some SLAB_MAGIC;
  ul_free : ∃ h, m (v + 8) = Some h ∧ chain m h F;
  ul_bytes : ∃ w, m (v + 32) = Some w ∧ get_field 0 8 w = Z.of_nat c ∧ get_field 8 8 w = Z.of_nat (length F);
  ul_nodup : NoDup F;
  ul_sub x : x ∈ F → x ∈ chunks c v;
}.

Lemma unlinked_link m m' c v F prev next : (c < 6)%nat → unlinked m c v F →
  (∀ a, in_pages v 1 a → a ≠ v + 16 → a ≠ v + 24 → m' a = m a) →
  m' (v + 16) = Some next → m' (v + 24) = Some prev → slab_ok m' c v F prev next.
Proof.
  intros Hc [Hp Hmap Hmg (h & Hh & Hch) (w & Hw & Hb) Hnd Hsub] Hm Hn Hpr.
  destruct (Hmap (v + 16)) as [n Hn0]; [unfold in_pages; lia|lia|].
  destruct (Hmap (v + 24)) as [q Hq0]; [unfold in_pages; lia|lia|].
  apply (slab_ok_relink m m' c v F q n); [done..|]. split; eauto.
Qed.

Lemma wp_slab_header {B} c v (f : unit → M (slabs P) B) (Q : B → slabs P → Prop) st m r cl : (c < 6)%nat →
  sees st m r cl → v mod 4096 = 0 → 4096 ≤ v → v + 4096 ≤ 2 ^ 64 →
  (∀ a, in_pages v 1 a → a mod 8 = 0 → is_Some (m a)) →
  (∀ i, 0 ≤ i < cchunks c - 1 → m (chunk c v i) = Some (chunk c v (i + 1))) →
  (∀ st' m', sees st' m' r cl → (∀ a, ¬ in_pages v 1 a → m' a = m a) → unlinked m' c v (chunks c v) → wp (f ()) False Q st') →
  wp (_ ← on_mem (km_store (wrap64 (wrap64 (v + SLAB_HEADER) + (cchunks c - 1) * csize c)) 0);
      _ ← st_magic v SLAB_MAGIC;
      _ ← st_class_index v (Z.of_nat c);
      _ ← st_free_head v (wrap64 (v + SLAB_HEADER));
      _ ← st_free_chunks v (cchunks c);
      f ()) False Q st.
Proof.
  intros Hc Hs Hv Hv1 Hv2 Hmap Hlink HQ. destruct (geometry c Hc) as (Hsz & _ & Hn & Hend).
  set (z := chunk c v (cchunks c - 1)).
  assert (z ∈ chunks c v) as Hz by (apply elem_of_chunks; eexists; split; [|done]; lia).
  destruct (chunk_range c v z Hc Hv Hz) as (Hz1 & Hz2 & Hz8).
  assert (wrap64 (v + SLAB_HEADER) = chunk c v 0) as H0.
  { unfold chunk, SLAB_HEADER in *. rewrite wrap_small by (unfold is_word; lia). lia. }
  assert (wrap64 (wrap64 (v + SLAB_HEADER) + (cchunks c - 1) * csize c) = z) as ->.
  { rewrite H0. unfold z, chunk in *. rewrite wrap_small by (unfold is_word, SLAB_HEADER in *; lia). lia. }
  rewrite H0. unfold SLAB_HEADER in *.
  assert (∀ k, 0 ≤ k < 4096 → k mod 8 = 0 → is_Some (m (v + k))) as Hk by (intros; apply Hmap; unfold in_pages; lia).
  eapply wp_st; [done|apply Hmap; [unfold in_pages; lia|done]|]. intros st1 Hs1.
  unfold st_magic. eapply wp_st; [done|rewrite upd_ne by lia; replace v with (v + 0) by lia; by apply Hk|]. intros st2 Hs2.
  destruct (Hk 32) as [w Hw]; [lia|done|].
  unfold st_class_index. eapply wp_st_byte; [done|rewrite !upd_ne by lia; exact Hw|]. intros st3 Hs3.
  unfold st_free_head. eapply wp_st; [done|rewrite !upd_ne by lia; by apply Hk|]. intros st4 Hs4.
  unfold st_free_chunks. eapply wp_st_byte; [done|rewrite upd_ne by lia; apply upd_eq|]. intros st5 Hs5.
  set (m' := upd _ _ _) in Hs5.
  assert (∀ a, a ≠ z → a ≠ v → a ≠ v + 32 → a ≠ v + 8 → m' a = m a) as Hm' by (intros; unfold m'; by rewrite !upd_ne).
  apply (HQ _ _ Hs5).
  - intros a Ha. apply Hm'; intros ->; apply Ha; unfold in_pages; lia.
  - assert (m' z = Some 0) as Hlast by (unfold m'; rewrite !upd_ne by lia; apply upd_eq).
    assert (∀ i, 0 ≤ i < cchunks c - 1 → m' (chunk c v i) = Some (chunk c v (i + 1))) as Hlink'.
    { intros i Hi. rewrite <- Hlink by done. assert (chunk c v i ∈ chunks c v) as Hin by (apply elem_of_chunks; eexists; split; [|done]; lia).
      destruct (chunk_range c v _ Hc Hv Hin) as (? & _). unfold SLAB_HEADER in *. apply Hm'; try lia. intros ?%chunk_inj; [lia|done]. }
    split.
    + done.
    + intros a Ha H8. unfold m', upd. repeat (case_match; [by eexists|]). auto.
    + unfold m'. rewrite !upd_ne by lia. apply upd_eq.
    + exists (chunk c v 0). split; [unfold m'; rewrite upd_ne by lia; apply upd_eq|].
      unfold chunks. replace (cchunks c) with (Z.of_nat (Z.to_nat (cchunks c))) by lia.
      apply chain_chunks; [lia|intros i Hi; apply Hlink'; lia|].
      rewrite Z2Nat.id by lia. replace (0 + cchunks c - 1) with (cchunks c - 1) by lia. exact Hlast.
    + eexists. split; [apply upd_eq|]. split.
      * rewrite get_set_field_other by lia. apply get_set_field_same; [lia..|]. change (2 ^ 8) with 256. lia.
      * rewrite (length_chunks c v Hc). apply get_set_field_same; [lia..|]. change (2 ^ 8) with 256. lia.
    + by apply NoDup_chunks.
    + done.
Qed.
Lemma class_fields m c L sc : class_ok m c L sc →
  sc_index sc = Z.of_nat c ∧ sc_size sc = csize c ∧ sc_num_slabs sc = Z.of_nat (length L) ∧
  sc_first_slab sc = page_of (L !! 0%nat) ∧ sc_chunks_per_slab sc = cchunks c.
Proof. by intros [-> _]. Qed.

Lemma alter_twice (cl : list SizeClass) c sc f g : cl !! c = Some sc →
  alter g c (alter f c cl) = <[c := g (f sc)]> cl.
Proof.
  revert cl. induction c as [|c IH]; intros [|x cl] Hc; try done; cbn in *; [by simplify_eq|]. f_equal. by apply IH.
Qed.

(** Writing the links of a new slab and of the one that was first. *)
Lemma wp_link_slab G c L sc st m m3 r cl v (Q : Z → slabs P → Prop) : sees st m3 (r - 1) cl → heap_inv m cl r G → 1 ≤ r →
  G !! c = Some L → cl !! c = Some sc → sc_num_slabs sc = Z.of_nat (length L) → unlinked m3 c v (chunks c v) →
  (∀ a, in_pages v 1 a → m a = None) → (∀ a, ¬ in_pages v 1 a → m3 a = m a) →
  (∀ st' m' cl' v, sees st' m' (r - 1) cl' → heap_inv m' cl' (r - 1) (<[c := (v, chunks c v) :: L]> G) →
     0 < v → (∀ a, in_pages v 1 a → m a = None) → kept G m m' → Q v st') →
  wp (_ ← (if negb (page_of (L !! 0%nat) =? 0) then st_prev (page_of (L !! 0%nat)) v else mret ());
      _ ← st_next v (page_of (L !! 0%nat));
      _ ← st_prev v 0;
      _ ← set_class c (with_first_slab v);
      _ ← set_class c (λ c, with_num_slabs (wrap64 (sc_num_slabs c + 1)) c);
      mret v) False Q st.
Proof.
  intros Hs Hi Hr Hc Hsc Hnum Hul Hfresh Hout HQ. set (q := page_of (L !! 0%nat)).
  pose proof (heap_class_lt _ _ _ _ _ _ Hi Hc) as Hc6. pose proof (hi_room _ _ _ _ Hi c L Hc) as Hroom.
  pose proof (ul_page _ _ _ _ Hul) as (Hv & Hv1 & Hv2).
  assert (L ≠ [] → ∃ F, slab_at G c 0 q F ∧ 4096 ≤ q ∧ is_Some (m (q + 24)) ∧ ¬ in_pages v 1 (q + 24)) as Hq.
  { intros Hne. destruct L as [|[q' F] L']; [done|]. exists F. assert (slab_at G c 0 q F) as Hat by (by exists ((q', F) :: L')).
    destruct (slab_at_ok _ _ _ _ _ _ _ _ Hi Hat) as (pr & nx & [(? & ? & _) Hmap _ _ _ _ _ _ _]).
    assert (is_Some (m (q + 24))) as Hsome by (apply Hmap; [unfold in_pages|]; lia).
    split_and!; [done|lia|done|]. intros Hin. rewrite Hfresh in Hsome by done. by destruct Hsome. }
  assert (∀ st4 m4, sees st4 m4 (r - 1) cl → (∀ a, L = [] ∨ a ≠ q + 24 → m4 a = m3 a) → (∀ a, in_pages v 1 a → m4 a = m3 a) →
    (L ≠ [] → m4 (q + 24) = Some v) →
    wp (_ ← st_next v q; _ ← st_prev v 0; _ ← set_class c (with_first_slab v);
        _ ← set_class c (λ c, with_num_slabs (wrap64 (sc_num_slabs c + 1)) c); mret v) False Q st4) as Hrest.
  { intros st4 m4 Hs4 Hm4 Hv4 Hq4.
    assert (∀ k, 0 ≤ k < 4096 → k mod 8 = 0 → is_Some (m4 (v + k))) as Hk.
    { intros k Hk H8. rewrite Hv4 by (unfold in_pages; lia). apply (ul_mapped _ _ _ _ Hul); [unfold in_pages; lia|lia]. }
    unfold st_next. eapply wp_st; [done|by apply Hk|]. intros st5 Hs5.
    unfold st_prev. eapply wp_st; [done|rewrite upd_ne by lia; by apply Hk|]. intros st6 Hs6.
    eapply wp_set_class; [done|]. intros st7 Hs7. eapply wp_set_class; [done|]. intros st8 Hs8. apply wp_ret.
    rewrite (alter_twice _ _ sc) in Hs8 by done. cbn [sc_num_slabs with_first_slab] in Hs8.
    rewrite wrap_small in Hs8 by (unfold is_word; lia). set (m' := upd (upd m4 (v + 16) q) (v + 24) 0) in Hs8.
    assert (∀ a, ¬ in_pages v 1 a → m' a = m4 a) as Hm' by (intros a Ha; unfold m'; rewrite !upd_ne; [done|intros ->; apply Ha; unfold in_pages; lia..]).
    apply (HQ _ _ _ _ Hs8); [|lia|done|].
    - apply (heap_inv_cons m m'); [done..| | |].
      + intros a Ha Hne. rewrite Hm', Hm4, Hout by auto. done.
      + intros HL. destruct (Hq HL) as (F & _ & _ & _ & Hnin). fold q. rewrite Hm' by done. by apply Hq4.
      + fold q. eapply unlinked_link; [done|exact Hul| | |apply upd_eq].
        * intros a Ha H16 H24. unfold m'. rewrite !upd_ne by done. by apply Hv4.
        * unfold m'. rewrite upd_ne by lia. apply upd_eq.
    - intros b Hb Hcw. assert (¬ in_pages v 1 b) as Hnin by (intros Hin; rewrite Hfresh in Hb by done; by destruct Hb).
      rewrite Hm' by done. rewrite Hm4; [by apply Hout|]. destruct (decide (L = [])) as [|HL]; [by left|right]. intros ->.
      destruct (Hq HL) as (F & Hat & _). eapply header_not_client; eauto. unfold SLAB_HEADER. lia. }
  destruct (decide (L = [])) as [HL|HL].
  - assert (q = 0) as Hq0 by (unfold q; by rewrite HL). rewrite Hq0 at 1. cbn [Z.eqb negb]. apply wp_bind, wp_ret.
    by apply (Hrest _ m3).
  - destruct (Hq HL) as (F & Hat & Hq1 & Hsome & Hnin). rewrite (proj2 (Z.eqb_neq q 0)) by lia. cbn [negb].
    unfold st_prev at 1. eapply wp_st; [done|by rewrite Hout|]. intros st4 Hs4. apply (Hrest _ _ Hs4).
    + intros a [?|Hne]; [done|]. by apply upd_ne.
    + intros a Ha. apply upd_ne. by intros ->.
    + intros _. apply upd_eq.
Qed.

Lemma wp_create_slab G c L st m r cl (Q : Z → slabs P → Prop) :
  sees st m r cl → heap_inv m cl r G → G !! c = Some L → 1 ≤ r →
  (∀ st' m' cl' v, sees st' m' (r - 1) cl' → heap_inv m' cl' (r - 1) (<[c := (v, chunks c v) :: L]> G) →
     0 < v → (∀ a, in_pages v 1 a → m a = None) → kept G m m' → Q v st') →
  wp (create_slab (Some c)) False Q st.
Proof.
  intros Hs Hi Hc Hr HQ. pose proof (heap_class_lt _ _ _ _ _ _ Hi Hc) as Hc6.
  destruct (hi_class _ _ _ _ Hi c L Hc) as (sc & Hsc & Hcl). pose proof (class_fields _ _ _ _ Hcl) as (F1 & F2 & F3 & F4 & F5).
  unfold create_slab. apply wp_kassert, wp_of_option. exists c. split; [done|].
  apply wp_bind. unfold on_mem at 1. apply wp_zoom. pose proof Hs as (Hinv & Hroom & Hw & Hcls).
  eapply wp_mono; [apply km_alloc_page_ok; [done|lia]|done|].
  intros v s1 (Hi1 & Hr1 & Hv & Hv1 & Hv2 & Hnew & Hold).
  set (st1 := mk_slabs s1 (sl_classes st)). set (m1 := km_word s1).
  assert (sees st1 m1 (r - 1) cl) as Hs1 by (split_and!; [done|cbn; lia|done|done]).
  eapply wp_get_class; [exact Hs1|exact Hsc|]. cbv zeta. rewrite F1, F2, F4, F5.
  eapply wp_link_chunks; [done|exact Hs1|done..| |].
  { intros a Ha H8. by apply Hnew. }
  intros st2 m2 Hs2 Hout2 Hmap2 Hlink2.
  eapply (wp_slab_header c v (λ _, _)); [done|exact Hs2|done..|]. intros st3 m3 Hs3 Hout3 Hul.
  assert (∀ a, ¬ in_pages v 1 a → m3 a = m a) as Hout.
  { intros a Ha. rewrite Hout3, Hout2 by done. unfold m1. rewrite Hold by done. apply Hw. }
  assert (∀ a, in_pages v 1 a → m a = None) as Hfresh by (intros a Ha; rewrite <- Hw; by apply Hnew).
  by eapply (wp_link_slab G c L sc).
Qed.

(** ** Allocation *)

Lemma free_not_live m cl r G c i p F x k : heap_inv m cl r G → slab_at G c i p F → x ∈ F → ¬ live G x k.
Proof.
  intros Hi Hat Hx (c' & i' & p' & F' & Hat' & Hx' & HxF & _).
  destruct (slab_at_ok _ _ _ _ _ _ _ _ Hi Hat) as (? & ? & Hok), (slab_at_ok _ _ _ _ _ _ _ _ Hi Hat') as (? & ? & Hok').
  pose proof (slab_at_lt _ _ _ _ _ _ _ _ Hi Hat) as Hc. pose proof (slab_at_lt _ _ _ _ _ _ _ _ Hi Hat') as Hc'.
  destruct (slab_chunk _ _ _ _ _ _ x Hc Hok) as (? & ? & _); [by apply (so_sub _ _ _ _ _ _ Hok)|].
  destruct (slab_chunk _ _ _ _ _ _ x Hc' Hok' Hx') as (? & ? & _).
  destruct (geometry c Hc) as (? & _), (geometry c' Hc') as (? & _). unfold SLAB_HEADER in *.
  destruct (slabs_apart _ _ _ _ _ _ _ _ _ _ _ _ x Hi Hat Hat') as (-> & -> & ->); [unfold in_pages; lia..|].
  by destruct (slab_at_fun _ _ _ _ _ _ _ Hat Hat') as [_ ->].
Qed.

(** A page of [G'] with a word of [m] was a page of [G] already. *)
Definition no_new_page m G G' : Prop := ∀ c i p F b, slab_at G' c i p F → in_pages p 1 b → is_Some (m b) →
  ∃ c' i' F', slab_at G c' i' p F'.

(** What an allocation of at least [size] bytes does: a new region [x] of [l] bytes. *)
Record allocated m G r m' G' r' size x l : Prop := {
  al_room : r - 1 ≤ r' ≤ r;
  al_size : size ≤ l;
  al_live y k : live G' y k ↔ (y = x ∧ k = l) ∨ live G y k;
  al_new k : ¬ live G x k;
  al_kept : kept G m m';
  al_pages : no_new_page m G G';
}.

Lemma no_new_page_insert m G c i p F F' L : G !! c = Some L → L !! i = Some (p, F) →
  no_new_page m G (<[c := <[i := (p, F')]> L]> G).
Proof.
  intros Hc HL c' i' p' F0 b Hat _ _. apply (slab_at_insert G c i p F) in Hat as [(-> & -> & -> & ->)|(_ & Hat)]; [|eauto|done..].
  exists c, i, F. by exists L.
Qed.

Lemma wp_slab_alloc size G st m r cl (Q : Z → slabs P → Prop) : sees st m r cl → heap_inv m cl r G → size ≤ 1024 → 1 ≤ r →
  (∀ st' m' cl' r' G' x l, sees st' m' r' cl' → heap_inv m' cl' r' G' → allocated m G r m' G' r' size x l → Q x st') →
  wp (slab_alloc size) False Q st.
Proof.
  intros Hs Hi Hsize Hr HQ. destruct (get_size_class_spec size Hsize) as (c & Hclass & Hc6 & Hle).
  unfold slab_alloc. apply wp_of_option. exists c. split; [done|].
  destruct (lookup_lt_is_Some_2 G c) as [L Hc]; [rewrite (proj1 (hi_len _ _ _ _ Hi)); lia|].
  destruct (hi_class _ _ _ _ Hi c L Hc) as (sc & Hsc & Hcl). pose proof (class_fields _ _ _ _ Hcl) as (F1 & F2 & F3 & F4 & F5).
  eapply wp_get_class; [done..|]. rewrite F3, F4, Nat2Z.id.
  eapply (wp_find_slab c L sc); [done|exact Hs|done|lia| |].
  - intros j p x F HL. assert (slab_at G c j p (x :: F)) as Hat by (by exists L).
    destruct (slab_at_page _ _ _ _ _ _ _ _ Hi Hat) as (_ & Hp & _). rewrite (proj2 (Z.eqb_neq p 0)) by lia.
    apply wp_bind, wp_ret. unfold kassert_not_null. rewrite (proj2 (Z.eqb_neq p 0)) by lia. apply wp_kassert.
    apply (wp_take_chunk G c L j p x F st m r cl); [done..|]. intros st' m' Hs' Hi' Hk. eapply HQ; [done..|].
    split; [lia|exact Hle| | |done|by eapply no_new_page_insert].
    + intros y k. by eapply live_take.
    + intros k. eapply free_not_live; [done..|]. left.
  - apply wp_bind. cbn [Z.eqb]. eapply (wp_create_slab G c L); [done..|].
    intros st1 m1 cl1 v Hs1 Hi1 Hv Hfresh Hk1. unfold kassert_not_null. rewrite (proj2 (Z.eqb_neq v 0)) by lia. apply wp_kassert.
    set (G1 := <[c := (v, chunks c v) :: L]> G) in *.
    assert (G1 !! c = Some ((v, chunks c v) :: L)) as Hc1 by (apply list_lookup_insert_eq; by eapply lookup_lt_Some).
    destruct (geometry c Hc6) as (_ & _ & Hn & _). pose proof (length_chunks c v Hc6) as Hlen.
    destruct (chunks c v) as [|x F] eqn:Hch; [cbn in Hlen; lia|].
    apply (wp_take_chunk G1 c ((v, x :: F) :: L) 0 v x F st1 m1 (r - 1) cl1); [done..|]. intros st' m' Hs' Hi' Hk'. eapply HQ; [done..|].
    assert (∀ y k, live G1 y k ↔ live G y k) as Hlive by (intros; unfold G1; rewrite <- Hch; by apply live_cons).
    assert (∀ c' i p F' b, slab_at G1 c' i p F' → in_pages p 1 b → is_Some (m b) → ∃ c'' i' F'', slab_at G c'' i' p F'') as Hpages.
    { intros c' i p F' b Hat Hin Hsome. apply slab_at_cons in Hat as [(-> & -> & -> & ->)|(j & Hat & _)]; [| |done].
      - rewrite Hfresh in Hsome by done. by destruct Hsome.
      - eauto. }
    split; [lia|exact Hle| | | |].
    + intros y k. rewrite <- Hlive. by eapply live_take.
    + intros k. rewrite <- Hlive. eapply (free_not_live m1 cl1 (r - 1) G1 c 0 v (x :: F)); [done|by eexists|left].
    + intros b Hb Hcw. rewrite <- (Hk1 b Hb Hcw). apply Hk'; [by rewrite (Hk1 b Hb Hcw)|].
      destruct Hcw as [Hno|(y & k & Hy & Hb')]; [left|right; exists y, k; by rewrite Hlive].
      intros c' i p F' Hat Hin. destruct (Hpages _ _ _ _ _ Hat Hin Hb) as (c'' & i' & F'' & Hat'). by apply (Hno _ _ _ _ Hat').
    + intros c' i p F' b Hat Hin Hsome.
      apply (slab_at_insert G1 c 0 v (x :: F)) in Hat as [(-> & -> & -> & ->)|(_ & Hat)]; [|by eapply Hpages|done..].
      rewrite Hfresh in Hsome by done. by destruct Hsome.
Qed.

(** ** Freeing *)

Lemma alter_once (cl : list SizeClass) c sc f : cl !! c = Some sc → alter f c cl = <[c := f sc]> cl.
Proof. revert cl. induction c as [|c IH]; intros [|x cl] Hc; try done; cbn in *; [by simplify_eq|]. f_equal. by apply IH. Qed.

(** The two words [destroy_slab] writes in the neighbours. *)
Definition unlink_words m prev next : Z → option Z :=
  let m1 := if prev =? 0 then m else upd m (prev + 16) next in
  if next =? 0 then m1 else upd m1 (next + 24) prev.

Lemma wp_unlink_slab {B} c sc prev next (f : unit → M (slabs P) B) (Q : B → slabs P → Prop) st m r cl :
  sees st m r cl → cl !! c = Some sc → prev mod 4096 = 0 → next mod 4096 = 0 → 1 ≤ sc_num_slabs sc < 2 ^ 64 →
  (prev ≠ 0 → is_Some (m (prev + 16))) → (next ≠ 0 → is_Some (m (next + 24))) →
  (∀ st', sees st' (unlink_words m prev next) r
     (<[c := with_num_slabs (sc_num_slabs sc - 1) (if prev =? 0 then with_first_slab next sc else sc)]> cl) →
     wp (f ()) False Q st') →
  wp (_ ← (if negb (prev =? 0) then st_next prev next else set_class c (with_first_slab next));
      _ ← (if negb (next =? 0) then st_prev next prev else mret ());
      _ ← set_class c (λ c, with_num_slabs (wrap64 (sc_num_slabs c - 1)) c);
      f ()) False Q st.
Proof.
  intros Hs Hc Hp8 Hn8 Hnum Hp Hn HQ. unfold unlink_words in HQ. cbv zeta in HQ.
  assert (∀ st2 m2 sc2, sees st2 m2 r (<[c := sc2]> cl) → sc_num_slabs sc2 = sc_num_slabs sc →
    (next ≠ 0 → is_Some (m2 (next + 24))) →
    (∀ st', sees st' (if next =? 0 then m2 else upd m2 (next + 24) prev) r (<[c := with_num_slabs (sc_num_slabs sc - 1) sc2]> cl) →
       wp (f ()) False Q st') →
    wp (_ ← (if negb (next =? 0) then st_prev next prev else mret ());
        _ ← set_class c (λ c, with_num_slabs (wrap64 (sc_num_slabs c - 1)) c); f ()) False Q st2) as Hrest.
  { intros st2 m2 sc2 Hs2 Hsc2 Hn2 HQ2.
    assert (<[c := sc2]> cl !! c = Some sc2) as Hl by (apply list_lookup_insert_eq; by eapply lookup_lt_Some).
    assert (alter (λ c, with_num_slabs (wrap64 (sc_num_slabs c - 1)) c) c (<[c := sc2]> cl) =
      <[c := with_num_slabs (sc_num_slabs sc - 1) sc2]> cl) as Halt.
    { rewrite (alter_once _ _ sc2), list_insert_insert_eq by done. rewrite Hsc2, wrap_small by (unfold is_word; lia). done. }
    destruct (Z.eqb_spec next 0); cbn [negb].
    - apply wp_bind, wp_ret. eapply wp_set_class; [done|]. intros st3 Hs3. rewrite Halt in Hs3. by apply HQ2.
    - unfold st_prev. eapply wp_st; [done|auto|]. intros st3 Hs3. eapply wp_set_class; [done|]. intros st4 Hs4.
      rewrite Halt in Hs4. by apply HQ2. }
  destruct (Z.eqb_spec prev 0) as [->|Hne]; cbn [negb].
  - eapply wp_set_class; [done|]. intros st1 Hs1. rewrite (alter_once _ _ sc) in Hs1 by done.
    apply (Hrest _ m (with_first_slab next sc)); [done..|]. intros st' Hs'. by apply HQ.
  - unfold st_next. eapply wp_st; [done|auto|]. intros st1 Hs1. apply (Hrest _ (upd m (prev + 16) next) sc); [|done| |done].
    + by rewrite list_insert_id.
    + intros Hn0. rewrite upd_ne by lia. auto.
Qed.

Lemma wp_destroy_slab G c L i p F st m r cl (Q : unit → slabs P → Prop) :
  sees st m r cl → heap_inv m cl r G → G !! c = Some L → L !! i = Some (p, F) → (1 < length L)%nat → 0 ≤ r →
  (∀ st' m' cl', sees st' m' r cl' → heap_inv m' cl' r (<[c := delete i L]> G) →
     (∀ b, client_word G b → ¬ in_pages p 1 b → m' b = m b) → Q () st') →
  wp (destroy_slab c p) False Q st.
Proof.
  intros Hs Hi Hc HL Hlen Hr HQ. assert (slab_at G c i p F) as Hat by (by exists L).
  destruct (hi_class _ _ _ _ Hi c L Hc) as (sc & Hsc & Hcl). pose proof (class_fields _ _ _ _ Hcl) as (_ & _ & Hnum & _).
  pose proof (co_slab _ _ _ _ Hcl _ _ _ HL) as Hok. pose proof Hok as [(Hp & Hp1 & _) Hmap _ _ Hn Hpr _ _ _].
  pose proof (hi_room _ _ _ _ Hi c L Hc) as Hroom.
  assert (∀ q k, q ≠ 0 → (∃ j F', slab_at G c j q F' ∧ j ≠ i) → 0 ≤ k < 4096 → k mod 8 = 0 →
    is_Some (m (q + k)) ∧ ¬ in_pages p 1 (q + k) ∧ q mod 4096 = 0) as Hnb.
  { intros q k Hq (j & F' & Hatj & Hne) Hk H8. destruct (slab_at_ok _ _ _ _ _ _ _ _ Hi Hatj) as (? & ? & [(Hq8 & _) Hmap' _ _ _ _ _ _ _]).
    split_and!; [apply Hmap'; [unfold in_pages|]; lia| |done]. intros Hin.
    destruct (slabs_apart _ _ _ _ _ _ _ _ _ _ _ _ (q + k) Hi Hatj Hat) as (_ & ? & _); [unfold in_pages; lia|done|done]. }
  assert (prev_of L i ≠ 0 → ∃ j F', slab_at G c j (prev_of L i) F' ∧ j ≠ i) as Hprev.
  { intros Hz. assert (∃ k F', i = S k ∧ slab_at G c k (prev_of L i) F') as (k & F' & -> & Hk) by (by eapply prev_slab).
    exists k, F'. split; [done|lia]. }
  assert (next_of L i ≠ 0 → ∃ j F', slab_at G c j (next_of L i) F' ∧ j ≠ i) as Hnext.
  { intros Hz. assert (∃ F', slab_at G c (S i) (next_of L i) F') as (F' & Hk) by (by eapply next_slab).
    exists (S i), F'. split; [done|lia]. }
  set (prev := prev_of L i) in *. set (next := next_of L i) in *.
  assert (prev mod 4096 = 0 ∧ next mod 4096 = 0) as [Hp8 Hn8].
  { split.
    - destruct (decide (prev = 0)) as [->|Hz]; [done|]. by apply (Hnb prev 0 Hz (Hprev Hz)).
    - destruct (decide (next = 0)) as [->|Hz]; [done|]. by apply (Hnb next 0 Hz (Hnext Hz)). }
  unfold destroy_slab. rewrite (proj2 (Z.eqb_neq p 0)) by lia. unfold ld_prev, ld_next.
  eapply wp_ld; [exact Hs|exact Hpr|]. eapply wp_ld; [exact Hs|exact Hn|].
  assert ((prev =? 0) && (next =? 0) = false) as ->.
  { apply andb_false_iff. destruct i as [|j].
    - right. destruct (lookup_lt_is_Some_2 L 1) as [[q F'] Hq]; [lia|]. assert (slab_at G c 1 q F') as Hatq by (by exists L).
      destruct (slab_at_page _ _ _ _ _ _ _ _ Hi Hatq) as (_ & ? & _). unfold next, next_of. rewrite Hq. cbn. lia.
    - left. destruct (lookup_lt_is_Some_2 L j) as [[q F'] Hq]; [apply lookup_lt_Some in HL; lia|].
      assert (slab_at G c j q F') as Hatq by (by exists L).
      destruct (slab_at_page _ _ _ _ _ _ _ _ Hi Hatq) as (_ & ? & _). unfold prev, prev_of. rewrite Hq. cbn. lia. }
  eapply (wp_unlink_slab c sc prev next (λ _, _)); [exact Hs|exact Hsc|done|done|rewrite Hnum; lia| | |].
  { intros Hz. by apply (Hnb prev 16 Hz (Hprev Hz)). }
  { intros Hz. by apply (Hnb next 24 Hz (Hnext Hz)). }
  intros st1 Hs1. apply wp_zoom. pose proof Hs1 as (Hi1 & Hr1 & Hw1 & Hc1).
  assert (∀ a, in_pages p 1 a → unlink_words m prev next a = m a) as Hin.
  { intros a Ha. unfold unlink_words. destruct (Z.eqb_spec prev 0), (Z.eqb_spec next 0); [done|..].
    - apply upd_ne. intros ->. by apply (Hnb next 24 ltac:(done) (Hnext ltac:(done))).
    - apply upd_ne. intros ->. by apply (Hnb prev 16 ltac:(done) (Hprev ltac:(done))).
    - rewrite !upd_ne; [done| |]; intros ->; [by apply (Hnb prev 16 ltac:(done) (Hprev ltac:(done)))|by apply (Hnb next 24 ltac:(done) (Hnext ltac:(done)))]. }
  eapply wp_mono; [apply km_free_page_ok; [done|done|]|done|].
  { intros a Ha H8. rewrite Hw1, Hin by done. auto. }
  intros [] s2 (Hi2 & Hr2 & Hw2). set (m' := λ b, if decide (in_pages p 1 b) then None else unlink_words m prev next b).
  assert (∀ a, ¬ in_pages p 1 a → m' a = unlink_words m prev next a) as Hm' by (intros a Ha; unfold m'; by rewrite decide_False).
  apply (HQ _ m' (<[c := with_num_slabs (sc_num_slabs sc - 1) (if prev =? 0 then with_first_slab next sc else sc)]> cl)).
  - split_and!; [done|cbn; lia| |done]. intros b. cbn. rewrite Hw2. unfold m'. by rewrite Hw1.
  - assert ((if prev =? 0 then with_first_slab next sc else sc) = (if decide (i = 0%nat) then with_first_slab (next_of L i) sc else sc)) as ->.
    { case_decide as Hi0; [by subst|]. destruct i as [|j]; [done|]. destruct (lookup_lt_is_Some_2 L j) as [[q F'] Hq]; [apply lookup_lt_Some in HL; lia|].
      assert (slab_at G c j q F') as Hatq by (by exists L). destruct (slab_at_page _ _ _ _ _ _ _ _ Hi Hatq) as (_ & ? & _).
      unfold prev, prev_of. rewrite Hq. cbn [page_of fst]. by rewrite (proj2 (Z.eqb_neq q 0)) by lia. }
    eapply heap_inv_delete; [done..| | | |done].
    + intros a Ha H16 H24. fold prev next in H16, H24. rewrite Hm' by done. unfold unlink_words.
      destruct (Z.eqb_spec prev 0), (Z.eqb_spec next 0); rewrite ?upd_ne by auto; done.
    + fold prev next. intros Hz. rewrite Hm' by (by apply (Hnb prev 16 Hz (Hprev Hz))). unfold unlink_words.
      rewrite (proj2 (Z.eqb_neq prev 0)) by done. destruct (next =? 0); [|rewrite upd_ne by lia]; apply upd_eq.
    + fold prev next. intros Hz. rewrite Hm' by (by apply (Hnb next 24 Hz (Hnext Hz))). unfold unlink_words.
      rewrite (proj2 (Z.eqb_neq next 0)) by done. apply upd_eq.
  - intros b Hcw Hnin. rewrite Hm' by done. unfold unlink_words.
    assert (∀ q k, q ≠ 0 → (∃ j F', slab_at G c j q F' ∧ j ≠ i) → 0 ≤ k < SLAB_HEADER → b ≠ q + k) as Hb.
    { intros q k _ (j & F' & Hatj & _) Hk ->. by eapply header_not_client. }
    destruct (Z.eqb_spec prev 0), (Z.eqb_spec next 0); rewrite ?upd_ne; try done; apply Hb; auto; unfold SLAB_HEADER; lia.
Qed.
(** What freeing the region [x] of [l] bytes does. *)
Record released m G m' G' x l : Prop := {
  re_live y k : live G' y k ↔ live G y k ∧ y ≠ x;
  re_kept b : is_Some (m b) → client_word G b → ¬ (x ≤ b < x + l) → m' b = m b;
  re_pages c i p F : slab_at G' c i p F → ∃ c' i' F', slab_at G c' i' p F';
}.

(** Freeing [x] leaves the other clients' words with their clients. *)
Lemma client_not_freed m cl r G G1 x l : heap_inv m cl r G → live G x l →
  (∀ y k, live G1 y k ↔ live G y k ∧ y ≠ x) →
  (∀ c i p F, slab_at G1 c i p F → ∃ c' i' F', slab_at G c' i' p F') →
  ∀ b, client_word G b → ¬ (x ≤ b < x + l) → client_word G1 b.
Proof.
  intros Hi Hx Hlive Hpages b [Hno|(y & k & Hy & Hb)] Hbx; [left|right].
  - intros c i p F Hat. destruct (Hpages _ _ _ _ Hat) as (c' & i' & F' & Hat'). by eapply Hno.
  - exists y, k. split; [|done]. apply Hlive. split; [done|]. intros ->.
    destruct (live_apart _ _ _ _ x k x l x Hi Hy Hx) as [_ ->]; [|pose proof (live_size _ _ _ _ _ _ Hi Hx); lia|done]. lia.
Qed.

(** Unmapping the slab that freeing [x] emptied releases nothing else. *)
Lemma released_delete m cl r G m1 G1 m' c L i p F x l : heap_inv m cl r G → live G x l → released m G m1 G1 x l →
  heap_inv m1 cl r G1 → G1 !! c = Some L → L !! i = Some (p, F) → Z.of_nat (length F) = cchunks c →
  (∀ b, client_word G1 b → ¬ in_pages p 1 b → m' b = m1 b) → released m G m' (<[c := delete i L]> G1) x l.
Proof.
  intros Hi Hx [Hlive Hkept Hpages] Hi1 Hc HL Hfull Hk. assert (slab_at G1 c i p F) as Hat by (by exists L). split.
  - intros y k. rewrite <- Hlive. eapply live_delete; [done..|exact Hfull].
  - intros b Hb Hcw Hbx. rewrite <- (Hkept b Hb Hcw Hbx).
    destruct (client_not_freed _ _ _ _ _ _ _ Hi Hx Hlive Hpages b Hcw Hbx) as [Hno|(y & k & Hy & Hyb)].
    + apply Hk; [by left|by eapply Hno].
    + apply Hk; [right; eauto|]. by eapply (full_not_live m1 cl r G1).
  - intros c' i' p' F' Hat'. apply slab_at_delete in Hat'; [|done]. by eapply Hpages.
Qed.

(** The memory after a chunk goes back to the free list of its slab. *)
Definition give_chunk m p h x w n : Z → option Z := upd (upd (upd m x h) (p + 8) x) (p + 32) (set_field 8 8 n w).

Lemma heap_inv_give m cl r G c L i p F x h w : heap_inv m cl r G → G !! c = Some L → L !! i = Some (p, F) →
  x ∈ chunks c p → x ∉ F → m (p + 8) = Some h → m (p + 32) = Some w →
  let m' := give_chunk m p h x w (Z.of_nat (S (length F))) in let G' := <[c := <[i := (p, x :: F)]> L]> G in
  heap_inv m' cl r G' ∧ released m G m' G' x (csize c) ∧ Z.of_nat (S (length F)) ≤ cchunks c.
Proof.
  intros Hi Hc HL Hx HxF Hh Hw m' G'. assert (slab_at G c i p F) as Hat by (by exists L).
  pose proof (slab_at_lt _ _ _ _ _ _ _ _ Hi Hat) as Hc6. destruct (slab_at_ok _ _ _ _ _ _ _ _ Hi Hat) as (prev & next & Hok).
  pose proof Hok as [(Hp & Hp1 & Hp2) Hmap Hmg _ _ _ (w' & Hw' & Hw0 & Hw8) Hnd Hsub].
  assert (w' = w) as -> by congruence.
  destruct (slab_chunk _ _ _ _ _ _ x Hc6 Hok Hx) as (Hlo & Hhi & Hx8 & Hx0). destruct (geometry c Hc6) as (Hsz & _ & Hn & _).
  unfold SLAB_HEADER in *.
  assert (Z.of_nat (length (x :: F)) ≤ cchunks c) as Hlen.
  { rewrite <- (length_chunks c p Hc6). apply inj_le, submseteq_length, NoDup_submseteq; [by constructor|].
    intros y [->|Hy]%elem_of_cons; [done|by apply Hsub]. }
  cbn [length] in Hlen.
  assert (∀ a, a ≠ x → a ≠ p + 8 → a ≠ p + 32 → m' a = m a) as Hm' by (intros; unfold m', give_chunk; by rewrite !upd_ne).
  split_and!; [| |done].
  - apply (heap_inv_slab m _ cl r G c i p F); [done..| |].
    + intros a Ha. apply Hm'; intros ->; apply Ha; unfold in_pages; lia.
    + intros pr nx Hok'. eapply (slab_give m m'); [done| |exact Hh| | |apply upd_eq| | |exact Hx|exact HxF|exact Hok'].
      * intros a _. apply Hm'.
      * unfold m', give_chunk. rewrite !upd_ne by lia. apply upd_eq.
      * unfold m', give_chunk. rewrite upd_ne by lia. apply upd_eq.
      * rewrite get_set_field_other by lia. done.
      * apply get_set_field_same; [lia..|]. change (2 ^ 8) with 256. lia.
  - split.
    + intros. by eapply live_give.
    + intros b _ Hcw Hb. apply Hm'; [lia|intros ->|intros ->].
      * by apply (header_not_client _ _ _ _ _ _ _ _ 8 Hi Hat).
      * by apply (header_not_client _ _ _ _ _ _ _ _ 32 Hi Hat).
    + intros c' i' p' F' Hat'. apply (slab_at_insert G c i p F) in Hat' as [(-> & -> & -> & ->)|(_ & Hat')]; eauto.
Qed.

Lemma wp_slab_free x l G st m r cl (Q : unit → slabs P → Prop) : sees st m r cl → heap_inv m cl r G → live G x l → 0 ≤ r →
  (∀ st' m' cl' G', sees st' m' r cl' → heap_inv m' cl' r G' → released m G m' G' x l → Q () st') →
  wp (slab_free x) False Q st.
Proof.
  intros Hs Hi Hxl Hr HQ. pose proof Hxl as (c & i & p & F & Hat & Hx & HxF & ->).
  pose proof (slab_at_lt _ _ _ _ _ _ _ _ Hi Hat) as Hc6.
  pose proof Hat as (L & Hc & HL). destruct (slab_at_ok _ _ _ _ _ _ _ _ Hi Hat) as (prev & next & Hok).
  pose proof Hok as [(Hp & Hp1 & Hp2) Hmap Hmg (h & Hh & _) _ _ (w & Hw & Hw0 & Hw8) _ _].
  destruct (slab_chunk _ _ _ _ _ _ x Hc6 Hok Hx) as (Hlo & Hhi & Hx8 & Hx0). destruct (geometry c Hc6) as (Hsz & _ & Hn & _).
  unfold SLAB_HEADER in *. assert (in_pages p 1 x) as Hxin by (unfold in_pages; lia).
  destruct (heap_inv_give m cl r G c L i p F x h w) as (Hi3 & Hre & Hlen); [done..|].
  unfold slab_free. eapply wp_try_get_slab; [exact Hs|done..|by rewrite Hmg|]. rewrite bool_decide_true by done.
  rewrite (proj2 (Z.eqb_neq p 0)) by lia.
  unfold ld_class_index. eapply wp_ld_byte; [exact Hs|exact Hw|]. rewrite Hw0.
  unfold ld_free_head. eapply wp_ld; [exact Hs|exact Hh|].
  eapply wp_st; [exact Hs|by apply Hmap|]. intros st1 Hs1.
  unfold st_free_head. eapply wp_st; [exact Hs1|rewrite upd_ne by lia; by eexists|]. intros st2 Hs2.
  unfold ld_free_chunks at 1. eapply wp_ld_byte; [exact Hs2|rewrite !upd_ne by lia; exact Hw|]. rewrite Hw8.
  unfold st_free_chunks. eapply wp_st_byte; [exact Hs2|rewrite !upd_ne by lia; exact Hw|]. intros st3 Hs3.
  replace (wrap8 (Z.of_nat (length F) + 1)) with (Z.of_nat (S (length F))) in Hs3 by wrap_lia.
  fold (give_chunk m p h x w (Z.of_nat (S (length F)))) in Hs3.
  set (m3 := give_chunk _ _ _ _ _ _) in *. set (G1 := <[c := <[i := (p, x :: F)]> L]> G) in *.
  assert (G1 !! c = Some (<[i := (p, x :: F)]> L)) as Hc1 by (apply list_lookup_insert_eq; by eapply lookup_lt_Some).
  assert (<[i := (p, x :: F)]> L !! i = Some (p, x :: F)) as HL1 by (apply list_lookup_insert_eq; by eapply lookup_lt_Some).
  destruct (hi_class _ _ _ _ Hi3 c _ Hc1) as (sc & Hsc & Hcl). pose proof (class_fields _ _ _ _ Hcl) as (_ & _ & Fn & _ & F5).
  rewrite length_insert in Fn. rewrite Nat2Z.id. eapply wp_get_class; [exact Hs3|exact Hsc|]. rewrite Fn, F5.
  unfold ld_free_chunks. eapply wp_ld_byte; [exact Hs3|apply upd_eq|].
  rewrite get_set_field_same by (try lia; change (2 ^ 8) with 256; lia).
  destruct (Z.eqb_spec (Z.of_nat (S (length F))) (cchunks c)) as [Hfull|]; cbn [andb]; [destruct (Z.ltb_spec 1 (Z.of_nat (length L)))|].
  - eapply (wp_destroy_slab G1 c _ i p (x :: F)); [exact Hs3|done..|rewrite length_insert; lia|done|].
    intros st4 m4 cl4 Hs4 Hi4 Hk4. eapply HQ; [exact Hs4|exact Hi4|]. by eapply (released_delete m cl r G m3 G1 m4).
  - apply wp_ret. by eapply HQ.
  - apply wp_ret. by eapply HQ.
Qed.
End proofs.
