(* ===== verification/Kmalloc.v ===== *)
(** * kmalloc and kfree as an abstract heap

    Clients of [kmalloc] see a heap of regions: [R] maps the address of each allocated region to its
    length.  A request of at most 1024 bytes is a chunk of a slab, a larger one takes whole pages with
    their number in the word in front.  Both refine the heap of regions: a new region overlaps no other,
    [kfree] takes away just the region it is given, and no word of another region changes.

    The proofs use only the laws of [KMem.v]. *)

From S2P Require Import Prelude KMem Slab SlabInv SlabProofs.

Section heap.
Implicit Types (m : Z → option Z) (cl : list SizeClass) (G : list slab_list) (B : list (Z * Z)) (R : gmap Z Z)
  (x l v n a b r : Z).

(** ** Words of clients *)

Lemma slab_ok_client m m' c p F prev next : (c < 6)%nat → slab_ok m c p F prev next →
  (∀ a, in_pages p 1 a → (∀ y, y ∈ chunks c p → y ∉ F → ¬ (y ≤ a < y + csize c)) → m' a = m a) →
  (∀ a, in_pages p 1 a → is_Some (m a) → is_Some (m' a)) → slab_ok m' c p F prev next.
Proof.
  intros Hc Hs Hm Hsome. pose proof Hs as [Hp Hmap Hmg (h & Hh & Hch) Hn Hpr (w & Hw & Hb) Hnd Hsub].
  assert (∀ k, 0 ≤ k < SLAB_HEADER → m' (p + k) = m (p + k)) as Hhdr.
  { unfold SLAB_HEADER. intros k Hk. apply Hm; [unfold in_pages; lia|]. intros y Hy _.
    destruct (slab_chunk _ _ _ _ _ _ y Hc Hs Hy) as (Hlo & _). unfold SLAB_HEADER in *. lia. }
  unfold SLAB_HEADER in Hhdr. split; try done; try (rewrite Hhdr by lia; done).
  - intros a Ha H8. auto.
  - rewrite <- (Z.add_0_r p). rewrite Hhdr by lia. by rewrite Z.add_0_r.
  - exists h. rewrite Hhdr by lia. split; [done|]. eapply free_chain_frame; [|done]. intros x Hx.
    destruct (slab_chunk _ _ _ _ _ _ x Hc Hs) as (? & ? & _); [auto|]. destruct (geometry c Hc) as (Hsz & _).
    unfold SLAB_HEADER in *. apply Hm; [unfold in_pages; lia|]. intros y Hy HyF Hin.
    assert (x = y) as ->; [|done]. apply (chunks_apart c p x y x); [done|auto|done|lia|done].
  - exists w. by rewrite Hhdr by lia.
Qed.

(** The invariant depends neither on the words of clients nor on pages outside the slabs. *)
Lemma heap_inv_client m m' cl r r' G : heap_inv m cl r G → r' ≤ r →
  (∀ b, ¬ client_word G b → m' b = m b) →
  (∀ c i p F b, slab_at G c i p F → in_pages p 1 b → is_Some (m b) → is_Some (m' b)) → heap_inv m' cl r' G.
Proof.
  intros Hi Hr Hm Hsome. pose proof Hi as [Hlen Hcl Hinj Hroom]. split; [done| |done|].
  - intros c L Hc. destruct (Hcl c L Hc) as (sc & Hsc & [Hclass Hslab]). exists sc. split; [done|]. split; [done|].
    intros i p F HL. assert (slab_at G c i p F) as Hat by (by exists L).
    eapply slab_ok_client; [by eapply heap_class_lt|by apply Hslab| |by eauto].
    intros a Ha Hno. apply Hm. intros [Hout|(x & l & (c' & i' & p' & F' & Hat' & Hx & HxF & ->) & Hb)]; [by eapply Hout|].
    pose proof (slab_at_lt _ _ _ _ _ _ _ _ Hi Hat') as Hc'.
    destruct (slab_at_page _ _ _ _ _ _ _ _ Hi Hat') as (Hp' & _).
    destruct (chunk_range _ _ _ Hc' Hp' Hx) as (? & ? & _). unfold SLAB_HEADER in *.
    destruct (slabs_apart _ _ _ _ _ _ _ _ _ _ _ _ a Hi Hat Hat') as (-> & -> & ->); [done|unfold in_pages; lia|].
    destruct (slab_at_fun _ _ _ _ _ _ _ Hat Hat') as [_ ->]. by eapply Hno.
  - intros c L Hc. pose proof (Hroom c L Hc). lia.
Qed.

(** ** Large allocations *)

(** [n] pages from [v], with their number in the first word; the client has the rest. *)
Record big_ok m G v n : Prop := {
  bo_page : v mod 4096 = 0 ∧ 4096 ≤ v ∧ v + n * 4096 ≤ 2 ^ 64;
  bo_pages : 1 ≤ n;
  bo_count : m v = Some n;
  bo_mapped a : in_pages v n a → a mod 8 = 0 → is_Some (m a);
  bo_apart c i p F : slab_at G c i p F → ¬ in_pages v n p;
}.

Record bigs_ok m G B : Prop := {
  bs_ok v n : (v, n) ∈ B → big_ok m G v n;
  bs_apart v n v' n' a : (v, n) ∈ B → (v', n') ∈ B → in_pages v n a → in_pages v' n' a → v = v' ∧ n = n';
}.

Lemma big_no_slab m m' cl r G G' v n a c i p F : heap_inv m' cl r G → big_ok m G' v n → slab_at G c i p F →
  ¬ in_pages v n p → in_pages v n a → ¬ in_pages p 1 a.
Proof.
  intros Hi [(Hv & _) Hn _ _ _] Hat Hno Ha Hin. destruct (slab_at_page _ _ _ _ _ _ _ _ Hi Hat) as (Hp & _).
  apply Hno. unfold in_pages in *. lia.
Qed.

Lemma big_client m cl r G v n a : heap_inv m cl r G → big_ok m G v n → in_pages v n a → client_word G a.
Proof. intros Hi Hb Ha. left. intros c i p F Hat. eapply big_no_slab; eauto. by eapply bo_apart. Qed.

(** ** Regions *)

Definition region G B x l : Prop := live G x l ∨ ∃ v n, (v, n) ∈ B ∧ x = v + 8 ∧ l = n * 4096 - 8.

Lemma live_big_apart m cl r G B x l v n b : heap_inv m cl r G → bigs_ok m G B → live G x l → (v, n) ∈ B →
  x ≤ b < x + l → ¬ in_pages v n b.
Proof.
  intros Hi HB (c & i & p & F & Hat & Hx & _ & ->) Hin Hb Hv. pose proof (bs_ok _ _ _ HB _ _ Hin) as Hok.
  destruct (slab_at_page _ _ _ _ _ _ _ _ Hi Hat) as (Hp & _).
  destruct (chunk_range _ _ _ (slab_at_lt _ _ _ _ _ _ _ _ Hi Hat) Hp Hx) as (? & ? & _). unfold SLAB_HEADER in *.
  eapply (big_no_slab m m); [exact Hi|exact Hok|exact Hat|by eapply bo_apart|exact Hv|]. unfold in_pages. lia.
Qed.

(** Regions are aligned, mapped and do not overlap. *)
Lemma region_range m cl r G B x l : heap_inv m cl r G → bigs_ok m G B → region G B x l →
  0 < x ∧ 0 < l ∧ x mod 8 = 0 ∧ ∀ a, x ≤ a < x + l → client_word G a ∧ (a mod 8 = 0 → is_Some (m a)).
Proof.
  intros Hi HB [Hx|(v & n & Hin & -> & ->)].
  - pose proof (live_size _ _ _ _ _ _ Hi Hx). assert (0 < x ∧ x mod 8 = 0) as [].
    { destruct Hx as (c & i & p & F & Hat & Hx & _ & _). destruct (slab_at_ok _ _ _ _ _ _ _ _ Hi Hat) as (? & ? & Hok).
      by destruct (slab_chunk _ _ _ _ _ _ x (slab_at_lt _ _ _ _ _ _ _ _ Hi Hat) Hok Hx) as (_ & _ & ? & ?). }
    split_and!; [done|lia|done|]. intros a Ha. split; [right; eauto|]. by eapply live_mapped.
  - pose proof (bs_ok _ _ _ HB _ _ Hin) as Hok. pose proof Hok as [(Hv & Hv1 & _) Hn _ Hmap _].
    split_and!; [lia..|]. intros a Ha. assert (in_pages v n a) by (unfold in_pages; lia). split; [by eapply big_client|auto].
Qed.

Lemma region_apart m cl r G B x l y k b : heap_inv m cl r G → bigs_ok m G B → region G B x l → region G B y k →
  x ≤ b < x + l → y ≤ b < y + k → x = y ∧ l = k.
Proof.
  intros Hi HB [Hx|(v & n & Hin & -> & ->)] [Hy|(v' & n' & Hin' & -> & ->)] Hb Hb'.
  - by eapply live_apart.
  - destruct (live_big_apart _ _ _ _ _ _ _ _ _ b Hi HB Hx Hin'); [done|unfold in_pages; lia].
  - destruct (live_big_apart _ _ _ _ _ _ _ _ _ b Hi HB Hy Hin); [done|unfold in_pages; lia].
  - destruct (bs_apart _ _ _ HB v n v' n' b) as [-> ->]; [done..|unfold in_pages; lia|unfold in_pages; lia|done].
Qed.

(** Large allocations survive changes elsewhere. *)
Lemma big_frame m m' G G' v n : big_ok m G v n → (∀ a, in_pages v n a → is_Some (m a) → m' a = m a) →
  (∀ c i p F, slab_at G' c i p F → ¬ in_pages v n p) → big_ok m' G' v n.
Proof.
  intros [Hv Hn Hc Hmap _] Hm Hno. split; try done.
  - rewrite Hm; [done|unfold in_pages; lia|by rewrite Hc].
  - intros a Ha H8. rewrite Hm by auto. auto.
Qed.

Lemma bigs_frame m m' G G' B : bigs_ok m G B → (∀ v n a, (v, n) ∈ B → in_pages v n a → is_Some (m a) → m' a = m a) →
  (∀ v n c i p F, (v, n) ∈ B → slab_at G' c i p F → ¬ in_pages v n p) → bigs_ok m' G' B.
Proof.
  intros [Hok Hap] Hm Hno. split; [|done]. intros v n Hin. eapply big_frame; [by apply Hok|by eauto|by eauto].
Qed.
End heap.

(** ** The abstract heap *)

(** Allocated regions with their lengths, the words in them, and how many pages may still be taken. *)
Record aheap := mk_aheap {
  ah_regions : gmap Z Z;
  ah_word : Z → Z;
  ah_room : Z;
}.

Inductive heap_op :=
  | Malloc (size : Z)
  | Free (ptr : Z)
  | Store (a w : Z)
  | Load (a : Z).

(** [a] is an aligned word of an allocated region. *)
Definition owned (R : gmap Z Z) (a : Z) : Prop := a mod 8 = 0 ∧ ∃ x l, R !! x = Some l ∧ x ≤ a < x + l.

(** The pages a request may take: a slab, or the pages of a large allocation. *)
Definition cost (size : Z) : Z := Z.max 1 (pages_for size).

(** What a client may ask for. *)
Definition allowed (A : aheap) (o : heap_op) : Prop :=
  match o with
  | Malloc size => 0 ≤ size < 2 ^ 63 ∧ (size ≠ 0 → cost size ≤ ah_room A)
  | Free x => x = 0 ∨ is_Some (ah_regions A !! x)
  | Store a _ | Load a => owned (ah_regions A) a
  end.

Inductive hstep : aheap → heap_op → Z → aheap → Prop :=
  | hs_malloc_zero A : hstep A (Malloc 0) 0 A
  | hs_malloc R W r size x l W' r' :
      size ≤ l → 0 < x → x mod 8 = 0 → r - cost size ≤ r' →
      (∀ y k, R !! y = Some k → x + l ≤ y ∨ y + k ≤ x) → (∀ a, owned R a → W' a = W a) →
      hstep (mk_aheap R W r) (Malloc size) x (mk_aheap (<[x := l]> R) W' r')
  | hs_free_null A : hstep A (Free 0) 0 A
  | hs_free R W r x l W' : R !! x = Some l → (∀ a, owned (delete x R) a → W' a = W a) →
      hstep (mk_aheap R W r) (Free x) 0 (mk_aheap (delete x R) W' r)
  | hs_store R W r a w : hstep (mk_aheap R W r) (Store a w) 0 (mk_aheap R (λ b, if b =? a then w else W b) r)
  | hs_load A a : hstep A (Load a) (ah_word A a) A.

Section ops.
Context {P : Type} `{!KernelMemory P, !KernelMemoryLaws P}.
Implicit Types (st : slabs P) (m : Z → option Z) (cl : list SizeClass) (G : list slab_list) (B : list (Z * Z))
  (R : gmap Z Z) (x l v n a b r : Z).

Definition run_op (o : heap_op) : M (slabs P) Z :=
  match o with
  | Malloc size => kmalloc size
  | Free x => _ ← kfree x; mret 0
  | Store a w => _ ← on_mem (km_store a w); mret 0
  | Load a => on_mem (km_load a)
  end.

(** The slabs [G] and large allocations [B] that stand for the regions [R]; at least [r] pages are left. *)
Definition holds st r R G B : Prop :=
  sees st (km_word (sl_mem st)) r (sl_classes st) ∧ 0 ≤ r ∧
  heap_inv (km_word (sl_mem st)) (sl_classes st) r G ∧
  bigs_ok (km_word (sl_mem st)) G B ∧ ∀ x l, R !! x = Some l ↔ region G B x l.

Definition is_heap st (A : aheap) : Prop :=
  (∃ G B, holds st (ah_room A) (ah_regions A) G B) ∧
  ∀ a, owned (ah_regions A) a → km_word (sl_mem st) a = Some (ah_word A a).

Lemma sees_self st r : km_inv (sl_mem st) → r ≤ km_room (sl_mem st) → sees st (km_word (sl_mem st)) r (sl_classes st).
Proof. by intros. Qed.

Lemma sees_holds st m r cl R G B : sees st m r cl → 0 ≤ r → heap_inv m cl r G → bigs_ok m G B →
  (∀ x l, R !! x = Some l ↔ region G B x l) → holds st r R G B.
Proof.
  intros (Hi & Hr & Hw & Hc) H0 Hh HB HR. split_and!; [by split_and!|done| | |done].
  - rewrite Hc. eapply heap_inv_client; [done|lia|by auto|]. intros. by rewrite Hw.
  - eapply bigs_frame; [done|by auto|]. intros v n c i p F Hin Hat. by eapply bo_apart; [apply HB|].
Qed.

(** Words of owned regions are the clients'. *)
Lemma owned_client st r R G B a : holds st r R G B → owned R a → client_word G a ∧ is_Some (km_word (sl_mem st) a).
Proof.
  intros (_ & _ & Hi & HB & HR) (H8 & x & l & Hx & Ha).
  destruct (region_range _ _ _ _ _ x l Hi HB) as (_ & _ & _ & Hw); [by apply HR|]. destruct (Hw a Ha). auto.
Qed.

(** ** Allocation *)

Lemma slab_malloc st r R G B size : holds st r R G B → size ≤ 1024 → 1 ≤ r →
  wp (slab_alloc size) False (λ x st', ∃ l r' G', size ≤ l ∧ R !! x = None ∧ holds st' r' (<[x := l]> R) G' B ∧ r - 1 ≤ r' ∧
    ∀ a, owned R a → km_word (sl_mem st') a = km_word (sl_mem st) a) st.
Proof.
  intros Hh Hsize Hr. pose proof Hh as (Hinv & _ & Hi & HB & HR).
  eapply wp_slab_alloc; [exact Hinv|exact Hi|done..|].
  intros st' m' cl' r' G' x l Hs' Hi' [Hroom Hl Hlive Hnew Hkept Hpages].
  assert (bigs_ok m' G' B) as HB'.
  { eapply bigs_frame; [exact HB| |].
    - intros v n a Hin Ha Hsome. apply Hkept; [done|]. eapply big_client; [done|by apply HB|done].
    - intros v n c i p F Hin Hat Hp. destruct (bs_ok _ _ _ HB _ _ Hin) as [(Hv & _) _ _ Hmap Hno].
      destruct (slab_at_page _ _ _ _ _ _ _ _ Hi' Hat) as (Hp4 & _).
      destruct (Hpages c i p F p Hat) as (c0 & i0 & F0 & Hat0); [unfold in_pages; lia|apply Hmap; [done|lia]|].
      by eapply Hno. }
  assert (live G' x l) as Hx by (apply Hlive; auto).
  assert (R !! x = None) as HxR.
  { destruct (R !! x) as [k|] eqn:Hk; [|done]. apply HR in Hk as [Hk|(v & n & Hin & -> & ->)]; [by apply Hnew in Hk|].
    pose proof (live_size _ _ _ _ _ _ Hi' Hx). destruct (bs_ok _ _ _ HB _ _ Hin) as [_ Hn _ _ _].
    destruct (live_big_apart _ _ _ _ _ _ _ _ _ (v + 8) Hi' HB' Hx Hin); [lia|unfold in_pages; lia]. }
  exists l, r', G'. split_and!; [done..| |lia|].
  - eapply sees_holds; [exact Hs'|lia|done..|]. intros y k. rewrite lookup_insert_Some, HR. unfold region. rewrite Hlive.
    split; [naive_solver|]. intros [[[-> ->]|Hy]|Hy]; [auto|right..].
    + split; [|by left]. intros <-. by eapply Hnew.
    + split; [|by right]. intros <-. assert (R !! x = Some k) by (apply HR; by right). congruence.
  - intros a Ha. destruct (owned_client _ _ _ _ _ _ Hh Ha) as [Hc Hw]. destruct Hs' as (_ & _ & -> & _). by apply Hkept.
Qed.

(** New pages lie away from everything that is mapped. *)
Lemma holds_fresh st r R G B v n : holds st r R G B → v mod 4096 = 0 →
  (∀ a, in_pages v n a → km_word (sl_mem st) a = None) →
  (∀ c i p F a, slab_at G c i p F → in_pages p 1 a → ¬ in_pages v n a) ∧
  (∀ v' n' a, (v', n') ∈ B → in_pages v' n' a → ¬ in_pages v n a).
Proof.
  intros (_ & _ & Hi & HB & _) Hv Hnone. split.
  - intros c i p F a Hat Ha Hin. destruct (slab_at_ok _ _ _ _ _ _ _ _ Hi Hat) as (? & ? & [(Hp & _) _ Hmg _ _ _ _ _ _]).
    rewrite Hnone in Hmg; [done|]. unfold in_pages in *. lia.
  - intros v' n' a Hin' Ha Hin. destruct (bs_ok _ _ _ HB _ _ Hin') as [(Hv' & _) _ _ Hmap _].
    destruct (Hmap (a - a mod 4096)) as [w Hw]; [unfold in_pages in *; lia|lia|].
    rewrite Hnone in Hw; [done|]. unfold in_pages in *. lia.
Qed.

Lemma big_malloc st r R G B size : holds st r R G B → 0 < size < 2 ^ 63 → pages_for size ≤ r →
  wp (on_mem (km_alloc size)) False (λ x st', ∃ l B', size ≤ l ∧ R !! x = None ∧
    holds st' (r - pages_for size) (<[x := l]> R) G B' ∧
    ∀ a, owned R a → km_word (sl_mem st') a = km_word (sl_mem st) a) st.
Proof.
  intros Hh Hsize Hr. pose proof Hh as (Hinv & _ & Hi & HB & HR). unfold on_mem. apply wp_zoom.
  destruct Hinv as (Hinv & Hroom & _). eapply wp_mono; [apply km_alloc_ok; [done..|lia]|done|].
  intros x s' (v & -> & Hinv' & Hr' & Hv & Hv1 & Hv2 & Hnew & Hcount & Hold). cbn [sl_mem].
  set (n := pages_for size) in *. assert (1 ≤ n ∧ size + 8 ≤ n * 4096) as [Hn Hfit] by (unfold n, pages_for; lia).
  destruct (holds_fresh st r R G B v n) as [Hslab Hbig]; [done..|by intros; apply Hnew|].
  assert (R !! (v + 8) = None) as HxR.
  { destruct (R !! (v + 8)) as [k|] eqn:Hk; [|done]. apply HR in Hk.
    destruct (region_range _ _ _ _ _ _ _ Hi HB Hk) as (_ & Hk0 & H8 & Hw). destruct (Hw (v + 8)) as [_ Hsome]; [lia|].
    destruct (Hsome H8) as [w Hw8]. destruct (Hnew (v + 8)) as [Hno _]; [unfold in_pages; lia|]. congruence. }
  exists (n * 4096 - 8), ((v, n) :: B). split_and!; [lia|done| |].
  - eapply (sees_holds _ (km_word s')); [apply (sees_self (mk_slabs s' (sl_classes st))); [done|cbn; lia]|lia|..].
    + eapply heap_inv_client; [exact Hi|lia| |].
      * intros b Hb. apply Hold. intros Hin. apply Hb. left. intros c i p F Hat Hp. by eapply Hslab.
      * intros c i p F b Hat Hb. rewrite Hold; [done|]. by eapply Hslab.
    + split.
      * intros v' n' [[= -> ->]|Hin]%elem_of_cons.
        -- split; [done..| |]; [by intros; apply Hnew|]. intros c i p F Hat Hp.
           eapply Hslab; [exact Hat| |exact Hp]. unfold in_pages. lia.
        -- eapply big_frame; [by apply HB| |by apply HB]. intros a Ha _. apply Hold. by eapply Hbig.
      * intros v1 n1 v2 n2 a [[= -> ->]|H1]%elem_of_cons [[= -> ->]|H2]%elem_of_cons Ha1 Ha2; [done|..].
        -- by destruct (Hbig _ _ _ H2 Ha2).
        -- by destruct (Hbig _ _ _ H1 Ha1).
        -- by eapply (bs_apart _ _ _ HB).
    + intros y k. rewrite lookup_insert_Some, HR. unfold region. setoid_rewrite elem_of_cons.
      split; [naive_solver|]. intros [Hy|(v' & n' & [[= -> ->]|Hin] & -> & ->)]; [right|auto|right].
      * split; [|by left]. intros <-. assert (R !! (v + 8) = Some k) by (apply HR; by left). congruence.
      * assert (R !! (v' + 8) = Some (n' * 4096 - 8)) as Hy by (apply HR; right; eauto).
        split; [intros Heq; rewrite Heq in HxR; congruence|right; eauto].
  - intros a (H8 & y & k & Hy & Ha). apply Hold. intros Hin. apply HR in Hy.
    destruct (region_range _ _ _ _ _ _ _ Hi HB Hy) as (_ & _ & _ & Hw). destruct (Hw a Ha) as [_ Hs].
    destruct (Hs H8) as [w Hw']. destruct (Hnew a Hin). congruence.
Qed.

(** ** Freeing *)

Lemma owned_delete R x l a : R !! x = Some l → owned (delete x R) a → owned R a.
Proof.
  intros _ (H8 & y & k & Hy & Ha). apply lookup_delete_Some in Hy as [_ Hy]. split; [done|]. eauto.
Qed.

(** A word of another region lies outside the one freed. *)
Lemma owned_apart st r R G B x l a : holds st r R G B → R !! x = Some l → owned (delete x R) a → ¬ (x ≤ a < x + l).
Proof.
  intros (_ & _ & Hi & HB & HR) Hx (_ & y & k & Hy & Ha) Hin. apply lookup_delete_Some in Hy as [Hne Hy].
  apply HR in Hx, Hy. by destruct (region_apart _ _ _ _ _ _ _ _ _ a Hi HB Hx Hy Hin Ha).
Qed.

Lemma slab_kfree st r R G B x l : holds st r R G B → live G x l →
  wp (slab_free x) False (λ _ st', ∃ G', holds st' r (delete x R) G' B ∧
    ∀ a, owned (delete x R) a → km_word (sl_mem st') a = km_word (sl_mem st) a) st.
Proof.
  intros Hh Hx. pose proof Hh as (Hinv & Hr & Hi & HB & HR). assert (R !! x = Some l) as HxR by (apply HR; by left).
  eapply wp_slab_free; [exact Hinv|exact Hi|exact Hx|done|].
  intros st' m' cl' G' Hs' Hi' [Hlive Hkept Hpages]. pose proof (live_size _ _ _ _ _ _ Hi Hx) as Hl.
  exists G'. split_and!.
  - eapply sees_holds; [exact Hs'|done..| |].
    + eapply bigs_frame; [exact HB| |].
      * intros v n a Hin Ha Hsome. apply Hkept; [done|by eapply big_client; [..|apply HB|]|].
        intros Hxa. by eapply (live_big_apart _ _ _ G B x l v n a).
      * intros v n c i p F Hin Hat. destruct (Hpages _ _ _ _ Hat) as (c' & i' & F' & Hat'). by eapply bo_apart; [apply HB|].
    + intros y k. rewrite lookup_delete_Some, HR. unfold region. rewrite Hlive. split; [naive_solver|].
      intros [[Hy Hne]|(v & n & Hin & -> & ->)]; [split; [done|by left]|]. split; [|right; eauto]. intros ->.
      destruct (bs_ok _ _ _ HB _ _ Hin) as [_ Hn _ _ _].
      eapply (live_big_apart _ _ _ G B (v + 8) l v n (v + 8)); [done..|lia|unfold in_pages; lia].
  - intros a Ha. destruct (owned_client _ _ _ _ _ a Hh) as [Hc Hw]; [by eapply owned_delete|].
    destruct Hs' as (_ & _ & -> & _). apply Hkept; [done..|]. by eapply owned_apart.
Qed.

Lemma big_kfree st r R G B v n : holds st r R G B → (v, n) ∈ B →
  wp (on_mem (km_free (v + 8))) False (λ _ st', ∃ B', holds st' r (delete (v + 8) R) G B' ∧
    ∀ a, owned (delete (v + 8) R) a → km_word (sl_mem st') a = km_word (sl_mem st) a) st.
Proof.
  intros Hh Hin. pose proof Hh as (Hinv & Hr & Hi & HB & HR). pose proof (bs_ok _ _ _ HB _ _ Hin) as Hok.
  pose proof Hok as [(Hv & Hv1 & Hv2) Hn Hcount Hmap Hno].
  assert (R !! (v + 8) = Some (n * 4096 - 8)) as HxR by (apply HR; right; eauto).
  unfold on_mem. apply wp_zoom. destruct Hinv as (Hinv & Hroom & _). eapply wp_mono; [by apply (km_free_ok _ v n)|done|].
  intros [] s' (Hinv' & Hr' & Hw'). cbn [sl_mem].
  assert (∀ a, ¬ in_pages v n a → km_word s' a = km_word (sl_mem st) a) as Hout by (intros; by rewrite Hw', decide_False).
  exists (filter (λ e, e ≠ (v, n)) B). split_and!.
  - eapply (sees_holds _ (km_word s')); [apply (sees_self (mk_slabs s' (sl_classes st))); [done|cbn; lia]|lia|..].
    + eapply heap_inv_client; [exact Hi|lia| |].
      * intros b Hb. apply Hout. intros Hbv. apply Hb. by eapply big_client.
      * intros c i p F b Hat Hb. rewrite Hout; [done|]. intros Hbv.
        by eapply (big_no_slab (km_word (sl_mem st)) (km_word (sl_mem st))); [exact Hi|exact Hok|exact Hat|eapply Hno| |].
    + split.
      * intros v' n' [Hne Hin']%list_elem_of_filter. eapply big_frame; [by apply HB| |by apply HB].
        intros a Ha _. apply Hout. intros Ha'. apply Hne. by destruct (bs_apart _ _ _ HB _ _ _ _ _ Hin Hin' Ha' Ha) as [-> ->].
      * intros v1 n1 v2 n2 a [_ H1]%list_elem_of_filter [_ H2]%list_elem_of_filter. by eapply (bs_apart _ _ _ HB).
    + intros y k. rewrite lookup_delete_Some, HR. unfold region. setoid_rewrite list_elem_of_filter. split.
      * intros [Hne [Hy|(v' & n' & Hin' & -> & ->)]]; [by left|right]. exists v', n'. split_and!; try done. congruence.
      * intros [Hy|(v' & n' & [Hne Hin'] & -> & ->)]; (split; [|first [by left|right; by exists v', n']]).
        -- intros <-. pose proof (live_size _ _ _ _ _ _ Hi Hy).
           eapply (live_big_apart _ _ _ G B (v + 8) k v n (v + 8)); [done..|lia|unfold in_pages; lia].
        -- intros Heq. assert (v' = v) as -> by lia. apply Hne. destruct (bs_ok _ _ _ HB _ _ Hin') as [_ Hn' _ _ _].
           destruct (bs_apart _ _ _ HB v n v n' v) as [_ ->]; [done..|unfold in_pages; lia|unfold in_pages; lia|done].
  - intros a Ha. apply Hout. intros Hav. pose proof Ha as (H8 & y & k & Hy & Hya).
    assert (a ≠ v).
    { intros ->. apply lookup_delete_Some in Hy as [_ Hy%HR]. destruct Hy as [Hy|(v' & n' & Hin' & -> & ->)].
      - by eapply (live_big_apart _ _ _ G B y k v n v).
      - destruct (bs_apart _ _ _ HB v n v' n' v) as [-> ->]; [done..|unfold in_pages; lia|lia]. }
    eapply owned_apart; [exact Hh|exact HxR|exact Ha|]. unfold in_pages in *. lia.
Qed.

(** [kfree] tells the two kinds apart by the word at the start of the page. *)
Lemma wp_is_slab {C} st r R G B x l (f : bool → M (slabs P) C) (Q : C → slabs P → Prop) : holds st r R G B → R !! x = Some l →
  (live G x l → wp (f true) False Q st) → (∀ v n, (v, n) ∈ B → x = v + 8 → wp (f false) False Q st) →
  wp (is_slab x ≫= f) False Q st.
Proof.
  intros (Hinv & _ & Hi & HB & HR) Hx Ht Hf. unfold is_slab. apply wp_assoc.
  apply HR in Hx as [Hx|(v & n & Hin & -> & ->)].
  - pose proof Hx as (c & i & p & F & Hat & Hch & _ & _). destruct (slab_at_ok _ _ _ _ _ _ _ _ Hi Hat) as (? & ? & Hok).
    pose proof Hok as [(Hp & Hp1 & Hp2) _ Hmg _ _ _ _ _ _]. pose proof (slab_at_lt _ _ _ _ _ _ _ _ Hi Hat) as Hc.
    destruct (slab_chunk _ _ _ _ _ _ x Hc Hok Hch) as (? & ? & _), (geometry c Hc) as (? & _). unfold SLAB_HEADER in *.
    eapply wp_try_get_slab; [exact Hinv|done..|unfold in_pages; lia|by rewrite Hmg|].
    rewrite bool_decide_true by done. apply wp_bind, wp_ret. rewrite (proj2 (Z.eqb_neq p 0)) by lia. by apply Ht.
  - destruct (bs_ok _ _ _ HB _ _ Hin) as [(Hv & Hv1 & Hv2) Hn Hcount _ _].
    eapply wp_try_get_slab; [exact Hinv|exact Hv|done|lia|unfold in_pages; lia|by rewrite Hcount|].
    rewrite bool_decide_false; [apply wp_bind, wp_ret; by eapply Hf|]. rewrite Hcount. intros [= ->]. unfold SLAB_MAGIC in *. lia.
Qed.

Lemma wp_kfree st r R G B x l : holds st r R G B → R !! x = Some l →
  wp (kfree x) False (λ _ st', ∃ G' B', holds st' r (delete x R) G' B' ∧
    ∀ a, owned (delete x R) a → km_word (sl_mem st') a = km_word (sl_mem st) a) st.
Proof.
  intros Hh Hx. pose proof Hh as (_ & _ & Hi & HB & HR).
  destruct (region_range _ _ _ _ _ x l Hi HB) as (Hx0 & _); [by apply HR|].
  unfold kfree. rewrite (proj2 (Z.eqb_neq x 0)) by lia. eapply wp_is_slab; [exact Hh|exact Hx|..].
  - intros Hl. eapply wp_mono; [by eapply slab_kfree|done|]. intros [] st' (G' & ?). by exists G', B.
  - intros v n Hin ->. eapply wp_mono; [by eapply big_kfree|done|]. intros [] st' (B' & ?). by exists G, B'.
Qed.

Lemma wp_kmalloc st r R G B size : holds st r R G B → 0 < size < 2 ^ 63 → cost size ≤ r →
  wp (kmalloc size) False (λ x st', ∃ l r' G' B', size ≤ l ∧ R !! x = None ∧ holds st' r' (<[x := l]> R) G' B' ∧ r - cost size ≤ r' ∧
    ∀ a, owned R a → km_word (sl_mem st') a = km_word (sl_mem st) a) st.
Proof.
  intros Hh Hsize Hr. unfold kmalloc, can_alloc. rewrite (proj2 (Z.eqb_neq size 0)) by lia. unfold cost in *.
  case_match eqn:Hc.
  - eapply wp_mono; [eapply slab_malloc; [exact Hh|lia|lia]|done|].
    intros x st' (l & r' & G' & ? & ? & ? & ? & ?). exists l, r', G', B. split_and!; [done..|lia|done].
  - eapply wp_mono; [eapply big_malloc; [exact Hh|lia|lia]|done|].
    intros x st' (l & B' & ? & ? & ? & ?). exists l, (r - pages_for size), G, B'. split_and!; [done..|lia|done].
Qed.

(** A client's store stays in its region. *)
Lemma wp_client_store st r R G B a w : holds st r R G B → owned R a →
  wp (on_mem (km_store a w)) False (λ _ st', holds st' r R G B ∧
    ∀ b, km_word (sl_mem st') b = if b =? a then Some w else km_word (sl_mem st) b) st.
Proof.
  intros Hh Ha. pose proof Hh as (Hinv & Hr & Hi & HB & HR). destruct (owned_client _ _ _ _ _ _ Hh Ha) as [Hc Hsome].
  unfold on_mem. apply wp_zoom. destruct Hinv as (Hinv & Hroom & _). eapply wp_mono; [by apply km_store_ok|done|].
  intros [] s' (Hinv' & Hr' & Hw'). cbn [sl_mem].
  split; [|done]. eapply (sees_holds _ (km_word s')); [apply (sees_self (mk_slabs s' (sl_classes st))); [done|cbn; lia]|lia|..|done].
  - eapply heap_inv_client; [exact Hi|lia| |].
    + intros b Hb. rewrite Hw'. destruct (Z.eqb_spec b a) as [->|]; done.
    + intros c i p F b _ _ Hb. rewrite Hw'. by destruct (b =? a).
  - split; [|apply HB]. intros v n Hin. pose proof (bs_ok _ _ _ HB _ _ Hin) as [Hv Hn Hcount Hmap Hno]. split; try done.
    + rewrite Hw', (proj2 (Z.eqb_neq _ _)); [done|]. intros <-. destruct Ha as (_ & x & l & Hx & Hxl).
      apply HR in Hx as [Hx|(v' & n' & Hin' & -> & ->)].
      * eapply (live_big_apart _ _ _ G B x l v n v); [done..|unfold in_pages; lia].
      * destruct (bs_apart _ _ _ HB v n v' n' v) as [-> ->]; [done..|unfold in_pages; lia|unfold in_pages; lia|lia].
    + intros b Hb H8. rewrite Hw'. destruct (b =? a); [done|auto].
Qed.

(** ** The simulation *)

Lemma heap_regions_apart st A x l y k : is_heap st A → ah_regions A !! x = Some l → ah_regions A !! y = Some k → x ≠ y →
  0 < l ∧ (x + l ≤ y ∨ y + k ≤ x).
Proof.
  intros ((G & B & _ & _ & Hi & HB & HR) & _) Hx%HR Hy%HR Hne.
  destruct (region_range _ _ _ _ _ _ _ Hi HB Hx) as (_ & ? & _), (region_range _ _ _ _ _ _ _ Hi HB Hy) as (_ & ? & _).
  split; [done|]. destruct (decide (x + l ≤ y)); [by left|right]. destruct (decide (y + k ≤ x)); [done|exfalso].
  destruct (region_apart _ _ _ _ _ x l y k (Z.max x y) Hi HB Hx Hy); [lia..|done].
Qed.

Definition words_of st (a : Z) : Z := default 0 (km_word (sl_mem st) a).

Lemma holds_is_heap st r R G B : holds st r R G B → is_heap st (mk_aheap R (words_of st) r).
Proof.
  intros Hh. split; [by exists G, B|]. cbn. intros a Ha. destruct (owned_client _ _ _ _ _ _ Hh Ha) as [_ [w Hw]].
  unfold words_of. by rewrite Hw.
Qed.

Lemma heap_kept st st' A R : is_heap st A → (∀ a, owned R a → owned (ah_regions A) a) →
  (∀ a, owned R a → km_word (sl_mem st') a = km_word (sl_mem st) a) → ∀ a, owned R a → words_of st' a = ah_word A a.
Proof. intros (_ & HW) Hsub Hk a Ha. unfold words_of. by rewrite Hk, HW by auto. Qed.

Lemma malloc_step st A size : is_heap st A → size ≠ 0 → allowed A (Malloc size) →
  wp (kmalloc size) False (λ v st', ∃ A', hstep A (Malloc size) v A' ∧ is_heap st' A') st.
Proof.
  intros HA Hne (Hsz & Hroom). specialize (Hroom Hne). destruct A as [R W r]. cbn in *. pose proof HA as ((G & B & Hh) & _). cbn in Hh.
  eapply wp_mono; [eapply wp_kmalloc; [exact Hh|lia|done]|done|].
  intros x st' (l & r' & G' & B' & Hl & Hx & Hh' & Hr' & Hk). pose proof (holds_is_heap _ _ _ _ _ Hh') as HA'. eexists. split; [|exact HA'].
  pose proof Hh' as (_ & _ & Hi' & HB' & HR').
  destruct (region_range _ _ _ _ _ x l Hi' HB') as (? & ? & ? & _); [apply HR', lookup_insert_eq|].
  constructor; [done..| |].
  - intros y k Hy. assert (x ≠ y) by congruence.
    eapply (heap_regions_apart st' _ x l y k HA'); [apply lookup_insert_eq| |done]. cbn. by rewrite lookup_insert_ne.
  - by apply (heap_kept _ _ _ _ HA).
Qed.

Lemma free_step st A x : is_heap st A → x ≠ 0 → allowed A (Free x) →
  wp (kfree x) False (λ _ st', ∃ A', hstep A (Free x) 0 A' ∧ is_heap st' A') st.
Proof.
  intros HA Hne [|[l Hx]]; [done|]. destruct A as [R W r]. cbn in *. pose proof HA as ((G & B & Hh) & _). cbn in Hh.
  eapply wp_mono; [by eapply wp_kfree|done|]. intros [] st' (G' & B' & Hh' & Hk).
  pose proof (holds_is_heap _ _ _ _ _ Hh') as HA'. eexists. split; [|exact HA'].
  econstructor; [done|]. apply (heap_kept _ _ _ _ HA); [|done]. intros a. by eapply owned_delete.
Qed.

Lemma store_step st A a w : is_heap st A → allowed A (Store a w) →
  wp (on_mem (km_store a w)) False (λ _ st', ∃ A', hstep A (Store a w) 0 A' ∧ is_heap st' A') st.
Proof.
  intros HA Ha. destruct A as [R W r]. cbn in *. pose proof HA as ((G & B & Hh) & HW).
  eapply wp_mono; [by eapply wp_client_store|done|]. intros [] st' (Hh' & Hw'). eexists. split; [constructor|].
  split; [by exists G, B|]. cbn. intros b Hb. rewrite Hw'. destruct (b =? a); [done|by apply HW].
Qed.

(** At boot no class has a slab and nothing is allocated. *)
Lemma heap_boot s W r : km_inv s → 0 ≤ r ≤ km_room s → r ≤ 2 ^ 52 → is_heap (mk_slabs s classes0) (mk_aheap ∅ W r).
Proof.
  intros Hinv Hr H52. split; [|intros a (_ & x & l & Hx & _); cbn in Hx; by rewrite lookup_empty in Hx].
  assert (∀ c i p F, ¬ slab_at (replicate 6 []) c i p F) as Hno.
  { intros c i p F (L & Hc & HL). apply lookup_replicate in Hc as [-> _]. by rewrite lookup_nil in HL. }
  exists (replicate 6 []), []. split; [apply (sees_self (mk_slabs s classes0)); [done|cbn; lia]|].
  split; [cbn; lia|]. split_and!.
  - split; [done| |by intros * ?%Hno|].
    + intros c L HL. apply lookup_replicate in HL as [-> Hc].
      destruct c as [|[|[|[|[|[|c]]]]]]; [..|lia]; (eexists; split; [reflexivity|]; split; [by vm_compute|by intros i p F ?]).
    + intros c L HL. apply lookup_replicate in HL as [-> Hc]. cbn. lia.
  - split; [intros v n Hin|intros v n v' n' a Hin]; by apply not_elem_of_nil in Hin.
  - intros x l. cbn [ah_regions]. split; [by rewrite lookup_empty|]. intros [(c & i & p & F & Hat & _)|(v & n & Hin & _)]; [by apply Hno in Hat|].
    by apply not_elem_of_nil in Hin.
Qed.

(** C3: [kmalloc] and [kfree] refine an abstract heap of regions.  In a state that stands for the abstract
    heap [A], every request a client may make ends (none panics or faults, and the search for a slab with a
    free chunk comes to its end), returns what the abstract heap allows, and leads to a state that stands for
    the abstract heap's next state: a region of at least the size asked for that overlaps no other, the words
    of all other regions as they were, [kmalloc(0)] and [kfree(nullptr)] without effect. *)
Theorem kmalloc_refines_heap st A o : is_heap st A → allowed A o →
  ∃ st' v A', run_op o st = Ok (st', v) ∧ hstep A o v A' ∧ is_heap st' A'.
Proof.
  intros HA Ho. cut (wp (run_op o) False (λ v st', ∃ A', hstep A o v A' ∧ is_heap st' A') st).
  { intros (st' & v & Hrun & A' & Hstep & HA')%wp_total. by exists st', v, A'. }
  destruct o as [size|x|a w|a]; cbn [run_op].
  - destruct (decide (size = 0)) as [->|Hne]; [|by apply malloc_step].
    apply wp_ret. exists A. split; [constructor|done].
  - apply wp_bind. destruct (decide (x = 0)) as [->|Hne].
    + apply wp_ret, wp_ret. exists A. split; [constructor|done].
    + eapply wp_mono; [by apply free_step|done|]. intros [] st' ?. by apply wp_ret.
  - apply wp_bind. eapply wp_mono; [by apply store_step|done|]. intros [] st' ?. by apply wp_ret.
  - pose proof HA as ((G & B & (Hinv & _) & _) & HW). unfold on_mem. apply wp_zoom. unfold wp.
    rewrite (km_load_ok _ a (ah_word A a)) by (try apply HW; done). exists A. split; [constructor|]. by destruct st.
Qed.
End ops.
