(* ===== verification/VmmMem.v ===== *)
(** * The kernel heap of the virtual memory manager is a kernel memory

    The virtual memory manager of [Vmm.v] meets the interface of [KMem.v]: the pages [alloc_kernel_page]
    and [alloc_kernel] hand out at the cursor of the kernel heap can be read and written through the
    active page tables, and [free_kernel_page] and [free_kernel] take them away again.  With it the
    theorems about [kmalloc] and [kfree] hold of the allocator on top of the paging code.

    The kernel's own PML4 is the active one. *)

From stdpp Require Import functions.
From S2P Require Import Prelude Cpu Spinlock Pmm Vmm VmmTree VmmProofs VmmFree VmmSpace VmmClone.
From S2P Require Import VmmHeap VmmTheorems KMem Slab SlabInv SlabProofs Kmalloc.

#[export] Instance vmm_mem : KernelMemory vmm := {|
  km_load := hw_load;
  km_store := hw_store;
  km_alloc_page := alloc_kernel_page;
  km_free_page := free_kernel_page;
  km_alloc := alloc_kernel;
  km_free := free_kernel;
|}.

(** ** Pages of the kernel heap *)

(** Page numbers of the kernel heap: from the PML4 entry behind the HHDM to the last but one. *)
Definition HEAP_END : Z := 511 * 2 ^ 27.
Definition heap_base (s : vmm) : Z := (get_kernel_pml4_index s + 1) * 2 ^ 27.

(** The page number of an address in the upper half. *)
Definition page_num (a : Z) : Z := (a - 0xFFFF000000000000) / 4096.

Definition kdom (s : vmm) : domain := λ r l,
  r = kroot s ∧ ∃ n, heap_base s ≤ n < HEAP_END ∧ l `prefix_of` fpath (page_addr n).

#[export] Instance kdom_closed s : Closed (kdom s).
Proof.
  split.
  - intros r l i (-> & n & Hn & Hp). split; [done|]. exists n. split; [done|]. etrans; [|exact Hp]. by apply prefix_app_r.
  - intros r l i (-> & n & Hn & [k Hk]). destruct (idx_range (page_addr n)) as (H4 & H3 & H2 & H1).
    assert (i ∈ fpath (page_addr n)) as Hi by (rewrite Hk; set_solver).
    unfold fpath in Hi. rewrite !elem_of_cons, elem_of_nil in Hi. naive_solver.
  - intros r l (-> & n & Hn & Hp%prefix_length). done.
Qed.

Lemma kdom_page s n : heap_base s ≤ n < HEAP_END → kdom s (kroot s) (fpath (page_addr n)).
Proof. intros Hn. split; [done|]. by exists n. Qed.

Lemma kdom_restored s s' : restored s s' → kdom s' = kdom s ∧ kroot s' = kroot s ∧ heap_base s' = heap_base s.
Proof.
  intros [_ _ Hp Ho]. unfold kdom, heap_base, kroot, hhdm_vtop, get_kernel_pml4_index. by rewrite Hp, Ho.
Qed.

Lemma page_num_addr n : 2 ^ 35 ≤ n < 2 ^ 36 → page_num (page_addr n) = n.
Proof.
  intros Hn. unfold page_num, page_addr. destruct (Z.ltb_spec n (2 ^ 35)); [lia|].
  replace (n * 4096 + 0xFFFF000000000000 - 0xFFFF000000000000) with (n * 4096) by lia. by rewrite Z.div_mul.
Qed.

Lemma page_addr_num a : 2 ^ 35 ≤ page_num a → page_addr (page_num a) = a - a mod 4096.
Proof.
  intros Hn. unfold page_addr. destruct (Z.ltb_spec (page_num a) (2 ^ 35)); [lia|]. unfold page_num in *. lia.
Qed.

Lemma page_addr_high n : 2 ^ 35 ≤ n → page_addr n = n * 4096 + 0xFFFF000000000000.
Proof. intros Hn. unfold page_addr. by destruct (Z.ltb_spec n (2 ^ 35)); [lia|]. Qed.

Lemma in_pages_num a n k : 2 ^ 35 ≤ n → in_pages (page_addr n) k a ↔ n ≤ page_num a < n + k.
Proof. intros Hn. rewrite page_addr_high by done. unfold in_pages, page_num. lia. Qed.

(** ** The invariant *)

Record vmem_ok (s : vmm) : Prop := {
  vo_ok : vm_ok (kdom s) s;
  vo_lock : is_free (g_vmm_lock s);
  vo_ptr : is_word 64 (kernel_pml4 s) ∧ kernel_pml4 s ≠ 0;
  vo_cr3 : cr3 (vm_cpu s) = kroot s;
  vo_heap : heap_ok (kheap s);
  vo_range : 2 ^ 35 ≤ heap_base s ≤ page_no (kheap s) ∧ page_no (kheap s) < HEAP_END;
  (* nothing is mapped at the cursor and above *)
  vo_fresh n : page_no (kheap s) ≤ n < HEAP_END → walk (phys s) (kroot s) (fpath (page_addr n)) = None;
  (* pages of the heap are not accessible to user code *)
  vo_super n w : heap_base s ≤ n < page_no (kheap s) →
    leaf (phys s) (kroot s) (upath (page_addr n)) (idx1 (page_addr n)) = Some w → Entry.us w = 0;
}.

(** The word at an address of the heap, as the page tables map it. *)
Definition vmem_word (s : vmm) (a : Z) : option Z :=
  if decide (a mod 8 = 0 ∧ heap_base s ≤ page_num a < HEAP_END)
  then word (phys s) (kroot s) (fpath (page_addr (page_num a))) (a mod 4096 / 8) else None.

(** Mapping a page takes at most four frames. *)
Definition vmem_room (s : vmm) : Z := Z.min (HEAP_END - 1 - page_no (kheap s)) (Z.of_nat (avail (vm_pmm s)) / 4).

Lemma walk_leaf m r v : walk m r (fpath v) = leaf m r (upath v) (idx1 v) ≫= target.
Proof.
  change (fpath v) with (upath v ++ [idx1 v]). rewrite walk_word. unfold leaf.
  destruct (word m r (upath v) (idx1 v)) as [w|]; cbn; [|done]. unfold target.
  destruct (Entry.present w) eqn:Hp; cbn; [by rewrite Hp|done].
Qed.

Lemma word_leaf m r v i x : word m r (fpath v) i = Some x ↔
  ∃ w t, leaf m r (upath v) (idx1 v) = Some w ∧ target w = Some t ∧ walk m r (fpath v) = Some t ∧ m (t + 8 * i) = x.
Proof.
  unfold word. rewrite walk_leaf. destruct (leaf m r (upath v) (idx1 v)) as [w|]; cbn; [|naive_solver].
  destruct (target w) as [t|] eqn:Ht; cbn; [|naive_solver]. split; [intros [= <-]; by exists w, t|naive_solver].
Qed.

(** ** Loads and stores *)

Lemma hw_translate_leaf s v w t : page_ok (cr3 (vm_cpu s)) → leaf (phys s) (cr3 (vm_cpu s)) (upath v) (idx1 v) = Some w →
  target w = Some t → Entry.us w = 0 → hw_translate s v = Some (t + v mod 4096, false).
Proof.
  intros Hr Hw Ht Hu. unfold hw_translate. rewrite (proj1 (page_align_page _ Hr)).
  unfold leaf, word, upath in Hw. cbn in Hw. unfold hw_next, next, target in *.
  set (r := cr3 (vm_cpu s)) in *.
  destruct (Entry.present (phys s (r + 8 * idx4 v))); cbn in *; [|done].
  destruct (Entry.present (phys s (_ + 8 * idx3 v))); cbn in *; [|done].
  destruct (Entry.present (phys s (_ + 8 * idx2 v))); cbn in *; [|done].
  destruct (Entry.present (phys s (_ + 8 * idx1 v))) eqn:Hp; cbn in *; [|done].
  injection Hw as <-. rewrite Hp in Ht. injection Ht as <-. rewrite Hu. cbn. rewrite andb_false_r.
  unfold PAGE_MASK. change 0xFFF with (Z.ones 12). rewrite Z.land_ones by done. done.
Qed.

Lemma kroot_page s : vmem_ok s → page_ok (kroot s).
Proof.
  intros [Hok _ _ _ _ [Hb He] _ _]. apply (f_page _ _ (ok_forest _ _ Hok) (kroot s) []); [|done].
  split; [done|]. exists (heap_base s). split; [lia|apply prefix_nil].
Qed.

(** The frame and offset behind a word of the heap. *)
Lemma vmem_word_inv s a x : vmem_ok s → vmem_word s a = Some x →
  a mod 8 = 0 ∧ heap_base s ≤ page_num a < page_no (kheap s) ∧ ∃ t,
  walk (phys s) (kroot s) (fpath (page_addr (page_num a))) = Some t ∧ phys s (t + 8 * (a mod 4096 / 8)) = x ∧
  hw_access a s = Ok (s, t + 8 * (a mod 4096 / 8)).
Proof.
  intros Hs. pose proof Hs as [_ _ _ Hcr _ [Hb He] Hfresh Hsup]. unfold vmem_word. case_decide as Hd; [|done].
  destruct Hd as [H8 Hn]. intros (w & t & Hl & Ht & Hw & Hx)%word_leaf.
  assert (page_num a < page_no (kheap s)) as Hlt.
  { destruct (decide (page_num a < page_no (kheap s))); [done|]. rewrite Hfresh in Hw; [done|lia]. }
  split_and!; [done|lia|done|]. exists t. split_and!; [done..|].
  rewrite page_addr_num in Hl by lia. pose proof (idx_page a) as [Hu Hi].
  unfold hw_access. rewrite (hw_translate_leaf s a w t).
  - cbn. replace (8 * (a mod 4096 / 8)) with (a mod 4096); [done|]. assert ((a mod 4096) mod 8 = 0) by lia. lia.
  - rewrite Hcr. by apply kroot_page.
  - by rewrite Hcr, <- Hu, <- Hi.
  - done.
  - eapply (Hsup (page_num a)); [lia|]. by rewrite page_addr_num by lia.
Qed.

(** The words of a page whose entry and contents are the same. *)
Lemma vmem_word_same s s' a : restored s s' → vm_ok (kdom s) s →
  (∀ v, v = page_addr (page_num a) → leaf (phys s') (kroot s) (upath v) (idx1 v) = leaf (phys s) (kroot s) (upath v) (idx1 v)) →
  same_page s s' (kroot s) (fpath (page_addr (page_num a))) → vmem_word s' a = vmem_word s a.
Proof.
  intros Hres Hok Hl Hp. destruct (kdom_restored s s' Hres) as (_ & Hk & Hb). unfold vmem_word. rewrite Hk, Hb.
  case_decide as Hd; [|done]. set (v := page_addr (page_num a)) in *. specialize (Hl v eq_refl).
  destruct (walk (phys s) (kroot s) (fpath v)) as [t|] eqn:Hw.
  - destruct (Hp t Hw) as [Hw' Hc]. unfold word. rewrite Hw, Hw'. cbn. rewrite Hc; [done|]. unfold idx_ok. lia.
  - assert (walk (phys s') (kroot s) (fpath v) = None) as Hw' by (by rewrite walk_leaf, Hl, <- walk_leaf).
    unfold word. by rewrite Hw, Hw'.
Qed.

Lemma vmem_load s a x : vmem_ok s → vmem_word s a = Some x → hw_load a s = Ok (s, x).
Proof.
  intros Hs Hx. destruct (vmem_word_inv s a x Hs Hx) as (_ & _ & t & _ & Hp & Hacc).
  unfold hw_load, mbind, M_bind. rewrite Hacc. unfold gets. by rewrite Hp.
Qed.

Lemma heap_page_inj n n' : 2 ^ 35 ≤ n < HEAP_END → 2 ^ 35 ≤ n' < HEAP_END → fpath (page_addr n) = fpath (page_addr n') → n = n'.
Proof. intros Hn Hn'. unfold HEAP_END in *. apply page_addr_fpath_inj; pow_consts; lia. Qed.

Lemma vmem_store s a w : vmem_ok s → is_Some (vmem_word s a) →
  wp (hw_store a w) False (λ _ s', vmem_ok s' ∧ vmem_room s ≤ vmem_room s' ∧
    ∀ b, vmem_word s' b = if b =? a then Some w else vmem_word s b) s.
Proof.
  intros Hs [x Hx]. destruct (vmem_word_inv s a x Hs Hx) as (H8 & Hn & t & Hw & _ & Hacc).
  pose proof Hs as [Hok Hlock Hptr Hcr Hh [Hb He] Hfresh Hsup]. set (j := a mod 4096 / 8) in *. set (n := page_num a) in *.
  assert (kdom s (kroot s) (fpath (page_addr n))) as HD by (apply kdom_page; lia).
  assert (idx_ok j) as Hj by (unfold idx_ok, j; lia).
  unfold hw_store, wp, mbind, M_bind. rewrite Hacc. cbn [modify]. set (s' := with_phys _ s).
  assert (vm_ok (kdom s) s') as Hok' by (by apply (data_write_ok (kdom s) s (kroot s) (fpath (page_addr n)))).
  assert (∀ l, kdom s (kroot s) l → walk (phys s') (kroot s) l = walk (phys s) (kroot s) l) as Hwalk.
  { intros l HDl. by apply (data_write_walk (kdom s) s (kroot s) (fpath (page_addr n)) t j w). }
  assert (∀ k, heap_base s ≤ k < HEAP_END → leaf (phys s') (kroot s) (upath (page_addr k)) (idx1 (page_addr k)) =
    leaf (phys s) (kroot s) (upath (page_addr k)) (idx1 (page_addr k))) as Hleaf.
  { intros k Hk. destruct (D_upath (kdom s) (kroot s) (page_addr k)) as [HDk Hi]; [by apply kdom_page|].
    by apply (data_write_leaf (kdom s) s (kroot s) (fpath (page_addr n)) t j w). }
  split_and!.
  - split; try done.
    + intros k Hk. rewrite Hwalk; [by apply Hfresh|]. apply kdom_page. change (heap_base s') with (heap_base s). cbn in Hk. lia.
    + intros k w' Hk. rewrite Hleaf; [by apply Hsup|]. change (heap_base s') with (heap_base s) in Hk. cbn in Hk. lia.
  - done.
  - intros b. destruct (Z.eqb_spec b a) as [->|Hne].
    + unfold vmem_word. rewrite decide_True; [|change (heap_base s') with (heap_base s); unfold n in *; lia].
      unfold word. fold n j. change (kroot s') with (kroot s). rewrite Hwalk, Hw by done. cbn. by rewrite fn_insert_eq.
    + destruct (decide (page_num b = n)) as [Hbn|Hbn].
      * unfold vmem_word. change (heap_base s') with (heap_base s). change (kroot s') with (kroot s).
        case_decide as Hd; [|done]. rewrite Hbn. unfold word. rewrite Hwalk, Hw by done. cbn.
        rewrite fn_insert_ne; [done|]. unfold j, n, page_num in *. lia.
      * destruct (decide (heap_base s ≤ page_num b < HEAP_END)) as [Hr|Hr].
        -- apply vmem_word_same; [by split|done|by intros v ->; apply Hleaf|].
           apply (data_write_page (kdom s) s (kroot s) (fpath (page_addr n))); try done; [by apply kdom_page|].
           intros [_ Heq]. apply Hbn. apply heap_page_inj; [lia..|done].
        -- unfold vmem_word. change (heap_base s') with (heap_base s). rewrite !decide_False by tauto. done.
Qed.

(** ** Mapping *)

Lemma mapped_all_sub (D D' : domain) s s' r vs flags : (∀ r' l, D r' l → D' r' l) → (∀ v, v ∈ vs → D r (fpath v)) →
  mapped_all D' s s' r vs flags → mapped_all D s s' r vs flags.
Proof.
  intros Hsub Hdom [_ Hok Hav Hfree Hnew Hold Hpage]. split; eauto. by eapply vm_ok_sub.
Qed.

Lemma elem_of_heap_pages h n v : v ∈ heap_pages h n ↔ ∃ k, page_no h ≤ k < page_no h + Z.of_nat n ∧ v = page_addr k.
Proof.
  unfold heap_pages. rewrite list_elem_of_fmap. setoid_rewrite elem_of_seqZ. split.
  - intros (k & -> & Hk). exists (page_no h + k). split; [lia|done].
  - intros (k & Hk & ->). exists (k - page_no h). split; [f_equal; lia|lia].
Qed.

Lemma vmem_mapped s s' n flags : vmem_ok s → restored s s' → heap_ok (kheap s') → 1 ≤ n →
  page_no (kheap s') = page_no (kheap s) + n → page_no (kheap s) + n < HEAP_END → flag flags PAGE_USER = 0 →
  mapped_all (kdom s) s s' (kroot s) (heap_pages (kheap s) (Z.to_nat n)) flags →
  let v := page_addr (page_no (kheap s)) in
  vmem_ok s' ∧ vmem_room s - n ≤ vmem_room s' ∧
  (∀ a, in_pages v n a → vmem_word s a = None ∧ (a mod 8 = 0 → is_Some (vmem_word s' a))) ∧
  (∀ a, ¬ in_pages v n a → vmem_word s' a = vmem_word s a).
Proof.
  intros Hs Hres Hh' Hn1 Hno Hlim Hflag [_ Hok' Hav _ Hnew Hold Hpage] v.
  pose proof Hs as [Hok Hlock Hptr Hcr Hh [Hb He] Hfresh Hsup]. destruct (kdom_restored s s' Hres) as (HD & Hk & Hbase).
  assert (∀ k, heap_base s ≤ k < HEAP_END → ¬ (page_no (kheap s) ≤ k < page_no (kheap s) + n) →
    ∀ u, u ∈ heap_pages (kheap s) (Z.to_nat n) → fpath (page_addr k) ≠ fpath u) as Hother.
  { intros k Hk1 Hk2 u (k' & Hk' & ->)%elem_of_heap_pages Heq. apply heap_page_inj in Heq; lia. }
  assert (∀ k, heap_base s ≤ k < HEAP_END → ¬ (page_no (kheap s) ≤ k < page_no (kheap s) + n) →
    leaf (phys s') (kroot s) (upath (page_addr k)) (idx1 (page_addr k)) =
    leaf (phys s) (kroot s) (upath (page_addr k)) (idx1 (page_addr k))) as Hleaf.
  { intros k Hk1 Hk2. destruct (D_upath (kdom s) (kroot s) (page_addr k)) as [HDk Hi]; [by apply kdom_page|].
    apply Hold; [done..|]. intros u Hu (_ & H1 & H2). apply (Hother k Hk1 Hk2 u Hu).
    change (fpath ?x) with (upath x ++ [idx1 x]). by rewrite H1, H2. }
  split_and!.
  - split; rewrite ?HD, ?Hk, ?Hbase.
    + done.
    + apply Hres.
    + by rewrite (rs_pml4 _ _ Hres).
    + by rewrite (rs_cpu _ _ Hres).
    + done.
    + lia.
    + intros k Hk'. rewrite walk_leaf, Hleaf, <- walk_leaf by lia. apply Hfresh. lia.
    + intros k w Hk' Hw. destruct (decide (page_no (kheap s) ≤ k)) as [Hge|Hlt].
      * destruct (Hnew (page_addr k)) as (w' & f & Hw' & Hat & _); [apply elem_of_heap_pages; exists k; split; [lia|done]|].
        assert (w' = w) as -> by congruence. rewrite (at_us _ _ _ Hat). done.
      * apply (Hsup k); [lia|]. rewrite <- Hleaf; [done|lia|lia].
  - unfold vmem_room. rewrite Hno. unfold heap_pages in Hav. rewrite length_fmap, length_seqZ in Hav. lia.
  - intros a Ha. unfold v in Ha. apply in_pages_num in Ha; [|lia]. split.
    + unfold vmem_word. case_decide as Hd; [|done]. unfold word. rewrite Hfresh by lia. done.
    + intros H8. unfold vmem_word. rewrite Hbase, Hk, decide_True by lia.
      destruct (Hnew (page_addr (page_num a))) as (w' & f & Hw' & Hat & _).
      { apply elem_of_heap_pages. exists (page_num a). split; [lia|done]. }
      eexists. apply word_leaf. exists w', f. split_and!; [done|apply Hat| |reflexivity].
      rewrite walk_leaf, Hw'. apply Hat.
  - intros a Ha. unfold v in Ha. rewrite in_pages_num in Ha by lia.
    destruct (decide (heap_base s ≤ page_num a < HEAP_END)) as [Hr|Hr].
    + apply vmem_word_same; [done..|by intros u ->; apply Hleaf|].
      apply Hpage; [by apply kdom_page|done|]. intros u Hu [_ Heq]. by eapply Hother.
    + unfold vmem_word. rewrite Hbase, !decide_False by tauto. done.
Qed.

Lemma heap_page_addr s : vmem_ok s → let v := page_addr (page_no (kheap s)) in
  v mod 4096 = 0 ∧ 4096 ≤ v ∧ 0 < v ∧ ∀ n, page_no (kheap s) + n < HEAP_END → v + n * 4096 ≤ 2 ^ 64.
Proof.
  intros [_ _ _ _ _ [Hb He] _ _] v. unfold v. rewrite page_addr_high by lia. unfold HEAP_END in *. pow_consts.
  change (2 ^ 27) with 134217728 in *. split_and!; [lia..|]. intros n Hn. lia.
Qed.

Lemma vmem_kheap s : vmem_ok s → kheap_ok (kdom s) s.
Proof.
  intros [Hok Hlock Hptr Hcr Hh [Hb He] Hfresh Hsup]. split; [done..| |done].
  intros n Hn. apply (D_upath (kdom s)), kdom_page. unfold HEAP_END. lia.
Qed.

Lemma vmem_alloc_page s : vmem_ok s → 1 ≤ vmem_room s →
  wp alloc_kernel_page False (λ v s', vmem_ok s' ∧ vmem_room s - 1 ≤ vmem_room s' ∧
    v mod 4096 = 0 ∧ 4096 ≤ v ∧ v + 4096 ≤ 2 ^ 64 ∧
    (∀ a, in_pages v 1 a → vmem_word s a = None ∧ (a mod 8 = 0 → is_Some (vmem_word s' a))) ∧
    (∀ a, ¬ in_pages v 1 a → vmem_word s' a = vmem_word s a)) s.
Proof.
  intros Hs Hr. pose proof Hs as [Hok Hlock Hptr Hcr Hh [Hb He] Hfresh Hsup]. unfold vmem_room, HEAP_END in *.
  destruct (heap_page_addr s Hs) as (Hv & Hv1 & _ & Hv2).
  destruct (alloc_kernel_page_run (kdom s) s) as (s' & Hrun & [HC Hres Hkh Hnext Hm]);
    [done|done|by apply vmem_kheap|lia|lia|lia|].
  set (v := page_addr (page_no (kheap s))) in *. unfold wp. rewrite Hrun.
  destruct (vmem_mapped s s' 1 KERNEL_PAGE) as (Hs' & Hr' & Hin & Hout); try done; [apply Hkh|unfold HEAP_END; lia| |].
  - change (Z.to_nat 1) with 1%nat. replace (heap_pages (kheap s) 1) with [v]
      by (unfold heap_pages, v; cbn [fmap list_fmap]; by rewrite <- (Z.add_0_r (page_no _)) at 1).
    eapply mapped_all_sub; [| |exact Hm].
    + intros r l. by left.
    + intros u ->%list_elem_of_singleton. apply kdom_page. unfold HEAP_END. lia.
  - specialize (Hv2 1). unfold HEAP_END in Hv2. split_and!; [done..|lia|done|done].
Qed.

Lemma vmem_alloc s bytes : vmem_ok s → 0 < bytes < 2 ^ 63 → pages_for bytes ≤ vmem_room s →
  wp (alloc_kernel bytes) False (λ p s', ∃ v, p = v + 8 ∧ vmem_ok s' ∧
    vmem_room s - pages_for bytes ≤ vmem_room s' ∧
    v mod 4096 = 0 ∧ 4096 ≤ v ∧ v + pages_for bytes * 4096 ≤ 2 ^ 64 ∧
    (∀ a, in_pages v (pages_for bytes) a → vmem_word s a = None ∧ (a mod 8 = 0 → is_Some (vmem_word s' a))) ∧
    vmem_word s' v = Some (pages_for bytes) ∧
    (∀ a, ¬ in_pages v (pages_for bytes) a → vmem_word s' a = vmem_word s a)) s.
Proof.
  intros Hs Hbytes Hr. pose proof Hs as [Hok Hlock [Hw64 Hnz] Hcr Hh [Hb He] Hfresh Hsup].
  destruct (heap_page_addr s Hs) as (Hv & Hv1 & Hv0 & Hv2). set (v := page_addr (page_no (kheap s))) in *.
  set (n := pages_for bytes) in *. assert (heap_page_count bytes = n) as Hcount by done.
  assert (1 ≤ n) as Hn1 by (unfold n, pages_for; lia). unfold vmem_room in Hr.
  assert (page_no (kheap s) + n < HEAP_END) as Hlim by lia.
  assert (∀ u, u ∈ heap_pages (kheap s) (Z.to_nat n) → kdom s (kroot s) (fpath u)) as Hdom.
  { intros u (k & Hk & ->)%elem_of_heap_pages. apply kdom_page. lia. }
  destruct (map_heap_pages_run (kdom s) s (kroot s) (kheap s) bytes (Z.lor PAGE_WRITE PAGE_GLOBAL))
    as (s1 & h' & Hrun & Hres & Hkh & Hh' & Hno & Hm & Hword); rewrite ?Hcount; try done; try lia.
  { unfold kroot. by rewrite (ptov_vtop s _ Hw64). }
  { unfold HEAP_END in *. change (2 ^ 27) with 134217728 in *. pow_consts. lia. }
  rewrite Hcount in *. unfold kroot in Hrun. rewrite (ptov_vtop s _ Hw64) in Hrun.
  unfold alloc_kernel, wp, mbind, M_bind, gets, modify. rewrite Hrun. cbn [fst snd mret M_ret].
  set (s' := with_kheap h' s1). fold v.
  assert (restored s s') as Hres' by (by destruct Hres).
  destruct (vmem_mapped s s' n (Z.lor PAGE_WRITE PAGE_GLOBAL)) as (Hs' & Hr' & Hin & Hout); try done.
  { destruct Hm. split; try done. by apply vm_ok_kheap. }
  exists v. split_and!; [done..|auto|done| |done].
  unfold vmem_word. destruct (kdom_restored s s' Hres') as (_ & -> & ->).
  unfold v. rewrite page_num_addr by (unfold HEAP_END in *; pow_consts; lia). fold v.
  rewrite decide_True by lia. replace (v mod 4096 / 8) with 0 by lia. exact Hword.
Qed.

(** ** Unmapping *)

(** Pages whose words are all there are pages of the heap. *)
Lemma mapped_pages s v n : vmem_ok s → v mod 4096 = 0 → 1 ≤ n →
  (∀ a, in_pages v n a → a mod 8 = 0 → is_Some (vmem_word s a)) →
  heap_base s ≤ page_num v ∧ page_num v + n ≤ page_no (kheap s) ∧
  ∀ k, 0 ≤ k < n → page_addr (page_num v + k) = v + k * 4096.
Proof.
  intros Hs Hv Hn Hmap. pose proof (vo_range _ Hs) as [Hb He].
  assert (∀ k, 0 ≤ k < n → heap_base s ≤ page_num v + k < page_no (kheap s)) as Hk.
  { intros k Hk. destruct (Hmap (v + k * 4096)) as [x Hx]; [unfold in_pages; lia|lia|].
    destruct (vmem_word_inv s _ x Hs Hx) as (_ & Hnum & _). unfold page_num in *. lia. }
  pose proof (Hk 0) as H0. pose proof (Hk (n - 1)) as Hl. split_and!; [lia..|]. intros k Hk'. specialize (Hk k Hk').
  rewrite page_addr_high by lia. unfold page_num in *. lia.
Qed.

Lemma vmem_unmapped s s' v n : vmem_ok s → restored s s' → kheap s' = kheap s → v mod 4096 = 0 → 1 ≤ n →
  heap_base s ≤ page_num v ∧ page_num v + n ≤ page_no (kheap s) →
  (∀ k, 0 ≤ k < n → page_addr (page_num v + k) = v + k * 4096) →
  unmapped_all (kdom s) s s' (kroot s) ((λ k, v + k * 4096) <$> seqZ 0 n) →
  vmem_ok s' ∧ vmem_room s ≤ vmem_room s' ∧
  ∀ a, vmem_word s' a = if decide (in_pages v n a) then None else vmem_word s a.
Proof.
  intros Hs Hres Hkh Hv Hn1 [Hlo Hhi] Haddr [Hok' Hgone Hold Hshrink _ Hav Hpage].
  pose proof Hs as [Hok Hlock Hptr Hcr Hh [Hb He] Hfresh Hsup]. destruct (kdom_restored s s' Hres) as (HD & Hk & Hbase).
  set (vs := _ <$> _) in *.
  assert (∀ u, u ∈ vs ↔ ∃ k, page_num v ≤ k < page_num v + n ∧ u = page_addr k) as Hvs.
  { intros u. unfold vs. rewrite list_elem_of_fmap. setoid_rewrite elem_of_seqZ. split.
    - intros (k & -> & Hk'). exists (page_num v + k). rewrite Haddr by lia. split; [lia|done].
    - intros (k & Hk' & ->). exists (k - page_num v). rewrite <- Haddr by lia. split; [f_equal; lia|lia]. }
  assert (∀ a, in_pages v n a ↔ page_num v ≤ page_num a < page_num v + n) as Hin by (intros a; unfold in_pages, page_num; lia).
  assert (∀ k w, heap_base s ≤ k < HEAP_END → leaf (phys s') (kroot s) (upath (page_addr k)) (idx1 (page_addr k)) = Some w →
    leaf (phys s) (kroot s) (upath (page_addr k)) (idx1 (page_addr k)) = Some w) as Hleaf.
  { intros k w Hk'. destruct (D_upath (kdom s) (kroot s) (page_addr k)) as [HDk Hi]; [by apply kdom_page|]. by apply Hshrink. }
  split_and!.
  - split; rewrite ?HD, ?Hk, ?Hbase, ?Hkh.
    + done.
    + apply Hres.
    + by rewrite (rs_pml4 _ _ Hres).
    + by rewrite (rs_cpu _ _ Hres).
    + done.
    + done.
    + intros k Hk'. rewrite walk_leaf. destruct (leaf _ _ _ _) as [w|] eqn:Hw; [|done].
      apply Hleaf in Hw; [|lia]. specialize (Hfresh k Hk'). rewrite walk_leaf, Hw in Hfresh. done.
    + intros k w Hk' Hw. apply Hleaf in Hw; [|lia]. by apply (Hsup k).
  - unfold vmem_room. rewrite Hkh. lia.
  - intros a. case_decide as Ha; rewrite Hin in Ha.
    + unfold vmem_word. rewrite Hk, Hbase. case_decide as Hd; [|done]. unfold word. rewrite walk_leaf.
      rewrite Hgone; [done|apply Hvs; eauto|]. apply kdom_page. lia.
    + destruct (decide (heap_base s ≤ page_num a < HEAP_END)) as [Hr|Hr].
      * assert (∀ u, u ∈ vs → fpath (page_addr (page_num a)) ≠ fpath u) as Hother.
        { intros u (k & Hk' & ->)%Hvs Heq. apply heap_page_inj in Heq; lia. }
        destruct (D_upath (kdom s) (kroot s) (page_addr (page_num a))) as [HDk Hi]; [by apply kdom_page|].
        apply vmem_word_same; [done..| |].
        -- intros u ->. apply Hold; [done..|]. intros u Hu (_ & H1 & H2). apply (Hother u Hu).
           change (fpath ?x) with (upath x ++ [idx1 x]). by rewrite H1, H2.
        -- apply Hpage; [by apply kdom_page|done|]. intros u Hu [_ Heq]. by eapply Hother.
      * unfold vmem_word. rewrite Hbase, !decide_False by tauto. done.
Qed.

Lemma vmem_free_page s v : vmem_ok s → v mod 4096 = 0 →
  (∀ a, in_pages v 1 a → a mod 8 = 0 → is_Some (vmem_word s a)) →
  wp (free_kernel_page v) False (λ _ s', vmem_ok s' ∧ vmem_room s ≤ vmem_room s' ∧
    ∀ a, vmem_word s' a = if decide (in_pages v 1 a) then None else vmem_word s a) s.
Proof.
  intros Hs Hv Hmap. destruct (mapped_pages s v 1 Hs Hv) as (Hlo & Hhi & Haddr); [done..|].
  pose proof Hs as [Hok Hlock [Hw64 Hnz] _ _ [Hb He] _ _].
  assert (page_addr (page_num v) = v) as Hpv by (rewrite <- (Z.add_0_r (page_num v)), Haddr; lia).
  assert (kdom s (kroot s) (fpath v)) as HD by (rewrite <- Hpv; apply kdom_page; lia).
  pose proof (free_kernel_page_run (kdom s) s v Hok Hlock Hw64 Hnz HD Hv) as Hrun.
  destruct (Hmap v) as [x Hx]; [unfold in_pages; lia|lia|]. destruct (vmem_word_inv s v x Hs Hx) as (_ & _ & t & Hw & _).
  rewrite Hpv, walk_leaf in Hw. destruct (leaf (phys s) (kroot s) (upath v) (idx1 v)) as [w|] eqn:Hleaf; [|done].
  destruct Hrun as (s' & Hrun & Hres & Hkh & Hum).
  { rewrite <- Hpv, page_addr_high by lia. unfold HEAP_END in *. change (2 ^ 27) with 134217728 in *. pow_consts. lia. }
  unfold wp. rewrite Hrun. apply vmem_unmapped; [done..|].
  change (seqZ 0 1) with [0]. cbn [fmap list_fmap]. replace (v + 0 * 4096) with v by lia.
  apply (unmapped_all_snoc (kdom s) s s s' (kroot s) [] v w); [by apply unmapped_all_nil|done..].
Qed.

Lemma vmem_free s v n : vmem_ok s → v mod 4096 = 0 → 1 ≤ n → v + n * 4096 ≤ 2 ^ 64 → vmem_word s v = Some n →
  (∀ a, in_pages v n a → a mod 8 = 0 → is_Some (vmem_word s a)) →
  wp (free_kernel (v + 8)) False (λ _ s', vmem_ok s' ∧ vmem_room s ≤ vmem_room s' ∧
    ∀ a, vmem_word s' a = if decide (in_pages v n a) then None else vmem_word s a) s.
Proof.
  intros Hs Hv Hn Hend Hcount Hmap. destruct (mapped_pages s v n Hs Hv) as (Hlo & Hhi & Haddr); [done..|].
  pose proof Hs as [Hok Hlock [Hw64 Hnz] _ _ [Hb He] _ _].
  assert (0 ≤ v) as Hv0 by (unfold page_num in *; pow_consts; lia).
  assert (page_align (v + 8) = v) as Hpa.
  { unfold page_align, PAGE_MASK. rewrite page_mask_land by (pow_consts; lia). lia. }
  destruct (unmap_pages_run (kdom s) (vm_enter s) (kroot s) v n) as (s1 & Hrun & Hk & Hum); try done.
  { by apply vm_ok_lock. }
  { change (hhdm_ptov (vm_enter s) (kroot s)) with (hhdm_ptov s (kroot s)). unfold kroot. by rewrite (ptov_vtop s _ Hw64). }
  { intros k Hk. rewrite <- Haddr by done. apply kdom_page. lia. }
  change (hhdm_ptov (vm_enter s) (kroot s)) with (hhdm_ptov s (kroot s)) in Hrun. unfold kroot in Hrun.
  rewrite (ptov_vtop s _ Hw64) in Hrun. destruct (leave_restored s s1 Hk) as [Hun Hres].
  unfold free_kernel, wp. rewrite (proj2 (Z.eqb_neq (v + 8) 0)) by lia. cbv zeta. rewrite Hpa.
  unfold mbind, M_bind, gets. rewrite (vmem_load s v n) by done. rewrite (proj2 (Z.eqb_neq n 0)) by lia.
  rewrite vm_lock_run by done. change (kernel_pml4 (vm_enter s)) with (kernel_pml4 s). rewrite Hrun, Hun.
  apply vmem_unmapped; [done|done|by apply (k_heap _ _ Hk)|done..|].
  destruct Hum. split; try done. by apply vm_ok_lock.
Qed.

#[export] Instance vmm_laws : KernelMemoryLaws vmm.
Proof.
  refine {| km_inv := vmem_ok; km_word := vmem_word; km_room := vmem_room |}.
  - intros s a Hs [x Hx]. destruct (vmem_word_inv s a x Hs Hx) as (H8 & Hn & _). split; [done|].
    pose proof (vo_range _ Hs) as [Hb _]. unfold page_num in *. pow_consts. lia.
  - apply vmem_load.
  - apply vmem_store.
  - apply vmem_alloc_page.
  - apply vmem_free_page.
  - apply vmem_alloc.
  - apply vmem_free.
Defined.

(** ** The contract of the kernel heap *)

(** C22: the kernel heap of the virtual memory manager is a memory.  In a state that satisfies the invariant
    [vmem_ok]: [alloc_kernel_page] and [alloc_kernel] hand out pages none of whose words was mapped, all of
    whose words can be accessed afterwards, with the number of pages in the first word of the latter;
    [free_kernel_page] and [free_kernel] unmap exactly the pages they are given; a store through the active
    page tables changes the one word; all other words keep their contents, and the invariant is preserved. *)
Theorem kernel_heap_is_memory s : vmem_ok s →
  (1 ≤ vmem_room s → wp alloc_kernel_page False (λ v s', vmem_ok s' ∧
    (∀ a, in_pages v 1 a → vmem_word s a = None ∧ (a mod 8 = 0 → is_Some (vmem_word s' a))) ∧
    (∀ a, ¬ in_pages v 1 a → vmem_word s' a = vmem_word s a)) s) ∧
  (∀ bytes, 0 < bytes < 2 ^ 63 → pages_for bytes ≤ vmem_room s → wp (alloc_kernel bytes) False (λ p s', ∃ v, p = v + 8 ∧ vmem_ok s' ∧
    (∀ a, in_pages v (pages_for bytes) a → vmem_word s a = None ∧ (a mod 8 = 0 → is_Some (vmem_word s' a))) ∧
    vmem_word s' v = Some (pages_for bytes) ∧
    (∀ a, ¬ in_pages v (pages_for bytes) a → vmem_word s' a = vmem_word s a)) s) ∧
  (∀ v, v mod 4096 = 0 → (∀ a, in_pages v 1 a → a mod 8 = 0 → is_Some (vmem_word s a)) →
    wp (free_kernel_page v) False (λ _ s', vmem_ok s' ∧
      ∀ a, vmem_word s' a = if decide (in_pages v 1 a) then None else vmem_word s a) s) ∧
  (∀ v n, v mod 4096 = 0 → 1 ≤ n → v + n * 4096 ≤ 2 ^ 64 → vmem_word s v = Some n →
    (∀ a, in_pages v n a → a mod 8 = 0 → is_Some (vmem_word s a)) →
    wp (free_kernel (v + 8)) False (λ _ s', vmem_ok s' ∧
      ∀ a, vmem_word s' a = if decide (in_pages v n a) then None else vmem_word s a) s) ∧
  (∀ a x w, vmem_word s a = Some x → hw_load a s = Ok (s, x) ∧
    wp (hw_store a w) False (λ _ s', vmem_ok s' ∧ ∀ b, vmem_word s' b = if b =? a then Some w else vmem_word s b) s).
Proof.
  intros Hs. split_and!.
  - intros Hr. eapply wp_mono; [by apply vmem_alloc_page|done|]. naive_solver.
  - intros bytes Hb Hr. eapply wp_mono; [by apply vmem_alloc|done|]. naive_solver.
  - intros v Hv Hmap. eapply wp_mono; [by apply vmem_free_page|done|]. naive_solver.
  - intros v n Hv Hn He Hc Hmap. eapply wp_mono; [by apply (vmem_free s v n)|done|]. naive_solver.
  - intros a x w Hx. split; [by apply vmem_load|]. eapply wp_mono; [apply vmem_store; [done|by eexists]|done|]. naive_solver.
Qed.

(** The example system with the kernel's PML4 active. *)
Definition demo_kernel : vmm := with_vm_cpu (with_cr3 0x1000 (vm_cpu demo_vmm)) demo_vmm.

Lemma demo_kernel_walk l t : kdom demo_kernel 0x1000 l → walk demo_mem 0x1000 l = Some t → l = [] ∧ t = 0x1000.
Proof.
  intros (_ & n & _ & Hp) Hw. apply demo_walk_kernel; [|done]. destruct Hp as [k Hk].
  assert (Forall idx_ok (l ++ k)) as Hall; [|by apply Forall_app in Hall as [? _]]. rewrite <- Hk.
  destruct (idx_range (page_addr n)) as (? & ? & ? & ?). unfold fpath. by rewrite !Forall_cons.
Qed.

Lemma demo_kernel_ok : vmem_ok demo_kernel.
Proof.
  assert (kroot demo_kernel = 0x1000) as Hk by (by vm_compute).
  assert (heap_base demo_kernel = 257 * 2 ^ 27) as Hb by (by vm_compute).
  assert (page_no (kheap demo_kernel) = 257 * 2 ^ 27) as Hn by (by vm_compute).
  assert (∀ r l t, kdom demo_kernel r l → walk demo_mem r l = Some t → r = 0x1000 ∧ l = [] ∧ t = 0x1000) as Hw.
  { intros r l t HD Hw. assert (r = 0x1000) as -> by (destruct HD as [-> _]; done). split; [done|]. by apply demo_kernel_walk. }
  split; [|done|by split; vm_compute|by rewrite Hk|by split; vm_compute|..].
  - split.
    + by split.
    + by vm_compute.
    + split.
      * intros r l t HD Hwk. by destruct (Hw _ _ _ HD Hwk) as (_ & _ & ->).
      * intros r l r' l' t HD HD' H1 H2. destruct (Hw _ _ _ HD H1) as (-> & -> & _), (Hw _ _ _ HD' H2) as (-> & -> & _). done.
    + intros r l t HD Hwk. destruct (Hw _ _ _ HD Hwk) as (_ & _ & ->). by vm_compute.
    + intros r l t HD Hwk. destruct (Hw _ _ _ HD Hwk) as (-> & -> & ->). by vm_compute.
  - rewrite Hb, Hn. unfold HEAP_END. change (2 ^ 27) with 134217728. change (2 ^ 35) with 34359738368. lia.
  - intros n Hr. rewrite Hk. destruct (walk _ _ _) as [t|] eqn:Ht; [|done].
    destruct (demo_kernel_walk (fpath (page_addr n)) t) as [? _]; [|done..]. rewrite <- Hk. apply kdom_page. lia.
  - intros n w Hr. lia.
Qed.

Lemma demo_kernel_room : 12 ≤ vmem_room demo_kernel.
Proof. apply Z.leb_le. vm_compute. reflexivity. Qed.

Lemma kernel_heap_is_memory_witness : vmem_ok demo_kernel ∧ 1 ≤ vmem_room demo_kernel ∧
  wp alloc_kernel_page False (λ v s', vmem_ok s' ∧
    (∀ a, in_pages v 1 a → vmem_word demo_kernel a = None ∧ (a mod 8 = 0 → is_Some (vmem_word s' a))) ∧
    (∀ a, ¬ in_pages v 1 a → vmem_word s' a = vmem_word demo_kernel a)) demo_kernel.
Proof.
  assert (1 ≤ vmem_room demo_kernel) as Hr by (apply (Z.le_trans _ 12); [lia|exact demo_kernel_room]).
  split; [exact demo_kernel_ok|]. split; [exact Hr|].
  exact (proj1 (kernel_heap_is_memory demo_kernel demo_kernel_ok) Hr).
Defined.

(** [kmalloc(100)] at boot on the example system. *)
Lemma kmalloc_refines_heap_witness : ∃ st' v A',
  run_op (Malloc 100) (mk_slabs demo_kernel classes0) = Ok (st', v) ∧
  hstep (mk_aheap ∅ (λ _, 0) 12) (Malloc 100) v A' ∧ is_heap st' A'.
Proof.
  apply (kmalloc_refines_heap (mk_slabs demo_kernel classes0) (mk_aheap ∅ (λ _, 0) 12) (Malloc 100)).
  - apply heap_boot; [exact demo_kernel_ok|split; [lia|exact demo_kernel_room]|lia].
  - split; [lia|]. intros _. apply Z.leb_le. vm_compute. reflexivity.
Defined.
