(* ===== verification/UserSpace.v ===== *)
(** * Bytes of user address spaces

    The kernel reads and writes user memory through the active page tables, with [memcpy], [memset] and
    plain stores.  This file has byte accesses on top of the word accesses of [Vmm.v] and their theory: what
    a user address space holds at an address, how stores and [map_user_pages] change it, and that the other
    address spaces keep their bytes.  It is the memory the program loader of [Exec.v] works on. *)

From stdpp Require Import functions.
From S2P Require Import Prelude Bytes Cpu Spinlock Pmm Vmm VmmTree VmmProofs VmmFree VmmSpace.
From S2P Require Import VmmClone VmmHeap VmmTheorems.

(** ** Byte accesses

    Memory is kept as 64-bit words; a byte is a field of the word it lies in (little endian). *)
Definition word_of (a : Z) : Z := a - a mod 8.
Definition bit_of (a : Z) : Z := 8 * (a mod 8).

Definition hw_load8 (a : Z) : M vmm Z :=
  w ← hw_load (word_of a); mret (get_field (bit_of a) 8 w).
Definition hw_store8 (a b : Z) : M vmm unit :=
  w ← hw_load (word_of a); hw_store (word_of a) (set_field (bit_of a) 8 b w).

(** [memcpy(dst, src, n)] from kernel memory with the contents [src]. *)
Fixpoint copy_to (dst : Z) (src : list Z) : M vmm unit :=
  match src with
  | [] => mret ()
  | b :: src => _ ← hw_store8 dst b; copy_to (wrap64 (dst + 1)) src
  end.

(** A store of a 64-bit word, at any address. *)
Definition store64 (a w : Z) : M vmm unit := copy_to a (le_split 8 w).

(** ** What an address space holds *)

(** The word of root [r] at the word address of [a], and the byte at [a]. *)
Definition uword (s : vmm) (r a : Z) : option Z := word (phys s) r (fpath a) (a mod 4096 / 8).
Definition ubyte (s : vmm) (r a : Z) : option Z := get_field (bit_of a) 8 <$> uword s r a.

(** [r] is the active address space and the kernel may access user pages. *)
Record active (s : vmm) (roots : Z → Prop) (r : Z) : Prop := {
  ac_sys : sys_ok s roots;
  ac_root : roots r;
  ac_cr3 : cr3 (vm_cpu s) = r;
  ac_ac : Z.testbit (rflags (vm_cpu s)) RFLAGS_AC = true;
}.

Lemma word_of_page a : word_of a mod 4096 = 8 * (a mod 4096 / 8) ∧ word_of a / 4096 = a / 4096.
Proof. unfold word_of. lia. Qed.

Lemma fpath_div a b : a / 4096 = b / 4096 → fpath a = fpath b.
Proof.
  intros H. destruct (idx_page a) as [Hu Hi], (idx_page b) as [Hu' Hi'].
  change (upath a ++ [idx1 a] = upath b ++ [idx1 b]). rewrite <- Hu, <- Hi, <- Hu', <- Hi'.
  by replace (b - b mod 4096) with (a - a mod 4096) by lia.
Qed.

Lemma fpath_inj s a b : get_kernel_pml4_index s ≤ 256 → user_addr s a → user_addr s b → fpath a = fpath b →
  a / 4096 = b / 4096.
Proof.
  intros Hks Ha Hb Heq. change (upath a ++ [idx1 a] = upath b ++ [idx1 b]) in Heq.
  apply app_inj_2 in Heq as [Hu [= Hi]]; [|done]. apply user_fpath_inj; eauto using user_addr_47.
Qed.

Lemma user_word_of s a : user_addr s a → user_addr s (word_of a).
Proof. unfold user_addr, word_of. lia. Qed.

Lemma idx_word a : idx_ok (a mod 4096 / 8).
Proof. unfold idx_ok. lia. Qed.

Lemma active_page s roots r : active s roots r → page_ok r.
Proof.
  intros [(Hok & _) Hr _ _]. apply (f_page _ _ (ok_forest _ _ Hok) r []); [|done].
  left. split; [done|apply user_path_nil].
Qed.

Lemma hw_translate_any s v f : page_ok (cr3 (vm_cpu s)) →
  walk (phys s) (cr3 (vm_cpu s)) (fpath v) = Some f → ∃ user, hw_translate s v = Some (f + v mod 4096, user).
Proof.
  intros Hr Hw. destruct (hw_translate_walk s (v - v mod 4096) f Hr) as [u Hu]; [|lia|].
  { by rewrite (fpath_div _ v) by lia. }
  exists u. revert Hu. unfold hw_translate. destruct (idx_page v) as [[= -> -> ->] ->].
  destruct (hw_next s _ (idx4 v)) as [[t3 u4]|]; cbn [mbind option_bind]; [|done].
  destruct (hw_next s t3 (idx3 v)) as [[t2 u3]|]; cbn [mbind option_bind]; [|done].
  destruct (hw_next s t2 (idx2 v)) as [[t1 u2]|]; cbn [mbind option_bind]; [|done].
  destruct (hw_next s t1 (idx1 v)) as [[g u1]|]; cbn [mbind option_bind]; [|done].
  unfold PAGE_MASK. change 0xFFF with (Z.ones 12). rewrite !Z.land_ones by done. intros [= Hf <-].
  do 2 f_equal. pow_consts. lia.
Qed.

(** The word under an address, for an access through the active tables. *)
Lemma access_run s roots r a w : active s roots r → uword s r a = Some w →
  ∃ f, walk (phys s) r (fpath a) = Some f ∧ phys s (f + 8 * (a mod 4096 / 8)) = w ∧
    hw_access (word_of a) s = Ok (s, f + 8 * (a mod 4096 / 8)).
Proof.
  intros Hac. pose proof Hac as [_ _ Hcr Hbit]. unfold uword, word.
  destruct (walk (phys s) r (fpath a)) as [f|] eqn:Hw; [|done]. cbn [mbind option_bind]. intros [= Hx].
  exists f. split; [done|]. split; [done|]. destruct (word_of_page a) as [Hm Hd].
  destruct (hw_translate_any s (word_of a) f) as [u Hu].
  - rewrite Hcr. by eapply active_page.
  - by rewrite Hcr, (fpath_div _ a).
  - unfold hw_access. by rewrite Hu, Hbit, andb_false_r, Hm.
Qed.

Lemma hw_load8_run s roots r a b : active s roots r → ubyte s r a = Some b → hw_load8 a s = Ok (s, b).
Proof.
  unfold ubyte. intros Hac Hb. destruct (uword s r a) as [w|] eqn:Hw; [|done]. injection Hb as <-.
  destruct (access_run s roots r a w Hac Hw) as (f & _ & Hx & Hrun).
  unfold hw_load8. rewrite (bind_ok (hw_load (word_of a)) _ s s w); [done|]. unfold hw_load.
  rewrite (bind_ok (hw_access (word_of a)) _ s s _ Hrun). unfold gets. by rewrite Hx.
Qed.

(** ** Writes *)

(** [s'] differs from [s] in the bytes of [r] that [upd] gives. *)
Record wrote (roots : Z → Prop) (r : Z) (s s' : vmm) (upd : Z → option Z) : Prop := {
  wr_state : ∃ m, s' = with_phys m s;
  wr_active : active s' roots r;
  wr_bytes a : user_addr s a → ubyte s' r a = match upd a with Some b => Some b | None => ubyte s r a end;
  wr_others r' a : roots r' → r' ≠ r → user_addr s a → ubyte s' r' a = ubyte s r' a;
}.

Lemma wrote_user roots r s s' upd : wrote roots r s s' upd → ∀ a, user_addr s' a ↔ user_addr s a.
Proof. intros [[m ->] _ _ _] a. done. Qed.

Lemma wrote_nil roots r s : active s roots r → wrote roots r s s (λ _, None).
Proof. intros Hac. split; [by exists (phys s); destruct s|done..]. Qed.

Lemma wrote_ext roots r s s' upd upd' : (∀ a, user_addr s a → upd a = upd' a) →
  wrote roots r s s' upd → wrote roots r s s' upd'.
Proof. intros He [H1 H2 H3 H4]. split; [done..| |done]. intros a Ha. rewrite <- He by done. by apply H3. Qed.

Lemma wrote_trans roots r s1 s2 s3 u1 u2 : wrote roots r s1 s2 u1 → wrote roots r s2 s3 u2 →
  wrote roots r s1 s3 (λ a, match u2 a with Some b => Some b | None => u1 a end).
Proof.
  intros H12 H23. pose proof (wrote_user _ _ _ _ _ H12) as Hu.
  destruct H12 as [[m1 ->] A1 B1 O1], H23 as [[m2 ->] A2 B2 O2].
  split; [by exists m2|done|..].
  - intros a Ha. rewrite B2, B1 by (done || by apply Hu). by destruct (u2 a).
  - intros r' a Hr Hne Ha. rewrite O2, O1 by (done || by apply Hu). done.
Qed.

Definition at_byte (a b : Z) : Z → option Z := λ c, if c =? a then Some b else None.

Lemma hw_store8_run s roots r a b : active s roots r → user_addr s a → is_Some (ubyte s r a) → byte_ok b →
  ∃ s', hw_store8 a b s = Ok (s', ()) ∧ wrote roots r s s' (at_byte a b).
Proof.
  intros Hac Ha [x Hx] Hb. unfold ubyte in Hx. destruct (uword s r a) as [w|] eqn:Hw; [|done].
  destruct (access_run s roots r a w Hac Hw) as (f & Hf & Hp & Hrun). pose proof Hac as [Hsys Hr Hcr Hbit].
  pose proof Hsys as (Hok & Hlock & Hnk & Hks). pose proof (user_dom s roots r a Hks Hr Ha) as HD.
  set (j := a mod 4096 / 8) in *. set (w' := set_field (bit_of a) 8 b w).
  exists (with_phys (<[f + 8 * j := w']> (phys s)) s). split.
  { unfold hw_store8. rewrite (bind_ok (hw_load (word_of a)) _ s s w).
    - unfold hw_store. by rewrite (bind_ok (hw_access (word_of a)) _ s s _ Hrun).
    - unfold hw_load. rewrite (bind_ok (hw_access (word_of a)) _ s s _ Hrun). unfold gets. by rewrite Hp. }
  set (s' := with_phys _ s). pose proof (idx_word a) as Hj. fold j in Hj.
  assert (∀ r' c, roots r' → user_addr s c → walk (phys s') r' (fpath c) = walk (phys s) r' (fpath c)) as Hwalk.
  { intros r' c Hr' Hc. apply (data_write_walk (sys_dom s roots) s r (fpath a)); try done. by apply user_dom. }
  assert (∀ r' c, roots r' → user_addr s c → ¬ (r' = r ∧ c / 4096 = a / 4096) → uword s' r' c = uword s r' c) as Hoth.
  { intros r' c Hr' Hc Hne. unfold uword, word. rewrite Hwalk by done.
    destruct (walk (phys s) r' (fpath c)) as [t|] eqn:Ht; [|done]. cbn [mbind option_bind].
    rewrite (data_write_word (sys_dom s roots) s r (fpath a) f j w' Hok HD Hf Hj r' (fpath c)); try done.
    - by apply user_dom.
    - apply idx_word.
    - intros [-> Heq]. apply Hne. split; [done|]. by apply (fpath_inj s). }
  split.
  - by eexists.
  - split; [|done..]. split; [|done]. by apply (data_write_ok (sys_dom s roots) s r (fpath a)).
  - intros c Hc. unfold at_byte, ubyte. destruct (decide (c / 4096 = a / 4096)) as [Hpg|Hpg]; cycle 1.
    { rewrite Hoth by (done || by intros [_ ?]). by destruct (Z.eqb_spec c a) as [->|]. }
    unfold uword, word. rewrite Hwalk, (fpath_div c a), Hf by done. cbn [mbind option_bind fmap option_fmap option_map].
    destruct (Z.eqb_spec c a) as [->|Hne].
    + fold j. unfold s'. cbn [phys with_phys]. rewrite fn_insert_eq. unfold w'.
      rewrite get_set_field_same; [done|unfold bit_of; lia|lia|done].
    + unfold s'. cbn [phys with_phys]. destruct (decide (c mod 4096 / 8 = j)) as [He|He].
      * rewrite He, fn_insert_eq, Hp. unfold w'. rewrite get_set_field_other; [done|..]; unfold bit_of, j in *; lia.
      * rewrite fn_insert_ne by (unfold j in *; lia). done.
  - intros r' c Hr' Hne Hc. unfold ubyte. rewrite Hoth; [done..|]. by intros [? _].
Qed.

(** The bytes [l] from address [d] on. *)
Definition span (d : Z) (l : list Z) : Z → option Z := λ a, if d <=? a then l !! Z.to_nat (a - d) else None.

Lemma span_lookup d l a : d ≤ a → span d l a = l !! Z.to_nat (a - d).
Proof. intros. unfold span. destruct (Z.leb_spec d a); [done|lia]. Qed.

Lemma span_none d l a : a < d ∨ d + Z.of_nat (length l) ≤ a → span d l a = None.
Proof.
  intros H. unfold span. destruct (Z.leb_spec d a); [|done]. apply lookup_ge_None_2. lia.
Qed.

Lemma span_cons d b l a : match span (d + 1) l a with Some x => Some x | None => at_byte d b a end =
  span d (b :: l) a.
Proof.
  unfold span, at_byte. destruct (Z.eqb_spec a d) as [->|Hne].
  - rewrite (proj2 (Z.leb_gt (d + 1) d)), Z.leb_refl, Z.sub_diag by lia. done.
  - destruct (Z.leb_spec (d + 1) a), (Z.leb_spec d a); try lia; [|done].
    replace (Z.to_nat (a - d)) with (S (Z.to_nat (a - (d + 1)))) by lia. cbn. by destruct (l !! _).
Qed.

Lemma copy_to_run roots r l : ∀ s d, active s roots r → 0 ≤ d → d + Z.of_nat (length l) ≤ 2 ^ 47 →
  (∀ a, d ≤ a < d + Z.of_nat (length l) → user_addr s a ∧ is_Some (ubyte s r a)) → Forall byte_ok l →
  ∃ s', copy_to d l s = Ok (s', ()) ∧ wrote roots r s s' (span d l).
Proof.
  induction l as [|b l IH]; intros s d Hac Hd0 Hd Hmap Hl.
  { exists s. split; [done|]. eapply wrote_ext; [|by apply wrote_nil]. intros a _. unfold span. by destruct (d <=? a). }
  apply Forall_cons in Hl as [Hb Hl]. cbn [length] in *.
  destruct (hw_store8_run s roots r d b) as (s1 & Hrun & Hw); [done|apply Hmap; lia|apply Hmap; lia|done|].
  destruct (IH s1 (d + 1)) as (s2 & Hrun2 & Hw2); [apply Hw|lia|lia| |done|].
  { intros a Ha. destruct (Hmap a) as [Hu [x Hx]]; [lia|]. split; [by apply (wrote_user _ _ _ _ _ Hw)|].
    rewrite (wr_bytes _ _ _ _ _ Hw) by done. destruct (at_byte d b a); eauto. }
  exists s2. split.
  - cbn [copy_to]. rewrite (bind_ok (hw_store8 d b) _ s s1 () Hrun). rewrite wrap_small; [done|].
    unfold is_word. pow_consts. lia.
  - eapply wrote_ext; [|by eapply wrote_trans]. intros a _. apply span_cons.
Qed.

(** ** Mapping fresh pages *)

(** After [map_user_pages] over a range none of whose pages was mapped: the pages hold bytes, the rest is
    as before. *)
Record opened (roots : Z → Prop) (r : Z) (s s' : vmm) (virt bytes : Z) : Prop := {
  op_restored : restored s s';
  op_active : active s' roots r;
  op_avail : (avail (vm_pmm s) ≤ 4 * length (range_pages virt bytes) + avail (vm_pmm s'))%nat;
  op_new a : touched virt bytes a → is_Some (ubyte s' r a);
  op_old r' a : roots r' → user_addr s a → ¬ (r' = r ∧ touched virt bytes a) → ubyte s' r' a = ubyte s r' a;
}.

Lemma ubyte_same_as s s' r r' a : uword s' r' a = uword s r a → ubyte s' r' a = ubyte s r a.
Proof. unfold ubyte. by intros ->. Qed.

Lemma ubyte_of_page s s' r a : walk (phys s') r (fpath a) = walk (phys s) r (fpath a) →
  same_page s s' r (fpath a) → ubyte s' r a = ubyte s r a.
Proof.
  intros Hw Hp. apply ubyte_same_as. unfold uword, word. rewrite Hw.
  destruct (walk (phys s) r (fpath a)) as [t|] eqn:Ht; [|done]. cbn. f_equal. apply (Hp t Ht), idx_word.
Qed.

Lemma pte_walk s r a : walk (phys s) r (fpath a) = pte s r a ≫= target.
Proof.
  unfold pte. change (fpath a) with (upath a ++ [idx1 a]). rewrite walk_word. unfold leaf.
  destruct (word (phys s) r (upath a) (idx1 a)) as [w|]; cbn; [|done]. unfold target.
  destruct (Entry.present w) eqn:Hp; cbn; [by rewrite Hp|done].
Qed.

(** Mapping user memory, whatever address space is active. *)
Lemma map_user_bytes s roots r virt bytes : sys_ok s roots → roots r →
  0 ≤ virt → 0 < bytes → virt + bytes ≤ get_kernel_pml4_index s * 2 ^ 39 →
  (4 * length (range_pages virt bytes) ≤ avail (vm_pmm s))%nat →
  ∃ s', map_user_pages (hhdm_ptov s r) virt bytes s = Ok (s', ()) ∧ restored s s' ∧ sys_ok s' roots ∧
    (avail (vm_pmm s) ≤ 4 * length (range_pages virt bytes) + avail (vm_pmm s'))%nat ∧
    (∀ a, touched virt bytes a → is_Some (ubyte s' r a) ∧
       ∃ w f, pte s' r a = Some w ∧ Entry.frame_of w = f ∧ frame_free (vm_pmm s) (frame_at f) = true) ∧
    (∀ r' a, roots r' → user_addr s a → ¬ (r' = r ∧ touched virt bytes a) → ubyte s' r' a = ubyte s r' a).
Proof.
  intros Hsys Hr Hv Hb Hend Hav. pose proof Hsys as (_ & _ & _ & Hks). unfold map_user_pages.
  destruct (map_user_run s roots r virt bytes (Z.lor PAGE_USER PAGE_WRITE)) as (s' & Hrun & Hres & Hsys' & Hm); try done.
  exists s'. split; [done|]. split; [done|]. split; [done|]. split; [apply Hm|]. split.
  - intros a Ht. destruct (map_user_new s roots r virt bytes _ Hv Hb s' a Hm Ht) as (w & f & Hw & Hat & Hfr). split.
    + unfold ubyte, uword, word. rewrite pte_walk, Hw. cbn. rewrite (at_target _ _ _ Hat). eauto.
    + exists w, f. split; [done|]. split; [by eapply attrs_frame|done].
  - intros r' a Hr' Ha Hnot. pose proof (user_dom s roots r' a Hks Hr' Ha) as HD. apply ubyte_of_page.
    + rewrite !pte_walk. by rewrite (map_user_old s roots r virt bytes _ Hsys Hv Hb Hend s' r' a Hm).
    + apply (ma_page _ _ _ _ _ _ Hm); [done..|]. intros v Hin [-> Heq]. apply Hnot. split; [done|].
      destruct (range_page_user s virt bytes v) as (Hvu & Hal & b & Hbr & Hbd); [done..|].
      exists b. split; [done|]. rewrite <- Hbd. by apply (fpath_inj s).
Qed.

Lemma map_user_pages_opens s roots r virt bytes : active s roots r →
  0 ≤ virt → 0 < bytes → virt + bytes ≤ get_kernel_pml4_index s * 2 ^ 39 →
  (4 * length (range_pages virt bytes) ≤ avail (vm_pmm s))%nat →
  ∃ s', map_user_pages (hhdm_ptov s r) virt bytes s = Ok (s', ()) ∧ opened roots r s s' virt bytes.
Proof.
  intros [Hsys Hr Hcr Hbit] Hv Hb Hend Hav.
  destruct (map_user_bytes s roots r virt bytes) as (s' & Hrun & Hres & Hsys' & Hav' & Hnew & Hold); try done.
  exists s'. split; [done|]. pose proof (rs_cpu _ _ Hres) as Hcpu. split; [done| |done| |done].
  - split; [done|done|by rewrite Hcpu|by rewrite Hcpu].
  - intros a Ht. by apply Hnew.
Qed.
