(* ===== verification/Elf.v ===== *)
(** * ELF files

    [src/kernel/include/process/elf.hpp] and [src/kernel/lib/process/elf.cpp]: the headers of a 64-bit ELF
    file as the packed structs overlay its bytes, and [parse_file], which checks the identification and
    collects the loadable segments.  The buffer is the list of its bytes; a header that lies outside it is
    read out of bounds by the code and is a fault here ([parse_file] is given the size and ignores it). *)

From S2P Require Import Prelude Bytes.

#[local] Coercion Z.of_nat : nat >-> Z.

Definition EI_CLASS : Z := 4.
Definition E_MAG : list Z := [0x7F; 0x45; 0x4C; 0x46].
Definition ELFCLASS64 : Z := 2.
Definition EM_X86_64 : Z := 0x3E.
Definition ET_EXEC : Z := 2.
Definition PT_LOAD : Z := 1.

Record Elf64_Header := mk_Elf64_Header {
  e_ident : list Z;
  e_type : Z;
  e_machine : Z;
  e_version : Z;
  e_entry : Z;
  e_phoff : Z;
  e_shoff : Z;
  e_flags : Z;
  e_ehsize : Z;
  e_phentsize : Z;
  e_phnum : Z;
  e_shentsize : Z;
  e_shnum : Z;
  e_shstrndx : Z;
}.

Record Elf64_ProgramHeader := mk_Elf64_ProgramHeader {
  p_type : Z;
  p_flags : Z;
  p_offset : Z;
  p_vaddr : Z;
  p_paddr : Z;
  p_filesz : Z;
  p_memsz : Z;
  p_align : Z;
}.

Record Elf64_File := mk_Elf64_File {
  is_valid_elf : bool;
  file_entry : Z;
  program_headers : list Elf64_ProgramHeader;
}.

(** [reinterpret_cast<Elf64_Header*>(b)] and [reinterpret_cast<Elf64_ProgramHeader*>(b)]. *)
Definition get_header (b : list Z) : option Elf64_Header :=
  '(ident, b) ← take_bytes 16 b;
  '(type, b) ← take_le 2 b;
  '(machine, b) ← take_le 2 b;
  '(version, b) ← take_le 4 b;
  '(entry, b) ← take_le 8 b;
  '(phoff, b) ← take_le 8 b;
  '(shoff, b) ← take_le 8 b;
  '(flags, b) ← take_le 4 b;
  '(ehsize, b) ← take_le 2 b;
  '(phentsize, b) ← take_le 2 b;
  '(phnum, b) ← take_le 2 b;
  '(shentsize, b) ← take_le 2 b;
  '(shnum, b) ← take_le 2 b;
  '(shstrndx, b) ← take_le 2 b;
  Some (mk_Elf64_Header ident type machine version entry phoff shoff flags ehsize phentsize phnum shentsize
          shnum shstrndx).

Definition get_program_header (b : list Z) : option Elf64_ProgramHeader :=
  '(type, b) ← take_le 4 b;
  '(flags, b) ← take_le 4 b;
  '(offset, b) ← take_le 8 b;
  '(vaddr, b) ← take_le 8 b;
  '(paddr, b) ← take_le 8 b;
  '(filesz, b) ← take_le 8 b;
  '(memsz, b) ← take_le 8 b;
  '(align, b) ← take_le 8 b;
  Some (mk_Elf64_ProgramHeader type flags offset vaddr paddr filesz memsz align).

Definition validate_magic (h : Elf64_Header) : bool := bool_decide (take 4 (e_ident h) = E_MAG).
Definition validate_class (h : Elf64_Header) : bool :=
  bool_decide (e_ident h !! Z.to_nat EI_CLASS = Some ELFCLASS64).
Definition validate_machine (h : Elf64_Header) : bool := e_machine h =? EM_X86_64.
Definition validate_type (h : Elf64_Header) : bool := e_type h =? ET_EXEC.

(** The loop over the program headers; [file] is the result so far. *)
Fixpoint collect {S} (bytes : list Z) (h : Elf64_Header) (idx : list Z) (file : Elf64_File) : M S Elf64_File :=
  match idx with
  | [] => mret file
  | i :: idx =>
      phdr ← of_option (get_program_header (from_offset (e_phoff h + i * e_phentsize h) bytes));
      collect bytes h idx
        (if p_type phdr =? PT_LOAD
         then mk_Elf64_File true (file_entry file) (program_headers file ++ [phdr]) else file)
  end.

(** [buffer] is the address of the [bytes]. *)
Definition parse_file {S} (buffer : Z) (bytes : list Z) : M S Elf64_File :=
  _ ← kassert_not_null buffer;
  header ← of_option (get_header bytes);
  _ ← kassert (validate_magic header);
  _ ← kassert (validate_class header);
  _ ← kassert (validate_machine header);
  _ ← kassert (validate_type header);
  collect bytes header (seqZ 0 (e_phnum header)) (mk_Elf64_File false (e_entry header) []).

(** ** Files *)

(** The layout the ELF specification gives the headers. *)
Definition put_header (h : Elf64_Header) : list Z :=
  e_ident h ++ le_split 2 (e_type h) ++ le_split 2 (e_machine h) ++ le_split 4 (e_version h) ++
  le_split 8 (e_entry h) ++ le_split 8 (e_phoff h) ++ le_split 8 (e_shoff h) ++ le_split 4 (e_flags h) ++
  le_split 2 (e_ehsize h) ++ le_split 2 (e_phentsize h) ++ le_split 2 (e_phnum h) ++
  le_split 2 (e_shentsize h) ++ le_split 2 (e_shnum h) ++ le_split 2 (e_shstrndx h).
Definition put_program_header (p : Elf64_ProgramHeader) : list Z :=
  le_split 4 (p_type p) ++ le_split 4 (p_flags p) ++ le_split 8 (p_offset p) ++ le_split 8 (p_vaddr p) ++
  le_split 8 (p_paddr p) ++ le_split 8 (p_filesz p) ++ le_split 8 (p_memsz p) ++ le_split 8 (p_align p).

Record header_ok (h : Elf64_Header) : Prop := {
  ho_ident : length (e_ident h) = 16%nat;
  ho_2 x : x ∈ [e_type h; e_machine h; e_ehsize h; e_phentsize h; e_phnum h; e_shentsize h; e_shnum h;
                e_shstrndx h] → is_word 16 x;
  ho_4 x : x ∈ [e_version h; e_flags h] → is_word 32 x;
  ho_8 x : x ∈ [e_entry h; e_phoff h; e_shoff h] → is_word 64 x;
}.
Record program_header_ok (p : Elf64_ProgramHeader) : Prop := {
  po_4 x : x ∈ [p_type p; p_flags p] → is_word 32 x;
  po_8 x : x ∈ [p_offset p; p_vaddr p; p_paddr p; p_filesz p; p_memsz p; p_align p] → is_word 64 x;
}.

Lemma put_header_length h : header_ok h → length (put_header h) = 64%nat.
Proof. intros [Hi _ _ _]. unfold put_header. rewrite !length_app, !le_split_length, Hi. done. Qed.

Lemma put_program_header_length p : length (put_program_header p) = 56%nat.
Proof. unfold put_program_header. rewrite !length_app, !le_split_length. done. Qed.

Lemma put_program_headers_length ps : (length (concat (put_program_header <$> ps)) = length ps * 56)%nat.
Proof.
  induction ps as [|p l IH]; [done|]. rewrite fmap_cons. cbn [concat length].
  rewrite length_app, put_program_header_length, IH. lia.
Qed.

Lemma get_put_header h l : header_ok h → get_header (put_header h ++ l) = Some h.
Proof.
  intros [Hi H2 H4 H8]. unfold get_header, put_header. rewrite <- !app_assoc, take_bytes_app by done.
  cbn [mbind option_bind]. destruct h; cbn -[le_split] in *.
  repeat (rewrite take_le_split; cbn [mbind option_bind]); first
    [ done | apply H2; set_solver | apply H4; set_solver | apply H8; set_solver ].
Qed.

Lemma get_put_program_header p l : program_header_ok p → get_program_header (put_program_header p ++ l) = Some p.
Proof.
  intros [H4 H8]. unfold get_program_header, put_program_header. rewrite <- !app_assoc. destruct p; cbn -[le_split] in *.
  repeat (rewrite take_le_split; cbn [mbind option_bind]); first
    [ done | apply H4; set_solver | apply H8; set_solver ].
Qed.

(** ** What [parse_file] returns *)

Definition loadable (p : Elf64_ProgramHeader) : Prop := p_type p = PT_LOAD.
#[export] Instance loadable_dec p : Decision (loadable p).
Proof. unfold loadable. apply _. Defined.

Definition add_headers (ps : list Elf64_ProgramHeader) (f : Elf64_File) : Elf64_File :=
  mk_Elf64_File (is_valid_elf f || negb (bool_decide (filter loadable ps = []))) (file_entry f)
    (program_headers f ++ filter loadable ps).

Lemma collect_run {S} bytes h (st : S) ps : ∀ idx file,
  Forall2 (λ i p, get_program_header (from_offset (e_phoff h + i * e_phentsize h) bytes) = Some p) idx ps →
  collect bytes h idx file st = Ok (st, add_headers ps file).
Proof.
  induction ps as [|p ps IH]; intros idx file HF; inversion HF as [|i ? idx' ? Hi Hr]; subst.
  { destruct file. unfold add_headers. cbn. rewrite orb_false_r, app_nil_r. done. }
  cbn [collect]. rewrite Hi. cbn [of_option]. unfold mbind, M_bind, mret, M_ret. rewrite IH by done.
  unfold add_headers, loadable. rewrite filter_cons. destruct file as [v e hs]. cbn.
  destruct (Z.eqb_spec (p_type p) PT_LOAD); [rewrite decide_True by done|rewrite decide_False by done]; cbn; [|done].
  do 3 f_equal; [by rewrite orb_true_r|by rewrite <- app_assoc].
Qed.

Definition identified (h : Elf64_Header) : bool :=
  validate_magic h && validate_class h && validate_machine h && validate_type h.

Lemma parse_file_run {S} buffer bytes h (st : S) : buffer ≠ 0 → get_header bytes = Some h →
  parse_file buffer bytes st =
  if identified h
  then collect bytes h (seqZ 0 (e_phnum h)) (mk_Elf64_File false (e_entry h) []) st else Panic.
Proof.
  intros Hb Hh. unfold parse_file, kassert_not_null, identified. rewrite (proj2 (Z.eqb_neq _ _)), Hh by done.
  cbn. unfold mbind, M_bind, mret, M_ret.
  destruct (validate_magic h), (validate_class h), (validate_machine h), (validate_type h); done.
Qed.

(** An executable with program headers [ps] directly behind the header, and the rest of the file. *)
Definition elf_image (h : Elf64_Header) (ps : list Elf64_ProgramHeader) (rest : list Z) : list Z :=
  put_header h ++ concat (put_program_header <$> ps) ++ rest.

(** The bytes of a file with the header [h] and the program headers [ps], which are wherever [h] says, [e_phentsize]
    apart; what else is in the file, and where, does not matter. *)
Record elf_file (h : Elf64_Header) (ps : list Elf64_ProgramHeader) (bytes : list Z) : Prop := {
  ef_header : header_ok h ∧ put_header h `prefix_of` bytes;
  ef_number : e_phnum h = length ps;
  ef_programs (i : nat) p : ps !! i = Some p → program_header_ok p ∧
    put_program_header p `prefix_of` from_offset (e_phoff h + i * e_phentsize h) bytes;
}.

Lemma elf_image_file h ps rest : header_ok h → Forall program_header_ok ps → e_phoff h = 64 → e_phentsize h = 56 →
  e_phnum h = length ps → elf_file h ps (elf_image h ps rest).
Proof.
  intros Hh Hps Hoff Hsz Hn. split; [split; [done|by eexists]|done|]. intros i p Hp. rewrite Forall_forall in Hps.
  split; [by eapply Hps, list_elem_of_lookup_2|]. rewrite Hoff, Hsz. unfold elf_image.
  rewrite <- (take_drop_middle ps i p Hp) at 1. rewrite fmap_app, concat_app. cbn [fmap list_fmap concat].
  set (a := concat _). rewrite <- !app_assoc, (app_assoc (put_header h) a).
  replace (64 + i * 56) with (Z.of_nat (length (put_header h ++ a))); [rewrite from_offset_app; by eexists|].
  rewrite length_app, put_header_length by done. assert (length a = i * 56)%nat as ->; [|lia]. unfold a.
  rewrite put_program_headers_length, length_take_le; [done|]. pose proof (lookup_lt_Some _ _ _ Hp). lia.
Qed.


Definition demo_header : Elf64_Header :=
  mk_Elf64_Header (E_MAG ++ [2; 1; 1; 0; 0; 0; 0; 0; 0; 0; 0; 0]) ET_EXEC EM_X86_64 1 0x401000 64 0 0 64 56 2 64 0 0.
Definition demo_note : Elf64_ProgramHeader := mk_Elf64_ProgramHeader 4 4 0 0 0 0 0 0.
Definition demo_segment : Elf64_ProgramHeader := mk_Elf64_ProgramHeader PT_LOAD 5 176 0x401000 0x401000 4 8 4096.

Lemma demo_header_ok : header_ok demo_header.
Proof. split; [done|..]; apply Forall_forall; repeat constructor; by vm_compute. Qed.
Lemma demo_segment_ok : program_header_ok demo_segment.
Proof. split; apply Forall_forall; repeat constructor; by vm_compute. Qed.
Lemma demo_note_ok : program_header_ok demo_note.
Proof. split; apply Forall_forall; repeat constructor; by vm_compute. Qed.

(** Program headers before the data they describe, after a gap, and larger than they have to be. *)
Definition demo_apart : Elf64_Header :=
  mk_Elf64_Header (E_MAG ++ [2; 1; 1; 0; 0; 0; 0; 0; 0; 0; 0; 0]) ET_EXEC EM_X86_64 1 0x401000 72 0 0 64 60 2 64 0 0.
Definition demo_apart_bytes : list Z :=
  put_header demo_apart ++ replicate 8 7 ++ put_program_header demo_note ++ [1; 2; 3; 4] ++ put_program_header demo_segment.

