(* ===== verification/Exec.v ===== *)
(** * Loading programs and forking

    The part of [src/kernel/lib/process/process.cpp] that builds process images: the segments of an ELF file
    in a fresh user address space ([map_elf64_header]), the initial user stack ([build_user_stack]), the
    frames a process starts from ([build_synthetic_context_frame], [copy_syscall_frame]), [exec_elf64] and
    [fork]; and the calls that grow an address space ([src/kernel/lib/syscall/sys_mem.cpp]).

    The state is the memory manager, the process the method is called on, and the words of the kernel
    stacks.  Strings are the lists of their bytes.  The addresses of the entry routines, the storage of a new
    [Process] object and of its kernel stack are arguments. *)

From S2P Require Import Prelude Bytes Cpu Spinlock Pmm Vmm Process UserSpace Elf.

#[local] Coercion Z.of_nat : nat >-> Z.

Definition USER_STACK_BASE : Z := 0x00800000.
Definition USER_STACK_SIZE : Z := 32 * 1024.
Definition USER_STACK_TOP : Z := USER_STACK_BASE + USER_STACK_SIZE.
(** [sizeof(SyscallFrame)]: sixteen registers. *)
Definition SIZEOF_SYSCALL_FRAME : Z := 128.

Record exec := mk_exec {
  x_vm : vmm;
  x_proc : Process;
  x_stack : gmap Z Z;
}.
Definition with_x_vm (v : vmm) (x : exec) : exec := mk_exec v (x_proc x) (x_stack x).
Definition with_x_proc (f : Process → Process) (x : exec) : exec := mk_exec (x_vm x) (f (x_proc x)) (x_stack x).
Definition with_x_stack (f : gmap Z Z → gmap Z Z) (x : exec) : exec := mk_exec (x_vm x) (x_proc x) (f (x_stack x)).

Definition on_vm {A} (m : M vmm A) : M exec A := zoom x_vm with_x_vm m.
Definition on_cpu_of (f : cpu → cpu) : M exec unit := on_vm (modify (λ s, with_vm_cpu (f (vm_cpu s)) s)).
Definition proc_set (f : Process → Process) : M exec unit := modify (with_x_proc f).

(** ** Setters of the members these methods assign *)

Definition with_space (space brk : Z) (h : Heap) (p : Process) : Process :=
  mk_Process (pid p) (parent p) (state p) (wait_reason p) (wait_pid p) (exit_status p) (context_switches p)
    (wake_time_ns p) (quantum_start_ns p) (cwd_inode p) (wait_mutex p) space brk h (kernel_stack p)
    (p_kernel_rsp p) (kernel_rsp_saved p) (p_user_rsp p) (context_frame p) (syscall_frame p) (fd_table p)
    (entry p) (fs_base p) (tidptr p).
Definition with_heap_break (brk : Z) (p : Process) : Process := with_space (pml4 p) brk (uheap p) p.
Definition with_frames (krsp saved ctx sys : Z) (p : Process) : Process :=
  mk_Process (pid p) (parent p) (state p) (wait_reason p) (wait_pid p) (exit_status p) (context_switches p)
    (wake_time_ns p) (quantum_start_ns p) (cwd_inode p) (wait_mutex p) (pml4 p) (heap_break p) (uheap p)
    (kernel_stack p) krsp saved (p_user_rsp p) ctx sys (fd_table p) (entry p) (fs_base p) (tidptr p).
Definition with_start (ursp start fs tid : Z) (p : Process) : Process :=
  mk_Process (pid p) (parent p) (state p) (wait_reason p) (wait_pid p) (exit_status p) (context_switches p)
    (wake_time_ns p) (quantum_start_ns p) (cwd_inode p) (wait_mutex p) (pml4 p) (heap_break p) (uheap p)
    (kernel_stack p) (p_kernel_rsp p) (kernel_rsp_saved p) ursp (context_frame p) (syscall_frame p)
    (fd_table p) start fs tid.

(** ** Frames on a kernel stack *)

(** The registers in the order of [struct ContextFrame]; the return address is last. *)
Definition context_words (start : Z) : list Z :=
  [0x15151515; 0x14141414; 0x13131313; 0x12121212; 0x12345678; 0x77777777; start].
Definition build_synthetic_context_frame (start : Z) : M exec unit :=
  frame ← gets (λ x, context_frame (x_proc x));
  _ ← modify (with_x_stack (store_words frame (context_words start)));
  proc_set (λ p, with_frames (p_kernel_rsp p) frame (context_frame p) (syscall_frame p) p).

(** The sixteen words of the frame at [frame], to the frame of the process, in the order the code copies them. *)
Definition copy_syscall_frame (to frame : Z) : M exec unit :=
  for_each (seqZ 0 16) (λ i,
    w ← gets (λ x, x_stack x !! wrap64 (frame + 8 * i));
    w ← of_option w;
    modify (with_x_stack (insert (wrap64 (to + 8 * i)) w))).

(** ** Program segments *)

(** [memcpy] from the file buffer: bytes outside it are not the file's. *)
Definition file_bytes (bytes : list Z) (offset n : Z) : option (list Z) :=
  if (0 <=? offset) && (offset + n <=? length bytes) then Some (take (Z.to_nat n) (drop (Z.to_nat offset) bytes))
  else None.

Definition map_elf64_header (bytes : list Z) (h : Elf64_ProgramHeader) : M exec unit :=
  let virt := p_vaddr h in
  let file_size := p_filesz h in
  let mem_size := p_memsz h in
  space ← gets (λ x, pml4 (x_proc x));
  _ ← on_vm (map_user_pages space virt mem_size);
  src ← of_option (file_bytes bytes (p_offset h) file_size);
  _ ← on_vm (copy_to virt src);
  _ ← (if file_size <? mem_size
       then on_vm (copy_to (wrap64 (virt + file_size)) (replicate (Z.to_nat (mem_size - file_size)) 0))
       else mret ());
  let segment_end := wrap64 (virt + mem_size) in
  brk ← gets (λ x, heap_break (x_proc x));
  if brk <? segment_end
  then proc_set (with_heap_break (Z.land (wrap64 (segment_end + 0xFFF)) (wrap64 (Z.lnot 0xFFF))))
  else mret ().

(** ** The initial stack *)

(** [*(--stack) = w] *)
Definition push64 (sp w : Z) : M vmm Z :=
  let sp := wrap64 (sp - 8) in _ ← store64 sp w; mret sp.
Fixpoint push_words (sp : Z) (ws : list Z) : M vmm Z :=
  match ws with
  | [] => mret sp
  | w :: ws => sp ← push64 sp w; push_words sp ws
  end.

Definition push_string (sp : Z) (str : list Z) : M vmm Z :=
  let ptr := wrap64 (sp - (length str + 1)) in
  _ ← copy_to ptr str;
  _ ← hw_store8 (wrap64 (ptr + length str)) 0;
  mret ptr.
(** A loop that pushes strings and appends their addresses to the vector [ptrs]. *)
Fixpoint push_strings (sp : Z) (strs : list (list Z)) (ptrs : list Z) : M vmm (Z * list Z) :=
  match strs with
  | [] => mret (sp, ptrs)
  | str :: strs => sp ← push_string sp str; push_strings sp strs (ptrs ++ [sp])
  end.

(** Both loops append to [argv_ptrs]; [envp_ptrs] stays empty. *)
Definition build_user_stack (argv_strs envp_strs : list (list Z)) : M exec unit :=
  space ← gets (λ x, pml4 (x_proc x));
  _ ← on_vm (map_user_pages space USER_STACK_BASE USER_STACK_SIZE);
  rsp ← on_vm (
    sp ← push64 USER_STACK_TOP 0;
    let argv_ptrs := [] in
    let envp_ptrs := [] in
    '(sp, argv_ptrs) ← push_strings sp envp_strs argv_ptrs;
    '(sp, argv_ptrs) ← push_strings sp argv_strs argv_ptrs;
    sp ← push64 sp 0;
    sp ← push64 sp 0;
    sp ← push64 sp 0;
    sp ← push_words sp (reverse envp_ptrs);
    sp ← push64 sp 0;
    sp ← push_words sp (reverse argv_ptrs);
    push64 sp (length argv_strs));
  proc_set (λ p, with_start rsp (entry p) (fs_base p) (tidptr p) p).

(** ** [exec_elf64] *)

(** [free_user_pml4] on the old address space, if there is one. *)
Definition drop_space : M exec unit :=
  space ← gets (λ x, pml4 (x_proc x));
  if space =? 0 then mret () else on_vm (free_user_pml4 space).

(** The members [exec_elf64] resets. *)
Definition reset_process (space : Z) (h : Heap) (start : Z) (p : Process) : Process :=
  let krsp := wrap64 (kernel_stack p + KERNEL_STACK_SIZE) in
  with_start (p_user_rsp p) start 0 0
    (with_frames krsp (kernel_rsp_saved p) (wrap64 (krsp - SIZEOF_CONTEXT_FRAME)) (syscall_frame p)
      (with_space space 0 h
        (with_exit_status 0 (with_wait NEW NONE (wait_pid p) (wait_mutex p) 0 p)))).

Definition exec_elf64 (trampoline buffer : Z) (bytes : list Z) (argv_strs envp_strs : list (list Z))
  : M exec unit :=
  _ ← kassert_not_null buffer;
  file ← parse_file buffer bytes;
  if negb (is_valid_elf file) then panic else
  _ ← drop_space;
  space ← on_vm create_user_pml4;
  _ ← on_vm (switch_pml4 space);
  _ ← on_cpu_of stac;
  h ← on_vm (create_user_heap space);
  _ ← proc_set (reset_process space h (file_entry file));
  _ ← for_each (program_headers file) (map_elf64_header bytes);
  _ ← build_user_stack argv_strs envp_strs;
  _ ← build_synthetic_context_frame trampoline;
  _ ← on_vm switch_kernel_pml4;
  on_cpu_of clac.

(** ** [fork]

    [this] is the address of the forking process, [g] the storage of the new object, [new_pid] the value of
    [g_pid++] and [stack] the new kernel stack. *)
Definition forked_process (this space : Z) (h : Heap) (p c : Process) : Process :=
  let sys := wrap64 (p_kernel_rsp c - SIZEOF_SYSCALL_FRAME) in
  let ctx := wrap64 (sys - SIZEOF_CONTEXT_FRAME) in
  mk_Process (pid c) this NEW (wait_reason p) (wait_pid c) (exit_status p) (context_switches c)
    (wake_time_ns p) (quantum_start_ns p) (cwd_inode p) (wait_mutex c) space (heap_break p) h
    (kernel_stack c) (p_kernel_rsp c) (kernel_rsp_saved c) (p_user_rsp c) ctx sys (fd_table p) (entry c)
    (fs_base p) (tidptr p).

(** The frames are written with the child in the place of the process. *)
Definition fork (this forked_entry : Z) (g : Process) (new_pid stack : Z) : M exec Process :=
  p ← gets x_proc;
  cloned ← on_vm (clone_user_pml4 (pml4 p));
  _ ← on_vm (switch_pml4 cloned);
  _ ← on_cpu_of stac;
  let c := new_Process g new_pid stack in
  h ← on_vm (clone_user_heap (uheap p) cloned);
  _ ← proc_set (λ _, forked_process this cloned h p c);
  _ ← copy_syscall_frame (wrap64 (p_kernel_rsp c - SIZEOF_SYSCALL_FRAME)) (syscall_frame p);
  _ ← build_synthetic_context_frame forked_entry;
  forked ← gets x_proc;
  _ ← proc_set (λ _, p);
  _ ← on_vm (switch_pml4 (pml4 p));
  _ ← on_cpu_of clac;
  mret forked.

(** ** Memory calls *)

Definition MAP_ANONYMOUS : Z := 0x20.

Definition sys_brk (addr : Z) : M exec Z :=
  p ← gets x_proc;
  if addr =? 0 then mret (heap_break p) else
  let hb_start := heap_break p in
  let hb_end := addr in
  if hb_end <=? hb_start then mret hb_start else
  let size := wrap64 (hb_end - hb_start) in
  _ ← on_vm (map_pages (pml4 p) hb_start size (Z.lor PAGE_USER PAGE_WRITE));
  _ ← proc_set (with_heap_break hb_end);
  mret hb_end.

Definition sys_mmap (length flags : Z) : M exec Z :=
  if Z.land flags MAP_ANONYMOUS =? 0 then mret (wrap64 (-1)) else
  p ← gets x_proc;
  r ← on_vm (map_heap_pages (pml4 p) (uheap p) length (Z.lor PAGE_WRITE PAGE_USER));
  _ ← proc_set (with_space (pml4 p) (heap_break p) r.1);
  mret r.2.

Definition sys_munmap (addr length : Z) : M exec Z := mret 0.
