(* ===== verification/ExecProofs.v ===== *)
(** * Theorems about program loading

    [exec_elf64] of [Exec.v] builds the address space an ELF file describes; the initial stack holds the
    argument strings where the program looks for them; [fork] makes an independent copy of the process. *)

From Stdlib Require Import Sorting.Sorted.
From stdpp Require Import functions.
From S2P Require Import Prelude Bytes Cpu Spinlock Pmm Vmm VmmTree VmmProofs VmmFree VmmSpace.
From S2P Require Import VmmClone VmmHeap VmmTheorems Process UserSpace Elf Exec.

#[local] Coercion Z.of_nat : nat >-> Z.

(** ** Steps of the loader *)

Lemma on_vm_run {A} (m : M vmm A) x s' a : m (x_vm x) = Ok (s', a) → on_vm m x = Ok (with_x_vm s' x, a).
Proof. intros H. unfold on_vm, zoom. by rewrite H. Qed.

(** What the operations on user memory leave alone. *)
Record same_system (s s' : vmm) : Prop := {
  ss_cpu : vm_cpu s' = vm_cpu s;
  ss_pml4 : kernel_pml4 s' = kernel_pml4 s;
  ss_hhdm : hhdm_offset s' = hhdm_offset s;
}.
#[export] Instance same_system_preorder : PreOrder same_system.
Proof. split; [by split|]. intros s1 s2 s3 [] []. split; congruence. Qed.

Lemma same_system_restored s s' : restored s s' → same_system s s'.
Proof. by intros []. Qed.

Lemma same_system_wrote roots r s s' upd : wrote roots r s s' upd → same_system s s'.
Proof. by intros [[m ->] _ _ _]. Qed.

Lemma same_system_user s s' a : same_system s s' → user_addr s' a ↔ user_addr s a.
Proof. intros []. unfold user_addr, get_kernel_pml4_index. by rewrite ss_hhdm0. Qed.

Lemma same_system_ptov s s' a : same_system s s' → hhdm_ptov s' a = hhdm_ptov s a.
Proof. intros []. unfold hhdm_ptov. by rewrite ss_hhdm0. Qed.

Lemma same_system_index s s' : same_system s s' → get_kernel_pml4_index s' = get_kernel_pml4_index s.
Proof. intros []. unfold get_kernel_pml4_index. by rewrite ss_hhdm0. Qed.

(** ** Segments *)

Record seg_ok (ks : Z) (bytes : list Z) (h : Elf64_ProgramHeader) : Prop := {
  so_vaddr : 0 ≤ p_vaddr h;
  so_memsz : 0 < p_memsz h;
  so_filesz : 0 ≤ p_filesz h ≤ p_memsz h;
  so_file : 0 ≤ p_offset h ∧ p_offset h + p_filesz h ≤ length bytes;
  so_end : p_vaddr h + p_memsz h ≤ ks * 2 ^ 39;
}.

Definition in_seg (h : Elf64_ProgramHeader) (a : Z) : Prop := p_vaddr h ≤ a < p_vaddr h + p_memsz h.
(** What the segment holds at [a]: the file's bytes, then zeros. *)
Definition seg_byte (bytes : list Z) (h : Elf64_ProgramHeader) (a : Z) : option Z :=
  if a <? p_vaddr h + p_filesz h then bytes !! Z.to_nat (p_offset h + (a - p_vaddr h)) else Some 0.
Definition seg_touches (h : Elf64_ProgramHeader) (a : Z) : Prop := touched (p_vaddr h) (p_memsz h) a.
Definition seg_pages (h : Elf64_ProgramHeader) : nat := length (range_pages (p_vaddr h) (p_memsz h)).

Lemma in_seg_touches h a : in_seg h a → seg_touches h a.
Proof. intros Ha. by exists a. Qed.

Lemma touched_user s virt bytes a : 0 ≤ virt → virt + bytes ≤ get_kernel_pml4_index s * 2 ^ 39 →
  touched virt bytes a → user_addr s a.
Proof.
  intros Hv He (b & Hb & Hd). unfold user_addr in *. pow_consts. lia.
Qed.

(** A segment loaded: its bytes, and every byte off its pages as before. *)
Record loaded (roots : Z → Prop) (q : Z) (bytes : list Z) (h : Elf64_ProgramHeader) (s s' : vmm) : Prop := {
  ld_active : active s' roots q;
  ld_same : same_system s s';
  ld_avail : (avail (vm_pmm s) ≤ 4 * seg_pages h + avail (vm_pmm s'))%nat;
  ld_bytes a : in_seg h a → ubyte s' q a = seg_byte bytes h a;
  ld_old r' a : roots r' → user_addr s a → ¬ (r' = q ∧ seg_touches h a) → ubyte s' r' a = ubyte s r' a;
}.

Lemma file_bytes_run bytes h ks : seg_ok ks bytes h →
  ∃ src, file_bytes bytes (p_offset h) (p_filesz h) = Some src ∧ length src = Z.to_nat (p_filesz h) ∧
    (∀ i : nat, (i < p_filesz h) → src !! i = bytes !! Z.to_nat (p_offset h + i)) ∧
    (Forall byte_ok bytes → Forall byte_ok src).
Proof.
  intros [_ _ Hf [Ho He] _]. unfold file_bytes.
  destruct (Z.leb_spec 0 (p_offset h)); [|lia]. destruct (Z.leb_spec (p_offset h + p_filesz h) (length bytes)); [|lia].
  eexists. split; [done|]. split_and!.
  - rewrite length_take, length_drop. lia.
  - intros i Hi. rewrite lookup_take_lt, lookup_drop by lia. f_equal. lia.
  - intros Hb. by apply Forall_take, Forall_drop.
Qed.

(** Filling mapped user memory. *)
Lemma fill_user s roots r d l : active s roots r → 0 ≤ d → d + length l ≤ get_kernel_pml4_index s * 2 ^ 39 →
  (∀ a, d ≤ a < d + length l → is_Some (ubyte s r a)) → Forall byte_ok l →
  ∃ s', copy_to d l s = Ok (s', ()) ∧ wrote roots r s s' (span d l).
Proof.
  intros Hac Hd He Hm Hl. destruct (ac_sys _ _ _ Hac) as (_ & _ & _ & Hks).
  apply copy_to_run; [done..|pow_consts; lia| |done].
  intros a Ha. split; [|by apply Hm]. unfold user_addr. lia.
Qed.

Section load_segment.
Context (roots : Z → Prop) (q : Z) (bytes : list Z) (h : Elf64_ProgramHeader) (src : list Z) (s s1 s2 s3 : vmm).
Let zs : list Z := replicate (Z.to_nat (p_memsz h - p_filesz h)) 0.
Hypothesis Hseg : seg_ok (get_kernel_pml4_index s) bytes h.
Hypothesis Hlen : length src = Z.to_nat (p_filesz h).
Hypothesis Hsrc : ∀ i : nat, i < p_filesz h → src !! i = bytes !! Z.to_nat (p_offset h + i).
Hypothesis Hop : opened roots q s s1 (p_vaddr h) (p_memsz h).
Hypothesis Hw2 : wrote roots q s1 s2 (span (p_vaddr h) src).
Hypothesis Hw3 : wrote roots q s2 s3 (span (p_vaddr h + p_filesz h) zs).

Lemma load_same : same_system s s3.
Proof.
  etrans; [apply same_system_restored, Hop|]. etrans; by eapply same_system_wrote.
Qed.

(** The two copies together, seen from the mapped pages. *)
Lemma load_wrote : wrote roots q s1 s3 (λ a, if decide (in_seg h a) then seg_byte bytes h a else None).
Proof.
  pose proof Hseg as [Hv Hm Hf Ho He]. eapply wrote_ext; [|by eapply wrote_trans]. intros a _. cbn beta.
  destruct (decide (in_seg h a)) as [Hin|Hin]; unfold in_seg in Hin.
  - unfold seg_byte. destruct (Z.ltb_spec a (p_vaddr h + p_filesz h)).
    + rewrite span_none, span_lookup, Hsrc by lia. f_equal. lia.
    + rewrite span_lookup by lia. unfold zs. rewrite lookup_replicate_2 by lia. done.
  - rewrite !span_none; [done| |]; rewrite ?Hlen; unfold zs; rewrite ?length_replicate; lia.
Qed.

Lemma load_segment : loaded roots q bytes h s s3.
Proof.
  pose proof Hseg as [Hv Hm Hf Ho He]. pose proof load_wrote as Hw. pose proof Hop as [Hres _ Hav Hnew Hold].
  pose proof (same_system_restored _ _ Hres) as Hs1. split.
  - apply Hw.
  - apply load_same.
  - destruct (wr_state _ _ _ _ _ Hw) as [m ->]. done.
  - intros a Ha. rewrite (wr_bytes _ _ _ _ _ Hw), decide_True; [|done|].
    + destruct (seg_byte bytes h a) as [b|] eqn:Hb; [done|]. exfalso. revert Hb. unfold seg_byte, in_seg in *.
      destruct (Z.ltb_spec a (p_vaddr h + p_filesz h)); [|done]. intros Hb%lookup_ge_None. lia.
    + apply (same_system_user s s1); [done|]. eapply touched_user; [done..|]. by apply in_seg_touches.
  - intros r' a Hr Ha Hno. assert (user_addr s1 a) by (by apply (same_system_user s s1)).
    destruct (decide (r' = q)) as [->|Hne].
    + rewrite (wr_bytes _ _ _ _ _ Hw), decide_False by (done || by intros ?%in_seg_touches; apply Hno). by apply Hold.
    + rewrite (wr_others _ _ _ _ _ Hw) by done. apply Hold; [done..|]. by intros [? _].
Qed.
End load_segment.

(** Storing zeros, or nothing when there are none. *)
Lemma zero_fill x (n : Z) d s' : copy_to d (replicate (Z.to_nat n) 0) (x_vm x) = Ok (s', ()) → is_word 64 d → ∀ b, b = (0 <? n) →
  (if b then on_vm (copy_to (wrap64 d) (replicate (Z.to_nat n) 0)) else mret ()) x = Ok (with_x_vm s' x, ()).
Proof.
  intros Hrun Hd b ->. destruct (Z.ltb_spec 0 n).
  - rewrite wrap_small by done. by apply on_vm_run.
  - replace (Z.to_nat n) with 0%nat in Hrun by lia. cbn in Hrun. injection Hrun as <-. by destruct x.
Qed.

(** The program break after a segment: past its last page. *)
Definition next_break (brk : Z) (h : Elf64_ProgramHeader) : Z :=
  let segment_end := wrap64 (p_vaddr h + p_memsz h) in
  if brk <? segment_end then Z.land (wrap64 (segment_end + 0xFFF)) (wrap64 (Z.lnot 0xFFF)) else brk.

Lemma map_elf64_header_run x roots q bytes h : active (x_vm x) roots q → Forall byte_ok bytes →
  pml4 (x_proc x) = hhdm_ptov (x_vm x) q → seg_ok (get_kernel_pml4_index (x_vm x)) bytes h →
  (4 * seg_pages h ≤ avail (vm_pmm (x_vm x)))%nat →
  ∃ s', map_elf64_header bytes h x =
      Ok (mk_exec s' (with_heap_break (next_break (heap_break (x_proc x)) h) (x_proc x)) (x_stack x), ()) ∧
    loaded roots q bytes h (x_vm x) s'.
Proof.
  intros Hac Hby Hp Hseg Hav. set (s := x_vm x) in *. pose proof Hseg as [Hv Hm Hf Ho He].
  destruct (map_user_pages_opens s roots q (p_vaddr h) (p_memsz h)) as (s1 & Hrun1 & Hop); try done.
  pose proof Hop as [Hres Hac1 _ Hnew _].
  pose proof (same_system_index _ _ (same_system_restored _ _ Hres)) as Hix.
  destruct (file_bytes_run bytes h _ Hseg) as (src & Hsrc & Hlen & Hlook & Hsb). specialize (Hsb Hby).
  destruct (fill_user s1 roots q (p_vaddr h) src) as (s2 & Hrun2 & Hw2); [done|done|rewrite Hix; lia| |done|].
  { intros a Ha. apply Hnew. exists a. lia. }
  set (zs := replicate (Z.to_nat (p_memsz h - p_filesz h)) 0).
  destruct (fill_user s2 roots q (p_vaddr h + p_filesz h) zs) as (s3 & Hrun3 & Hw3).
  { apply Hw2. }
  { lia. }
  { rewrite (same_system_index s1 s2), Hix by (by eapply same_system_wrote). unfold zs. rewrite length_replicate. lia. }
  { intros a Ha. unfold zs in Ha. rewrite length_replicate in Ha.
    assert (is_Some (ubyte s1 q a)) as [y Hy] by (apply Hnew; exists a; lia).
    rewrite (wr_bytes _ _ _ _ _ Hw2), span_none, Hy; [done|lia|]. unfold user_addr. rewrite Hix. lia. }
  { apply Forall_replicate. unfold byte_ok. lia. }
  destruct (ac_sys _ _ _ Hac) as (_ & _ & _ & Hks).
  assert (is_word 64 (p_vaddr h + p_filesz h)) as Hw64 by (unfold is_word; fold s in Hks; pow_consts; lia).
  pose proof (zero_fill (with_x_vm s2 (with_x_vm s1 x)) (p_memsz h - p_filesz h) _ s3 Hrun3 Hw64
    (p_filesz h <? p_memsz h) ltac:(lia)) as Hz.
  unfold map_elf64_header. rewrite (bind_ok (gets _) _ x x (hhdm_ptov s q)) by (unfold gets; by rewrite Hp).
  rewrite (bind_ok (on_vm _) _ _ _ _ (on_vm_run _ _ _ _ Hrun1)), Hsrc. cbn [of_option].
  rewrite (bind_ok (mret src) _ (with_x_vm s1 x) (with_x_vm s1 x) src eq_refl).
  rewrite (bind_ok (on_vm _) _ _ _ _ (on_vm_run (copy_to (p_vaddr h) src) (with_x_vm s1 x) s2 () Hrun2)).
  rewrite (bind_ok _ _ _ _ _ Hz). unfold gets at 1, mbind, M_bind at 1.
  assert (loaded roots q bytes h s s3) as Hld by (by apply (load_segment roots q bytes h src s s1 s2 s3)).
  exists s3. split; [|done]. unfold next_break. cbn [with_x_vm x_proc].
  destruct (heap_break _ <? _); [done|]. destruct x as [? p ?]. by destruct p.
Qed.

Definition seg_disjoint (h h' : Elf64_ProgramHeader) : Prop := ∀ a, seg_touches h a → ¬ seg_touches h' a.

(** All segments loaded. *)
Record loaded_all (roots : Z → Prop) (q : Z) (bytes : list Z) (hs : list Elf64_ProgramHeader) (s s' : vmm)
  : Prop := {
  la_active : active s' roots q;
  la_same : same_system s s';
  la_avail : (avail (vm_pmm s) ≤ 4 * sum_list (seg_pages <$> hs) + avail (vm_pmm s'))%nat;
  la_bytes h a : h ∈ hs → in_seg h a → ubyte s' q a = seg_byte bytes h a;
  la_old r' a : roots r' → user_addr s a → (r' = q → Forall (λ h, ¬ seg_touches h a) hs) →
    ubyte s' r' a = ubyte s r' a;
}.

Lemma map_headers_run roots q bytes hs : ∀ x, active (x_vm x) roots q → Forall byte_ok bytes →
  pml4 (x_proc x) = hhdm_ptov (x_vm x) q → Forall (seg_ok (get_kernel_pml4_index (x_vm x)) bytes) hs →
  ForallOrdPairs seg_disjoint hs → (4 * sum_list (seg_pages <$> hs) ≤ avail (vm_pmm (x_vm x)))%nat →
  ∃ s', for_each hs (map_elf64_header bytes) x =
      Ok (mk_exec s' (with_heap_break (foldl next_break (heap_break (x_proc x)) hs) (x_proc x)) (x_stack x), ()) ∧
    loaded_all roots q bytes hs (x_vm x) s'.
Proof.
  induction hs as [|h hs IH]; intros x Hac Hby Hp Hok Hdis Hav.
  { exists (x_vm x). split; [destruct x as [? p ?]; by destruct p|]. split; try done. by intros h a ?%not_elem_of_nil. }
  apply Forall_cons in Hok as [Hh Hhs]. inversion Hdis as [|? ? Hd Hdis']; subst. cbn in Hav.
  destruct (map_elf64_header_run x roots q bytes h) as (s1 & Hrun & [Hac1 Hs1 Hav1 Hb1 Ho1]); [done..|lia|].
  set (x1 := mk_exec s1 _ (x_stack x)) in Hrun.
  destruct (IH x1) as (s2 & Hrun2 & [Hac2 Hs2 Hav2 Hb2 Ho2]); [done|done| |cbn; by rewrite (same_system_index (x_vm x) s1)|done| |].
  { cbn. by rewrite (same_system_ptov (x_vm x) s1). }
  { cbn [x_vm x1]. lia. }
  exists s2. split; [cbn [for_each foldl]; by rewrite (bind_ok _ _ _ _ _ Hrun)|]. split.
  - done.
  - by etrans.
  - cbn in *. lia.
  - intros h' a Hin Ha. apply elem_of_cons in Hin as [->|Hin]; [|by apply Hb2].
    rewrite Ho2; [by apply Hb1|apply Hac2| |].
    + apply (same_system_user (x_vm x) s1); [done|]. destruct Hh. eapply touched_user; [done..|by apply in_seg_touches].
    + intros _. eapply Forall_impl; [exact Hd|]. intros h'' Hdj. apply Hdj. by apply in_seg_touches.
  - intros r' a Hr Ha Hno. rewrite Ho2; [apply Ho1; [done..|]|done|by apply (same_system_user (x_vm x) s1)|].
    + intros [-> Ht]. by apply Forall_cons in Hno as [? _].
    + intros ->. by apply Forall_cons in Hno as [_ ?].
Qed.

(** ** The initial stack *)

Definition in_stack (a : Z) : Prop := USER_STACK_BASE ≤ a < USER_STACK_TOP.

(** The stack between [sp] and its top holds [img]; [s] is [s0] with other bytes in the stack. *)
Record stack_at (roots : Z → Prop) (q : Z) (s0 s : vmm) (sp : Z) (img : list Z) : Prop := {
  st_wrote : ∃ upd, wrote roots q s0 s upd ∧ ∀ a, is_Some (upd a) → in_stack a;
  st_top : sp + length img = USER_STACK_TOP;
  st_base : USER_STACK_BASE ≤ sp;
  st_img i b : img !! i = Some b → ubyte s q (sp + Z.of_nat i) = Some b;
  st_mapped a : in_stack a → user_addr s a ∧ is_Some (ubyte s q a);
}.

Lemma stack_below s a : 1 ≤ get_kernel_pml4_index s → 0 ≤ a < 2 ^ 39 → user_addr s a.
Proof. unfold user_addr. pow_consts. lia. Qed.

(** The strings from the top down, and their addresses. *)
Fixpoint strings_image (strs : list (list Z)) (img : list Z) : list Z :=
  match strs with
  | [] => img
  | str :: strs => strings_image strs ((str ++ [0]) ++ img)
  end.
Fixpoint string_ptrs (sp : Z) (strs : list (list Z)) : list Z :=
  match strs with
  | [] => []
  | str :: strs => let p := sp - (length str + 1) in p :: string_ptrs p strs
  end.
Definition strings_size (strs : list (list Z)) : Z := foldr (λ str n, length str + 1 + n) 0 strs.

Lemma strings_size_nonneg strs : 0 ≤ strings_size strs.
Proof. induction strs as [|str strs IH]; cbn; [done|]. unfold strings_size in IH. lia. Qed.

Lemma span_snoc d l a : match at_byte (d + length l) 0 a with Some x => Some x | None => span d l a end =
  span d (l ++ [0]) a.
Proof.
  unfold at_byte. destruct (Z.eqb_spec a (d + length l)) as [->|Hne].
  - rewrite span_lookup by lia. replace (Z.to_nat _) with (length l) by lia. by rewrite lookup_app_r, Nat.sub_diag by lia.
  - unfold span. destruct (Z.leb_spec d a); [|done]. destruct (decide (a < d + length l)).
    + rewrite lookup_app_l by lia. done.
    + rewrite !lookup_ge_None_2; [done| |]; rewrite ?length_app; cbn; lia.
Qed.

Lemma stack_word x : USER_STACK_BASE ≤ x → x ≤ USER_STACK_TOP → wrap64 x = x.
Proof. unfold USER_STACK_TOP, USER_STACK_BASE, USER_STACK_SIZE. intros. apply wrap_small. unfold is_word. pow_consts. lia. Qed.

Section push.
Context (roots : Z → Prop) (q : Z) (s0 : vmm).

Lemma stack_push s s' sp l img : stack_at roots q s0 s sp img → USER_STACK_BASE ≤ sp - length l →
  wrote roots q s s' (span (sp - length l) l) → stack_at roots q s0 s' (sp - length l) (l ++ img).
Proof.
  intros [(upd & Hw & Hupd) Htop Hbase Himg Hmap] Hb Hw'.
  assert (∀ a, is_Some (span (sp - length l) l a) → in_stack a) as Hin.
  { intros a [b Hs]. unfold in_stack. destruct (decide (sp - length l ≤ a < sp)) as [?|Hn]; [lia|].
    rewrite span_none in Hs by lia. done. }
  split.
  - eexists. split; [by eapply wrote_trans|]. intros a. cbn.
    destruct (span (sp - length l) l a) eqn:Hs; [intros _; by apply Hin|apply Hupd].
  - rewrite length_app. lia.
  - done.
  - intros i b Hi. apply lookup_app_Some in Hi as [Hi|[Hge Hi]].
    + pose proof (lookup_lt_Some _ _ _ Hi). rewrite (wr_bytes _ _ _ _ _ Hw').
      * rewrite span_lookup by lia. replace (Z.to_nat _) with i by lia. by rewrite Hi.
      * apply Hmap. unfold in_stack. lia.
    + pose proof (lookup_lt_Some _ _ _ Hi). rewrite (wr_bytes _ _ _ _ _ Hw').
      * rewrite span_none by lia. rewrite <- (Himg _ _ Hi). f_equal. lia.
      * apply Hmap. unfold in_stack. lia.
  - intros a Ha. destruct (Hmap a Ha) as [Hu Hx]. split; [by apply (wrote_user _ _ _ _ _ Hw')|].
    rewrite (wr_bytes _ _ _ _ _ Hw') by done. destruct (span _ _ a); [by eexists|done].
Qed.

Lemma stack_copy s sp img d l : stack_at roots q s0 s sp img → USER_STACK_BASE ≤ d → d + length l ≤ sp →
  Forall byte_ok l → ∃ s', copy_to d l s = Ok (s', ()) ∧ wrote roots q s s' (span d l).
Proof.
  intros [(upd & Hw & _) Htop Hbase _ Hmap] Hd Hl Hb. apply copy_to_run; [apply Hw|..|done].
  - unfold USER_STACK_BASE in *. lia.
  - unfold USER_STACK_TOP, USER_STACK_BASE, USER_STACK_SIZE in *. pow_consts. lia.
  - intros a Ha. apply Hmap. unfold in_stack. lia.
Qed.

Lemma push64_run s sp img w : stack_at roots q s0 s sp img → USER_STACK_BASE ≤ sp - 8 →
  ∃ s', push64 sp w s = Ok (s', sp - 8) ∧ stack_at roots q s0 s' (sp - 8) (le_split 8 w ++ img).
Proof.
  intros Hst Hb. pose proof (st_top _ _ _ _ _ _ Hst) as Htop.
  destruct (stack_copy s sp img (sp - 8) (le_split 8 w)) as (s' & Hrun & Hw);
    [done|done|rewrite le_split_length; lia|apply le_split_bytes|].
  exists s'. split.
  - unfold push64, store64. rewrite stack_word by lia. by rewrite (bind_ok _ _ _ _ _ Hrun).
  - replace (sp - 8) with (sp - length (le_split 8 w)) in * by (rewrite le_split_length; lia). by eapply stack_push.
Qed.

Lemma push_words_run ws : ∀ s sp img, stack_at roots q s0 s sp img → USER_STACK_BASE ≤ sp - 8 * length ws →
  ∃ s', push_words sp ws s = Ok (s', sp - 8 * length ws) ∧
    stack_at roots q s0 s' (sp - 8 * length ws) (concat (le_split 8 <$> reverse ws) ++ img).
Proof.
  induction ws as [|w ws IH]; intros s sp img Hst Hb.
  { exists s. cbn. by rewrite Z.sub_0_r. }
  cbn [length] in Hb. destruct (push64_run s sp img w Hst ltac:(lia)) as (s1 & Hrun & Hst1).
  destruct (IH s1 (sp - 8) _ Hst1 ltac:(lia)) as (s2 & Hrun2 & Hst2).
  exists s2. cbn [length push_words]. rewrite (bind_ok _ _ _ _ _ Hrun), Hrun2.
  replace (sp - 8 - 8 * length ws) with (sp - 8 * S (length ws)) in * by lia. split; [done|].
  rewrite reverse_cons, fmap_app, concat_app, <- app_assoc. cbn [fmap list_fmap concat]. by rewrite app_nil_r.
Qed.

Lemma push_string_run s sp img str : stack_at roots q s0 s sp img → Forall byte_ok str →
  USER_STACK_BASE ≤ sp - (length str + 1) →
  ∃ s', push_string sp str s = Ok (s', sp - (length str + 1)) ∧
    stack_at roots q s0 s' (sp - (length str + 1)) ((str ++ [0]) ++ img).
Proof.
  intros Hst Hstr Hb. pose proof (st_top _ _ _ _ _ _ Hst) as Htop. set (d := sp - (length str + 1)) in *.
  destruct (stack_copy s sp img d str) as (s1 & Hrun & Hw); [done|done|lia|done|].
  destruct (st_mapped _ _ _ _ _ _ Hst (d + length str)) as [Hu [x Hx]]; [unfold in_stack; lia|].
  destruct (hw_store8_run s1 roots q (d + length str) 0) as (s2 & Hrun2 & Hw2).
  { apply Hw. }
  { by apply (wrote_user _ _ _ _ _ Hw). }
  { rewrite (wr_bytes _ _ _ _ _ Hw) by done. destruct (span d str _); eauto. }
  { unfold byte_ok. lia. }
  exists s2. split.
  - unfold push_string. fold d. rewrite stack_word by lia. rewrite (bind_ok _ _ _ _ _ Hrun), stack_word by lia.
    by rewrite (bind_ok _ _ _ _ _ Hrun2).
  - assert (d = sp - length (str ++ [0])) as Hd by (unfold d; rewrite length_app; cbn; lia). rewrite Hd.
    eapply stack_push; [done|lia|]. rewrite <- Hd. eapply wrote_ext; [|by eapply wrote_trans].
    intros a _. apply span_snoc.
Qed.

Lemma push_strings_run strs : ∀ s sp img ptrs, stack_at roots q s0 s sp img → Forall (Forall byte_ok) strs →
  USER_STACK_BASE ≤ sp - strings_size strs →
  ∃ s', push_strings sp strs ptrs s = Ok (s', (sp - strings_size strs, ptrs ++ string_ptrs sp strs)) ∧
    stack_at roots q s0 s' (sp - strings_size strs) (strings_image strs img).
Proof.
  induction strs as [|str strs IH]; intros s sp img ptrs Hst Hb Hsz.
  { exists s. cbn. by rewrite Z.sub_0_r, app_nil_r. }
  apply Forall_cons in Hb as [Hb Hbs]. pose proof (strings_size_nonneg strs) as Hnn.
  change (strings_size (str :: strs)) with (length str + 1 + strings_size strs) in *.
  destruct (push_string_run s sp img str Hst Hb ltac:(lia)) as (s1 & Hrun & Hst1).
  destruct (IH s1 _ _ (ptrs ++ [sp - (length str + 1)]) Hst1 Hbs ltac:(lia)) as (s2 & Hrun2 & Hst2).
  exists s2. cbn [push_strings]. rewrite (bind_ok _ _ _ _ _ Hrun), Hrun2. cbn [string_ptrs strings_image].
  replace (sp - (length str + 1) - strings_size strs) with (sp - (length str + 1 + strings_size strs)) in * by lia.
  by rewrite <- app_assoc.
Qed.
End push.

(** The whole initial stack, from the stack pointer up: the argument count, the addresses of the strings, four
    null words (the ends of the argument vector, the environment and the auxiliary vector), the strings, and
    the padding word. *)
Definition stack_ptrs (argv envp : list (list Z)) : list Z := string_ptrs (USER_STACK_TOP - 8) (envp ++ argv).
Definition stack_image (argv envp : list (list Z)) : list Z :=
  le_split 8 (length argv) ++ concat (le_split 8 <$> stack_ptrs argv envp) ++
  le_split 8 0 ++ le_split 8 0 ++ le_split 8 0 ++ le_split 8 0 ++ strings_image (envp ++ argv) (le_split 8 0).
Definition stack_size (argv envp : list (list Z)) : Z :=
  48 + 8 * (length envp + length argv) + strings_size (envp ++ argv).
Definition start_rsp (argv envp : list (list Z)) : Z := USER_STACK_TOP - stack_size argv envp.

Lemma strings_size_app a b : strings_size (a ++ b) = strings_size a + strings_size b.
Proof. unfold strings_size. induction a as [|x a IH]; cbn; [done|]. rewrite IH. lia. Qed.

Lemma strings_image_app a b img : strings_image (a ++ b) img = strings_image b (strings_image a img).
Proof. revert img. induction a as [|x a IH]; intros img; cbn; [done|]. by rewrite IH. Qed.

Lemma string_ptrs_app sp a b : string_ptrs sp (a ++ b) = string_ptrs sp a ++ string_ptrs (sp - strings_size a) b.
Proof.
  revert sp. induction a as [|x a IH]; intros sp; cbn [app string_ptrs].
  - unfold strings_size. cbn. by rewrite Z.sub_0_r.
  - rewrite IH. change (strings_size (x :: a)) with (length x + 1 + strings_size a). cbn. do 3 f_equal. lia.
Qed.

Lemma string_ptrs_length sp strs : length (string_ptrs sp strs) = length strs.
Proof. revert sp. induction strs as [|x strs IH]; intros sp; cbn; [done|]. by rewrite IH. Qed.

Lemma push_all_run roots q s0 argv envp : stack_at roots q s0 s0 USER_STACK_TOP [] →
  Forall (Forall byte_ok) argv → Forall (Forall byte_ok) envp → stack_size argv envp ≤ USER_STACK_SIZE →
  ∃ s', (sp ← push64 USER_STACK_TOP 0;
      '(sp, argv_ptrs) ← push_strings sp envp [];
      '(sp, argv_ptrs) ← push_strings sp argv argv_ptrs;
      sp ← push64 sp 0; sp ← push64 sp 0; sp ← push64 sp 0;
      sp ← push_words sp (reverse []);
      sp ← push64 sp 0;
      sp ← push_words sp (reverse argv_ptrs);
      push64 sp (length argv)) s0 = Ok (s', start_rsp argv envp) ∧
    stack_at roots q s0 s' (start_rsp argv envp) (stack_image argv envp).
Proof.
  intros H0 Hargv Henvp Hsz. unfold stack_size in Hsz. rewrite strings_size_app in Hsz.
  pose proof (strings_size_nonneg envp) as Hne. pose proof (strings_size_nonneg argv) as Hna.
  assert (USER_STACK_TOP = USER_STACK_BASE + USER_STACK_SIZE) as Htop by done.
  destruct (push64_run roots q s0 s0 USER_STACK_TOP [] 0 H0 ltac:(lia)) as (s1 & R1 & H1).
  destruct (push_strings_run roots q s0 envp s1 _ _ [] H1 Henvp ltac:(lia)) as (s2 & R2 & H2).
  destruct (push_strings_run roots q s0 argv s2 _ _ ([] ++ string_ptrs (USER_STACK_TOP - 8) envp) H2 Hargv ltac:(lia)) as (s3 & R3 & H3).
  destruct (push64_run roots q s0 s3 _ _ 0 H3 ltac:(lia)) as (s4 & R4 & H4).
  destruct (push64_run roots q s0 s4 _ _ 0 H4 ltac:(lia)) as (s5 & R5 & H5).
  destruct (push64_run roots q s0 s5 _ _ 0 H5 ltac:(lia)) as (s6 & R6 & H6).
  destruct (push64_run roots q s0 s6 _ _ 0 H6 ltac:(lia)) as (s7 & R7 & H7).
  set (ptrs := ([] ++ string_ptrs (USER_STACK_TOP - 8) envp) ++ _) in R3.
  assert (ptrs = stack_ptrs argv envp) as Hptrs by (unfold ptrs, stack_ptrs; by rewrite string_ptrs_app).
  assert (length (reverse ptrs) = length envp + length argv)%nat as Hlen.
  { rewrite length_reverse, Hptrs. unfold stack_ptrs. by rewrite string_ptrs_length, length_app. }
  destruct (push_words_run roots q s0 (reverse ptrs) s7 _ _ H7 ltac:(lia)) as (s8 & R8 & H8).
  destruct (push64_run roots q s0 s8 _ _ (length argv) H8 ltac:(lia)) as (s9 & R9 & H9).
  exists s9. split.
  - rewrite (bind_ok _ _ _ _ _ R1), (bind_ok _ _ _ _ _ R2), (bind_ok _ _ _ _ _ R3), (bind_ok _ _ _ _ _ R4),
      (bind_ok _ _ _ _ _ R5), (bind_ok _ _ _ _ _ R6).
    rewrite (bind_ok (push_words _ (reverse [])) _ s6 s6 _ eq_refl), (bind_ok _ _ _ _ _ R7), (bind_ok _ _ _ _ _ R8), R9.
    do 2 f_equal. unfold start_rsp, stack_size. rewrite strings_size_app. lia.
  - rewrite reverse_involutive, app_nil_r in H9. rewrite Hptrs in H9 at 2. unfold stack_image. rewrite strings_image_app.
    replace (start_rsp argv envp) with (USER_STACK_TOP - 8 - strings_size envp - strings_size argv - 8 - 8 - 8 - 8 -
      8 * length (reverse ptrs) - 8) by (unfold start_rsp, stack_size; rewrite strings_size_app; lia).
    exact H9.
Qed.

Lemma stack_pages_touched a : touched USER_STACK_BASE USER_STACK_SIZE a ↔ in_stack a.
Proof.
  unfold touched, in_stack, USER_STACK_TOP, USER_STACK_BASE, USER_STACK_SIZE. split.
  - intros (b & Hb & Hd). lia.
  - intros Ha. exists a. lia.
Qed.

Definition STACK_PAGES : nat := length (range_pages USER_STACK_BASE USER_STACK_SIZE).

(** The stack built: its bytes, and every byte off the stack as before. *)
Record stack_built (roots : Z → Prop) (q : Z) (argv envp : list (list Z)) (s s' : vmm) : Prop := {
  sb_active : active s' roots q;
  sb_same : same_system s s';
  sb_avail : (avail (vm_pmm s) ≤ 4 * STACK_PAGES + avail (vm_pmm s'))%nat;
  sb_image i b : stack_image argv envp !! i = Some b → ubyte s' q (start_rsp argv envp + Z.of_nat i) = Some b;
  sb_old r' a : roots r' → user_addr s a → ¬ (r' = q ∧ in_stack a) → ubyte s' r' a = ubyte s r' a;
}.

Lemma build_user_stack_run x roots q argv envp : active (x_vm x) roots q →
  pml4 (x_proc x) = hhdm_ptov (x_vm x) q → 1 ≤ get_kernel_pml4_index (x_vm x) →
  Forall (Forall byte_ok) argv → Forall (Forall byte_ok) envp → stack_size argv envp ≤ USER_STACK_SIZE →
  (4 * STACK_PAGES ≤ avail (vm_pmm (x_vm x)))%nat →
  ∃ s', build_user_stack argv envp x = Ok (mk_exec s'
      (with_start (start_rsp argv envp) (entry (x_proc x)) (fs_base (x_proc x)) (tidptr (x_proc x)) (x_proc x))
      (x_stack x), ()) ∧ stack_built roots q argv envp (x_vm x) s'.
Proof.
  intros Hac Hp Hks Hargv Henvp Hsz Hav. set (s := x_vm x) in *.
  destruct (map_user_pages_opens s roots q USER_STACK_BASE USER_STACK_SIZE) as (s1 & Hrun1 & [Hres Hac1 Hav1 Hnew Hold]);
    [done|done|done| |done|].
  { unfold USER_STACK_BASE, USER_STACK_SIZE. pow_consts. lia. }
  pose proof (same_system_restored _ _ Hres) as Hs1.
  destruct (push_all_run roots q s1 argv envp) as (s2 & Hrun2 & Hst); [|done..|].
  { split; [exists (λ _, None); split; [by apply wrote_nil|by intros a [? ?]]|done|done|done|].
    intros a Ha. split; [|by apply Hnew, stack_pages_touched]. apply (same_system_user s s1); [done|].
    apply stack_below; [done|]. unfold in_stack, USER_STACK_TOP, USER_STACK_BASE, USER_STACK_SIZE in Ha. pow_consts. lia. }
  exists s2. split.
  - unfold build_user_stack. rewrite (bind_ok (gets _) _ x x (hhdm_ptov s q)) by (unfold gets; by rewrite Hp).
    rewrite (bind_ok (on_vm _) _ _ _ _ (on_vm_run _ _ _ _ Hrun1)).
    by rewrite (bind_ok (on_vm _) _ _ _ _ (on_vm_run _ (with_x_vm s1 x) s2 _ Hrun2)).
  - destruct (st_wrote _ _ _ _ _ _ Hst) as (upd & Hw & Hupd). split.
    + apply Hw.
    + etrans; [done|by eapply same_system_wrote].
    + destruct (wr_state _ _ _ _ _ Hw) as [m ->]. done.
    + apply Hst.
    + intros r' a Hr Ha Hno. assert (user_addr s1 a) by (by apply (same_system_user s s1)).
      assert (ubyte s2 r' a = ubyte s1 r' a) as ->.
      { destruct (decide (r' = q)) as [->|Hne]; [|by apply (wr_others _ _ _ _ _ Hw)].
        rewrite (wr_bytes _ _ _ _ _ Hw) by done. destruct (upd a) eqn:Hu; [|done]. destruct Hno. split; [done|]. by apply Hupd. }
      apply Hold; [done..|]. by rewrite stack_pages_touched.
Qed.

(** ** A fresh address space *)

Record fresh_space (roots : Z → Prop) (q : Z) (s s' : vmm) : Prop := {
  fs_active : active s' (plus_root roots q) q;
  fs_new : ¬ roots q;
  fs_cpu : vm_cpu s' = stac (with_cr3 q (vm_cpu s));
  fs_pml4 : kernel_pml4 s' = kernel_pml4 s;
  fs_hhdm : hhdm_offset s' = hhdm_offset s;
  fs_avail : (avail (vm_pmm s) ≤ 4 + avail (vm_pmm s'))%nat;
  fs_empty a : user_addr s a → ubyte s' q a = None;
  fs_old r' a : roots r' → user_addr s a → ubyte s' r' a = ubyte s r' a;
}.

Lemma sys_ok_cpu c s roots : sys_ok (with_vm_cpu c s) roots ↔ sys_ok s roots.
Proof. unfold sys_ok. change (sys_dom (with_vm_cpu c s) roots) with (sys_dom s roots). by rewrite vm_ok_cpu. Qed.

Lemma switch_pml4_run s r : page_ok r → hhdm_ptov s r ≠ 0 →
  switch_pml4 (hhdm_ptov s r) s = Ok (with_vm_cpu (with_cr3 r (vm_cpu s)) s, ()).
Proof.
  intros Hr Hnz. unfold switch_pml4, kassert_not_null. rewrite (proj2 (Z.eqb_neq _ _)) by done. cbn.
  unfold mbind, M_bind, mret, M_ret, modify. by rewrite vtop_ptov.
Qed.

Lemma ubyte_none s r a : walk (phys s) r (fpath a) = None → ubyte s r a = None.
Proof. intros H. unfold ubyte, uword, word. by rewrite H. Qed.

Lemma stac_ac c : Z.testbit (rflags (stac c)) RFLAGS_AC = true.
Proof. unfold stac, with_rflags. cbn [rflags]. by rewrite Z.setbit_eqb. Qed.

Lemma clac_ac c : Z.testbit (rflags (clac c)) RFLAGS_AC = false.
Proof. unfold clac, with_rflags. cbn [rflags]. by rewrite Z.clearbit_eqb, Z.eqb_refl, andb_false_r. Qed.

(** Tables added for the user heap change no byte. *)
Lemma grown_ubyte D `{!Closed D} r n s s' r' a : vm_ok D s → grown D r n s s' → D r' (fpath a) →
  ubyte s' r' a = ubyte s r' a.
Proof.
  intros Hok Hg HD. pose proof (grown_page D r n s s' r' (fpath a) Hok Hg HD eq_refl) as Hp.
  destruct (walk (phys s) r' (fpath a)) as [t|] eqn:Hw.
  - apply ubyte_of_page; [|done]. rewrite Hw. by apply (Hp t).
  - rewrite !ubyte_none; [done|done|]. destruct (walk (phys s') r' (fpath a)) as [t|] eqn:Hw'; [|done].
    destruct (gr_new _ _ _ _ _ Hg r' (fpath a) t HD Hw Hw') as (_ & Hl & _). cbn in Hl. lia.
Qed.

Lemma user_heap_at_run s roots r h : sys_ok s roots → roots r → user_path (get_kernel_pml4_index s) [pml4_idx h; pdpt_idx h; pd_idx h] →
  (3 ≤ avail (vm_pmm s))%nat → ∃ s', user_heap_at h (hhdm_ptov s r) s = Ok (s', h) ∧ grown (sys_dom s roots) r 3 s s'.
Proof.
  intros (Hok & Hlock & Hnk & Hks) Hr Hp Hav.
  assert (sys_dom s roots r [pml4_idx h; pdpt_idx h; pd_idx h]) as HD by (by left).
  destruct (ensure_tables_run (sys_dom s roots) s r (pml4_idx h) (pdpt_idx h) (pd_idx h) PAGE_USER)
    as (f & s' & Hrun & Hg & Hw); [done..|]. exists s'. split; [|done].
  unfold user_heap_at. rewrite (bind_ok _ _ _ _ _ Hrun). unfold kassert_not_null.
  rewrite (proj2 (Z.eqb_neq _ _)); [done|]. pose proof (gr_ok _ _ _ _ _ Hg) as Hok'.
  rewrite <- (keeps_ptov s s') by apply Hg. apply ptov_nonzero; [apply Hok'| |].
  - by apply (f_page _ _ (ok_forest _ _ Hok') r [pml4_idx h; pdpt_idx h; pd_idx h]).
  - apply (ok_frame _ _ Hok' r [pml4_idx h; pdpt_idx h; pd_idx h]); [done..|]. by left.
Qed.

Lemma grown_sys s s' roots r n : sys_ok s roots → grown (sys_dom s roots) r n s s' → sys_ok s' roots.
Proof.
  intros (Hok & Hlock & Hnk & Hks) Hg. pose proof (gr_keeps _ _ _ _ _ Hg) as [_ Hl Hp Ho _].
  assert (kroot s' = kroot s) as Hkr by (unfold kroot, hhdm_vtop; by rewrite Hp, Ho).
  assert (get_kernel_pml4_index s' = get_kernel_pml4_index s) as Hki by (unfold get_kernel_pml4_index; by rewrite Ho).
  unfold sys_ok, sys_dom. rewrite Hkr, Hki, Hl. split; [apply Hg|done].
Qed.

Definition user_heap0 : Heap := mk_Heap 1 0 0 0.

Lemma fresh_space_run s roots : sys_ok s roots → is_word 64 (kernel_pml4 s) → 2 ≤ get_kernel_pml4_index s →
  (4 ≤ avail (vm_pmm s))%nat →
  ∃ q s1 s2 s', create_user_pml4 s = Ok (s1, hhdm_ptov s q) ∧
    switch_pml4 (hhdm_ptov s q) s1 = Ok (s2, ()) ∧
    create_user_heap (hhdm_ptov s q) (with_vm_cpu (stac (vm_cpu s2)) s2) = Ok (s', user_heap0) ∧
    fresh_space roots q s s'.
Proof.
  intros Hsys Hw64 Hks2 Hav. pose proof Hsys as (Hok & Hlock & Hnk & Hks).
  destruct (create_user_pml4_run (sys_dom s roots) s) as (q & s1 & Hrun & [Hok1 Hk Hav1 Hfresh Hnot Hfr Hempty Hkern Hsame]);
    [done|lia|done|by apply sys_roots_kernel|].
  assert (page_ok q) as Hq.
  { apply (f_page _ _ (ok_forest _ _ Hok1) q []); [|done]. right. split; [done|apply user_path_nil]. }
  assert (sys_ok s1 (plus_root roots q)) as Hsys1.
  { eapply sys_ok_plus; try done; try apply Hk. by rewrite (k_lock _ _ Hk). }
  assert (plus_root roots q q) as Hroot by (by right).
  pose proof (root_ptr s1 _ q Hsys1 Hroot) as Hnz. rewrite (keeps_ptov s s1) in Hnz by done.
  pose proof (switch_pml4_run s1 q Hq) as Hrun2. rewrite (keeps_ptov s s1) in Hrun2 by done. specialize (Hrun2 Hnz).
  set (s2 := with_vm_cpu (with_cr3 q (vm_cpu s1)) s1) in *. set (s3 := with_vm_cpu (stac (vm_cpu s2)) s2).
  assert (sys_ok s3 (plus_root roots q)) as Hsys3 by (by do 2 apply sys_ok_cpu).
  assert (get_kernel_pml4_index s3 = get_kernel_pml4_index s) as Hki
    by (change (get_kernel_pml4_index s3) with (get_kernel_pml4_index s1); unfold get_kernel_pml4_index; by rewrite (k_hhdm _ _ Hk)).
  destruct (user_heap_at_run s3 (plus_root roots q) q user_heap0) as (s4 & Hrun4 & Hg); [done|done| |change (avail (vm_pmm s3)) with (avail (vm_pmm s1)); lia|].
  { rewrite Hki. split; [cbn; lia|]. cbn. split; [|rewrite Forall_singleton; lia].
    repeat (apply Forall_cons; split; [unfold idx_ok; lia|]). constructor. }
  exists q, s1, s2, s4. split; [done|]. split; [done|]. split.
  { rewrite <- (keeps_ptov s s1) by done. exact Hrun4. }
  pose proof (gr_keeps _ _ _ _ _ Hg) as Hk4. pose proof Hsys3 as (Hok3 & _).
  assert (∀ r' a, plus_root roots q r' → user_addr s a → ubyte s4 r' a = ubyte s1 r' a) as Hb.
  { intros r' a Hr' Ha. change (ubyte s1 r' a) with (ubyte s3 r' a).
    eapply (grown_ubyte (sys_dom s3 (plus_root roots q))); [done..|].
    apply user_dom; [by rewrite Hki|done|]. unfold user_addr in *. by rewrite Hki. }
  split.
  - split; [by eapply grown_sys|done|..]; rewrite (k_cpu _ _ Hk4); [done|apply stac_ac].
  - by eapply not_root.
  - rewrite (k_cpu _ _ Hk4). cbn. by rewrite (k_cpu _ _ Hk).
  - rewrite (k_pml4 _ _ Hk4). apply Hk.
  - rewrite (k_hhdm _ _ Hk4). apply Hk.
  - pose proof (gr_avail _ _ _ _ _ Hg) as Hav4. 
    change (avail (vm_pmm s3)) with (avail (vm_pmm s1)) in Hav4. lia.
  - intros a Ha. rewrite Hb by done. apply ubyte_none, Hempty; [|done]. by apply user_path_fpath.
  - intros r' a Hr Ha. rewrite Hb by (by left || done). apply ubyte_of_page; apply Hsame; by apply user_dom.
Qed.

(** ** Reading the stack *)

Definition ubytes (s : vmm) (r a : Z) (n : nat) : option (list Z) := mapM (ubyte s r) (seqZ a n).
Definition uword64 (s : vmm) (r a : Z) : option Z := le_combine <$> ubytes s r a 8.

Lemma ubytes_image s r sp img (k n : nat) : (∀ (i : nat) b, img !! i = Some b → ubyte s r (sp + i) = Some b) →
  (k + n ≤ length img)%nat → ubytes s r (sp + k) n = Some (take n (drop k img)).
Proof.
  intros Himg Hlen. unfold ubytes. apply mapM_Some. apply Forall2_same_length_lookup. split.
  - rewrite length_seqZ, length_take, length_drop. lia.
  - intros i a b Ha Hb. apply lookup_seqZ in Ha as [-> Hi]. apply lookup_take_Some in Hb as [Hb _].
    rewrite lookup_drop in Hb. rewrite <- Z.add_assoc, <- Nat2Z.inj_add. by apply Himg.
Qed.

Lemma word_image s r sp img pre w post : (∀ (i : nat) b, img !! i = Some b → ubyte s r (sp + i) = Some b) →
  img = pre ++ le_split 8 w ++ post → is_word 64 w → uword64 s r (sp + length pre) = Some w.
Proof.
  intros Himg -> Hw. unfold uword64. rewrite (ubytes_image s r sp _ (length pre) 8 Himg).
  - rewrite drop_app_length, take_app_length' by done. cbn [fmap option_fmap option_map]. f_equal.
    rewrite le_combine_split. apply Z.mod_small. apply Hw.
  - rewrite !length_app, le_split_length. lia.
Qed.

Lemma strings_image_suffix strs : ∀ img, ∃ pre, strings_image strs img = pre ++ img ∧ Z.of_nat (length pre) = strings_size strs.
Proof.
  induction strs as [|str strs IH]; intros img; [by exists []|]. cbn [strings_image].
  destruct (IH ((str ++ [0]) ++ img)) as (pre & -> & Hl). exists (pre ++ str ++ [0]). split; [by rewrite <- !app_assoc|].
  rewrite !length_app. change (strings_size (str :: strs)) with (length str + 1 + strings_size strs). cbn. lia.
Qed.

(** The string whose address is the [i]-th, inside the image. *)
Lemma string_in_image strs : ∀ sp img (i : nat) str, strs !! i = Some str →
  ∃ p pre post, string_ptrs sp strs !! i = Some p ∧ strings_image strs img = pre ++ (str ++ [0]) ++ post ∧
    p = sp - strings_size strs + length pre ∧ sp - strings_size strs ≤ p < sp.
Proof.
  induction strs as [|x strs IH]; intros sp img i str Hi; [done|].
  pose proof (strings_size_nonneg strs) as Hnn.
  change (strings_size (x :: strs)) with (length x + 1 + strings_size strs). destruct i as [|i].
  - injection Hi as <-. destruct (strings_image_suffix strs ((x ++ [0]) ++ img)) as (pre & Hpre & Hl).
    exists (sp - (length x + 1)), pre, img. cbn [string_ptrs strings_image]. split_and!; [done|done|lia..].
  - destruct (IH (sp - (length x + 1)) ((x ++ [0]) ++ img) i str Hi) as (p & pre & post & Hp & Himg & Heq & Hr).
    exists p, pre, post. cbn [string_ptrs strings_image]. split_and!; [done|done|lia..].
Qed.

Lemma concat_words_split (ptrs : list Z) : ∀ (i : nat) p, ptrs !! i = Some p →
  ∃ pre post, concat (le_split 8 <$> ptrs) = pre ++ le_split 8 p ++ post ∧ length pre = (8 * i)%nat.
Proof.
  induction ptrs as [|x ptrs IH]; intros i p Hi; [done|]. rewrite fmap_cons. cbn [concat]. destruct i as [|i].
  - injection Hi as <-. by exists [], (concat (le_split 8 <$> ptrs)).
  - destruct (IH i p Hi) as (pre & post & -> & Hl). exists (le_split 8 x ++ pre), post.
    split; [by rewrite <- app_assoc|]. rewrite length_app, le_split_length. lia.
Qed.

Lemma concat_words_length (ptrs : list Z) : length (concat (le_split 8 <$> ptrs)) = (8 * length ptrs)%nat.
Proof.
  induction ptrs as [|x ptrs IH]; [done|]. rewrite fmap_cons. cbn [concat length]. rewrite length_app, le_split_length, IH. lia.
Qed.

Lemma stack_ptrs_length argv envp : length (stack_ptrs argv envp) = (length envp + length argv)%nat.
Proof. unfold stack_ptrs. by rewrite string_ptrs_length, length_app. Qed.

Section read_stack.
Context (s : vmm) (q : Z) (argv envp : list (list Z)).
Hypothesis Himg : ∀ (i : nat) b, stack_image argv envp !! i = Some b → ubyte s q (start_rsp argv envp + i) = Some b.
Hypothesis Hsz : stack_size argv envp ≤ USER_STACK_SIZE.
Let n : nat := (length envp + length argv)%nat.

Lemma stack_size_bound : 48 + 8 * n + strings_size (envp ++ argv) = stack_size argv envp.
Proof. unfold stack_size, n. lia. Qed.

Lemma read_argc : uword64 s q (start_rsp argv envp) = Some (Z.of_nat (length argv)).
Proof.
  replace (start_rsp argv envp) with (start_rsp argv envp + length (@nil Z)) by (cbn; lia).
  eapply (word_image s q _ (stack_image argv envp)); [exact Himg|done|].
  pose proof stack_size_bound. pose proof (strings_size_nonneg (envp ++ argv)).
  unfold USER_STACK_SIZE, is_word, n in *. pow_consts. lia.
Qed.

Lemma read_null : uword64 s q (start_rsp argv envp + 8 + 8 * n) = Some 0.
Proof.
  replace (start_rsp argv envp + 8 + 8 * n) with (start_rsp argv envp +
    length (le_split 8 (length argv) ++ concat (le_split 8 <$> stack_ptrs argv envp))).
  - eapply (word_image s q _ (stack_image argv envp)); [exact Himg| |done]. unfold stack_image. by rewrite <- !app_assoc.
  - rewrite length_app, le_split_length, concat_words_length, stack_ptrs_length. unfold n. lia.
Qed.

Lemma read_string (i : nat) str : (envp ++ argv) !! i = Some str →
  ∃ p, uword64 s q (start_rsp argv envp + 8 + 8 * i) = Some p ∧ ubytes s q p (length str + 1) = Some (str ++ [0]).
Proof.
  intros Hi. pose proof stack_size_bound as Hb. pose proof (strings_size_nonneg (envp ++ argv)) as Hnn.
  destruct (string_in_image (envp ++ argv) (USER_STACK_TOP - 8) (le_split 8 0) i str Hi) as (p & pre & post & Hp & Hs & Heq & Hr).
  exists p. split.
  - destruct (concat_words_split (stack_ptrs argv envp) i p Hp) as (wpre & wpost & Hw & Hl).
    replace (start_rsp argv envp + 8 + 8 * i) with (start_rsp argv envp + length (le_split 8 (length argv) ++ wpre))
      by (rewrite length_app, le_split_length, Hl; lia).
    eapply (word_image s q _ (stack_image argv envp)); [exact Himg|unfold stack_image; rewrite Hw, <- !app_assoc; done|].
    unfold USER_STACK_TOP, USER_STACK_BASE, USER_STACK_SIZE, is_word in *. pow_consts. lia.
  - set (hdr := le_split 8 (length argv) ++ concat (le_split 8 <$> stack_ptrs argv envp) ++
      le_split 8 0 ++ le_split 8 0 ++ le_split 8 0 ++ le_split 8 0).
    assert (length hdr = 40 + 8 * n)%nat as Hhdr.
    { unfold hdr. rewrite !length_app, !le_split_length, concat_words_length, stack_ptrs_length. unfold n. lia. }
    assert (stack_image argv envp = (hdr ++ pre) ++ (str ++ [0]) ++ post) as Hsi.
    { unfold stack_image, hdr. rewrite Hs. by rewrite <- !app_assoc. }
    replace p with (start_rsp argv envp + length (hdr ++ pre)).
    + rewrite (ubytes_image s q _ (stack_image argv envp) (length (hdr ++ pre)) (length str + 1) Himg); rewrite Hsi.
      * rewrite drop_app_length, take_app_length'; [done|]. rewrite length_app. done.
      * rewrite (length_app (hdr ++ pre)), (length_app (str ++ [0])), (length_app str). cbn. lia.
    + rewrite length_app, Hhdr. unfold start_rsp. rewrite <- Hb. lia.
Qed.
End read_stack.

(** C27: [build_user_stack] passes the argument strings: from the new stack pointer up the program finds the
    number of arguments, then the address of every string, environment first, then a null word; each
    address is that of a copy of its string, terminated by a zero byte.  Memory off the stack and all other
    address spaces keep their bytes.  With no environment the [i]-th address is that of argument [i]; with
    one, the program's first arguments are the environment strings. *)
Theorem build_user_stack_passes_arguments x roots q argv envp :
  active (x_vm x) roots q → pml4 (x_proc x) = hhdm_ptov (x_vm x) q → 1 ≤ get_kernel_pml4_index (x_vm x) →
  Forall (Forall byte_ok) argv → Forall (Forall byte_ok) envp → stack_size argv envp ≤ USER_STACK_SIZE →
  (4 * STACK_PAGES ≤ avail (vm_pmm (x_vm x)))%nat →
  ∃ x', build_user_stack argv envp x = Ok (x', ()) ∧
    let rsp := p_user_rsp (x_proc x') in
    rsp = USER_STACK_TOP - stack_size argv envp ∧
    uword64 (x_vm x') q rsp = Some (Z.of_nat (length argv)) ∧
    (∀ (i : nat) str, (envp ++ argv) !! i = Some str → ∃ p,
       uword64 (x_vm x') q (rsp + 8 + 8 * i) = Some p ∧ ubytes (x_vm x') q p (length str + 1) = Some (str ++ [0])) ∧
    uword64 (x_vm x') q (rsp + 8 + 8 * length (envp ++ argv)) = Some 0 ∧
    (∀ r' a, roots r' → user_addr (x_vm x) a → ¬ (r' = q ∧ in_stack a) → ubyte (x_vm x') r' a = ubyte (x_vm x) r' a).
Proof.
  intros Hac Hp Hks Hargv Henvp Hsz Hav.
  destruct (build_user_stack_run x roots q argv envp) as (s' & Hrun & [_ _ _ Himg Hold]); [done..|].
  eexists. split; [exact Hrun|]. cbn [x_proc x_vm with_start p_user_rsp]. split; [done|]. split_and!.
  - by apply read_argc.
  - intros i str. by apply read_string.
  - rewrite length_app. by apply read_null.
  - done.
Qed.

(** ** Executing a program *)


Record program_ok (ks : Z) (bytes : list Z) (hs : list Elf64_ProgramHeader) : Prop := {
  pk_bytes : Forall byte_ok bytes;
  pk_segs : Forall (seg_ok ks bytes) hs;
  pk_disjoint : ForallOrdPairs seg_disjoint hs;
  pk_stack : Forall (λ h, ∀ a, seg_touches h a → ¬ in_stack a) hs;
}.

(** A frame for the PML4 and three for the heap's tables, and four for every page of a segment or of the stack. *)
Definition frames_needed (hs : list Elf64_ProgramHeader) : nat :=
  (4 + 4 * sum_list (seg_pages <$> hs) + 4 * STACK_PAGES)%nat.

(** The process is ready to start [file] in the new address space [q]. *)
Record launched (roots : Z → Prop) (bytes : list Z) (argv envp : list (list Z)) (file : Elf64_File) (trampoline : Z)
  (x x' : exec) (q : Z) : Prop := {
  la_new : ¬ roots q;
  la_sys : sys_ok (x_vm x') (plus_root roots q);
  la_cr3 : cr3 (vm_cpu (x_vm x')) = kroot (x_vm x);
  la_ac : Z.testbit (rflags (vm_cpu (x_vm x'))) RFLAGS_AC = false;
  la_pml4 : pml4 (x_proc x') = hhdm_ptov (x_vm x) q;
  la_state : state (x_proc x') = NEW ∧ wait_reason (x_proc x') = NONE;
  la_entry : entry (x_proc x') = file_entry file;
  la_rsp : p_user_rsp (x_proc x') = start_rsp argv envp;
  la_break : heap_break (x_proc x') = foldl next_break 0 (program_headers file);
  la_segs h a : h ∈ program_headers file → in_seg h a → ubyte (x_vm x') q a = seg_byte bytes h a;
  la_stack i b : stack_image argv envp !! i = Some b → ubyte (x_vm x') q (start_rsp argv envp + Z.of_nat i) = Some b;
  la_rest a : user_addr (x_vm x) a → ¬ in_stack a → Forall (λ h, ¬ seg_touches h a) (program_headers file) →
    ubyte (x_vm x') q a = None;
  la_others r a : roots r → user_addr (x_vm x) a → ubyte (x_vm x') r a = ubyte (x_vm x) r a;
  la_frame : let f := kernel_rsp_saved (x_proc x') in
    f = kernel_stack (x_proc x) + KERNEL_STACK_SIZE - SIZEOF_CONTEXT_FRAME ∧
    x_stack x' = store_words f (context_words trampoline) (x_stack x);
}.

Section exec.
Context (x : exec) (roots : Z → Prop) (trampoline buffer : Z) (bytes : list Z) (argv envp : list (list Z)) (file : Elf64_File).
Let s := x_vm x.
Let hs := program_headers file.
Hypothesis Hsys : sys_ok s roots.
Hypothesis Hptr : is_word 64 (kernel_pml4 s) ∧ kernel_pml4 s ≠ 0.
Hypothesis Hks : 2 ≤ get_kernel_pml4_index s.
Hypothesis Hbuf : buffer ≠ 0.
Hypothesis Hfile : parse_file buffer bytes x = Ok (x, file).
Hypothesis Hvalid : is_valid_elf file = true.
Hypothesis Hprog : program_ok (get_kernel_pml4_index s) bytes hs.
Hypothesis Hargv : Forall (Forall byte_ok) argv.
Hypothesis Henvp : Forall (Forall byte_ok) envp.
Hypothesis Hsz : stack_size argv envp ≤ USER_STACK_SIZE.
Hypothesis Hav : (frames_needed hs ≤ avail (vm_pmm s))%nat.
Hypothesis Hspace : pml4 (x_proc x) = 0.
Hypothesis Hkst : 0 ≤ kernel_stack (x_proc x) ∧ kernel_stack (x_proc x) + KERNEL_STACK_SIZE < 2 ^ 64.

(** Everything between entering the new address space and leaving it. *)
Lemma fill_space q s1 p1 : fresh_space roots q s s1 → pml4 p1 = hhdm_ptov s q → heap_break p1 = 0 →
  ∃ s2 s3, for_each hs (map_elf64_header bytes) (mk_exec s1 p1 (x_stack x)) =
      Ok (mk_exec s2 (with_heap_break (foldl next_break 0 hs) p1) (x_stack x), ()) ∧
    build_user_stack argv envp (mk_exec s2 (with_heap_break (foldl next_break 0 hs) p1) (x_stack x)) =
      Ok (mk_exec s3 (with_start (start_rsp argv envp) (entry p1) (fs_base p1) (tidptr p1)
        (with_heap_break (foldl next_break 0 hs) p1)) (x_stack x), ()) ∧
    loaded_all (plus_root roots q) q bytes hs s1 s2 ∧ stack_built (plus_root roots q) q argv envp s2 s3.
Proof.
  intros [Hac Hnew Hcpu Hkp Hho Hav1 Hem Hold] Hp Hb. destruct Hprog as [Hby Hsegs Hdis Hstk].
  assert (get_kernel_pml4_index s1 = get_kernel_pml4_index s) as Hki by (unfold get_kernel_pml4_index; by rewrite Hho).
  unfold frames_needed in Hav.
  destruct (map_headers_run (plus_root roots q) q bytes hs (mk_exec s1 p1 (x_stack x))) as (s2 & Hrun2 & Hld);
    cbn [x_vm x_proc x_stack] in *; [done|done| |by rewrite Hki|done|lia|].
  { rewrite Hp. unfold hhdm_ptov. by rewrite Hho. }
  rewrite Hb in Hrun2. pose proof Hld as [Hac2 Hs2 Hav2 _ _].
  destruct (build_user_stack_run (mk_exec s2 (with_heap_break (foldl next_break 0 hs) p1) (x_stack x))
    (plus_root roots q) q argv envp) as (s3 & Hrun3 & Hst); cbn [x_vm x_proc x_stack] in *; [done| | |done..|lia|].
  { rewrite (same_system_ptov s1 s2) by done. cbn. rewrite Hp. unfold hhdm_ptov. by rewrite Hho. }
  { rewrite (same_system_index s1 s2), Hki by done. lia. }
  by exists s2, s3.
Qed.

Lemma kernel_root_ptr : hhdm_ptov s (kroot s) = kernel_pml4 s.
Proof. unfold kroot. apply ptov_vtop, Hptr. Qed.

Lemma exec_elf64_run : ∃ x' q, exec_elf64 trampoline buffer bytes argv envp x = Ok (x', ()) ∧
  launched roots bytes argv envp file trampoline x x' q.
Proof.
  destruct (fresh_space_run s roots) as (q & s1 & s2 & s3 & R1 & R2 & R3 & Hfs); [done|apply Hptr|done|unfold frames_needed in Hav; lia|].
  set (p1 := reset_process (hhdm_ptov s q) user_heap0 (file_entry file) (x_proc x)).
  destruct (fill_space q s3 p1) as (s4 & s5 & R4 & R5 & Hld & Hst); [done..|].
  set (p2 := with_start _ _ _ _ _) in R5. set (x5 := mk_exec s5 p2 (x_stack x)) in *.
  set (x6 := mk_exec s5 (with_frames (p_kernel_rsp p2) (context_frame p2) (context_frame p2) (syscall_frame p2) p2)
    (store_words (context_frame p2) (context_words trampoline) (x_stack x))).
  assert (build_synthetic_context_frame trampoline x5 = Ok (x6, ())) as R6 by done.
  pose proof Hld as [Hac4 Hs4 _ Hb4 Ho4]. pose proof Hst as [Hac5 Hs5 _ Hb5 Ho5].
  assert (same_system s3 s5) as Hs35 by (by etrans). pose proof Hs35 as [_ Hp5 Hh5].
  pose proof Hfs as [Hac3 Hnew _ Hp3 Hh3 _ Hempty Hold3]. rewrite Hp3 in Hp5. rewrite Hh3 in Hh5.
  set (s6 := with_vm_cpu (with_cr3 (kroot s) (vm_cpu s5)) s5). set (s7 := with_vm_cpu (clac (vm_cpu s6)) s6).
  assert (switch_kernel_pml4 s5 = Ok (s6, ())) as R7.
  { unfold switch_kernel_pml4, switch_pml4, kassert_not_null, mbind, M_bind, gets. rewrite Hp5.
    rewrite (proj2 (Z.eqb_neq _ _)) by apply Hptr. cbn. unfold mret, M_ret, modify, s6, kroot, hhdm_vtop.
    by rewrite Hh5. }
  assert (∀ a, user_addr s a ↔ user_addr s3 a) as Hu by (intros a; unfold user_addr, get_kernel_pml4_index; by rewrite Hh3).
  assert (∀ a, user_addr s a ↔ user_addr s4 a) as Hu4 by (intros a; rewrite Hu; symmetry; by apply same_system_user).
  exists (with_x_vm s7 x6), q. split.
  - unfold exec_elf64, kassert_not_null. rewrite (proj2 (Z.eqb_neq _ _)) by done. cbn [negb kassert].
    rewrite (bind_ok (mret ()) _ x x () eq_refl), (bind_ok _ _ _ _ _ Hfile), Hvalid. cbn [negb].
    rewrite (bind_ok drop_space _ x x ()); [|unfold drop_space, mbind, M_bind, gets; by rewrite Hspace].
    rewrite (bind_ok (on_vm _) _ _ _ _ (on_vm_run _ _ _ _ R1)).
    rewrite (bind_ok (on_vm _) _ _ _ _ (on_vm_run _ (with_x_vm s1 x) s2 () R2)).
    rewrite (bind_ok (on_cpu_of stac) _ (with_x_vm s2 (with_x_vm s1 x)) _ () eq_refl).
    rewrite (bind_ok (on_vm _) _ _ _ _ (on_vm_run _ (with_x_vm (with_vm_cpu (stac (vm_cpu s2)) s2) (with_x_vm s2 (with_x_vm s1 x))) s3 _ R3)).
    match goal with |- (proc_set ?f ≫= ?k) ?y = _ => rewrite (bind_ok (proc_set f) k y (mk_exec s3 p1 (x_stack x)) () eq_refl) end.
    rewrite (bind_ok _ _ _ _ _ R4), (bind_ok _ _ _ _ _ R5),
      (bind_ok _ _ _ _ _ R6).
    by rewrite (bind_ok (on_vm _) _ _ _ _ (on_vm_run _ x6 s6 () R7)).
  - split; try done.
    + do 2 apply sys_ok_cpu. apply Hac5.
    + apply clac_ac.
    + intros h a Hh Ha. change (ubyte s5 q a = seg_byte bytes h a). destruct Hprog as [_ Hsegs _ Hstk].
      rewrite Forall_forall in Hsegs, Hstk. rewrite Ho5; [by apply Hb4|by right| |].
      * apply Hu4. destruct (Hsegs h Hh). eapply touched_user; [done..|by apply in_seg_touches].
      * intros [_ Hin]. by apply (Hstk h Hh a (in_seg_touches h a Ha)).
    + intros a Ha Hns Hnt. change (ubyte s5 q a = None). rewrite Ho5; [|by right|by apply Hu4|by intros [_ ?]].
      rewrite Ho4; [by apply Hempty|by right|by apply Hu|done].
    + intros r a Hr Ha. change (ubyte s5 r a = ubyte s r a). assert (r ≠ q) as Hne by (by intros ->).
      rewrite Ho5, Ho4; [by apply Hold3|by left|by apply Hu|done|by left|by apply Hu4|by intros [? _]].
    + cbn zeta. split; [|done].
      change (wrap64 (wrap64 (kernel_stack (x_proc x) + KERNEL_STACK_SIZE) - SIZEOF_CONTEXT_FRAME) =
        kernel_stack (x_proc x) + KERNEL_STACK_SIZE - SIZEOF_CONTEXT_FRAME).
      unfold KERNEL_STACK_SIZE, SIZEOF_CONTEXT_FRAME in *. wrap_lia.
Qed.
End exec.

(** The program break is a page boundary behind every segment. *)
Lemma next_break_spec brk h : 0 ≤ brk → brk mod 4096 = 0 → 0 ≤ p_vaddr h → 0 < p_memsz h → p_vaddr h + p_memsz h ≤ 2 ^ 47 →
  brk ≤ next_break brk h ∧ p_vaddr h + p_memsz h ≤ next_break brk h ∧ next_break brk h mod 4096 = 0.
Proof.
  intros Hb Hal Hv Hm He. unfold next_break.
  rewrite (wrap_small 64 (p_vaddr h + p_memsz h)) by (unfold is_word; pow_consts; lia).
  destruct (Z.ltb_spec brk (p_vaddr h + p_memsz h)); [|lia].
  rewrite (wrap_small 64 (p_vaddr h + p_memsz h + 0xFFF)) by (unfold is_word; pow_consts; lia).
  rewrite page_mask_land by (pow_consts; lia). lia.
Qed.

Lemma foldl_break_spec hs : ∀ brk, 0 ≤ brk → brk mod 4096 = 0 →
  Forall (λ h, 0 ≤ p_vaddr h ∧ 0 < p_memsz h ∧ p_vaddr h + p_memsz h ≤ 2 ^ 47) hs →
  brk ≤ foldl next_break brk hs ∧ foldl next_break brk hs mod 4096 = 0 ∧
  Forall (λ h, p_vaddr h + p_memsz h ≤ foldl next_break brk hs) hs.
Proof.
  induction hs as [|h hs IH]; intros brk Hb Hal Hhs; [cbn; split_and!; [lia|done|constructor]|].
  apply Forall_cons in Hhs as [(Hv & Hm & He) Hhs]. cbn [foldl].
  destruct (next_break_spec brk h) as (H1 & H2 & H3); [done..|].
  destruct (IH (next_break brk h)) as (H4 & H5 & H6); [lia|done|done|].
  split_and!; [lia|done|]. constructor; [lia|done].
Qed.

(** C5: [exec_elf64] of a well-formed executable, by a process that has no address space yet, cannot fail and
    leaves the process ready to start it: in a new address space every segment holds the bytes of the file
    followed by zeros, the stack holds the arguments, and nothing else is mapped; the entry point, the stack
    pointer and the frame for the first context switch are set; the program break is a page boundary
    behind all segments; the kernel's page tables are active again with user access off; and no other
    address space has changed.  [frames_needed] free frames are enough. *)
Theorem exec_elf64_loads_program x roots trampoline buffer bytes argv envp file :
  sys_ok (x_vm x) roots → is_word 64 (kernel_pml4 (x_vm x)) ∧ kernel_pml4 (x_vm x) ≠ 0 →
  2 ≤ get_kernel_pml4_index (x_vm x) →
  buffer ≠ 0 → parse_file buffer bytes x = Ok (x, file) → is_valid_elf file = true →
  program_ok (get_kernel_pml4_index (x_vm x)) bytes (program_headers file) →
  Forall (Forall byte_ok) argv → Forall (Forall byte_ok) envp → stack_size argv envp ≤ USER_STACK_SIZE →
  (frames_needed (program_headers file) ≤ avail (vm_pmm (x_vm x)))%nat →
  pml4 (x_proc x) = 0 → 0 ≤ kernel_stack (x_proc x) ∧ kernel_stack (x_proc x) + KERNEL_STACK_SIZE < 2 ^ 64 →
  ∃ x' q, exec_elf64 trampoline buffer bytes argv envp x = Ok (x', ()) ∧
    launched roots bytes argv envp file trampoline x x' q ∧
    heap_break (x_proc x') mod 4096 = 0 ∧
    Forall (λ h, p_vaddr h + p_memsz h ≤ heap_break (x_proc x')) (program_headers file).
Proof.
  intros Hsys Hptr Hks Hbuf Hfile Hvalid Hprog Hargv Henvp Hsz Hav Hsp Hkst.
  destruct (exec_elf64_run x roots trampoline buffer bytes argv envp file) as (x' & q & Hrun & Hl); [done..|].
  exists x', q. split; [done|]. split; [done|]. rewrite (la_break _ _ _ _ _ _ _ _ _ Hl).
  destruct (foldl_break_spec (program_headers file) 0) as (_ & H1 & H2); [done..| |done].
  destruct Hsys as (_ & _ & _ & Hk). eapply Forall_impl; [apply Hprog|]. intros h [Hv Hm _ _ He]. pow_consts. lia.
Qed.

(** The program of the example: one segment of four bytes followed by four zeros. *)
Definition demo_file : list Z := elf_image demo_header [demo_note; demo_segment] [1; 2; 3; 4].
Definition demo_elf : Elf64_File := mk_Elf64_File true 0x401000 [demo_segment].
Lemma demo_parse {S} (st : S) : parse_file 0x1000 demo_file st = Ok (st, demo_elf).
Proof. reflexivity. Qed.

Definition demo_storage : Process :=
  mk_Process 0 0 NEW NONE 0 0 0 0 0 0 0 0 0 user_heap0 0 0 0 0 0 0 [] 0 0 0.
Definition demo_exec : exec := mk_exec demo_vmm (new_Process demo_storage 7 0xFFFF900000000000) ∅.

Lemma demo_program_ok : program_ok 256 demo_file [demo_segment].
Proof.
  split.
  - by vm_compute; repeat constructor.
  - apply Forall_singleton. split; cbn; lia.
  - repeat constructor.
  - apply Forall_singleton. intros a (b & Hb & Hd). unfold in_stack, USER_STACK_TOP, USER_STACK_BASE, USER_STACK_SIZE.
    cbn in Hb. lia.
Qed.

Lemma exec_elf64_loads_program_witness :
  ∃ x' q, exec_elf64 0xFFFFFFFF80001000 0x1000 demo_file [[97]] [] demo_exec = Ok (x', ()) ∧
    ubyte (x_vm x') q 0x401002 = Some 3 ∧ ubyte (x_vm x') q 0x401006 = Some 0.
Proof.
  destruct (exec_elf64_loads_program demo_exec demo_roots 0xFFFFFFFF80001000 0x1000 demo_file [[97]] [] demo_elf)
    as (x' & q & H & Hl & _).
  - exact demo_ok.
  - split; [split; vm_compute; congruence|vm_compute; congruence].
  - vm_compute. congruence.
  - lia.
  - apply demo_parse.
  - reflexivity.
  - exact demo_program_ok.
  - apply Forall_singleton, Forall_singleton. unfold byte_ok. lia.
  - constructor.
  - vm_compute. congruence.
  - apply Nat.leb_le. vm_compute. reflexivity.
  - reflexivity.
  - split; vm_compute; congruence.
  - exists x', q. split; [exact H|]. pose proof (la_segs _ _ _ _ _ _ _ _ _ Hl demo_segment) as Hs.
    split; apply Hs; [apply list_elem_of_singleton; reflexivity|split; vm_compute; congruence
      |apply list_elem_of_singleton; reflexivity|split; vm_compute; congruence].
Defined.

Definition demo_building : exec :=
  mk_exec (with_vm_cpu (stac (vm_cpu demo_vmm)) demo_vmm)
    (with_space (hhdm_ptov demo_vmm 0x2000) 0 user_heap0 (x_proc demo_exec)) ∅.

Lemma demo_building_active : active (x_vm demo_building) demo_roots 0x2000.
Proof. split; [apply sys_ok_cpu, demo_ok|done|done|by vm_compute]. Qed.

Lemma build_user_stack_passes_arguments_witness :
  ∃ x', build_user_stack [[108; 115]; [47]] [] demo_building = Ok (x', ()) ∧
    uword64 (x_vm x') 0x2000 (p_user_rsp (x_proc x')) = Some 2.
Proof.
  destruct (build_user_stack_passes_arguments demo_building demo_roots 0x2000 [[108; 115]; [47]] [])
    as (x' & H & _ & Hargc & _).
  - exact demo_building_active.
  - reflexivity.
  - vm_compute. congruence.
  - repeat constructor; unfold byte_ok; lia.
  - constructor.
  - vm_compute. congruence.
  - apply Nat.leb_le. vm_compute. reflexivity.
  - exists x'. split; [exact H|exact Hargc].
Defined.
