(* ===== verification/ForkProofs.v ===== *)
(** * Theorems about fork and the program break

    [fork] of [Exec.v] makes a process with its own copy of the memory and of the registers of the system call;
    [sys_brk] grows the memory of a process. *)

From stdpp Require Import functions.
From S2P Require Import Prelude Bytes Cpu Spinlock Pmm Vmm VmmTree VmmProofs VmmFree VmmSpace.
From S2P Require Import VmmClone VmmHeap VmmTheorems Process UserSpace Elf Exec ExecProofs.

#[local] Coercion Z.of_nat : nat >-> Z.

(** ** Copying registers between stacks *)

Lemma copy_syscall_frame_run x to from (w : Z → Z) :
  0 ≤ to → to + 128 ≤ 2 ^ 64 → 0 ≤ from → from + 128 ≤ 2 ^ 64 → to + 128 ≤ from ∨ from + 128 ≤ to →
  (∀ i, 0 ≤ i < 16 → x_stack x !! (from + 8 * i) = Some (w i)) →
  ∃ m, copy_syscall_frame to from x = Ok (mk_exec (x_vm x) (x_proc x) m, ()) ∧
    (∀ i, 0 ≤ i < 16 → m !! (to + 8 * i) = Some (w i)) ∧
    (∀ a, ¬ (to ≤ a < to + 128) → m !! a = x_stack x !! a).
Proof.
  intros Ht Ht' Hf Hf' Hdis Hw. unfold copy_syscall_frame.
  match goal with |- context [for_each (seqZ 0 16) ?b x] => set (body := b) end.
  assert (wp (for_each (seqZ 0 16) body) False (λ _ y, ∃ m, y = mk_exec (x_vm x) (x_proc x) m ∧
    (∀ i, i ∈ seqZ 0 16 → m !! (to + 8 * i) = Some (w i)) ∧
    (∀ a, (∀ i, i ∈ seqZ 0 16 → a ≠ to + 8 * i) → m !! a = x_stack x !! a)) x) as Hwp.
  { apply (wp_for_each (seqZ 0 16) body False (λ pre y, ∃ m, y = mk_exec (x_vm x) (x_proc x) m ∧
      (∀ i, i ∈ pre → m !! (to + 8 * i) = Some (w i)) ∧ (∀ a, (∀ i, i ∈ pre → a ≠ to + 8 * i) → m !! a = x_stack x !! a))).
    - intros pre i post y Hl (m & -> & Hin & Hout).
      assert (∀ j, j ∈ pre ++ [i] → 0 ≤ j < 16) as Hr.
      { intros j Hj. assert (j ∈ seqZ 0 16) as ?%elem_of_seqZ by (rewrite Hl; by apply elem_snoc_mid). lia. }
      pose proof (Hr i (elem_snoc _ _)) as Hi. unfold body.
      rewrite wp_gets. cbn [x_stack]. rewrite (wrap_small 64 (from + 8 * i)) by (unfold is_word; lia).
      rewrite Hout by (intros j Hj; assert (0 ≤ j < 16) by (apply Hr, elem_of_app; by left); lia).
      rewrite Hw by done. cbn [of_option]. eexists. split; [done|]. cbn [x_stack].
      rewrite (wrap_small 64 (to + 8 * i)) by (unfold is_word; lia). split.
      + intros j Hj. destruct (decide (j = i)) as [->|Hne]; [by rewrite lookup_insert_eq|].
        apply elem_of_app in Hj as [Hj|?%list_elem_of_singleton]; [|done].
        rewrite lookup_insert_ne by lia. by apply Hin.
      + intros a Ha. rewrite lookup_insert_ne by (apply not_eq_sym, Ha, elem_snoc). apply Hout.
        intros j Hj. apply Ha, elem_of_app. by left.
    - exists (x_stack x). split; [by destruct x|]. split; [by intros i ?%not_elem_of_nil|done]. }
  apply wp_total in Hwp as (y & [] & Hrun & m & -> & Hin & Hout). exists m. split; [done|]. split.
  - intros i Hi. apply Hin, elem_of_seqZ. lia.
  - intros a Ha. apply Hout. intros i Hi%elem_of_seqZ. lia.
Qed.

(** ** The copied memory *)

Lemma clone_ubyte s s' roots q r a : sys_ok s roots → cloned (sys_dom s roots) s s' q r → user_addr s a →
  ubyte s' q a = ubyte s r a.
Proof.
  intros (_ & _ & _ & Hks) Hcl Ha. pose proof (cl_user _ _ _ _ _ Hcl (upath a) (idx1 a) (user_path_fpath s a Hks Ha) eq_refl) as Hm.
  unfold mirror in Hm. fold (pte s r a) in Hm. fold (pte s' q a) in Hm. apply ubyte_same_as. unfold uword, word. rewrite !pte_walk.
  destruct (pte s r a) as [w|] eqn:Hw; cycle 1.
  { by rewrite Hm. }
  destruct Hm as (f & Hf & Hpf & _ & Hc). rewrite Hf. cbn [mbind option_bind].
  assert (target w = Some (Entry.frame_of w)) as Htw.
  { unfold pte, leaf in Hw. destruct (word _ _ _ _) as [w'|]; [|done]. cbn in Hw. unfold target.
    destruct (Entry.present w') eqn:Hp; [|done]. injection Hw as <-. by rewrite Hp. }
  rewrite (target_set_addr w f), Htw; [|done|by eapply target_present]. cbn [mbind option_bind].
  f_equal. apply Hc, idx_word.
Qed.

(** ** [fork] *)

(** The child [c] of the process in [x], in the new address space [q]; [w] are the registers of the system call. *)
Record forked (roots : Z → Prop) (this forked_entry new_pid stack r : Z) (w : Z → Z) (x x' : exec) (c : Process) (q : Z)
  : Prop := {
  fk_new : ¬ roots q;
  fk_sys : sys_ok (x_vm x') (plus_root roots q);
  fk_kernel : hhdm_offset (x_vm x') = hhdm_offset (x_vm x) ∧ kernel_pml4 (x_vm x') = kernel_pml4 (x_vm x) ∧
    percpu (vm_cpu (x_vm x')) = percpu (vm_cpu (x_vm x));
  fk_cr3 : cr3 (vm_cpu (x_vm x')) = r;
  fk_ac : Z.testbit (rflags (vm_cpu (x_vm x'))) RFLAGS_AC = false;
  fk_this : x_proc x' = x_proc x;
  fk_id : pid c = new_pid ∧ parent c = this ∧ state c = NEW;
  fk_space : pml4 c = hhdm_ptov (x_vm x) q ∧ heap_break c = heap_break (x_proc x) ∧ uheap c = uheap (x_proc x);
  fk_files : fd_table c = fd_table (x_proc x) ∧ cwd_inode c = cwd_inode (x_proc x);
  fk_thread : fs_base c = fs_base (x_proc x) ∧ tidptr c = tidptr (x_proc x);
  fk_memory a : user_addr (x_vm x) a → ubyte (x_vm x') q a = ubyte (x_vm x) r a;
  fk_others r' a : roots r' → user_addr (x_vm x) a → ubyte (x_vm x') r' a = ubyte (x_vm x) r' a;
  fk_frame i : 0 ≤ i < 16 → x_stack x' !! (syscall_frame c + 8 * i) = Some (w i);
  fk_places : syscall_frame c = stack + KERNEL_STACK_SIZE - SIZEOF_SYSCALL_FRAME ∧
    context_frame c = syscall_frame c - SIZEOF_CONTEXT_FRAME ∧ kernel_rsp_saved c = context_frame c;
  fk_start (i : nat) v : context_words forked_entry !! i = Some v → x_stack x' !! (context_frame c + 8 * i) = Some v;
  fk_stacks a : ¬ (context_frame c ≤ a < stack + KERNEL_STACK_SIZE) → x_stack x' !! a = x_stack x !! a;
}.

(** The child's frames on its own stack. *)
Lemma fork_frames (x1 : exec) from forked_entry (w : Z → Z) :
  let c := x_proc x1 in let top := syscall_frame c + 128 in
  56 ≤ syscall_frame c → top < 2 ^ 64 → context_frame c = syscall_frame c - 56 →
  0 ≤ from → from + 128 ≤ 2 ^ 64 → top ≤ from ∨ from + 128 ≤ syscall_frame c - 56 →
  (∀ i, 0 ≤ i < 16 → x_stack x1 !! (from + 8 * i) = Some (w i)) →
  ∃ m1 m2, copy_syscall_frame (syscall_frame c) from x1 = Ok (mk_exec (x_vm x1) c m1, ()) ∧
    build_synthetic_context_frame forked_entry (mk_exec (x_vm x1) c m1) =
      Ok (mk_exec (x_vm x1) (with_frames (p_kernel_rsp c) (context_frame c) (context_frame c) (syscall_frame c) c) m2, ()) ∧
    (∀ i, 0 ≤ i < 16 → m2 !! (syscall_frame c + 8 * i) = Some (w i)) ∧
    (∀ (i : nat) v, context_words forked_entry !! i = Some v → m2 !! (context_frame c + 8 * i) = Some v) ∧
    (∀ a, ¬ (context_frame c ≤ a < top) → m2 !! a = x_stack x1 !! a).
Proof.
  intros c top Hlo Htop Hctx Hf Hf' Hdis Hw.
  destruct (copy_syscall_frame_run x1 (syscall_frame c) from w) as (m1 & Hrun & Hin & Hout); [lia..|done|].
  set (ws := context_words forked_entry).
  exists m1, (store_words (context_frame c) ws m1). split; [done|]. split; [done|].
  assert (length ws = 7%nat) as Hl by done. split_and!.
  - intros i Hi. rewrite store_words_other by (rewrite ?Hl; lia). by apply Hin.
  - intros i v Hi. apply store_words_lookup; [lia|rewrite Hl; lia|done].
  - intros a Ha. rewrite store_words_other by (rewrite ?Hl; lia). apply Hout. lia.
Qed.

Section fork.
Context (x : exec) (roots : Z → Prop) (this forked_entry : Z) (g : Process) (new_pid stack r : Z) (w : Z → Z).
Let s := x_vm x.
Let p := x_proc x.
Hypothesis Hsys : sys_ok s roots.
Hypothesis Hr : roots r.
Hypothesis Hp : pml4 p = hhdm_ptov s r.
Hypothesis Hav : ∀ F, nodes_on (sys_dom s roots) s r (λ _, true) F → (length F + 3 ≤ avail (vm_pmm s))%nat.
Hypothesis Hheap : user_path (get_kernel_pml4_index s) [pml4_idx (uheap p); pdpt_idx (uheap p); pd_idx (uheap p)].
Hypothesis Hstack : 0 ≤ stack ∧ stack + KERNEL_STACK_SIZE < 2 ^ 64.
Hypothesis Hfrom : 0 ≤ syscall_frame p ∧ syscall_frame p + 128 ≤ 2 ^ 64.
Hypothesis Hapart : stack + KERNEL_STACK_SIZE ≤ syscall_frame p ∨ syscall_frame p + 128 ≤ stack.
Hypothesis Hregs : ∀ i, 0 ≤ i < 16 → x_stack x !! (syscall_frame p + 8 * i) = Some (w i).

(** The child's address space: a copy of the memory, and the tables of its heap. *)
Lemma fork_space : ∃ q s1 s2 s3, clone_user_pml4 (pml4 p) s = Ok (s1, hhdm_ptov s q) ∧
  switch_pml4 (hhdm_ptov s q) s1 = Ok (s2, ()) ∧
  clone_user_heap (uheap p) (hhdm_ptov s q) (with_vm_cpu (stac (vm_cpu s2)) s2) = Ok (s3, uheap p) ∧
  ¬ roots q ∧ sys_ok s3 (plus_root roots q) ∧ (hhdm_offset s3 = hhdm_offset s ∧ kernel_pml4 s3 = kernel_pml4 s ∧
    percpu (vm_cpu s3) = percpu (vm_cpu s)) ∧
  (∀ a, user_addr s a → ubyte s3 q a = ubyte s r a) ∧
  (∀ r' a, roots r' → user_addr s a → ubyte s3 r' a = ubyte s r' a).
Proof.
  pose proof Hsys as (Hok & Hlock & Hnk & Hks).
  destruct (clone_user_pml4_sys s roots r) as (q & s1 & R1 & Hres & Hsys1 & Hnew & Hcl); [done|done| |].
  { intros F HF. apply Hav in HF. lia. }
  assert (page_ok q) as Hq.
  { apply (f_page _ _ (ok_forest _ _ (cl_ok _ _ _ _ _ Hcl)) q []); [|done]. right. split; [done|apply user_path_nil]. }
  assert (plus_root roots q q) as Hroot by (by right).
  assert (hhdm_ptov s1 q = hhdm_ptov s q) as Hpt by (unfold hhdm_ptov; by rewrite (rs_hhdm _ _ Hres)).
  pose proof (root_ptr s1 _ q Hsys1 Hroot) as Hnz. pose proof (switch_pml4_run s1 q Hq Hnz) as R2. rewrite Hpt in R2.
  set (s2 := with_vm_cpu (with_cr3 q (vm_cpu s1)) s1) in *. set (s2' := with_vm_cpu (stac (vm_cpu s2)) s2).
  assert (sys_ok s2' (plus_root roots q)) as Hsys2 by (by do 2 apply sys_ok_cpu).
  assert (get_kernel_pml4_index s2' = get_kernel_pml4_index s) as Hki
    by (change (get_kernel_pml4_index s2') with (get_kernel_pml4_index s1); unfold get_kernel_pml4_index; by rewrite (rs_hhdm _ _ Hres)).
  destruct (user_heap_at_run s2' (plus_root roots q) q (uheap p)) as (s3 & R3 & Hg); [done|done|by rewrite Hki| |].
  { change (avail (vm_pmm s2')) with (avail (vm_pmm s1)). destruct (cl_avail _ _ _ _ _ Hcl) as (F & HF & Hl).
    apply Hav in HF. lia. }
  change (hhdm_ptov s2' q) with (hhdm_ptov s1 q) in R3. rewrite Hpt in R3.
  exists q, s1, s2, s3. split; [by rewrite Hp|]. split; [done|]. split; [exact R3|]. split; [done|].
  split; [by eapply grown_sys|]. split.
  { destruct (gr_keeps _ _ _ _ _ Hg) as [Kc _ Kp Kh _]. rewrite Kc, Kp, Kh. cbn. rewrite (rs_cpu _ _ Hres).
    split; [apply (rs_hhdm _ _ Hres)|]. split; [apply (rs_pml4 _ _ Hres)|done]. }
  assert (∀ r' a, plus_root roots q r' → user_addr s a → ubyte s3 r' a = ubyte s1 r' a) as Hb.
  { intros r' a Hr' Ha. change (ubyte s1 r' a) with (ubyte s2' r' a).
    eapply (grown_ubyte (sys_dom s2' (plus_root roots q))); [apply Hsys2|done|].
    apply user_dom; [by rewrite Hki|done|]. unfold user_addr in *. by rewrite Hki. }
  split.
  - intros a Ha. rewrite Hb by done. by eapply clone_ubyte.
  - intros r' a Hr' Ha. rewrite Hb by (by left || done). apply ubyte_of_page; apply (cl_old _ _ _ _ _ Hcl); by apply user_dom.
Qed.

Lemma fork_run : ∃ x' c q, fork this forked_entry g new_pid stack x = Ok (x', c) ∧
  forked roots this forked_entry new_pid stack r w x x' c q.
Proof.
  destruct fork_space as (q & s1 & s2 & s3 & R1 & R2 & R3 & Hnew & Hsys3 & (Hho & Hkp & Hpc) & Hcopy & Hoth).
  set (c := forked_process this (hhdm_ptov s q) (uheap p) p (new_Process g new_pid stack)).
  set (x3 := mk_exec s3 c (x_stack x)).
  assert (syscall_frame c = stack + KERNEL_STACK_SIZE - SIZEOF_SYSCALL_FRAME ∧
    context_frame c = stack + KERNEL_STACK_SIZE - SIZEOF_SYSCALL_FRAME - SIZEOF_CONTEXT_FRAME) as [Hsf Hcf].
  { unfold c, forked_process, new_Process. cbn [syscall_frame context_frame p_kernel_rsp].
    unfold KERNEL_STACK_SIZE, SIZEOF_SYSCALL_FRAME, SIZEOF_CONTEXT_FRAME in *. wrap_lia. }
  destruct (fork_frames x3 (syscall_frame p) forked_entry w) as (m1 & m2 & R4 & R5 & Hf & He & Ho);
    cbn [x3 x_proc x_stack x_vm] in *; [unfold KERNEL_STACK_SIZE, SIZEOF_SYSCALL_FRAME, SIZEOF_CONTEXT_FRAME in *; lia..|done|].
  assert (page_ok r) as Hpr.
  { destruct Hsys as (Hok & _). apply (f_page _ _ (ok_forest _ _ Hok) r []); [|done]. left. split; [done|apply user_path_nil]. }
  assert (hhdm_ptov s3 r = hhdm_ptov s r) as Hpt by (unfold hhdm_ptov; by rewrite Hho).
  assert (plus_root roots q r) as Hrr by (by left).
  pose proof (switch_pml4_run s3 r Hpr (root_ptr s3 _ r Hsys3 Hrr)) as R6. rewrite Hpt, <- Hp in R6.
  set (c' := with_frames _ _ _ _ c) in R5. set (s4 := with_vm_cpu (with_cr3 r (vm_cpu s3)) s3) in R6.
  exists (mk_exec (with_vm_cpu (clac (vm_cpu s4)) s4) p m2), c', q. split.
  - unfold fork. rewrite (bind_ok (gets x_proc) _ x x p eq_refl).
    rewrite (bind_ok (on_vm _) _ _ _ _ (on_vm_run _ x s1 _ R1)).
    rewrite (bind_ok (on_vm _) _ _ _ _ (on_vm_run _ (with_x_vm s1 x) s2 () R2)).
    rewrite (bind_ok (on_cpu_of stac) _ (with_x_vm s2 (with_x_vm s1 x)) _ () eq_refl).
    rewrite (bind_ok (on_vm _) _ _ _ _ (on_vm_run _ (with_x_vm (with_vm_cpu (stac (vm_cpu s2)) s2) (with_x_vm s2 (with_x_vm s1 x))) s3 _ R3)).
    match goal with |- (proc_set ?f ≫= ?k) ?y = _ => rewrite (bind_ok (proc_set f) k y x3 () eq_refl) end.
    rewrite (bind_ok _ _ _ _ _ R4), (bind_ok _ _ _ _ _ R5).
    match goal with |- (gets x_proc ≫= ?k) ?y = _ => rewrite (bind_ok (gets x_proc) k y y c' eq_refl) end.
    match goal with |- (proc_set ?f ≫= ?k) ?y = _ => rewrite (bind_ok (proc_set f) k y (mk_exec s3 p m2) () eq_refl) end.
    by rewrite (bind_ok (on_vm _) _ _ _ _ (on_vm_run _ (mk_exec s3 p m2) s4 () R6)).
  - split; try done.
    + by do 2 apply sys_ok_cpu.
    + apply clac_ac.
    + split; [exact Hsf|]. split; [|done]. change (context_frame c = syscall_frame c - SIZEOF_CONTEXT_FRAME).
      by rewrite Hsf.
    + intros a Ha. apply Ho. change (¬ (context_frame c ≤ a < stack + KERNEL_STACK_SIZE)) in Ha. rewrite Hsf. unfold SIZEOF_SYSCALL_FRAME. lia.
Qed.
End fork.

(** A process of the example system that has entered the kernel with the numbers of its registers in them. *)
Definition demo_caller : exec :=
  mk_exec demo_vmm
    (with_frames 0xFFFF900000008000 0 0 0xFFFF900000007F80
      (with_space (hhdm_ptov demo_vmm 0x2000) 0x401000 user_heap0 (x_proc demo_exec)))
    (store_words 0xFFFF900000007F80 (seqZ 0 16) ∅).

(** ** The program break *)

(** C28: [sys_brk] on every branch: asked for nothing, or for an address at or below the break, it answers the
    break and changes nothing; asked for more it makes every byte up to the new break accessible, on pages in
    frames that were free, and answers it.  No byte on any other page changes; but the page of a break
    that is not page aligned is mapped anew, so what the program had stored on it is gone. *)
Theorem sys_brk_moves_break x roots r addr :
  sys_ok (x_vm x) roots → roots r → pml4 (x_proc x) = hhdm_ptov (x_vm x) r →
  let brk := heap_break (x_proc x) in
  0 ≤ brk → addr ≤ get_kernel_pml4_index (x_vm x) * 2 ^ 39 →
  (4 * length (range_pages brk (addr - brk)) ≤ avail (vm_pmm (x_vm x)))%nat →
  if (addr =? 0) || (addr <=? brk) then sys_brk addr x = Ok (x, brk)
  else ∃ s', sys_brk addr x = Ok (mk_exec s' (with_heap_break addr (x_proc x)) (x_stack x), addr) ∧
    restored (x_vm x) s' ∧ sys_ok s' roots ∧
    (∀ a, touched brk (addr - brk) a → is_Some (ubyte s' r a) ∧
       ∃ w, pte s' r a = Some w ∧ frame_free (vm_pmm (x_vm x)) (frame_at (Entry.frame_of w)) = true) ∧
    (∀ r' a, roots r' → user_addr (x_vm x) a → ¬ (r' = r ∧ touched brk (addr - brk) a) →
       ubyte s' r' a = ubyte (x_vm x) r' a).
Proof.
  intros Hsys Hr Hp brk Hb Hend Hav. unfold sys_brk. rewrite (bind_ok (gets x_proc) _ x x (x_proc x) eq_refl). fold brk.
  destruct (Z.eqb_spec addr 0) as [->|Hne]; [done|]. destruct (Z.leb_spec addr brk) as [Hle|Hgt]; [done|]. cbn [orb].
  destruct Hsys as (Hok & Hl & Hnk & Hks). pose proof (conj Hok (conj Hl (conj Hnk Hks))) as Hsys.
  destruct (map_user_bytes (x_vm x) roots r brk (addr - brk)) as (s' & Hrun & Hres & Hsys' & _ & Hnew & Hold);
    [done|done|lia|lia|lia|done|].
  exists s'. split.
  - rewrite wrap_small by (unfold is_word; pow_consts; lia). rewrite Hp. by rewrite (bind_ok _ _ _ _ _ (on_vm_run _ x s' () Hrun)).
  - split; [done|]. split; [done|]. split; [|done]. intros a Ha. destruct (Hnew a Ha) as (Hs & w & f & Hw & Hf & Hfr).
    split; [done|]. exists w. by rewrite Hf.
Qed.

Lemma sys_brk_moves_break_witness :
  ∃ s', sys_brk 0x401800 demo_caller = Ok (mk_exec s' (with_heap_break 0x401800 (x_proc demo_caller)) (x_stack demo_caller), 0x401800) ∧
    is_Some (ubyte s' 0x2000 0x4017FF) ∧ ubyte s' 0x2000 0x400000 = Some 42.
Proof.
  destruct (sys_brk_moves_break demo_caller demo_roots 0x2000 0x401800) as (s' & H & _ & _ & Hnew & Hold).
  - exact demo_ok.
  - reflexivity.
  - reflexivity.
  - vm_compute. congruence.
  - vm_compute. congruence.
  - apply Nat.leb_le. vm_compute. reflexivity.
  - exists s'. split; [exact H|]. split.
    + apply Hnew. exists 0x4017FF. split; [split; vm_compute; congruence|reflexivity].
    + rewrite Hold; [vm_compute; reflexivity|reflexivity|split; vm_compute; congruence|].
      intros [_ (b & Hb & Hd)]. change (heap_break (x_proc demo_caller)) with 0x401000 in Hb. lia.
Defined.

(** ** Executing over a live address space *)

(** C39: when a process that is running executes another program, the old address space is freed while the
    CPU still walks its tables: at the end of [free_user_pml4] the PML4 that CR3 points to holds zeros
    in its kernel half as well, its frame is free for the next allocation, and no address translates. *)
Theorem exec_drops_active_tables x roots r :
  sys_ok (x_vm x) roots → roots r → pml4 (x_proc x) = hhdm_ptov (x_vm x) r → cr3 (vm_cpu (x_vm x)) = r →
  ∃ x', drop_space x = Ok (x', ()) ∧ cr3 (vm_cpu (x_vm x')) = r ∧
    frame_free (vm_pmm (x_vm x')) (frame_at r) = true ∧ ∀ v, hw_translate (x_vm x') v = None.
Proof.
  intros Hsys Hr Hp Hcr. destruct (free_user_pml4_sys (x_vm x) roots r Hsys Hr)
    as (s' & F & Hrun & Hres & _ & _ & HF & _ & Hfree & _ & _ & Hnn & _ & Hzero).
  assert (page_ok r) as Hpr.
  { destruct Hsys as (Hok & _). apply (f_page _ _ (ok_forest _ _ Hok) r []); [|done]. left. split; [done|apply user_path_nil]. }
  assert (cr3 (vm_cpu s') = r) as Hcr' by (by rewrite (rs_cpu _ _ Hres)).
  exists (with_x_vm s' x). split_and!; [|done|..].
  - unfold drop_space. rewrite (bind_ok (gets _) _ x x (hhdm_ptov (x_vm x) r)) by (unfold gets; by rewrite Hp).
    rewrite (proj2 (Z.eqb_neq _ _)) by (by eapply root_ptr). by apply on_vm_run.
  - cbn. rewrite Hfree by (by apply frame_at_nonneg). apply orb_true_iff. left. apply bool_decide_eq_true_2, list_elem_of_fmap_2, HF.
    exists []. split; [apply user_path_nil|done].
  - intros v. unfold hw_translate. cbn [x_vm with_x_vm]. rewrite Hcr', (proj1 (page_align_page _ Hpr)).
    assert (hw_next s' r (idx4 v) = None) as ->; [|done]. unfold hw_next. by rewrite Hzero by apply idx_range.
Qed.

Lemma exec_drops_active_tables_witness :
  ∃ x', drop_space demo_caller = Ok (x', ()) ∧ hw_translate (x_vm x') 0xFFFFFFFF80001000 = None.
Proof.
  destruct (exec_drops_active_tables demo_caller demo_roots 0x2000) as (x' & H & _ & _ & Hn).
  - exact demo_ok.
  - reflexivity.
  - reflexivity.
  - reflexivity.
  - exists x'. split; [exact H|apply Hn].
Defined.
