(* ===== verification/Trap.v ===== *)
(** * The assembly stubs

    [context/context_switch.s], [trap/syscall_entry.s] and [interrupts/isr.s] of [src/kernel/arch/x64], one
    definition per routine and one step per instruction, on a machine with the sixteen general registers, the
    instruction pointer, the code and stack selectors, the flags and model-specific registers of [Cpu.v] and
    the words of memory the stubs touch.  The C++ functions the stubs call are arguments.  [trap::init], which
    programs the registers SYSCALL and SYSRET read, is [trap_init].

    The instructions follow the architecture: [syscall], [sysretq], [swapgs], [iretq] and the delivery of an
    interrupt through a 64-bit interrupt gate. *)

From stdpp Require Import functions.
From S2P Require Import Prelude Cpu.

#[local] Coercion Z.of_nat : nat >-> Z.

(** ** The machine *)

Inductive reg := RAX | RBX | RCX | RDX | RSI | RDI | RBP | RSP | R8 | R9 | R10 | R11 | R12 | R13 | R14 | R15.
#[global] Instance reg_eq_dec : EqDecision reg.
Proof. solve_decision. Defined.

Record mach := mk_mach {
  gpr : reg → Z;
  rip : Z;
  cs : Z;
  ss : Z;
  m_cpu : cpu;
  mem : gmap Z Z;
}.
Definition with_gpr (f : reg → Z) (m : mach) : mach := mk_mach f (rip m) (cs m) (ss m) (m_cpu m) (mem m).
Definition with_rip (v : Z) (m : mach) : mach := mk_mach (gpr m) v (cs m) (ss m) (m_cpu m) (mem m).
Definition with_sel (c s : Z) (m : mach) : mach := mk_mach (gpr m) (rip m) c s (m_cpu m) (mem m).
Definition with_m_cpu (f : cpu → cpu) (m : mach) : mach := mk_mach (gpr m) (rip m) (cs m) (ss m) (f (m_cpu m)) (mem m).
Definition with_mem (f : gmap Z Z → gmap Z Z) (m : mach) : mach :=
  mk_mach (gpr m) (rip m) (cs m) (ss m) (m_cpu m) (f (mem m)).

(** ** Instructions *)

(** A word of memory that is not there is a page fault. *)
Definition load (a : Z) : M mach Z := w ← gets (λ m, mem m !! wrap64 a); of_option w.
Definition store (a v : Z) : M mach unit := _ ← load a; modify (with_mem (insert (wrap64 a) v)).

Definition reg_get (r : reg) : M mach Z := gets (λ m, gpr m r).
Definition mov (r : reg) (v : Z) : M mach unit := modify (λ m, with_gpr (<[r := v]> (gpr m)) m).

Definition push (v : Z) : M mach unit :=
  sp ← reg_get RSP;
  _ ← store (sp - 8) v;
  mov RSP (wrap64 (sp - 8)).
Definition pop : M mach Z :=
  sp ← reg_get RSP;
  v ← load sp;
  _ ← mov RSP (wrap64 (sp + 8));
  mret v.
Definition push_reg (r : reg) : M mach unit := v ← reg_get r; push v.
Definition pop_reg (r : reg) : M mach unit := v ← pop; mov r v.
Definition add_rsp (n : Z) : M mach unit := sp ← reg_get RSP; mov RSP (wrap64 (sp + n)).
Definition ret : M mach unit := v ← pop; modify (with_rip v).

Definition MSR_GS_BASE : Z := 0xC0000101.
Definition MSR_KERNEL_GS_BASE : Z := 0xC0000102.
Definition swap_gs (c : cpu) : cpu :=
  with_msr (λ k, if k =? MSR_GS_BASE then msr c MSR_KERNEL_GS_BASE
                 else if k =? MSR_KERNEL_GS_BASE then msr c MSR_GS_BASE else msr c k) c.
Definition swapgs : M mach unit := modify (with_m_cpu swap_gs).
Definition gs_base (m : mach) : Z := msr (m_cpu m) MSR_GS_BASE.

Definition ring (sel : Z) : Z := Z.land sel 3.

(** A return to an inner ring is a general protection fault. *)
Definition iretq : M mach unit :=
  ip ← pop;
  c ← pop;
  fl ← pop;
  sp ← pop;
  s ← pop;
  m ← get;
  if ring c <? ring (cs m) then fault
  else modify (λ m, with_gpr (<[RSP := sp]> (gpr m)) (with_rip ip (with_sel c s (with_m_cpu (write_rflags fl) m)))).

Definition MSR_EFER : Z := 0xC0000080.
Definition MSR_STAR : Z := 0xC0000081.
Definition MSR_LSTAR : Z := 0xC0000082.
Definition MSR_SFMASK : Z := 0xC0000084.
Definition EFER_SCE : Z := 1.
Definition SFMASK_IF : Z := Z.shiftl 1 9.
Definition SFMASK_DF : Z := Z.shiftl 1 10.
Definition SFMASK_TF : Z := Z.shiftl 1 8.

(** SYSCALL and SYSRETQ are undefined opcodes until EFER.SCE is set. *)
Definition syscall : M mach unit :=
  m ← get;
  let c := m_cpu m in
  if Z.testbit (msr c MSR_EFER) 0 then
    let sel := Z.land (get_field 32 16 (msr c MSR_STAR)) 0xFFFC in
    modify (λ m, with_gpr (<[R11 := rflags c]> (<[RCX := rip m]> (gpr m)))
      (with_rip (msr c MSR_LSTAR) (with_sel sel (sel + 8)
        (with_m_cpu (with_rflags (λ f, Z.ldiff f (msr c MSR_SFMASK))) m))))
  else fault.
Definition sysretq : M mach unit :=
  m ← get;
  let c := m_cpu m in
  if Z.testbit (msr c MSR_EFER) 0 then
    let sel := get_field 48 16 (msr c MSR_STAR) in
    modify (λ m, with_rip (gpr m RCX) (with_sel (Z.lor (sel + 16) 3) (sel + 8)
      (with_m_cpu (with_rflags (λ _, Z.lor (Z.land (gpr m R11) 0x3C7FD7) 2)) m)))
  else fault.

(** ** [trap::init] *)

Definition trap_init (syscall_entry : Z) (c : cpu) : cpu :=
  let star := Z.lor (Z.shiftl 0x13 48) (Z.shiftl 0x08 32) in
  let lstar := syscall_entry in
  let sfmask := Z.lor (Z.lor SFMASK_DF SFMASK_IF) SFMASK_TF in
  let efer := Z.lor (rdmsr MSR_EFER c) EFER_SCE in
  let c := wrmsr MSR_STAR star c in
  let c := wrmsr MSR_LSTAR lstar c in
  let c := wrmsr MSR_SFMASK sfmask c in
  wrmsr MSR_EFER efer c.

(** ** [context_switch.s] *)

(** The registers the System V ABI makes a callee preserve, in the order of [struct ContextFrame]. *)
Definition context_regs : list reg := [R15; R14; R13; R12; RBX; RBP].

Definition context_switch : M mach unit :=
  _ ← modify (with_m_cpu cli);
  _ ← for_each [RBP; RBX; R12; R13; R14; R15] push_reg;
  sp ← reg_get RSP;
  old_rsp_ptr ← reg_get RDI;
  _ ← store old_rsp_ptr sp;
  new_rsp ← reg_get RSI;
  _ ← mov RSP new_rsp;
  _ ← for_each context_regs pop_reg;
  _ ← modify (with_m_cpu sti);
  ret.

Definition permanent_context_switch : M mach unit :=
  _ ← modify (with_m_cpu cli);
  new_rsp ← reg_get RDI;
  _ ← mov RSP new_rsp;
  _ ← for_each context_regs pop_reg;
  _ ← modify (with_m_cpu sti);
  ret.

Definition userspace_entry_context_switch : M mach unit :=
  _ ← modify (with_m_cpu cli);
  _ ← swapgs;
  _ ← push 0x1B;
  _ ← push_reg RDI;
  _ ← push 0x202;
  _ ← push 0x23;
  _ ← push_reg RSI;
  iretq.

(** ** [syscall_entry.s] *)

Definition PER_CPU_KERNEL_RSP_OFFSET : Z := 8.
Definition PER_CPU_USER_RSP_OFFSET : Z := 16.

(** The registers of a system call up to the call of the dispatcher, and from its return. *)
Definition syscall_save : M mach unit :=
  _ ← swapgs;
  gs ← gets gs_base;
  sp ← reg_get RSP;
  _ ← store (gs + PER_CPU_USER_RSP_OFFSET) sp;
  ksp ← load (gs + PER_CPU_KERNEL_RSP_OFFSET);
  _ ← mov RSP ksp;
  usp ← load (gs + PER_CPU_USER_RSP_OFFSET);
  _ ← push usp;
  _ ← for_each [RAX; RBX; RCX; RDX; RSI; RDI; RBP; R8; R9; R10; R11; R12; R13; R14; R15] push_reg;
  frame ← reg_get RSP;
  mov RDI frame.

Definition syscall_restore : M mach unit :=
  _ ← for_each [R15; R14; R13; R12; R11; R10; R9; R8; RBP; RDI; RSI; RDX; RCX; RBX] pop_reg;
  _ ← add_rsp 8;
  _ ← pop_reg RSP;
  swapgs.

Definition syscall_exit : M mach unit := _ ← syscall_restore; sysretq.

Definition syscall_entry (syscall_dispatcher : M mach unit) : M mach unit :=
  _ ← syscall_save;
  _ ← syscall_dispatcher;
  syscall_exit.

Definition forked_entry_context_switch : M mach unit := _ ← mov RAX 0; syscall_exit.

(** ** [isr.s] *)

(** The exceptions the processor pushes an error code for, marked (E) in [irq.hpp]. *)
Definition pushes_error_code : list Z := [0x08; 0x0A; 0x0B; 0x0C; 0x0D; 0x0E; 0x11; 0x15; 0x1D; 0x1E].
(** The vectors whose stub is an [isr_err_stub]; all others are [isr_no_err_stub]. *)
Definition isr_err_stubs : list Z := [0x08; 0x0A; 0x0B; 0x0C; 0x0D; 0x0E; 0x11; 0x1E].

Definition swapgs_if_user (off : Z) : M mach unit :=
  sp ← reg_get RSP;
  c ← load (sp + off);
  if c =? 0x08 then mret () else swapgs.

(** Before and after the call of the C++ handler. *)
Definition isr_save : M mach unit :=
  _ ← swapgs_if_user 24;
  _ ← for_each [RAX; RBX; RCX; RDX; RSI; RDI; RBP; R8; R9; R10; R11; R12; R13; R14; R15] push_reg;
  frame ← reg_get RSP;
  mov RDI frame.

Definition isr_restore : M mach unit :=
  _ ← for_each [R15; R14; R13; R12; R11; R10; R9; R8; RBP; RDI; RSI; RDX; RCX; RBX; RAX] pop_reg;
  _ ← add_rsp 16;
  _ ← swapgs_if_user 8;
  iretq.

Definition isr_common (interrupt_handler : M mach unit) : M mach unit :=
  _ ← isr_save;
  _ ← interrupt_handler;
  isr_restore.

(** The two macros: a dummy error code where the processor is not taken to push one, and the vector. *)
Definition stub_pushes (vector : Z) : list Z := (if bool_decide (vector ∈ isr_err_stubs) then [] else [0]) ++ [vector].
Definition isr_stub (vector : Z) (interrupt_handler : M mach unit) : M mach unit :=
  _ ← for_each (stub_pushes vector) push;
  isr_common interrupt_handler.

(** The processor's part: the stack of the task state segment when the ring changes, aligned to sixteen
    bytes, the interrupted state on it, and the error code of the exceptions that have one.  An interrupt
    gate clears the interrupt, trap, nested-task and resume flags. *)
Definition deliver (rsp0 handler : Z) (err : option Z) : M mach unit :=
  m ← get;
  let sp := if ring (cs m) =? 0 then gpr m RSP else rsp0 in
  _ ← mov RSP (Z.land sp (Z.lnot 0xF));
  _ ← for_each ([ss m; gpr m RSP; rflags (m_cpu m); cs m; rip m] ++ option_list err) push;
  modify (λ m', with_rip handler (with_sel 0x08 (if ring (cs m) =? 0 then ss m else 0)
    (with_m_cpu (with_rflags (λ f, Z.ldiff f 0x14300)) m'))).

(** An interrupt: the gate of [idt::init] leads to the stub of the vector. *)
Definition take_interrupt (rsp0 stub vector : Z) (err : option Z) (interrupt_handler : M mach unit) : M mach unit :=
  _ ← deliver rsp0 stub err;
  isr_stub vector interrupt_handler.

(** [userspace_entry_trampoline()] of [process.cpp] for the current process: the two arguments and the call. *)
Definition userspace_entry_trampoline (user_rsp entry : Z) : M mach unit :=
  _ ← mov RDI user_rsp;
  _ ← mov RSI entry;
  userspace_entry_context_switch.
