(* ===== verification/TrapProofs.v ===== *)
(** * The stubs switch, enter and leave

    What the routines of [Trap.v] do to the registers: pushing and popping registers in general, then the
    context switch, the system call, the interrupt, and the first entry of a process into user mode. *)

From stdpp Require Import functions.
From S2P Require Import Prelude Bytes Cpu Trap.

#[local] Coercion Z.of_nat : nat >-> Z.

(** ** Words on the stack *)

Definition words_at (w : gmap Z Z) (a : Z) (ws : list Z) : Prop :=
  ∀ i v, ws !! i = Some v → w !! (a + 8 * (i : nat)) = Some v.

(** Below the stack pointer there are [n] words. *)
Definition room (m : mach) (n : nat) : Prop :=
  8 * n ≤ gpr m RSP < 2 ^ 64 ∧ ∀ i : nat, (i < n)%nat → is_Some (mem m !! (gpr m RSP - 8 * (i + 1))).

Definition same_control (m m' : mach) : Prop :=
  rip m' = rip m ∧ cs m' = cs m ∧ ss m' = ss m ∧ m_cpu m' = m_cpu m.

Record stacked (vs : list Z) (m m' : mach) : Prop := {
  st_rsp : gpr m' RSP = gpr m RSP - 8 * length vs;
  st_gpr r : r ≠ RSP → gpr m' r = gpr m r;
  st_words : words_at (mem m') (gpr m' RSP) (reverse vs);
  st_other a : ¬ (gpr m' RSP ≤ a < gpr m RSP) → mem m' !! a = mem m !! a;
  st_dom a : is_Some (mem m !! a) → is_Some (mem m' !! a);
}.

Record unstacked (rs : list reg) (vs : list Z) (m m' : mach) : Prop := {
  un_rsp : gpr m' RSP = gpr m RSP + 8 * length rs;
  un_gpr i r v : rs !! i = Some r → vs !! i = Some v → gpr m' r = v;
  un_other r : r ∉ rs → r ≠ RSP → gpr m' r = gpr m r;
  un_control : same_control m m';
  un_mem : mem m' = mem m;
}.

Lemma words_at_app w a ws ws' : words_at w a (ws ++ ws') ↔ words_at w a ws ∧ words_at w (a + 8 * length ws) ws'.
Proof.
  unfold words_at. split.
  - intros H. split; intros i v Hi.
    + apply H. by apply lookup_app_l_Some.
    + replace (a + 8 * length ws + 8 * i) with (a + 8 * (length ws + i)%nat) by lia. apply H.
      rewrite lookup_app_r by lia. by replace (length ws + i - length ws)%nat with i by lia.
  - intros [H H'] i v [Hi|[Hi Hv]]%lookup_app_Some; [by apply H|].
    replace (a + 8 * i) with (a + 8 * length ws + 8 * (i - length ws)%nat) by lia. by apply H'.
Qed.

Lemma words_at_cons w a v ws : words_at w a (v :: ws) ↔ w !! a = Some v ∧ words_at w (a + 8) ws.
Proof.
  rewrite (words_at_app w a [v] ws). cbn [length]. replace (a + 8 * 1%nat) with (a + 8) by lia. split; intros [H H'];
    (split; [|done]).
  - specialize (H 0%nat v eq_refl). by rewrite Z.add_0_r in H.
  - intros i u Hi. destruct i; [|done]. injection Hi as <-. by rewrite Z.add_0_r.
Qed.

Lemma words_at_same w w' a ws : (∀ b, a ≤ b < a + 8 * length ws → w' !! b = w !! b) → words_at w a ws → words_at w' a ws.
Proof. intros H Hw i v Hi. rewrite H; [by apply Hw|]. pose proof (lookup_lt_Some _ _ _ Hi). lia. Qed.

Lemma mem_load_run m a v : is_word 64 a → mem m !! a = Some v → load a m = Ok (m, v).
Proof. intros Ha Hv. unfold load. mrun. by rewrite wrap_small, Hv. Qed.

Lemma mem_store_run m a v : is_word 64 a → is_Some (mem m !! a) → store a v m = Ok (with_mem (insert a v) m, ()).
Proof.
  intros Ha [u Hu]. unfold store. rewrite (bind_ok (load a) _ m m u (mem_load_run m a u Ha Hu)). mrun.
  by rewrite wrap_small.
Qed.

Lemma push_run m v : room m 1 → ∃ m', push v m = Ok (m', ()) ∧ stacked [v] m m' ∧ same_control m m'.
Proof.
  intros [Hsp Hm]. specialize (Hm 0%nat ltac:(lia)). replace (gpr m RSP - 8 * (0%nat + 1)) with (gpr m RSP - 8) in Hm by lia.
  assert (is_word 64 (gpr m RSP - 8)) as Hw by (unfold is_word; lia).
  exists (with_gpr (<[RSP := gpr m RSP - 8]> (gpr m)) (with_mem (insert (gpr m RSP - 8) v) m)). split.
  - unfold push. rewrite (bind_ok (reg_get RSP) _ m m _ eq_refl).
    rewrite (bind_ok (store _ v) _ m _ () (mem_store_run m _ v Hw Hm)). unfold mov. mrun. by rewrite wrap_small.
  - split; [|done]. split; cbn [gpr mem with_gpr with_mem]; rewrite ?fn_lookup_insert; try done.
    + intros r Hr. by rewrite fn_lookup_insert_ne.
    + intros i u Hi. destruct i; [|done]. injection Hi as <-. rewrite Z.add_0_r. by rewrite lookup_insert_eq.
    + intros a Ha. rewrite lookup_insert_ne; [done|lia].
    + intros a Ha. by apply lookup_insert_is_Some'; right.
Qed.

Lemma stacked_nil m : stacked [] m m.
Proof. split; try done. cbn [length]. lia. Qed.

Lemma same_control_trans m m1 m2 : same_control m m1 → same_control m1 m2 → same_control m m2.
Proof. intros (?&?&?&?) (?&?&?&?). repeat split; congruence. Qed.

Lemma stacked_trans vs us m m1 m2 : stacked vs m m1 → stacked us m1 m2 → stacked (vs ++ us) m m2.
Proof.
  intros [R1 G1 W1 O1 D1] [R2 G2 W2 O2 D2]. split.
  - rewrite length_app. lia.
  - intros r Hr. rewrite G2, G1; done.
  - rewrite reverse_app. apply words_at_app. split; [done|]. rewrite length_reverse.
    replace (gpr m2 RSP + 8 * length us) with (gpr m1 RSP) by lia.
    apply (words_at_same (mem m1)); [|done]. intros b Hb. apply O2. rewrite length_reverse in Hb. lia.
  - intros a Ha. rewrite O2, O1 by lia. done.
  - auto.
Qed.

Lemma stacked_room vs m m' n : room m (length vs + n) → stacked vs m m' → room m' n.
Proof.
  intros [Hsp Hm] H. pose proof (st_rsp _ _ _ H). split; [lia|]. intros i Hi. apply (st_dom _ _ _ H).
  replace (gpr m' RSP - 8 * (i + 1)) with (gpr m RSP - 8 * ((length vs + i)%nat + 1)) by lia. apply Hm. lia.
Qed.

Lemma room_le m n k : (n ≤ k)%nat → room m k → room m n.
Proof. intros Hn [Hsp Hm]. split; [lia|]. intros i Hi. apply Hm. lia. Qed.

Lemma pushes_run vs m : room m (length vs) → ∃ m', for_each vs push m = Ok (m', ()) ∧ stacked vs m m' ∧ same_control m m'.
Proof.
  revert m. induction vs as [|v vs IH]; intros m Hr.
  - exists m. split; [done|]. split; [apply stacked_nil|done].
  - destruct (push_run m v) as (m1 & R1 & S1 & C1); [by apply (room_le _ _ (length (v :: vs))); [cbn; lia|]|].
    destruct (IH m1) as (m2 & R2 & S2 & C2); [by apply (stacked_room [v] m)|].
    exists m2. split; [cbn [for_each]; by rewrite (bind_ok _ _ _ _ _ R1)|].
    split; [by apply (stacked_trans [v] vs m m1)|by eapply same_control_trans].
Qed.

Lemma push_regs_run rs m : RSP ∉ rs → room m (length rs) →
  ∃ m', for_each rs push_reg m = Ok (m', ()) ∧ stacked (gpr m <$> rs) m m' ∧ same_control m m'.
Proof.
  revert m. induction rs as [|r rs IH]; intros m Hn Hr.
  - exists m. split; [done|]. split; [apply stacked_nil|done].
  - apply not_elem_of_cons in Hn as [Hn Hn'].
    destruct (push_run m (gpr m r)) as (m1 & R1 & S1 & C1); [by apply (room_le _ _ (length (r :: rs))); [cbn; lia|]|].
    destruct (IH m1 Hn') as (m2 & R2 & S2 & C2); [by apply (stacked_room [gpr m r] m)|].
    exists m2. split; [cbn [for_each]; by rewrite (bind_ok (push_reg r) _ m m1 () R1)|].
    split; [|by eapply same_control_trans]. rewrite fmap_cons. apply (stacked_trans [gpr m r] _ m m1); [done|].
    replace (gpr m <$> rs) with (gpr m1 <$> rs); [done|]. apply list_fmap_ext. intros i q Hq.
    apply (st_gpr _ _ _ S1). intros ->. apply Hn'. by eapply list_elem_of_lookup_2.
Qed.

Lemma pop_run m v : is_word 64 (gpr m RSP) → gpr m RSP + 8 < 2 ^ 64 → mem m !! gpr m RSP = Some v →
  pop m = Ok (with_gpr (<[RSP := gpr m RSP + 8]> (gpr m)) m, v).
Proof.
  intros Hsp Hlt Hv. unfold pop. rewrite (bind_ok (reg_get RSP) _ m m _ eq_refl).
  rewrite (bind_ok (load _) _ m m v (mem_load_run m _ v Hsp Hv)). unfold mov. mrun.
  rewrite wrap_small; [done|]. unfold is_word in *. lia.
Qed.

Lemma pop_reg_run r m v : is_word 64 (gpr m RSP) → gpr m RSP + 8 < 2 ^ 64 → mem m !! gpr m RSP = Some v →
  pop_reg r m = Ok (with_gpr (<[r := v]> (<[RSP := gpr m RSP + 8]> (gpr m))) m, ()).
Proof. intros H1 H2 H3. unfold pop_reg. by rewrite (bind_ok pop _ m _ v (pop_run m v H1 H2 H3)). Qed.

Lemma pop_regs_run rs vs m : NoDup rs → RSP ∉ rs → length vs = length rs → 0 ≤ gpr m RSP →
  gpr m RSP + 8 * length rs < 2 ^ 64 → words_at (mem m) (gpr m RSP) vs →
  ∃ m', for_each rs pop_reg m = Ok (m', ()) ∧ unstacked rs vs m m'.
Proof.
  revert vs m. induction rs as [|r rs IH]; intros [|v vs] m Hnd Hsp Hlen H0 Hlt Hw; try done.
  - exists m. split; [done|]. split; try done. cbn [length]. lia.
  - apply NoDup_cons in Hnd as [Hr Hnd]. apply not_elem_of_cons in Hsp as [Hrsp Hsp].
    apply words_at_cons in Hw as [Hv Hw]. cbn [length] in *.
    set (m1 := with_gpr (<[r := v]> (<[RSP := gpr m RSP + 8]> (gpr m))) m).
    assert (gpr m1 RSP = gpr m RSP + 8) as H1.
    { cbn [m1 gpr with_gpr]. by rewrite fn_lookup_insert_ne, fn_lookup_insert. }
    destruct (IH vs m1) as (m2 & R2 & [U1 U2 U3 U4 U5]); rewrite ?H1; try done; try lia.
    exists m2. split.
    + cbn [for_each]. by rewrite (bind_ok _ _ m m1 () (pop_reg_run r m v ltac:(unfold is_word; lia) ltac:(lia) Hv)).
    + split; [cbn [length]; lia| | |done|done].
      * intros [|i] q u Hq Hu; [|by eapply U2]. injection Hq as <-. injection Hu as <-. rewrite U3 by done.
        cbn [m1 gpr with_gpr]. by rewrite fn_lookup_insert.
      * intros q [Hq Hq']%not_elem_of_cons Hs. rewrite U3 by done. cbn [m1 gpr with_gpr].
        by rewrite !fn_lookup_insert_ne by done.
Qed.

Lemma ret_run m v : is_word 64 (gpr m RSP) → gpr m RSP + 8 < 2 ^ 64 → mem m !! gpr m RSP = Some v →
  ret m = Ok (with_rip v (with_gpr (<[RSP := gpr m RSP + 8]> (gpr m)) m), ()).
Proof. intros H1 H2 H3. unfold ret. by rewrite (bind_ok pop _ m _ v (pop_run m v H1 H2 H3)). Qed.

(** ** The context switch *)

(** A suspended context: the callee-saved registers of [regs] and the address [ra], at [sp]. *)
Definition suspended (w : gmap Z Z) (sp : Z) (regs : list Z) (ra : Z) : Prop :=
  0 ≤ sp ∧ sp + 56 < 2 ^ 64 ∧ length regs = length context_regs ∧ words_at w sp (regs ++ [ra]).

(** It goes on: its registers are back and the routine that called the switch has been returned to. *)
Record resumed (sp : Z) (regs : list Z) (ra : Z) (m m' : mach) : Prop := {
  re_rip : rip m' = ra;
  re_rsp : gpr m' RSP = sp + 56;
  re_gpr i r v : context_regs !! i = Some r → regs !! i = Some v → gpr m' r = v;
  re_other r : r ∉ context_regs → r ≠ RSP → gpr m' r = gpr m r;
  re_sel : cs m' = cs m ∧ ss m' = ss m;
  re_cpu : m_cpu m' = sti (cli (m_cpu m));
  re_mem : mem m' = mem m;
}.

(** What both switches do from the point where the new stack pointer is known. *)
Definition switch_to (sp : Z) : M mach unit :=
  _ ← mov RSP sp;
  _ ← for_each context_regs pop_reg;
  _ ← modify (with_m_cpu sti);
  ret.

Lemma switch_to_run sp regs ra m c : m_cpu m = cli c → suspended (mem m) sp regs ra →
  ∃ m', switch_to sp m = Ok (m', ()) ∧ resumed sp regs ra (with_m_cpu (λ _, c) m) m'.
Proof.
  intros Hc (H0 & Hlt & Hlen & Hw). apply words_at_app in Hw as [Hw Hra]. rewrite Hlen in Hra. apply words_at_cons in Hra as [Hra _].
  set (m1 := with_gpr (<[RSP := sp]> (gpr m)) m).
  assert (gpr m1 RSP = sp) as H1 by (cbn [m1 gpr with_gpr]; by rewrite fn_lookup_insert).
  destruct (pop_regs_run context_regs regs m1) as (m2 & R2 & [U1 U2 U3 U4 U5]); rewrite ?H1; try done;
    [repeat (constructor; [set_solver|]); constructor|set_solver|cbn [length context_regs]; lia|].
  rewrite H1 in U1. cbn [length context_regs] in U1, Hra.
  set (m3 := with_m_cpu sti m2).
  assert (gpr m3 RSP = sp + 8 * 6%nat) as H3 by exact U1.
  exists (with_rip ra (with_gpr (<[RSP := gpr m3 RSP + 8]> (gpr m3)) m3)). split.
  - unfold switch_to. rewrite (bind_ok (mov RSP sp) _ m m1 () eq_refl), (bind_ok _ _ _ _ _ R2).
    rewrite (bind_ok (modify (with_m_cpu sti)) _ m2 m3 () eq_refl). apply ret_run; rewrite H3; [unfold is_word; lia|lia|].
    change (mem m3) with (mem m2). rewrite U5. exact Hra.
  - destruct U4 as (?&E1&E2&E3). split; cbn [rip gpr cs ss m_cpu mem with_rip with_gpr with_m_cpu m3]; try done.
    + rewrite fn_lookup_insert. lia.
    + intros i r v Hr Hv. rewrite fn_lookup_insert_ne; [by eapply U2|]. intros <-. apply list_elem_of_lookup_2 in Hr. set_solver.
    + intros r Hr Hs. rewrite fn_lookup_insert_ne by done. rewrite U3 by done. cbn [m1 gpr with_gpr].
      by rewrite fn_lookup_insert_ne.
    + rewrite E3. cbn [m1 m_cpu with_gpr]. by rewrite Hc.
Qed.

Lemma permanent_context_switch_run m regs ra : suspended (mem m) (gpr m RDI) regs ra →
  ∃ m', permanent_context_switch m = Ok (m', ()) ∧ resumed (gpr m RDI) regs ra m m'.
Proof.
  intros Hs. destruct (switch_to_run (gpr m RDI) regs ra (with_m_cpu cli m) (m_cpu m)) as (m' & R & H); [done|done|].
  exists m'. split; [|by destruct m, H].
  unfold permanent_context_switch. rewrite (bind_ok (modify (with_m_cpu cli)) _ m _ () eq_refl).
  by rewrite (bind_ok (reg_get RDI) _ _ _ _ eq_refl).
Qed.

(** A call of [context_switch] with the stack and the variable it saves to, apart from the context it loads. *)
Record switching (m : mach) (ra0 : Z) : Prop := {
  sw_room : room m 6;
  sw_top : gpr m RSP + 8 < 2 ^ 64;
  sw_ret : mem m !! gpr m RSP = Some ra0;
  sw_slot : is_word 64 (gpr m RDI) ∧ is_Some (mem m !! gpr m RDI);
  sw_slot_out : ¬ (gpr m RSP - 48 ≤ gpr m RDI < gpr m RSP + 8);
  sw_apart a : gpr m RSI ≤ a < gpr m RSI + 56 → a ≠ gpr m RDI ∧ ¬ (gpr m RSP - 48 ≤ a < gpr m RSP);
}.

Lemma context_switch_run m ra0 regs ra : switching m ra0 → suspended (mem m) (gpr m RSI) regs ra →
  ∃ m', context_switch m = Ok (m', ()) ∧ resumed (gpr m RSI) regs ra (with_mem (λ _, mem m') m) m' ∧
    mem m' !! gpr m RDI = Some (gpr m RSP - 48) ∧
    suspended (mem m') (gpr m RSP - 48) (gpr m <$> context_regs) ra0 ∧ (∀ a, is_Some (mem m !! a) → is_Some (mem m' !! a)) ∧
    (∀ a, a ≠ gpr m RDI → ¬ (gpr m RSP - 48 ≤ a < gpr m RSP) → mem m' !! a = mem m !! a).
Proof.
  intros [Hroom Htop Hret [Hw Hs] Hout Hno] Hnew.
  destruct (push_regs_run [RBP; RBX; R12; R13; R14; R15] (with_m_cpu cli m)) as (m1 & R1 & [P1 P2 P4 P5 P6] & P3);
    [set_solver|exact Hroom|].
  cbn [gpr mem with_m_cpu length] in P1, P2, P5, P6. rewrite length_fmap in P1. cbn [length] in P1.
  replace (gpr m RSP - 8 * 6%nat) with (gpr m RSP - 48) in P1 by lia. rewrite P1 in P4, P5.
  set (m2 := with_mem (insert (gpr m RDI) (gpr m RSP - 48)) m1).
  assert (∀ a, gpr m RSP - 48 ≤ a < gpr m RSP + 8 → mem m2 !! a = mem m1 !! a) as Hkeep.
  { intros a Ha. cbn [m2 mem with_mem]. apply lookup_insert_ne. intros <-. by apply Hout. }
  destruct (switch_to_run (gpr m RSI) regs ra m2 (m_cpu m)) as (m3 & R3 & H3).
  { destruct P3 as (_&_&_&E). exact E. }
  { destruct Hnew as (N1 & N2 & N3 & N4). do 3 (split; [done|]). apply (words_at_same (mem m)); [|done].
    intros b Hb. rewrite length_app, N3 in Hb. cbn [length context_regs] in Hb.
    destruct (Hno b) as [Hb1 Hb2]; [lia|]. cbn [m2 mem with_mem]. by rewrite lookup_insert_ne, P5. }
  pose proof (re_mem _ _ _ _ _ H3) as E. change (mem (with_m_cpu _ m2)) with (mem m2) in E.
  exists m3. split; [|split; [|split; [|split; [|split]]]].
  - unfold context_switch. rewrite (bind_ok (modify (with_m_cpu cli)) _ m _ () eq_refl), (bind_ok _ _ _ _ _ R1).
    rewrite (bind_ok (reg_get RSP) _ _ _ _ eq_refl), (bind_ok (reg_get RDI) _ _ _ _ eq_refl). cbv beta.
    rewrite P1, (P2 RDI) by done. rewrite (bind_ok _ _ _ _ _ (mem_store_run m1 (gpr m RDI) _ Hw (P6 _ Hs))).
    rewrite (bind_ok (reg_get RSI) _ _ _ _ eq_refl). cbn [gpr with_mem]. rewrite (P2 RSI) by done. exact R3.
  - destruct H3 as [F1 F2 F3 F4 F5 F6 F7]. split; try done.
    + intros r Hr Hrs. rewrite F4 by done. cbn [gpr with_m_cpu m2 with_mem]. by apply P2.
    + destruct P3 as (_&E1&E2&_). destruct F5 as [-> ->]. done.
  - rewrite E. cbn [m2 mem with_mem]. by rewrite lookup_insert_eq.
  - destruct Hroom as [[Hr0 Hr1] _]. split; [lia|]. split; [lia|]. split; [done|]. rewrite E.
    apply (words_at_same (mem m1)); [intros b Hb; apply Hkeep; rewrite length_app in Hb; cbn in Hb; lia|].
    apply words_at_app. split; [exact P4|]. apply words_at_cons. split; [|done]. cbn [length fmap list_fmap context_regs].
    replace (gpr m RSP - 48 + 8 * 6%nat) with (gpr m RSP) by lia. rewrite P5 by lia. done.
  - intros a Ha. rewrite E. cbn [m2 mem with_mem]. apply lookup_insert_is_Some'. right. by apply P6.
  - intros a Ha Ho. rewrite E. cbn [m2 mem with_mem]. by rewrite lookup_insert_ne, P5.
Qed.

(** C9: [context_switch] saves and resumes.  The routine leaves the stack pointer of the caller in
    [*old_rsp_ptr] and goes on with the other context: its callee-saved registers, its stack, the address it
    will return to and interrupts on.  Whenever a later call switches to the pointer that was saved, and the
    words above it are as they were left, the first caller goes on as if its call had just returned: every
    callee-saved register and the stack pointer have the values of the call and control is at its return
    address. *)
Theorem context_switch_resumes m ra0 regs ra : switching m ra0 → suspended (mem m) (gpr m RSI) regs ra →
  ∃ m1, context_switch m = Ok (m1, ()) ∧
    resumed (gpr m RSI) regs ra (with_mem (λ _, mem m1) m) m1 ∧
    mem m1 !! gpr m RDI = Some (gpr m RSP - 48) ∧ Z.testbit (rflags (m_cpu m1)) RFLAGS_IF = true ∧
    (∀ a, is_Some (mem m !! a) → is_Some (mem m1 !! a)) ∧
    ∀ m2 ra2, switching m2 ra2 → gpr m2 RSI = gpr m RSP - 48 →
      (∀ a, gpr m RSP - 48 ≤ a < gpr m RSP + 8 → mem m2 !! a = mem m1 !! a) →
      ∃ m3, context_switch m2 = Ok (m3, ()) ∧ rip m3 = ra0 ∧ gpr m3 RSP = gpr m RSP + 8 ∧
        ∀ r, r ∈ context_regs → gpr m3 r = gpr m r.
Proof.
  intros Hsw Hnew. destruct (context_switch_run m ra0 regs ra Hsw Hnew) as (m1 & R1 & H1 & Hslot & (H0 & Hlt & Hlen & Hw) & Hdom & _).
  exists m1. do 3 (split; [done|]). split.
  { rewrite (re_cpu _ _ _ _ _ H1). cbn [rflags sti with_rflags]. by rewrite Z.setbit_eq. }
  split; [done|].
  intros m2 ra2 Hsw2 Hsi Hkeep.
  destruct (context_switch_run m2 ra2 (gpr m <$> context_regs) ra0 Hsw2) as (m3 & R3 & [F1 F2 F3 _ _ _ _] & _).
  { rewrite Hsi. do 3 (split; [done|]). apply (words_at_same (mem m1)); [|done]. intros b Hb. apply Hkeep.
    rewrite length_app, Hlen in Hb. cbn [length context_regs] in Hb. lia. }
  exists m3. split; [done|]. split; [done|]. split; [rewrite F2, Hsi; lia|].
  intros r [i Hi]%list_elem_of_lookup. apply (F3 i); [done|]. by rewrite list_lookup_fmap, Hi.
Qed.

(** An example machine: 128 words from 0x1000 on, and the numbers of the registers in them. *)
Definition demo_words : gmap Z Z := store_words 0x1000 (replicate 128 0) ∅.
Definition demo_gpr (rsp rsi rdi : Z) (r : reg) : Z :=
  match r with
  | RAX => 0 | RCX => 1 | RDX => 2 | RBX => 3 | RSP => rsp | RBP => 5 | RSI => rsi | RDI => rdi
  | R8 => 8 | R9 => 9 | R10 => 10 | R11 => 11 | R12 => 12 | R13 => 13 | R14 => 14 | R15 => 15
  end.
Definition demo_cpu : cpu :=
  trap_init 0xFFFFFFFF80001000
    (mk_cpu 0x202 0 0 (λ k, if k =? MSR_KERNEL_GS_BASE then 0x1000 else 0) (mk_PerCPU 0 0 0 0 false)).

Definition demo_addr (a : Z) : Prop := 0x1000 ≤ a < 0x1400 ∧ a mod 8 = 0.

Lemma demo_words_lookup a : demo_addr a → demo_words !! a = Some 0.
Proof.
  intros [Ha Hm]. replace a with (0x1000 + 8 * Z.to_nat ((a - 0x1000) / 8)) by lia.
  apply store_words_lookup; [lia|rewrite length_replicate; lia|apply lookup_replicate; lia].
Qed.
Lemma demo_words_some a : demo_addr a → is_Some (demo_words !! a).
Proof. intros Ha. by rewrite demo_words_lookup. Qed.

Lemma demo_words_at a (n : nat) : demo_addr a → a + 8 * n ≤ 0x1400 → words_at demo_words a (replicate n 0).
Proof. intros [H1 H2] H3 i v [-> Hi]%lookup_replicate. apply demo_words_lookup. split; lia. Qed.

Lemma demo_room m (n : nat) : (∀ a, demo_addr a → is_Some (mem m !! a)) →
  gpr m RSP mod 8 = 0 → 0x1000 + 8 * n ≤ gpr m RSP ≤ 0x1400 → room m n.
Proof. intros Hw Ha Hb. split; [lia|]. intros i Hi. apply Hw. split; lia. Qed.

Lemma context_switch_resumes_witness :
  let m := mk_mach (demo_gpr 0x1100 0x1200 0x1300) 0 0x08 0x10 demo_cpu demo_words in
  ∃ m1 m3, context_switch m = Ok (m1, ()) ∧ gpr m1 RBX = 0 ∧ gpr m1 RSP = 0x1238 ∧
    context_switch (with_gpr (demo_gpr 0x1280 0x10D0 0x1308) m1) = Ok (m3, ()) ∧
    gpr m3 RBX = 3 ∧ gpr m3 R15 = 15 ∧ gpr m3 RSP = 0x1108.
Proof.
  intros m. assert (∀ a, demo_addr a → is_Some (mem m !! a)) as Hsome by exact demo_words_some.
  assert (demo_addr 0x1280 ∧ demo_addr 0x1308) as [Hd1 Hd2] by done.
  destruct (context_switch_resumes m 0 (replicate 6 0) 0) as (m1 & R1 & [E1 E2 E3 E4 _ _ _] & Hslot & _ & Hdom & Hnext).
  - split; [by apply demo_room|done|by apply demo_words_lookup|split; [done|by apply Hsome]|cbn; lia|].
    intros a. cbn. lia.
  - do 3 (split; [done|]). by apply (demo_words_at _ 7).
  - destruct (Hdom _ (Hsome _ Hd1)) as [ra2 Hra2]. set (m2 := with_gpr (demo_gpr 0x1280 0x10D0 0x1308) m1) in *.
    exists m1. enough (∃ m3, context_switch m2 = Ok (m3, ()) ∧ gpr m3 RBX = 3 ∧ gpr m3 R15 = 15 ∧ gpr m3 RSP = 0x1108) as (m3 & R3 & H3).
    { exists m3. split; [exact R1|]. clear R1. split; [by apply (E3 4%nat)|]. split; [exact E2|]. split; [exact R3|exact H3]. }
    clear R1. destruct (Hnext m2 ra2) as (m3 & R3 & _ & G1 & G2); [|done|done|].
    + split; [apply demo_room; [intros a Ha; by apply Hdom, Hsome|done|done]|done|done| |cbn; lia|].
      * split; [done|]. by apply Hdom, Hsome.
      * intros a. cbn. lia.
    + exists m3. split; [exact R3|]. clear -G1 G2. split; [apply (G2 RBX); set_solver|]. split; [apply (G2 R15); set_solver|exact G1].
Defined.

(** ** System calls *)

(** What [trap::init] leaves for SYSCALL and SYSRETQ. *)
Record configured (c : cpu) : Prop := {
  cf_efer : Z.testbit (msr c MSR_EFER) 0 = true;
  cf_star : msr c MSR_STAR = 0x13000800000000;
  cf_sfmask : msr c MSR_SFMASK = 0x700;
}.

Lemma trap_init_configured entry c : configured (trap_init entry c).
Proof.
  split; [|reflexivity..]. unfold trap_init. cbn [msr wrmsr with_msr].
  rewrite Z.eqb_refl. rewrite Z.lor_spec. apply orb_true_iff. right. unfold wrap32, wrap.
  rewrite Z.mod_pow2_bits_low by lia. rewrite Z.land_spec. by rewrite Z.lor_spec, orb_true_r.
Qed.

(** The members of [struct SyscallFrame] that are popped on the way out; [rax] and [rsp] follow them. *)
Definition syscall_regs : list reg := [R15; R14; R13; R12; R11; R10; R9; R8; RBP; RDI; RSI; RDX; RCX; RBX].
Definition SyscallFrame : list reg := syscall_regs ++ [RAX; RSP].

(** Back in user mode from the frame [ws] at the stack pointer. *)
Record exited (ws : list Z) (m m' : mach) : Prop := {
  ex_gpr i r v : SyscallFrame !! i = Some r → ws !! i = Some v → r ≠ RAX → gpr m' r = v;
  ex_rax : gpr m' RAX = gpr m RAX;
  ex_rip : ws !! 12%nat = Some (rip m');
  ex_flags : ∃ v, ws !! 4%nat = Some v ∧ rflags (m_cpu m') = Z.lor (Z.land v 0x3C7FD7) 2;
  ex_sel : cs m' = 0x23 ∧ ss m' = 0x1B;
  ex_msr k : msr (m_cpu m') k = msr (swap_gs (m_cpu m)) k;
  ex_mem : mem m' = mem m;
}.

Lemma syscall_restore_run m ws : length ws = 16%nat → words_at (mem m) (gpr m RSP) ws → 0 ≤ gpr m RSP →
  gpr m RSP + 128 < 2 ^ 64 →
  ∃ m', syscall_restore m = Ok (m', ()) ∧
    (∀ i r v, SyscallFrame !! i = Some r → ws !! i = Some v → r ≠ RAX → gpr m' r = v) ∧ gpr m' RAX = gpr m RAX ∧
    rip m' = rip m ∧ cs m' = cs m ∧ ss m' = ss m ∧ m_cpu m' = swap_gs (m_cpu m) ∧ mem m' = mem m.
Proof.
  intros Hlen Hw H0 Hlt. destruct (pop_regs_run syscall_regs (take 14 ws) m) as (m1 & R1 & [U1 U2 U3 U4 U5]);
    [by apply (bool_decide_unpack (NoDup syscall_regs))|set_solver|rewrite length_take, Hlen; done|done|cbn; lia| |].
  { intros i v [Hi _]%lookup_take_Some. by apply Hw. }
  destruct (lookup_lt_is_Some_2 ws 15) as [sp Hsp]; [lia|]. cbn [length syscall_regs] in U1.
  set (m2 := with_gpr (<[RSP := gpr m RSP + 120]> (gpr m1)) m1).
  assert (gpr m2 RSP = gpr m RSP + 120) as H2 by (cbn [m2 gpr with_gpr]; by rewrite fn_lookup_insert).
  set (m3 := with_gpr (<[RSP := sp]> (<[RSP := gpr m2 RSP + 8]> (gpr m2))) m2).
  exists (with_m_cpu swap_gs m3). split.
  - unfold syscall_restore. rewrite (bind_ok _ _ _ _ _ R1).
    rewrite (bind_ok (add_rsp 8) _ m1 m2 ()).
    2:{ unfold add_rsp, reg_get, mov. mrun. rewrite wrap_small by (unfold is_word; lia). unfold m2.
        by replace (gpr m RSP + 120) with (gpr m1 RSP + 8) by lia. }
    rewrite (bind_ok (pop_reg RSP) _ m2 m3 ()); [done|]. apply pop_reg_run; rewrite H2; [unfold is_word; lia|lia|].
    cbn [m2 mem with_gpr]. rewrite U5. replace (gpr m RSP + 120) with (gpr m RSP + 8 * 15%nat) by lia. by apply Hw.
  - destruct U4 as (E1 & E2 & E3 & E4).
    cbn [gpr rip cs ss m_cpu mem with_gpr with_m_cpu m3 m2]. rewrite E4, E1, E2, E3. split; [|split; [|done]].
    + intros i r v Hr Hv Hra. unfold SyscallFrame in Hr. apply lookup_app_Some in Hr as [Hr|[Hi Hr]].
      * pose proof (lookup_lt_Some _ _ _ Hr) as Hi. cbn in Hi.
        rewrite !fn_lookup_insert_ne by (intros <-; apply list_elem_of_lookup_2 in Hr; set_solver).
        apply (U2 i); [done|]. by rewrite lookup_take_lt by lia.
      * cbn [length syscall_regs] in *. destruct (i - 14)%nat as [|[|?]] eqn:E; [by injection Hr as <-| |done].
        injection Hr as <-. replace i with 15%nat in Hv by lia. rewrite fn_lookup_insert. congruence.
    + rewrite !fn_lookup_insert_ne by done. apply U3; [set_solver|done].
Qed.

Lemma sysretq_run m : configured (m_cpu m) →
  sysretq m = Ok (with_rip (gpr m RCX) (with_sel 0x23 0x1B
    (with_m_cpu (with_rflags (λ _, Z.lor (Z.land (gpr m R11) 0x3C7FD7) 2)) m)), ()).
Proof. intros [H1 H2 H3]. unfold sysretq. mrun. by rewrite H1, H2. Qed.

Lemma swap_gs_configured c : configured c → configured (swap_gs c).
Proof. by intros []. Qed.

Lemma syscall_exit_run m ws : configured (m_cpu m) → length ws = 16%nat → words_at (mem m) (gpr m RSP) ws →
  0 ≤ gpr m RSP → gpr m RSP + 128 < 2 ^ 64 → ∃ m', syscall_exit m = Ok (m', ()) ∧ exited ws m m'.
Proof.
  intros Hc Hlen Hw H0 Hlt. destruct (syscall_restore_run m ws Hlen Hw H0 Hlt) as (m1 & R1 & G & Ga & E1 & E2 & E3 & E4 & E5).
  destruct (lookup_lt_is_Some_2 ws 4) as [fl Hfl]; [lia|]. destruct (lookup_lt_is_Some_2 ws 12) as [ip Hip]; [lia|].
  eexists. split.
  - unfold syscall_exit. rewrite (bind_ok _ _ _ _ _ R1). apply sysretq_run. rewrite E4. by apply swap_gs_configured.
  - split; cbn [gpr rip cs ss m_cpu mem with_rip with_sel with_m_cpu rflags with_rflags msr]; try done.
    + by rewrite (G 12%nat RCX ip).
    + exists fl. split; [done|]. by rewrite (G 4%nat R11 fl).
    + intros k. by rewrite E4.
Qed.

(** The per-CPU record at [gs] names the kernel stack that ends at [top], which has [n] free words. *)
Record kernel_entry (w : gmap Z Z) (gs top : Z) (n : nat) : Prop := {
  ke_gs : 0 ≤ gs ∧ gs + 24 < 2 ^ 64;
  ke_rsp : w !! (gs + PER_CPU_KERNEL_RSP_OFFSET) = Some top;
  ke_user : is_Some (w !! (gs + PER_CPU_USER_RSP_OFFSET));
  ke_top : 8 * n ≤ top < 2 ^ 64;
  ke_stack i : (i < n)%nat → is_Some (w !! (top - 8 * ((i : nat) + 1)));
}.

(** The kernel has been entered: the frame of [u] is on its stack and the argument of the C++ routine. *)
Record entered (u d : mach) (gs top : Z) : Prop := {
  en_rsp : gpr d RSP = top - 128;
  en_rdi : gpr d RDI = top - 128;
  en_frame : words_at (mem d) (top - 128) (gpr u <$> SyscallFrame);
  en_gpr r : r ≠ RSP → r ≠ RDI → gpr d r = gpr u r;
  en_sel : rip d = rip u ∧ cs d = cs u ∧ ss d = ss u;
  en_cpu : m_cpu d = swap_gs (m_cpu u);
  en_mem a : a ≠ gs + PER_CPU_USER_RSP_OFFSET → ¬ (top - 128 ≤ a < top) → mem d !! a = mem u !! a;
}.

Lemma syscall_save_run u top : let gs := msr (m_cpu u) MSR_KERNEL_GS_BASE in
  kernel_entry (mem u) gs top 16 → ∃ d, syscall_save u = Ok (d, ()) ∧ entered u d gs top.
Proof.
  intros gs [[Hg0 Hg1] Hk Hu [Ht0 Ht1] Hs]. unfold PER_CPU_KERNEL_RSP_OFFSET, PER_CPU_USER_RSP_OFFSET in *.
  set (u1 := with_m_cpu swap_gs u).
  assert (is_word 64 (gs + 16)) as Hw by (unfold is_word; lia).
  pose proof (mem_store_run u1 (gs + 16) (gpr u RSP) Hw Hu) as R1. set (u2 := with_mem _ u1) in R1.
  set (u3 := with_gpr (<[RSP := top]> (gpr u)) u2).
  assert (gpr u3 RSP = top) as H3 by (cbn [u3 gpr with_gpr]; by rewrite fn_lookup_insert).
  assert (mem u3 = <[gs + 16 := gpr u RSP]> (mem u)) as Hm3 by reflexivity.
  assert (room u3 16) as Hroom.
  { split; [lia|]. intros i Hi. rewrite H3, Hm3. apply lookup_insert_is_Some'. right. by apply Hs. }
  destruct (push_run u3 (gpr u RSP)) as (u4 & R4 & S4 & C4); [by apply (room_le _ _ 16); [lia|]|].
  destruct (push_regs_run [RAX; RBX; RCX; RDX; RSI; RDI; RBP; R8; R9; R10; R11; R12; R13; R14; R15] u4) as (u5 & R5 & S5 & C5);
    [set_solver|by apply (stacked_room [gpr u RSP] u3)|].
  pose proof (stacked_trans _ _ _ _ _ S4 S5) as [P1 P2 P4 P5 P6]. rewrite H3 in P1, P5.
  pose proof (same_control_trans _ _ _ C4 C5) as P3.
  assert (gpr u5 RSP = top - 128) as H5 by (rewrite P1; cbn [length app fmap list_fmap]; lia). clear P1.
  exists (with_gpr (<[RDI := gpr u5 RSP]> (gpr u5)) u5). split.
  - unfold syscall_save. rewrite (bind_ok swapgs _ u u1 () eq_refl), (bind_ok (gets gs_base) _ u1 u1 gs eq_refl).
    rewrite (bind_ok (reg_get RSP) _ u1 u1 _ eq_refl), (bind_ok _ _ _ _ _ R1).
    rewrite (bind_ok (load _) _ u2 u2 top).
    2:{ apply mem_load_run; [unfold is_word, PER_CPU_KERNEL_RSP_OFFSET; lia|]. cbn [u2 u1 mem with_mem with_m_cpu].
        rewrite lookup_insert_ne; [done|]. unfold PER_CPU_KERNEL_RSP_OFFSET. lia. }
    rewrite (bind_ok (mov RSP top) _ u2 u3 () eq_refl), (bind_ok (load _) _ u3 u3 (gpr u RSP)).
    2:{ apply mem_load_run; [done|]. rewrite Hm3. apply lookup_insert_eq. }
    rewrite (bind_ok _ _ _ _ _ R4), (bind_ok _ _ _ _ _ R5). by rewrite (bind_ok (reg_get RSP) _ u5 u5 _ eq_refl).
  - rewrite H5 in *. destruct P3 as (E1 & E2 & E3 & E4).
    assert (∀ r, r ≠ RSP → gpr u4 r = gpr u r) as G4.
    { intros r Hr. rewrite (st_gpr _ _ _ S4) by done. cbn [u3 gpr with_gpr]. by rewrite fn_lookup_insert_ne. }
    split; cbn [gpr rip cs ss m_cpu mem with_gpr]; try done.
    + revert P4. cbn [fmap list_fmap app]. rewrite !G4 by done. cbn [reverse rev_append]. done.
    + intros r Hr Hr'. rewrite fn_lookup_insert_ne by done. rewrite P2 by done. cbn [u3 gpr with_gpr].
      by rewrite fn_lookup_insert_ne.
    + intros a Ha Hst. rewrite P5, Hm3 by done. by rewrite lookup_insert_ne.
Qed.

Lemma SyscallFrame_full r : ∃ i, SyscallFrame !! i = Some r.
Proof. apply list_elem_of_lookup. by destruct r; apply (bool_decide_unpack _). Qed.

(** The SYSCALL instruction with the registers [trap::init] has programmed. *)
Definition trapped (u : mach) : mach :=
  with_gpr (<[R11 := rflags (m_cpu u)]> (<[RCX := rip u]> (gpr u)))
    (with_rip (msr (m_cpu u) MSR_LSTAR) (with_sel 0x08 0x10
      (with_m_cpu (with_rflags (λ f, Z.ldiff f 0x700)) u))).

Lemma syscall_run u : configured (m_cpu u) → syscall u = Ok (trapped u, ()).
Proof. intros [H1 H2 H3]. unfold syscall. mrun. rewrite H1, H2, H3. done. Qed.

(** A C++ function has returned: the stack pointer is where it was, the caller's words up to [top] and the
    registers that steer SYSRETQ and [swapgs] are untouched. *)
Record called (top : Z) (m m' : mach) : Prop := {
  ca_rsp : gpr m' RSP = gpr m RSP;
  ca_sel : cs m' = cs m;
  ca_frame a : gpr m RSP ≤ a < top → mem m' !! a = mem m !! a;
  ca_msr k : k ∈ [MSR_GS_BASE; MSR_KERNEL_GS_BASE; MSR_EFER; MSR_STAR; MSR_SFMASK] → msr (m_cpu m') k = msr (m_cpu m) k;
}.

Lemma called_configured top m m' : called top m m' → configured (m_cpu m) → configured (m_cpu m').
Proof. intros H [H1 H2 H3]. split; rewrite (ca_msr _ _ _ H) by set_solver; done. Qed.

(** C7: a system call comes back.  From user mode, SYSCALL and [syscall_entry] run the dispatcher on the kernel
    stack of the per-CPU record, with interrupts off, the kernel's GS base and a [SyscallFrame] that has the
    user's registers; when the dispatcher returns as the ABI says, the user program goes on after its SYSCALL
    instruction in ring 3 with its stack pointer, its GS base and all its registers: only RAX has the result,
    RCX the address and R11 the flags, as the instruction documents. *)
Theorem syscall_returns_to_user u dispatcher top : let gs := msr (m_cpu u) MSR_KERNEL_GS_BASE in
  configured (m_cpu u) → kernel_entry (mem u) gs top 16 →
  (∀ d, entered (trapped u) d gs top → ∃ d', dispatcher d = Ok (d', ()) ∧ called top d d') →
  ∃ d d' m', dispatcher d = Ok (d', ()) ∧
    entered (trapped u) d gs top ∧ gs_base d = gs ∧ Z.testbit (rflags (m_cpu d)) RFLAGS_IF = false ∧
    (syscall ≫= λ _, syscall_entry dispatcher) u = Ok (m', ()) ∧
    gpr m' RAX = gpr d' RAX ∧ gpr m' RCX = rip u ∧ gpr m' R11 = rflags (m_cpu u) ∧
    (∀ r, r ∉ [RAX; RCX; R11] → gpr m' r = gpr u r) ∧
    rip m' = rip u ∧ cs m' = 0x23 ∧ ss m' = 0x1B ∧
    rflags (m_cpu m') = Z.lor (Z.land (rflags (m_cpu u)) 0x3C7FD7) 2 ∧
    gs_base m' = gs_base u ∧ msr (m_cpu m') MSR_KERNEL_GS_BASE = gs ∧
    (∀ a, top - 128 ≤ a < top → mem m' !! a = mem d !! a).
Proof.
  intros gs Hc Hke Hdisp. destruct (syscall_save_run (trapped u) top Hke) as (d & R1 & He).
  destruct (Hdisp d He) as (d' & R2 & Hcall). pose proof He as [E1 E2 E3 E4 E5 E6 E7].
  destruct Hke as [_ _ _ Htop _].
  destruct (syscall_exit_run d' (gpr (trapped u) <$> SyscallFrame)) as (m' & R3 & [G Ga Gi [fl [Gf Gf']] [Gc Gs] Gm Gw]).
  - apply (called_configured _ _ _ Hcall). rewrite E6. apply swap_gs_configured. by destruct Hc.
  - done.
  - rewrite (ca_rsp _ _ _ Hcall), E1. apply (words_at_same (mem d)); [|done]. intros b Hb.
    rewrite length_fmap in Hb. cbn [length SyscallFrame syscall_regs app] in Hb.
    apply (ca_frame _ _ _ Hcall). rewrite E1. lia.
  - rewrite (ca_rsp _ _ _ Hcall), E1. lia.
  - rewrite (ca_rsp _ _ _ Hcall), E1. lia.
  - assert (∀ r, r ≠ RAX → gpr m' r = gpr (trapped u) r) as GG.
    { intros r Hr. destruct (SyscallFrame_full r) as [i Hi]. apply (G i); [done| |done]. by rewrite list_lookup_fmap, Hi. }
    exists d, d', m'. split; [done|]. split; [done|]. split; [unfold gs_base; by rewrite E6|]. split.
    { rewrite E6. cbn [rflags swap_gs with_msr trapped m_cpu with_gpr with_rip with_sel with_m_cpu with_rflags].
      rewrite Z.ldiff_spec. apply andb_false_r. }
    split.
    { rewrite (bind_ok _ _ _ _ _ (syscall_run u Hc)). unfold syscall_entry.
      by rewrite (bind_ok _ _ _ _ _ R1), (bind_ok _ _ _ _ _ R2). }
    split; [done|]. rewrite !GG by done. split; [done|]. split; [done|]. split.
    { intros r Hr. rewrite GG by set_solver. cbn [trapped gpr with_gpr]. by rewrite !fn_lookup_insert_ne by set_solver. }
    injection Gi as <-. injection Gf as <-. do 3 (split; [done|]). split; [done|].
    assert (∀ k, k ∈ [MSR_GS_BASE; MSR_KERNEL_GS_BASE] → msr (swap_gs (m_cpu d')) k = msr (swap_gs (m_cpu d)) k) as Hg.
    { intros k Hk. cbn [swap_gs msr with_msr]. rewrite !(ca_msr _ _ _ Hcall) by set_solver.
      repeat case_match; done. }
    unfold gs_base. rewrite !Gm, !Hg, E6 by set_solver. split; [done|]. split; [done|].
    intros a Ha. rewrite Gw. apply (ca_frame _ _ _ Hcall). by rewrite E1; lia.
Qed.

(** The per-CPU record of the example machine is at 0x1000 and its kernel stack ends at 0x1400. *)
Definition demo_user : mach :=
  mk_mach (demo_gpr 0x7000 6 7) 0x401000 0x23 0x1B demo_cpu (<[0x1008 := 0x1400]> demo_words).

Lemma demo_user_entry : kernel_entry (mem demo_user) 0x1000 0x1400 16.
Proof.
  assert (∀ a, demo_addr a → is_Some (mem demo_user !! a)) as Hs.
  { intros a Ha. apply lookup_insert_is_Some'. right. by apply demo_words_some. }
  split; [done|apply lookup_insert_eq|by apply Hs|done|]. intros i Hi. apply Hs. split; lia.
Qed.

Lemma syscall_returns_to_user_witness :
  ∃ m', (syscall ≫= λ _, syscall_entry (mov RAX 42)) demo_user = Ok (m', ()) ∧ gpr m' RAX = 42 ∧ gpr m' RSP = 0x7000 ∧
    gpr m' RBX = 3 ∧ rip m' = 0x401000 ∧ cs m' = 0x23.
Proof.
  destruct (syscall_returns_to_user demo_user (mov RAX 42) 0x1400) as (d & d' & m' & Rd & H); [apply trap_init_configured|exact demo_user_entry| |].
  - intros d _. eexists. split; [reflexivity|]. split; done.
  - injection Rd as <-. destruct H as (_ & _ & _ & R & Ha & _ & _ & Hr & Hip & Hcs & _). exists m'. split; [exact R|]. clear R.
    split; [exact Ha|]. split; [apply Hr; set_solver|]. split; [apply Hr; set_solver|]. split; [exact Hip|exact Hcs].
Defined.

(** ** Interrupts *)

Definition isr_regs : list reg := [R15; R14; R13; R12; R11; R10; R9; R8; RBP; RDI; RSI; RDX; RCX; RBX; RAX].

(** The stack the processor uses and what it and the stub push there. *)
Definition isr_stack (m : mach) (rsp0 : Z) : Z := Z.land (if ring (cs m) =? 0 then gpr m RSP else rsp0) (Z.lnot 0xF).
Definition isr_words (m : mach) (v : Z) (err : option Z) : list Z :=
  [ss m; gpr m RSP; rflags (m_cpu m); cs m; rip m] ++ option_list err ++ stub_pushes v.

(** The state the C++ handler is called in; [c] is the word the stub takes for the interrupted code selector. *)
Record isr_entered (m d : mach) (sp v : Z) (err : option Z) (c : Z) : Prop := {
  ie_rsp : gpr d RSP = sp - 8 * (15 + length (isr_words m v err));
  ie_rdi : gpr d RDI = gpr d RSP;
  ie_frame : words_at (mem d) (gpr d RSP) ((gpr m <$> isr_regs) ++ reverse (isr_words m v err));
  ie_cs : cs d = 0x08;
  ie_cpu : m_cpu d = (if c =? 0x08 then id else swap_gs) (with_rflags (λ f, Z.ldiff f 0x14300) (m_cpu m));
  ie_mem a : ¬ (gpr d RSP ≤ a < sp) → mem d !! a = mem m !! a;
}.

Lemma swapgs_if_user_run off m c : is_word 64 (gpr m RSP + off) → mem m !! (gpr m RSP + off) = Some c →
  swapgs_if_user off m = Ok (with_m_cpu (if c =? 0x08 then id else swap_gs) m, ()).
Proof.
  intros Hw Hc. unfold swapgs_if_user. rewrite (bind_ok (reg_get RSP) _ m m _ eq_refl).
  rewrite (bind_ok (load _) _ m m c (mem_load_run m _ c Hw Hc)). by destruct (c =? 0x08), m.
Qed.

Lemma length_isr_words m v err : (6 ≤ length (isr_words m v err) ≤ 8)%nat.
Proof. unfold isr_words, stub_pushes. destruct err; case_bool_decide; cbn; lia. Qed.

Lemma isr_entered_run m rsp0 stub v err c : let sp := isr_stack m rsp0 in
  room (with_gpr (<[RSP := sp]> (gpr m)) m) 23 → sp + 16 < 2 ^ 64 → reverse (isr_words m v err) !! 3%nat = Some c →
  ∃ d, isr_entered m d sp v err c ∧
    ∀ handler, take_interrupt rsp0 stub v err handler m = (handler ≫= λ _, isr_restore) d.
Proof.
  intros sp Hroom Hlt Hc. set (m0 := with_gpr (<[RSP := sp]> (gpr m)) m) in *.
  pose proof (length_isr_words m v err) as Hlen.
  assert (gpr m0 RSP = sp) as H0 by (cbn [m0 gpr with_gpr]; by rewrite fn_lookup_insert).
  destruct (pushes_run ([ss m; gpr m RSP; rflags (m_cpu m); cs m; rip m] ++ option_list err) m0) as (m1 & R1 & S1 & C1).
  { eapply room_le; [|exact Hroom]. rewrite length_app. destruct err; cbn; lia. }
  set (m2 := with_rip stub (with_sel 0x08 (if ring (cs m) =? 0 then ss m else 0)
    (with_m_cpu (with_rflags (λ f, Z.ldiff f 0x14300)) m1))).
  destruct (pushes_run (stub_pushes v) m2) as (m3 & R3 & S3 & C3).
  { apply (room_le _ _ 15); [unfold stub_pushes; case_bool_decide; cbn; lia|].
    eapply (stacked_room _ m0 m1); [|exact S1]. eapply room_le; [|exact Hroom]. rewrite length_app.
    destruct err; cbn; lia. }
  assert (stacked (isr_words m v err) m0 m3) as S13.
  { unfold isr_words. rewrite (assoc_L (++)). apply (stacked_trans _ _ _ m1); [done|]. by destruct S3. }
  pose proof S13 as [P1 P2 P3 P4 P5]. rewrite H0 in P1, P4.
  pose proof (P3 3%nat c Hc) as Hc'. destruct Hroom as [[Hr0 Hr1] Hr2]. rewrite H0 in Hr0, Hr1.
  set (m4 := with_m_cpu (if c =? 0x08 then id else swap_gs) m3).
  destruct (push_regs_run (reverse isr_regs) m4) as (m5 & R5 & S5 & C5); [by apply (bool_decide_unpack _)| |].
  { apply (stacked_room (isr_words m v err) m0); [|by destruct S13]. eapply (room_le _ _ 23); [rewrite length_reverse; cbn [length isr_regs]; lia|].
    split; [rewrite H0; done|]. rewrite H0. intros i Hi. specialize (Hr2 i Hi). by rewrite H0 in Hr2. }
  assert (stacked (isr_words m v err ++ (gpr m4 <$> reverse isr_regs)) m0 m5) as S05.
  { apply (stacked_trans _ _ _ m3); [done|]. by destruct S5. }
  assert (gpr m5 RSP = sp - 8 * (15 + length (isr_words m v err))) as H5.
  { rewrite (st_rsp _ _ _ S05), H0, length_app. cbn. lia. }
  exists (with_gpr (<[RDI := gpr m5 RSP]> (gpr m5)) m5). split.
  - split; cbn [gpr cs m_cpu mem with_gpr]; try done.
    + pose proof (st_words _ _ _ S05) as Hw. rewrite reverse_app in Hw. change (<[RDI := gpr m5 RSP]> (gpr m5) RSP) with (gpr m5 RSP).
      replace (gpr m <$> isr_regs) with (reverse (gpr m4 <$> reverse isr_regs)); [done|].
      assert (∀ r, r ≠ RSP → gpr m4 r = gpr m r) as G4.
      { intros r Hr. cbn [m4 gpr with_m_cpu]. rewrite P2 by done. cbn [m0 gpr with_gpr]. by rewrite fn_lookup_insert_ne. }
      cbn [isr_regs fmap list_fmap reverse rev_append]. by rewrite !G4 by done.
    + destruct C5 as (_&->&_). destruct C3 as (_&E&_). done.
    + destruct C5 as (_&_&_&->). cbn [m4 m_cpu with_m_cpu]. destruct C3 as (_&_&_&->). destruct C1 as (_&_&_&E).
      cbn [m2 m_cpu with_rip with_sel with_m_cpu]. by rewrite E.
    + intros a Ha. rewrite (st_other _ _ _ S05); [done|]. by rewrite H0.
  - intros handler. unfold take_interrupt, deliver. rewrite (bind_ok _ _ m m2 ()).
    2:{ rewrite (bind_ok get _ m m m eq_refl). fold sp. rewrite (bind_ok (mov RSP sp) _ m m0 () eq_refl).
        by rewrite (bind_ok _ _ _ _ _ R1). }
    unfold isr_stub. rewrite (bind_ok _ _ _ _ _ R3). unfold isr_common.
    assert (is_word 64 (gpr m3 RSP + 24)) as Hw by (unfold is_word; lia).
    rewrite (bind_ok isr_save _ m3 (with_gpr (<[RDI := gpr m5 RSP]> (gpr m5)) m5) ()); [done|].
    unfold isr_save. rewrite (bind_ok _ _ _ _ _ (swapgs_if_user_run 24 m3 c Hw Hc')), (bind_ok _ _ _ _ _ R5).
    by rewrite (bind_ok (reg_get RSP) _ m5 m5 _ eq_refl).
Qed.


Lemma iretq_run m ip c fl sp s : 0 ≤ gpr m RSP → gpr m RSP + 40 < 2 ^ 64 →
  words_at (mem m) (gpr m RSP) [ip; c; fl; sp; s] → ring (cs m) ≤ ring c →
  ∃ m', iretq m = Ok (m', ()) ∧ (∀ r, gpr m' r = <[RSP := sp]> (gpr m) r) ∧ rip m' = ip ∧ cs m' = c ∧ ss m' = s ∧
    m_cpu m' = write_rflags fl (m_cpu m) ∧ mem m' = mem m.
Proof.
  intros H0 Hlt Hw Hr. rewrite !words_at_cons in Hw. destruct Hw as (W1 & W2 & W3 & W4 & W5 & _).
  unfold iretq.
  rewrite (bind_ok pop _ m _ ip (pop_run m ip ltac:(unfold is_word; lia) ltac:(lia) W1)).
  do 4 (match goal with |- context [(pop ≫= ?k) ?m1] =>
    erewrite (bind_ok pop k m1); [|apply pop_run; cbn [gpr mem with_gpr]; rewrite ?fn_lookup_insert; [unfold is_word; lia|lia|eassumption]]
  end; cbv beta; cbn [gpr with_gpr]; rewrite ?fn_lookup_insert).
  eexists. split.
  - rewrite (bind_ok get _ _ _ _ eq_refl). cbn [cs with_gpr].
    rewrite (proj2 (Z.ltb_ge (ring c) (ring (cs m)))) by exact Hr. reflexivity.
  - cbn [gpr rip cs ss m_cpu mem with_gpr with_rip with_sel with_m_cpu]. split; [|done].
    intros r. destruct (decide (RSP = r)) as [<-|Hn]; [by rewrite !fn_lookup_insert|by rewrite !fn_lookup_insert_ne].
Qed.

Lemma isr_restore_run d gs v e ip c fl sp s : length gs = 15%nat →
  words_at (mem d) (gpr d RSP) (gs ++ [v; e; ip; c; fl; sp; s]) → 0 ≤ gpr d RSP → gpr d RSP + 176 < 2 ^ 64 →
  ring (cs d) ≤ ring c →
  ∃ m', isr_restore d = Ok (m', ()) ∧ (∀ i r w, isr_regs !! i = Some r → gs !! i = Some w → gpr m' r = w) ∧ gpr m' RSP = sp ∧
    rip m' = ip ∧ cs m' = c ∧ ss m' = s ∧
    m_cpu m' = write_rflags fl ((if c =? 0x08 then id else swap_gs) (m_cpu d)) ∧ mem m' = mem d.
Proof.
  intros Hlen Hw H0 Hlt Hr. apply words_at_app in Hw as [Hg Hw]. rewrite Hlen in Hw.
  destruct (pop_regs_run isr_regs gs d) as (m1 & R1 & [U1 U2 _ (E1&E2&E3&E4) U5]);
    [by apply (bool_decide_unpack (NoDup isr_regs))|set_solver|done|done|cbn; lia|done|].
  cbn [length isr_regs] in U1. set (m2 := with_gpr (<[RSP := gpr m1 RSP + 16]> (gpr m1)) m1).
  assert (gpr m2 RSP = gpr d RSP + 136) as H2 by (cbn [m2 gpr with_gpr]; rewrite fn_lookup_insert; lia).
  rewrite 2!words_at_cons in Hw. destruct Hw as (_ & _ & Hw).
  replace (gpr d RSP + 8 * 15%nat + 8 + 8) with (gpr m2 RSP) in Hw by lia. rewrite <- U5 in Hw. change (mem m1) with (mem m2) in Hw.
  set (m3 := with_m_cpu (if c =? 0x08 then id else swap_gs) m2).
  destruct (iretq_run m3 ip c fl sp s) as (m4 & R4 & G & F1 & F2 & F3 & F4 & F5);
    change (gpr m3) with (gpr m2); [lia|lia|exact Hw|cbn [m3 cs with_m_cpu m2 with_gpr]; by rewrite E2|].
  exists m4. split.
  - unfold isr_restore. rewrite (bind_ok _ _ _ _ _ R1), (bind_ok (add_rsp 16) _ m1 m2 ()).
    2:{ unfold add_rsp, reg_get, mov. mrun. by rewrite wrap_small by (unfold is_word; lia). }
    rewrite (bind_ok _ _ _ _ _ (swapgs_if_user_run 8 m2 c ltac:(unfold is_word; lia)
      (proj1 (proj1 (words_at_cons _ _ _ _) (proj2 (proj1 (words_at_cons _ _ _ _) Hw)))))). exact R4.
  - split; [|split; [rewrite G; by rewrite fn_lookup_insert|]].
    + intros i r w Hi Hwi. rewrite G. rewrite fn_lookup_insert_ne by (intros <-; apply list_elem_of_lookup_2 in Hi; set_solver).
      cbn [m3 m2 gpr with_m_cpu with_gpr]. rewrite fn_lookup_insert_ne by (intros <-; apply list_elem_of_lookup_2 in Hi; set_solver).
      by apply (U2 i).
    + do 3 (split; [done|]). split; [|by rewrite F5]. rewrite F4. cbn [m3 m2 m_cpu with_m_cpu with_gpr]. by rewrite E4.
Qed.

(** [struct InterruptFrame] for the state [m]. *)
Definition InterruptFrame (m : mach) (vector err : Z) : list Z :=
  (gpr m <$> isr_regs) ++ [vector; err; rip m; cs m; rflags (m_cpu m); gpr m RSP; ss m].

Lemma isr_words_match m v err : (is_Some err ↔ v ∈ isr_err_stubs) →
  reverse (isr_words m v err) = [v; default 0 err; rip m; cs m; rflags (m_cpu m); gpr m RSP; ss m].
Proof.
  intros H. unfold isr_words, stub_pushes. destruct err as [e|]; case_bool_decide as Hv; cbn; try done.
  - exfalso. by apply Hv, H.
  - exfalso. apply H in Hv. by apply is_Some_None in Hv.
Qed.

Lemma isr_regs_full r : r ≠ RSP → ∃ i, isr_regs !! i = Some r.
Proof. intros Hr. apply list_elem_of_lookup. by destruct r; try done; apply (bool_decide_unpack _). Qed.

(** The stubs around a handler that returns as the ABI says, at a vector whose stub agrees with the processor
    about the error code. *)
Lemma take_interrupt_run m rsp0 stub v err handler : let sp := isr_stack m rsp0 in
  cs m = 0x08 ∨ cs m = 0x23 → (is_Some err ↔ v ∈ isr_err_stubs) →
  room (with_gpr (<[RSP := sp]> (gpr m)) m) 23 → sp + 16 < 2 ^ 64 →
  (∀ d, isr_entered m d sp v err (cs m) → ∃ d', handler d = Ok (d', ()) ∧ called sp d d') →
  ∃ d d' m', isr_entered m d sp v err (cs m) ∧ handler d = Ok (d', ()) ∧ words_at (mem d) (gpr d RDI) (InterruptFrame m v (default 0 err)) ∧
    gs_base d = (if cs m =? 0x08 then gs_base m else msr (m_cpu m) MSR_KERNEL_GS_BASE) ∧
    Z.testbit (rflags (m_cpu d)) RFLAGS_IF = false ∧
    take_interrupt rsp0 stub v err handler m = Ok (m', ()) ∧
    (∀ r, gpr m' r = gpr m r) ∧ rip m' = rip m ∧ cs m' = cs m ∧ ss m' = ss m ∧
    rflags (m_cpu m') = rflags (m_cpu m) ∧ gs_base m' = gs_base m ∧
    msr (m_cpu m') MSR_KERNEL_GS_BASE = msr (m_cpu m) MSR_KERNEL_GS_BASE ∧ mem m' = mem d'.
Proof.
  intros sp Hcs Herr Hroom Hlt Hh. pose proof (isr_words_match m v err Herr) as Hws.
  destruct (isr_entered_run m rsp0 stub v err (cs m) Hroom Hlt) as (d & He & Hrun); [by rewrite Hws|].
  destruct (Hh d He) as (d' & Rh & Hcall). pose proof He as He0. destruct He as [E1 E2 E3 E4 E5 E6].
  rewrite Hws in E3. assert (length (isr_words m v err) = 7%nat) as Hl by (rewrite <- length_reverse, Hws; done).
  rewrite Hl in E1. assert (gpr d RSP = sp - 176) as E1' by lia.
  destruct Hroom as [[Hr0 Hr1] _]. cbn [gpr with_gpr] in Hr0, Hr1. rewrite fn_lookup_insert in Hr0, Hr1.
  destruct (isr_restore_run d' (gpr m <$> isr_regs) v (default 0 err) (rip m) (cs m) (rflags (m_cpu m)) (gpr m RSP) (ss m))
    as (m' & R & G & Gs & F1 & F2 & F3 & F4 & F5); rewrite ?(ca_rsp _ _ _ Hcall), ?E1'; try done; try lia.
  { apply (words_at_same (mem d)); [|by rewrite <- E1']. intros b Hb. apply (ca_frame _ _ _ Hcall).
    rewrite length_app in Hb. cbn in Hb. lia. }
  { rewrite (ca_sel _ _ _ Hcall), E4. destruct Hcs as [-> | ->]; done. }
  assert (∀ k, k ∈ [MSR_GS_BASE; MSR_KERNEL_GS_BASE] → msr (m_cpu m') k = msr (m_cpu m) k) as Hmsr.
  { intros k Hk. rewrite F4. cbn [msr write_rflags with_rflags].
    rewrite !elem_of_cons, elem_of_nil in Hk. destruct Hcs as [Hcs|Hcs]; rewrite Hcs in E5 |- *;
      [change (0x08 =? 0x08) with true in * |change (0x23 =? 0x08) with false in *]; cbn [id swap_gs with_msr msr].
    - rewrite (ca_msr _ _ _ Hcall) by set_solver. by rewrite E5.
    - destruct Hk as [-> |[-> |[]]];
        [change (MSR_GS_BASE =? MSR_GS_BASE) with true|change (MSR_KERNEL_GS_BASE =? MSR_GS_BASE) with false;
         change (MSR_KERNEL_GS_BASE =? MSR_KERNEL_GS_BASE) with true]; cbv iota;
        rewrite !(ca_msr _ _ _ Hcall) by set_solver; rewrite E5; done. }
  exists d, d', m'. do 2 (split; [done|]). rewrite E2. split; [done|]. split; [|split].
  - unfold gs_base. rewrite E5. by destruct (cs m =? 8).
  - rewrite E5. destruct (cs m =? 8); cbn [id rflags swap_gs with_msr with_rflags]; rewrite Z.ldiff_spec; apply andb_false_r.
  - split; [rewrite Hrun; by rewrite (bind_ok _ _ _ _ _ Rh)|]. split.
    { intros r. destruct (decide (r = RSP)) as [-> |Hr]; [done|]. destruct (isr_regs_full r Hr) as [i Hi].
      apply (G i); [done|]. by rewrite list_lookup_fmap, Hi. }
    do 3 (split; [done|]). split; [by rewrite F4|]. unfold gs_base. rewrite !Hmsr by set_solver. done.
Qed.

Definition demo_kernel : mach := mk_mach (demo_gpr 0x1204 6 7) 0xFFFFFFFF80002000 0x08 0x10 demo_cpu demo_words.

Lemma demo_isr_room m sp : (∀ a, demo_addr a → is_Some (mem m !! a)) → sp mod 8 = 0 → 0x1000 + 8 * 23 ≤ sp ≤ 0x1400 →
  room (with_gpr (<[RSP := sp]> (gpr m)) m) 23.
Proof. intros Hm Ha Hsp. apply demo_room; [done|..]; cbn [gpr with_gpr]; rewrite fn_lookup_insert; lia. Qed.

(** Two exceptions are read through a shifted frame.  The stubs of the vectors 0x15 (control protection)
    and 0x1D (VMM communication), and only these, push a dummy error code although the processor has pushed
    one.  The handler then finds no error code, the error code where the frame has the instruction pointer and
    the instruction pointer where it has the code selector; and the stub, which looks for the selector in the
    same place, swaps the GS base even when the kernel was interrupted. *)
Theorem missing_error_stubs m rsp0 stub v e handler : let sp := isr_stack m rsp0 in
  room (with_gpr (<[RSP := sp]> (gpr m)) m) 23 → sp + 16 < 2 ^ 64 → rip m ≠ 0x08 →
  (v ∈ pushes_error_code ∧ v ∉ isr_err_stubs ↔ v ∈ [0x15; 0x1D]) ∧
  (v ∈ [0x15; 0x1D] → ∃ d,
    take_interrupt rsp0 stub v (Some e) handler m = (handler ≫= λ _, isr_restore) d ∧
    words_at (mem d) (gpr d RDI) ((gpr m <$> isr_regs) ++ [v; 0; e; rip m; cs m; rflags (m_cpu m); gpr m RSP]) ∧
    gs_base d = msr (m_cpu m) MSR_KERNEL_GS_BASE).
Proof.
  intros sp Hroom Hlt Hrip. split; [unfold pushes_error_code, isr_err_stubs; set_solver|]. intros Hv.
  assert (v ∉ isr_err_stubs) as Hn by (unfold isr_err_stubs; set_solver).
  assert (reverse (isr_words m v (Some e)) = [v; 0; e; rip m; cs m; rflags (m_cpu m); gpr m RSP; ss m]) as Hw.
  { unfold isr_words, stub_pushes. by rewrite bool_decide_false. }
  destruct (isr_entered_run m rsp0 stub v (Some e) (rip m) Hroom Hlt) as (d & [E1 E2 E3 E4 E5 E6] & Hrun); [by rewrite Hw|].
  exists d. split; [apply Hrun|]. split.
  - rewrite E2. rewrite Hw in E3. apply words_at_app in E3 as [W1 W2]. apply words_at_app. split; [done|].
    by apply (words_at_app _ _ [v; 0; e; rip m; cs m; rflags (m_cpu m); gpr m RSP] [ss m]) in W2 as [W2 _].
  - unfold gs_base. rewrite E5. by rewrite (proj2 (Z.eqb_neq _ _) Hrip).
Qed.

Lemma missing_error_stubs_witness :
  ∃ d, take_interrupt 0 0xFFFFFFFF80003000 0x15 (Some 3) (mret ()) demo_kernel = (mret () ≫= λ _, isr_restore) d ∧
    words_at (mem d) (gpr d RDI) ((gpr demo_kernel <$> isr_regs) ++ [0x15; 0; 3; 0xFFFFFFFF80002000; 0x08; 0x202; 0x1204]) ∧
    gs_base d = 0x1000.
Proof.
  assert (0x15 ∈ [0x15; 0x1D]) as Hin by set_solver.
  destruct (missing_error_stubs demo_kernel 0 0xFFFFFFFF80003000 0x15 3 (mret ())) as [_ H].
  - apply demo_isr_room; [exact demo_words_some|done|done].
  - done.
  - done.
  - exact (H Hin).
Defined.

(** C40: a system call that has blocked returns through a window.  [context_switch] turns interrupts on and
    nothing turns them off before [syscall_exit]; with interrupts on, the state before SYSRETQ is ring 0 with
    the user's GS base and the user's stack pointer.  An interrupt there is taken for one of the kernel: the
    handler runs on the user's stack and with the user's GS base, so that its per-CPU accesses go through a
    pointer the user program chose. *)
Theorem syscall_exit_window m ws sp : length ws = 16%nat → words_at (mem m) (gpr m RSP) ws → 0 ≤ gpr m RSP →
  gpr m RSP + 128 < 2 ^ 64 → cs m = 0x08 → Z.testbit (rflags (m_cpu m)) RFLAGS_IF = true → ws !! 15%nat = Some sp →
  ∃ m1, syscall_restore m = Ok (m1, ()) ∧ Z.testbit (rflags (m_cpu m1)) RFLAGS_IF = true ∧
    ∀ rsp0 stub v handler, v ∉ isr_err_stubs → let top := Z.land sp (Z.lnot 0xF) in
    room (with_gpr (<[RSP := top]> (gpr m)) m) 23 → top + 16 < 2 ^ 64 →
    ∃ d, take_interrupt rsp0 stub v None handler m1 = (handler ≫= λ _, isr_restore) d ∧
      gpr d RDI = top - 176 ∧ gs_base d = msr (m_cpu m) MSR_KERNEL_GS_BASE.
Proof.
  intros Hlen Hw H0 Hlt Hcs Hif Hsp. destruct (syscall_restore_run m ws Hlen Hw H0 Hlt) as (m1 & R & G & _ & _ & Hc & _ & Hcpu & Hm).
  exists m1. split; [done|]. split; [by rewrite Hcpu|]. intros rsp0 stub v handler Hv top Hroom Htop.
  assert (isr_stack m1 rsp0 = top) as Hst.
  { unfold isr_stack. rewrite Hc, Hcs. cbn [ring]. by rewrite (G 15%nat RSP sp). }
  assert (¬ (is_Some (@None Z)) ∧ (is_Some (@None Z) ↔ v ∈ isr_err_stubs)) as [_ Herr].
  { split; [apply is_Some_None|]. split; [by intros ?%is_Some_None|done]. }
  pose proof (isr_words_match m1 v None Herr) as Hws.
  assert (room (with_gpr (<[RSP := isr_stack m1 rsp0]> (gpr m1)) m1) 23) as Hroom'.
  { revert Hroom. unfold room. cbn [gpr mem with_gpr]. by rewrite !fn_lookup_insert, Hst, Hm. }
  rewrite <- Hst in Htop.
  destruct (isr_entered_run m1 rsp0 stub v None (cs m1) Hroom' Htop) as (d & [E1 E2 E3 E4 E5 E6] & Hrun); [by rewrite Hws|].
  exists d. split; [apply Hrun|]. split.
  - rewrite E2, E1, Hst. rewrite <- length_reverse, Hws. cbn [length]. lia.
  - unfold gs_base. rewrite E5, Hc, Hcs. change (0x08 =? 0x08) with true. by rewrite Hcpu.
Qed.

Lemma syscall_exit_window_witness :
  let m := mk_mach (demo_gpr 0x1000 6 7) 0 0x08 0x10 (sti demo_cpu) (<[0x1078 := 0x1204]> demo_words) in
  ∃ m1 d, syscall_restore m = Ok (m1, ()) ∧
    take_interrupt 0 0xFFFFFFFF80003000 0x21 None (mret ()) m1 = (mret () ≫= λ _, isr_restore) d ∧
    gpr d RDI = 0x1200 - 176 ∧ gs_base d = 0x1000.
Proof.
  intros m. assert (0x21 ∉ isr_err_stubs) as Hv by (by apply (bool_decide_unpack _)).
  assert (room (with_gpr (<[RSP := 0x1200]> (gpr m)) m) 23) as Hroom.
  { apply demo_isr_room; [|done|done]. intros a Ha. apply lookup_insert_is_Some'. right. by apply demo_words_some. }
  destruct (syscall_exit_window m (replicate 15 0 ++ [0x1204]) 0x1204) as (m1 & R & _ & H); [done| |done..|].
  - apply words_at_app. split.
    + apply (words_at_same demo_words); [|by apply demo_words_at].
      intros b Hb. apply lookup_insert_ne. rewrite length_replicate in Hb. cbn in Hb. lia.
    + apply words_at_cons. split; [apply lookup_insert_eq|done].
  - destruct (H 0 0xFFFFFFFF80003000 0x21 (mret ()) Hv Hroom eq_refl) as (d & Rd & H1 & H2).
    exists m1, d. split; [exact R|]. clear R. split; [exact Rd|]. clear Rd. split; [exact H1|exact H2].
Defined.
