(* ===== verification/TrapSystem.v ===== *)
(** * From a process image to user mode

    The stubs of [Trap.v] on the frames that [exec_elf64] and [fork] build ([ExecProofs.v], [ForkProofs.v]):
    the first switch to a process enters its program, and the first switch to a forked process returns from
    the system call of its parent. *)

From stdpp Require Import functions.
From S2P Require Import Prelude Bytes Cpu Spinlock Pmm Vmm VmmTree VmmProofs VmmFree VmmSpace VmmClone VmmHeap VmmTheorems.
From S2P Require Import Process UserSpace Elf Exec ExecProofs ForkProofs.
From S2P Require Import Trap TrapProofs.

#[local] Coercion Z.of_nat : nat >-> Z.

(** ** Entering user mode *)

Lemma push_gpr v m n r : push v m = Ok (n, ()) → r ≠ RSP → gpr n r = gpr m r.
Proof.
  unfold push, store, load, mov, reg_get. mrun. destruct (mem m !! _); [|done]. intros [= <-] Hr.
  cbn [gpr with_gpr with_mem]. by rewrite fn_lookup_insert_ne.
Qed.

Lemma push_inv v vs m m' : for_each (v :: vs) push m = Ok (m', ()) →
  ∃ n, push v m = Ok (n, ()) ∧ (∀ r, r ≠ RSP → gpr n r = gpr m r) ∧ for_each vs push n = Ok (m', ()).
Proof.
  cbn [for_each]. unfold mbind, M_bind. destruct (push v m) as [[n []]| | |] eqn:E; [|done..]. intros H.
  exists n. split; [done|]. split; [|done]. intros r. by apply (push_gpr v).
Qed.

Lemma userspace_entry_run m : room m 5 → gpr m RSP + 8 < 2 ^ 64 → cs m = 0x08 →
  ∃ m', userspace_entry_context_switch m = Ok (m', ()) ∧ rip m' = gpr m RSI ∧ gpr m' RSP = gpr m RDI ∧
    (∀ r, r ≠ RSP → gpr m' r = gpr m r) ∧ cs m' = 0x23 ∧ ss m' = 0x1B ∧ rflags (m_cpu m') = 0x202 ∧
    (∀ k, msr (m_cpu m') k = msr (swap_gs (m_cpu m)) k) ∧ (∀ a, ¬ (gpr m RSP - 40 ≤ a < gpr m RSP) → mem m' !! a = mem m !! a).
Proof.
  intros Hroom Hlt Hcs. set (m0 := with_m_cpu swap_gs (with_m_cpu cli m)).
  destruct (pushes_run [0x1B; gpr m RDI; 0x202; 0x23; gpr m RSI] m0) as (m1 & R1 & [P1 P2 P3 P4 P5] & (E1&E2&E3&E4)); [exact Hroom|].
  change (gpr m0) with (gpr m) in *. change (mem m0) with (mem m) in *. cbn [length] in P1.
  destruct Hroom as [[Hr0 Hr1] _].
  destruct (iretq_run m1 (gpr m RSI) 0x23 0x202 (gpr m RDI) 0x1B) as (m2 & R2 & G & F1 & F2 & F3 & F4 & F5);
    [lia|lia|exact P3|rewrite E2; cbn [m0 cs with_m_cpu]; rewrite Hcs; vm_compute; congruence|].
  exists m2. split; [|split; [done|]; split; [rewrite G; apply fn_lookup_insert|]; split].
  - unfold userspace_entry_context_switch. rewrite (bind_ok (modify (with_m_cpu cli)) _ m _ () eq_refl).
    rewrite (bind_ok swapgs _ _ m0 () eq_refl). rewrite <- R2. clear -R1.
    apply push_inv in R1 as (n1 & R1 & G1 & R). apply push_inv in R as (n2 & R2 & G2 & R).
    apply push_inv in R as (n3 & R3 & G3 & R). apply push_inv in R as (n4 & R4 & G4 & R).
    apply push_inv in R as (n5 & R5 & G5 & R). injection R as ->.
    rewrite (bind_ok _ _ _ _ _ R1), (bind_ok (push_reg RDI) _ n1 n2 ()).
    2:{ unfold push_reg. rewrite (bind_ok (reg_get RDI) _ _ _ _ eq_refl), G1 by done. exact R2. }
    rewrite (bind_ok _ _ _ _ _ R3), (bind_ok _ _ _ _ _ R4), (bind_ok (push_reg RSI) _ n4 m1 ()); [done|].
    unfold push_reg. rewrite (bind_ok (reg_get RSI) _ _ _ _ eq_refl), G4, G3, G2, G1 by done. exact R5.
  - intros r Hr. rewrite G, fn_lookup_insert_ne by done. by apply P2.
  - do 2 (split; [done|]). rewrite F4. split; [done|]. split; [intros k; by rewrite E4|]. intros a Ha. rewrite F5. apply P4. lia.
Qed.

Lemma context_suspended (w : gmap Z Z) sp start : 0 ≤ sp → sp + 56 < 2 ^ 64 →
  (∀ (i : nat) v, context_words start !! i = Some v → w !! (sp + 8 * i) = Some v) →
  suspended w sp (take 6 (context_words start)) start.
Proof. intros H0 Hlt Hw. do 3 (split; [done|]). exact Hw. Qed.

(** The two ways the scheduler leaves for the kernel stack pointer [sp]: [context_switch(&old, sp)] from a thread
    that will be resumed, [permanent_context_switch(sp)] from one that has ended or was never there.  The first
    one writes: six words below its own stack pointer, and [old], which are apart from the [n] bytes at [sp]. *)
Definition switch_call (sp n : Z) (run : M mach unit) (m : mach) : Prop :=
  (run = context_switch ∧ gpr m RSI = sp ∧ (∃ ra0, switching m ra0) ∧
    ∀ a, sp ≤ a < sp + n → a ≠ gpr m RDI ∧ ¬ (gpr m RSP - 48 ≤ a < gpr m RSP)) ∨
  (run = permanent_context_switch ∧ gpr m RDI = sp).

Lemma switch_run sp n run m regs ra : switch_call sp n run m → suspended (mem m) sp regs ra →
  ∃ m', run m = Ok (m', ()) ∧ resumed sp regs ra (with_mem (λ _, mem m') m) m' ∧
    (∀ a, is_Some (mem m !! a) → is_Some (mem m' !! a)) ∧ (∀ a, sp ≤ a < sp + n → mem m' !! a = mem m !! a).
Proof.
  intros [(-> & <- & [ra0 Hs] & Hap)|(-> & <-)] Hsu.
  - destruct (context_switch_run m ra0 regs ra Hs Hsu) as (m' & R & H & _ & _ & Hd & Hk). exists m'. do 3 (split; [done|]).
    intros a Ha. destruct (Hap a Ha). by apply Hk.
  - destruct (permanent_context_switch_run m regs ra Hsu) as (m' & R & H). pose proof (re_mem _ _ _ _ _ H) as E.
    exists m'. split; [done|]. split; [destruct m, H; by split|]. by split; intros a Ha; rewrite E.
Qed.

(** C13: the first switch to a loaded program enters it.  After [exec_elf64], switching to the kernel stack
    pointer it saved, by [context_switch] from another thread or by [permanent_context_switch], returns into
    [userspace_entry_trampoline], and the trampoline, on what is then the empty
    kernel stack of the process, leaves for user mode: ring 3 selectors, interrupts on, the program's entry
    point, and a stack pointer at which the argument block of the program lies; the user's GS base is active
    and the kernel's is the one the next [swapgs] gets.  At the switch the seven words of the frame have to be
    as [exec_elf64] left them; the rest of the kernel's memory may have changed. *)
Theorem launched_enters_program roots bytes argv envp file trampoline x x' q run m :
  launched roots bytes argv envp file trampoline x x' q →
  0 ≤ kernel_stack (x_proc x) ∧ kernel_stack (x_proc x) + KERNEL_STACK_SIZE + 8 < 2 ^ 64 →
  switch_call (kernel_rsp_saved (x_proc x')) SIZEOF_CONTEXT_FRAME run m → cs m = 0x08 →
  (∀ a, kernel_rsp_saved (x_proc x') ≤ a < kernel_rsp_saved (x_proc x') + SIZEOF_CONTEXT_FRAME → mem m !! a = x_stack x' !! a) →
  ∃ m1 m2, run m = Ok (m1, ()) ∧ rip m1 = trampoline ∧
    gpr m1 RSP = kernel_stack (x_proc x) + KERNEL_STACK_SIZE ∧
    userspace_entry_trampoline (p_user_rsp (x_proc x')) (entry (x_proc x')) m1 = Ok (m2, ()) ∧
    rip m2 = file_entry file ∧ cs m2 = 0x23 ∧ ss m2 = 0x1B ∧ rflags (m_cpu m2) = 0x202 ∧
    (∀ i b, stack_image argv envp !! i = Some b → ubyte (x_vm x') q (gpr m2 RSP + Z.of_nat i) = Some b) ∧
    gs_base m2 = msr (m_cpu m) MSR_KERNEL_GS_BASE ∧ msr (m_cpu m2) MSR_KERNEL_GS_BASE = gs_base m.
Proof.
  intros Hl [Hk0 Hk1] Hsw Hcs Hmem. pose proof (la_frame _ _ _ _ _ _ _ _ _ Hl) as [Hf Hst]. cbn zeta in Hf, Hst.
  unfold KERNEL_STACK_SIZE, SIZEOF_CONTEXT_FRAME in *. set (f := kernel_rsp_saved (x_proc x')) in *.
  assert (∀ (i : nat) v, context_words trampoline !! i = Some v → mem m !! (f + 8 * i) = Some v) as Hw.
  { intros i v Hi. pose proof (lookup_lt_Some _ _ _ Hi) as Hn. cbn in Hn. rewrite Hmem, Hst by lia.
    apply store_words_lookup; [lia|cbn; lia|done]. }
  destruct (switch_run f 56 run m (take 6 (context_words trampoline)) trampoline Hsw) as (m1 & R1 & [E1 E2 E3 E4 E5 E6 _] & E7 & _).
  { apply context_suspended; [lia|lia|done]. }
  set (m1' := with_gpr (<[RSI := entry (x_proc x')]> (<[RDI := p_user_rsp (x_proc x')]> (gpr m1))) m1).
  assert (gpr m1' RSP = f + 56) as Hsp by exact E2.
  destruct (userspace_entry_run m1') as (m2 & R2 & F1 & F2 & F3 & F4 & F5 & F6 & F7 & F8).
  { split; [lia|]. intros i Hi. rewrite Hsp. change (mem m1') with (mem m1). apply E7.
    destruct (lookup_lt_is_Some_2 (context_words trampoline) (6 - i)) as [v Hv]; [cbn; lia|].
    replace (f + 56 - 8 * (i + 1)) with (f + 8 * (6 - i)%nat) by lia. rewrite (Hw _ _ Hv). done. }
  { lia. }
  { change (cs m1') with (cs m1). by rewrite (proj1 E5). }
  exists m1, m2. split; [done|]. split; [done|]. split; [rewrite E2, Hf; lia|].
  split; [exact R2|]. split; [rewrite F1; apply (la_entry _ _ _ _ _ _ _ _ _ Hl)|]. do 3 (split; [done|]). split.
  - intros i b Hi. replace (gpr m2 RSP) with (start_rsp argv envp); [by apply (la_stack _ _ _ _ _ _ _ _ _ Hl)|].
    rewrite F2. symmetry. exact (la_rsp _ _ _ _ _ _ _ _ _ Hl).
  - unfold gs_base. rewrite !F7. change (m_cpu m1') with (m_cpu m1). by rewrite E6.
Qed.

Lemma demo_launched : ∃ x' q, launched demo_roots demo_file [[97]] [] demo_elf 0xFFFFFFFF80001000 demo_exec x' q.
Proof.
  destruct (exec_elf64_run demo_exec demo_roots 0xFFFFFFFF80001000 0x1000 demo_file [[97]] [] demo_elf) as (x' & q & _ & H);
    [exact demo_ok|split; [split; vm_compute; congruence|vm_compute; congruence]|vm_compute; congruence|lia|apply demo_parse|reflexivity
    |exact demo_program_ok|apply Forall_singleton, Forall_singleton; unfold byte_ok; lia|constructor|vm_compute; congruence
    |apply Nat.leb_le; vm_compute; reflexivity|reflexivity|split; vm_compute; congruence|].
  by exists x', q.
Qed.

(** An example thread that calls [context_switch]: its stack and the place it saves to are in [demo_words]. *)
Definition demo_thread (sp : Z) (w : gmap Z Z) : mach := mk_mach (demo_gpr 0x1100 sp 0x1300) 0 0x08 0x10 demo_cpu (demo_words ∪ w).

Lemma demo_thread_mem sp w a : 0x2000 ≤ a → mem (demo_thread sp w) !! a = w !! a.
Proof.
  intros Ha. cbn [mem demo_thread]. apply lookup_union_r. unfold demo_words.
  rewrite store_words_other; rewrite ?length_replicate; [done|lia..].
Qed.

Lemma demo_thread_switches sp n w : 0x2000 ≤ sp → switch_call sp n context_switch (demo_thread sp w).
Proof.
  intros Hsp. left. split; [done|]. split; [done|]. split; [|intros a Ha; cbn; lia]. exists 0.
  assert (∀ a, demo_addr a → mem (demo_thread sp w) !! a = Some 0) as Hw.
  { intros a Ha. cbn [mem demo_thread]. by apply lookup_union_Some_l, demo_words_lookup. }
  split; [apply demo_room; [intros a Ha; by rewrite Hw|done|done]|done|by apply Hw|split; [done|by rewrite Hw]|cbn; lia|].
  intros a. cbn. lia.
Qed.

Lemma launched_enters_program_witness : ∃ (x' : exec) q m1 m2,
  context_switch (demo_thread (kernel_rsp_saved (x_proc x')) (x_stack x')) = Ok (m1, ()) ∧
  userspace_entry_trampoline (p_user_rsp (x_proc x')) (entry (x_proc x')) m1 = Ok (m2, ()) ∧
  rip m1 = 0xFFFFFFFF80001000 ∧ rip m2 = 0x401000 ∧ cs m2 = 0x23 ∧ ubyte (x_vm x') q (gpr m2 RSP) = Some 1.
Proof.
  destruct demo_launched as (x' & q & Hl).
  assert (0x2000 ≤ kernel_rsp_saved (x_proc x')) as Hsp.
  { destruct (la_frame _ _ _ _ _ _ _ _ _ Hl) as [-> _]. vm_compute. congruence. }
  destruct (launched_enters_program _ _ _ _ _ _ _ _ _ context_switch
    (demo_thread (kernel_rsp_saved (x_proc x')) (x_stack x')) Hl)
    as (m1 & m2 & R1 & H1 & _ & R & H2 & H3 & _ & _ & H4 & _).
  - split; vm_compute; congruence.
  - apply demo_thread_switches, Hsp.
  - reflexivity.
  - intros a Ha. apply demo_thread_mem. lia.
  - exists x', q, m1, m2. split; [exact R1|]. split; [exact R|]. split; [exact H1|]. split; [exact H2|]. split; [exact H3|].
    rewrite <- (Z.add_0_r (gpr m2 RSP)). apply (H4 0%nat). vm_compute. reflexivity.
Defined.

(** The frames [fork] puts on the kernel stack of the child. *)
Definition SIZEOF_CHILD_FRAMES : Z := SIZEOF_CONTEXT_FRAME + SIZEOF_SYSCALL_FRAME.

(** The first switch to a forked process: into [forked_entry_context_switch], and out to user mode. *)
Lemma forked_child_run roots this forked_entry new_pid stack r u x x' c q run m :
  forked roots this forked_entry new_pid stack r (λ i, default 0 ((gpr (trapped u) <$> SyscallFrame) !! Z.to_nat i)) x x' c q →
  0 ≤ stack ∧ stack + KERNEL_STACK_SIZE < 2 ^ 64 →
  switch_call (kernel_rsp_saved c) SIZEOF_CHILD_FRAMES run m → configured (m_cpu m) →
  (∀ a, kernel_rsp_saved c ≤ a < kernel_rsp_saved c + SIZEOF_CHILD_FRAMES → mem m !! a = x_stack x' !! a) →
  ∃ m1 m2, run m = Ok (m1, ()) ∧ rip m1 = forked_entry ∧
    forked_entry_context_switch m1 = Ok (m2, ()) ∧
    gpr m2 RAX = 0 ∧ rip m2 = rip u ∧ (∀ r, r ∉ [RAX; RCX; R11] → gpr m2 r = gpr u r) ∧
    rflags (m_cpu m2) = Z.lor (Z.land (rflags (m_cpu u)) 0x3C7FD7) 2 ∧ cs m2 = 0x23 ∧ ss m2 = 0x1B ∧
    gs_base m2 = msr (m_cpu m) MSR_KERNEL_GS_BASE ∧ msr (m_cpu m2) MSR_KERNEL_GS_BASE = gs_base m.
Proof.
  intros Hf [Hs0 Hs1] Hsw Hc Hmem. pose proof (fk_places _ _ _ _ _ _ _ _ _ _ _ Hf) as (Hsf & Hcf & Hsv).
  unfold SIZEOF_CHILD_FRAMES, KERNEL_STACK_SIZE, SIZEOF_SYSCALL_FRAME, SIZEOF_CONTEXT_FRAME in *.
  destruct (switch_run _ _ run m (take 6 (context_words forked_entry)) forked_entry Hsw) as (m1 & R1 & [E1 E2 E3 E4 E5 E6 _] & _ & E7).
  { apply context_suspended; [lia|lia|]. intros i v Hi. pose proof (lookup_lt_Some _ _ _ Hi) as Hn. cbn in Hn.
    rewrite Hmem by lia. rewrite Hsv. by apply (fk_start _ _ _ _ _ _ _ _ _ _ _ Hf). }
  set (m1' := with_gpr (<[RAX := 0]> (gpr m1)) m1).
  assert (gpr m1' RSP = syscall_frame c) as Hsp by (change (gpr m1' RSP) with (gpr m1 RSP); lia).
  destruct (syscall_exit_run m1' (gpr (trapped u) <$> SyscallFrame)) as (m2 & R2 & [G Ga Gi [fl [Gf Gf']] [Gc Gs] Gm Gw]);
    rewrite ?Hsp; try done; try lia.
  { change (m_cpu m1') with (m_cpu m1). rewrite E6. by destruct Hc. }
  { intros i v Hi. change (mem m1') with (mem m1). pose proof (lookup_lt_Some _ _ _ Hi) as Hlt.
    rewrite length_fmap in Hlt. cbn in Hlt. rewrite E7, Hmem by lia. rewrite (fk_frame _ _ _ _ _ _ _ _ _ _ _ Hf) by lia. by rewrite Nat2Z.id, Hi. }
  assert (∀ r, r ≠ RAX → gpr m2 r = gpr (trapped u) r) as GG.
  { intros r' Hr. destruct (SyscallFrame_full r') as [i Hi]. apply (G i); [done| |done]. by rewrite list_lookup_fmap, Hi. }
  exists m1, m2. split; [done|]. split; [done|]. split; [exact R2|]. split; [done|]. injection Gi as <-. injection Gf as <-.
  split; [done|]. split.
  { intros r' Hr. rewrite GG by set_solver. cbn [trapped gpr with_gpr]. by rewrite !fn_lookup_insert_ne by set_solver. }
  do 3 (split; [done|]). unfold gs_base. rewrite !Gm. change (m_cpu m1') with (m_cpu m1). by rewrite E6.
Qed.

(** C14: [fork] returns twice.  Let the parent make the system call in the user state [u], so that its registers
    are in the frame the dispatcher gets.  Then [fork] succeeds when there is a free frame for every page and
    table of the parent and three more, and makes a process with a copy of everything: a new address space
    with the parent's bytes, its open files, directory, program break and thread pointers, and a copy of
    the frame; the parent, its frame, and all other address spaces and kernel stacks are unchanged
    ([forked]).  The first switch to the child, by [context_switch] from any thread or by
    [permanent_context_switch], returns into [forked_entry_context_switch] and from there to user mode
    behind the parent's SYSCALL instruction, with the parent's stack pointer, flags and registers, except that RAX is 0. *)
Theorem fork_returns_twice x roots this forked_entry g new_pid stack r u d gs top :
  entered (trapped u) d gs top → 128 ≤ top < 2 ^ 64 →
  x_stack x = mem d → syscall_frame (x_proc x) = gpr d RDI →
  sys_ok (x_vm x) roots → roots r → pml4 (x_proc x) = hhdm_ptov (x_vm x) r →
  (∀ F, nodes_on (sys_dom (x_vm x) roots) (x_vm x) r (λ _, true) F → (length F + 3 ≤ avail (vm_pmm (x_vm x)))%nat) →
  (let h := uheap (x_proc x) in user_path (get_kernel_pml4_index (x_vm x)) [pml4_idx h; pdpt_idx h; pd_idx h]) →
  0 ≤ stack ∧ stack + KERNEL_STACK_SIZE < 2 ^ 64 → stack + KERNEL_STACK_SIZE ≤ top - 128 ∨ top ≤ stack →
  ∃ x' c q, fork this forked_entry g new_pid stack x = Ok (x', c) ∧
    forked roots this forked_entry new_pid stack r
      (λ i, default 0 ((gpr (trapped u) <$> SyscallFrame) !! Z.to_nat i)) x x' c q ∧
    words_at (x_stack x') (gpr d RDI) (gpr (trapped u) <$> SyscallFrame) ∧
    ∀ run m, switch_call (kernel_rsp_saved c) SIZEOF_CHILD_FRAMES run m → configured (m_cpu m) →
    (∀ a, kernel_rsp_saved c ≤ a < kernel_rsp_saved c + SIZEOF_CHILD_FRAMES → mem m !! a = x_stack x' !! a) →
    ∃ m1 m2, run m = Ok (m1, ()) ∧ rip m1 = forked_entry ∧
      forked_entry_context_switch m1 = Ok (m2, ()) ∧
      gpr m2 RAX = 0 ∧ rip m2 = rip u ∧ (∀ r, r ∉ [RAX; RCX; R11] → gpr m2 r = gpr u r) ∧
      rflags (m_cpu m2) = Z.lor (Z.land (rflags (m_cpu u)) 0x3C7FD7) 2 ∧ cs m2 = 0x23 ∧ ss m2 = 0x1B ∧
      gs_base m2 = msr (m_cpu m) MSR_KERNEL_GS_BASE ∧ msr (m_cpu m2) MSR_KERNEL_GS_BASE = gs_base m.
Proof.
  intros He Htop Hst Hsf Hsys Hr Hp Hav Hh Hstk Hap. destruct He as [E1 E2 E3 E4 E5 E6 E7]. rewrite E2 in Hsf |- *.
  set (ws := gpr (trapped u) <$> SyscallFrame) in *.
  destruct (fork_run x roots this forked_entry g new_pid stack r (λ i, default 0 (ws !! Z.to_nat i))) as (x' & c & q & R & Hf);
    rewrite ?Hsf; [done..|lia|lia| |].
  { intros i Hi. rewrite Hst. destruct (lookup_lt_is_Some_2 ws (Z.to_nat i)) as [v Hv]; [cbn; lia|].
    rewrite Hv. cbn [default]. pose proof (E3 _ _ Hv) as Hw. by replace (top - 128 + 8 * i) with (top - 128 + 8 * Z.to_nat i) by lia. }
  exists x', c, q. split; [done|]. split; [done|]. split; [|intros run m Hsw Hc Hm; by eapply forked_child_run].
  apply (words_at_same (x_stack x)); [|by rewrite Hst]. intros b Hb. apply (fk_stacks _ _ _ _ _ _ _ _ _ _ _ Hf).
  pose proof (fk_places _ _ _ _ _ _ _ _ _ _ _ Hf) as (P1 & P2 & _).
  unfold KERNEL_STACK_SIZE, SIZEOF_SYSCALL_FRAME, SIZEOF_CONTEXT_FRAME in *. cbn in Hb. lia.
Qed.

Definition demo_parent (d : mach) : exec :=
  mk_exec demo_vmm
    (with_frames 0x1400 0 0 0x1380 (with_space (hhdm_ptov demo_vmm 0x2000) 0x401000 user_heap0 (x_proc demo_exec))) (mem d).

Lemma fork_returns_twice_witness : ∃ d x' c q,
  fork 1 2 demo_storage 8 0xFFFF900000010000 (demo_parent d) = Ok (x', c) ∧ ubyte (x_vm x') q 0x400000 = Some 42 ∧
  ∃ m1 m2, context_switch (demo_thread (kernel_rsp_saved c) (x_stack x')) = Ok (m1, ()) ∧
    rip m1 = 2 ∧ forked_entry_context_switch m1 = Ok (m2, ()) ∧
    gpr m2 RAX = 0 ∧ gpr m2 RBX = 3 ∧ gpr m2 RSP = 0x7000 ∧ rip m2 = 0x401000.
Proof.
  destruct (syscall_save_run (trapped demo_user) 0x1400 demo_user_entry) as (d & _ & He).
  destruct (fork_returns_twice (demo_parent d) demo_roots 1 2 demo_storage 8 0xFFFF900000010000 0x2000 demo_user d 0x1000 0x1400)
    as (x' & c & q & R & Hf & _ & H).
  - exact He.
  - lia.
  - reflexivity.
  - rewrite (en_rdi _ _ _ _ He). reflexivity.
  - exact demo_ok.
  - reflexivity.
  - reflexivity.
  - intros F HF%demo_nodes_on. assert (8 ≤ avail (vm_pmm demo_vmm))%nat by (apply Nat.leb_le; vm_compute; reflexivity).
    cbn [x_vm demo_parent] in *. lia.
  - split; [cbn; lia|]. split; [repeat constructor; unfold idx_ok; cbn; lia|]. apply Forall_singleton.
    split; vm_compute; congruence.
  - split; vm_compute; congruence.
  - right. vm_compute. congruence.
  - exists d, x', c, q. split; [exact R|]. clear R. split.
    { rewrite (fk_memory _ _ _ _ _ _ _ _ _ _ _ Hf); [vm_compute; reflexivity|]. split; vm_compute; congruence. }
    assert (0x2000 ≤ kernel_rsp_saved c) as Hsp.
    { destruct (fk_places _ _ _ _ _ _ _ _ _ _ _ Hf) as (P1 & P2 & P3). rewrite P3, P2, P1. vm_compute. congruence. }
    destruct (H context_switch (demo_thread (kernel_rsp_saved c) (x_stack x'))) as (m1 & m2 & R1 & H1 & R2 & H2 & H3 & H4 & _);
      [apply demo_thread_switches, Hsp|apply trap_init_configured|intros a Ha; apply demo_thread_mem; lia|].
    exists m1, m2. split; [exact R1|]. clear R1. split; [exact H1|]. split; [exact R2|]. clear R2. split; [exact H2|].
    split; [apply (H4 RBX); set_solver|]. split; [apply (H4 RSP); set_solver|exact H3].
Defined.
