(* ===== verification/Descriptors.v ===== *)
(** * Descriptor tables and interrupt dispatch

    [gdt/gdt.cpp], [gdt/gdt.s], [interrupts/idt.cpp] and [interrupts/irq.cpp] of [src/kernel/arch/x64].  The
    tables are the bytes of the packed structs; what the processor reads from them is the specification:
    [segment_at] and [gate_at] decode a descriptor as the architecture lays it out, at a selector or a
    vector.  The interrupt dispatcher is a function of the handler table, with the handlers as values. *)

From stdpp Require Import functions.
From S2P Require Import Prelude Bytes Cpu Trap TrapProofs.

#[local] Coercion Z.of_nat : nat >-> Z.

(** ** Segment descriptors *)

Definition FLAG_GRANULARITY : Z := 0x8.
Definition FLAG_64BIT : Z := 0x2.
Definition FLAGS_64BIT_4KB : Z := Z.lor FLAG_GRANULARITY FLAG_64BIT.
Definition ACCESS_PRESENT : Z := 0x80.
Definition ACCESS_RING_0 : Z := 0x00.
Definition ACCESS_RING_3 : Z := 0x60.
Definition ACCESS_CODE_DATA : Z := 0x10.
Definition ACCESS_EXECUTABLE : Z := 0x08.
Definition ACCESS_READABLE : Z := 0x02.
Definition ACCESS_WRITABLE : Z := 0x02.
Definition ACCESS_TSS : Z := 0x09.

Definition access_of : list Z → Z := foldr Z.lor 0.
Definition KERNEL_CODE : Z := access_of [ACCESS_PRESENT; ACCESS_RING_0; ACCESS_CODE_DATA; ACCESS_EXECUTABLE; ACCESS_READABLE].
Definition KERNEL_DATA : Z := access_of [ACCESS_PRESENT; ACCESS_RING_0; ACCESS_CODE_DATA; ACCESS_WRITABLE].
Definition USER_CODE : Z := access_of [ACCESS_PRESENT; ACCESS_RING_3; ACCESS_CODE_DATA; ACCESS_EXECUTABLE; ACCESS_READABLE].
Definition USER_DATA : Z := access_of [ACCESS_PRESENT; ACCESS_RING_3; ACCESS_CODE_DATA; ACCESS_WRITABLE].

Record GdtEntry := mk_GdtEntry {
  limit_low : Z;
  base_low : Z;
  base_mid : Z;
  access : Z;
  limit_high : Z;
  flags : Z;
  base_high : Z;
}.
(** [limit_high] and [flags] are bit-fields of one byte. *)
Definition GdtEntry_bytes (e : GdtEntry) : list Z :=
  le_split 2 (limit_low e) ++ le_split 2 (base_low e) ++
  [base_mid e; access e; limit_high e + 16 * flags e; base_high e].

Definition make_gdt_entry (base limit acc fl : Z) : GdtEntry :=
  mk_GdtEntry (Z.land limit 0xFFFF) (Z.land base 0xFFFF) (Z.land (Z.shiftr base 16) 0xFF) acc
    (Z.land (Z.shiftr limit 16) 0x0F) (wrap 4 fl) (Z.land (Z.shiftr base 24) 0xFF).

Record TssDescriptor := mk_TssDescriptor {
  td_limit_low : Z;
  td_base_low : Z;
  td_base_mid : Z;
  td_access : Z;
  td_limit_flags : Z;
  td_base_high : Z;
  td_base_upper : Z;
  td_reserved : Z;
}.
Definition TssDescriptor_bytes (d : TssDescriptor) : list Z :=
  le_split 2 (td_limit_low d) ++ le_split 2 (td_base_low d) ++
  [td_base_mid d; td_access d; td_limit_flags d; td_base_high d] ++
  le_split 4 (td_base_upper d) ++ le_split 4 (td_reserved d).

(** [sizeof(TssEntry)] *)
Definition SIZEOF_TSS : Z := 104.

Definition make_tss_descriptor (tss : Z) : TssDescriptor :=
  let base := tss in
  let limit := SIZEOF_TSS - 1 in
  mk_TssDescriptor (Z.land limit 0xFFFF) (Z.land base 0xFFFF) (Z.land (Z.shiftr base 16) 0xFF)
    (access_of [ACCESS_PRESENT; ACCESS_RING_0; ACCESS_TSS]) (Z.land (Z.shiftr limit 16) 0x0F)
    (Z.land (Z.shiftr base 24) 0xFF) (Z.land (Z.shiftr base 32) 0xFFFFFFFF) 0x0.

Record GdtTable := mk_GdtTable {
  zero : GdtEntry;
  kernel_code : GdtEntry;
  kernel_data : GdtEntry;
  user_data : GdtEntry;
  user_code : GdtEntry;
  tss_desc : TssDescriptor;
}.
Definition GdtTable_bytes (t : GdtTable) : list Z :=
  GdtEntry_bytes (zero t) ++ GdtEntry_bytes (kernel_code t) ++ GdtEntry_bytes (kernel_data t) ++
  GdtEntry_bytes (user_data t) ++ GdtEntry_bytes (user_code t) ++ TssDescriptor_bytes (tss_desc t).

Definition init_gdt_table (tss : Z) : GdtTable :=
  mk_GdtTable (mk_GdtEntry 0 0 0 0 0 0 0)
    (make_gdt_entry 0 0xFFFFF KERNEL_CODE FLAGS_64BIT_4KB) (make_gdt_entry 0 0xFFFFF KERNEL_DATA FLAGS_64BIT_4KB)
    (make_gdt_entry 0 0xFFFFF USER_DATA FLAGS_64BIT_4KB) (make_gdt_entry 0 0xFFFFF USER_CODE FLAGS_64BIT_4KB)
    (make_tss_descriptor tss).

(** [load_gdt] of [gdt.s] after LGDT: the stack segment, and the code segment by a far return. *)
Definition retfq : M mach unit := ip ← pop; c ← pop; modify (λ m, with_rip ip (with_sel c (ss m) m)).
Definition load_gdt (reload_cs : Z) : M mach unit :=
  _ ← modify (λ m, with_sel (cs m) 0x10 m);
  _ ← mov RAX reload_cs;
  _ ← push 0x08;
  _ ← push_reg RAX;
  _ ← retfq;
  ret.

(** *** The task state segment *)

Record TssEntry := mk_TssEntry { rsp0 : Z; iopb_offset : Z }.
Definition init_tss (kernel_stack : Z) : TssEntry := mk_TssEntry (wrap64 (kernel_stack + 4096 * 4)) SIZEOF_TSS.
Definition set_kernel_stack (sp : Z) (t : TssEntry) : TssEntry := mk_TssEntry sp (iopb_offset t).

(** ** Interrupt gates *)

Definition IDT_MAX_DESCRIPTORS : nat := 256.
Definition IDT_KERNEL_INT : Z := 0x8E.
Definition KERNEL_CODE_SEL : Z := 0x08.

Record IdtEntry := mk_IdtEntry {
  offset_low : Z;
  selector : Z;
  ist : Z;
  attributes : Z;
  offset_mid : Z;
  offset_high : Z;
  ie_reserved : Z;
}.
Definition IdtEntry_bytes (e : IdtEntry) : list Z :=
  le_split 2 (offset_low e) ++ le_split 2 (selector e) ++ [ist e; attributes e] ++
  le_split 2 (offset_mid e) ++ le_split 4 (offset_high e) ++ le_split 4 (ie_reserved e).

Definition gate_for (isr st fl : Z) : IdtEntry :=
  mk_IdtEntry (Z.land isr 0xFFFF) KERNEL_CODE_SEL (Z.land st 0x7) fl (Z.land (Z.shiftr isr 16) 0xFFFF)
    (Z.land (Z.shiftr isr 32) 0xFFFFFFFF) 0x0.
Definition set_descriptor (vector : nat) (isr st fl : Z) (idt : list IdtEntry) : list IdtEntry :=
  <[vector := gate_for isr st fl]> idt.

Fixpoint init_gates (vectors : list nat) (isr_stub_table : nat → Z) (idt : list IdtEntry) : list IdtEntry :=
  match vectors with
  | [] => idt
  | vector :: vectors =>
      init_gates vectors isr_stub_table (set_descriptor vector (isr_stub_table vector) 0x0 IDT_KERNEL_INT idt)
  end.
Definition idt_init (isr_stub_table : nat → Z) (idt : list IdtEntry) : list IdtEntry :=
  init_gates (seq 0 IDT_MAX_DESCRIPTORS) isr_stub_table idt.

(** ** What the processor reads *)

Definition bytes_at (bytes : list Z) (off : Z) (n : nat) : Z := le_combine (take n (drop (Z.to_nat off) bytes)).

Record segment := mk_segment { seg_base : Z; seg_limit : Z; seg_access : Z; seg_flags : Z }.
Definition segment_of (w : Z) : segment :=
  mk_segment (get_field 16 24 w + 2 ^ 24 * get_field 56 8 w) (get_field 0 16 w + 2 ^ 16 * get_field 48 4 w)
    (get_field 40 8 w) (get_field 52 4 w).
(** The two low bits of a selector are the requested privilege level, the third the table. *)
Definition segment_at (gdt : list Z) (sel : Z) : segment := segment_of (bytes_at gdt (8 * (sel / 8)) 8).
(** A system descriptor of 64-bit mode has the upper half of the base in a second slot. *)
Definition system_base (gdt : list Z) (sel : Z) : Z :=
  seg_base (segment_at gdt sel) + 2 ^ 32 * bytes_at gdt (8 * (sel / 8) + 8) 4.

Record gate := mk_gate { gate_offset : Z; gate_selector : Z; gate_ist : Z; gate_attributes : Z }.
Definition gate_at (idt : list Z) (vector : nat) : gate :=
  let f o n := bytes_at idt (16 * vector + o) n in
  mk_gate (f 0 2%nat + 2 ^ 16 * f 6 2%nat + 2 ^ 32 * f 8 4%nat) (f 2 2%nat) (Z.land (f 4 1%nat) 7) (f 5 1%nat).

(** ** Dispatch *)

Definition EXC_MAX : Z := 0x1F.
Definition NUM_IRQ_HANDLERS : Z := 256.

Section dispatch.
Context {S H : Type}.
(** The action of a registered handler. *)
Variable call : H → M S unit.

Definition register_irq_handler (vector : Z) (handler : option H) (t : Z → option H) : Z → option H :=
  if (EXC_MAX <? vector) && (vector <? NUM_IRQ_HANDLERS) then <[vector := handler]> t else t.

(** Every exception is reported and stops the processor. *)
Definition handle_exception : M S unit := hang.
Definition handle_irq (t : Z → option H) (vector : Z) : M S unit :=
  match t vector with
  | Some handler => call handler
  | None => mret ()
  end.
Definition interrupt_handler (t : Z → option H) (vector : Z) : M S unit :=
  if vector <=? EXC_MAX then handle_exception else handle_irq t vector.
End dispatch.

(** The call of [interrupt_handler(frame)] by [isr_common]: the vector is read from the frame. *)
Definition interrupt_entry {H} (call : H → M mach unit) (t : Z → option H) : M mach unit :=
  frame ← reg_get RDI;
  vector ← load (frame + 8 * 15);
  interrupt_handler call t vector.

(** ** The tables say what the code means *)

Lemma segment_of_bytes b0 b1 b2 b3 b4 b5 b6 b7 : Forall byte_ok [b0; b1; b2; b3; b4; b5; b6; b7] →
  segment_of (le_combine [b0; b1; b2; b3; b4; b5; b6; b7]) =
    mk_segment (b2 + 256 * b3 + 65536 * b4 + 16777216 * b7) (b0 + 256 * b1 + 65536 * (b6 mod 16)) b5 (b6 / 16).
Proof.
  intros H. repeat (apply Forall_cons in H as [? H]). unfold byte_ok in *. unfold segment_of. rewrite !get_field_div by lia.
  cbn [le_combine]. change (2 ^ 0) with 1. change (2 ^ 4) with 16. change (2 ^ 8) with 256. change (2 ^ 16) with 65536.
  change (2 ^ 24) with 16777216. change (2 ^ 40) with 1099511627776. change (2 ^ 48) with 281474976710656.
  change (2 ^ 52) with 4503599627370496. change (2 ^ 56) with 72057594037927936. f_equal; lia.
Qed.

Lemma tss_bytes tss : TssDescriptor_bytes (make_tss_descriptor tss) =
  [103; 0; tss mod 256; (tss / 256) mod 256; (tss / 65536) mod 256; 0x89; 0; (tss / 16777216) mod 256] ++
  le_split 4 ((tss / 4294967296) mod 4294967296) ++ [0; 0; 0; 0].
Proof.
  unfold TssDescriptor_bytes, make_tss_descriptor.
  cbn [td_base_low td_base_mid td_base_high td_base_upper td_limit_low td_access td_limit_flags td_reserved].
  change 0xFFFF with (2 ^ 16 - 1). change 0xFF with (2 ^ 8 - 1). change 0xFFFFFFFF with (2 ^ 32 - 1).
  rewrite (land_low tss 16), !(land_low _ 8), (land_low _ 32), !Z.shiftr_div_pow2 by lia.
  change (le_split 2 (tss mod 2 ^ 16)) with [(tss mod 65536) mod 256; (tss mod 65536) / 256 mod 256].
  replace ((tss mod 65536) mod 256) with (tss mod 256) by lia. replace ((tss mod 65536) / 256 mod 256) with ((tss / 256) mod 256) by lia.
  reflexivity.
Qed.

(** The gates after the loop of [idt::init]. *)
Lemma init_gates_lookup vs st idt v : v ∈ vs → (v < length idt)%nat →
  init_gates vs st idt !! v = Some (gate_for (st v) 0x0 IDT_KERNEL_INT).
Proof.
  revert idt. induction vs as [|u vs IH]; intros idt Hv Hl; [by apply not_elem_of_nil in Hv|]. cbn [init_gates].
  destruct (decide (v ∈ vs)) as [Hin|Hin]; [apply IH; [done|unfold set_descriptor; by rewrite length_insert]|].
  apply elem_of_cons in Hv as [<-|?]; [|done]. clear IH. set (e := gate_for _ _ _).
  assert (∀ l, v ∉ vs → l !! v = Some e → init_gates vs st l !! v = Some e) as Hkeep.
  { clear -Hin. induction vs as [|u vs IH]; intros l Hn He; [done|]. apply not_elem_of_cons in Hn as [Hu Hn]. cbn [init_gates].
    apply IH; [done|done|]. unfold set_descriptor. by rewrite list_lookup_insert_ne. }
  apply Hkeep; [done|]. by apply list_lookup_insert_eq.
Qed.

Lemma IdtEntry_bytes_length e : length (IdtEntry_bytes e) = 16%nat.
Proof. unfold IdtEntry_bytes. rewrite !length_app, !le_split_length. reflexivity. Qed.

Lemma drop_entries l (v : nat) : drop (16 * v) (flat_map IdtEntry_bytes l) = flat_map IdtEntry_bytes (drop v l).
Proof.
  revert l. induction v as [|v IH]; intros l; [done|]. destruct l as [|e l]; [by rewrite !drop_nil|].
  cbn [flat_map drop]. rewrite <- IH. replace (16 * S v)%nat with (16 + 16 * v)%nat by lia.
  rewrite <- drop_drop.
  by rewrite drop_app_length' by (by rewrite IdtEntry_bytes_length).
Qed.

Lemma gate_at_entry idt (v : nat) isr : 0 ≤ isr < 2 ^ 64 → idt !! v = Some (gate_for isr 0x0 IDT_KERNEL_INT) →
  gate_at (flat_map IdtEntry_bytes idt) v = mk_gate isr KERNEL_CODE_SEL 0 IDT_KERNEL_INT.
Proof.
  intros Hi Hv. assert (∃ tl, drop (16 * v) (flat_map IdtEntry_bytes idt) = IdtEntry_bytes (gate_for isr 0x0 IDT_KERNEL_INT) ++ tl) as [tl Htl].
  { rewrite drop_entries, (drop_S _ _ _ Hv). by eexists. }
  assert (∀ (o : nat) n, bytes_at (flat_map IdtEntry_bytes idt) (16 * v + o) n =
    le_combine (take n (drop o (IdtEntry_bytes (gate_for isr 0x0 IDT_KERNEL_INT) ++ tl)))) as Hb.
  { intros o n. unfold bytes_at. rewrite <- Htl, drop_drop. do 3 f_equal. lia. }
  unfold gate_at. rewrite (Hb 0%nat), (Hb 6%nat), (Hb 8%nat), (Hb 2%nat), (Hb 4%nat), (Hb 5%nat).
  unfold gate_for, IdtEntry_bytes.
  cbn [offset_low selector ist attributes offset_mid offset_high ie_reserved].
  change 0xFFFF with (2 ^ 16 - 1). change 0xFFFFFFFF with (2 ^ 32 - 1).
  rewrite !(land_low _ 16), (land_low _ 32), !Z.shiftr_div_pow2 by lia.
  change (2 ^ 16) with 65536. change (2 ^ 32) with 4294967296.
  set (l := isr mod 65536). set (m := (isr / 65536) mod 65536). set (h := (isr / 4294967296) mod 4294967296).
  cbn [le_split app take drop le_combine]. f_equal. unfold l, m, h. lia.
Qed.

(** C23: the descriptor tables mean what the stubs assume.  In the bytes of the GDT the selectors 0x08, 0x10, 0x1B
    and 0x23 that SYSCALL, SYSRETQ, the gates and the entry frames use name present 64-bit segments over the
    whole address space whose privilege level is the selector's and of which 0x08 and 0x23 are code; selector
    0x28 names the task state segment at its full 64-bit address with its 104 bytes; and in the bytes of
    the IDT every one of the 256 vectors is a present ring 0 interrupt gate to its stub, in the kernel's code
    segment and without a stack switch. *)
Theorem descriptor_tables_decode tss isr_stub_table idt : 0 ≤ tss < 2 ^ 64 →
  (∀ v, (v < IDT_MAX_DESCRIPTORS)%nat → 0 ≤ isr_stub_table v < 2 ^ 64) → length idt = IDT_MAX_DESCRIPTORS →
  let gdt := GdtTable_bytes (init_gdt_table tss) in
  (∀ sel code, (sel, code) ∈ [(0x08, true); (0x10, false); (0x1B, false); (0x23, true)] →
    segment_at gdt sel = mk_segment 0 0xFFFFF (0x92 + 8 * Z.b2z code + 32 * ring sel) FLAGS_64BIT_4KB) ∧
  system_base gdt 0x28 = tss ∧ seg_limit (segment_at gdt 0x28) = SIZEOF_TSS - 1 ∧ seg_access (segment_at gdt 0x28) = 0x89 ∧
  (∀ v, (v < IDT_MAX_DESCRIPTORS)%nat →
    gate_at (flat_map IdtEntry_bytes (idt_init isr_stub_table idt)) v =
      mk_gate (isr_stub_table v) KERNEL_CODE_SEL 0 IDT_KERNEL_INT).
Proof.
  intros Ht Hst Hl gdt. assert (drop 40 gdt = TssDescriptor_bytes (make_tss_descriptor tss)) as Hd by reflexivity.
  assert (segment_at gdt 0x28 = mk_segment (tss mod 4294967296) 103 0x89 0) as Hseg.
  { unfold segment_at, bytes_at. change (Z.to_nat (8 * (0x28 / 8))) with 40%nat. rewrite Hd, tss_bytes.
    rewrite take_app_length' by reflexivity. rewrite segment_of_bytes by (repeat constructor; unfold byte_ok; lia).
    f_equal; lia. }
  split; [|split; [|split; [|split]]].
  - intros sel code H. rewrite !elem_of_cons, elem_of_nil in H.
    destruct H as [H|[H|[H|[H|[]]]]]; injection H as -> ->; reflexivity.
  - unfold system_base. rewrite Hseg. cbn [seg_base]. unfold bytes_at.
    change (Z.to_nat (8 * (0x28 / 8) + 8)) with (40 + 8)%nat. rewrite <- drop_drop, Hd, tss_bytes.
    rewrite drop_app_length', take_app_length', le_combine_split by apply le_split_length || reflexivity.
    change (2 ^ (8 * 4%nat)) with 4294967296. change (2 ^ 32) with 4294967296. lia.
  - by rewrite Hseg.
  - by rewrite Hseg.
  - intros v Hv. apply gate_at_entry; [by apply Hst|]. apply init_gates_lookup; [|by rewrite Hl].
    apply elem_of_seq. unfold IDT_MAX_DESCRIPTORS in *. lia.
Qed.

Lemma descriptor_tables_decode_witness :
  let gdt := GdtTable_bytes (init_gdt_table 0xFFFFFFFF80200000) in
  let idt := idt_init (λ v, 0xFFFFFFFF80003000 + 16 * v) (replicate 256 (mk_IdtEntry 0 0 0 0 0 0 0)) in
  segment_at gdt 0x23 = mk_segment 0 0xFFFFF 0xFA 0xA ∧ system_base gdt 0x28 = 0xFFFFFFFF80200000 ∧
  gate_at (flat_map IdtEntry_bytes idt) 33 = mk_gate 0xFFFFFFFF80003210 0x08 0 0x8E.
Proof.
  destruct (descriptor_tables_decode 0xFFFFFFFF80200000 (λ v, 0xFFFFFFFF80003000 + 16 * v)
    (replicate 256 (mk_IdtEntry 0 0 0 0 0 0 0))) as (H1 & H2 & _ & _ & H3).
  - lia.
  - unfold IDT_MAX_DESCRIPTORS. lia.
  - apply length_replicate.
  - split; [apply (H1 0x23 true); do 3 apply list_elem_of_further; apply list_elem_of_here|]. split; [exact H2|].
    apply (H3 33%nat). unfold IDT_MAX_DESCRIPTORS. lia.
Defined.

(** [load_gdt] returns to its caller in the kernel's segments. *)
Lemma load_gdt_run m reload_cs ra : room m 2 → gpr m RSP + 8 < 2 ^ 64 → mem m !! gpr m RSP = Some ra →
  ∃ m', load_gdt reload_cs m = Ok (m', ()) ∧ cs m' = 0x08 ∧ ss m' = 0x10 ∧ rip m' = ra ∧ gpr m' RSP = gpr m RSP + 8 ∧
    (∀ r, r ∉ [RAX; RSP] → gpr m' r = gpr m r).
Proof.
  intros Hroom Hlt Hra. set (m1 := with_gpr (<[RAX := reload_cs]> (gpr m)) (with_sel (cs m) 0x10 m)).
  assert (room m1 2) as Hroom1 by exact Hroom.
  destruct (push_run m1 0x08) as (m2 & R2 & S2 & C2); [by apply (room_le _ _ 2); [lia|]|].
  destruct (push_run m2 (gpr m2 RAX)) as (m3 & R3 & S3 & C3); [by apply (stacked_room [0x08] m1)|].
  pose proof (stacked_trans _ _ _ _ _ S2 S3) as [P1 P2 P3 P4 P5]. change (gpr m1 RSP) with (gpr m RSP) in P1, P4.
  cbn [length app] in P1. cbn [app reverse rev_append] in P3. rewrite !words_at_cons in P3. destruct P3 as (W1 & W2 & _).
  destruct Hroom as [[Hr _] _]. destruct (same_control_trans _ _ _ C2 C3) as (_ & _ & E3 & _).
  unfold load_gdt. rewrite (bind_ok (modify (λ m, with_sel (cs m) 0x10 m)) _ m _ () eq_refl), (bind_ok (mov RAX reload_cs) _ _ _ () eq_refl).
  change (with_gpr _ (with_sel _ _ _)) with m1.
  rewrite (bind_ok _ _ _ _ _ R2), (bind_ok (push_reg RAX) _ m2 m3 () R3). unfold retfq.
  set (m4 := with_gpr (<[RSP := gpr m3 RSP + 8]> (gpr m3)) m3).
  assert (gpr m4 RSP = gpr m3 RSP + 8) as H4 by (cbn [m4 gpr with_gpr]; by rewrite fn_lookup_insert).
  set (m5 := with_gpr (<[RSP := gpr m4 RSP + 8]> (gpr m4)) m4).
  set (m6 := with_rip (gpr m2 RAX) (with_sel 0x08 (ss m5) m5)).
  assert (gpr m6 RSP = gpr m RSP) as H6 by (cbn [m6 m5 gpr with_gpr with_rip with_sel]; rewrite fn_lookup_insert, H4; lia).
  rewrite (bind_ok _ _ m3 m6 ()).
  2:{ rewrite (bind_ok pop _ m3 m4 (gpr m2 RAX)); [|apply pop_run; [unfold is_word; lia|lia|done]].
      rewrite (bind_ok pop _ m4 m5 0x08); [done|]. apply pop_run; rewrite ?H4; [unfold is_word; lia|lia|done]. }
  eexists. split; [apply ret_run; rewrite H6; [unfold is_word; lia|lia|]|].
  { change (mem m6) with (mem m3). rewrite P4 by lia. exact Hra. }
  cbn [cs ss rip gpr with_rip with_gpr with_sel m6 m5 m4]. split; [done|]. split; [by rewrite E3|]. split; [done|].
  split; [rewrite fn_lookup_insert; cbn [m6 m5 m4 gpr with_rip with_gpr with_sel]; rewrite !fn_lookup_insert; lia|].
  intros r Hn. rewrite !fn_lookup_insert_ne by set_solver. rewrite P2 by set_solver.
  cbn [m1 gpr with_gpr with_sel]. by rewrite fn_lookup_insert_ne by set_solver.
Qed.

(** What is registered for a vector is what an interrupt at that vector runs; exceptions cannot be taken over. *)
Lemma registered_handler_runs {S H} (call : H → M S unit) t v h u :
  interrupt_handler call (register_irq_handler v (Some h) t) u =
    if (0x1F <? v) && (v <? 256) && (u =? v) then call h else interrupt_handler call t u.
Proof.
  unfold interrupt_handler, register_irq_handler, EXC_MAX, NUM_IRQ_HANDLERS, handle_irq.
  destruct (Z.ltb_spec 0x1F v), (Z.ltb_spec v 256); cbn [andb]; try done.
  destruct (Z.eqb_spec u v) as [-> |Hne].
  - rewrite (proj2 (Z.leb_gt v 0x1F)) by lia. by rewrite fn_lookup_insert.
  - destruct (u <=? 0x1F); [done|]. by rewrite fn_lookup_insert_ne.
Qed.

(** ** An interrupt from end to end *)

(** What the handler finds in its frame: at the two vectors whose stub pushes a second error code, every
    member from [err] on has the value of the one before it, and [err] is 0. *)
Definition frame_found (m : mach) (v : Z) (err : option Z) : list Z :=
  if bool_decide (v ∈ [0x15; 0x1D])
  then (gpr m <$> isr_regs) ++ [v; 0; default 0 err; rip m; cs m; rflags (m_cpu m); gpr m RSP]
  else InterruptFrame m v (default 0 err).

Lemma frame_found_words m v err : (is_Some err ↔ v ∈ pushes_error_code) →
  ∃ ws, (gpr m <$> isr_regs) ++ reverse (isr_words m v err) = frame_found m v err ++ ws.
Proof.
  intros Herr. unfold frame_found. case_bool_decide as Hv.
  - exists [ss m]. destruct err as [e|]; [|exfalso; apply (is_Some_None (A:=Z)), Herr; unfold pushes_error_code; set_solver].
    unfold isr_words, stub_pushes. rewrite bool_decide_false by (unfold isr_err_stubs; set_solver). done.
  - exists []. rewrite app_nil_r, isr_words_match; [done|]. rewrite Herr. unfold pushes_error_code, isr_err_stubs. set_solver.
Qed.

Lemma frame_found_vector m v err : frame_found m v err !! 15%nat = Some v.
Proof. unfold frame_found. by case_bool_decide. Qed.

Lemma interrupt_entry_run {H} (call : H → M mach unit) t m d v err : words_at (mem d) (gpr d RDI) (frame_found m v err) →
  is_word 64 (gpr d RDI + 8 * 15) → interrupt_entry call t d = interrupt_handler call t v d.
Proof.
  intros Hw Hr. unfold interrupt_entry. rewrite (bind_ok (reg_get RDI) _ d d _ eq_refl).
  rewrite (bind_ok (load _) _ d d v); [done|]. apply mem_load_run; [done|]. apply (Hw 15%nat), frame_found_vector.
Qed.

Lemma interrupt_enters m rsp0 stub v err : let sp := isr_stack m rsp0 in
  (is_Some err ↔ v ∈ pushes_error_code) → room (with_gpr (<[RSP := sp]> (gpr m)) m) 23 → sp + 16 < 2 ^ 64 →
  ∃ d, words_at (mem d) (gpr d RDI) (frame_found m v err) ∧ is_word 64 (gpr d RDI + 8 * 15) ∧
    ∀ handler, take_interrupt rsp0 stub v err handler m = (handler ≫= λ _, isr_restore) d.
Proof.
  intros sp Herr Hroom Hlt. pose proof (length_isr_words m v err) as Hl.
  destruct (lookup_lt_is_Some_2 (reverse (isr_words m v err)) 3) as [c Hc]; [rewrite length_reverse; lia|].
  destruct (isr_entered_run m rsp0 stub v err c Hroom Hlt Hc) as (d & [E1 E2 E3 _ _ _] & Hrun).
  destruct (frame_found_words m v err Herr) as [ws Hws]. rewrite Hws in E3. apply words_at_app in E3 as [E3 _].
  exists d. rewrite E2. split; [done|]. split; [|done].
  destruct Hroom as [[Hr0 Hr1] _]. cbn [gpr with_gpr] in Hr0, Hr1. rewrite fn_lookup_insert in Hr0, Hr1. fold sp in E1. unfold is_word. lia.
Qed.

Lemma interrupt_entry_irq {H} (call : H → M mach unit) t m rsp0 d v : let sp := isr_stack m rsp0 in
  0x1F < v → room (with_gpr (<[RSP := sp]> (gpr m)) m) 23 → isr_entered m d sp v None (cs m) →
  interrupt_entry call t d = match t v with Some h => call h d | None => Ok (d, ()) end.
Proof.
  intros sp Hirq Hroom [E1 E2 E3 _ _ _]. destruct (frame_found_words m v None) as [ws Hws].
  { split; [by intros ?%is_Some_None|]. unfold pushes_error_code. rewrite !elem_of_cons, elem_of_nil. lia. }
  rewrite Hws in E3. apply words_at_app in E3 as [E3 _].
  rewrite (interrupt_entry_run call t m d v None); rewrite ?E2; [|done|].
  - unfold interrupt_handler, handle_irq, EXC_MAX. rewrite (proj2 (Z.leb_gt _ _) Hirq). by destruct (t v).
  - pose proof (length_isr_words m v None). destruct Hroom as [[Hr1 Hr2] _]. cbn [gpr with_gpr] in Hr1, Hr2.
    rewrite fn_lookup_insert in Hr1, Hr2. unfold is_word. lia.
Qed.

(** C8: an interrupt is invisible to the code it interrupts, an exception stops the machine.  At any of the 256
    vectors, in the kernel or in user mode, with an error code exactly where the processor pushes one:
    - [interrupt_handler] gets a frame with the interrupted state, the vector and the error code (0 without
      one), except at the two exceptions 0x15 and 0x1D, whose stubs push a second error code, so that the
      members behind it are displaced by one;
    - at an exception, vectors 0 to 31, nothing is resumed: the handler logs the frame and halts for ever;
    - at every other vector the handler runs what was registered for it, with the kernel's GS base and
      interrupts off, or nothing.  Provided that what was registered returns as the ABI of the compiler says
      ([called]), every register, the flags, both selectors and both GS bases are then as they were, and memory
      is as the handler left it. *)
Theorem interrupt_resumes {H} (call : H → M mach unit) t m rsp0 stub v err : let sp := isr_stack m rsp0 in
  cs m = 0x08 ∨ cs m = 0x23 → 0 ≤ v < 256 → (is_Some err ↔ v ∈ pushes_error_code) →
  room (with_gpr (<[RSP := sp]> (gpr m)) m) 23 → sp + 16 < 2 ^ 64 →
  (∀ h d, t v = Some h → isr_entered m d sp v err (cs m) → ∃ d', call h d = Ok (d', ()) ∧ called sp d d') →
  (∃ d, words_at (mem d) (gpr d RDI) (frame_found m v err) ∧
    ∀ handler, take_interrupt rsp0 stub v err handler m = (handler ≫= λ _, isr_restore) d) ∧
  (v ≤ EXC_MAX → take_interrupt rsp0 stub v err (interrupt_entry call t) m = Hang) ∧
  (EXC_MAX < v → ∃ d d' m', interrupt_entry call t d = Ok (d', ()) ∧ words_at (mem d) (gpr d RDI) (InterruptFrame m v 0) ∧
    interrupt_entry call t d = match t v with Some h => call h d | None => Ok (d, ()) end ∧
    gs_base d = (if cs m =? 0x08 then gs_base m else msr (m_cpu m) MSR_KERNEL_GS_BASE) ∧
    Z.testbit (rflags (m_cpu d)) RFLAGS_IF = false ∧
    take_interrupt rsp0 stub v err (interrupt_entry call t) m = Ok (m', ()) ∧
    (∀ r, gpr m' r = gpr m r) ∧ rip m' = rip m ∧ cs m' = cs m ∧ ss m' = ss m ∧
    rflags (m_cpu m') = rflags (m_cpu m) ∧ gs_base m' = gs_base m ∧
    msr (m_cpu m') MSR_KERNEL_GS_BASE = msr (m_cpu m) MSR_KERNEL_GS_BASE ∧ mem m' = mem d').
Proof.
  intros sp Hcs Hv Herr Hroom Hlt Hh. destruct (interrupt_enters m rsp0 stub v err Herr Hroom Hlt) as (d0 & Hw0 & Hr0 & Hrun).
  split; [by exists d0|]. split.
  - intros Hexc. rewrite Hrun. unfold mbind, M_bind. rewrite (interrupt_entry_run call t m d0 v err Hw0 Hr0).
    unfold interrupt_handler. by rewrite (proj2 (Z.leb_le _ _) Hexc).
  - intros Hirq. unfold EXC_MAX in Hirq.
    assert (v ∉ pushes_error_code) as Hn by (unfold pushes_error_code; rewrite !elem_of_cons, elem_of_nil; lia).
    assert (err = None) as -> by (destruct err; [exfalso; by apply Hn, Herr|done]).
    assert (is_Some (@None Z) ↔ v ∈ isr_err_stubs) as Hst.
    { rewrite Herr. unfold isr_err_stubs, pushes_error_code in *. set_solver. }
    pose proof (interrupt_entry_irq call t m rsp0) as Hdisp.
    destruct (take_interrupt_run m rsp0 stub v None (interrupt_entry call t) Hcs Hst Hroom Hlt) as (d & d' & m' & He & R & Hw & Hrest).
    { intros d He. rewrite (Hdisp d v Hirq Hroom He). destruct (t v) as [h|] eqn:E; [by apply Hh|]. exists d. by split. }
    exists d, d', m'. split; [done|]. split; [done|]. split; [by apply Hdisp|done].
Qed.

Lemma interrupt_resumes_witness :
  let t := register_irq_handler 0x21 (Some 42) (λ _, None) in
  take_interrupt 0 0xFFFFFFFF80003000 0x0E (Some 2) (interrupt_entry (mov RAX) t) demo_kernel = Hang ∧
  ∃ m', take_interrupt 0 0xFFFFFFFF80003000 0x21 None (interrupt_entry (mov RAX) t) demo_kernel = Ok (m', ()) ∧
    gpr m' RAX = 0 ∧ gpr m' RSP = 0x1204 ∧ rip m' = 0xFFFFFFFF80002000.
Proof.
  intros t.
  assert (∀ h d, isr_entered demo_kernel d (isr_stack demo_kernel 0) h None (cs demo_kernel) →
    ∃ d', mov RAX 42 d = Ok (d', ()) ∧ called (isr_stack demo_kernel 0) d d') as Hc.
  { intros h d _. eexists. split; [reflexivity|]. split; done. }
  split.
  - destruct (interrupt_resumes (mov RAX) t demo_kernel 0 0xFFFFFFFF80003000 0x0E (Some 2)) as (_ & H & _).
    + by left.
    + lia.
    + split; [|done]. intros _. unfold pushes_error_code. set_solver.
    + apply demo_isr_room; [exact demo_words_some|done|done].
    + done.
    + intros h d Hh. vm_compute in Hh. discriminate Hh.
    + apply H. unfold EXC_MAX. lia.
  - destruct (interrupt_resumes (mov RAX) t demo_kernel 0 0xFFFFFFFF80003000 0x21 None) as (_ & _ & H).
    + by left.
    + lia.
    + split; [by intros ?%is_Some_None|]. unfold pushes_error_code. rewrite !elem_of_cons, elem_of_nil. lia.
    + apply demo_isr_room; [exact demo_words_some|done|done].
    + done.
    + intros h d Hh He. vm_compute in Hh. injection Hh as <-. apply (Hc _ _ He).
    + destruct H as (d & d' & m' & _ & _ & _ & _ & _ & R & G & Hip & _); [unfold EXC_MAX; lia|].
      exists m'. split; [exact R|]. clear R. split; [exact (G RAX)|]. split; [exact (G RSP)|exact Hip].
Defined.
