(* ===== verification/Timer.v ===== *)
(** * Clocks

    The time stamp counter and the interval timer ([src/kernel/arch/x64/drivers/tsc], [.../pit]): conversion
    between ticks and nanoseconds in 64-bit arithmetic, the busy waits, and the calibration of the counter
    against the interval timer.  The counter's readings and the ports are arguments. *)

From S2P Require Import Prelude.

#[local] Coercion Z.of_nat : nat >-> Z.

(** ** [tsc.cpp] *)

Record tsc := mk_tsc { boot_tsc : Z; tsc_freq : Z }.

Definition get_ticks (c : tsc) (rdtsc : Z) : Z := wrap64 (rdtsc - boot_tsc c).
Definition get_time_ns (c : tsc) (rdtsc : Z) : Z :=
  let delta := get_ticks c rdtsc in
  let secs := delta / tsc_freq c in
  let remainder_cycles := delta mod tsc_freq c in
  wrap64 (wrap64 (secs * 1000000000) + wrap64 (remainder_cycles * 1000000000) / tsc_freq c).
Definition get_time_us (c : tsc) (rdtsc : Z) : Z := get_time_ns c rdtsc / 1000.
Definition get_time_ms (c : tsc) (rdtsc : Z) : Z := get_time_ns c rdtsc / 1000000.

Definition ns_to_ticks (c : tsc) (ns : Z) : Z :=
  let secs := ns / 1000000000 in
  let remainder_ns := ns mod 1000000000 in
  wrap64 (wrap64 (secs * tsc_freq c) + wrap64 (remainder_ns * tsc_freq c) / 1000000000).
Definition ns_to_raw_ticks (c : tsc) (ns : Z) : Z := wrap64 (ns_to_ticks c ns + boot_tsc c).
Definition ticks_from_now (c : tsc) (rdtsc ns : Z) : Z := wrap64 (rdtsc + ns_to_ticks c ns).

(** The busy waits poll the clock; [clock n] is the counter at the [n]-th reading.  The result is the number of
    readings. *)
Fixpoint poll_until (fuel : nat) (reached : Z → bool) (clock : nat → Z) (n : nat) : option nat :=
  match fuel with
  | O => None
  | S fuel => if reached (clock n) then Some (S n) else poll_until fuel reached clock (S n)
  end.
Definition sleep_ms (c : tsc) (time_ms : Z) (clock : nat → Z) (fuel : nat) : option nat :=
  let target := wrap64 (get_time_ms c (clock 0%nat) + time_ms) in
  poll_until fuel (λ t, negb (get_time_ms c t <? target)) clock 1.
Definition sleep_us (c : tsc) (time_us : Z) (clock : nat → Z) (fuel : nat) : option nat :=
  let target := wrap64 (get_time_us c (clock 0%nat) + time_us) in
  poll_until fuel (λ t, negb (get_time_us c t <? target)) clock 1.

(** ** [pit.cpp] *)

Definition BASE_FREQUENCY : Z := 1193182.
Definition COMMAND_REGISTER : Z := 0x43.
Definition CHANNEL_0_DATA_PORT : Z := 0x40.
Definition pit_divisor (ms : Z) : Z := wrap 16 (wrap 32 (BASE_FREQUENCY * ms) / 1000).

(** The writes to the ports; [status n] is the [n]-th status byte the timer answers. *)
Fixpoint pit_wait (fuel : nat) (status : nat → Z) (n : nat) (log : list (Z * Z)) : option (list (Z * Z)) :=
  match fuel with
  | O => None
  | S fuel =>
      let log := log ++ [(COMMAND_REGISTER, 0xE2)] in
      if negb (Z.land (status n) 0x80 =? 0) then Some log else pit_wait fuel status (S n) log
  end.
Definition pit_sleep_ms (ms : Z) (status : nat → Z) (fuel : nat) : option (list (Z * Z)) :=
  let command := 0x30 in
  let divisor := pit_divisor ms in
  let low := Z.land divisor 0xFF in
  let high := Z.land (Z.shiftr divisor 8) 0xFF in
  pit_wait fuel status 0 [(COMMAND_REGISTER, command); (CHANNEL_0_DATA_PORT, low); (CHANNEL_0_DATA_PORT, high)].

(** [tsc::init]: five waits of 20 ms between the readings [t0] and [t1]. *)
Definition tsc_init (t0 t1 : Z) : tsc := mk_tsc t0 (wrap64 (wrap64 (t1 - t0) * 1000) / 100).

(** ** Exactness *)

(** A clock with a frequency of at most 18 GHz, less than ten years after boot. *)
Record clock_ok (c : tsc) (t : Z) : Prop := {
  co_freq : 0 < tsc_freq c ≤ 18000000000;
  co_boot : 0 ≤ boot_tsc c ≤ t;
  co_end : t < boot_tsc c + tsc_freq c * 315360000;
  co_word : t < 2 ^ 64;
}.

Lemma get_time_ns_exact c t : clock_ok c t → get_time_ns c t = (t - boot_tsc c) * 1000000000 / tsc_freq c.
Proof.
  intros [[Hf0 Hf1] [Hb0 Hb1] He Hw]. unfold get_time_ns, get_ticks. rewrite (wrap_small 64 (t - boot_tsc c)) by (unfold is_word; lia).
  set (d := t - boot_tsc c). set (f := tsc_freq c) in *.
  assert (0 ≤ d < f * 315360000) as Hd by lia.
  assert (0 ≤ d / f < 315360000) as Hq by (split; [apply Z.div_pos; lia|apply Z.div_lt_upper_bound; lia]).
  assert (0 ≤ d mod f < f) as Hr by (apply Z.mod_pos_bound; lia).
  assert (0 ≤ d mod f * 1000000000 / f < 1000000000) as Hs by (split; [apply Z.div_pos; lia|apply Z.div_lt_upper_bound; lia]).
  rewrite (wrap_small 64 (d / f * 1000000000)), (wrap_small 64 (d mod f * 1000000000)) by (unfold is_word; lia).
  rewrite wrap_small by (unfold is_word; lia).
  rewrite (Z.div_mod d f) at 3 by lia. rewrite Z.mul_add_distr_r, <- Z.mul_assoc, (Z.mul_comm f), Z.div_add_l by lia. lia.
Qed.

Lemma ns_to_ticks_exact c ns : 0 < tsc_freq c ≤ 18000000000 → 0 ≤ ns < 315360000 * 1000000000 →
  ns_to_ticks c ns = ns * tsc_freq c / 1000000000.
Proof.
  intros Hf Hn. unfold ns_to_ticks. set (f := tsc_freq c) in *. set (g := 1000000000) in *.
  assert (0 ≤ ns / g < 315360000) as Hq by (split; [apply Z.div_pos; lia|apply Z.div_lt_upper_bound; lia]).
  assert (0 ≤ ns mod g < g) as Hr by (apply Z.mod_pos_bound; lia).
  assert (0 ≤ ns mod g * f / g < f) as Hs by (split; [apply Z.div_pos; lia|apply Z.div_lt_upper_bound; nia]).
  assert (ns / g * f < 315360000 * 18000000000) by nia.
  rewrite (wrap_small 64 (ns / g * f)), (wrap_small 64 (ns mod g * f)) by (unfold is_word; nia).
  rewrite wrap_small by (unfold is_word; lia).
  rewrite (Z.div_mod ns g) at 3 by lia. rewrite Z.mul_add_distr_r, <- Z.mul_assoc, (Z.mul_comm g), Z.div_add_l by lia. lia.
Qed.

Lemma ns_to_raw_ticks_exact c ns : 0 < tsc_freq c ≤ 18000000000 → 0 ≤ boot_tsc c → 0 ≤ ns < 315360000 * 1000000000 →
  boot_tsc c + 315360000 * tsc_freq c < 2 ^ 64 → ns_to_raw_ticks c ns = boot_tsc c + ns * tsc_freq c / 1000000000.
Proof.
  intros Hf Hb Hn He. unfold ns_to_raw_ticks. rewrite ns_to_ticks_exact by done.
  assert (0 ≤ ns * tsc_freq c / 1000000000 < 315360000 * tsc_freq c).
  { split; [apply Z.div_pos; nia|apply Z.div_lt_upper_bound; nia]. }
  rewrite wrap_small by (unfold is_word; lia). lia.
Qed.

(** Before the counter reaches the deadline computed for a time the clock reads less than that time, and from the
    tick after the deadline on it reads at least that time. *)
Lemma wake_deadline_exact c wake t : clock_ok c t → boot_tsc c + 315360000 * tsc_freq c < 2 ^ 64 →
  0 ≤ wake < 315360000 * 1000000000 →
  get_time_ns c t = (t - boot_tsc c) * 1000000000 / tsc_freq c ∧
  ns_to_raw_ticks c wake = boot_tsc c + wake * tsc_freq c / 1000000000 ∧
  (t < ns_to_raw_ticks c wake → get_time_ns c t < wake) ∧
  (ns_to_raw_ticks c wake < t → wake ≤ get_time_ns c t).
Proof.
  intros Hc He Hw. pose proof Hc as [Hf [Hb0 Hb1] _ _]. rewrite get_time_ns_exact by done.
  rewrite ns_to_raw_ticks_exact by done. set (f := tsc_freq c) in *. set (g := 1000000000) in *. set (b := boot_tsc c) in *.
  pose proof (Z.div_mod (wake * f) g ltac:(lia)) as Hd. pose proof (Z.mod_pos_bound (wake * f) g ltac:(lia)) as Hm.
  split; [done|]. split; [done|]. split; intros Ht.
  - apply Z.div_lt_upper_bound; [lia|]. nia.
  - apply Z.div_le_lower_bound; [lia|]. nia.
Qed.

(** The divisor is the wait in timer ticks up to 54 ms, the longest a 16-bit counter has. *)
Lemma pit_divisor_exact ms : 0 ≤ ms ≤ 54 → pit_divisor ms = BASE_FREQUENCY * ms / 1000.
Proof. intros Hm. unfold pit_divisor, BASE_FREQUENCY. wrap_lia. Qed.
Lemma pit_divisor_wraps : pit_divisor 55 = 89.
Proof. reflexivity. Qed.

(** A wait ends at the first reading that has reached its target. *)
Lemma poll_until_spec reached clock : ∀ k n fuel, (k < fuel)%nat → reached (clock (n + k)%nat) = true →
  (∀ j, (j < k)%nat → reached (clock (n + j)%nat) = false) → poll_until fuel reached clock n = Some (S (n + k)).
Proof.
  induction k as [|k IH]; intros n fuel Hf Hk Hj; (destruct fuel as [|fuel]; [lia|]); cbn [poll_until].
  - rewrite Nat.add_0_r in *. by rewrite Hk.
  - rewrite <- (Nat.add_0_r n) at 1. rewrite (Hj 0%nat) by lia. rewrite (IH (S n)); [f_equal; lia|lia|by rewrite Nat.add_succ_comm|].
    intros j Hlt. rewrite Nat.add_succ_comm. apply Hj. lia.
Qed.
