(* ===== verification/Acpi.v ===== *)
(** * ACPI tables

    [src/kernel/lib/acpi]: the checksums and the walk over the XSDT ([acpi.cpp]), and the records of the MADT
    with the queries the interrupt routing makes of them ([madt.cpp]).

    The tables are read through virtual addresses.  [PhysWindow] is what this component uses of the memory
    manager: the byte at a virtual address, and [vmm::map_phys], which opens a window on the page of a physical
    address.  Pointers to records are the addresses of the records, and are read again where the code does. *)

From S2P Require Import Prelude Bytes.

#[local] Coercion Z.of_nat : nat >-> Z.

(** ** Reading tables *)

Class PhysWindow (W : Type) := {
  peek : W → Z → option Z;
  map_phys : Z → Z → M W Z;
  windows_left : W → nat;
}.

(** A window is one page: it shows the physical bytes [fw] up to the next page boundary, and leaves what could
    be read before. *)
Class PhysWindowLaws (W : Type) `{PhysWindow W} (fw : Z → option Z) := {
  map_phys_opens w phys flags n : windows_left w = S n →
    ∃ w' virt, map_phys phys flags w = Ok (w', virt) ∧ virt ≠ 0 ∧ is_word 64 virt ∧ windows_left w' = n ∧
      (∀ i, 0 ≤ i → phys mod 4096 + i < 4096 → peek w' (virt + i) = fw (phys + i)) ∧
      (∀ a b, peek w a = Some b → peek w' a = Some b);
}.

(** [PAGE_WRITE | PAGE_CACHE_DISABLE] *)
Definition PAGE_WRITE_CACHE_DISABLE : Z := 0x0A.

Section acpi.
Context {W : Type} `{!PhysWindow W}.

(** [MappedIOApic] is a pair of a physical and a virtual address. *)
Record acpi := mk_acpi {
  win : W;
  lapic_addr : Z;
  local_apics : list Z;
  ioapics : list Z;
  overrides : list Z;
  mapped_ioapics : list (Z * Z);
}.
Definition with_win (w : W) (s : acpi) : acpi :=
  mk_acpi w (lapic_addr s) (local_apics s) (ioapics s) (overrides s) (mapped_ioapics s).
Definition with_lapic_addr (a : Z) (s : acpi) : acpi :=
  mk_acpi (win s) a (local_apics s) (ioapics s) (overrides s) (mapped_ioapics s).

Fixpoint peek_bytes (w : W) (a : Z) (n : nat) : option (list Z) :=
  match n with
  | O => Some []
  | S n => b ← peek w a; l ← peek_bytes w (a + 1) n; Some (b :: l)
  end.
Definition peek_le (w : W) (a : Z) (n : nat) : option Z := le_combine <$> peek_bytes w a n.

Definition read_le (a : Z) (n : nat) : M acpi Z := v ← gets (λ s, peek_le (win s) a n); of_option v.
Definition read_bytes (a : Z) (n : nat) : M acpi (list Z) := v ← gets (λ s, peek_bytes (win s) a n); of_option v.
Definition open_phys (phys : Z) : M acpi Z := zoom win with_win (map_phys phys PAGE_WRITE_CACHE_DISABLE).

(** ** [acpi.cpp] *)

Definition SIG_MADT : list Z := [65; 80; 73; 67].
Definition SIG_HPET : list Z := [72; 80; 69; 84].
(** [sizeof(ACPIHeader)]; the length is its second member. *)
Definition SIZEOF_ACPI_HEADER : Z := 36.
Definition header_length (header : Z) : M acpi Z := read_le (header + 4) 4.

(** The sum of bytes in a [uint8_t]. *)
Definition sum_bytes (l : list Z) : Z := foldl (λ sum b, wrap 8 (sum + b)) 0 l.
Definition compute_checksum (data length : Z) : M acpi Z :=
  bytes ← read_bytes data (Z.to_nat length);
  mret (sum_bytes bytes).

Definition RSDP_LEGACY_SIZE : Z := 20.
Definition validate_xsdp (xsdp : Z) : M acpi unit :=
  legacy_sum ← compute_checksum xsdp RSDP_LEGACY_SIZE;
  _ ← kassert (legacy_sum =? 0);
  revision ← read_le (xsdp + 15) 1;
  if 2 <=? revision then
    len ← read_le (xsdp + 20) 4;
    extended_sum ← compute_checksum xsdp len;
    kassert (extended_sum =? 0)
  else mret ().

Definition validate_acpi_header (header : Z) : M acpi unit :=
  len ← header_length header;
  sum ← compute_checksum header len;
  kassert (sum =? 0).

Definition get_acpi_header (phys_addr : Z) : M acpi Z := open_phys phys_addr.

(** ** [madt.cpp] *)

Definition RECORD_OFFSET : Z := 0x2C.
Definition TYPE_LAPIC : Z := 0.
Definition TYPE_IOAPIC : Z := 1.
Definition TYPE_IOAPIC_ISO : Z := 2.
Definition TYPE_LAPIC_ADDR_OVERRIDE : Z := 5.

(** The members of the packed records, by their offsets. *)
Definition record_type (r : Z) : M acpi Z := read_le r 1.
Definition record_length (r : Z) : M acpi Z := read_le (r + 1) 1.
Definition ioapic_addr (r : Z) : M acpi Z := read_le (r + 4) 4.
Definition gsi_base (r : Z) : M acpi Z := read_le (r + 8) 4.
Definition iso_source (r : Z) : M acpi Z := read_le (r + 3) 1.
Definition iso_gsi (r : Z) : M acpi Z := read_le (r + 4) 4.
Definition iso_flags (r : Z) : M acpi Z := read_le (r + 8) 2.

Definition parse_lapic (lapic : Z) : M acpi unit :=
  modify (λ s, mk_acpi (win s) (lapic_addr s) (local_apics s ++ [lapic]) (ioapics s) (overrides s) (mapped_ioapics s)).
Definition parse_ioapic (ioapic : Z) : M acpi unit :=
  phys ← ioapic_addr ioapic;
  virt ← open_phys phys;
  modify (λ s, mk_acpi (win s) (lapic_addr s) (local_apics s) (ioapics s ++ [ioapic]) (overrides s)
    (mapped_ioapics s ++ [(phys, virt)])).
Definition parse_ioapic_iso (iso : Z) : M acpi unit :=
  modify (λ s, mk_acpi (win s) (lapic_addr s) (local_apics s) (ioapics s) (overrides s ++ [iso]) (mapped_ioapics s)).
Definition parse_lapic_addr_override (r : Z) : M acpi unit :=
  addr ← read_le (r + 4) 8;
  modify (with_lapic_addr addr).

(** The other types of record are only logged. *)
Definition parse_record (record : Z) : M acpi unit :=
  type ← record_type record;
  if type =? TYPE_LAPIC then parse_lapic record
  else if type =? TYPE_IOAPIC then parse_ioapic record
  else if type =? TYPE_IOAPIC_ISO then parse_ioapic_iso record
  else if type =? TYPE_LAPIC_ADDR_OVERRIDE then parse_lapic_addr_override record
  else mret ().

(** [while (record < madt_end)]: a record of length 0 is never left.  A round moves on by a byte at least, so
    the length of the table is enough [fuel] for any other. *)
Fixpoint parse_records (fuel : nat) (record madt_end : Z) : M acpi unit :=
  if record <? madt_end then
    match fuel with
    | O => hang
    | S fuel =>
        _ ← parse_record record;
        len ← record_length record;
        parse_records fuel (record + len) madt_end
    end
  else mret ().

Definition madt_parse (header : Z) : M acpi unit :=
  let madt_start := header in
  len ← header_length header;
  let madt_end := madt_start + len in
  let record := madt_start + RECORD_OFFSET in
  addr ← read_le (header + 36) 4;
  _ ← modify (with_lapic_addr addr);
  parse_records (Z.to_nat len) record madt_end.

(** [parse_xsdt]'s loop over [other_headers], an array of 64-bit physical addresses. *)
Definition parse_table (xsdt i : Z) : M acpi unit :=
  phys ← read_le (xsdt + SIZEOF_ACPI_HEADER + 8 * i) 8;
  header ← get_acpi_header phys;
  sig ← read_bytes header 4;
  _ ← validate_acpi_header header;
  if bool_decide (sig = SIG_MADT) then madt_parse header
  else if bool_decide (sig = SIG_HPET) then kassert_not_null header
  else mret ().
(** The number of entries is an [int]; a table shorter than its header gives a negative one or none. *)
Definition parse_xsdt (xsdt : Z) : M acpi unit :=
  _ ← validate_acpi_header xsdt;
  len ← header_length xsdt;
  let n := wrap 32 (wrap64 (len - SIZEOF_ACPI_HEADER) / 8) in
  let entries := if n <? 2 ^ 31 then n else n - 2 ^ 32 in
  for_each (seqZ 0 entries) (parse_table xsdt).

Definition get_xsdt (rsdp_addr : Z) : M acpi Z :=
  _ ← validate_xsdp rsdp_addr;
  xsdt_phys ← read_le (rsdp_addr + 24) 8;
  open_phys xsdt_phys.
Definition acpi_init (rsdp_addr : Z) : M acpi unit :=
  xsdt ← get_xsdt rsdp_addr;
  parse_xsdt xsdt.

(** The queries; [None] is the null pointer. *)
Fixpoint find_record (test : Z → M acpi bool) (l : list Z) : M acpi (option Z) :=
  match l with
  | [] => mret None
  | r :: l => b ← test r; if (b : bool) then mret (Some r) else find_record test l
  end.
Definition get_override_for_irq (irq : Z) : M acpi (option Z) :=
  l ← gets overrides;
  find_record (λ iso, source ← iso_source iso; mret (source =? irq)) l.
Definition get_gsi_for_irq (irq : Z) : M acpi Z :=
  iso ← get_override_for_irq irq;
  match iso with
  | Some iso => iso_gsi iso
  | None => mret irq
  end.
Definition IOAPIC_MAX_ENTRIES : Z := 24.
Definition get_ioapic_for_gsi (gsi : Z) : M acpi (option Z) :=
  l ← gets ioapics;
  find_record (λ ioapic, base ← gsi_base ioapic; mret ((base <=? gsi) && (gsi <? wrap 32 (base + IOAPIC_MAX_ENTRIES)))) l.
Fixpoint find_mapped (phys : Z) (l : list (Z * Z)) : option Z :=
  match l with
  | [] => None
  | (p, v) :: l => if p =? phys then Some v else find_mapped phys l
  end.
Definition get_mapped_ioapic_addr (ioapic : Z) : M acpi (option Z) :=
  phys ← ioapic_addr ioapic;
  l ← gets mapped_ioapics;
  mret (find_mapped phys l).
End acpi.
Arguments acpi : clear implicits.
