(* ===== verification/AcpiProofs.v ===== *)
(** * Reading the MADT

    A MADT as the ACPI specification lays it out ([madt_image]), what it says about interrupts ([gsi_of],
    [ioapic_of]), and that [madt_parse] and the queries of [Acpi.v] find just that. *)

From S2P Require Import Prelude Bytes Acpi.

#[local] Coercion Z.of_nat : nat >-> Z.

(** ** Tables *)

Inductive madt_record :=
| RLapic (processor_id apic_id flags : Z)
| RIoapic (id addr base : Z)
| RIso (bus source gsi flags : Z)
| RAddr (addr : Z)
| ROther (type : Z) (body : list Z).

Definition encode (r : madt_record) : list Z :=
  match r with
  | RLapic pid id fl => [0; 8; pid; id] ++ le_split 4 fl
  | RIoapic id addr base => [1; 12; id; 0] ++ le_split 4 addr ++ le_split 4 base
  | RIso bus source gsi fl => [2; 10; bus; source] ++ le_split 4 gsi ++ le_split 2 fl
  | RAddr addr => [5; 12; 0; 0] ++ le_split 8 addr
  | ROther type body => [type; length body + 2] ++ body
  end.

Definition record_ok (r : madt_record) : Prop :=
  match r with
  | RLapic pid id fl => byte_ok pid ∧ byte_ok id ∧ is_word 32 fl
  | RIoapic id addr base => byte_ok id ∧ is_word 32 addr ∧ 0 ≤ base ∧ base + 24 < 2 ^ 32
  | RIso bus source gsi fl => byte_ok bus ∧ byte_ok source ∧ is_word 32 gsi ∧ is_word 16 fl
  | RAddr addr => is_word 64 addr
  | ROther type body => byte_ok type ∧ type ∉ [0; 1; 2; 5] ∧ Forall byte_ok body ∧ length body + 2 < 256
  end.

Definition records_bytes (rs : list madt_record) : list Z := concat (encode <$> rs).
(** The header of [sig], the rest of it, and the two members of the MADT before the records. *)
Definition madt_image (rest : list Z) (lapic fl : Z) (rs : list madt_record) : list Z :=
  SIG_MADT ++ le_split 4 (44 + length (records_bytes rs)) ++ rest ++ le_split 4 lapic ++ le_split 4 fl ++ records_bytes rs.

(** What the table says: the override of an interrupt line and its flags, the line's global number, the I/O
    APIC of a global number with its address and first number, and the address of the local APIC. *)
Fixpoint iso_for (irq : Z) (rs : list madt_record) : option (Z * Z) :=
  match rs with
  | [] => None
  | RIso _ s gsi fl :: rs => if s =? irq then Some (gsi, fl) else iso_for irq rs
  | _ :: rs => iso_for irq rs
  end.
Definition gsi_of (irq : Z) (rs : list madt_record) : Z := from_option fst irq (iso_for irq rs).
Fixpoint ioapic_of (gsi : Z) (rs : list madt_record) : option (Z * Z) :=
  match rs with
  | [] => None
  | RIoapic _ addr base :: rs => if (base <=? gsi) && (gsi <? base + 24) then Some (addr, base) else ioapic_of gsi rs
  | _ :: rs => ioapic_of gsi rs
  end.
Definition lapic_of (addr : Z) (rs : list madt_record) : Z := foldl (λ a r, if r is RAddr a' then a' else a) addr rs.

(** ** Bytes behind a window *)

Section holds.
Context {W : Type} `{!PhysWindow W}.
Implicit Types (w : W).

Definition holds w (a : Z) (bytes : list Z) : Prop := ∀ (i : nat) b, bytes !! i = Some b → peek w (a + i) = Some b.
Definition grows w w' : Prop := ∀ a b, peek w a = Some b → peek w' a = Some b.

Lemma holds_grows w w' a l : grows w w' → holds w a l → holds w' a l.
Proof. intros Hg Hl i b Hi. apply Hg. by apply Hl. Qed.

Lemma holds_app w a l l' : holds w a (l ++ l') ↔ holds w a l ∧ holds w (a + length l) l'.
Proof.
  split.
  - intros H. split; intros i b Hi.
    + apply H. by apply lookup_app_l_Some.
    + replace (a + length l + i) with (a + (length l + i)%nat) by lia. apply H.
      rewrite lookup_app_r by lia. by replace (length l + i - length l)%nat with i by lia.
  - intros [H H'] i b [Hi|[Hi Hb]]%lookup_app_Some; [by apply H|].
    replace (a + i) with (a + length l + (i - length l)%nat) by lia. by apply H'.
Qed.

Lemma peek_bytes_holds w a l : holds w a l → peek_bytes w a (length l) = Some l.
Proof.
  revert a. induction l as [|b l IH]; intros a Hl; [done|]. cbn [length peek_bytes].
  apply (holds_app w a [b] l) in Hl as [Hb Hl]. specialize (Hb 0%nat b eq_refl). rewrite Z.add_0_r in Hb.
  rewrite Hb. cbn. rewrite IH; [done|]. exact Hl.
Qed.

Lemma peek_le_holds w a (n : nat) v : holds w a (le_split n v) → 0 ≤ v < 2 ^ (8 * n) → peek_le w a n = Some v.
Proof.
  intros Hl Hv. unfold peek_le. rewrite <- (le_split_length n v) at 1. rewrite peek_bytes_holds by done. cbn.
  by rewrite le_combine_split, Z.mod_small.
Qed.

Lemma peek_le_byte w a (i : nat) l b : holds w a l → l !! i = Some b → peek_le w (a + i) 1 = Some b.
Proof. intros Hl Hi. unfold peek_le. cbn. rewrite (Hl i b Hi). cbn. f_equal. lia. Qed.

Lemma read_le_ok (s : acpi W) a n v : peek_le (win s) a n = Some v → read_le a n s = Ok (s, v).
Proof. intros Hv. unfold read_le. mrun. by rewrite Hv. Qed.
End holds.

(** ** Parsing *)

Definition is_iso (r : madt_record) : bool := if r is RIso _ _ _ _ then true else false.
Definition is_ioapic (r : madt_record) : bool := if r is RIoapic _ _ _ then true else false.

Definition mapped_at (m : Z * Z) (r : madt_record) : Prop :=
  if r is RIoapic _ addr _ then m.1 = addr ∧ m.2 ≠ 0 ∧ is_word 64 m.2 else False.

Section parse.
Context {W : Type} `{!PhysWindow W} (fw : Z → option Z) `{!PhysWindowLaws W fw}.

(** The stored pointers lead to the records of the table, and every I/O APIC is mapped at its address. *)
Record parsed (rs : list madt_record) (s s' : acpi W) : Prop := {
  pa_grows : grows (win s) (win s');
  pa_lapic : lapic_addr s' = lapic_of (lapic_addr s) rs;
  pa_isos : ∃ l, overrides s' = overrides s ++ l ∧ Forall2 (λ p r, holds (win s') p (encode r)) l (List.filter is_iso rs);
  pa_ioapics : ∃ l, ioapics s' = ioapics s ++ l ∧ Forall2 (λ p r, holds (win s') p (encode r)) l (List.filter is_ioapic rs);
  pa_mapped : ∃ l, mapped_ioapics s' = mapped_ioapics s ++ l ∧
    Forall2 mapped_at l (List.filter is_ioapic rs);
}.

(** A list the record adds nothing to. *)
Ltac nothing_new := exists []; rewrite app_nil_r; (split; [done|constructor]).

Lemma parsed_nil s : parsed [] s s.
Proof.
  split; [by intros a b|done|..]; nothing_new.
Qed.

Lemma Forall2_holds_grows w w' l rs : grows w w' → Forall2 (λ p r, holds w p (encode r)) l rs →
  Forall2 (λ p r, holds w' p (encode r)) l rs.
Proof. intros Hg H. eapply Forall2_impl; [exact H|]. intros p r. by apply holds_grows. Qed.

Lemma parsed_app rs1 rs2 s s1 s2 : parsed rs1 s s1 → parsed rs2 s1 s2 → parsed (rs1 ++ rs2) s s2.
Proof.
  intros [G1 L1 (i1 & I1 & F1) (a1 & A1 & H1) (m1 & M1 & N1)] [G2 L2 (i2 & I2 & F2) (a2 & A2 & H2) (m2 & M2 & N2)].
  split.
  - intros a b Hb. by apply G2, G1.
  - unfold lapic_of in *. by rewrite foldl_app, L2, L1.
  - exists (i1 ++ i2). rewrite List.filter_app, (assoc_L (++)), <- I1. split; [done|]. apply Forall2_app; [by eapply Forall2_holds_grows|done].
  - exists (a1 ++ a2). rewrite List.filter_app, (assoc_L (++)), <- A1. split; [done|]. apply Forall2_app; [by eapply Forall2_holds_grows|done].
  - exists (m1 ++ m2). rewrite List.filter_app, (assoc_L (++)), <- M1. split; [done|]. by apply Forall2_app.
Qed.

Lemma encode_head r : record_ok r → ∃ (type : Z) (body : list Z), encode r = type :: (length (encode r) : Z) :: body ∧ byte_ok type ∧
  byte_ok (length (encode r)) ∧ 2 ≤ length (encode r).
Proof.
  destruct r as [pid id fl|id addr base|bus src gsi fl|addr|type body]; cbn [record_ok encode app].
  - intros _. do 2 eexists. split; [reflexivity|]. cbn [length]. rewrite le_split_length. unfold byte_ok. lia.
  - intros _. do 2 eexists. split; [reflexivity|]. cbn [length]. rewrite length_app, !le_split_length. unfold byte_ok. lia.
  - intros _. do 2 eexists. split; [reflexivity|]. cbn [length]. rewrite length_app, !le_split_length. unfold byte_ok. lia.
  - intros _. do 2 eexists. split; [reflexivity|]. cbn [length]. rewrite le_split_length. unfold byte_ok. lia.
  - intros (Ht & _ & _ & Hl). do 2 eexists. split; [cbn [length]; do 2 f_equal; lia|]. cbn [length]. unfold byte_ok in *. lia.
Qed.

Lemma parse_record_run r a s : record_ok r → holds (win s) a (encode r) →
  ((if is_ioapic r then 1 else 0) ≤ windows_left (win s))%nat →
  ∃ s', parse_record a s = Ok (s', ()) ∧ parsed [r] s s' ∧
    (windows_left (win s) ≤ windows_left (win s') + if is_ioapic r then 1 else 0)%nat.
Proof.
  intros Hok Hh Hw.
  assert (∀ t, encode r !! 0%nat = Some t → record_type a s = Ok (s, t)) as Hty.
  { intros t Ht. unfold record_type. apply read_le_ok. rewrite <- (Z.add_0_r a). by apply (peek_le_byte (win s) a 0 (encode r)). }
  unfold parse_record. destruct r as [pid id fl|id addr base|bus src gsi fl|addr|type body].
  - rewrite (bind_ok _ _ _ _ _ (Hty 0 eq_refl)). cbn [Z.eqb TYPE_LAPIC]. eexists. split; [reflexivity|]. cbn [win]. split; [|lia].
    split; cbn [win overrides ioapics mapped_ioapics lapic_addr]; [by intros ??|done|..]; nothing_new.
  - rewrite (bind_ok _ _ _ _ _ (Hty 1 eq_refl)). cbn [is_ioapic] in Hw. change (1 =? TYPE_LAPIC) with false. change (1 =? TYPE_IOAPIC) with true.
    cbv iota. destruct Hok as (_ & Ha & _). unfold parse_ioapic.
    destruct (windows_left (win s)) as [|n] eqn:En; [lia|].
    destruct (map_phys_opens (win s) addr PAGE_WRITE_CACHE_DISABLE n En) as (w' & virt & R & Hv & Hvw & Hn & Hwin & Hg).
    eexists. split; [|split].
    + rewrite (bind_ok _ _ s s addr). 2:{ apply read_le_ok. apply (peek_le_holds _ _ 4).
        { apply holds_app in Hh as [_ Hh]. by apply holds_app in Hh as [Hh _]. }
        destruct Ha. unfold is_word in *. lia. }
      rewrite (bind_ok (open_phys addr) _ s (with_win w' s) virt). 2:{ unfold open_phys, zoom. by rewrite R. }
      reflexivity.
    + split; cbn [win overrides ioapics mapped_ioapics lapic_addr with_win]; [done|done| | |].
      * nothing_new.
      * exists [a]. split; [done|]. constructor; [by eapply holds_grows|constructor].
      * exists [(addr, virt)]. split; [done|]. constructor; [done|constructor].
    + cbn [win with_win is_ioapic]. lia.
  - rewrite (bind_ok _ _ _ _ _ (Hty 2 eq_refl)). change (2 =? TYPE_LAPIC) with false. change (2 =? TYPE_IOAPIC) with false.
    change (2 =? TYPE_IOAPIC_ISO) with true. cbv iota. eexists. split; [reflexivity|]. cbn [win]. split; [|lia].
    split; cbn [win overrides ioapics mapped_ioapics lapic_addr]; [by intros ??|done| | |].
    + exists [a]. split; [done|]. constructor; [done|constructor].
    + nothing_new.
    + nothing_new.
  - rewrite (bind_ok _ _ _ _ _ (Hty 5 eq_refl)). change (5 =? TYPE_LAPIC) with false. change (5 =? TYPE_IOAPIC) with false.
    change (5 =? TYPE_IOAPIC_ISO) with false. change (5 =? TYPE_LAPIC_ADDR_OVERRIDE) with true. cbv iota.
    unfold parse_lapic_addr_override. eexists. split.
    { rewrite (bind_ok _ _ s s addr); [reflexivity|]. apply read_le_ok, (peek_le_holds _ _ 8); [|exact Hok].
      by apply holds_app in Hh as [_ Hh]. }
    cbn [win with_lapic_addr]. split; [|lia].
    split; cbn [win overrides ioapics mapped_ioapics lapic_addr with_lapic_addr]; [by intros ??|done|..]; nothing_new.
  - rewrite (bind_ok _ _ _ _ _ (Hty type eq_refl)). destruct Hok as (_ & Hn & _).
    rewrite (proj2 (Z.eqb_neq type TYPE_LAPIC)), (proj2 (Z.eqb_neq type TYPE_IOAPIC)), (proj2 (Z.eqb_neq type TYPE_IOAPIC_ISO)),
      (proj2 (Z.eqb_neq type TYPE_LAPIC_ADDR_OVERRIDE)) by (intros ->; apply Hn; set_solver).
    eexists. split; [reflexivity|]. split; [|lia].
    split; [by intros ??|done|..]; nothing_new.
Qed.

Definition ioapic_count (rs : list madt_record) : nat := length (List.filter is_ioapic rs).

Lemma parse_records_run rs : ∀ a s fuel, Forall record_ok rs → holds (win s) a (records_bytes rs) →
  (ioapic_count rs ≤ windows_left (win s))%nat → (length rs ≤ fuel)%nat →
  ∃ s', parse_records fuel a (a + length (records_bytes rs)) s = Ok (s', ()) ∧ parsed rs s s'.
Proof.
  induction rs as [|r rs IH]; intros a s fuel Hok Hh Hw Hf.
  - exists s. split; [|apply parsed_nil]. destruct fuel; cbn [parse_records records_bytes concat fmap list_fmap length];
      by rewrite (proj2 (Z.ltb_ge _ _)) by (cbn; lia).
  - apply Forall_cons in Hok as [Hr Hok]. destruct fuel as [|fuel]; [cbn in Hf; lia|].
    change (records_bytes (r :: rs)) with (encode r ++ records_bytes rs) in *. apply holds_app in Hh as [Hhr Hh].
    rewrite length_app. destruct (encode_head r Hr) as (type & body & He & Hb & Hl & H2).
    unfold ioapic_count in *. cbn [List.filter] in Hw.
    destruct (parse_record_run r a s Hr Hhr) as (s1 & R1 & P1 & Hw1); [destruct (is_ioapic r); cbn in *; lia|].
    destruct (IH (a + length (encode r)) s1 fuel) as (s2 & R2 & P2); [done|by eapply holds_grows; [apply (pa_grows _ _ _ P1)|]| |cbn in Hf; lia|].
    { destruct (is_ioapic r); cbn in *; lia. }
    exists s2. split; [|by apply (parsed_app [r] rs s s1)]. cbn [parse_records].
    rewrite (proj2 (Z.ltb_lt _ _)) by lia. rewrite (bind_ok _ _ _ _ _ R1).
    cbv beta. rewrite (bind_ok (record_length a) _ s1 s1 (length (encode r))).
    2:{ apply read_le_ok. apply (peek_le_byte _ a 1 (encode r)); [by eapply holds_grows; [apply (pa_grows _ _ _ P1)|]|].
        by rewrite He at 1. }
    replace (a + (length (encode r) + length (records_bytes rs))%nat) with
      (a + length (encode r) + length (records_bytes rs)) by lia. exact R2.
Qed.

Lemma records_length rs : Forall record_ok rs → (length rs ≤ length (records_bytes rs))%nat.
Proof.
  induction 1 as [|r rs Hr _ IH]; [done|]. change (records_bytes (r :: rs)) with (encode r ++ records_bytes rs).
  rewrite length_app. destruct (encode_head r Hr) as (_ & _ & _ & _ & _ & H2). cbn [length]. lia.
Qed.

Lemma madt_parse_run h rest lapic fl rs s : length rest = 28%nat → Forall record_ok rs → is_word 32 lapic →
  44 + length (records_bytes rs) < 2 ^ 32 → holds (win s) h (madt_image rest lapic fl rs) →
  (ioapic_count rs ≤ windows_left (win s))%nat →
  ∃ s', madt_parse h s = Ok (s', ()) ∧ parsed rs (with_lapic_addr lapic s) s'.
Proof.
  intros Hrest Hok Hla Hlen Hh Hw. unfold madt_image in Hh. rewrite !holds_app in Hh.
  rewrite !le_split_length, Hrest in Hh. destruct Hh as (_ & Hl & _ & Ha & _ & Hr). change (length SIG_MADT) with 4%nat in *.
  destruct (parse_records_run rs (h + 44) (with_lapic_addr lapic s) (Z.to_nat (44 + length (records_bytes rs)))) as (s' & R & P);
    [done| |done|pose proof (records_length rs Hok); lia|].
  { cbn [win with_lapic_addr]. by replace (h + 44) with (h + 4%nat + 4%nat + 28%nat + 4%nat + 4%nat) by lia. }
  exists s'. split; [|done]. unfold madt_parse. rewrite (bind_ok (header_length h) _ s s (44 + length (records_bytes rs))).
  2:{ apply read_le_ok, (peek_le_holds _ _ 4); [exact Hl|]. change (2 ^ (8 * 4%nat)) with (2 ^ 32). lia. }
  rewrite (bind_ok (read_le (h + 36) 4) _ s s lapic).
  2:{ apply read_le_ok, (peek_le_holds _ _ 4); [|exact Hla]. by replace (h + 36) with (h + 4%nat + 4%nat + 28%nat) by lia. }
  rewrite (bind_ok (modify _) _ s (with_lapic_addr lapic s) () eq_refl). unfold RECORD_OFFSET.
  replace (h + (44 + length (records_bytes rs))) with (h + 44 + length (records_bytes rs)) by lia. exact R.
Qed.

(** ** Queries *)

Lemma find_record_app (test : Z → M (acpi W) bool) p l b s : test p s = Ok (s, b) →
  find_record test (p :: l) s = if b then Ok (s, Some p) else find_record test l s.
Proof. intros H. cbn [find_record]. rewrite (bind_ok _ _ _ _ _ H). by destruct b. Qed.

Lemma override_query rs irq s : Forall record_ok rs →
  (Forall2 (λ p r, holds (win s) p (encode r)) (overrides s) (List.filter is_iso rs)) →
  ∃ o, get_override_for_irq irq s = Ok (s, o) ∧
    match iso_for irq rs with
    | None => o = None
    | Some (gsi, fl) => ∃ p, o = Some p ∧ iso_gsi p s = Ok (s, gsi) ∧ iso_flags p s = Ok (s, fl)
    end.
Proof.
  intros Hok Hl. unfold get_override_for_irq. rewrite (bind_ok (gets overrides) _ s s _ eq_refl).
  revert Hl. generalize (overrides s) as l. induction Hok as [|r rs Hr _ IH]; intros l Hl; cbn [List.filter] in Hl.
  - inversion Hl; subst. exists None. done.
  - destruct r as [| |bus src gsi fl| |]; cbn [is_iso iso_for] in *; try by apply IH.
    inversion Hl as [|p ? l' ? Hp Hl' E1 E2]; subst. destruct Hr as (_ & Hs & Hg & Hf).
    cbn [encode app] in Hp. pose proof (peek_le_byte _ p 3 _ src Hp eq_refl) as Hsrc.
    assert (iso_source p s = Ok (s, src)) as Rs by (apply read_le_ok; exact Hsrc).
    rewrite (find_record_app _ p l' (src =? irq)) by (by rewrite (bind_ok _ _ _ _ _ Rs)).
    destruct (src =? irq); [|by apply IH].
    exists (Some p). split; [done|]. exists p. split; [done|].
    apply (holds_app _ _ [2; 10; bus; src]) in Hp as [_ Hp]. apply holds_app in Hp as [Hp1 Hp2]. rewrite le_split_length in Hp2.
    split; apply read_le_ok; [by apply (peek_le_holds _ _ 4)|].
    replace (p + 8) with (p + length [2; 10; bus; src] + 4%nat) by (cbn [length]; lia). by apply (peek_le_holds _ _ 2).
Qed.

Lemma gsi_query rs irq s : Forall record_ok rs →
  Forall2 (λ p r, holds (win s) p (encode r)) (overrides s) (List.filter is_iso rs) →
  get_gsi_for_irq irq s = Ok (s, gsi_of irq rs).
Proof.
  intros Hok Hl. destruct (override_query rs irq s Hok Hl) as (o & R & Ho). unfold get_gsi_for_irq, gsi_of.
  rewrite (bind_ok _ _ _ _ _ R). destruct (iso_for irq rs) as [[gsi fl]|]; [|by subst].
  destruct Ho as (p & -> & Hg & _). exact Hg.
Qed.

Lemma find_mapped_in addr v l : (addr, v) ∈ l → ∃ v', find_mapped addr l = Some v' ∧ (addr, v') ∈ l.
Proof.
  induction l as [|[p u] l IH]; [by intros ?%not_elem_of_nil|]. intros Hin. cbn [find_mapped].
  destruct (Z.eqb_spec p addr) as [-> |Hne]; [exists u; split; [done|apply list_elem_of_here]|].
  apply elem_of_cons in Hin as [[= ??]|Hin]; [done|]. destruct (IH Hin) as (v' & ? & ?).
  exists v'. split; [done|by apply list_elem_of_further].
Qed.

Lemma mapped_query rs id addr base l : Forall2 mapped_at l (List.filter is_ioapic rs) → RIoapic id addr base ∈ rs →
  ∃ v, find_mapped addr l = Some v ∧ (addr, v) ∈ l ∧ v ≠ 0 ∧ is_word 64 v.
Proof.
  intros Hl Hin. assert (RIoapic id addr base ∈ List.filter is_ioapic rs) as Hf.
  { apply list_elem_of_In, filter_In. split; [by apply list_elem_of_In|done]. }
  apply list_elem_of_lookup in Hf as [i Hi]. destruct (Forall2_lookup_r _ _ _ _ _ Hl Hi) as ([a v] & Hv & Ha & _).
  cbn in Ha. subst a. destruct (find_mapped_in addr v l) as (v' & Hf & Hv'); [by eapply list_elem_of_lookup_2|].
  exists v'. split; [done|]. split; [done|]. apply list_elem_of_lookup in Hv' as [j Hj].
  destruct (Forall2_lookup_l _ _ _ _ _ Hl Hj) as (r & _ & Hr). destruct r; try done. apply Hr.
Qed.

Lemma ioapic_find rs gsi s l : Forall record_ok rs → Forall2 (λ p r, holds (win s) p (encode r)) l (List.filter is_ioapic rs) →
  ∃ o, find_record (λ ioapic, base ← gsi_base ioapic;
      mret ((base <=? gsi) && (gsi <? wrap 32 (base + IOAPIC_MAX_ENTRIES)))) l s = Ok (s, o) ∧
    match ioapic_of gsi rs with
    | None => o = None
    | Some (addr, base) => ∃ p id, o = Some p ∧ RIoapic id addr base ∈ rs ∧ gsi_base p s = Ok (s, base) ∧ ioapic_addr p s = Ok (s, addr)
    end.
Proof.
  intros Hok. revert l. induction Hok as [|r rs Hr _ IH]; intros l Hl; cbn [List.filter] in Hl.
  - inversion Hl; subst. by exists None.
  - assert (∀ o, match ioapic_of gsi rs with None => o = None
      | Some (addr, base) => ∃ p id, o = Some p ∧ RIoapic id addr base ∈ rs ∧ gsi_base p s = Ok (s, base) ∧ ioapic_addr p s = Ok (s, addr) end →
      match ioapic_of gsi rs with None => o = None
      | Some (addr, base) => ∃ p id, o = Some p ∧ RIoapic id addr base ∈ r :: rs ∧ gsi_base p s = Ok (s, base) ∧ ioapic_addr p s = Ok (s, addr) end) as Hmono.
    { intros o. destruct (ioapic_of gsi rs) as [[addr base]|]; [|done]. intros (p & id & ? & Hin & ?). exists p, id.
      split; [done|]. split; [by apply list_elem_of_further|done]. }
    destruct r as [|id addr base| | |]; cbn [is_ioapic ioapic_of] in *;
      try (destruct (IH l Hl) as (o & R & Ho); exists o; split; [exact R|by apply Hmono]).
    inversion Hl as [|p ? l' ? Hp Hl' E1 E2]; subst. destruct Hr as (_ & Ha & Hb0 & Hb1).
    cbn [encode] in Hp. apply holds_app in Hp as [_ Hp]. apply holds_app in Hp as [Hp1 Hp2]. rewrite le_split_length in Hp2.
    assert (gsi_base p s = Ok (s, base)) as Rb.
    { apply read_le_ok. replace (p + 8) with (p + length [1; 12; id; 0] + 4%nat) by (cbn [length]; lia).
      apply (peek_le_holds _ _ 4); [done|]. change (2 ^ (8 * 4%nat)) with (2 ^ 32). lia. }
    rewrite (find_record_app _ p l' ((base <=? gsi) && (gsi <? base + 24))).
    2:{ rewrite (bind_ok _ _ _ _ _ Rb). unfold IOAPIC_MAX_ENTRIES. rewrite wrap_small by (unfold is_word; lia). reflexivity. }
    destruct ((base <=? gsi) && (gsi <? base + 24)).
    + exists (Some p). split; [done|]. exists p, id. split; [done|]. split; [apply list_elem_of_here|]. split; [done|].
      apply read_le_ok. by apply (peek_le_holds _ _ 4).
    + destruct (IH l' Hl') as (o & R & Ho). exists o. split; [exact R|by apply Hmono].
Qed.

Lemma ioapic_query rs gsi s : Forall record_ok rs →
  Forall2 (λ p r, holds (win s) p (encode r)) (ioapics s) (List.filter is_ioapic rs) →
  Forall2 mapped_at (mapped_ioapics s) (List.filter is_ioapic rs) →
  ∃ o, get_ioapic_for_gsi gsi s = Ok (s, o) ∧
    match ioapic_of gsi rs with
    | None => o = None
    | Some (addr, base) => ∃ p virt, o = Some p ∧ gsi_base p s = Ok (s, base) ∧
        get_mapped_ioapic_addr p s = Ok (s, Some virt) ∧ (addr, virt) ∈ mapped_ioapics s ∧ virt ≠ 0 ∧ is_word 64 virt
    end.
Proof.
  intros Hok Hl Hm. unfold get_ioapic_for_gsi. rewrite (bind_ok (gets ioapics) _ s s _ eq_refl).
  destruct (ioapic_find rs gsi s (ioapics s) Hok Hl) as (o & R & Ho). exists o. split; [exact R|].
  destruct (ioapic_of gsi rs) as [[addr base]|]; [|done]. destruct Ho as (p & id & -> & Hin & Hb & Ha).
  destruct (mapped_query rs id addr base _ Hm Hin) as (v & Hf & Hv & Hnz & Hw). exists p, v.
  split; [done|]. split; [done|]. split; [|done]. unfold get_mapped_ioapic_addr. rewrite (bind_ok _ _ _ _ _ Ha).
  rewrite (bind_ok (gets mapped_ioapics) _ s s _ eq_refl). unfold mret, M_ret. by rewrite Hf.
Qed.

(** A record of length 0 holds the parser forever: it is parsed again and again. *)
Lemma zero_length_record_hangs record madt_end type s : record < madt_end → byte_ok type → type ∉ [0; 1; 2; 5] →
  holds (win s) record [type; 0] → ∀ fuel, parse_records fuel record madt_end s = Hang.
Proof.
  intros Hlt Ht Hn Hh fuel. induction fuel as [|fuel IH]; cbn [parse_records]; rewrite (proj2 (Z.ltb_lt _ _)) by lia; [done|].
  rewrite (bind_ok (parse_record record) _ s s ()).
  2:{ unfold parse_record. rewrite (bind_ok (record_type record) _ s s type).
      - rewrite (proj2 (Z.eqb_neq type TYPE_LAPIC)), (proj2 (Z.eqb_neq type TYPE_IOAPIC)), (proj2 (Z.eqb_neq type TYPE_IOAPIC_ISO)),
          (proj2 (Z.eqb_neq type TYPE_LAPIC_ADDR_OVERRIDE)) by (intros ->; apply Hn; set_solver). done.
      - apply read_le_ok. rewrite <- (Z.add_0_r record). by apply (peek_le_byte _ record 0 [type; 0]). }
  rewrite (bind_ok (record_length record) _ s s 0).
  - by rewrite Z.add_0_r.
  - apply read_le_ok. by apply (peek_le_byte _ record 1 [type; 0]).
Qed.
End parse.
