(* ===== verification/Apic.v ===== *)
(** * Interrupt controllers

    [src/kernel/arch/x64/drivers/apic/apic.cpp] and [.../pic/pic.cpp]: the registers of the local APIC and of
    the I/O APICs, the routing of an interrupt line through the tables of [Acpi.v], and the timer interrupt
    with its deadline.  The controllers are devices: the local APIC a bank of registers, an I/O APIC a
    register-select and a data window at its base, with the registers behind them.  The scheduler's sleepers
    and its tick are arguments. *)

From stdpp Require Import functions.
From S2P Require Import Prelude Bytes Cpu Timer Acpi AcpiProofs.

#[local] Coercion Z.of_nat : nat >-> Z.

Definition LAPIC_TPR : Z := 0x0080.
Definition LAPIC_EOI : Z := 0x00B0.
Definition LAPIC_SPURIOUS : Z := 0x00F0.
Definition LAPIC_TIMER : Z := 0x0320.
Definition TIMER_MODE_TSC_DEADLINE : Z := Z.shiftl 1 18.
Definition MSR_APIC_BASE : Z := 0x1B.
Definition MSR_APIC_BASE_ENABLE : Z := 0x800.
Definition IA32_TSC_DEADLINE : Z := 0x6E0.
Definition CPUID_FEAT_EDX_APIC : Z := Z.shiftl 1 9.
Definition IOAPIC_IOREGSEL : Z := 0x00.
Definition IOAPIC_IOWIN : Z := 0x10.
Definition IOAPIC_REDTBL_BASE : Z := 0x10.
Definition VECTOR_TIMER : Z := 0x20.
Definition IOAPIC_REDTBL_LO (pin : Z) : Z := wrap 32 (IOAPIC_REDTBL_BASE + pin * 2).
Definition IOAPIC_REDTBL_HI (pin : Z) : Z := wrap 32 (IOAPIC_REDTBL_BASE + pin * 2 + 1).

Section apic.
Context {W : Type} `{!PhysWindow W}.

(** [ioapic_sel] and [ioapic_reg] are the select register and the registers of the I/O APIC at a base address. *)
Record apic := mk_apic {
  ap_acpi : acpi W;
  ap_cpu : cpu;
  lapic_virt_base : Z;
  lapic_reg : Z → Z;
  ioapic_sel : Z → Z;
  ioapic_reg : Z → Z → Z;
  interrupt_deadline : Z;
  interrupt_delta : Z;
}.
Definition with_acpi (a : acpi W) (s : apic) : apic :=
  mk_apic a (ap_cpu s) (lapic_virt_base s) (lapic_reg s) (ioapic_sel s) (ioapic_reg s) (interrupt_deadline s) (interrupt_delta s).
Definition with_ap_cpu (f : cpu → cpu) (s : apic) : apic :=
  mk_apic (ap_acpi s) (f (ap_cpu s)) (lapic_virt_base s) (lapic_reg s) (ioapic_sel s) (ioapic_reg s) (interrupt_deadline s) (interrupt_delta s).
Definition with_lapic_base (b : Z) (s : apic) : apic :=
  mk_apic (ap_acpi s) (ap_cpu s) b (lapic_reg s) (ioapic_sel s) (ioapic_reg s) (interrupt_deadline s) (interrupt_delta s).
Definition with_lapic_reg (f : Z → Z) (s : apic) : apic :=
  mk_apic (ap_acpi s) (ap_cpu s) (lapic_virt_base s) f (ioapic_sel s) (ioapic_reg s) (interrupt_deadline s) (interrupt_delta s).
Definition with_ioapic (f : Z → Z) (g : Z → Z → Z) (s : apic) : apic :=
  mk_apic (ap_acpi s) (ap_cpu s) (lapic_virt_base s) (lapic_reg s) f g (interrupt_deadline s) (interrupt_delta s).
Definition with_deadline (d delta : Z) (s : apic) : apic :=
  mk_apic (ap_acpi s) (ap_cpu s) (lapic_virt_base s) (lapic_reg s) (ioapic_sel s) (ioapic_reg s) d delta.

Definition on_acpi {A} (m : M (acpi W) A) : M apic A := zoom ap_acpi with_acpi m.

(** ** Registers *)

Definition lapic_write (reg value : Z) : M apic unit := modify (λ s, with_lapic_reg (<[reg := value]> (lapic_reg s)) s).
Definition lapic_read (reg : Z) : M apic Z := gets (λ s, lapic_reg s reg).

(** A store to an address of an I/O APIC: the select register, or the register it selects. *)
Definition ioapic_store (base off value : Z) : M apic unit :=
  modify (λ s, if off =? IOAPIC_IOREGSEL then with_ioapic (<[base := value]> (ioapic_sel s)) (ioapic_reg s) s
    else with_ioapic (ioapic_sel s) (<[base := <[ioapic_sel s base := value]> (ioapic_reg s base)]> (ioapic_reg s)) s).
Definition ioapic_write (base reg value : Z) : M apic unit :=
  _ ← kassert_not_null base;
  _ ← ioapic_store base IOAPIC_IOREGSEL reg;
  ioapic_store base IOAPIC_IOWIN value.
Definition ioapic_read (base reg : Z) : M apic Z :=
  _ ← kassert_not_null base;
  _ ← ioapic_store base IOAPIC_IOREGSEL reg;
  gets (λ s, ioapic_reg s base (ioapic_sel s base)).

Definition send_eoi : M apic unit := lapic_write LAPIC_EOI 0.
Definition enable_apic : M apic unit :=
  apic_msr ← gets (λ s, rdmsr MSR_APIC_BASE (ap_cpu s));
  modify (with_ap_cpu (wrmsr MSR_APIC_BASE (Z.lor apic_msr MSR_APIC_BASE_ENABLE))).
Definition configure_svr : M apic unit := lapic_write LAPIC_SPURIOUS 0x1FF.
Definition check_support (cpuid_edx : Z) : bool := negb (Z.land cpuid_edx CPUID_FEAT_EDX_APIC =? 0).
Definition set_lapic_addr : M apic unit :=
  phys_addr ← gets (λ s, lapic_addr (ap_acpi s));
  virt ← on_acpi (open_phys phys_addr);
  modify (with_lapic_base virt).

(** ** Routing *)

Definition route_entry (vector : Z) (iso_fl : option Z) : Z :=
  match iso_fl with
  | Some fl =>
      let entry := if Z.land fl 0x3 =? 0x3 then Z.lor vector (Z.shiftl 1 13) else vector in
      if Z.land fl 0xC =? 0xC then Z.lor entry (Z.shiftl 1 15) else entry
  | None => vector
  end.

Definition ioapic_route_irq (irq vector : Z) : M apic unit :=
  gsi ← on_acpi (get_gsi_for_irq irq);
  ioapic ← on_acpi (get_ioapic_for_gsi gsi);
  ioapic ← match ioapic with Some p => mret p | None => panic end;
  iso ← on_acpi (get_override_for_irq irq);
  addr ← on_acpi (get_mapped_ioapic_addr ioapic);
  addr ← match addr with Some a => mret a | None => panic end;
  _ ← kassert_not_null addr;
  base ← on_acpi (gsi_base ioapic);
  let pin := wrap 32 (gsi - base) in
  iso_fl ← match iso with Some p => f ← on_acpi (iso_flags p); mret (Some f) | None => mret None end;
  let entry := route_entry vector iso_fl in
  _ ← ioapic_write addr (IOAPIC_REDTBL_LO pin) (wrap 32 entry);
  ioapic_write addr (IOAPIC_REDTBL_HI pin) (wrap 32 (Z.shiftr entry 32)).

(** ** The timer *)

Section timer.
(** The calibrated counter, the wake time of the next sleeper, and the scheduler's tick. *)
Context (clock : tsc) (get_next_sleeper : apic → option Z) (tick : M apic unit).

Definition apic_timer_handler : M apic unit :=
  _ ← modify (λ s, with_deadline (wrap64 (interrupt_deadline s + interrupt_delta s)) (interrupt_delta s) s);
  sleeper ← gets get_next_sleeper;
  _ ← match sleeper with
      | Some wake_time_ns =>
          let sleeper_deadline := ns_to_raw_ticks clock wake_time_ns in
          modify (λ s, if sleeper_deadline <? interrupt_deadline s
                       then with_deadline sleeper_deadline (interrupt_delta s) s else s)
      | None => mret ()
      end;
  _ ← modify (λ s, with_ap_cpu (wrmsr IA32_TSC_DEADLINE (interrupt_deadline s)) s);
  _ ← send_eoi;
  tick.

(** [register] stands for [register_irq_handler]. *)
Definition timer_init (register : Z → M apic unit) : M apic unit :=
  _ ← lapic_write LAPIC_TIMER (Z.lor VECTOR_TIMER TIMER_MODE_TSC_DEADLINE);
  _ ← register VECTOR_TIMER;
  let interrupt_frequency := 1000 in
  let interrupt_frequency_ms := interrupt_frequency / 1000 in
  let interrupt_frequency_us := interrupt_frequency_ms * 1000 in
  let interrupt_frequency_ns := interrupt_frequency_us * 1000 in
  let delta := ns_to_ticks clock interrupt_frequency_ns in
  _ ← modify (with_deadline delta delta);
  modify (λ s, with_ap_cpu (wrmsr IA32_TSC_DEADLINE (interrupt_deadline s)) s).

Definition apic_init (cpuid_edx : Z) (register : Z → M apic unit) : M apic unit :=
  _ ← kassert (check_support cpuid_edx);
  _ ← set_lapic_addr;
  base ← gets lapic_virt_base;
  _ ← kassert_not_null base;
  _ ← enable_apic;
  _ ← configure_svr;
  _ ← lapic_write LAPIC_TPR 0;
  timer_init register.
End timer.
End apic.
Arguments apic : clear implicits.

(** [pic::init]: [imr] are the mask registers at the two data ports; a PIC answers with the mask it was given. *)
Definition PIC1_DATA : Z := 0x21.
Definition PIC2_DATA : Z := 0xA1.
Definition pic_init : M (Z → Z) bool :=
  _ ← modify (λ imr, <[PIC1_DATA := 0xFF]> imr);
  _ ← modify (λ imr, <[PIC2_DATA := 0xFF]> imr);
  master ← gets (λ imr : Z → Z, imr PIC1_DATA);
  slave ← gets (λ imr : Z → Z, imr PIC2_DATA);
  let success := (master =? 0xFF) && (slave =? 0xFF) in
  _ ← kassert success;
  mret success.

(** ** The redirection entry *)

(** A fixed, physical, unmasked delivery to processor 0, with the override's polarity and trigger mode. *)
Record entry_spec (vector : Z) (fl : option Z) (entry : Z) : Prop := {
  es_range : 0 ≤ entry < 2 ^ 16;
  es_vector : get_field 0 8 entry = vector;
  es_mode i : i ∈ [8; 9; 10; 11; 12; 14] → Z.testbit entry i = false;
  es_low : Z.testbit entry 13 = match fl with Some f => Z.land f 3 =? 3 | None => false end;
  es_level : Z.testbit entry 15 = match fl with Some f => Z.land f 12 =? 12 | None => false end;
}.

Lemma route_entry_sum vector fl : byte_ok vector → route_entry vector fl =
  vector + match fl with Some f => 8192 * Z.b2z (Z.land f 3 =? 3) + 32768 * Z.b2z (Z.land f 12 =? 12) | None => 0 end.
Proof.
  intros Hv. unfold byte_ok in Hv. unfold route_entry. destruct fl as [f|]; [|lia].
  change (Z.shiftl 1 13) with 8192. change (Z.shiftl 1 15) with 32768.
  assert (Z.lor vector 8192 = 8192 + vector) as H13 by (rewrite Z.lor_comm; apply (lor_add 13); lia).
  destruct (Z.land f 3 =? 3), (Z.land f 12 =? 12); cbn [Z.b2z]; rewrite ?H13, ?(Z.lor_comm _ 32768); rewrite ?(lor_add 15) by lia; lia.
Qed.

(** The parity of a quotient by a power of two, over the flags it depends on. *)
Ltac odd_bit p l :=
  match goal with |- context [2 ^ ?i] => let q := eval vm_compute in (2 ^ i) in change (2 ^ i) with q end;
  match goal with |- Z.odd ?x = _ => pose proof (Zmod_odd x); destruct (Z.odd x), p, l; cbn [Z.b2z] in *; first [done | lia] end.

Lemma entry_bits vector (p l : bool) : byte_ok vector → let e := vector + (8192 * Z.b2z p + 32768 * Z.b2z l) in
  0 ≤ e < 2 ^ 16 ∧ get_field 0 8 e = vector ∧ (∀ i, i ∈ [8; 9; 10; 11; 12; 14] → Z.testbit e i = false) ∧
  Z.testbit e 13 = p ∧ Z.testbit e 15 = l.
Proof.
  intros Hv e. unfold byte_ok in Hv.
  assert (∀ i, 0 ≤ i → Z.testbit e i = Z.odd (e / 2 ^ i)) as Ht by (intros; by rewrite Z.testbit_odd, Z.shiftr_div_pow2).
  unfold e in *. split_and!.
  - destruct p, l; cbn [Z.b2z]; lia.
  - destruct p, l; cbn [Z.b2z]; lia.
  - rewrite get_field_div by lia. destruct p, l; cbn [Z.b2z]; lia.
  - intros i Hi. rewrite !elem_of_cons, elem_of_nil in Hi.
    repeat destruct Hi as [-> |Hi]; [..|done]; rewrite Ht by lia; odd_bit p l.
  - rewrite Ht by lia. odd_bit p l.
  - rewrite Ht by lia. odd_bit p l.
Qed.

Lemma route_entry_spec vector fl : byte_ok vector → entry_spec vector fl (route_entry vector fl).
Proof.
  intros Hv. rewrite route_entry_sum by done. destruct fl as [f|].
  - destruct (entry_bits vector (Z.land f 3 =? 3) (Z.land f 12 =? 12) Hv) as (? & ? & ? & ? & ?). by split.
  - destruct (entry_bits vector false false Hv) as (? & ? & ? & ? & ?). by split.
Qed.

(** ** Routing an interrupt *)

Section route.
Context {W : Type} `{!PhysWindow W} (fw : Z → option Z) `{!PhysWindowLaws W fw}.

Lemma on_acpi_ok {A} (m : M (acpi W) A) (s : apic W) a v : m (ap_acpi s) = Ok (a, v) → on_acpi m s = Ok (with_acpi a s, v).
Proof. intros H. unfold on_acpi, zoom. by rewrite H. Qed.

Lemma on_acpi_read {A} (m : M (acpi W) A) (s : apic W) v : m (ap_acpi s) = Ok (ap_acpi s, v) → on_acpi m s = Ok (s, v).
Proof. intros H. rewrite (on_acpi_ok m s _ v H). by destruct s. Qed.

Lemma ioapic_write_run (s : apic W) base reg v : base ≠ 0 → ∃ s', ioapic_write base reg v s = Ok (s', ()) ∧
  ap_acpi s' = ap_acpi s ∧ ∀ b r, ioapic_reg s' b r = if decide (b = base ∧ r = reg) then v else ioapic_reg s b r.
Proof.
  intros Hb. exists (with_ioapic (<[base := reg]> (ioapic_sel s)) (<[base := <[reg := v]> (ioapic_reg s base)]> (ioapic_reg s)) s). split.
  - unfold ioapic_write, kassert_not_null. rewrite (proj2 (Z.eqb_neq _ _) Hb). cbn [negb kassert].
    rewrite (bind_ok (mret ()) _ s s () eq_refl).
    rewrite (bind_ok (ioapic_store base IOAPIC_IOREGSEL reg) _ s
      (with_ioapic (<[base := reg]> (ioapic_sel s)) (ioapic_reg s) s) () eq_refl).
    unfold ioapic_store, modify. change (IOAPIC_IOWIN =? IOAPIC_IOREGSEL) with false. cbv iota.
    cbn [ioapic_sel ioapic_reg with_ioapic]. by rewrite fn_lookup_insert.
  - split; [done|]. intros b r. cbn [ioapic_reg with_ioapic].
    destruct (decide (b = base)) as [-> |Hn].
    + rewrite fn_lookup_insert. destruct (decide (r = reg)) as [-> |Hr]; [by rewrite fn_lookup_insert, decide_True|].
      rewrite fn_lookup_insert_ne by done. rewrite decide_False; [done|by intros [_ ?]].
    + rewrite fn_lookup_insert_ne by done. rewrite decide_False; [done|by intros [? _]].
Qed.

Lemma ioapic_of_range gsi rs addr base : Forall record_ok rs → ioapic_of gsi rs = Some (addr, base) →
  0 ≤ base ∧ base + 24 < 2 ^ 32 ∧ base ≤ gsi < base + 24.
Proof.
  induction 1 as [|r rs Hr _ IH]; [done|]. destruct r as [|id a b| | |]; cbn [ioapic_of]; try done.
  destruct ((b <=? gsi) && (gsi <? b + 24)) eqn:E; [|done]. intros [= -> ->]. destruct Hr as (_ & _ & ? & ?). lia.
Qed.

(** C16: interrupt lines are routed as the firmware says.  Parsing a MADT finds its records, whatever other
    records lie between them.  Afterwards [ioapic_route_irq] takes the line's global number from the first
    override of the line, or else the line's own number, and programs that number's redirection entry in the
    I/O APIC whose range it is in: the vector, fixed delivery to processor 0, not masked, with the override's
    polarity and trigger mode.  No other register of any I/O APIC changes, and it is an assertion failure if
    no I/O APIC has the number. *)
Theorem madt_routes_irq h rest lapic fl rs irq vector (s : apic W) :
  length rest = 28%nat → Forall record_ok rs → is_word 32 lapic → 44 + length (records_bytes rs) < 2 ^ 32 →
  holds (win (ap_acpi s)) h (madt_image rest lapic fl rs) →
  (ioapic_count rs ≤ windows_left (win (ap_acpi s)))%nat →
  overrides (ap_acpi s) = [] → ioapics (ap_acpi s) = [] → mapped_ioapics (ap_acpi s) = [] →
  byte_ok irq → byte_ok vector →
  ∃ a', madt_parse h (ap_acpi s) = Ok (a', ()) ∧ lapic_addr a' = lapic_of lapic rs ∧
    match ioapic_of (gsi_of irq rs) rs with
    | None => ioapic_route_irq irq vector (with_acpi a' s) = Panic
    | Some (addr, base) => ∃ virt s' entry, (addr, virt) ∈ mapped_ioapics a' ∧
        ioapic_route_irq irq vector (with_acpi a' s) = Ok (s', ()) ∧
        entry_spec vector (snd <$> iso_for irq rs) entry ∧
        let lo := 0x10 + 2 * (gsi_of irq rs - base) in
        ioapic_reg s' virt lo = entry ∧ ioapic_reg s' virt (lo + 1) = 0 ∧
        ∀ b r, ¬ (b = virt ∧ (r = lo ∨ r = lo + 1)) → ioapic_reg s' b r = ioapic_reg s b r
    end.
Proof.
  intros Hrest Hok Hla Hlen Hh Hw He1 He2 He3 Hirq Hvec.
  destruct (madt_parse_run fw h rest lapic fl rs (ap_acpi s)) as (a' & R & [_ Hl (l1 & I1 & F1) (l2 & I2 & F2) (l3 & I3 & F3)]); [done..|].
  cbn [overrides ioapics mapped_ioapics with_lapic_addr] in I1, I2, I3. rewrite He1 in I1. rewrite He2 in I2. rewrite He3 in I3.
  cbn [app] in I1, I2, I3. rewrite <- I1 in F1. rewrite <- I2 in F2. rewrite <- I3 in F3. clear I1 I2 I3.
  exists a'. split; [done|]. split; [done|]. set (s0 := with_acpi a' s).
  set (gsi := gsi_of irq rs). pose proof (gsi_query rs irq a' Hok F1) as Rg.
  destruct (ioapic_query rs gsi a' Hok F2 F3) as (o & Ri & Ho). destruct (override_query rs irq a' Hok F1) as (iso & Rv & Hv).
  assert (ioapic_route_irq irq vector s0 =
    (ioapic ← match o with Some p => mret p | None => panic end;
     iso ← on_acpi (get_override_for_irq irq);
     addr ← on_acpi (get_mapped_ioapic_addr ioapic);
     addr ← match addr with Some a => mret a | None => panic end;
     _ ← kassert_not_null addr;
     base ← on_acpi (gsi_base ioapic);
     let pin := wrap 32 (gsi - base) in
     iso_fl ← match iso with Some p => f ← on_acpi (iso_flags p); mret (Some f) | None => mret None end;
     let entry := route_entry vector iso_fl in
     _ ← ioapic_write addr (IOAPIC_REDTBL_LO pin) (wrap 32 entry);
     ioapic_write addr (IOAPIC_REDTBL_HI pin) (wrap 32 (Z.shiftr entry 32))) s0) as Hstart.
  { unfold ioapic_route_irq. rewrite (bind_ok _ _ _ _ _ (on_acpi_read _ s0 _ Rg)).
    by rewrite (bind_ok _ _ _ _ _ (on_acpi_read _ s0 _ Ri)). }
  rewrite Hstart. clear Hstart. destruct (ioapic_of gsi rs) as [[addr base]|] eqn:Hof; [|by subst].
  destruct Ho as (p & virt & -> & Rb & Rm & Hin & Hnz & Hvw).
  destruct (ioapic_of_range gsi rs addr base Hok Hof) as (Hb0 & Hb1 & Hr0 & Hr1).
  pose proof (route_entry_spec vector (snd <$> iso_for irq rs) Hvec) as Hes. set (entry := route_entry _ _) in Hes.
  set (lo := 0x10 + 2 * (gsi - base)).
  destruct (ioapic_write_run s0 virt lo entry Hnz) as (s1 & R1 & _ & H1).
  destruct (ioapic_write_run s1 virt (lo + 1) 0 Hnz) as (s2 & R2 & _ & H2).
  exists virt, s2, entry. split; [done|]. split; [|split; [done|split; [|split]]].
  - rewrite (bind_ok (mret p) _ s0 s0 p eq_refl), (bind_ok _ _ _ _ _ (on_acpi_read _ s0 _ Rv)).
    rewrite (bind_ok _ _ _ _ _ (on_acpi_read _ s0 _ Rm)), (bind_ok (mret virt) _ s0 s0 virt eq_refl).
    rewrite (bind_ok (kassert_not_null virt) _ s0 s0 ()) by (unfold kassert_not_null; by rewrite (proj2 (Z.eqb_neq _ _) Hnz)).
    rewrite (bind_ok _ _ _ _ _ (on_acpi_read _ s0 _ Rb)). cbv beta zeta.
    rewrite (bind_ok _ _ s0 s0 (snd <$> iso_for irq rs)).
    2:{ destruct (iso_for irq rs) as [[g f]|]; [|by subst]. destruct Hv as (q & -> & _ & Rf).
        by rewrite (bind_ok _ _ _ _ _ (on_acpi_read _ s0 _ Rf)). }
    fold entry. destruct Hes as [[He0 He1'] _ _ _ _].
    rewrite (wrap_small 32 (gsi - base)), (wrap_small 32 entry) by (unfold is_word; lia).
    rewrite Z.shiftr_div_pow2, (Z.div_small entry) by lia. unfold IOAPIC_REDTBL_LO, IOAPIC_REDTBL_HI, IOAPIC_REDTBL_BASE.
    rewrite (wrap_small 32 (0x10 + (gsi - base) * 2)), (wrap_small 32 (0x10 + (gsi - base) * 2 + 1)) by (unfold is_word; lia).
    replace (0x10 + (gsi - base) * 2) with lo by lia. by rewrite (bind_ok _ _ _ _ _ R1).
  - rewrite H2, decide_False by (intros [_ ?]; lia). by rewrite H1, decide_True.
  - by rewrite H2, decide_True.
  - intros b r Hn. rewrite H2, decide_False by (intros [? ?]; apply Hn; auto). rewrite H1, decide_False by (intros [? ?]; apply Hn; auto). done.
Qed.
End route.

(** ** An example firmware *)

(** Windows on a physical memory [fw]: the physical pages they show, at successive virtual pages from the first. *)
Section windows.
Context (fw : Z → option Z).

#[local] Instance page_windows : PhysWindow (list Z) := {
  peek w a := if a <? 4096 then None else p ← w !! Z.to_nat (a / 4096 - 1); fw (p * 4096 + a mod 4096);
  map_phys phys _ w :=
    if (length w <? 1000)%nat then Ok (w ++ [phys / 4096], (length w + 1) * 4096 + phys mod 4096) else Panic;
  windows_left w := (1000 - length w)%nat;
}.

#[local] Instance page_windows_laws : PhysWindowLaws (list Z) fw.
Proof.
  split. intros w phys flags n Hn. cbn [windows_left page_windows] in Hn.
  exists (w ++ [phys / 4096]), ((length w + 1) * 4096 + phys mod 4096). cbn [map_phys peek windows_left page_windows].
  split; [by rewrite (proj2 (Nat.ltb_lt _ _)) by lia|]. split; [lia|]. split; [unfold is_word; lia|].
  split; [rewrite length_app; cbn; lia|]. split.
  - intros i Hi Hlt. rewrite (proj2 (Z.ltb_ge _ _)) by lia.
    replace (Z.to_nat (((length w + 1) * 4096 + phys mod 4096 + i) / 4096 - 1)) with (length w) by lia.
    rewrite lookup_app_r, Nat.sub_diag by lia. cbn. f_equal. lia.
  - intros a b. destruct (a <? 4096); [done|]. intros (p & Hp & Hb)%bind_Some.
    rewrite (lookup_app_l_Some _ _ _ _ Hp). exact Hb.
Qed.
End windows.

Definition demo_records : list madt_record := [ROther 4 [0; 0; 0; 1]; RIso 0 1 9 0xF; RIoapic 0 0xFEC00000 0].
Definition demo_madt : list Z := madt_image (replicate 28 0) 0xFEE00000 1 demo_records.
Definition demo_firmware (a : Z) : option Z := if a <? 0xE0000 then None else demo_madt !! Z.to_nat (a - 0xE0000).
Definition demo_apic : apic (list Z) :=
  mk_apic (mk_acpi [0xE0] 0 [] [] [] []) (mk_cpu 0 0 0 (λ _, 0) (mk_PerCPU 0 0 0 0 false)) 0 (λ _, 0) (λ _, 0) (λ _ _, 0) 0 0.

Lemma demo_holds : holds (W := list Z) (PhysWindow0 := page_windows demo_firmware) [0xE0] 0x1000 demo_madt.
Proof.
  intros i b Hi. pose proof (lookup_lt_Some _ _ _ Hi) as Hl. assert (length demo_madt = 72%nat) as E by reflexivity. rewrite E in Hl.
  cbn [peek page_windows]. rewrite (proj2 (Z.ltb_ge _ _)) by lia.
  replace (Z.to_nat ((0x1000 + i) / 4096 - 1)) with 0%nat by lia. cbn. unfold demo_firmware.
  rewrite (proj2 (Z.ltb_ge _ _)) by lia. rewrite <- Hi. f_equal. lia.
Qed.

Lemma madt_routes_irq_witness : ∃ a' s' virt entry,
  @madt_parse _ (page_windows demo_firmware) 0x1000 (ap_acpi demo_apic) = Ok (a', ()) ∧ lapic_addr a' = 0xFEE00000 ∧
  @ioapic_route_irq _ (page_windows demo_firmware) 1 0x21 (with_acpi a' demo_apic) = Ok (s', ()) ∧
  ioapic_reg s' virt (0x10 + 2 * 9) = entry ∧ get_field 0 8 entry = 0x21 ∧ Z.testbit entry 13 = true ∧ Z.testbit entry 15 = true.
Proof.
  destruct (@madt_routes_irq _ (page_windows demo_firmware) demo_firmware (page_windows_laws demo_firmware)
    0x1000 (replicate 28 0) 0xFEE00000 1 demo_records 1 0x21 demo_apic) as (a' & R & Hl & H).
  - reflexivity.
  - repeat constructor; unfold byte_ok; try lia; set_solver.
  - split; reflexivity || lia.
  - reflexivity.
  - exact demo_holds.
  - apply Nat.leb_le. reflexivity.
  - reflexivity.
  - reflexivity.
  - reflexivity.
  - unfold byte_ok. lia.
  - unfold byte_ok. lia.
  - destruct H as (virt & s' & entry & _ & Rr & Hes & Hlo & _). exists a', s', virt, entry.
    split; [exact R|]. split; [exact Hl|]. split; [exact Rr|]. split; [exact Hlo|].
    split; [exact (es_vector _ _ _ Hes)|]. split; [exact (es_low _ _ _ Hes)|exact (es_level _ _ _ Hes)].
Defined.

(** ** The timer *)

Lemma rdmsr_wrmsr m v c : is_word 64 v → rdmsr m (wrmsr m v c) = v.
Proof.
  intros [H0 H1]. unfold rdmsr, wrmsr. cbn [msr with_msr]. rewrite Z.eqb_refl.
  change 0xFFFFFFFF with (2 ^ 32 - 1). rewrite !land_low, !Z.shiftr_div_pow2, !Z.shiftl_mul_pow2 by lia.
  rewrite (wrap_small 32 (v / 2 ^ 32)) by (unfold is_word; lia). rewrite (wrap_small 32 (v mod 2 ^ 32)) by (unfold is_word; lia).
  change (2 ^ 32) with 4294967296 in *. change (2 ^ 64) with 18446744073709551616 in *.
  assert (0 ≤ v / 4294967296 < 4294967296) as Hq by lia. set (q := v / 4294967296) in *. assert (v = q * 4294967296 + v mod 4294967296) as Hv by lia.
  set (r := v mod 4294967296) in *. assert (0 ≤ r < 4294967296) as Hr by lia.
  assert (Z.lor (q * 4294967296) r = q * 4294967296 + r) as -> by (apply (lor_add 32); [lia|apply Z.mod_mul; lia|exact Hr]).
  replace ((q * 4294967296 + r) / 4294967296) with q by lia. replace ((q * 4294967296 + r) mod 4294967296) with r by lia.
  rewrite (wrap_small 64) by (split; [lia|]; change (2 ^ 64) with 18446744073709551616; lia).
  rewrite (lor_add 32); [lia|lia|apply Z.mod_mul; lia|exact Hr].
Qed.

Section timer_claims.
Context {W : Type} `{!PhysWindow W} (clock : tsc).

(** C29: no sleeper is overdue before the timer fires.  The handler of the timer interrupt arms the next deadline,
    signals the end of the interrupt and then ticks.  The deadline is at most a period after the last one, and
    with the calibrated clock, for ten years of up time and up to 18 GHz, the clock still reads less than the
    wake time of the next sleeper at every counter value before the deadline; where the deadline is the
    sleeper's own, the clock reads at least its wake time one tick later. *)
Theorem timer_never_oversleeps (next : apic W → option Z) (tick : M (apic W) unit) (s : apic W) wake :
  0 < tsc_freq clock ≤ 18000000000 → 0 ≤ boot_tsc clock → boot_tsc clock + 315360000 * tsc_freq clock < 2 ^ 64 →
  0 ≤ wake < 315360000 * 1000000000 →
  0 ≤ interrupt_deadline s → 0 ≤ interrupt_delta s → interrupt_deadline s + interrupt_delta s < 2 ^ 64 →
  (∀ d, next (with_deadline d (interrupt_delta s) s) = Some wake) →
  ∃ s1 deadline, apic_timer_handler clock next tick s = tick s1 ∧
    rdmsr IA32_TSC_DEADLINE (ap_cpu s1) = deadline ∧ interrupt_deadline s1 = deadline ∧ lapic_reg s1 LAPIC_EOI = 0 ∧
    deadline ≤ interrupt_deadline s + interrupt_delta s ∧
    (∀ t, clock_ok clock t → t < deadline → get_time_ns clock t < wake) ∧
    (∀ t, clock_ok clock t → deadline < interrupt_deadline s + interrupt_delta s → deadline < t → wake ≤ get_time_ns clock t).
Proof.
  intros Hf Hb He Hw H0 Hd Hlt Hnext. set (D := interrupt_deadline s + interrupt_delta s).
  pose proof (ns_to_raw_ticks_exact clock wake Hf Hb Hw He) as Hraw. set (R := ns_to_raw_ticks clock wake) in *.
  assert (is_word 64 R) as HR by (apply wrap_range; lia).
  set (d := if R <? D then R else D).
  set (s1 := with_deadline d (interrupt_delta s) s).
  set (s2 := with_lapic_reg (<[LAPIC_EOI := 0]> (lapic_reg s)) (with_ap_cpu (wrmsr IA32_TSC_DEADLINE d) s1)).
  exists s2, d. split.
  { unfold apic_timer_handler. set (sD := with_deadline D (interrupt_delta s) s).
    rewrite (bind_ok (modify _) _ s sD ()) by (unfold modify; by rewrite wrap_small by (unfold is_word; lia)).
    rewrite (bind_ok (gets next) _ sD sD (Some wake)) by (unfold gets, sD; by rewrite Hnext).
    rewrite (bind_ok _ _ sD s1 ()). 2:{ unfold modify. fold R. change (interrupt_deadline sD) with D. unfold s1, d. by destruct (R <? D). }
    rewrite (bind_ok (modify (λ s, with_ap_cpu (wrmsr IA32_TSC_DEADLINE (interrupt_deadline s)) s)) _ s1 (with_ap_cpu (wrmsr IA32_TSC_DEADLINE d) s1) () eq_refl).
     by rewrite (bind_ok send_eoi _ _ s2 () eq_refl). }
  split; [apply rdmsr_wrmsr; unfold d; destruct (R <? D); [done|unfold is_word; lia]|]. split; [done|].
  split; [cbn [s2 lapic_reg with_lapic_reg]; apply fn_lookup_insert|]. unfold d.
  destruct (Z.ltb_spec R D) as [HRD|HRD]; (split; [lia|split]).
  - intros t Ht Hlt'. by apply (wake_deadline_exact clock wake t).
  - intros t Ht _ Hlt'. by apply (wake_deadline_exact clock wake t).
  - intros t Ht Hlt'. apply (wake_deadline_exact clock wake t); [done..|]. fold R. lia.
  - intros t Ht Hc. lia.
Qed.
End timer_claims.

Lemma timer_never_oversleeps_witness :
  let clock := mk_tsc 5000000 3000000007 in
  let s := with_deadline 3004000000 3000000 demo_apic in
  ∃ s1 d, @apic_timer_handler _ clock (λ _, Some 1000000000) (mret ()) s = Ok (s1, ()) ∧
    rdmsr IA32_TSC_DEADLINE (ap_cpu s1) = d ∧ d ≤ 3007000000 ∧ (3005000006 < d → get_time_ns clock 3005000006 < 1000000000).
Proof.
  intros clock s. destruct (timer_never_oversleeps clock (λ _, Some 1000000000) (mret ()) s 1000000000)
    as (s1 & d & R & Hd & _ & _ & Hle & Hlt & _); try (cbn; lia).
  - reflexivity.
  - exists s1, d. split; [exact R|]. split; [exact Hd|]. split; [exact Hle|]. intros Hc. apply Hlt; [split; cbn; lia|exact Hc].
Defined.
