(* ===== verification/SmartPtr.v ===== *)
(** * Smart pointers

    [src/kernel/include/containers/kshared_ptr.hpp] and [kunique_ptr.hpp].  The state is the objects and the
    reference counters that are alive and the members of the pointer variables in scope; [new] takes a fresh
    address and [delete] of something not alive is a fault.  The constructors, assignments and destructors are
    computations on variables. *)

From S2P Require Import Prelude.

#[local] Coercion Z.of_nat : nat >-> Z.

(** A variable's [_data] and [_refs]; 0 is [nullptr]. *)
Record ptrs := mk_ptrs {
  objects : gset Z;
  refs : gmap Z Z;
  vars : gmap nat (Z * Z);
  fresh : Z;
}.
Definition with_vars (f : gmap nat (Z * Z) → gmap nat (Z * Z)) (s : ptrs) : ptrs :=
  mk_ptrs (objects s) (refs s) (f (vars s)) (fresh s).
Definition with_refs (f : gmap Z Z → gmap Z Z) (s : ptrs) : ptrs := mk_ptrs (objects s) (f (refs s)) (vars s) (fresh s).

Definition the_var (v : nat) : M ptrs (Z * Z) := x ← gets (λ s, vars s !! v); of_option x.
Definition set_var (v : nat) (x : Z * Z) : M ptrs unit := modify (with_vars (insert v x)).

Definition new_object : M ptrs Z :=
  d ← gets fresh;
  _ ← modify (λ s, mk_ptrs ({[d]} ∪ objects s) (refs s) (vars s) (d + 1));
  mret d.
Definition new_counter (n : Z) : M ptrs Z :=
  r ← gets fresh;
  _ ← modify (λ s, mk_ptrs (objects s) (<[r := n]> (refs s)) (vars s) (r + 1));
  mret r.
Definition delete_object (d : Z) : M ptrs unit :=
  alive ← gets (λ s, bool_decide (d ∈ objects s));
  if (alive : bool) then modify (λ s, mk_ptrs (objects s ∖ {[d]}) (refs s) (vars s) (fresh s)) else fault.
Definition delete_counter (r : Z) : M ptrs unit :=
  n ← gets (λ s, refs s !! r);
  _ ← of_option n;
  modify (with_refs (delete r)).
Definition load_counter (r : Z) : M ptrs Z := n ← gets (λ s, refs s !! r); of_option n.
(** The counter is a [katomic<int>]: [__atomic_add_fetch] wraps at 32 bits. *)
Definition add_counter (r n : Z) : M ptrs unit := c ← load_counter r; modify (with_refs (insert r (to_int (c + n)))).

(** ** [kshared_ptr] *)

Definition inc_refs (r : Z) : M ptrs unit := if r =? 0 then mret () else add_counter r 1.
Definition dec_refs (r : Z) : M ptrs unit := if r =? 0 then mret () else add_counter r (-1).
(** The variable's members afterwards are the result. *)
Definition destroy_if_no_refs (d r : Z) : M ptrs (Z * Z) :=
  if (d =? 0) || (r =? 0) then mret (d, r)
  else
    n ← load_counter r;
    if n =? 0 then _ ← delete_object d; _ ← delete_counter r; mret (0, 0) else mret (d, r).

Definition default_shared (v : nat) : M ptrs unit := set_var v (0, 0).
Definition make_kshared (v : nat) : M ptrs unit :=
  d ← new_object;
  r ← new_counter 1;
  set_var v (d, r).
Definition copy_shared (v other : nat) : M ptrs unit :=
  x ← the_var other;
  _ ← set_var v x;
  inc_refs x.2.
Definition move_shared (v other : nat) : M ptrs unit :=
  x ← the_var other;
  _ ← set_var v x;
  set_var other (0, 0).
Definition copy_assign_shared (v other : nat) : M ptrs unit :=
  if decide (v = other) then mret ()
  else
    x ← the_var other;
    _ ← set_var v x;
    inc_refs x.2.
Definition move_assign_shared (v other : nat) : M ptrs unit :=
  if decide (v = other) then mret ()
  else
    y ← the_var v;
    _ ← dec_refs y.2;
    y ← destroy_if_no_refs y.1 y.2;
    _ ← set_var v y;
    x ← the_var other;
    _ ← set_var v x;
    set_var other (0, 0).
Definition drop_shared (v : nat) : M ptrs unit :=
  y ← the_var v;
  _ ← dec_refs y.2;
  _ ← destroy_if_no_refs y.1 y.2;
  modify (with_vars (delete v)).

(** ** [kunique_ptr] *)

(** The variables of unique pointers have no counter. *)
Definition destroy_unique (v : nat) : M ptrs unit :=
  y ← the_var v;
  if y.1 =? 0 then mret () else _ ← delete_object y.1; set_var v (0, 0).
Definition default_unique (v : nat) : M ptrs unit := set_var v (0, 0).
Definition new_unique (v : nat) : M ptrs unit := d ← new_object; set_var v (d, 0).
Definition move_unique (v other : nat) : M ptrs unit :=
  x ← the_var other;
  _ ← set_var v x;
  set_var other (0, 0).
Definition move_assign_unique (v other : nat) : M ptrs unit :=
  if decide (v = other) then mret ()
  else
    _ ← destroy_unique v;
    x ← the_var other;
    _ ← set_var v x;
    set_var other (0, 0).
Definition reset_unique (v : nat) : M ptrs unit := destroy_unique v.
Definition drop_unique (v : nat) : M ptrs unit := _ ← destroy_unique v; modify (with_vars (delete v)).

(** ** Programs *)

Inductive ptr_op :=
| ODefault (v : nat)
| OMake (v : nat)
| OCopy (v other : nat)
| OMove (v other : nat)
| OCopyAssign (v other : nat)
| OMoveAssign (v other : nat)
| ODrop (v : nat).

Definition run_shared (o : ptr_op) : M ptrs unit :=
  match o with
  | ODefault v => default_shared v
  | OMake v => make_kshared v
  | OCopy v w => copy_shared v w
  | OMove v w => move_shared v w
  | OCopyAssign v w => copy_assign_shared v w
  | OMoveAssign v w => move_assign_shared v w
  | ODrop v => drop_shared v
  end.
(** A unique pointer has no copies: there the two operations do not compile. *)
Definition run_unique (o : ptr_op) : M ptrs unit :=
  match o with
  | ODefault v => default_unique v
  | OMake v => new_unique v
  | OMove v w => move_unique v w
  | OMoveAssign v w => move_assign_unique v w
  | ODrop v => drop_unique v
  | OCopy _ _ | OCopyAssign _ _ => fault
  end.

(** What the scoping of C++ guarantees: a constructor makes a variable that is not there yet, the others work on
    variables that are. *)
Definition in_scope (o : ptr_op) (s : ptrs) : Prop :=
  match o with
  | ODefault v | OMake v => vars s !! v = None
  | OCopy v w | OMove v w => vars s !! v = None ∧ is_Some (vars s !! w)
  | OCopyAssign v w | OMoveAssign v w => is_Some (vars s !! v) ∧ is_Some (vars s !! w)
  | ODrop v => is_Some (vars s !! v)
  end.

(** The states after [n] operations. *)
Inductive reached (run : ptr_op → M ptrs unit) : nat → ptrs → Prop :=
| reached_start : reached run 0 (mk_ptrs ∅ ∅ ∅ 1)
| reached_step n s o s' : reached run n s → in_scope o s → run o s = Ok (s', ()) → reached run (S n) s'.

(** ** Ownership *)

(** The variables that use a counter. *)
Definition users (r : Z) (m : gmap nat (Z * Z)) : nat := size (filter (λ kv, kv.2.2 = r) m).

Lemma users_insert r m v d r' : m !! v = None → users r (<[v := (d, r')]> m) = (users r m + if decide (r' = r) then 1 else 0)%nat.
Proof.
  intros Hv. unfold users. rewrite map_filter_insert. cbn [snd]. destruct (decide (r' = r)) as [-> |Hr].
  - rewrite map_size_insert_None; [lia|]. apply map_lookup_filter_None. by left.
  - rewrite delete_id by done. lia.
Qed.

Lemma users_delete r m v d r' : m !! v = Some (d, r') →
  (users r (delete v m) + if decide (r' = r) then 1 else 0)%nat = users r m.
Proof.
  intros Hv. rewrite <- (users_insert r (delete v m) v d r') by apply lookup_delete_eq. f_equal.
  rewrite insert_delete_eq. by apply insert_id.
Qed.

Lemma users_delete_le r m v : (users r (delete v m) ≤ users r m)%nat.
Proof.
  destruct (m !! v) as [[d r']|] eqn:Hv; [|by rewrite delete_id]. rewrite <- (users_delete r m v d r' Hv). lia.
Qed.

Lemma users_pos r m v d : m !! v = Some (d, r) → (1 ≤ users r m)%nat.
Proof. intros Hv. rewrite <- (users_delete r m v d r Hv). rewrite decide_True by done. lia. Qed.

(** The type of a heap with shared pointers: a variable is empty or has a live object and a live counter, of
    which it is the only pair, and no counter is below the number of its users. *)
Record typed (s : ptrs) : Prop := {
  ty_null v d r : vars s !! v = Some (d, r) → d = 0 ↔ r = 0;
  ty_live v d r : vars s !! v = Some (d, r) → r ≠ 0 → d ∈ objects s ∧ is_Some (refs s !! r);
  ty_count r n : refs s !! r = Some n → 1 ≤ n < 2 ^ 31 ∧ users r (vars s) ≤ n;
  ty_pair v v' d d' r r' : vars s !! v = Some (d, r) → vars s !! v' = Some (d', r') → r ≠ 0 → r = r' ↔ d = d';
  ty_fresh : 0 < fresh s;
  ty_objects d : d ∈ objects s → 0 < d < fresh s;
  ty_refs r : is_Some (refs s !! r) → 0 < r < fresh s;
}.

Lemma typed_delete v s : typed s → typed (with_vars (delete v) s).
Proof.
  intros [H1 H2 H3 H4 H5 H6 H7]. split; cbn [vars objects refs fresh with_vars]; try done.
  - intros u d r [_ Hu]%lookup_delete_Some. by eapply H1.
  - intros u d r [_ Hu]%lookup_delete_Some. by eapply H2.
  - intros r n Hr. destruct (H3 r n Hr). pose proof (users_delete_le r (vars s) v). lia.
  - intros u u' d d' r r' [_ Hu]%lookup_delete_Some [_ Hu']%lookup_delete_Some. by eapply H4.
Qed.

Lemma typed_null v s : typed s → vars s !! v = None → typed (with_vars (insert v (0, 0)) s).
Proof.
  intros [H1 H2 H3 H4 H5 H6 H7] Hv. split; cbn [vars objects refs fresh with_vars]; try done.
  - intros u d r [[_ [= <- <-]]|[_ Hu]]%lookup_insert_Some; [done|by eapply H1].
  - intros u d r [[_ [= <- <-]]|[_ Hu]]%lookup_insert_Some Hr; [done|by eapply H2].
  - intros r n Hr. rewrite users_insert by done. destruct (H3 r n Hr).
    assert (0 < r < fresh s) by (apply H7; by exists n). rewrite decide_False by lia. lia.
  - intros u u' d d' r r' [[_ [= <- <-]]|[_ Hu]]%lookup_insert_Some; [done|].
    intros [[_ [= <- <-]]|[_ Hu']]%lookup_insert_Some Hr; [|by eapply H4].
    split; intros ->; [done|]. by destruct (H1 _ _ _ Hu) as [Hd _]; rewrite Hd in Hr.
Qed.

(** No counter is above [b]. *)
Definition counters_below (b : Z) (s : ptrs) : Prop := ∀ r n, refs s !! r = Some n → n ≤ b.

(** A second variable for what [x] has, with the counter raised. *)
Lemma typed_copy v w x s b : typed s → counters_below b s → 0 ≤ b → b + 1 < 2 ^ 31 → vars s !! v = None → vars s !! w = Some x →
  ∃ s', inc_refs x.2 (with_vars (insert v x) s) = Ok (s', ()) ∧ typed s' ∧ counters_below (b + 1) s'.
Proof.
  intros Ht Hb Hb0 Hb1 Hv Hw. destruct x as [d r]. cbn [snd]. unfold inc_refs. destruct (Z.eqb_spec r 0) as [-> |Hr].
  - exists (with_vars (insert v (d, 0)) s). split; [done|].
    assert (d = 0) as -> by (by apply (ty_null s Ht w d 0 Hw)). split; [by apply typed_null|]. intros q m Hq. specialize (Hb q m Hq). lia.
  - destruct (ty_live s Ht w d r Hw Hr) as [Hd [n Hn]]. pose proof (Hb r n Hn) as Hnb.
    exists (with_refs (insert r (n + 1)) (with_vars (insert v (d, r)) s)). split.
    { unfold add_counter, load_counter. mrun. cbn [refs with_vars]. rewrite Hn.
      rewrite to_int_small; [done|]. destruct (ty_count s Ht r n Hn). lia. }
    split; [|intros q m; cbn [refs with_refs with_vars]; intros [[<- <-]|[_ Hm]]%lookup_insert_Some; [lia|specialize (Hb q m Hm); lia]].
    destruct Ht as [H1 H2 H3 H4 H5 H6 H7]. split; cbn [vars objects refs fresh with_vars with_refs]; try done.
    + intros u d' r' [[_ [= <- <-]]|[_ Hu]]%lookup_insert_Some; by eapply H1.
    + intros u d' r' [[_ [= <- <-]]|[_ Hu]]%lookup_insert_Some Hr'.
      * split; [done|]. apply lookup_insert_is_Some'. by left.
      * destruct (H2 u d' r' Hu Hr') as [? ?]. split; [done|]. apply lookup_insert_is_Some'. by right.
    + intros r' n'. rewrite users_insert by done. intros [[<- <-]|[Hne Hn']]%lookup_insert_Some.
      * destruct (H3 r n Hn). rewrite decide_True by done. lia.
      * destruct (H3 r' n' Hn'). rewrite decide_False by done. lia.
    + intros u u' e e' q q' Hu Hu' Hq.
      assert (∃ a, vars s !! a = Some (e, q)) as [a Ha].
      { apply lookup_insert_Some in Hu as [[_ [= <- <-]]|[_ Hu]]; by eexists. }
      assert (∃ a, vars s !! a = Some (e', q')) as [a' Ha'].
      { apply lookup_insert_Some in Hu' as [[_ [= <- <-]]|[_ Hu']]; by eexists. }
      by eapply H4.
    + intros q [Hq|Hq]%lookup_insert_is_Some'; [subst; apply H7; by exists n|by apply H7].
Qed.

(** The members of [w] in [v] instead, and [w] empty. *)
Lemma typed_move v w x s : typed s → vars s !! v = None → vars s !! w = Some x →
  typed (with_vars (λ m, <[w := (0, 0)]> (<[v := x]> m)) s).
Proof.
  intros Ht Hv Hw. assert (v ≠ w) as Hne by congruence. destruct x as [d r].
  assert (typed (with_vars (λ m, <[v := (d, r)]> (delete w m)) s)) as Hr.
  { destruct Ht as [H1 H2 H3 H4 H5 H6 H7].
    assert (∀ u y, <[v := (d, r)]> (delete w (vars s)) !! u = Some y → ∃ a, vars s !! a = Some y) as Hin.
    { intros u y [[_ <-]|[_ [_ Hu]%lookup_delete_Some]]%lookup_insert_Some; by eexists. }
    split; cbn [vars objects refs fresh with_vars]; try done.
    - intros u d' r' [a Ha]%Hin. by eapply H1.
    - intros u d' r' [a Ha]%Hin. by eapply H2.
    - intros q n Hq. rewrite users_insert by (apply lookup_delete_None; by right).
      rewrite (users_delete q (vars s) w d r Hw). by apply H3.
    - intros u u' e e' q q' [a Ha]%Hin [a' Ha']%Hin. by eapply H4. }
  apply (typed_null w) in Hr; [|cbn [vars with_vars]; rewrite lookup_insert_ne by done; apply lookup_delete_eq].
  replace (with_vars (λ m, <[w := (0, 0)]> (<[v := (d, r)]> m)) s) with
    (with_vars (insert w (0, 0)) (with_vars (λ m, <[v := (d, r)]> (delete w m)) s)); [done|].
  unfold with_vars. cbn [vars objects refs fresh]. f_equal. rewrite <- delete_insert_ne, insert_delete_eq by done. done.
Qed.

Lemma typed_make v s : typed s → vars s !! v = None → ∃ s', make_kshared v s = Ok (s', ()) ∧ typed s'.
Proof.
  intros [H1 H2 H3 H4 H5 H6 H7] Hv. set (f := fresh s) in *.
  exists (mk_ptrs ({[f]} ∪ objects s) (<[f + 1 := 1]> (refs s)) (<[v := (f, f + 1)]> (vars s)) (f + 2)). split.
  { unfold make_kshared, new_object, new_counter, set_var. mrun. cbn [fresh objects refs vars with_vars]. fold f.
    by replace (f + 1 + 1) with (f + 2) by lia. }
  assert (∀ u d r, vars s !! u = Some (d, r) → r ≠ 0 → 0 < d < f ∧ 0 < r < f) as Hlt.
  { intros u d r Hu Hr. destruct (H2 u d r Hu Hr) as [Hd Hn]. split; [by apply H6|by apply H7]. }
  assert (∀ u d r, vars s !! u = Some (d, r) → r = f + 1 ∨ d = f → False) as Hnew.
  { intros u d r Hu Hor. destruct (decide (r = 0)) as [-> |Hr].
    - assert (d = 0) by (by apply (H1 u d 0 Hu)). lia.
    - destruct (Hlt u d r Hu Hr). lia. }
  split; cbn [vars objects refs fresh]; try lia.
  - intros u d r [[_ [= <- <-]]|[_ Hu]]%lookup_insert_Some; [lia|by eapply H1].
  - intros u d r [[_ [= <- <-]]|[_ Hu]]%lookup_insert_Some Hr.
    + split; [set_solver|]. apply lookup_insert_is_Some'. by left.
    + destruct (H2 u d r Hu Hr). split; [set_solver|]. apply lookup_insert_is_Some'. by right.
  - intros r n. rewrite users_insert by done. intros [[<- <-]|[Hne Hn]]%lookup_insert_Some.
    + rewrite decide_True by done. split; [lia|]. assert (users (f + 1) (vars s) = 0%nat) as ->; [|lia].
      unfold users. apply map_size_empty_iff, map_empty. intros u. apply map_lookup_filter_None. right. intros [d r] Hu Hr.
      apply (Hnew u d r Hu). by left.
    + destruct (H3 r n Hn). rewrite decide_False by done. lia.
  - intros u u' d d' r r' [[_ [= <- <-]]|[_ Hu]]%lookup_insert_Some [[_ [= <- <-]]|[_ Hu']]%lookup_insert_Some Hr.
    + done.
    + split; intros <-; exfalso; by eapply Hnew; [exact Hu'|auto].
    + split; intros ->; exfalso; by eapply Hnew; [exact Hu|auto].
    + by eapply H4.
  - intros d [->%elem_of_singleton|Hd]%elem_of_union; [lia|]. specialize (H6 d Hd). lia.
  - intros r [Hr|Hr]%lookup_insert_is_Some'; [lia|]. specialize (H7 r Hr). lia.
Qed.

(** Giving up what a variable has: its object goes with its last user. *)
Definition release (y : Z * Z) : M ptrs (Z * Z) := _ ← dec_refs y.2; destroy_if_no_refs y.1 y.2.

Lemma typed_release v y s : typed s → vars s !! v = Some y →
  ∃ s' y', release y s = Ok (s', y') ∧ vars s' = vars s ∧ typed (with_vars (delete v) s') ∧
    ∀ b, counters_below b s → counters_below b s'.
Proof.
  intros Ht Hv. destruct y as [d r]. unfold release. cbn [fst snd]. destruct (decide (r = 0)) as [-> |Hr].
  { exists s, (d, 0). split; [|split; [done|split; [by apply typed_delete|done]]]. unfold dec_refs, destroy_if_no_refs. mrun.
    by rewrite orb_true_r. }
  destruct (ty_live s Ht v d r Hv Hr) as [Hd [n Hn]]. destruct (ty_count s Ht r n Hn) as [Hn1 Hun].
  assert (d ≠ 0) as Hd0 by (intros ->; by apply Hr, (ty_null s Ht v 0 r Hv)).
  set (s1 := with_refs (insert r (n - 1)) s).
  assert (dec_refs r s = Ok (s1, ())) as R1.
  { unfold dec_refs. rewrite (proj2 (Z.eqb_neq r 0)) by done. unfold add_counter, load_counter. mrun. rewrite Hn.
    by rewrite to_int_small by lia. }
  rewrite (bind_ok _ _ _ _ _ R1). unfold destroy_if_no_refs.
  rewrite (proj2 (Z.eqb_neq r 0)), (proj2 (Z.eqb_neq d 0)) by done. cbn [orb].
  rewrite (bind_ok (load_counter r) _ s1 s1 (n - 1)).
  2:{ unfold load_counter. mrun. cbn [s1 refs with_refs]. by rewrite lookup_insert_eq. }
  pose proof (users_delete r (vars s) v d r Hv) as Hdel. rewrite decide_True in Hdel by done.
  destruct (Z.eqb_spec (n - 1) 0) as [Hz|Hz].
  - exists (mk_ptrs (objects s ∖ {[d]}) (delete r (refs s)) (vars s) (fresh s)), (0, 0). split.
    { set (s2 := mk_ptrs (objects s ∖ {[d]}) (<[r := n - 1]> (refs s)) (vars s) (fresh s)).
      rewrite (bind_ok (delete_object d) _ s1 s2 ()).
      2:{ unfold delete_object, gets. mrun. change (objects s1) with (objects s). by rewrite bool_decide_true. }
      rewrite (bind_ok (delete_counter r) _ s2 (mk_ptrs (objects s ∖ {[d]}) (delete r (refs s)) (vars s) (fresh s)) ()); [done|].
      unfold delete_counter. mrun. cbn [s2 refs]. rewrite lookup_insert_eq. unfold with_refs. cbn [s2 objects refs vars fresh].
      by rewrite delete_insert_eq. }
    split; [done|]. split; [|intros b Hb q m; cbn [refs]; intros [_ Hm]%lookup_delete_Some; by apply (Hb q)].
    destruct Ht as [H1 H2 H3 H4 H5 H6 H7].
    assert (∀ u e q, delete v (vars s) !! u = Some (e, q) → q ≠ r) as Hother.
    { intros u e q Hu ->. pose proof (users_pos r _ u e Hu). lia. }
    split; cbn [vars objects refs fresh with_vars]; try done.
    + intros u e q [_ Hu]%lookup_delete_Some. by eapply H1.
    + intros u e q Hu Hq. pose proof (Hother u e q Hu) as Hqr. apply lookup_delete_Some in Hu as [_ Hu].
      destruct (H2 u e q Hu Hq) as [He Hn']. split.
      * apply elem_of_difference. split; [done|]. intros ->%elem_of_singleton. by apply Hqr, (H4 u v d d q r).
      * by rewrite lookup_delete_ne.
    + intros q m [Hqr Hm]%lookup_delete_Some. destruct (H3 q m Hm). pose proof (users_delete_le q (vars s) v). lia.
    + intros u u' e e' q q' [_ Hu]%lookup_delete_Some [_ Hu']%lookup_delete_Some. by eapply H4.
    + intros e [He _]%elem_of_difference. by apply H6.
    + intros q [m [_ Hm]%lookup_delete_Some]. apply H7. by exists m.
  - exists s1, (d, r). split; [done|]. split; [done|].
    split; [|intros b Hb q m; cbn [s1 refs with_refs]; intros [[<- <-]|[_ Hm]]%lookup_insert_Some; [specialize (Hb r n Hn); lia|by apply (Hb q)]].
    destruct (typed_delete v s Ht) as [H1 H2 H3 H4 H5 H6 H7].
    split; cbn [vars objects refs fresh with_vars s1 with_refs] in *; try done.
    + intros u e q Hu Hq. destruct (H2 u e q Hu Hq). split; [done|]. apply lookup_insert_is_Some'. by right.
    + intros q m [[<- <-]|[Hqr Hm]]%lookup_insert_Some; [lia|by apply H3].
    + intros q [Hq|Hq]%lookup_insert_is_Some'; [subst; apply H7; by exists n|by apply H7].
Qed.

(** ** Every operation keeps the type *)

Lemma run_shared_typed o s b : typed s → counters_below b s → 0 ≤ b → b + 1 < 2 ^ 31 → in_scope o s →
  ∃ s', run_shared o s = Ok (s', ()) ∧ typed s' ∧ counters_below (b + 1) s'.
Proof.
  intros Ht Hb Hb0 Hb1 Hs. assert (counters_below (b + 1) s) as Hb' by (intros r n Hn; specialize (Hb r n Hn); lia).
  destruct o as [v|v|v w|v w|v w|v w|v]; cbn [run_shared in_scope] in *.
  - exists (with_vars (insert v (0, 0)) s). split; [done|]. split; [by apply typed_null|done].
  - destruct (typed_make v s Ht Hs) as (s' & R & Ht'). exists s'. split; [done|]. split; [done|]. injection R as <-.
    intros r n; cbn [refs with_vars]; intros [[_ <-]|[_ Hn]]%lookup_insert_Some; [lia|by apply (Hb' r)].
  - destruct Hs as [Hv [x Hx]]. destruct (typed_copy v w x s b Ht Hb Hb0 Hb1 Hv Hx) as (s' & R & Ht'). exists s'. split; [|done].
    unfold copy_shared, the_var, set_var. mrun. by rewrite Hx.
  - destruct Hs as [Hv [x Hx]]. exists (with_vars (λ m, <[w := (0, 0)]> (<[v := x]> m)) s).
    split; [|split; [by apply typed_move|done]]. unfold move_shared, the_var, set_var. mrun. by rewrite Hx.
  - destruct Hs as [Hv [x Hx]]. unfold copy_assign_shared. case_decide as Hvw; [by exists s|].
    destruct (typed_copy v w x (with_vars (delete v) s) b) as (s' & R & Ht'); [by apply typed_delete|exact Hb|done|done|apply lookup_delete_eq|..].
    { cbn [vars with_vars]. by rewrite lookup_delete_ne. }
    exists s'. split; [|done]. unfold the_var, set_var. mrun. rewrite Hx. unfold with_vars in *. cbn [vars objects refs fresh] in *.
    by rewrite insert_delete_eq in R.
  - destruct Hs as [[y Hy] [x Hx]]. unfold move_assign_shared. case_decide as Hvw; [by exists s|].
    destruct (typed_release v y s Ht Hy) as (s1 & y' & R & Hvars & Ht1 & Hc).
    exists (with_vars (λ m, <[w := (0, 0)]> (<[v := x]> m)) s1). split; [|split; [|by apply Hc]].
    + rewrite (bind_ok (the_var v) _ s s y) by (unfold the_var; mrun; by rewrite Hy).
      unfold release in R. unfold mbind, M_bind in *. destruct (dec_refs y.2 s) as [[s0 []]| | |]; try done. rewrite R.
      unfold set_var, the_var. mrun. cbn [vars with_vars]. rewrite Hvars, lookup_insert_ne, Hx by done.
      unfold with_vars. cbn [vars objects refs fresh]. by rewrite insert_insert_eq.
    + apply (typed_move v w x) in Ht1; [|apply lookup_delete_eq|cbn [vars with_vars]; by rewrite lookup_delete_ne, Hvars].
      unfold with_vars in *. cbn [vars objects refs fresh] in *. by rewrite insert_delete_eq in Ht1.
  - destruct Hs as [y Hy]. destruct (typed_release v y s Ht Hy) as (s1 & y' & R & Hvars & Ht1 & Hc).
    exists (with_vars (delete v) s1). split; [|split; [done|by apply Hc]]. unfold drop_shared.
    rewrite (bind_ok (the_var v) _ s s y) by (unfold the_var; mrun; by rewrite Hy).
    unfold release in R. unfold mbind, M_bind in *. destruct (dec_refs y.2 s) as [[s0 []]| | |]; try done. by rewrite R.
Qed.

Lemma reached_typed n s : reached run_shared n s → n < 2 ^ 31 → typed s ∧ counters_below n s.
Proof.
  induction 1 as [|n s o s' _ IH Hs R]; intros Hn.
  - split; [|by intros r c]. split; cbn [vars objects refs fresh]; try done; try set_solver. by intros r [c Hc].
  - destruct IH as [Ht Hb]; [lia|]. destruct (run_shared_typed o s n Ht Hb) as (s1 & R1 & Ht' & Hb'); [lia|lia|done|].
    rewrite R1 in R. injection R as <-. split; [done|]. by replace (Z.of_nat (S n)) with (n + 1) by lia.
Qed.

(** Running a list of operations that are in scope. *)
Fixpoint run_all (run : ptr_op → M ptrs unit) (os : list ptr_op) (s : ptrs) : option ptrs :=
  match os with
  | [] => Some s
  | o :: os => match run o s with Ok (s', _) => run_all run os s' | _ => None end
  end.
Definition in_scopeb (o : ptr_op) (s : ptrs) : bool :=
  let here v := bool_decide (is_Some (vars s !! v)) in
  match o with
  | ODefault v | OMake v => negb (here v)
  | OCopy v w | OMove v w => negb (here v) && here w
  | OCopyAssign v w | OMoveAssign v w => here v && here w
  | ODrop v => here v
  end.
Fixpoint scoped_all (run : ptr_op → M ptrs unit) (os : list ptr_op) (s : ptrs) : bool :=
  match os with
  | [] => true
  | o :: os => in_scopeb o s && match run o s with Ok (s', _) => scoped_all run os s' | _ => false end
  end.

Lemma in_scopeb_spec o s : in_scopeb o s = true → in_scope o s.
Proof.
  destruct o; cbn [in_scopeb in_scope]; rewrite ?andb_true_iff, ?negb_true_iff, ?bool_decide_eq_true, ?bool_decide_eq_false;
    by rewrite <- ?eq_None_not_Some.
Qed.

Lemma run_all_reached run os : ∀ n s s', reached run n s → scoped_all run os s = true → run_all run os s = Some s' →
  reached run (length os + n) s'.
Proof.
  induction os as [|o os IH]; intros n s s' Hs Hsc Hr; cbn [run_all scoped_all length] in *; [by injection Hr as <-|].
  apply andb_true_iff in Hsc as [Ho Hsc]. destruct (run o s) as [[s1 []]| | |] eqn:E; try done.
  replace (S (length os) + n)%nat with (length os + S n)%nat by lia.
  apply (IH (S n) s1); [|done|done]. by apply (reached_step run n s o); [|apply in_scopeb_spec|].
Qed.

(** One object in two variables, and its counter at [c]. *)
Definition counted (c : Z) : ptrs := mk_ptrs {[1]} {[2 := c]} {[0%nat := (1, 2); 1%nat := (1, 2)]} 3.

Lemma counted_step c : run_shared (OCopyAssign 1 0) (counted c) = Ok (counted (to_int (c + 1)), ()).
Proof. done. Qed.

(** Assigning the same pointer over and over raises the counter without an end to what it was. *)
Lemma counted_reached (k : nat) : reached run_shared (k + 2) (counted (to_int (2 + k))).
Proof.
  induction k as [|k IH].
  - apply (run_all_reached run_shared [OMake 0; OCopy 1 0] 0 (mk_ptrs ∅ ∅ ∅ 1)); [apply reached_start|by vm_compute|done].
  - apply (reached_step run_shared (k + 2) (counted (to_int (2 + k))) (OCopyAssign 1 0)); [done|by split; eexists|].
    rewrite counted_step, to_int_add. by replace (2 + k + 1) with (2 + S k) by lia.
Qed.

(** C24: what the reference counts of [kshared_ptr] guarantee, and what not.  In every state reached with fewer
    than 2^31 constructors, assignments and destructors, in any order the scoping of variables allows, each
    variable is empty or has a live object and a live counter of its own, no counter is below the number of its
    users, and so the next operation touches and frees nothing that is not alive.  But a copy assignment does not
    release what its target had: there is a reachable state with a live object and no variable at all;
    and as the counter is a 32-bit [int] that repeated assignments raise without adding a user, there is one where
    the object of a variable has been freed, and the destructor of that variable is a use after free. *)
Theorem shared_pointers_typed :
  (∀ n s, reached run_shared n s → n < 2 ^ 31 → typed s ∧
     ∀ o, in_scope o s → n + 1 < 2 ^ 31 → ∃ s', run_shared o s = Ok (s', ()) ∧ typed s') ∧
  (∃ n s, reached run_shared n s ∧ vars s = ∅ ∧ objects s ≠ ∅) ∧
  (∃ n s d r, reached run_shared n s ∧ vars s !! 0%nat = Some (d, r) ∧ d ≠ 0 ∧ (d ∉ objects s) ∧ run_shared (ODrop 0) s = Fault).
Proof.
  split_and!.
  - intros n s Hs Hn. destruct (reached_typed n s Hs Hn) as [Ht Hb]. split; [done|]. intros o Ho Hn1.
    destruct (run_shared_typed o s n Ht Hb) as (s' & R & Ht' & _); [lia|done|done|]. by exists s'.
  - destruct (run_all run_shared [OMake 0; OMake 1; OCopyAssign 0 1; ODrop 0; ODrop 1] (mk_ptrs ∅ ∅ ∅ 1)) as [s|] eqn:E.
    + eexists _, s. split; [eapply run_all_reached; [apply reached_start| |exact E]; by vm_compute|].
      vm_compute in E. injection E as <-. split; [done|]. intros H. by apply (f_equal size) in H.
    + vm_compute in E. done.
  - pose proof (counted_reached (Z.to_nat (2 ^ 32 - 1))) as Hr. set (k := (Z.to_nat (2 ^ 32 - 1) + 2)%nat) in Hr.
    replace (to_int _) with 1 in Hr by (by rewrite Z2Nat.id).
    exists (S k), (mk_ptrs ∅ ∅ {[0%nat := (1, 2)]} 3), 1, 2. split; [|done].
    apply (reached_step run_shared k (counted 1) (ODrop 1)); [done|by eexists|]. by vm_compute.
Qed.

(** ** Unique pointers own their objects *)

Record owned (s : ptrs) : Prop := {
  ow_live v d r : vars s !! v = Some (d, r) → r = 0 ∧ (d = 0 ∨ d ∈ objects s);
  ow_one v v' d r r' : vars s !! v = Some (d, r) → vars s !! v' = Some (d, r') → d ≠ 0 → v = v';
  ow_owner d : d ∈ objects s → ∃ v, vars s !! v = Some (d, 0);
  ow_fresh : 0 < fresh s;
  ow_objects d : d ∈ objects s → 0 < d < fresh s;
}.

Lemma owned_null v s : owned s → vars s !! v = None → owned (with_vars (insert v (0, 0)) s).
Proof.
  intros [H1 H2 H3 H4 H5] Hv. split; cbn [vars objects fresh with_vars]; try done.
  - intros u d r [[_ [= <- <-]]|[_ Hu]]%lookup_insert_Some; [auto|by eapply H1].
  - intros u u' d r r' Hu Hu' Hd. apply lookup_insert_Some in Hu as [[_ ?]|[_ Hu]]; [congruence|].
    apply lookup_insert_Some in Hu' as [[_ ?]|[_ Hu']]; [congruence|]. by eapply H2.
  - intros d Hd. destruct (H3 d Hd) as [u Hu]. exists u. rewrite lookup_insert_ne; [done|]. by intros <-; rewrite Hv in Hu.
Qed.

Lemma owned_destroy v y s : owned s → vars s !! v = Some y →
  ∃ s', destroy_unique v s = Ok (s', ()) ∧ (∀ u, u ≠ v → vars s' !! u = vars s !! u) ∧ owned (with_vars (delete v) s').
Proof.
  intros [H1 H2 H3 H4 H5] Hv. destruct y as [d r]. destruct (H1 v d r Hv) as [-> Hd]. unfold destroy_unique.
  rewrite (bind_ok (the_var v) _ s s (d, 0)) by (unfold the_var; mrun; by rewrite Hv). cbn [fst].
  destruct (Z.eqb_spec d 0) as [-> |Hd0].
  - exists s. split; [done|]. split; [done|]. split; cbn [vars objects fresh with_vars]; try done.
    + intros u e q [_ Hu]%lookup_delete_Some. by eapply H1.
    + intros u u' e q q' [_ Hu]%lookup_delete_Some [_ Hu']%lookup_delete_Some. by eapply H2.
    + intros e He. destruct (H3 e He) as [u Hu]. exists u. rewrite lookup_delete_ne; [done|].
      intros <-. rewrite Hv in Hu. injection Hu as <-. specialize (H5 0 He). lia.
  - destruct Hd as [?|Hd]; [done|].
    exists (mk_ptrs (objects s ∖ {[d]}) (refs s) (<[v := (0, 0)]> (vars s)) (fresh s)). split.
    { unfold delete_object, set_var. mrun. by rewrite bool_decide_true. }
    cbn [vars]. split; [intros u Hu; by rewrite lookup_insert_ne|].
    unfold with_vars. cbn [vars objects fresh refs]. rewrite delete_insert_eq. split; cbn [vars objects fresh]; try done.
    + intros u e q [Hne Hu]%lookup_delete_Some. destruct (H1 u e q Hu) as [-> [?|He]]; [auto|]. split; [done|].
      destruct (decide (e = 0)); [by left|right]. apply elem_of_difference. split; [done|].
      intros ->%elem_of_singleton. by apply Hne, (H2 v u d 0 0).
    + intros u u' e q q' [_ Hu]%lookup_delete_Some [_ Hu']%lookup_delete_Some. by eapply H2.
    + intros e [He Hne]%elem_of_difference. destruct (H3 e He) as [u Hu]. exists u. rewrite lookup_delete_ne; [done|].
      intros <-. rewrite Hv in Hu. injection Hu as <-. by apply Hne, elem_of_singleton.
    + intros e [He _]%elem_of_difference. by apply H5.
Qed.

Lemma owned_move v w x s : owned s → vars s !! v = None → vars s !! w = Some x →
  owned (with_vars (λ m, <[w := (0, 0)]> (<[v := x]> m)) s).
Proof.
  intros [H1 H2 H3 H4 H5] Hv Hw. assert (v ≠ w) as Hne by congruence. destruct x as [d0 r0].
  assert (∀ u d r, <[w := (0, 0)]> (<[v := (d0, r0)]> (vars s)) !! u = Some (d, r) → d ≠ 0 →
    ∃ a, vars s !! a = Some (d, r) ∧ (u = v ∧ a = w ∨ u ≠ v ∧ u ≠ w ∧ a = u)) as Hin.
  { intros u d r [[<- [= <- <-]]|[Hu [[<- [= <- <-]]|[Hu' Hl]]%lookup_insert_Some]]%lookup_insert_Some Hd; [done|by exists w; auto|].
    exists u. auto. }
  split; cbn [vars objects fresh with_vars]; try done.
  - intros u d r Hu. destruct (decide (d = 0)) as [-> |Hd].
    + split; [|auto]. apply lookup_insert_Some in Hu as [[_ [= <-]]|[_ [[_ [= -> <-]]|[_ Hu]]%lookup_insert_Some]];
        [done|by apply (H1 w _ _ Hw)|by apply (H1 u _ _ Hu)].
    + destruct (Hin u d r Hu Hd) as (a & Ha & _). by apply (H1 a).
  - intros u u' d r r' Hu Hu' Hd. destruct (Hin u d r Hu Hd) as (a & Ha & Ca). destruct (Hin u' d r' Hu' Hd) as (a' & Ha' & Ca').
    pose proof (H2 a a' d r r' Ha Ha' Hd) as Haa. destruct Ca as [[? ?]|(? & ? & ?)], Ca' as [[? ?]|(? & ? & ?)]; congruence.
  - intros d Hd. destruct (H3 d Hd) as [u Hu]. specialize (H5 d Hd). destruct (decide (u = w)) as [-> |Huw].
    + exists v. rewrite Hw in Hu. injection Hu as -> ->. by rewrite lookup_insert_ne, lookup_insert_eq.
    + exists u. rewrite !lookup_insert_ne; [done|by intros <-; rewrite Hv in Hu|done].
Qed.

Definition no_copy (o : ptr_op) : Prop := match o with OCopy _ _ | OCopyAssign _ _ => False | _ => True end.

Lemma run_unique_owned o s : owned s → in_scope o s → no_copy o → ∃ s', run_unique o s = Ok (s', ()) ∧ owned s'.
Proof.
  intros Ho Hs Hn. destruct o as [v|v|v w|v w|v w|v w|v]; cbn [run_unique in_scope no_copy] in *; try done.
  - exists (with_vars (insert v (0, 0)) s). split; [done|by apply owned_null].
  - eexists. split; [reflexivity|]. destruct Ho as [H1 H2 H3 H4 H5]. split; cbn [vars objects fresh with_vars]; try lia.
    + intros u d r [[_ [= <- <-]]|[_ Hu]]%lookup_insert_Some; [set_solver|]. destruct (H1 u d r Hu). set_solver.
    + intros u u' d r r' Hu Hu' Hd. apply lookup_insert_Some in Hu as [[-> [= <- <-]]|[Hne Hu]];
        apply lookup_insert_Some in Hu' as [[-> Hu']|[Hne' Hu']].
      * done.
      * destruct (H1 _ _ _ Hu') as [_ [?|Hin]]; [lia|]. specialize (H5 _ Hin). lia.
      * injection Hu' as <- <-. destruct (H1 _ _ _ Hu) as [_ [?|Hin]]; [lia|]. specialize (H5 _ Hin). lia.
      * by eapply H2.
    + intros d [->%elem_of_singleton|Hd]%elem_of_union; [exists v; by rewrite lookup_insert_eq|].
      destruct (H3 d Hd) as [u Hu]. exists u. rewrite lookup_insert_ne; [done|]. by intros <-; rewrite Hs in Hu.
    + intros d [->%elem_of_singleton|Hd]%elem_of_union; [lia|]. specialize (H5 d Hd). lia.
  - destruct Hs as [Hv [x Hx]]. exists (with_vars (λ m, <[w := (0, 0)]> (<[v := x]> m)) s). split; [|by apply owned_move].
    unfold move_unique, the_var, set_var. mrun. by rewrite Hx.
  - destruct Hs as [[y Hy] [x Hx]]. unfold move_assign_unique. case_decide as Hvw; [by exists s|].
    destruct (owned_destroy v y s Ho Hy) as (s1 & R & Hvars & Ho1).
    exists (with_vars (λ m, <[w := (0, 0)]> (<[v := x]> m)) s1). split.
    + rewrite (bind_ok _ _ _ _ _ R). unfold set_var, the_var. mrun. by rewrite Hvars, Hx by done.
    + apply (owned_move v w x) in Ho1; [|apply lookup_delete_eq|cbn [vars with_vars]; by rewrite lookup_delete_ne, Hvars].
      unfold with_vars in *. cbn [vars objects refs fresh] in *. by rewrite insert_delete_eq in Ho1.
  - destruct Hs as [y Hy]. destruct (owned_destroy v y s Ho Hy) as (s1 & R & Hvars & Ho1).
    exists (with_vars (delete v) s1). split; [|done]. unfold drop_unique. by rewrite (bind_ok _ _ _ _ _ R).
Qed.

(** Unique pointers own.  In every state a program can reach with the operations of [kunique_ptr] the live
    objects are exactly the ones some variable has, and no object has two; so nothing leaks and no operation
    frees an object that is not alive. *)
Theorem unique_pointers_own n s : reached run_unique n s →
  (∀ d, d ∈ objects s ↔ d ≠ 0 ∧ ∃ v r, vars s !! v = Some (d, r)) ∧
  (∀ v v' d r r', vars s !! v = Some (d, r) → vars s !! v' = Some (d, r') → d ≠ 0 → v = v') ∧
  (∀ o, in_scope o s → no_copy o → ∃ s', run_unique o s = Ok (s', ())).
Proof.
  intros Hs. assert (owned s) as Ho.
  { induction Hs as [|n s o s' _ IH Hsc R]; [split; cbn [vars objects fresh]; done || set_solver|].
    assert (no_copy o) as Hn by (by destruct o). destruct (run_unique_owned o s IH Hsc Hn) as (s1 & R1 & Ht).
    rewrite R1 in R. by injection R as <-. }
  split; [|split].
  - intros d. split.
    + intros Hd. destruct (ow_owner s Ho d Hd) as [v Hv]. specialize (ow_objects s Ho d Hd). split; [lia|]. by exists v, 0.
    + intros (Hd & v & r & Hv). by destruct (ow_live s Ho v d r Hv) as [_ [?|?]].
  - apply (ow_one s Ho).
  - intros o Hsc Hn. destruct (run_unique_owned o s Ho Hsc Hn) as (s' & R & _). by exists s'.
Qed.

Lemma unique_pointers_own_witness : ∃ s, reached run_unique 2 s ∧ vars s !! 1%nat = Some (1, 0) ∧ 1 ∈ objects s.
Proof.
  destruct (run_all run_unique [OMake 0; OMove 1 0] (mk_ptrs ∅ ∅ ∅ 1)) as [s|] eqn:E; [|vm_compute in E; discriminate].
  assert (reached run_unique 2 s) as Hs by (eapply (run_all_reached run_unique [OMake 0; OMove 1 0] 0); [apply reached_start| |exact E]; vm_compute; reflexivity).
  assert (vars s !! 1%nat = Some (1, 0)) as Hv by (vm_compute in E; injection E as <-; vm_compute; reflexivity).
  exists s. split; [exact Hs|]. split; [exact Hv|]. apply (unique_pointers_own 2 s Hs).
  split; [discriminate|]. exists 1%nat, 0. exact Hv.
Defined.
