(* ===== verification/Kmutex.v ===== *)
(** * The blocking mutex

    [src/kernel/lib/exclusive/kmutex.cpp]: the atomic steps of [kmutex::lock] and [kmutex::unlock] by any number
    of processes, in any interleaving the scheduler's preemption can produce.  Blocking on the mutex and waking
    its waiters are [yield_mutex] and [wake_mutex] of [Scheduler.v], here the two transitions between a process
    that waits and one that runs. *)

From stdpp Require Import functions.
From S2P Require Import Prelude.

(** A process is outside, at the [exchange] of [lock], past a failed one and before [yield_mutex], blocked, in
    the critical section, or in [unlock] between the [store] and [wake_mutex]. *)
Inductive mutex_pc := Outside | Trying | Failed | Waiting | Holding | Waking.
#[global] Instance mutex_pc_eq_dec : EqDecision mutex_pc.
Proof. solve_decision. Defined.

Record kmutex := mk_kmutex { _lock : Z; procs_at : nat → mutex_pc }.
Definition new_kmutex : kmutex := mk_kmutex 1 (λ _, Outside).

(** [_lock.exchange(0) == 1] *)
Definition exchange_0 (s : kmutex) : kmutex * bool := (mk_kmutex 0 (procs_at s), _lock s =? 1).
Definition at_pc (i : nat) (pc : mutex_pc) (s : kmutex) : kmutex := mk_kmutex (_lock s) (<[i := pc]> (procs_at s)).
(** One round of the loop of [lock]: taken, or on the way to [yield_mutex]. *)
Definition lock_round (i : nat) (s : kmutex) : kmutex :=
  let '(s, got) := exchange_0 s in at_pc i (if got : bool then Holding else Failed) s.
Definition unlock_store (i : nat) (s : kmutex) : kmutex := at_pc i Waking (mk_kmutex 1 (procs_at s)).
(** [wake_mutex]: every process blocked on the mutex goes round its loop again. *)
Definition wake_waiters (s : kmutex) : kmutex :=
  mk_kmutex (_lock s) (λ j, if decide (procs_at s j = Waiting) then Trying else procs_at s j).

Inductive mutex_step (i : nat) (s : kmutex) : kmutex → Prop :=
| ms_call : procs_at s i = Outside → mutex_step i s (at_pc i Trying s)
| ms_exchange : procs_at s i = Trying → mutex_step i s (lock_round i s)
| ms_yield : procs_at s i = Failed → mutex_step i s (at_pc i Waiting s)
| ms_store : procs_at s i = Holding → mutex_step i s (unlock_store i s)
| ms_wake : procs_at s i = Waking → mutex_step i s (at_pc i Outside (wake_waiters s)).

Inductive mutex_reached : kmutex → Prop :=
| mr_start : mutex_reached new_kmutex
| mr_step i s s' : mutex_reached s → mutex_step i s s' → mutex_reached s'.

(** The lock word is 0 or 1; it is 0 while someone holds the mutex, and at most one process does. *)
Record mutex_ok (s : kmutex) : Prop := {
  mo_word : _lock s = 0 ∨ _lock s = 1;
  mo_held i : procs_at s i = Holding → _lock s = 0;
  mo_one i j : procs_at s i = Holding → procs_at s j = Holding → i = j;
  mo_free : _lock s = 0 → ∃ i, procs_at s i = Holding;
}.

Lemma at_pc_lookup i pc s j : procs_at (at_pc i pc s) j = if decide (i = j) then pc else procs_at s j.
Proof. cbn. case_decide; subst; [apply fn_lookup_insert|by apply fn_lookup_insert_ne]. Qed.

(** A step of a process that neither takes nor gives up the mutex. *)
Lemma mutex_ok_other i pc s : pc ≠ Holding → procs_at s i ≠ Holding → mutex_ok s → mutex_ok (at_pc i pc s).
Proof.
  intros Hpc Hi [H1 H2 H3 H4]. split; [done|..].
  - intros j. rewrite at_pc_lookup. case_decide; [done|apply H2].
  - intros j k. rewrite !at_pc_lookup. do 2 case_decide; try done. apply H3.
  - intros H0. destruct (H4 H0) as [j Hj]. exists j. rewrite at_pc_lookup. by case_decide; subst.
Qed.

Lemma mutex_step_ok i s s' : mutex_ok s → mutex_step i s s' → mutex_ok s'.
Proof.
  intros Hok Hst. destruct Hst as [Hi|Hi|Hi|Hi|Hi].
  - apply mutex_ok_other; [done|by rewrite Hi|done].
  - unfold lock_round, exchange_0. destruct Hok as [H1 H2 H3 H4]. destruct (Z.eqb_spec (_lock s) 1) as [Hl|Hl].
    + assert (∀ j, procs_at s j ≠ Holding) as Hno by (intros j Hj; specialize (H2 j Hj); lia). split.
      * by left.
      * done.
      * intros j k. rewrite !at_pc_lookup. do 2 case_decide; subst; try done; intros Hj Hk; exfalso; (eapply Hno, Hj || eapply Hno, Hk).
      * intros _. exists i. rewrite at_pc_lookup. by rewrite decide_True.
    + assert (_lock s = 0) as H0 by (destruct H1; lia).
      apply (mutex_ok_other i Failed (mk_kmutex 0 (procs_at s))); [done|by cbn; rewrite Hi|]. split; [by left|done|done|auto].
  - apply mutex_ok_other; [done|by rewrite Hi|done].
  - destruct Hok as [H1 H2 H3 H4].
    assert (∀ j, procs_at (unlock_store i s) j ≠ Holding) as Hno.
    { intros j. unfold unlock_store. rewrite at_pc_lookup. case_decide as Hij; [done|]. cbn. intros Hj. by apply Hij, H3. }
    split; [by right|..].
    + intros j Hj. by destruct (Hno j).
    + intros j k Hj. by destruct (Hno j).
    + intros H0. by cbn in H0.
  - apply mutex_ok_other; [done|cbn; by rewrite Hi|]. destruct Hok as [H1 H2 H3 H4].
    assert (∀ j, procs_at (wake_waiters s) j = Holding ↔ procs_at s j = Holding) as Hiff.
    { intros j. cbn. case_decide as Hj; [rewrite Hj|]; done. }
    split; [done|..].
    + intros j Hj%Hiff. by eapply H2.
    + intros j k Hj%Hiff Hk%Hiff. by apply H3.
    + intros H0. destruct (H4 H0) as [j Hj]. exists j. by apply Hiff.
Qed.

(** Process 0 takes the mutex; process 1 fails to, and is preempted before it blocks; process 0 releases the
    mutex and wakes nobody; process 1 blocks. *)
Lemma lost_wakeup : ∃ s, mutex_reached s ∧ _lock s = 1 ∧ procs_at s 1%nat = Waiting ∧ ∀ j, j ≠ 1%nat → procs_at s j = Outside.
Proof.
  eexists. split.
  - refine (mr_step 1 _ _ (mr_step 0 _ _ (mr_step 0 _ _ (mr_step 1 _ _ (mr_step 1 _ _ (mr_step 0 _ _ (mr_step 0 _ _
      mr_start (ms_call 0 _ _)) (ms_exchange 0 _ _)) (ms_call 1 _ _)) (ms_exchange 1 _ _)) (ms_store 0 _ _))
      (ms_wake 0 _ _)) (ms_yield 1 _ _)); reflexivity.
  - split; [done|]. split; [done|]. intros j Hj. by destruct j as [|[|j]].
Qed.

(** C25: the mutex excludes, but can lose a wakeup.  In every interleaving of the steps of [lock] and [unlock] the
    lock word is 0 exactly while a process holds the mutex, and never two hold it.  But there is an
    interleaving after which the mutex is free and a process is blocked on it with no other process in
    [lock] or [unlock]: nobody is left to wake it. *)
Theorem kmutex_excludes_but_loses_wakeups :
  (∀ s, mutex_reached s → (_lock s = 0 ↔ ∃ i, procs_at s i = Holding) ∧
     ∀ i j, procs_at s i = Holding → procs_at s j = Holding → i = j) ∧
  (∃ s, mutex_reached s ∧ _lock s = 1 ∧ procs_at s 1%nat = Waiting ∧ ∀ j, j ≠ 1%nat → procs_at s j = Outside).
Proof.
  split; [|exact lost_wakeup]. intros s Hs. assert (mutex_ok s) as [H1 H2 H3 H4].
  { induction Hs as [|i s s' _ IH Hst]; [|by eapply mutex_step_ok]. split; [by right|done..]. }
  split; [|done]. split; [done|]. by intros [i Hi%H2].
Qed.
