(* ===== verification/Syscall.v ===== *)
(** * The system-call dispatcher and the calls on processes

    [syscall_dispatcher] of [src/kernel/arch/x64/trap/syscall_entry.cpp] and the calls of
    [src/kernel/lib/syscall] that work on processes and their memory: [sys_proc.cpp], [sys_sleep.cpp],
    [sys_prctl.cpp], [sys_thread.cpp] and those of [sys_mem.cpp] in [Exec.v].  The state is the scheduler with
    the virtual memory manager below it, and the words of the kernel stacks.

    The calls on files are those of [SysFd.v], whose state is the file system: the dispatcher gets them, and
    [sys_execve], which starts by reading a file, as an argument.  [Return] with a value is the return of the
    dispatcher, [Switch] the end of the call's first part on the CPU. *)

From S2P Require Import Prelude Bytes Cpu Spinlock Pmm Vmm VmmTree VmmProofs VmmFree VmmSpace VmmTheorems.
From S2P Require Import KVector KHeap KList Process SchedInv Scheduler SchedProofs SchedOps UserSpace Elf Exec.

#[local] Coercion Z.of_nat : nat >-> Z.

(** [int] from a register. *)
Definition as_int (z : Z) : Z := let w := wrap32 z in if w <? 2 ^ 31 then w else w - 2 ^ 32.

(** The calls with their arguments as the handlers see them. *)
Inductive call :=
| SysRead (fd buffer count : Z)
| SysWrite (fd buffer count : Z)
| SysOpen (path flags : Z)
| SysClose (fd : Z)
| SysStat (path stat : Z)
| SysFstat (fd stat : Z)
| SysLseek (fd offset whence : Z)
| SysPause
| SysNanosleep (ns : Z)
| SysGetpid
| SysMmap (addr length prot flags fd offset : Z)
| SysMunmap (addr length : Z)
| SysIoctl (fd request arg : Z)
| SysReadv (fd iov iovcnt : Z)
| SysWritev (fd iov iovcnt : Z)
| SysBrk (addr : Z)
| SysExit (status : Z)
| SysGetcwd (buffer size : Z)
| SysChdir (path : Z)
| SysMkdir (path mode : Z)
| SysArchPrctl (code addr : Z)
| SysSetTidAddress (tidptr : Z)
| SysFchdir (fd : Z)
| SysFcntl (fd cmd arg : Z)
| SysGetdents64 (fd buffer count : Z)
| SysFork
| SysVfork
| SysWait4 (pid wstatus options unused : Z)
| SysExecve (path argv envp : Z).

(** The [switch] of the dispatcher. *)
Definition decode_call (num arg1 arg2 arg3 arg4 arg5 arg6 : Z) : option call :=
  match num with
  | 0 => Some (SysRead (as_int arg1) arg2 arg3)
  | 1 => Some (SysWrite (as_int arg1) arg2 arg3)
  | 2 => Some (SysOpen arg1 (as_int arg2))
  | 3 => Some (SysClose (as_int arg1))
  | 4 => Some (SysStat arg1 arg2)
  | 5 => Some (SysFstat (as_int arg1) arg2)
  | 8 => Some (SysLseek (as_int arg1) arg2 (as_int arg3))
  | 34 => Some SysPause
  | 35 => Some (SysNanosleep arg1)
  | 39 => Some SysGetpid
  | 9 => Some (SysMmap arg1 arg2 (as_int arg3) (as_int arg4) (as_int arg5) arg6)
  | 11 => Some (SysMunmap arg1 arg2)
  | 16 => Some (SysIoctl (as_int arg1) arg2 arg3)
  | 19 => Some (SysReadv (as_int arg1) arg2 (as_int arg3))
  | 20 => Some (SysWritev (as_int arg1) arg2 (as_int arg3))
  | 12 => Some (SysBrk arg1)
  | 60 | 231 => Some (SysExit (as_int arg1))
  | 79 => Some (SysGetcwd arg1 arg2)
  | 80 => Some (SysChdir arg1)
  | 83 => Some (SysMkdir arg1 (as_int arg2))
  | 158 => Some (SysArchPrctl (as_int arg1) arg2)
  | 218 => Some (SysSetTidAddress arg1)
  | 81 => Some (SysFchdir (as_int arg1))
  | 72 => Some (SysFcntl (as_int arg1) (wrap32 arg2) arg3)
  | 217 => Some (SysGetdents64 (as_int arg1) arg2 (wrap32 arg3))
  | 57 => Some SysFork
  | 58 => Some SysVfork
  | 61 => Some (SysWait4 (as_int arg1) arg2 (as_int arg3) arg4)
  | 59 => Some (SysExecve arg1 arg2 0)
  | _ => None
  end.

Definition ENOSYS : Z := 38.
Definition ARCH_SET_FS : Z := 0x1002.
Definition ARCH_GET_FS : Z := 0x1003.

Definition with_syscall_frame (frame : Z) (p : Process) : Process :=
  with_frames (p_kernel_rsp p) (kernel_rsp_saved p) (context_frame p) frame p.
Definition with_fs (fs : Z) (p : Process) : Process := with_start (p_user_rsp p) (entry p) fs (tidptr p) p.
Definition with_tid (tid : Z) (p : Process) : Process := with_start (p_user_rsp p) (entry p) (fs_base p) tid p.

Section calls.
Context {P : Type} `{!SchedulerPolicy P}.
(** The clock and the nodes of the process list as for the scheduler; where the stack pointer of the caller is
    when it gives up the CPU; and what [fork] gets from the allocator and from [g_pid]. *)
Context (new_addr : gmap Z (lnode Z) → Z) (time : nat → Z) (rsp : Z).
Context (forked_entry : Z) (g : Process) (new_pid new_stack new_object : Z).

Record ksys := mk_ksys {
  k_sched : sched (P := P);
  k_stacks : gmap Z Z;
}.

Context (elsewhere : call → M ksys (control * option Z)).

Definition in_sched {A} (m : M sched A) : M ksys A := zoom k_sched (λ s k, mk_ksys s (k_stacks k)) m.
(** A method of the process [this]. *)
Definition in_process {A} (this : Z) (m : M exec A) : M ksys A :=
  d ← in_sched (proc this);
  zoom (λ k, mk_exec (sc_vm (k_sched k)) d (k_stacks k))
    (λ x k, mk_ksys (with_procs (insert this (x_proc x)) (with_vm (x_vm x) (k_sched k))) (x_stack x)) m.

Definition returns (m : M ksys Z) : M ksys (control * option Z) := v ← m; mret (Return, Some v).
Definition switches (m : M ksys control) (v : Z) : M ksys (control * option Z) := c ← m; mret (c, Some v).

(** ** The calls *)

Definition sys_getpid : M ksys Z :=
  this ← in_sched (in_cpu current_process);
  d ← in_sched (proc this);
  mret (pid d).

Definition sys_fork : M ksys Z :=
  this ← in_sched (in_cpu current_process);
  forked ← in_process this (fork this forked_entry g new_pid new_stack);
  _ ← in_sched (spawn new_addr new_object forked);
  mret (pid forked).

Definition sys_vfork : M ksys Z := mret (-1).

Definition sys_wait4 (child : Z) : M ksys (control * option Z) := in_sched (yield_to_child time rsp child).

Definition sys_exit (status : Z) : M ksys control :=
  this ← in_sched (in_cpu current_process);
  _ ← in_sched (update this (with_exit_status status));
  in_sched (yield_zombie time).

Definition sys_pause : M ksys control := in_sched (yield_blocked time rsp SIGNAL).
Definition sys_sleep_ns (ns : Z) : M ksys control := in_sched (yield_sleep_ns time rsp ns).

Definition sys_arch_prctl (code addr : Z) : M ksys Z :=
  this ← in_sched (in_cpu current_process);
  if code =? ARCH_SET_FS then
    _ ← in_sched (set_fs_base addr);
    _ ← in_sched (update this (with_fs addr));
    mret 0
  else if code =? ARCH_GET_FS then d ← in_sched (proc this); mret (fs_base d)
  else mret 0.

Definition sys_set_tid_address (tidptr : Z) : M ksys Z :=
  this ← in_sched (in_cpu current_process);
  _ ← in_sched (update this (with_tid tidptr));
  d ← in_sched (proc this);
  mret (pid d).

Definition current_memory (m : M exec Z) : M ksys Z :=
  this ← in_sched (in_cpu current_process);
  in_process this m.

(** The value a call that was switched away returns when it runs again; [sys_exit] does not. *)
Definition serve (c : call) : M ksys (control * option Z) :=
  match c with
  | SysPause => switches sys_pause 0
  | SysNanosleep ns => switches (sys_sleep_ns ns) 0
  | SysGetpid => returns sys_getpid
  | SysMmap _ length _ flags _ _ => returns (current_memory (sys_mmap length flags))
  | SysMunmap addr length => returns (current_memory (sys_munmap addr length))
  | SysBrk addr => returns (current_memory (sys_brk addr))
  | SysExit status => c ← sys_exit status; mret (c, None)
  | SysArchPrctl code addr => returns (sys_arch_prctl code addr)
  | SysSetTidAddress tidptr => returns (sys_set_tid_address tidptr)
  | SysFork => returns sys_fork
  | SysVfork => returns sys_vfork
  | SysWait4 child _ _ _ => sys_wait4 child
  | _ => elsewhere c
  end.

(** Members of the [SyscallFrame] at [frame], by the number of their word. *)
Definition frame_word (frame i : Z) : M ksys Z :=
  w ← gets (λ k, k_stacks k !! (frame + 8 * i)); of_option w.

Definition syscall_dispatcher (frame : Z) : M ksys (control * option Z) :=
  this ← in_sched (in_cpu current_process);
  _ ← in_sched (update this (with_syscall_frame frame));
  num ← frame_word frame 14;
  arg1 ← frame_word frame 9;
  arg2 ← frame_word frame 10;
  arg3 ← frame_word frame 11;
  arg4 ← frame_word frame 5;
  arg5 ← frame_word frame 7;
  arg6 ← frame_word frame 6;
  match decode_call num arg1 arg2 arg3 arg4 arg5 arg6 with
  | Some c => serve c
  | None => mret (Return, Some (- ENOSYS))
  end.
End calls.
