(* ===== verification/SyscallProofs.v ===== *)
(** * System calls on processes: theorems

    The dispatcher of [Syscall.v] on top of the scheduler's invariant: [fork] leaves a child that is a copy of
    the caller and is scheduled, and the status of [exit] reaches the parent that waits. *)

From S2P Require Import Prelude Bytes Cpu Spinlock Pmm Vmm VmmTree VmmProofs VmmFree VmmSpace VmmClone VmmTheorems.
From S2P Require Import KVector KHeap KList Process SchedInv Scheduler SchedProofs SchedOps SchedTheorems SchedClaims.
From S2P Require Import UserSpace Elf Exec ExecProofs ForkProofs Syscall.

#[local] Coercion Z.of_nat : nat >-> Z.

(** ** Address spaces *)

(** The address space of a new process beside those there are. *)
Lemma spaces_ok_add v v' m p c q : spaces_ok v m → sys_ok v' (plus_root (user_root v m) q) → ¬ user_root v m q →
  hhdm_offset v' = hhdm_offset v → kernel_pml4 v' = kernel_pml4 v → m !! p = None → pml4 c = hhdm_ptov v q →
  spaces_ok v' (<[p := c]> m).
Proof.
  intros [Hsys Hr Hinj] Hsys' Hnew Hho Hk Hp Hc.
  assert (∀ x, hhdm_vtop v' x = hhdm_vtop v x) as Hvt by (intros x; unfold hhdm_vtop; by rewrite Hho).
  assert (∀ x, hhdm_ptov v' x = hhdm_ptov v x) as Hpt by (intros x; unfold hhdm_ptov; by rewrite Hho).
  assert (plus_root (user_root v m) q q) as Hroot by (by right).
  assert (page_ok q) as Hq.
  { apply (f_page _ _ (ok_forest _ _ (proj1 Hsys')) q []); [|done]. left. split; [done|apply user_path_nil]. }
  assert (hhdm_vtop v (pml4 c) = q) as Hcq by (rewrite Hc; by apply vtop_ptov).
  assert (pml4 c ≠ kernel_pml4 v') as Hck.
  { intros He. destruct Hsys' as (_ & _ & Hnk & _). apply Hnk. right. unfold kroot. by rewrite <- He, Hvt. }
  assert (0 < pml4 c < 2 ^ 64) as Hc64.
  { pose proof (root_ptr v' _ q Hsys' Hroot) as H0. rewrite Hc, <- Hpt in *. unfold hhdm_ptov, wrap in *.
    pose proof (Z.mod_pos_bound (q + hhdm_offset v') (2 ^ 64)). lia. }
  split.
  - eapply sys_ok_roots; [|exact Hsys']. intros r. split.
    + intros [(p' & d & Hd & Hdk & ->)| ->].
      * exists p', d. rewrite lookup_insert_ne by congruence. by rewrite Hk, Hvt.
      * exists p, c. rewrite lookup_insert_eq, Hvt. by rewrite Hcq.
    + intros (p' & d & Hd & Hdk & ->). rewrite Hvt. destruct (decide (p' = p)) as [->|Hne].
      * rewrite lookup_insert_eq in Hd. injection Hd as <-. by right.
      * rewrite lookup_insert_ne in Hd by done. left. exists p', d. by rewrite <- Hk.
  - intros p' d. rewrite lookup_insert. case_decide; [intros [= <-]; exact Hc64|apply Hr].
  - rewrite Hk. intros p1 p2 d e Hd He Heq Hdk.
    assert (∀ p' x, m !! p' = Some x → pml4 x = pml4 c → pml4 x ≠ kernel_pml4 v → False) as Hno.
    { intros p' x Hx Hxc Hxk. apply Hnew. exists p', x. split_and!; [done..|by rewrite Hxc, Hcq]. }
    apply lookup_insert_Some in Hd as [[<- <-]|[? Hd]]; apply lookup_insert_Some in He as [[<- <-]|[? He]]; try done.
    + exfalso. apply (Hno p2 e); congruence.
    + exfalso. by apply (Hno p1 d).
    + by eapply Hinj.
Qed.

Lemma spaces_ok_sub v m p c : m !! p = None → spaces_ok v (<[p := c]> m) → spaces_ok v m.
Proof.
  intros Hp [(Hok & Hl & Hk & Hi) Hr Hinj].
  assert (∀ p' d, m !! p' = Some d → <[p := c]> m !! p' = Some d) as Hold by (intros p' d Hd; rewrite lookup_insert_ne; congruence).
  assert (∀ r, user_root v m r → user_root v (<[p := c]> m) r) as Hroot.
  { intros r (p' & d & Hd & Hdk & Hx). exists p', d. split_and!; [by apply Hold|done..]. }
  split.
  - split; [|split; [done|split; [by intros Hn%Hroot|done]]]. eapply vm_ok_sub; [|exact Hok].
    intros r l [[Hx ?]|Hx]; [left; split; [by apply Hroot|done]|by right].
  - intros p' d Hd. by eapply Hr, Hold.
  - intros p1 p2 d e Hd He. eapply Hinj; by apply Hold.
Qed.

Section dispatch.
Context {P : Type} `{!SchedulerPolicy P, !PolicyLaws P}.
Context (new_addr : gmap Z (lnode Z) → Z) (time : nat → Z) (rsp : Z).
Context (forked_entry : Z) (g : Process) (new_pid new_stack new_object : Z).
Context (elsewhere : call → M (ksys (P := P)) (control * option Z)).
Implicit Types (s : sched (P := P)) (k : ksys (P := P)).

Lemma in_sched_run {A} (m : M sched A) k s' a : m (k_sched k) = Ok (s', a) →
  in_sched m k = Ok (mk_ksys s' (k_stacks k), a).
Proof. intros H. unfold in_sched, zoom. by rewrite H. Qed.

Lemma current_run s : cur s ≠ 0 → in_cpu current_process s = Ok (s, cur s).
Proof.
  intros Hc. destruct (wp_total (in_cpu current_process) (λ a s', s' = s ∧ a = cur s) s) as (s' & a & -> & -> & ->); [|done].
  by apply wp_current.
Qed.

Lemma update_run s p d f : procs s !! p = Some d → update p f s = Ok (with_procs (insert p (f d)) s, ()).
Proof. intros Hd. unfold update, proc. mrun. by rewrite Hd. Qed.

Lemma this_run k : cur (k_sched k) ≠ 0 → in_sched (in_cpu current_process) k = Ok (k, cur (k_sched k)).
Proof. intros Hc. rewrite (in_sched_run _ k (k_sched k) (cur (k_sched k))); [by destruct k|by apply current_run]. Qed.

(** The current process has entered the kernel with the registers [w] at [frame]. *)
Definition in_kernel (frame : Z) (d : Process) k : ksys :=
  mk_ksys (with_procs (insert (cur (k_sched k)) (with_syscall_frame frame d)) (k_sched k)) (k_stacks k).

Lemma dispatcher_run k frame d w : cur (k_sched k) ≠ 0 → procs (k_sched k) !! cur (k_sched k) = Some d →
  (∀ i, 0 ≤ i < 16 → k_stacks k !! (frame + 8 * i) = Some (w i)) →
  syscall_dispatcher new_addr time rsp forked_entry g new_pid new_stack new_object elsewhere frame k =
  match decode_call (w 14) (w 9) (w 10) (w 11) (w 5) (w 7) (w 6) with
  | Some c => serve new_addr time rsp forked_entry g new_pid new_stack new_object elsewhere c (in_kernel frame d k)
  | None => Ok (in_kernel frame d k, (Return, Some (- ENOSYS)))
  end.
Proof.
  intros Hc Hd Hw. unfold syscall_dispatcher. rewrite (bind_ok _ _ _ _ _ (this_run k Hc)).
  rewrite (bind_ok _ _ _ _ _ (in_sched_run _ k _ _ (update_run _ _ _ (with_syscall_frame frame) Hd))).
  fold (in_kernel frame d k).
  assert (∀ i, 0 ≤ i < 16 → frame_word frame i (in_kernel frame d k) = Ok (in_kernel frame d k, w i)) as Hf.
  { intros i Hi. unfold frame_word. mrun. change (k_stacks (in_kernel frame d k)) with (k_stacks k). by rewrite Hw. }
  rewrite (bind_ok _ _ _ _ _ (Hf 14 ltac:(lia))), (bind_ok _ _ _ _ _ (Hf 9 ltac:(lia))), (bind_ok _ _ _ _ _ (Hf 10 ltac:(lia))),
    (bind_ok _ _ _ _ _ (Hf 11 ltac:(lia))), (bind_ok _ _ _ _ _ (Hf 5 ltac:(lia))), (bind_ok _ _ _ _ _ (Hf 7 ltac:(lia))),
    (bind_ok _ _ _ _ _ (Hf 6 ltac:(lia))). by destruct (decode_call _ _ _ _ _ _ _).
Qed.

(** A change of the current process that the scheduler does not see. *)
Lemma inv_set_current s R B L d d' : inv_at s R B L → procs s !! cur s = Some d → fixed d' = fixed d →
  state d' = state d → inv_at (with_procs (insert (cur s) d') s) R B L.
Proof.
  intros [Hi Hf Hc Hr] Hd Hfx Hst. split; [by apply (sinv_set _ _ _ _ _ _ d); [|set_solver|..]|done|done|].
  intros e HL. cbn. change (cur (with_procs _ s)) with (cur s). rewrite lookup_insert_eq. intros [= <-]. rewrite Hst. by apply Hr.
Qed.

(** The scheduler's invariant over another state of the memory manager. *)
Lemma inv_vm s v R B L : inv_at s R B L → percpu (vm_cpu v) = percpu (sc_cpu s) → spaces_ok v (procs s) →
  inv_at (with_vm v s) R B L.
Proof.
  intros [[H1 H2 H3 H4 H5 H6 H7] Hf Hc Hr] Hp Hs.
  assert (cur (with_vm v s) = cur s ∧ idle (with_vm v s) = idle s) as [Ec Ei] by (unfold cur, idle, sc_cpu; cbn; by rewrite Hp).
  split; [split|..]; rewrite ?Ec, ?Ei; done.
Qed.

(** ** [exit] and [wait4] *)

Lemma sys_exit_run k status d R B L : let s := k_sched k in inv_at s R B L → cur s ≠ idle s → procs s !! cur s = Some d →
  ∃ s', sys_exit time status k = Ok (mk_ksys s' (k_stacks k), Switch (cur s')) ∧
    ended L (cur s) (zombify (with_exit_status status d)) s (Switch (cur s')) s'.
Proof.
  intros s Hinv Hne Hd. destruct (inv_cur _ _ _ _ Hinv) as [Hc0 _].
  pose proof (inv_set_current s R B L d (with_exit_status status d) Hinv Hd eq_refl eq_refl) as Hinv1.
  set (s1 := with_procs _ s) in Hinv1.
  destruct (wp_total _ _ _ (wp_yield_zombie time s1 R B L (with_exit_status status d) (inv_on_cpu _ _ _ _ Hinv1 Hne)
    (lookup_insert_eq _ _ _))) as (s' & r & Hrun & [H1 [-> H2] H3 H4]).
  exists s'. split.
  - unfold sys_exit. rewrite (bind_ok _ _ _ _ _ (this_run k Hc0)).
    rewrite (bind_ok _ _ _ _ _ (in_sched_run _ k _ _ (update_run _ _ _ (with_exit_status status) Hd))).
    exact (in_sched_run _ (mk_ksys s1 (k_stacks k)) s' _ Hrun).
  - split; try done. eapply same_fixed_trans; [|done]. by apply (same_fixed_insert _ _ d).
Qed.

(** The only process with its pid, a zombie child of the current process, is the one that is found. *)
Lemma the_child_only s me c d L : procs s !! cur s = Some me → c ∈ L → procs s !! c = Some d → state d = ZOMBIE →
  parent d = cur s → cur s ≠ 0 → pid d ≠ -1 → (∀ p e, p ∈ L → procs s !! p = Some e → pid e = pid d → p = c) →
  the_child (procs s) me (pid d) L = c.
Proof.
  intros Hme HcL Hd Hz Hpar Hc0 Hpid Honly. unfold the_child.
  assert (c ∈ zombies (procs s) (children (procs s) me (pid d) L)) as Hin.
  { apply list_elem_of_filter. split; [unfold zombie_at; rewrite Hd; cbn; by apply bool_decide_eq_true_2|].
    apply list_elem_of_filter. split; [|done]. unfold is_child. rewrite Hd, Hpar, Hme. cbn [from_option].
    rewrite (proj2 (Z.eqb_eq (pid d) (pid d))), (proj2 (Z.eqb_eq (pid me) (pid me))) by done.
    rewrite (proj2 (Z.eqb_neq (cur s) 0)) by done. cbn. by rewrite orb_true_r. }
  destruct (zombies _ _) as [|z zs] eqn:Hz'; [by apply not_elem_of_nil in Hin|]. cbn [head].
  assert (z ∈ zombies (procs s) (children (procs s) me (pid d) L)) as [_ [Hch HzL]%list_elem_of_filter]%list_elem_of_filter
    by (rewrite Hz'; left).
  unfold is_child in Hch. destruct (procs s !! z) as [e|] eqn:He; [|done]. apply (Honly z e); [done|done|].
  apply andb_prop in Hch as [[Hch _]%andb_prop _]. rewrite (proj2 (Z.eqb_neq (pid d) (-1))) in Hch by done. cbn in Hch. lia.
Qed.

(** C15: the status of [exit] reaches the parent.  The dispatcher called with the frame of [exit] or [exit_group]
    by a process other than idle gives the CPU to another one and leaves the caller a zombie with the low 32 bits
    of its argument as status, in a state of the scheduler's invariant; and if the parent has the CPU then
    and waits for this pid, which no other process has, the call returns exactly that status and the child
    is dead. *)
Theorem exit_status_reaches_parent k frame d w R B L : let s := k_sched k in
  inv_at s R B L → cur s ≠ idle s → procs s !! cur s = Some d →
  (∀ i, 0 ≤ i < 16 → k_stacks k !! (frame + 8 * i) = Some (w i)) → w 14 = 60 ∨ w 14 = 231 →
  parents_ok s L → parent d ∈ L → pid d ≠ -1 → (∀ p e, p ∈ L → procs s !! p = Some e → pid e = pid d → p = cur s) →
  ∃ k1, let s1 := k_sched k1 in
    syscall_dispatcher new_addr time rsp forked_entry g new_pid new_stack new_object elsewhere frame k =
      Ok (k1, (Switch (cur s1), None)) ∧
    inv s1 ∧ cur s1 ≠ cur s ∧
    (∃ z, procs s1 !! cur s = Some z ∧ state z = ZOMBIE ∧ exit_status z = as_int (w 9)) ∧
    (cur s1 = parent d → ∃ k2, sys_wait4 time rsp (pid d) k1 = Ok (k2, (Return, Some (as_int (w 9)))) ∧
       inv (k_sched k2) ∧ state <$> procs (k_sched k2) !! cur s = Some DEAD).
Proof.
  intros s Hinv Hne Hd Hw Hnum Hpar HpL Hpid Honly. destruct (inv_cur _ _ _ _ Hinv) as [Hc0 _].
  pose proof (not_idle _ _ _ _ Hinv Hne) as HcL. set (d1 := with_syscall_frame frame d).
  assert (inv_at (k_sched (in_kernel frame d k)) R B L) as Hinv1 by (by apply (inv_set_current _ _ _ _ d)).
  destruct (sys_exit_run (in_kernel frame d k) (as_int (w 9)) d1 R B L Hinv1 Hne (lookup_insert_eq _ _ _))
    as (s1 & Hrun & [(R1 & B1 & Hi1) [_ Hcne] Hz Hfx]).
  set (z := zombify _) in Hz. change (cur (k_sched (in_kernel frame d k))) with (cur s) in *.
  assert (same_fixed (procs s) (procs s1)) as Hfix.
  { eapply same_fixed_trans; [|exact Hfx]. by apply (same_fixed_insert _ _ d). }
  exists (mk_ksys s1 (k_stacks k)). cbv zeta. cbn [k_sched]. split.
  { rewrite (dispatcher_run k frame d w Hc0 Hd Hw).
    assert (decode_call (w 14) (w 9) (w 10) (w 11) (w 5) (w 7) (w 6) = Some (SysExit (as_int (w 9)))) as -> by (by destruct Hnum as [-> | ->]).
    cbn [serve]. by rewrite (bind_ok _ _ _ _ _ Hrun). }
  split; [by exists R1, B1, L|]. split; [done|]. split; [by exists z|].
  intros Hcp. assert (cur s1 ≠ idle s1) as Hne1.
  { intros He. apply (si_idle _ _ _ _ _ (iv_inv _ _ _ _ Hi1)). by rewrite <- He, Hcp. }
  assert (parents_ok s1 L) as Hpar1.
  { intros p e HpL' He Hpe. destruct (same_fixed_lookup _ _ _ _ Hfix He) as (e0 & He0 & Hf). injection Hf as _ Hpe0 _ _.
    rewrite Hpe0 in *. destruct (Hpar p e0 HpL' He0 Hpe) as [x Hx]. specialize (Hfix (parent e0)). rewrite Hx in Hfix.
    destruct (procs s1 !! parent e0); [by eexists|done]. }
  destruct (inv_cur _ _ _ _ Hi1) as [Hc1 [me Hme]].
  destruct (wp_total _ _ _ (yield_to_child_ok time rsp (pid d) s1 R1 B1 L Hi1 Hne1 Hpar1)) as (s2 & r2 & Hrun2 & [Hi2 _] & Hres).
  destruct Hres as (me' & Hme' & _ & Hzr & _). rewrite Hme in Hme'. injection Hme' as <-.
  change (pid d) with (pid z) in Hzr. rewrite (the_child_only s1 me (cur s) z L) in Hzr; try done.
  - destruct (Hzr z Hc0 Hz eq_refl) as [-> Hdead]. exists (mk_ksys s2 (k_stacks k)). split; [|done].
    unfold sys_wait4. by rewrite (in_sched_run _ (mk_ksys s1 (k_stacks k)) s2 _ Hrun2).
  - intros p e Hp He Hpe. destruct (same_fixed_lookup _ _ _ _ Hfix He) as (e0 & He0 & Hf). injection Hf as Hpe0 _ _ _.
    apply (Honly p e0); [done|done|]. rewrite <- Hpe0. exact Hpe.
Qed.
(** ** [fork] *)

Lemma in_process_run {A} (m : M exec A) k this d x' a : procs (k_sched k) !! this = Some d →
  m (mk_exec (sc_vm (k_sched k)) d (k_stacks k)) = Ok (x', a) →
  in_process this m k = Ok (mk_ksys (with_procs (insert this (x_proc x')) (with_vm (x_vm x') (k_sched k))) (x_stack x'), a).
Proof.
  intros Hd Hm. unfold in_process. rewrite (bind_ok _ _ k k d).
  - unfold zoom. by rewrite Hm.
  - rewrite (in_sched_run _ k (k_sched k) d); [by destruct k|]. unfold proc. mrun. by rewrite Hd.
Qed.

(** The caller [d] of [fork] in [k], its address space [r] and the registers [w] of the call. *)
Record can_fork k d r (w : Z → Z) : Prop := {
  cf_cur : procs (k_sched k) !! cur (k_sched k) = Some d;
  cf_space : pml4 d ≠ kernel_pml4 (sc_vm (k_sched k)) ∧ r = hhdm_vtop (sc_vm (k_sched k)) (pml4 d);
  cf_frames F : nodes_on (sys_dom (sc_vm (k_sched k)) (user_root (sc_vm (k_sched k)) (procs (k_sched k)))) (sc_vm (k_sched k)) r (λ _, true) F →
    (length F + 3 ≤ avail (vm_pmm (sc_vm (k_sched k))))%nat;
  cf_heap : user_path (get_kernel_pml4_index (sc_vm (k_sched k))) [pml4_idx (uheap d); pdpt_idx (uheap d); pd_idx (uheap d)];
  cf_stack : 0 ≤ new_stack ∧ new_stack + KERNEL_STACK_SIZE < 2 ^ 64;
  cf_from : 0 ≤ syscall_frame d ∧ syscall_frame d + 128 ≤ 2 ^ 64;
  cf_apart : new_stack + KERNEL_STACK_SIZE ≤ syscall_frame d ∨ syscall_frame d + 128 ≤ new_stack;
  cf_regs i : 0 ≤ i < 16 → k_stacks k !! (syscall_frame d + 8 * i) = Some (w i);
  cf_object : new_object ≠ 0 ∧ procs (k_sched k) !! new_object = None;
}.

(** What [fork] has done: the child [c] in the address space [q] beside the processes there were. *)
Record has_forked k k' d r (w : Z → Z) R B L (c : Process) (q : Z) : Prop := {
  hf_child : ∃ x', forked (user_root (sc_vm (k_sched k)) (procs (k_sched k))) (cur (k_sched k)) forked_entry new_pid new_stack r w
    (mk_exec (sc_vm (k_sched k)) d (k_stacks k)) x' c q ∧ k_stacks k' = x_stack x' ∧
    ∃ cc, sc_vm (k_sched k') = with_vm_cpu cc (x_vm x');
  hf_inv : inv_at (k_sched k') (new_object :: R) B (L ++ [new_object]);
  hf_cur : cur (k_sched k') = cur (k_sched k);
  hf_procs : procs (k_sched k') = <[new_object := c]> (procs (k_sched k));
}.

Hypothesis new_addr_fresh : ∀ m, (new_addr m ∉ dom m) ∧ new_addr m ≠ 0.

Lemma sys_fork_run k R B L d r w : inv_at (k_sched k) R B L → length L + 2 < KV_MAX → can_fork k d r w →
  ∃ k' c q, sys_fork new_addr forked_entry g new_pid new_stack new_object k = Ok (k', new_pid) ∧ has_forked k k' d r w R B L c q.
Proof.
  intros Hinv Hroom [Hd [Hdk Hr] Hav Hheap Hst Hfrom Hapart Hregs [Hob0 Hob]]. set (s := k_sched k) in *. set (v := sc_vm s) in *.
  pose proof (si_spaces _ _ _ _ _ (iv_inv _ _ _ _ Hinv)) as Hsp. fold s v in Hsp.
  assert (pml4 d = hhdm_ptov v r) as Hp.
  { rewrite Hr. symmetry. apply hhdm_back. pose proof (so_pml4 _ _ Hsp _ _ Hd). lia. }
  destruct (fork_run (mk_exec v d (k_stacks k)) (user_root v (procs s)) (cur s) forked_entry g new_pid new_stack r w)
    as (x' & c & q & Hrun & Hf); cbn [x_vm x_proc x_stack]; [apply Hsp|by exists (cur s), d|done..|].
  destruct (fk_kernel _ _ _ _ _ _ _ _ _ _ _ Hf) as (Hho & Hkp & Hpc). destruct (fk_space _ _ _ _ _ _ _ _ _ _ _ Hf) as (Hcp & _).
  destruct (fk_id _ _ _ _ _ _ _ _ _ _ _ Hf) as (Hpid & _ & Hnew).
  assert (spaces_ok (x_vm x') (<[new_object := c]> (procs s))) as Hsp'.
  { eapply (spaces_ok_add v); [done|apply (fk_sys _ _ _ _ _ _ _ _ _ _ _ Hf)|apply (fk_new _ _ _ _ _ _ _ _ _ _ _ Hf)|done..]. }
  assert (inv_at (with_vm (x_vm x') s) R B L) as Hinv1 by (apply inv_vm; [done|done|by eapply spaces_ok_sub]).
  destruct (wp_total _ _ _ (spawn_ok new_addr new_addr_fresh new_object c (with_vm (x_vm x') s) R B L Hinv1 Hob0 Hob
    ltac:(unfold is_ready; by rewrite Hnew) Hroom Hsp')) as (s' & [] & Hspawn & Hinv' & Hcur' & Hpr' & cc & Hvm').
  exists (mk_ksys s' (x_stack x')), c, q. split.
  - unfold sys_fork. rewrite (bind_ok _ _ _ _ _ (this_run k (proj1 (inv_cur _ _ _ _ Hinv)))).
    rewrite (bind_ok _ _ _ _ _ (in_process_run _ k (cur s) d x' c Hd Hrun)).
    rewrite (fk_this _ _ _ _ _ _ _ _ _ _ _ Hf). cbn [x_proc]. fold s.
    assert (with_procs (insert (cur s) d) (with_vm (x_vm x') s) = with_vm (x_vm x') s) as ->.
    { clear -Hd. destruct s. unfold with_procs, with_vm. cbn in *. by rewrite insert_id. }
    rewrite (bind_ok _ _ _ _ _ (in_sched_run _ (mk_ksys (with_vm (x_vm x') s) (x_stack x')) s' () Hspawn)). by rewrite Hpid.
  - split; [exists x'; split_and!; [done..|by exists cc]|done| |done].
    cbn [k_sched]. rewrite Hcur'. unfold cur, sc_cpu. cbn. by rewrite Hpc.
Qed.
(** C6: the [fork] call end to end.  In a state that satisfies the scheduler's invariant, the dispatcher called
    with the frame of a [fork] answers the new pid to the caller, which keeps the CPU; the child is a new
    process on the list and in the ready queue, with an address space of its own in which every byte of user
    memory reads as in the caller's, and with the caller's registers on its kernel stack; the invariant holds
    again, no other process object changes, and no byte of any other address space. *)
Theorem fork_call_schedules_child k frame d r w R B L : let s := k_sched k in
  inv_at s R B L → procs s !! cur s = Some d → length L + 2 < KV_MAX →
  can_fork (in_kernel frame d k) (with_syscall_frame frame d) r w → w 14 = 57 →
  ∃ k' c q, let s' := k_sched k' in
    syscall_dispatcher new_addr time rsp forked_entry g new_pid new_stack new_object elsewhere frame k =
      Ok (k', (Return, Some new_pid)) ∧
    inv_at s' (new_object :: R) B (L ++ [new_object]) ∧ cur s' = cur s ∧
    procs s' = <[new_object := c]> (<[cur s := with_syscall_frame frame d]> (procs s)) ∧
    pid c = new_pid ∧ parent c = cur s ∧ state c = NEW ∧
    pml4 c = hhdm_ptov (sc_vm s) q ∧ ¬ user_root (sc_vm s) (procs s) q ∧
    (∀ a, user_addr (sc_vm s) a → ubyte (sc_vm s') q a = ubyte (sc_vm s) r a) ∧
    (∀ r' a, user_root (sc_vm s) (procs s) r' → user_addr (sc_vm s) a → ubyte (sc_vm s') r' a = ubyte (sc_vm s) r' a) ∧
    (∀ i, 0 ≤ i < 16 → k_stacks k' !! (syscall_frame c + 8 * i) = Some (w i)).
Proof.
  intros s Hinv Hd Hroom Hcf Hnum. destruct (inv_cur _ _ _ _ Hinv) as [Hc0 _].
  assert (∀ i, 0 ≤ i < 16 → k_stacks k !! (frame + 8 * i) = Some (w i)) as Hw by apply (cf_regs _ _ _ _ Hcf).
  assert (inv_at (k_sched (in_kernel frame d k)) R B L) as Hinv1 by (by apply (inv_set_current _ _ _ _ d)).
  destruct (sys_fork_run _ R B L _ r w Hinv1 Hroom Hcf) as (k' & c & q & Hrun & [(x' & Hf & Hst & cc & Hvm) Hi Hcur Hpr]).
  exists k', c, q. cbv zeta. split.
  { rewrite (dispatcher_run k frame d w Hc0 Hd Hw), Hnum. cbn [decode_call serve]. unfold returns. by rewrite (bind_ok _ _ _ _ _ Hrun). }
  assert (∀ r', user_root (sc_vm s) (procs s) r' → user_root (sc_vm s) (<[cur s := with_syscall_frame frame d]> (procs s)) r') as Hroot.
  { apply user_root_fixed, same_fixed_sym. by apply (same_fixed_insert _ _ d). }
  destruct (fk_id _ _ _ _ _ _ _ _ _ _ _ Hf) as (? & ? & ?). destruct (fk_space _ _ _ _ _ _ _ _ _ _ _ Hf) as (? & _).
  rewrite Hvm, Hst. split_and!; try done.
  - intros Hq%Hroot. by apply (fk_new _ _ _ _ _ _ _ _ _ _ _ Hf).
  - intros a Ha. by apply (fk_memory _ _ _ _ _ _ _ _ _ _ _ Hf).
  - intros r' a Hr' Ha. apply (fk_others _ _ _ _ _ _ _ _ _ _ _ Hf); [by apply Hroot|done].
  - intros i Hi'. by apply (fk_frame _ _ _ _ _ _ _ _ _ _ _ Hf).
Qed.

End dispatch.

(** ** Examples

    The user process of the example system of [SchedClaims.v] has entered the kernel with a system call; its
    parent waits for it. *)

#[local] Existing Instance demo_policy.
#[local] Existing Instance demo_laws.

Definition demo_frame : Z := 0xFFFF900000007F80.
Definition demo_regs (num arg1 : Z) : list Z := [15; 14; 13; 12; 11; 10; 9; 8; 5; arg1; 6; 3; 2; 1; num; 4].
Definition demo_call (num arg1 : Z) : ksys (P := klist Z) := mk_ksys demo4 (store_words demo_frame (demo_regs num arg1) ∅).
Definition demo_word (num arg1 i : Z) : Z := default 0 (demo_regs num arg1 !! Z.to_nat i).
Definition demo_dispatch := syscall_dispatcher (P := klist Z) bump demo_time 0 0x1234 demo_garbage 4 0xFFFF900000010000 400 (λ _, fault).

Lemma demo_call_words num arg1 i : 0 ≤ i < 16 → k_stacks (demo_call num arg1) !! (demo_frame + 8 * i) = Some (demo_word num arg1 i).
Proof.
  intros Hi. destruct (lookup_lt_is_Some_2 (demo_regs num arg1) (Z.to_nat i)) as [v Hv]; [cbn; lia|].
  unfold demo_word. rewrite Hv. cbn [default from_option id demo_call k_stacks].
  replace (demo_frame + 8 * i) with (demo_frame + 8 * Z.to_nat i) by lia.
  apply store_words_lookup; [unfold demo_frame; lia|unfold demo_frame; cbn; lia|done].
Qed.

Lemma demo_inv4 : inv demo4.
Proof. destruct demo3_cur as [C3 I3]. apply inv_after; [exact demo_inv3|]. cbn [allowed]. rewrite C3, I3. done. Qed.

Lemma demo4_at (n : Z) p d : kl_store (g_processes demo4) !! n = Some d → data d = p → ∀ R B L, inv_at demo4 R B L → p ∈ L.
Proof. intros Hn <- R B L Hi. by eapply listed_node. Qed.

Lemma exit_status_reaches_parent_witness : ∃ k1 k2,
  demo_dispatch demo_frame (demo_call 60 7) = Ok (k1, (Switch 200, None)) ∧
  sys_wait4 demo_time 0 3 k1 = Ok (k2, (Return, Some 7)).
Proof.
  destruct demo_inv4 as (R & B & L & Hi). destruct demo_curs as [[C4 I4] _].
  destruct (procs demo4 !! 300) as [d|] eqn:Hd; [|vm_compute in Hd; discriminate Hd].
  assert (parent d = 200 ∧ pid d = 3) as [Hpar Hpid] by (vm_compute in Hd; injection Hd as <-; split; reflexivity).
  destruct (exit_status_reaches_parent bump demo_time 0 0x1234 demo_garbage 4 0xFFFF900000010000 400 (λ _, fault)
    (demo_call 60 7) demo_frame d (demo_word 60 7) R B L Hi) as (k1 & Hrun & _ & _ & _ & Hw).
  - cbn [demo_call k_sched]. rewrite C4, I4. discriminate.
  - cbn [demo_call k_sched]. rewrite C4. exact Hd.
  - exact (demo_call_words 60 7).
  - left. reflexivity.
  - intros p e _. apply demo_parents; [vm_compute; reflexivity|vm_compute; eexists; reflexivity].
  - rewrite Hpar. destruct (kl_store (g_processes demo4) !! 1) as [n|] eqn:Hn; [|vm_compute in Hn; discriminate Hn].
    apply (demo4_at 1 200 n Hn) with R B; [vm_compute in Hn; injection Hn as <-; reflexivity|exact Hi].
  - rewrite Hpid. discriminate.
  - intros p e _ He. cbn [demo_call k_sched] in *. rewrite Hpid, C4. intros Hp. apply elem_of_map_to_list in He.
    assert (forallb (λ x, implb (pid x.2 =? 3) (x.1 =? 300)) (map_to_list (procs demo4)) = true) as Hall by (vm_compute; reflexivity).
    rewrite forallb_forall in Hall. specialize (Hall (p, e) (proj1 (list_elem_of_In _ _) He)). cbn [fst snd] in Hall.
    rewrite Hp in Hall. apply Z.eqb_eq. exact Hall.
  - assert (match demo_dispatch demo_frame (demo_call 60 7) with Ok (k, _) => cur (k_sched k) | _ => 0 end = 200) as Hc
      by (vm_compute; reflexivity).
    unfold demo_dispatch in *. rewrite Hrun in Hc. rewrite Hc, Hpar, Hpid in Hw. destruct (Hw eq_refl) as (k2 & Hrun2 & _).
    exists k1, k2. rewrite Hrun, Hc. split; [reflexivity|exact Hrun2].
Defined.

Lemma demo4_vm : sc_vm demo4 = with_vm_cpu (sc_cpu demo4) demo_vmm.
Proof. vm_compute. reflexivity. Qed.

(** Any state with the memory of the example in which the process at 300 has the address space 0x2000. *)
Lemma demo_can_fork (s : sched (P := klist Z)) stacks c d w : sc_vm s = with_vm_cpu c demo_vmm → cur s = 300 →
  pml4 d = 0xFFFF800000002000 → uheap d = mk_Heap 0 0 0 0 → procs s !! 400 = None →
  (∀ i, 0 ≤ i < 16 → stacks !! (demo_frame + 8 * i) = Some (w i)) →
  can_fork 0xFFFF900000010000 400 (in_kernel demo_frame d (mk_ksys s stacks)) (with_syscall_frame demo_frame d) 0x2000 w.
Proof.
  intros Hvm Hcur Hp Hh Hob Hw. split.
  - apply (lookup_insert_eq (procs s)).
  - change (sc_vm (k_sched _)) with (sc_vm s). change (pml4 (with_syscall_frame _ d)) with (pml4 d). rewrite Hvm, Hp. by vm_compute.
  - change (sc_vm (k_sched _)) with (sc_vm s). rewrite Hvm. intros F [Hnd HF].
    assert (nodes_on (sys_dom demo_vmm demo_roots) demo_vmm 0x2000 (λ _, true) F) as Hn%demo_nodes_on.
    { split; [done|]. intros f (l & [[_ Hl]|Hk] & Hc & Hf)%HF; exists l; [split; [by left|done]|split; [by right|done]]. }
    assert (8 ≤ avail (vm_pmm demo_vmm))%nat as H by (apply Nat.leb_le; by vm_compute). etrans; [|exact H]. lia.
  - change (sc_vm (k_sched _)) with (sc_vm s). change (uheap (with_syscall_frame _ d)) with (uheap d). rewrite Hvm, Hh.
    split; [cbn; lia|]. split; [repeat constructor; unfold idx_ok; cbn; lia|]. apply Forall_singleton. by vm_compute.
  - by vm_compute.
  - by vm_compute.
  - right. by vm_compute.
  - exact Hw.
  - split; [done|]. cbn [in_kernel k_sched procs with_procs]. rewrite lookup_insert_ne; [done|]. by rewrite Hcur.
Qed.

Lemma fork_call_schedules_child_witness : ∃ k' c q,
  demo_dispatch demo_frame (demo_call 57 0) = Ok (k', (Return, Some 4)) ∧ procs (k_sched k') !! 400 = Some c ∧
  pid c = 4 ∧ parent c = 300 ∧ ubyte (sc_vm (k_sched k')) q 0x400000 = Some 42 ∧
  k_stacks k' !! (syscall_frame c + 8 * 14) = Some 57.
Proof.
  destruct demo_inv4 as (R & B & L & Hi). destruct demo_curs as [[C4 I4] _].
  destruct (procs demo4 !! 300) as [d|] eqn:Hd; [|vm_compute in Hd; discriminate Hd].
  destruct (fork_call_schedules_child bump demo_time 0 0x1234 demo_garbage 4 0xFFFF900000010000 400 (λ _, fault) bump_fresh
    (demo_call 57 0) demo_frame d 0x2000 (demo_word 57 0) R B L Hi) as (k' & c & q & Hrun & _ & _ & Hpr & Hpid & Hpar & _ & _ & _ & Hm & _ & Hf).
  - cbn [demo_call k_sched]. rewrite C4. exact Hd.
  - destruct (si_list _ _ _ _ _ (iv_inv _ _ _ _ Hi)) as (ps & Hrep & <-). rewrite length_fmap, <- (lr_size _ _ Hrep).
    vm_compute. reflexivity.
  - apply (demo_can_fork demo4 _ (sc_cpu demo4) d _ demo4_vm C4).
    + vm_compute in Hd. injection Hd as <-. reflexivity.
    + vm_compute in Hd. injection Hd as <-. reflexivity.
    + vm_compute. reflexivity.
    + exact (demo_call_words 57 0).
  - reflexivity.
  - exists k', c, q. split; [exact Hrun|]. split; [rewrite Hpr; apply lookup_insert_eq|]. split; [exact Hpid|].
    split; [rewrite Hpar; exact C4|]. split; [|exact (Hf 14 ltac:(lia))].
    rewrite Hm; [vm_compute; reflexivity|]. cbn [demo_call k_sched]. rewrite demo4_vm. split; vm_compute; congruence.
Defined.
