(* ===== verification/UserMem.v ===== *)
(** * Access to user memory

    [kcopy_to_user] and [kcopy_from_user] of [src/kernel/lib/memory/memory.cpp] and
    [kstring::from_userspace] of [src/kernel/lib/containers/kstring.cpp], on a CPU with supervisor mode
    access prevention (SMAP): kernel code may touch a byte of the user half only while RFLAGS.AC is set.
    Buffers of the kernel are values; user memory is a map from addresses to bytes. *)

From S2P Require Import Prelude Cpu Spinlock Pmm Vmm Crt.

#[local] Coercion Z.of_nat : nat >-> Z.

Record umem := mk_umem {
  um_cpu : cpu;
  um_mem : mem;
}.

Definition on_cpu_regs (f : cpu → cpu) : M umem unit := modify (λ s, mk_umem (f (um_cpu s)) (um_mem s)).

(** The access check of the CPU for a supervisor access to [a]. *)
Definition smap_allows (c : cpu) (a : Z) : bool :=
  negb (is_user_addr a) || negb (Z.testbit (cr4 c) CR4_SMAP_BIT) || Z.testbit (rflags c) RFLAGS_AC.

Definition on_bytes {A} : M mem A → M umem A := zoom um_mem (λ m s, mk_umem (um_cpu s) m).

Definition u_load (a : Z) : M umem Z :=
  ok ← gets (λ s, smap_allows (um_cpu s) a);
  if ok : bool then on_bytes (load8 a) else fault.
Definition u_store (a b : Z) : M umem unit :=
  ok ← gets (λ s, smap_allows (um_cpu s) a);
  if ok : bool then on_bytes (store8 a b) else fault.

(** [memcpy] from a kernel buffer into memory, and from memory into a kernel buffer. *)
Fixpoint copy_out (dst : Z) (src : list Z) : M umem unit :=
  match src with
  | [] => mret ()
  | b :: src' => _ ← u_store dst b; copy_out (dst + 1) src'
  end.
Fixpoint copy_in (n : nat) (src : Z) : M umem (list Z) :=
  match n with
  | O => mret []
  | S n' => b ← u_load src; l ← copy_in n' (src + 1); mret (b :: l)
  end.

(** ** Copies *)

Definition kcopy_to_user (dst : Z) (src : list Z) : M umem unit :=
  _ ← kassert (is_user_range dst (length src));
  flags ← gets (λ s, read_rflags (um_cpu s));
  _ ← on_cpu_regs stac;
  _ ← copy_out dst src;
  on_cpu_regs (write_rflags flags).

Definition kcopy_from_user (src size : Z) : M umem (list Z) :=
  _ ← kassert (is_user_range src size);
  flags ← gets (λ s, read_rflags (um_cpu s));
  _ ← on_cpu_regs stac;
  l ← copy_in (Z.to_nat size) src;
  _ ← on_cpu_regs (write_rflags flags);
  mret l.

(** The bytes of a C string, without the terminator; the mapped bytes bound the length. *)
Fixpoint read_cstr (fuel : nat) (src : Z) : M umem (list Z) :=
  b ← u_load src;
  if b =? 0 then mret [] else
  match fuel with
  | O => hang
  | S fuel' => l ← read_cstr fuel' (src + 1); mret (b :: l)
  end.

(** [kstring::from_userspace]: the contents of the string made. *)
Definition ks_from_userspace (chars : Z) : M umem (list Z) :=
  _ ← kassert (is_user_addr chars);
  flags ← gets (λ s, read_rflags (um_cpu s));
  _ ← on_cpu_regs stac;
  n ← gets (λ s, size (um_mem s));
  l ← read_cstr n chars;
  _ ← on_cpu_regs (write_rflags flags);
  mret l.

(** [kstring_view::from_userspace]: the length of the string at [chars], which the view refers to. *)
Definition sv_from_userspace (chars : Z) : M umem (Z * Z) :=
  _ ← kassert (is_user_addr chars);
  _ ← on_cpu_regs stac;
  n ← gets (λ s, size (um_mem s));
  l ← read_cstr n chars;
  _ ← on_cpu_regs clac;
  mret (chars, Z.of_nat (length l)).

(** ** What the copies do *)

Section copies.
Implicit Types (s : umem) (c : cpu) (m : mem) (a d : Z) (l : list Z).

Lemma smap_stac c a : smap_allows (stac c) a = true.
Proof.
  unfold smap_allows. change (rflags (stac c)) with (Z.setbit (rflags c) RFLAGS_AC). rewrite Z.setbit_eq by done.
  by rewrite orb_true_r.
Qed.

Lemma write_rflags_stac c : write_rflags (rflags c) (stac c) = c.
Proof. by destruct c. Qed.

Lemma wp_u_store a b s E (Q : unit → umem → Prop) : smap_allows (um_cpu s) a = true → is_Some (um_mem s !! a) →
  Q () (mk_umem (um_cpu s) (<[a := b]> (um_mem s))) → wp (u_store a b) E Q s.
Proof.
  intros Hc Ha HQ. unfold u_store. apply wp_gets. rewrite Hc. unfold on_bytes. apply wp_zoom. by apply wp_store8.
Qed.

Lemma wp_u_load a b s E (Q : Z → umem → Prop) : smap_allows (um_cpu s) a = true → um_mem s !! a = Some b →
  Q b s → wp (u_load a) E Q s.
Proof.
  intros Hc Ha HQ. unfold u_load. apply wp_gets. rewrite Hc. unfold on_bytes. apply wp_zoom.
  eapply wp_load8; [done|]. by destruct s.
Qed.

(** [m'] is [m] with the bytes [l] at [d]. *)
Definition put_at m d l m' : Prop :=
  same_addrs m m' ∧ bytes_at m' d l ∧ ∀ a, ¬ (d ≤ a < d + length l) → m' !! a = m !! a.

Lemma put_at_cons m m' d b l : is_Some (m !! d) → put_at (<[d := b]> m) (d + 1) l m' → put_at m d (b :: l) m'.
Proof.
  intros Hd (Hs & Hb & Ho). split_and!.
  - intros a. rewrite (Hs a), lookup_insert_is_Some. destruct (decide (d = a)) as [->|]; naive_solver.
  - cbn. split; [|done]. rewrite Ho by lia. by rewrite lookup_insert_eq.
  - cbn. intros a Ha. rewrite Ho by lia. rewrite lookup_insert_ne by lia. done.
Qed.

Lemma wp_copy_out l d s E (Q : unit → umem → Prop) : (∀ a, smap_allows (um_cpu s) a = true) → mapped (um_mem s) d (length l) →
  (∀ m', put_at (um_mem s) d l m' → Q () (mk_umem (um_cpu s) m')) → wp (copy_out d l) E Q s.
Proof.
  revert d s. induction l as [|b l IH]; intros d s Hc Hm HQ; cbn [copy_out].
  - apply wp_ret. destruct s as [c m]. apply HQ. split_and!; done.
  - assert (is_Some (um_mem s !! d)) as Hd by (rewrite <- (Z.add_0_r d); apply Hm; cbn; lia).
    apply wp_bind, wp_u_store; [done..|]. apply IH; cbn [um_cpu um_mem].
    + done.
    + intros i Hi. rewrite lookup_insert_is_Some'. right. replace (d + 1 + i) with (d + (i + 1)) by lia. apply Hm. cbn. lia.
    + intros m' Hm'. apply HQ. by apply put_at_cons.
Qed.

Lemma wp_copy_in l a s E (Q : list Z → umem → Prop) : (∀ b, smap_allows (um_cpu s) b = true) → bytes_at (um_mem s) a l →
  Q l s → wp (copy_in (length l) a) E Q s.
Proof.
  revert a Q. induction l as [|b l IH]; intros a Q Hc Hb HQ; cbn [copy_in length]; [by apply wp_ret|]. destruct Hb as [Hb Hl].
  apply wp_bind. eapply wp_u_load; [done..|]. apply wp_bind. apply IH; [done..|]. by apply wp_ret.
Qed.

Lemma wp_kcopy_to_user d l s (Q : unit → umem → Prop) : is_user_range d (length l) = true → mapped (um_mem s) d (length l) →
  (∀ m', put_at (um_mem s) d l m' → Q () (mk_umem (um_cpu s) m')) → wp (kcopy_to_user d l) False Q s.
Proof.
  intros Hr Hm HQ. unfold kcopy_to_user. rewrite Hr. apply wp_kassert, wp_gets. unfold on_cpu_regs. apply wp_modify.
  apply wp_bind. apply wp_copy_out; cbn [um_cpu um_mem]; [intros; apply smap_stac|done|].
  intros m' Hm'. unfold wp, modify. cbn. unfold read_rflags. rewrite write_rflags_stac. by apply HQ.
Qed.

Lemma wp_kcopy_from_user a l s (Q : list Z → umem → Prop) : is_user_range a (length l) = true → bytes_at (um_mem s) a l →
  Q l s → wp (kcopy_from_user a (length l)) False Q s.
Proof.
  intros Hr Hb HQ. unfold kcopy_from_user. rewrite Hr. apply wp_kassert, wp_gets. unfold on_cpu_regs. apply wp_modify.
  apply wp_bind. rewrite Nat2Z.id. apply wp_copy_in; cbn [um_cpu um_mem]; [intros; apply smap_stac|done|].
  apply wp_modify, wp_ret. cbn. unfold read_rflags. rewrite write_rflags_stac. by destruct s.
Qed.

Lemma wp_read_cstr l a n s E (Q : list Z → umem → Prop) : (∀ b, smap_allows (um_cpu s) b = true) → cstr (um_mem s) a l →
  (length l ≤ n)%nat → Q l s → wp (read_cstr n a) E Q s.
Proof.
  revert a n Q. induction l as [|b l IH]; intros a n Q Hc [Hb Hnz] Hn HQ.
  - destruct Hb as [H0 _]. destruct n; cbn [read_cstr]; (apply wp_bind; eapply wp_u_load; [done..|]; by apply wp_ret).
  - cbn in Hb. destruct Hb as [Hb0 Hb]. apply Forall_cons in Hnz as [Hnz0 Hnz]. destruct n as [|n]; [cbn in Hn; lia|].
    cbn [read_cstr]. apply wp_bind. eapply wp_u_load; [done..|]. rewrite (proj2 (Z.eqb_neq b 0)) by done.
    apply wp_bind. apply IH; [done|done|cbn in Hn; lia|]. by apply wp_ret.
Qed.

Lemma wp_ks_from_userspace a l s (Q : list Z → umem → Prop) : is_user_addr a = true → cstr (um_mem s) a l →
  Q l s → wp (ks_from_userspace a) False Q s.
Proof.
  intros Hr Hb HQ. unfold ks_from_userspace. rewrite Hr. apply wp_kassert, wp_gets. unfold on_cpu_regs. apply wp_modify, wp_gets.
  apply wp_bind. eapply (wp_read_cstr l); cbn [um_cpu um_mem]; [intros; apply smap_stac|done| |].
  - destruct Hb as [Hb _]. apply bytes_at_bound in Hb. rewrite length_app in Hb. lia.
  - apply wp_modify, wp_ret. cbn. unfold read_rflags. rewrite write_rflags_stac. by destruct s.
Qed.
End copies.

(** Touching user memory directly while SMAP is on and AC is clear. *)
Lemma u_access_faults a s : is_user_addr a = true → Z.testbit (cr4 (um_cpu s)) CR4_SMAP_BIT = true →
  Z.testbit (rflags (um_cpu s)) RFLAGS_AC = false → u_load a s = Fault ∧ ∀ b, u_store a b s = Fault.
Proof.
  intros Ha H4 Hac. unfold u_load, u_store, mbind, M_bind, gets, smap_allows. by rewrite Ha, H4, Hac.
Qed.

(** C26: copies between kernel and user memory.  A range that is not in the user half ends in a panic, in
    either direction.  For a range of the user half that is mapped, [kcopy_to_user] writes the bytes given
    and no others, [kcopy_from_user] then reads them back, and both leave RFLAGS as they were: SMAP is
    overridden during the copy only. *)
Theorem user_copies_are_safe (s : umem) (d : Z) (l : list Z) :
  (is_user_range d (length l) = false →
    kcopy_to_user d l s = Panic ∧ kcopy_from_user d (length l) s = Panic) ∧
  (is_user_range d (length l) = true → mapped (um_mem s) d (length l) → ∃ m',
    kcopy_to_user d l s = Ok (mk_umem (um_cpu s) m', ()) ∧ put_at (um_mem s) d l m' ∧
    kcopy_from_user d (length l) (mk_umem (um_cpu s) m') = Ok (mk_umem (um_cpu s) m', l)).
Proof.
  split.
  - intros Hr. unfold kcopy_to_user, kcopy_from_user, mbind, M_bind. by rewrite Hr.
  - intros Hr Hm. cut (wp (kcopy_to_user d l) False (λ _ s', ∃ m', s' = mk_umem (um_cpu s) m' ∧ put_at (um_mem s) d l m') s).
    { intros (s' & [] & Hrun & m' & -> & Hm')%wp_total. exists m'. split_and!; [done..|].
      cut (wp (kcopy_from_user d (length l)) False (λ l' s', l' = l ∧ s' = mk_umem (um_cpu s) m') (mk_umem (um_cpu s) m')).
      - by intros (s' & l' & Hrun' & -> & ->)%wp_total.
      - apply wp_kcopy_from_user; [done|apply Hm'|done]. }
    apply wp_kcopy_to_user; eauto.
Qed.

Definition demo_user : umem := mk_umem (with_cr4 (Z.shiftl 1 21) cpu0) (list_to_map (zip (seqZ 4096 4) [0; 0; 0; 0])).

Lemma user_copies_are_safe_witness : is_user_range 4097 2 = true ∧ mapped (um_mem demo_user) 4097 2 ∧ ∃ m',
  kcopy_to_user 4097 [7; 8] demo_user = Ok (mk_umem (um_cpu demo_user) m', ()) ∧
  put_at (um_mem demo_user) 4097 [7; 8] m' ∧
  kcopy_from_user 4097 2 (mk_umem (um_cpu demo_user) m') = Ok (mk_umem (um_cpu demo_user) m', [7; 8]).
Proof.
  assert (mapped (um_mem demo_user) 4097 2) as Hm.
  { intros i Hi. assert (i = 0 ∨ i = 1) as [H|H] by lia; rewrite H; vm_compute; eauto. }
  split; [reflexivity|]. split; [exact Hm|].
  apply (user_copies_are_safe demo_user 4097 [7; 8]); [reflexivity|exact Hm].
Defined.
