(* ===== verification/Vfs.v ===== *)
(** * Virtual file system

    [src/kernel/lib/fs/fs.cpp] with the inode classes of [tmpfs], [initramfs], [devfs] and [procfs]: mount
    points, path resolution, [getcwd], [open], [stat], [readdir], [mkdir] and [mount].  Inodes, mount points
    and file descriptors are objects in stores, known by their addresses; 0 is [nullptr].  A virtual method
    is a function by cases on the class of the inode.

    Names and paths are lists of bytes: [KString.v] shows that a [kstring] is one, and [Algo.v] that
    [algo::split] is [split_spec] and [algo::join] is [intersperse].

    [new_addr] stands for the address [operator new] returns, and [uninit a] for what a member that no
    constructor sets holds in the object at [a]. *)

From Stdlib Require Import String Ascii.
From S2P Require Import Prelude KVector KString Algo.

(** The bytes of a string literal. *)
Definition lit (s : string) : list Z := (λ c, Z.of_nat (nat_of_ascii c)) <$> list_ascii_of_string s.

(** [c_str()] up to its terminator. *)
Fixpoint c_str (l : list Z) : list Z :=
  match l with [] => [] | b :: l' => if b =? 0 then [] else b :: c_str l' end.

(** Values of [<cerrno>] on x86-64. *)
Definition ENOENT : Z := 2.
Definition EBADF : Z := 9.
Definition ENOTDIR : Z := 20.
Definition EISDIR : Z := 21.
Definition EINVAL : Z := 22.
Definition ENOTTY : Z := 25.
Definition ESPIPE : Z := 29.
Definition EROFS : Z := 30.
Definition ERANGE : Z := 34.

Definition SLASH : Z := 47.

(** ** Data *)

Inductive FileType := FT_NONE | REGULAR | DIRECTORY | CHAR_DEVICE.
#[export] Instance FileType_eq_dec : EqDecision FileType.
Proof. solve_decision. Defined.

(** The classes of inodes with their own members. *)
Inductive inode_class :=
  | TmpFileInode (data : list Z)
  | TmpDirectoryInode (children : list Z)
  | InitramfsFileInode (tar_data : Z)
  | InitramfsDirectoryInode (children : list Z)
  | DevDirectoryInode
  | DevNullInode
  | DevTtyInode
  | ProcDirectoryInode
  | ProcSelfInode.

Record Inode := mk_Inode {
  i_mountpoint : Z;
  i_parent : Z;
  i_ino : Z;
  i_size : Z;
  i_type : FileType;
  i_name : list Z;
  i_class : inode_class;
}.

Inductive mount_class :=
  | TmpMountPoint (next_ino : Z)
  | InitramfsMountPoint (next_ino : Z)
  | DevMountPoint (null_inode tty1_inode tty2_inode : Z)
  | ProcMountPoint (self_inode : Z).

Record MountPoint := mk_MountPoint {
  mp_path : list Z;
  mp_mounted_on : Z;
  mp_root : Z;
  mp_class : mount_class;
}.

Record FileDescriptor := mk_FileDescriptor {
  fd_inode : Z;
  fd_path : list Z;
  fd_offset : Z;
  fd_flags : Z;
}.

Record Stat := mk_Stat {
  st_type : FileType;
  st_size : Z;
}.

Record DirEntry := mk_DirEntry {
  de_name : list Z;
  de_type : FileType;
}.

(** The file system; [v_cwd] is the [cwd_inode] of the current process. *)
Record vfs := mk_vfs {
  inodes : gmap Z Inode;
  mounts : gmap Z MountPoint;
  fdescs : gmap Z FileDescriptor;
  g_root_mountpoint : Z;
  g_mountpoints : list Z;
  v_cwd : Z;
}.

Definition with_inodes (f : gmap Z Inode → gmap Z Inode) (s : vfs) : vfs :=
  mk_vfs (f (inodes s)) (mounts s) (fdescs s) (g_root_mountpoint s) (g_mountpoints s) (v_cwd s).
Definition with_mounts (f : gmap Z MountPoint → gmap Z MountPoint) (s : vfs) : vfs :=
  mk_vfs (inodes s) (f (mounts s)) (fdescs s) (g_root_mountpoint s) (g_mountpoints s) (v_cwd s).
Definition with_fdescs (f : gmap Z FileDescriptor → gmap Z FileDescriptor) (s : vfs) : vfs :=
  mk_vfs (inodes s) (mounts s) (f (fdescs s)) (g_root_mountpoint s) (g_mountpoints s) (v_cwd s).
Definition with_cwd (p : Z) (s : vfs) : vfs :=
  mk_vfs (inodes s) (mounts s) (fdescs s) (g_root_mountpoint s) (g_mountpoints s) p.

Definition with_parent (p : Z) (i : Inode) : Inode :=
  mk_Inode (i_mountpoint i) p (i_ino i) (i_size i) (i_type i) (i_name i) (i_class i).
Definition with_name (n : list Z) (i : Inode) : Inode :=
  mk_Inode (i_mountpoint i) (i_parent i) (i_ino i) (i_size i) (i_type i) n (i_class i).
Definition with_class (c : inode_class) (i : Inode) : Inode :=
  mk_Inode (i_mountpoint i) (i_parent i) (i_ino i) (i_size i) (i_type i) (i_name i) c.
Definition with_size (n : Z) (i : Inode) : Inode :=
  mk_Inode (i_mountpoint i) (i_parent i) (i_ino i) n (i_type i) (i_name i) (i_class i).

(** Dereferencing a pointer: nothing is at 0. *)
Definition inode (p : Z) : M vfs Inode := o ← gets (λ s, inodes s !! p); of_option o.
Definition mount_point (p : Z) : M vfs MountPoint := o ← gets (λ s, mounts s !! p); of_option o.
Definition fdesc (p : Z) : M vfs FileDescriptor := o ← gets (λ s, fdescs s !! p); of_option o.
Definition set_inode (p : Z) (f : Inode → Inode) : M vfs unit :=
  _ ← inode p; modify (with_inodes (alter f p)).
Definition set_mount (p : Z) (f : MountPoint → MountPoint) : M vfs unit :=
  _ ← mount_point p; modify (with_mounts (alter f p)).
Definition set_fdesc (p : Z) (f : FileDescriptor → FileDescriptor) : M vfs unit :=
  _ ← fdesc p; modify (with_fdescs (alter f p)).

(** ** Virtual methods that read the tree *)

(** The children of the directories that have a list of them. *)
Definition children (c : inode_class) : option (list Z) :=
  match c with TmpDirectoryInode cs | InitramfsDirectoryInode cs => Some cs | _ => None end.

Fixpoint find_child (cs : list Z) (name : list Z) : M vfs Z :=
  match cs with
  | [] => mret 0
  | c :: cs' => i ← inode c; if decide (i_name i = name) then mret c else find_child cs' name
  end.

Definition lookup_name (p : Z) (name : list Z) : M vfs Z :=
  i ← inode p;
  match i_class i with
  | TmpDirectoryInode cs | InitramfsDirectoryInode cs => find_child cs name
  | DevDirectoryInode =>
      mp ← mount_point (i_mountpoint i);
      match mp_class mp with
      | DevMountPoint null tty1 tty2 =>
          mret (if decide (name = lit "null") then null else if decide (name = lit "tty1") then tty1
                else if decide (name = lit "tty2") then tty2 else 0)
      | _ => fault
      end
  | ProcDirectoryInode =>
      mp ← mount_point (i_mountpoint i);
      match mp_class mp with
      | ProcMountPoint self => mret (if decide (name = lit "self") then self else 0)
      | _ => fault
      end
  | _ => mret 0
  end.

Fixpoint entries_of (cs : list Z) : M vfs (list DirEntry) :=
  match cs with
  | [] => mret []
  | c :: cs' => i ← inode c; l ← entries_of cs'; mret (mk_DirEntry (i_name i) (i_type i) :: l)
  end.

(** [readdir]: the entries added to [entries], and the result. *)
Definition inode_readdir (p : Z) (entries : list DirEntry) : M vfs (list DirEntry * Z) :=
  i ← inode p;
  match i_class i with
  | TmpDirectoryInode cs | InitramfsDirectoryInode cs =>
      l ← entries_of cs; mret (entries ++ l, Z.of_nat (length cs))
  | DevDirectoryInode =>
      let l := entries ++ [mk_DirEntry (lit "null") CHAR_DEVICE; mk_DirEntry (lit "tty1") CHAR_DEVICE;
                           mk_DirEntry (lit "tty2") CHAR_DEVICE] in
      mret (l, Z.of_nat (length l))
  | ProcDirectoryInode =>
      let l := entries ++ [mk_DirEntry (lit "self") REGULAR] in mret (l, Z.of_nat (length l))
  | _ => mret (entries, - ENOTDIR)
  end.

(** [stat]: what it stores through the pointer, if anything, and the result. *)
Definition inode_stat (p : Z) : M vfs (option Stat * Z) :=
  i ← inode p;
  mret match i_class i with
       | TmpFileInode _ | TmpDirectoryInode _ => (Some (mk_Stat (i_type i) (i_size i)), 0)
       | DevNullInode | DevTtyInode => (Some (mk_Stat CHAR_DEVICE 0), 0)
       | InitramfsFileInode _ | InitramfsDirectoryInode _ | DevDirectoryInode | ProcDirectoryInode | ProcSelfInode => (None, 0)
       end.

(** [open] and [close] return 0 in every class. *)
Definition inode_open (p : Z) : M vfs Z := _ ← inode p; mret 0.
Definition inode_close (p : Z) : M vfs Z := _ ← inode p; mret 0.

(** ** Paths *)

Fixpoint getcwd_loop (fuel : nat) (p : Z) (path : list (list Z)) : M vfs (list (list Z)) :=
  if p =? 0 then mret path else
  match fuel with
  | O => hang
  | S fuel' =>
      i ← inode p;
      getcwd_loop fuel' (i_parent i) (if decide (0 < length (i_name i))%nat then i_name i :: path else path)
  end.

(** A chain of parents that repeats an inode does not end. *)
Definition getcwd (p : Z) : M vfs (list Z) :=
  n ← gets (λ s, size (inodes s));
  path ← getcwd_loop n p [];
  mret (SLASH :: intersperse SLASH path).

Fixpoint find_mount (mps : list Z) (p : Z) : M vfs Z :=
  match mps with
  | [] => mret 0
  | mp :: mps' => m ← mount_point mp; if mp_mounted_on m =? p then mret mp else find_mount mps' p
  end.
Definition find_mount_at (p : Z) : M vfs Z := mps ← gets g_mountpoints; find_mount mps p.

(** The directory [..] stands for. *)
Definition dotdot (current : Z) : M vfs Z :=
  i ← inode current;
  mp ← mount_point (i_mountpoint i);
  if (current =? mp_root mp) && negb (mp_mounted_on mp =? 0) then
    m ← inode (mp_mounted_on mp); mret (i_parent m)
  else mret (if negb (i_parent i =? 0) then i_parent i else current).

Fixpoint resolve_loop (tokens : list (list Z)) (current : Z) : M vfs Z :=
  match tokens with
  | [] => mret current
  | token :: rest =>
      if decide (token = [] ∨ token = lit ".") then resolve_loop rest current else
      if decide (token = lit "..") then next ← dotdot current; resolve_loop rest next else
      next ← lookup_name current (c_str token);
      if next =? 0 then mret 0 else
      mp ← find_mount_at next;
      if negb (mp =? 0) then m ← mount_point mp; resolve_loop rest (mp_root m)
      else resolve_loop rest next
  end.

Definition resolve_tokens (path : list Z) (tokens : list (list Z)) : M vfs Z :=
  root ← gets g_root_mountpoint;
  if root =? 0 then panic else
  cwd ← gets v_cwd;
  start ← (if (default 0 (head path) =? SLASH) || (cwd =? 0)
           then m ← mount_point root; mret (mp_root m) else mret cwd);
  resolve_loop tokens start.

Definition resolve_path (path : list Z) : M vfs Z := resolve_tokens path (split_spec SLASH path).

(** ** Operations that make objects *)

Section changes.
Variable new_addr : vfs → Z.
Variable uninit : Z → Z.

Definition new_inode (i : Z → Inode) : M vfs Z :=
  p ← gets new_addr; _ ← modify (with_inodes (<[p := i p]>)); mret p.
Definition new_mount (m : Z → MountPoint) : M vfs Z :=
  p ← gets new_addr; _ ← modify (with_mounts (<[p := m p]>)); mret p.
Definition new_fdesc (d : FileDescriptor) : M vfs Z :=
  p ← gets new_addr; _ ← modify (with_fdescs (<[p := d]>)); mret p.

(** [static_cast<TmpMountPoint*>(mp)->next_ino++]. *)
Definition tmp_next_ino (mp : Z) : M vfs Z :=
  m ← mount_point mp;
  match mp_class m with
  | TmpMountPoint n =>
      _ ← set_mount mp (λ m, mk_MountPoint (mp_path m) (mp_mounted_on m) (mp_root m) (TmpMountPoint (n + 1)));
      mret n
  | _ => fault
  end.

Definition push_child (p c : Z) : M vfs unit :=
  set_inode p (λ i, with_class match i_class i with
                               | TmpDirectoryInode cs => TmpDirectoryInode (cs ++ [c])
                               | InitramfsDirectoryInode cs => InitramfsDirectoryInode (cs ++ [c])
                               | k => k
                               end i).

(** [new TmpDirectoryInode{name, parent}] and [new TmpFileInode{name, parent}]. *)
Definition new_tmp_inode (name : list Z) (parent : Z) (type : FileType) (c : inode_class) : M vfs Z :=
  par ← inode parent;
  ino ← tmp_next_ino (i_mountpoint par);
  new_inode (λ _, mk_Inode (i_mountpoint par) parent ino 0 type name c).

Definition inode_mkdir (p : Z) (name : list Z) : M vfs Z :=
  i ← inode p;
  match i_class i with
  | TmpDirectoryInode _ =>
      existing ← lookup_name p name;
      if negb (existing =? 0) then mret (-1) else
      c ← new_tmp_inode name p DIRECTORY (TmpDirectoryInode []);
      _ ← push_child p c;
      mret 0
  | InitramfsDirectoryInode _ => mret (- EROFS)
  | DevDirectoryInode | ProcDirectoryInode => mret 0
  | _ => mret (- ENOTDIR)
  end.

Definition inode_create (p : Z) (name : list Z) : M vfs Z :=
  i ← inode p;
  match i_class i with
  | TmpDirectoryInode _ =>
      existing ← lookup_name p name;
      if negb (existing =? 0) then mret (-1) else
      c ← new_tmp_inode name p REGULAR (TmpFileInode []);
      _ ← push_child p c;
      mret 0
  | InitramfsDirectoryInode _ => mret (- EROFS)
  | DevDirectoryInode | ProcDirectoryInode => mret 0
  | _ => mret (- ENOTDIR)
  end.

(** ** Mounting *)

Inductive FileSystem := TmpFileSystem | DevFileSystem | ProcFileSystem.

(** [fs->mount(source)]; [mount] sets [mounted_on] and the parent of the root afterwards. *)
Definition fs_mount (f : FileSystem) : M vfs Z :=
  match f with
  | TmpFileSystem =>
      mp ← new_mount (λ p, mk_MountPoint [] (uninit p) 0 (TmpMountPoint 2));
      root ← new_inode (λ _, mk_Inode mp 0 1 0 DIRECTORY [] (TmpDirectoryInode []));
      _ ← set_mount mp (λ m, mk_MountPoint (mp_path m) (mp_mounted_on m) root (mp_class m));
      mret mp
  | DevFileSystem =>
      mp ← new_mount (λ p, mk_MountPoint [] (uninit p) 0 (DevMountPoint 0 0 0));
      root ← new_inode (λ p, mk_Inode mp (uninit p) 1 0 DIRECTORY [] DevDirectoryInode);
      null ← new_inode (λ p, mk_Inode mp root 2 (uninit p) CHAR_DEVICE [] DevNullInode);
      tty1 ← new_inode (λ p, mk_Inode mp root 3 (uninit p) CHAR_DEVICE [] DevTtyInode);
      tty2 ← new_inode (λ p, mk_Inode mp root 4 (uninit p) CHAR_DEVICE [] DevTtyInode);
      _ ← set_mount mp (λ m, mk_MountPoint (mp_path m) (mp_mounted_on m) root (DevMountPoint null tty1 tty2));
      mret mp
  | ProcFileSystem =>
      mp ← new_mount (λ p, mk_MountPoint [] (uninit p) 0 (ProcMountPoint 0));
      root ← new_inode (λ p, mk_Inode mp (uninit p) 1 0 DIRECTORY [] ProcDirectoryInode);
      self ← new_inode (λ p, mk_Inode mp root 2 (uninit p) CHAR_DEVICE [] ProcSelfInode);
      _ ← set_mount mp (λ m, mk_MountPoint (mp_path m) (mp_mounted_on m) root (ProcMountPoint self));
      mret mp
  end.

Definition register_mount (path : list Z) (mp : Z) : M vfs unit :=
  _ ← set_mount mp (λ m, mk_MountPoint path (mp_mounted_on m) (mp_root m) (mp_class m));
  modify (λ s, mk_vfs (inodes s) (mounts s) (fdescs s)
    (if g_root_mountpoint s =? 0 then mp else g_root_mountpoint s) (g_mountpoints s ++ [mp]) (v_cwd s)).

Definition vfs_mount (path : list Z) (f : FileSystem) : M vfs unit :=
  mp ← fs_mount f;
  on ← resolve_path path;
  _ ← set_mount mp (λ m, mk_MountPoint (mp_path m) on (mp_root m) (mp_class m));
  m ← mount_point mp;
  _ ← set_inode (mp_root m) (with_parent on);
  register_mount path mp.

Definition fs_init : M vfs unit :=
  _ ← vfs_mount (lit "/dev") DevFileSystem;
  _ ← vfs_mount (lit "/tmp") TmpFileSystem;
  vfs_mount (lit "/proc") ProcFileSystem.

(** ** Path-based operations *)

Definition fs_open (path : list Z) (flags : Z) : M vfs Z :=
  i ← resolve_path path;
  if i =? 0 then mret 0 else
  fd ← new_fdesc (mk_FileDescriptor i path 0 flags);
  _ ← inode_open i;
  mret fd.

Definition fs_stat (path : list Z) : M vfs (option Stat * Z) :=
  i ← resolve_path path;
  if i =? 0 then mret (None, -1) else inode_stat i.

Definition fs_readdir (path : list Z) (out : list DirEntry) : M vfs (list DirEntry * Z) :=
  p ← resolve_path path;
  if p =? 0 then mret (out, -1) else
  i ← inode p;
  if decide (i_type i = DIRECTORY) then inode_readdir p out else mret (out, -1).

(** [tokens.back()] of an empty vector reads outside its buffer. *)
Definition fs_mkdir (path : list Z) : M vfs Z :=
  let tokens := split_spec SLASH path in
  new_dir ← of_option (last tokens);
  p ← resolve_tokens path (removelast tokens);
  if p =? 0 then mret (-1) else
  i ← inode p;
  if decide (i_type i = DIRECTORY) then inode_mkdir p (c_str new_dir) else mret (-1).
End changes.
