(* ===== verification/VfsProofs.v ===== *)
(** * The directory tree

    What the stores of [Vfs.v] stand for: a tree of directories whose nodes are known by their paths, lists
    of names.  Resolution of a path walks this tree, [getcwd] prints the path of a directory, and the
    operations that change the file system keep the invariant. *)

From Stdlib Require Import String Ascii.
From S2P Require Import Prelude KVector KString Algo Vfs.

Section tree.
Implicit Types (s : vfs) (p d c mp : Z) (n : list Z) (ns : list (list Z)).

(** A name a directory entry can be looked up by. *)
Definition good_name n : Prop := n ≠ [] ∧ SLASH ∉ n ∧ 0 ∉ n ∧ n ≠ lit "." ∧ n ≠ lit "..".

(** [c] is the entry [n] of the directory [d]. *)
Inductive child s d n c : Prop :=
  | child_listed i cs j : inodes s !! d = Some i → children (i_class i) = Some cs → c ∈ cs →
      inodes s !! c = Some j → i_name j = n → child s d n c
  | child_dev i m null tty1 tty2 : inodes s !! d = Some i → i_class i = DevDirectoryInode →
      mounts s !! i_mountpoint i = Some m → mp_class m = DevMountPoint null tty1 tty2 →
      (n, c) ∈ [(lit "null", null); (lit "tty1", tty1); (lit "tty2", tty2)] → child s d n c
  | child_proc i m self : inodes s !! d = Some i → i_class i = ProcDirectoryInode →
      mounts s !! i_mountpoint i = Some m → mp_class m = ProcMountPoint self →
      n = lit "self" → c = self → child s d n c.

Definition mounted s mp (m : MountPoint) : Prop := mp ∈ g_mountpoints s ∧ mounts s !! mp = Some m.

Definition is_dir (k : inode_class) : bool :=
  match k with
  | TmpDirectoryInode _ | InitramfsDirectoryInode _ | DevDirectoryInode | ProcDirectoryInode => true
  | _ => false
  end.

(** The mount point a directory of the class relies on. *)
Definition fits (k : inode_class) (mk : mount_class) : Prop :=
  match k, mk with
  | DevDirectoryInode, DevMountPoint _ _ _ | ProcDirectoryInode, ProcMountPoint _ | TmpDirectoryInode _, TmpMountPoint _ => True
  | (DevDirectoryInode | ProcDirectoryInode | TmpDirectoryInode _), _ => False
  | _, _ => True
  end.

Record vfs_wf s : Prop := {
  wf_null : inodes s !! 0 = None ∧ mounts s !! 0 = None;
  wf_root : ∃ m, mounted s (g_root_mountpoint s) m ∧ mp_mounted_on m = 0;
  (* mount points and their roots *)
  wf_mount mp : mp ∈ g_mountpoints s → ∃ m r, mounts s !! mp = Some m ∧ inodes s !! mp_root m = Some r ∧
    i_name r = [] ∧ i_mountpoint r = mp ∧ i_parent r = mp_mounted_on m ∧ i_type r = DIRECTORY;
  wf_once mp mp' m m' : mounted s mp m → mounted s mp' m' → mp_mounted_on m = mp_mounted_on m' →
    mp_mounted_on m ≠ 0 → mp = mp';
  wf_on mp m : mounted s mp m → mp_mounted_on m ≠ 0 →
    ∃ j, inodes s !! mp_mounted_on m = Some j ∧ i_type j ≠ CHAR_DEVICE;
  (* entries of directories *)
  wf_child d n c : child s d n c → ∃ i j, inodes s !! d = Some i ∧ i_type i = DIRECTORY ∧ inodes s !! c = Some j ∧
    i_parent j = d ∧ i_mountpoint j = i_mountpoint i ∧ good_name n ∧ (i_name j = n ∨ i_type j = CHAR_DEVICE);
  wf_children d i cs c : inodes s !! d = Some i → children (i_class i) = Some cs → c ∈ cs → is_Some (inodes s !! c);
  wf_dir d i : inodes s !! d = Some i → i_type i = DIRECTORY ↔ is_dir (i_class i) = true;
  wf_distinct d n c c' : child s d n c → child s d n c' → c = c';
  wf_name d n n' c : child s d n c → child s d n' c → n = n';
  (* every inode belongs to a mount point that is there, and is not its root if it is an entry *)
  wf_inode p i : inodes s !! p = Some i → i_mountpoint i ∈ g_mountpoints s;
  wf_entry d n c mp m : child s d n c → mounted s mp m → mp_root m ≠ c;
  wf_dev d i : inodes s !! d = Some i → ∃ m, mounts s !! i_mountpoint i = Some m ∧ fits (i_class i) (mp_class m);
}.

(** The inode an entry [c] leads to: the root of what is mounted on it, or itself. *)
Definition crosses s c p : Prop :=
  (∃ mp m, mounted s mp m ∧ mp_mounted_on m = c ∧ p = mp_root m) ∨
  ((∀ mp m, mounted s mp m → mp_mounted_on m ≠ c) ∧ p = c).

Inductive at_path s : Z → list (list Z) → Prop :=
  | at_root m : mounts s !! g_root_mountpoint s = Some m → at_path s (mp_root m) []
  | at_entry d ns n c p : at_path s d ns → child s d n c → crosses s c p → at_path s p (ns ++ [n]).

Definition has_path s ns : Prop := ∃ p, at_path s p ns.

(** What a path means in a tree whose nodes are [T]: [.] and empty components stay, [..] removes the last
    component, a name is appended when the tree has that node. *)
Inductive walk (T : list (list Z) → Prop) : list (list Z) → list (list Z) → option (list (list Z)) → Prop :=
  | walk_done ns : walk T ns [] (Some ns)
  | walk_stay ns t ts r : t = [] ∨ t = lit "." → walk T ns ts r → walk T ns (t :: ts) r
  | walk_up ns t ts r : t = lit ".." → walk T (removelast ns) ts r → walk T ns (t :: ts) r
  | walk_enter ns t ts r : t ≠ [] → t ≠ lit "." → t ≠ lit ".." → T (ns ++ [t]) → walk T (ns ++ [t]) ts r →
      walk T ns (t :: ts) r
  | walk_missing ns t ts : t ≠ [] → t ≠ lit "." → t ≠ lit ".." → ¬ T (ns ++ [t]) → walk T ns (t :: ts) None.

Lemma walk_det T ns ts r r' : walk T ns ts r → walk T ns ts r' → r = r'.
Proof. intros H. revert r'. induction H; intros r' H'; inversion H'; subst; try done; naive_solver. Qed.

(** The result of a resolution: the node, or a null pointer. *)
Definition resolves s (res : outcome (vfs * Z)) (r : option (list (list Z))) : Prop :=
  match r with Some ns => ∃ p, at_path s p ns ∧ res = Ok (s, p) | None => res = Ok (s, 0) end.

Lemma c_str_id l : 0 ∉ l → c_str l = l.
Proof.
  induction l as [|b l IH]; [done|]. intros [Hb Hl]%not_elem_of_cons. cbn [c_str].
  rewrite (proj2 (Z.eqb_neq b 0)) by done. by rewrite IH.
Qed.

(** ** Lookup *)

Lemma inode_run s p i : inodes s !! p = Some i → inode p s = Ok (s, i).
Proof. intros H. unfold inode, mbind, M_bind, gets. by rewrite H. Qed.
Lemma mount_run s p m : mounts s !! p = Some m → mount_point p s = Ok (s, m).
Proof. intros H. unfold mount_point, mbind, M_bind, gets. by rewrite H. Qed.

Lemma find_child_run s cs n : (∀ c, c ∈ cs → is_Some (inodes s !! c)) →
  (∃ c j, c ∈ cs ∧ inodes s !! c = Some j ∧ i_name j = n ∧ find_child cs n s = Ok (s, c)) ∨
  ((∀ c j, c ∈ cs → inodes s !! c = Some j → i_name j ≠ n) ∧ find_child cs n s = Ok (s, 0)).
Proof.
  induction cs as [|c cs IH]; intros Hin.
  - right. split; [|done]. by intros c j ?%not_elem_of_nil.
  - destruct (Hin c) as [j Hj]; [left|]. cbn [find_child]. rewrite (bind_ok _ _ _ _ _ (inode_run _ _ _ Hj)).
    case_decide as Hn; [left; exists c, j; split_and!; [left|done..]|].
    destruct IH as [(c' & j' & Hc' & Hj' & Hn' & Hr)|[Hno Hr]]; [|left|right].
    + intros c' Hc'. apply Hin. by right.
    + exists c', j'. split_and!; [by right|done..].
    + split; [|done]. intros c' j' [->|Hc']%elem_of_cons Hj'; [congruence|by eauto].
Qed.

Section wf.
Context {s : vfs} (W : vfs_wf s).

Lemma child_nonzero d n c : child s d n c → c ≠ 0.
Proof. intros (i & j & _ & _ & Hj & _)%(wf_child _ W) ->. destruct (wf_null _ W). congruence. Qed.

(** The entries of a directory, by its class. *)
Definition entry_of (i : Inode) n c : Prop :=
  match i_class i with
  | TmpDirectoryInode cs | InitramfsDirectoryInode cs => ∃ j, c ∈ cs ∧ inodes s !! c = Some j ∧ i_name j = n
  | DevDirectoryInode => ∃ m null tty1 tty2, mounts s !! i_mountpoint i = Some m ∧
      mp_class m = DevMountPoint null tty1 tty2 ∧ (n, c) ∈ [(lit "null", null); (lit "tty1", tty1); (lit "tty2", tty2)]
  | ProcDirectoryInode => ∃ m, mounts s !! i_mountpoint i = Some m ∧ mp_class m = ProcMountPoint c ∧ n = lit "self"
  | _ => False
  end.

Lemma child_entry d i n c : inodes s !! d = Some i → child s d n c ↔ entry_of i n c.
Proof.
  intros Hi. unfold entry_of. split.
  - intros [i' cs j Hi' Hcs Hc Hj Hn|i' m null tty1 tty2 Hi' Hk Hm Hc Hin|i' m self Hi' Hk Hm Hc Hn ->];
      rewrite Hi in Hi'; injection Hi' as <-; [|rewrite Hk; by eauto 10..].
    destruct (i_class i); try done; injection Hcs as ->; by eauto.
  - destruct (i_class i) eqn:Hk; try done.
    + intros (j & ?). eapply child_listed; [done|by rewrite Hk|naive_solver..].
    + intros (j & ?). eapply child_listed; [done|by rewrite Hk|naive_solver..].
    + intros (m & null & tty1 & tty2 & ?). eapply child_dev; naive_solver.
    + intros (m & ?). eapply child_proc; naive_solver.
Qed.

(** [lookup] finds the entry there is, and 0 when there is none. *)
Lemma lookup_run d i n : inodes s !! d = Some i →
  (∃ c, child s d n c ∧ lookup_name d n s = Ok (s, c)) ∨
  ((∀ c, ¬ child s d n c) ∧ lookup_name d n s = Ok (s, 0)).
Proof.
  intros Hi. unfold lookup_name. rewrite (bind_ok _ _ _ _ _ (inode_run _ _ _ Hi)).
  setoid_rewrite (child_entry _ _ _ _ Hi). pose proof (wf_dev _ W _ _ Hi) as Hdev. unfold entry_of.
  assert (∀ cs, children (i_class i) = Some cs →
    (∃ c, (∃ j, c ∈ cs ∧ inodes s !! c = Some j ∧ i_name j = n) ∧ find_child cs n s = Ok (s, c)) ∨
    ((∀ c, ¬ ∃ j, c ∈ cs ∧ inodes s !! c = Some j ∧ i_name j = n) ∧ find_child cs n s = Ok (s, 0))) as Hlist.
  { intros cs Hcs. destruct (find_child_run s cs n) as [(c & j & Hr)|[Hno Hr]].
    - intros c Hc. by eapply (wf_children _ W).
    - left. exists c. naive_solver.
    - right. naive_solver. }
  destruct (i_class i) eqn:Hk; try (by apply Hlist); try (right; split; [by intros ??|done]).
  - destruct Hdev as (m & Hm & Hfit). destruct (mp_class m) as [| |null tty1 tty2|] eqn:Hc; try done.
    rewrite (bind_ok _ _ _ _ _ (mount_run _ _ _ Hm)), Hc.
    repeat case_decide; [left; eexists; split; [|done]; exists m, null, tty1, tty2; set_solver..|].
    right. split; [|done]. intros c (m' & null' & tty1' & tty2' & Hm' & Hc' & Hin). set_solver.
  - destruct Hdev as (m & Hm & Hfit). destruct (mp_class m) as [| | |self] eqn:Hc; try done.
    rewrite (bind_ok _ _ _ _ _ (mount_run _ _ _ Hm)), Hc.
    case_decide; [left; eexists; split; [by eauto|done]|]. right. split; [|done]. naive_solver.
Qed.

(** ** Crossing mount points *)

Lemma find_mount_run mps c : (∀ mp, mp ∈ mps → ∃ m, mounts s !! mp = Some m) →
  (∃ mp m, mp ∈ mps ∧ mounts s !! mp = Some m ∧ mp_mounted_on m = c ∧ find_mount mps c s = Ok (s, mp)) ∨
  ((∀ mp m, mp ∈ mps → mounts s !! mp = Some m → mp_mounted_on m ≠ c) ∧ find_mount mps c s = Ok (s, 0)).
Proof.
  induction mps as [|mp mps IH]; intros Hin.
  - right. split; [|done]. by intros mp m ?%not_elem_of_nil.
  - destruct (Hin mp) as [m Hm]; [left|]. cbn [find_mount]. rewrite (bind_ok _ _ _ _ _ (mount_run _ _ _ Hm)).
    destruct (Z.eqb_spec (mp_mounted_on m) c) as [Hc|Hc]; [left; exists mp, m; split_and!; [left|done..]|].
    destruct IH as [(mp' & m' & Hmp' & Hr)|[Hno Hr]]; [|left|right].
    + intros mp' Hmp'. apply Hin. by right.
    + exists mp', m'. split; [by right|done].
    + split; [|done]. intros mp' m' [->|Hmp']%elem_of_cons Hm'; [congruence|by eauto].
Qed.

Lemma mounted_root mp m : mounted s mp m → ∃ r, inodes s !! mp_root m = Some r ∧
    i_name r = [] ∧ i_mountpoint r = mp ∧ i_parent r = mp_mounted_on m ∧ i_type r = DIRECTORY.
Proof. intros [Hin Hm]. destruct (wf_mount _ W mp Hin) as (m' & r & Hm' & Hr). simplify_eq. by eauto. Qed.

Lemma crosses_det c p q : c ≠ 0 → crosses s c p → crosses s c q → p = q.
Proof.
  intros Hc [(mp & m & Hm & Hon & ->)|[Hno ->]] [(mp' & m' & Hm' & Hon' & ->)|[Hno' ->]]; [|naive_solver..].
  assert (mp = mp') as <- by (eapply (wf_once _ W); [done..|congruence|congruence]).
  destruct Hm as [_ Hm], Hm' as [_ Hm']. congruence.
Qed.

Lemma cross_run c : ∃ p, crosses s c p ∧ ∀ B (k : Z → M vfs B),
  (mp ← find_mount_at c; if negb (mp =? 0) then m ← mount_point mp; k (mp_root m) else k c) s = k p s.
Proof.
  destruct (find_mount_run (g_mountpoints s) c) as [(mp & m & Hmp & Hm & Hon & Hr)|[Hno Hr]].
  - intros mp Hmp. destruct (wf_mount _ W mp Hmp) as (m & ? & ? & ?). by eauto.
  - exists (mp_root m). split; [left; by exists mp, m|]. intros B k.
    rewrite (bind_ok (find_mount_at c) _ s s mp) by done. destruct (Z.eqb_spec mp 0) as [->|_].
    + by rewrite (proj2 (wf_null _ W)) in Hm.
    + cbn [negb]. by rewrite (bind_ok _ _ _ _ _ (mount_run _ _ _ Hm)).
  - exists c. split; [right; split; [|done]; intros mp m [? ?]; by eapply Hno|]. intros B k.
    by rewrite (bind_ok (find_mount_at c) _ s s 0) by done.
Qed.

(** ** Nodes of the tree *)

Lemma at_path_inode p ns : at_path s p ns → ∃ i, inodes s !! p = Some i.
Proof.
  destruct 1 as [m Hm|d ns n c p Hd Hc [(mp & m & Hm & _ & ->)|[_ ->]]].
  - destruct (wf_root _ W) as (m' & [Hin Hm'] & _). simplify_eq. destruct (mounted_root _ m (conj Hin Hm)) as (r & Hr & _). by eauto.
  - destruct (mounted_root _ _ Hm) as (r & Hr & _). by eauto.
  - destruct (wf_child _ W _ _ _ Hc) as (? & ? & _ & _ & ? & _). by eauto.
Qed.

Lemma at_path_det p q ns : at_path s p ns → at_path s q ns → p = q.
Proof.
  intros Hp. revert q. induction Hp as [m Hm|d ns n c p Hd IH Hc Hx]; intros q Hq; inversion Hq as [m' Hm' E1 E2|d' ns' n' c' q' Hd' Hc' Hx' E1 E2]; subst.
  - congruence.
  - by destruct ns'.
  - by destruct ns.
  - apply app_inj_tail in E2 as [-> ->]. apply IH in Hd' as <-.
    rewrite (wf_distinct _ W _ _ _ _ Hc Hc') in *. eapply crosses_det; [by eapply child_nonzero|done..].
Qed.

Lemma crosses_inj c c' p d n d' n' : child s d n c → child s d' n' c' → crosses s c p → crosses s c' p → c = c'.
Proof.
  intros Hc Hc' [(mp & m & Hm & Hon & ->)|[_ ->]] [(mp' & m' & Hm' & Hon' & E)|[_ E]].
  - destruct (mounted_root _ _ Hm) as (r & Hr & _ & Hmp & _), (mounted_root _ _ Hm') as (r' & Hr' & _ & Hmp' & _).
    rewrite E in Hr. simplify_eq. destruct Hm as [_ Hm], Hm' as [_ Hm']. congruence.
  - by destruct (wf_entry _ W _ _ _ _ _ Hc' Hm).
  - by destruct (wf_entry _ W _ _ _ _ _ Hc Hm').
  - done.
Qed.

(** The root is not an entry of a directory. *)
Lemma root_no_entry m d n c : mounts s !! g_root_mountpoint s = Some m → child s d n c → ¬ crosses s c (mp_root m).
Proof.
  intros Hm Hc Hx. destruct (wf_root _ W) as (m' & Hm' & Hon). assert (m' = m) as -> by (destruct Hm'; congruence).
  destruct Hx as [(mp & m' & Hmp & Hon' & E)|[_ E]]; [|by destruct (wf_entry _ W _ _ _ _ _ Hc Hm')].
  destruct (mounted_root _ _ Hm') as (r & Hr & _ & Hmp1 & _), (mounted_root _ _ Hmp) as (r' & Hr' & _ & Hmp2 & _).
  destruct Hmp as [_ Hmp]. apply (child_nonzero _ _ _ Hc). congruence.
Qed.

(** An inode is at one path only. *)
Lemma at_path_inj p ns ns' : at_path s p ns → at_path s p ns' → ns = ns'.
Proof.
  intros Hp. revert ns'. induction Hp as [m Hm|d ns n c p Hd IH Hc Hx]; intros ns' Hq;
    inversion Hq as [m' Hm' E1 E2|d' ns1 n' c' q' Hd' Hc' Hx' E1 E2]; subst; [done|..].
  - by destruct (root_no_entry _ _ _ _ Hm Hc').
  - by destruct (root_no_entry _ _ _ _ Hm' Hc).
  - rewrite <- (crosses_inj _ _ _ _ _ _ _ Hc Hc' Hx Hx') in Hc'.
    destruct (wf_child _ W _ _ _ Hc) as (? & j & _ & _ & Hj & Hpar & _), (wf_child _ W _ _ _ Hc') as (? & j' & _ & _ & Hj' & Hpar' & _).
    assert (d' = d) as -> by congruence. by rewrite (IH _ Hd'), (wf_name _ W _ _ _ _ Hc Hc').
Qed.

(** [..] leads to the parent, through a mount point as well; at the root it stays. *)
Lemma dotdot_run p ns : at_path s p ns → ∃ q, at_path s q (removelast ns) ∧ dotdot p s = Ok (s, q).
Proof.
  intros [m Hm|d ns' n c q Hd Hc Hx].
  - exists (mp_root m). split; [by constructor|]. destruct (wf_root _ W) as (m' & [Hin Hm'] & Hon). simplify_eq.
    destruct (mounted_root _ m (conj Hin Hm)) as (r & Hr & _ & Hmp & Hpar & _).
    unfold dotdot. rewrite (bind_ok _ _ _ _ _ (inode_run _ _ _ Hr)), Hmp, (bind_ok _ _ _ _ _ (mount_run _ _ _ Hm)).
    by rewrite Hpar, Hon, andb_false_r.
  - exists d. rewrite removelast_last. split; [done|]. pose proof (child_nonzero _ _ _ Hc) as Hc0.
    destruct (wf_child _ W _ _ _ Hc) as (i & j & Hi & _ & Hj & Hpar & Hjmp & _).
    destruct Hx as [(mp & m & Hm & Hon & ->)|[_ ->]]; unfold dotdot.
    + destruct (mounted_root _ m Hm) as (r & Hr & _ & Hmp & Hrpar & _). destruct Hm as [_ Hm].
      rewrite (bind_ok _ _ _ _ _ (inode_run _ _ _ Hr)), Hmp, (bind_ok _ _ _ _ _ (mount_run _ _ _ Hm)), Hon.
      rewrite Z.eqb_refl, (proj2 (Z.eqb_neq c 0)) by done. cbn [negb andb].
      rewrite (bind_ok _ _ _ _ _ (inode_run _ _ _ Hj)). by rewrite Hpar.
    + destruct (wf_mount _ W (i_mountpoint j)) as (m & _ & Hm & _); [by eapply (wf_inode _ W)|].
      rewrite (bind_ok _ _ _ _ _ (inode_run _ _ _ Hj)), (bind_ok _ _ _ _ _ (mount_run _ _ _ Hm)).
      rewrite (proj2 (Z.eqb_neq c (mp_root m))); [cbn [andb]|].
      * rewrite Hpar, (proj2 (Z.eqb_neq d 0)); [done|]. intros ->. by rewrite (proj1 (wf_null _ W)) in Hi.
      * intros He. by eapply (wf_entry _ W _ _ _ (i_mountpoint j) m Hc); [split; [by eapply (wf_inode _ W)|]|].
Qed.

(** ** Resolution *)

Lemma resolve_loop_run tokens p ns : at_path s p ns → Forall (λ t, 0 ∉ t) tokens →
  ∃ r, walk (has_path s) ns tokens r ∧ resolves s (resolve_loop tokens p s) r.
Proof.
  intros Hp Ht. revert p ns Hp. induction Ht as [|t tokens H0 Ht IH]; intros p ns Hp.
  - exists (Some ns). split; [constructor|]. by exists p.
  - cbn [resolve_loop]. case_decide as Hskip.
    { destruct (IH p ns Hp) as (r & Hw & Hr). exists r. split; [by constructor|done]. }
    case_decide as Hup.
    { destruct (dotdot_run p ns Hp) as (q & Hq & Hrun). rewrite (bind_ok _ _ _ _ _ Hrun).
      destruct (IH q _ Hq) as (r & Hw & Hr). exists r. split; [by constructor|done]. }
    rewrite c_str_id by done. destruct (at_path_inode p ns Hp) as [i Hi].
    destruct (lookup_run p i t Hi) as [(c & Hc & Hrun)|[Hno Hrun]]; rewrite (bind_ok _ _ _ _ _ Hrun).
    + rewrite (proj2 (Z.eqb_neq c 0)) by (by eapply child_nonzero).
      destruct (cross_run c) as (q & Hx & Hk). rewrite Hk. pose proof (at_entry _ _ _ _ _ _ Hp Hc Hx) as Hq.
      destruct (IH q _ Hq) as (r & Hw & Hr). exists r. split; [|done]. apply walk_enter; [naive_solver..|by exists q|done].
    + exists None. split; [|done]. apply walk_missing; [naive_solver..|]. intros [q Hq].
      inversion Hq as [|d' ns' n' c' q' Hd' Hc' Hx' E1 E2]; [by destruct ns|].
      apply app_inj_tail in E2 as [-> ->]. rewrite (at_path_det _ _ _ Hd' Hp) in Hc'. by eapply Hno.
Qed.

(** ** Printing the path *)

(** [depth p k]: the chain of parents of [p] has [k] inodes. *)
Inductive depth : Z → nat → Prop :=
  | depth_null : depth 0 0
  | depth_step p i k : inodes s !! p = Some i → depth (i_parent i) k → depth p (S k).

Lemma depth_det p k k' : depth p k → depth p k' → k = k'.
Proof.
  intros H. revert k'. induction H as [|p i k Hi Hd IH]; intros k' H'; inversion H' as [|? i' k'' Hi' Hd']; subst.
  - done.
  - by rewrite (proj1 (wf_null _ W)) in Hi'.
  - by rewrite (proj1 (wf_null _ W)) in Hi.
  - f_equal. apply IH. congruence.
Qed.

Lemma depth_chain p k : depth p k →
  ∃ l, length l = k ∧ NoDup l ∧ ∀ q, q ∈ l → is_Some (inodes s !! q) ∧ ∃ k', depth q k' ∧ (k' ≤ k)%nat.
Proof.
  induction 1 as [|p i k Hi Hd (l & Hlen & Hnd & Hl)].
  - exists []. split_and!; [done|constructor|by intros q ?%not_elem_of_nil].
  - exists (p :: l). split_and!; [by cbn; f_equal| |].
    + constructor; [|done]. intros (_ & k' & Hk' & Hle)%Hl.
      pose proof (depth_det _ _ _ Hk' (depth_step _ _ _ Hi Hd)). lia.
    + intros q [->|(Hs & k' & Hk' & ?)%Hl]%elem_of_cons.
      * split; [by eauto|]. exists (S k). split; [by econstructor|done].
      * split; [done|]. exists k'. split; [done|lia].
Qed.

(** The chain visits each inode once. *)
Lemma depth_bound p k : depth p k → (k ≤ size (inodes s))%nat.
Proof.
  intros (l & <- & Hnd & Hl)%depth_chain. rewrite <- (size_dom (D := gset Z)).
  rewrite <- (size_list_to_set (C := gset Z) l Hnd). apply subseteq_size.
  intros q Hq%elem_of_list_to_set. apply elem_of_dom. by apply Hl.
Qed.

Lemma getcwd_step p i fuel path : inodes s !! p = Some i → getcwd_loop (S fuel) p path s =
  getcwd_loop fuel (i_parent i) (if decide (i_name i = []) then path else i_name i :: path) s.
Proof.
  intros Hi. cbn [getcwd_loop]. rewrite (proj2 (Z.eqb_neq p 0)).
  - rewrite (bind_ok _ _ _ _ _ (inode_run _ _ _ Hi)). destruct (i_name i); cbn; by repeat case_decide; try lia.
  - intros ->. by rewrite (proj1 (wf_null _ W)) in Hi.
Qed.

Lemma getcwd_loop_run p ns i : at_path s p ns → inodes s !! p = Some i → i_type i ≠ CHAR_DEVICE →
  ∃ k, depth p k ∧ ∀ fuel path, (k ≤ fuel)%nat → getcwd_loop fuel p path s = Ok (s, ns ++ path).
Proof.
  intros Hp. revert i. induction Hp as [m Hm|d ns n c p Hd IH Hc Hx]; intros i Hi Hty.
  - destruct (wf_root _ W) as (m' & [Hin Hm'] & Hon). simplify_eq.
    destruct (mounted_root _ m (conj Hin Hm)) as (r & Hr & Hname & _ & Hpar & _). simplify_eq.
    exists 1%nat. split; [econstructor; [done|]; rewrite Hpar, Hon; constructor|]. intros [|fuel] path Hf; [lia|].
    rewrite (getcwd_step _ _ _ _ Hi), Hname, Hpar, Hon. by destruct fuel.
  - destruct (wf_child _ W _ _ _ Hc) as (di & j & Hdi & Hdir & Hj & Hpar & _ & (Hne & _) & Hname).
    destruct (IH di) as (k & Hk & Hrun); [done|by rewrite Hdir|].
    assert (depth c (S k)) as Hdc by (econstructor; [done|by rewrite Hpar]).
    assert (∀ fuel path, i_type j ≠ CHAR_DEVICE → (S k ≤ fuel)%nat → getcwd_loop fuel c path s = Ok (s, (ns ++ [n]) ++ path)) as Hgo.
    { intros [|fuel] path Hcd Hf; [lia|]. destruct Hname as [Hname|]; [|done].
      rewrite (getcwd_step _ _ _ _ Hj), Hname, Hpar, decide_False by done. rewrite Hrun by lia. by rewrite <- app_assoc. }
    destruct Hx as [(mp & m & Hm & Hon & ->)|[_ ->]].
    + destruct (mounted_root _ m Hm) as (r & Hr & Hrn & _ & Hrp & _).
      destruct (wf_on _ W _ _ Hm) as (j' & Hj' & Hcd); [rewrite Hon; by eapply child_nonzero|]. simplify_eq.
      exists (S (S k)). split; [econstructor; [done|by rewrite Hrp]|]. intros [|fuel] path Hf; [lia|].
      rewrite (getcwd_step _ _ _ _ Hi), Hrn, Hrp. apply Hgo; [done|lia].
    + simplify_eq. exists (S k). split; [done|]. intros. by apply Hgo.
Qed.

Lemma getcwd_run p ns i : at_path s p ns → inodes s !! p = Some i → i_type i ≠ CHAR_DEVICE →
  getcwd p s = Ok (s, SLASH :: intersperse SLASH ns).
Proof.
  intros Hp Hi Hty. destruct (getcwd_loop_run p ns i Hp Hi Hty) as (k & Hk & Hrun).
  unfold getcwd. rewrite (bind_ok (gets _) _ s s (size (inodes s))) by done.
  rewrite (bind_ok _ _ s s ns); [done|]. rewrite Hrun by (by eapply depth_bound). by rewrite app_nil_r.
Qed.

Lemma at_path_good p ns : at_path s p ns → Forall good_name ns.
Proof.
  induction 1 as [|d ns n c p Hd IH Hc Hx]; [constructor|]. apply Forall_app. split; [done|].
  constructor; [|constructor]. by destruct (wf_child _ W _ _ _ Hc) as (? & ? & ?); naive_solver.
Qed.

Lemma walk_names T ns ms : Forall good_name ms → (∀ k, T (ns ++ take k ms)) → walk T ns ms (Some (ns ++ ms)).
Proof.
  intros Hms. revert ns. induction Hms as [|m ms Hm Hms IH]; intros ns HT; [rewrite app_nil_r; constructor|].
  destruct Hm as (? & _ & _ & ? & ?). apply walk_enter; [done..|apply (HT 1%nat)|].
  replace (ns ++ m :: ms) with ((ns ++ [m]) ++ ms) by (by rewrite <- app_assoc). apply IH.
  intros k. rewrite <- app_assoc. apply (HT (S k)).
Qed.

Lemma at_path_prefix p ns k : at_path s p ns → has_path s (take k ns).
Proof.
  induction 1 as [m Hm|d ns n c p Hd [q Hq] Hc Hx]; [rewrite take_nil; exists (mp_root m); by constructor|].
  destruct (decide (k ≤ length ns)%nat); [rewrite take_app_le by done; by exists q|].
  rewrite take_ge by (rewrite length_app; cbn; lia). exists p. by econstructor.
Qed.
End wf.

(** ** Adding an entry to a directory *)

Definition same_mount (m m' : MountPoint) : Prop :=
  mp_mounted_on m' = mp_mounted_on m ∧ mp_root m' = mp_root m ∧
  (mp_class m' = mp_class m ∨ ∃ k k', (mp_class m = TmpMountPoint k ∧ mp_class m' = TmpMountPoint k') ∨
     (mp_class m = InitramfsMountPoint k ∧ mp_class m' = InitramfsMountPoint k')).

Definition add_child c (k : inode_class) : inode_class :=
  match k with
  | TmpDirectoryInode cs => TmpDirectoryInode (cs ++ [c])
  | InitramfsDirectoryInode cs => InitramfsDirectoryInode (cs ++ [c])
  | k => k
  end.

(** An inode without entries. *)
Definition childless (k : inode_class) : Prop :=
  k = TmpDirectoryInode [] ∨ k = InitramfsDirectoryInode [] ∨
  match k with TmpFileInode _ | InitramfsFileInode _ | DevNullInode | DevTtyInode | ProcSelfInode => True | _ => False end.

(** [s'] is [s] with the new inode [c] as the entry [n] of [p]. *)
Record added s p n c s' : Prop := {
  ad_fresh : c ≠ 0 ∧ inodes s !! c = None;
  ad_name : good_name n ∧ ∀ c', ¬ child s p n c';
  ad_inodes : ∃ i j cs, inodes s !! p = Some i ∧ children (i_class i) = Some cs ∧ i_type i = DIRECTORY ∧
    i_parent j = p ∧ i_mountpoint j = i_mountpoint i ∧ i_name j = n ∧ childless (i_class j) ∧
    (i_type j = DIRECTORY ↔ is_dir (i_class j) = true) ∧
    (∀ cs', i_class j = TmpDirectoryInode cs' → ∃ ds, i_class i = TmpDirectoryInode ds) ∧
    inodes s' = <[c := j]> (<[p := with_class (add_child c (i_class i)) i]> (inodes s));
  ad_mounts mp : option_Forall2 same_mount (mounts s !! mp) (mounts s' !! mp);
  ad_root : g_root_mountpoint s' = g_root_mountpoint s ∧ g_mountpoints s' = g_mountpoints s;
}.

Section added.
Context {s s' : vfs} {p c : Z} {n : list Z} (W : vfs_wf s) (A : added s p n c s').

Lemma added_mounted mp m' : mounted s' mp m' → ∃ m, mounted s mp m ∧ same_mount m m'.
Proof.
  intros [Hin Hm']. rewrite (proj2 (ad_root _ _ _ _ _ A)) in Hin. pose proof (ad_mounts _ _ _ _ _ A mp) as H.
  rewrite Hm' in H. inversion H as [m m'' Hsame E|]; subst. by exists m.
Qed.

Lemma mounted_added mp m : mounted s mp m → ∃ m', mounted s' mp m' ∧ same_mount m m'.
Proof.
  intros [Hin Hm]. pose proof (ad_mounts _ _ _ _ _ A mp) as H. rewrite Hm in H.
  inversion H as [m'' m' Hsame E|]; subst. exists m'. split; [split; [|done]|done].
  by rewrite (proj2 (ad_root _ _ _ _ _ A)).
Qed.

(** The inodes afterwards: [c] is new, and an old one keeps everything but the list of its entries. *)
Lemma added_new : ∃ i j, inodes s !! p = Some i ∧ inodes s' !! c = Some j ∧ i_parent j = p ∧
  i_mountpoint j = i_mountpoint i ∧ i_name j = n ∧ childless (i_class j) ∧
  (i_type j = DIRECTORY ↔ is_dir (i_class j) = true) ∧
  (∀ cs', i_class j = TmpDirectoryInode cs' → ∃ ds, i_class i = TmpDirectoryInode ds).
Proof.
  destruct (ad_inodes _ _ _ _ _ A) as (i & j & cs & Hi & _ & _ & ? & ? & ? & ? & ? & ? & Heq).
  exists i, j. split_and!; try done. rewrite Heq. by simplify_map_eq.
Qed.

Lemma added_old q i : inodes s !! q = Some i → inodes s' !! q =
  Some (with_class (if decide (q = p) then add_child c (i_class i) else i_class i) i).
Proof.
  intros Hq. destruct (ad_fresh _ _ _ _ _ A) as [_ Hc].
  destruct (ad_inodes _ _ _ _ _ A) as (i0 & j & cs & Hi & _ & _ & _ & _ & _ & _ & _ & _ & ->).
  rewrite lookup_insert_ne by congruence. case_decide; simplify_map_eq; [done|]. by destruct i.
Qed.

Lemma added_inv q i' : inodes s' !! q = Some i' → q = c ∨ ∃ i, inodes s !! q = Some i.
Proof.
  destruct (ad_inodes _ _ _ _ _ A) as (i0 & j & cs & Hi & _ & _ & _ & _ & _ & _ & _ & _ & ->).
  destruct (decide (q = c)) as [->|]; [by left|]. destruct (decide (q = p)) as [->|]; simplify_map_eq; by eauto.
Qed.

Lemma childless_children k cs : childless k → children k = Some cs → cs = [].
Proof. intros [->|[->|Hk]]; [by intros [= <-]..|]. by destruct k. Qed.

Lemma added_name q n' : is_Some (inodes s !! q) →
  (∃ j, inodes s' !! q = Some j ∧ i_name j = n') ↔ (∃ j, inodes s !! q = Some j ∧ i_name j = n').
Proof.
  intros [i Hi]. pose proof (added_old _ _ Hi) as Hi'. split; intros (j & Hj & <-); simplify_eq; by eauto.
Qed.

Lemma added_listed d i cs n' c' : inodes s !! d = Some i → children (i_class i) = Some cs →
  (∃ j, c' ∈ (if decide (d = p) then cs ++ [c] else cs) ∧ inodes s' !! c' = Some j ∧ i_name j = n') ↔
  (∃ j, c' ∈ cs ∧ inodes s !! c' = Some j ∧ i_name j = n') ∨ (d = p ∧ n' = n ∧ c' = c).
Proof.
  intros Hi Hcs. destruct added_new as (ip & j & Hp & Hj & _ & _ & Hname & _).
  assert (c' ∈ cs → is_Some (inodes s !! c')) as Hold by apply (wf_children _ W _ _ _ _ Hi Hcs).
  pose proof (added_name c' n') as Hn. destruct (ad_fresh _ _ _ _ _ A) as [_ Hc].
  split.
  - intros (j' & Hin & Hj' & Hn'). assert (c' ∈ cs ∨ (d = p ∧ c' = c)) as [Hin'|[-> ->]] by (case_decide; set_solver).
    + left. destruct (proj1 (Hn (Hold Hin'))) as (k & Hk); [by exists j'|]. by exists k.
    + right. split_and!; [done|congruence|done].
  - intros [(k & Hin & Hk & Hkn)|(-> & -> & ->)].
    + destruct (proj2 (Hn (Hold Hin))) as (k' & ? & ?); [by eauto|]. exists k'. split; [case_decide; set_solver|done].
    + exists j. rewrite decide_True by done. set_solver.
Qed.

Lemma added_entry d i n' c' : inodes s !! d = Some i →
  entry_of (s := s') (with_class (if decide (d = p) then add_child c (i_class i) else i_class i) i) n' c' ↔
  entry_of (s := s) i n' c' ∨ (d = p ∧ n' = n ∧ c' = c).
Proof.
  intros Hi. pose proof (added_listed d i) as Hl. unfold entry_of. cbn [i_class with_class i_mountpoint].
  destruct (ad_inodes _ _ _ _ _ A) as (ip & j & cs & Hp & Hcs & _).
  assert (children (i_class i) = None → d ≠ p) as Hnp by (intros ? ->; congruence).
  pose proof (ad_mounts _ _ _ _ _ A (i_mountpoint i)) as Hm.
  destruct (i_class i) as [| cs' | | cs' | | | | | ] eqn:Hk; cbn [children] in *;
    try (rewrite <- (Hl cs' n' c' Hi eq_refl); by destruct (decide (d = p)));
    (rewrite decide_False by (by apply Hnp)); try (clear -Hnp; naive_solver).
  - split.
    + intros (m' & null & tty1 & tty2 & Hm' & Hc & Hin). left. rewrite Hm' in Hm. inversion Hm as [m ? Hs E|]; subst.
      exists m, null, tty1, tty2. split_and!; [done| |done]. by destruct Hs as (_ & _ & [Hs|(? & ? & [[]|[]])]); congruence.
    + intros [(m & null & tty1 & tty2 & Hm' & Hc & Hin)|(-> & _)]; [|by destruct Hnp].
      rewrite Hm' in Hm. inversion Hm as [? m' Hs E|]; subst. exists m', null, tty1, tty2. split_and!; [done| |done].
      by destruct Hs as (_ & _ & [Hs|(? & ? & [[]|[]])]); congruence.
  - split.
    + intros (m' & Hm' & Hc & Hin). left. rewrite Hm' in Hm. inversion Hm as [m ? Hs E|]; subst.
      exists m. split_and!; [done| |done]. by destruct Hs as (_ & _ & [Hs|(? & ? & [[]|[]])]); congruence.
    + intros [(m & Hm' & Hc & Hin)|(-> & _)]; [|by destruct Hnp].
      rewrite Hm' in Hm. inversion Hm as [? m' Hs E|]; subst. exists m'. split_and!; [done| |done].
      by destruct Hs as (_ & _ & [Hs|(? & ? & [[]|[]])]); congruence.
Qed.

(** The entries afterwards. *)
Lemma added_child d n' c' : child s' d n' c' ↔ child s d n' c' ∨ (d = p ∧ n' = n ∧ c' = c).
Proof.
  destruct added_new as (ip & j & Hp & Hj & _ & _ & Hname & Hkids & _). destruct (ad_fresh _ _ _ _ _ A) as [_ Hc].
  assert (∀ q k, inodes s !! q = Some k → q ≠ c) as Hne by (intros q k ? ->; congruence).
  destruct (decide (inodes s !! d = None ∧ d ≠ c)) as [[Hd Hdc]|Hd].
  { split; [|by intros [[]|(-> & _)]; congruence].
    assert (∀ i, inodes s' !! d ≠ Some i) by (intros i [?|[??]]%added_inv; congruence). intros []; naive_solver. }
  destruct (decide (d = c)) as [->|Hdc].
  { rewrite (child_entry c j n' c' Hj). unfold entry_of. split; [|intros [[]|(-> & _)]; congruence].
    destruct Hkids as [->|[->|Hk]]; [set_solver..|]. by destruct (i_class j). }
  destruct (inodes s !! d) as [i|] eqn:Hi; [|by destruct Hd]. pose proof (added_old _ _ Hi) as Hi'.
  rewrite (child_entry _ _ n' c' Hi), (child_entry _ _ n' c' Hi'). by apply added_entry.
Qed.

(** An old inode keeps its fields, whatever happens to its entries. *)
Lemma added_fields q i : inodes s !! q = Some i → ∃ i', inodes s' !! q = Some i' ∧ i_name i' = i_name i ∧
  i_mountpoint i' = i_mountpoint i ∧ i_parent i' = i_parent i ∧ i_type i' = i_type i.
Proof. intros Hi. rewrite (added_old _ _ Hi). by eexists. Qed.

Lemma added_wf_child d n' c' : child s' d n' c' → ∃ i j, inodes s' !! d = Some i ∧ i_type i = DIRECTORY ∧
  inodes s' !! c' = Some j ∧ i_parent j = d ∧ i_mountpoint j = i_mountpoint i ∧ good_name n' ∧
  (i_name j = n' ∨ i_type j = CHAR_DEVICE).
Proof.
  intros [H|(-> & -> & ->)]%added_child.
  - destruct (wf_child _ W _ _ _ H) as (i & j & Hi & Hd & Hj & Hpar & Hmp & Hg & Hn).
    destruct (added_fields _ _ Hi) as (i' & ? & ? & ? & ? & ?), (added_fields _ _ Hj) as (j' & ? & ? & ? & ? & ?).
    exists i', j'. split_and!; [done|congruence|done|congruence|congruence|done|destruct Hn; [left|right]; congruence].
  - destruct added_new as (i & j & Hi & Hj & Hpar & Hmp & Hn & _).
    destruct (ad_inodes _ _ _ _ _ A) as (i0 & _ & cs & Hi0 & Hcs & Hd & _).
    destruct (added_fields _ _ Hi) as (i' & ? & ? & ? & ? & ?). exists i', j.
    split_and!; [done|congruence|done|done|congruence|exact (proj1 (ad_name _ _ _ _ _ A))|by left].
Qed.

Lemma added_distinct d n' c1 c2 : child s' d n' c1 → child s' d n' c2 → c1 = c2.
Proof.
  pose proof (proj2 (ad_name _ _ _ _ _ A)) as Hno.
  intros [H|(-> & -> & ->)]%added_child [H'|(? & ? & ->)]%added_child; subst; [by eapply (wf_distinct _ W)|by destruct (Hno c1)|by destruct (Hno c2)|done].
Qed.

Lemma added_names d n1 n2 c' : child s' d n1 c' → child s' d n2 c' → n1 = n2.
Proof.
  assert (∀ d n', ¬ child s d n' c) as Hno.
  { intros d' n' (i & j & _ & _ & Hj & _)%(wf_child _ W). destruct (ad_fresh _ _ _ _ _ A). congruence. }
  intros [H|(_ & -> & E)]%added_child [H'|(_ & -> & E')]%added_child; [by eapply (wf_name _ W)| | |done].
  - rewrite E' in H. by apply Hno in H.
  - rewrite E in H'. by apply Hno in H'.
Qed.

Lemma added_root_ne mp m : mounted s mp m → mp_root m ≠ c.
Proof.
  intros Hm He. destruct (mounted_root W _ _ Hm) as (r & Hr & _). destruct (ad_fresh _ _ _ _ _ A). congruence.
Qed.

Lemma same_mount_fits k m m' : same_mount m m' → fits k (mp_class m) → fits k (mp_class m').
Proof. intros (_ & _ & [->|(a & b & [[-> ->]|[-> ->]])]); by destruct k. Qed.

Lemma added_dev q i' : inodes s' !! q = Some i' → ∃ m, mounts s' !! i_mountpoint i' = Some m ∧ fits (i_class i') (mp_class m).
Proof.
  assert (∀ mp m k, mounts s !! mp = Some m → fits k (mp_class m) → ∃ m', mounts s' !! mp = Some m' ∧ fits k (mp_class m')) as Hmt.
  { intros mp m k Hm Hf. pose proof (ad_mounts _ _ _ _ _ A mp) as H. rewrite Hm in H. inversion H; subst.
    by eauto using same_mount_fits. }
  intros Hq. destruct (added_inv _ _ Hq) as [->|[i Hi]].
  - destruct added_new as (i & j & Hi & Hj & _ & Hmp & _ & Hkids & _ & Htmp). simplify_eq.
    destruct (wf_dev _ W _ _ Hi) as (m & Hm & Hfit). rewrite Hmp. apply (Hmt _ m); [done|].
    destruct (i_class i') as [|cs'| | | | | | | ] eqn:Hk; try done; [|by destruct Hkids as [|[|]]..].
    by destruct (Htmp cs' eq_refl) as [ds Hds]; rewrite Hds in Hfit.
  - rewrite (added_old _ _ Hi) in Hq. injection Hq as <-. cbn [i_class with_class i_mountpoint].
    destruct (wf_dev _ W _ _ Hi) as (m & Hm & Hfit). apply (Hmt _ m); [done|]. case_decide; [|done]. by destruct (i_class i).
Qed.

Lemma added_mount mp : mp ∈ g_mountpoints s' → ∃ m r, mounts s' !! mp = Some m ∧ inodes s' !! mp_root m = Some r ∧
  i_name r = [] ∧ i_mountpoint r = mp ∧ i_parent r = mp_mounted_on m ∧ i_type r = DIRECTORY.
Proof.
  rewrite (proj2 (ad_root _ _ _ _ _ A)). intros Hin. destruct (wf_mount _ W mp Hin) as (m & r & Hm & Hr & Hrest).
  destruct (mounted_added mp m) as (m' & [_ Hm'] & Hon & Hroot & _); [done|].
  destruct (added_fields _ _ Hr) as (r' & Hr' & Hf). exists m', r'. rewrite Hroot. split_and!; [done|done|intuition congruence..].
Qed.

Lemma added_children d i' cs c' : inodes s' !! d = Some i' → children (i_class i') = Some cs → c' ∈ cs →
  is_Some (inodes s' !! c').
Proof.
  intros Hi' Hcs Hin. destruct added_new as (? & j & _ & Hj & _ & _ & _ & Hkids & _).
  destruct (added_inv _ _ Hi') as [->|[i Hi]].
  - simplify_eq. rewrite (childless_children _ _ Hkids Hcs) in Hin. by apply not_elem_of_nil in Hin.
  - rewrite (added_old _ _ Hi) in Hi'. injection Hi' as <-. cbn [i_class with_class] in Hcs.
    assert (c' = c ∨ ∃ cs0, children (i_class i) = Some cs0 ∧ c' ∈ cs0) as [->|(cs0 & Hcs0 & Hin0)].
    { case_decide; [|by eauto]. destruct (i_class i); cbn in *; simplify_eq; set_solver. }
    { by eauto. }
    destruct (wf_children _ W _ _ _ _ Hi Hcs0 Hin0) as [k Hk]. by rewrite (added_old _ _ Hk).
Qed.

Lemma added_dir d i' : inodes s' !! d = Some i' → i_type i' = DIRECTORY ↔ is_dir (i_class i') = true.
Proof.
  intros Hi'. destruct (added_inv _ _ Hi') as [->|[i Hi]].
  - destruct added_new as (? & j & _ & Hj & _ & _ & _ & _ & Hd & _). by simplify_eq.
  - rewrite (added_old _ _ Hi) in Hi'. injection Hi' as <-. cbn [i_class with_class i_type].
    rewrite (wf_dir _ W _ _ Hi). case_decide; [|done]. by destruct (i_class i).
Qed.

Lemma added_wf : vfs_wf s'.
Proof.
  destruct (ad_fresh _ _ _ _ _ A) as [Hc0 Hc]. destruct (wf_null _ W) as [Hn1 Hn2]. split.
  - split.
    + destruct (inodes s' !! 0) as [i|] eqn:Hi; [|done]. apply added_inv in Hi as [?|[??]]; congruence.
    + pose proof (ad_mounts _ _ _ _ _ A 0) as H. rewrite Hn2 in H. by inversion H.
  - destruct (wf_root _ W) as (m & Hm & Hon). destruct (mounted_added _ _ Hm) as (m' & Hm' & Hon' & _).
    exists m'. rewrite (proj1 (ad_root _ _ _ _ _ A)). split; [done|congruence].
  - apply added_mount.
  - intros mp mp' m1 m2 (m & Hm & Hon & _)%added_mounted (m' & Hm' & Hon' & _)%added_mounted. rewrite Hon, Hon'.
    by apply (wf_once _ W).
  - intros mp m' (m & Hm & Hon & _)%added_mounted. rewrite Hon. intros H0.
    destruct (wf_on _ W _ _ Hm H0) as (j & Hj & Ht). destruct (added_fields _ _ Hj) as (j' & Hj' & Hf).
    exists j'. split; [done|intuition congruence].
  - apply added_wf_child.
  - apply added_children.
  - apply added_dir.
  - apply added_distinct.
  - apply added_names.
  - intros q i' Hq. rewrite (proj2 (ad_root _ _ _ _ _ A)). destruct (added_inv _ _ Hq) as [->|[i Hi]].
    + destruct added_new as (i & j & Hi & Hj & _ & Hmp & _). simplify_eq. rewrite Hmp. by eapply (wf_inode _ W).
    + rewrite (added_old _ _ Hi) in Hq. injection Hq as <-. exact (wf_inode _ W _ _ Hi).
  - intros d n' c' mp m' Hch (m & Hm & _ & Hroot & _)%added_mounted. rewrite Hroot.
    apply added_child in Hch as [Hch|(-> & -> & ->)]; [by eapply (wf_entry _ W)|by eapply added_root_ne].
  - apply added_dev.
Qed.

Lemma added_crosses c' q : crosses s' c' q ↔ crosses s c' q.
Proof.
  split; (intros [(mp & m & Hm & Hon & ->)|[Hno ->]]; [left|right; split; [|done]]).
  - apply added_mounted in Hm as (m0 & Hm & E1 & E2 & _). exists mp, m0. split_and!; [done|congruence|done].
  - intros mp m (m' & Hm & E1 & _)%mounted_added. rewrite <- E1. by eapply Hno.
  - apply mounted_added in Hm as (m0 & Hm & E1 & E2 & _). exists mp, m0. split_and!; [done|congruence|done].
  - intros mp m (m' & Hm & E1 & _)%added_mounted. rewrite E1. by eapply Hno.
Qed.

(** Nothing is mounted on the new inode. *)
Lemma added_no_mount q : crosses s c q ↔ q = c.
Proof.
  destruct (ad_fresh _ _ _ _ _ A) as [Hc0 Hc].
  assert (∀ mp m, mounted s mp m → mp_mounted_on m ≠ c) as Hno.
  { intros mp m Hm He. destruct (wf_on _ W _ _ Hm) as (j & Hj & _); congruence. }
  split; [|intros ->; by right]. intros [(mp & m & Hm & Hon & _)|[_ ->]]; [by destruct (Hno _ _ Hm)|done].
Qed.

(** The tree afterwards: one node more. *)
Lemma added_at_path q ns' :
  at_path s' q ns' ↔ at_path s q ns' ∨ ∃ ns, at_path s p ns ∧ ns' = ns ++ [n] ∧ q = c.
Proof.
  destruct added_new as (ip & j & Hip & _). split.
  - induction 1 as [m' Hm'|d ns n' c' q Hd IH Hc Hx].
    + left. rewrite (proj1 (ad_root _ _ _ _ _ A)) in Hm'. destruct (wf_root _ W) as (m & Hm & _).
      destruct (mounted_added _ _ Hm) as (m0 & [_ Hm0] & _ & Hroot & _). simplify_eq. rewrite Hroot. constructor. apply Hm.
    + apply added_crosses in Hx. apply added_child in Hc. destruct IH as [IH|(ns0 & Hp & -> & ->)].
      * destruct Hc as [Hc|(-> & -> & ->)]; [left; by econstructor|].
        apply added_no_mount in Hx as ->. right. by exists ns.
      * exfalso. destruct (ad_fresh _ _ _ _ _ A) as [_ Hfr]. destruct Hc as [Hc|(-> & _ & _)].
        -- destruct (wf_child _ W _ _ _ Hc) as (? & ? & ? & _). congruence.
        -- congruence.
  - assert (∀ q ns, at_path s q ns → at_path s' q ns) as Hmono.
    { induction 1 as [m Hm|d ns n' c' q0 Hd IH Hc Hx].
      - pose proof (ad_mounts _ _ _ _ _ A (g_root_mountpoint s)) as H. rewrite Hm in H. inversion H as [? m' (_ & Hr & _) E1 E2|]; subst.
        rewrite <- Hr. constructor. by rewrite (proj1 (ad_root _ _ _ _ _ A)).
      - econstructor; [done|apply added_child; by left|by apply added_crosses]. }
    intros [H|(ns & H & -> & ->)]; [by apply Hmono|].
    eapply at_entry; [by apply Hmono|apply added_child; by right|]. by apply added_crosses, added_no_mount.
Qed.
End added.

(** ** [mkdir] and [create] *)

Section operations.
Context (new_addr : vfs → Z).

(** [operator new] returns an address at which there is no object. *)
Definition fresh_new : Prop :=
  ∀ s, new_addr s ≠ 0 ∧ inodes s !! new_addr s = None ∧ mounts s !! new_addr s = None ∧ fdescs s !! new_addr s = None.

Context (Hfresh : fresh_new).

Lemma set_mount_run s mp m f : mounts s !! mp = Some m → set_mount mp f s = Ok (with_mounts (<[mp := f m]>) s, ()).
Proof.
  intros Hm. unfold set_mount. rewrite (bind_ok _ _ _ _ _ (mount_run _ _ _ Hm)). unfold modify, with_mounts.
  do 3 f_equal. apply map_eq. intros q. destruct (decide (q = mp)) as [->|]; by simplify_map_eq.
Qed.

Lemma set_inode_run s p i f : inodes s !! p = Some i → set_inode p f s = Ok (with_inodes (<[p := f i]>) s, ()).
Proof.
  intros Hi. unfold set_inode. rewrite (bind_ok _ _ _ _ _ (inode_run _ _ _ Hi)). unfold modify, with_inodes.
  do 3 f_equal. apply map_eq. intros q. destruct (decide (q = p)) as [->|]; by simplify_map_eq.
Qed.

Definition bump (ino : Z) (m : MountPoint) : MountPoint :=
  mk_MountPoint (mp_path m) (mp_mounted_on m) (mp_root m) (TmpMountPoint (ino + 1)).

Lemma new_tmp_inode_run s p i m ino n type k : inodes s !! p = Some i → mounts s !! i_mountpoint i = Some m →
  mp_class m = TmpMountPoint ino →
  let s1 := with_mounts (<[i_mountpoint i := bump ino m]>) s in
  new_tmp_inode new_addr n p type k s =
  Ok (with_inodes (<[new_addr s1 := mk_Inode (i_mountpoint i) p ino 0 type n k]>) s1, new_addr s1).
Proof.
  intros Hi Hm Hc s1. unfold new_tmp_inode. rewrite (bind_ok _ _ _ _ _ (inode_run _ _ _ Hi)).
  rewrite (bind_ok _ _ s s1 ino); [done|]. unfold tmp_next_ino.
  rewrite (bind_ok _ _ _ _ _ (mount_run _ _ _ Hm)), Hc. by rewrite (bind_ok _ _ _ _ _ (set_mount_run _ _ _ _ Hm)).
Qed.

Lemma new_entry_run s p i cs n type k : vfs_wf s → inodes s !! p = Some i → i_class i = TmpDirectoryInode cs →
  good_name n → (∀ c, ¬ child s p n c) → childless k → (type = DIRECTORY ↔ is_dir k = true) →
  ∃ s' c, (c ← new_tmp_inode new_addr n p type k; _ ← push_child p c; mret 0) s = Ok (s', 0) ∧
    added s p n c s' ∧ v_cwd s' = v_cwd s ∧ fdescs s' = fdescs s ∧
    ∃ ino, inodes s' !! c = Some (mk_Inode (i_mountpoint i) p ino 0 type n k).
Proof.
  intros W Hi Hk Hn Hno Hkids Hty. destruct (wf_dev _ W _ _ Hi) as (m & Hm & Hfit). rewrite Hk in Hfit.
  destruct (mp_class m) as [ino| | |] eqn:Hmc; try done.
  rewrite (bind_ok _ _ _ _ _ (new_tmp_inode_run s p i m ino n type k Hi Hm Hmc)).
  set (s1 := with_mounts (<[i_mountpoint i := bump ino m]>) s). set (c := new_addr s1).
  destruct (Hfresh s1) as (Hc0 & Hc & _). fold c in Hc0, Hc. cbn [s1 with_mounts inodes] in Hc.
  set (j := mk_Inode (i_mountpoint i) p ino 0 type n k). assert (c ≠ p) as Hcp by (intros He; rewrite He in Hc; congruence).
  unfold push_child. erewrite (bind_ok _ _ _ _ _ (set_inode_run _ p i _ _)).
  eexists _, c. split; [done|]. split_and!; [|done|done|exists ino; cbn; by simplify_map_eq]. split; cbn.
  - done.
  - done.
  - exists i, j, cs. rewrite Hk. split_and!; try done; [apply (wf_dir _ W _ _ Hi); by rewrite Hk|by eauto|].
    by rewrite insert_insert_ne.
  - intros mp. destruct (decide (mp = i_mountpoint i)) as [->|]; simplify_map_eq; [constructor|].
    + split_and!; [done..|]. right. by exists ino, (ino + 1); left.
    + apply option_Forall2_refl. intros m0. split_and!; [done..|by left].
  - done.
  Unshelve. cbn. by simplify_map_eq.
Qed.

(** [mkdir] and [create] of a directory of a tmpfs. *)
Lemma tmp_mkdir_run s p i cs n : vfs_wf s → inodes s !! p = Some i → i_class i = TmpDirectoryInode cs → good_name n →
  ((∃ c, child s p n c) ∧ inode_mkdir new_addr p n s = Ok (s, -1)) ∨
  ((∀ c, ¬ child s p n c) ∧ ∃ s' c, inode_mkdir new_addr p n s = Ok (s', 0) ∧ added s p n c s' ∧ v_cwd s' = v_cwd s ∧
     fdescs s' = fdescs s ∧ ∃ ino, inodes s' !! c = Some (mk_Inode (i_mountpoint i) p ino 0 DIRECTORY n (TmpDirectoryInode []))).
Proof.
  intros W Hi Hk Hn. unfold inode_mkdir. rewrite (bind_ok _ _ _ _ _ (inode_run _ _ _ Hi)), Hk.
  destruct (lookup_run W p i n Hi) as [(c & Hc & Hrun)|[Hno Hrun]]; rewrite (bind_ok _ _ _ _ _ Hrun).
  - left. split; [by exists c|]. by rewrite (proj2 (Z.eqb_neq c 0)) by (by eapply child_nonzero).
  - right. split; [done|]. cbn [Z.eqb negb]. eapply new_entry_run; try done. by left.
Qed.

Lemma tmp_create_run s p i cs n : vfs_wf s → inodes s !! p = Some i → i_class i = TmpDirectoryInode cs → good_name n →
  ((∃ c, child s p n c) ∧ inode_create new_addr p n s = Ok (s, -1)) ∨
  ((∀ c, ¬ child s p n c) ∧ ∃ s' c, inode_create new_addr p n s = Ok (s', 0) ∧ added s p n c s' ∧ v_cwd s' = v_cwd s ∧
     fdescs s' = fdescs s ∧ ∃ ino, inodes s' !! c = Some (mk_Inode (i_mountpoint i) p ino 0 REGULAR n (TmpFileInode []))).
Proof.
  intros W Hi Hk Hn. unfold inode_create. rewrite (bind_ok _ _ _ _ _ (inode_run _ _ _ Hi)), Hk.
  destruct (lookup_run W p i n Hi) as [(c & Hc & Hrun)|[Hno Hrun]]; rewrite (bind_ok _ _ _ _ _ Hrun).
  - left. split; [by exists c|]. by rewrite (proj2 (Z.eqb_neq c 0)) by (by eapply child_nonzero).
  - right. split; [done|]. cbn [Z.eqb negb]. eapply new_entry_run; try done. by right; right.
Qed.
End operations.

(** ** Paths *)

(** The directory relative paths start from: the current directory of the process, or the root. *)
Definition cwd_at s ns : Prop := (v_cwd s = 0 ∧ ns = []) ∨ (v_cwd s ≠ 0 ∧ at_path s (v_cwd s) ns).
Definition start_of (path : list Z) ns : list (list Z) := if default 0 (head path) =? SLASH then [] else ns.

Lemma resolve_tokens_run s ns path tokens : vfs_wf s → cwd_at s ns → Forall (λ t, 0 ∉ t) tokens →
  ∃ r, walk (has_path s) (start_of path ns) tokens r ∧ resolves s (resolve_tokens path tokens s) r.
Proof.
  intros W Hcwd Ht. destruct (wf_root _ W) as (m & [_ Hm] & _). unfold resolve_tokens.
  rewrite (bind_ok (gets _) _ s s (g_root_mountpoint s)) by done.
  rewrite (proj2 (Z.eqb_neq (g_root_mountpoint s) 0)) by (intros He; rewrite He in Hm; by rewrite (proj2 (wf_null _ W)) in Hm).
  rewrite (bind_ok (gets _) _ s s (v_cwd s)) by done. unfold start_of.
  pose proof (at_root _ _ Hm) as Hroot.
  destruct (default 0 (head path) =? SLASH); cbn [orb].
  - rewrite (bind_ok _ _ s s (mp_root m)) by (by rewrite (bind_ok _ _ _ _ _ (mount_run _ _ _ Hm))). by apply resolve_loop_run.
  - destruct Hcwd as [[H0 ->]|[H0 Hat]].
    + rewrite H0. cbn [Z.eqb]. rewrite (bind_ok _ _ s s (mp_root m)) by (by rewrite (bind_ok _ _ _ _ _ (mount_run _ _ _ Hm))).
      by apply resolve_loop_run.
    + rewrite (proj2 (Z.eqb_neq _ _) H0). rewrite (bind_ok _ _ s s (v_cwd s)) by done. by apply resolve_loop_run.
Qed.

Lemma fields_acc_nul acc l : 0 ∉ acc → 0 ∉ l → Forall (λ t, 0 ∉ t) (fields_acc SLASH acc l).
Proof.
  revert acc. induction l as [|b l IH]; intros acc Ha Hl; cbn; [by repeat constructor|].
  apply not_elem_of_cons in Hl as [Hb Hl]. destruct (b =? SLASH); [constructor; [done|]|]; apply IH; set_solver.
Qed.

Lemma split_nul path : 0 ∉ path → Forall (λ t, 0 ∉ t) (split_spec SLASH path).
Proof.
  intros Hp. apply list.Forall_forall. intros t [_ Ht]%list_elem_of_filter.
  assert (Forall (λ t, 0 ∉ t) (fields SLASH path)) as HF by (apply fields_acc_nul; set_solver).
  by eapply (proj1 (list.Forall_forall _ _)) in HF.
Qed.

(** Printing and splitting a path. *)
Lemma split_path ns : Forall good_name ns → split_spec SLASH (SLASH :: intersperse SLASH ns) = ns.
Proof.
  intros Hns. unfold split_spec, fields. cbn [fields_acc]. rewrite Z.eqb_refl. rewrite filter_cons_False by done.
  destruct (decide (ns = [])) as [->|Hne]; [done|]. fold (fields SLASH (intersperse SLASH ns)).
  rewrite fields_intersperse, filter_nonempty; try done; eapply Forall_impl; try done; by intros n (? & ? & _).
Qed.

Lemma fields_acc_delim acc l : SLASH ∉ acc → Forall (λ t, SLASH ∉ t) (fields_acc SLASH acc l).
Proof.
  revert acc. induction l as [|b l IH]; intros acc Ha; cbn; [by repeat constructor|].
  destruct (Z.eqb_spec b SLASH); [constructor; [done|]|]; apply IH; set_solver.
Qed.

(** A component of a path is a name that can be looked up, unless it is [.] or [..]. *)
Lemma split_good path n : 0 ∉ path → n ∈ split_spec SLASH path → n ≠ lit "." → n ≠ lit ".." → good_name n.
Proof.
  intros Hp Hn Hdot Hdots. pose proof (proj1 (list.Forall_forall _ _) (split_nul _ Hp) _ Hn) as Hnul.
  apply list_elem_of_filter in Hn as [Hne Hn]. split_and!; try done.
  - intros ->. done.
  - assert (Forall (λ t, SLASH ∉ t) (fields SLASH path)) as HF by (apply fields_acc_delim; set_solver).
    by apply (proj1 (list.Forall_forall _ _) HF).
Qed.

Lemma has_path_child s p ns n : vfs_wf s → at_path s p ns → has_path s (ns ++ [n]) ↔ ∃ c, child s p n c.
Proof.
  intros W Hp. split.
  - intros [q Hq]. inversion Hq as [|d ms n' c q' Hd Hc Hx E1 E2]; [by destruct ns|].
    apply app_inj_tail in E2 as [-> ->]. rewrite (at_path_det W _ _ _ Hd Hp) in Hc. by eauto.
  - intros [c Hc]. destruct (cross_run W c) as (q & Hx & _). exists q. by econstructor.
Qed.

(** C17: A path means what the tree says: in a well-formed file system, [resolve_path] of an absolute or a
    relative path returns the inode at the node that the walk of its components reaches ([.] and empty
    components stay, [..] goes up also out of a mounted file system and stays at the root, a name goes down
    and across a mount point), and a null pointer exactly when the walk meets a name that is not there; the
    walk has one result. *)
Theorem resolve_path_follows_tree s ns path : vfs_wf s → cwd_at s ns → 0 ∉ path →
  ∃ r, walk (has_path s) (start_of path ns) (split_spec SLASH path) r ∧
       (∀ r', walk (has_path s) (start_of path ns) (split_spec SLASH path) r' → r' = r) ∧
       resolves s (resolve_path path s) r.
Proof.
  intros W Hcwd Hp. destruct (resolve_tokens_run s ns path _ W Hcwd (split_nul _ Hp)) as (r & Hw & Hr).
  exists r. split_and!; [done|by intros r' Hw'; eapply walk_det|done].
Qed.

(** C31: [getcwd] and path resolution are inverse: for every directory or file of the tree, other than a
    device node, [getcwd] terminates and returns the absolute path of its names, and resolving that path,
    from any current directory, gives the same inode back. *)
Theorem getcwd_resolves_back s cwd p i ns : vfs_wf s → cwd_at s cwd → at_path s p ns → inodes s !! p = Some i →
  i_type i ≠ CHAR_DEVICE →
  ∃ path, getcwd p s = Ok (s, path) ∧ split_spec SLASH path = ns ∧ resolve_path path s = Ok (s, p).
Proof.
  intros W Hcwd Hp Hi Hty. exists (SLASH :: intersperse SLASH ns). pose proof (at_path_good W p ns Hp) as Hg.
  split_and!; [by eapply getcwd_run|by apply split_path|]. unfold resolve_path. rewrite split_path by done.
  destruct (resolve_tokens_run s cwd (SLASH :: intersperse SLASH ns) ns W Hcwd) as (r & Hw & Hr).
  { eapply Forall_impl; [done|]. by intros n (_ & _ & ? & _). }
  assert (walk (has_path s) [] ns (Some ns)) as Hn by (apply (walk_names _ []); [done|intros k; by eapply at_path_prefix]).
  rewrite (walk_det _ _ _ _ _ Hw Hn) in Hr. destruct Hr as (q & Hq & ->). by rewrite (at_path_det W _ _ _ Hq Hp).
Qed.

(** What [mkdir] of the name [n] in the directory [ns] may do to the tree. *)
Definition mkdir_result s cwd ns n (i : Inode) (res : outcome (vfs * Z)) : Prop :=
  match i_class i with
  | TmpDirectoryInode _ =>
      (has_path s (ns ++ [n]) ∧ res = Ok (s, -1)) ∨
      (¬ has_path s (ns ++ [n]) ∧ ∃ s', res = Ok (s', 0) ∧ vfs_wf s' ∧ cwd_at s' cwd ∧
         (∀ q ms, at_path s q ms → at_path s' q ms) ∧
         (∀ ms, has_path s' ms ↔ has_path s ms ∨ ms = ns ++ [n]) ∧
         ∃ q j, at_path s' q (ns ++ [n]) ∧ inodes s' !! q = Some j ∧ i_class j = TmpDirectoryInode [])
  | InitramfsDirectoryInode _ => res = Ok (s, - EROFS)
  | DevDirectoryInode | ProcDirectoryInode => res = Ok (s, 0)
  | _ => res = Ok (s, -1)
  end.

(** [mkdir] adds exactly one directory: when the parent of the path is a tmpfs directory without that
    entry, [mkdir] returns 0, the file system stays well-formed, every node keeps its path and the tree has
    one node more, an empty directory; when the entry is there, or the parent is missing or not a directory,
    it returns -1, in the initramfs -EROFS, and nothing changes.  (In [/dev] and [/proc] it returns 0 and
    creates nothing.) *)
Theorem mkdir_adds_one_directory new_addr s cwd path parent n : fresh_new new_addr → vfs_wf s → cwd_at s cwd → 0 ∉ path →
  split_spec SLASH path = parent ++ [n] → n ≠ lit "." → n ≠ lit ".." →
  ∃ r, walk (has_path s) (start_of path cwd) parent r ∧
    match r with
    | None => fs_mkdir new_addr path s = Ok (s, -1)
    | Some ns => ∃ p i, at_path s p ns ∧ inodes s !! p = Some i ∧ mkdir_result s cwd ns n i (fs_mkdir new_addr path s)
    end.
Proof.
  intros Hfresh W Hcwd Hp Hsplit Hn1 Hn2.
  assert (good_name n) as Hn by (apply (split_good path); [done|rewrite Hsplit; set_solver|done..]).
  pose proof (split_nul _ Hp) as Ht. rewrite Hsplit in Ht. apply Forall_app in Ht as [Ht _].
  destruct (resolve_tokens_run s cwd path parent W Hcwd Ht) as (r & Hw & Hr). exists r. split; [done|].
  unfold fs_mkdir. rewrite Hsplit, last_snoc, removelast_last.
  rewrite (bind_ok (of_option _) _ s s n) by done. rewrite c_str_id by apply Hn.
  destruct r as [ns|]; cbn in Hr; [|by rewrite (bind_ok _ _ _ _ _ Hr)].
  destruct Hr as (p & Hat & Hrun). rewrite (bind_ok _ _ _ _ _ Hrun). destruct (at_path_inode W p ns Hat) as [i Hi].
  rewrite (proj2 (Z.eqb_neq p 0)) by (intros ->; by rewrite (proj1 (wf_null _ W)) in Hi).
  exists p, i. split_and!; [done..|]. rewrite (bind_ok _ _ _ _ _ (inode_run _ _ _ Hi)).
  pose proof (wf_dir _ W _ _ Hi) as Hdir. unfold mkdir_result.
  destruct (i_class i) as [|cs| | | | | | | ] eqn:Hk; cbn [is_dir] in Hdir;
    try (rewrite decide_False by (intros ?%Hdir; done); done);
    rewrite decide_True by (by apply Hdir); try (unfold inode_mkdir; rewrite (bind_ok _ _ _ _ _ (inode_run _ _ _ Hi)), Hk; done).
  rewrite !(has_path_child s p ns n W Hat).
  destruct (tmp_mkdir_run new_addr Hfresh s p i cs n W Hi Hk Hn) as [[Hc Hr]|(Hno & s' & c & Hr & A & Hcwd' & _ & ino & Hnew)]; [by left|].
  right. split; [by intros [c' ?%Hno]|]. exists s'. pose proof (added_at_path W A) as Hpath.
  assert (∀ q ms, at_path s q ms → at_path s' q ms) as Hmono by (intros; apply Hpath; by left).
  assert (at_path s' c (ns ++ [n])) as Hnewp by (apply Hpath; right; by exists ns).
  split_and!; [done|exact (added_wf W A)| |done| |by eauto].
  - destruct Hcwd as [?|[? ?]]; [left|right]; rewrite Hcwd'; [done|split; [done|by apply Hmono]].
  - intros ms. split.
    + intros [q Hq]. apply Hpath in Hq as [Hq|(ns' & Hp' & -> & ->)]; [left; by exists q|].
      right. by rewrite (at_path_inj W _ _ _ Hp' Hat).
    + intros [[q Hq]| ->]; [exists q; by apply Hmono|by exists c].
Qed.
End tree.

(** ** A file system to evaluate on *)

Definition demo_new (s : vfs) : Z := fresh (dom (inodes s) ∪ dom (mounts s) ∪ dom (fdescs s) ∪ {[0]}).

Lemma demo_new_fresh : fresh_new demo_new.
Proof.
  intros s. pose proof (is_fresh (dom (inodes s) ∪ dom (mounts s) ∪ dom (fdescs s) ∪ {[0]})) as H.
  fold (demo_new s) in H. rewrite !not_elem_of_union, !not_elem_of_dom, not_elem_of_singleton in H. naive_solver.
Qed.

(** A file system with its root directory alone. *)
Record root_alone (s : vfs) (mp root : Z) (m : MountPoint) (i : Inode) : Prop := {
  ra_inodes : inodes s = {[root := i]} ∧ root ≠ 0;
  ra_mounts : mounts s = {[mp := m]} ∧ mp ≠ 0;
  ra_root : g_root_mountpoint s = mp ∧ g_mountpoints s = [mp];
  ra_mount : mp_mounted_on m = 0 ∧ mp_root m = root ∧ fits (i_class i) (mp_class m);
  ra_inode : i_name i = [] ∧ i_mountpoint i = mp ∧ i_parent i = 0 ∧ i_type i = DIRECTORY ∧ children (i_class i) = Some [];
}.

Lemma root_alone_no_child s mp root m i d n c : root_alone s mp root m i → ¬ child s d n c.
Proof.
  intros [[Hi _] _ _ _ (_ & _ & _ & _ & Hk)].
  assert (∀ d j, inodes s !! d = Some j → j = i) as Hone by (rewrite Hi; by intros ? ? [_ <-]%lookup_singleton_Some).
  intros [j cs x Hj Hcs Hc|j m' a b e Hj Hjk|j m' a Hj Hjk]; apply Hone in Hj as ->; [|by rewrite Hjk in Hk..].
  rewrite Hk in Hcs. injection Hcs as <-. by apply not_elem_of_nil in Hc.
Qed.

Lemma root_alone_wf s mp root m i : root_alone s mp root m i → vfs_wf s.
Proof.
  intros H. pose proof (root_alone_no_child s mp root m i) as Hno. pose proof H as [[Hi Hr0] [Hm Hm0] [Hr Hg] (Hon & Hroot & Hfit) (Hn & Hmp & Hpar & Hty & Hk)].
  assert (∀ d j, inodes s !! d = Some j → d = root ∧ j = i) as Hone by (rewrite Hi; by intros ? ? [<- <-]%lookup_singleton_Some).
  split; try (by intros; exfalso; eapply Hno).
  - rewrite Hi, Hm. by rewrite !lookup_singleton_ne.
  - exists m. split; [split; [rewrite Hr, Hg; left|rewrite Hr, Hm; by rewrite lookup_singleton_eq]|done].
  - rewrite Hg. intros q ->%list_elem_of_singleton. exists m, i. rewrite Hm, Hi, Hroot, Hon.
    split_and!; [by rewrite lookup_singleton_eq..|done|done|done|done].
  - intros q q' m1 m2 [Hq _] [Hq' _]. rewrite Hg in Hq, Hq'. apply list_elem_of_singleton in Hq as ->, Hq' as ->. done.
  - intros q m1 [_ Hq]. rewrite Hm in Hq. apply lookup_singleton_Some in Hq as [_ <-]. done.
  - intros d j cs c [-> ->]%Hone Hcs Hc. rewrite Hk in Hcs. injection Hcs as <-. by apply not_elem_of_nil in Hc.
  - intros d j [-> ->]%Hone. rewrite Hty. by destruct (i_class i).
  - intros d j [-> ->]%Hone. rewrite Hg, Hmp. left.
  - intros d j [-> ->]%Hone. exists m. by rewrite Hmp, Hm, lookup_singleton_eq.
Qed.

Definition demo_root : vfs :=
  mk_vfs {[1 := mk_Inode 2 0 1 0 DIRECTORY [] (TmpDirectoryInode [])]} {[2 := mk_MountPoint (lit "/") 0 1 (TmpMountPoint 2)]} ∅ 2 [2] 3.

Lemma demo_root_alone : root_alone demo_root 2 1 (mk_MountPoint (lit "/") 0 1 (TmpMountPoint 2))
  (mk_Inode 2 0 1 0 DIRECTORY [] (TmpDirectoryInode [])).
Proof. by split. Qed.
Lemma demo_root_no_child d n c : ¬ child demo_root d n c.
Proof. eapply root_alone_no_child, demo_root_alone. Qed.
Lemma demo_root_wf : vfs_wf demo_root.
Proof. eapply root_alone_wf, demo_root_alone. Qed.

(** The root with the directory [a], which is the current directory. *)
Definition demo_fs : vfs :=
  match inode_mkdir demo_new 1 (lit "a") demo_root with Ok (s, _) => s | _ => demo_root end.

Lemma demo_good : good_name (lit "a").
Proof. split_and!; by vm_compute; set_solver. Qed.

Lemma demo_fs_wf : vfs_wf demo_fs.
Proof.
  destruct (tmp_mkdir_run demo_new demo_new_fresh demo_root 1 _ [] (lit "a") demo_root_wf eq_refl eq_refl demo_good)
    as [[[c Hc] _]|(_ & s' & c & Hr & A & _)]; [by apply demo_root_no_child in Hc|].
  unfold demo_fs. rewrite Hr. exact (added_wf demo_root_wf A).
Qed.

Lemma demo_fs_a : at_path demo_fs 3 [lit "a"].
Proof.
  apply (at_entry _ 1 [] (lit "a") 3).
  - apply (at_root demo_fs (mk_MountPoint (lit "/") 0 1 (TmpMountPoint 3))). by vm_compute.
  - eapply child_listed; [by vm_compute|by vm_compute|left|by vm_compute|done].
  - right. split; [|done]. intros mp m [Hin Hm] He. cbn in Hin.
    assert (mp = 2) as -> by (vm_compute in Hin; set_solver). vm_compute in Hm. by simplify_eq.
Qed.

Lemma demo_cwd : cwd_at demo_fs [lit "a"].
Proof. right. split; [done|apply demo_fs_a]. Qed.

Lemma resolve_path_follows_tree_witness :
  ∃ r, walk (has_path demo_fs) [lit "a"] (split_spec SLASH (lit "../b")) r ∧ resolves demo_fs (resolve_path (lit "../b") demo_fs) r.
Proof.
  destruct (resolve_path_follows_tree demo_fs [lit "a"] (lit "../b") demo_fs_wf demo_cwd) as (r & Hw & _ & Hr).
  - vm_compute. set_solver.
  - exists r. split; [exact Hw|exact Hr].
Defined.

Lemma getcwd_resolves_back_witness : ∃ path, getcwd 3 demo_fs = Ok (demo_fs, path) ∧ split_spec SLASH path = [lit "a"] ∧
  resolve_path path demo_fs = Ok (demo_fs, 3).
Proof.
  apply (getcwd_resolves_back demo_fs [lit "a"] 3 (mk_Inode 2 1 2 0 DIRECTORY (lit "a") (TmpDirectoryInode [])) [lit "a"] demo_fs_wf demo_cwd demo_fs_a).
  - vm_compute. reflexivity.
  - discriminate.
Defined.

Lemma mkdir_adds_one_directory_witness :
  ∃ r, walk (has_path demo_fs) [lit "a"] [] r ∧
    match r with
    | None => fs_mkdir demo_new (lit "b") demo_fs = Ok (demo_fs, -1)
    | Some ns => ∃ p i, at_path demo_fs p ns ∧ inodes demo_fs !! p = Some i ∧
        mkdir_result demo_fs [lit "a"] ns (lit "b") i (fs_mkdir demo_new (lit "b") demo_fs)
    end.
Proof.
  apply (mkdir_adds_one_directory demo_new demo_fs [lit "a"] (lit "b") [] (lit "b") demo_new_fresh demo_fs_wf demo_cwd).
  - vm_compute. set_solver.
  - vm_compute. reflexivity.
  - discriminate.
  - discriminate.
Defined.
