(* ===== verification/Font.v ===== *)
(** * The console font

    [src/kernel/include/gfx/fonts/font.hpp] and [font8x16.hpp]: the interface of a bitmap font, and the
    8x16 font with its table of glyphs, sixteen bytes per character from 32 to 126. *)

From S2P Require Import Prelude.

(** The virtual methods of [gfx::fonts::Font]; a glyph is a row of bytes. *)
Record Font := mk_Font {
  font_width : Z;
  font_height : Z;
  get_glyph : Z → list Z;
}.

Definition NUM_GLPHYS : Z := 95.
Definition FONT_WIDTH : Z := 8.
Definition FONT_HEIGHT : Z := 16.

Definition font8x16 : list (list Z) := [
  [0; 0; 0; 0; 0; 0; 0; 0; 0; 0; 0; 0; 0; 0; 0; 0];
  [0; 0; 24; 60; 60; 60; 24; 24; 24; 0; 24; 24; 0; 0; 0; 0];
  [0; 102; 102; 102; 36; 0; 0; 0; 0; 0; 0; 0; 0; 0; 0; 0];
  [0; 0; 0; 108; 108; 254; 108; 108; 108; 254; 108; 108; 0; 0; 0; 0];
  [24; 24; 124; 198; 194; 192; 124; 6; 6; 134; 198; 124; 24; 24; 0; 0];
  [0; 0; 0; 0; 194; 198; 12; 24; 48; 96; 198; 134; 0; 0; 0; 0];
  [0; 0; 56; 108; 108; 56; 118; 220; 204; 204; 204; 118; 0; 0; 0; 0];
  [0; 48; 48; 48; 96; 0; 0; 0; 0; 0; 0; 0; 0; 0; 0; 0];
  [0; 0; 12; 24; 48; 48; 48; 48; 48; 48; 24; 12; 0; 0; 0; 0];
  [0; 0; 48; 24; 12; 12; 12; 12; 12; 12; 24; 48; 0; 0; 0; 0];
  [0; 0; 0; 0; 0; 102; 60; 255; 60; 102; 0; 0; 0; 0; 0; 0];
  [0; 0; 0; 0; 0; 24; 24; 126; 24; 24; 0; 0; 0; 0; 0; 0];
  [0; 0; 0; 0; 0; 0; 0; 0; 0; 24; 24; 24; 48; 0; 0; 0];
  [0; 0; 0; 0; 0; 0; 0; 254; 0; 0; 0; 0; 0; 0; 0; 0];
  [0; 0; 0; 0; 0; 0; 0; 0; 0; 0; 24; 24; 0; 0; 0; 0];
  [0; 0; 0; 0; 2; 6; 12; 24; 48; 96; 192; 128; 0; 0; 0; 0];
  [0; 0; 56; 108; 198; 198; 214; 214; 198; 198; 108; 56; 0; 0; 0; 0];
  [0; 0; 24; 56; 120; 24; 24; 24; 24; 24; 24; 126; 0; 0; 0; 0];
  [0; 0; 124; 198; 6; 12; 24; 48; 96; 192; 198; 254; 0; 0; 0; 0];
  [0; 0; 124; 198; 6; 6; 60; 6; 6; 6; 198; 124; 0; 0; 0; 0];
  [0; 0; 12; 28; 60; 108; 204; 254; 12; 12; 12; 30; 0; 0; 0; 0];
  [0; 0; 254; 192; 192; 192; 252; 6; 6; 6; 198; 124; 0; 0; 0; 0];
  [0; 0; 56; 96; 192; 192; 252; 198; 198; 198; 198; 124; 0; 0; 0; 0];
  [0; 0; 254; 198; 6; 6; 12; 24; 48; 48; 48; 48; 0; 0; 0; 0];
  [0; 0; 124; 198; 198; 198; 124; 198; 198; 198; 198; 124; 0; 0; 0; 0];
  [0; 0; 124; 198; 198; 198; 126; 6; 6; 6; 12; 120; 0; 0; 0; 0];
  [0; 0; 0; 0; 24; 24; 0; 0; 0; 24; 24; 0; 0; 0; 0; 0];
  [0; 0; 0; 0; 24; 24; 0; 0; 0; 24; 24; 48; 0; 0; 0; 0];
  [0; 0; 0; 6; 12; 24; 48; 96; 48; 24; 12; 6; 0; 0; 0; 0];
  [0; 0; 0; 0; 0; 126; 0; 0; 126; 0; 0; 0; 0; 0; 0; 0];
  [0; 0; 0; 96; 48; 24; 12; 6; 12; 24; 48; 96; 0; 0; 0; 0];
  [0; 0; 124; 198; 198; 12; 24; 24; 24; 0; 24; 24; 0; 0; 0; 0];
  [0; 0; 0; 124; 198; 198; 222; 222; 222; 220; 192; 124; 0; 0; 0; 0];
  [0; 0; 16; 56; 108; 198; 198; 254; 198; 198; 198; 198; 0; 0; 0; 0];
  [0; 0; 252; 102; 102; 102; 124; 102; 102; 102; 102; 252; 0; 0; 0; 0];
  [0; 0; 60; 102; 194; 192; 192; 192; 192; 194; 102; 60; 0; 0; 0; 0];
  [0; 0; 248; 108; 102; 102; 102; 102; 102; 102; 108; 248; 0; 0; 0; 0];
  [0; 0; 254; 102; 98; 104; 120; 104; 96; 98; 102; 254; 0; 0; 0; 0];
  [0; 0; 254; 102; 98; 104; 120; 104; 96; 96; 96; 240; 0; 0; 0; 0];
  [0; 0; 60; 102; 194; 192; 192; 222; 198; 198; 102; 58; 0; 0; 0; 0];
  [0; 0; 198; 198; 198; 198; 254; 198; 198; 198; 198; 198; 0; 0; 0; 0];
  [0; 0; 60; 24; 24; 24; 24; 24; 24; 24; 24; 60; 0; 0; 0; 0];
  [0; 0; 30; 12; 12; 12; 12; 12; 204; 204; 204; 120; 0; 0; 0; 0];
  [0; 0; 230; 102; 102; 108; 120; 120; 108; 102; 102; 230; 0; 0; 0; 0];
  [0; 0; 240; 96; 96; 96; 96; 96; 96; 98; 102; 254; 0; 0; 0; 0];
  [0; 0; 198; 238; 254; 254; 214; 198; 198; 198; 198; 198; 0; 0; 0; 0];
  [0; 0; 198; 230; 246; 254; 222; 206; 198; 198; 198; 198; 0; 0; 0; 0];
  [0; 0; 124; 198; 198; 198; 198; 198; 198; 198; 198; 124; 0; 0; 0; 0];
  [0; 0; 252; 102; 102; 102; 124; 96; 96; 96; 96; 240; 0; 0; 0; 0];
  [0; 0; 124; 198; 198; 198; 198; 198; 198; 214; 222; 124; 12; 14; 0; 0];
  [0; 0; 252; 102; 102; 102; 124; 108; 102; 102; 102; 230; 0; 0; 0; 0];
  [0; 0; 124; 198; 198; 96; 56; 12; 6; 198; 198; 124; 0; 0; 0; 0];
  [0; 0; 255; 219; 153; 24; 24; 24; 24; 24; 24; 60; 0; 0; 0; 0];
  [0; 0; 198; 198; 198; 198; 198; 198; 198; 198; 198; 124; 0; 0; 0; 0];
  [0; 0; 198; 198; 198; 198; 198; 198; 198; 108; 56; 16; 0; 0; 0; 0];
  [0; 0; 198; 198; 198; 198; 214; 214; 214; 254; 238; 108; 0; 0; 0; 0];
  [0; 0; 198; 198; 108; 124; 56; 56; 124; 108; 198; 198; 0; 0; 0; 0];
  [0; 0; 195; 195; 195; 102; 60; 24; 24; 24; 24; 60; 0; 0; 0; 0];
  [0; 0; 254; 198; 134; 12; 24; 48; 96; 194; 198; 254; 0; 0; 0; 0];
  [0; 0; 60; 48; 48; 48; 48; 48; 48; 48; 48; 60; 0; 0; 0; 0];
  [0; 0; 0; 128; 192; 224; 112; 56; 28; 14; 6; 2; 0; 0; 0; 0];
  [0; 0; 60; 12; 12; 12; 12; 12; 12; 12; 12; 60; 0; 0; 0; 0];
  [16; 56; 108; 198; 0; 0; 0; 0; 0; 0; 0; 0; 0; 0; 0; 0];
  [0; 0; 0; 0; 0; 0; 0; 0; 0; 0; 0; 0; 0; 255; 0; 0];
  [48; 48; 24; 0; 0; 0; 0; 0; 0; 0; 0; 0; 0; 0; 0; 0];
  [0; 0; 0; 0; 0; 120; 12; 124; 204; 204; 204; 118; 0; 0; 0; 0];
  [0; 0; 224; 96; 96; 120; 108; 102; 102; 102; 102; 124; 0; 0; 0; 0];
  [0; 0; 0; 0; 0; 124; 198; 192; 192; 192; 198; 124; 0; 0; 0; 0];
  [0; 0; 28; 12; 12; 60; 108; 204; 204; 204; 204; 118; 0; 0; 0; 0];
  [0; 0; 0; 0; 0; 124; 198; 254; 192; 192; 198; 124; 0; 0; 0; 0];
  [0; 0; 56; 108; 100; 96; 240; 96; 96; 96; 96; 240; 0; 0; 0; 0];
  [0; 0; 0; 0; 0; 118; 204; 204; 204; 204; 204; 124; 12; 204; 120; 0];
  [0; 0; 224; 96; 96; 108; 118; 102; 102; 102; 102; 230; 0; 0; 0; 0];
  [0; 0; 24; 24; 0; 56; 24; 24; 24; 24; 24; 60; 0; 0; 0; 0];
  [0; 0; 6; 6; 0; 14; 6; 6; 6; 6; 6; 6; 102; 102; 60; 0];
  [0; 0; 224; 96; 96; 102; 108; 120; 120; 108; 102; 230; 0; 0; 0; 0];
  [0; 0; 56; 24; 24; 24; 24; 24; 24; 24; 24; 60; 0; 0; 0; 0];
  [0; 0; 0; 0; 0; 230; 255; 219; 219; 219; 219; 219; 0; 0; 0; 0];
  [0; 0; 0; 0; 0; 220; 102; 102; 102; 102; 102; 102; 0; 0; 0; 0];
  [0; 0; 0; 0; 0; 124; 198; 198; 198; 198; 198; 124; 0; 0; 0; 0];
  [0; 0; 0; 0; 0; 220; 102; 102; 102; 102; 102; 124; 96; 96; 240; 0];
  [0; 0; 0; 0; 0; 118; 204; 204; 204; 204; 204; 124; 12; 12; 30; 0];
  [0; 0; 0; 0; 0; 220; 118; 102; 96; 96; 96; 240; 0; 0; 0; 0];
  [0; 0; 0; 0; 0; 124; 198; 96; 56; 12; 198; 124; 0; 0; 0; 0];
  [0; 0; 16; 48; 48; 252; 48; 48; 48; 48; 54; 28; 0; 0; 0; 0];
  [0; 0; 0; 0; 0; 204; 204; 204; 204; 204; 204; 118; 0; 0; 0; 0];
  [0; 0; 0; 0; 0; 195; 195; 195; 195; 102; 60; 24; 0; 0; 0; 0];
  [0; 0; 0; 0; 0; 198; 198; 198; 214; 214; 254; 108; 0; 0; 0; 0];
  [0; 0; 0; 0; 0; 198; 108; 56; 56; 56; 108; 198; 0; 0; 0; 0];
  [0; 0; 0; 0; 0; 198; 198; 198; 198; 198; 198; 126; 6; 12; 248; 0];
  [0; 0; 0; 0; 0; 254; 204; 24; 48; 96; 198; 254; 0; 0; 0; 0];
  [0; 0; 14; 24; 24; 24; 112; 24; 24; 24; 24; 14; 0; 0; 0; 0];
  [0; 0; 24; 24; 24; 24; 0; 24; 24; 24; 24; 24; 0; 0; 0; 0];
  [0; 0; 112; 24; 24; 24; 14; 24; 24; 24; 24; 112; 0; 0; 0; 0];
  [0; 0; 118; 220; 0; 0; 0; 0; 0; 0; 0; 0; 0; 0; 0; 0]
].

(** [char] is signed. *)
Definition get_glyph8x16 (c : Z) : list Z :=
  nth (if (c <? 32) || (c >? 126) then 0 else Z.to_nat (c - 32)) font8x16 [].

Definition Font8x16 : Font := mk_Font FONT_WIDTH FONT_HEIGHT get_glyph8x16.

(** What the drawing code relies on: a font of positive size whose glyphs have a byte for every row. *)
Class FontLaws (f : Font) : Prop := {
  font_size : 0 < font_width f ≤ 8 ∧ 0 < font_height f < 2 ^ 31;
  glyph_rows c : Z.of_nat (length (get_glyph f c)) = font_height f;
}.

(** Every glyph of the table has sixteen rows of one byte. *)
Lemma font8x16_rows : Forall (λ g, length g = 16%nat ∧ Forall (λ b, 0 ≤ b < 256) g) font8x16.
Proof. by apply (bool_decide_eq_true_1 _); vm_compute. Qed.

Lemma glyph_in c : get_glyph8x16 c ∈ font8x16.
Proof.
  apply list_elem_of_In, nth_In. change (length font8x16) with 95%nat.
  destruct (c <? 32) eqn:?, (c >? 126) eqn:?; cbn [orb]; lia.
Qed.

#[export] Instance Font8x16_laws : FontLaws Font8x16.
Proof.
  split; [done|]. intros c. change (get_glyph Font8x16 c) with (get_glyph8x16 c).
  by rewrite (proj1 (proj1 (list.Forall_forall _ _) font8x16_rows _ (glyph_in c))).
Qed.
