(* ===== verification/Framebuffer.v ===== *)
(** * Framebuffer

    [src/kernel/lib/framebuffer/framebuffer.cpp]: drawing into the back buffer and copying it to the video
    memory.  Both buffers are maps from offsets to bytes; an access outside them is a [Fault].  Coordinates
    are 32-bit and wrap around, [int]s are integers.  The spinlock that every operation holds from its
    first to its last access is left out, and so are log output and the thread that calls [fb_redraw]. *)

From S2P Require Import Prelude Crt Algo Font.

#[local] Coercion Z.of_nat : nat >-> Z.

Definition RGB_BLACK : Z := 0x00000000.
Definition RGB_OFFB : Z := 0.
Definition RGB_OFFG : Z := 1.
Definition RGB_OFFR : Z := 2.

Record FrameBufferInfo := mk_FrameBufferInfo {
  info_width : Z;
  info_height : Z;
  info_pitch : Z;
  info_bpp : Z;
  info_vram : mem;
}.

Record fb := mk_fb {
  fb_width : Z;
  fb_height : Z;
  fb_pitch : Z;
  fb_bpp : Z;
  vram_size : Z;
  vram : mem;
  vram_buff : mem;
  needs_redraw : bool;
  redraw_times : list Z;
}.

Definition with_vram (m : mem) (s : fb) : fb :=
  mk_fb (fb_width s) (fb_height s) (fb_pitch s) (fb_bpp s) (vram_size s) m (vram_buff s) (needs_redraw s) (redraw_times s).
Definition with_buff (m : mem) (s : fb) : fb :=
  mk_fb (fb_width s) (fb_height s) (fb_pitch s) (fb_bpp s) (vram_size s) (vram s) m (needs_redraw s) (redraw_times s).
Definition with_redraw (b : bool) (s : fb) : fb :=
  mk_fb (fb_width s) (fb_height s) (fb_pitch s) (fb_bpp s) (vram_size s) (vram s) (vram_buff s) b (redraw_times s).
Definition with_times (l : list Z) (s : fb) : fb :=
  mk_fb (fb_width s) (fb_height s) (fb_pitch s) (fb_bpp s) (vram_size s) (vram s) (vram_buff s) (needs_redraw s) l.

Definition on_buff {A} : M mem A → M fb A := zoom vram_buff with_buff.
Definition on_vram {A} : M mem A → M fb A := zoom vram with_vram.

Definition get_screen_width : M fb Z := gets (λ s, wrap 32 (fb_width s)).
Definition get_screen_height : M fb Z := gets (λ s, wrap 32 (fb_height s)).

(** [x * (fb_bpp / 8)] is a product of 32-bit integers. *)
Definition get_pixel_offset (x y : Z) : M fb Z :=
  gets (λ s, wrap 64 (y * fb_pitch s + wrap 32 (x * (fb_bpp s / 8)))).

(** The copy to the video memory, in units of eight bytes; [start] and [stop] are the clock's readings. *)
Definition copy_word (i : Z) : M fb unit :=
  for_each (seqZ (8 * i) 8) (λ a, b ← on_buff (load8 a); on_vram (store8 a b)).

Definition fb_redraw (start stop : Z) : M fb unit :=
  b ← gets needs_redraw;
  if (b : bool) then
    n ← gets vram_size;
    _ ← for_each (seqZ 0 (n / 8)) copy_word;
    _ ← modify (with_redraw false);
    modify (λ s, with_times (redraw_times s ++ [wrap 64 (stop - start)]) s)
  else mret ().

(** [garbage] is the contents of the new back buffer; the statics keep their values otherwise. *)
Definition fb_init (info : FrameBufferInfo) (garbage : Z → Z) (s : fb) : fb :=
  let size := wrap 64 (wrap 64 (info_width info * info_height info) * (info_bpp info / 8)) in
  mk_fb (info_width info) (info_height info) (info_pitch info) (info_bpp info) size (info_vram info)
    (list_to_map ((λ a, (a, garbage a)) <$> seqZ 0 size)) (needs_redraw s) (redraw_times s).

(** ** Pixels *)

Definition get_pixel (x y : Z) : M fb Z :=
  offset ← get_pixel_offset x y;
  b ← on_buff (load8 (wrap 64 (offset + RGB_OFFB)));
  g ← on_buff (load8 (wrap 64 (offset + RGB_OFFG)));
  r ← on_buff (load8 (wrap 64 (offset + RGB_OFFR)));
  mret (Z.lor (Z.lor b (Z.shiftl g 8)) (Z.shiftl r 16)).

Definition draw_pixel_rgb (x y red green blue : Z) : M fb unit :=
  offset ← get_pixel_offset x y;
  _ ← on_buff (store8 (wrap 64 (offset + RGB_OFFB)) blue);
  _ ← on_buff (store8 (wrap 64 (offset + RGB_OFFG)) green);
  _ ← on_buff (store8 (wrap 64 (offset + RGB_OFFR)) red);
  modify (with_redraw true).

Definition blue_of (color : Z) : Z := Z.land color 0xFF.
Definition green_of (color : Z) : Z := Z.land (Z.shiftr color 8) 0xFF.
Definition red_of (color : Z) : Z := Z.land (Z.shiftr color 16) 0xFF.

Definition draw_pixel (x y color : Z) : M fb unit :=
  draw_pixel_rgb x y (red_of color) (green_of color) (blue_of color).

(** [for (px = x; px < x + w; px++)] on 32-bit integers. *)
Definition span (x w : Z) : list Z := seqZ x (wrap 32 (x + w) - x).

Definition invert_rec (x y w h : Z) : M fb unit :=
  for_each (span x w) (λ px, for_each (span y h) (λ py,
    color ← get_pixel px py;
    draw_pixel px py (wrap 32 (Z.lnot color)))).

(** ** Lines *)

Fixpoint x_line (fuel : nat) (x y x1 sx sy d dx dy color : Z) : M fb unit :=
  if x =? x1 then mret () else
  match fuel with
  | O => hang
  | S fuel' =>
      _ ← draw_pixel_rgb (wrap 32 x) (wrap 32 y) (red_of color) (green_of color) (blue_of color);
      if d >? 0 then x_line fuel' (x + sx) (y + sy) x1 sx sy (d + 2 * (dy - dx)) dx dy color
      else x_line fuel' (x + sx) y x1 sx sy (d + 2 * dy) dx dy color
  end.

Definition draw_x_dominant_line (x0 y0 x1 y1 dx dy color : Z) : M fb unit :=
  let sx := if x1 >=? x0 then 1 else -1 in
  let sy := if y1 >=? y0 then 1 else -1 in
  x_line (Z.to_nat (Z.abs (x1 - x0))) x0 y0 x1 sx sy (2 * dy - dx) dx dy color.

Fixpoint y_line (fuel : nat) (x y y1 sx sy d dx dy color : Z) : M fb unit :=
  if y =? y1 then mret () else
  match fuel with
  | O => hang
  | S fuel' =>
      _ ← draw_pixel_rgb (wrap 32 x) (wrap 32 y) (red_of color) (green_of color) (blue_of color);
      if d >? 0 then y_line fuel' (x + sx) (y + sy) y1 sx sy (d + 2 * (dx - dy)) dx dy color
      else y_line fuel' x (y + sy) y1 sx sy (d + 2 * dx) dx dy color
  end.

Definition draw_y_dominant_line (x0 y0 x1 y1 dx dy color : Z) : M fb unit :=
  let sx := if x1 >=? x0 then 1 else -1 in
  let sy := if y1 >=? y0 then 1 else -1 in
  y_line (Z.to_nat (Z.abs (y1 - y0))) x0 y0 y1 sx sy (2 * dx - dy) dx dy color.

Definition draw_line (x0 y0 x1 y1 color : Z) : M fb unit :=
  w ← gets (λ s, to_int (fb_width s));
  h ← gets (λ s, to_int (fb_height s));
  _ ← kassert ((0 <=? x0) && (x0 <? w));
  _ ← kassert ((0 <=? x1) && (x1 <? w));
  _ ← kassert ((0 <=? y0) && (y0 <? h));
  _ ← kassert ((0 <=? y1) && (y1 <? h));
  dx ← of_option (algo_abs 32 (x1 - x0));
  dy ← of_option (algo_abs 32 (y1 - y0));
  if dx >=? dy then draw_x_dominant_line x0 y0 x1 y1 dx dy color
  else draw_y_dominant_line x0 y0 x1 y1 dx dy color.

(** ** Rectangles *)

Definition outline_rect (x y w h color : Z) : M fb unit :=
  width ← gets fb_width;
  height ← gets fb_height;
  _ ← kassert (wrap 32 (x + w) <? width);
  _ ← kassert (wrap 32 (y + h) <? height);
  let put px py := draw_pixel_rgb px py (red_of color) (green_of color) (blue_of color) in
  _ ← for_each (span x w) (λ px, put px y);
  _ ← for_each (span x w) (λ px, put px (wrap 32 (y + h)));
  _ ← for_each (span y h) (λ py, put x py);
  for_each (span y h) (λ py, put (wrap 32 (x + w)) py).

Definition fill_rect (x y w h color : Z) : M fb unit :=
  for_each (span x w) (λ px, for_each (span y h) (λ py,
    draw_pixel_rgb px py (red_of color) (green_of color) (blue_of color))).

(** ** Text; [None] is a null font *)

(** One row of a glyph: the bit of every column, the highest first; nothing is drawn for a clear bit when
    [bg] is negative. *)
Definition draw_glyph_row (f : Font) (x y byte fg bg gy : Z) : M fb unit :=
  for_each (seqZ 0 (font_width f)) (λ gx,
    if Z.land (Z.shiftr byte (font_width f - gx - 1)) 1 =? 1
    then draw_pixel (wrap 32 (x + gx)) (wrap 32 (y + gy)) (wrap 32 fg)
    else if bg >=? 0 then draw_pixel (wrap 32 (x + gx)) (wrap 32 (y + gy)) (wrap 32 bg) else mret ()).

Definition draw_char (x y : Z) (font : option Font) (c fg bg : Z) : M fb unit :=
  match font with
  | None => panic
  | Some f =>
      width ← gets fb_width;
      height ← gets fb_height;
      _ ← kassert (wrap 32 (x + font_width f) <? width);
      _ ← kassert (wrap 32 (y + font_height f) <? height);
      for_each (seqZ 0 (font_height f)) (λ gy,
        byte ← of_option (get_glyph f c !! Z.to_nat gy);
        draw_glyph_row f x y byte fg bg gy)
  end.

Definition draw_str (x y : Z) (font : option Font) (str : list Z) (fg bg : Z) : M fb unit :=
  match font with
  | None => panic
  | Some f => for_each (imap pair str) (λ '(i, c), draw_char (wrap 32 (x + Z.of_nat i * font_width f)) y font c fg bg)
  end.

(** ** Clearing: 32-bit stores up to the end of the buffer *)

Fixpoint clear_loop (fuel : nat) (a stop color : Z) : M fb unit :=
  if a =? stop then mret () else
  match fuel with
  | O => hang
  | S fuel' =>
      _ ← for_each (seqZ 0 4) (λ k, on_buff (store8 (a + k) (Z.land (Z.shiftr color (8 * k)) 0xFF)));
      clear_loop fuel' (a + 4) stop color
  end.

(** Past the end of the buffer a store faults, so this many rounds are enough. *)
Definition fb_clear (color : Z) : M fb unit :=
  n ← gets vram_size;
  clear_loop (S (Z.to_nat n)) 0 n color.
Definition clear_black : M fb unit := fb_clear RGB_BLACK.

(** ** Proofs *)

Section drawing.
Implicit Types (s : fb) (x y c : Z).

(** A back buffer of the size of the screen, without padding between the lines. *)
Record fb_ok s : Prop := {
  ok_depth : 3 ≤ fb_bpp s / 8;
  ok_width : 0 < fb_width s < 2 ^ 31;
  ok_height : 0 < fb_height s < 2 ^ 31;
  ok_pitch : fb_pitch s = fb_width s * (fb_bpp s / 8);
  ok_line : fb_pitch s < 2 ^ 32;
  ok_size : vram_size s = fb_height s * fb_pitch s;
  ok_buff a : is_Some (vram_buff s !! a) ↔ 0 ≤ a < vram_size s;
  ok_vram a : is_Some (vram s !! a) ↔ 0 ≤ a < vram_size s;
}.

Definition in_screen s x y : Prop := 0 ≤ x < fb_width s ∧ 0 ≤ y < fb_height s.
Definition offset_of s x y : Z := y * fb_pitch s + x * (fb_bpp s / 8).

(** The colour of a pixel of the back buffer. *)
Definition join_rgb (b g r : Z) : Z := Z.lor (Z.lor b (Z.shiftl g 8)) (Z.shiftl r 16).
Definition pix s x y : Z :=
  let byte k := default 0 (vram_buff s !! (offset_of s x y + k)) in
  join_rgb (byte RGB_OFFB) (byte RGB_OFFG) (byte RGB_OFFR).

(** [s'] is [s] but for the back buffer, which shows [img]. *)
Record shows s (img : Z → Z → Z) s' : Prop := {
  sh_ok : fb_ok s';
  sh_same : with_redraw (needs_redraw s) (with_buff (vram_buff s) s') = s;
  sh_pix x y : in_screen s x y → pix s' x y = img x y;
}.

Lemma shows_self s : fb_ok s → shows s (pix s) s.
Proof. intros H. split; [done|by destruct s|done]. Qed.

Lemma shows_geometry s img s' : shows s img s' →
  fb_width s' = fb_width s ∧ fb_height s' = fb_height s ∧ fb_pitch s' = fb_pitch s ∧ fb_bpp s' = fb_bpp s ∧ vram_size s' = vram_size s.
Proof. intros [_ H _]. rewrite <- H. done. Qed.

Lemma join_split color : join_rgb (blue_of color) (green_of color) (red_of color) = Z.land color 0xFFFFFF.
Proof.
  apply Z.bits_inj'. intros i Hi. unfold join_rgb. rewrite !Z.lor_spec, !Z.shiftl_spec by lia.
  change (blue_of color) with (Z.land color (Z.ones 8)). change 16777215 with (Z.ones 24).
  change (green_of color) with (get_field 8 8 color). change (red_of color) with (get_field 16 8 color).
  rewrite !Z.land_spec, !testbit_ones_Z by lia.
  assert (∀ lo, i < lo → Z.testbit (get_field lo 8 color) (i - lo) = false) as Hlow by (intros; apply Z.testbit_neg_r; lia).
  assert (∀ lo, 0 ≤ lo ≤ i → Z.testbit (get_field lo 8 color) (i - lo) = (i - lo <? 8) && Z.testbit color i) as Hin.
  { intros lo Hlo. rewrite testbit_get_field by lia. replace (i - lo + lo) with i by lia. apply andb_comm. }
  destruct (decide (i < 8)); [|destruct (decide (i < 16))].
  - rewrite !Hlow by lia. rewrite !(proj2 (Z.ltb_lt _ _)) by lia. by rewrite !orb_false_r.
  - rewrite (Hlow 16), (Hin 8) by lia. rewrite (proj2 (Z.ltb_ge i 8)), !(proj2 (Z.ltb_lt _ _)) by lia.
    by rewrite andb_false_r, orb_false_r, andb_true_r.
  - rewrite (Hin 16), (Hin 8) by lia. rewrite (proj2 (Z.ltb_ge i 8)), (proj2 (Z.ltb_ge (i - 8) 8)) by lia.
    rewrite andb_false_r. cbn [orb andb]. replace (i - 16 <? 8) with (i <? 24) by lia. apply andb_comm.
Qed.

Section geometry.
Context {s : fb} (Hok : fb_ok s).

Lemma offset_bound x y : in_screen s x y → 0 ≤ offset_of s x y ∧ offset_of s x y + 3 ≤ vram_size s.
Proof.
  intros [Hx Hy]. destruct Hok as [Hd Hw Hh Hp Hl Hs _ _]. unfold offset_of. rewrite Hs, Hp in *. nia.
Qed.

Lemma offset_disjoint x y x' y' : in_screen s x y → in_screen s x' y' → (x, y) ≠ (x', y') →
  offset_of s x y + 3 ≤ offset_of s x' y' ∨ offset_of s x' y' + 3 ≤ offset_of s x y.
Proof.
  intros [Hx Hy] [Hx' Hy'] Hne. destruct Hok as [Hd Hw Hh Hp Hl Hs _ _]. unfold offset_of. rewrite Hp in *.
  destruct (Z.lt_trichotomy y y') as [H|[H|H]].
  - left. nia.
  - destruct (Z.lt_trichotomy x x') as [H'|[H'|H']]; [left; nia|congruence|right; nia].
  - right. nia.
Qed.

(** No 32-bit or 64-bit wrap-around inside the screen. *)
Lemma offset_run x y : in_screen s x y → get_pixel_offset x y s = Ok (s, offset_of s x y).
Proof.
  intros Hin. pose proof (offset_bound x y Hin) as [Hb1 Hb2]. destruct Hin as [Hx Hy].
  unfold get_pixel_offset, gets. do 3 f_equal. destruct Hok as [Hd Hw Hh Hp Hl Hs _ _].
  assert (0 ≤ x * (fb_bpp s / 8) < 2 ^ 32) by nia.
  assert (vram_size s < 2 ^ 64) by nia. rewrite (wrap_small 32) by done. rewrite wrap_small; [done|]. unfold is_word, offset_of in *. lia.
Qed.
End geometry.

(** ** One pixel *)

Definition upd (img : Z → Z → Z) x y c : Z → Z → Z :=
  λ x' y', if decide (x' = x ∧ y' = y) then Z.land c 0xFFFFFF else img x' y'.

Lemma shows_in s0 img s x y : shows s0 img s → in_screen s0 x y → in_screen s x y.
Proof. intros (Hw & Hh & _)%shows_geometry. unfold in_screen. by rewrite Hw, Hh. Qed.
Lemma shows_offset s0 img s x y : shows s0 img s → offset_of s x y = offset_of s0 x y.
Proof. intros (_ & _ & Hp & Hb & _)%shows_geometry. unfold offset_of. by rewrite Hp, Hb. Qed.

(** Three bytes stored at the offset of a pixel. *)
Lemma pix_store s o b g r m : fb_ok s →
  m = <[o + RGB_OFFR := r]> (<[o + RGB_OFFG := g]> (<[o + RGB_OFFB := b]> (vram_buff s))) →
  0 ≤ o → o + 3 ≤ vram_size s → fb_ok (with_buff m s).
Proof.
  intros [] -> Ho Hs. split; cbn; try done. intros a. unfold RGB_OFFB, RGB_OFFG, RGB_OFFR.
  rewrite !lookup_insert_is_Some', ok_buff0. split; [|by auto]. intros [?|[?|[?|?]]]; lia.
Qed.

Lemma pix_written s x y c b x' y' : fb_ok s → in_screen s x y → in_screen s x' y' →
  let o := offset_of s x y in
  pix (with_redraw b (with_buff (<[o + RGB_OFFR := red_of c]> (<[o + RGB_OFFG := green_of c]>
    (<[o + RGB_OFFB := blue_of c]> (vram_buff s)))) s)) x' y' =
  if decide (x' = x ∧ y' = y) then Z.land c 0xFFFFFF else pix s x' y'.
Proof.
  intros Hok Hin Hin' o. unfold pix. change (offset_of (with_redraw _ _) x' y') with (offset_of s x' y').
  cbn [vram_buff with_redraw with_buff]. unfold RGB_OFFB, RGB_OFFG, RGB_OFFR. rewrite <- join_split.
  case_decide as Hxy.
  - destruct Hxy as [-> ->]. fold o. rewrite lookup_insert_eq. rewrite !(lookup_insert_ne _ (o + 2)) by lia.
    rewrite lookup_insert_eq, (lookup_insert_ne _ (o + 1)) by lia. by rewrite lookup_insert_eq.
  - destruct (offset_disjoint Hok x y x' y' Hin Hin') as [?|?]; [naive_solver|..];
    by rewrite !lookup_insert_ne by (unfold o; lia).
Qed.

Lemma fb_ok_redraw s b : fb_ok s → fb_ok (with_redraw b s).
Proof. by intros []; split. Qed.

Lemma wp_store_buff s a v E (Q : unit → fb → Prop) : is_Some (vram_buff s !! a) →
  Q () (with_buff (<[a := v]> (vram_buff s)) s) → wp (on_buff (store8 a v)) E Q s.
Proof. intros Ha HQ. unfold on_buff. apply wp_zoom. by apply wp_store8. Qed.

Lemma wp_draw_rgb s0 img s x y c E (Q : unit → fb → Prop) : shows s0 img s → in_screen s0 x y →
  (∀ s', shows s0 (upd img x y c) s' → Q () s') → wp (draw_pixel_rgb x y (red_of c) (green_of c) (blue_of c)) E Q s.
Proof.
  intros Hs Hin HQ. pose proof (shows_in _ _ _ _ _ Hs Hin) as Hin'. pose proof (sh_ok _ _ _ Hs) as Hok.
  destruct (offset_bound Hok x y Hin') as [Ho1 Ho2].
  assert (vram_size s < 2 ^ 64) as Hsz by (destruct Hok as [Hd Hw Hh Hp Hl Hz _ _]; nia).
  assert (∀ k, 0 ≤ k < 3 → wrap 64 (offset_of s x y + k) = offset_of s x y + k) as Hwrap
    by (intros; apply wrap_small; unfold is_word; lia).
  assert (∀ k, 0 ≤ k < 3 → is_Some (vram_buff s !! (offset_of s x y + k))) as Hb by (intros; apply (ok_buff _ Hok); lia).
  unfold draw_pixel_rgb. eapply wp_bind_ok; [by apply offset_run|]. rewrite !Hwrap by done.
  pose proof (Hb RGB_OFFB ltac:(done)). pose proof (Hb RGB_OFFG ltac:(done)). pose proof (Hb RGB_OFFR ltac:(done)).
  do 3 (apply wp_bind, wp_store_buff; [cbn [vram_buff with_buff]; rewrite ?lookup_insert_is_Some'; by auto|]).
  apply HQ. change (with_buff ?m (with_buff _ (with_buff _ s))) with (with_buff m s).
  destruct Hs as [_ Hsame Hpix]. split; [|done|].
  - eapply fb_ok_redraw, pix_store; by eauto.
  - intros x' y' Hin2. unfold upd. rewrite <- Hpix by done. eapply pix_written; [done..|].
    by apply (shows_in s0 img); [split|].
Qed.

(** ** Many pixels *)

(** A list of pixels with their colours, drawn one after the other. *)
Fixpoint paint (l : list (Z * Z * Z)) (img : Z → Z → Z) : Z → Z → Z :=
  match l with [] => img | (x, y, c) :: l' => paint l' (upd img x y c) end.

Lemma paint_app l l' img : paint (l ++ l') img = paint l' (paint l img).
Proof. revert img. induction l as [|[[x y] c] l IH]; intros img; [done|]. cbn. apply IH. Qed.

Lemma elem_of_concat {A} (a : A) ls : a ∈ concat ls ↔ ∃ l, a ∈ l ∧ l ∈ ls.
Proof.
  induction ls as [|l ls IH]; cbn [concat]; [split; [by intros ?%not_elem_of_nil|by intros (? & _ & ?%not_elem_of_nil)]|].
  rewrite elem_of_app, IH. setoid_rewrite elem_of_cons. naive_solver.
Qed.

(** [m] draws the pixels [l], whatever the back buffer shows. *)
Definition draws s0 (m : M fb unit) (l : list (Z * Z * Z)) : Prop :=
  ∀ s img E, shows s0 img s → wp m E (λ _ s', shows s0 (paint l img) s') s.

Lemma draws_nothing s0 : draws s0 (mret ()) [].
Proof. intros s img E Hs. by apply wp_ret. Qed.

Lemma draws_rgb s0 x y c : in_screen s0 x y → draws s0 (draw_pixel_rgb x y (red_of c) (green_of c) (blue_of c)) [(x, y, c)].
Proof. intros Hin s img E Hs. by eapply wp_draw_rgb. Qed.

Lemma draws_bind s0 m m' l l' : draws s0 m l → draws s0 m' l' → draws s0 (_ ← m; m') (l ++ l').
Proof.
  intros H H' s img E Hs. apply wp_bind. eapply wp_mono; [by apply H|done|]. intros [] s' Hs'. rewrite paint_app. by apply H'.
Qed.

Lemma draws_for_each {A} s0 (xs : list A) (body : A → M fb unit) (g : A → list (Z * Z * Z)) :
  (∀ a, a ∈ xs → draws s0 (body a) (g a)) → draws s0 (for_each xs body) (concat (g <$> xs)).
Proof.
  induction xs as [|a xs IH]; intros H; cbn [for_each]; [apply draws_nothing|].
  cbn [fmap list_fmap concat]. apply draws_bind; [apply H; left|apply IH; intros; apply H; by right].
Qed.

Lemma draws_run s m l : fb_ok s → draws s m l → ∃ s', m s = Ok (s', ()) ∧ shows s (paint l (pix s)) s'.
Proof.
  intros Hok H. destruct (wp_total _ _ _ (H s (pix s) False (shows_self s Hok))) as (s' & [] & Hr & Hs). by exists s'.
Qed.

(** Pixels that are not in the list keep their colour; one that is there once gets its own. *)
Lemma paint_other l img x y : (∀ c, (x, y, c) ∉ l) → paint l img x y = img x y.
Proof.
  revert img. induction l as [|[[x' y'] c'] l IH]; intros img H; [done|]. cbn. rewrite IH.
  - unfold upd. rewrite decide_False; [done|]. intros [-> ->]. apply (H c'). left.
  - intros c Hc. apply (H c). by right.
Qed.

Lemma paint_in l img x y c : (x, y, c) ∈ l → (∀ c', (x, y, c') ∈ l → c' = c) → paint l img x y = Z.land c 0xFFFFFF.
Proof.
  revert img. induction l as [|[[x' y'] c0] l IH]; intros img Hin Huniq; [by apply not_elem_of_nil in Hin|]. cbn.
  destruct (decide ((x, y, c) ∈ l)) as [Hl|Hl].
  - apply IH; [done|]. intros c' Hc'. apply Huniq. by right.
  - apply elem_of_cons in Hin as [[= -> -> ->]|Hin]; [|done]. rewrite paint_other.
    + unfold upd. by rewrite decide_True.
    + intros c' Hc'. assert (c' = c0) as -> by (apply Huniq; by right). done.
Qed.

(** A colour in a set of pixels. *)
Definition filled (P : Z → Z → Prop) `{∀ x y, Decision (P x y)} c (img : Z → Z → Z) : Z → Z → Z :=
  λ x y, if decide (P x y) then Z.land c 0xFFFFFF else img x y.

Lemma paint_filled (P : Z → Z → Prop) `{∀ x y, Decision (P x y)} l c img x y :
  (∀ x y c', (x, y, c') ∈ l ↔ P x y ∧ c' = c) → paint l img x y = filled P c img x y.
Proof.
  intros Hl. unfold filled. case_decide as HP.
  - apply paint_in; [by apply Hl|]. by intros c' [_ ->]%Hl.
  - apply paint_other. by intros c' [? _]%Hl.
Qed.

(** ** Rectangles *)

Lemma span_eq x w : 0 ≤ x → 0 ≤ w → x + w < 2 ^ 32 → span x w = seqZ x w.
Proof. intros. unfold span. rewrite wrap_small by (unfold is_word; lia). f_equal. lia. Qed.

Definition in_rect x y w h x' y' : Prop := x ≤ x' < x + w ∧ y ≤ y' < y + h.

Lemma fill_rect_draws s x y w h c : fb_ok s → 0 ≤ x → 0 ≤ y → 0 ≤ w → 0 ≤ h → x + w ≤ fb_width s → y + h ≤ fb_height s →
  draws s (fill_rect x y w h c) (concat ((λ px, concat ((λ py, [(px, py, c)]) <$> seqZ y h)) <$> seqZ x w)).
Proof.
  intros Hok Hx Hy Hw Hh Hxw Hyh. pose proof (ok_width _ Hok). pose proof (ok_height _ Hok).
  unfold fill_rect. rewrite !span_eq by lia.
  apply draws_for_each. intros px Hpx%elem_of_seqZ. apply draws_for_each. intros py Hpy%elem_of_seqZ.
  apply draws_rgb. split; lia.
Qed.

Lemma elem_of_column px c ys x' y' c' : (x', y', c') ∈ concat ((λ py, [(px, py, c)]) <$> ys) ↔ x' = px ∧ y' ∈ ys ∧ c' = c.
Proof.
  induction ys as [|py ys IH]; cbn [fmap list_fmap concat]; [split; [by intros ?%not_elem_of_nil|by intros (_ & ?%not_elem_of_nil & _)]|].
  rewrite elem_of_app, IH, list_elem_of_singleton, elem_of_cons. naive_solver.
Qed.

Lemma elem_of_grid xs ys c x' y' c' :
  (x', y', c') ∈ concat ((λ px, concat ((λ py, [(px, py, c)]) <$> ys)) <$> xs) ↔ (x' ∈ xs ∧ y' ∈ ys) ∧ c' = c.
Proof.
  induction xs as [|px xs IH]; cbn [fmap list_fmap concat]; [split; [by intros ?%not_elem_of_nil|by intros [[?%not_elem_of_nil _] _]]|].
  rewrite elem_of_app, IH, elem_of_column, elem_of_cons. naive_solver.
Qed.

Lemma shows_ext s img img' s' : shows s img s' → (∀ x y, in_screen s x y → img x y = img' x y) → shows s img' s'.
Proof. intros [Ho Hs Hp] H. split; [done..|]. intros x y Hin. by rewrite Hp, H. Qed.

Lemma fill_rect_run s x y w h c : fb_ok s → 0 ≤ x → 0 ≤ y → 0 ≤ w → 0 ≤ h → x + w ≤ fb_width s → y + h ≤ fb_height s →
  ∃ s', fill_rect x y w h c s = Ok (s', ()) ∧ shows s (filled (in_rect x y w h) c (pix s)) s'.
Proof.
  intros Hok Hx Hy Hw Hh Hxw Hyh. pose proof (fill_rect_draws s x y w h c Hok Hx Hy Hw Hh Hxw Hyh) as Hd.
  destruct (draws_run s _ _ Hok Hd) as (s' & Hr & Hs). exists s'. split; [done|]. eapply shows_ext; [done|].
  intros x' y' _. apply paint_filled. intros x1 y1 c1. rewrite elem_of_grid, !elem_of_seqZ. done.
Qed.

(** ** Lines *)

(** The steps of Bresenham's algorithm along the longer side [n] with the shorter side [m]: how far the
    line has moved sideways, and the decision variable. *)
Fixpoint bres (n m : Z) (k : nat) : Z * Z :=
  match k with
  | O => (0, 2 * m - n)
  | S k' => let '(r, d) := bres n m k' in if d >? 0 then (r + 1, d + 2 * (m - n)) else (r, d + 2 * m)
  end.
Definition side n m (k : Z) : Z := fst (bres n m (Z.to_nat k)).

Lemma bres_inv n m k : 0 ≤ m ≤ n → let '(r, d) := bres n m k in
  0 ≤ r ∧ d = 2 * m * (Z.of_nat k + 1) - n * (2 * r + 1) ∧ 2 * m - 2 * n ≤ d ≤ 2 * m.
Proof.
  intros Hm. induction k as [|k IH]; cbn [bres]; [lia|]. destruct (bres n m k) as [r d].
  destruct (Z.gtb_spec d 0); lia.
Qed.

(** Every pixel of the line is within half a pixel of the ideal one. *)
Lemma side_near n m k : 0 ≤ m ≤ n → 0 ≤ k < n → 0 ≤ side n m k ≤ m ∧ Z.abs (2 * (n * side n m k - m * k)) ≤ n.
Proof.
  intros Hm Hk. unfold side. pose proof (bres_inv n m (Z.to_nat k) Hm) as H.
  destruct (bres n m (Z.to_nat k)) as [r d]. cbn. rewrite Z2Nat.id in H by lia. destruct H as (Hr & Hd & Hb).
  split; [|lia]. split; [done|]. nia.
Qed.

Definition x_point x0 y0 sx sy n m (k : Z) : Z * Z := (x0 + sx * k, y0 + sy * side n m k).
Definition y_point x0 y0 sx sy n m (k : Z) : Z * Z := (x0 + sx * side n m k, y0 + sy * k).

Section lines.
Context (s : fb) (Hok : fb_ok s) (x0 y0 sx sy n m c : Z) (Hsx : sx = 1 ∨ sx = -1) (Hsy : sy = 1 ∨ sy = -1) (Hm : 0 ≤ m ≤ n).

Definition line_list (pt : Z → Z * Z) (k : Z) (j : nat) : list (Z * Z * Z) := (λ k, (pt k, c)) <$> seqZ k (Z.of_nat j).

Lemma line_list_S pt k j : line_list pt k (S j) = (pt k, c) :: line_list pt (k + 1) j.
Proof. unfold line_list. rewrite seqZ_cons by lia. cbn. do 3 f_equal; lia. Qed.

Lemma wrap_screen x y : in_screen s x y → wrap 32 x = x ∧ wrap 32 y = y.
Proof. intros [Hx Hy]. destruct Hok. split; apply wrap_small; unfold is_word; lia. Qed.

Lemma x_line_draws j k : (∀ k, 0 ≤ k < n → in_screen s (x_point x0 y0 sx sy n m k).1 (x_point x0 y0 sx sy n m k).2) →
  Z.of_nat k + Z.of_nat j = n →
  draws s (x_line j (x0 + sx * k) (y0 + sy * (bres n m k).1) (x0 + sx * n) sx sy (bres n m k).2 n m c)
    (line_list (x_point x0 y0 sx sy n m) k j).
Proof.
  intros Hin. revert k. induction j as [|j IH]; intros k Hk.
  - cbn. replace (x0 + sx * k =? x0 + sx * n) with true by (symmetry; apply Z.eqb_eq; f_equal; f_equal; lia). apply draws_nothing.
  - rewrite line_list_S. cbn [x_line]. rewrite (proj2 (Z.eqb_neq _ _)) by (destruct Hsx as [-> | ->]; lia).
    pose proof (Hin k ltac:(lia)) as Hk0. unfold x_point, side in Hk0. rewrite Nat2Z.id in Hk0. cbn in Hk0.
    destruct (wrap_screen _ _ Hk0) as [-> ->].
    change ((x_point x0 y0 sx sy n m k, c) :: ?l) with ([(x_point x0 y0 sx sy n m k, c)] ++ l).
    apply draws_bind.
    + unfold x_point, side. rewrite Nat2Z.id. by apply draws_rgb.
    + specialize (IH (S k) ltac:(lia)). cbn [bres] in IH. destruct (bres n m k) as [r d]. cbn [fst snd] in *.
      replace (Z.of_nat (S k)) with (k + 1) in IH by lia. rewrite !Z.mul_add_distr_l, !Z.mul_1_r, !Z.add_assoc in IH.
      destruct (d >? 0); [|done]. cbn [fst snd] in IH. by rewrite Z.mul_add_distr_l, Z.mul_1_r, Z.add_assoc in IH.
Qed.

Lemma y_line_draws j k : (∀ k, 0 ≤ k < n → in_screen s (y_point x0 y0 sx sy n m k).1 (y_point x0 y0 sx sy n m k).2) →
  Z.of_nat k + Z.of_nat j = n →
  draws s (y_line j (x0 + sx * (bres n m k).1) (y0 + sy * k) (y0 + sy * n) sx sy (bres n m k).2 m n c)
    (line_list (y_point x0 y0 sx sy n m) k j).
Proof.
  intros Hin. revert k. induction j as [|j IH]; intros k Hk.
  - cbn. replace (y0 + sy * k =? y0 + sy * n) with true by (symmetry; apply Z.eqb_eq; f_equal; f_equal; lia). apply draws_nothing.
  - rewrite line_list_S. cbn [y_line]. rewrite (proj2 (Z.eqb_neq _ _)) by (destruct Hsy as [-> | ->]; lia).
    pose proof (Hin k ltac:(lia)) as Hk0. unfold y_point, side in Hk0. rewrite Nat2Z.id in Hk0. cbn in Hk0.
    destruct (wrap_screen _ _ Hk0) as [-> ->].
    change ((y_point x0 y0 sx sy n m k, c) :: ?l) with ([(y_point x0 y0 sx sy n m k, c)] ++ l).
    apply draws_bind.
    + unfold y_point, side. rewrite Nat2Z.id. by apply draws_rgb.
    + specialize (IH (S k) ltac:(lia)). cbn [bres] in IH. destruct (bres n m k) as [r d]. cbn [fst snd] in *.
      replace (Z.of_nat (S k)) with (k + 1) in IH by lia. rewrite !Z.mul_add_distr_l, !Z.mul_1_r, !Z.add_assoc in IH.
      destruct (d >? 0); [|done]. cbn [fst snd] in IH. by rewrite Z.mul_add_distr_l, Z.mul_1_r, Z.add_assoc in IH.
Qed.
End lines.

Definition sign_of (a b : Z) : Z := if b >=? a then 1 else -1.
Lemma sign_of_cases a b : sign_of a b = 1 ∨ sign_of a b = -1.
Proof. unfold sign_of. destruct (b >=? a); auto. Qed.
Lemma sign_of_abs a b : a + sign_of a b * Z.abs (b - a) = b.
Proof. unfold sign_of. destruct (Z.geb_spec b a); lia. Qed.
(** A step of at most [b - a] from [a] towards [b] stays between them. *)
Lemma sign_of_between a b k w : 0 ≤ a < w → 0 ≤ b < w → 0 ≤ k ≤ Z.abs (b - a) → 0 ≤ a + sign_of a b * k < w.
Proof. unfold sign_of. destruct (Z.geb_spec b a); lia. Qed.

(** The points of a line: [n] is the longer side. *)
Definition line_point x0 y0 x1 y1 (k : Z) : Z * Z :=
  let dx := Z.abs (x1 - x0) in
  let dy := Z.abs (y1 - y0) in
  if dx >=? dy then x_point x0 y0 (sign_of x0 x1) (sign_of y0 y1) dx dy k
  else y_point x0 y0 (sign_of x0 x1) (sign_of y0 y1) dy dx k.
Definition line_points x0 y0 x1 y1 : list (Z * Z) :=
  line_point x0 y0 x1 y1 <$> seqZ 0 (Z.max (Z.abs (x1 - x0)) (Z.abs (y1 - y0))).

Definition on_line x0 y0 x1 y1 x y : Prop := (x, y) ∈ line_points x0 y0 x1 y1.
#[export] Instance on_line_dec x0 y0 x1 y1 x y : Decision (on_line x0 y0 x1 y1 x y).
Proof. unfold on_line. apply _. Defined.

Lemma draw_line_draws s x0 y0 x1 y1 c : fb_ok s → in_screen s x0 y0 → in_screen s x1 y1 →
  draws s (draw_line x0 y0 x1 y1 c) ((λ p, (p, c)) <$> line_points x0 y0 x1 y1).
Proof.
  intros Hok [Hx0 Hy0] [Hx1 Hy1] s1 img E Hs1. destruct (shows_geometry _ _ _ Hs1) as (Hw & Hh & _).
  pose proof (ok_width _ Hok). pose proof (ok_height _ Hok).
  assert (∀ z, Z.abs z < 2 ^ 31 → algo_abs 32 z = Some (Z.abs z)) as Habs.
  { intros z Hz. unfold algo_abs. destruct (Z.ltb_spec z 0); [|f_equal; lia].
    destruct (Z.eqb_spec z (- 2 ^ (32 - 1))); [lia|f_equal; lia]. }
  unfold draw_line. apply wp_gets, wp_gets. rewrite Hw, Hh, !to_int_small by lia. rewrite !Habs by lia.
  rewrite !(proj2 (Z.leb_le _ _)), !(proj2 (Z.ltb_lt _ _)) by lia. do 4 apply wp_kassert.
  apply wp_of_option. eexists. split; [done|]. apply wp_of_option. eexists. split; [done|].
  unfold line_points, line_point. destruct (Z.geb_spec (Z.abs (x1 - x0)) (Z.abs (y1 - y0))) as [Hd|Hd].
  - rewrite Z.max_l by lia. unfold draw_x_dominant_line. fold (sign_of x0 x1) (sign_of y0 y1).
    pose proof (x_line_draws s Hok x0 y0 (sign_of x0 x1) (sign_of y0 y1) (Z.abs (x1 - x0)) (Z.abs (y1 - y0)) c
      (sign_of_cases _ _) (Z.to_nat (Z.abs (x1 - x0))) 0) as HL.
    rewrite sign_of_abs in HL. cbn [bres fst snd] in HL. rewrite !Z.mul_0_r, !Z.add_0_r in HL.
    unfold line_list in HL. rewrite Z2Nat.id in HL by lia. rewrite <- list_fmap_compose. apply HL; [|lia|done].
    intros k Hk. destruct (side_near (Z.abs (x1 - x0)) (Z.abs (y1 - y0)) k) as [Hr _]; [lia..|].
    split; cbn; apply sign_of_between; lia.
  - rewrite Z.max_r by lia. unfold draw_y_dominant_line. fold (sign_of x0 x1) (sign_of y0 y1).
    pose proof (y_line_draws s Hok x0 y0 (sign_of x0 x1) (sign_of y0 y1) (Z.abs (y1 - y0)) (Z.abs (x1 - x0)) c
      (sign_of_cases _ _) (Z.to_nat (Z.abs (y1 - y0))) 0) as HL.
    rewrite sign_of_abs in HL. cbn [bres fst snd] in HL. rewrite !Z.mul_0_r, !Z.add_0_r in HL.
    unfold line_list in HL. rewrite Z2Nat.id in HL by lia. rewrite <- list_fmap_compose. apply HL; [|lia|done].
    intros k Hk. destruct (side_near (Z.abs (y1 - y0)) (Z.abs (x1 - x0)) k) as [Hr _]; [lia..|].
    split; cbn; apply sign_of_between; lia.
Qed.

Lemma cross_abs sx sy k r n m : sx = 1 ∨ sx = -1 → sy = 1 ∨ sy = -1 →
  Z.abs (2 * (sx * k * (sy * m) - sy * r * (sx * n))) = Z.abs (2 * (n * r - m * k)).
Proof. intros [-> | ->] [-> | ->]; generalize (Z.mul_comm n r) (Z.mul_comm m k); lia. Qed.

(** The points lie in the box of the endpoints, and within half a pixel of the ideal line. *)
Lemma line_points_near x0 y0 x1 y1 x y : (x, y) ∈ line_points x0 y0 x1 y1 →
  Z.min x0 x1 ≤ x ≤ Z.max x0 x1 ∧ Z.min y0 y1 ≤ y ≤ Z.max y0 y1 ∧
  Z.abs (2 * ((x - x0) * (y1 - y0) - (y - y0) * (x1 - x0))) ≤ Z.max (Z.abs (x1 - x0)) (Z.abs (y1 - y0)).
Proof.
  unfold line_points. intros (k & Hp & Hk%elem_of_seqZ)%list_elem_of_fmap. unfold line_point in Hp.
  pose proof (sign_of_abs x0 x1) as Hx. pose proof (sign_of_abs y0 y1) as Hy.
  assert (∀ a, 0 ≤ a ≤ Z.abs (x1 - x0) → Z.min x0 x1 ≤ x0 + sign_of x0 x1 * a ≤ Z.max x0 x1) as Hbx
    by (intros a; unfold sign_of; destruct (Z.geb_spec x1 x0); lia).
  assert (∀ a, 0 ≤ a ≤ Z.abs (y1 - y0) → Z.min y0 y1 ≤ y0 + sign_of y0 y1 * a ≤ Z.max y0 y1) as Hby
    by (intros a; unfold sign_of; destruct (Z.geb_spec y1 y0); lia).
  set (dx := Z.abs (x1 - x0)) in *. set (dy := Z.abs (y1 - y0)) in *.
  replace (x1 - x0) with (sign_of x0 x1 * dx) by lia. replace (y1 - y0) with (sign_of y0 y1 * dy) by lia.
  destruct (Z.geb_spec dx dy) as [Hd|Hd]; 
    [rewrite (Z.max_l dx dy) in * by lia|rewrite (Z.max_r dx dy) in * by lia]; injection Hp as -> ->.
  - destruct (side_near dx dy k) as [Hr He]; [lia..|]. split_and!; [apply Hbx; lia..|apply Hby; lia|apply Hby; lia|].
    rewrite !Z.add_simpl_l, cross_abs by apply sign_of_cases. done.
  - destruct (side_near dy dx k) as [Hr He]; [lia..|]. split_and!; [apply Hbx; lia..|apply Hby; lia|apply Hby; lia|].
    rewrite !Z.add_simpl_l, cross_abs by apply sign_of_cases. rewrite <- Z.abs_opp. etransitivity; [|exact He]. lia.
Qed.

(** ** Text *)

Section text.
Context (f : Font) `{!FontLaws f} (s : fb) (Hok : fb_ok s) (x y c fg bg : Z).
Context (Hin : 0 ≤ x ∧ 0 ≤ y) (Hfit : x + font_width f ≤ fb_width s ∧ y + font_height f ≤ fb_height s).

Definition glyph_bit (gx gy : Z) : bool := Z.testbit (nth (Z.to_nat gy) (get_glyph f c) 0) (font_width f - gx - 1).

Definition pixel_list (gx gy : Z) : list (Z * Z * Z) :=
  if glyph_bit gx gy then [(x + gx, y + gy, wrap 32 fg)]
  else if bg >=? 0 then [(x + gx, y + gy, wrap 32 bg)] else [].

Lemma low_bit b k : 0 ≤ k → (Z.land (Z.shiftr b k) 1 =? 1) = Z.testbit b k.
Proof.
  intros Hk. change 1 with (Z.ones 1) at 1. rewrite Z.land_ones by lia.
  rewrite <- (Z.add_0_l k) at 2. rewrite <- Z.shiftr_spec, Z.bit0_eqb by lia. done.
Qed.

Lemma pixel_draws gx gy byte : 0 ≤ gx < font_width f → 0 ≤ gy < font_height f → byte = nth (Z.to_nat gy) (get_glyph f c) 0 →
  draws s (if Z.land (Z.shiftr byte (font_width f - gx - 1)) 1 =? 1
    then draw_pixel (wrap 32 (x + gx)) (wrap 32 (y + gy)) (wrap 32 fg)
    else if bg >=? 0 then draw_pixel (wrap 32 (x + gx)) (wrap 32 (y + gy)) (wrap 32 bg) else mret ()) (pixel_list gx gy).
Proof.
  intros Hgx Hgy ->. rewrite low_bit by lia. unfold pixel_list. fold (glyph_bit gx gy).
  assert (in_screen s (x + gx) (y + gy)) as Hs by (split; lia). destruct (wrap_screen s Hok _ _ Hs) as [-> ->].
  destruct (glyph_bit gx gy); [exact (draws_rgb s _ _ _ Hs)|].
  destruct (bg >=? 0); [exact (draws_rgb s _ _ _ Hs)|apply draws_nothing].
Qed.

Lemma draw_char_draws :
  x + font_width f < fb_width s → y + font_height f < fb_height s →
  draws s (draw_char x y (Some f) c fg bg)
    (concat ((λ gy, concat ((λ gx, pixel_list gx gy) <$> seqZ 0 (font_width f))) <$> seqZ 0 (font_height f))).
Proof.
  intros Hw Hh s1 img E Hs1. destruct (shows_geometry _ _ _ Hs1) as (Ew & Eh & _). destruct (font_size (f := f)) as [Hfw Hfh].
  pose proof (ok_width _ Hok). pose proof (ok_height _ Hok).
  unfold draw_char. apply wp_gets, wp_gets. rewrite Ew, Eh, !wrap_small by (unfold is_word; lia).
  rewrite !(proj2 (Z.ltb_lt _ _)) by lia. do 2 apply wp_kassert. revert s1 img E Hs1 Ew Eh.
  cut (draws s (for_each (seqZ 0 (font_height f)) (λ gy, byte ← of_option (get_glyph f c !! Z.to_nat gy); draw_glyph_row f x y byte fg bg gy))
    (concat ((λ gy, concat ((λ gx, pixel_list gx gy) <$> seqZ 0 (font_width f))) <$> seqZ 0 (font_height f)))).
  { intros HD s1 img E Hs1 _ _. by apply HD. }
  apply draws_for_each. intros gy Hgy%elem_of_seqZ s1 img E Hs1. apply wp_of_option.
  exists (nth (Z.to_nat gy) (get_glyph f c) 0). split.
  - destruct (nth_lookup_or_length (get_glyph f c) (Z.to_nat gy) 0) as [Hl|Hl]; [done|]. pose proof (glyph_rows (f := f) c). lia.
  - cut (draws s (draw_glyph_row f x y (nth (Z.to_nat gy) (get_glyph f c) 0) fg bg gy)
      (concat ((λ gx, pixel_list gx gy) <$> seqZ 0 (font_width f)))); [intros HD; by apply HD|].
    apply draws_for_each. intros gx Hgx%elem_of_seqZ. apply pixel_draws; [lia..|done].
Qed.

(** What a character looks like at [x], [y]. *)
Definition with_char (img : Z → Z → Z) x' y' : Z :=
  if decide (in_rect x y (font_width f) (font_height f) x' y') then
    if glyph_bit (x' - x) (y' - y) then Z.land (wrap 32 fg) 0xFFFFFF
    else if bg >=? 0 then Z.land (wrap 32 bg) 0xFFFFFF else img x' y'
  else img x' y'.

Lemma elem_of_char x' y' c' :
  (x', y', c') ∈ concat ((λ gy, concat ((λ gx, pixel_list gx gy) <$> seqZ 0 (font_width f))) <$> seqZ 0 (font_height f)) ↔
  in_rect x y (font_width f) (font_height f) x' y' ∧ (x', y', c') ∈ pixel_list (x' - x) (y' - y).
Proof.
  rewrite elem_of_concat. split.
  - intros (l & Hl & (gy & -> & Hgy%elem_of_seqZ)%list_elem_of_fmap).
    apply elem_of_concat in Hl as (l' & Hl' & (gx & -> & Hgx%elem_of_seqZ)%list_elem_of_fmap).
    assert (x' = x + gx ∧ y' = y + gy) as [-> ->].
    { unfold pixel_list in Hl'. destruct (glyph_bit gx gy); [|destruct (bg >=? 0)].
      - by apply list_elem_of_singleton in Hl' as [= -> -> _].
      - by apply list_elem_of_singleton in Hl' as [= -> -> _].
      - by apply not_elem_of_nil in Hl'. }
    rewrite !Z.add_simpl_l. split; [split; lia|done].
  - intros [[Hx Hy] Hp]. eexists. split; [|apply list_elem_of_fmap; exists (y' - y); split; [done|apply elem_of_seqZ; lia]].
    apply elem_of_concat. eexists. split; [exact Hp|]. apply list_elem_of_fmap. exists (x' - x). split; [done|apply elem_of_seqZ; lia].
Qed.

Lemma draw_char_run : x + font_width f < fb_width s → y + font_height f < fb_height s →
  ∃ s', draw_char x y (Some f) c fg bg s = Ok (s', ()) ∧ shows s (with_char (pix s)) s'.
Proof.
  intros Hw Hh. destruct (draws_run s _ _ Hok (draw_char_draws Hw Hh)) as (s' & Hr & Hs). exists s'. split; [done|].
  eapply shows_ext; [done|]. intros x' y' _. unfold with_char. case_decide as Hr'.
  - pose proof (elem_of_char x' y') as He.
    assert (pixel_list (x' - x) (y' - y) = if glyph_bit (x' - x) (y' - y) then [(x', y', wrap 32 fg)]
      else if bg >=? 0 then [(x', y', wrap 32 bg)] else []) as Hpl.
    { unfold pixel_list. by replace (x + (x' - x)) with x' by lia; replace (y + (y' - y)) with y' by lia. }
    rewrite Hpl in He. clear Hpl.
    destruct (glyph_bit (x' - x) (y' - y)); [|destruct (bg >=? 0)].
    + apply paint_in; [apply He; split; [done|left]|]. by intros c' [_ [= ->]%list_elem_of_singleton]%He.
    + apply paint_in; [apply He; split; [done|left]|]. by intros c' [_ [= ->]%list_elem_of_singleton]%He.
    + apply paint_other. by intros c' [_ ?%not_elem_of_nil]%He.
  - apply paint_other. intros c' [Hc' _]%elem_of_char. done.
Qed.
End text.

(** ** Inversion *)

Lemma wp_get_pixel s0 img s x y E (Q : Z → fb → Prop) : shows s0 img s → in_screen s0 x y →
  Q (img x y) s → wp (get_pixel x y) E Q s.
Proof.
  intros Hs Hin HQ. pose proof (shows_in _ _ _ _ _ Hs Hin) as Hin'. pose proof (sh_ok _ _ _ Hs) as Hok.
  destruct (offset_bound Hok x y Hin') as [Ho1 Ho2].
  assert (vram_size s < 2 ^ 64) as Hsz by (destruct Hok as [Hd Hw Hh Hp Hl Hz _ _]; nia).
  rewrite <- (sh_pix _ _ _ Hs x y Hin) in HQ. unfold pix in HQ.
  assert (∀ k, 0 ≤ k < 3 → wp (on_buff (load8 (wrap 64 (offset_of s x y + k)))) E
    (λ b s', b = default 0 (vram_buff s !! (offset_of s x y + k)) ∧ s' = s) s) as Hload.
  { intros k Hk. rewrite wrap_small by (unfold is_word; lia).
    destruct (proj2 (ok_buff _ Hok (offset_of s x y + k)) ltac:(lia)) as [b Hb].
    unfold on_buff. apply wp_zoom. eapply wp_load8; [done|]. rewrite Hb. split; [done|by destruct s]. }
  unfold get_pixel. eapply wp_bind_ok; [by apply offset_run|].
  do 3 (apply wp_bind; eapply wp_mono; [by apply Hload|done|]; cbn beta; intros ? ? [-> ->]). by apply wp_ret.
Qed.

Definition invert_in (xs ys : list Z) (img : Z → Z → Z) : Z → Z → Z :=
  λ x y, if decide (x ∈ xs ∧ y ∈ ys) then Z.land (wrap 32 (Z.lnot (img x y))) 0xFFFFFF else img x y.

Lemma invert_snoc_y px pre py img x y : py ∉ pre →
  upd (invert_in [px] pre img) px py (wrap 32 (Z.lnot (invert_in [px] pre img px py))) x y = invert_in [px] (pre ++ [py]) img x y.
Proof.
  intros Hpre. unfold upd, invert_in. repeat case_decide; rewrite ?elem_of_app, ?list_elem_of_singleton in *; naive_solver.
Qed.

Lemma invert_snoc_x pre px ys img x y : px ∉ pre →
  invert_in [px] ys (invert_in pre ys img) x y = invert_in (pre ++ [px]) ys img x y.
Proof.
  intros Hpre. unfold invert_in. repeat case_decide; rewrite ?elem_of_app, ?list_elem_of_singleton in *; naive_solver.
Qed.

Lemma invert_column s0 img s px ys E : NoDup ys → (∀ py, py ∈ ys → in_screen s0 px py) → shows s0 img s →
  wp (for_each ys (λ py, color ← get_pixel px py; draw_pixel px py (wrap 32 (Z.lnot color)))) E
    (λ _ s', shows s0 (invert_in [px] ys img) s') s.
Proof.
  intros Hnd Hin Hs.
  apply (wp_for_each ys _ E (λ pre s', shows s0 (invert_in [px] pre img) s')).
  - intros pre py post s' Hys Hs'. assert (py ∉ pre) as Hpre.
    { rewrite Hys in Hnd. apply NoDup_app in Hnd as (_ & Hd & _). intros H. apply (Hd _ H). left. }
    apply wp_bind. eapply wp_get_pixel; [done|apply Hin; rewrite Hys; set_solver|].
    unfold draw_pixel. eapply wp_draw_rgb; [done|apply Hin; rewrite Hys; set_solver|]. intros s'' Hs''. eapply shows_ext; [done|].
    intros x y _. by apply invert_snoc_y.
  - eapply shows_ext; [done|]. intros x y _. unfold invert_in. by rewrite decide_False by set_solver.
Qed.

Lemma invert_rec_run s x y w h : fb_ok s → 0 ≤ x → 0 ≤ y → 0 ≤ w → 0 ≤ h → x + w ≤ fb_width s → y + h ≤ fb_height s →
  ∃ s', invert_rec x y w h s = Ok (s', ()) ∧ shows s (invert_in (seqZ x w) (seqZ y h) (pix s)) s'.
Proof.
  intros Hok Hx Hy Hw Hh Hxw Hyh. pose proof (ok_width _ Hok). pose proof (ok_height _ Hok).
  cut (wp (invert_rec x y w h) False (λ _ s', shows s (invert_in (seqZ x w) (seqZ y h) (pix s)) s') s).
  { intros (s' & [] & Hr & Hs)%wp_total. by exists s'. }
  unfold invert_rec. rewrite !span_eq by lia.
  apply (wp_for_each (seqZ x w) _ False (λ pre s', shows s (invert_in pre (seqZ y h) (pix s)) s')).
  - intros pre px post s' Hxs Hs'. assert (px ∈ seqZ x w) as Hpx by (rewrite Hxs; set_solver). apply elem_of_seqZ in Hpx.
    assert (px ∉ pre) as Hpre.
    { pose proof (NoDup_seqZ x w) as Hnd. rewrite Hxs in Hnd. apply NoDup_app in Hnd as (_ & Hd & _).
      intros Hp. apply (Hd _ Hp). left. }
    eapply wp_mono; [apply invert_column; [apply NoDup_seqZ| |done]|done|].
    + intros py Hpy%elem_of_seqZ. split; lia.
    + intros [] s'' Hs''. eapply shows_ext; [done|]. intros x' y' _. by apply invert_snoc_x.
  - eapply shows_ext; [by apply shows_self|]. intros x' y' _. unfold invert_in. by rewrite decide_False by set_solver.
Qed.

(** ** Clearing and showing *)

Definition clear_byte (color a : Z) : Z := Z.land (Z.shiftr color (8 * (a mod 4))) 0xFF.

(** The bytes below [a] are those of the colour. *)
Definition cleared_to s color (a : Z) s' : Prop :=
  with_buff (vram_buff s) s' = s ∧ ∀ i, vram_buff s' !! i =
    if decide (0 ≤ i < a) then Some (clear_byte color i) else vram_buff s !! i.

Lemma clear_word s color a s' E : fb_ok s → 0 ≤ a → a mod 4 = 0 → a + 4 ≤ vram_size s → cleared_to s color a s' →
  wp (for_each (seqZ 0 4) (λ k, on_buff (store8 (a + k) (Z.land (Z.shiftr color (8 * k)) 0xFF)))) E
    (λ _ s'', cleared_to s color (a + 4) s'') s'.
Proof.
  intros Hok Ha Hmod Hsz Hs'.
  assert (∀ k s1, 0 ≤ k < 4 → cleared_to s color (a + k) s1 →
    wp (on_buff (store8 (a + k) (Z.land (Z.shiftr color (8 * k)) 0xFF))) E (λ _ s2, cleared_to s color (a + k + 1) s2) s1) as Hstep.
  { intros k s1 Hk [Heq Hb]. apply wp_store_buff.
    - rewrite Hb, decide_False by lia. apply (ok_buff _ Hok). lia.
    - split; [done|]. intros i. cbn [vram_buff with_buff]. destruct (decide (i = a + k)) as [->|Hne].
      + rewrite lookup_insert_eq, decide_True by lia. unfold clear_byte. do 4 f_equal. lia.
      + rewrite lookup_insert_ne, Hb by done. repeat case_decide; try done; lia. }
  change (seqZ 0 4) with [0; 1; 2; 3]. cbn [for_each].
  apply wp_bind. eapply wp_mono; [apply (Hstep 0); [lia|by rewrite Z.add_0_r]|done|]. intros [] s1 H1.
  apply wp_bind. eapply wp_mono; [apply (Hstep 1); [lia|by rewrite Z.add_0_r in H1]|done|]. intros [] s2 H2.
  apply wp_bind. eapply wp_mono; [apply (Hstep 2); [lia|by rewrite <- Z.add_assoc in H2]|done|]. intros [] s3 H3.
  apply wp_bind. eapply wp_mono; [apply (Hstep 3); [lia|by rewrite <- Z.add_assoc in H3]|done|]. intros [] s4 H4.
  apply wp_ret. by rewrite <- Z.add_assoc in H4.
Qed.

Lemma fb_clear_run s color : fb_ok s → vram_size s mod 4 = 0 →
  ∃ s', fb_clear color s = Ok (s', ()) ∧ cleared_to s color (vram_size s) s'.
Proof.
  intros Hok Hmod. cut (wp (fb_clear color) False (λ _ s', cleared_to s color (vram_size s) s') s).
  { intros (s' & [] & Hr & Hs)%wp_total. by exists s'. }
  unfold fb_clear. apply wp_gets.
  assert (0 ≤ vram_size s) as Hpos by (destruct Hok; nia).
  cut (∀ (fuel : nat) a s', 0 ≤ a ≤ vram_size s → a mod 4 = 0 → vram_size s - a < fuel → cleared_to s color a s' →
    wp (clear_loop fuel a (vram_size s) color) False (λ _ s'', cleared_to s color (vram_size s) s'') s').
  { intros H. apply H; [lia|done|lia|]. split; [by destruct s|]. intros i. by rewrite decide_False by lia. }
  induction fuel as [|fuel IH]; intros a s' Ha Hm Hf Hs'; [lia|]. cbn [clear_loop].
  destruct (Z.eqb_spec a (vram_size s)) as [->|Hne]; [by apply wp_ret|].
  apply wp_bind. eapply wp_mono; [apply clear_word; [done|lia|done|lia|done]|done|].
  intros [] s'' Hs''. apply IH; [lia|lia|lia|done].
Qed.

(** The bytes below [a] are copied. *)
Definition copied_to s (a : Z) s' : Prop :=
  with_vram (vram s) s' = s ∧ ∀ i, vram s' !! i = if decide (0 ≤ i < a) then vram_buff s !! i else vram s !! i.

Lemma copy_byte s a s' E : fb_ok s → 0 ≤ a < vram_size s → copied_to s a s' →
  wp (b ← on_buff (load8 a); on_vram (store8 a b)) E (λ _ s'', copied_to s (a + 1) s'') s'.
Proof.
  intros Hok Ha [Heq Hv]. assert (vram_buff s' = vram_buff s) as Hbuff by (by rewrite <- Heq).
  destruct (proj2 (ok_buff _ Hok a) Ha) as [b Hb].
  apply wp_bind. unfold on_buff. apply wp_zoom. eapply wp_load8; [by rewrite Hbuff|].
  replace (with_buff (vram_buff s') s') with s' by (by destruct s').
  unfold on_vram. apply wp_zoom, wp_store8; [rewrite Hv, decide_False by lia; by apply (ok_vram _ Hok)|].
  split; [done|]. intros i. cbn [vram with_vram]. destruct (decide (i = a)) as [->|Hne].
  - rewrite lookup_insert_eq, decide_True by lia. done.
  - rewrite lookup_insert_ne, Hv by done. repeat case_decide; try done; lia.
Qed.

(** The last element of a prefix of an interval. *)
Lemma seqZ_prefix m n pre x post : seqZ m n = pre ++ x :: post → x = m + length pre.
Proof.
  intros H. assert (seqZ m n !! length pre = Some x) as Hl by (rewrite H; by apply list_lookup_middle).
  apply lookup_seqZ in Hl as [-> _]. done.
Qed.

Lemma copy_word_run s i s' E : fb_ok s → 0 ≤ i → 8 * i + 8 ≤ vram_size s → copied_to s (8 * i) s' →
  wp (copy_word i) E (λ _ s'', copied_to s (8 * (i + 1)) s'') s'.
Proof.
  intros Hok Hi Hsz Hs'. unfold copy_word.
  eapply wp_mono; [apply (wp_for_each _ _ E (λ pre s'', copied_to s (8 * i + length pre) s''))|done|].
  - intros pre x post s'' Hx Hs''. assert (x ∈ seqZ (8 * i) 8) as Hin by (rewrite Hx; set_solver). apply elem_of_seqZ in Hin.
    rewrite (seqZ_prefix _ _ _ _ _ Hx) in *. rewrite length_app, Nat2Z.inj_add, Z.add_assoc. apply copy_byte; [done|lia|done].
  - by rewrite Z.add_0_r.
  - intros [] s''. rewrite length_seqZ. by replace (8 * i + Z.to_nat 8) with (8 * (i + 1)) by lia.
Qed.

(** After a redraw the video memory has the bytes of the back buffer. *)
Lemma fb_redraw_run s t0 t1 : fb_ok s → vram_size s mod 8 = 0 → needs_redraw s = true →
  ∃ s', fb_redraw t0 t1 s = Ok (s', ()) ∧ vram s' = vram_buff s ∧ vram_buff s' = vram_buff s ∧ needs_redraw s' = false.
Proof.
  intros Hok Hmod Hn. cut (wp (fb_redraw t0 t1) False (λ _ s', vram s' = vram_buff s ∧ vram_buff s' = vram_buff s ∧ needs_redraw s' = false) s).
  { intros (s' & [] & Hr & Hs)%wp_total. by exists s'. }
  assert (0 ≤ vram_size s) as Hpos by (destruct Hok; nia).
  unfold fb_redraw. apply wp_gets. rewrite Hn. apply wp_gets, wp_bind.
  eapply wp_mono; [apply (wp_for_each _ _ False (λ pre s'', copied_to s (8 * length pre) s''))|done|].
  - intros pre x post s'' Hx Hs''. assert (x ∈ seqZ 0 (vram_size s / 8)) as Hin by (rewrite Hx; set_solver). apply elem_of_seqZ in Hin.
    rewrite (seqZ_prefix _ _ _ _ _ Hx), Z.add_0_l in *. rewrite length_app, Nat2Z.inj_add.
    apply copy_word_run; [done|lia|lia|done].
  - split; [by destruct s|]. intros i. by rewrite decide_False by (cbn; lia).
  - intros [] s'' [Heq Hv]. rewrite length_seqZ in Hv. apply wp_modify. unfold wp, modify. cbn.
    split_and!; [|by rewrite <- Heq|done]. apply map_eq. intros i. rewrite Hv. case_decide as Hi; [done|].
    assert (¬ (0 ≤ i < vram_size s)) as Hout by lia.
    rewrite <- (ok_buff _ Hok) in Hout. pose proof (ok_vram _ Hok i) as H1. rewrite <- (ok_buff _ Hok) in H1.
    destruct (vram_buff s !! i) eqn:?, (vram s !! i) eqn:?; naive_solver.
Qed.
End drawing.

(** Lines.  With both endpoints on the screen [draw_line] ends, colours exactly the points of
    [line_points] and leaves every other pixel of the back buffer alone; there is one point per step along
    the longer side, the last endpoint excluded, each inside the box of the endpoints and within half a
    pixel of the ideal line (the cross product with the direction is at most half the longer side).  With an
    endpoint outside the screen it panics. *)
Theorem draw_line_is_digital_line (s : fb) (x0 y0 x1 y1 c : Z) : fb_ok s →
  (in_screen s x0 y0 → in_screen s x1 y1 →
    ∃ s', draw_line x0 y0 x1 y1 c s = Ok (s', ()) ∧
      shows s (filled (on_line x0 y0 x1 y1) c (pix s)) s') ∧
  (¬ (in_screen s x0 y0 ∧ in_screen s x1 y1) → draw_line x0 y0 x1 y1 c s = Panic) ∧
  Z.of_nat (length (line_points x0 y0 x1 y1)) = Z.max (Z.abs (x1 - x0)) (Z.abs (y1 - y0)) ∧
  ∀ x y, (x, y) ∈ line_points x0 y0 x1 y1 →
    Z.min x0 x1 ≤ x ≤ Z.max x0 x1 ∧ Z.min y0 y1 ≤ y ≤ Z.max y0 y1 ∧
    Z.abs (2 * ((x - x0) * (y1 - y0) - (y - y0) * (x1 - x0))) ≤ Z.max (Z.abs (x1 - x0)) (Z.abs (y1 - y0)).
Proof.
  intros Hok. split_and!.
  - intros H0 H1. destruct (draws_run s _ _ Hok (draw_line_draws s x0 y0 x1 y1 c Hok H0 H1)) as (s' & Hr & Hs).
    exists s'. split; [done|]. eapply shows_ext; [done|]. intros x y _. apply paint_filled. intros x' y' c'.
    rewrite list_elem_of_fmap. split; [intros ([a b] & [= -> -> ->] & Hp); done|intros [Hp ->]; by exists (x', y')].
  - intros Hout. unfold draw_line, in_screen, mbind, M_bind, gets, kassert in *.
    pose proof (ok_width _ Hok). pose proof (ok_height _ Hok). rewrite !to_int_small by lia.
    destruct ((0 <=? x0) && (x0 <? fb_width s)) eqn:?; [|done]. cbn.
    destruct ((0 <=? x1) && (x1 <? fb_width s)) eqn:?; [|done]. cbn.
    destruct ((0 <=? y0) && (y0 <? fb_height s)) eqn:?; [|done]. cbn.
    destruct ((0 <=? y1) && (y1 <? fb_height s)) eqn:?; [|done]. lia.
  - unfold line_points. rewrite length_fmap, length_seqZ. lia.
  - apply line_points_near.
Qed.

Definition demo_fb : fb :=
  let m := list_to_map ((λ a, (a, 0)) <$> seqZ 0 1600) in mk_fb 20 20 80 32 1600 m m false [].

Lemma demo_fb_ok : fb_ok demo_fb.
Proof.
  assert (∀ a, is_Some ((list_to_map ((λ a, (a, 0)) <$> seqZ 0 1600) : mem) !! a) ↔ 0 ≤ a < 1600) as H.
  { intros a. rewrite <- elem_of_dom, dom_list_to_map_L, elem_of_list_to_set, <- list_fmap_compose.
    rewrite list_elem_of_fmap. setoid_rewrite elem_of_seqZ. naive_solver lia. }
  split; try done; exact H.
Qed.

Lemma draw_line_is_digital_line_witness : ∃ s', draw_line 1 2 5 4 255 demo_fb = Ok (s', ()) ∧
  shows demo_fb (filled (on_line 1 2 5 4) 255 (pix demo_fb)) s' ∧
  line_points 1 2 5 4 = [(1, 2); (2, 2); (3, 3); (4, 3)].
Proof.
  destruct (proj1 (draw_line_is_digital_line demo_fb 1 2 5 4 255 demo_fb_ok)) as (s' & H1 & H2).
  - split; cbn; lia.
  - split; cbn; lia.
  - exists s'. split; [exact H1|]. split; [exact H2|]. vm_compute. reflexivity.
Defined.

(** Characters.  Where the cell of the character lies strictly left of the right edge and strictly above
    the bottom edge, [draw_char] draws the glyph into it, foreground and background, and changes no other
    pixel.  A cell that ends at the right or at the bottom edge of the screen, although inside it, makes it
    panic; so does every cell further out. *)
Theorem draw_char_renders_glyph (f : Font) `{!FontLaws f} (s : fb) (x y c fg bg : Z) : fb_ok s →
  0 ≤ x → 0 ≤ y → x + font_width f < 2 ^ 32 → y + font_height f < 2 ^ 32 →
  (x + font_width f < fb_width s ∧ y + font_height f < fb_height s →
    ∃ s', draw_char x y (Some f) c fg bg s = Ok (s', ()) ∧ shows s (with_char f x y c fg bg (pix s)) s') ∧
  (fb_width s ≤ x + font_width f ∨ fb_height s ≤ y + font_height f → draw_char x y (Some f) c fg bg s = Panic).
Proof.
  intros Hok Hx Hy Hxf Hyf. destruct (font_size (f := f)) as [Hfw Hfh]. split.
  - intros [Hw Hh]. apply draw_char_run; first [done|lia|split; lia].
  - intros Hout. unfold draw_char, mbind, M_bind, gets, kassert. rewrite !wrap_small by (unfold is_word; lia).
    destruct (x + font_width f <? fb_width s) eqn:?; [|done]. cbn.
    destruct (y + font_height f <? fb_height s) eqn:?; [|done]. lia.
Qed.

(** The first column fits, the last one does not. *)
Lemma draw_char_renders_glyph_witness :
  (∃ s', draw_char 0 0 (Some Font8x16) 65 255 0 demo_fb = Ok (s', ()) ∧ shows demo_fb (with_char Font8x16 0 0 65 255 0 (pix demo_fb)) s') ∧
  draw_char 12 0 (Some Font8x16) 65 255 0 demo_fb = Panic.
Proof.
  split.
  - refine (proj1 (draw_char_renders_glyph Font8x16 demo_fb 0 0 65 255 0 demo_fb_ok _ _ _ _) _); vm_compute; [congruence..|].
    split; reflexivity.
  - refine (proj2 (draw_char_renders_glyph Font8x16 demo_fb 12 0 65 255 0 demo_fb_ok _ _ _ _) _); try (vm_compute; congruence).
    left. vm_compute. congruence.
Defined.
