(* ===== verification/Console.v ===== *)
(** * Console and ANSI escape sequences

    [src/kernel/lib/console/console.cpp] and [ansi.cpp]: the text buffer, the cursor, scrolling, drawing into
    the framebuffer, and the control sequences.  The buffer is the list of its lines and [operator[]] outside
    it is a [Fault].  Cursor coordinates are 32-bit, sizes 64-bit, both wrap around.  Log output is left
    out. *)

From S2P Require Import Prelude Crt Algo Fmt Font Framebuffer.

#[local] Coercion Z.of_nat : nat >-> Z.

Record ConsoleChar := mk_ConsoleChar {
  cc_c : Z;
  cc_fg : Z;
  cc_bg : Z;
  cc_dirty : bool;
}.

Record console := mk_console {
  con_fb : fb;
  cursor_col : Z;
  cursor_row : Z;
  current_fg : Z;
  current_bg : Z;
  prev_fg : Z;
  prev_bg : Z;
  screen_cols : Z;
  screen_rows : Z;
  viewport_offset : Z;
  cursor_enabled : bool;
  buffer : list (list ConsoleChar);
}.

Definition WHITE : Z := 0x00FFFFFF.
Definition BLACK : Z := 0x00000000.

(** The statics before [init]. *)
Definition console0 (f : fb) : console := mk_console f 0 0 WHITE BLACK WHITE BLACK 0 0 0 true [].

Definition with_fb (f : fb) (s : console) : console :=
  mk_console f (cursor_col s) (cursor_row s) (current_fg s) (current_bg s) (prev_fg s) (prev_bg s) (screen_cols s)
    (screen_rows s) (viewport_offset s) (cursor_enabled s) (buffer s).
Definition with_cursor (c r : Z) (s : console) : console :=
  mk_console (con_fb s) c r (current_fg s) (current_bg s) (prev_fg s) (prev_bg s) (screen_cols s)
    (screen_rows s) (viewport_offset s) (cursor_enabled s) (buffer s).
Definition with_colors (f b pf pb : Z) (s : console) : console :=
  mk_console (con_fb s) (cursor_col s) (cursor_row s) f b pf pb (screen_cols s)
    (screen_rows s) (viewport_offset s) (cursor_enabled s) (buffer s).
Definition with_viewport (v : Z) (s : console) : console :=
  mk_console (con_fb s) (cursor_col s) (cursor_row s) (current_fg s) (current_bg s) (prev_fg s) (prev_bg s) (screen_cols s)
    (screen_rows s) v (cursor_enabled s) (buffer s).
Definition with_enabled (b : bool) (s : console) : console :=
  mk_console (con_fb s) (cursor_col s) (cursor_row s) (current_fg s) (current_bg s) (prev_fg s) (prev_bg s) (screen_cols s)
    (screen_rows s) (viewport_offset s) b (buffer s).
Definition with_buffer (b : list (list ConsoleChar)) (s : console) : console :=
  mk_console (con_fb s) (cursor_col s) (cursor_row s) (current_fg s) (current_bg s) (prev_fg s) (prev_bg s) (screen_cols s)
    (screen_rows s) (viewport_offset s) (cursor_enabled s) b.

Definition on_fb {A} : M fb A → M console A := zoom con_fb with_fb.

(** The font of the console. *)
Definition font : Font := Font8x16.

Definition get_cursor_pixel_x : M console Z := gets (λ s, wrap 32 (cursor_col s * font_width font)).
Definition get_cursor_pixel_y : M console Z :=
  gets (λ s, wrap 32 (wrap 64 (cursor_row s - viewport_offset s) * font_height font)).

(** ** The buffer *)

(** Lines are added until [row] is there, then blank cells until [col] is there. *)
Definition blank (s : console) : ConsoleChar := mk_ConsoleChar 32 (current_fg s) (current_bg s) true.
Definition grow {A} (n : Z) (a : A) (l : list A) : list A := l ++ replicate (Z.to_nat (n + 1) - length l) a.
Definition ensure_valid_cursor_buffer_pos (row col : Z) : M console unit :=
  modify (λ s, with_buffer (alter (grow col (blank s)) (Z.to_nat row) (grow row [] (buffer s))) s).

(** [buffer[row][col]], read and changed. *)
Definition cell (row col : Z) : M console ConsoleChar :=
  o ← gets (λ s, line ← buffer s !! Z.to_nat row; line !! Z.to_nat col);
  of_option o.
Definition set_cell (row col : Z) (f : ConsoleChar → ConsoleChar) : M console unit :=
  _ ← cell row col;
  modify (λ s, with_buffer (alter (alter f (Z.to_nat col)) (Z.to_nat row) (buffer s)) s).

Definition with_c (c : Z) (cc : ConsoleChar) : ConsoleChar := mk_ConsoleChar c (cc_fg cc) (cc_bg cc) (cc_dirty cc).
Definition with_dirty (b : bool) (cc : ConsoleChar) : ConsoleChar := mk_ConsoleChar (cc_c cc) (cc_fg cc) (cc_bg cc) b.

Definition cursor_within_viewport : M console bool :=
  gets (λ s, wrap 64 (cursor_row s - viewport_offset s) <? screen_rows s).

Definition console_init : M console unit :=
  _ ← modify (with_cursor 0 0);
  _ ← modify (with_viewport 0);
  w ← on_fb get_screen_width;
  h ← on_fb get_screen_height;
  _ ← modify (λ s, mk_console (con_fb s) (cursor_col s) (cursor_row s) (current_fg s) (current_bg s) (prev_fg s) (prev_bg s)
        (w / font_width font) (h / font_height font) (viewport_offset s) (cursor_enabled s) (buffer s));
  modify (with_enabled true).

Definition enable_cursor : M console unit := modify (with_enabled true).
Definition disable_cursor : M console unit := modify (with_enabled false).

Definition draw_cursor : M console unit :=
  px ← get_cursor_pixel_x;
  py ← get_cursor_pixel_y;
  on_fb (invert_rec px py (font_width font) (font_height font)).

(** Cells [from] to [to] of the cursor's line. *)
Definition erase_in_line (from to : Z) : M console unit :=
  for_each (seqZ from (to - from)) (λ col,
    row ← gets cursor_row;
    _ ← ensure_valid_cursor_buffer_pos row col;
    set_cell row col (λ cc, with_dirty true (with_c 32 cc))).
Definition clear_to_eol : M console unit :=
  c ← gets cursor_col; n ← gets screen_cols; erase_in_line c n.

(** ** Drawing *)

Definition draw_character_at (c row col fg bg : Z) : M fb unit :=
  let pixel_x := wrap 32 (col * font_width font) in
  let pixel_y := wrap 32 (row * font_height font) in
  if c =? 32 then fill_rect pixel_x pixel_y (font_width font) (font_height font) bg
  else draw_char pixel_x pixel_y (Some font) c (to_int fg) (to_int bg).

(** One cell of the visible part: [row] counts from the top of the buffer. *)
Definition redraw_cell (draw_clean : bool) (row col : Z) : M console unit :=
  v ← gets viewport_offset;
  rows ← gets screen_rows;
  if row - v <? rows then
    line ← gets (λ s, default [] (buffer s !! Z.to_nat row));
    match line !! Z.to_nat col with
    | Some cc =>
        _ ← (if draw_clean || cc_dirty cc then on_fb (draw_character_at (cc_c cc) (row - v) col (cc_fg cc) (cc_bg cc)) else mret ());
        set_cell row col (with_dirty false)
    | None => f ← gets current_fg; b ← gets current_bg; on_fb (draw_character_at 32 (row - v) col f b)
    end
  else mret ().

Definition draw_cursor_if_visible : M console unit :=
  en ← gets cursor_enabled;
  vis ← cursor_within_viewport;
  if (en && vis : bool) then draw_cursor else mret ().

Definition redraw (draw_clean : bool) : M console unit :=
  _ ← (if draw_clean then b ← gets current_bg; on_fb (fb_clear b) else mret ());
  _ ← draw_cursor_if_visible;
  v ← gets viewport_offset;
  n ← gets (λ s, Z.of_nat (length (buffer s)));
  cols ← gets screen_cols;
  _ ← for_each (seqZ v (n - v)) (λ row, for_each (seqZ 0 cols) (redraw_cell draw_clean row));
  draw_cursor_if_visible.

(** ** The cursor *)

Definition scroll : M console unit :=
  _ ← modify (λ s, with_viewport (wrap 64 (viewport_offset s + 1)) s); redraw true.

(** [newline] sets the cursor, and setting the cursor past the last column begins a new line; on a screen
    without columns this does not end. *)
Fixpoint set_cursor_rec (fuel : nat) (col row : Z) : M console unit :=
  s ← get;
  if (cursor_col s =? col) && (cursor_row s =? row) then mret () else
  _ ← ensure_valid_cursor_buffer_pos row col;
  _ ← draw_cursor;
  _ ← modify (with_cursor col row);
  cols ← gets screen_cols;
  _ ← (if cols <=? col then
         match fuel with
         | O => hang
         | S fuel' =>
             _ ← set_cell row col (with_dirty true);
             _ ← set_cursor_rec fuel' 0 (wrap 32 (row + 1));
             redraw false
         end
       else mret ());
  s' ← get;
  _ ← (if screen_rows s' <=? wrap 64 (cursor_row s' - viewport_offset s') then scroll else mret ());
  draw_cursor.

Definition set_cursor : Z → Z → M console unit := set_cursor_rec 1.

Definition newline : M console unit :=
  c ← gets cursor_col;
  r ← gets cursor_row;
  _ ← set_cell r c (with_dirty true);
  _ ← set_cursor 0 (wrap 32 (r + 1));
  redraw false.

Definition set_cursor_x (x : Z) : M console unit := r ← gets cursor_row; set_cursor x r.
Definition set_cursor_y (y : Z) : M console unit := c ← gets cursor_col; set_cursor c y.

Definition move_cursor (dx dy : Z) : M console unit :=
  c ← gets cursor_col;
  r ← gets cursor_row;
  set_cursor (wrap 32 (c + dx)) (wrap 32 (r + dy)).

Definition scroll_up : M console unit :=
  v ← gets viewport_offset;
  if 0 <? v then _ ← modify (with_viewport (v - 1)); redraw true else mret ().
Definition scroll_down : M console unit :=
  v ← gets viewport_offset;
  r ← gets cursor_row;
  if v <? r then _ ← modify (with_viewport (v + 1)); redraw true else mret ().
Definition scroll_into_view : M console unit :=
  b ← cursor_within_viewport;
  if (b : bool) then mret () else modify (λ s, with_viewport (cursor_row s) s).

Definition backspace : M console unit :=
  c ← gets cursor_col;
  if c =? 0 then mret () else move_cursor (-1) 0.

(** ** Output *)

Definition put_char (c : Z) : M console unit :=
  if c =? 10 then newline else
  row ← gets cursor_row;
  col ← gets cursor_col;
  _ ← ensure_valid_cursor_buffer_pos row col;
  _ ← set_cell row col (λ cc, with_dirty true (with_c c cc));
  move_cursor 1 0.

(** [put(kstring_view)] does not look for escape sequences. *)
Definition put_view (l : list Z) : M console unit := for_each l put_char.

Definition set_color (fg bg : Z) : M console unit := modify (λ s, with_colors fg bg (current_fg s) (current_bg s) s).
Definition reset_color : M console unit :=
  modify (λ s, with_colors (prev_fg s) (prev_bg s) (prev_fg s) (prev_bg s) s).

Definition console_clear : M console unit :=
  _ ← on_fb clear_black;
  r ← gets cursor_row;
  _ ← set_cursor 0 (wrap 32 (r + 1));
  _ ← modify (λ s, with_viewport (cursor_row s) s);
  redraw false.

(** ** ANSI control sequences *)

Definition ANSI_ESCAPE : Z := 27.

(** The final bytes: [A] to [H], [J], [K], [S], [T], [m]. *)
Definition is_cs_code (c : Z) : bool := existsb (Z.eqb c) [65; 66; 67; 68; 69; 70; 71; 72; 74; 75; 83; 84; 109].

(** "1" or "0" *)
Definition get_default_arg (c : Z) : list Z :=
  if existsb (Z.eqb c) [65; 66; 67; 68; 69; 70; 71; 72; 83; 84] then [49]
  else if existsb (Z.eqb c) [74; 75; 109] then [48] else [].

(** [fmt::parse_uint(const kstring&)] of the first argument. *)
Definition first_arg (args : list (list Z)) : M console Z :=
  arg ← of_option (head args);
  of_option (parse_uint (arg ++ [0]) (length arg) DEC).

Definition cursor_forward (args : list (list Z)) : M console unit :=
  val ← first_arg args; move_cursor (to_int val) 0.
Definition cursor_back (args : list (list Z)) : M console unit :=
  val ← first_arg args; move_cursor (to_int (- val)) 0.

Definition ansi_erase_in_line (args : list (list Z)) : M console unit :=
  val ← first_arg args;
  c ← gets cursor_col;
  n ← gets screen_cols;
  if val =? 0 then erase_in_line c n
  else if val =? 1 then erase_in_line 0 c
  else if val =? 2 then erase_in_line 0 n
  else mret ().

Definition cursor_next_line (args : list (list Z)) : M console unit :=
  val ← first_arg args; for_each (seqZ 0 val) (λ _, newline).

(** The distance to the first final byte. *)
Fixpoint find_code (l : list Z) : option nat :=
  match l with
  | [] => None
  | c :: l' => if is_cs_code c then Some O else S <$> find_code l'
  end.

Definition csi_args (code : Z) (text : list Z) : list (list Z) :=
  match tokenize_spec 59 text with
  | [] => [get_default_arg code]
  | args => (λ arg, if decide (arg = []) then get_default_arg code else arg) <$> args
  end.

(** The number of bytes taken; [l] starts with the escape character. *)
Definition parse_csi (l : list Z) : M console nat :=
  match find_code l with
  | None => mret O
  | Some i =>
      let code := nth i l 0 in
      let args := csi_args code (take (i - 2) (drop 2 l)) in
      _ ← (if code =? 67 then cursor_forward args
           else if code =? 68 then cursor_back args
           else if code =? 75 then ansi_erase_in_line args
           else if code =? 69 then cursor_next_line args
           else mret ());
      mret (S i)
  end.

(** After the last character the string has its terminator. *)
Definition is_csi (l : list Z) : bool := (nth 0 l 0 =? ANSI_ESCAPE) && (nth 1 l 0 =? 91).
Definition parse_ansi_escape (l : list Z) : M console nat :=
  if is_csi l then parse_csi l else mret 1%nat.

(** [put(const kstring&)]; a sequence without a final byte is never passed. *)
Fixpoint put_loop (fuel : nat) (l : list Z) : M console unit :=
  match l with
  | [] => mret ()
  | c :: l' =>
      match fuel with
      | O => hang
      | S fuel' =>
          if c =? ANSI_ESCAPE then n ← parse_ansi_escape l; put_loop fuel' (drop n l)
          else _ ← put_char c; put_loop fuel' l'
      end
  end.
Definition put_string (l : list Z) : M console unit := put_loop (length l) l.
