(* ===== verification/ConsoleProofs.v ===== *)
(** * Safety of the console

    On a screen with a margin at the right and at the bottom, writing characters never leaves the text
    buffer or the back buffer and never trips the assertions of the framebuffer; the text buffer holds what
    was written and the cursor stays on the screen. *)

From S2P Require Import Prelude Crt Algo Fmt Font Framebuffer Console.

#[local] Coercion Z.of_nat : nat >-> Z.

Section safe_drawing.
Implicit Types (f : fb) (s : console).

(** [f'] differs from [f] in the back buffer only, and is still well-formed. *)
Definition safe f f' : Prop := shows f (pix f') f'.

Lemma safe_refl f : fb_ok f → safe f f.
Proof. apply shows_self. Qed.
Lemma safe_trans f1 f2 f3 : safe f1 f2 → safe f2 f3 → safe f1 f3.
Proof. intros [_ H1 _] [H2 H3 _]. split; [done| |done]. rewrite <- H1, <- H3. by destruct f3. Qed.
Lemma safe_shows f img f' : shows f img f' → safe f f'.
Proof. intros [H1 H2 _]. by split. Qed.
Lemma safe_ok f f' : safe f f' → fb_ok f'.
Proof. by intros []. Qed.

(** Every access of [m] is inside the back buffer. *)
Definition fb_safe f (m : M fb unit) : Prop := ∀ f1 E, safe f f1 → wp m E (λ _ f2, safe f f2) f1.

Lemma fb_safe_run f m : fb_ok f → (∃ img f', m f = Ok (f', ()) ∧ shows f img f') → wp m False (λ _ f', safe f f') f.
Proof. intros Hok (img & f' & Hr & Hs). unfold wp. rewrite Hr. by eapply safe_shows. Qed.

(** A pixel whose bytes are in the buffer, on the screen or beyond its right edge. *)
Definition near f x y : Prop := 0 ≤ x ∧ 0 ≤ y ∧ x * (fb_bpp f / 8) < 2 ^ 32 ∧ offset_of f x y + 3 ≤ vram_size f.

Lemma near_offset f x y : fb_ok f → near f x y → get_pixel_offset x y f = Ok (f, offset_of f x y).
Proof.
  intros Hok (Hx & Hy & Hb & Ho). unfold get_pixel_offset, gets. do 3 f_equal. destruct Hok as [Hd Hw Hh Hp Hl Hs _ _].
  unfold offset_of in *. assert (0 ≤ x * (fb_bpp f / 8)) by nia. assert (0 ≤ y * fb_pitch f) by nia.
  rewrite (wrap_small 32) by (unfold is_word; lia). rewrite wrap_small; [done|]. unfold is_word. nia.
Qed.

Lemma near_draw f f1 x y r g b E : near f x y → safe f f1 → wp (draw_pixel_rgb x y r g b) E (λ _ f2, safe f f2) f1.
Proof.
  intros Hn Hs. pose proof (safe_ok _ _ Hs) as Hok. destruct (shows_geometry _ _ _ Hs) as (_ & _ & Hp & Hb & Hz).
  assert (near f1 x y) as Hn1 by (unfold near, offset_of in *; by rewrite Hp, Hb, Hz).
  assert (0 ≤ offset_of f1 x y) as Ho by (destruct Hn1 as (? & ? & _), Hok; unfold offset_of; nia).
  assert (vram_size f1 < 2 ^ 64) as Hsz by (destruct Hok as [Hd Hw Hh Hp1 Hl Hz1 _ _]; nia).
  destruct Hn1 as (H1 & H2 & H3 & H4).
  assert (∀ k, 0 ≤ k < 3 → is_Some (vram_buff f1 !! (offset_of f1 x y + k))) as Hbk by (intros; apply (ok_buff _ Hok); lia).
  unfold draw_pixel_rgb. eapply wp_bind_ok; [by apply near_offset|].
  rewrite !wrap_small by (unfold is_word, RGB_OFFB, RGB_OFFG, RGB_OFFR; lia).
  pose proof (Hbk RGB_OFFB ltac:(done)). pose proof (Hbk RGB_OFFG ltac:(done)). pose proof (Hbk RGB_OFFR ltac:(done)).
  do 3 (apply wp_bind, wp_store_buff; [cbn [vram_buff with_buff]; rewrite ?lookup_insert_is_Some'; by auto|]).
  unfold wp, modify. eapply safe_trans; [done|]. split; [|by destruct f1|done].
  apply fb_ok_redraw, (pix_store f1 (offset_of f1 x y) b g r); [done|reflexivity|done|done].
Qed.

Lemma near_get f f1 x y E : near f x y → safe f f1 → wp (get_pixel x y) E (λ _ f2, f2 = f1) f1.
Proof.
  intros Hn Hs. pose proof (safe_ok _ _ Hs) as Hok. destruct (shows_geometry _ _ _ Hs) as (_ & _ & Hp & Hb & Hz).
  assert (near f1 x y) as Hn1 by (unfold near, offset_of in *; by rewrite Hp, Hb, Hz).
  assert (0 ≤ offset_of f1 x y) as Ho by (destruct Hn1 as (? & ? & _), Hok; unfold offset_of; nia).
  assert (vram_size f1 < 2 ^ 64) as Hsz by (destruct Hok as [Hd Hw Hh Hp1 Hl Hz1 _ _]; nia).
  assert (∀ k, 0 ≤ k < 3 → wp (on_buff (load8 (wrap 64 (offset_of f1 x y + k)))) E (λ _ f2, f2 = f1) f1) as Hload.
  { intros k Hk. destruct Hn1 as (H1 & H2 & H3 & H4). rewrite wrap_small by (unfold is_word; lia).
    destruct (proj2 (ok_buff _ Hok (offset_of f1 x y + k)) ltac:(lia)) as [b Hbk].
    unfold on_buff. apply wp_zoom. eapply wp_load8; [done|]. by destruct f1. }
  unfold get_pixel. eapply wp_bind_ok; [by apply near_offset|].
  do 3 (apply wp_bind; eapply wp_mono; [by apply Hload|done|]; cbn beta; intros ? ? ->). by apply wp_ret.
Qed.

Lemma fb_safe_for_each {A} f (xs : list A) (body : A → M fb unit) :
  (∀ a, a ∈ xs → fb_safe f (body a)) → fb_safe f (for_each xs body).
Proof.
  intros H f1 E Hs. apply (wp_for_each xs body E (λ _ f2, safe f f2)); [|done].
  intros pre a post f2 Hxs Hf2. apply H; [rewrite Hxs; apply elem_of_app; right; left|done].
Qed.

Lemma invert_safe f x y w h : fb_ok f → 0 ≤ x → 0 ≤ y → 0 ≤ w → 0 ≤ h → x + w < 2 ^ 32 → y + h < 2 ^ 32 →
  (∀ px py, in_rect x y w h px py → near f px py) → fb_safe f (invert_rec x y w h).
Proof.
  intros Hok Hx Hy Hw Hh Hxw Hyh Hn. unfold invert_rec. rewrite !span_eq by lia.
  apply fb_safe_for_each. intros px Hpx%elem_of_seqZ. apply fb_safe_for_each. intros py Hpy%elem_of_seqZ f1 E Hs.
  assert (near f px py) as Hnear by (apply Hn; split; lia).
  apply wp_bind. eapply wp_mono; [by eapply near_get|done|]. intros c f2 ->. unfold draw_pixel. by apply near_draw.
Qed.

Lemma fill_safe f x y w h c : 0 ≤ x → 0 ≤ y → 0 ≤ w → 0 ≤ h → x + w ≤ fb_width f → y + h ≤ fb_height f →
  fb_safe f (fill_rect x y w h c).
Proof.
  intros Hx Hy Hw Hh Hxw Hyh f1 E Hs. destruct (shows_geometry _ _ _ Hs) as (Ew & Eh & _).
  destruct (fill_rect_run f1 x y w h c (safe_ok _ _ Hs)) as (f2 & Hr & Hf2); [lia..|].
  unfold wp. rewrite Hr. eapply safe_trans; [done|]. by eapply safe_shows.
Qed.

Lemma char_safe f x y c fg bg : 0 ≤ x → 0 ≤ y → x + font_width font < fb_width f → y + font_height font < fb_height f →
  fb_safe f (draw_char x y (Some font) c fg bg).
Proof.
  intros Hx Hy Hxw Hyh f1 E Hs. destruct (shows_geometry _ _ _ Hs) as (Ew & Eh & _).
  destruct (draw_char_run Font8x16 f1 (safe_ok _ _ Hs) x y c fg bg) as (f2 & Hr & Hf2); rewrite ?Ew, ?Eh; try done.
  - split; apply Z.lt_le_incl; done.
  - unfold wp. change (Some font) with (Some Font8x16). rewrite Hr. eapply safe_trans; [done|]. by eapply safe_shows.
Qed.

Lemma clear_safe f color : vram_size f mod 4 = 0 → fb_safe f (fb_clear color).
Proof.
  intros Hm f1 E Hs. destruct (shows_geometry _ _ _ Hs) as (_ & _ & _ & _ & Ez).
  destruct (fb_clear_run f1 color (safe_ok _ _ Hs)) as (f2 & Hr & Heq & Hb); [by rewrite Ez|].
  unfold wp. rewrite Hr. eapply safe_trans; [done|]. pose proof (safe_ok _ _ Hs) as Hok.
  split; [|rewrite Heq; by destruct f1|done].
  replace f2 with (with_buff (vram_buff f2) f1) by (rewrite <- Heq; by destruct f2).
  destruct Hok. split; try done. intros a. cbn [vram_buff with_buff vram_size]. rewrite Hb. case_decide as Ha; [|by rewrite ok_buff].
  split; [intros _; done|by eauto].
Qed.
End safe_drawing.

Section frames.
Implicit Types (s : console).

(** The text fits on the screen. *)
Record frame_ok s : Prop := {
  fr_fb : fb_ok (con_fb s);
  fr_bpp : fb_bpp (con_fb s) / 8 = 4;
  fr_cols : 0 < screen_cols s ∧ screen_cols s * 8 ≤ fb_width (con_fb s) < 2 ^ 29;
  fr_rows : 0 < screen_rows s ∧ screen_rows s * 16 ≤ fb_height (con_fb s);
  fr_view : 0 ≤ viewport_offset s < 2 ^ 32;
  fr_cursor : 0 ≤ cursor_col s ≤ screen_cols s ∧ 0 ≤ cursor_row s < 2 ^ 32;
}.

(** There are pixels to the right of it and below it. *)
Definition margin s : Prop := screen_cols s * 8 < fb_width (con_fb s) ∧ screen_rows s * 16 < fb_height (con_fb s).

Definition visible s : Prop := viewport_offset s ≤ cursor_row s < viewport_offset s + screen_rows s.

(** The text without the marks of what has to be drawn. *)
Definition clean_line (line : list ConsoleChar) : list ConsoleChar := fmap (M := list) (with_dirty false) line.
Definition clean (b : list (list ConsoleChar)) : list (list ConsoleChar) := fmap (M := list) clean_line b.

(** Drawing changes the pixels and the marks only. *)
Definition repaint s s' : Prop :=
  ∃ f b, s' = with_fb f (with_buffer b s) ∧ safe (con_fb s) f ∧ clean b = clean (buffer s).

Lemma repaint_refl s : fb_ok (con_fb s) → repaint s s.
Proof. intros H. exists (con_fb s), (buffer s). split_and!; [by destruct s|by apply safe_refl|done]. Qed.
Lemma repaint_trans s1 s2 s3 : repaint s1 s2 → repaint s2 s3 → repaint s1 s3.
Proof.
  intros (f & b & -> & H1 & H2) (f' & b' & -> & H3 & H4). exists f', b'. split_and!; [done|by eapply safe_trans|].
  by rewrite H4.
Qed.
Lemma repaint_frame s s' : frame_ok s → repaint s s' → frame_ok s'.
Proof.
  intros [H1 H2 H3 H4 H5 H6] (f & b & -> & Hs & _). destruct (shows_geometry _ _ _ Hs) as (Ew & Eh & _ & Eb & _).
  split; cbn; rewrite ?Ew, ?Eh, ?Eb; try done. by apply (safe_ok _ _ Hs).
Qed.
Lemma repaint_margin s s' : margin s → repaint s s' → margin s'.
Proof.
  intros Hm (f & b & -> & Hs & _). destruct (shows_geometry _ _ _ Hs) as (Ew & Eh & _). unfold margin. cbn. by rewrite Ew, Eh.
Qed.
Lemma repaint_visible s s' : repaint s s' → visible s → visible s'.
Proof. by intros (f & b & -> & _). Qed.

(** [m] only draws. *)
Definition draws_only s (m : M console unit) : Prop := ∀ s1 E, repaint s s1 → wp m E (λ _ s2, repaint s s2) s1.

Lemma draws_only_fb s (m : M fb unit) : fb_safe (con_fb s) m → draws_only s (on_fb m).
Proof.
  intros Hm s1 E (f & b & -> & Hs & Hb). unfold on_fb. apply wp_zoom. eapply wp_mono; [by apply Hm|done|].
  intros [] f2 Hf2. exists f2, b. split_and!; [done..|]. done.
Qed.
Lemma draws_only_ret s : draws_only s (mret ()).
Proof. intros s1 E H. by apply wp_ret. Qed.
Lemma draws_only_bind s m m' : draws_only s m → draws_only s m' → draws_only s (_ ← m; m').
Proof. intros H H' s1 E Hs. apply wp_bind. eapply wp_mono; [by apply H|done|]. intros [] s2 Hs2. by apply H'. Qed.
Lemma draws_only_for_each {A} s (xs : list A) body : (∀ a, a ∈ xs → draws_only s (body a)) → draws_only s (for_each xs body).
Proof.
  induction xs as [|a xs IH]; intros H; cbn [for_each]; [apply draws_only_ret|].
  apply draws_only_bind; [apply H; left|apply IH; intros; apply H; by right].
Qed.
Lemma draws_only_gets {A} s (g : console → A) (k : A → M console unit) :
  (∀ s1, repaint s s1 → g s1 = g s) → draws_only s (k (g s)) → draws_only s (a ← gets g; k a).
Proof. intros Hg Hk s1 E Hs. apply wp_gets. rewrite (Hg _ Hs). by apply Hk. Qed.

Definition cell_at (b : list (list ConsoleChar)) (row col : Z) : option ConsoleChar :=
  line ← b !! Z.to_nat row; line !! Z.to_nat col.

Lemma cell_run s row col cc : cell_at (buffer s) row col = Some cc → cell row col s = Ok (s, cc).
Proof. intros H. unfold cell. rewrite (bind_ok (gets _) _ s s (Some cc)); [done|]. unfold gets. by rewrite <- H. Qed.

Lemma clean_cell b row col : cell_at (clean b) row col = with_dirty false <$> cell_at b row col.
Proof.
  unfold cell_at, clean. rewrite list_lookup_fmap. destruct (b !! Z.to_nat row) as [line|]; [|done].
  apply list_lookup_fmap.
Qed.

Lemma clean_alter b row col d : clean (alter (alter (with_dirty d) (Z.to_nat col)) (Z.to_nat row) b) = clean b.
Proof.
  unfold clean. apply list_eq. intros i. rewrite !list_lookup_fmap. destruct (decide (i = Z.to_nat row)) as [->|Hi];
    [|by rewrite list_lookup_alter_ne]. rewrite list_lookup_alter_eq. destruct (b !! Z.to_nat row) as [line|]; [|done].
  cbn. f_equal. unfold clean_line. apply list_eq. intros k. rewrite !list_lookup_fmap.
  destruct (decide (k = Z.to_nat col)) as [->|Hk]; [|by rewrite list_lookup_alter_ne].
  rewrite list_lookup_alter_eq. by destruct (line !! Z.to_nat col).
Qed.

Lemma draws_only_dirty s row col d : is_Some (cell_at (buffer s) row col) → draws_only s (set_cell row col (with_dirty d)).
Proof.
  intros Hc s1 E (f & b & -> & Hs & Hb).
  assert (is_Some (cell_at b row col)) as [cc Hcc].
  { rewrite <- (fmap_is_Some (with_dirty false)), <- clean_cell, Hb, clean_cell, fmap_is_Some. done. }
  unfold set_cell. eapply wp_bind_ok; [by apply cell_run|]. unfold wp, modify.
  exists f, (alter (alter (with_dirty d) (Z.to_nat col)) (Z.to_nat row) b). split_and!; [done..|]. by rewrite clean_alter.
Qed.

(** ** Drawing the cursor and the screen *)

Lemma cursor_near s px py : frame_ok s → visible s → cursor_col s < screen_cols s ∨ margin s →
  in_rect (cursor_col s * 8) ((cursor_row s - viewport_offset s) * 16) 8 16 px py → near (con_fb s) px py.
Proof.
  intros [Hok Hb [Hc1 Hc2] [Hr1 Hr2] Hvw [Hcc Hcr]] [Hv1 Hv2] Hin [Hpx Hpy].
  pose proof (ok_width _ Hok). pose proof (ok_height _ Hok). pose proof (ok_pitch _ Hok) as Hp. pose proof (ok_size _ Hok) as Hz.
  rewrite Hb in Hp. unfold near, offset_of. rewrite Hb, Hz, Hp. split_and!; [lia..|]. destruct Hin as [Hlt|[Hm1 Hm2]].
  - assert (px < fb_width (con_fb s)) by lia. assert (py < fb_height (con_fb s)) by lia. nia.
  - set (W := fb_width (con_fb s) * 4) in *. assert (py * W ≤ (fb_height (con_fb s) - 2) * W) by (apply Z.mul_le_mono_nonneg_r; lia).
    rewrite Z.mul_sub_distr_r in *. unfold W in *. lia.
Qed.

Lemma draw_cursor_safe s : frame_ok s → visible s → cursor_col s < screen_cols s ∨ margin s → draws_only s draw_cursor.
Proof.
  intros Hf Hv Hin s1 E Hs1. unfold draw_cursor, get_cursor_pixel_x, get_cursor_pixel_y. apply wp_gets, wp_gets.
  replace (cursor_col s1) with (cursor_col s) by (by destruct Hs1 as (? & ? & -> & _)).
  replace (cursor_row s1) with (cursor_row s) by (by destruct Hs1 as (? & ? & -> & _)).
  replace (viewport_offset s1) with (viewport_offset s) by (by destruct Hs1 as (? & ? & -> & _)).
  pose proof (cursor_near s) as Hnear. pose proof Hf as [Hok Hb [Hc1 Hc2] [Hr1 Hr2] Hvw [Hcc Hcr]]. pose proof Hv as [Hv1 Hv2].
  pose proof (ok_width _ Hok). pose proof (ok_height _ Hok).
  change (font_width font) with 8. change (font_height font) with 16.
  rewrite (wrap_small 64), !wrap_small by (unfold is_word; lia).
  apply draws_only_fb; [|done]. apply invert_safe; [done|lia..|]. intros px py Hp. by apply Hnear.
Qed.

Lemma visible_test s : frame_ok s → wrap 64 (cursor_row s - viewport_offset s) <? screen_rows s = true → visible s.
Proof.
  intros [Hok Hb [Hc1 Hc2] [Hr1 Hr2] Hvw [Hcc Hcr]] Hv. unfold visible.
  pose proof (ok_height _ Hok). unfold wrap in Hv. destruct (Z.leb_spec (viewport_offset s) (cursor_row s)).
  - rewrite Z.mod_small in Hv by lia. lia.
  - exfalso. rewrite <- (Z.mod_add _ 1), Z.mod_small in Hv by lia. lia.
Qed.

Lemma draw_cursor_if_visible_safe s : frame_ok s → cursor_col s < screen_cols s ∨ margin s → draws_only s draw_cursor_if_visible.
Proof.
  intros Hf Hin. unfold draw_cursor_if_visible. apply draws_only_gets; [by intros s1 (f & b & -> & _)|].
  unfold cursor_within_viewport. apply draws_only_gets; [by intros s1 (f & b & -> & _)|].
  destruct (cursor_enabled s); [|apply draws_only_ret]. cbn [andb].
  destruct (wrap 64 (cursor_row s - viewport_offset s) <? screen_rows s) eqn:Hv; [|apply draws_only_ret].
  apply draw_cursor_safe; [done|by apply visible_test|done].
Qed.

Lemma draw_character_safe s c row col fg bg : frame_ok s → margin s → 0 ≤ row < screen_rows s → 0 ≤ col < screen_cols s →
  fb_safe (con_fb s) (draw_character_at c row col fg bg).
Proof.
  intros [Hok Hb [Hc1 Hc2] [Hr1 Hr2] _ _] [Hm1 Hm2] Hrow Hcol. pose proof (ok_height _ Hok). unfold draw_character_at.
  change (font_width font) with 8. change (font_height font) with 16. rewrite !wrap_small by (unfold is_word; lia).
  destruct (c =? 32); [apply fill_safe; lia|]. apply char_safe; change (font_width font) with 8; change (font_height font) with 16; lia.
Qed.

Lemma redraw_cell_safe s d row col : frame_ok s → margin s → viewport_offset s ≤ row → 0 ≤ col < screen_cols s →
  draws_only s (redraw_cell d row col).
Proof.
  intros Hf Hm Hrow Hcol. unfold redraw_cell. do 2 (apply draws_only_gets; [by intros s1 (f & b & -> & _)|]).
  destruct (Z.ltb_spec (row - viewport_offset s) (screen_rows s)) as [Hvis|]; [|apply draws_only_ret].
  assert (∀ c fg bg, draws_only s (on_fb (draw_character_at c (row - viewport_offset s) col fg bg))) as Hdraw
    by (intros; apply draws_only_fb, draw_character_safe; [done|done|lia..]).
  intros s1 E Hs1. apply wp_gets. destruct (default [] (buffer s1 !! Z.to_nat row) !! Z.to_nat col) as [cc|] eqn:Hcc.
  - apply draws_only_bind; [|apply draws_only_dirty|done].
    + destruct (d || cc_dirty cc); [apply Hdraw|apply draws_only_ret].
    + destruct Hs1 as (f & b & -> & _ & Hb). rewrite <- (fmap_is_Some (with_dirty false)), <- clean_cell, <- Hb, clean_cell, fmap_is_Some.
      cbn in Hcc. unfold cell_at. destruct (b !! Z.to_nat row); [by eauto|done].
  - apply wp_gets, wp_gets. by apply Hdraw.
Qed.

Lemma redraw_safe s d : frame_ok s → margin s → draws_only s (redraw d).
Proof.
  intros Hf Hm. unfold redraw. apply draws_only_bind.
  - destruct d; [|apply draws_only_ret]. apply draws_only_gets; [by intros s1 (f & b & -> & _)|]. apply draws_only_fb, clear_safe.
    destruct Hf as [Hok Hb _ _ _ _]. rewrite (ok_size _ Hok), (ok_pitch _ Hok), Hb, Z.mul_assoc. apply Z.mod_mul. lia.
  - apply draws_only_bind; [by apply draw_cursor_if_visible_safe; [|right]|].
    apply draws_only_gets; [by intros s1 (f & b & -> & _)|]. apply draws_only_gets.
    { intros s1 (f & b & -> & _ & Hb). cbn. f_equal. apply (f_equal length) in Hb. unfold clean in Hb. by rewrite !length_fmap in Hb. }
    apply draws_only_gets; [by intros s1 (f & b & -> & _)|].
    apply draws_only_bind; [|by apply draw_cursor_if_visible_safe; [|right]].
    apply draws_only_for_each. intros row Hrow%elem_of_seqZ. apply draws_only_for_each. intros col Hcol%elem_of_seqZ.
    apply redraw_cell_safe; [done|done|lia..].
Qed.

(** ** Growing the buffer *)

(** [b'] has the cells of [b], whatever their marks, and otherwise blanks. *)
Definition padded (b b' : list (list ConsoleChar)) : Prop :=
  (∀ r c cc, cell_at (clean b) r c = Some cc → cell_at (clean b') r c = Some cc) ∧
  (∀ r c cc, cell_at (clean b') r c = Some cc → cell_at (clean b) r c = Some cc ∨ cc_c cc = 32).

Lemma padded_refl b : padded b b.
Proof. split; auto. Qed.
Lemma padded_trans b1 b2 b3 : padded b1 b2 → padded b2 b3 → padded b1 b3.
Proof. intros [H1 H2] [H3 H4]. split; [by auto|]. intros r c cc H. apply H4 in H as [H|H]; [by apply H2|by right]. Qed.
Lemma padded_clean b b' : clean b' = clean b → padded b b'.
Proof. intros H. split; rewrite H; auto. Qed.
Lemma padded_repaint s s' : repaint s s' → padded (buffer s) (buffer s').
Proof. intros (f & b & -> & _ & H). by apply padded_clean. Qed.

Lemma lookup_grow {A} n (a : A) l i : grow n a l !! i = if decide (i < length l)%nat then l !! i else
  if decide (i < Z.to_nat (n + 1))%nat then Some a else None.
Proof.
  unfold grow. case_decide as Hi; [by apply lookup_app_l|]. rewrite lookup_app_r by lia.
  case_decide; [apply lookup_replicate_2; lia|apply lookup_replicate_None; lia].
Qed.

Definition grown s row col : list (list ConsoleChar) := alter (grow col (blank s)) (Z.to_nat row) (grow row [] (buffer s)).

Lemma grown_cell s row col r c : 0 ≤ row → 0 ≤ col → cell_at (grown s row col) r c =
  match cell_at (buffer s) r c with
  | Some cc => Some cc
  | None => if decide (Z.to_nat r = Z.to_nat row ∧ (Z.to_nat c ≤ Z.to_nat col)%nat) then Some (blank s) else None
  end.
Proof.
  intros Hrow Hcol. unfold cell_at, grown.
  assert (grow row [] (buffer s) !! Z.to_nat row = Some (default [] (buffer s !! Z.to_nat row))) as Hline.
  { rewrite lookup_grow. case_decide as Hl; [|by rewrite decide_True, lookup_ge_None_2 by lia].
    destruct (lookup_lt_is_Some_2 _ _ Hl) as [line Hx]. by rewrite Hx. }
  destruct (decide (Z.to_nat r = Z.to_nat row)) as [He|Hne].
  - rewrite He, list_lookup_alter_eq, Hline. cbn. rewrite lookup_grow.
    destruct (buffer s !! Z.to_nat row) as [line|]; cbn.
    + case_decide as Hc; [destruct (lookup_lt_is_Some_2 _ _ Hc) as [cc Hcc]; by rewrite Hcc|].
      rewrite lookup_ge_None_2 by lia. repeat case_decide; try done; lia.
    + repeat case_decide; try done; lia.
  - rewrite list_lookup_alter_ne by done. rewrite lookup_grow. case_decide as Hl.
    + destruct (buffer s !! Z.to_nat r) as [line|]; cbn; [destruct (line !! Z.to_nat c); [done|]|]; by rewrite decide_False by tauto.
    + rewrite (lookup_ge_None_2 (buffer s)) by lia. cbn. rewrite (decide_False (P := _ ∧ _)) by tauto. by case_decide.
Qed.

Lemma grown_padded s row col : 0 ≤ row → 0 ≤ col → padded (buffer s) (grown s row col).
Proof.
  intros Hr Hc. split; intros r c cc; rewrite !clean_cell, grown_cell by done.
  - by destruct (cell_at (buffer s) r c).
  - destruct (cell_at (buffer s) r c); [by left|]. case_decide; [|done]. intros [= <-]. by right.
Qed.

Lemma grown_there s row col : 0 ≤ row → 0 ≤ col → is_Some (cell_at (grown s row col) row col).
Proof. intros Hr Hc. rewrite grown_cell by done. destruct (cell_at _ _ _); [done|]. by rewrite decide_True. Qed.

(** ** Moving the cursor *)

Record con_wf s : Prop := {
  cw_frame : frame_ok s;
  cw_visible : visible s;
  cw_col : cursor_col s < screen_cols s;
  cw_cell : is_Some (cell_at (buffer s) (cursor_row s) (cursor_col s));
}.

(** Nothing is lost of the text, and the settings stay. *)
Record evolves s s' : Prop := {
  ev_buffer : padded (buffer s) (buffer s');
  ev_safe : safe (con_fb s) (con_fb s');
  ev_size : screen_cols s' = screen_cols s ∧ screen_rows s' = screen_rows s;
  ev_colors : current_fg s' = current_fg s ∧ current_bg s' = current_bg s;
}.

Lemma evolves_trans s1 s2 s3 : evolves s1 s2 → evolves s2 s3 → evolves s1 s3.
Proof.
  intros [H1 H2 [H3 H4] [H5 H6]] [G1 G2 [G3 G4] [G5 G6]].
  split; [by eapply padded_trans|by eapply safe_trans|by rewrite G3, G4|by rewrite G5, G6].
Qed.
Lemma evolves_margin s s' : margin s → evolves s s' → margin s'.
Proof.
  intros Hm [_ Hs [Ec Er] _]. destruct (shows_geometry _ _ _ Hs) as (Ew & Eh & _). unfold margin. by rewrite Ec, Er, Ew, Eh.
Qed.
Lemma evolves_repaint s s' : repaint s s' → evolves s s'.
Proof. intros H. pose proof (padded_repaint _ _ H). destruct H as (f & b & -> & Hs & _). by split. Qed.

Lemma wp_draws_only s m E (Q : unit → console → Prop) : fb_ok (con_fb s) → draws_only s m →
  (∀ s', repaint s s' → Q () s') → wp m E Q s.
Proof. intros Hok Hm HQ. eapply wp_mono; [by apply Hm, repaint_refl|done|]. intros [] s' Hs'. by apply HQ. Qed.

Lemma repaint_cell s s' r c : repaint s s' → is_Some (cell_at (buffer s) r c) → is_Some (cell_at (buffer s') r c).
Proof.
  intros (f & b & -> & _ & Hb). cbn. by rewrite <- (fmap_is_Some (with_dirty false)), <- clean_cell, <- Hb, clean_cell, fmap_is_Some.
Qed.

Lemma con_wf_repaint s s' : con_wf s → repaint s s' → con_wf s'.
Proof.
  intros [H1 H2 H3 H4] Hr. split; [by eapply repaint_frame|by eapply repaint_visible|by destruct Hr as (? & ? & -> & _)|].
  replace (cursor_row s') with (cursor_row s) by (by destruct Hr as (? & ? & -> & _)).
  replace (cursor_col s') with (cursor_col s) by (by destruct Hr as (? & ? & -> & _)). by eapply repaint_cell.
Qed.

(** The part of [set_cursor] after the cursor is set: scrolling into view, and the cursor drawn. *)
Definition settle : M console unit :=
  s' ← get;
  _ ← (if screen_rows s' <=? wrap 64 (cursor_row s' - viewport_offset s') then scroll else mret ());
  draw_cursor.

Lemma settle_run s E (Q : unit → console → Prop) : frame_ok s → cursor_col s < screen_cols s →
  viewport_offset s ≤ cursor_row s ≤ viewport_offset s + screen_rows s → cursor_row s + 1 < 2 ^ 32 →
  cursor_row s < viewport_offset s + screen_rows s ∨ margin s →
  is_Some (cell_at (buffer s) (cursor_row s) (cursor_col s)) →
  (∀ s', con_wf s' → evolves s s' → cursor_col s' = cursor_col s → cursor_row s' = cursor_row s → Q () s') → wp settle E Q s.
Proof.
  intros Hf Hcol Hrow Hmax Hin Hcell HQ. unfold settle. apply wp_get.
  pose proof (fr_rows _ Hf) as [Hr1 Hr2]. pose proof (ok_height _ (fr_fb _ Hf)). pose proof (fr_view _ Hf). pose proof (fr_cursor _ Hf).
  rewrite wrap_small by (unfold is_word; lia). destruct (Z.leb_spec (screen_rows s) (cursor_row s - viewport_offset s)) as [Hle|Hlt].
  - destruct Hin as [Hin|Hm]; [lia|]. apply wp_bind. unfold scroll. apply wp_modify. rewrite wrap_small by (unfold is_word; lia).
    set (s1 := with_viewport (viewport_offset s + 1) s).
    assert (con_wf s1) as Hw1.
    { split; [destruct Hf; split; cbn; try done; lia|unfold visible; cbn; lia|done|done]. }
    apply (wp_draws_only s1); [apply Hw1|apply redraw_safe; [apply Hw1|exact Hm]|]. intros s2 H2.
    apply wp_draws_only; [apply (con_wf_repaint _ _ Hw1 H2)|apply draw_cursor_safe; [apply (con_wf_repaint _ _ Hw1 H2)..|left; apply (con_wf_repaint _ _ Hw1 H2)]|].
    intros s3 H3. pose proof (repaint_trans _ _ _ H2 H3) as H13. apply HQ.
    + by eapply con_wf_repaint.
    + destruct (evolves_repaint _ _ H13). by split.
    + by destruct H13 as (? & ? & -> & _).
    + by destruct H13 as (? & ? & -> & _).
  - assert (con_wf s) as Hw by (split; [done|unfold visible; lia|done..]). apply wp_bind, wp_ret.
    apply wp_draws_only; [apply Hw|apply draw_cursor_safe; [apply Hw..|left; apply Hw]|]. intros s3 H3. apply HQ.
    + by eapply con_wf_repaint.
    + by apply evolves_repaint.
    + by destruct H3 as (? & ? & -> & _).
    + by destruct H3 as (? & ? & -> & _).
Qed.

Lemma set_cursor_step fuel c r : set_cursor_rec fuel c r =
  (s ← get;
   if (cursor_col s =? c) && (cursor_row s =? r) then mret () else
   _ ← ensure_valid_cursor_buffer_pos r c;
   _ ← draw_cursor;
   _ ← modify (with_cursor c r);
   cols ← gets screen_cols;
   _ ← (if cols <=? c then
          match fuel with
          | O => hang
          | S fuel' => _ ← set_cell r c (with_dirty true); _ ← set_cursor_rec fuel' 0 (wrap 32 (r + 1)); redraw false
          end
        else mret ());
   settle).
Proof. by destruct fuel. Qed.

(** The cursor put at a place that the buffer then has. *)
Lemma place_run s c r E (k : M console unit) (Q : unit → console → Prop) : frame_ok s → visible s → cursor_col s < screen_cols s ∨ margin s → 0 ≤ c ≤ screen_cols s → 0 ≤ r < 2 ^ 32 →
  (∀ s', frame_ok s' → evolves s s' → cursor_col s' = c → cursor_row s' = r → viewport_offset s' = viewport_offset s →
     is_Some (cell_at (buffer s') r c) → wp k E Q s') →
  wp (_ ← ensure_valid_cursor_buffer_pos r c; _ ← draw_cursor; _ ← modify (with_cursor c r); k) E Q s.
Proof.
  intros Hf Hv Hin Hc Hr HQ. apply wp_modify. fold (grown s r c). set (s1 := with_buffer (grown s r c) s).
  assert (frame_ok s1) as Hf1 by (by destruct Hf). apply wp_bind. apply wp_draws_only; [apply Hf1|by apply draw_cursor_safe|].
  intros s2 H2. apply wp_modify. destruct (evolves_repaint _ _ H2) as [P1 P2 P3 P4]. apply HQ; try done.
  - pose proof (repaint_frame _ _ Hf1 H2) as [? ? ? ? ? ?]. split; cbn; try done. destruct P3 as [-> _]. unfold s1. cbn. lia.
  - split; cbn; try done. eapply padded_trans; [apply (grown_padded s r c); lia|done].
  - by destruct H2 as (? & ? & -> & _).
  - cbn. eapply repaint_cell; [done|]. cbn. apply grown_there; lia.
Qed.

Lemma set_cursor_plain fuel s c r E (Q : unit → console → Prop) : frame_ok s → visible s → 0 ≤ c < screen_cols s →
  (cursor_col s < screen_cols s ∧ r < viewport_offset s + screen_rows s) ∨ margin s →
  viewport_offset s ≤ r ≤ viewport_offset s + screen_rows s → r + 1 < 2 ^ 32 → (cursor_col s = c → cursor_row s ≠ r) →
  (∀ s', con_wf s' → evolves s s' → cursor_col s' = c → cursor_row s' = r → Q () s') → wp (set_cursor_rec fuel c r) E Q s.
Proof.
  intros Hf Hv Hc Hin Hr Hmax Hne HQ. rewrite set_cursor_step. apply wp_get.
  replace ((cursor_col s =? c) && (cursor_row s =? r)) with false by (destruct (Z.eqb_spec (cursor_col s) c), (Z.eqb_spec (cursor_row s) r); tauto).
  pose proof (fr_view _ Hf). apply place_run; [done|done|tauto|lia|lia|]. intros s' Hf' Hev Ec Er Ev Hcell. apply wp_gets.
  destruct (ev_size _ _ Hev) as [Es1 Es2]. rewrite Es1, (proj2 (Z.leb_gt _ _)) by lia. apply wp_bind, wp_ret.
  apply settle_run; rewrite ?Ec, ?Er, ?Ev, ?Es1, ?Es2; try done; [lia..| |].
  { destruct Hin as [[_ ?]|Hm]; [by left|right]. by eapply evolves_margin. }
  intros s'' Hw Hev' Ec' Er'. apply HQ; [done|by eapply evolves_trans|congruence|congruence].
Qed.

(** The state after an operation that leaves the cursor at [c], [r]. *)
Definition goes s c r s' : Prop := con_wf s' ∧ evolves s s' ∧ cursor_col s' = c ∧ cursor_row s' = r.

Lemma goes_repaint s c r s1 s2 : goes s c r s1 → repaint s1 s2 → goes s c r s2.
Proof.
  intros (Hw & Hev & Ec & Er) H. split_and!; [by eapply con_wf_repaint|eapply evolves_trans; [done|by apply evolves_repaint]|..];
  by destruct H as (? & ? & -> & _).
Qed.

(** A new line begun from the row of the cursor, which may stand behind the last column. *)
Lemma new_row_run fuel s E (Q : unit → console → Prop) : frame_ok s → margin s → visible s → cursor_row s + 2 < 2 ^ 32 →
  (∀ s', goes s 0 (cursor_row s + 1) s' → Q () s') →
  wp (_ ← set_cursor_rec fuel 0 (wrap 32 (cursor_row s + 1)); redraw false) E Q s.
Proof.
  intros Hf Hm Hv Hmax HQ. pose proof (fr_cols _ Hf). pose proof (fr_cursor _ Hf). rewrite wrap_small by (unfold is_word; lia). apply wp_bind.
  unfold visible in Hv. apply set_cursor_plain; [done|done|lia|by right|lia|lia|lia|]. intros s1 Hw1 Hev1 Ec1 Er1.
  apply wp_draws_only; [apply Hw1|apply redraw_safe; [apply Hw1|by eapply evolves_margin]|]. intros s2 H2. apply HQ. eapply goes_repaint; [|done]. done.
Qed.

Lemma newline_run s E (Q : unit → console → Prop) : con_wf s → margin s → cursor_row s + 2 < 2 ^ 32 →
  (∀ s', goes s 0 (cursor_row s + 1) s' → Q () s') → wp newline E Q s.
Proof.
  intros Hw Hm Hmax HQ. unfold newline. apply wp_gets, wp_gets, wp_bind.
  apply wp_draws_only; [apply Hw|apply draws_only_dirty, Hw|]. intros s1 H1. pose proof (con_wf_repaint _ _ Hw H1) as Hw1.
  replace (cursor_row s) with (cursor_row s1) in * by (by destruct H1 as (? & ? & -> & _)).
  apply new_row_run; [apply Hw1|by eapply repaint_margin|apply Hw1|done|]. intros s2 (Hw2 & Hev2 & Ec2 & Er2). apply HQ. split_and!; try done.
  eapply evolves_trans; [by apply evolves_repaint|done].
Qed.

(** One column further, or the next row after the last column. *)
Definition next_col s : Z := if cursor_col s + 1 <? screen_cols s then cursor_col s + 1 else 0.
Definition next_row s : Z := if cursor_col s + 1 <? screen_cols s then cursor_row s else cursor_row s + 1.

Lemma advance_run s E (Q : unit → console → Prop) : con_wf s → cursor_col s + 1 < screen_cols s ∨ margin s →
  cursor_row s + 2 < 2 ^ 32 →
  (∀ s', goes s (next_col s) (next_row s) s' → Q () s') → wp (move_cursor 1 0) E Q s.
Proof.
  intros Hw Hin Hmax HQ. destruct Hw as [Hf Hv Hcol Hcell]. pose proof (fr_cols _ Hf). pose proof (fr_cursor _ Hf). pose proof (fr_rows _ Hf).
  pose proof (fr_view _ Hf). pose proof Hv as Hv'. unfold visible in Hv'.
  unfold move_cursor. apply wp_gets, wp_gets. rewrite !wrap_small by (unfold is_word; lia). rewrite Z.add_0_r.
  unfold next_col, next_row in HQ. destruct (Z.ltb_spec (cursor_col s + 1) (screen_cols s)) as [Hlt|Hge].
  - apply set_cursor_plain; [done|done|lia|left; lia|lia|lia|lia|]. intros s' ? ? ? ?. by apply HQ.
  - destruct Hin as [Hin|Hm]; [lia|].
    unfold set_cursor. rewrite set_cursor_step. apply wp_get. rewrite (proj2 (Z.eqb_neq (cursor_col s) _)) by lia. cbn [andb].
    apply place_run; [done|done|by left|lia|lia|]. intros s1 Hf1 Hev1 Ec1 Er1 Ev1 Hcell1. apply wp_gets.
    destruct (ev_size _ _ Hev1) as [Es1 Es2]. rewrite Es1, (proj2 (Z.leb_le _ _)) by lia.
    assert (visible s1) as Hv1 by (unfold visible; rewrite Er1, Ev1, Es2; lia).
    apply wp_bind, wp_bind. apply wp_draws_only; [apply Hf1|by apply draws_only_dirty|]. intros s2 Hs2.
    assert (cursor_row s = cursor_row s2) as Er2 by (by destruct Hs2 as (? & ? & -> & _)). rewrite Er2.
    pose proof (evolves_margin _ _ Hm Hev1) as Hm1.
    apply new_row_run; [by eapply repaint_frame|by eapply repaint_margin|by eapply repaint_visible|lia|]. intros s3 (Hw3 & Hev3 & Ec3 & Er3).
    pose proof (cw_visible _ Hw3) as Hv3. unfold visible in Hv3.
    apply settle_run; [apply Hw3|apply Hw3|lia|rewrite Er3; lia|left; lia|apply Hw3|]. intros s4 Hw4 Hev4 Ec4 Er4. apply HQ.
    split_and!; [done| |congruence|congruence].
    eapply evolves_trans; [done|]. eapply evolves_trans; [by apply evolves_repaint|]. by eapply evolves_trans.
Qed.

(** ** Writing text *)

(** The character at a position; where the buffer has no cell yet there is a blank. *)
Definition text_at s (r c : Z) : Z := default 32 (cc_c <$> cell_at (buffer s) r c).

Lemma text_clean b r c : cc_c <$> cell_at (clean b) r c = cc_c <$> cell_at b r c.
Proof. rewrite clean_cell. by destruct (cell_at b r c). Qed.

Lemma text_evolves s s' r c : evolves s s' → text_at s' r c = text_at s r c.
Proof.
  intros [[H1 H2] _ _ _]. unfold text_at. rewrite <- (text_clean (buffer s)), <- (text_clean (buffer s')).
  destruct (cell_at (clean (buffer s)) r c) as [cc|] eqn:Hc; [by rewrite (H1 _ _ _ Hc)|].
  destruct (cell_at (clean (buffer s')) r c) as [cc|] eqn:Hc'; [|done].
  destruct (H2 _ _ _ Hc') as [Hx|Hx]; [congruence|done].
Qed.

Definition written s c : console :=
  with_buffer (alter (alter (λ cc, with_dirty true (with_c c cc)) (Z.to_nat (cursor_col s))) (Z.to_nat (cursor_row s)) (buffer s)) s.

Lemma cell_alter f b r0 c0 r c : cell_at (alter (alter f (Z.to_nat c0)) (Z.to_nat r0) b) r c =
  if decide (Z.to_nat r = Z.to_nat r0 ∧ Z.to_nat c = Z.to_nat c0) then f <$> cell_at b r c else cell_at b r c.
Proof.
  unfold cell_at. destruct (decide (Z.to_nat r = Z.to_nat r0)) as [->|Hr].
  - rewrite list_lookup_alter_eq. destruct (b !! Z.to_nat r0) as [line|]; cbn; [|by case_decide].
    destruct (decide (Z.to_nat c = Z.to_nat c0)) as [->|Hc].
    + rewrite list_lookup_alter_eq. by rewrite decide_True.
    + rewrite list_lookup_alter_ne by done. by rewrite decide_False by tauto.
  - rewrite list_lookup_alter_ne by done. by rewrite decide_False by tauto.
Qed.

Lemma written_text s ch r c : is_Some (cell_at (buffer s) (cursor_row s) (cursor_col s)) → 0 ≤ r → 0 ≤ c → 0 ≤ cursor_row s → 0 ≤ cursor_col s →
  text_at (written s ch) r c = if decide (r = cursor_row s ∧ c = cursor_col s) then ch else text_at s r c.
Proof.
  intros [cc Hcc] Hr Hc Hr0 Hc0. unfold text_at, written. cbn [buffer with_buffer]. rewrite cell_alter.
  destruct (decide (r = cursor_row s ∧ c = cursor_col s)) as [[-> ->]|Hne].
  - rewrite decide_True by done. by rewrite Hcc.
  - by rewrite decide_False by (intros [?%Z2Nat.inj ?%Z2Nat.inj]; tauto).
Qed.

Lemma written_wf s ch : con_wf s → con_wf (written s ch).
Proof.
  intros [H1 H2 H3 H4]. split; [by destruct H1|done|done|]. unfold written. cbn. rewrite cell_alter, decide_True by done.
  by apply fmap_is_Some.
Qed.

(** The console when the cursor may be where nothing was written yet, as after [init]. *)
Definition con_ready s : Prop := frame_ok s ∧ visible s ∧ cursor_col s < screen_cols s.

Lemma con_wf_ready s : con_wf s → con_ready s.
Proof. by intros []. Qed.

Definition with_cell s : console := with_buffer (grown s (cursor_row s) (cursor_col s)) s.

Lemma with_cell_wf s : con_ready s → con_wf (with_cell s) ∧ evolves s (with_cell s).
Proof.
  intros (Hf & Hv & Hc). pose proof (fr_cursor _ Hf) as [H1 H2]. split.
  - split; [by destruct Hf|done|done|]. apply grown_there; cbn; lia.
  - split; [apply grown_padded; lia|apply safe_refl, Hf|done|done].
Qed.

Lemma put_char_run s ch E (Q : unit → console → Prop) : con_ready s → (ch = 10 → con_wf s) →
  (ch ≠ 10 ∧ cursor_col s + 1 < screen_cols s) ∨ margin s → cursor_row s + 2 < 2 ^ 32 →
  (∀ s', (if ch =? 10 then goes s 0 (cursor_row s + 1) s'
          else goes (written (with_cell s) ch) (next_col s) (next_row s) s') → Q () s') →
  wp (put_char ch) E Q s.
Proof.
  intros Hr Hnl Hin Hmax HQ. unfold put_char. destruct (Z.eqb_spec ch 10) as [Hch|Hch]; [apply newline_run; [by apply Hnl|tauto|done|done]|].
  destruct (with_cell_wf s Hr) as [Hw Hev]. apply wp_gets, wp_gets, wp_modify.
  change (with_buffer _ s) with (with_cell s). destruct (cw_cell _ Hw) as [cc Hcc].
  apply wp_bind. unfold set_cell. eapply wp_bind_ok; [by apply cell_run|]. unfold wp at 1, modify.
  apply (advance_run (written (with_cell s) ch)); [by apply written_wf|tauto|done|]. intros s' Hs'. by apply HQ.
Qed.

(** Typing on an endless page of [cols] columns. *)
Fixpoint typed (cols : Z) (l : list Z) (col row : Z) (page : Z → Z → Z) : Z * Z * (Z → Z → Z) :=
  match l with
  | [] => (col, row, page)
  | ch :: l' =>
      if ch =? 10 then typed cols l' 0 (row + 1) page else
      let page' r c := if decide (r = row ∧ c = col) then ch else page r c in
      if col + 1 <? cols then typed cols l' (col + 1) row page' else typed cols l' 0 (row + 1) page'
  end.

(** [s'] shows the page with the cursor where typing has left it. *)
Definition displays s' (t : Z * Z * (Z → Z → Z)) : Prop :=
  let '(col, row, page) := t in
  cursor_col s' = col ∧ cursor_row s' = row ∧ ∀ r c, 0 ≤ r → 0 ≤ c → text_at s' r c = page r c.

Lemma put_view_run l s page : con_ready s → margin s → (head l = Some 10 → con_wf s) → cursor_row s + length l + 2 < 2 ^ 32 →
  (∀ r c, 0 ≤ r → 0 ≤ c → text_at s r c = page r c) →
  wp (put_view l) False (λ _ s', con_ready s' ∧ displays s' (typed (screen_cols s) l (cursor_col s) (cursor_row s) page)) s.
Proof.
  revert s page. induction l as [|ch l IH]; intros s page Hr Hm Hnl Hmax Hpage; unfold put_view; cbn [for_each]; [by apply wp_ret|].
  apply wp_bind. cbn [length] in Hmax. apply put_char_run; [done|intros ->; by apply Hnl|by right|lia|]. intros s' Hs'. cbn [typed].
  destruct (with_cell_wf s Hr) as [Hw Hev]. pose proof (fr_cursor _ (cw_frame _ Hw)) as [Hc1 Hc2].
  destruct (ch =? 10).
  - destruct Hs' as (Hw' & Hev' & Ec & Er). rewrite <- Ec, <- Er, <- (proj1 (ev_size _ _ Hev')).
    apply IH; [by apply con_wf_ready|by eapply evolves_margin|done|lia|]. intros r c Hr' Hc'. rewrite (text_evolves _ _ _ _ Hev'). by apply Hpage.
  - destruct Hs' as (Hw' & Hev' & Ec & Er). pose proof (ev_size _ _ Hev') as [Es _]. cbn in Es.
    assert (∀ r c, 0 ≤ r → 0 ≤ c → text_at s' r c = if decide (r = cursor_row s ∧ c = cursor_col s) then ch else page r c) as Hp'.
    { intros r c Hr' Hc'. rewrite (text_evolves _ _ _ _ Hev'), written_text; [|apply Hw|done|done|apply Hc2|apply Hc1].
      cbn [cursor_row cursor_col with_cell with_buffer]. case_decide; [done|]. rewrite (text_evolves _ _ _ _ Hev). by apply Hpage. }
    pose proof (IH s' _ (con_wf_ready _ Hw') (evolves_margin (written (with_cell s) ch) _ Hm Hev') (λ _, Hw') ltac:(rewrite Er; unfold next_row; destruct (_ <? _); lia) Hp') as H.
    rewrite Es, Ec, Er in H. unfold next_col, next_row in H. by destruct (cursor_col s + 1 <? screen_cols s).
Qed.
End frames.

(** Text output refines typing on an endless page, in the text buffer.  On a screen with a margin at the right
    and at the bottom (its size is no multiple of the size of a character), writing any characters ends
    without a fault, a panic or an access outside the back buffer, the text buffer holds the characters typed
    with line breaks at the last column, and the cursor is where typing leaves it, in the viewport.  The first
    character must not be a newline while nothing has been written at the cursor. *)
Theorem put_view_types_text (s : console) (l : list Z) :
  con_ready s → margin s → (head l = Some 10 → con_wf s) → cursor_row s + Z.of_nat (length l) + 2 < 2 ^ 32 →
  ∃ s', put_view l s = Ok (s', ()) ∧ con_ready s' ∧
    displays s' (typed (screen_cols s) l (cursor_col s) (cursor_row s) (text_at s)).
Proof.
  intros Hr Hm Hnl Hmax. destruct (wp_total _ _ _ (put_view_run l s (text_at s) Hr Hm Hnl Hmax ltac:(done))) as (s' & [] & H1 & H2 & H3).
  by exists s'.
Qed.

(** A screen of [w] times [h] pixels, as [init] leaves the console on it. *)
Definition demo_screen (w h : Z) : console :=
  let m := list_to_map ((λ a, (a, 0)) <$> seqZ 0 (w * h * 4)) in
  match console_init (console0 (mk_fb w h (w * 4) 32 (w * h * 4) m m false [])) with
  | Ok (s, _) => s
  | _ => console0 (mk_fb w h (w * 4) 32 (w * h * 4) m m false [])
  end.

Lemma demo_memory_at (b n a : Z) : is_Some ((list_to_map ((λ a, (a, 0)) <$> seqZ b n) : mem) !! a) ↔ b ≤ a < b + n.
Proof.
  rewrite <- elem_of_dom, dom_list_to_map_L, elem_of_list_to_set, <- list_fmap_compose.
  rewrite list_elem_of_fmap. setoid_rewrite elem_of_seqZ. naive_solver lia.
Qed.
Lemma demo_memory (n a : Z) : is_Some ((list_to_map ((λ a, (a, 0)) <$> seqZ 0 n) : mem) !! a) ↔ 0 ≤ a < n.
Proof. exact (demo_memory_at 0 n a). Qed.

Lemma demo_screen_ready : con_ready (demo_screen 20 33).
Proof. pose proof (demo_memory 2640) as H. split_and!; [|done..]. split; [split; try done; exact H|..]; done. Qed.

Lemma put_view_types_text_witness : ∃ s', put_view [65; 66; 67] (demo_screen 20 33) = Ok (s', ()) ∧ con_ready s' ∧
  displays s' (typed 2 [65; 66; 67] 0 0 (text_at (demo_screen 20 33))).
Proof.
  apply (put_view_types_text (demo_screen 20 33) [65; 66; 67] demo_screen_ready); [done|discriminate|reflexivity].
Defined.

(** Where the console breaks.  On a screen whose width is a multiple of the character width a visible
    character in the last column makes the kernel panic.  On a screen whose height is a multiple of the
    character height too, ending a line in the last row writes past the end of the back buffer.  A newline
    written before any character reads a cell that is not there, and a string that ends within a control
    sequence keeps [put] in an endless loop. *)
Theorem console_edge_cases :
  put_view [65; 66] (demo_screen 16 33) = Panic ∧
  put_view [65; 10; 32; 32] (demo_screen 16 32) = Fault ∧
  (∀ f, newline (console0 f) = Fault) ∧
  (∀ s, put_string [ANSI_ESCAPE; 91; 50] s = Hang).
Proof.
  split_and!.
  - vm_compute. reflexivity.
  - vm_compute. reflexivity.
  - intros f. reflexivity.
  - intros s. reflexivity.
Qed.
