(* ===== verification/ConsoleScreen.v ===== *)
(** * The picture of the console

    What [redraw] of [src/kernel/lib/console/console.cpp] leaves in the back buffer, pixel by pixel, on any
    screen: the glyphs of the visible part of the text buffer in their colours, the background, and the
    inverted cell of the cursor; and when the assertions of [draw_char] stop it. *)

From S2P Require Import Prelude Crt Algo Fmt Font Framebuffer Console ConsoleProofs.

#[local] Coercion Z.of_nat : nat >-> Z.

Definition rgb (color : Z) : Z := Z.land color 0xFFFFFF.
Definition inverse (color : Z) : Z := Z.land (wrap 32 (Z.lnot color)) 0xFFFFFF.

(** The pixel [gx], [gy] of a cell; a background that is negative as an [int] is transparent. *)
Definition cell_pixel (cc : ConsoleChar) (gx gy below : Z) : Z :=
  if cc_c cc =? 32 then rgb (cc_bg cc) else
  if glyph_bit font (cc_c cc) gx gy then rgb (cc_fg cc) else
  if to_int (cc_bg cc) >=? 0 then rgb (cc_bg cc) else below.

(** The pixel [x], [y] of a cell that is drawn if it is marked or everything is. *)
Definition pixel (s : console) (d : bool) (img : Z → Z → Z) (row col x y : Z) : Z :=
  match cell_at (buffer s) row col with
  | Some cc => if d || cc_dirty cc then cell_pixel cc (x mod 8) (y mod 16) (img x y) else img x y
  | None => rgb (current_bg s)
  end.

(** The cells of a set are drawn over a picture. *)
Definition painted (s : console) (d : bool) (P : Z → Z → bool) (img : Z → Z → Z) (x y : Z) : Z :=
  let row := viewport_offset s + y / 16 in
  if P row (x / 8) then pixel s d img row (x / 8) x y else img x y.

(** The cells that have a place on the screen, in lines of the buffer. *)
Definition on_screen (s : console) (row col : Z) : bool :=
  (viewport_offset s <=? row) && (row <? viewport_offset s + screen_rows s) && (row <? length (buffer s)) &&
  (0 <=? col) && (col <? screen_cols s).

Definition cursor_shown (s : console) : bool :=
  cursor_enabled s && (viewport_offset s <=? cursor_row s) && (cursor_row s <? viewport_offset s + screen_rows s).

(** The cell of the cursor, if it is shown, is inverted. *)
Definition blinked (s : console) (img : Z → Z → Z) (x y : Z) : Z :=
  if cursor_shown s && (x / 8 =? cursor_col s) && (viewport_offset s + y / 16 =? cursor_row s) then inverse (img x y)
  else img x y.

(** What [redraw] draws. *)
Definition picture (s : console) (d : bool) : Z → Z → Z :=
  blinked s (painted s d (on_screen s) (blinked s (if d then λ _ _, rgb (current_bg s) else pix (con_fb s)))).

(** [draw_char] accepts the cell: it ends before the last pixel of the screen in both directions. *)
Definition cell_fits (s : console) (d : bool) (row col : Z) : bool :=
  match cell_at (buffer s) row col with
  | Some cc => (cc_c cc =? 32) || negb (d || cc_dirty cc) ||
      ((col * 8 + 8 <? fb_width (con_fb s)) && ((row - viewport_offset s) * 16 + 16 <? fb_height (con_fb s)))
  | None => true
  end.
Definition fits (s : console) (d : bool) : Prop := ∀ row col, on_screen s row col = true → cell_fits s d row col = true.

(** ** Colours *)

Lemma rgb_wrap c : Z.land (wrap 32 c) 0xFFFFFF = rgb c.
Proof.
  unfold rgb. change 0xFFFFFF with (Z.ones 24). rewrite !Z.land_ones by lia. unfold wrap.
  apply Z.mod_mod_divide. by exists (2 ^ 8).
Qed.
Lemma wrap_to_int c : wrap 32 (to_int c) = wrap 32 c.
Proof.
  unfold to_int. destruct (wrap 32 c <? 2 ^ 31); unfold wrap; [by rewrite Z.mod_mod|].
  rewrite Zminus_mod_idemp_l. by rewrite <- (Z.mod_add c (-1)).
Qed.

(** Drawing over a picture that is not the one [shows] starts from. *)
Lemma shows_over f0 img f1 (g : (Z → Z → Z) → Z → Z → Z) f2 : (∀ i j x y, i x y = j x y → g i x y = g j x y) →
  shows f0 img f1 → shows f1 (g (pix f1)) f2 → shows f0 (g img) f2.
Proof.
  intros Hg [H1 H2 H3] [H4 H5 H6]. split; [done| |].
  - rewrite <- H2, <- H5. by destruct f2.
  - intros x y Hin. rewrite H6; [by apply Hg, H3|]. unfold in_screen in *. by rewrite <- H2 in Hin.
Qed.

Lemma clear_shows f color : fb_ok f → fb_bpp f / 8 = 4 →
  ∃ f', fb_clear color f = Ok (f', ()) ∧ shows f (λ _ _, rgb color) f'.
Proof.
  intros Hok H4. pose proof (ok_pitch _ Hok) as Hp. pose proof (ok_size _ Hok) as Hz. rewrite H4 in Hp.
  destruct (fb_clear_run f color Hok) as (f' & Hr & Heq & Hb).
  { rewrite Hz, Hp, Z.mul_assoc. apply Z.mod_mul. lia. }
  exists f'. split; [done|]. assert (f' = with_buff (vram_buff f') f) as E by (rewrite <- Heq; by destruct f').
  rewrite E. split; [|by destruct f|].
  - destruct Hok. split; try done. intros a. cbn [vram_buff with_buff vram_size]. rewrite Hb. case_decide; [|by rewrite ok_buff].
    split; [done|by eauto].
  - intros x y Hin. unfold pix, offset_of. cbn [vram_buff with_buff fb_pitch fb_bpp]. rewrite !Hb.
    destruct (offset_bound Hok x y Hin) as [Ho1 Ho2]. unfold offset_of in *. rewrite H4 in *.
    rewrite !decide_True by (unfold RGB_OFFB, RGB_OFFG, RGB_OFFR; lia). cbn [default]. rewrite Hp.
    replace (y * (fb_width f * 4) + x * 4) with ((y * fb_width f + x) * 4) by lia. unfold clear_byte.
    rewrite !(Z.add_comm (_ * 4)), !Z.mod_add by lia. exact (join_split color).
Qed.

Lemma con_eta s : with_fb (con_fb s) s = s.
Proof. by destruct s. Qed.

Section redraw.
Context (s : console) (Hf : frame_ok s) (Hcur : cursor_col s < screen_cols s) (d : bool).
Implicit Types (img : Z → Z → Z) (P : Z → Z → bool).

(** The cells of [P] have been drawn and their marks removed. *)
Definition drawn img P s1 : Prop :=
  ∃ f b, s1 = with_fb f (with_buffer b s) ∧ shows (con_fb s) (painted s d P img) f ∧ length b = length (buffer s) ∧
    ∀ r c, 0 ≤ r → 0 ≤ c → cell_at b r c = (if P r c then with_dirty false else id) <$> cell_at (buffer s) r c.

Definition add_cell P row col : Z → Z → bool := λ r c, P r c || ((r =? row) && (c =? col)).

Lemma painted_same img P P' x y : (∀ r c, P r c = P' r c) → painted s d P img x y = painted s d P' img x y.
Proof. intros H. unfold painted. by rewrite H. Qed.

Lemma drawn_same img P P' s1 : (∀ r c, P r c = P' r c) → drawn img P s1 → drawn img P' s1.
Proof.
  intros H (f & b & E & Hs & Hl & Hb). exists f, b. split_and!; [done| |done|].
  - eapply shows_ext; [done|]. intros x y _. by apply painted_same.
  - intros r c Hr Hc. by rewrite <- H, Hb.
Qed.

(** The pixels of a cell. *)
Lemma cell_square row col x y : in_rect (col * 8) ((row - viewport_offset s) * 16) 8 16 x y ↔
  x / 8 = col ∧ viewport_offset s + y / 16 = row.
Proof. unfold in_rect. split; [intros; split; lia|]. intros [<- <-]. lia. Qed.

Lemma paint_cell img P row col x y : P row col = false → painted s d (add_cell P row col) img x y =
  if decide (in_rect (col * 8) ((row - viewport_offset s) * 16) 8 16 x y) then pixel s d img row col x y
  else painted s d P img x y.
Proof.
  intros HP. unfold painted, add_cell. case_decide as Hr; rewrite cell_square in Hr.
  - destruct Hr as [-> ->]. by rewrite !Z.eqb_refl, orb_true_r.
  - destruct (Z.eqb_spec (viewport_offset s + y / 16) row), (Z.eqb_spec (x / 8) col); rewrite ?orb_false_r; tauto.
Qed.

Lemma paint_before img P row col x y : P row col = false →
  in_rect (col * 8) ((row - viewport_offset s) * 16) 8 16 x y → painted s d P img x y = img x y.
Proof. intros HP [Ec Er]%cell_square. unfold painted. by rewrite Ec, Er, HP. Qed.

Lemma shows_cell img P row col f f' (px : Z → Z → Z → Z) : P row col = false → shows (con_fb s) (painted s d P img) f →
  shows f (λ x y, if decide (in_rect (col * 8) ((row - viewport_offset s) * 16) 8 16 x y)
                  then px x y (pix f x y) else pix f x y) f' →
  (∀ x y, in_rect (col * 8) ((row - viewport_offset s) * 16) 8 16 x y → px x y (img x y) = pixel s d img row col x y) →
  shows (con_fb s) (painted s d (add_cell P row col) img) f'.
Proof.
  intros HP Hs Hf' Hpx. eapply shows_ext.
  - eapply (shows_over _ _ _ (λ i x y, if decide (in_rect (col * 8) ((row - viewport_offset s) * 16) 8 16 x y)
      then px x y (i x y) else i x y)); [|done|done]. intros i j x y Hij. by rewrite Hij.
  - intros x y _. cbn beta. rewrite paint_cell by done. case_decide as Hr; [|done]. rewrite (paint_before img P row col) by done. by apply Hpx.
Qed.

(** One character; [draw_char] asserts that it fits. *)
Lemma draw_character_run f cc row col : safe (con_fb s) f → 0 ≤ row < screen_rows s → 0 ≤ col < screen_cols s →
  let ok := (cc_c cc =? 32) || ((col * 8 + 8 <? fb_width (con_fb s)) && (row * 16 + 16 <? fb_height (con_fb s))) in
  if ok then ∃ f', draw_character_at (cc_c cc) row col (cc_fg cc) (cc_bg cc) f = Ok (f', ()) ∧
    shows f (λ x y, if decide (in_rect (col * 8) (row * 16) 8 16 x y)
                    then cell_pixel cc (x - col * 8) (y - row * 16) (pix f x y) else pix f x y) f'
  else draw_character_at (cc_c cc) row col (cc_fg cc) (cc_bg cc) f = Panic.
Proof.
  intros Hs Hrow Hcol. pose proof Hf as [Hok Hb [Hc1 Hc2] [Hr1 Hr2] _ _]. pose proof (ok_height _ Hok).
  destruct (shows_geometry _ _ _ Hs) as (Ew & Eh & _). pose proof (safe_ok _ _ Hs) as Hok1. unfold draw_character_at, cell_pixel.
  change (font_width font) with 8. change (font_height font) with 16. rewrite !(wrap_small 32 (_ * _)) by (unfold is_word; lia).
  destruct (cc_c cc =? 32); cbn [orb].
  - destruct (fill_rect_run f (col * 8) (row * 16) 8 16 (cc_bg cc) Hok1) as (f' & Hr & Hf'); [lia..|].
    exists f'. split; [done|]. eapply shows_ext; [done|]. intros x y _. unfold filled. done.
  - destruct (draw_char_renders_glyph Font8x16 f (col * 8) (row * 16) (cc_c cc) (to_int (cc_fg cc)) (to_int (cc_bg cc)) Hok1) as [H1 H2];
      [lia|lia|change (font_width Font8x16) with 8; lia|change (font_height Font8x16) with 16; lia|].
    change (font_width Font8x16) with 8 in *. change (font_height Font8x16) with 16 in *. rewrite Ew, Eh in *.
    destruct (Z.ltb_spec (col * 8 + 8) (fb_width (con_fb s))); cbn [andb]; [|by apply H2; left].
    destruct (Z.ltb_spec (row * 16 + 16) (fb_height (con_fb s))); [|by apply H2; right].
    destruct H1 as (f' & Hr & Hf'); [lia|]. exists f'. split; [done|]. eapply shows_ext; [done|]. intros x y _.
    unfold with_char. by rewrite !rgb_wrap, !wrap_to_int || rewrite <- !rgb_wrap, !wrap_to_int.
Qed.

Lemma drawn_safe img P s1 : drawn img P s1 → safe (con_fb s) (con_fb s1).
Proof. intros (f & b & -> & Hs & _). by eapply safe_shows. Qed.

(** The mark of a cell that was drawn is removed. *)
Lemma unmark_run img P row col b f' E : P row col = false → 0 ≤ row → 0 ≤ col → is_Some (cell_at (buffer s) row col) →
  length b = length (buffer s) →
  (∀ r c, 0 ≤ r → 0 ≤ c → cell_at b r c = (if P r c then with_dirty false else id) <$> cell_at (buffer s) r c) →
  shows (con_fb s) (painted s d (add_cell P row col) img) f' →
  wp (set_cell row col (with_dirty false)) E (λ _ s2, drawn img (add_cell P row col) s2) (with_fb f' (with_buffer b s)).
Proof.
  intros HP Hrow Hcol [cc Hcc] Hl Hb Hs. unfold set_cell. eapply wp_bind_ok.
  { apply (cell_run _ row col cc). cbn [buffer with_fb with_buffer]. by rewrite Hb, HP, Hcc. }
  unfold wp, modify. exists f', (alter (alter (with_dirty false) (Z.to_nat col)) (Z.to_nat row) b).
  split_and!; [done|done|by rewrite length_alter|]. intros r c Hr Hc. rewrite cell_alter, Hb by done. unfold add_cell.
  destruct (Z.eqb_spec r row) as [->|Hnr]; [|rewrite decide_False by (intros [?%Z2Nat.inj _]; lia); by rewrite orb_false_r].
  destruct (Z.eqb_spec c col) as [->|Hnc]; [|rewrite decide_False by (intros [_ ?%Z2Nat.inj]; lia); by rewrite orb_false_r].
  rewrite decide_True, HP, orb_true_r by done. by rewrite Hcc.
Qed.

Lemma redraw_cell_run img P row col s1 : P row col = false → on_screen s row col = true → 0 ≤ row → drawn img P s1 →
  wp (redraw_cell d row col) (¬ fits s d) (λ _ s2, drawn img (add_cell P row col) s2 ∧ cell_fits s d row col = true) s1.
Proof.
  intros HP Hon Hrow0 Hd. pose proof (drawn_safe _ _ _ Hd) as Hsafe. destruct Hd as (f & b & -> & Hs & Hl & Hb).
  assert (¬ fits s d ∨ cell_fits s d row col = true) as Hfit.
  { destruct (cell_fits s d row col) eqn:E; [by right|left]. intros H. by rewrite H in E. }
  unfold on_screen in Hon. rewrite !andb_true_iff, !Z.leb_le, !Z.ltb_lt in Hon. destruct Hon as [[[[Hv1 Hv2] Hlen] Hc1] Hc2].
  unfold redraw_cell. apply wp_gets, wp_gets. cbn [viewport_offset screen_rows with_fb with_buffer].
  rewrite (proj2 (Z.ltb_lt _ _)) by lia. apply wp_gets.
  assert (default [] (buffer (with_fb f (with_buffer b s)) !! Z.to_nat row) !! Z.to_nat col = cell_at b row col) as ->.
  { cbn. unfold cell_at. by destruct (b !! Z.to_nat row). }
  pose proof (Hb row col Hrow0 Hc1) as Hcell. rewrite HP in Hcell. rewrite Hcell.
  pose proof (draw_character_run f) as Hdraw. unfold cell_fits in *.
  assert (∀ x y, in_rect (col * 8) ((row - viewport_offset s) * 16) 8 16 x y →
    x - col * 8 = x mod 8 ∧ y - (row - viewport_offset s) * 16 = y mod 16) as Hmod by (unfold in_rect; lia).
  pose proof (shows_cell img P row col f) as Hcd. unfold pixel in Hcd.
  destruct (cell_at (buffer s) row col) as [cc|] eqn:Hcc; cbn [fmap option_fmap option_map id].
  - assert (is_Some (cell_at (buffer s) row col)) as Hsome by (rewrite Hcc; done).
    apply wp_bind. destruct (d || cc_dirty cc) eqn:Hdr; cbn [negb] in *.
    + specialize (Hdraw cc (row - viewport_offset s) col Hsafe ltac:(lia) ltac:(lia)). rewrite orb_false_r in *.
      unfold on_fb. apply wp_zoom. cbn [con_fb with_fb with_buffer] in *. cbv zeta in Hdraw.
      set (ok := (cc_c cc =? 32) || _) in *. destruct ok; [|destruct Hfit as [Hfit|Hfit]; [unfold wp; by rewrite Hdraw|done]].
      destruct Hdraw as (f' & Hr & Hf'). unfold wp at 1. rewrite Hr. clear Hfit.
      eapply wp_mono; [eapply unmark_run; [done..|]|done|by intros [] s2]. 
      apply (Hcd f' (λ x y, cell_pixel cc (x - col * 8) (y - (row - viewport_offset s) * 16)) HP Hs Hf').
      by intros x y [-> ->]%Hmod.
    + apply wp_ret. rewrite orb_true_r. eapply wp_mono; [eapply unmark_run; [done..|]|done|by intros [] s2].
      eapply (Hcd f (λ _ _ c, c)); [done..| |done]. eapply shows_ext; [apply shows_self; by eapply safe_ok|].
      intros x y _. by case_decide.
  - apply wp_gets, wp_gets. cbn [current_fg current_bg with_fb with_buffer].
    specialize (Hdraw (mk_ConsoleChar 32 (current_fg s) (current_bg s) true) (row - viewport_offset s) col Hsafe ltac:(lia) ltac:(lia)).
    cbn [cc_c cc_fg cc_bg] in Hdraw. destruct Hdraw as (f' & Hr & Hf'). unfold on_fb. apply wp_zoom. cbn [con_fb with_fb with_buffer].
    unfold wp. rewrite Hr. split; [|done]. exists f', b. split_and!; [done| |done|].
    + by apply (Hcd f' (λ x y, cell_pixel (mk_ConsoleChar 32 (current_fg s) (current_bg s) true) (x - col * 8)
        (y - (row - viewport_offset s) * 16)) HP Hs Hf').
    + intros r c Hr' Hc'. rewrite Hb by done. unfold add_cell. destruct (Z.eqb_spec r row) as [->|]; [|by rewrite orb_false_r].
      destruct (Z.eqb_spec c col) as [->|]; [|by rewrite orb_false_r]. by rewrite Hcc.
Qed.

(** The cells before [C] in line [R], and all of the lines before. *)
Definition before (R C : Z) : Z → Z → bool := λ r c, on_screen s r c && ((r <? R) || ((r =? R) && (c <? C))).
Definition progress img R C s1 : Prop := drawn img (before R C) s1 ∧ ∀ r c, before R C r c = true → cell_fits s d r c = true.

Lemma progress_same img R C R' C' s1 : (∀ r c, before R C r c = before R' C' r c) → progress img R C s1 → progress img R' C' s1.
Proof.
  intros H [H1 H2]. split; [by eapply drawn_same|]. intros r c Hb. apply H2. by rewrite H.
Qed.

Lemma on_screen_spec row col : on_screen s row col = true ↔ (viewport_offset s ≤ row < viewport_offset s + screen_rows s ∧
  row < length (buffer s)) ∧ 0 ≤ col < screen_cols s.
Proof. unfold on_screen. rewrite !andb_true_iff, !Z.leb_le, !Z.ltb_lt. tauto. Qed.

Lemma before_next R C r c : before R (C + 1) r c = before R C r c || (on_screen s R C && ((r =? R) && (c =? C))).
Proof.
  unfold before. destruct (Z.eqb_spec r R) as [->|]; cbn [andb]; [|by rewrite andb_false_r, !orb_false_r].
  destruct (Z.eqb_spec c C) as [->|].
  - rewrite !Z.ltb_irrefl, (proj2 (Z.ltb_lt C (C + 1))) by lia. by destruct (on_screen s R C).
  - assert ((c <? C + 1) = (c <? C)) as -> by (destruct (Z.ltb_spec c C), (Z.ltb_spec c (C + 1)); lia).
    by rewrite !andb_false_r, orb_false_r.
Qed.

Lemma before_none r c : before (viewport_offset s) 0 r c = false.
Proof.
  unfold before. destruct (on_screen s r c) eqn:E; [|done]. apply on_screen_spec in E. cbn [andb].
  destruct (Z.ltb_spec r (viewport_offset s)), (Z.ltb_spec c 0); [lia..|]. by rewrite andb_false_r.
Qed.

Lemma step_run img R C s1 : viewport_offset s ≤ R < length (buffer s) → 0 ≤ C < screen_cols s → progress img R C s1 →
  wp (redraw_cell d R C) (¬ fits s d) (λ _ s2, progress img R (C + 1) s2) s1.
Proof.
  intros HR HC [Hd Hfit]. pose proof (fr_view _ Hf). destruct (on_screen s R C) eqn:Hon.
  - assert (before R C R C = false) as HP by (unfold before; rewrite !Z.ltb_irrefl, Z.eqb_refl; by rewrite andb_false_r).
    eapply wp_mono; [apply redraw_cell_run; [exact HP|done|lia|exact Hd]|done|]. intros [] s2 [H1 H2]. split.
    + eapply drawn_same; [|exact H1]. intros r c. by rewrite before_next, Hon.
    + intros r c. rewrite before_next, Hon, orb_true_iff. intros [Hb|Hb]; [by apply Hfit|].
      cbn [andb] in Hb. apply andb_true_iff in Hb as [->%Z.eqb_eq ->%Z.eqb_eq]. done.
  - destruct Hd as (f & b & -> & Hs & Hl & Hb). unfold redraw_cell. apply wp_gets, wp_gets. cbn [viewport_offset screen_rows with_fb with_buffer].
    apply not_true_iff_false in Hon. rewrite on_screen_spec in Hon. rewrite (proj2 (Z.ltb_ge _ _)) by lia. apply wp_ret.
    eapply (progress_same _ R C); [|split; [|exact Hfit]; by exists f, b].
    intros r c. rewrite before_next.
    destruct (on_screen s R C) eqn:E; [apply on_screen_spec in E; lia|]. by rewrite orb_false_r.
Qed.

Lemma row_run img R s1 : viewport_offset s ≤ R < length (buffer s) → progress img R 0 s1 →
  wp (for_each (seqZ 0 (screen_cols s)) (redraw_cell d R)) (¬ fits s d) (λ _ s2, progress img (R + 1) 0 s2) s1.
Proof.
  intros HR H1. pose proof (fr_cols _ Hf) as [Hc1 Hc2].
  eapply wp_mono; [apply (wp_for_each _ _ _ (λ pre s2, progress img R (length pre) s2)); [|exact H1]|done|].
  - intros pre C post s2 Hl Hs2. pose proof (seqZ_prefix _ _ _ _ _ Hl) as HC. rewrite Z.add_0_l in HC.
    assert (C ∈ seqZ 0 (screen_cols s)) as Hin%elem_of_seqZ by (rewrite Hl; set_solver).
    rewrite length_app, Nat2Z.inj_add. rewrite <- HC in *. apply step_run; [done|lia|done].
  - intros [] s2 Hs2. cbn beta in Hs2. rewrite length_seqZ, Z2Nat.id in Hs2 by lia. eapply progress_same; [|exact Hs2].
    intros r c. unfold before. destruct (on_screen s r c) eqn:E; [|done]. apply on_screen_spec in E. cbn [andb].
    destruct (Z.ltb_spec r R), (Z.ltb_spec r (R + 1)), (Z.eqb_spec r R), (Z.ltb_spec c (screen_cols s)), (Z.eqb_spec r (R + 1)), (Z.ltb_spec c 0);
      cbn; lia.
Qed.

Lemma rows_run img s1 : progress img (viewport_offset s) 0 s1 →
  wp (for_each (seqZ (viewport_offset s) (length (buffer s) - viewport_offset s)) (λ row, for_each (seqZ 0 (screen_cols s)) (redraw_cell d row)))
    (¬ fits s d) (λ _ s2, drawn img (on_screen s) s2 ∧ fits s d) s1.
Proof.
  intros H1. eapply wp_mono; [apply (wp_for_each _ _ _ (λ pre s2, progress img (viewport_offset s + length pre) 0 s2))|done|].
  - intros pre R post s2 Hl Hs2. pose proof (seqZ_prefix _ _ _ _ _ Hl) as HR.
    assert (R ∈ seqZ (viewport_offset s) (length (buffer s) - viewport_offset s)) as Hin%elem_of_seqZ by (rewrite Hl; set_solver).
    rewrite length_app, Nat2Z.inj_add, Z.add_assoc. rewrite <- HR in *. apply row_run; [lia|done].
  - by rewrite Z.add_0_r.
  - intros [] s2 Hs2. cbn beta in Hs2. rewrite length_seqZ in Hs2.
    assert (∀ r c, before (viewport_offset s + Z.to_nat (length (buffer s) - viewport_offset s)) 0 r c = on_screen s r c) as Hall.
    { intros r c. unfold before. destruct (on_screen s r c) eqn:E; [|done]. apply on_screen_spec in E. cbn [andb].
      rewrite (proj2 (Z.ltb_lt _ _)) by lia. done. }
    destruct Hs2 as [H2 H3]. split; [by eapply drawn_same|]. intros r c Hon. apply H3. by rewrite Hall.
Qed.

(** The cursor. *)
Lemma cursor_run img s1 E (Q : unit → console → Prop) : (∃ f b, s1 = with_fb f (with_buffer b s)) → shows (con_fb s) img (con_fb s1) →
  (∀ f, shows (con_fb s) (blinked s img) f → Q () (with_fb f s1)) → wp draw_cursor_if_visible E Q s1.
Proof.
  intros (f & b & ->) Hs HQ. unfold draw_cursor_if_visible, cursor_within_viewport. apply wp_gets, wp_gets.
  cbn [con_fb cursor_enabled cursor_row viewport_offset screen_rows with_fb with_buffer] in *.
  assert (cursor_enabled s && (wrap 64 (cursor_row s - viewport_offset s) <? screen_rows s) = cursor_shown s) as ->.
  { unfold cursor_shown. destruct (cursor_enabled s); [|done]. pose proof (visible_test s Hf) as Ht. unfold visible in Ht.
    cbn [andb]. pose proof Hf as [Hok _ _ [Hr1 Hr2] Hvw [_ Hcr]]. pose proof (ok_height _ Hok).
    destruct (_ <? screen_rows s) eqn:E1; [specialize (Ht eq_refl)|]; destruct (Z.leb_spec (viewport_offset s) (cursor_row s)),
      (Z.ltb_spec (cursor_row s) (viewport_offset s + screen_rows s)); try done; try lia.
    rewrite wrap_small in E1 by (unfold is_word; lia). lia. }
  unfold blinked in HQ. destruct (cursor_shown s) eqn:Hsh; cbn [andb] in HQ; [|apply wp_ret, HQ; by eapply shows_ext].
  unfold cursor_shown in Hsh. rewrite !andb_true_iff, Z.leb_le, Z.ltb_lt in Hsh. destruct Hsh as [[_ Hv1] Hv2].
  pose proof Hf as [Hok Hb [Hc1 Hc2] [Hr1 Hr2] Hvw [Hcc Hcr]]. pose proof (ok_height _ Hok).
  unfold draw_cursor, get_cursor_pixel_x, get_cursor_pixel_y. apply wp_gets, wp_gets.
  cbn [cursor_col cursor_row viewport_offset with_fb with_buffer].
  change (font_width font) with 8. change (font_height font) with 16. rewrite (wrap_small 64), !wrap_small by (unfold is_word; lia).
  destruct (shows_geometry _ _ _ Hs) as (Ew & Eh & _).
  destruct (invert_rec_run f (cursor_col s * 8) ((cursor_row s - viewport_offset s) * 16) 8 16 (sh_ok _ _ _ Hs)) as (f' & Hr & Hf'); [lia..|].
  unfold on_fb. apply wp_zoom. unfold wp. cbn [con_fb with_fb with_buffer]. rewrite Hr. apply HQ. eapply shows_ext.
  { eapply (shows_over _ _ _ (invert_in (seqZ (cursor_col s * 8) 8) (seqZ ((cursor_row s - viewport_offset s) * 16) 16))); [|exact Hs|exact Hf'].
    intros i j x y Hij. unfold invert_in. by rewrite Hij. }
  intros x y Hxy. unfold invert_in.
  destruct (Z.eqb_spec (x / 8) (cursor_col s)), (Z.eqb_spec (viewport_offset s + y / 16) (cursor_row s)); cbn [andb];
    [rewrite decide_True by (rewrite !elem_of_seqZ; lia); done|rewrite decide_False by (rewrite !elem_of_seqZ; lia); done..].
Qed.

Lemma redraw_run : wp (redraw d) (¬ fits s d) (λ _ s', fits s d ∧ ∃ f b, s' = with_fb f (with_buffer b s) ∧
  shows (con_fb s) (picture s d) f ∧ length b = length (buffer s) ∧ ∀ r c, 0 ≤ r → 0 ≤ c →
    cell_at b r c = (if on_screen s r c then with_dirty false else id) <$> cell_at (buffer s) r c) s.
Proof.
  unfold redraw. apply wp_bind. set (img := if d then λ _ _, rgb (current_bg s) else pix (con_fb s)).
  cut (∀ f, shows (con_fb s) img f → wp (_ ← draw_cursor_if_visible; v ← gets viewport_offset;
    n ← gets (λ s, Z.of_nat (length (buffer s))); cols ← gets screen_cols;
    _ ← for_each (seqZ v (n - v)) (λ row, for_each (seqZ 0 cols) (redraw_cell d row)); draw_cursor_if_visible) (¬ fits s d)
    (λ _ s', fits s d ∧ ∃ f b, s' = with_fb f (with_buffer b s) ∧ shows (con_fb s) (picture s d) f ∧ length b = length (buffer s) ∧
      ∀ r c, 0 ≤ r → 0 ≤ c → cell_at b r c = (if on_screen s r c then with_dirty false else id) <$> cell_at (buffer s) r c) (with_fb f s)).
  { intros Hrest. pose proof Hf as [Hok Hb _ _ _ _]. destruct d.
    - apply wp_gets. destruct (clear_shows (con_fb s) (current_bg s) Hok Hb) as (f & Hr & Hs).
      unfold on_fb. apply wp_zoom. unfold wp at 1. rewrite Hr. by apply Hrest.
    - apply wp_ret. specialize (Hrest (con_fb s) (shows_self _ Hok)). by rewrite (con_eta s) in Hrest. }
  intros f Hs. apply wp_bind. apply (cursor_run img); [exists f, (buffer s); by destruct s|done|]. intros f1 Hs1.
  apply wp_gets, wp_gets, wp_gets. cbn [viewport_offset buffer screen_cols with_fb].
  apply wp_bind. eapply wp_mono; [apply (rows_run (blinked s img))|done|].
  - split; [exists f1, (buffer s); split_and!; [by destruct s| |done|]|].
    + eapply shows_ext; [done|]. intros x y _. unfold painted. by rewrite before_none.
    + intros r c _ _. rewrite before_none. by rewrite option_fmap_id.
    + intros r c. by rewrite before_none.
  - intros [] s2 [(f2 & b & -> & Hs2 & Hl & Hb) Hfit]. apply (cursor_run _ _ _ _ ltac:(by eauto) Hs2). intros f3 Hs3.
    split; [done|]. by exists f3, b.
Qed.
End redraw.

(** C21: redrawing the console puts the text buffer on the screen.  On a screen of any size, wherever the viewport
    is, [redraw] either panics, exactly if some character that is to be drawn (not a space; marked as changed,
    unless everything is redrawn) has a cell that ends at the right or at the bottom edge of the screen, or
    it ends with every pixel of the back buffer as follows.  A pixel in a cell of a visible line of the
    buffer is that of the glyph of its character, foreground or background, or the background colour past the
    end of the line; every other pixel is the background colour when everything is redrawn, and unchanged
    otherwise.  In the cell of the cursor, if it is enabled and in the viewport, the pixels are inverted before
    and after the characters are drawn.  The marks of the cells on the screen are removed and nothing else
    changes.  The back buffer has 32 bits per pixel, no padding and the size of the screen, the text fits on it,
    and the cursor is not past the last column. *)
Theorem redraw_draws_text (s : console) (d : bool) : frame_ok s → cursor_col s < screen_cols s →
  (fits s d → ∃ f b, redraw d s = Ok (with_fb f (with_buffer b s), ()) ∧ shows (con_fb s) (picture s d) f ∧
     length b = length (buffer s) ∧
     ∀ r c, 0 ≤ r → 0 ≤ c → cell_at b r c = (if on_screen s r c then with_dirty false else id) <$> cell_at (buffer s) r c) ∧
  (¬ fits s d → redraw d s = Panic).
Proof.
  intros Hf Hcur. pose proof (redraw_run s Hf Hcur d) as H. unfold wp in H. destruct (redraw d s) as [[s' []]| | |]; [|by auto|done|done].
  destruct H as [Hfit (f & b & -> & H)]. split; [|done]. intros _. by exists f, b.
Qed.

(** An A in the first of two columns and, if wanted, a B in the second; the cursor is below. *)
Definition demo_lines (w h : Z) (b : bool) : console :=
  with_buffer ([[mk_ConsoleChar 65 0xFF8040 0x102030 false] ++ (if b then [mk_ConsoleChar 66 WHITE BLACK true] else []); []])
    (with_cursor 0 1 (demo_screen w h)).

Lemma demo_lines_ok b : frame_ok (demo_lines 16 33 b).
Proof.
  pose proof (demo_memory 2112) as H. split; [split; try done; exact H|..]; done.
Qed.

(** One column less than the screen has is fine; a character in the last column is not, even if only what changed
    is drawn. *)
Lemma redraw_draws_text_witness :
  (∃ f b, redraw true (demo_lines 16 33 false) = Ok (with_fb f (with_buffer b (demo_lines 16 33 false)), ()) ∧
     pix f 1 7 = 0xFF8040 ∧ pix f 0 0 = 0x102030 ∧ pix f 12 4 = BLACK ∧ pix f 3 20 = WHITE) ∧
  redraw false (demo_lines 16 33 true) = Panic.
Proof.
  split.
  - destruct (redraw_draws_text (demo_lines 16 33 false) true (demo_lines_ok false) ltac:(done)) as [H _].
    destruct H as (f & b & H1 & H2 & _).
    { intros row col (Hr & Hc)%on_screen_spec. unfold cell_fits.
      change (0 ≤ row < 0 + 2 ∧ row < 2) in Hr. change (0 ≤ col < 2) in Hc.
      assert (row = 0 ∨ row = 1) as [-> | ->] by lia; [|done].
      assert (col = 0 ∨ col = 1) as [-> | ->] by lia; done. }
    exists f, b. split; [exact H1|]. clear H1.
    assert (∀ x y, 0 ≤ x < 16 → 0 ≤ y < 33 → pix f x y = picture (demo_lines 16 33 false) true x y) as Hp
      by (intros x y Hx Hy; exact (sh_pix _ _ _ H2 x y (conj Hx Hy))).
    clear H2. split_and!; (rewrite Hp by lia); vm_compute; reflexivity.
  - apply (redraw_draws_text (demo_lines 16 33 true) false (demo_lines_ok true)); [done|]. intros H. by specialize (H 0 1 eq_refl).
Defined.
