(* ===== verification/Keyboard.v ===== *)
(** * Keyboard

    The decoding of scan codes in [src/kernel/arch/x64/drivers/keyboard/ps2.cpp] ([handle_scancode]) and the
    event queue of [keyboard.cpp].  The queue is a list ([KList.v] shows that a [klist] is one) and its
    spinlock is left out.  Talking to the controller is not modelled. *)

From S2P Require Import Prelude.

(** ** Codes *)

Definition EXTENDED_PREFIX : Z := 0xE0.
Definition RELEASE_MASK : Z := 0x80.

Module ScanCode.
Definition Nil : Z := 0x00.
Definition Backspace : Z := 0x0E.
Definition Enter : Z := 0x1C.
Definition LeftCtrl : Z := 0x1D.
Definition E : Z := 0x12.
Definition A : Z := 0x1E.
Definition D : Z := 0x20.
Definition F : Z := 0x21.
Definition K : Z := 0x25.
Definition LeftShift : Z := 0x2A.
Definition B : Z := 0x30.
Definition RightShift : Z := 0x36.
Definition LeftAlt : Z := 0x38.
Definition CapsLock : Z := 0x3A.
End ScanCode.

Module ExtendedScanCode.
Definition Nil : Z := 0x00.
Definition RightCtrl : Z := 0x1D.
Definition RightAlt : Z := 0x38.
Definition UpArrow : Z := 0x48.
Definition PageUp : Z := 0x49.
Definition LeftArrow : Z := 0x4B.
Definition RightArrow : Z := 0x4D.
Definition DownArrow : Z := 0x50.
Definition PageDown : Z := 0x51.
Definition Delete : Z := 0x53.
End ExtendedScanCode.

(** ** State *)

Record KeyEvent := mk_KeyEvent {
  scancode : Z;
  extended_scancode : Z;
  released : bool;
  ev_shift_held : bool;
  ev_control_held : bool;
  ev_alt_held : bool;
  ev_caps_lock_on : bool;
}.

Record keyboard := mk_keyboard {
  event_buffer : list KeyEvent;
  shift_held : bool;
  control_held : bool;
  alt_held : bool;
  caps_lock : bool;
  extended_pending : bool;
}.

Definition keyboard0 : keyboard := mk_keyboard [] false false false false false.

Definition with_modifiers (sh ct al cl : bool) (s : keyboard) : keyboard :=
  mk_keyboard (event_buffer s) sh ct al cl (extended_pending s).
Definition with_pending (b : bool) (s : keyboard) : keyboard :=
  mk_keyboard (event_buffer s) (shift_held s) (control_held s) (alt_held s) (caps_lock s) b.
Definition with_events (l : list KeyEvent) (s : keyboard) : keyboard :=
  mk_keyboard l (shift_held s) (control_held s) (alt_held s) (caps_lock s) (extended_pending s).

Definition update_modifiers (code extended : Z) (rel : bool) (s : keyboard) : keyboard :=
  let s1 :=
    if (code =? ScanCode.LeftShift) || (code =? ScanCode.RightShift)
    then with_modifiers (negb rel) (control_held s) (alt_held s) (caps_lock s) s
    else if code =? ScanCode.LeftCtrl then with_modifiers (shift_held s) (negb rel) (alt_held s) (caps_lock s) s
    else if code =? ScanCode.LeftAlt then with_modifiers (shift_held s) (control_held s) (negb rel) (caps_lock s) s
    else if (code =? ScanCode.CapsLock) && negb rel
    then with_modifiers (shift_held s) (control_held s) (alt_held s) (negb (caps_lock s)) s
    else s in
  if extended =? ExtendedScanCode.RightCtrl then with_modifiers (shift_held s1) (negb rel) (alt_held s1) (caps_lock s1) s1
  else if extended =? ExtendedScanCode.RightAlt then with_modifiers (shift_held s1) (control_held s1) (negb rel) (caps_lock s1) s1
  else s1.

Definition push_event (e : KeyEvent) (s : keyboard) : keyboard := with_events (event_buffer s ++ [e]) s.

(** [poll]: the oldest event, if there is one. *)
Definition poll : M keyboard (option KeyEvent) :=
  l ← gets event_buffer;
  match l with
  | [] => mret None
  | e :: l' => _ ← modify (with_events l'); mret (Some e)
  end.

Definition handle_scancode (byte : Z) (s : keyboard) : keyboard :=
  if byte =? EXTENDED_PREFIX then with_pending true s else
  let rel := negb (Z.land byte RELEASE_MASK =? 0) in
  let code := Z.land byte (wrap 8 (Z.lnot RELEASE_MASK)) in
  let '(sc, ex, s1) :=
    if extended_pending s then (ScanCode.Nil, code, with_pending false s) else (code, ExtendedScanCode.Nil, s) in
  let s2 := update_modifiers sc ex rel s1 in
  push_event (mk_KeyEvent sc ex rel (shift_held s2) (control_held s2) (alt_held s2) (caps_lock s2)) s2.

(** The bytes the interrupt handler takes from the controller. *)
Definition keyboard_interrupt (bytes : list Z) (s : keyboard) : keyboard := foldl (λ s b, handle_scancode b s) s bytes.
