(* ===== verification/Tty.v ===== *)
(** * Terminal

    [src/kernel/lib/fs/devfs/dev_tty.cpp]: the line editor of a terminal, its history, and reading and writing.
    The line is a [kstring] with its buffer, so an edit that leaves the buffer is a [Fault].  Reading works
    off the queued key events until the line is complete or no event is left; then the process waits for the
    keyboard and goes on with [tty_read_loop]. *)

From S2P Require Import Prelude KVector KString Cpu Crt UserMem Vfs Font Framebuffer.
From S2P Require Import Keyboard Console.

#[local] Coercion Z.of_nat : nat >-> Z.

(** Scan code set 1 to ASCII, unshifted; 0 is not printable. *)
Definition scancode_to_ascii_table : list Z := [
  0; 0; 49; 50; 51; 52; 53; 54; 55; 56; 57; 48; 45; 61; 0; 0;
  113; 119; 101; 114; 116; 121; 117; 105; 111; 112; 91; 93; 0; 0; 97; 115;
  100; 102; 103; 104; 106; 107; 108; 59; 39; 96; 0; 92; 122; 120; 99; 118;
  98; 110; 109; 44; 46; 47; 0; 42; 0; 32; 0; 0; 0; 0; 0; 0;
  0; 0; 0; 0; 0; 0; 0; 55; 56; 57; 45; 52; 53; 54; 43; 49;
  50; 51; 48; 46; 0; 0; 0; 0; 0; 0; 0; 0; 0; 0; 0; 0;
  0; 0; 0; 0; 0; 0; 0; 0; 0; 0; 0; 0; 0; 0; 0; 0;
  0; 0; 0; 0; 0; 0; 0; 0; 0; 0; 0; 0; 0; 0; 0; 0].

Definition scancode_to_ascii (code : Z) (caps : bool) : Z :=
  let index := wrap 8 code in
  if 128 <=? index then 0 else
  let ascii := nth (Z.to_nat index) scancode_to_ascii_table 0 in
  if caps && (97 <=? ascii) && (ascii <=? 122) then ascii - 32 else ascii.

Record DevTty := mk_DevTty {
  tty_buffer : kstring;
  history : list kstring;
  buffer_index : Z;
  history_index : Z;
}.

(** A terminal with the console, the keyboard and user memory. *)
Record terminal := mk_terminal {
  t_tty : DevTty;
  t_con : console;
  t_kbd : keyboard;
  t_user : umem;
}.

Definition tty0 : DevTty := mk_DevTty ks_new [] 0 0.

Definition with_tty (t : DevTty) (s : terminal) : terminal := mk_terminal t (t_con s) (t_kbd s) (t_user s).
Definition with_con (c : console) (s : terminal) : terminal := mk_terminal (t_tty s) c (t_kbd s) (t_user s).
Definition with_kbd (k : keyboard) (s : terminal) : terminal := mk_terminal (t_tty s) (t_con s) k (t_user s).
Definition with_user (u : umem) (s : terminal) : terminal := mk_terminal (t_tty s) (t_con s) (t_kbd s) u.

Definition with_line (l : kstring) (t : DevTty) : DevTty := mk_DevTty l (history t) (buffer_index t) (history_index t).
Definition with_index (i : Z) (t : DevTty) : DevTty := mk_DevTty (tty_buffer t) (history t) i (history_index t).
Definition with_history (h : list kstring) (i : Z) (t : DevTty) : DevTty := mk_DevTty (tty_buffer t) h (buffer_index t) i.

Definition on_tty {A} : M DevTty A → M terminal A := zoom t_tty with_tty.
Definition on_con {A} : M console A → M terminal A := zoom t_con with_con.
Definition on_kbd {A} : M keyboard A → M terminal A := zoom t_kbd with_kbd.
Definition on_user {A} : M umem A → M terminal A := zoom t_user with_user.
Definition on_line {A} (m : M kstring A) : M terminal A := on_tty (zoom tty_buffer with_line m).

Definition index : M terminal Z := gets (λ s, buffer_index (t_tty s)).
Definition line_size : M terminal Z := gets (λ s, ks_length (tty_buffer (t_tty s))).
Definition set_index (i : Z) : M terminal unit := on_tty (modify (with_index i)).

(** The rest of the line from [buffer_index] on, written to the screen. *)
Definition put_rest : M terminal unit :=
  i ← index;
  n ← line_size;
  for_each (seqZ i (n - i)) (λ k, c ← on_line (ch_read k); on_con (put_char c)).

(** [int len = buffer.size() - buffer_index; move_cursor(-len, 0)]. *)
Definition step_back_over_rest : M terminal unit :=
  i ← index;
  n ← line_size;
  on_con (move_cursor (- to_int (n - i)) 0).

Definition erase_rest_of_line : M terminal unit :=
  on_con (c ← gets cursor_col; n ← gets screen_cols; erase_in_line c n).

Definition insert_char (c : Z) : M terminal unit :=
  i ← index;
  _ ← on_line (ks_insert i c);
  _ ← set_index (wrap64 (i + 1));
  _ ← erase_rest_of_line;
  _ ← on_con (put_char c);
  _ ← put_rest;
  step_back_over_rest.

Definition delete_back : M terminal unit :=
  i ← index;
  if i =? 0 then mret () else
  _ ← on_line (ks_erase (i - 1));
  _ ← set_index (i - 1);
  _ ← on_con (move_cursor (-1) 0);
  _ ← erase_rest_of_line;
  _ ← put_rest;
  step_back_over_rest.

Definition delete_forward : M terminal unit :=
  i ← index;
  n ← line_size;
  if i =? n then mret () else
  _ ← on_line (ks_erase i);
  _ ← erase_rest_of_line;
  _ ← put_rest;
  step_back_over_rest.

Definition move_left : M terminal unit :=
  i ← index;
  if 0 <? i then _ ← set_index (i - 1); on_con (move_cursor (-1) 0) else mret ().

Definition move_right : M terminal unit :=
  i ← index;
  n ← line_size;
  if i <? n then _ ← set_index (i + 1); on_con (move_cursor 1 0) else mret ().

Definition move_to_start : M terminal unit :=
  i ← index;
  if i =? 0 then mret () else
  _ ← on_con (move_cursor (to_int (- i)) 0);
  set_index 0.

Definition move_to_end : M terminal unit :=
  i ← index;
  n ← line_size;
  if i =? n then mret () else
  _ ← on_con (move_cursor (to_int (n - i)) 0);
  set_index n.

Definition delete_to_end : M terminal unit :=
  i ← index;
  _ ← on_line (ks_truncate i);
  erase_rest_of_line.

(** ** History *)

Definition add_buffer_history : M terminal unit :=
  t ← gets t_tty;
  if ks_empty (tty_buffer t) then mret () else
  same ← match last (history t) with
         | None => mret false
         | Some h => of_option (ks_eq (tty_buffer t) h)
         end;
  if (same : bool) then mret () else
  (* the vector holds a copy of the line *)
  match ks_copy (tty_buffer t) ks_new with
  | Ok (copy, _) => on_tty (modify (λ t, with_history (history t ++ [copy]) (length (history t) + 1) t))
  | _ => fault
  end.

Definition show_line : M terminal unit :=
  n ← line_size;
  l ← on_line (gets chars);
  _ ← set_index n;
  on_con (put_string l).

Definition buffer_history_up : M terminal unit :=
  t ← gets t_tty;
  if negb (bool_decide (history t = [])) && (0 <? history_index t) then
    _ ← move_to_start;
    _ ← delete_to_end;
    h ← of_option (history t !! Z.to_nat (history_index t - 1));
    _ ← on_tty (modify (with_history (history t) (history_index t - 1)));
    _ ← on_line (ks_copy_assign h);
    show_line
  else mret ().

Definition buffer_history_down : M terminal unit :=
  _ ← move_to_start;
  _ ← delete_to_end;
  t ← gets t_tty;
  _ ← (if history_index t + 1 <? length (history t) then
         h ← of_option (history t !! Z.to_nat (history_index t + 1));
         _ ← on_tty (modify (with_history (history t) (history_index t + 1)));
         on_line (ks_copy_assign h)
       else
         _ ← on_line (ks_assign_cstr (Some [0]));
         on_tty (modify (with_history (history t) (length (history t)))));
  show_line.

(** ** Keys *)

Definition process_ctrl (c : Z) : M terminal unit :=
  if c =? ScanCode.A then move_to_start
  else if c =? ScanCode.E then move_to_end
  else if c =? ScanCode.K then delete_to_end
  else if c =? ScanCode.B then move_left
  else if c =? ScanCode.F then move_right
  else if c =? ScanCode.D then delete_forward
  else mret ().

Definition page_up : M terminal unit := on_con scroll_up.
Definition page_down : M terminal unit := on_con scroll_down.

(** A key press other than [Enter]. *)
Definition process_key (e : KeyEvent) : M terminal unit :=
  let caps := ev_shift_held e || ev_caps_lock_on e in
  let ascii := scancode_to_ascii (scancode e) caps in
  let ex := extended_scancode e in
  if ev_control_held e then process_ctrl (scancode e)
  else if negb (ascii =? 0) then insert_char ascii
  else if scancode e =? ScanCode.Backspace then delete_back
  else if ex =? ExtendedScanCode.LeftArrow then move_left
  else if ex =? ExtendedScanCode.RightArrow then move_right
  else if ex =? ExtendedScanCode.Delete then delete_forward
  else if ex =? ExtendedScanCode.UpArrow then buffer_history_up
  else if ex =? ExtendedScanCode.DownArrow then buffer_history_down
  else if ex =? ExtendedScanCode.PageUp then page_up
  else if ex =? ExtendedScanCode.PageDown then page_down
  else mret ().

Definition is_enter (e : KeyEvent) : bool :=
  negb (ev_control_held e) && (scancode_to_ascii (scancode e) (ev_shift_held e || ev_caps_lock_on e) =? 0)
  && negb (scancode e =? ScanCode.Backspace) && (scancode e =? ScanCode.Enter).

(** [Enter]: the line goes to the history and to the reader, at most [count] bytes of it; the result is the
    length of the line. *)
Definition finish_line (buff count : Z) : M terminal Z :=
  _ ← add_buffer_history;
  len ← line_size;
  l ← on_line (gets chars);
  _ ← on_user (kcopy_to_user buff (take (Z.to_nat (if len >? count then count else len)) l));
  _ ← on_con newline;
  mret (to_int len).

(** Queued events until the line is complete; [None] is waiting for the keyboard. *)
Fixpoint tty_read_loop (fuel : nat) (buff count : Z) : M terminal (option Z) :=
  o ← on_kbd poll;
  match o with
  | None => mret None
  | Some e =>
      match fuel with
      | O => hang
      | S fuel' =>
          if released e then tty_read_loop fuel' buff count else
          if is_enter e then n ← finish_line buff count; mret (Some n) else
          _ ← process_key e;
          _ ← on_con (redraw false);
          tty_read_loop fuel' buff count
      end
  end.

(** Every round takes an event from the queue. *)
Definition tty_read_queued (buff count : Z) : M terminal (option Z) :=
  n ← gets (λ s, length (event_buffer (t_kbd s)));
  tty_read_loop n buff count.

Definition tty_read (buff count : Z) : M terminal (option Z) :=
  _ ← on_line (ks_assign_cstr (Some [0]));
  _ ← set_index 0;
  tty_read_queued buff count.

(** [new char[count]] is not freed. *)
Definition tty_write (buff count : Z) : M terminal Z :=
  str ← on_user (kcopy_from_user buff count);
  _ ← on_con (put_view str);
  _ ← on_con (redraw false);
  mret (to_int count).

Definition tty_lseek : M terminal Z := mret (- ESPIPE).

(** [struct winsize]: four 16-bit integers, little-endian. *)
Definition le16 (z : Z) : list Z := [Z.land z 0xFF; Z.land (Z.shiftr z 8) 0xFF].
Definition TIOCGWINSZ : Z := 0x5413.
Definition tty_ioctl (request arg : Z) : M terminal Z :=
  if request =? TIOCGWINSZ then
    c ← gets t_con;
    _ ← on_user (kcopy_to_user arg (le16 (screen_rows c) ++ le16 (screen_cols c) ++ le16 0 ++ le16 0));
    mret 0
  else mret (- ENOTTY).
