(* ===== verification/TtyProofs.v ===== *)
(** * The line editor

    Editing a line that fits into its row of the console's text buffer: after every key the line is what the
    key does to the text with a cursor in it, the row holds the line, and the cursor of the console stands
    where the cursor of the line is; or the key writes past the end of the line's memory. *)

From S2P Require Import Prelude KVector KString Cpu Crt UserMem Vfs Font Framebuffer.
From S2P Require Import Keyboard Console ConsoleProofs Tty.

#[local] Coercion Z.of_nat : nat >-> Z.

Section screen.
Implicit Types (s : console) (page : Z → Z → Z).

(** A console in order that shows [page], with the cursor in row [r]; [n] columns. *)
Record on_page s (n c r : Z) page : Prop := {
  op_wf : con_wf s;
  op_cols : screen_cols s = n;
  op_col : cursor_col s = c;
  op_row : cursor_row s = r;
  op_text y x : 0 ≤ y → 0 ≤ x → text_at s y x = page y x;
}.

Definition put_at_page page (r c ch : Z) : Z → Z → Z := λ y x, if decide (y = r ∧ x = c) then ch else page y x.

Lemma on_page_evolves s n c r page s' c' : on_page s n c r page → goes s c' r s' → on_page s' n c' r page.
Proof.
  intros [Hw Hn Hc Hr Ht] (Hw' & Hev & Ec & Er). split; [done| |done|done|].
  - by rewrite (proj1 (ev_size _ _ Hev)).
  - intros y x Hy Hx. rewrite (text_evolves _ _ _ _ Hev). by apply Ht.
Qed.

(** A character on a console that is ready, whether or not the cursor is at a cell already. *)
Lemma put_on_ready s n c r page ch E (Q : unit → console → Prop) : con_ready s → screen_cols s = n ∧ cursor_col s = c ∧ cursor_row s = r →
  (∀ y x, 0 ≤ y → 0 ≤ x → text_at s y x = page y x) → ch ≠ 10 → c + 1 < n → r + 2 < 2 ^ 32 →
  (∀ s', on_page s' n (c + 1) r (put_at_page page r c ch) → Q () s') → wp (put_char ch) E Q s.
Proof.
  intros Hw (Hn & Hc & Hr) Ht Hch Hlt Hmax HQ. apply put_char_run; [done|done|left; by rewrite Hc, Hn|by rewrite Hr|].
  rewrite (proj2 (Z.eqb_neq ch 10)) by done. intros s' Hs'. apply HQ.
  unfold next_col, next_row in Hs'. rewrite Hc, Hn, (proj2 (Z.ltb_lt _ _)), Hr in Hs' by done.
  destruct Hs' as (Hw' & Hev & Ec & Er). destruct (with_cell_wf s Hw) as [Hwc Hevc].
  pose proof (fr_cursor _ (cw_frame _ Hwc)) as [Hc1 Hc2]. split; [done| |done|done|].
  - rewrite (proj1 (ev_size _ _ Hev)). done.
  - intros y x Hy Hx. rewrite (text_evolves _ _ _ _ Hev), written_text; [|apply Hwc|done|done|apply Hc2|apply Hc1].
    unfold put_at_page. cbn [cursor_row cursor_col with_cell with_buffer]. rewrite Hc, Hr. case_decide; [done|].
    rewrite (text_evolves _ _ _ _ Hevc). by apply Ht.
Qed.

Lemma put_on_page s n c r page ch E (Q : unit → console → Prop) : on_page s n c r page → ch ≠ 10 → c + 1 < n → r + 2 < 2 ^ 32 →
  (∀ s', on_page s' n (c + 1) r (put_at_page page r c ch) → Q () s') → wp (put_char ch) E Q s.
Proof. intros [Hw Hn Hc Hr Ht]. apply put_on_ready; [by apply con_wf_ready|done|exact Ht]. Qed.

Lemma move_on_page s n c r page dx E (Q : unit → console → Prop) : on_page s n c r page → 0 ≤ c + dx < n → r + 2 < 2 ^ 32 →
  (∀ s', on_page s' n (c + dx) r page → Q () s') → wp (move_cursor dx 0) E Q s.
Proof.
  intros Hp Hdx Hmax HQ. pose proof Hp as [Hw Hn Hc Hr Ht]. pose proof (fr_cols _ (cw_frame _ Hw)). pose proof (fr_cursor _ (cw_frame _ Hw)).
  pose proof (cw_visible _ Hw) as Hv. unfold visible in Hv.
  unfold move_cursor. apply wp_gets, wp_gets. rewrite Hc, Hr, Z.add_0_r, !wrap_small by (unfold is_word; lia).
  destruct (decide (dx = 0)) as [->|Hne].
  - unfold set_cursor. rewrite set_cursor_step. apply wp_get. rewrite Hc, Hr, Z.add_0_r, !Z.eqb_refl. apply wp_ret, HQ.
    by rewrite Z.add_0_r.
  - apply set_cursor_plain; [apply Hw|apply Hw|lia|left; split; [apply Hw|lia]|lia|lia|lia|]. intros s' ? ? ? ?. apply HQ. eapply on_page_evolves; [done|done].
Qed.

(** ** Erasing *)

Lemma erase_on_page_step s n c r page col : on_page s n c r page → 0 ≤ col → 0 ≤ r → ∃ s',
  (row ← gets cursor_row; _ ← ensure_valid_cursor_buffer_pos row col;
   set_cell row col (λ cc, with_dirty true (with_c 32 cc))) s = Ok (s', ()) ∧ on_page s' n c r (put_at_page page r col 32).
Proof.
  intros [Hw Hn Hc Hr Ht] Hcol Hr0. rewrite (bind_ok (gets _) _ s s (cursor_row s)) by done. rewrite Hr.
  unfold ensure_valid_cursor_buffer_pos. rewrite (bind_ok (modify _) _ s (with_buffer (grown s r col) s) ()) by done.
  destruct (grown_there s r col Hr0 Hcol) as [cc Hcc]. unfold set_cell.
  rewrite (bind_ok _ _ _ _ _ (cell_run (with_buffer (grown s r col) s) r col cc Hcc)).
  set (f := λ cc : ConsoleChar, with_dirty true (with_c 32 cc)). eexists. split; [done|]. cbn [buffer with_buffer].
  pose proof (grown_padded s r col Hr0 Hcol) as Hpad.
  assert (∀ y x, cell_at (alter (alter f (Z.to_nat col)) (Z.to_nat r) (grown s r col)) y x =
    if decide (Z.to_nat y = Z.to_nat r ∧ Z.to_nat x = Z.to_nat col) then f <$> cell_at (grown s r col) y x
    else cell_at (grown s r col) y x) as Hcell by (intros; apply cell_alter).
  split; [|done..|].
  - destruct Hw as [Hf Hv Hlt Hce]. split; [by destruct Hf|done|done|]. cbn. rewrite Hr, Hc in *. rewrite Hcell.
    assert (is_Some (cell_at (grown s r col) r c)) as Hg by (rewrite grown_cell by done; by destruct Hce as [? ->]).
    case_decide; [by apply fmap_is_Some|done].
  - intros y x Hy Hx. unfold text_at. cbn [buffer with_buffer]. rewrite Hcell. unfold put_at_page.
    destruct (decide (y = r ∧ x = col)) as [[-> ->]|Hne].
    + rewrite decide_True by done. by rewrite Hcc.
    + rewrite decide_False by (intros [?%Z2Nat.inj ?%Z2Nat.inj]; tauto). rewrite <- Ht by done.
      apply (text_evolves s (with_buffer (grown s r col) s) y x). split; [done|apply safe_refl, Hw|done..].
Qed.

Definition erase_page page (r c n : Z) : Z → Z → Z := λ y x, if decide (y = r ∧ c ≤ x < n) then 32 else page y x.

Lemma on_page_ext s n c r page page' : on_page s n c r page → (∀ y x, page y x = page' y x) → on_page s n c r page'.
Proof. intros [] H. split; try done. intros y x Hy Hx. by rewrite <- H, op_text0. Qed.

Lemma erase_on_page s n c r page E (Q : unit → console → Prop) : on_page s n c r page → 0 ≤ r →
  (∀ s', on_page s' n c r (erase_page page r c n) → Q () s') → wp (c ← gets cursor_col; k ← gets screen_cols; erase_in_line c k) E Q s.
Proof.
  intros Hp Hr HQ. apply wp_gets, wp_gets. rewrite (op_col _ _ _ _ _ Hp), (op_cols _ _ _ _ _ Hp). unfold erase_in_line.
  pose proof (fr_cursor _ (cw_frame _ (op_wf _ _ _ _ _ Hp))) as [[Hc1 _] _]. rewrite (op_col _ _ _ _ _ Hp) in Hc1.
  pose proof (cw_col _ (op_wf _ _ _ _ _ Hp)) as Hlt. rewrite (op_col _ _ _ _ _ Hp), (op_cols _ _ _ _ _ Hp) in Hlt.
  eapply wp_mono; [apply (wp_for_each _ _ E (λ pre s', on_page s' n c r (erase_page page r c (c + length pre))))|done|].
  - intros pre x post s' Hx Hs'. assert (x ∈ seqZ c (n - c)) as Hin by (rewrite Hx; set_solver). apply elem_of_seqZ in Hin.
    pose proof (seqZ_prefix _ _ _ _ _ Hx) as Hxe. destruct (erase_on_page_step _ _ _ _ _ x Hs') as (s'' & Hrun & Hs''); [lia|done|].
    unfold wp. rewrite Hrun. eapply on_page_ext; [done|]. intros y z. unfold put_at_page, erase_page. rewrite length_app. cbn [length].
    repeat case_decide; try done; lia.
  - eapply on_page_ext; [done|]. intros y z. unfold erase_page. cbn. by rewrite decide_False by lia.
  - intros [] s' Hs'. apply HQ. rewrite length_seqZ in Hs'. by replace (c + Z.to_nat (n - c)) with n in Hs' by lia.
Qed.
End screen.

Section editor.
Implicit Types (s : terminal) (l : list Z) (page : Z → Z → Z).

Lemma wp_on_con {A} (m : M console A) s E (Q : A → terminal → Prop) :
  wp m E (λ a c, Q a (with_con c s)) (t_con s) → wp (on_con m) E Q s.
Proof. intros H. unfold on_con. by apply wp_zoom. Qed.

Lemma wp_on_line {A} (m : M kstring A) s E (Q : A → terminal → Prop) :
  wp m E (λ a k, Q a (with_tty (with_line k (t_tty s)) s)) (tty_buffer (t_tty s)) → wp (on_line m) E Q s.
Proof. intros H. unfold on_line, on_tty. by apply wp_zoom, wp_zoom. Qed.

Lemma wp_set_index i s E (Q : unit → terminal → Prop) : Q () (with_tty (with_index i (t_tty s)) s) → wp (set_index i) E Q s.
Proof. intros H. unfold set_index, on_tty. by apply wp_zoom. Qed.

Lemma ch_read_run k l (i : Z) c : ks_ok k l → 0 ≤ i → l !! Z.to_nat i = Some c → ch_read i k = Ok (k, c).
Proof.
  intros [[_ ->]|[rest ->]] Hi Hl; [done|].
  apply list_elem_of_split_length in Hl as (l1 & l2 & -> & Hlen).
  unfold ch_read, mbind, M_bind, gets. unfold str. rewrite fmap_app, <- app_assoc. cbn [fmap list_fmap app].
  rewrite byte_of_app; [done|]. rewrite length_fmap. lia.
Qed.

(** The row [r] shows [l] from column [c0] on, and blanks behind it. *)
Definition row_shows page (r c0 n : Z) l : Prop := ∀ x, c0 ≤ x < n → page r x = default 32 (l !! Z.to_nat (x - c0)).

(** The line [l] with its cursor before the [i]-th character, in row [r] from column [c0] on. *)
Record editing s (n c0 r : Z) l (i : Z) : Prop := {
  ed_line : ks_ok (tty_buffer (t_tty s)) l;
  ed_max : length l + 2 < KS_MAX;
  ed_index : buffer_index (t_tty s) = i ∧ 0 ≤ i ≤ length l;
  ed_fits : 0 ≤ c0 ∧ c0 + length l < n ∧ n < 2 ^ 29 ∧ 0 ≤ r ∧ r + 2 < 2 ^ 32;
  ed_chars : Forall (λ c, c ≠ 10) l;
  ed_page : ∃ page, on_page (t_con s) n (c0 + i) r page ∧ row_shows page r c0 n l;
}.

(** The console after the rest of the line has been written. *)
Lemma put_rest_run s n c0 r l (i : Z) page E (Q : unit → terminal → Prop) :
  ks_ok (tty_buffer (t_tty s)) l → buffer_index (t_tty s) = i → 0 ≤ i ≤ length l → 0 ≤ c0 → c0 + length l < n → r + 2 < 2 ^ 32 →
  Forall (λ c, c ≠ 10) l → on_page (t_con s) n (c0 + i) r page → row_shows page r c0 n (take (Z.to_nat i) l) →
  (∀ con page', on_page con n (c0 + length l) r page' → row_shows page' r c0 n l → Q () (with_con con s)) →
  wp put_rest E Q s.
Proof.
  intros Hk Hidx Hi Hc0 Hfit Hr Hch Hp Hrow HQ. unfold put_rest, index, line_size. apply wp_gets, wp_gets.
  rewrite Hidx, (ks_rep_length _ _ (ks_ok_rep _ _ Hk)).
  eapply wp_mono; [apply (wp_for_each _ _ E (λ pre s', ∃ con page', s' = with_con con s ∧ on_page con n (c0 + i + length pre) r page' ∧
    row_shows page' r c0 n (take (Z.to_nat i + length pre) l)))|done|].
  - intros pre x post s' Hx (con & page' & -> & Hp' & Hrow').
    assert (x ∈ seqZ i (length l - i)) as Hin by (rewrite Hx; set_solver). apply elem_of_seqZ in Hin.
    pose proof (seqZ_prefix _ _ _ _ _ Hx) as Hxe.
    destruct (lookup_lt_is_Some_2 l (Z.to_nat x)) as [c Hc]; [lia|].
    apply wp_bind, wp_on_line. unfold wp at 1. cbn [t_tty with_con]. rewrite (ch_read_run _ l x c Hk ltac:(lia) Hc).
    apply wp_on_con. eapply put_on_page; [exact Hp'| |lia|done|].
    + by apply (proj1 (list.Forall_forall _ _) Hch), (list_elem_of_lookup_2 _ (Z.to_nat x)).
    + intros con' Hcon'. exists con', (put_at_page page' r (c0 + i + length pre) c). rewrite length_app. cbn [length].
      split_and!; [by destruct s as [[] ? ? ?]|by replace (c0 + i + (length pre + 1)%nat) with (c0 + i + length pre + 1) by lia|].
      intros y Hy. unfold put_at_page. replace (Z.to_nat i + (length pre + 1))%nat with (S (Z.to_nat x)) by lia.
      rewrite (take_S_r _ _ _ Hc). case_decide as Hd.
      * destruct Hd as [_ ->]. rewrite lookup_app_r by (rewrite length_take; lia).
        rewrite length_take. by replace (Z.to_nat (c0 + i + length pre - c0) - Z.to_nat x `min` length l)%nat with 0%nat by lia.
      * rewrite Hrow' by done. replace (Z.to_nat i + length pre)%nat with (Z.to_nat x) by lia.
        destruct (decide (Z.to_nat (y - c0) < Z.to_nat x)%nat) as [Hlt|Hge].
        -- by rewrite lookup_app_l by (rewrite length_take; lia).
        -- rewrite lookup_ge_None_2 by (rewrite length_take; lia).
           rewrite lookup_ge_None_2; [done|]. rewrite length_app, length_take. cbn. lia.
  - exists (t_con s), page. cbn [length]. rewrite Z.add_0_r, Nat.add_0_r. split_and!; [by destruct s|done|done].
  - intros [] s' (con & page' & -> & Hp' & Hrow'). rewrite length_seqZ in *. eapply HQ.
    + replace (c0 + length l) with (c0 + i + Z.to_nat (length l - i)) by lia. done.
    + by rewrite take_ge in Hrow' by lia.
Qed.

Definition prefix_shown page (r c0 : Z) l (i : Z) : Prop := ∀ x, c0 ≤ x < c0 + i → page r x = default 32 (l !! Z.to_nat (x - c0)).

Lemma erased_prefix page r c0 n l i : 0 ≤ i ≤ length l → prefix_shown page r c0 l i →
  row_shows (erase_page page r (c0 + i) n) r c0 n (take (Z.to_nat i) l).
Proof.
  intros Hi Hp x Hx. unfold erase_page. case_decide as Hd.
  - rewrite lookup_ge_None_2; [done|]. rewrite length_take. lia.
  - rewrite Hp by lia. by rewrite lookup_take_lt by lia.
Qed.

Lemma rest_run s n c0 r l (i : Z) page E (Q : unit → terminal → Prop) :
  ks_ok (tty_buffer (t_tty s)) l → length l + 2 < KS_MAX → buffer_index (t_tty s) = i ∧ 0 ≤ i ≤ length l →
  0 ≤ c0 ∧ c0 + length l < n ∧ n < 2 ^ 29 ∧ 0 ≤ r ∧ r + 2 < 2 ^ 32 → Forall (λ c, c ≠ 10) l →
  on_page (t_con s) n (c0 + i) r page → row_shows page r c0 n (take (Z.to_nat i) l) →
  (∀ con, editing (with_con con s) n c0 r l i → Q () (with_con con s)) →
  wp (_ ← put_rest; step_back_over_rest) E Q s.
Proof.
  intros Hk Hmax [Hidx Hi] (Hc0 & Hfit & Hn & Hr & Hr2) Hch Hp Hrow HQ.
  apply wp_bind. apply (put_rest_run s n c0 r l i page); [done..|]. intros con page' Hp' Hrow'.
  unfold step_back_over_rest, index, line_size. apply wp_gets, wp_gets. cbn [t_tty with_con].
  rewrite Hidx, (ks_rep_length _ _ (ks_ok_rep _ _ Hk)), to_int_fits by lia.
  apply wp_on_con. eapply move_on_page; [exact Hp'|lia|done|]. intros con' Hcon'.
  apply (HQ con'). split; try done. exists page'. split; [|done].
  by replace (c0 + length l + - (length l - i)) with (c0 + i) in Hcon' by lia.
Qed.

Lemma erase_rest_run s n c r page E (Q : unit → terminal → Prop) : on_page (t_con s) n c r page → 0 ≤ r →
  (∀ con, on_page con n c r (erase_page page r c n) → Q () (with_con con s)) → wp erase_rest_of_line E Q s.
Proof. intros Hp Hr HQ. unfold erase_rest_of_line. apply wp_on_con. by eapply erase_on_page. Qed.

Lemma redisplay_run s n c0 r l (i : Z) page E (Q : unit → terminal → Prop) :
  ks_ok (tty_buffer (t_tty s)) l → length l + 2 < KS_MAX → buffer_index (t_tty s) = i ∧ 0 ≤ i ≤ length l →
  0 ≤ c0 ∧ c0 + length l < n ∧ n < 2 ^ 29 ∧ 0 ≤ r ∧ r + 2 < 2 ^ 32 → Forall (λ c, c ≠ 10) l →
  on_page (t_con s) n (c0 + i) r page → prefix_shown page r c0 l i →
  (∀ con, editing (with_con con s) n c0 r l i → Q () (with_con con s)) →
  wp (_ ← erase_rest_of_line; _ ← put_rest; step_back_over_rest) E Q s.
Proof.
  intros Hk Hmax Hidx Hf Hch Hp Hpre HQ. apply wp_bind. eapply erase_rest_run; [done|lia|]. intros con Hcon.
  apply (rest_run (with_con con s) n c0 r l i _ E Q Hk Hmax Hidx Hf Hch Hcon); [|done]. apply erased_prefix; [apply Hidx|done].
Qed.

(** ** The operations on a line *)

Definition ins l (i c : Z) : list Z := take (Z.to_nat i) l ++ c :: drop (Z.to_nat i) l.
Definition del l (i : Z) : list Z := delete (Z.to_nat i) l.

Lemma insert_char_run s n c0 r l i c : editing s n c0 r l i → c ≠ 10 → c0 + length l + 1 < n → length l + 3 < KS_MAX →
  (i < length l → length l + 2 ≤ ks_capacity (tty_buffer (t_tty s))) →
  wp (insert_char c) False (λ _ s', editing s' n c0 r (ins l i c) (i + 1)) s.
Proof.
  intros [Hk Hmax [Hidx Hi] (Hc0 & Hfit & Hn & Hr & Hr2) Hch (page & Hp & Hrow)] Hc Hroom Hmax' Hcap.
  unfold insert_char, index. apply wp_gets. rewrite Hidx. apply wp_bind, wp_on_line.
  eapply wp_mono; [apply (wp_ks_insert_any _ l); [done|lia|lia|done]|done|].
  intros [] k Hk'. unfold inserted in Hk'. rewrite (proj2 (Z.leb_le _ _)) in Hk' by lia. fold (ins l i c) in Hk'.
  assert (length (ins l i c) = S (length l)) as Hlen by (unfold ins; rewrite length_app, length_take; cbn; rewrite length_drop; lia).
  rewrite wrap_small by (unfold is_word, KS_MAX in *; lia).
  apply wp_bind, wp_set_index. cbn [t_tty with_tty with_line with_index tty_buffer].
  apply wp_bind. eapply erase_rest_run; [exact Hp|done|]. intros con Hcon.
  apply wp_bind, wp_on_con. eapply put_on_page; [exact Hcon|done|lia|done|]. intros con' Hcon'.
  eapply (rest_run _ n c0 r (ins l i c) (i + 1)); cbn [t_tty with_con with_tty with_line with_index tty_buffer buffer_index].
  - done.
  - lia.
  - lia.
  - lia.
  - unfold ins. apply Forall_app. split; [by apply Forall_take|]. constructor; [done|by apply Forall_drop].
  - by rewrite Z.add_assoc.
  - intros x Hx. unfold put_at_page, erase_page, ins. replace (Z.to_nat (i + 1)) with (S (Z.to_nat i)) by lia.
    rewrite firstn_app, length_take, (take_ge (take _ _)) by (rewrite length_take; lia).
    replace (S (Z.to_nat i) - Z.to_nat i `min` length l)%nat with 1%nat by lia. cbn [take firstn].
    destruct (decide (r = r ∧ x = c0 + i)) as [[_ ->]|Hne].
    + rewrite lookup_app_r by (rewrite length_take; lia). rewrite length_take.
      by replace (Z.to_nat (c0 + i - c0) - Z.to_nat i `min` length l)%nat with 0%nat by lia.
    + destruct (decide (r = r ∧ c0 + i ≤ x < n)) as [Hd|Hd].
      * rewrite lookup_ge_None_2; [done|]. rewrite length_app, length_take. rewrite take_0. cbn [length]. lia.
      * rewrite Hrow by lia. rewrite lookup_app_l by (rewrite length_take; lia). by rewrite lookup_take_lt by lia.
  - intros con2 He. by destruct s as [[] ? ? ?].
Qed.

Lemma del_chars l i : Forall (λ c, c ≠ 10) l → Forall (λ c, c ≠ 10) (del l i).
Proof. intros H. unfold del. by apply Forall_delete. Qed.

Lemma erase_char_run k l (i : Z) : ks_ok k l → length l + 2 < KS_MAX → 0 ≤ i < length l →
  wp (ks_erase i) False (λ _ k', ks_ok k' (del l i)) k.
Proof.
  intros Hk Hmax Hi. destruct (lookup_lt_is_Some_2 l (Z.to_nat i)) as [x Hx]; [lia|].
  apply list_elem_of_split_length in Hx as (l1 & l2 & -> & Hlen). unfold del. rewrite Hlen, delete_middle.
  replace i with (Z.of_nat (length l1)) by lia. rewrite length_app in Hmax. cbn [length] in Hmax.
  apply (wp_ks_erase _ l1 x l2); [done|lia].
Qed.

Lemma del_length l (i : Z) : 0 ≤ i < length l → length (del l i) = (length l - 1)%nat.
Proof. intros Hi. unfold del. rewrite length_delete by (apply lookup_lt_is_Some_2; lia). lia. Qed.

(** The characters before a deleted one stay. *)
Lemma del_prefix page r c0 n l i : 0 ≤ i < length l → c0 + length l < n → row_shows page r c0 n l → prefix_shown page r c0 (del l i) i.
Proof. intros Hi Hn Hrow x Hx. rewrite Hrow by lia. unfold del. by rewrite list_lookup_delete_lt by lia. Qed.

Lemma delete_forward_run s n c0 r l i : editing s n c0 r l i →
  wp delete_forward False (λ _ s', editing s' n c0 r (if i =? length l then l else del l i) i) s.
Proof.
  intros He. pose proof He as [Hk Hmax [Hidx Hi] (Hc0 & Hfit & Hn & Hr & Hr2) Hch (page & Hp & Hrow)].
  unfold delete_forward, index, line_size. apply wp_gets, wp_gets. rewrite Hidx, (ks_rep_length _ _ (ks_ok_rep _ _ Hk)).
  destruct (Z.eqb_spec i (length l)) as [|Hne]; [by apply wp_ret|]. apply wp_bind, wp_on_line.
  eapply wp_mono; [apply (erase_char_run _ l); [done..|lia]|done|]. intros [] k Hk'.
  pose proof (del_length l i ltac:(lia)) as Hlen.
  eapply (redisplay_run _ n c0 r (del l i) i page); cbn [t_tty t_con with_con with_tty with_line with_index tty_buffer buffer_index]; try done; try lia.
  - by apply del_chars.
  - by eapply del_prefix; [lia| |].
Qed.

Lemma delete_back_run s n c0 r l i : editing s n c0 r l i →
  wp delete_back False (λ _ s', editing s' n c0 r (if i =? 0 then l else del l (i - 1)) (if i =? 0 then 0 else i - 1)) s.
Proof.
  intros He. pose proof He as [Hk Hmax [Hidx Hi] (Hc0 & Hfit & Hn & Hr & Hr2) Hch (page & Hp & Hrow)].
  unfold delete_back, index. apply wp_gets. rewrite Hidx.
  destruct (Z.eqb_spec i 0) as [->|Hne]; [by apply wp_ret|]. apply wp_bind, wp_on_line.
  eapply wp_mono; [apply (erase_char_run _ l); [done..|lia]|done|]. intros [] k Hk'.
  pose proof (del_length l (i - 1) ltac:(lia)) as Hlen.
  apply wp_bind, wp_set_index. cbn [t_tty t_con with_tty with_line with_index tty_buffer].
  apply wp_bind, wp_on_con. eapply move_on_page; [exact Hp|lia|done|]. intros con Hcon.
  eapply (redisplay_run _ n c0 r (del l (i - 1)) (i - 1) page);
    cbn [t_tty t_con with_con with_tty with_line with_index tty_buffer buffer_index]; try done; try lia.
  - by apply del_chars.
  - by replace (c0 + i + -1) with (c0 + (i - 1)) in Hcon by lia.
  - by eapply del_prefix; [lia| |].
Qed.
(** Moving the cursor inside the line. *)
Lemma move_run s n c0 r l i j d E (Q : unit → terminal → Prop) : editing s n c0 r l i → 0 ≤ j ≤ length l → d = j - i →
  (∀ con, editing (with_con con (with_tty (with_index j (t_tty s)) s)) n c0 r l j →
    Q () (with_con con (with_tty (with_index j (t_tty s)) s))) →
  wp (_ ← set_index j; on_con (move_cursor d 0)) E Q s.
Proof.
  intros [Hk Hmax [Hidx Hi] (Hc0 & Hfit & Hn & Hr & Hr2) Hch (page & Hp & Hrow)] Hj -> HQ.
  apply wp_bind, wp_set_index, wp_on_con. cbn [t_con with_tty].
  eapply move_on_page; [exact Hp|lia|done|]. intros con Hcon. apply HQ. split; try done.
  exists page. by replace (c0 + j) with (c0 + i + (j - i)) by lia.
Qed.

(** The order of the two steps does not matter. *)
Lemma move_then_index_run s n c0 r l i j : editing s n c0 r l i → 0 ≤ j ≤ length l →
  wp (_ ← on_con (move_cursor (j - i) 0); set_index j) False (λ _ s', editing s' n c0 r l j) s.
Proof.
  intros [Hk Hmax [Hidx Hi] (Hc0 & Hfit & Hn & Hr & Hr2) Hch (page & Hp & Hrow)] Hj.
  apply wp_bind, wp_on_con. eapply move_on_page; [exact Hp|lia|done|]. intros con Hcon. apply wp_set_index. split; try done.
  exists page. by replace (c0 + j) with (c0 + i + (j - i)) by lia.
Qed.

Lemma move_left_run s n c0 r l i : editing s n c0 r l i →
  wp move_left False (λ _ s', editing s' n c0 r l (Z.max 0 (i - 1))) s.
Proof.
  intros He. pose proof (ed_index _ _ _ _ _ _ He) as [Hidx Hi]. unfold move_left, index. apply wp_gets. rewrite Hidx.
  destruct (Z.ltb_spec 0 i).
  - rewrite Z.max_r by lia. by eapply (move_run _ _ _ _ l i (i - 1)); [|lia..|].
  - apply wp_ret. by replace (Z.max 0 (i - 1)) with i by lia.
Qed.

Lemma move_right_run s n c0 r l i : editing s n c0 r l i →
  wp move_right False (λ _ s', editing s' n c0 r l (Z.min (length l) (i + 1))) s.
Proof.
  intros He. pose proof He as [Hk _ [Hidx Hi] _ _ _]. unfold move_right, index, line_size. apply wp_gets, wp_gets.
  rewrite Hidx, (ks_rep_length _ _ (ks_ok_rep _ _ Hk)). destruct (Z.ltb_spec i (length l)).
  - rewrite Z.min_r by lia. by eapply (move_run _ _ _ _ l i (i + 1)); [|lia..|].
  - apply wp_ret. by replace (Z.min (length l) (i + 1)) with i by lia.
Qed.

Lemma move_to_start_run s n c0 r l i : editing s n c0 r l i → wp move_to_start False (λ _ s', editing s' n c0 r l 0) s.
Proof.
  intros He. pose proof He as [_ _ [Hidx Hi] Hf _ _]. unfold move_to_start, index. apply wp_gets. rewrite Hidx.
  destruct (Z.eqb_spec i 0) as [->|]; [by apply wp_ret|].
  rewrite to_int_fits by lia. replace (- i) with (0 - i) by lia. by apply (move_then_index_run _ _ _ _ l); [|lia].
Qed.

Lemma move_to_end_run s n c0 r l i : editing s n c0 r l i → wp move_to_end False (λ _ s', editing s' n c0 r l (length l)) s.
Proof.
  intros He. pose proof He as [Hk _ [Hidx Hi] Hf _ _]. unfold move_to_end, index, line_size. apply wp_gets, wp_gets.
  rewrite Hidx, (ks_rep_length _ _ (ks_ok_rep _ _ Hk)). destruct (Z.eqb_spec i (length l)) as [->|]; [by apply wp_ret|].
  rewrite to_int_fits by lia. by apply (move_then_index_run _ _ _ _ l); [|lia].
Qed.

Lemma delete_to_end_run s n c0 r l i : editing s n c0 r l i →
  wp delete_to_end False (λ _ s', editing s' n c0 r (take (Z.to_nat i) l) i) s.
Proof.
  intros He. pose proof He as [Hk Hmax [Hidx Hi] (Hc0 & Hfit & Hn & Hr & Hr2) Hch (page & Hp & Hrow)].
  unfold delete_to_end, index. apply wp_gets. rewrite Hidx. apply wp_bind, wp_on_line.
  eapply wp_mono; [apply (wp_ks_truncate _ l); [done|lia]|done|]. intros [] k Hk'.
  eapply erase_rest_run; [exact Hp|done|]. intros con Hcon.
  split; cbn [t_tty t_con with_con with_tty with_line tty_buffer buffer_index]; rewrite ?length_take; try done; try lia.
  - by apply Forall_take.
  - exists (erase_page page r (c0 + i) n). split; [done|]. intros x Hx. unfold erase_page. case_decide.
    + rewrite lookup_ge_None_2; [done|]. rewrite length_take. lia.
    + rewrite Hrow, lookup_take_lt by lia. done.
Qed.

(** ** Keys *)

(** The editing keys, and what each means on a line with a cursor before its [i]-th character. *)
Inductive edit := Type_ (c : Z) | Rub | Cut | Left | Right | Home | End_ | Kill.

Definition edit_line (o : edit) (t : list Z * Z) : list Z * Z :=
  let '(l, i) := t in
  match o with
  | Type_ c => (take (Z.to_nat i) l ++ c :: drop (Z.to_nat i) l, i + 1)
  | Rub => if i =? 0 then (l, i) else (take (Z.to_nat (i - 1)) l ++ drop (Z.to_nat i) l, i - 1)
  | Cut => (take (Z.to_nat i) l ++ drop (Z.to_nat (i + 1)) l, i)
  | Left => (l, Z.max 0 (i - 1))
  | Right => (l, Z.min (length l) (i + 1))
  | Home => (l, 0)
  | End_ => (l, Z.of_nat (length l))
  | Kill => (take (Z.to_nat i) l, i)
  end.

(** The key for each, whatever else is held.  [process_key] looks at the scan code first, then at the extended
    one. *)
Definition ascii_of (e : KeyEvent) : Z := scancode_to_ascii (scancode e) (ev_shift_held e || ev_caps_lock_on e).
Definition extended_key (e : KeyEvent) (ex : Z) : Prop :=
  ev_control_held e = false ∧ ascii_of e = 0 ∧ (scancode e ≠ ScanCode.Backspace ∧ scancode e ≠ ScanCode.Enter) ∧ extended_scancode e = ex.
Definition ctrl_key (e : KeyEvent) (sc : Z) : Prop := ev_control_held e = true ∧ scancode e = sc.

Definition key_for (e : KeyEvent) (o : edit) : Prop :=
  match o with
  | Type_ c => ev_control_held e = false ∧ ascii_of e = c ∧ c ≠ 0
  | Rub => ev_control_held e = false ∧ scancode e = ScanCode.Backspace
  | Cut => extended_key e ExtendedScanCode.Delete ∨ ctrl_key e ScanCode.D
  | Left => extended_key e ExtendedScanCode.LeftArrow ∨ ctrl_key e ScanCode.B
  | Right => extended_key e ExtendedScanCode.RightArrow ∨ ctrl_key e ScanCode.F
  | Home => ctrl_key e ScanCode.A
  | End_ => ctrl_key e ScanCode.E
  | Kill => ctrl_key e ScanCode.K
  end.

(** The row has room for the line after the key. *)
Definition row_room (n c0 : Z) l (o : edit) : Prop :=
  match o with Type_ _ => c0 + length l + 1 < n | _ => True end.

(** The key makes [kstring::insert] write past its memory: a character is typed before the end of a line whose
    memory has room for the characters and the terminator only. *)
Definition overruns s l (i : Z) (o : edit) : bool :=
  match o with Type_ _ => (i <? length l) && (ks_capacity (tty_buffer (t_tty s)) <? length l + 2) | _ => false end.

Lemma ascii_not_newline code caps : scancode_to_ascii code caps ≠ 10.
Proof.
  unfold scancode_to_ascii. destruct (128 <=? wrap 8 code); [done|].
  assert (Forall (λ a, a ≠ 10) scancode_to_ascii_table) as Htab by by repeat constructor.
  set (a := nth (Z.to_nat (wrap 8 code)) scancode_to_ascii_table 0).
  assert (a ≠ 10) as Ha.
  { unfold a. destruct (nth_in_or_default (Z.to_nat (wrap 8 code)) scancode_to_ascii_table 0) as [Hin| ->]; [|done].
    apply list_elem_of_In in Hin. exact (proj1 (list.Forall_forall _ _) Htab _ Hin). }
  clearbody a. destruct caps, (Z.leb_spec 97 a), (Z.leb_spec a 122); cbn [andb]; lia.
Qed.

Lemma del_cuts l (i : Z) : 0 ≤ i → del l i = take (Z.to_nat i) l ++ drop (Z.to_nat (i + 1)) l.
Proof. intros Hi. unfold del. rewrite delete_take_drop. by replace (S (Z.to_nat i)) with (Z.to_nat (i + 1)) by lia. Qed.

(** Each key runs the operation of the editor it stands for. *)
Definition edit_op (o : edit) : M terminal unit :=
  match o with
  | Type_ c => insert_char c
  | Rub => delete_back
  | Cut => delete_forward
  | Left => move_left
  | Right => move_right
  | Home => move_to_start
  | End_ => move_to_end
  | Kill => delete_to_end
  end.

Lemma backspace_ascii caps : scancode_to_ascii ScanCode.Backspace caps = 0.
Proof. by destruct caps. Qed.

Lemma key_for_op e o : key_for e o → process_key e = edit_op o.
Proof.
  intros Hk. unfold process_key. fold (ascii_of e). destruct o; cbn [key_for edit_op] in *; unfold extended_key, ctrl_key in Hk.
  - destruct Hk as (-> & -> & Hc). by rewrite (proj2 (Z.eqb_neq _ _) Hc).
  - destruct Hk as [-> Hs]. unfold ascii_of. rewrite Hs, backspace_ascii. done.
  - destruct Hk as [(-> & -> & [Hs _] & ->)|[-> ->]]; [|done]. by rewrite (proj2 (Z.eqb_neq _ _) Hs).
  - destruct Hk as [(-> & -> & [Hs _] & ->)|[-> ->]]; [|done]. by rewrite (proj2 (Z.eqb_neq _ _) Hs).
  - destruct Hk as [(-> & -> & [Hs _] & ->)|[-> ->]]; [|done]. by rewrite (proj2 (Z.eqb_neq _ _) Hs).
  - by destruct Hk as [-> ->].
  - by destruct Hk as [-> ->].
  - by destruct Hk as [-> ->].
Qed.

Lemma edit_op_run s n c0 r l i o : editing s n c0 r l i → row_room n c0 l o → overruns s l i o = false → length l + 3 < KS_MAX →
  (∀ c, o = Type_ c → c ≠ 10) →
  wp (edit_op o) False (λ _ s', editing s' n c0 r (edit_line o (l, i)).1 (edit_line o (l, i)).2) s.
Proof.
  intros Hed Hroom Hov Hmax Hnl. pose proof (ed_index _ _ _ _ _ _ Hed) as [_ Hi]. destruct o; cbn [edit_op].
  - apply insert_char_run; [done|by apply Hnl|done|done|]. cbn [overruns] in Hov. lia.
  - eapply wp_mono; [by apply (delete_back_run _ n c0 r l i)|done|]. intros [] s' H. cbn.
    destruct (Z.eqb_spec i 0) as [->|]; [done|]. rewrite del_cuts in H by lia. by replace (i - 1 + 1) with i in H by lia.
  - eapply wp_mono; [by apply (delete_forward_run _ n c0 r l i)|done|]. intros [] s' H. cbn [edit_line fst snd]. rewrite <- del_cuts by lia.
    destruct (Z.eqb_spec i (length l)); [|done]. rewrite del_cuts, take_ge, drop_ge, app_nil_r by lia. done.
  - by apply move_left_run.
  - by apply move_right_run.
  - by apply (move_to_start_run _ _ _ _ l i).
  - by apply (move_to_end_run _ _ _ _ l i).
  - by apply delete_to_end_run.
Qed.

Lemma edit_op_overruns s n c0 r l i o : editing s n c0 r l i → length l + 3 < KS_MAX → overruns s l i o = true → edit_op o s = Fault.
Proof.
  intros [Hk Hmax [Hidx Hi] _ _ _] Hm Hov. destruct o as [c| | | | | | |]; try done. cbn [edit_op overruns] in *.
  unfold insert_char, index. rewrite (bind_ok (gets _) _ s s i) by (unfold gets; by rewrite Hidx).
  pose proof (ks_insert_result _ l i c Hk) as H. cbn [kop_operand kop_result] in H. rewrite Hov in H. cbn [comes_out] in H.
  unfold on_line, on_tty, zoom, mbind, M_bind. by rewrite H by (split; lia).
Qed.
End editor.

(** C20: the line editor.  Take a terminal whose line [l] fits into its row of the console's text buffer, with the
    cursor before its [i]-th character and the row in the viewport, and press one of the editing keys, with
    whatever modifiers; a character is typed where the row has room for it.  If the character goes before
    the end of a line whose memory holds no byte more than the characters and the terminator, the handler
    writes past that memory.  Otherwise it returns; the line and its cursor are what the key does to a text
    with a cursor in it; the row of the text buffer holds the new line and blanks behind it; and the cursor
    of the console stands at the cursor of the line. *)
Theorem editing_key_edits_line (s : terminal) (n c0 r : Z) (l : list Z) (i : Z) (e : KeyEvent) (o : edit) :
  key_for e o → editing s n c0 r l i → row_room n c0 l o → Z.of_nat (length l) + 3 < KS_MAX →
  if overruns s l i o then process_key e s = Fault
  else ∃ s', process_key e s = Ok (s', ()) ∧ editing s' n c0 r (edit_line o (l, i)).1 (edit_line o (l, i)).2.
Proof.
  intros He Hed Hroom Hmax. rewrite (key_for_op e o He). destruct (overruns s l i o) eqn:Hov; [by eapply edit_op_overruns|].
  destruct (wp_total _ _ _ (edit_op_run s n c0 r l i o Hed Hroom Hov Hmax ltac:(by intros c ->; destruct He as (_ & <- & _); apply ascii_not_newline))) as (s' & [] & H1 & H2).
  by exists s'.
Qed.

(** A screen of seven columns that shows a prompt and the line "ab", with the cursor between the two. *)
Definition demo_text : M console unit := _ ← put_char 62; _ ← put_char 97; _ ← put_char 98; move_cursor (-1) 0.
Definition demo_page : Z → Z → Z := put_at_page (put_at_page (put_at_page (λ _ _, 32) 0 0 62) 0 1 97) 0 2 98.
Definition demo_line (spare : nat) (con : console) : terminal :=
  mk_terminal (mk_DevTty (str [97; 98] (Some 0 :: replicate spare None)) [] 1 0) con keyboard0 demo_user.

(** The state a run ends in. *)
Definition ran (m : M console unit) (s : console) : console := match m s with Ok (s', _) => s' | _ => s end.
Lemma ran_wp (m : M console unit) (s : console) (P : console → Prop) : wp m False (λ _ s', P s') s → P (ran m s).
Proof. unfold wp, ran. by destruct (m s) as [[]| | |]. Qed.

(** The screen is exactly seven characters wide and two high. *)
Definition demo_terminal (spare : nat) : terminal := demo_line spare (ran demo_text (demo_screen 56 32)).

Lemma demo_text_run s : con_ready s → screen_cols s = 7 ∧ cursor_col s = 0 ∧ cursor_row s = 0 → buffer s = [] →
  wp demo_text False (λ _ con, on_page con 7 2 0 demo_page) s.
Proof.
  intros Hready Hs Hb. unfold demo_text. apply wp_bind. apply (put_on_ready _ 7 0 0 (λ _ _, 32)); [done..| |done|done|done|].
  { intros y x _ _. unfold text_at. by rewrite Hb. }
  intros s1 H1. apply wp_bind. eapply put_on_page; [exact H1|done..|]. intros s2 H2.
  apply wp_bind. eapply put_on_page; [exact H2|done..|]. intros s3 H3.
  eapply move_on_page; [exact H3|done..|]. by intros s4 H4.
Qed.

Lemma demo_screen_text : wp demo_text False (λ _ con, on_page con 7 2 0 demo_page) (demo_screen 56 32).
Proof.
  assert (con_ready (demo_screen 56 32)) as Hready.
  { pose proof (demo_memory 7168) as H. split_and!; [|done..]. split; [split; try done; exact H|..]; done. }
  exact (demo_text_run (demo_screen 56 32) Hready (conj eq_refl (conj eq_refl eq_refl)) eq_refl).
Qed.

Lemma demo_line_editing spare con : on_page con 7 2 0 demo_page → editing (demo_line spare con) 7 1 0 [97; 98] 1.
Proof.
  intros Hp. split; [right; by eexists|done|done|done|by repeat constructor|]. exists demo_page. split; [done|].
  intros x Hx. assert (x ∈ seqZ 1 6) as Hin by (apply elem_of_seqZ; lia). clear Hx. revert x Hin.
  apply list.Forall_forall. by repeat constructor.
Qed.

Lemma demo_editing spare : editing (demo_terminal spare) 7 1 0 [97; 98] 1.
Proof. apply demo_line_editing. apply (ran_wp demo_text (demo_screen 56 32)). exact demo_screen_text. Qed.

(** An x typed with the caps lock on, while the line has memory to spare and while it has not. *)
Lemma editing_key_edits_line_witness : let e := mk_KeyEvent 45 0 false false false false true in
  (∃ s', process_key e (demo_terminal 13) = Ok (s', ()) ∧ editing s' 7 1 0 [97; 88; 98] 2) ∧
  process_key e (demo_terminal 0) = Fault.
Proof.
  intros e. split.
  - apply (editing_key_edits_line (demo_terminal 13) 7 1 0 [97; 98] 1 e (Type_ 88)); [done|apply demo_editing|done|done].
  - apply (editing_key_edits_line (demo_terminal 0) 7 1 0 [97; 98] 1 e (Type_ 88)); [done|apply demo_editing|done|done].
Defined.
