(* ===== verification/Initramfs.v ===== *)
(** * Initial file system

    [src/kernel/lib/fs/initramfs]: the tar archive the boot loader leaves in memory becomes the root file
    system ([initramfs.cpp]), and the older reader of such archives ([tar.cpp]).  The archive is read-only
    memory [image]; a read outside it is a [Fault].  The walk over the headers takes fuel: the sizes in the
    archive decide how far each step goes, and a bad one can keep the walk in place. *)

From Stdlib Require Import String Ascii.
From S2P Require Import Prelude KVector KString Algo Crt Fmt UserMem Vfs.

(** Offsets of the members of [TarHeader] that are read. *)
Definition TAR_SIZE : Z := 124.
Definition TAR_TYPEFLAG : Z := 156.
Definition TAR_PREFIX : Z := 345.
Definition TYPEFLAG_DIR : Z := 53.
Definition DOT : Z := 46.

Section reader.
Context {S : Type}.
Variable image : mem.

(** Reading the archive. *)
Definition image_byte (a : Z) : M S Z := of_option (image !! a).

Fixpoint image_cstr (fuel : nat) (a : Z) : M S (list Z) :=
  b ← image_byte a;
  if b =? 0 then mret [] else
  match fuel with O => hang | Datatypes.S fuel' => l ← image_cstr fuel' (a + 1); mret (b :: l) end.
Definition image_string (a : Z) : M S (list Z) := image_cstr (size image) a.

(** The bytes that can be read from [a] on, at most [n]. *)
Fixpoint image_bytes (n : nat) (a : Z) : list Z :=
  match n with
  | O => []
  | Datatypes.S n' => match image !! a with Some b => b :: image_bytes n' (a + 1) | None => [] end
  end.

(** [fmt::parse_uint(header->size, 12, OCT)]. *)
Definition header_size (header : Z) : M S Z := of_option (parse_uint (image_bytes 12 (header + TAR_SIZE)) 12 OCT).
Definition num_blocks_of (size : Z) : Z := wrap64 (size + 511) / 512.

(** [addr + 512 + (num_blocks * 512)]. *)
Definition next_header (addr num_blocks : Z) : Z := wrap64 (addr + wrap64 (512 + wrap64 (num_blocks * 512))).

Definition is_empty_header (header : Z) : M S bool := b ← image_byte header; mret (b =? 0).
End reader.

(** ** [initramfs.cpp] *)

Section initramfs.
Variable new_addr : vfs → Z.
Variable uninit : Z → Z.
Variable image : mem.

(** [new InitramfsDirectoryInode{mp}] and [new InitramfsFileInode{mp, data}]. *)
Definition new_initramfs_dir (mp : Z) : M vfs Z :=
  new_inode new_addr (λ p, mk_Inode mp (uninit p) (uninit p) 0 DIRECTORY [] (InitramfsDirectoryInode [])).
Definition new_initramfs_file (mp data : Z) : M vfs Z :=
  new_inode new_addr (λ p, mk_Inode mp (uninit p) (uninit p) (uninit p) REGULAR [] (InitramfsFileInode data)).

Definition with_ino (n : Z) (i : Inode) : Inode :=
  mk_Inode (i_mountpoint i) (i_parent i) n (i_size i) (i_type i) (i_name i) (i_class i).

(** [next_ino++] of the mount point. *)
Definition initramfs_next_ino (mp : Z) : M vfs Z :=
  m ← mount_point mp;
  match mp_class m with
  | InitramfsMountPoint n =>
      _ ← set_mount mp (λ m, mk_MountPoint (mp_path m) (mp_mounted_on m) (mp_root m) (InitramfsMountPoint (n + 1)));
      mret n
  | _ => fault
  end.

(** [current->lookup] where [current] is trusted to be a directory of this file system. *)
Definition initramfs_lookup (current : Z) (name : list Z) : M vfs Z :=
  i ← inode current;
  match i_class i with InitramfsDirectoryInode cs => find_child cs name | _ => fault end.

Definition initramfs_push (current c : Z) : M vfs unit :=
  i ← inode current;
  match i_class i with InitramfsDirectoryInode _ => push_child current c | _ => fault end.

(** The directories on the way to the new entry, made where they are missing. *)
Fixpoint make_dirs (mp : Z) (tokens : list (list Z)) (current : Z) : M vfs Z :=
  match tokens with
  | [] => mret current
  | token :: rest =>
      existing ← initramfs_lookup current (c_str token);
      if negb (existing =? 0) then make_dirs mp rest existing else
      dir ← new_initramfs_dir mp;
      ino ← initramfs_next_ino mp;
      _ ← set_inode dir (with_ino ino);
      _ ← set_inode dir (with_parent current);
      _ ← set_inode dir (with_name token);
      _ ← initramfs_push current dir;
      make_dirs mp rest dir
  end.

(** Without a token, [tokens.size() - 1] wraps and the loop reads [tokens[0]] of an empty vector. *)
Definition insert_inode (mp : Z) (path : list Z) (p : Z) : M vfs unit :=
  m ← mount_point mp;
  let tokens := split_spec SLASH path in
  last ← of_option (last tokens);
  current ← make_dirs mp (removelast tokens) (mp_root m);
  _ ← set_inode p (with_parent current);
  _ ← set_inode p (with_name last);
  initramfs_push current p.

(** The address of the name to insert, unless the header is skipped. *)
Definition entry_name (addr : Z) : M vfs (option Z) :=
  empty ← is_empty_header image addr;
  if (empty : bool) then mret None else
  c0 ← image_byte image addr;
  if c0 =? DOT then
    c1 ← image_byte image (addr + 1);
    if c1 =? 0 then mret None else
    let filename := if c1 =? SLASH then addr + 2 else addr in
    c ← image_byte image filename;
    mret (if c =? 0 then None else Some filename)
  else mret (Some addr).

Definition new_entry (mp addr size : Z) : M vfs Z :=
  flag ← image_byte image (addr + TAR_TYPEFLAG);
  if flag =? TYPEFLAG_DIR then
    p ← new_initramfs_dir mp;
    ino ← initramfs_next_ino mp;
    _ ← set_inode p (with_ino ino);
    mret p
  else
    p ← new_initramfs_file mp (addr + 512);
    _ ← set_inode p (with_size size);
    ino ← initramfs_next_ino mp;
    _ ← set_inode p (with_ino ino);
    mret p.

Fixpoint parse_loop (fuel : nat) (mp addr end_ : Z) : M vfs unit :=
  if negb (addr <? end_) then mret () else
  match fuel with
  | O => hang
  | S fuel' =>
      size ← header_size image addr;
      name ← entry_name addr;
      _ ← match name with
          | None => mret ()
          | Some filename =>
              p ← new_entry mp addr size;
              path ← image_string image filename;
              insert_inode mp path p
          end;
      parse_loop fuel' mp (next_header addr (num_blocks_of size)) end_
  end.

Definition parse_tar_headers (fuel : nat) (mp tar_buffer tar_size : Z) : M vfs unit :=
  root ← new_initramfs_dir mp;
  _ ← set_mount mp (λ m, mk_MountPoint (mp_path m) (mp_mounted_on m) root (mp_class m));
  ino ← initramfs_next_ino mp;
  _ ← set_inode root (with_ino ino);
  _ ← set_inode root (with_parent 0);
  parse_loop fuel mp tar_buffer (wrap64 (tar_buffer + tar_size)).

(** [new InitramfsMountPoint{buffer, size}]. *)
Definition new_initramfs (fuel : nat) (buffer size : Z) : M vfs Z :=
  mp ← new_mount new_addr (λ p, mk_MountPoint [] (uninit p) (uninit p) (InitramfsMountPoint 1));
  _ ← parse_tar_headers fuel mp buffer size;
  mret mp.

(** [boot::init_modules]: every module is taken for an archive and registered at the root. *)
Definition init_modules (fuel : nat) (modules : list (Z * Z)) : M vfs unit :=
  for_each modules (λ '(addr, size),
    mp ← new_initramfs fuel addr size;
    register_mount (lit "/") mp).
End initramfs.

(** ** [tar.cpp] *)

Record TarMeta := mk_TarMeta {
  tm_header : Z;
  tm_data : Z;
  tm_size_bytes : Z;
  tm_num_blocks : Z;
  tm_filename_str : list Z;
}.

Section tar.
Variable image : mem.

(** The name of a member: [prefix + 2], a slash and the name, or [name + 2]; without a trailing slash.
    [back] of an empty string reads outside its buffer. *)
Definition tar_filename (header : Z) : M (list TarMeta) (list Z) :=
  pre ← image_byte image (header + TAR_PREFIX);
  filename ← (if negb (pre =? 0) then
                p ← image_string image (header + TAR_PREFIX + 2);
                n ← image_string image header;
                mret (p ++ [SLASH] ++ n)
              else image_string image (header + 2));
  b ← of_option (last filename);
  mret (if b =? SLASH then removelast filename else filename).

(** The recursion over the members; [header] is never null past the first one. *)
Fixpoint parse_headers (fuel : nat) (addr : Z) : M (list TarMeta) unit :=
  if addr =? 0 then mret () else
  empty ← is_empty_header image addr;
  if (empty : bool) then mret () else
  match fuel with
  | O => hang
  | S fuel' =>
      filename ← tar_filename addr;
      size ← header_size image addr;
      let num_blocks := num_blocks_of size in
      let data := if 0 <? size then addr + 512 else 0 in
      _ ← modify (λ metas, metas ++ [mk_TarMeta addr data size num_blocks filename]);
      parse_headers fuel' (next_header addr num_blocks)
  end.

Definition tar_read (m : TarMeta) (buffer count offset : Z) : M mem Z :=
  _ ← memcpy buffer (tm_data m + offset) count; mret count.

(** The index of the first member of that name; [nullptr] is [None]. *)
Definition tar_find (filename : list Z) (metas : list TarMeta) : option nat :=
  fst <$> list_find (λ m, tm_filename_str m = filename) metas.

(** The members that are listed for [dir], by their indices. *)
Definition tar_listed (dir : list Z) (m : TarMeta) : bool :=
  let filename := tm_filename_str m in
  bool_decide (dir `prefix_of` filename) && negb (bool_decide (dir = filename)) &&
  let dir_count := length (filter (λ c, c = SLASH) (drop (length dir) filename)) in
  negb (bool_decide (dir = []) && (0 <? dir_count)%nat) && negb (1 <? dir_count)%nat.
Definition tar_list (dir : list Z) (metas : list TarMeta) : list TarMeta := filter (λ m, tar_listed dir m = true) metas.
End tar.
