(* ===== verification/InitramfsProofs.v ===== *)
(** * The initial file system is the archive

    Unpacking an archive builds the tree its members describe: an abstract map from paths to directories and
    files, computed by [unpack], is what the file system represents afterwards. *)

From Stdlib Require Import String Ascii.
From S2P Require Import Prelude KVector KString Algo Crt Fmt UserMem Vfs VfsProofs Initramfs.

#[local] Coercion Z.of_nat : nat >-> Z.

(** ** Changes to a mount point that do not matter *)

Section similar.
Implicit Types (s : vfs) (m : MountPoint).

Record similar s s' : Prop := {
  si_inodes : inodes s' = inodes s;
  si_mounts mp : option_Forall2 same_mount (mounts s !! mp) (mounts s' !! mp);
  si_root : g_root_mountpoint s' = g_root_mountpoint s ∧ g_mountpoints s' = g_mountpoints s;
}.

Lemma same_mount_sym m m' : same_mount m m' → same_mount m' m.
Proof. intros (? & ? & H). split_and!; [done..|]. naive_solver. Qed.

Lemma similar_sym s s' : similar s s' → similar s' s.
Proof.
  intros [H1 H2 [H3 H4]]. split; [done| |done]. intros mp. destruct (H2 mp); constructor. by apply same_mount_sym.
Qed.

Lemma similar_mount s s' mp m : similar s s' → mounts s !! mp = Some m → ∃ m', mounts s' !! mp = Some m' ∧ same_mount m m'.
Proof. intros H Hm. pose proof (si_mounts _ _ H mp) as H2. rewrite Hm in H2. inversion H2; subst. by eauto. Qed.

Lemma similar_mounted s s' mp m : similar s s' → mounted s mp m → ∃ m', mounted s' mp m' ∧ same_mount m m'.
Proof.
  intros H [Hin Hm]. destruct (similar_mount _ _ _ _ H Hm) as (m' & Hm' & Hs). exists m'. split; [split; [|done]|done].
  by rewrite (proj2 (si_root _ _ H)).
Qed.

Lemma similar_child s s' d n c : similar s s' → child s d n c → child s' d n c.
Proof.
  intros H. pose proof (si_inodes _ _ H) as Hi. intros [i cs j|i m null tty1 tty2 Hd Hk Hm Hc Hin|i m self Hd Hk Hm Hc Hn Hs].
  - eapply child_listed; rewrite ?Hi; done.
  - destruct (similar_mount _ _ _ _ H Hm) as (m' & Hm' & _ & _ & [Hs|(? & ? & [[]|[]])]); [|congruence..].
    apply (child_dev _ _ _ _ i m' null tty1 tty2); rewrite ?Hi; [done..|congruence|done].
  - destruct (similar_mount _ _ _ _ H Hm) as (m' & Hm' & _ & _ & [Hs'|(? & ? & [[]|[]])]); [|congruence..].
    apply (child_proc _ _ _ _ i m' self); rewrite ?Hi; [done..|congruence|done|done].
Qed.

Lemma similar_wf s s' : similar s s' → vfs_wf s → vfs_wf s'.
Proof.
  intros H W. pose proof (similar_sym _ _ H) as H'. pose proof (si_inodes _ _ H) as Hi. destruct (si_root _ _ H) as [Hr Hg].
  split; rewrite ?Hi, ?Hr, ?Hg.
  - destruct (wf_null _ W) as [? Hm]. split; [done|]. pose proof (si_mounts _ _ H 0) as H2. rewrite Hm in H2. by inversion H2.
  - destruct (wf_root _ W) as (m & Hm & Hon). destruct (similar_mounted _ _ _ _ H Hm) as (m' & Hm' & Hon' & _).
    exists m'. split; [done|congruence].
  - intros mp Hin. destruct (wf_mount _ W mp Hin) as (m & r & Hm & Hr' & Hrest).
    destruct (similar_mount _ _ _ _ H Hm) as (m' & Hm' & Hon & Hroot & _). exists m', r. rewrite Hroot, Hon. by split.
  - intros mp mp' m m' (n & Hn & Hs & _)%(similar_mounted _ _ _ _ H') (n' & Hn' & Hs' & _)%(similar_mounted _ _ _ _ H').
    rewrite <- Hs, <- Hs'. by apply (wf_once _ W).
  - intros mp m (n & Hn & Hs & _)%(similar_mounted _ _ _ _ H'). rewrite <- Hs. by apply (wf_on _ W mp).
  - intros d n c Hc%(similar_child _ _ _ _ _ H'). exact (wf_child _ W _ _ _ Hc).
  - apply W.
  - apply W.
  - intros d n c c' Hc%(similar_child _ _ _ _ _ H') Hc'%(similar_child _ _ _ _ _ H'). by eapply (wf_distinct _ W).
  - intros d n n' c Hc%(similar_child _ _ _ _ _ H') Hc'%(similar_child _ _ _ _ _ H'). by eapply (wf_name _ W).
  - apply W.
  - intros d n c mp m Hc%(similar_child _ _ _ _ _ H') (m' & Hm & _ & Hroot & _)%(similar_mounted _ _ _ _ H').
    rewrite <- Hroot. by eapply (wf_entry _ W).
  - intros d i Hd. destruct (wf_dev _ W _ _ Hd) as (m & Hm & Hf). destruct (similar_mount _ _ _ _ H Hm) as (m' & Hm' & Hs).
    exists m'. split; [done|]. by eapply same_mount_fits.
Qed.

Lemma similar_crosses s s' c p : similar s s' → crosses s c p → crosses s' c p.
Proof.
  intros H [(mp & m & Hm & Hon & ->)|[Hno ->]]; [left|right; split; [|done]].
  - destruct (similar_mounted _ _ _ _ H Hm) as (m' & Hm' & E1 & E2 & _). exists mp, m'. split_and!; [done|congruence..].
  - intros mp m (m' & Hm' & E1 & _)%(similar_mounted _ _ _ _ (similar_sym _ _ H)). rewrite <- E1. by eapply Hno.
Qed.

Lemma similar_at_path s s' p ns : similar s s' → at_path s p ns → at_path s' p ns.
Proof.
  intros H. induction 1 as [m Hm|d ns n c p Hd IH Hc Hx].
  - destruct (similar_mount _ _ _ _ H Hm) as (m' & Hm' & _ & <- & _). constructor. by rewrite (proj1 (si_root _ _ H)).
  - econstructor; [done|by eapply similar_child|by eapply similar_crosses].
Qed.
End similar.

(** ** Trees *)

Inductive node := NDir | NFile (data size : Z).
Notation tree := (gmap (list (list Z)) node).

Definition node_of (i : Inode) : option node :=
  match i_class i with
  | InitramfsDirectoryInode _ => Some NDir
  | InitramfsFileInode a => Some (NFile a (i_size i))
  | _ => None
  end.

Definition represents (s : vfs) (T : tree) : Prop :=
  ∀ ns nd, T !! ns = Some nd ↔ ∃ p i, at_path s p ns ∧ inodes s !! p = Some i ∧ node_of i = Some nd.

(** The directories on the way to an entry, added where they are missing; a file is in the way of them. *)
Fixpoint add_dirs (T : tree) (here tokens : list (list Z)) : option tree :=
  match tokens with
  | [] => Some T
  | t :: rest =>
      match T !! (here ++ [t]) with
      | Some NDir => add_dirs T (here ++ [t]) rest
      | Some (NFile _ _) => None
      | None => add_dirs (<[here ++ [t] := NDir]> T) (here ++ [t]) rest
      end
  end.

(** A new entry; there must not be one of its name. *)
Definition add_entry (T : tree) (e : list (list Z) * node) : option tree :=
  let '(path, nd) := e in
  T' ← add_dirs T [] (removelast path);
  match T' !! path with Some _ => None | None => Some (<[path := nd]> T') end.

Fixpoint unpack (T : tree) (es : list (list (list Z) * node)) : option tree :=
  match es with [] => Some T | e :: es' => T' ← add_entry T e; unpack T' es' end.

Definition root_tree : tree := {[ [] := NDir ]}.

Section trees.
Implicit Types (T : tree) (ns path tokens : list (list Z)).

Lemma add_dirs_mono T here tokens T' ns nd : add_dirs T here tokens = Some T' → T !! ns = Some nd → T' !! ns = Some nd.
Proof.
  revert T here. induction tokens as [|t rest IH]; intros T here; cbn [add_dirs]; [by intros [= <-]|].
  destruct (T !! (here ++ [t])) as [[|]|] eqn:Ht; [by apply IH|done|].
  intros H Hn. apply (IH _ _ H). rewrite lookup_insert_ne; [done|congruence].
Qed.

Lemma add_entry_mono T e T' ns nd : add_entry T e = Some T' → T !! ns = Some nd → T' !! ns = Some nd.
Proof.
  destruct e as [path nd']. unfold add_entry. intros (T1 & H1 & H2)%bind_Some Hn.
  pose proof (add_dirs_mono _ _ _ _ _ _ H1 Hn) as H. destruct (T1 !! path) eqn:Hp; [done|]. injection H2 as <-.
  rewrite lookup_insert_ne; [done|congruence].
Qed.

(** Every member is where it says. *)
Lemma unpack_members es T T' : unpack T es = Some T' →
  (∀ ns nd, T !! ns = Some nd → T' !! ns = Some nd) ∧ Forall (λ e, T' !! e.1 = Some e.2) es.
Proof.
  revert T. induction es as [|e es IH]; intros T; cbn [unpack]; [intros [= <-]; by split|].
  intros (T1 & H1 & H2)%bind_Some. destruct (IH _ H2) as [Hm Hf]. split.
  - intros ns nd Hn. by eapply Hm, add_entry_mono.
  - constructor; [|done]. apply Hm. destruct e as [path nd]. unfold add_entry in H1. apply bind_Some in H1 as (T0 & _ & H1).
    destruct (T0 !! path); [done|]. injection H1 as <-. by simplify_map_eq.
Qed.
End trees.

Section grow.
Context {s s' : vfs} {p c : Z} {n : list Z} (W : vfs_wf s) (A : added s p n c s').

Lemma node_of_add_child i : node_of (with_class (add_child c (i_class i)) i) = node_of i.
Proof. unfold node_of. cbn. by destruct (i_class i). Qed.

Lemma added_node q i : inodes s !! q = Some i → ∃ i', inodes s' !! q = Some i' ∧ node_of i' = node_of i.
Proof.
  intros Hi. pose proof (added_old A _ _ Hi) as Hi'. eexists. split; [done|].
  case_decide; [apply node_of_add_child|by destruct i].
Qed.

Lemma added_represents T ns j : represents s T → at_path s p ns → inodes s' !! c = Some j →
  represents s' (match node_of j with Some nd => <[ns ++ [n] := nd]> T | None => T end).
Proof.
  intros HT Hp Hj ms nd.
  assert (∀ q, ¬ at_path s q (ns ++ [n])) as Hnew.
  { intros q Hq. assert (has_path s (ns ++ [n])) as (c' & Hc')%(has_path_child s p ns n W Hp) by by exists q.
    by apply (proj2 (ad_name _ _ _ _ _ A) c'). }
  assert (∀ q i, at_path s q ms → inodes s !! q = Some i → (∃ i', inodes s' !! q = Some i' ∧ node_of i' = Some nd) ↔ node_of i = Some nd) as Hold.
  { intros q i _ Hi. destruct (added_node q i Hi) as (i' & Hi' & E). split; [intros (i2 & ? & ?); congruence|].
    intros ?. exists i'. split; [done|congruence]. }
  transitivity ((T !! ms = Some nd) ∨ (ms = ns ++ [n] ∧ node_of j = Some nd)).
  - destruct (decide (ms = ns ++ [n])) as [->|Hne].
    + assert (T !! (ns ++ [n]) = None) as HN.
      { destruct (T !! (ns ++ [n])) as [nd'|] eqn:E; [|done]. apply HT in E as (q & i & Hq & _). by apply Hnew in Hq. }
      rewrite HN. destruct (node_of j); [rewrite lookup_insert_eq|rewrite HN]; naive_solver.
    + destruct (node_of j); rewrite ?lookup_insert_ne by done; naive_solver.
  - rewrite (HT ms nd). split.
    + intros [(q & i & Hq & Hi & Hn)|[-> Hn]].
      * destruct (proj2 (Hold q i Hq Hi) Hn) as (i' & Hi' & Hn'). exists q, i'. split; [|done]. apply (added_at_path W A). by left.
      * exists c, j. split; [|done]. apply (added_at_path W A). right. by exists ns.
    + intros (q & i' & Hq & Hi' & Hn). apply (added_at_path W A) in Hq as [Hq|(ns0 & Hp0 & -> & ->)].
      * left. destruct (at_path_inode W q ms Hq) as [i Hi]. exists q, i. split_and!; [done..|]. apply (Hold q i Hq Hi). by exists i'.
      * right. simplify_eq. rewrite (at_path_inj W p ns0 ns Hp0 Hp). done.
Qed.
End grow.

(** ** A file system while it is being built *)

Section building.
Context (new_addr : vfs → Z) (uninit : Z → Z) (image : mem).
Context (Hfresh : fresh_new new_addr).
Implicit Types (s : vfs) (T : tree) (ns tokens : list (list Z)).

(** [mounted_on] of the mount point is what its storage held; [cleared] sets it to null. *)
Definition unmount (m : MountPoint) : MountPoint := mk_MountPoint (mp_path m) 0 (mp_root m) (mp_class m).
Definition cleared (mp : Z) s : vfs := with_mounts (alter unmount mp) s.

(** The file system as it will be once the mount point is registered, and cleared. *)
Definition reg s (mp : Z) : vfs := mk_vfs (inodes s) (alter unmount mp (mounts s)) (fdescs s) mp [mp] (v_cwd s).

Record building s (mp : Z) T : Prop := {
  bd_wf : vfs_wf (reg s mp);
  bd_mount : ∃ path root k, mounts s !! mp = Some (mk_MountPoint path (uninit mp) root (InitramfsMountPoint k));
  bd_class p i : inodes s !! p = Some i → is_Some (node_of i);
  bd_tree : represents (reg s mp) T;
}.

Lemma alter_same_mount (m m' : gmap Z MountPoint) mp : (∀ q, option_Forall2 same_mount (m !! q) (m' !! q)) →
  ∀ q, option_Forall2 same_mount (alter unmount mp m !! q) (alter unmount mp m' !! q).
Proof.
  intros H q. specialize (H q). destruct (decide (mp = q)) as [->|Hne]; [|by rewrite !lookup_alter_ne].
  rewrite !lookup_alter_eq. destruct H as [? ? (H1 & H2 & H3)|]; constructor. by split_and!.
Qed.

Lemma building_similar s s' mp T : building s mp T → inodes s' = inodes s →
  (∀ q, option_Forall2 same_mount (mounts s !! q) (mounts s' !! q)) →
  (∃ path root k, mounts s' !! mp = Some (mk_MountPoint path (uninit mp) root (InitramfsMountPoint k))) → building s' mp T.
Proof.
  intros [W Hm Hc HT] Hi Hmts Hm'. assert (similar (reg s mp) (reg s' mp)) as Hsim by (split; [done|by apply alter_same_mount|done]).
  pose proof (similar_sym _ _ Hsim) as Hsim'.
  split; [by eapply similar_wf|done|by rewrite Hi|]. intros ns nd. rewrite (HT ns nd). cbn [reg inodes]. rewrite Hi.
  split; intros (p & i & Hp & Hrest); exists p, i; (split; [|done]); by eapply similar_at_path.
Qed.

(** Nothing but inodes and mount points differs. *)
Definition same_rest s s' : Prop := fdescs s' = fdescs s ∧ g_root_mountpoint s' = g_root_mountpoint s ∧
  g_mountpoints s' = g_mountpoints s ∧ v_cwd s' = v_cwd s.

Lemma same_rest_trans s1 s2 s3 : same_rest s1 s2 → same_rest s2 s3 → same_rest s1 s3.
Proof. intros (? & ? & ? & ?) (? & ? & ? & ?). split_and!; congruence. Qed.

(** The counter of inode numbers; the inodes do not matter. *)
Lemma next_ino_run s mp T : building s mp T → ∃ s' k, building s' mp T ∧ similar (reg s mp) (reg s' mp) ∧
  same_rest s s' ∧ ∀ f, initramfs_next_ino mp (with_inodes f s) = Ok (with_inodes f s', k).
Proof.
  intros HB. destruct (bd_mount _ _ _ HB) as (path & root & k & Hm).
  set (m' := mk_MountPoint path (uninit mp) root (InitramfsMountPoint (k + 1))). set (s' := with_mounts (<[mp := m']>) s).
  assert (∀ q, option_Forall2 same_mount (mounts s !! q) (mounts s' !! q)) as Hmts.
  { intros q. cbn. destruct (decide (q = mp)) as [->|]; simplify_map_eq.
    - constructor. split_and!; [done..|]. right. exists k, (k + 1). by right.
    - apply option_Forall2_refl. intros m. split_and!; [done..|by left]. }
  exists s', k. split_and!; [|split; [done|by apply alter_same_mount|done]|done|].
  - eapply building_similar; [done|done|done|]. exists path, root, (k + 1). cbn. by simplify_map_eq.
  - intros f. assert (mounts (with_inodes f s) !! mp = Some (mk_MountPoint path (uninit mp) root (InitramfsMountPoint k))) as Hm1 by done.
    unfold initramfs_next_ino. rewrite (bind_ok _ _ _ _ _ (mount_run _ _ _ Hm1)). cbn [mp_class].
    by rewrite (bind_ok _ _ _ _ _ (set_mount_run _ _ _ _ Hm1)).
Qed.

(** Nothing is mounted inside the new file system. *)
Lemma building_crosses s mp T c q : building s mp T → c ≠ 0 → crosses (reg s mp) c q → q = c.
Proof.
  intros HB Hc [(mp' & m & [Hin Hm] & Hon & _)|[_ ->]]; [|done]. cbn in Hin. apply list_elem_of_singleton in Hin as ->.
  destruct (bd_mount _ _ _ HB) as (path & root & k & Hm'). cbn in Hm. rewrite lookup_alter_eq, Hm' in Hm. by simplify_eq/=.
Qed.

Lemma building_child_at s mp T cur ns t c : building s mp T → at_path (reg s mp) cur ns → child (reg s mp) cur t c →
  at_path (reg s mp) c (ns ++ [t]).
Proof.
  intros HB Hcur Hch. pose proof (child_nonzero (bd_wf _ _ _ HB) _ _ _ Hch) as Hc.
  eapply at_entry; [done..|]. right. split; [|done]. intros mp' m [Hin Hm]. cbn in Hin. apply list_elem_of_singleton in Hin as ->.
  destruct (bd_mount _ _ _ HB) as (path & root & k & Hm'). cbn in Hm. rewrite lookup_alter_eq, Hm' in Hm. by simplify_eq/=.
Qed.

(** What the tree says of a path that is taken. *)
Lemma building_at s mp T p ns : building s mp T → at_path (reg s mp) p ns →
  ∃ i nd, inodes s !! p = Some i ∧ node_of i = Some nd ∧ T !! ns = Some nd.
Proof.
  intros HB Hp. destruct (at_path_inode (bd_wf _ _ _ HB) p ns Hp) as [i Hi]. destruct (bd_class _ _ _ HB p i Hi) as [nd Hnd].
  exists i, nd. split_and!; [done..|]. apply (bd_tree _ _ _ HB). by exists p, i.
Qed.

Lemma node_dir i : node_of i = Some NDir → ∃ cs, i_class i = InitramfsDirectoryInode cs.
Proof. unfold node_of. destruct (i_class i); try done. by eauto. Qed.

(** ** Lookup and attaching an entry *)

Notation "s '[+' x o ']'" := (with_inodes (<[x := o]>) s) (at level 8, x at level 0, o at level 0).

Lemma lookup_beside_run s mp T x o cur i cs t : building s mp T → inodes s !! x = None →
  inodes s !! cur = Some i → i_class i = InitramfsDirectoryInode cs → good_name t →
  (∃ c, child (reg s mp) cur t c ∧ initramfs_lookup cur t (s [+ x o ]) = Ok (s [+ x o ], c)) ∨
  ((∀ c, ¬ child (reg s mp) cur t c) ∧ initramfs_lookup cur t (s [+ x o ]) = Ok (s [+ x o ], 0)).
Proof.
  intros HB Hx Hi Hk Ht. unfold initramfs_lookup.
  assert (∀ q j, inodes s !! q = Some j → inodes (s [+ x o ]) !! q = Some j) as Hin.
  { intros q j Hq. cbn. rewrite lookup_insert_ne; [done|congruence]. }
  assert (∀ c, c ∈ cs → is_Some (inodes s !! c)) as Hcs.
  { intros c. apply (wf_children _ (bd_wf _ _ _ HB) cur i cs c); [done|by rewrite Hk]. }
  rewrite (bind_ok _ _ _ _ _ (inode_run _ _ _ (Hin _ _ Hi))), Hk.
  destruct (find_child_run (s [+ x o ]) cs t) as [(c & j & Hc & Hj & Hn & Hr)|[Hno Hr]].
  - intros c [j Hj]%Hcs. exists j. by apply Hin.
  - left. exists c. split; [|done]. destruct (Hcs c Hc) as [j' Hj']. rewrite (Hin _ _ Hj') in Hj. injection Hj as ->.
    eapply child_listed; [done|by rewrite Hk|done..].
  - right. split; [|done]. intros c Hc. apply (child_entry (s := reg s mp) cur i t c Hi) in Hc. unfold entry_of in Hc. rewrite Hk in Hc.
    destruct Hc as (j & Hin' & Hj & Hn). by apply (Hno c j Hin' (Hin _ _ Hj)).
Qed.

(** The new entry [d] gets its parent and its name, and the parent lists it. *)
Definition attached (cur d : Z) (i j : Inode) (t : list Z) (m : gmap Z Inode) : gmap Z Inode :=
  <[d := with_name t (with_parent cur j)]> (<[cur := with_class (add_child d (i_class i)) i]> m).

Lemma attach_run s cur d i cs j t : inodes s !! cur = Some i → i_class i = InitramfsDirectoryInode cs →
  inodes s !! d = Some j → cur ≠ d →
  (_ ← set_inode d (with_parent cur); _ ← set_inode d (with_name t); initramfs_push cur d) s =
  Ok (with_inodes (attached cur d i j t) s, ()).
Proof.
  intros Hi Hk Hj Hne. rewrite (bind_ok _ _ _ _ _ (set_inode_run _ _ _ _ Hj)).
  erewrite (bind_ok _ _ _ _ _ (set_inode_run _ _ (with_parent cur j) _ _)).
  unfold initramfs_push. erewrite (bind_ok _ _ _ _ _ (inode_run _ _ i _)). rewrite Hk. unfold push_child.
  erewrite set_inode_run. 2:{ cbn. rewrite !lookup_insert_ne by done. done. }
  - do 2 f_equal. unfold with_inodes, attached. cbn. f_equal. rewrite Hk, insert_insert_eq. by rewrite insert_insert_ne.
  Unshelve.
  + cbn. by rewrite lookup_insert_eq.
  + cbn. by rewrite !lookup_insert_ne.
Qed.

Lemma bind_last {A B C D} (a : M vfs A) (b : M vfs B) (c : M vfs C) (k : C → M vfs D) s s' x :
  (_ ← a; _ ← b; c) s = Ok (s', x) → (_ ← a; _ ← b; y ← c; k y) s = k x s'.
Proof.
  unfold mbind, M_bind. destruct (a s) as [[s1 ?]| | |]; try done. destruct (b s1) as [[s2 ?]| | |]; try done.
  by intros ->.
Qed.

Lemma attach_added s mp T d j cur i cs t : building s mp T → d ≠ 0 → inodes s !! d = None →
  inodes s !! cur = Some i → i_class i = InitramfsDirectoryInode cs → good_name t → (∀ c, ¬ child (reg s mp) cur t c) →
  i_mountpoint j = mp → is_Some (node_of j) → childless (i_class j) → (i_type j = DIRECTORY ↔ is_dir (i_class j) = true) →
  added (reg s mp) cur t d (reg (with_inodes (attached cur d i j t) s) mp).
Proof.
  intros HB Hd Hfr Hi Hk Ht Hno Hmp Hnd Hkids Hty. pose proof (bd_wf _ _ _ HB) as W. split; cbn.
  - done.
  - done.
  - exists i, (with_name t (with_parent cur j)), cs. rewrite Hk. split_and!; try done.
    + apply (wf_dir _ W cur i Hi). by rewrite Hk.
    + cbn. rewrite Hmp. pose proof (wf_inode _ W cur i Hi) as Hin. cbn in Hin. by apply list_elem_of_singleton in Hin as ->.
    + cbn. intros cs' Hcs'. unfold node_of in Hnd. rewrite Hcs' in Hnd. by destruct Hnd.
    + unfold attached. by rewrite Hk.
  - intros q. apply option_Forall2_refl. intros m. split_and!; [done..|by left].
  - done.
Qed.

Lemma attach_building s mp T d j nd cur i cs t ns : building s mp T → d ≠ 0 → inodes s !! d = None →
  at_path (reg s mp) cur ns → inodes s !! cur = Some i → i_class i = InitramfsDirectoryInode cs → good_name t →
  (∀ c, ¬ child (reg s mp) cur t c) → i_mountpoint j = mp → node_of j = Some nd → childless (i_class j) →
  (i_type j = DIRECTORY ↔ is_dir (i_class j) = true) →
  building (with_inodes (attached cur d i j t) s) mp (<[ns ++ [t] := nd]> T) ∧
  at_path (reg (with_inodes (attached cur d i j t) s) mp) d (ns ++ [t]).
Proof.
  intros HB Hd Hfr Hcur Hi Hk Ht Hno Hmp Hnd Hkids Hty. pose proof (bd_wf _ _ _ HB) as W.
  pose proof (attach_added s mp T d j cur i cs t HB Hd Hfr Hi Hk Ht Hno Hmp (ex_intro _ nd Hnd) Hkids Hty) as A.
  set (s' := with_inodes (attached cur d i j t) s) in *. set (j' := with_name t (with_parent cur j)).
  assert (inodes s' !! d = Some j') as Hj' by (unfold s', attached; cbn; by rewrite lookup_insert_eq).
  assert (node_of j' = Some nd) as Hnd' by done. split; [split|].
  - by eapply added_wf.
  - apply HB.
  - intros q k Hq. destruct (added_inv A q k Hq) as [->|[k' Hk']]; [by simplify_eq; eauto|].
    destruct (added_node A q k' Hk') as (k'' & Hk'' & E). cbn [reg inodes] in Hk''. rewrite Hk'' in Hq. injection Hq as ->.
    rewrite E. by apply (bd_class _ _ _ HB q).
  - pose proof (added_represents W A T ns j' (bd_tree _ _ _ HB) Hcur Hj') as H. by rewrite Hnd' in H.
  - apply (added_at_path W A). right. by exists ns.
Qed.

(** A new directory, made while the inode [x] waits for its place. *)
Definition make_dir (mp : Z) (token : list Z) (current : Z) : M vfs Z :=
  dir ← new_initramfs_dir new_addr uninit mp;
  ino ← initramfs_next_ino mp;
  _ ← set_inode dir (with_ino ino);
  _ ← set_inode dir (with_parent current);
  _ ← set_inode dir (with_name token);
  _ ← initramfs_push current dir;
  mret dir.

Lemma make_dirs_step mp t rest cur s : make_dirs new_addr uninit mp (t :: rest) cur s =
  (existing ← initramfs_lookup cur (c_str t);
   if negb (existing =? 0) then make_dirs new_addr uninit mp rest existing
   else dir ← make_dir mp t cur; make_dirs new_addr uninit mp rest dir) s.
Proof.
  cbn [make_dirs]. unfold mbind, M_bind. destruct (initramfs_lookup cur (c_str t) s) as [[s1 e]| | |]; try done.
  destruct (negb (e =? 0)); [done|]. unfold make_dir, mbind, M_bind.
  repeat match goal with |- context [match ?m ?w with _ => _ end] => destruct (m w) as [[? ?]| | |]; try done end.
Qed.

(** A new inode with its number, beside the others. *)
Definition new_inode_at (mp d ino : Z) (k : inode_class) (size : Z) (ty : FileType) : Inode :=
  mk_Inode mp (uninit d) ino size ty [] k.

Lemma attach_commute s x o d j0 cur i j t : x ≠ d → x ≠ cur →
  with_inodes (attached cur d i j t) (with_inodes (<[d := j0]>) (s [+ x o ])) = (with_inodes (attached cur d i j t) s) [+ x o ].
Proof.
  intros Hd Hc. unfold with_inodes, attached. cbn. f_equal. apply map_eq. intros q.
  destruct (decide (q = d)) as [->|]; [by simplify_map_eq|]. destruct (decide (q = cur)) as [->|]; [by simplify_map_eq|].
  destruct (decide (q = x)) as [->|]; by simplify_map_eq.
Qed.

Lemma make_dir_run s mp T x o cur i cs ns t : building s mp T → inodes s !! x = None →
  at_path (reg s mp) cur ns → inodes s !! cur = Some i → i_class i = InitramfsDirectoryInode cs → good_name t →
  (∀ c, ¬ child (reg s mp) cur t c) →
  ∃ s' d, make_dir mp t cur (s [+ x o ]) = Ok (s' [+ x o ], d) ∧ building s' mp (<[ns ++ [t] := NDir]> T) ∧
    inodes s' !! x = None ∧ at_path (reg s' mp) d (ns ++ [t]) ∧ same_rest s s'.
Proof.
  intros HB Hx Hcur Hi Hk Ht Hno. destruct (next_ino_run s mp T HB) as (s1 & ino & HB1 & Hsim & Hs1 & Hino).
  set (d := new_addr (s [+ x o ])). destruct (Hfresh (s [+ x o ])) as (Hd0 & Hd & _). fold d in Hd0, Hd. cbn in Hd.
  apply lookup_insert_None in Hd as [Hd Hxd]. assert (x ≠ cur) as Hxc by congruence. assert (cur ≠ d) as Hcd by congruence.
  set (j0 := mk_Inode mp (uninit d) (uninit d) 0 DIRECTORY [] (InitramfsDirectoryInode [])). set (j := with_ino ino j0).
  unfold make_dir. rewrite (bind_ok _ _ _ (with_inodes (<[d := j0]>) (s [+ x o ])) d) by done.
  specialize (Hino (λ m, <[d := j0]> (<[x := o]> m))).
  change (with_inodes (λ m, <[d := j0]> (<[x := o]> m)) ?w) with (with_inodes (<[d := j0]>) (w [+ x o ])) in Hino.
  rewrite (bind_ok _ _ _ _ _ Hino).
  assert (inodes (with_inodes (<[d:=j0]>) (s1 [+ x o ])) !! d = Some j0) as Hj0 by (cbn; by rewrite lookup_insert_eq).
  rewrite (bind_ok _ _ _ _ _ (set_inode_run _ d j0 (with_ino ino) Hj0)). fold j.
  replace (with_inodes (<[d:=j]>) (with_inodes (<[d:=j0]>) (s1 [+ x o ]))) with (with_inodes (<[d:=j]>) (s1 [+ x o ]))
    by (unfold with_inodes; cbn; by rewrite insert_insert_eq).
  pose proof (si_inodes _ _ Hsim) as Hi1. cbn in Hi1. rewrite <- Hi1 in Hi, Hx, Hd.
  pose proof (similar_at_path _ _ _ _ Hsim Hcur) as Hcur1.
  assert (∀ c, ¬ child (reg s1 mp) cur t c) as Hno1 by (intros c Hc; apply (Hno c); by eapply similar_child, Hc; apply similar_sym).
  destruct (attach_building s1 mp T d j NDir cur i cs t ns HB1 Hd0 Hd Hcur1 Hi Hk Ht Hno1) as [HB2 Hat]; [done..|by right; left|done|].
  exists (with_inodes (attached cur d i j t) s1), d. split_and!; [|done| |done|].
  - pose proof (attach_run (with_inodes (<[d:=j]>) (s1 [+ x o ])) cur d i cs j t) as Hrun.
    rewrite (attach_commute s1 x o d j cur i j t) in Hrun by done.
    rewrite (bind_last _ _ _ _ _ _ _ (Hrun ltac:(cbn; by rewrite !lookup_insert_ne) Hk ltac:(cbn; by rewrite lookup_insert_eq) Hcd)).
    done.
  - cbn. unfold attached. by rewrite !lookup_insert_ne.
  - exact Hs1.
Qed.

(** All the directories on the way. *)
Lemma make_dirs_run tokens s mp T T' x o cur ns : building s mp T → inodes s !! x = None →
  at_path (reg s mp) cur ns → T !! ns = Some NDir → Forall good_name tokens → add_dirs T ns tokens = Some T' →
  ∃ s' cur', make_dirs new_addr uninit mp tokens cur (s [+ x o ]) = Ok (s' [+ x o ], cur') ∧ building s' mp T' ∧
    inodes s' !! x = None ∧ at_path (reg s' mp) cur' (ns ++ tokens) ∧ T' !! (ns ++ tokens) = Some NDir ∧ same_rest s s'.
Proof.
  revert s T cur ns. induction tokens as [|t rest IH]; intros s T cur ns HB Hx Hcur Hdir Hgood Hadd.
  { injection Hadd as <-. rewrite app_nil_r. by exists s, cur. }
  apply Forall_cons in Hgood as [Ht Hgood]. rewrite make_dirs_step, (c_str_id t) by apply Ht.
  destruct (building_at _ _ _ _ _ HB Hcur) as (i & nd & Hi & Hnd & HT). rewrite Hdir in HT. injection HT as <-.
  destruct (node_dir i Hnd) as [cs Hk]. cbn [add_dirs] in Hadd.
  rewrite (app_assoc ns [t] rest : ns ++ t :: rest = _).
  destruct (lookup_beside_run s mp T x o cur i cs t HB Hx Hi Hk Ht) as [(c & Hc & Hr)|[Hno Hr]]; rewrite (bind_ok _ _ _ _ _ Hr).
  - rewrite (proj2 (Z.eqb_neq c 0)) by (by eapply (child_nonzero (bd_wf _ _ _ HB))). cbn [negb].
    pose proof (building_child_at _ _ _ _ _ _ _ HB Hcur Hc) as Hat.
    destruct (building_at _ _ _ _ _ HB Hat) as (ic & nd & Hic & Hndc & HTc). rewrite HTc in Hadd.
    destruct nd; [|done]. by apply (IH s T c (ns ++ [t])).
  - cbn [Z.eqb negb]. assert (T !! (ns ++ [t]) = None) as HN.
    { destruct (T !! (ns ++ [t])) as [nd|] eqn:E; [|done]. apply (bd_tree _ _ _ HB) in E as (q & iq & Hq & _).
      assert (has_path (reg s mp) (ns ++ [t])) as (c & Hc)%(has_path_child _ cur ns t (bd_wf _ _ _ HB) Hcur) by by exists q.
      by apply Hno in Hc. }
    rewrite HN in Hadd. destruct (make_dir_run s mp T x o cur i cs ns t HB Hx Hcur Hi Hk Ht Hno) as (s1 & d & Hrun & HB1 & Hx1 & Hat & Hs1).
    rewrite (bind_ok _ _ _ _ _ Hrun).
    destruct (IH s1 _ d (ns ++ [t]) HB1 Hx1 Hat ltac:(by simplify_map_eq) Hgood Hadd) as (s2 & cur' & Hr2 & HB2 & Hx2 & Hat2 & HT2 & Hs2).
    exists s2, cur'. split_and!; try done. by eapply same_rest_trans.
Qed.

(** An entry in its place. *)
Lemma insert_inode_run s mp T T' x o nd path tokens : building s mp T → x ≠ 0 → inodes s !! x = None →
  split_spec SLASH path = tokens → tokens ≠ [] → Forall good_name tokens → add_entry T (tokens, nd) = Some T' →
  T !! [] = Some NDir → i_mountpoint o = mp → node_of o = Some nd → childless (i_class o) →
  (i_type o = DIRECTORY ↔ is_dir (i_class o) = true) →
  ∃ s', insert_inode new_addr uninit mp path x (s [+ x o ]) = Ok (s', ()) ∧ building s' mp T' ∧ same_rest s s'.
Proof.
  intros HB Hx0 Hx Hsplit Hne Hgood Hadd Hroot Hmp Hnd Hkids Hty.
  unfold add_entry in Hadd. apply bind_Some in Hadd as (T1 & Hdirs & Hadd). destruct (T1 !! tokens) eqn:HT1; [done|]. injection Hadd as <-.
  destruct (exists_last Hne) as (pre & t & ->). rewrite removelast_last in Hdirs. apply Forall_app in Hgood as [Hpre [Ht _]%Forall_cons].
  destruct (bd_mount _ _ _ HB) as (mpath & root & k & Hm). unfold insert_inode.
  assert (mounts (s [+ x o ]) !! mp = Some (mk_MountPoint mpath (uninit mp) root (InitramfsMountPoint k))) as Hm1 by done.
  rewrite (bind_ok _ _ _ _ _ (mount_run _ _ _ Hm1)), Hsplit, last_snoc, removelast_last. cbn [mp_root].
  rewrite (bind_ok (of_option (Some t)) _ _ _ t eq_refl).
  assert (mounts (reg s mp) !! mp = Some (mk_MountPoint mpath 0 root (InitramfsMountPoint k))) as Hm' by (cbn; by rewrite lookup_alter_eq, Hm).
  assert (at_path (reg s mp) root []) as Hat by (by apply (at_root (reg s mp) _ Hm')).
  destruct (make_dirs_run pre s mp T T1 x o root [] HB Hx Hat Hroot Hpre Hdirs) as (s1 & cur & Hrun & HB1 & Hx1 & Hat1 & HT1' & Hs1).
  rewrite (bind_ok _ _ _ _ _ Hrun). cbn [app] in Hat1, HT1'.
  destruct (building_at _ _ _ _ _ HB1 Hat1) as (i & nd' & Hi & Hnd' & HT). rewrite HT1' in HT. injection HT as <-.
  destruct (node_dir i Hnd') as [cs Hk].
  assert (∀ c, ¬ child (reg s1 mp) cur t c) as Hno.
  { intros c Hc. destruct (building_at _ _ _ _ _ HB1 (building_child_at _ _ _ _ _ _ _ HB1 Hat1 Hc)) as (? & ? & _ & _ & ?). congruence. }
  destruct (attach_building s1 mp T1 x o nd cur i cs t pre HB1 Hx0 Hx1 Hat1 Hi Hk Ht Hno Hmp Hnd Hkids Hty) as [HB2 _].
  assert (cur ≠ x) as Hcx by congruence. exists (with_inodes (attached cur x i o t) s1). split_and!; [|done|done].
  rewrite (attach_run (s1 [+ x o ]) cur x i cs o t); [|cbn; by rewrite lookup_insert_ne|done|cbn; by rewrite lookup_insert_eq|done].
  do 2 f_equal. unfold with_inodes, attached. cbn. f_equal. apply map_eq. intros q.
  destruct (decide (q = x)) as [->|]; [by simplify_map_eq|]. destruct (decide (q = cur)) as [->|]; by simplify_map_eq.
Qed.

(** ** The archive *)

Lemma image_cstr_run {S} (w : S) l a fuel : cstr image a l → (length l ≤ fuel)%nat → image_cstr image fuel a w = Ok (w, l).
Proof.
  revert a fuel. induction l as [|b l IH]; intros a fuel Hc Hf.
  - apply cstr_nil in Hc. destruct fuel; cbn [image_cstr]; unfold image_byte; by rewrite Hc.
  - apply cstr_cons in Hc as (Hb & Hnz & Hc). destruct fuel as [|fuel]; cbn in Hf; [lia|]. cbn [image_cstr].
    rewrite (bind_ok _ _ _ w b) by (unfold image_byte; by rewrite Hb). rewrite (proj2 (Z.eqb_neq b 0)) by done.
    by rewrite (bind_ok _ _ _ _ _ (IH (a + 1) fuel Hc ltac:(lia))).
Qed.
Lemma image_string_run {S} (w : S) l a : cstr image a l → image_string image a w = Ok (w, l).
Proof. intros Hc. apply image_cstr_run; [done|]. pose proof (cstr_bound _ _ _ Hc). lia. Qed.

(** The path a member's name stands for; the root of the archive and empty names are skipped. *)
Definition entry_path (name : list Z) : option (list (list Z)) :=
  if decide (name = [] ∨ name = [DOT] ∨ name = [DOT; SLASH]) then None else
  Some (split_spec SLASH (if decide ([DOT; SLASH] `prefix_of` name) then drop 2 name else name)).

Definition tar_next (a n : Z) : Z := a + 512 + 512 * ((n + 511) / 512).

(** The members from the header at [a] to the end [e] of the archive. *)
Inductive tar_members : Z → Z → list (list (list Z) * node) → Prop :=
  | Tar_end a e : e ≤ a → tar_members a e []
  | Tar_skip a e name n es : a < e → cstr image a name → parse_uint (image_bytes image 12 (a + TAR_SIZE)) 12 OCT = Some n →
      0 ≤ n → tar_next a n < 2 ^ 64 → entry_path name = None → tar_members (tar_next a n) e es → tar_members a e es
  | Tar_entry a e name n flag path es : a < e → cstr image a name →
      parse_uint (image_bytes image 12 (a + TAR_SIZE)) 12 OCT = Some n → 0 ≤ n → tar_next a n < 2 ^ 64 →
      image !! (a + TAR_TYPEFLAG) = Some flag → entry_path name = Some path → tar_members (tar_next a n) e es →
      tar_members a e ((path, if flag =? TYPEFLAG_DIR then NDir else NFile (a + 512) n) :: es).

Lemma entry_name_run s a name : cstr image a name → ∃ o, entry_name image a s = Ok (s, o) ∧
  match entry_path name with
  | None => o = None
  | Some path => ∃ f l, o = Some f ∧ cstr image f l ∧ split_spec SLASH l = path
  end.
Proof.
  intros Hc. unfold entry_name, is_empty_header, entry_path. destruct name as [|c0 name].
  { apply cstr_nil in Hc. exists None. unfold image_byte, mbind, M_bind. by rewrite Hc. }
  pose proof (cstr_cons _ _ _ _ Hc) as (H0 & Hnz & Hc1).
  assert (image_byte image a s = Ok (s, c0)) as Hb0 by (unfold image_byte; by rewrite H0).
  rewrite (bind_ok _ _ s s (c0 =? 0)) by (by rewrite (bind_ok _ _ _ _ _ Hb0)).
  rewrite (proj2 (Z.eqb_neq c0 0)) by done. rewrite (bind_ok _ _ _ _ _ Hb0). destruct (Z.eqb_spec c0 DOT) as [->|Hdot].
  2:{ exists (Some a). split; [done|]. rewrite decide_False by (intros [|[|]]; congruence).
      exists a, (c0 :: name). rewrite decide_False; [done|]. intros [k [=]]. congruence. }
  destruct name as [|c1 name].
  { apply cstr_nil in Hc1. exists None. unfold image_byte, mbind, M_bind. by rewrite Hc1. }
  pose proof (cstr_cons _ _ _ _ Hc1) as (H1 & Hnz1 & Hc2).
  rewrite (bind_ok _ _ s s c1) by (unfold image_byte; by rewrite H1). rewrite (proj2 (Z.eqb_neq c1 0)) by done.
  destruct (Z.eqb_spec c1 SLASH) as [->|Hs].
  - replace (a + 1 + 1) with (a + 2) in Hc2 by lia. destruct name as [|c2 name].
    + apply cstr_nil in Hc2. exists None. unfold image_byte, mbind, M_bind. by rewrite Hc2.
    + pose proof (cstr_cons _ _ _ _ Hc2) as (H2 & Hnz2 & _). exists (Some (a + 2)).
      rewrite (bind_ok _ _ s s c2) by (unfold image_byte; by rewrite H2). rewrite (proj2 (Z.eqb_neq c2 0)) by done.
      split; [done|]. rewrite decide_False by (intros [|[|]]; congruence). exists (a + 2), (c2 :: name).
      rewrite decide_True by (by exists (c2 :: name)). done.
  - exists (Some a). rewrite (bind_ok _ _ s s DOT) by (unfold image_byte; by rewrite H0). split; [done|].
    rewrite decide_False by (intros [|[|]]; congruence). exists a, (DOT :: c1 :: name).
    rewrite decide_False; [done|]. intros [k [=]]. congruence.
Qed.

Lemma insert_beside s (x : Z) (o o' : Inode) : with_inodes (<[x := o']>) (s [+ x o ]) = s [+ x o' ].
Proof. unfold with_inodes. cbn. by rewrite insert_insert_eq. Qed.

Lemma set_beside s x o f : set_inode x f (s [+ x o ]) = Ok (s [+ x (f o) ], ()).
Proof. rewrite (set_inode_run _ x o); [by rewrite insert_beside|]. cbn. by rewrite lookup_insert_eq. Qed.

Lemma new_member_run s mp T a n flag : building s mp T → image !! (a + TAR_TYPEFLAG) = Some flag → ∃ s' x o,
  new_entry new_addr uninit image mp a n s = Ok (s' [+ x o ], x) ∧ building s' mp T ∧ same_rest s s' ∧ x ≠ 0 ∧
  inodes s' !! x = None ∧ i_mountpoint o = mp ∧ node_of o = Some (if flag =? TYPEFLAG_DIR then NDir else NFile (a + 512) n) ∧
  childless (i_class o) ∧ (i_type o = DIRECTORY ↔ is_dir (i_class o) = true).
Proof.
  intros HB Hf. unfold new_entry. rewrite (bind_ok _ _ s s flag) by (unfold image_byte; by rewrite Hf).
  destruct (next_ino_run s mp T HB) as (s1 & ino & HB1 & Hsim & Hs1 & Hino).
  destruct (Hfresh s) as (Hx0 & Hx & _). set (x := new_addr s) in *. pose proof (si_inodes _ _ Hsim) as Hi. cbn in Hi.
  rewrite <- Hi in Hx. destruct (Z.eqb_spec flag TYPEFLAG_DIR).
  - set (j := mk_Inode mp (uninit x) (uninit x) 0 DIRECTORY [] (InitramfsDirectoryInode [])).
    rewrite (bind_ok _ _ s (s [+ x j ]) x) by done. rewrite (bind_ok _ _ _ _ _ (Hino (<[x := j]>))).
    rewrite (bind_ok _ _ _ _ _ (set_beside s1 x j (with_ino ino))). exists s1, x, (with_ino ino j).
    split_and!; try done. by right; left.
  - set (j := mk_Inode mp (uninit x) (uninit x) (uninit x) REGULAR [] (InitramfsFileInode (a + 512))).
    rewrite (bind_ok _ _ s (s [+ x j ]) x) by done. rewrite (bind_ok _ _ _ _ _ (set_beside s x j (with_size n))).
    rewrite (bind_ok _ _ _ _ _ (Hino (<[x := with_size n j]>))).
    rewrite (bind_ok _ _ _ _ _ (set_beside s1 x (with_size n j) (with_ino ino))).
    exists s1, x, (with_ino ino (with_size n j)). split_and!; try done. by right; right.
Qed.

Lemma next_header_tar a n : 0 ≤ a → 0 ≤ n → tar_next a n < 2 ^ 64 → next_header a (num_blocks_of n) = tar_next a n ∧ a + 512 ≤ tar_next a n.
Proof.
  intros Ha Hn Hlt. unfold next_header, num_blocks_of, tar_next in *.
  assert (n + 511 < 2 ^ 64) by lia. rewrite (wrap_small 64 (n + 511)) by (unfold is_word; lia).
  set (q := (n + 511) / 512) in *. assert (0 ≤ q) by (apply Z.div_pos; lia).
  rewrite (wrap_small 64 (q * 512)), (wrap_small 64 (512 + q * 512)), wrap_small by (unfold is_word; lia). split; lia.
Qed.

Definition good_paths (es : list (list (list Z) * node)) : Prop := Forall (λ e, e.1 ≠ [] ∧ Forall good_name e.1) es.

Lemma parse_loop_run a e es (fuel : nat) s mp T T' : tar_members a e es → 0 ≤ a → e - a ≤ 512 * fuel → building s mp T →
  T !! [] = Some NDir → good_paths es → unpack T es = Some T' →
  ∃ s', parse_loop new_addr uninit image fuel mp a e s = Ok (s', ()) ∧ building s' mp T' ∧ same_rest s s'.
Proof.
  intros Htar. revert fuel s T. induction Htar as [a e Hae|a e name n es Hae Hc Hn Hn0 Hlt Hpath Htar IH|
      a e name n flag path es Hae Hc Hn Hn0 Hlt Hflag Hpath Htar IH]; intros fuel s T Ha Hfuel HB Hroot Hgood Hun.
  - injection Hun as <-. exists s. split_and!; [|done|by split_and!].
    destruct fuel; cbn [parse_loop]; rewrite (proj2 (Z.ltb_ge a e)) by done; done.
  - destruct fuel as [|fuel]; [lia|]. cbn [parse_loop]. rewrite (proj2 (Z.ltb_lt a e)) by done. cbn [negb].
    rewrite (bind_ok _ _ s s n) by (unfold header_size; by rewrite Hn).
    destruct (entry_name_run s a name Hc) as (o & Ho & Hm). rewrite Hpath in Hm. subst o. rewrite (bind_ok _ _ _ _ _ Ho).
    destruct (next_header_tar a n Ha Hn0 Hlt) as [-> Hnext]. rewrite (bind_ok _ _ s s ()) by done.
    apply (IH fuel s T); try done; lia.
  - destruct fuel as [|fuel]; [lia|]. cbn [parse_loop]. rewrite (proj2 (Z.ltb_lt a e)) by done. cbn [negb].
    rewrite (bind_ok _ _ s s n) by (unfold header_size; by rewrite Hn).
    destruct (entry_name_run s a name Hc) as (o & Ho & Hm). rewrite Hpath in Hm. destruct Hm as (f & l & -> & Hl & Hsplit).
    rewrite (bind_ok _ _ _ _ _ Ho). apply Forall_cons in Hgood as [[Hne Hg] Hgood].
    cbn [unpack] in Hun. apply bind_Some in Hun as (T1 & Hadd & Hun).
    destruct (new_member_run s mp T a n flag HB Hflag) as (s1 & x & o & Hnew & HB1 & Hs1 & Hx0 & Hx & Hmp & Hnd & Hkids & Hty).
    destruct (insert_inode_run s1 mp T T1 x o _ l path HB1 Hx0 Hx Hsplit Hne Hg Hadd Hroot Hmp Hnd Hkids Hty) as (s2 & Hins & HB2 & Hs2).
    rewrite (bind_ok _ _ s s2 ()). 2:{ rewrite (bind_ok _ _ _ _ _ Hnew). by rewrite (bind_ok _ _ _ _ _ (image_string_run _ _ _ Hl)). }
    destruct (next_header_tar a n Ha Hn0 Hlt) as [-> Hnext].
    destruct (IH fuel s2 T1) as (s3 & Hrun & HB3 & Hs3); [lia..|done|by eapply add_entry_mono|done|done|].
    exists s3. split_and!; [done..|]. eapply same_rest_trans; [done|]. by eapply same_rest_trans.
Qed.

(** ** From an empty file system *)

Definition empty_vfs s : Prop := inodes s = ∅ ∧ mounts s = ∅ ∧ g_root_mountpoint s = 0 ∧ g_mountpoints s = [].

Lemma root_building s mp root m i : root_alone (reg s mp) mp root m i →
  (∃ path k, mounts s !! mp = Some (mk_MountPoint path (uninit mp) root (InitramfsMountPoint k))) →
  i_class i = InitramfsDirectoryInode [] → building s mp root_tree.
Proof.
  intros H (path & k & Hm) Hk. pose proof H as [[Hi Hr0] [Hms Hm0] _ (Hon & Hroot & _) _]. cbn in Hi, Hms. split.
  - by eapply root_alone_wf.
  - by eauto.
  - rewrite Hi. intros p j [<- <-]%lookup_singleton_Some. unfold node_of. by rewrite Hk.
  - intros ns nd. unfold root_tree. split.
    + intros [<- <-]%lookup_singleton_Some. exists root, i. split_and!.
      * rewrite <- Hroot. constructor. cbn. by rewrite Hms, lookup_singleton_eq.
      * cbn. by rewrite Hi, lookup_singleton_eq.
      * unfold node_of. by rewrite Hk.
    + intros (p & j & Hp & Hj & Hnd). destruct Hp as [m' Hm'|d ns n c p Hd Hc _]; [|by apply (root_alone_no_child _ _ _ _ _ _ _ _ H) in Hc].
      cbn in Hj. rewrite Hi in Hj. apply lookup_singleton_Some in Hj as [_ <-]. unfold node_of in Hnd. rewrite Hk in Hnd.
      injection Hnd as <-. by rewrite lookup_singleton_eq.
Qed.

Lemma new_initramfs_run s0 (fuel : nat) a n es T : empty_vfs s0 → 0 ≤ a → 0 ≤ n → a + n < 2 ^ 64 → n ≤ 512 * fuel →
  tar_members a (a + n) es → good_paths es → unpack root_tree es = Some T →
  ∃ s mp, new_initramfs new_addr uninit image fuel a n s0 = Ok (s, mp) ∧ building s mp T ∧ same_rest s0 s.
Proof.
  intros (Hi0 & Hm0 & Hr0 & Hg0) Ha Hn Hlt Hfuel Htar Hgood Hun. unfold new_initramfs.
  set (mp := new_addr s0). destruct (Hfresh s0) as (Hmp0 & _). fold mp in Hmp0.
  set (m0 := mk_MountPoint [] (uninit mp) (uninit mp) (InitramfsMountPoint 1)). set (s1 := with_mounts (<[mp := m0]>) s0).
  rewrite (bind_ok _ _ s0 s1 mp) by done. unfold parse_tar_headers.
  set (root := new_addr s1). destruct (Hfresh s1) as (Hroot0 & _). fold root in Hroot0.
  set (j0 := mk_Inode mp (uninit root) (uninit root) 0 DIRECTORY [] (InitramfsDirectoryInode [])).
  set (m2 := mk_MountPoint [] (uninit mp) root (InitramfsMountPoint 2)). set (j := with_parent 0 (with_ino 1 j0)).
  set (s2 := with_mounts (<[mp := m2]>) (s1 [+ root j ])).
  assert (building s2 mp root_tree) as HB.
  { apply (root_building s2 mp root (unmount m2) j); [|exists [], 2; cbn; by rewrite lookup_insert_eq|done].
    split; cbn; [|split; [|done]|done..].
    - by rewrite Hi0.
    - rewrite Hm0, insert_insert_eq. by rewrite insert_empty, alter_singleton_eq. }
  destruct (parse_loop_run a (a + n) es fuel s2 mp root_tree T Htar Ha ltac:(lia) HB) as (s3 & Hrun & HB3 & Hs3); [done..|].
  exists s3, mp. split_and!; [|done|exact Hs3].
  rewrite (bind_ok _ _ s1 s3 ()); [done|]. rewrite (bind_ok _ _ s1 (s1 [+ root j0 ]) root) by done.
  assert (mounts (s1 [+ root j0 ]) !! mp = Some m0) as Hm1 by (cbn; by rewrite lookup_insert_eq).
  rewrite (bind_ok _ _ _ _ _ (set_mount_run _ _ _ _ Hm1)). unfold initramfs_next_ino.
  set (s1' := with_mounts _ _). set (m1 := mk_MountPoint [] (uninit mp) root (InitramfsMountPoint 1)).
  assert (mounts s1' !! mp = Some m1) as Hm2 by (unfold s1'; cbn; by rewrite lookup_insert_eq).
  rewrite (bind_ok _ _ s1' (with_mounts (<[mp := m2]>) (s1 [+ root j0 ])) 1).
  2:{ rewrite (bind_ok _ _ _ _ _ (mount_run _ _ _ Hm2)). cbn [mp_class m1]. rewrite (bind_ok _ _ _ _ _ (set_mount_run _ _ _ _ Hm2)).
      unfold s1', with_mounts. cbn. rewrite insert_insert_eq. done. }
  change (with_mounts (<[mp := m2]>) (s1 [+ root j0 ])) with ((with_mounts (<[mp := m2]>) s1) [+ root j0 ]).
  rewrite (bind_ok _ _ _ _ _ (set_beside _ root j0 (with_ino 1))), (bind_ok _ _ _ _ _ (set_beside _ root _ (with_parent 0))).
  rewrite wrap_small by (unfold is_word; lia). exact Hrun.
Qed.

(** The archive of one module becomes the root file system. *)
Lemma init_modules_run s0 (fuel : nat) a n es T : empty_vfs s0 → 0 ≤ a → 0 ≤ n → a + n < 2 ^ 64 → n ≤ 512 * fuel →
  tar_members a (a + n) es → good_paths es → unpack root_tree es = Some T →
  ∃ s, init_modules new_addr uninit image fuel [(a, n)] s0 = Ok (s, ()) ∧
    (∃ m, mounts s !! g_root_mountpoint s = Some m ∧ mp_mounted_on m = uninit (g_root_mountpoint s)) ∧
    vfs_wf (cleared (g_root_mountpoint s) s) ∧ represents (cleared (g_root_mountpoint s) s) T.
Proof.
  intros H0 Ha Hn Hlt Hfuel Htar Hgood Hun.
  destruct (new_initramfs_run s0 fuel a n es T) as (s & mp & Hrun & HB & Hfd & Hr & Hg & Hcwd); [done..|].
  destruct (bd_mount _ _ _ HB) as (path & root & k & Hm). destruct H0 as (_ & _ & Hr0 & Hg0).
  unfold init_modules. cbn [for_each]. set (m' := mk_MountPoint (lit "/") (uninit mp) root (InitramfsMountPoint k)).
  set (s' := mk_vfs (inodes s) (<[mp := m']> (mounts s)) (fdescs s) mp [mp] (v_cwd s)).
  assert (similar (reg s mp) (cleared mp s')) as Hsim.
  { split; [done|apply alter_same_mount|done]. intros q. cbn. destruct (decide (q = mp)) as [->|]; simplify_map_eq.
    - constructor. split_and!; [done..|by left].
    - apply option_Forall2_refl. intros m. split_and!; [done..|by left]. }
  exists s'. split_and!.
  - rewrite (bind_ok _ _ s0 s' ()); [done|]. rewrite (bind_ok _ _ _ _ _ Hrun). unfold register_mount.
    rewrite (bind_ok _ _ _ _ _ (set_mount_run _ _ _ _ Hm)). unfold modify. cbn. by rewrite Hr, Hr0, Hg, Hg0.
  - exists m'. cbn. by rewrite lookup_insert_eq.
  - eapply similar_wf; [done|apply HB].
  - intros ns nd. rewrite (bd_tree _ _ _ HB ns nd). pose proof (similar_sym _ _ Hsim).
    split; intros (p & i & Hp & Hrest); exists p, i; (split; [by eapply similar_at_path|done]).
Qed.
End building.

(** ** Archives as a writer lays them out *)

(** A member: its name, type flag and data, and what the other fields of its header hold: mode and owner;
    modification time and checksum; link name, magic, user and group name, device, prefix and padding. *)
Record tar_file := mk_tar_file {
  tf_name : list Z;
  tf_flag : Z;
  tf_data : list Z;
  tf_owner : list Z;
  tf_times : list Z;
  tf_ustar : list Z;
}.

Definition tar_pad (n : nat) (l : list Z) : list Z := l ++ replicate (n - length l) 0.

(** Eleven octal digits and a terminator. *)
Definition tar_octal (n : Z) : list Z :=
  let ds := digits_text OCT n in replicate (11 - length ds) 48 ++ ds ++ [0].

Definition tar_header (f : tar_file) : list Z :=
  tar_pad 100 (tf_name f) ++ tf_owner f ++ tar_octal (length (tf_data f)) ++ tf_times f ++ [tf_flag f] ++ tf_ustar f.
Definition tar_blocks (l : list Z) : list Z := tar_pad (Z.to_nat (512 * ((length l + 511) / 512))) l.
Definition tar_member (f : tar_file) : list Z := tar_header f ++ tar_blocks (tf_data f).
(** The archive ends in [n] empty blocks. *)
Definition tar_encode (fs : list tar_file) (n : nat) : list Z := concat (tar_member <$> fs) ++ replicate (512 * n) 0.

(** What is at the path of a member when its header is at [a]. *)
Definition tf_node (a : Z) (f : tar_file) : node :=
  if tf_flag f =? TYPEFLAG_DIR then NDir else NFile (a + 512) (length (tf_data f)).
Fixpoint tar_entries (a : Z) (fs : list tar_file) : list (list (list Z) * node) :=
  match fs with
  | [] => []
  | f :: fs' =>
      match entry_path (tf_name f) with Some path => [(path, tf_node a f)] | None => [] end ++
      tar_entries (a + length (tar_member f)) fs'
  end.

(** The fields have their sizes; the name is that of the archive's root or a path of proper components, and
    fits into its field with its NUL, and the size fits as well. *)
Record tar_file_ok (f : tar_file) : Prop := {
  tf_short : (length (tf_name f) < 100)%nat ∧ Forall (λ c, c ≠ 0) (tf_name f);
  tf_entry path : entry_path (tf_name f) = Some path → path ≠ [] ∧ Forall good_name path;
  tf_digits : (length (digits_text OCT (length (tf_data f))) ≤ 11)%nat ∧ length (tf_data f) < 2 ^ 64;
  tf_fields : length (tf_owner f) = 24%nat ∧ length (tf_times f) = 20%nat ∧ length (tf_ustar f) = 355%nat;
}.

Section archive.
Context (image : mem).

Lemma tar_pad_length n l : (length l ≤ n)%nat → length (tar_pad n l) = n.
Proof. intros H. unfold tar_pad. rewrite length_app, length_replicate. lia. Qed.

Lemma tar_octal_length n : (length (digits_text OCT n) ≤ 11)%nat → length (tar_octal n) = 12%nat.
Proof. intros H. unfold tar_octal. rewrite !length_app, length_replicate. cbn [length]. lia. Qed.

Lemma tar_header_length f : tar_file_ok f → length (tar_header f) = 512%nat.
Proof.
  intros [[Hn _] _ [Hd _] (H1 & H2 & H3)]. unfold tar_header.
  rewrite !length_app, tar_pad_length, tar_octal_length, H1, H2, H3 by lia. cbn [length]. lia.
Qed.

Lemma tar_member_length f a : tar_file_ok f → a + length (tar_member f) = tar_next a (length (tf_data f)).
Proof.
  intros Hok. unfold tar_member, tar_next, tar_blocks. rewrite length_app, tar_header_length, tar_pad_length by (done || lia). lia.
Qed.

Lemma pad_cstr a n l : Forall (λ c, c ≠ 0) l → (length l < n)%nat → bytes_at image a (tar_pad n l) → cstr image a l.
Proof.
  intros Hnz Hlen H. split; [|done]. unfold tar_pad in H. destruct (n - length l)%nat as [|k] eqn:E; [lia|].
  cbn [replicate] in H. change (0 :: replicate k 0) with ([0] ++ replicate k 0) in H. rewrite app_assoc in H.
  by apply bytes_at_app in H as [H _].
Qed.

Lemma image_bytes_at a l : bytes_at image a l → image_bytes image (length l) a = l.
Proof. revert a. induction l as [|b l IH]; intros a; [done|]. cbn. intros [Hb Hl]. by rewrite Hb, IH. Qed.

(** The fields of a header. *)
Lemma header_fields a f : tar_file_ok f → bytes_at image a (tar_header f) →
  cstr image a (tf_name f) ∧ parse_uint (image_bytes image 12 (a + TAR_SIZE)) 12 OCT = Some (Z.of_nat (length (tf_data f))) ∧
  image !! (a + TAR_TYPEFLAG) = Some (tf_flag f).
Proof.
  intros [[Hn Hnz] _ [Hd Hlt] (H1 & H2 & _)] H. unfold tar_header in H.
  apply bytes_at_app in H as [Hname H]. rewrite tar_pad_length in H by lia.
  apply bytes_at_app in H as [_ H]. rewrite H1 in H.
  apply bytes_at_app in H as [Hsize H]. rewrite tar_octal_length in H by done.
  apply bytes_at_app in H as [_ H]. rewrite H2 in H. cbn [app bytes_at] in H. destruct H as [Hflag _].
  split_and!; [by eapply pad_cstr|..].
  - rewrite <- (tar_octal_length _ Hd). replace (a + TAR_SIZE) with (a + 100%nat + 24%nat) by (unfold TAR_SIZE; lia).
    rewrite image_bytes_at by done. unfold tar_octal.
    rewrite <- (parse_number OCT (length (tf_data f)) (11 - length (digits_text OCT (length (tf_data f)))) 12 []); [done|done|lia|lia].
  - rewrite <- Hflag. f_equal. unfold TAR_TYPEFLAG. lia.
Qed.

Lemma zeros_end a e (n : nat) : bytes_at image a (replicate (512 * n) 0) → e = a + 512 * n → e < 2 ^ 64 → tar_members image a e [].
Proof.
  revert a. induction n as [|n IH]; intros a H -> Hlt; [constructor; lia|].
  replace (512 * S n)%nat with (512 + 512 * n)%nat in H by lia. rewrite replicate_add in H. apply bytes_at_app in H as [H0 H].
  rewrite length_replicate in H.
  assert (tar_next a 0 = a + 512%nat) as Hnext by (unfold tar_next; lia).
  apply (Tar_skip image a _ [] 0); [lia| | |done|lia|done|rewrite Hnext; apply IH; [done|lia|lia]].
  - split; [|done]. split; [|done]. exact (proj1 H0).
  - assert (bytes_at image (a + TAR_SIZE) (replicate 12 0)) as H12.
    { apply bytes_at_lookup. intros i c Hi. apply lookup_replicate in Hi as [-> Hi]. unfold TAR_SIZE.
      rewrite <- Z.add_assoc. replace (124 + i) with (Z.of_nat (124 + i)) by lia.
      apply (proj1 (bytes_at_lookup image a (replicate 512 0)) H0). apply lookup_replicate. split; [done|lia]. }
    by rewrite (image_bytes_at _ _ H12 : image_bytes image 12 _ = _).
Qed.

Lemma encode_members a fs n : Forall tar_file_ok fs → bytes_at image a (tar_encode fs n) → 0 ≤ a →
  a + length (tar_encode fs n) < 2 ^ 64 → tar_members image a (a + length (tar_encode fs n)) (tar_entries a fs).
Proof.
  unfold tar_encode. intros Hok. revert a. induction Hok as [|f fs Hf Hok IH]; intros a H Ha Hlt.
  - apply (zeros_end a _ n); [done| |done]. rewrite length_app, length_replicate. cbn. lia.
  - cbn [fmap list_fmap concat tar_entries] in *. rewrite <- app_assoc in H, Hlt |- *. rewrite length_app in Hlt |- *.
    apply bytes_at_app in H as [Hm H]. unfold tar_member in Hm. apply bytes_at_app in Hm as [Hh Hb].
    destruct (header_fields a f Hf Hh) as (Hname & Hsize & Hflag).
    pose proof (tar_member_length f a Hf) as Hnext. unfold tf_node.
    assert (0 < length (tar_member f)) by (unfold tar_member; rewrite length_app, tar_header_length by done; lia).
    rewrite Nat2Z.inj_add, Z.add_assoc in Hlt |- *. specialize (IH (a + length (tar_member f)) H ltac:(lia) Hlt).
    destruct (entry_path (tf_name f)) as [path|] eqn:Hpath; cbn [app].
    + eapply Tar_entry; [lia|done|done|lia|lia|done|done|]. by rewrite <- Hnext.
    + eapply Tar_skip; [|done|done|lia|lia|done|by rewrite <- Hnext]. lia.
Qed.
End archive.


(** The member [f] as the file system has it: a directory, or a file whose size and data are the member's. *)
Definition unpacked (image : mem) (s : vfs) (f : tar_file) : Prop :=
  ∀ path, entry_path (tf_name f) = Some path → ∃ p i, at_path s p path ∧ inodes s !! p = Some i ∧
    match i_class i with
    | InitramfsDirectoryInode _ => tf_flag f = TYPEFLAG_DIR
    | InitramfsFileInode data => tf_flag f ≠ TYPEFLAG_DIR ∧ i_size i = length (tf_data f) ∧ bytes_at image data (tf_data f)
    | _ => False
    end.

Lemma unpacked_members image s T a fs n : represents s T → bytes_at image a (tar_encode fs n) → Forall tar_file_ok fs →
  Forall (λ e, T !! e.1 = Some e.2) (tar_entries a fs) → Forall (unpacked image s) fs.
Proof.
  unfold tar_encode. intros HT Hb Hok. revert a Hb. induction Hok as [|f fs Hf Hok IH]; intros a Hb Hin; [done|].
  cbn [fmap list_fmap concat tar_entries] in *. apply Forall_app in Hin as [Hin Hrest].
  rewrite <- app_assoc in Hb. apply bytes_at_app in Hb as [Hm Hb]. constructor; [|by apply (IH (a + length (tar_member f)))].
  unfold tar_member in Hm. apply bytes_at_app in Hm as [_ Hdata]. rewrite tar_header_length in Hdata by done.
  unfold tar_blocks, tar_pad in Hdata. apply bytes_at_app in Hdata as [Hdata _].
  intros path Hpath. rewrite Hpath in Hin. apply Forall_cons in Hin as [Hin _].
  apply HT in Hin as (p & i & Hp & Hi & Hnd). exists p, i. split_and!; [done..|].
  unfold node_of, tf_node in Hnd. cbn [snd] in Hnd. destruct (Z.eqb_spec (tf_flag f) TYPEFLAG_DIR), (i_class i); try done.
  cbn in Hnd. by injection Hnd as -> ->.
Qed.

Lemma encoded_paths a fs : Forall tar_file_ok fs → good_paths (tar_entries a fs).
Proof.
  intros Hok. revert a. induction Hok as [|f fs Hf Hok IH]; intros a; [constructor|]. cbn [tar_entries].
  apply Forall_app. split; [|apply IH]. destruct (entry_path (tf_name f)) as [path|] eqn:Hp; [|constructor].
  apply Forall_singleton. by apply (tf_entry _ Hf).
Qed.

Lemma cleared_id mp s : (∀ m, mounts s !! mp = Some m → mp_mounted_on m = 0) → cleared mp s = s.
Proof.
  intros H. destruct s as [ino mts fds root mps cwd]. unfold cleared, with_mounts. cbn in *. f_equal. apply alter_id. intros m Hm.
  specialize (H m Hm). destruct m as [p on r c]. cbn in H. by subst.
Qed.

(** [/..] where the mount point of the root says that it is mounted on something. *)
Lemma cleared_dotdot s m : vfs_wf (cleared (g_root_mountpoint s) s) → mounts s !! g_root_mountpoint s = Some m →
  mp_mounted_on m ≠ 0 → inodes s !! mp_mounted_on m = None → resolve_path (lit "/..") s = Fault.
Proof.
  intros W Hm Hon Hno. set (mp := g_root_mountpoint s) in *.
  destruct (wf_root _ W) as (m' & [Hin Hm'] & _). destruct (wf_mount _ W _ Hin) as (m1 & r & Hm1 & Hr & _ & Hmp & _).
  cbn in Hm', Hm1, Hr, Hmp. fold mp in Hm', Hm1, Hmp. rewrite lookup_alter_eq, Hm in Hm1. injection Hm1 as <-. cbn [unmount mp_root] in Hr.
  assert (mp ≠ 0) as Hmp0.
  { intros E. pose proof (proj2 (wf_null _ W)) as H0. cbn in H0. fold mp in H0. by rewrite E, lookup_alter_eq, <- E, Hm in H0. }
  unfold resolve_path. replace (split_spec SLASH (lit "/..")) with [lit ".."] by by vm_compute. unfold resolve_tokens.
  rewrite (bind_ok (gets g_root_mountpoint) _ s s mp eq_refl), (proj2 (Z.eqb_neq mp 0) Hmp0), (bind_ok (gets v_cwd) _ s s _ eq_refl).
  rewrite (bind_ok _ _ s s (mp_root m)).
  2:{ replace (default 0 (head (lit "/..")) =? SLASH) with true by by vm_compute. cbn [orb]. by rewrite (bind_ok _ _ _ _ _ (mount_run _ _ _ Hm)). }
  cbn [resolve_loop]. rewrite decide_False by (intros [|]; by vm_compute in *). rewrite decide_True by done.
  unfold dotdot, mbind, M_bind. rewrite (inode_run _ _ _ Hr), Hmp, (mount_run _ _ _ Hm), Z.eqb_refl.
  rewrite (proj2 (Z.eqb_neq _ 0) Hon). cbn [andb negb]. unfold inode, mbind, M_bind, gets. by rewrite Hno.
Qed.


(** The archive's root, a directory and a file in it, as [tar --format=ustar] writes them. *)
Definition ustar_fields : list Z :=
  replicate 100 0 ++ lit "ustar" ++ [0; 48; 48] ++ tar_pad 32 (lit "root") ++ tar_pad 32 (lit "root") ++
  tar_pad 8 (lit "0000000") ++ tar_pad 8 (lit "0000000") ++ replicate 167 0.
Definition demo_member (name : list Z) (flag : Z) (data : list Z) : tar_file :=
  mk_tar_file name flag data (tar_pad 8 (lit "0000755") ++ tar_pad 8 (lit "0001750") ++ tar_pad 8 (lit "0001750"))
    (lit "14731062157 " ++ lit "011573" ++ [0; 32]) ustar_fields.
Definition demo_files : list tar_file :=
  [demo_member (lit "./") TYPEFLAG_DIR []; demo_member (lit "./bin/") TYPEFLAG_DIR []; demo_member (lit "./bin/sh") 48 [35; 33]].
Definition demo_image (a : Z) (fs : list tar_file) : mem :=
  list_to_map (zip (seqZ a (length (tar_encode fs 2))) (tar_encode fs 2)).
Definition empty_fs : vfs := mk_vfs ∅ ∅ ∅ 0 [] 0.

Lemma demo_image_bytes a l : bytes_at (list_to_map (zip (seqZ a (length l)) l)) a l.
Proof.
  apply bytes_at_lookup. intros i c Hi. apply elem_of_list_to_map_1.
  - rewrite fst_zip by (rewrite length_seqZ; lia). apply NoDup_seqZ.
  - apply list_elem_of_lookup. exists i. rewrite lookup_zip_with, Hi. pose proof (lookup_lt_Some _ _ _ Hi).
    rewrite lookup_seqZ_lt by lia. done.
Qed.

Lemma demo_member_ok name flag data o : (length name < 100)%nat → Forall (λ c, c ≠ 0) name → entry_path name = o →
  match o with Some path => path ≠ [] ∧ Forall good_name path | None => True end →
  (length (digits_text OCT (length data)) ≤ 11)%nat → length data < 2 ^ 64 → tar_file_ok (demo_member name flag data).
Proof.
  intros H1 H2 <- H3 H4 H5. split; [done| |done|by vm_compute]. intros path Hp. cbn [tf_name demo_member] in Hp. by rewrite Hp in H3.
Qed.

Lemma demo_files_ok : Forall tar_file_ok demo_files.
Proof.
  apply Forall_cons. split; [|apply Forall_cons; split; [|apply Forall_singleton]].
  - eapply demo_member_ok; [cbn; lia|by apply (bool_decide_unpack _)|by vm_compute|done|by apply Nat.leb_le|done].
  - eapply demo_member_ok; [cbn; lia|by apply (bool_decide_unpack _)|by vm_compute| |by apply Nat.leb_le|done].
    split; [done|]. repeat constructor; vm_compute; try done; set_solver.
  - eapply demo_member_ok; [cbn; lia|by apply (bool_decide_unpack _)|by vm_compute| |by apply Nat.leb_le|done].
    split; [done|]. repeat constructor; vm_compute; try done; set_solver.
Qed.


(** ** Where the reader breaks *)

(** An empty header whose size field is the three characters of "(00", which [parse_uint] takes for -512. *)
Definition stuck_image : mem := list_to_map (zip (seqZ 4096 512) (replicate 124 0 ++ [40; 48; 48] ++ replicate 385 0)).

Lemma stuck_loop new_addr uninit fuel mp s : parse_loop new_addr uninit stuck_image fuel mp 4096 4608 s = Hang.
Proof.
  induction fuel as [|fuel IH]; [done|]. cbn [parse_loop]. rewrite (proj2 (Z.ltb_lt 4096 4608)) by lia. cbn [negb].
  assert (header_size stuck_image 4096 s = Ok (s, 2 ^ 64 - 512)) as Hsize.
  { unfold header_size. replace (parse_uint _ _ _) with (Some (2 ^ 64 - 512)) by by vm_compute. done. }
  rewrite (bind_ok _ _ _ _ _ Hsize).
  assert (entry_name stuck_image 4096 s = Ok (s, None)) as Hname.
  { unfold entry_name, is_empty_header, image_byte. by replace (stuck_image !! 4096) with (Some 0) by by vm_compute. }
  rewrite (bind_ok _ _ _ _ _ Hname), (bind_ok _ _ s s ()) by done.
  by replace (next_header 4096 (num_blocks_of (2 ^ 64 - 512))) with 4096 by by vm_compute.
Qed.

(** The directory entries of the root once the archive is mounted. *)
Definition root_listing (fs : list tar_file) : outcome (vfs * (list DirEntry * Z)) :=
  (_ ← init_modules demo_new (λ _, 0) (demo_image 4096 fs) 10 [(4096, Z.of_nat (length (tar_encode fs 2)))];
   fs_readdir (lit "/") []) empty_fs.

(** Archives the reader does not survive or misreads.  A size field with a character below the digit zero
    can make the step over a header zero, so the walk stays at that header forever.  A member named "/" reads
    the first element of an empty vector; a member below a file takes the file for a directory.  A directory
    that comes after a file in it is entered a second time beside the one made for the file. *)
Theorem initramfs_edge_cases :
  (∀ new_addr uninit fuel mp s, parse_loop new_addr uninit stuck_image fuel mp 4096 4608 s = Hang) ∧
  root_listing [demo_member (lit "/") TYPEFLAG_DIR []] = Fault ∧
  root_listing [demo_member (lit "a") 48 []; demo_member (lit "a/b") 48 []] = Fault ∧
  (∃ s, root_listing [demo_member (lit "a/b") 48 []; demo_member (lit "a/") TYPEFLAG_DIR []] =
        Ok (s, ([mk_DirEntry (lit "a") DIRECTORY; mk_DirEntry (lit "a") DIRECTORY], 2))).
Proof.
  split_and!.
  - exact stuck_loop.
  - vm_compute. reflexivity.
  - vm_compute. reflexivity.
  - eexists. vm_compute. reflexivity.
Qed.
