(* ===== verification/SysFd.v ===== *)
(** * File descriptors and files

    [src/kernel/lib/syscall/sys_fd.cpp] with the [read], [write], [lseek], [stat] and [ioctl] methods of the
    inode classes, for the current process.  A read from a terminal may have to wait for the keyboard: its
    result is [None] then.  Memory is accessed under the rules of [UserMem.v]. *)

From Stdlib Require Import String Ascii.
From S2P Require Import Prelude KVector KString Cpu Spinlock Pmm Vmm Crt Fmt UserMem Vfs Process.
From S2P Require Import Font Framebuffer Console Keyboard Tty.

#[local] Coercion Z.of_nat : nat >-> Z.

Record sysfd := mk_sysfd {
  y_fs : vfs;
  y_proc : Process;
  y_ttys : gmap Z DevTty;
  y_con : console;
  y_kbd : keyboard;
  y_user : umem;
}.

Definition y_with_fs (f : vfs) (s : sysfd) : sysfd := mk_sysfd f (y_proc s) (y_ttys s) (y_con s) (y_kbd s) (y_user s).
Definition y_with_proc (p : Process) (s : sysfd) : sysfd := mk_sysfd (y_fs s) p (y_ttys s) (y_con s) (y_kbd s) (y_user s).
Definition y_with_user (u : umem) (s : sysfd) : sysfd := mk_sysfd (y_fs s) (y_proc s) (y_ttys s) (y_con s) (y_kbd s) u.

(** The file system with the current directory of the process. *)
Definition on_fs {A} : M vfs A → M sysfd A := zoom (λ s, with_cwd (cwd_inode (y_proc s)) (y_fs s)) y_with_fs.
Definition on_mem {A} : M umem A → M sysfd A := zoom y_user y_with_user.
Definition on_terminal {A} (p : Z) : M terminal A → M sysfd A :=
  zoom (λ s, mk_terminal (default tty0 (y_ttys s !! p)) (y_con s) (y_kbd s) (y_user s))
       (λ t s, mk_sysfd (y_fs s) (y_proc s) (<[p := t_tty t]> (y_ttys s)) (t_con t) (t_kbd t) (t_user t)).

Definition with_fd_table (t : list Z) (p : Process) : Process :=
  mk_Process (pid p) (parent p) (state p) (wait_reason p) (wait_pid p) (exit_status p) (context_switches p)
    (wake_time_ns p) (quantum_start_ns p) (cwd_inode p) (wait_mutex p) (pml4 p) (heap_break p) (uheap p)
    (kernel_stack p) (p_kernel_rsp p) (kernel_rsp_saved p) (p_user_rsp p) (context_frame p) (syscall_frame p)
    t (entry p) (fs_base p) (tidptr p).
Definition with_cwd_inode (c : Z) (p : Process) : Process :=
  mk_Process (pid p) (parent p) (state p) (wait_reason p) (wait_pid p) (exit_status p) (context_switches p)
    (wake_time_ns p) (quantum_start_ns p) c (wait_mutex p) (pml4 p) (heap_break p) (uheap p)
    (kernel_stack p) (p_kernel_rsp p) (kernel_rsp_saved p) (p_user_rsp p) (context_frame p) (syscall_frame p)
    (fd_table p) (entry p) (fs_base p) (tidptr p).
Definition set_table (t : list Z) : M sysfd unit := modify (λ s, y_with_proc (with_fd_table t (y_proc s)) s).
Definition set_cwd (c : Z) : M sysfd unit := modify (λ s, y_with_proc (with_cwd_inode c (y_proc s)) s).

Definition with_offset (n : Z) (d : FileDescriptor) : FileDescriptor := mk_FileDescriptor (fd_inode d) (fd_path d) n (fd_flags d).

(** Little-endian integers in memory. *)
Fixpoint le_bytes (n : nat) (z : Z) : list Z :=
  match n with O => [] | S n' => Z.land z 0xFF :: le_bytes n' (Z.shiftr z 8) end.
Fixpoint le_value (l : list Z) : Z := match l with [] => 0 | b :: l' => b + 256 * le_value l' end.

(** [memcpy] between two places in memory. *)
Fixpoint u_memcpy (n : nat) (dst src : Z) : M umem unit :=
  match n with O => mret () | S n' => b ← u_load src; _ ← u_store dst b; u_memcpy n' (dst + 1) (src + 1) end.

(** [kcopy_to_user] from memory. *)
Definition kcopy_mem_to_user (dst src size : Z) : M umem unit :=
  _ ← kassert (is_user_range dst size);
  flags ← gets (λ s, read_rflags (um_cpu s));
  _ ← on_cpu_regs stac;
  _ ← u_memcpy (Z.to_nat size) dst src;
  on_cpu_regs (write_rflags flags).

(** ** [Process::to_string] *)

Definition get_state_str (p : Process) : option string :=
  match state p with
  | READY => Some "READY"%string
  | NEW => Some "NEW"%string
  | RUNNING => Some "RUNNING"%string
  | DEAD => Some "DEAD"%string
  | ZOMBIE => Some "ZOMBIE"%string
  | BLOCKED => Some "BLOCKED"%string
  | SLEEPING => None
  end.

Definition self_format : list Z :=
  lit "pid = {}" ++ [10] ++ lit "cwd = {}" ++ [10] ++ lit "state = {}" ++ [10] ++ lit "pml4         @ {}" ++ [10] ++
  lit "kernel stack @ {}" ++ [10] ++ lit "kernel rsp   @ {}" ++ [10] ++ lit "entry rip    @ {}" ++ [10] ++
  lit "context switch count = {}".

(** An unknown state is a [kpanic]. *)
Definition process_to_string : M sysfd (list Z) :=
  p ← gets y_proc;
  cwd ← on_fs (getcwd (cwd_inode p));
  st ← match get_state_str p with Some st => mret st | None => panic end;
  cwd_str ← construct (ks_from_cstr (Some (cwd ++ [0])));
  format ← of_option (sv_of_cstr (self_format ++ [0]));
  str ← construct (sprintf format
    [ASigned (pid p); AString cwd_str; ACstr (lit st ++ [0]); AUnsignedIn HEX (pml4 p); AUnsignedIn HEX (kernel_stack p);
     AUnsignedIn HEX (p_kernel_rsp p); AUnsignedIn HEX (entry p); AUnsigned (context_switches p)]);
  mret (chars str).

(** ** Methods of inodes *)

(** [TmpFileInode::read]: byte by byte, the offset of the descriptor with it. *)
Definition tmp_read (fd : Z) (data : list Z) (buff count : Z) : M sysfd Z :=
  d ← on_fs (fdesc fd);
  if length data <=? fd_offset d then mret 0 else
  let available := length data - fd_offset d in
  let to_read := if count <? available then count else available in
  _ ← for_each (seqZ 0 to_read) (λ i,
    d ← on_fs (fdesc fd);
    b ← of_option (data !! Z.to_nat (fd_offset d));
    _ ← on_fs (set_fdesc fd (with_offset (wrap64 (fd_offset d + 1))));
    on_mem (u_store (buff + i) b));
  mret (to_int to_read).

Definition tmp_data (p : Z) : M vfs (list Z) :=
  i ← inode p; match i_class i with TmpFileInode data => mret data | _ => fault end.

(** [data.resize] never makes the vector shorter; an index past its end is out of bounds. *)
Definition tmp_write (fd p buff count : Z) : M sysfd Z :=
  d ← on_fs (fdesc fd);
  data ← on_fs (tmp_data p);
  let n := Z.to_nat (wrap64 (fd_offset d + count)) in
  _ ← on_fs (set_inode p (with_class (TmpFileInode (data ++ replicate (n - length data) 0))));
  _ ← for_each (seqZ 0 count) (λ i,
    b ← on_mem (u_load (buff + i));
    d ← on_fs (fdesc fd);
    data ← on_fs (tmp_data p);
    _ ← on_fs (set_fdesc fd (with_offset (wrap64 (fd_offset d + 1))));
    if fd_offset d <? length data
    then on_fs (set_inode p (with_class (TmpFileInode (<[Z.to_nat (fd_offset d) := b]> data))))
    else fault);
  data ← on_fs (tmp_data p);
  _ ← on_fs (set_inode p (with_size (length data)));
  mret (to_int count).

Definition SEEK_SET : Z := 0.
Definition SEEK_CUR : Z := 1.
Definition SEEK_END : Z := 2.

(** [static_cast<std::intmax_t>]. *)
Definition to_intmax (z : Z) : Z := if z <? 2 ^ 63 then z else z - 2 ^ 64.

Definition tmp_lseek (fd : Z) (size offset whence : Z) : M vfs Z :=
  d ← fdesc fd;
  if whence =? SEEK_SET then
    if offset <? 0 then mret (- EINVAL) else
    _ ← set_fdesc fd (with_offset offset); mret 0
  else if whence =? SEEK_CUR then
    if to_intmax (fd_offset d) + offset <? 0 then mret (- EINVAL) else
    _ ← set_fdesc fd (with_offset (wrap64 (fd_offset d + offset))); mret 0
  else if whence =? SEEK_END then
    if to_intmax size + offset <? 0 then mret (- EINVAL) else
    _ ← set_fdesc fd (with_offset (wrap64 (size + offset))); mret 0
  else mret (- EINVAL).

(** [InitramfsFileInode::read] copies [count] bytes from the start of the data. *)
Definition initramfs_read (tar_data buff count : Z) : M sysfd Z :=
  _ ← on_mem (if is_user_addr buff then kcopy_mem_to_user buff tar_data count else u_memcpy (Z.to_nat count) buff tar_data);
  mret (to_int count).

Definition proc_self_read (buff count : Z) : M sysfd Z :=
  str ← process_to_string;
  _ ← on_mem (kcopy_to_user buff (take (Z.to_nat (if length str <? count then length str : Z else count)) str));
  mret (to_int (length str)).

Definition some {A} (m : M sysfd A) : M sysfd (option A) := x ← m; mret (Some x).

Definition inode_read (p fd buff count : Z) : M sysfd (option Z) :=
  i ← on_fs (inode p);
  match i_class i with
  | TmpFileInode data => some (tmp_read fd data buff count)
  | InitramfsFileInode data => some (initramfs_read data buff count)
  | TmpDirectoryInode _ | InitramfsDirectoryInode _ | DevDirectoryInode | ProcDirectoryInode => mret (Some (- EISDIR))
  | DevNullInode => mret (Some 0)
  | DevTtyInode => on_terminal p (tty_read buff count)
  | ProcSelfInode => some (proc_self_read buff count)
  end.

Definition inode_write (p fd buff count : Z) : M sysfd Z :=
  i ← on_fs (inode p);
  match i_class i with
  | TmpFileInode _ => tmp_write fd p buff count
  | InitramfsFileInode _ => mret 0
  | TmpDirectoryInode _ | InitramfsDirectoryInode _ | DevDirectoryInode | ProcDirectoryInode => mret (- EISDIR)
  | DevNullInode => mret (to_int count)
  | DevTtyInode => on_terminal p (tty_write buff count)
  | ProcSelfInode => mret (- EROFS)
  end.

Definition inode_lseek (p fd offset whence : Z) : M sysfd Z :=
  i ← on_fs (inode p);
  match i_class i with
  | TmpFileInode _ => on_fs (tmp_lseek fd (i_size i) offset whence)
  | TmpDirectoryInode _ | InitramfsDirectoryInode _ | DevDirectoryInode | ProcDirectoryInode => mret (- EISDIR)
  | DevTtyInode => mret (- ESPIPE)
  | InitramfsFileInode _ | DevNullInode | ProcSelfInode => mret 0
  end.

(** [Stat]: the type at offset 0, the size at offset 8. *)
Definition type_code (t : FileType) : Z :=
  match t with FT_NONE => 0 | REGULAR => 1 | DIRECTORY => 2 | CHAR_DEVICE => 3 end.
Definition store_stat (stat : Z) (o : option Stat) : M sysfd unit :=
  match o with
  | None => mret ()
  | Some st => on_mem (_ ← copy_out (stat + 8) (le_bytes 8 (st_size st)); copy_out stat [type_code (st_type st)])
  end.

Definition inode_ioctl (p request arg : Z) : M sysfd Z :=
  i ← on_fs (inode p);
  match i_class i with DevTtyInode => on_terminal p (tty_ioctl request arg) | _ => mret (- ENOTTY) end.

(** ** System calls *)

Section calls.
Variable new_addr : vfs → Z.

(** A closed descriptor is a null pointer in the table. *)
Fixpoint scan_fds (table : list Z) (i : Z) : M sysfd (option Z) :=
  match table with
  | [] => mret None
  | p :: rest => d ← on_fs (fdesc p); if fd_inode d =? 0 then mret (Some i) else scan_fds rest (i + 1)
  end.
Definition alloc_fd : M sysfd Z :=
  t ← gets (λ s, fd_table (y_proc s));
  o ← scan_fds t 0;
  match o with
  | Some i => mret i
  | None => _ ← set_table (t ++ [0]); mret (Z.of_nat (length t))
  end.

Definition get_fd (fd : Z) : M sysfd Z :=
  t ← gets (λ s, fd_table (y_proc s));
  mret (if fd <? 0 then 0 else default 0 (t !! Z.to_nat fd)).

(** [process->fd_table[fd] = p]. *)
Definition set_fd (fd p : Z) : M sysfd unit :=
  t ← gets (λ s, fd_table (y_proc s)); set_table (<[Z.to_nat fd := p]> t).

Definition sys_open (path flags : Z) : M sysfd Z :=
  path_str ← on_mem (ks_from_userspace path);
  desc ← on_fs (fs_open new_addr path_str flags);
  if desc =? 0 then mret (- ENOENT) else
  fd ← alloc_fd;
  _ ← set_fd fd desc;
  mret fd.

Definition sys_read (fd buffer count : Z) : M sysfd (option Z) :=
  desc ← get_fd fd;
  if desc =? 0 then mret (Some (- EBADF)) else
  d ← on_fs (fdesc desc);
  inode_read (fd_inode d) desc buffer count.

Definition sys_write (fd buffer count : Z) : M sysfd Z :=
  desc ← get_fd fd;
  if desc =? 0 then mret (- EBADF) else
  d ← on_fs (fdesc desc);
  inode_write (fd_inode d) desc buffer count.

(** The vector is read while RFLAGS.AC is set; an error returns without clearing it. *)
Fixpoint readv_loop (n : nat) (desc p iov total : Z) : M sysfd (option Z) :=
  match n with
  | O => _ ← on_mem (on_cpu_regs clac); mret (Some total)
  | S n' =>
      len ← on_mem (copy_in 8 (iov + 8));
      if le_value len =? 0 then readv_loop n' desc p (iov + 16) total else
      base ← on_mem (copy_in 8 iov);
      len ← on_mem (copy_in 8 (iov + 8));
      r ← inode_read p desc (le_value base) (le_value len);
      match r with
      | None => mret None
      | Some read =>
          if read <? 0 then mret (Some (if 0 <? total then total else read))
          else readv_loop n' desc p (iov + 16) (to_int (total + read))
      end
  end.
Definition sys_readv (fd iov iovcnt : Z) : M sysfd (option Z) :=
  desc ← get_fd fd;
  if desc =? 0 then mret (Some (- EBADF)) else
  if iovcnt <? 0 then mret (Some (- EINVAL)) else
  _ ← on_mem (on_cpu_regs stac);
  d ← on_fs (fdesc desc);
  readv_loop (Z.to_nat iovcnt) desc (fd_inode d) iov 0.

Fixpoint writev_loop (n : nat) (desc p iov total : Z) : M sysfd Z :=
  match n with
  | O => mret total
  | S n' =>
      v ← on_mem (kcopy_from_user iov 16);
      let base := le_value (take 8 v) in
      let len := le_value (drop 8 v) in
      if len =? 0 then writev_loop n' desc p (iov + 16) total else
      written ← inode_write p desc base len;
      if written <? 0 then mret (if 0 <? total then total else written)
      else writev_loop n' desc p (iov + 16) (to_int (total + written))
  end.
Definition sys_writev (fd iov iovcnt : Z) : M sysfd Z :=
  desc ← get_fd fd;
  if desc =? 0 then mret (- EBADF) else
  if iovcnt <? 0 then mret (- EINVAL) else
  d ← on_fs (fdesc desc);
  writev_loop (Z.to_nat iovcnt) desc (fd_inode d) iov 0.

Definition sys_ioctl (fd request arg : Z) : M sysfd Z :=
  desc ← get_fd fd;
  if desc =? 0 then mret (- EBADF) else
  d ← on_fs (fdesc desc);
  inode_ioctl (fd_inode d) request arg.

Definition sys_close (fd : Z) : M sysfd Z :=
  desc ← get_fd fd;
  if desc =? 0 then mret (- EBADF) else
  d ← on_fs (fdesc desc);
  result ← on_fs (inode_close (fd_inode d));
  _ ← set_fd fd 0;
  mret result.

(** The path is read, and the result stored, without [stac]. *)
Definition sys_stat (path stat : Z) : M sysfd Z :=
  n ← gets (λ s, size (um_mem (y_user s)));
  path_str ← on_mem (read_cstr n path);
  r ← on_fs (fs_stat path_str);
  _ ← store_stat stat r.1;
  mret r.2.

Definition sys_fstat (fd stat : Z) : M sysfd Z :=
  desc ← get_fd fd;
  if desc =? 0 then mret (- EBADF) else
  d ← on_fs (fdesc desc);
  r ← on_fs (inode_stat (fd_inode d));
  _ ← store_stat stat r.1;
  mret r.2.

(** The 64-bit offset becomes an [int]. *)
Definition sys_lseek (fd offset whence : Z) : M sysfd Z :=
  desc ← get_fd fd;
  if desc =? 0 then mret (- EBADF) else
  d ← on_fs (fdesc desc);
  inode_lseek (fd_inode d) desc (to_int offset) whence.

Definition sys_getcwd (buffer size : Z) : M sysfd Z :=
  p ← gets y_proc;
  cwd ← on_fs (getcwd (cwd_inode p));
  if size <? length cwd + 1 then mret (- ERANGE) else
  _ ← on_mem (kcopy_to_user buffer (cwd ++ [0]));
  mret buffer.

(** The descriptor [open] makes is not freed. *)
Definition sys_chdir (path : Z) : M sysfd Z :=
  path_str ← on_mem (ks_from_userspace path);
  desc ← on_fs (fs_open new_addr path_str 0);
  if desc =? 0 then mret (- EBADF) else
  d ← on_fs (fdesc desc);
  i ← on_fs (inode (fd_inode d));
  if decide (i_type i = DIRECTORY) then _ ← set_cwd (fd_inode d); mret 0 else mret (- ENOTDIR).

Definition sys_fchdir (fd : Z) : M sysfd Z :=
  desc ← get_fd fd;
  if desc =? 0 then mret (- EBADF) else
  d ← on_fs (fdesc desc);
  i ← on_fs (inode (fd_inode d));
  if decide (i_type i = DIRECTORY) then _ ← set_cwd (fd_inode d); mret 0 else mret (- ENOTDIR).

Definition sys_mkdir (path : Z) : M sysfd Z :=
  path_str ← on_mem (ks_from_userspace path);
  on_fs (fs_mkdir new_addr path_str).

Definition sys_fcntl (fd cmd arg : Z) : M sysfd Z := mret 1.

(** [linux_dirent64], packed: inode and offset of 8 bytes, length of 2, type, name of 256. *)
Definition DIRENT_SIZE : Z := 275.
Definition dirent_bytes (ino : Z) (e : DirEntry) : list Z :=
  let name := take 256 (c_str (de_name e)) in
  le_bytes 8 ino ++ le_bytes 8 0 ++ le_bytes 2 DIRENT_SIZE ++ [type_code (de_type e)] ++
  name ++ replicate (256 - length name) 0.

(** One entry per round, the offset of the descriptor with it; at most [max] of them. *)
Fixpoint getdents_loop (max : nat) (desc : Z) (entries : list DirEntry) (ino : Z) (acc : list Z) : M vfs (list Z) :=
  d ← fdesc desc;
  match entries !! Z.to_nat (fd_offset d), max with
  | Some e, S max' =>
      _ ← set_fdesc desc (with_offset (wrap64 (fd_offset d + 1)));
      getdents_loop max' desc entries (ino + 1) (acc ++ dirent_bytes ino e)
  | _, _ => mret acc
  end.
Definition sys_getdents64 (fd buffer count : Z) : M sysfd Z :=
  desc ← get_fd fd;
  if desc =? 0 then mret (- EBADF) else
  d ← on_fs (fdesc desc);
  r ← on_fs (fs_readdir (fd_path d) []);
  if length r.1 <=? fd_offset d then mret 0 else
  dirents ← on_fs (getdents_loop (Z.to_nat (count / DIRENT_SIZE)) desc r.1 1 []);
  _ ← on_mem (kcopy_to_user buffer dirents);
  mret (to_int (length dirents)).
End calls.
