(* ===== verification/SysFdProofs.v ===== *)
(** * File descriptors: proofs

    Reading, writing and seeking in a file of a tmpfs through a descriptor, and listing a directory in pieces;
    then the places where the calls fail. *)

From Stdlib Require Import String Ascii.
From S2P Require Import Prelude KVector KString Algo Cpu Spinlock Pmm Vmm Crt Fmt UserMem Vfs VfsProofs Process.
From S2P Require Import Font Framebuffer Console ConsoleProofs Keyboard Tty SysFd.

#[local] Coercion Z.of_nat : nat >-> Z.

Section files.
Implicit Types (s : sysfd) (f : vfs) (u : umem) (d : FileDescriptor) (i : Inode) (l data : list Z).

(** The file system the process sees. *)
Definition fsview s : vfs := with_cwd (cwd_inode (y_proc s)) (y_fs s).

Lemma on_fs_ok {A} (m : M vfs A) s f (a : A) : m (fsview s) = Ok (f, a) → on_fs m s = Ok (y_with_fs f s, a).
Proof. intros H. unfold on_fs, zoom. fold (fsview s). by rewrite H. Qed.
Lemma on_mem_ok {A} (m : M umem A) s u (a : A) : m (y_user s) = Ok (u, a) → on_mem m s = Ok (y_with_user u s, a).
Proof. intros H. unfold on_mem, zoom. by rewrite H. Qed.

(** [f] with the descriptor at [q] and the inode at [p] as given. *)
Definition file_fs f (q : Z) d (p : Z) i : vfs :=
  mk_vfs (<[p := i]> (inodes f)) (mounts f) (<[q := d]> (fdescs f)) (g_root_mountpoint f) (g_mountpoints f) (v_cwd f).

Lemma file_fs_id f q d p i : fdescs f !! q = Some d → inodes f !! p = Some i → file_fs f q d p i = f.
Proof. intros Hd Hi. unfold file_fs. rewrite !insert_id by done. by destruct f. Qed.

Lemma fdesc_run f q d p i : fdesc q (file_fs f q d p i) = Ok (file_fs f q d p i, d).
Proof. unfold fdesc, mbind, M_bind, gets. cbn. by rewrite lookup_insert_eq. Qed.
Lemma file_inode_run f q d p i : inode p (file_fs f q d p i) = Ok (file_fs f q d p i, i).
Proof. apply inode_run. cbn. by rewrite lookup_insert_eq. Qed.
Lemma set_fdesc_run f q d p i g : set_fdesc q g (file_fs f q d p i) = Ok (file_fs f q (g d) p i, ()).
Proof.
  unfold set_fdesc. rewrite (bind_ok _ _ _ _ _ (fdesc_run f q d p i)). unfold modify, with_fdescs, file_fs. cbn. do 3 f_equal.
  by rewrite alter_insert_eq.
Qed.
Lemma set_file_run f q d p i g : set_inode p g (file_fs f q d p i) = Ok (file_fs f q d p (g i), ()).
Proof.
  rewrite (set_inode_run _ p i); [|cbn; by rewrite lookup_insert_eq]. unfold with_inodes, file_fs. cbn. by rewrite insert_insert_eq.
Qed.
Lemma tmp_data_run f q d p i data : i_class i = TmpFileInode data → tmp_data p (file_fs f q d p i) = Ok (file_fs f q d p i, data).
Proof. intros Hk. unfold tmp_data. by rewrite (bind_ok _ _ _ _ _ (file_inode_run f q d p i)), Hk. Qed.

(** A system state with the file as given, and memory [u]. *)
Definition file_st s q d p i u : sysfd := y_with_user u (y_with_fs (file_fs (fsview s) q d p i) s).

Lemma on_file_ok {A} (m : M vfs A) s q d p i u d' i' (a : A) :
  m (file_fs (fsview s) q d p i) = Ok (file_fs (fsview s) q d' p i', a) → on_fs m (file_st s q d p i u) = Ok (file_st s q d' p i' u, a).
Proof. intros H. rewrite (on_fs_ok m _ (file_fs (fsview s) q d' p i') a); [done|exact H]. Qed.
Lemma on_file_mem_ok {A} (m : M umem A) s q d p i u u' (a : A) :
  m u = Ok (u', a) → on_mem m (file_st s q d p i u) = Ok (file_st s q d p i u', a).
Proof. intros H. by rewrite (on_mem_ok m _ u' a). Qed.

Lemma u_load_run u a b : smap_allows (um_cpu u) a = true → um_mem u !! a = Some b → u_load a u = Ok (u, b).
Proof.
  intros Hc Hb. unfold u_load, mbind, M_bind, gets. rewrite Hc. unfold on_bytes, zoom, load8, mbind, M_bind, gets. rewrite Hb.
  by destruct u.
Qed.
Lemma u_store_run u a b : smap_allows (um_cpu u) a = true → is_Some (um_mem u !! a) →
  u_store a b u = Ok (mk_umem (um_cpu u) (<[a := b]> (um_mem u)), ()).
Proof.
  intros Hc [x Hx]. unfold u_store, mbind, M_bind, gets. rewrite Hc. unfold on_bytes, zoom, store8, load8, mbind, M_bind, gets.
  by rewrite Hx.
Qed.

(** The CPU lets the kernel touch [n] bytes from [a] on. *)
Fixpoint accessible (c : cpu) (a : Z) (n : nat) : bool :=
  match n with O => true | S n' => smap_allows c a && accessible c (a + 1) n' end.

Lemma u_load_denied u a : smap_allows (um_cpu u) a = false → u_load a u = Fault.
Proof. intros H. unfold u_load, mbind, M_bind, gets. by rewrite H. Qed.
Lemma u_store_denied u a b : smap_allows (um_cpu u) a = false → u_store a b u = Fault.
Proof. intros H. unfold u_store, mbind, M_bind, gets. by rewrite H. Qed.
Lemma bind_fault {S A B} (m : M S A) (k : A → M S B) (w : S) : m w = Fault → (m ≫= k) w = Fault.
Proof. intros H. unfold mbind, M_bind. by rewrite H. Qed.
Lemma on_mem_fault {A} (m : M umem A) s : m (y_user s) = Fault → on_mem m s = Fault.
Proof. intros H. unfold on_mem, zoom. by rewrite H. Qed.

(** ** Writing *)

(** The bytes of a file after [l] has been written at [off]: the gap before it is zero. *)
Definition splice (off : Z) l data : list Z :=
  let d := data ++ replicate (Z.to_nat (off + length l) - length data) 0 in
  take (Z.to_nat off) d ++ l ++ drop (Z.to_nat (off + length l)) d.

Definition write_step (fd p buff i : Z) : M sysfd unit :=
  b ← on_mem (u_load (buff + i));
  d ← on_fs (fdesc fd);
  data ← on_fs (tmp_data p);
  _ ← on_fs (set_fdesc fd (with_offset (wrap64 (fd_offset d + 1))));
  if fd_offset d <? length data
  then on_fs (set_inode p (with_class (TmpFileInode (<[Z.to_nat (fd_offset d) := b]> data))))
  else fault.

Lemma write_step_run s q d p i u buff k off data b : smap_allows (um_cpu u) (buff + k) = true → um_mem u !! (buff + k) = Some b →
  0 ≤ off < length data → off + 1 < 2 ^ 64 →
  write_step q p buff k (file_st s q (with_offset off d) p (with_class (TmpFileInode data) i) u) =
  Ok (file_st s q (with_offset (off + 1) d) p (with_class (TmpFileInode (<[Z.to_nat off := b]> data)) i) u, ()).
Proof.
  intros Hc Hb Hoff Hmax. unfold write_step. rewrite (bind_ok _ _ _ _ _ (on_file_mem_ok _ _ _ _ _ _ _ _ _ (u_load_run u (buff + k) b Hc Hb))).
  rewrite (bind_ok _ _ _ _ _ (on_file_ok _ _ _ _ _ _ _ _ _ _ (fdesc_run _ _ _ _ _))).
  rewrite (bind_ok _ _ _ _ _ (on_file_ok _ _ _ _ _ _ _ _ _ _ (tmp_data_run _ _ _ _ (with_class (TmpFileInode data) i) data eq_refl))).
  rewrite (bind_ok _ _ _ _ _ (on_file_ok _ _ _ _ _ _ _ _ _ _ (set_fdesc_run _ _ _ _ _ _))).
  cbn [fd_offset with_offset]. rewrite (proj2 (Z.ltb_lt _ _)) by lia.
  rewrite (on_file_ok _ _ _ _ _ _ _ _ _ _ (set_file_run _ _ _ _ _ _)). rewrite wrap_small by (unfold is_word; lia). done.
Qed.

Lemma write_loop s q d p i u buff l k off data : bytes_at (um_mem u) (buff + k) l →
  0 ≤ off → off + length l ≤ length data → off + length l < 2 ^ 64 →
  for_each (seqZ k (length l)) (write_step q p buff) (file_st s q (with_offset off d) p (with_class (TmpFileInode data) i) u) =
  if accessible (um_cpu u) (buff + k) (length l) then
    Ok (file_st s q (with_offset (off + length l) d) p
         (with_class (TmpFileInode (take (Z.to_nat off) data ++ l ++ drop (Z.to_nat (off + length l)) data)) i) u, ())
  else Fault.
Proof.
  revert k off data. induction l as [|b l IH]; intros k off data Hb Hoff Hlen Hmax.
  { cbn. rewrite Z.add_0_r, take_drop. done. }
  destruct Hb as [Hb Hl]. cbn [length accessible] in *. rewrite seqZ_cons by lia. cbn [for_each].
  destruct (smap_allows (um_cpu u) (buff + k)) eqn:Hc; cbn [andb].
  2:{ apply bind_fault, bind_fault, on_mem_fault. by apply u_load_denied. }
  rewrite (bind_ok _ _ _ _ _ (write_step_run s q d p i u buff k off data b Hc Hb ltac:(lia) ltac:(lia))).
  replace (Z.pred (S (length l))) with (Z.of_nat (length l)) by lia. rewrite (IH (Z.succ k) (off + 1)).
  - replace (buff + Z.succ k) with (buff + k + 1) by lia. destruct (accessible _ _ _); [|done].
    do 3 f_equal; [f_equal; lia|]. do 2 f_equal. replace (Z.to_nat (off + 1)) with (S (Z.to_nat off)) by lia.
    destruct (lookup_lt_is_Some_2 data (Z.to_nat off)) as [x Hx]; [lia|].
    rewrite (take_S_r _ _ b) by (apply list_lookup_insert_eq; lia). rewrite take_insert_ge, <- app_assoc by lia. cbn [app].
    rewrite drop_insert_lt by lia. do 3 f_equal. f_equal. lia.
  - by replace (buff + Z.succ k) with (buff + k + 1) by lia.
  - lia.
  - rewrite length_insert. lia.
  - lia.
Qed.

(** The descriptor [fd] of the process is open on a file of a tmpfs with these bytes, at offset [off]. *)
Record open_file s (fd off : Z) (data : list Z) (q : Z) d (p : Z) i : Prop := {
  of_fd : 0 ≤ fd ∧ fd_table (y_proc s) !! Z.to_nat fd = Some q ∧ q ≠ 0;
  of_desc : fdescs (y_fs s) !! q = Some d ∧ fd_inode d = p ∧ fd_offset d = off ∧ 0 ≤ off < 2 ^ 64;
  of_inode : inodes (y_fs s) !! p = Some i ∧ i_class i = TmpFileInode data ∧ i_size i = length data ∧ length data < 2 ^ 64;
}.
Definition file s (fd off : Z) data : Prop := ∃ q d p i, open_file s fd off data q d p i.

Lemma get_fd_run s fd q : 0 ≤ fd → fd_table (y_proc s) !! Z.to_nat fd = Some q → get_fd fd s = Ok (s, q).
Proof. intros H0 Hq. unfold get_fd, mbind, M_bind, gets. rewrite (proj2 (Z.ltb_ge fd 0)) by done. by rewrite Hq. Qed.

(** The calls on a descriptor get to it. *)
Lemma desc_run {A} s fd q d p i (k : Z → FileDescriptor → M sysfd A) (z : A) :
  0 ≤ fd → fd_table (y_proc s) !! Z.to_nat fd = Some q → q ≠ 0 → fdescs (y_fs s) !! q = Some d → inodes (y_fs s) !! p = Some i →
  (desc ← get_fd fd; if desc =? 0 then mret z else d ← on_fs (fdesc desc); k desc d) s = k q d (file_st s q d p i (y_user s)).
Proof.
  intros Hfd Hq Hq0 Hd Hi. rewrite (bind_ok _ _ _ _ _ (get_fd_run s fd q Hfd Hq)). rewrite (proj2 (Z.eqb_neq q 0)) by done.
  assert (fdesc q (fsview s) = Ok (file_fs (fsview s) q d p i, d)) as Hrun.
  { rewrite <- (file_fs_id (fsview s) q d p i Hd Hi) at 1. apply fdesc_run. }
  rewrite (bind_ok _ _ _ _ _ (on_fs_ok _ _ _ _ Hrun)). by destruct s.
Qed.

Lemma with_desc_run {A} s fd off data q d p i (k : Z → FileDescriptor → M sysfd A) (z : A) : open_file s fd off data q d p i →
  (desc ← get_fd fd; if desc =? 0 then mret z else d ← on_fs (fdesc desc); k desc d) s = k q d (file_st s q d p i (y_user s)).
Proof. intros [(? & ? & ?) (? & _) (? & _)]. by apply desc_run. Qed.

Lemma file_st_open s fd off data q d p i u off' data' d' i' : open_file s fd off data q d p i →
  fd_inode d' = p → fd_offset d' = off' → 0 ≤ off' < 2 ^ 64 → i_class i' = TmpFileInode data' → i_size i' = length data' →
  length data' < 2 ^ 64 → open_file (file_st s q d' p i' u) fd off' data' q d' p i'.
Proof. intros [Hfd _ _] ? ? ? ? ? ?. split; cbn; rewrite ?lookup_insert_eq; done. Qed.

Lemma with_offset_id d : with_offset (fd_offset d) d = d.
Proof. by destruct d. Qed.

Lemma splice_length off l data : 0 ≤ off → length (splice off l data) = Nat.max (length data) (Z.to_nat (off + length l)).
Proof. intros H. unfold splice. rewrite !length_app, length_take, length_drop, !length_app, length_replicate. lia. Qed.

Lemma sys_write_run s fd off data q d p i buff l : open_file s fd off data q d p i →
  bytes_at (um_mem (y_user s)) buff l → off + length l < 2 ^ 64 → length l < 2 ^ 31 →
  if accessible (um_cpu (y_user s)) buff (length l) then
    ∃ s', sys_write fd buff (length l) s = Ok (s', Z.of_nat (length l)) ∧ file s' fd (off + length l) (splice off l data) ∧ y_user s' = y_user s
  else sys_write fd buff (length l) s = Fault.
Proof.
  intros Ho Hb Hmax Hlen. pose proof Ho as [_ (_ & Hp & Hoff & Hor) (_ & Hk & Hsz & Hdl)]. unfold sys_write.
  rewrite (with_desc_run _ _ _ _ _ _ _ _ (λ desc d, inode_write (fd_inode d) desc buff (length l)) _ Ho). unfold inode_write. rewrite Hp.
  rewrite (bind_ok _ _ _ _ _ (on_file_ok _ _ _ _ _ _ _ _ _ _ (file_inode_run _ _ _ _ _))), Hk. unfold tmp_write.
  rewrite (bind_ok _ _ _ _ _ (on_file_ok _ _ _ _ _ _ _ _ _ _ (fdesc_run _ _ _ _ _))).
  rewrite (bind_ok _ _ _ _ _ (on_file_ok _ _ _ _ _ _ _ _ _ _ (tmp_data_run _ _ _ _ i data Hk))).
  rewrite (bind_ok _ _ _ _ _ (on_file_ok _ _ _ _ _ _ _ _ _ _ (set_file_run _ _ _ _ _ _))). rewrite Hoff, wrap_small by (unfold is_word; lia).
  set (data0 := data ++ replicate (Z.to_nat (off + length l) - length data) 0).
  assert (length data0 = Nat.max (length data) (Z.to_nat (off + length l))) as Hl0.
  { unfold data0. rewrite length_app, length_replicate. lia. }
  rewrite <- (with_offset_id d), Hoff.
  pose proof (write_loop s q d p i (y_user s) buff l 0 off data0 ltac:(by rewrite Z.add_0_r) ltac:(lia) ltac:(lia) Hmax) as Hrun.
  rewrite Z.add_0_r in Hrun. destruct (accessible _ _ _); [|by apply bind_fault].
  rewrite (bind_ok (for_each _ _) _ _ _ () Hrun).
  fold (splice off l data). set (i1 := with_class (TmpFileInode (splice off l data)) i).
  rewrite (bind_ok _ _ _ _ _ (on_file_ok _ _ _ _ _ _ _ _ _ _ (tmp_data_run _ _ _ _ i1 (splice off l data) eq_refl))).
  rewrite (bind_ok _ _ _ _ _ (on_file_ok _ _ _ _ _ _ _ _ _ _ (set_file_run _ _ _ _ _ _))). rewrite to_int_small by lia.
  eexists. split; [done|]. split; [|done]. eexists _, _, _, _.
  eapply file_st_open; [exact Ho|done|done|lia|done|done|rewrite splice_length; lia].
Qed.

(** ** Reading *)

Definition read_step (fd : Z) (data : list Z) (buff i : Z) : M sysfd unit :=
  d ← on_fs (fdesc fd);
  b ← of_option (data !! Z.to_nat (fd_offset d));
  _ ← on_fs (set_fdesc fd (with_offset (wrap64 (fd_offset d + 1))));
  on_mem (u_store (buff + i) b).

Lemma mapped_next (m : mem) a (n : nat) b : mapped m a (S n) → mapped (<[a := b]> m) (a + 1) n.
Proof.
  intros Hm j Hj. rewrite lookup_insert_is_Some'. right. replace (a + 1 + j) with (a + (j + 1)) by lia. apply Hm. lia.
Qed.

Lemma read_loop s q d p i u buff data k off (n : nat) : mapped (um_mem u) (buff + k) n →
  0 ≤ off → off + n ≤ length data → off + n < 2 ^ 64 →
  if accessible (um_cpu u) (buff + k) n then ∃ m',
  for_each (seqZ k n) (read_step q data buff) (file_st s q (with_offset off d) p i u) =
    Ok (file_st s q (with_offset (off + n) d) p i (mk_umem (um_cpu u) m'), ()) ∧
  put_at (um_mem u) (buff + k) (take n (drop (Z.to_nat off) data)) m'
  else for_each (seqZ k n) (read_step q data buff) (file_st s q (with_offset off d) p i u) = Fault.
Proof.
  revert k off u. induction n as [|n IH]; intros k off u Hm Hoff Hlen Hmax.
  { exists (um_mem u). cbn. rewrite Z.add_0_r. destruct u. split; [done|]. by split_and!. }
  destruct (lookup_lt_is_Some_2 data (Z.to_nat off)) as [b Hb]; [lia|]. rewrite seqZ_cons by lia. cbn [for_each].
  assert (is_Some (um_mem u !! (buff + k))) as Ha by (rewrite <- (Z.add_0_r (buff + k)); apply Hm; lia).
  set (u1 := mk_umem (um_cpu u) (<[buff + k := b]> (um_mem u))). cbn [accessible].
  assert (∀ r, (on_mem (u_store (buff + k) b)) (file_st s q (with_offset (off + 1) d) p i u) = r →
    read_step q data buff k (file_st s q (with_offset off d) p i u) = r) as Hstep.
  { intros r <-. unfold read_step. rewrite (bind_ok _ _ _ _ _ (on_file_ok _ _ _ _ _ _ _ _ _ _ (fdesc_run _ _ _ _ _))). cbn [fd_offset with_offset].
    rewrite Hb, (bind_ok (of_option (Some b)) _ _ _ b eq_refl).
    rewrite (bind_ok _ _ _ _ _ (on_file_ok _ _ _ _ _ _ _ _ _ _ (set_fdesc_run _ _ _ _ _ _))).
    rewrite wrap_small by (unfold is_word; lia). done. }
  destruct (smap_allows (um_cpu u) (buff + k)) eqn:Hc; cbn [andb].
  2:{ apply bind_fault, Hstep, on_mem_fault. by apply u_store_denied. }
  specialize (Hstep _ (on_file_mem_ok _ _ _ _ _ _ _ _ _ (u_store_run u (buff + k) b Hc Ha))). rewrite (bind_ok _ _ _ _ _ Hstep). fold u1.
  replace (Z.pred (S n)) with (Z.of_nat n) by lia. specialize (IH (Z.succ k) (off + 1) u1).
  replace (buff + Z.succ k) with (buff + k + 1) in IH by lia. change (um_cpu u1) with (um_cpu u) in IH.
  destruct (accessible _ _ _); [|apply IH; [|lia..]; by apply mapped_next].
  destruct IH as (m' & Hrun & Hput); [by apply mapped_next|lia..|]. exists m'. split.
  - rewrite Hrun. do 3 f_equal. f_equal. lia.
  - rewrite (drop_S _ b) by done. cbn [take]. apply put_at_cons; [done|].
    by replace (Z.to_nat (off + 1)) with (S (Z.to_nat off)) in Hput by lia.
Qed.

(** The bytes a read of [count] delivers. *)
Definition readable (off count : Z) data : list Z := take (Z.to_nat count) (drop (Z.to_nat off) data).

Lemma inode_read_run s q d p i u data off buff count : fd_offset d = off ∧ 0 ≤ off < 2 ^ 64 → i_class i = TmpFileInode data ∧ length data < 2 ^ 64 →
  0 ≤ count → let r := readable off count data in length r < 2 ^ 31 → mapped (um_mem u) buff (length r) →
  if accessible (um_cpu u) buff (length r) then ∃ m',
    inode_read p q buff count (file_st s q d p i u) =
      Ok (file_st s q (with_offset (off + length r) d) p i (mk_umem (um_cpu u) m'), Some (Z.of_nat (length r))) ∧
    put_at (um_mem u) buff r m'
  else inode_read p q buff count (file_st s q d p i u) = Fault.
Proof.
  intros [Hoff Hor] [Hk Hdl] Hcount r Hlen Hm. unfold inode_read.
  rewrite (bind_ok _ _ _ _ _ (on_file_ok _ _ _ _ _ _ _ _ _ _ (file_inode_run _ _ _ _ _))), Hk. unfold some, tmp_read.
  assert (length r = Z.to_nat (Z.min count (length data - off))) as Hn by (unfold r, readable; rewrite length_take, length_drop; lia).
  destruct (Z.leb_spec (length data) off) as [Hend|Hin].
  - assert (r = []) as Hr by (apply nil_length_inv; lia). rewrite Hr. cbn [length accessible]. exists (um_mem u).
    rewrite Z.add_0_r, <- Hoff, with_offset_id. split; [|by split_and!]. destruct u as [c m].
    rewrite (bind_ok _ _ _ (file_st s q d p i (mk_umem c m)) 0); [done|].
    rewrite (bind_ok _ _ _ _ _ (on_file_ok _ _ _ _ _ _ _ _ _ _ (fdesc_run _ _ _ _ _))), Hoff. by rewrite (proj2 (Z.leb_le _ _)) by done.
  - pose proof (read_loop s q d p i u buff data 0 off (length r) ltac:(by rewrite Z.add_0_r) ltac:(lia) ltac:(lia) ltac:(lia)) as Hrun.
    rewrite Z.add_0_r in Hrun. set (d1 := with_offset off d) in Hrun.
    assert (d1 = d) as -> by (unfold d1; rewrite <- Hoff; apply with_offset_id).
    replace (take (length r) (drop (Z.to_nat off) data)) with r in Hrun.
    2:{ unfold r, readable. rewrite length_take. by rewrite <- take_take, firstn_all. }
    assert ((if count <? length data - off then count else length data - off) = Z.of_nat (length r)) as Hto
      by (destruct (Z.ltb_spec count (length data - off)); lia).
    destruct (accessible _ _ _); [destruct Hrun as (m' & Hrun & Hput); exists m'; split; [|done]|apply bind_fault].
    + rewrite (bind_ok _ _ _ (file_st s q (with_offset (off + length r) d) p i (mk_umem (um_cpu u) m')) (Z.of_nat (length r))); [done|].
      rewrite (bind_ok _ _ _ _ _ (on_file_ok _ _ _ _ _ _ _ _ _ _ (fdesc_run _ _ _ _ _))), Hoff.
      rewrite (proj2 (Z.leb_gt _ _)), Hto, (bind_ok (for_each _ _) _ _ _ () Hrun) by done. by rewrite to_int_small by lia.
    + rewrite (bind_ok _ _ _ _ _ (on_file_ok _ _ _ _ _ _ _ _ _ _ (fdesc_run _ _ _ _ _))), Hoff.
      rewrite (proj2 (Z.leb_gt _ _)), Hto by done. by apply bind_fault.
Qed.

Lemma sys_read_run s fd off data q d p i buff count : open_file s fd off data q d p i → 0 ≤ count →
  let r := readable off count data in length r < 2 ^ 31 → mapped (um_mem (y_user s)) buff (length r) →
  if accessible (um_cpu (y_user s)) buff (length r) then
    ∃ s', sys_read fd buff count s = Ok (s', Some (Z.of_nat (length r))) ∧ file s' fd (off + length r) data ∧
      put_at (um_mem (y_user s)) buff r (um_mem (y_user s')) ∧ um_cpu (y_user s') = um_cpu (y_user s)
  else sys_read fd buff count s = Fault.
Proof.
  intros Ho Hcount r Hlen Hm. pose proof Ho as [_ (_ & Hp & Hoff & Hor) (_ & Hk & Hsz & Hdl)]. unfold sys_read.
  rewrite (with_desc_run _ _ _ _ _ _ _ _ (λ desc d, inode_read (fd_inode d) desc buff count) _ Ho), Hp.
  pose proof (inode_read_run s q d p i (y_user s) data off buff count (conj Hoff Hor) (conj Hk Hdl) Hcount Hlen Hm) as Hrun.
  cbv zeta in Hrun. fold r in Hrun. destruct (accessible _ _ _); [|done]. destruct Hrun as (m' & Hrun & Hput).
  eexists. split; [exact Hrun|]. split; [|done]. eexists _, _, _, _.
  assert (length r ≤ length data - off ∨ length r = 0%nat) by (unfold r, readable; rewrite length_take, length_drop; lia).
  eapply file_st_open; [exact Ho|done|done|lia|done|done|done].
Qed.

(** ** Reading into several buffers *)

Lemma le_value_bytes (n : nat) z : 0 ≤ z < 2 ^ (8 * n) → le_value (le_bytes n z) = z.
Proof.
  revert z. induction n as [|n IH]; intros z Hz; cbn [le_bytes le_value]; [change (2 ^ (8 * 0%nat)) with 1 in Hz; lia|].
  change 0xFF with (Z.ones 8). rewrite Z.land_ones, Z.shiftr_div_pow2 by lia. rewrite IH.
  - change (2 ^ 8) with 256. lia.
  - replace (8 * S n) with (8 + 8 * n) in Hz by lia. rewrite Z.pow_add_r in Hz by lia. change (2 ^ 8) with 256 in *. split; [lia|].
    apply Z.div_lt_upper_bound; lia.
Qed.

(** [struct iovec] in memory: the base and the length. *)
Definition iovecs (segs : list (Z * Z)) : list Z := concat ((λ '(base, len), le_bytes 8 base ++ le_bytes 8 len) <$> segs).

(** The bytes of [l] go to the buffers, in order, as far as there are any. *)
Fixpoint scattered (segs : list (Z * Z)) l (m m' : mem) : Prop :=
  match segs with
  | [] => m' = m
  | (base, len) :: segs' => ∃ m1, put_at m base (take (Z.to_nat len) l) m1 ∧ scattered segs' (drop (Z.to_nat len) l) m1 m'
  end.
Definition seg_total (segs : list (Z * Z)) : Z := foldr (λ seg t, seg.2 + t) 0 segs.

(** A buffer in memory, apart from [n] bytes at [iov]. *)
Definition good_seg (m : mem) (iov n : Z) (seg : Z * Z) : Prop :=
  (0 ≤ seg.1 < 2 ^ 64 ∧ 0 ≤ seg.2 < 2 ^ 64) ∧ mapped m seg.1 seg.2 ∧ (seg.1 + seg.2 ≤ iov ∨ iov + n ≤ seg.1).

Lemma copy_in_run u a l : (∀ a, smap_allows (um_cpu u) a = true) → bytes_at (um_mem u) a l → copy_in (length l) a u = Ok (u, l).
Proof.
  intros Hc Hb. assert (wp (copy_in (length l) a) False (λ r u', r = l ∧ u' = u) u) as (u' & r & H & -> & ->)%wp_total; [|done].
  by apply wp_copy_in.
Qed.

Lemma bytes_apart m m' a l b l' : put_at m b l m' → b + length l ≤ a ∨ a + length l' ≤ b → bytes_at m a l' → bytes_at m' a l'.
Proof.
  intros (_ & _ & Ho) Ha. rewrite !bytes_at_lookup. intros H i c Hi. pose proof (lookup_lt_Some _ _ _ Hi).
  rewrite Ho by lia. by apply H.
Qed.

Lemma good_seg_next m m' iov n n' seg : same_addrs m m' → 0 ≤ n' → n' + 16 ≤ n → good_seg m iov n seg → good_seg m' (iov + 16) n' seg.
Proof. intros Hs Hn' Hn (H1 & H2 & H3). split; [done|]. split; [intros i Hi; by apply Hs, H2|lia]. Qed.

Lemma iovecs_length segs : length (iovecs segs) = (16 * length segs)%nat.
Proof. induction segs as [|[b n] segs IH]; [done|]. unfold iovecs in *. cbn [fmap list_fmap concat length]. rewrite !length_app, IH. cbn. lia. Qed.

(** The bytes for the first buffer, and those for the rest. *)
Lemma readable_split off n k data : 0 ≤ off → 0 ≤ n → 0 ≤ k → let r := readable off n data in
  take (Z.to_nat n) (readable off (n + k) data) = r ∧
  drop (Z.to_nat n) (readable off (n + k) data) = readable (off + length r) k data ∧
  length (readable off (n + k) data) = (length r + length (readable (off + length r) k data))%nat.
Proof.
  intros Ho Hn Hk r. unfold readable in *. rewrite Z2Nat.inj_add by done. set (l := drop (Z.to_nat off) data) in *.
  assert (drop (Z.to_nat (off + length r)) data = drop (Z.to_nat n) l) as E.
  { unfold l. rewrite drop_drop. unfold r. rewrite length_take. unfold l. rewrite length_drop.
    destruct (decide (Z.to_nat n ≤ length data - Z.to_nat off)%nat); [f_equal; lia|]. rewrite !drop_ge by lia. done. }
  rewrite E. split_and!.
  - rewrite take_take. unfold r. f_equal. lia.
  - rewrite <- take_drop_commute. done.
  - rewrite <- take_take_drop, length_app. done.
Qed.

Lemma accessible_all c a n : (∀ a, smap_allows c a = true) → accessible c a n = true.
Proof. intros H. revert a. induction n as [|n IH]; intros a; cbn [accessible]; [done|]. by rewrite H, IH. Qed.

Lemma readv_loop_run s q p i data segs c : (∀ a, smap_allows c a = true) → i_class i = TmpFileInode data ∧ length data < 2 ^ 64 →
  ∀ d off iov total m, fd_offset d = off ∧ 0 ≤ off < 2 ^ 64 → bytes_at m iov (iovecs segs) →
  Forall (good_seg m iov (16 * length segs)) segs → 0 ≤ total → total + length (readable off (seg_total segs) data) < 2 ^ 31 → ∃ m',
  readv_loop (length segs) q p iov total (file_st s q d p i (mk_umem c m)) =
    Ok (file_st s q (with_offset (off + length (readable off (seg_total segs) data)) d) p i (mk_umem (clac c) m'),
        Some (total + length (readable off (seg_total segs) data))) ∧
  scattered segs (readable off (seg_total segs) data) m m'.
Proof.
  intros Hc Hk. induction segs as [|[base len] segs IH]; intros d off iov total m Hoff Hb Hsegs Ht Hmax.
  { exists m. cbn. by rewrite !Z.add_0_r, <- (proj1 Hoff), with_offset_id. }
  assert (0 ≤ seg_total segs) as Hsum.
  { apply Forall_cons in Hsegs as [_ H]. clear -H. induction H as [|x l (? & _) _ IH]; cbn; [done|]. unfold seg_total in IH. lia. }
  apply Forall_cons in Hsegs as [([Hbase Hlen] & Hmap & Hapart) Hsegs]. cbn [fst snd length] in *.
  assert (bytes_at m iov (le_bytes 8 base) ∧ bytes_at m (iov + 8) (le_bytes 8 len) ∧ bytes_at m (iov + 16) (iovecs segs)) as (H1 & H2 & H3).
  { unfold iovecs in Hb. cbn [fmap list_fmap concat] in Hb. rewrite <- app_assoc, !bytes_at_app in Hb.
    destruct Hb as (? & ? & H3). split_and!; [done..|]. by rewrite <- Z.add_assoc in H3. }
  pose proof (readable_split off len (seg_total segs) data ltac:(lia) ltac:(lia) Hsum) as (R1 & R2 & R3). cbv zeta in *.
  change (seg_total ((base, len) :: segs)) with (len + seg_total segs) in *.
  pose proof (copy_in_run (mk_umem c m) iov _ Hc H1) as C1. pose proof (copy_in_run (mk_umem c m) (iov + 8) _ Hc H2) as C2.
  change (length (le_bytes 8 base)) with 8%nat in C1. change (length (le_bytes 8 len)) with 8%nat in C2.
  cbn [readv_loop]. rewrite (bind_ok _ _ _ _ _ (on_file_mem_ok _ _ _ _ _ _ _ _ _ C2)), !(le_value_bytes 8) by done.
  assert (∀ m1, put_at m base (readable off len data) m1 → bytes_at m1 (iov + 16) (iovecs segs) ∧
    Forall (good_seg m1 (iov + 16) (16 * length segs)) segs) as Hnext.
  { intros m1 Hm1. assert (length (readable off len data) ≤ len) by (unfold readable; rewrite length_take; lia). split.
    - eapply bytes_apart; [exact Hm1| |done]. rewrite iovecs_length. lia.
    - eapply Forall_impl; [exact Hsegs|]. intros sg. cbn beta. apply good_seg_next; [apply Hm1|lia|lia]. }
  destruct (Z.eqb_spec len 0) as [-> |Hne].
  - assert (readable off 0 data = []) as E by done. rewrite E in *. cbn [length] in *. rewrite Z.add_0_r in R2, R3.
    destruct (Hnext m ltac:(by split_and!)) as [Hb' Hs']. rewrite Z.add_0_l in *. rewrite R3 in *.
    destruct (IH d off (iov + 16) total m Hoff Hb' Hs' Ht Hmax) as (m' & Hrun & Hsc). exists m'. split; [exact Hrun|].
    cbn [scattered]. exists m. split; [by split_and!|]. by rewrite R2.
  - rewrite (bind_ok _ _ _ _ _ (on_file_mem_ok _ _ _ _ _ _ _ _ _ C1)), (bind_ok _ _ _ _ _ (on_file_mem_ok _ _ _ _ _ _ _ _ _ C2)).
    rewrite !(le_value_bytes 8) by done. set (r := readable off len data) in *.
    assert (length r ≤ len ∧ (length r ≤ length data - off ∨ length r = 0%nat)) as [Hrl Hrd] by (unfold r, readable; rewrite length_take, length_drop; lia).
    pose proof (inode_read_run s q d p i (mk_umem c m) data off base len Hoff Hk ltac:(lia)) as Hrun. cbv zeta in Hrun. fold r in Hrun.
    rewrite accessible_all in Hrun by done. destruct Hrun as (m1 & Hrun & Hput); [lia|intros k Hkk; apply Hmap; lia|].
    rewrite (bind_ok _ _ _ _ _ Hrun). cbn [um_cpu um_mem] in *. rewrite (proj2 (Z.ltb_ge _ _)), to_int_small by lia.
    destruct (Hnext m1 Hput) as [Hb' Hs'].
    destruct (IH (with_offset (off + length r) d) (off + length r) (iov + 16) (total + length r) m1) as (m' & Hrun' & Hsc);
      [split; [done|lia]|done|done|lia|lia|].
    exists m'. split.
    + by rewrite Hrun', R3, Nat2Z.inj_add, !Z.add_assoc.
    + cbn [scattered]. exists m1. split; [by rewrite R1|]. by rewrite R2.
Qed.

Lemma sys_readv_run s fd off data q d p i iov segs : open_file s fd off data q d p i → let r := readable off (seg_total segs) data in
  bytes_at (um_mem (y_user s)) iov (iovecs segs) → Forall (good_seg (um_mem (y_user s)) iov (16 * length segs)) segs → length r < 2 ^ 31 →
  ∃ s', sys_readv fd iov (length segs) s = Ok (s', Some (Z.of_nat (length r))) ∧ file s' fd (off + length r) data ∧
    scattered segs r (um_mem (y_user s)) (um_mem (y_user s')) ∧ um_cpu (y_user s') = clac (stac (um_cpu (y_user s))).
Proof.
  intros Ho r Hb Hsegs Hmax. pose proof Ho as [(Hfd & Hq & Hq0) (Hd & Hp & Hoff & Hor) (Hi & Hk & Hsz & Hdl)]. unfold sys_readv.
  rewrite (bind_ok _ _ _ _ _ (get_fd_run s fd q Hfd Hq)), (proj2 (Z.eqb_neq q 0)), (proj2 (Z.ltb_ge _ 0)) by (done || lia).
  set (u1 := mk_umem (stac (um_cpu (y_user s))) (um_mem (y_user s))).
  rewrite (bind_ok _ _ _ (y_with_user u1 s) ()) by done.
  rewrite (bind_ok _ _ _ (file_st s q d p i u1) d).
  2:{ assert (fdesc q (fsview s) = Ok (file_fs (fsview s) q d p i, d)) as Hrun.
      { rewrite <- (file_fs_id (fsview s) q d p i Hd Hi) at 1. apply fdesc_run. }
      by rewrite (on_fs_ok _ (y_with_user u1 s) _ _ Hrun). }
  rewrite Hp, Nat2Z.id.
  destruct (readv_loop_run s q p i data segs (stac (um_cpu (y_user s))) (smap_stac _) (conj Hk Hdl) d off iov 0 (um_mem (y_user s)))
    as (m' & Hrun & Hsc); [done..|]. fold r in Hrun, Hsc. rewrite Z.add_0_l in Hrun. eexists. split; [exact Hrun|]. split; [|done]. eexists _, _, _, _.
  assert (length r ≤ length data - off ∨ length r = 0%nat) by (unfold r, readable; rewrite length_take, length_drop; lia).
  eapply file_st_open; [exact Ho|done|done|lia|done|done|done].
Qed.

(** ** Seeking *)

(** The offset a seek leads to; [None] is an error. *)
Definition seek_target (off : Z) data (offset whence : Z) : option Z :=
  if whence =? SEEK_SET then if offset <? 0 then None else Some offset
  else if whence =? SEEK_CUR then if off + offset <? 0 then None else Some (off + offset)
  else if whence =? SEEK_END then if length data + offset <? 0 then None else Some (length data + offset)
  else None.

Lemma sys_lseek_run s fd off data q d p i offset whence : open_file s fd off data q d p i → off < 2 ^ 62 → length data < 2 ^ 62 →
  let target := seek_target off data (to_int offset) whence in
  ∃ s', sys_lseek fd offset whence s = Ok (s', if target then 0 else - EINVAL) ∧
    file s' fd (default off target) data ∧ y_user s' = y_user s.
Proof.
  intros Ho Hoff' Hdata target. pose proof Ho as [_ (_ & Hp & Hoff & Hor) (_ & Hk & Hsz & Hdl)]. unfold sys_lseek.
  rewrite (with_desc_run _ _ _ _ _ _ _ _ (λ desc d, inode_lseek (fd_inode d) desc (to_int offset) whence) _ Ho).
  set (o := to_int offset) in *. assert (- 2 ^ 31 ≤ o < 2 ^ 31) as Hor'.
  { unfold o, to_int. pose proof (wrap_range 32 offset ltac:(lia)) as Hw. unfold is_word in Hw. destruct (Z.ltb_spec (wrap 32 offset) (2 ^ 31)); lia. }
  unfold inode_lseek. rewrite Hp.
  rewrite (bind_ok _ _ _ _ _ (on_file_ok _ _ _ _ _ _ _ _ _ _ (file_inode_run _ _ _ _ _))), Hk.
  exists (file_st s q (with_offset (default off target) d) p i (y_user s)). split_and!; [| |done].
  2:{ eexists _, _, _, _. eapply file_st_open; [exact Ho|done|done| |done..]. unfold target, seek_target.
      repeat case_match; cbn; lia. }
  apply on_file_ok. unfold tmp_lseek. rewrite (bind_ok _ _ _ _ _ (fdesc_run _ _ _ _ _)), Hoff, Hsz.
  unfold to_intmax. rewrite !(proj2 (Z.ltb_lt _ (2 ^ 63))) by lia. unfold target, seek_target.
  assert (∀ z, 0 ≤ z < 2 ^ 64 → wrap64 z = z) as Hw by (intros z Hz; by apply wrap_small).
  repeat case_match; cbn [default]; rewrite ?(bind_ok _ _ _ _ _ (set_fdesc_run _ _ _ _ _ _)), ?Hw by lia;
    rewrite ?(with_offset_id d : with_offset off d = d); try done; by rewrite <- Hoff, with_offset_id.
Qed.

(** ** Failures *)

Lemma sys_stat_denied s path stat : smap_allows (um_cpu (y_user s)) path = false → sys_stat path stat s = Fault.
Proof.
  intros H. unfold sys_stat. rewrite (bind_ok (gets (λ s, size (um_mem (y_user s)))) _ s s (size (um_mem (y_user s))) eq_refl). apply bind_fault, on_mem_fault.
  destruct (size (um_mem (y_user s))); cbn [read_cstr]; by apply bind_fault, u_load_denied.
Qed.

Lemma inode_write_denied s q d p i u data buff count : i_class i = TmpFileInode data → smap_allows (um_cpu u) buff = false → 0 < count →
  inode_write p q buff count (file_st s q d p i u) = Fault.
Proof.
  intros Hk Hno Hcount. unfold inode_write.
  rewrite (bind_ok _ _ _ _ _ (on_file_ok _ _ _ _ _ _ _ _ _ _ (file_inode_run _ _ _ _ _))), Hk. unfold tmp_write.
  rewrite (bind_ok _ _ _ _ _ (on_file_ok _ _ _ _ _ _ _ _ _ _ (fdesc_run _ _ _ _ _))).
  rewrite (bind_ok _ _ _ _ _ (on_file_ok _ _ _ _ _ _ _ _ _ _ (tmp_data_run _ _ _ _ i data Hk))).
  rewrite (bind_ok _ _ _ _ _ (on_file_ok _ _ _ _ _ _ _ _ _ _ (set_file_run _ _ _ _ _ _))).
  apply bind_fault. rewrite seqZ_cons by lia. cbn [for_each]. apply bind_fault, bind_fault, on_mem_fault.
  rewrite Z.add_0_r. by apply u_load_denied.
Qed.

Lemma sys_writev_denied s fd off data q d p i iov base len : open_file s fd off data q d p i → is_user_range iov 16 = true →
  bytes_at (um_mem (y_user s)) iov (iovecs [(base, len)]) → 0 ≤ base < 2 ^ 64 → 0 < len < 2 ^ 64 →
  smap_allows (um_cpu (y_user s)) base = false → sys_writev fd iov 1 s = Fault.
Proof.
  intros Ho Hr Hb Hbase Hlen Hno. pose proof Ho as [_ (_ & Hp & Hoff & Hor) (_ & Hk & Hsz & Hdl)]. unfold sys_writev.
  change (1 <? 0) with false. cbv iota. change (Z.to_nat 1) with 1%nat.
  rewrite (with_desc_run _ _ _ _ _ _ _ _ (λ desc d, writev_loop 1 desc (fd_inode d) iov 0) _ Ho), Hp. cbn [writev_loop].
  pose proof (wp_kcopy_from_user iov (iovecs [(base, len)]) (y_user s) (λ l u, l = iovecs [(base, len)] ∧ u = y_user s) Hr Hb (conj eq_refl eq_refl))
    as (u & l & Hrun & -> & ->)%wp_total. change (Z.of_nat (length (iovecs [(base, len)]))) with 16 in Hrun.
  rewrite (bind_ok _ _ _ _ _ (on_file_mem_ok _ _ _ _ _ _ _ _ _ Hrun)).
  change (take 8 (iovecs [(base, len)])) with (le_bytes 8 base). change (drop 8 (iovecs [(base, len)])) with (le_bytes 8 len).
  rewrite !(le_value_bytes 8), (proj2 (Z.eqb_neq len 0)) by (cbn; lia). apply bind_fault.
  eapply inode_write_denied; [exact Hk|done|lia].
Qed.

(** Looking a path up changes nothing. *)
Definition reads {A} (m : M vfs A) : Prop := ∀ f f' a, m f = Ok (f', a) → f' = f.

Lemma reads_bind {A B} (m : M vfs A) (k : A → M vfs B) : reads m → (∀ a, reads (k a)) → reads (m ≫= k).
Proof.
  intros Hm Hk f f' b H. unfold mbind, M_bind in H. destruct (m f) as [[f1 a]| | |] eqn:E; try done.
  apply Hm in E as ->. by eapply Hk.
Qed.
Lemma reads_ret {A} (a : A) : reads (mret a).
Proof. by intros f f' b [= -> _]. Qed.
Lemma reads_fault {A} : reads (A := A) fault.
Proof. by intros f f' b H. Qed.
Lemma reads_gets {A} (g : vfs → A) : reads (gets g).
Proof. by intros f f' b [= -> _]. Qed.
Lemma reads_option {A} (o : option A) : reads (of_option o).
Proof. by intros f f' b H; destruct o; [injection H as -> _|]. Qed.

#[local] Hint Resolve reads_bind reads_ret reads_fault reads_gets reads_option : reads.

Lemma reads_inode p : reads (inode p).
Proof. unfold inode. eauto with reads. Qed.
Lemma reads_mount p : reads (mount_point p).
Proof. unfold mount_point. eauto with reads. Qed.
#[local] Hint Resolve reads_inode reads_mount : reads.

Lemma reads_lookup p name : reads (lookup_name p name).
Proof.
  unfold lookup_name. apply reads_bind; [auto with reads|]. intros i.
  assert (∀ cs, reads (find_child cs name)) as Hc.
  { induction cs as [|c cs IH]; cbn [find_child]; [auto with reads|]. apply reads_bind; [auto with reads|].
    intros j. case_decide; auto with reads. }
  destruct (i_class i); auto with reads; (apply reads_bind; [auto with reads|]; intros mp; destruct (mp_class mp); auto with reads).
Qed.

Lemma reads_resolve path : reads (resolve_path path).
Proof.
  unfold resolve_path, resolve_tokens. apply reads_bind; [auto with reads|]. intros root. destruct (root =? 0); [by intros f f' b H|].
  apply reads_bind; [auto with reads|]. intros cwd. apply reads_bind; [destruct (_ || _); eauto with reads|].
  induction (split_spec SLASH path) as [|t ts IH]; intros cur; cbn [resolve_loop]; [auto with reads|].
  case_decide; [apply IH|]. case_decide; [apply reads_bind; [|apply IH]|apply reads_bind; [apply reads_lookup|]].
  - unfold dotdot. apply reads_bind; [auto with reads|]. intros i. apply reads_bind; [auto with reads|]. intros mp.
    destruct (_ && _); eauto with reads.
  - intros next. destruct (next =? 0); [auto with reads|]. apply reads_bind.
    + unfold find_mount_at. apply reads_bind; [auto with reads|]. intros mps. induction mps as [|mp mps IHm]; cbn [find_mount]; [auto with reads|].
      apply reads_bind; [auto with reads|]. intros m. destruct (_ =? next); auto with reads.
    + intros mp. destruct (negb _); [apply reads_bind; [auto with reads|]; intros m; apply IH|apply IH].
Qed.

Lemma fs_open_adds new_addr f path flags f' q : fs_open new_addr path flags f = Ok (f', q) → q ≠ 0 →
  ∃ p, p ≠ 0 ∧ fdescs f' = <[q := mk_FileDescriptor p path 0 flags]> (fdescs f).
Proof.
  unfold fs_open, mbind, M_bind. destruct (resolve_path path f) as [[f1 p]| | |] eqn:E; try done. apply reads_resolve in E as ->.
  destruct (Z.eqb_spec p 0) as [->|Hp]; [by intros [= _ <-]|]. unfold new_fdesc, mbind, M_bind, gets, modify. cbn.
  unfold inode_open, mbind, M_bind. destruct (inode p _) as [[f2 i]| | |] eqn:E; try done. apply reads_inode in E as ->. cbn.
  intros [= <- <-] _. by exists p.
Qed.

(** The search for a free descriptor ends at the first null pointer, at the latest at [k]. *)
Definition null_or_open f (q : Z) : Prop := q = 0 ∨ ∃ d, fdescs f !! q = Some d ∧ fd_inode d ≠ 0.

Lemma scan_closed s t k (at_ : Z) : t !! k = Some 0 → fdescs (y_fs s) !! 0 = None →
  Forall (null_or_open (y_fs s)) (take k t) → scan_fds t at_ s = Fault.
Proof.
  intros Ht H0. revert t at_ s Ht H0. induction k as [|k IH]; intros t at_ s Ht H0 Hlive; (destruct t as [|q t]; [done|]); cbn in Ht;
    cbn [scan_fds take] in *.
  - injection Ht as ->. apply bind_fault. unfold on_fs, zoom, fdesc, mbind, M_bind, gets. cbn. by rewrite H0.
  - apply Forall_cons in Hlive as [[-> |(d & Hd & Hi)] Hlive].
    { apply bind_fault. unfold on_fs, zoom, fdesc, mbind, M_bind, gets. cbn. by rewrite H0. }
    rewrite (bind_ok _ _ s (y_with_fs (fsview s) s) d).
    2:{ apply on_fs_ok. unfold fdesc, mbind, M_bind, gets. cbn. by rewrite Hd. }
    rewrite (proj2 (Z.eqb_neq _ _)) by done. by apply IH.
Qed.

(** An [open] that finds its file, in a process that has closed a descriptor. *)
Lemma open_after_close s new_addr path flags u str f q k : fd_table (y_proc s) !! k = Some 0 → fdescs (y_fs s) !! 0 = None →
  Forall (null_or_open (y_fs s)) (take k (fd_table (y_proc s))) → ks_from_userspace path (y_user s) = Ok (u, str) →
  fs_open new_addr str flags (fsview s) = Ok (f, q) → q ≠ 0 → sys_open new_addr path flags s = Fault.
Proof.
  intros Hk H0 Hlive Hpath Hopen Hq. destruct (fs_open_adds _ _ _ _ _ _ Hopen Hq) as (p & Hp & Hf). unfold sys_open.
  rewrite (bind_ok _ _ _ _ _ (on_mem_ok _ _ _ _ Hpath)). rewrite (bind_ok _ _ _ _ _ (on_fs_ok _ (y_with_user u s) _ _ Hopen)).
  rewrite (proj2 (Z.eqb_neq q 0)) by done. apply bind_fault. unfold alloc_fd.
  rewrite (bind_ok (gets (λ s, fd_table (y_proc s))) _ _ _ _ eq_refl). apply bind_fault. cbn [y_proc y_with_fs y_with_user].
  apply (scan_closed _ _ k); [done|cbn [y_fs y_with_fs]; by rewrite Hf, lookup_insert_ne|].
  eapply Forall_impl; [exact Hlive|]. intros q' [-> |(d & Hd & Hi)]; [by left|right]. cbn [y_fs y_with_fs]. rewrite Hf.
  destruct (decide (q' = q)) as [->|]; [rewrite lookup_insert_eq|rewrite lookup_insert_ne by done]; eauto.
Qed.

Lemma sys_close_run s fd off data q d p i : open_file s fd off data q d p i → ∃ s',
  sys_close fd s = Ok (s', 0) ∧ fd_table (y_proc s') = <[Z.to_nat fd := 0]> (fd_table (y_proc s)) ∧
  fsview s' = fsview s ∧ y_user s' = y_user s.
Proof.
  intros Ho. pose proof Ho as [(Hfd & Hq & Hq0) (Hd & Hp & Hoff & Hor) (Hi & Hk)]. unfold sys_close.
  rewrite (with_desc_run _ _ _ _ _ _ _ _ (λ desc d, result ← on_fs (inode_close (fd_inode d)); _ ← set_fd fd 0; mret result) _ Ho).
  rewrite Hp. set (s1 := file_st s q d p i (y_user s)).
  rewrite (bind_ok _ _ s1 s1 0).
  2:{ apply on_file_ok. unfold inode_close. by rewrite (bind_ok _ _ _ _ _ (file_inode_run _ _ _ _ _)). }
  eexists. split; [done|]. split_and!; [done| |done]. unfold fsview at 1. cbn. by rewrite file_fs_id.
Qed.

(** ** Listing a directory in pieces *)

Fixpoint dirents (ino : Z) (es : list DirEntry) : list Z :=
  match es with [] => [] | e :: es' => dirent_bytes ino e ++ dirents (ino + 1) es' end.

Lemma getdents_loop_run (max : nat) f q d p i es ino acc : 0 ≤ fd_offset d → fd_offset d + max < 2 ^ 64 →
  getdents_loop max q es ino acc (file_fs f q d p i) =
  let chunk := take max (drop (Z.to_nat (fd_offset d)) es) in
  Ok (file_fs f q (with_offset (fd_offset d + length chunk) d) p i, acc ++ dirents ino chunk).
Proof.
  revert d ino acc. induction max as [|max IH]; intros d ino acc H0 Hmax; cbn [getdents_loop];
    rewrite (bind_ok _ _ _ _ _ (fdesc_run _ _ _ _ _)).
  { cbn. rewrite app_nil_r, Z.add_0_r, with_offset_id. by destruct (es !! Z.to_nat (fd_offset d)). }
  destruct (es !! Z.to_nat (fd_offset d)) as [e|] eqn:He.
  - rewrite (bind_ok _ _ _ _ _ (set_fdesc_run _ _ _ _ _ _)), wrap_small by (unfold is_word; lia).
    rewrite IH by (cbn; lia). cbn [fd_offset with_offset]. rewrite (drop_S es e (Z.to_nat (fd_offset d)) He).
    replace (Z.to_nat (fd_offset d + 1)) with (S (Z.to_nat (fd_offset d))) by lia. cbn [take length dirents].
    rewrite <- app_assoc. do 3 f_equal. unfold with_offset. cbn. f_equal. lia.
  - apply lookup_ge_None in He. rewrite drop_ge by done. cbn. by rewrite app_nil_r, Z.add_0_r, with_offset_id.
Qed.

Lemma dirent_length ino e : length (dirent_bytes ino e) = 275%nat.
Proof.
  unfold dirent_bytes. set (name := take 256 _). assert (length name ≤ 256)%nat by (unfold name; rewrite length_take; lia).
  rewrite !length_app, length_replicate. cbn [length le_bytes]. lia.
Qed.
Lemma dirents_length ino es : length (dirents ino es) = (275 * length es)%nat.
Proof. revert ino. induction es as [|e es IH]; intros ino; cbn [dirents length]; [done|]. rewrite length_app, dirent_length, IH. lia. Qed.

Lemma kcopy_to_user_run u a l : is_user_range a (length l) = true → mapped (um_mem u) a (length l) → ∃ m',
  kcopy_to_user a l u = Ok (mk_umem (um_cpu u) m', ()) ∧ put_at (um_mem u) a l m'.
Proof.
  intros Hr Hm. cut (wp (kcopy_to_user a l) False (λ _ u', ∃ m', u' = mk_umem (um_cpu u) m' ∧ put_at (um_mem u) a l m') u).
  { intros (u' & [] & Hrun & m' & -> & Hm')%wp_total. by exists m'. }
  apply wp_kcopy_to_user; eauto.
Qed.

(** The entries of a directory, as a descriptor at offset [off] lists them into a buffer of [count] bytes. *)
Definition listed (off count : Z) (es : list DirEntry) : list DirEntry :=
  take (Z.to_nat (count / DIRENT_SIZE)) (drop (Z.to_nat off) es).

Lemma sys_getdents64_run s fd q d p i es r buff count : 0 ≤ fd → fd_table (y_proc s) !! Z.to_nat fd = Some q → q ≠ 0 →
  fdescs (y_fs s) !! q = Some d → inodes (y_fs s) !! p = Some i → fs_readdir (fd_path d) [] (fsview s) = Ok (fsview s, (es, r)) →
  0 ≤ fd_offset d → 0 ≤ count < 2 ^ 31 → fd_offset d < 2 ^ 63 → let chunk := listed (fd_offset d) count es in
  is_user_range buff (length (dirents 1 chunk)) = true → mapped (um_mem (y_user s)) buff (length (dirents 1 chunk)) →
  ∃ m', sys_getdents64 fd buff count s =
      Ok (file_st s q (with_offset (fd_offset d + length chunk) d) p i (mk_umem (um_cpu (y_user s)) m'), Z.of_nat (length (dirents 1 chunk))) ∧
    put_at (um_mem (y_user s)) buff (dirents 1 chunk) m'.
Proof.
  intros Hfd Hq Hq0 Hd Hi Hls Hoff Hcount Hmax chunk Hrange Hmap. unfold sys_getdents64.
  pose proof (desc_run s fd q d p i (λ desc d, r ← on_fs (fs_readdir (fd_path d) []);
    if length r.1 <=? fd_offset d then mret 0 else
    dirents ← on_fs (getdents_loop (Z.to_nat (count / DIRENT_SIZE)) desc r.1 1 []);
    _ ← on_mem (kcopy_to_user buff dirents); mret (to_int (length dirents))) (- EBADF) Hfd Hq Hq0 Hd Hi) as Hrun.
  rewrite Hrun. clear Hrun. rewrite <- (file_fs_id (fsview s) q d p i Hd Hi) in Hls.
  rewrite (bind_ok _ _ _ _ _ (on_file_ok _ _ _ _ _ _ _ _ _ _ Hls)). cbn [fst].
  assert (0 ≤ count / DIRENT_SIZE) by (apply Z.div_pos; unfold DIRENT_SIZE; lia).
  assert (length chunk ≤ count / DIRENT_SIZE) as Hchunk by (unfold chunk, listed; rewrite length_take; lia).
  assert (275 * length chunk ≤ count) as Hbytes by (unfold DIRENT_SIZE in Hchunk; lia).
  destruct (Z.leb_spec (length es) (fd_offset d)) as [Hend|Hin].
  - assert (chunk = []) as Hnil by (unfold chunk, listed; rewrite drop_ge by lia; by rewrite take_nil).
    rewrite Hnil. exists (um_mem (y_user s)). cbn. rewrite Z.add_0_r, with_offset_id. split; [|by split_and!]. by destruct (y_user s).
  - assert (count / DIRENT_SIZE < 2 ^ 31) by (unfold DIRENT_SIZE; lia).
    rewrite (bind_ok _ _ _ _ _ (on_file_ok _ _ _ _ _ _ _ _ _ _ (getdents_loop_run (Z.to_nat (count / DIRENT_SIZE)) (fsview s) q d p i es 1 [] Hoff ltac:(lia)))).
    fold (listed (fd_offset d) count es) chunk. cbn [app].
    destruct (kcopy_to_user_run (y_user s) buff (dirents 1 chunk) Hrange Hmap) as (m' & Hcopy & Hput). exists m'. split; [|done].
    rewrite (bind_ok _ _ _ _ _ (on_file_mem_ok _ _ _ _ _ _ _ _ _ Hcopy)). rewrite to_int_small; [done|].
    rewrite dirents_length. lia.
Qed.
End files.


(** C19: a file of a tmpfs is a sequence of bytes with an offset, for the calls that get at their buffers.  With
    CR4.SMAP set, as the kernel runs, a byte of the user half is accessible only while RFLAGS.AC is set.
    [write] does not set it: if its buffer is accessible, it puts the bytes at the offset, zeroes before them
    where the file ended earlier, keeps what lies behind them and moves the offset; if some byte is not, it
    faults.  [read] does not set it either: it delivers the bytes from the offset on, as many as there are
    and were asked for, and moves the offset, or faults if there is a byte to deliver it cannot store.
    [readv] sets it: it delivers the bytes from the offset on to its buffers in order, whether or not the
    buffers were accessible, moves the offset and leaves RFLAGS.AC clear.  [lseek] moves the offset, or fails
    and moves nothing. *)
Theorem tmpfs_file_calls (s : sysfd) (fd off : Z) (data : list Z) : file s fd off data →
  (∀ buff l, bytes_at (um_mem (y_user s)) buff l → off + length l < 2 ^ 64 → length l < 2 ^ 31 →
     if accessible (um_cpu (y_user s)) buff (length l) then
       ∃ s', sys_write fd buff (length l) s = Ok (s', Z.of_nat (length l)) ∧
         file s' fd (off + length l) (splice off l data) ∧ y_user s' = y_user s
     else sys_write fd buff (length l) s = Fault) ∧
  (∀ buff count, 0 ≤ count → let r := readable off count data in
     length r < 2 ^ 31 → mapped (um_mem (y_user s)) buff (length r) →
     if accessible (um_cpu (y_user s)) buff (length r) then
       ∃ s', sys_read fd buff count s = Ok (s', Some (Z.of_nat (length r))) ∧ file s' fd (off + length r) data ∧
         put_at (um_mem (y_user s)) buff r (um_mem (y_user s')) ∧ um_cpu (y_user s') = um_cpu (y_user s)
     else sys_read fd buff count s = Fault) ∧
  (∀ iov segs, let r := readable off (seg_total segs) data in
     bytes_at (um_mem (y_user s)) iov (iovecs segs) → Forall (good_seg (um_mem (y_user s)) iov (16 * length segs)) segs → length r < 2 ^ 31 →
     ∃ s', sys_readv fd iov (length segs) s = Ok (s', Some (Z.of_nat (length r))) ∧ file s' fd (off + length r) data ∧
       scattered segs r (um_mem (y_user s)) (um_mem (y_user s')) ∧ um_cpu (y_user s') = clac (stac (um_cpu (y_user s)))) ∧
  (∀ offset whence, off < 2 ^ 62 → length data < 2 ^ 62 → let target := seek_target off data (to_int offset) whence in
     ∃ s', sys_lseek fd offset whence s = Ok (s', if target then 0 else - EINVAL) ∧
       file s' fd (default off target) data ∧ y_user s' = y_user s).
Proof.
  intros (q & d & p & i & Ho). split_and!.
  - intros. by eapply sys_write_run.
  - intros. by eapply sys_read_run.
  - intros. by eapply sys_readv_run.
  - intros. by eapply sys_lseek_run.
Qed.

(** A process with one descriptor, open on the file [a] of a root file system, which holds [data]; SMAP is on.
    An [iovec] and its buffer lie in user memory, three bytes in kernel memory. *)
Definition demo_proc (cwd : Z) (t : list Z) : Process :=
  mk_Process 1 0 RUNNING NONE 0 0 0 0 0 cwd 0 0 0 (mk_Heap 0 0 0 0) 0 0 0 0 0 0 t 0 0 0.
Definition demo_sys_fs : vfs :=
  match (_ ← inode_create demo_new 1 (lit "a"); fs_open demo_new (lit "/a") 2) demo_root with Ok (s, _) => s | _ => demo_root end.
Definition demo_data_fs (data : list Z) : vfs :=
  with_inodes (alter (λ i, with_size (length data) (with_class (TmpFileInode data) i)) 3) demo_sys_fs.
Definition demo_kernel_buffer : Z := 0xFFFF800000000000.
Definition demo_bytes : mem :=
  list_to_map (zip (seqZ 4096 19) (le_bytes 8 4112 ++ le_bytes 8 3 ++ [47; 97; 0])) ∪
  list_to_map (zip (seqZ demo_kernel_buffer 3) [1; 2; 3]).
Definition demo_sys (data : list Z) : sysfd :=
  mk_sysfd (demo_data_fs data) (demo_proc 1 [4]) ∅ (console0 demo_fb) keyboard0 (mk_umem (with_cr4 (Z.shiftl 1 21) cpu0) demo_bytes).

Lemma demo_sys_file : file (demo_sys [7; 8]) 0 0 [7; 8].
Proof. eexists 4, _, 3, _. split; [by vm_compute|split_and!; by vm_compute|split_and!; by vm_compute]. Qed.

(** [readv] reads the file into user memory; [write] takes the bytes of a kernel buffer, and faults on those of a
    user buffer. *)
Lemma tmpfs_file_calls_witness :
  (∃ s', sys_readv 0 4096 1 (demo_sys [7; 8]) = Ok (s', Some 2) ∧ file s' 0 2 [7; 8] ∧ bytes_at (um_mem (y_user s')) 4112 [7; 8]) ∧
  (∃ s', sys_write 0 demo_kernel_buffer 3 (demo_sys [7; 8]) = Ok (s', 3) ∧ file s' 0 3 [1; 2; 3]) ∧
  sys_write 0 4112 2 (demo_sys [7; 8]) = Fault ∧ sys_read 0 4112 1 (demo_sys [7; 8]) = Fault.
Proof.
  destruct (tmpfs_file_calls (demo_sys [7; 8]) 0 0 [7; 8] demo_sys_file) as (Hw & Hr & Hv & _). split_and!.
  - destruct (Hv 4096 [(4112, 3)]) as (s' & H1 & H2 & (m1 & H3 & H4) & _).
    + vm_compute. repeat split.
    + constructor; [|constructor]. split_and!; [cbn; lia..| |cbn; lia].
      intros k Hk. cbn in Hk. assert (k = 0 ∨ k = 1 ∨ k = 2) as [-> |[-> | ->]] by lia; vm_compute; by eexists.
    + vm_compute. reflexivity.
    + exists s'. split; [exact H1|]. split; [exact H2|]. cbn [scattered] in H4. rewrite H4. exact (proj1 (proj2 H3)).
  - destruct (Hw demo_kernel_buffer [1; 2; 3]) as (s' & H1 & H2 & _); [vm_compute; repeat split|reflexivity|reflexivity|].
    exists s'. split; [exact H1|exact H2].
  - apply (Hw 4112 [47; 97]); [vm_compute; repeat split|reflexivity|reflexivity].
  - apply (Hr 4112 1); [lia|vm_compute; reflexivity|].
    intros k Hk. change (0 ≤ k < 1) in Hk. replace k with 0 by lia. vm_compute. by eexists.
Defined.

(** The number [bad] is not one of an open descriptor. *)
Definition not_open (s : sysfd) (bad : Z) : Prop := bad < 0 ∨ default 0 (fd_table (y_proc s) !! Z.to_nat bad) = 0.

(** C36: file calls that go wrong.  Where the CPU keeps the kernel from a user buffer, [stat] faults on a path
    there, and [writev] of one buffer there to a file of a tmpfs, because they do not lift the protection.  [close]
    leaves a null pointer in the table, and from then on every [open] that finds its file faults, because
    the search for a free descriptor dereferences it.  A number that is not in the table, or whose
    descriptor was closed, is refused by every call that takes one, except [fcntl], which answers 1 to
    whatever it is asked. *)
Theorem file_calls_go_wrong (s : sysfd) (fd off : Z) (data : list Z) : file s fd off data →
  (∀ path stat, smap_allows (um_cpu (y_user s)) path = false → sys_stat path stat s = Fault) ∧
  (∀ iov base len, is_user_range iov 16 = true → bytes_at (um_mem (y_user s)) iov (iovecs [(base, len)]) →
     0 ≤ base < 2 ^ 64 → 0 < len < 2 ^ 64 → smap_allows (um_cpu (y_user s)) base = false → sys_writev fd iov 1 s = Fault) ∧
  (fdescs (y_fs s) !! 0 = None → Forall (null_or_open (y_fs s)) (fd_table (y_proc s)) →
     ∃ s', sys_close fd s = Ok (s', 0) ∧ ∀ new_addr path flags u str f q,
       ks_from_userspace path (y_user s) = Ok (u, str) → fs_open new_addr str flags (fsview s) = Ok (f, q) → q ≠ 0 →
       sys_open new_addr path flags s' = Fault) ∧
  (∀ bad a b, not_open s bad →
     sys_read bad a b s = Ok (s, Some (- EBADF)) ∧ sys_readv bad a b s = Ok (s, Some (- EBADF)) ∧
     sys_write bad a b s = Ok (s, - EBADF) ∧ sys_writev bad a b s = Ok (s, - EBADF) ∧
     sys_lseek bad a b s = Ok (s, - EBADF) ∧ sys_ioctl bad a b s = Ok (s, - EBADF) ∧ sys_fstat bad a s = Ok (s, - EBADF) ∧
     sys_fchdir bad s = Ok (s, - EBADF) ∧ sys_getdents64 bad a b s = Ok (s, - EBADF) ∧ sys_close bad s = Ok (s, - EBADF)) ∧
  (∀ any cmd arg, sys_fcntl any cmd arg s = Ok (s, 1)).
Proof.
  intros (q & d & p & i & Ho). split_and!.
  - intros. by apply sys_stat_denied.
  - intros. by eapply sys_writev_denied.
  - intros H0 Hlive. destruct (sys_close_run s fd off data q d p i Ho) as (s' & Hc & Ht & Hf & Hu). exists s'. split; [done|].
    intros new_addr path flags u str f q' Hpath Hopen Hq'. pose proof (of_fd _ _ _ _ _ _ _ _ Ho) as (Hfd & Hq & _).
    assert (fdescs (y_fs s') = fdescs (y_fs s)) as Hd by exact (f_equal fdescs Hf).
    eapply (open_after_close s' new_addr path flags u str f q' (Z.to_nat fd)); rewrite ?Ht, ?Hu, ?Hf, ?Hd; try done.
    + apply list_lookup_insert_eq. by eapply lookup_lt_Some.
    + rewrite take_insert_ge by done. apply Forall_take. eapply Forall_impl; [exact Hlive|]. intros x. unfold null_or_open. by rewrite Hd.
  - intros bad a b Hbad. assert (get_fd bad s = Ok (s, 0)) as Hrun.
    { unfold get_fd, mbind, M_bind, gets. destruct (Z.ltb_spec bad 0); [done|]. destruct Hbad as [Hbad|Hbad]; [lia|]. by rewrite Hbad. }
    unfold sys_read, sys_readv, sys_write, sys_writev, sys_lseek, sys_ioctl, sys_fstat, sys_fchdir, sys_close, sys_getdents64.
    by rewrite !(bind_ok _ _ _ _ _ Hrun).
  - done.
Qed.

(** The path "/a" is at 4112. *)
Lemma file_calls_go_wrong_witness : sys_stat 4112 0 (demo_sys [7; 8]) = Fault ∧ sys_writev 0 4096 1 (demo_sys [7; 8]) = Fault ∧
  (∃ s', sys_close 0 (demo_sys [7; 8]) = Ok (s', 0) ∧ sys_open demo_new 4112 0 s' = Fault) ∧
  sys_fchdir 1 (demo_sys [7; 8]) = Ok (demo_sys [7; 8], - EBADF).
Proof.
  destruct (file_calls_go_wrong (demo_sys [7; 8]) 0 0 [7; 8] demo_sys_file) as (H1 & H2 & H3 & H4 & _). split_and!.
  - apply H1. vm_compute. reflexivity.
  - apply (H2 4096 4112 3); [vm_compute; reflexivity|vm_compute; repeat split|lia|lia|vm_compute; reflexivity].
  - destruct H3 as (s' & Hc & Ho).
    + vm_compute. reflexivity.
    + constructor; [|constructor]. right. eexists. split; [vm_compute; reflexivity|vm_compute; discriminate].
    + exists s'. split; [exact Hc|]. eapply Ho; [vm_compute; reflexivity|vm_compute; reflexivity|discriminate].
  - apply (H4 1 0 0). right. reflexivity.
Defined.

(** A directory listed in pieces.  A call whose buffer holds [k] records delivers the next [k] entries, or
    as many as are left, in the order of the directory, and moves the offset of the descriptor past them; so
    the entries of one call and of those after it are the entries from the offset on, and a call at the end
    returns 0. *)
Theorem getdents_lists_in_pieces (s : sysfd) (fd q : Z) (d : FileDescriptor) (p : Z) (i : Inode) (es : list DirEntry) (r buff count : Z) :
  0 ≤ fd → fd_table (y_proc s) !! Z.to_nat fd = Some q → q ≠ 0 → fdescs (y_fs s) !! q = Some d → inodes (y_fs s) !! p = Some i →
  fs_readdir (fd_path d) [] (fsview s) = Ok (fsview s, (es, r)) → 0 ≤ fd_offset d < 2 ^ 63 → 0 ≤ count < 2 ^ 31 →
  let chunk := listed (fd_offset d) count es in
  is_user_range buff (length (dirents 1 chunk)) = true → mapped (um_mem (y_user s)) buff (length (dirents 1 chunk)) →
  ∃ s', sys_getdents64 fd buff count s = Ok (s', Z.of_nat (275 * length chunk)) ∧
    put_at (um_mem (y_user s)) buff (dirents 1 chunk) (um_mem (y_user s')) ∧
    fdescs (y_fs s') !! q = Some (with_offset (fd_offset d + length chunk) d) ∧
    drop (Z.to_nat (fd_offset d)) es = chunk ++ drop (Z.to_nat (fd_offset d + length chunk)) es.
Proof.
  intros Hfd Hq Hq0 Hd Hi Hls [Hoff Hmax] Hcount chunk Hrange Hmap.
  destruct (sys_getdents64_run s fd q d p i es r buff count Hfd Hq Hq0 Hd Hi Hls Hoff Hcount Hmax Hrange Hmap) as (m' & Hrun & Hput).
  fold chunk in Hrun, Hput. rewrite (dirents_length 1 chunk) in Hrun. eexists. split_and!; [exact Hrun|exact Hput| |].
  - cbn. by rewrite lookup_insert_eq.
  - unfold chunk, listed. set (k := Z.to_nat (count / DIRENT_SIZE)). set (rest := drop (Z.to_nat (fd_offset d)) es).
    rewrite <- (take_drop k rest) at 1. f_equal. unfold rest. rewrite !drop_drop.
    rewrite length_take, length_drop. destruct (decide (k ≤ length es - Z.to_nat (fd_offset d))%nat).
    + f_equal. lia.
    + rewrite !drop_ge; [done|lia|lia].
Qed.

(** The directory of [demo_sys_fs], with a buffer for one record. *)
Definition demo_list_fs : vfs := match fs_open demo_new (lit "/") 0 demo_sys_fs with Ok (s, _) => s | _ => demo_sys_fs end.
Definition demo_list : sysfd :=
  mk_sysfd demo_list_fs (demo_proc 1 [4; 5]) ∅ (console0 demo_fb) keyboard0
    (mk_umem cpu0 (list_to_map ((λ a, (a, 0)) <$> seqZ 4096 300))).

Lemma getdents_lists_in_pieces_witness : ∃ s', sys_getdents64 1 4096 300 demo_list = Ok (s', 275) ∧
  fdescs (y_fs s') !! 5 = Some (mk_FileDescriptor 1 (lit "/") 1 0).
Proof.
  edestruct (getdents_lists_in_pieces demo_list 1 5 (mk_FileDescriptor 1 (lit "/") 0 0) 1) as (s' & H1 & _ & H3 & _);
    [lia|reflexivity|lia|vm_compute; reflexivity|vm_compute; reflexivity|vm_compute; reflexivity|cbn; lia|..|exists s'; split; [exact H1|exact H3]].
  - lia.
  - vm_compute. reflexivity.
  - intros j Hj. apply (demo_memory_at 4096 300). revert Hj.
    match goal with |- _ ≤ _ < ?n → _ => replace n with 275 by (vm_compute; reflexivity) end. lia.
Defined.
